(* ===== verification/_CoqProject ===== *)
-Q . S2P
Prelude.v
Time.v
Npdu.v
Crc.v
Sink.v
Cobs.v
Frame.v
Stream.v
Config.v
Counters.v
Actions.v
Queue.v
Master.v
MasterSafety.v
MasterTheorems.v
Bvll.v
Bvll6.v
Fdt.v
Bdt.v
Bbmd.v
Forwarding.v
NodeLink.v
LinkTheorems.v
Lifecycle.v
Exchange.v
Node.v
NodeCore.v
NodeSim.v
NodeTheorems.v
Arrays.v
RouteTable.v
RouteTheorems.v
RouteSafety.v
Discovery.v
RouterMessage.v
RouterGroups.v
RouterData.v
RouterOutput.v
RouterEngine.v
RouterLogic.v
RouterEmits.v
RouterHandlers.v
RouterPoll.v
RouterTasks.v
RouterInv.v
RouterRun.v
RouterCalls.v
RouterExample.v
RouterTheorems.v
RouterRelay.v
RouterAnswer.v
RouterFlow.v
WireError.v
Tags.v
Utf8.v
Values.v
ValuesTheorems.v
Primitives.v
PrimitivesTheorems.v
Tagged.v
TaggedTheorems.v
Staging.v
Timestamp.v
References.v
Apdu.v
ApduTheorems.v
Segments.v
Calendar.v
DeviceClock.v
Outbox.v
Address.v
SortedVec.v
CovTable.v
CovTheorems.v
CovAdmission.v
CovMultiple.v
CovRuns.v
Coordinator.v
CoordinatorTheorems.v
Services.v
