(* ===== verification/Prelude.v ===== *)
(** * rusty-bacnet: the sans-I/O cores, modelled and verified

    rusty-bacnet is a BACnet stack in Rust. Its portable part is a set of crates without I/O, clock or
    allocator that firmware and the hosted stack share: times (crates/bacnet-time), the network-layer header
    (bacnet-npdu), the MS/TP frame codec and master node (bacnet-mstp-codec, bacnet-mstp-core), the BACnet/IP
    codec and BBMD (bacnet-bip-codec, bacnet-bip-core), the router (bacnet-router-core) the application-layer codec
    (bacnet-encoding, over the types of bacnet-types), the first services on it (bacnet-services), the endpoint's invoke IDs (bacnet-endpoint-core) and the device (bacnet-device-core, over the objects of bacnet-objects). The hosted crates (transport,
    network, client, server and the tools) drive these cores from async tasks. This development models the
    cores: each function is translated to a Rocq function that can be run, and the theorems are about those
    functions.

    ** The files and the code they model

    - [Prelude]: results and their [let?] bind, machine widths and saturating and checked arithmetic,
      record updates ([r <| f := v |>]), slices, the tactics [width], [divmod], [bac_simp] and the [bac] hints.
    - [Time] (bacnet-time): [Duration] and [Instant] as [Z] in nanoseconds below [2^64], saturating as in
      the source; the portable 64-bit division; the earliest deadline.
    - [Npdu] (bacnet-npdu): the NPDU view's decoder and encoder, MACs, priorities, limits, rejects.
    - [Crc], [Sink], [Cobs], [Frame] (bacnet-mstp-codec crc.rs, sink.rs, cobs.rs, frame.rs, decode.rs): table-driven
      CRCs, the sinks a frame is written to behind a type class with its laws, COBS encoding straight into a sink and
      decoding in place, whole frames.
    - [Stream] (bacnet-mstp-codec stream.rs): the octet-stream decoder over a caller's buffer.
    - [Config], [Counters], [Actions], [Queue] (bacnet-mstp-core config.rs, counters.rs, actions.rs, queue.rs and
      queue/): timing parameters and their validation, the counters, the action queue, the send queue with its lanes,
      priorities and ageing.
    - [Master] (bacnet-mstp-core state.rs and state/): the master node's state and every input it takes, over any queue
      that implements the class [QueueStorage]; [MasterSafety] holds the invariant and its preservation by each input,
      [MasterTheorems] the properties.
    - [Bvll], [Bvll6] (bacnet-bip-codec): B/IP messages for IPv4 and IPv6, with table entries kept as received octets
      or as typed entries, and an equivalence that forgets the difference.
    - [Fdt], [Bdt] (bacnet-bip-core bbmd/fdt.rs, bbmd/bdt.rs, bbmd/nat.rs): the foreign device table and the
      broadcast distribution table.
    - [Bbmd] (bacnet-bip-core bbmd/forward.rs, bbmd/serve.rs, subnet.rs): the two tables together under the host's
      [Rules] class, the targets of each broadcast, the management requests; [Forwarding] its properties.
    - [NodeLink] (bacnet-bip-core node/config.rs, addressing.rs, receive.rs, send.rs): what a B/IP link makes of a datagram
      and where it sends one; [LinkTheorems] its properties, across several hosts where a broadcast crosses them.
    - [Lifecycle] (node/registration.rs): a foreign device's registration, its attempts, lease and retries.
    - [Exchange] (node/exchange.rs, counters.rs, actions.rs) and [Node] (node/engine.rs): the exchange slots and the
      node's calls. [NodeCore] is the small machine a node implements, [NodeSim] shows that every call is a sequence
      of its steps, [NodeTheorems] what follows for every sequence of calls.
    - [Arrays] (the array code of bacnet-router-core): sifts, sweeps and binary search over fixed arrays.
    - [RouteTable] (bacnet-router-core table.rs and table/): routes, claims, rejects, hold-downs; [RouteTheorems]
      the refinement to a finite map, [RouteSafety] the invariants and timing properties.
    - [Discovery], [RouterMessage] (bacnet-router-core discovery.rs, message.rs): searches for routes, and the
      data of network-layer messages.
    - [RouterGroups], [RouterData], [RouterOutput], [RouterEngine] (bacnet-router-core router.rs, router/ and node.rs): a
      port's group addresses behind a class, configuration, events and the host's class [Host]; the output, the queue of tasks,
      congestion and the ring of broadcasts seen; the engine itself, in a state monad over its storage and the
      host: receiving, forwarding, control messages, originating, polling, deadlines. [RouterLogic] is the weakest-precondition calculus of
      that monad, [RouterEmits] and [RouterHandlers] say what each handler leaves to be sent, [RouterPoll], [RouterTasks] and [RouterInv]
      what polling makes of it, [RouterRun] and [RouterCalls] that every call keeps the invariant. [RouterTheorems], [RouterRelay],
      [RouterAnswer] and [RouterFlow] hold the properties, [RouterExample] the router their witnesses use.
    - [WireError] (bacnet-types error.rs and error/): the errors codecs report, with their kinds, offsets and contexts.
    - [Tags] (bacnet-encoding tags.rs, tags/encode.rs, sink.rs): tag headers, the skipping of a constructed value, the sinks of encoders.
    - [Utf8] (the standard library's [str::from_utf8]), [Values] (bacnet-types primitives.rs; bacnet-encoding primitives/scalar.rs and
      strings.rs) and [Primitives] (primitives/mod.rs, view.rs): the values of the standard's data types, their encoders and decoders;
      [ValuesTheorems] and [PrimitivesTheorems] their properties.
    - [Tagged], [Staging] (constructed/tagged.rs, staging.rs): the readers of context-tagged members and the staged writes of the
      constructed encoders; [TaggedTheorems] the laws of a member. [Timestamp] (primitives/timestamp.rs) and [References]
      (constructed/reference_sinks.rs, object_property_reference.rs, read_access.rs) are productions built on them.
    - [Apdu] (apdu/mod.rs, header.rs, formal_error.rs): the eight PDUs, the borrowed header, structured error bodies; [ApduTheorems]
      its properties. [Segments] (segmentation.rs): cutting a payload and putting it together again.
    - [Calendar] (bacnet-types calendar.rs) and [DeviceClock] (bacnet-device-core clock/,
      the clock frame and the notification window of bacnet-objects): the synchronized clock and the days it reads.
    - [Outbox] (bacnet-device-core report/outbox.rs): notifications decided but not yet handed out, compacted in place.
    - [Services] (bacnet-services who_is.rs, read_property.rs; bacnet-device-core discovery.rs): Who-Is, I-Am and the device's answer, the
      ReadProperty request. [Address] (bacnet-encoding npdu.rs): a routed message's address.
    - [Coordinator] (bacnet-endpoint-core coordinator.rs, endpoint_destination.rs, endpoint_egress.rs, endpoint_ingress.rs): the leases of
      invoke IDs and the ingress's queues; [CoordinatorTheorems] the histories it may have.
    - [SortedVec] (bacnet-device-core cov/vec_map.rs): vectors kept sorted by a key, over the class [Ordered]; [CovTable] (cov/table.rs,
      admission.rs, flight.rs, observation_order.rs, lifetime.rs, policy.rs, identity.rs, subscription.rs): the table of COV subscriptions;
      [CovTheorems] its invariant and what removing and expiring keep of it, [CovAdmission] and [CovMultiple] the two kinds of
      admission, [CovRuns] reports and the properties over every run.

    State is passed explicitly: a method with a mutable receiver returns the new record with its result; an array in
    use up to a length is the list of all its slots and that length, so that what the code leaves behind the length is there
    too. A callback the code calls is the list of what it was called with, or, where it keeps state, a
    function that threads that state. Debug assertions of the master core, its action queue and the router are flags that stay
    [true] ([asserts], [aq_asserts], [st_asserts]). A driver of the router keeps the discipline its documentation asks for
    ([permitted]): a refusal is reported for the send just polled, and octets and addresses fit their types. Edits of the routing table through
    [Router::table_mut] are calls too, but only those that name ports the router has and leave the routes to its own networks alone
    ([edit_ok]): the interface allows others, after which a route may lead to a port the router lacks and carries nothing.

    ** What is shown

    - Codecs: what is encoded decodes to the same value whatever follows it, decoders accept exactly the
      encodings of valid values and name the first fault otherwise, and the optimised forms (CRC tables, in-place
      and streaming COBS, windowed stream buffer) equal their plain definitions. The stream decoder refines an
      abstract one, loses nothing but noise, delivers every good frame however it is cut into chunks, and
      consumes every octet once.
    - Master node: over every sequence of inputs from power-up, no assertion fires, at most one frame of the
      station's is in flight, the core always has a deadline while it needs one, its loops return, a start is confirmed
      only for a valid frame of the station's own, after the turnaround time and before an asker
      may have given up, and the slot that generates a token is each station's own.
    - Send queue and action queue: the abstract queues they refine, their invariants, no starvation.
    - BBMD: the tables refine finite maps and keep their invariant under every operation; each broadcast's targets are
      exactly those owed, cut at the caller's storage, never twice to one address, never from peer to peer; each
      request's answer and effect.
    - B/IP node: what it takes from a datagram is what the rules let through; a foreign device's broadcast reaches the
      other devices of its BBMD; an answer fits one exchange; a registration is always in flight or due, its lease
      ends before the BBMD's entry does, its retries follow the schedule, a held broadcast is
      released or discarded once; catching up on deadlines ends.
    - Routing table: the sorted array refines a finite map with the same answers; rows stay well-formed; direct
      routes are fixed; hardened convergence needs two claims; rejects are held down; sweeps change no decision.
      Searches for a network are a cooldown apart.
    - Router: over every sequence of permitted calls no assertion fires and the ports' own networks keep their direct routes; every
      frame draws one of a short list of outputs and nothing else, by the route the router's own table holds; a message with a route is sent on once, rewritten exactly, and a global
      broadcast once to each other port; no chain of routers forwarding one message or global broadcast is longer than 255, loops
      included (relayed network messages have no hop count, and are not covered); polling ends, and
      what it yields fits its link and decodes; a table query is answered with every route; congestion is announced exactly as the
      policy says; and a repeated broadcast is recognised exactly while the ring holds the first.

    - Application layer: a tag is read exactly when its octets are a tag's, a constructed value is skipped exactly when its tags pair up
      within the nesting bound; values, timestamps, read-access specifications and PDUs are written without a panic and read back as
      they were, but for the fields the wire rounds or leaves out; what a decoder yields fits its types; the borrowed header of a PDU and the owned PDU agree; a segmented payload
      survives any arrival of its segments and each fits the PDU it was cut for.
    - Device clock: day counts and dates are inverse, without an overflow of their 32 bits in the years they are made for, a date range holds exactly the dates between its ends, the clock counts the seconds
      since it was set and reads back what it was set to. The outbox refines a queue of reports.
    - Invoke IDs: over every sequence of reservations, answers and releases nothing panics under the lock and the history is a lawful one:
      an ID has one lease at a time, a lease one terminal answer, from its own peer, and one release; each outcome is exactly characterised.
      What is received ends in exactly one queue. A Who-Is is answered exactly when it asks for the device, and the answer reads back.
    - COV table: over every sequence of calls, keys are unique, the counts are those of the entries, the caps hold and no deadline is
      passed over; expiry removes exactly what is due; a subscription is taken exactly when it is admissible, many are taken up to the
      first that doesn't fit, and the table afterwards is exactly described; at most one confirmed report of a flight is outstanding, and a
      stale result changes nothing.

    ** Fuel and bounds

    Loops over a counter or an iterator are structural. The others carry fuel: the walk of a constructed value, a cut payload, COBS blocks and the stream's
    compaction as many rounds as octets, binary search and the outbox's compaction as many as rows, the 64-bit division the shift it starts from, the
    master's use of the token [N_poll] rounds and one turn of its cycle of calls, the drain of its decoder the buffer's
    capacity, a node's catching up two rounds for each exchange slot and three more, a router's poll one for each output its tasks
    and announcements may still write ([poll_fuel]); each is proved enough (the equations without fuel
    in [Cobs], [extract_iff] in [Tags], [chunks_spec] in [Segments], [compact_spec] in [Stream], [binary_search_spec] in [Arrays], [vec_find_spec] in [SortedVec], [core_loops_end] in [MasterTheorems],
    [catch_up_ends] in [NodeTheorems], [polling_ends] in [RouterTheorems]).
    Octets, ports, networks and addresses are [Z] with width predicates ([is_u8] and so on) where a property needs them.

    ** What is not modelled

    Text formatting (Display and Debug); the host clock adapter; the heap-backed send queue, whose interface is the class
    the master node is proved over; the B/IP port adapters (bacnet-bip-core port/) and the router's glue to its links
    (bacnet-router-core bip.rs, mstp.rs, arrived.rs), which drive the parts modelled here; the constructed productions of
    bacnet-encoding beyond those named above, the other service codecs and the object types built on them, the endpoint's session task, and the parts of bacnet-device-core that run over the objects (the responder, reading and writing, the evaluation of changes and alarms); and the hosted crates, which are I/O and task orchestration around the cores. *)

From Stdlib Require Export ZArith Lia ZifyBool.
From stdpp Require Export base option numbers tactics list.
#[global] Open Scope Z_scope.
#[export] Set Warnings "-clear-no-such-hyp".

(** ** Machine integers *)

Definition U8_MAX : Z := 255.
Definition U16_MAX : Z := 65535.
Definition U32_MAX : Z := 4294967295.
Definition U64_MAX : Z := 18446744073709551615.

Definition is_u8 (x : Z) : Prop := 0 <= x <= U8_MAX.
Definition is_u16 (x : Z) : Prop := 0 <= x <= U16_MAX.
Definition is_u32 (x : Z) : Prop := 0 <= x <= U32_MAX.
Definition is_u64 (x : Z) : Prop := 0 <= x <= U64_MAX.

#[global] Instance is_u8_dec x : Decision (is_u8 x).
Proof. unfold is_u8. apply _. Defined.
#[global] Instance is_u16_dec x : Decision (is_u16 x).
Proof. unfold is_u16. apply _. Defined.
#[global] Instance is_u32_dec x : Decision (is_u32 x).
Proof. unfold is_u32. apply _. Defined.
#[global] Instance is_u64_dec x : Decision (is_u64 x).
Proof. unfold is_u64. apply _. Defined.

(** Octets of a slice: every element fits a [u8]. *)
Abbreviation bytes := (list Z).
Abbreviation wf_bytes := (Forall is_u8).

(** The saturating and checked operations of the unsigned types, with the
    type's largest value as the first argument. *)
Definition sat_add (top a b : Z) : Z := Z.min top (a + b).
Definition sat_sub (a b : Z) : Z := Z.max 0 (a - b).
Definition sat_mul (top a b : Z) : Z := Z.min top (a * b).
Definition chk_add (top a b : Z) : option Z :=
  if a + b <=? top then Some (a + b) else None.
Definition chk_sub (a b : Z) : option Z :=
  if b <=? a then Some (a - b) else None.
Definition chk_mul (top a b : Z) : option Z :=
  if a * b <=? top then Some (a * b) else None.

(** [u32::wrapping_add]. *)
Definition wrapping_add32 (a b : Z) : Z := (a + b) mod 4294967296.

(** ** Byte order *)

Definition from_be16 (hi lo : Z) : Z := 256 * hi + lo.
Definition to_be16 (x : Z) : bytes := [x / 256; x mod 256].
Definition from_le16 (lo hi : Z) : Z := lo + 256 * hi.
Definition to_le16 (x : Z) : bytes := [x mod 256; x / 256].
Definition from_le32 (a b c d : Z) : Z :=
  a + 256 * b + 65536 * c + 16777216 * d.
Definition to_le32 (x : Z) : bytes :=
  [x mod 256; x / 256 mod 256; x / 65536 mod 256; x / 16777216].

(** ** Results *)

Inductive Result (T E : Type) : Type :=
| Ok (x : T)
| Err (e : E).
Arguments Ok {T E} _.
Arguments Err {T E} _.

#[global] Instance Result_eq_dec {T E} `{EqDecision T, EqDecision E} :
  EqDecision (Result T E).
Proof. solve_decision. Defined.

(** The [?] operator. *)
Definition rbind {T U E} (m : Result T E) (k : T -> Result U E) : Result U E :=
  match m with Ok x => k x | Err e => Err e end.

(** [Option::is_some]. *)
Definition is_some {T} (o : option T) : bool :=
  match o with Some _ => true | None => false end.

(** [Option::ok_or]. *)
Definition ok_or {T E} (o : option T) (e : E) : Result T E :=
  match o with Some x => Ok x | None => Err e end.

(** [Result::map_err]. *)
Definition map_err {T E F} (f : E -> F) (m : Result T E) : Result T F :=
  match m with Ok x => Ok x | Err e => Err (f e) end.

Declare Scope bac_scope.
Delimit Scope bac_scope with bac.
Notation "'let?' x := m 'in' k" := (rbind m (fun x => k))
  (at level 10, x strict pattern, m at level 100, k at level 200)
  : bac_scope.
#[global] Open Scope bac_scope.

(** ** Assignments to a field

    A record type lists its fields once, as [eta]; [over f h r] is then [r] with
    [h] applied to its field [f], and [r <| f := v |>] the assignment
    [r.f = v]. *)

Class Settable (R : Type) := eta : R -> R.
Class Setter {R T : Type} (f : R -> T) := over : (T -> T) -> R -> R.
Arguments over {R T} f {Setter} h r.
Ltac solve_setter f :=
  match type of f with
  | ?R -> ?T =>
      exact (fun (h : T -> T) (r : R) =>
        ltac:(let b := eval hnf in (eta r) in
              match b with context C [f r] =>
                let b' := context C [h (f r)] in exact b' end))
  end.
#[export] Hint Extern 1 (Setter ?f) => solve_setter f : typeclass_instances.
Notation "r <| f := v |>" := (over f (fun _ => v) r)
  (at level 1, left associativity, f at level 9, v at level 200) : bac_scope.
Notation "r <| f ::= h |>" := (over f h r)
  (at level 1, left associativity, f at level 9, h at level 200) : bac_scope.

(** ** Slices *)

(** [slice.get(at..at + n)]. *)
Definition slice_get (l : bytes) (pos n : nat) : option bytes :=
  if decide (pos + n <= length l)%nat then Some (take n (drop pos l)) else None.

(** [slice[at..at + src.len()].copy_from_slice(src)]: the source panics when
    the range runs past the slice; every use here is in range. *)
Definition splice (l : bytes) (pos : nat) (src : bytes) : bytes :=
  take pos l ++ src ++ drop (pos + length src) l.

(** ** Automation *)

Create HintDb bac discriminated.

(** Split conjunctions and existentials in hypotheses, boolean tests into
    propositions, and equations between constructors. *)
Ltac bac_simp :=
  repeat match goal with
  | H : _ /\ _ |- _ => destruct H
  | H : exists _, _ |- _ => destruct H
  | H : Ok _ = Ok _ |- _ => injection H as H; subst
  | H : Err _ = Err _ |- _ => injection H as H; subst
  | H : Ok _ = Err _ |- _ => discriminate H
  | H : Err _ = Ok _ |- _ => discriminate H
  | H : Some _ = Some _ |- _ => injection H as H; subst
  | H : Some _ = None |- _ => discriminate H
  | H : None = Some _ |- _ => discriminate H
  | H : (_ && _)%bool = true |- _ => apply andb_prop in H; destruct H
  | H : (_ || _)%bool = false |- _ => apply orb_false_iff in H; destruct H
  | H : negb _ = true |- _ => apply negb_true_iff in H
  | H : negb _ = false |- _ => apply negb_false_iff in H
  | H : bool_decide _ = true |- _ => apply bool_decide_eq_true in H
  | H : bool_decide _ = false |- _ => apply bool_decide_eq_false in H
  end.

(** One case split on the scrutinee of a [match] or [if] of the goal, or of a
    hypothesis, keeping its equation. *)
Ltac bac_case :=
  match goal with
  | |- context [match ?x with _ => _ end] => destruct x eqn:?
  end.
Ltac bac_case_in H :=
  match type of H with
  | context [match ?x with _ => _ end] => destruct x eqn:?
  end.

(** Unfold the width predicates and call [lia]. *)
Ltac width :=
  unfold is_u8, is_u16, is_u32, is_u64, U8_MAX, U16_MAX, U32_MAX, U64_MAX,
    sat_add, sat_sub, sat_mul in *; lia.

(** [lia] with division and modulo turned into equations. *)
Ltac divmod := Z.div_mod_to_equations; lia.

(** ** Lemmas on byte order *)

Lemma from_to_be16 x : is_u16 x -> from_be16 (x / 256) (x mod 256) = x.
Proof. unfold from_be16. intros. divmod. Qed.

Lemma to_from_be16 hi lo : is_u8 hi -> is_u8 lo ->
  to_be16 (from_be16 hi lo) = [hi; lo].
Proof.
  unfold to_be16, from_be16, is_u8, U8_MAX. intros. f_equal; [|f_equal]; divmod.
Qed.

Lemma from_be16_hi hi lo : is_u8 lo -> from_be16 hi lo / 256 = hi.
Proof. unfold from_be16, is_u8, U8_MAX. intros. divmod. Qed.

Lemma from_be16_lo hi lo : is_u8 lo -> from_be16 hi lo mod 256 = lo.
Proof. unfold from_be16, is_u8, U8_MAX. intros. divmod. Qed.

Lemma from_be16_u16 hi lo : is_u8 hi -> is_u8 lo -> is_u16 (from_be16 hi lo).
Proof. unfold from_be16. width. Qed.

Lemma to_be16_wf x : is_u16 x -> wf_bytes (to_be16 x).
Proof.
  unfold to_be16, is_u16, is_u8, U16_MAX, U8_MAX. intros.
  repeat constructor; divmod.
Qed.

Lemma from_to_le16 x : is_u16 x -> from_le16 (x mod 256) (x / 256) = x.
Proof. unfold from_le16. intros. divmod. Qed.

Lemma to_le16_wf x : is_u16 x -> wf_bytes (to_le16 x).
Proof.
  unfold to_le16, is_u16, is_u8, U16_MAX, U8_MAX. intros.
  repeat constructor; divmod.
Qed.

Lemma from_to_le32 x : is_u32 x ->
  from_le32 (x mod 256) (x / 256 mod 256) (x / 65536 mod 256) (x / 16777216) = x.
Proof. unfold from_le32. intros. divmod. Qed.

Lemma to_from_le32 a b c d : is_u8 a -> is_u8 b -> is_u8 c -> is_u8 d ->
  to_le32 (from_le32 a b c d) = [a; b; c; d].
Proof.
  unfold to_le32, from_le32, is_u8, U8_MAX. intros.
  f_equal; [divmod|f_equal; [divmod|f_equal; [divmod|f_equal; divmod]]].
Qed.

Lemma to_le32_wf x : is_u32 x -> wf_bytes (to_le32 x).
Proof.
  unfold to_le32, is_u32, is_u8, U32_MAX, U8_MAX. intros.
  repeat constructor; divmod.
Qed.

#[export] Hint Resolve from_be16_u16 to_be16_wf to_le16_wf to_le32_wf : bac.

(** ** Lemmas on bits *)

(** A [w]-bit value has no bit at or above [w]. *)
Lemma testbit_high x w i : 0 <= x < 2 ^ w -> w <= i -> Z.testbit x i = false.
Proof.
  intros [Hx Hlt] Hi. destruct (Z.eq_dec x 0) as [->|Hne]; [apply Z.testbit_0_l|].
  apply Z.bits_above_log2; [lia|].
  apply Z.log2_lt_pow2; [lia|].
  eapply Z.lt_le_trans; [apply Hlt|]. apply Z.pow_le_mono_r; lia.
Qed.

(** Conversely, a non-negative value without such bits is a [w]-bit value. *)
Lemma bits_bound x w : 0 <= w -> 0 <= x ->
  (forall i, w <= i -> Z.testbit x i = false) -> x < 2 ^ w.
Proof.
  intros Hw Hx Hbits.
  assert (x = x mod 2 ^ w) as ->.
  { apply Z.bits_inj'. intros i Hi.
    destruct (Z_lt_ge_dec i w).
    - by rewrite Z.mod_pow2_bits_low by lia.
    - rewrite Z.mod_pow2_bits_high by lia. apply Hbits. lia. }
  apply Z.mod_pos_bound. lia.
Qed.

Lemma lxor_bound x y w : 0 <= w -> 0 <= x < 2 ^ w -> 0 <= y < 2 ^ w ->
  0 <= Z.lxor x y < 2 ^ w.
Proof.
  intros Hw Hx Hy.
  assert (0 <= Z.lxor x y) by (apply Z.lxor_nonneg; lia).
  split; [done|]. apply bits_bound; [lia..|].
  intros i Hi. rewrite Z.lxor_spec, !(testbit_high _ w) by lia. done.
Qed.

Lemma lxor_u8 x y : is_u8 x -> is_u8 y -> is_u8 (Z.lxor x y).
Proof.
  unfold is_u8, U8_MAX. intros. pose proof (lxor_bound x y 8). lia.
Qed.

Lemma lxor_u32 x y : is_u32 x -> is_u32 y -> is_u32 (Z.lxor x y).
Proof.
  unfold is_u32, U32_MAX. intros. pose proof (lxor_bound x y 32). lia.
Qed.

Lemma lxor_cancel x y : Z.lxor (Z.lxor x y) y = x.
Proof. by rewrite Z.lxor_assoc, Z.lxor_nilpotent, Z.lxor_0_r. Qed.

#[export] Hint Resolve lxor_u8 lxor_u32 : bac.

(** ** Lemmas on slices *)

Lemma slice_get_app (pre x post : bytes) n :
  n = length x -> slice_get (pre ++ x ++ post) (length pre) n = Some x.
Proof.
  intros ->. unfold slice_get. rewrite decide_True.
  - by rewrite drop_app_length, take_app_length.
  - rewrite !length_app. lia.
Qed.

Lemma slice_get_length l pos n s : slice_get l pos n = Some s -> length s = n.
Proof.
  unfold slice_get. case_decide; intros; simplify_eq.
  rewrite length_take, length_drop. lia.
Qed.

Lemma slice_get_wf l pos n s : wf_bytes l -> slice_get l pos n = Some s -> wf_bytes s.
Proof.
  unfold slice_get. case_decide; intros; simplify_eq.
  by apply Forall_take, Forall_drop.
Qed.

(** What [slice_get] found is the part of the list at that place. *)
Lemma slice_get_inv l pos n s : slice_get l pos n = Some s ->
  l = take pos l ++ s ++ drop (pos + n) l /\ length (take pos l) = pos /\ length s = n.
Proof.
  unfold slice_get. case_decide; intros [= <-]. repeat split.
  - by rewrite <-drop_drop, !take_drop.
  - rewrite length_take. lia.
  - rewrite length_take, length_drop. lia.
Qed.

Lemma length_splice l pos src : (pos + length src <= length l)%nat ->
  length (splice l pos src) = length l.
Proof. intros. unfold splice. rewrite !length_app, length_take, length_drop. lia. Qed.

Lemma splice_app (pre src old post : bytes) : length old = length src ->
  splice (pre ++ old ++ post) (length pre) src = pre ++ src ++ post.
Proof.
  intros H. unfold splice. rewrite take_app_length. f_equal. f_equal.
  rewrite <-drop_drop, drop_app_length, <-H, drop_app_length. done.
Qed.

Lemma splice_nil l pos : splice l pos [] = l.
Proof. unfold splice. simpl. rewrite Nat.add_0_r. apply take_drop. Qed.

(** Two copies, one behind the other, are one copy. *)
Lemma splice_splice l pos a b : (pos + length a + length b <= length l)%nat ->
  splice (splice l pos a) (pos + length a) b = splice l pos (a ++ b).
Proof.
  intros. set (p := take pos l). set (x := take (length a) (drop pos l)).
  set (y := take (length b) (drop (pos + length a) l)).
  set (z := drop (pos + length a + length b) l).
  assert (El : l = p ++ (x ++ y) ++ z).
  { unfold p, x, y, z. by rewrite <-app_assoc, <-!drop_drop, !take_drop. }
  assert (Hp : length p = pos) by (unfold p; rewrite length_take; lia).
  assert (Hx : length x = length a) by (unfold x; rewrite length_take, length_drop; lia).
  assert (Hy : length y = length b) by (unfold y; rewrite length_take, length_drop; lia).
  rewrite El, <-Hp, (splice_app p (a ++ b)) by (rewrite !length_app; lia).
  rewrite <-app_assoc, (splice_app p a x) by done.
  replace (length p + length a)%nat with (length (p ++ a)) by apply length_app.
  rewrite app_assoc, (splice_app (p ++ a) b y) by done. by rewrite <-!app_assoc.
Qed.

Lemma splice_all l src : length src = length l -> splice l 0 src = src.
Proof.
  intros H. unfold splice. rewrite take_0, drop_ge, app_nil_r by lia. done.
Qed.

(** A slice read from a part of a list whose place is known. *)
Lemma slice_get_drop l pos n x rest :
  drop pos l = x ++ rest -> n = length x -> (pos <= length l)%nat ->
  slice_get l pos n = Some x /\ drop (pos + n) l = rest.
Proof.
  intros H -> Hpos. unfold slice_get. rewrite <-drop_drop, H, drop_app_length.
  split; [|done]. assert (length (drop pos l) = length x + length rest)%nat
    by (rewrite H, length_app; done).
  rewrite length_drop in *. rewrite decide_True by lia. by rewrite take_app_length.
Qed.

Lemma slice_get_drop_inv l pos n x : slice_get l pos n = Some x ->
  drop pos l = x ++ drop (pos + n) l /\ length x = n /\ (pos + n <= length l)%nat.
Proof.
  unfold slice_get. case_decide; intros [= <-].
  rewrite <-drop_drop, take_drop, length_take, length_drop. split_and!; lia || done.
Qed.

(** ** Exhaustive checks over octets *)

Lemma u8_forall (P : Z -> bool) :
  forallb P (seqZ 0 256) = true -> forall x, is_u8 x -> P x = true.
Proof.
  intros H x Hx. rewrite forallb_forall in H. apply H.
  apply list_elem_of_In, elem_of_seqZ. width.
Qed.

(** Prove [forall x, is_u8 x -> P x = true] goals by evaluating all 256 cases. *)
Ltac by_octets := apply u8_forall; vm_compute; reflexivity.
