(* ===== verification/Time.v ===== *)
(** * Time: nanoseconds on a [u64] (crate bacnet-time)

    [Duration] and [Instant] are newtypes over a [u64] of nanoseconds, kept here
    as [Z] with [is_u64] as their type invariant. The operators saturate, the
    checked forms return [option]. [div_rem] is the binary long division the
    crate uses in place of a 64-bit division routine, and [earliest] merges
    optional deadlines. *)

From S2P Require Import Prelude.

(** [NANOS_PER_MICRO] (bacnet-time/src/lib.rs:99-100) *)
Definition NANOS_PER_MICRO : Z := 1000.
(** [NANOS_PER_MILLI] (bacnet-time/src/lib.rs:101-102) *)
Definition NANOS_PER_MILLI : Z := 1000000.
(** [NANOS_PER_SEC] (bacnet-time/src/lib.rs:103-104) *)
Definition NANOS_PER_SEC : Z := 1000000000.

(** ** Long division *)

(** [u64::leading_zeros]. *)
Definition leading_zeros (x : Z) : Z :=
  if x =? 0 then 64 else 63 - Z.log2 x.

(** [u64 << k]: the bits shifted past bit 63 are lost. *)
Definition shl64 (x k : Z) : Z := Z.shiftl x k mod 2 ^ 64.

(** The [while steps > 0] loop of [div_rem]: [(quotient, rest)] after [steps]
    iterations.
    [div_rem] (bacnet-time/src/divide.rs:25-33) *)
Fixpoint div_rem_loop (steps : nat) (step rest quotient : Z) : Z * Z :=
  match steps with
  | O => (quotient, rest)
  | S steps' =>
      let quotient := shl64 quotient 1 in
      let '(rest, quotient) :=
        if step <=? rest then (rest - step, Z.lor quotient 1)
        else (rest, quotient) in
      div_rem_loop steps' (Z.shiftr step 1) rest quotient
  end.

(** [div_rem] (bacnet-time/src/divide.rs) *)
Definition div_rem (n d : Z) : Z * Z :=
  if (d =? 0) || (n <? d) then (0, n) else
  let shift := leading_zeros d - leading_zeros n in
  let step := shl64 d shift in
  div_rem_loop (Z.to_nat (shift + 1)) step n 0.

(** ** Duration *)

(** [Duration] (bacnet-time/src/duration.rs:8-17) *)
Definition Duration : Type := Z.
(** [Duration::ZERO] (bacnet-time/src/duration.rs:20-21) *)
Definition DURATION_ZERO : Duration := 0.
(** [Duration::MAX] (bacnet-time/src/duration.rs:22-24) *)
Definition DURATION_MAX : Duration := U64_MAX.
(** [Duration::from_nanos] (bacnet-time/src/duration.rs:26-30) *)
Definition duration_from_nanos (nanos : Z) : Duration := nanos.
(** [Duration::from_micros] (bacnet-time/src/duration.rs:32-36) *)
Definition duration_from_micros (micros : Z) : Duration :=
  sat_mul U64_MAX micros NANOS_PER_MICRO.
(** [Duration::from_millis] (bacnet-time/src/duration.rs:38-42) *)
Definition duration_from_millis (millis : Z) : Duration :=
  sat_mul U64_MAX millis NANOS_PER_MILLI.
(** [Duration::from_secs] (bacnet-time/src/duration.rs:44-48) *)
Definition duration_from_secs (secs : Z) : Duration :=
  sat_mul U64_MAX secs NANOS_PER_SEC.
(** [Duration::try_from_micros] (bacnet-time/src/duration.rs:50-57) *)
Definition duration_try_from_micros (micros : Z) : option Duration :=
  chk_mul U64_MAX micros NANOS_PER_MICRO.
(** [Duration::try_from_millis] (bacnet-time/src/duration.rs:59-66) *)
Definition duration_try_from_millis (millis : Z) : option Duration :=
  chk_mul U64_MAX millis NANOS_PER_MILLI.
(** [Duration::try_from_secs] (bacnet-time/src/duration.rs:68-75) *)
Definition duration_try_from_secs (secs : Z) : option Duration :=
  chk_mul U64_MAX secs NANOS_PER_SEC.
(** [Duration::as_micros] (bacnet-time/src/duration.rs:89-93) *)
Definition duration_as_micros (d : Duration) : Z := (div_rem d NANOS_PER_MICRO).1.
(** [Duration::as_millis] (bacnet-time/src/duration.rs:95-99) *)
Definition duration_as_millis (d : Duration) : Z := (div_rem d NANOS_PER_MILLI).1.
(** [Duration::as_secs] (bacnet-time/src/duration.rs:101-105) *)
Definition duration_as_secs (d : Duration) : Z := (div_rem d NANOS_PER_SEC).1.
(** [Duration::checked_add] (bacnet-time/src/duration.rs:107-114) *)
Definition duration_checked_add (a b : Duration) : option Duration :=
  chk_add U64_MAX a b.
(** [Duration::saturating_add] (bacnet-time/src/duration.rs:116-120) *)
Definition duration_saturating_add (a b : Duration) : Duration :=
  sat_add U64_MAX a b.
(** [Duration::checked_sub] (bacnet-time/src/duration.rs:122-129) *)
Definition duration_checked_sub (a b : Duration) : option Duration := chk_sub a b.
(** [Duration::saturating_sub] (bacnet-time/src/duration.rs:131-135) *)
Definition duration_saturating_sub (a b : Duration) : Duration := sat_sub a b.
(** [Duration::checked_mul] (bacnet-time/src/duration.rs:137-144) *)
Definition duration_checked_mul (a factor : Z) : option Duration :=
  chk_mul U64_MAX a factor.
(** [Duration::saturating_mul] (bacnet-time/src/duration.rs:146-150) *)
Definition duration_saturating_mul (a factor : Z) : Duration :=
  sat_mul U64_MAX a factor.
(** [Duration::min] (bacnet-time/src/duration.rs:152-157) *)
Definition duration_min (a b : Duration) : Duration := if a <=? b then a else b.
(** [Duration::max] (bacnet-time/src/duration.rs:159-164) *)
Definition duration_max (a b : Duration) : Duration := if b <=? a then a else b.
(** [Duration::checked_rem] (bacnet-time/src/duration.rs:166-179) *)
Definition duration_checked_rem (a divisor : Duration) : option Duration :=
  if divisor =? 0 then None else Some (div_rem a divisor).2.

(** ** Conversions with [core::time::Duration]

    A [core::time::Duration] is whole seconds on a [u64] and nanoseconds below
    one second. *)
Record CoreDuration := { core_secs : Z; core_subsec : Z }.

(** [Duration::checked_from_core] (bacnet-time/src/convert.rs:27-36) *)
Definition duration_checked_from_core (d : CoreDuration) : option Duration :=
  match chk_mul U64_MAX (core_secs d) NANOS_PER_SEC with
  | Some whole => chk_add U64_MAX whole (core_subsec d)
  | None => None
  end.
(** [Duration::saturating_from_core] (bacnet-time/src/convert.rs:38-48) *)
Definition duration_saturating_from_core (d : CoreDuration) : Duration :=
  default DURATION_MAX (duration_checked_from_core d).
(** [From<Duration> for core::time::Duration] (bacnet-time/src/convert.rs:62-71) *)
Definition duration_into_core (d : Duration) : CoreDuration :=
  let '(secs, nanos) := div_rem d NANOS_PER_SEC in
  {| core_secs := secs; core_subsec := nanos |}.

(** ** Instant *)

(** [Instant] (bacnet-time/src/instant.rs:7-14) *)
Definition Instant : Type := Z.
(** [Instant::ZERO] (bacnet-time/src/instant.rs:17-18) *)
Definition INSTANT_ZERO : Instant := 0.
(** [Instant::MAX] (bacnet-time/src/instant.rs:19-20) *)
Definition INSTANT_MAX : Instant := U64_MAX.
(** [Instant::from_micros] (bacnet-time/src/instant.rs:28-33) *)
Definition instant_from_micros (micros : Z) : Instant :=
  sat_mul U64_MAX micros NANOS_PER_MICRO.
(** [Instant::checked_add] (bacnet-time/src/instant.rs:73-80) *)
Definition instant_checked_add (t : Instant) (d : Duration) : option Instant :=
  chk_add U64_MAX t d.
(** [Instant::saturating_add] (bacnet-time/src/instant.rs:82-86) *)
Definition instant_saturating_add (t : Instant) (d : Duration) : Instant :=
  sat_add U64_MAX t d.
(** [Instant::checked_sub] (bacnet-time/src/instant.rs:88-95) *)
Definition instant_checked_sub (t : Instant) (d : Duration) : option Instant :=
  chk_sub t d.
(** [Instant::saturating_sub] (bacnet-time/src/instant.rs:97-101) *)
Definition instant_saturating_sub (t : Instant) (d : Duration) : Instant :=
  sat_sub t d.
(** [Instant::checked_duration_since] (bacnet-time/src/instant.rs:103-110) *)
Definition instant_checked_duration_since (t earlier : Instant) : option Duration :=
  chk_sub t earlier.
(** [Instant::saturating_duration_since] (bacnet-time/src/instant.rs:112-116) *)
Definition instant_saturating_duration_since (t earlier : Instant) : Duration :=
  sat_sub t earlier.
(** [Instant::max] (bacnet-time/src/instant.rs:125-129) *)
Definition instant_max (a b : Instant) : Instant := if b <=? a then a else b.

(** The [+] and [-] operators of the crate, in a scope of their own.
    [Add<Duration> for Instant] (bacnet-time/src/instant.rs:137-144) *)
Definition instant_add (t : Instant) (d : Duration) : Instant :=
  instant_saturating_add t d.
(** [Sub<Duration> for Instant] (bacnet-time/src/instant.rs:153-160) *)
Definition instant_sub (t : Instant) (d : Duration) : Instant :=
  instant_saturating_sub t d.
(** [Sub for Instant] (bacnet-time/src/instant.rs:169-176) *)
Definition instant_since (t earlier : Instant) : Duration :=
  instant_saturating_duration_since t earlier.

Declare Scope time_scope.
Delimit Scope time_scope with time.
Infix "+:" := instant_add (at level 50, left associativity) : time_scope.
Infix "-:" := instant_sub (at level 50, left associativity) : time_scope.

(** ** Deadlines *)

(** One step of [Iterator::min] over the deadlines that are set. *)
Definition merge_deadline (acc d : option Instant) : option Instant :=
  match acc, d with
  | None, d => d
  | acc, None => acc
  | Some a, Some x => Some (if x <? a then x else a)
  end.

(** [earliest]: [deadlines.into_iter().flatten().min()].
    [earliest] (bacnet-time/src/deadline.rs) *)
Definition earliest (deadlines : list (option Instant)) : option Instant :=
  fold_left merge_deadline deadlines None.

(** ** Correctness *)

Lemma shl64_small x k : 0 <= x -> 0 <= k -> x * 2 ^ k < 2 ^ 64 ->
  shl64 x k = x * 2 ^ k.
Proof.
  intros. unfold shl64. rewrite Z.shiftl_mul_pow2, Z.mod_small by lia. done.
Qed.

Lemma lor_even_1 q : Z.lor (2 * q) 1 = 2 * q + 1.
Proof.
  rewrite <-Z.add_lor_land. replace (Z.land (2 * q) 1) with 0; [lia|].
  change 1 with (Z.ones 1). rewrite Z.land_ones, Z.pow_1_r by lia. divmod.
Qed.

(** The loop invariant: with [k] steps to go the divisor is lined up with bit
    [k - 1] of the quotient still to be found. *)
Lemma div_rem_loop_spec d k : 0 < d -> forall step rest q,
  (k <> 0%nat -> step = d * 2 ^ (Z.of_nat k - 1)) ->
  0 <= rest < d * 2 ^ Z.of_nat k -> 0 <= q ->
  (q + 1) * 2 ^ Z.of_nat k <= 2 ^ 64 ->
  div_rem_loop k step rest q = (q * 2 ^ Z.of_nat k + rest / d, rest mod d).
Proof.
  intros Hd. induction k as [|k IH]; intros step rest q Hstep Hrest Hq Hfit.
  - rewrite Z.pow_0_r in *. simpl.
    rewrite Z.div_small, Z.mod_small by lia. f_equal. lia.
  - rewrite Hstep by done. simpl div_rem_loop.
    replace (Z.of_nat (S k)) with (Z.of_nat k + 1) in * by lia.
    rewrite Z.add_simpl_r. rewrite Z.pow_add_r, Z.pow_1_r in * by lia.
    set (p := 2 ^ Z.of_nat k) in *.
    assert (0 < p) by (unfold p; lia).
    assert (Hq1 : shl64 q 1 = 2 * q) by (rewrite shl64_small; nia).
    rewrite Hq1, lor_even_1.
    assert (Hhalf : k <> 0%nat ->
      Z.shiftr (d * p) 1 = d * 2 ^ (Z.of_nat k - 1)).
    { intros. rewrite Z.shiftr_div_pow2, Z.pow_1_r by lia. unfold p.
      replace (Z.of_nat k) with (Z.of_nat k - 1 + 1) at 1 by lia.
      rewrite Z.pow_add_r, Z.pow_1_r, Z.mul_assoc, Z.div_mul by lia. done. }
    assert (Hdiv : rest / d = (rest - d * p) / d + p)
      by (rewrite <-Z.div_add by lia; f_equal; lia).
    assert (Hmod : rest mod d = (rest - d * p) mod d)
      by (rewrite <-(Z.mod_add (rest - d * p) p) by lia; f_equal; lia).
    destruct (Z.leb_spec (d * p) rest).
    + rewrite IH; [|done|fold p; nia..]. fold p. f_equal; lia.
    + rewrite IH; [|done|fold p; nia..]. fold p. f_equal. lia.
Qed.

(** The shift lines the divisor up with the top bit of the dividend. *)
Lemma div_rem_shift n d : 0 < d <= n -> n <= U64_MAX ->
  let shift := leading_zeros d - leading_zeros n in
  0 <= shift <= 63 /\ d * 2 ^ shift <= n < d * 2 ^ (shift + 1) \/
  0 <= shift <= 63 /\ n < d * 2 ^ shift /\ d * 2 ^ shift < 2 ^ 64.
Proof.
  intros Hd Hn shift.
  assert (Hs : shift = Z.log2 n - Z.log2 d).
  { unfold shift, leading_zeros. repeat (case_match; [lia|]). lia. }
  pose proof (Z.log2_spec d). pose proof (Z.log2_spec n).
  pose proof (Z.log2_nonneg d). pose proof (Z.log2_le_mono d n).
  assert (Z.log2 n <= 63).
  { apply Z.lt_succ_r. apply Z.log2_lt_pow2; unfold U64_MAX in *; lia. }
  assert (2 ^ Z.log2 n <= n < 2 ^ Z.succ (Z.log2 n)) by lia.
  assert (2 ^ Z.succ (Z.log2 n) <= 2 ^ 64) by (apply Z.pow_le_mono_r; lia).
  assert (E : 2 ^ Z.log2 n = 2 ^ Z.log2 d * 2 ^ shift)
    by (rewrite <-Z.pow_add_r by lia; f_equal; lia).
  assert (E' : 2 ^ Z.succ (Z.log2 n) = 2 ^ Z.succ (Z.log2 d) * 2 ^ shift)
    by (rewrite <-Z.pow_add_r by lia; f_equal; lia).
  assert (0 < 2 ^ shift) by lia.
  rewrite Z.pow_add_r, Z.pow_1_r, Z.pow_succ_r in * by lia.
  destruct (Z_lt_ge_dec n (d * 2 ^ shift)); [right|left]; nia.
Qed.

Lemma div_rem_native n d : is_u64 n -> is_u64 d -> 0 < d ->
  div_rem n d = (n / d, n mod d).
Proof.
  unfold is_u64. intros Hn Hd' Hd. unfold div_rem.
  case_match eqn:E.
  - rewrite Z.div_small, Z.mod_small by lia. done.
  - assert (d <= n) by lia.
    pose proof (div_rem_shift n d ltac:(lia) ltac:(lia)) as Hs. simpl in Hs.
    set (shift := leading_zeros d - leading_zeros n) in *.
    assert (0 <= shift <= 63) by (destruct Hs; lia).
    assert (0 < 2 ^ shift) by lia.
    assert (2 ^ (shift + 1) <= 2 ^ 64) by (apply Z.pow_le_mono_r; lia).
    assert (Hfit : d * 2 ^ shift < 2 ^ 64)
      by (unfold U64_MAX in *; destruct Hs; lia).
    rewrite shl64_small by lia.
    rewrite (div_rem_loop_spec d) with (q := 0); rewrite ?Z2Nat.id by lia;
      rewrite ?Z.add_simpl_r; [f_equal; lia|lia..| |lia|].
    + rewrite Z.pow_add_r, Z.pow_1_r in * by lia. destruct Hs; nia.
    + lia.
Qed.

(** The crate's long division by shifts and subtractions computes the
    native quotient and remainder of every pair of [u64]s with a nonzero
    divisor, returns [(0, n)] for a zero one, and both results fit a [u64]. *)
Theorem div_rem_correct n d : is_u64 n -> is_u64 d ->
  div_rem n d = (if d =? 0 then (0, n) else (n / d, n mod d)) /\
  is_u64 (div_rem n d).1 /\ is_u64 (div_rem n d).2.
Proof.
  intros Hn Hd.
  assert (E : div_rem n d = (if d =? 0 then (0, n) else (n / d, n mod d))).
  { destruct (Z.eqb_spec d 0) as [->|]; [done|]. apply div_rem_native; width. }
  rewrite E. split; [done|]. unfold is_u64 in *.
  destruct (Z.eqb_spec d 0); simpl; [lia|].
  pose proof (Z.mod_pos_bound n d). pose proof (Z.mod_le n d).
  pose proof (Z.div_pos n d). pose proof (Z.div_le_upper_bound n d n). nia.
Qed.

Lemma div_rem_correct_witness :
  div_rem 12345678901 1000000000 = (12, 345678901).
Proof. exact (proj1 (div_rem_correct 12345678901 1000000000 ltac:(width) ltac:(width))). Defined.

(** Converting a duration to [core::time::Duration] gives a
    normalised value that converts back to the same duration, and a
    [core::time::Duration] converts exactly when it fits, saturating
    otherwise. *)
Theorem core_duration_roundtrip d c :
  is_u64 d -> is_u64 (core_secs c) -> 0 <= core_subsec c < NANOS_PER_SEC ->
  duration_checked_from_core (duration_into_core d) = Some d /\
  core_subsec (duration_into_core d) < NANOS_PER_SEC /\
  match duration_checked_from_core c with
  | Some x => is_u64 x /\ duration_into_core x = c /\ duration_saturating_from_core c = x
  | None => U64_MAX < core_secs c * NANOS_PER_SEC + core_subsec c /\
            duration_saturating_from_core c = DURATION_MAX
  end.
Proof.
  intros Hd Hs Hn. unfold NANOS_PER_SEC in *.
  assert (Hdr : forall x, is_u64 x ->
    duration_into_core x =
      {| core_secs := x / 1000000000; core_subsec := x mod 1000000000 |}).
  { intros x Hx. unfold duration_into_core, NANOS_PER_SEC.
    rewrite div_rem_native by width. done. }
  pose proof (Z.div_mod d 1000000000).
  pose proof (Z.mod_pos_bound d 1000000000).
  split; [|split].
  - rewrite (Hdr d) by done. unfold duration_checked_from_core, chk_mul, chk_add,
      NANOS_PER_SEC, is_u64 in *. simpl.
    destruct (_ * _ <=? _) eqn:?; [|lia].
    destruct (_ + _ <=? _) eqn:?; [|lia]. f_equal. lia.
  - rewrite (Hdr d) by done. simpl. lia.
  - unfold duration_saturating_from_core, duration_checked_from_core, chk_mul,
      chk_add, NANOS_PER_SEC, is_u64 in *.
    destruct (_ * _ <=? _) eqn:?; simpl; [|lia].
    destruct (_ + _ <=? _) eqn:?; simpl; [|lia].
    split; [lia|]. split; [|done]. rewrite Hdr by lia. destruct c; simpl in *.
    f_equal; divmod.
Qed.

Lemma core_duration_roundtrip_witness :
  duration_checked_from_core (duration_into_core 2500000) = Some 2500000.
Proof.
  exact (proj1 (core_duration_roundtrip 2500000
    {| core_secs := 3; core_subsec := 7 |} ltac:(width) ltac:(simpl; width)
    ltac:(simpl; unfold NANOS_PER_SEC; lia))).
Defined.

Lemma earliest_fold ds acc :
  fold_left merge_deadline ds acc = None <->
  acc = None /\ Forall (fun d => d = None) ds.
Proof.
  revert acc. induction ds as [|d ds IH]; intros acc; simpl.
  - rewrite Forall_nil. tauto.
  - rewrite IH, Forall_cons. destruct acc, d; naive_solver.
Qed.

Lemma earliest_fold_min ds acc m :
  fold_left merge_deadline ds acc = Some m ->
  (acc = Some m \/ Some m ∈ ds) /\
  (forall a, acc = Some a -> m <= a) /\
  (forall x, Some x ∈ ds -> m <= x).
Proof.
  revert acc. induction ds as [|d ds IH]; intros acc; simpl.
  - intros ->. split; [by left|]. split; [intros ? [= ->]; lia|].
    intros x Hx. by apply not_elem_of_nil in Hx.
  - intros H. apply IH in H as (H1 & H2 & H3). clear IH.
    setoid_rewrite elem_of_cons.
    destruct acc as [a|], d as [x|]; simpl in *;
      [|specialize (H2 _ eq_refl); naive_solver|specialize (H2 _ eq_refl); naive_solver
       |naive_solver].
    specialize (H2 _ eq_refl). destruct (Z.ltb_spec x a).
    + split; [naive_solver|]. split; [intros ? [= <-]; lia|].
      intros y [[= ->]|]; auto.
    + split; [naive_solver|]. split; [intros ? [= <-]; lia|].
      intros y [[= ->]|]; [lia|auto].
Qed.

(** Merging optional deadlines ignores the unset ones: the result is
    unset only when every deadline is, and otherwise it is one of the deadlines
    and none is earlier. *)
Theorem earliest_spec ds :
  match earliest ds with
  | None => Forall (fun d => d = None) ds
  | Some m => Some m ∈ ds /\ forall x, Some x ∈ ds -> m <= x
  end.
Proof.
  unfold earliest. destruct (fold_left merge_deadline ds None) eqn:E.
  - apply earliest_fold_min in E as (H1 & _ & H3). naive_solver.
  - by apply earliest_fold in E as [_ ?].
Qed.
