(* ===== verification/Npdu.v ===== *)
(** * The network-layer vocabulary (crate bacnet-npdu)

    The borrowed [Npdu] view with its decoder and encoder, the closed
    [NetworkPriority], the open code sets (kept as their raw octet), the inline
    [Mac], [RejectMessageToNetwork] and [NpduLimits]. A borrowed slice is the
    list of its octets; the encoder's output buffer is threaded as state. *)

From S2P Require Import Prelude.

(** [VERSION] (bacnet-npdu/src/lib.rs:74-75) *)
Definition VERSION : Z := 1.
(** [GLOBAL_NETWORK] (bacnet-npdu/src/lib.rs:77-78) *)
Definition GLOBAL_NETWORK : Z := 65535.
(** [MAX_NPDU] (bacnet-npdu/src/lib.rs) *)
Definition MAX_NPDU : nat := 1497.
(** [MAX_MAC_LEN] (bacnet-npdu/src/lib.rs:86-99) *)
Definition MAX_MAC_LEN : nat := 18.

(** The control octet's flags.
    [NETWORK_MESSAGE] (bacnet-npdu/src/view.rs:17-18) *)
Definition NETWORK_MESSAGE : Z := 128.
(** [DESTINATION] (bacnet-npdu/src/view.rs:19-20) *)
Definition DESTINATION : Z := 32.
(** [SOURCE] (bacnet-npdu/src/view.rs:21-22) *)
Definition SOURCE : Z := 8.
(** [EXPECTING_REPLY] (bacnet-npdu/src/view.rs:23-24) *)
Definition EXPECTING_REPLY : Z := 4.

(** ** Priority *)

(** [NetworkPriority] (bacnet-npdu/src/priority.rs:24-36) *)
Inductive NetworkPriority := Normal | Urgent | CriticalEquipment | LifeSafety.

#[global] Instance NetworkPriority_eq_dec : EqDecision NetworkPriority.
Proof. solve_decision. Defined.

(** [NetworkPriority::from_control] (bacnet-npdu/src/priority.rs:47-57) *)
Definition priority_from_control (control : Z) : NetworkPriority :=
  match Z.land control 3 with
  | 0 => Normal
  | 1 => Urgent
  | 2 => CriticalEquipment
  | _ => LifeSafety
  end.
(** [NetworkPriority::to_raw] (bacnet-npdu/src/priority.rs:59-63) *)
Definition priority_to_raw (p : NetworkPriority) : Z :=
  match p with Normal => 0 | Urgent => 1 | CriticalEquipment => 2 | LifeSafety => 3 end.
(** [TryFrom<u8> for NetworkPriority] (bacnet-npdu/src/priority.rs:66-76) *)
Definition priority_try_from (value : Z) : Result NetworkPriority Z :=
  if 3 <? value then Err value else Ok (priority_from_control value).
(** The derived [Ord]: the numeric order. *)
Definition priority_leb (a b : NetworkPriority) : bool :=
  priority_to_raw a <=? priority_to_raw b.

(** ** Message types and limits *)

(** [NetworkMessageType::is_proprietary] (bacnet-npdu/src/codes.rs:153-158) *)
Definition message_is_proprietary (kind : Z) : bool := 128 <=? kind.
(** [NetworkMessageType::is_removed_security] (bacnet-npdu/src/codes.rs:160-165) *)
Definition message_is_removed_security (kind : Z) : bool :=
  (10 <=? kind) && (kind <=? 17).

(** [NpduLimits] (bacnet-npdu/src/limits.rs:5-16) *)
Record NpduLimits := { limit_unicast : Z; limit_broadcast : Z }.
(** [NpduLimits::both] (bacnet-npdu/src/limits.rs:18-30) *)
Definition limits_both (octets : Z) : NpduLimits :=
  {| limit_unicast := octets; limit_broadcast := octets |}.
(** [NpduLimits::get] (bacnet-npdu/src/limits.rs:32-40) *)
Definition limits_get (l : NpduLimits) (broadcast : bool) : Z :=
  if broadcast then limit_broadcast l else limit_unicast l.

(** ** Link-layer addresses *)

(** [Mac]: a length and an array of [MAX_MAC_LEN] octets.
    [Mac] (bacnet-npdu/src/mac.rs:8-17) *)
Record Mac := { mac_len : nat; mac_octets : bytes }.
(** [Mac::EMPTY] (bacnet-npdu/src/mac.rs:41-46) *)
Definition MAC_EMPTY : Mac := {| mac_len := 0; mac_octets := replicate MAX_MAC_LEN 0 |}.

(** The copy loop of [from_slice] over its index.
    [Mac::from_slice] (bacnet-npdu/src/mac.rs:57-61) *)
Fixpoint mac_copy (fuel pos : nat) (octets array : bytes) : bytes :=
  match fuel with
  | O => array
  | S fuel =>
      match octets !! pos with
      | Some x => mac_copy fuel (S pos) octets (<[pos := x]> array)
      | None => array
      end
  end.
(** [Mac::from_slice] (bacnet-npdu/src/mac.rs:48-64) *)
Definition mac_from_slice (octets : bytes) : Result Mac nat :=
  if decide (MAX_MAC_LEN < length octets)%nat then Err (length octets)
  else Ok {| mac_len := length octets;
             mac_octets := mac_copy (length octets) 0 octets (mac_octets MAC_EMPTY) |}.
(** [Mac::as_slice] (bacnet-npdu/src/mac.rs:77-81) *)
Definition mac_as_slice (m : Mac) : bytes := take (mac_len m) (mac_octets m).
(** [PartialEq for Mac] (bacnet-npdu/src/mac.rs:102-106) *)
Definition mac_eq (a b : Mac) : bool :=
  bool_decide (mac_as_slice a = mac_as_slice b).

(** ** The NPDU view *)

(** [Address] (bacnet-npdu/src/view.rs:26-34) *)
Record Address := { addr_network : Z; addr_mac : bytes }.

#[global] Instance Address_eq_dec : EqDecision Address.
Proof. solve_decision. Defined.

(** [Npdu] (bacnet-npdu/src/view.rs:36-66) *)
Record Npdu := {
  expecting_reply : bool;
  priority : NetworkPriority;
  destination : option Address;
  source : option Address;
  hop_count : Z;
  message_type : option Z;
  vendor_id : option Z;
  payload : bytes;
  payload_offset : nat
}.

#[global] Instance Npdu_eq_dec : EqDecision Npdu.
Proof. solve_decision. Defined.

(** [AddressField] (bacnet-npdu/src/view.rs:68-75) *)
Inductive AddressField := FieldDestination | FieldSource.

(** [Malformed] (bacnet-npdu/src/view.rs:123-138) *)
Inductive Malformed := Truncated | Version | ReservedNetwork | EmptySource.

(** [DecodeError] (bacnet-npdu/src/view.rs:98-121) *)
Inductive DecodeError :=
| AddressTooLong (field : AddressField) (len : Z) (dnet : option Z) (src : option Address)
| MalformedNpdu (fault : Malformed).

#[global] Instance AddressField_eq_dec : EqDecision AddressField.
Proof. solve_decision. Defined.
#[global] Instance Malformed_eq_dec : EqDecision Malformed.
Proof. solve_decision. Defined.
#[global] Instance DecodeError_eq_dec : EqDecision DecodeError.
Proof. solve_decision. Defined.

(** [Npdu::apdu] (bacnet-npdu/src/view.rs) *)
Definition npdu_apdu (data : bytes) : Npdu :=
  {| expecting_reply := false; priority := Normal; destination := None; source := None;
     hop_count := 255; message_type := None; vendor_id := None; payload := data;
     payload_offset := 0 |}.
(** [Npdu::message] (bacnet-npdu/src/view.rs:191-198) *)
Definition npdu_message (kind : Z) (data : bytes) : Npdu :=
  {| expecting_reply := false; priority := Normal; destination := None; source := None;
     hop_count := 255; message_type := Some kind; vendor_id := None; payload := data;
     payload_offset := 0 |}.
(** [Npdu::is_global] (bacnet-npdu/src/view.rs:206-211) *)
Definition npdu_is_global (n : Npdu) : bool :=
  match destination n with Some d => addr_network d =? GLOBAL_NETWORK | None => false end.

(** ** Decoding *)

(** [octets] (bacnet-npdu/src/view.rs:315-320) *)
Definition octets (frame : bytes) (pos : nat) (len : Z) : Result bytes Malformed :=
  ok_or (slice_get frame pos (Z.to_nat len)) Truncated.

(** [network_and_length] (bacnet-npdu/src/view.rs:307-313) *)
Definition network_and_length (frame : bytes) (pos : nat) : Result (Z * Z) Malformed :=
  let? s := octets frame pos 3 in
  match s with
  | [high; low; len] => Ok (from_be16 high low, len)
  | _ => Err Truncated
  end.

(** [source_behind] (bacnet-npdu/src/view.rs:322-334) *)
Definition source_behind (frame : bytes) (pos : nat) : option Address :=
  match network_and_length frame pos with
  | Err _ => None
  | Ok (network, len) =>
      if (network =? 0) || (network =? GLOBAL_NETWORK) || (len =? 0) then None
      else if Z.of_nat MAX_MAC_LEN <? len then None
      else match octets frame (pos + 3) len with
           | Ok mac => Some {| addr_network := network; addr_mac := mac |}
           | Err _ => None
           end
  end.

(** The destination block of [Npdu::decode]: the address if the control octet
    announces one, and the offset behind it.
    [Npdu::decode] (bacnet-npdu/src/view.rs:224-249) *)
Definition decode_destination (frame : bytes) (control : Z) (pos : nat)
  : Result (option Address * nat) DecodeError :=
  let has_source := negb (Z.land control SOURCE =? 0) in
  if Z.land control DESTINATION =? 0 then Ok (None, pos) else
  let? (network, len) := map_err MalformedNpdu (network_and_length frame pos) in
  if network =? 0 then Err (MalformedNpdu ReservedNetwork) else
  let pos := (pos + 3)%nat in
  if Z.of_nat MAX_MAC_LEN <? len then
    Err (AddressTooLong FieldDestination len (Some network)
           (if has_source then source_behind frame (pos + Z.to_nat len) else None))
  else
  let? mac := map_err MalformedNpdu (octets frame pos len) in
  Ok (Some {| addr_network := network; addr_mac := mac |}, (pos + length mac)%nat).

(** The source block of [Npdu::decode].
    [Npdu::decode] (bacnet-npdu/src/view.rs:251-272) *)
Definition decode_source (frame : bytes) (control : Z) (dest : option Address) (pos : nat)
  : Result (option Address * nat) DecodeError :=
  if Z.land control SOURCE =? 0 then Ok (None, pos) else
  let? (network, len) := map_err MalformedNpdu (network_and_length frame pos) in
  if (network =? 0) || (network =? GLOBAL_NETWORK) then Err (MalformedNpdu ReservedNetwork) else
  let pos := (pos + 3)%nat in
  if len =? 0 then Err (MalformedNpdu EmptySource) else
  if Z.of_nat MAX_MAC_LEN <? len then
    Err (AddressTooLong FieldSource len (addr_network <$> dest) None)
  else
  let? mac := map_err MalformedNpdu (octets frame pos len) in
  Ok (Some {| addr_network := network; addr_mac := mac |}, (pos + length mac)%nat).

(** The hop count block of [Npdu::decode].
    [Npdu::decode] (bacnet-npdu/src/view.rs:274-278) *)
Definition decode_hop_count (frame : bytes) (dest : option Address) (pos : nat)
  : Result (Z * nat) DecodeError :=
  match dest with
  | None => Ok (255, pos)
  | Some _ =>
      let? hops := ok_or (frame !! pos) (MalformedNpdu Truncated) in
      Ok (hops, S pos)
  end.

(** The network-layer message block of [Npdu::decode].
    [Npdu::decode] (bacnet-npdu/src/view.rs:280-291) *)
Definition decode_message (frame : bytes) (control : Z) (pos : nat)
  : Result (option Z * option Z * nat) DecodeError :=
  if Z.land control NETWORK_MESSAGE =? 0 then Ok (None, None, pos) else
  let? kind := ok_or (frame !! pos) (MalformedNpdu Truncated) in
  let pos := S pos in
  if message_is_proprietary kind then
    let? vendor := map_err MalformedNpdu (octets frame pos 2) in
    match vendor with
    | [high; low] => Ok (Some kind, Some (from_be16 high low), (pos + 2)%nat)
    | _ => Err (MalformedNpdu Truncated)
    end
  else Ok (Some kind, None, pos).

(** [Npdu::decode] (bacnet-npdu/src/view.rs:213-304) *)
Definition npdu_decode (frame : bytes) : Result Npdu DecodeError :=
  match frame with
  | version :: control :: _ =>
      if negb (version =? VERSION) then Err (MalformedNpdu Version) else
      let? (dest, pos) := decode_destination frame control 2 in
      let? (src, pos) := decode_source frame control dest pos in
      let? (hops, pos) := decode_hop_count frame dest pos in
      let? (kind, vendor, pos) := decode_message frame control pos in
      Ok {| expecting_reply := negb (Z.land control EXPECTING_REPLY =? 0);
            priority := priority_from_control control;
            destination := dest; source := src; hop_count := hops;
            message_type := kind; vendor_id := vendor;
            payload := drop pos frame; payload_offset := pos |}
  | _ => Err (MalformedNpdu Truncated)
  end.

(** ** Encoding *)

(** [EncodeError] (bacnet-npdu/src/encode.rs:9-29) *)
Inductive EncodeError :=
| NoRoom (needed available : nat)
| EncReservedNetwork
| EncEmptySource
| EncAddressTooLong.

#[global] Instance EncodeError_eq_dec : EqDecision EncodeError.
Proof. solve_decision. Defined.

(** [Npdu::encoded_len] (bacnet-npdu/src/encode.rs:47-62) *)
Definition encoded_len (n : Npdu) : nat :=
  (let address a := match a with Some a => 3 + length (addr_mac a) | None => 0 end in
   let message := match message_type n with
                  | Some kind => if message_is_proprietary kind then 3 else 1
                  | None => 0 end in
   2 + address (destination n) + address (source n)
   + (if is_some (destination n) then 1 else 0) + message + length (payload n))%nat.

(** [Cursor] (bacnet-npdu/src/encode.rs:132-136) *)
Record Cursor := { cur_out : bytes; cur_at : nat }.
(** [Cursor::put] (bacnet-npdu/src/encode.rs:139-142) *)
Definition put (src : bytes) (c : Cursor) : Cursor :=
  {| cur_out := splice (cur_out c) (cur_at c) src; cur_at := cur_at c + length src |}.
(** [Cursor::put_address] (bacnet-npdu/src/encode.rs:144-149) *)
Definition put_address (a : Address) (c : Cursor) : Cursor :=
  put (addr_mac a) (put [Z.of_nat (length (addr_mac a)) mod 256]
    (put (to_be16 (addr_network a)) c)).

(** The field checks at the head of [Npdu::encode_into].
    [Npdu::encode_into] (bacnet-npdu/src/encode.rs:71-89) *)
Definition encode_checks (n : Npdu) : option EncodeError :=
  let src_check :=
    match source n with
    | Some s =>
        if (addr_network s =? 0) || (addr_network s =? GLOBAL_NETWORK)
        then Some EncReservedNetwork
        else if decide (length (addr_mac s) = 0)%nat then Some EncEmptySource
        else if decide (MAX_MAC_LEN < length (addr_mac s))%nat then Some EncAddressTooLong
        else None
    | None => None
    end in
  match destination n with
  | Some d =>
      if addr_network d =? 0 then Some EncReservedNetwork
      else if decide (MAX_MAC_LEN < length (addr_mac d))%nat then Some EncAddressTooLong
      else src_check
  | None => src_check
  end.

(** The control octet.
    [Npdu::encode_into] (bacnet-npdu/src/encode.rs:96-108) *)
Definition encode_control (n : Npdu) : Z :=
  let control := priority_to_raw (priority n) in
  let control := if is_some (message_type n) then Z.lor control NETWORK_MESSAGE else control in
  let control := if is_some (destination n) then Z.lor control DESTINATION else control in
  let control := if is_some (source n) then Z.lor control SOURCE else control in
  if expecting_reply n then Z.lor control EXPECTING_REPLY else control.

(** [Npdu::encode_into]: the buffer after the call and the result.
    [Npdu::encode_into] (bacnet-npdu/src/encode.rs:64-129) *)
Definition npdu_encode_into (n : Npdu) (out : bytes) : bytes * Result nat EncodeError :=
  match encode_checks n with
  | Some e => (out, Err e)
  | None =>
      let needed := encoded_len n in
      if decide (length out < needed)%nat then (out, Err (NoRoom needed (length out))) else
      let c := {| cur_out := take needed out; cur_at := 0 |} in
      let c := put [VERSION; encode_control n] c in
      let c := match destination n with Some d => put_address d c | None => c end in
      let c := match source n with Some s => put_address s c | None => c end in
      let c := if is_some (destination n) then put [hop_count n] c else c in
      let c := match message_type n with
               | Some kind =>
                   let c := put [kind] c in
                   if message_is_proprietary kind
                   then put (to_be16 (default 0 (vendor_id n))) c else c
               | None => c
               end in
      let c := put (payload n) c in
      (cur_out c ++ drop needed out, Ok needed)
  end.

(** ** Reject-Message-To-Network *)

(** [RejectMessageToNetwork] (bacnet-npdu/src/reject.rs:24-31) *)
Record RejectMessageToNetwork := { reject_reason : Z; reject_network : Z }.
(** [RejectMessageToNetwork::decode] (bacnet-npdu/src/reject.rs:37-49) *)
Definition reject_decode (data : bytes) : Result RejectMessageToNetwork nat :=
  match data with
  | [reason; high; low] =>
      Ok {| reject_reason := reason; reject_network := from_be16 high low |}
  | _ => Err (length data)
  end.
(** [RejectMessageToNetwork::to_bytes] (bacnet-npdu/src/reject.rs:51-56) *)
Definition reject_to_bytes (r : RejectMessageToNetwork) : bytes :=
  reject_reason r :: to_be16 (reject_network r).

(** ** Well-formedness: the integer widths of the Rust types *)

Definition wf_address (a : Address) : Prop :=
  is_u16 (addr_network a) /\ wf_bytes (addr_mac a).
Definition wf_npdu (n : Npdu) : Prop :=
  (forall d, destination n = Some d -> wf_address d) /\
  (forall s, source n = Some s -> wf_address s) /\
  is_u8 (hop_count n) /\
  (forall k, message_type n = Some k -> is_u8 k) /\
  (forall v, vendor_id n = Some v -> is_u16 v) /\
  wf_bytes (payload n).

(** What a decoder can recover of an NPDU: the hop count travels only with a
    destination, the vendor ID only with a proprietary message type, and the
    payload offset is the length of the NPCI. *)
Definition canonical (n : Npdu) : Npdu :=
  {| expecting_reply := expecting_reply n; priority := priority n;
     destination := destination n; source := source n;
     hop_count := if is_some (destination n) then hop_count n else 255;
     message_type := message_type n;
     vendor_id := match message_type n with
                  | Some k => if message_is_proprietary k
                              then Some (default 0 (vendor_id n)) else None
                  | None => None end;
     payload := payload n;
     payload_offset := (encoded_len n - length (payload n))%nat |}.

(** The octets of an encoded NPDU, as one list: the reference for the cursor. *)
Definition address_octets (a : option Address) : bytes :=
  match a with
  | Some a => to_be16 (addr_network a) ++ [Z.of_nat (length (addr_mac a))] ++ addr_mac a
  | None => []
  end.
Definition message_octets (n : Npdu) : bytes :=
  match message_type n with
  | Some k => k :: (if message_is_proprietary k then to_be16 (default 0 (vendor_id n)) else [])
  | None => []
  end.
Definition npdu_octets (n : Npdu) : bytes :=
  [VERSION; encode_control n] ++ address_octets (destination n) ++
  address_octets (source n) ++ (if is_some (destination n) then [hop_count n] else []) ++
  message_octets n ++ payload n.

(** ** The encoder writes the reference octets *)

Lemma put_nil c : put [] c = c.
Proof. destruct c. unfold put. simpl. by rewrite splice_nil, Nat.add_0_r. Qed.

Lemma put_put a b c : (cur_at c + length a + length b <= length (cur_out c))%nat ->
  put b (put a c) = put (a ++ b) c.
Proof.
  intros. unfold put. simpl. rewrite splice_splice by done.
  f_equal. rewrite length_app. lia.
Qed.

Lemma length_address_octets a :
  length (address_octets a) = match a with Some a => 3 + length (addr_mac a) | None => 0 end%nat.
Proof. destruct a; done. Qed.

Lemma length_npdu_octets n : length (npdu_octets n) = encoded_len n.
Proof.
  unfold npdu_octets, encoded_len, message_octets.
  rewrite !length_app, !length_address_octets. simpl.
  destruct (destination n), (message_type n) as [k|]; simpl;
    try destruct (message_is_proprietary k); simpl; lia.
Qed.

(** The checks pass exactly when the decoder would accept the addresses. *)
Definition encodable_source (o : option Address) : Prop :=
  match o with
  | Some s => addr_network s <> 0 /\ addr_network s <> GLOBAL_NETWORK /\
              (0 < length (addr_mac s) <= MAX_MAC_LEN)%nat
  | None => True
  end.
Definition encodable_destination (o : option Address) : Prop :=
  match o with
  | Some d => addr_network d <> 0 /\ (length (addr_mac d) <= MAX_MAC_LEN)%nat
  | None => True
  end.

Lemma encode_checks_none n : encode_checks n = None <->
  encodable_destination (destination n) /\ encodable_source (source n).
Proof.
  unfold encode_checks, encodable_destination, encodable_source.
  assert (Hs : match source n with
    | Some s =>
        if (addr_network s =? 0) || (addr_network s =? GLOBAL_NETWORK)
        then Some EncReservedNetwork
        else if decide (length (addr_mac s) = 0)%nat then Some EncEmptySource
        else if decide (MAX_MAC_LEN < length (addr_mac s))%nat then Some EncAddressTooLong
        else None
    | None => None
    end = None <-> encodable_source (source n)).
  { unfold encodable_source. destruct (source n) as [s|]; [|done].
    destruct (_ || _) eqn:E; [split; [done|lia]|].
    repeat case_decide; (split; [done|lia]) || (split; [lia|done]). }
  fold (encodable_source (source n)).
  destruct (destination n) as [d|]; [|rewrite Hs; tauto].
  destruct (Z.eqb_spec (addr_network d) 0); [split; [done|tauto]|].
  case_decide; [split; [done|lia]|]. rewrite Hs. split; [split; [lia|done]|tauto].
Qed.

Lemma encodable_length n : encode_checks n = None ->
  (forall d, destination n = Some d -> length (addr_mac d) <= MAX_MAC_LEN)%nat /\
  (forall s, source n = Some s -> length (addr_mac s) <= MAX_MAC_LEN)%nat.
Proof.
  rewrite encode_checks_none. unfold encodable_destination, encodable_source.
  intros [Hd Hs]. split; intros ? E; rewrite E in *; lia.
Qed.

(** A sequence of writes is one write of their concatenation. *)
Definition put_all (chunks : list bytes) (c : Cursor) : Cursor :=
  fold_left (fun c chunk => put chunk c) chunks c.

Lemma put_all_concat chunks a c :
  (cur_at c + length a + length (concat chunks) <= length (cur_out c))%nat ->
  put_all chunks (put a c) = put (a ++ concat chunks) c.
Proof.
  revert a. induction chunks as [|x chunks IH]; intros a H; simpl in *.
  - by rewrite app_nil_r.
  - rewrite length_app in H. rewrite put_put by lia.
    rewrite IH by (rewrite length_app; lia). by rewrite app_assoc.
Qed.

(** The writes of [encode_into], in order. *)
Definition address_chunks (a : option Address) : list bytes :=
  match a with
  | Some a => [to_be16 (addr_network a); [Z.of_nat (length (addr_mac a))]; addr_mac a]
  | None => []
  end.
Definition npdu_chunks (n : Npdu) : list bytes :=
  address_chunks (destination n) ++ address_chunks (source n) ++
  (if is_some (destination n) then [[hop_count n]] else []) ++
  match message_type n with
  | Some k => [k] :: (if message_is_proprietary k
                      then [to_be16 (default 0 (vendor_id n))] else [])
  | None => []
  end ++ [payload n].

Lemma npdu_chunks_concat n :
  [VERSION; encode_control n] ++ concat (npdu_chunks n) = npdu_octets n.
Proof.
  unfold npdu_octets, npdu_chunks, message_octets, address_octets, address_chunks.
  rewrite !concat_app. simpl. rewrite app_nil_r.
  destruct (destination n), (source n), (message_type n) as [k|]; simpl;
    try destruct (message_is_proprietary k); simpl; rewrite ?app_nil_r; done.
Qed.

(** The cursor's sequence of writes leaves the reference octets in the buffer. *)
Lemma npdu_encode_into_octets n out :
  encode_checks n = None -> (encoded_len n <= length out)%nat ->
  npdu_encode_into n out =
    (npdu_octets n ++ drop (encoded_len n) out, Ok (encoded_len n)).
Proof.
  intros Hc Hfit. pose proof (encodable_length n Hc) as [Hd Hs].
  unfold npdu_encode_into. rewrite Hc, decide_False by lia. f_equal. f_equal.
  set (c0 := {| cur_out := take (encoded_len n) out; cur_at := 0 |}).
  assert (H0 : length (cur_out c0) = encoded_len n) by (simpl; rewrite length_take; lia).
  transitivity (cur_out (put_all (npdu_chunks n) (put [VERSION; encode_control n] c0))).
  - unfold npdu_chunks, address_chunks, put_all, put_address. f_equal.
    destruct (destination n) as [d|], (source n) as [s|], (message_type n) as [k|];
      rewrite ?Z.mod_small by
        (try specialize (Hd _ eq_refl); try specialize (Hs _ eq_refl);
         unfold MAX_MAC_LEN in *; lia);
      simpl; try destruct (message_is_proprietary k); done.
  - pose proof (length_npdu_octets n) as HL.
    rewrite <-npdu_chunks_concat, length_app in HL.
    rewrite put_all_concat by (rewrite H0; simpl in *; lia).
    rewrite npdu_chunks_concat. simpl. apply splice_all.
    by rewrite length_npdu_octets.
Qed.

(** ** The decoder reads the reference octets back *)

Lemma network_and_length_drop frame pos nw len rest :
  drop pos frame = to_be16 nw ++ len :: rest -> is_u16 nw ->
  network_and_length frame pos = Ok (nw, len) /\ drop (pos + 3) frame = rest.
Proof.
  intros H Hnw.
  assert (Hpos : (pos <= length frame)%nat).
  { destruct (decide (pos <= length frame)%nat); [done|].
    rewrite drop_ge in H by lia. done. }
  destruct (slice_get_drop frame pos 3 (to_be16 nw ++ [len]) rest) as [E1 E2];
    [by rewrite H, <-app_assoc|done|done|].
  unfold network_and_length, octets. replace (Z.to_nat 3) with 3%nat by done.
  rewrite E1. simpl. rewrite from_to_be16 by done. done.
Qed.

Lemma octets_drop frame pos x rest :
  drop pos frame = x ++ rest -> (pos <= length frame)%nat ->
  octets frame pos (Z.of_nat (length x)) = Ok x /\ drop (pos + length x) frame = rest.
Proof.
  intros H Hpos. unfold octets. rewrite Nat2Z.id.
  destruct (slice_get_drop frame pos (length x) x rest) as [-> ?]; done.
Qed.

Lemma drop_nonempty_le {A} pos (l : list A) x r : drop pos l = x :: r -> (pos < length l)%nat.
Proof.
  intros H. destruct (decide (pos < length l)%nat); [done|].
  rewrite drop_ge in H by lia. done.
Qed.

(** Each optional block of the NPCI is read where the encoder put it. *)
Lemma decode_destination_octets frame control pos d rest :
  drop pos frame = address_octets d ++ rest ->
  (Z.land control DESTINATION =? 0) = negb (is_some d) ->
  encodable_destination d -> (forall a, d = Some a -> wf_address a) ->
  decode_destination frame control pos = Ok (d, (pos + length (address_octets d))%nat) /\
  drop (pos + length (address_octets d)) frame = rest.
Proof.
  intros H Hbit Henc Hwf. unfold decode_destination. rewrite Hbit.
  destruct d as [a|]; simpl in *; [|by rewrite Nat.add_0_r].
  destruct (Hwf a eq_refl) as [Hn _]. destruct Henc as [Hnz Hlen].
  destruct (network_and_length_drop frame pos _ _ _ H Hn) as [-> H3]. simpl.
  destruct (Z.eqb_spec (addr_network a) 0); [done|].
  destruct (Z.ltb_spec (Z.of_nat MAX_MAC_LEN) (Z.of_nat (length (addr_mac a)))); [lia|].
  pose proof (f_equal length H) as HL. rewrite length_drop in HL. simpl in HL.
  destruct (octets_drop frame (pos + 3) _ _ H3) as [-> H4]; [lia|]. simpl.
  rewrite <-Nat.add_assoc in *. split; [destruct a; done|done].
Qed.

Lemma decode_source_octets frame control dest pos s rest :
  drop pos frame = address_octets s ++ rest ->
  (Z.land control SOURCE =? 0) = negb (is_some s) ->
  encodable_source s -> (forall a, s = Some a -> wf_address a) ->
  decode_source frame control dest pos = Ok (s, (pos + length (address_octets s))%nat) /\
  drop (pos + length (address_octets s)) frame = rest.
Proof.
  intros H Hbit Henc Hwf. unfold decode_source. rewrite Hbit.
  destruct s as [a|]; simpl in *; [|by rewrite Nat.add_0_r].
  destruct (Hwf a eq_refl) as [Hn _]. destruct Henc as (Hnz & Hg & Hlen).
  destruct (network_and_length_drop frame pos _ _ _ H Hn) as [-> H3]. simpl.
  destruct (Z.eqb_spec (addr_network a) 0); [done|].
  destruct (Z.eqb_spec (addr_network a) GLOBAL_NETWORK); [done|]. simpl.
  destruct (Z.eqb_spec (Z.of_nat (length (addr_mac a))) 0); [lia|].
  destruct (Z.ltb_spec (Z.of_nat MAX_MAC_LEN) (Z.of_nat (length (addr_mac a)))); [lia|].
  pose proof (f_equal length H) as HL. rewrite length_drop in HL. simpl in HL.
  destruct (octets_drop frame (pos + 3) _ _ H3) as [-> H4]; [lia|]. simpl.
  rewrite <-Nat.add_assoc in *. split; [destruct a; done|done].
Qed.

Lemma drop_lookup {A} pos (l : list A) x r : drop pos l = x :: r ->
  l !! pos = Some x /\ drop (S pos) l = r.
Proof.
  intros H. split.
  - rewrite <-(Nat.add_0_r pos), <-lookup_drop, H. done.
  - replace (S pos) with (pos + 1)%nat by lia. by rewrite <-drop_drop, H.
Qed.

Lemma decode_hop_count_octets frame dest pos hops rest :
  drop pos frame = (if is_some dest then [hops] else []) ++ rest ->
  decode_hop_count frame dest pos =
    Ok (if is_some dest then hops else 255, (pos + (if is_some dest then 1 else 0))%nat) /\
  drop (pos + (if is_some dest then 1 else 0)) frame = rest.
Proof.
  unfold decode_hop_count. destruct dest; simpl; intros H; [|by rewrite Nat.add_0_r].
  destruct (drop_lookup _ _ _ _ H) as [-> ?]. simpl.
  replace (pos + 1)%nat with (S pos) by lia. done.
Qed.

Lemma decode_message_octets n frame control pos rest :
  drop pos frame = message_octets n ++ rest ->
  (Z.land control NETWORK_MESSAGE =? 0) = negb (is_some (message_type n)) ->
  (forall v, vendor_id n = Some v -> is_u16 v) ->
  decode_message frame control pos =
    Ok (message_type n, vendor_id (canonical n), (pos + length (message_octets n))%nat) /\
  drop (pos + length (message_octets n)) frame = rest.
Proof.
  intros H Hbit Hv. unfold decode_message. rewrite Hbit.
  unfold message_octets, canonical in *. simpl.
  destruct (message_type n) as [k|]; simpl in *; [|by rewrite Nat.add_0_r].
  assert (Hvw : is_u16 (default 0 (vendor_id n))).
  { destruct (vendor_id n); simpl; [auto|width]. }
  destruct (drop_lookup _ _ _ _ H) as [-> H2]. simpl.
  destruct (message_is_proprietary k); simpl in *.
  - pose proof (f_equal length H2) as HL. rewrite length_drop in HL. simpl in HL.
    destruct (octets_drop frame (S pos) (to_be16 (default 0 (vendor_id n))) rest H2)
      as [E1 E2]; [lia|].
    replace (Z.of_nat (length (to_be16 (default 0 (vendor_id n))))) with 2 in E1 by done.
    rewrite E1. simpl in *. rewrite from_to_be16 by done.
    replace (pos + 3)%nat with (S (pos + 2)) by lia. done.
  - replace (pos + 1)%nat with (S pos) by lia. done.
Qed.

(** The flags of the control octet the encoder writes. *)
Lemma encode_control_bits n :
  (Z.land (encode_control n) DESTINATION =? 0) = negb (is_some (destination n)) /\
  (Z.land (encode_control n) SOURCE =? 0) = negb (is_some (source n)) /\
  (Z.land (encode_control n) NETWORK_MESSAGE =? 0) = negb (is_some (message_type n)) /\
  (Z.land (encode_control n) EXPECTING_REPLY =? 0) = negb (expecting_reply n) /\
  priority_from_control (encode_control n) = priority n /\
  is_u8 (encode_control n).
Proof.
  unfold encode_control.
  destruct (priority n), (destination n), (source n), (message_type n), (expecting_reply n);
    vm_compute; repeat split; done.
Qed.

Lemma npdu_decode_octets n :
  wf_npdu n -> encode_checks n = None -> npdu_decode (npdu_octets n) = Ok (canonical n).
Proof.
  intros (Hd & Hs & Hh & Hk & Hv & Hp) Hc.
  apply encode_checks_none in Hc as [Ed Es].
  destruct (encode_control_bits n) as (B1 & B2 & B3 & B4 & B5 & _).
  remember (npdu_octets n) as frame eqn:Hf.
  assert (H0 : drop 2 frame = address_octets (destination n) ++ address_octets (source n) ++
    (if is_some (destination n) then [hop_count n] else []) ++ message_octets n ++ payload n)
    by (subst frame; done).
  destruct (decode_destination_octets frame (encode_control n) 2 _ _ H0 B1 Ed Hd) as [E1 H1].
  destruct (decode_source_octets frame (encode_control n) (destination n) _ _ _ H1 B2 Es Hs) as [E2 H2].
  destruct (decode_hop_count_octets frame (destination n) _ _ _ H2) as [E3 H3].
  destruct (decode_message_octets n frame (encode_control n) _ _ H3 B3 Hv) as [E4 H4].
  assert (Hfc : exists t, frame = VERSION :: encode_control n :: t)
    by (subst frame; eexists; done).
  destruct Hfc as [t Hfc]. unfold npdu_decode. rewrite Hfc at 1.
  cbv beta iota. rewrite E1. cbn [rbind]. rewrite E2. cbn [rbind]. rewrite E3. cbn [rbind].
  rewrite E4. cbn [rbind]. rewrite H4, B4, B5. f_equal.
  unfold canonical. rewrite negb_involutive. f_equal.
  rewrite <-length_npdu_octets. unfold npdu_octets. rewrite !length_app.
  destruct (is_some (destination n)); simpl; lia.
Qed.

(** ** Inversion of the decoder *)

Lemma network_and_length_inv frame pos nw len :
  wf_bytes frame -> network_and_length frame pos = Ok (nw, len) ->
  drop pos frame = to_be16 nw ++ len :: drop (pos + 3) frame /\
  is_u16 nw /\ is_u8 len /\ (pos + 3 <= length frame)%nat.
Proof.
  intros Hw. unfold network_and_length, octets.
  destruct (slice_get frame pos (Z.to_nat 3)) as [x|] eqn:E; simpl; [|done].
  pose proof (slice_get_wf _ _ _ _ Hw E) as Hx.
  apply slice_get_drop_inv in E as (E1 & E2 & E3).
  destruct x as [|h [|l [|z [|]]]]; try done. intros [= <- <-].
  rewrite !Forall_cons in Hx. destruct Hx as (Hh & Hl & Hz & _).
  rewrite from_be16_hi, from_be16_lo by done. split_and!; auto with bac.
Qed.

Lemma octets_inv frame pos len x :
  0 <= len -> octets frame pos len = Ok x ->
  drop pos frame = x ++ drop (pos + length x) frame /\ Z.of_nat (length x) = len /\
  (pos + length x <= length frame)%nat.
Proof.
  intros Hl. unfold octets. destruct (slice_get _ _ _) eqn:E; simpl; [|done].
  intros [= <-]. apply slice_get_drop_inv in E as (E1 & E2 & E3).
  rewrite <-E2 in *. split_and!; [done|lia|lia].
Qed.

Lemma decode_destination_inv frame control pos d pos' :
  wf_bytes frame -> decode_destination frame control pos = Ok (d, pos') ->
  drop pos frame = address_octets d ++ drop pos' frame /\
  (Z.land control DESTINATION =? 0) = negb (is_some d) /\
  encodable_destination d /\ (forall a, d = Some a -> wf_address a) /\
  pos' = (pos + length (address_octets d))%nat.
Proof.
  intros Hw. unfold decode_destination.
  destruct (Z.land control DESTINATION =? 0) eqn:Hbit.
  { intros [= <- <-]. simpl. rewrite Nat.add_0_r. done. }
  destruct (network_and_length frame pos) as [[nw len]|] eqn:E; simpl; [|done].
  apply network_and_length_inv in E as (E1 & E2 & E3 & E4); [|done].
  destruct (Z.eqb_spec nw 0); [done|].
  destruct (Z.ltb_spec (Z.of_nat MAX_MAC_LEN) len); [done|].
  destruct (octets frame (pos + 3) len) as [m|] eqn:Em; simpl; [|done].
  intros [= <- <-]. apply octets_inv in Em as (F1 & F2 & F3); [|width].
  simpl. rewrite E1, F1, F2. split_and!; auto; simpl; try lia.
  intros a [= <-]. split; [done|]. simpl.
  eapply (Forall_drop _ (pos + 3)) in Hw. rewrite F1, Forall_app in Hw. tauto.
Qed.

Lemma decode_source_inv frame control dest pos s pos' :
  wf_bytes frame -> decode_source frame control dest pos = Ok (s, pos') ->
  drop pos frame = address_octets s ++ drop pos' frame /\
  (Z.land control SOURCE =? 0) = negb (is_some s) /\
  encodable_source s /\ (forall a, s = Some a -> wf_address a) /\
  pos' = (pos + length (address_octets s))%nat.
Proof.
  intros Hw. unfold decode_source.
  destruct (Z.land control SOURCE =? 0) eqn:Hbit.
  { intros [= <- <-]. simpl. rewrite Nat.add_0_r. done. }
  destruct (network_and_length frame pos) as [[nw len]|] eqn:E; simpl; [|done].
  apply network_and_length_inv in E as (E1 & E2 & E3 & E4); [|done].
  destruct (Z.eqb_spec nw 0); [done|].
  destruct (Z.eqb_spec nw GLOBAL_NETWORK); [done|]. simpl.
  destruct (Z.eqb_spec len 0); [done|].
  destruct (Z.ltb_spec (Z.of_nat MAX_MAC_LEN) len); [done|].
  destruct (octets frame (pos + 3) len) as [m|] eqn:Em; simpl; [|done].
  intros [= <- <-]. apply octets_inv in Em as (F1 & F2 & F3); [|width].
  simpl. rewrite E1, F1, F2. unfold is_u8 in E3. split_and!; auto; simpl; try lia.
  intros a [= <-]. split; [done|]. simpl.
  eapply (Forall_drop _ (pos + 3)) in Hw. rewrite F1, Forall_app in Hw. tauto.
Qed.

Lemma decode_hop_count_inv frame dest pos hops pos' :
  wf_bytes frame -> decode_hop_count frame dest pos = Ok (hops, pos') ->
  drop pos frame = (if is_some dest then [hops] else []) ++ drop pos' frame /\
  is_u8 hops /\ (dest = None -> hops = 255) /\
  pos' = (pos + if is_some dest then 1 else 0)%nat.
Proof.
  intros Hw. unfold decode_hop_count. destruct dest; simpl.
  - destruct (frame !! pos) as [h|] eqn:E; simpl; [|done]. intros [= -> <-].
    rewrite (drop_S _ _ _ E). split_and!; [done| |done|lia].
    by eapply Forall_lookup_1 in Hw.
  - intros [= <- <-]. split_and!; [done|width|done|lia].
Qed.

Lemma decode_message_inv frame control pos kind vendor pos' :
  wf_bytes frame -> decode_message frame control pos = Ok (kind, vendor, pos') ->
  drop pos frame =
    match kind with
    | Some k => k :: (if message_is_proprietary k then to_be16 (default 0 vendor) else [])
    | None => [] end ++ drop pos' frame /\
  (Z.land control NETWORK_MESSAGE =? 0) = negb (is_some kind) /\
  (forall k, kind = Some k -> is_u8 k) /\ (forall v, vendor = Some v -> is_u16 v) /\
  is_some vendor = match kind with Some k => message_is_proprietary k | None => false end /\
  pos' = (pos + match kind with
                | Some k => if message_is_proprietary k then 3 else 1
                | None => 0 end)%nat.
Proof.
  intros Hw. unfold decode_message.
  destruct (Z.land control NETWORK_MESSAGE =? 0) eqn:Hbit.
  { intros [= <- <- <-]. split_and!; done || lia. }
  destruct (frame !! pos) as [k|] eqn:E; simpl; [|done].
  assert (is_u8 k) by (by eapply Forall_lookup_1 in Hw).
  destruct (message_is_proprietary k) eqn:Ek.
  - unfold octets. destruct (slice_get _ _ _) as [x|] eqn:Ex; simpl; [|done].
    pose proof (slice_get_wf _ _ _ _ Hw Ex) as Hx.
    apply slice_get_drop_inv in Ex as (E1 & E2 & E3).
    destruct x as [|h [|l [|]]]; try done. intros [= <- <- <-].
    rewrite !Forall_cons in Hx. destruct Hx as (Hh & Hl & _).
    rewrite (drop_S _ _ _ E), Ek. simpl. rewrite from_be16_hi, from_be16_lo, E1 by done.
    split_and!; try done; try lia.
    + intros ? [= <-]. done.
    + intros ? [= <-]. auto with bac.
  - intros [= <- <- <-]. rewrite Ek, (drop_S _ _ _ E). split_and!; try done; try lia.
    intros ? [= <-]. done.
Qed.

(** Rebuilding the control octet from the flags the decoder read gives it back
    without its reserved bits 6 and 4. *)
Lemma control_mask c : is_u8 c ->
  (let control := priority_to_raw (priority_from_control c) in
   let control := if negb (Z.land c NETWORK_MESSAGE =? 0)
                  then Z.lor control NETWORK_MESSAGE else control in
   let control := if negb (Z.land c DESTINATION =? 0)
                  then Z.lor control DESTINATION else control in
   let control := if negb (Z.land c SOURCE =? 0) then Z.lor control SOURCE else control in
   if negb (Z.land c EXPECTING_REPLY =? 0) then Z.lor control EXPECTING_REPLY else control)
  = Z.land c 175.
Proof.
  intros Hc. apply Z.eqb_eq. revert c Hc. by_octets.
Qed.

(** Everything a successful decode tells about the frame. *)
Lemma npdu_decode_inv frame n :
  wf_bytes frame -> npdu_decode frame = Ok n ->
  wf_npdu n /\ encode_checks n = None /\ n = canonical n /\
  exists control, is_u8 control /\ frame = VERSION :: control :: drop 2 (npdu_octets n) /\
    encode_control n = Z.land control 175.
Proof.
  intros Hw. unfold npdu_decode. destruct frame as [|v [|c t]] eqn:Hf; try done.
  rewrite <-Hf in *.
  destruct (Z.eqb_spec v VERSION) as [->|]; [|done]. simpl negb. cbv iota.
  destruct (decode_destination frame c 2) as [[d p1]|] eqn:E1; [|done]. cbn [rbind].
  destruct (decode_source frame c d p1) as [[s p2]|] eqn:E2; [|done]. cbn [rbind].
  destruct (decode_hop_count frame d p2) as [[h p3]|] eqn:E3; [|done]. cbn [rbind].
  destruct (decode_message frame c p3) as [[[k vd] p4]|] eqn:E4; [|done]. cbn [rbind].
  apply decode_destination_inv in E1 as (D1 & B1 & Ed & Wd & P1); [|done].
  apply decode_source_inv in E2 as (D2 & B2 & Es & Ws & P2); [|done].
  apply decode_hop_count_inv in E3 as (D3 & Hh & Hh' & P3); [|done].
  apply decode_message_inv in E4 as (D4 & B4 & Hk & Hv & Hvk & P4); [|done].
  intros [= <-]. split_and!.
  - split_and!; simpl; auto. by apply Forall_drop.
  - apply encode_checks_none. done.
  - unfold canonical, encoded_len. simpl. rewrite !length_address_octets in *. f_equal.
    + destruct d; [done|auto].
    + destruct k as [k|]; [|by destruct vd]. rewrite <-Hvk. by destruct vd.
    + destruct d; simpl in *; lia.
  - assert (Hc : is_u8 c) by (rewrite Hf, !Forall_cons in Hw; tauto).
    exists c. split_and!; [done| |].
    + unfold npdu_octets, message_octets. simpl. rewrite <-D4, <-D3, <-D2, <-D1.
      subst frame. done.
    + rewrite <-control_mask, B1, B2, B4, !negb_involutive by done. done.
Qed.

(** ** Properties *)

(** Whatever the encoder accepts, the decoder reads back: the
    octets written are [encoded_len] long, the rest of the buffer is untouched,
    and decoding them gives the NPDU with the fields that do not travel (a hop
    count without a destination, a vendor ID without a proprietary type)
    normalised. *)
Theorem npdu_encode_decode n out out' len :
  wf_npdu n -> npdu_encode_into n out = (out', Ok len) ->
  len = encoded_len n /\ length out' = length out /\ drop len out' = drop len out /\
  npdu_decode (take len out') = Ok (canonical n).
Proof.
  intros Hw H.
  destruct (encode_checks n) eqn:Hc; [unfold npdu_encode_into in H; by rewrite Hc in H|].
  destruct (decide (length out < encoded_len n)%nat) as [Hs|Hs].
  { unfold npdu_encode_into in H. by rewrite Hc, decide_True in H. }
  rewrite npdu_encode_into_octets in H by (done || lia).
  pose proof (length_npdu_octets n) as HL. pose proof (npdu_decode_octets n Hw Hc) as HD.
  revert H HL HD. generalize (npdu_octets n). intros o [= <- <-] HL HD.
  split_and!; [done| | |].
  - rewrite length_app, length_drop. lia.
  - rewrite <-HL at 1. by rewrite drop_app_length.
  - rewrite <-HL at 1. by rewrite take_app_length.
Qed.

Lemma npdu_encode_decode_witness :
  let n := {| expecting_reply := true; priority := Urgent;
              destination := Some {| addr_network := 2; addr_mac := [5] |};
              source := None; hop_count := 255; message_type := None; vendor_id := None;
              payload := [0; 5; 1; 12]; payload_offset := 0 |} in
  npdu_decode (take 11 (npdu_encode_into n (replicate 32 0)).1) = Ok (canonical n).
Proof.
  intros n.
  refine (proj2 (proj2 (proj2
    (npdu_encode_decode n (replicate 32 0) (npdu_encode_into n (replicate 32 0)).1 11 _ _)))).
  - split_and!; simpl; try (intros ? [= <-]); try done;
      unfold wf_address; simpl; split_and?; repeat constructor; try width; done.
  - vm_compute. reflexivity.
Defined.

(** The encoder succeeds exactly when the addresses are ones the
    decoder accepts and the buffer is long enough, and a refusal leaves the
    buffer as it was. *)
Theorem npdu_encode_refusal n out :
  match npdu_encode_into n out with
  | (out', Err e) =>
      out' = out /\
      (e = NoRoom (encoded_len n) (length out) /\ (length out < encoded_len n)%nat \/
       ~ (encodable_destination (destination n) /\ encodable_source (source n)))
  | (_, Ok len) =>
      (encodable_destination (destination n) /\ encodable_source (source n)) /\
      (len <= length out)%nat
  end.
Proof.
  destruct (encode_checks n) eqn:Hc.
  - unfold npdu_encode_into. rewrite Hc. split; [done|]. right.
    rewrite <-encode_checks_none, Hc. done.
  - destruct (decide (length out < encoded_len n)%nat) as [Hs|Hs].
    + unfold npdu_encode_into. rewrite Hc, decide_True by done. auto.
    + rewrite npdu_encode_into_octets by (done || lia).
      split; [by apply encode_checks_none|lia].
Qed.

(** Encoding what was decoded reproduces the frame, apart from
    the two reserved bits of the control octet, which are cleared, whatever
    buffer of sufficient length it is written to. *)
Theorem npdu_decode_encode frame n out :
  wf_bytes frame -> npdu_decode frame = Ok n -> (length frame <= length out)%nat ->
  exists control, frame !! 1%nat = Some control /\
    npdu_encode_into n out =
      (VERSION :: Z.land control 175 :: drop 2 frame ++ drop (length frame) out,
       Ok (length frame)).
Proof.
  intros Hw H Hout. apply npdu_decode_inv in H as (Hn & Hc & _ & c & Hcu & Hf & Hctl); [|done].
  pose proof (length_npdu_octets n) as HL.
  assert (HF : length frame = encoded_len n).
  { rewrite Hf. simpl. rewrite length_drop. unfold npdu_octets in *. simpl in *. lia. }
  exists c. split; [by rewrite Hf|].
  rewrite npdu_encode_into_octets by (done || lia). rewrite HF, Hf, <-Hctl. done.
Qed.

Lemma npdu_decode_encode_witness :
  exists control, [1; 229; 0; 2; 1; 5; 255; 9] !! 1%nat = Some control /\
    npdu_encode_into
      {| expecting_reply := true; priority := Urgent;
         destination := Some {| addr_network := 2; addr_mac := [5] |};
         source := None; hop_count := 255; message_type := Some 9; vendor_id := None;
         payload := []; payload_offset := 8 |} (replicate 8 0)
    = (VERSION :: Z.land control 175 :: drop 2 [1; 229; 0; 2; 1; 5; 255; 9] ++ [], Ok 8%nat).
Proof.
  apply (npdu_decode_encode [1; 229; 0; 2; 1; 5; 255; 9] _ (replicate 8 0)).
  - repeat constructor; width.
  - vm_compute. reflexivity.
  - vm_compute. lia.
Defined.

(** The copy loop fills the array octet by octet, keeping what it copied. *)
Lemma mac_copy_spec src fuel : forall pos array,
  (pos + fuel = length src)%nat -> (length src <= length array)%nat ->
  take pos array = take pos src ->
  take (length src) (mac_copy fuel pos src array) = src /\
  length (mac_copy fuel pos src array) = length array.
Proof.
  induction fuel as [|fuel IH]; intros pos array Hf Hl Ht; simpl.
  - replace (length src) with pos by lia. split; [|done].
    rewrite Ht. apply take_ge. lia.
  - destruct (lookup_lt_is_Some_2 src pos) as [x Hx]; [lia|]. rewrite Hx.
    destruct (IH (S pos) (<[pos := x]> array)) as [H1 H2].
    + lia.
    + rewrite length_insert. lia.
    + rewrite (take_S_r _ _ x), (take_S_r src _ x) by
        (done || (apply list_lookup_insert_eq; lia)).
      rewrite take_insert_ge by lia. by rewrite Ht.
    + rewrite H2, length_insert in *. done.
Qed.

(** A [Mac] built from a slice holds exactly that slice, and a slice of
    more than [MAX_MAC_LEN] octets is refused with its length. *)
Theorem mac_from_slice_as_slice s :
  match mac_from_slice s with
  | Ok m => mac_as_slice m = s /\ (length s <= MAX_MAC_LEN)%nat
  | Err n => n = length s /\ (MAX_MAC_LEN < length s)%nat
  end.
Proof.
  unfold mac_from_slice. case_decide; [done|]. unfold mac_as_slice.
  destruct (mac_copy_spec s (length s) 0 (mac_octets MAC_EMPTY)) as [E _].
  - lia.
  - change (length (mac_octets MAC_EMPTY)) with MAX_MAC_LEN. lia.
  - by rewrite !take_0.
  - split; [exact E|lia].
Qed.

(** A reject's data survives the round trip in both directions, and
    only three octets are accepted. *)
Theorem reject_roundtrip r data :
  is_u8 (reject_reason r) -> is_u16 (reject_network r) -> wf_bytes data ->
  reject_decode (reject_to_bytes r) = Ok r /\
  match reject_decode data with
  | Ok r' => reject_to_bytes r' = data
  | Err n => n = length data /\ n <> 3%nat
  end.
Proof.
  intros Hr Hn Hw. split.
  - unfold reject_decode, reject_to_bytes, to_be16. rewrite from_to_be16 by done.
    by destruct r.
  - unfold reject_decode. destruct data as [|a [|b [|c [|d l]]]]; simpl; try (split; [done|lia]).
    unfold reject_to_bytes. simpl. rewrite !Forall_cons in Hw.
    by rewrite to_from_be16 by tauto.
Qed.

Lemma reject_roundtrip_witness :
  reject_decode (reject_to_bytes {| reject_reason := 4; reject_network := 3000 |}) =
    Ok {| reject_reason := 4; reject_network := 3000 |}.
Proof.
  exact (proj1 (reject_roundtrip {| reject_reason := 4; reject_network := 3000 |} [4; 11; 184]
    ltac:(simpl; width) ltac:(simpl; width) ltac:(repeat constructor; width))).
Defined.
