(* ===== verification/Crc.v ===== *)
(** * The CRCs of MS/TP frames (crate bacnet-mstp-codec, crc.rs)

    The header CRC-8, the data CRC-16 and the CRC-32K of extended frames, as the
    source computes them: by lookup tables built from a reflected shift register.
    [shift] is that register; the theorems show the table-driven routines equal
    it bit by bit, and that each CRC detects every change of a single octet. *)

From S2P Require Import Prelude.

(** ** The shift register *)

(** One shift: [if crc & 1 != 0 { (crc >> 1) ^ poly } else { crc >> 1 }]. *)
Definition shift1 (poly crc : Z) : Z :=
  if negb (Z.land crc 1 =? 0) then Z.lxor (Z.shiftr crc 1) poly else Z.shiftr crc 1.
Fixpoint shift (poly : Z) (bits : nat) (crc : Z) : Z :=
  match bits with O => crc | S bits => shift poly bits (shift1 poly crc) end.

Definition CRC8_POLYNOMIAL : Z := 129.
Definition CRC16_POLYNOMIAL : Z := 33800.
(** [CRC32K_POLYNOMIAL] (bacnet-mstp-codec/src/crc.rs:96-98) *)
Definition CRC32K_POLYNOMIAL : Z := 3945912366.

(** [CRC8_TABLE] (bacnet-mstp-codec/src/crc.rs:10-28) *)
Definition CRC8_TABLE : list Z := map (shift CRC8_POLYNOMIAL 8) (seqZ 0 256).
(** [CRC16_TABLE] (bacnet-mstp-codec/src/crc.rs:30-48) *)
Definition CRC16_TABLE : list Z := map (shift CRC16_POLYNOMIAL 8) (seqZ 0 256).
(** [crc32k_shift] (bacnet-mstp-codec/src/crc.rs) *)
Definition crc32k_shift (crc : Z) (bits : nat) : Z := shift CRC32K_POLYNOMIAL bits crc.
(** [CRC32K_TABLE] (bacnet-mstp-codec/src/crc.rs:114-125) *)
Definition CRC32K_TABLE : list Z := map (fun i => crc32k_shift i 8) (seqZ 0 256).
(** [CRC32K_NIBBLES] (bacnet-mstp-codec/src/crc.rs:127-137) *)
Definition CRC32K_NIBBLES : list Z := map (fun i => crc32k_shift i 4) (seqZ 0 16).

(** [TABLE[i as usize]]; every index below is masked to the table's size. *)
Definition entry (table : list Z) (i : Z) : Z := nth (Z.to_nat i) table 0.

(** ** The CRCs *)

(** One iteration of the [crc8] loop. *)
Definition crc8_octet (crc byte : Z) : Z := entry CRC8_TABLE (Z.lxor crc byte).
(** [crc8] (bacnet-mstp-codec/src/crc.rs) *)
Definition crc8 (data : bytes) : Z := Z.lxor (fold_left crc8_octet data 255) 255.
(** [crc8_valid] (bacnet-mstp-codec/src/crc.rs) *)
Definition crc8_valid (data_with_crc : bytes) : bool :=
  match last data_with_crc with
  | None => false
  | Some stored => crc8 (take (length data_with_crc - 1) data_with_crc) =? stored
  end.

(** One iteration of the [crc16] loop. *)
Definition crc16_octet (crc byte : Z) : Z :=
  Z.lxor (Z.shiftr crc 8) (entry CRC16_TABLE (Z.land (Z.lxor crc byte) 255)).
(** [crc16] (bacnet-mstp-codec/src/crc.rs) *)
Definition crc16 (data : bytes) : Z := Z.lxor (fold_left crc16_octet data 65535) 65535.
(** [crc16_valid] (bacnet-mstp-codec/src/crc.rs) *)
Definition crc16_valid (data_with_crc : bytes) : bool :=
  if decide (length data_with_crc < 3)%nat then false else
  let split := (length data_with_crc - 2)%nat in
  let stored := from_le16 (nth split data_with_crc 0) (nth (split + 1) data_with_crc 0) in
  crc16 (take split data_with_crc) =? stored.

(** [crc32k_octet_by_table] (bacnet-mstp-codec/src/crc.rs) *)
Definition crc32k_octet_by_table (crc byte : Z) : Z :=
  Z.lxor (Z.shiftr crc 8) (entry CRC32K_TABLE (Z.land (Z.lxor crc byte) 255)).
(** [crc32k_octet_by_nibbles] (bacnet-mstp-codec/src/crc.rs) *)
Definition crc32k_octet_by_nibbles (crc byte : Z) : Z :=
  let crc := Z.lxor crc byte in
  let crc := Z.lxor (Z.shiftr crc 4) (entry CRC32K_NIBBLES (Z.land crc 15)) in
  Z.lxor (Z.shiftr crc 4) (entry CRC32K_NIBBLES (Z.land crc 15)).
(** The default build: the 16-entry table.
    [crc32k_update] (bacnet-mstp-codec/src/crc.rs) *)
Definition crc32k_update (crc : Z) (data : bytes) : Z :=
  fold_left crc32k_octet_by_nibbles data crc.
(** [crc32k] (bacnet-mstp-codec/src/crc.rs) *)
Definition crc32k (data : bytes) : Z := Z.lxor (crc32k_update U32_MAX data) U32_MAX.

(** The bitwise reference: the register after one octet, and after a message. *)
Definition octet_ref (poly crc byte : Z) : Z := shift poly 8 (Z.lxor crc byte).
Definition crc_ref (poly init : Z) (data : bytes) : Z :=
  Z.lxor (fold_left (octet_ref poly) data init) init.

(** ** The register is linear and invertible *)

Lemma land_1_testbit x : negb (Z.land x 1 =? 0) = Z.testbit x 0.
Proof.
  change 1 with (Z.ones 1). rewrite Z.land_ones, Z.pow_1_r, Zmod_odd, Z.bit0_odd by lia.
  by destruct (Z.odd x).
Qed.

Lemma shift1_linear poly x y :
  shift1 poly (Z.lxor x y) = Z.lxor (shift1 poly x) (shift1 poly y).
Proof.
  unfold shift1. rewrite !land_1_testbit, Z.lxor_spec, Z.shiftr_lxor.
  destruct (Z.testbit x 0), (Z.testbit y 0); simpl; apply Z.bits_inj'; intros i Hi;
    rewrite !Z.lxor_spec; destruct (Z.testbit poly i); by rewrite ?xorb_false_r;
    destruct (Z.testbit (Z.shiftr x 1) i), (Z.testbit (Z.shiftr y 1) i).
Qed.

Lemma shift_linear poly n x y :
  shift poly n (Z.lxor x y) = Z.lxor (shift poly n x) (shift poly n y).
Proof.
  revert x y. induction n as [|n IH]; intros; simpl; [done|].
  by rewrite shift1_linear, IH.
Qed.

(** Shifting out zero bits only moves the register. *)
Lemma shift1_double poly y : shift1 poly (2 * y) = y.
Proof.
  unfold shift1. rewrite land_1_testbit, Z.testbit_even_0.
  rewrite Z.shiftr_div_pow2, Z.pow_1_r by lia. rewrite Z.mul_comm. apply Z.div_mul. lia.
Qed.

Lemma shift_pow2 poly n y : shift poly n (y * 2 ^ Z.of_nat n) = y.
Proof.
  revert y. induction n as [|n IH]; intros y.
  - simpl. lia.
  - replace (y * 2 ^ Z.of_nat (S n)) with (2 * (y * 2 ^ Z.of_nat n))
      by (rewrite Nat2Z.inj_succ, Z.pow_succ_r; lia).
    simpl. by rewrite shift1_double.
Qed.

(** The identity behind the tables: only the low bits go through the polynomial. *)
Lemma shift_split poly n x : 0 <= x ->
  shift poly n x = Z.lxor (Z.shiftr x (Z.of_nat n))
    (shift poly n (Z.land x (Z.ones (Z.of_nat n)))).
Proof.
  intros Hx.
  assert (E : x = Z.lxor (Z.shiftr x (Z.of_nat n) * 2 ^ Z.of_nat n)
                         (Z.land x (Z.ones (Z.of_nat n)))).
  { apply Z.bits_inj'. intros i Hi.
    rewrite Z.lxor_spec, Z.land_spec, <-Z.shiftl_mul_pow2, Z.shiftl_spec by lia.
    destruct (Z_lt_ge_dec i (Z.of_nat n)).
    - rewrite (Z.testbit_neg_r _ (i - Z.of_nat n)), Z.ones_spec_low by lia.
      by rewrite andb_true_r, xorb_false_l.
    - rewrite Z.shiftr_spec, Z.ones_spec_high by lia.
      rewrite andb_false_r, xorb_false_r. f_equal. lia. }
  rewrite E at 1. by rewrite shift_linear, shift_pow2.
Qed.

Lemma shift1_bound poly w x : 0 < w -> 0 <= poly < 2 ^ w -> 0 <= x < 2 ^ w ->
  0 <= shift1 poly x < 2 ^ w.
Proof.
  intros Hw Hp Hx. unfold shift1. rewrite Z.shiftr_div_pow2, Z.pow_1_r by lia.
  assert (0 <= x / 2 < 2 ^ w) by (split; [apply Z.div_pos; lia|apply Z.div_lt_upper_bound; lia]).
  case_match; [|done]. apply lxor_bound; lia.
Qed.

Lemma shift_bound poly w n x : 0 < w -> 0 <= poly < 2 ^ w -> 0 <= x < 2 ^ w ->
  0 <= shift poly n x < 2 ^ w.
Proof.
  intros Hw Hp. revert x. induction n as [|n IH]; intros x Hx; simpl; [done|].
  by apply IH, shift1_bound.
Qed.

(** The top bit of the polynomial makes the register invertible: only zero
    shifts to zero, so by linearity no two values shift to the same one. *)
Lemma shift1_kernel poly w x : 0 < w -> 2 ^ (w - 1) <= poly -> 0 <= x < 2 ^ w ->
  shift1 poly x = 0 -> x = 0.
Proof.
  intros Hw Hp Hx. unfold shift1. rewrite land_1_testbit.
  rewrite Z.shiftr_div_pow2, Z.pow_1_r by lia.
  destruct (Z.testbit x 0) eqn:E; intros H.
  - apply Z.lxor_eq in H.
    assert (x / 2 < 2 ^ (w - 1)).
    { apply Z.div_lt_upper_bound; [lia|]. rewrite <-Z.pow_succ_r by lia.
      replace (Z.succ (w - 1)) with w by lia. lia. }
    lia.
  - rewrite Z.bit0_odd in E.
    assert (x mod 2 = 0) by (rewrite Zmod_odd, E; done). divmod.
Qed.

Lemma shift_inj poly w n x y : 0 < w -> 2 ^ (w - 1) <= poly < 2 ^ w ->
  0 <= x < 2 ^ w -> 0 <= y < 2 ^ w -> shift poly n x = shift poly n y -> x = y.
Proof.
  intros Hw Hp. revert x y. induction n as [|n IH]; intros x y Hx Hy; simpl; [done|].
  intros H. apply IH in H; [|apply shift1_bound; lia..].
  apply Z.lxor_eq. apply (shift1_kernel poly w); [lia..|by apply lxor_bound; lia|].
  by rewrite shift1_linear, H, Z.lxor_nilpotent.
Qed.

(** ** The tables compute the register *)

Lemma entry_map (f : Z -> Z) n i : 0 <= i < n -> entry (map f (seqZ 0 n)) i = f i.
Proof.
  intros Hi. unfold entry. rewrite (nth_indep _ 0 (f 0)).
  - rewrite map_nth. f_equal. rewrite nth_lookup.
    rewrite (list_lookup_lookup_total_lt _ (Z.to_nat i)) by (rewrite length_seqZ; lia).
    rewrite lookup_total_seqZ_lt by lia. simpl. lia.
  - rewrite length_map, length_seqZ. lia.
Qed.

Lemma land_ones_bound x n : 0 <= n -> 0 <= Z.land x (Z.ones n) < 2 ^ n.
Proof. intros. rewrite Z.land_ones by lia. apply Z.mod_pos_bound. lia. Qed.

(** The polynomials fill their registers. *)
Record poly_fits (poly w : Z) : Prop := {
  pf_width : 8 <= w; pf_low : 2 ^ (w - 1) <= poly; pf_high : poly < 2 ^ w }.

Lemma crc8_poly_fits : poly_fits CRC8_POLYNOMIAL 8.
Proof. by split. Qed.
Lemma crc16_poly_fits : poly_fits CRC16_POLYNOMIAL 16.
Proof. by split. Qed.
Lemma crc32k_poly_fits : poly_fits CRC32K_POLYNOMIAL 32.
Proof. by split. Qed.

Section Reference.
Context (poly w : Z) (HP : poly_fits poly w).

Lemma u8_fits x : is_u8 x -> 0 <= x < 2 ^ w.
Proof.
  intros Hx. destruct HP as [Hw _ _].
  pose proof (Z.pow_le_mono_r 2 8 w ltac:(lia) Hw). width.
Qed.

Lemma octet_ref_bound crc byte : 0 <= crc < 2 ^ w -> is_u8 byte ->
  0 <= octet_ref poly crc byte < 2 ^ w.
Proof.
  intros Hc Hb. pose proof (u8_fits _ Hb). destruct HP.
  apply shift_bound; [lia..|]. apply lxor_bound; lia.
Qed.

Lemma fold_ref_bound data crc : 0 <= crc < 2 ^ w -> wf_bytes data ->
  0 <= fold_left (octet_ref poly) data crc < 2 ^ w.
Proof.
  intros Hc Hd. revert crc Hc. induction Hd; intros crc Hc; simpl; [done|].
  by apply IHHd, octet_ref_bound.
Qed.

(** A routine that agrees with the register on one octet agrees on all. *)
Lemma fold_ref_eq (f : Z -> Z -> Z) data crc :
  (forall c b, 0 <= c < 2 ^ w -> is_u8 b -> f c b = octet_ref poly c b) ->
  0 <= crc < 2 ^ w -> wf_bytes data ->
  fold_left f data crc = fold_left (octet_ref poly) data crc.
Proof.
  intros Hf Hc Hd. revert crc Hc. induction Hd; intros crc Hc; simpl; [done|].
  rewrite Hf by done. apply IHHd. by apply octet_ref_bound.
Qed.

(** Different registers stay different over equal octets. *)
Lemma fold_ref_inj data c1 c2 :
  0 <= c1 < 2 ^ w -> 0 <= c2 < 2 ^ w -> wf_bytes data ->
  fold_left (octet_ref poly) data c1 = fold_left (octet_ref poly) data c2 -> c1 = c2.
Proof.
  intros H1 H2 Hd. revert c1 c2 H1 H2. induction Hd as [|b data Hb Hd IH];
    intros c1 c2 H1 H2; simpl; [done|].
  intros E. pose proof (u8_fits _ Hb). destruct HP.
  apply IH in E; [|by apply octet_ref_bound..].
  apply shift_inj with (w := w) in E; [|lia|lia|apply lxor_bound; lia..].
  rewrite <-(lxor_cancel c1 b), E. apply lxor_cancel.
Qed.

Lemma crc_ref_detects pre a b post init : 0 <= init < 2 ^ w ->
  wf_bytes pre -> is_u8 a -> is_u8 b -> wf_bytes post -> a <> b ->
  crc_ref poly init (pre ++ a :: post) <> crc_ref poly init (pre ++ b :: post).
Proof.
  intros Hi Hpre Ha Hb Hpost Hab E. unfold crc_ref in E.
  apply (f_equal (fun x => Z.lxor x init)) in E. rewrite !lxor_cancel in E.
  rewrite !fold_left_app in E. simpl in E.
  pose proof (fold_ref_bound pre init Hi Hpre) as Hr.
  set (r := fold_left (octet_ref poly) pre init) in *.
  pose proof (u8_fits _ Ha). pose proof (u8_fits _ Hb).
  apply fold_ref_inj in E; [|by apply octet_ref_bound..|done]. destruct HP.
  apply shift_inj with (w := w) in E; [|lia|lia|apply lxor_bound; lia..].
  apply Hab. rewrite !(Z.lxor_comm r) in E.
  by rewrite <-(lxor_cancel a r), E, lxor_cancel.
Qed.
End Reference.

Lemma shiftr_lxor_u8 crc byte n : is_u8 byte -> 8 <= n ->
  Z.shiftr (Z.lxor crc byte) n = Z.shiftr crc n.
Proof.
  intros Hb Hn. rewrite Z.shiftr_lxor, (Z.shiftr_div_pow2 byte) by lia.
  rewrite (Z.div_small byte); [apply Z.lxor_0_r|].
  pose proof (Z.pow_le_mono_r 2 8 n ltac:(lia) Hn). width.
Qed.

Lemma crc8_octet_ref crc byte : 0 <= crc < 2 ^ 8 -> is_u8 byte ->
  crc8_octet crc byte = octet_ref CRC8_POLYNOMIAL crc byte.
Proof.
  intros Hc Hb. unfold crc8_octet, octet_ref, CRC8_TABLE. apply entry_map.
  apply (lxor_bound crc byte 8); width.
Qed.

(** A 256-entry table indexed by the low octet, for any wider register. *)
Lemma table_octet_ref poly w crc byte : poly_fits poly w -> 0 <= crc < 2 ^ w -> is_u8 byte ->
  Z.lxor (Z.shiftr crc 8)
    (entry (map (shift poly 8) (seqZ 0 256)) (Z.land (Z.lxor crc byte) 255)) =
  octet_ref poly crc byte.
Proof.
  intros HP Hc Hb. unfold octet_ref. pose proof (u8_fits poly w HP byte Hb). destruct HP.
  rewrite (shift_split poly 8) by (apply lxor_bound with (w := w); lia).
  change (Z.of_nat 8) with 8. change (Z.ones 8) with 255.
  rewrite shiftr_lxor_u8 by (done || lia). f_equal. apply entry_map.
  apply (land_ones_bound _ 8). lia.
Qed.

Lemma crc32k_nibbles_ref crc byte : 0 <= crc < 2 ^ 32 -> is_u8 byte ->
  crc32k_octet_by_nibbles crc byte = octet_ref CRC32K_POLYNOMIAL crc byte.
Proof.
  intros Hc Hb. unfold octet_ref, crc32k_octet_by_nibbles, CRC32K_NIBBLES, crc32k_shift.
  pose proof (u8_fits _ _ crc32k_poly_fits byte Hb).
  pose proof (lxor_bound crc byte 32 ltac:(lia) Hc ltac:(lia)) as Hx.
  set (x := Z.lxor crc byte) in *.
  change (shift CRC32K_POLYNOMIAL 8 x)
    with (shift CRC32K_POLYNOMIAL 4 (shift CRC32K_POLYNOMIAL 4 x)).
  assert (Hn : forall y, 0 <= y ->
    Z.lxor (Z.shiftr y 4)
      (entry (map (fun i => shift CRC32K_POLYNOMIAL 4 i) (seqZ 0 16)) (Z.land y 15)) =
    shift CRC32K_POLYNOMIAL 4 y).
  { intros y Hy. rewrite (shift_split _ 4 y Hy).
    change (Z.of_nat 4) with 4. change (Z.ones 4) with 15. f_equal.
    apply (entry_map (fun i => shift CRC32K_POLYNOMIAL 4 i)).
    apply (land_ones_bound y 4). lia. }
  rewrite (Hn x) by lia. apply Hn.
  apply (shift_bound CRC32K_POLYNOMIAL 32 4 x); [lia|split; vm_compute; done|lia].
Qed.

(** ** Properties *)

Lemma crc8_ref data : wf_bytes data -> crc8 data = crc_ref CRC8_POLYNOMIAL 255 data.
Proof.
  intros Hd. unfold crc8, crc_ref. f_equal.
  apply (fold_ref_eq _ 8 crc8_poly_fits); [apply crc8_octet_ref|lia|done].
Qed.

Lemma crc16_ref data : wf_bytes data -> crc16 data = crc_ref CRC16_POLYNOMIAL 65535 data.
Proof.
  intros Hd. unfold crc16, crc_ref. f_equal.
  apply (fold_ref_eq _ 16 crc16_poly_fits); [|lia|done].
  intros. by apply (table_octet_ref _ 16 _ _ crc16_poly_fits).
Qed.

Lemma crc32k_ref data : wf_bytes data -> crc32k data = crc_ref CRC32K_POLYNOMIAL U32_MAX data.
Proof.
  intros Hd. unfold crc32k, crc_ref. f_equal.
  apply (fold_ref_eq _ 32 crc32k_poly_fits); [apply crc32k_nibbles_ref|unfold U32_MAX; lia|done].
Qed.

Lemma crc_ref_bound poly w init data : poly_fits poly w -> 0 <= init < 2 ^ w ->
  wf_bytes data -> 0 <= crc_ref poly init data < 2 ^ w.
Proof.
  intros HP Hi Hd. pose proof (fold_ref_bound poly w HP data init Hi Hd). destruct HP.
  apply lxor_bound; lia.
Qed.

Lemma crc8_u8 data : wf_bytes data -> is_u8 (crc8 data).
Proof.
  intros Hd. rewrite crc8_ref by done.
  pose proof (crc_ref_bound _ 8 255 data crc8_poly_fits ltac:(lia) Hd). width.
Qed.
Lemma crc16_u16 data : wf_bytes data -> is_u16 (crc16 data).
Proof.
  intros Hd. rewrite crc16_ref by done.
  pose proof (crc_ref_bound _ 16 65535 data crc16_poly_fits ltac:(lia) Hd). width.
Qed.
Lemma crc32k_u32 data : wf_bytes data -> is_u32 (crc32k data).
Proof.
  intros Hd. rewrite crc32k_ref by done.
  pose proof (crc_ref_bound _ 32 U32_MAX data crc32k_poly_fits ltac:(unfold U32_MAX; lia) Hd).
  width.
Qed.
#[export] Hint Resolve crc8_u8 crc16_u16 crc32k_u32 : bac.

Lemma crc8_valid_app fields : crc8_valid (fields ++ [crc8 fields]) = true.
Proof.
  unfold crc8_valid. rewrite last_snoc, length_app. simpl.
  rewrite Nat.add_sub, take_app_length. apply Z.eqb_refl.
Qed.

Lemma crc16_valid_app data : wf_bytes data -> data <> [] ->
  crc16_valid (data ++ to_le16 (crc16 data)) = true.
Proof.
  intros Hd Hne. unfold crc16_valid. rewrite length_app.
  change (length (to_le16 (crc16 data))) with 2%nat.
  rewrite decide_False by (destruct data; [done|simpl; lia]).
  rewrite Nat.add_sub, take_app_length, app_nth2, app_nth2 by lia.
  replace (length data + 1 - length data)%nat with 1%nat by lia. rewrite Nat.sub_diag.
  simpl. rewrite from_to_le16 by auto with bac. apply Z.eqb_refl.
Qed.

Lemma crc16_valid_inv body : wf_bytes body -> crc16_valid body = true ->
  exists d, body = d ++ to_le16 (crc16 d) /\ length body = (length d + 2)%nat.
Proof.
  intros Hw. unfold crc16_valid. case_decide as Hl; [done|]. intros E%Z.eqb_eq.
  set (k := (length body - 2)%nat) in *. exists (take k body).
  assert (length (take k body) = k) as Hk by (rewrite length_take; unfold k; lia).
  split; [|rewrite Hk; unfold k; lia]. rewrite E. clear E.
  assert (exists a b, drop k body = [a; b]) as (a & b & Ed).
  { assert (length (drop k body) = 2%nat) as H by (rewrite length_drop; unfold k; lia).
    destruct (drop k body) as [|a [|b [|]]]; try discriminate H. by exists a, b. }
  rewrite <-(take_drop k body) at 1 3 4. rewrite Ed, !app_nth2, Hk by lia.
  rewrite Nat.sub_diag. replace (k + 1 - k)%nat with 1%nat by lia. cbn [nth].
  apply (Forall_drop _ k) in Hw. rewrite Ed, !Forall_cons in Hw. destruct Hw as (? & ? & _).
  unfold to_le16, from_le16, is_u8, U8_MAX in *. do 2 f_equal; [|f_equal]; divmod.
Qed.

(** The table-driven CRC-8, CRC-16 and CRC-32K, the last with the
    16-entry table of the default build and with the 256-entry one of the
    crc32k-table feature, equal the bitwise shift register on every byte
    string. *)
Theorem crc_tables_bitwise data : wf_bytes data ->
  crc8 data = crc_ref CRC8_POLYNOMIAL 255 data /\
  crc16 data = crc_ref CRC16_POLYNOMIAL 65535 data /\
  crc32k data = crc_ref CRC32K_POLYNOMIAL U32_MAX data /\
  Z.lxor (fold_left crc32k_octet_by_table data U32_MAX) U32_MAX = crc32k data.
Proof.
  intros Hd. split_and!; [by apply crc8_ref|by apply crc16_ref|by apply crc32k_ref|].
  rewrite crc32k_ref by done. unfold crc_ref. f_equal.
  apply (fold_ref_eq _ 32 crc32k_poly_fits); [|unfold U32_MAX; lia|done].
  intros. by apply (table_octet_ref _ 32 _ _ crc32k_poly_fits).
Qed.

Lemma crc_tables_bitwise_witness :
  crc8 [0; 16; 5; 0; 0] = crc_ref CRC8_POLYNOMIAL 255 [0; 16; 5; 0; 0].
Proof. exact (proj1 (crc_tables_bitwise [0; 16; 5; 0; 0] ltac:(repeat constructor; width))). Defined.

(** Changing any one octet of a message changes each of its three
    CRCs. *)
Theorem crc_detects_octet_change pre a b post :
  wf_bytes (pre ++ a :: post) -> is_u8 b -> a <> b ->
  crc8 (pre ++ a :: post) <> crc8 (pre ++ b :: post) /\
  crc16 (pre ++ a :: post) <> crc16 (pre ++ b :: post) /\
  crc32k (pre ++ a :: post) <> crc32k (pre ++ b :: post).
Proof.
  intros Hw Hb Hab. apply Forall_app in Hw as [Hpre Hw].
  apply Forall_cons in Hw as [Ha Hpost].
  assert (wf_bytes (pre ++ a :: post)) by (rewrite Forall_app, Forall_cons; done).
  assert (wf_bytes (pre ++ b :: post)) by (rewrite Forall_app, Forall_cons; done).
  rewrite !crc8_ref, !crc16_ref, !crc32k_ref by done. unfold U32_MAX. split_and!.
  - apply (crc_ref_detects _ 8 crc8_poly_fits); done || lia.
  - apply (crc_ref_detects _ 16 crc16_poly_fits); done || lia.
  - apply (crc_ref_detects _ 32 crc32k_poly_fits); done || lia.
Qed.

Lemma crc_detects_octet_change_witness :
  crc8 ([0; 16] ++ 5 :: [0; 0]) <> crc8 ([0; 16] ++ 6 :: [0; 0]).
Proof.
  exact (proj1 (crc_detects_octet_change [0; 16] 5 6 [0; 0]
    ltac:(repeat constructor; width) ltac:(width) ltac:(lia))).
Defined.

(** The worked frame of the crate's documentation. *)
Example crc8_token : crc8 [0; 16; 5; 0; 0] = 140.
Proof. vm_compute. reflexivity. Qed.
Example crc16_data : to_le16 (crc16 [1; 0]) = [159; 22].
Proof. vm_compute. reflexivity. Qed.
