(* ===== verification/Sink.v ===== *)
(** * Byte sinks (crate bacnet-mstp-codec, sink.rs)

    The [FrameSink] trait as a class, the law its documentation states as a
    second class, and two implementations: the fixed [&mut [u8]] slice, which
    advances past what it wrote, and the growable [Vec<u8>]. The [BvllSink] trait
    of bacnet-bip-codec has the same two methods, the same promise and the same
    implementations, so its encoders use the class too; [checked_write] is what
    those encoders do once they know a message's length. *)

From S2P Require Import Prelude.

(** [SinkFull] (bacnet-mstp-codec/src/sink.rs:22-32) *)
Record SinkFull := { full_needed : nat; full_available : nat }.

#[global] Instance SinkFull_eq_dec : EqDecision SinkFull.
Proof. solve_decision. Defined.

(** [FrameSink] (bacnet-mstp-codec/src/sink.rs:5-20) *)
Class FrameSink (S : Type) := {
  remaining_capacity : S -> option nat;
  sink_write : S -> bytes -> S * Result unit SinkFull
}.

(** What the trait promises: a write appends all of its octets or fails without
    appending any, and a sink that reports its room takes what fits it. *)
Class FrameSinkLaws (S : Type) `{FrameSink S} := {
  contents : S -> bytes;
  write_ok : forall s b s', sink_write s b = (s', Ok tt) ->
    contents s' = contents s ++ b /\
    remaining_capacity s' = (fun c => c - length b)%nat <$> remaining_capacity s;
  write_err : forall s b s' e, sink_write s b = (s', Err e) ->
    contents s' = contents s /\ remaining_capacity s' = remaining_capacity s;
  write_fits : forall s b c, remaining_capacity s = Some c -> (length b <= c)%nat ->
    exists s', sink_write s b = (s', Ok tt)
}.

(** ** A slice

    [&mut [u8]] with the writes so far: [slice_buf] is the whole buffer the
    caller lent, [slice_pos] how far the slice has advanced into it. *)
Record SliceSink := { slice_buf : bytes; slice_pos : nat }.

(** [self.len()]. *)
Definition slice_room (s : SliceSink) : nat := length (slice_buf s) - slice_pos s.

(** [FrameSink for &mut [u8]] (bacnet-mstp-codec/src/sink.rs:46-65) *)
Definition slice_write (s : SliceSink) (b : bytes) : SliceSink * Result unit SinkFull :=
  if decide (slice_room s < length b)%nat
  then (s, Err {| full_needed := length b; full_available := slice_room s |})
  else ({| slice_buf := splice (slice_buf s) (slice_pos s) b;
           slice_pos := slice_pos s + length b |}, Ok tt).

#[export] Instance SliceSink_FrameSink : FrameSink SliceSink := {
  remaining_capacity s := Some (slice_room s);
  sink_write := slice_write
}.

(** ** A vector *)

(** [FrameSink for Vec<u8>] (bacnet-mstp-codec/src/sink.rs:82-92) *)
Definition vec_write (s : bytes) (b : bytes) : bytes * Result unit SinkFull :=
  (s ++ b, Ok tt).

#[export] Instance Vec_FrameSink : FrameSink bytes := {
  remaining_capacity _ := None;
  sink_write := vec_write
}.

(** ** The laws hold *)

#[export] Instance SliceSink_laws : FrameSinkLaws SliceSink.
Proof.
  refine {| contents s := take (slice_pos s) (slice_buf s) |}.
  - intros [buf pos] b s'. simpl. unfold slice_write, slice_room. simpl.
    case_decide; intros [= <-]. simpl.
    destruct (decide (pos <= length buf)%nat).
    + rewrite length_splice by lia. split; [|f_equal; lia].
      unfold splice. rewrite app_assoc.
      replace (pos + length b)%nat with (length (take pos buf ++ b))
        by (rewrite length_app, length_take; lia).
      apply take_app_length.
    + assert (b = []) as -> by (destruct b; [done|simpl in *; lia]).
      rewrite splice_nil, app_nil_r. simpl. rewrite Nat.add_0_r. split; [done|f_equal; lia].
  - intros [buf pos] b s' e. simpl. unfold slice_write. case_decide; intros [= <- <-]. done.
  - intros [buf pos] b c [= <-] Hb. simpl. unfold slice_write.
    rewrite decide_False by lia. by eexists.
Defined.

#[export] Instance Vec_laws : FrameSinkLaws bytes.
Proof.
  refine {| contents s := s |}.
  - intros s b s' [= <-]. done.
  - intros s b s' e [=].
  - done.
Defined.

(** ** Checked writes *)

(** Writes in order, each followed by [?]. *)
Fixpoint write_all {S} `{FrameSink S} (s : S) (chunks : list bytes) : S * Result unit SinkFull :=
  match chunks with
  | [] => (s, Ok tt)
  | b :: rest =>
      match sink_write s b with
      | (s, Ok _) => write_all s rest
      | (s, Err e) => (s, Err e)
      end
  end.
(** A message of [total] octets: refused with [full] when the sink reports less room, and written
    chunk by chunk otherwise. *)
Definition checked_write {S E} `{FrameSink S} (full : nat -> nat -> E) (total : nat)
  (chunks : list bytes) (s : S) : S * Result nat E :=
  let write :=
    match write_all s chunks with
    | (s, Ok _) => (s, Ok total)
    | (s, Err e) => (s, Err (full (full_needed e) (full_available e)))
    end in
  match remaining_capacity s with
  | Some available => if decide (available < total)%nat then (s, Err (full total available)) else write
  | None => write
  end.

Lemma write_all_spec {S} `{FrameSinkLaws S} chunks : forall s : S,
  match write_all s chunks with
  | (s', Ok _) => contents s' = contents s ++ concat chunks /\
      remaining_capacity s' = (fun c => c - length (concat chunks))%nat <$> remaining_capacity s
  | (s', Err _) => contents s' `prefix_of` contents s ++ concat chunks /\
      forall c, remaining_capacity s = Some c -> (c < length (concat chunks))%nat
  end.
Proof.
  induction chunks as [|b rest IH]; intros s; cbn [write_all concat].
  { rewrite app_nil_r. split; [done|]. destruct (remaining_capacity s); [|done].
    simpl. by rewrite Nat.sub_0_r. }
  destruct (sink_write s b) as [s1 [[]|e]] eqn:E.
  - apply write_ok in E as [C R]. specialize (IH s1).
    destruct (write_all s1 rest) as [s2 [u|e]].
    + destruct IH as [C2 R2]. rewrite C2, R2, C, R, <-app_assoc. split; [done|].
      destruct (remaining_capacity s); [|done]. simpl. rewrite length_app. f_equal. lia.
    + destruct IH as [C2 R2]. rewrite C, <-app_assoc in C2. split; [done|].
      intros c Hc. rewrite R, Hc in R2. specialize (R2 _ eq_refl). rewrite length_app. lia.
  - pose proof E as E'. apply write_err in E as [C R]. split.
    + rewrite C. by apply prefix_app_r.
    + intros c Hc. destruct (decide (c < length b)%nat); [rewrite length_app; lia|].
      destruct (write_fits s b c Hc ltac:(lia)) as [s' Es]. congruence.
Qed.

(** Refused for want of room, appended whole, or cut off by a sink that reported no limit. *)
Lemma checked_write_spec {S E} `{FrameSinkLaws S} (full : nat -> nat -> E) chunks (s : S) :
  let total := length (concat chunks) in
  match remaining_capacity s with
  | Some c =>
      if decide (c < total)%nat then checked_write full total chunks s = (s, Err (full total c))
      else exists s', checked_write full total chunks s = (s', Ok total) /\
             contents s' = contents s ++ concat chunks /\ remaining_capacity s' = Some (c - total)%nat
  | None =>
      match checked_write full total chunks s with
      | (s', Ok n) => n = total /\ contents s' = contents s ++ concat chunks
      | (s', Err _) => contents s' `prefix_of` contents s ++ concat chunks
      end
  end.
Proof.
  cbv zeta. unfold checked_write. pose proof (write_all_spec chunks s) as Hw.
  destruct (remaining_capacity s) as [c|] eqn:Er.
  - case_decide as Hc; [done|]. destruct (write_all s chunks) as [s' [u|e]].
    + destruct Hw as [C R]. by exists s'.
    + destruct Hw as [_ Hw]. specialize (Hw c eq_refl). lia.
  - destruct (write_all s chunks) as [s' [u|e]]; [|apply Hw]. by destruct Hw.
Qed.

(** What a checked write leaves in a caller's buffer. *)
Lemma checked_write_slice {E} (full : nat -> nat -> E) chunks output :
  let total := length (concat chunks) in
  let r := checked_write full total chunks {| slice_buf := output; slice_pos := 0 |} in
  if decide (length output < total)%nat
  then r = ({| slice_buf := output; slice_pos := 0 |}, Err (full total (length output)))
  else r.2 = Ok total /\ take total (slice_buf r.1) = concat chunks.
Proof.
  cbv zeta. pose proof (checked_write_spec full chunks {| slice_buf := output; slice_pos := 0 |}) as Hs.
  assert (Er : remaining_capacity {| slice_buf := output; slice_pos := 0 |} = Some (length output))
    by (cbn; by rewrite Nat.sub_0_r).
  cbv zeta in Hs. rewrite Er in Hs. case_decide as Hlt; [exact Hs|].
  destruct Hs as (s' & -> & C & R). cbn [fst snd]. split; [done|].
  change (take (slice_pos s') (slice_buf s') = concat chunks) in C.
  rewrite <-C, length_take. destruct (decide (slice_pos s' <= length (slice_buf s'))%nat).
  - by rewrite Nat.min_l by lia.
  - rewrite Nat.min_r by lia. by rewrite !take_ge by lia.
Qed.
