(* ===== verification/Cobs.v ===== *)
(** * The encoded fields of an extended frame (crate bacnet-mstp-codec, cobs.rs)

    COBS takes every zero octet out of a field; each octet then goes out XORed
    with 0x55, so no encoded field holds the first preamble octet. The encoder
    writes through a 32-octet chunk into a sink while it accumulates the
    CRC-32K; the decoder checks a field first and then decodes it over itself.
    The source's loops run on indices; here they take fuel one larger than the
    field's length, which every iteration shortens, and the lemmas show the fuel
    is enough. [cobs_decode] is the reference decoder on lists. *)

From S2P Require Import Prelude Crc Sink.

(** [MASK] (bacnet-mstp-codec/src/cobs.rs:18-20) *)
Definition MASK : Z := 85.
(** [MAX_RUN] (bacnet-mstp-codec/src/cobs.rs:21-22) *)
Definition MAX_RUN : nat := 254.
(** [ENCODED_CRC_LENGTH] (bacnet-mstp-codec/src/cobs.rs:23-25) *)
Definition ENCODED_CRC_LENGTH : nat := 5.
(** [LENGTH_ADJUSTMENT] (bacnet-mstp-codec/src/cobs.rs:26-29) *)
Definition LENGTH_ADJUSTMENT : nat := 2.
(** [CHUNK] (bacnet-mstp-codec/src/cobs.rs:68-69) *)
Definition CHUNK : nat := 32.

(** ** Encoding *)

(** [rest.iter().take(MAX_RUN).take_while(|o| o != 0).count()]. *)
Fixpoint nonzero_run (limit : nat) (rest : bytes) : nat :=
  match limit, rest with
  | S limit, x :: rest => if x =? 0 then O else S (nonzero_run limit rest)
  | _, _ => O
  end.

(** The code blocks of [data], each as its code and its octets, in the order
    [for_each_block] calls its closure with them.
    [for_each_block] (bacnet-mstp-codec/src/cobs.rs) *)
Fixpoint blocks_fuel (fuel : nat) (rest : bytes) : list (Z * bytes) :=
  match fuel with
  | O => []
  | S fuel =>
      let run := nonzero_run MAX_RUN rest in
      let octets := take run rest in
      let tail := drop run rest in
      (Z.of_nat run + 1, octets) ::
      if decide (run = MAX_RUN) then
        match tail with [] => [] | _ :: _ => blocks_fuel fuel tail end
      else
        match tail with [] => [] | _ :: after_zero => blocks_fuel fuel after_zero end
  end.
Definition blocks (data : bytes) : list (Z * bytes) :=
  blocks_fuel (S (length data)) data.

(** [frame_length] (bacnet-mstp-codec/src/cobs.rs) *)
Definition frame_length (data : bytes) : nat :=
  fold_left (fun n b => n + (1 + length b.2))%nat (blocks data) 0%nat
  + ENCODED_CRC_LENGTH - LENGTH_ADJUSTMENT.

Section Output.
Context {S : Type} `{FrameSink S}.

(** [Output] (bacnet-mstp-codec/src/cobs.rs:71-79) *)
Record Output := {
  out_sink : S;
  out_chunk : bytes;
  out_used : nat;
  out_crc : Z;
  out_result : Result unit SinkFull
}.

(** [Output::flush] (bacnet-mstp-codec/src/cobs.rs) *)
Definition flush (o : Output) : Output :=
  let chunk := take (out_used o) (out_chunk o) in
  let crc := crc32k_update (out_crc o) chunk in
  let '(sink, result) :=
    match out_result o with
    | Ok _ => sink_write (out_sink o) chunk
    | Err e => (out_sink o, Err e)
    end in
  {| out_sink := sink; out_chunk := out_chunk o; out_used := 0; out_crc := crc;
     out_result := result |}.

(** [Output::push] (bacnet-mstp-codec/src/cobs.rs) *)
Definition push (o : Output) (octet : Z) : Output :=
  let o := if decide (out_used o = CHUNK) then flush o else o in
  {| out_sink := out_sink o;
     out_chunk := <[out_used o := Z.lxor octet MASK]> (out_chunk o);
     out_used := out_used o + 1; out_crc := out_crc o; out_result := out_result o |}.

(** [Output::blocks] (bacnet-mstp-codec/src/cobs.rs) *)
Definition push_blocks (o : Output) (data : bytes) : Output :=
  fold_left (fun o b => fold_left push b.2 (push o b.1)) (blocks data) o.

(** [write_fields] (bacnet-mstp-codec/src/cobs.rs) *)
Definition write_fields (data : bytes) (sink : S) : S * Result unit SinkFull :=
  let output := {| out_sink := sink; out_chunk := replicate CHUNK 0; out_used := 0;
                   out_crc := U32_MAX; out_result := Ok tt |} in
  let output := push_blocks output data in
  let output := flush output in
  let crc := Z.lxor (out_crc output) U32_MAX in
  let output := push_blocks output (to_le32 crc) in
  let output := flush output in
  (out_sink output, out_result output).
End Output.
Arguments Output : clear implicits.

(** ** Decoding *)

(** The [while let] loop of [decoded_length].
    [decoded_length] (bacnet-mstp-codec/src/cobs.rs:143-153) *)
Fixpoint decoded_length_loop (fuel : nat) (field : bytes) (read len : nat) : option nat :=
  match fuel with
  | O => None
  | S fuel =>
      match field !! read with
      | None => Some len
      | Some octet =>
          let code := Z.to_nat (Z.lxor octet MASK) in
          if decide (code = 0 \/ length field - read < code)%nat then None else
          let read := (read + code)%nat in
          let len := (len + (code - 1))%nat in
          let len := if decide (code <> 255 /\ read < length field)%nat
                     then S len else len in
          decoded_length_loop fuel field read len
      end
  end.
(** [decoded_length] (bacnet-mstp-codec/src/cobs.rs) *)
Definition decoded_length (field : bytes) : option nat :=
  decoded_length_loop (S (length field)) field 0 0.

(** The inner [while read < end] loop of [decode_in_place], [count] iterations.
    [decode_in_place] (bacnet-mstp-codec/src/cobs.rs:166-170) *)
Fixpoint copy_run (count : nat) (field : bytes) (read write : nat) : bytes * nat * nat :=
  match count with
  | O => (field, read, write)
  | S count =>
      let field := <[write := Z.lxor (nth read field 0) MASK]> field in
      copy_run count field (S read) (S write)
  end.
(** The outer loop of [decode_in_place].
    [decode_in_place] (bacnet-mstp-codec/src/cobs.rs:162-175) *)
Fixpoint decode_in_place_loop (fuel : nat) (field : bytes) (read write : nat)
  : bytes * nat :=
  match fuel with
  | O => (field, write)
  | S fuel =>
      if decide (read < length field)%nat then
        let code := Z.to_nat (Z.lxor (nth read field 0) MASK) in
        let read := S read in
        let end_ := Nat.min (read + (code - 1)) (length field) in
        let '(field, read, write) := copy_run (end_ - read) field read write in
        let '(field, write) :=
          if decide (code <> 255 /\ read < length field)%nat
          then (<[write := 0]> field, S write) else (field, write) in
        decode_in_place_loop fuel field read write
      else (field, write)
  end.
(** [decode_in_place] (bacnet-mstp-codec/src/cobs.rs) *)
Definition decode_in_place (field : bytes) : bytes * nat :=
  decode_in_place_loop (S (length field)) field 0 0.

(** [check_fields] (bacnet-mstp-codec/src/cobs.rs) *)
Definition check_fields (fields : bytes) : option nat :=
  if decide (length fields < ENCODED_CRC_LENGTH)%nat then None else
  let split := (length fields - ENCODED_CRC_LENGTH)%nat in
  let data := take split fields in
  let crc := drop split fields in
  match decoded_length data with
  | None => None
  | Some len =>
      match decoded_length crc with
      | None => None
      | Some _ =>
          let '(crc, _) := decode_in_place crc in
          let received := from_le32 (nth 0 crc 0) (nth 1 crc 0) (nth 2 crc 0) (nth 3 crc 0) in
          if received =? Z.lxor (crc32k_update U32_MAX data) U32_MAX
          then Some len else None
      end
  end.

(** [decode_data_in_place]: the fields after the call and the length of the data
    now at their start.
    [decode_data_in_place] (bacnet-mstp-codec/src/cobs.rs) *)
Definition decode_data_in_place (fields : bytes) : bytes * nat :=
  let encoded := (length fields - ENCODED_CRC_LENGTH)%nat in
  let '(front, n) := decode_in_place (take encoded fields) in
  (front ++ drop encoded fields, n).

(** ** Reference: COBS on lists *)

(** A field as it goes on the wire. *)
Definition mask : bytes -> bytes := map (fun x => Z.lxor x MASK).
Definition cobs_encode (data : bytes) : bytes :=
  concat (map (fun b => b.1 :: b.2) (blocks data)).
Definition encoded_data (data : bytes) : bytes := mask (cobs_encode data).
(** Both encoded fields of [data]. *)
Definition encoded_fields (data : bytes) : bytes :=
  encoded_data data ++ encoded_data (to_le32 (crc32k (encoded_data data))).

(** Decode a masked field; [None] where a code is zero or runs past the end. *)
Fixpoint cobs_decode_fuel (fuel : nat) (field : bytes) : option bytes :=
  match fuel, field with
  | _, [] => Some []
  | O, _ => None
  | S fuel, octet :: rest =>
      let code := Z.to_nat (Z.lxor octet MASK) in
      if decide (code = 0 \/ length field < code)%nat then None else
      let tail := drop (code - 1) rest in
      d ← cobs_decode_fuel fuel tail;
      Some (mask (take (code - 1) rest) ++
            (if decide (code <> 255%nat /\ tail <> []) then [0] else []) ++ d)
  end.
Definition cobs_decode (field : bytes) : option bytes :=
  cobs_decode_fuel (length field) field.

Example cobs_example :
  cobs_encode [17; 34; 0; 51] = [3; 17; 34; 2; 51] /\
  cobs_decode (encoded_data [17; 34; 0; 51]) = Some [17; 34; 0; 51] /\
  check_fields (encoded_fields [1; 0; 0; 7]) = Some 4%nat.
Proof. vm_compute. done. Qed.

(** ** The encoder's blocks *)

Lemma nonzero_run_le limit rest :
  (nonzero_run limit rest <= limit /\ nonzero_run limit rest <= length rest)%nat.
Proof.
  revert limit. induction rest as [|x rest IH]; intros [|limit]; simpl; try lia.
  case_match; simpl; [lia|]. specialize (IH limit). lia.
Qed.

Lemma nonzero_run_take limit rest :
  Forall (fun x => x <> 0) (take (nonzero_run limit rest) rest).
Proof.
  revert limit. induction rest as [|x rest IH]; intros [|limit]; simpl; try constructor.
  destruct (Z.eqb_spec x 0); simpl; constructor; auto.
Qed.

Lemma nonzero_run_stop limit rest x tail :
  drop (nonzero_run limit rest) rest = x :: tail ->
  nonzero_run limit rest <> limit -> x = 0.
Proof.
  revert limit. induction rest as [|y rest IH]; intros [|limit]; simpl; try done.
  destruct (Z.eqb_spec y 0) as [->|]; simpl; [congruence|].
  intros H1 H2. eapply IH; [done|]. lia.
Qed.

Lemma blocks_fuel_eq f1 f2 rest : (length rest < f1)%nat -> (length rest < f2)%nat ->
  blocks_fuel f1 rest = blocks_fuel f2 rest.
Proof.
  revert f2 rest. induction f1 as [|f1 IH]; intros [|f2] rest H1 H2; try lia. cbn [blocks_fuel].
  pose proof (nonzero_run_le MAX_RUN rest).
  assert (HL : length (drop (nonzero_run MAX_RUN rest) rest) =
    (length rest - nonzero_run MAX_RUN rest)%nat) by apply length_drop.
  f_equal. case_decide as Hrun.
  - rewrite Hrun in *. assert (0 < MAX_RUN)%nat by (unfold MAX_RUN; lia).
    destruct (drop MAX_RUN rest) eqn:E; [done|]. simpl in *. apply IH; simpl; lia.
  - destruct (drop _ rest) eqn:E; [done|]. simpl in HL. apply IH; lia.
Qed.

(** The four ways a block ends, with its fuel out of the way. *)
Lemma blocks_step data :
  exists run octets tail,
    data = octets ++ tail /\ length octets = run /\ (run <= MAX_RUN)%nat /\
    Forall (fun x => x <> 0) octets /\
    ( (tail = [] /\ blocks data = [(Z.of_nat run + 1, octets)]) \/
      (run = MAX_RUN /\ tail <> [] /\
       blocks data = (Z.of_nat run + 1, octets) :: blocks tail) \/
      (exists after, run <> MAX_RUN /\ tail = 0 :: after /\
       blocks data = (Z.of_nat run + 1, octets) :: blocks after) ).
Proof.
  pose proof (nonzero_run_le MAX_RUN data) as [Hr1 Hr2].
  set (run := nonzero_run MAX_RUN data) in *.
  exists run, (take run data), (drop run data). split_and!.
  - by rewrite take_drop.
  - rewrite length_take. lia.
  - done.
  - apply nonzero_run_take.
  - assert (Hb : blocks data = blocks_fuel (S (length data)) data) by done.
    cbn [blocks_fuel] in Hb. fold run in Hb. rewrite Hb. clear Hb.
    assert (HL : length (drop run data) = (length data - run)%nat) by apply length_drop.
    destruct (drop run data) as [|x after] eqn:E.
    + left. split; [done|]. by case_decide.
    + right. simpl in HL. case_decide as Hrun.
      * left. split_and!; [done..|]. f_equal.
        apply blocks_fuel_eq; simpl in *; unfold MAX_RUN in *; lia.
      * right. exists after.
        assert (x = 0) as -> by (eapply nonzero_run_stop; [apply E|done]).
        split_and!; [done..|]. f_equal. apply blocks_fuel_eq; lia.
Qed.

(** Induction over the blocks of a message. *)
Lemma blocks_ind (P : bytes -> list (Z * bytes) -> Prop) :
  (forall octets, (length octets <= MAX_RUN)%nat -> Forall (fun x => x <> 0) octets ->
     P octets [(Z.of_nat (length octets) + 1, octets)]) ->
  (forall octets tail, length octets = MAX_RUN -> Forall (fun x => x <> 0) octets ->
     tail <> [] -> P tail (blocks tail) ->
     P (octets ++ tail) ((255, octets) :: blocks tail)) ->
  (forall octets after, (length octets < MAX_RUN)%nat -> Forall (fun x => x <> 0) octets ->
     P after (blocks after) ->
     P (octets ++ 0 :: after) ((Z.of_nat (length octets) + 1, octets) :: blocks after)) ->
  forall data, P data (blocks data).
Proof.
  intros Hend Hfull Hzero data.
  induction data as [data IH] using (induction_ltof1 _ (@length Z)). unfold ltof in IH.
  destruct (blocks_step data) as (run & octets & tail & -> & Hlen & Hle & Hnz & H).
  destruct H as [[-> ->]|[(Hrun & Hne & ->)|(after & Hrun & -> & ->)]]; subst run.
  - rewrite app_nil_r. auto.
  - rewrite Hrun. apply Hfull; [done..|]. apply IH.
    rewrite length_app, Hrun. unfold MAX_RUN. lia.
  - apply Hzero; [lia|done|]. apply IH. rewrite length_app. simpl. lia.
Qed.

Lemma cobs_encode_cons data : exists c l, cobs_encode data = c :: l.
Proof.
  unfold cobs_encode. pattern data, (blocks data).
  apply blocks_ind; intros; simpl; eauto.
Qed.

Lemma cobs_encode_wf data : wf_bytes data ->
  wf_bytes (cobs_encode data) /\ Forall (fun x => x <> 0) (cobs_encode data).
Proof.
  unfold cobs_encode. pattern data, (blocks data).
  apply blocks_ind; clear data; unfold MAX_RUN;
    [intros octets Hl Hnz Hw|intros octets tail Hl Hnz Hne IH Hw
    |intros octets after Hl Hnz IH Hw]; simpl;
    rewrite ?Forall_app, ?Forall_cons in Hw; rewrite ?app_nil_r, ?Forall_app, !Forall_cons;
    rewrite ?Forall_app.
  - split_and!; auto; width.
  - destruct Hw. destruct IH; [done|]. split_and!; auto; width.
  - destruct Hw as (? & ? & ?). destruct IH; [done|]. split_and!; auto; width.
Qed.

Lemma cobs_encode_length data :
  (length data + 1 <= length (cobs_encode data) <= length data + length data / 254 + 1)%nat.
Proof.
  unfold cobs_encode. pattern data, (blocks data).
  apply blocks_ind; clear data; unfold MAX_RUN;
    [intros octets Hl Hnz|intros octets tail Hl Hnz Hne IH
    |intros octets after Hl Hnz IH]; cbn [concat map length fst snd app];
    rewrite ?length_app; cbn [length].
  - lia.
  - assert ((length octets + length tail) / 254 = 1 + length tail / 254)%nat.
    { rewrite Hl. replace (254 + length tail)%nat with (length tail + 1 * 254)%nat by lia.
      rewrite Nat.div_add by lia. lia. }
    lia.
  - pose proof (Nat.Div0.div_le_mono (length after) (length octets + S (length after)) 254).
    lia.
Qed.

Lemma frame_length_encode data : frame_length data = (length (cobs_encode data) + 3)%nat.
Proof.
  unfold frame_length, cobs_encode, ENCODED_CRC_LENGTH, LENGTH_ADJUSTMENT.
  assert (forall bs n, fold_left (fun n (b : Z * bytes) => n + (1 + length b.2))%nat bs n =
    (n + length (concat (map (fun b : Z * bytes => b.1 :: b.2) bs)))%nat) as ->.
  { intros bs. induction bs as [|b bs IH]; intros n; simpl; [lia|].
    rewrite IH, length_app. simpl. lia. }
  lia.
Qed.

(** ** The reference decoder inverts the encoder *)

Lemma length_mask l : length (mask l) = length l.
Proof. apply length_map. Qed.

Lemma mask_app a b : mask (a ++ b) = mask a ++ mask b.
Proof. apply map_app. Qed.

Lemma mask_mask l : mask (mask l) = l.
Proof.
  unfold mask. rewrite map_map. rewrite <-(map_id l) at 2. apply map_ext.
  intros. apply lxor_cancel.
Qed.

Lemma mask_wf l : wf_bytes l -> wf_bytes (mask l).
Proof.
  intros H. unfold mask. apply Forall_map. eapply Forall_impl; [done|].
  intros. apply lxor_u8; [done|unfold MASK; width].
Qed.

Lemma encoded_data_wf data : wf_bytes data -> wf_bytes (encoded_data data).
Proof. intros. apply mask_wf, cobs_encode_wf. done. Qed.
#[export] Hint Resolve mask_wf encoded_data_wf : bac.

Lemma cobs_decode_fuel_eq f1 f2 field : (length field <= f1)%nat -> (length field <= f2)%nat ->
  cobs_decode_fuel f1 field = cobs_decode_fuel f2 field.
Proof.
  revert f2 field. induction f1 as [|f1 IH]; intros [|f2] [|x rest] H1 H2; simpl in *; try lia; try done.
  case_decide; [done|].
  set (tail := drop _ rest). assert (length tail <= length rest)%nat
    by (unfold tail; rewrite length_drop; lia).
  by rewrite (IH f2 tail) by lia.
Qed.

(** The equation of the reference decoder, its fuel out of the way. *)
Lemma cobs_decode_cons octet rest :
  cobs_decode (octet :: rest) =
    let code := Z.to_nat (Z.lxor octet MASK) in
    if decide (code = 0 \/ S (length rest) < code)%nat then None else
    let tail := drop (code - 1) rest in
    d ← cobs_decode tail;
    Some (mask (take (code - 1) rest) ++
          (if decide (code <> 255%nat /\ tail <> []) then [0] else []) ++ d).
Proof.
  unfold cobs_decode. simpl. case_decide; [done|].
  by rewrite (cobs_decode_fuel_eq (length rest) (length (drop (Z.to_nat (Z.lxor octet MASK) - 1) rest)))
    by (rewrite length_drop; lia).
Qed.

(** Decoding a block that the encoder wrote. *)
Lemma cobs_decode_block octets enc d :
  (length octets <= MAX_RUN)%nat -> cobs_decode (mask enc) = Some d ->
  cobs_decode (mask ((Z.of_nat (length octets) + 1) :: octets ++ enc)) =
    Some (octets ++ (if decide (length octets <> MAX_RUN /\ enc <> []) then [0] else []) ++ d).
Proof.
  intros Hl Hd. unfold mask at 1. simpl map. fold (mask (octets ++ enc)).
  rewrite cobs_decode_cons, lxor_cancel, mask_app, length_app, !length_mask.
  replace (Z.to_nat (Z.of_nat (length octets) + 1)) with (S (length octets)) by lia.
  cbv zeta. rewrite decide_False by lia.
  replace (S (length octets) - 1)%nat with (length (mask octets)) by (rewrite length_mask; lia).
  rewrite drop_app_length, take_app_length, Hd, mask_mask. simpl. do 3 f_equal.
  unfold MAX_RUN in *. apply decide_ext. destruct enc; simpl; split; intros [? ?]; split; done || lia.
Qed.

Lemma cobs_decode_encode data : cobs_decode (encoded_data data) = Some data.
Proof.
  unfold encoded_data.
  assert (H : forall d bs, d = data -> bs = blocks data ->
    cobs_decode (mask (concat (map (fun b : Z * bytes => b.1 :: b.2) bs))) = Some d);
    [|by apply H].
  intros d bs -> ->. pattern data, (blocks data).
  apply blocks_ind; clear data; [intros octets Hl Hnz|intros octets tail Hl Hnz Hne IH
    |intros octets after Hl Hnz IH]; cbn [concat map fst snd].
  - rewrite app_nil_r. rewrite <-(app_nil_r octets) at 2.
    rewrite (cobs_decode_block octets [] []) by done.
    rewrite decide_False by (intros [_ ?]; done). by rewrite !app_nil_r.
  - replace 255 with (Z.of_nat (length octets) + 1) by (rewrite Hl; done). simpl app.
    rewrite (cobs_decode_block octets _ tail) by (done || lia).
    rewrite decide_False by (intros [? _]; done). done.
  - simpl app. rewrite (cobs_decode_block octets _ after) by (done || lia).
    rewrite decide_True; [done|]. split; [lia|].
    destruct (cobs_encode_cons after) as (c & l & E). unfold cobs_encode in E.
    intros E'. pose proof (eq_trans (eq_sym E) E'). done.
Qed.

(** ** The length check computes the decoded length *)

Lemma decoded_length_loop_spec field fuel : forall read len,
  (read <= length field)%nat -> (length field - read < fuel)%nat ->
  decoded_length_loop fuel field read len =
    (fun d => len + length d)%nat <$> cobs_decode (drop read field).
Proof.
  induction fuel as [|fuel IH]; intros read len Hr Hf; [lia|]. simpl.
  destruct (field !! read) as [x|] eqn:E.
  - rewrite (drop_S _ _ _ E), cobs_decode_cons. cbv zeta.
    pose proof (lookup_lt_Some _ _ _ E).
    rewrite length_drop. set (code := Z.to_nat (Z.lxor x MASK)).
    destruct (decide (code = 0 \/ length field - read < code)%nat);
      [rewrite decide_True by lia; done|].
    destruct (decide (code = 0 \/ S (length field - S read) < code)%nat); [lia|].
    rewrite IH by lia. rewrite drop_drop.
    replace (S read + (code - 1))%nat with (read + code)%nat by lia.
    destruct (cobs_decode (drop (read + code) field)) as [d|]; [|done]. simpl. f_equal.
    rewrite !length_app, length_mask, length_take, length_drop.
    assert (Hiff : (drop (read + code) field <> []) <-> (read + code < length field)%nat).
    { split.
      - intros Hd. destruct (decide (read + code < length field)%nat); [done|].
        rewrite drop_ge in Hd by lia. done.
      - intros Hlt Hd. apply (f_equal length) in Hd. rewrite length_drop in Hd. simpl in Hd. lia. }
    rewrite (decide_ext (code <> 255%nat /\ drop (read + code) field <> [])
      (code <> 255 /\ read + code < length field)%nat) by
      (rewrite Hiff; tauto).
    case_decide; simpl; lia.
  - apply lookup_ge_None in E. rewrite drop_ge by lia. simpl. f_equal. lia.
Qed.

Lemma decoded_length_spec field : decoded_length field = length <$> cobs_decode field.
Proof. unfold decoded_length. rewrite decoded_length_loop_spec by lia. done. Qed.

(** ** Decoding in place

    [write] never passes [read], so what is still to be read is never
    overwritten. *)

Lemma copy_run_spec count : forall field read write,
  (write < read)%nat -> (read + count <= length field)%nat ->
  exists field', copy_run count field read write =
    (field', (read + count)%nat, (write + count)%nat) /\
    length field' = length field /\
    take (write + count) field' = take write field ++ mask (take count (drop read field)) /\
    drop (read + count) field' = drop (read + count) field.
Proof.
  induction count as [|count IH]; intros field read write Hlt Hle; simpl.
  - exists field. rewrite !Nat.add_0_r. split_and!; [done..|by rewrite app_nil_r|done].
  - set (x := Z.lxor (nth read field 0) MASK).
    destruct (IH (<[write := x]> field) (S read) (S write)) as (f' & -> & L & T & D);
      [lia|rewrite length_insert; lia|].
    exists f'. rewrite length_insert in L.
    replace (read + S count)%nat with (S read + count)%nat by lia.
    replace (write + S count)%nat with (S write + count)%nat by lia.
    split_and!; [done|done| |].
    + rewrite T, drop_insert_lt by lia.
      rewrite (take_S_r _ _ x) by (apply list_lookup_insert_eq; lia).
      rewrite take_insert_ge by lia.
      destruct (lookup_lt_is_Some_2 field read) as [y Hy]; [lia|].
      rewrite (drop_S _ _ _ Hy). simpl. rewrite <-app_assoc. simpl. do 2 f_equal.
      unfold x. by rewrite (nth_lookup_Some _ _ _ _ Hy).
    + rewrite D, drop_insert_lt by lia. done.
Qed.

Lemma decode_in_place_loop_spec fuel : forall field read write d,
  (write <= read)%nat -> (read <= length field)%nat -> (length field - read < fuel)%nat ->
  cobs_decode (drop read field) = Some d ->
  exists field', decode_in_place_loop fuel field read write = (field', (write + length d)%nat) /\
    length field' = length field /\ take (write + length d) field' = take write field ++ d.
Proof.
  induction fuel as [|fuel IH]; intros field read write d Hw Hr Hf Hd; [lia|].
  cbn [decode_in_place_loop]. case_decide as Hlt.
  - destruct (lookup_lt_is_Some_2 field read Hlt) as [x Hx].
    rewrite (drop_S _ _ _ Hx), cobs_decode_cons in Hd. cbv zeta in Hd.
    rewrite (nth_lookup_Some _ _ _ _ Hx). rewrite length_drop in Hd.
    set (code := Z.to_nat (Z.lxor x MASK)) in *. case_decide as Hc; [done|].
    replace (Nat.min (S read + (code - 1)) (length field) - S read)%nat with (code - 1)%nat by lia.
    destruct (copy_run_spec (code - 1) field (S read) write) as (f1 & -> & L1 & T1 & D1); [lia..|].
    rewrite drop_drop in Hd. replace (S read + (code - 1))%nat with (read + code)%nat in * by lia.
    destruct (cobs_decode (drop (read + code) field)) as [d'|] eqn:Ed; [|done].
    simpl in Hd. injection Hd as <-. rewrite <-D1 in Ed.
    assert (Hlen : length (mask (take (code - 1) (drop (S read) field))) = (code - 1)%nat)
      by (rewrite length_mask, length_take, length_drop; lia).
    assert (Hiff : (drop (read + code) field <> []) <-> (read + code < length f1)%nat).
    { rewrite L1. split; [|intros ? E%(f_equal length); rewrite length_drop in E; simpl in E; lia].
      intros Hne. destruct (decide (read + code < length field)%nat); [done|].
      rewrite drop_ge in Hne by lia. done. }
    rewrite (decide_ext (code <> 255%nat /\ drop (read + code) field <> [])
      (code <> 255 /\ read + code < length f1)%nat) by (rewrite Hiff; tauto).
    rewrite !length_app, Hlen. case_decide as Hz.
    + destruct (IH (<[(write + (code - 1))%nat := 0]> f1) (read + code)%nat
        (S (write + (code - 1))) d') as (f2 & -> & L2 & T2);
        [lia|rewrite length_insert; lia..|by rewrite drop_insert_lt by lia|].
      exists f2. rewrite length_insert in L2. simpl length.
      replace (write + (code - 1 + (1 + length d')))%nat
        with (S (write + (code - 1)) + length d')%nat by lia.
      split_and!; [done|lia|]. rewrite T2.
      rewrite (take_S_r _ _ 0) by (apply list_lookup_insert_eq; lia).
      rewrite take_insert_ge, T1 by lia. rewrite <-!app_assoc. done.
    + destruct (IH f1 (read + code)%nat (write + (code - 1))%nat d') as (f2 & -> & L2 & T2); [lia..|done|].
      exists f2. simpl length.
      replace (write + (code - 1 + (0 + length d')))%nat
        with (write + (code - 1) + length d')%nat by lia.
      split_and!; [done|lia|]. by rewrite T2, T1, <-app_assoc.
  - rewrite drop_ge in Hd by lia. injection Hd as <-. exists field. simpl.
    rewrite Nat.add_0_r, app_nil_r. done.
Qed.

Lemma decode_in_place_spec field d : cobs_decode field = Some d ->
  exists field', decode_in_place field = (field', length d) /\
    length field' = length field /\ take (length d) field' = d.
Proof.
  intros Hd. destruct (decode_in_place_loop_spec (S (length field)) field 0 0 d)
    as (f' & E & L & T); [lia..|done|]. exists f'. split_and!; [exact E|done|exact T].
Qed.

Lemma cobs_decode_length field d : cobs_decode field = Some d ->
  (length d <= length field)%nat.
Proof.
  intros Hd. destruct (decode_in_place_spec field d Hd) as (f' & _ & L & T).
  rewrite <-T, length_take. lia.
Qed.

(** Whatever the field holds, decoding in place keeps its length. *)
Lemma copy_run_length count : forall field read write,
  length (copy_run count field read write).1.1 = length field.
Proof.
  induction count as [|count IH]; intros; simpl; [done|]. by rewrite IH, length_insert.
Qed.

Lemma decode_in_place_loop_length fuel : forall field read write,
  length (decode_in_place_loop fuel field read write).1 = length field.
Proof.
  induction fuel as [|fuel IH]; intros; cbn [decode_in_place_loop]; [done|]. case_decide; [|done].
  set (n := (_ - S read)%nat). pose proof (copy_run_length n field (S read) write) as L.
  destruct (copy_run n field (S read) write) as [[f r] w]. cbn in L.
  case_decide; rewrite IH, ?length_insert; done.
Qed.

Lemma decode_data_in_place_length fields :
  length (decode_data_in_place fields).1 = length fields.
Proof.
  unfold decode_data_in_place, decode_in_place. set (k := (length fields - _)%nat).
  set (fuel := S _). pose proof (decode_in_place_loop_length fuel (take k fields) 0 0) as L.
  destruct (decode_in_place_loop _ _ _ _) as [f n]. cbn in L |- *.
  rewrite length_app, L, <-length_app. by rewrite take_drop.
Qed.

(** ** Writing through the chunk *)

Section WriteFields.
Context {S : Type} `{FrameSinkLaws S}.

(** The octets [x] have been pushed since the output was started over [s0]
    with the register at [crc0]: all but those in the chunk are in the sink,
    unless a write has failed. *)
Definition pushed (s0 : S) (crc0 : Z) (x : bytes) (o : Output S) : Prop :=
  length (out_chunk o) = CHUNK /\ (out_used o <= CHUNK)%nat /\
  exists flushed, x = flushed ++ take (out_used o) (out_chunk o) /\
    out_crc o = crc32k_update crc0 flushed /\
    match out_result o with
    | Ok _ => contents (out_sink o) = contents s0 ++ flushed /\
        remaining_capacity (out_sink o) =
          (fun c => c - length flushed)%nat <$> remaining_capacity s0
    | Err _ => contents (out_sink o) `prefix_of` contents s0 ++ flushed /\
        forall c, remaining_capacity s0 = Some c -> (c < length flushed)%nat
    end.

Lemma flush_pushed s0 crc0 x o : pushed s0 crc0 x o ->
  pushed s0 crc0 x (flush o) /\ out_used (flush o) = O.
Proof.
  intros (Hl & Hu & flushed & -> & Hc & Hr). unfold flush.
  set (chunk := take (out_used o) (out_chunk o)).
  destruct (out_result o) as [[]|e]; [destruct (sink_write (out_sink o) chunk) as [s' [[]|e]] eqn:E|];
    (split; [|done]); (split; [done|]); (split; [simpl; lia|]);
    exists (flushed ++ chunk); simpl; rewrite take_0, app_nil_r, Hc;
    (split; [done|]); (split; [unfold crc32k_update; by rewrite fold_left_app|]).
  - apply write_ok in E as [-> ->]. destruct Hr as [-> ->]. rewrite app_assoc.
    split; [done|]. destruct (remaining_capacity s0); [|done]. simpl. f_equal.
    rewrite length_app. lia.
  - destruct Hr as [Hr Hcap]. split.
    + apply write_err in E as [-> _]. rewrite Hr, app_assoc. apply prefix_app_r. done.
    + intros c Hc0. rewrite Hc0 in Hcap. simpl in Hcap.
      destruct (decide (length chunk <= c - length flushed)%nat) as [Hfit|].
      * destruct (write_fits _ _ _ Hcap Hfit) as [? ?]. congruence.
      * rewrite length_app. destruct (decide (length flushed <= c)%nat); [lia|].
        lia.
  - destruct Hr as [Hp Hcap]. rewrite app_assoc. split; [by apply prefix_app_r|].
    intros c Hc0. specialize (Hcap c Hc0). rewrite length_app. lia.
Qed.

Lemma push_pushed s0 crc0 x o b : pushed s0 crc0 x o ->
  pushed s0 crc0 (x ++ [Z.lxor b MASK]) (push o b).
Proof.
  intros Ho. unfold push.
  set (o1 := if decide _ then flush o else o).
  assert (pushed s0 crc0 x o1 /\ out_used o1 < CHUNK)%nat as [(Hl & Hu & f & -> & Hc & Hr) Hlt].
  { unfold o1. case_decide as Hfull.
    - destruct (flush_pushed _ _ _ _ Ho) as [? ->]. split; [done|unfold CHUNK; lia].
    - split; [done|]. destruct Ho as (_ & ? & _). lia. }
  split; [simpl; by rewrite length_insert|]. split; [simpl; lia|]. exists f. simpl.
  rewrite Nat.add_1_r, (take_S_r _ _ (Z.lxor b MASK)) by (apply list_lookup_insert_eq; lia).
  rewrite take_insert_ge, app_assoc by lia. done.
Qed.

Lemma push_list_pushed s0 crc0 l : forall x o, pushed s0 crc0 x o ->
  pushed s0 crc0 (x ++ mask l) (fold_left push l o).
Proof.
  induction l as [|b l IH]; intros x o Ho; simpl; [by rewrite app_nil_r|].
  pose proof (IH _ _ (push_pushed _ _ _ _ b Ho)) as Hb. by rewrite <-app_assoc in Hb.
Qed.

Lemma push_blocks_pushed s0 crc0 x o data : pushed s0 crc0 x o ->
  pushed s0 crc0 (x ++ encoded_data data) (push_blocks o data).
Proof.
  unfold push_blocks, encoded_data, cobs_encode. generalize (blocks data) as bs.
  intros bs. revert x o. induction bs as [|b bs IH]; intros x o Ho; simpl; [by rewrite app_nil_r|].
  rewrite mask_app. cbn [mask map]. fold (mask (b.2)). rewrite app_comm_cons, app_assoc.
  apply IH. change (Z.lxor b.1 MASK :: mask b.2) with (mask (b.1 :: b.2)).
  apply (push_list_pushed _ _ (b.1 :: b.2)). done.
Qed.

(** The two fields, in order, and how a write fails. *)
Lemma write_fields_spec data (s : S) s' r : write_fields data s = (s', r) ->
  match r with
  | Ok _ => contents s' = contents s ++ encoded_fields data /\
      remaining_capacity s' =
        (fun c => c - length (encoded_fields data))%nat <$> remaining_capacity s
  | Err _ => contents s' `prefix_of` contents s ++ encoded_fields data /\
      forall c, remaining_capacity s = Some c -> (c < length (encoded_fields data))%nat
  end.
Proof.
  unfold write_fields. set (o0 := Build_Output _ _ _ _ _). cbv zeta.
  assert (pushed s U32_MAX [] o0) as Hp.
  { split; [by apply length_replicate|]. split; [simpl; lia|]. exists []. simpl.
    rewrite app_nil_r. split_and!; try done.
    destruct (remaining_capacity s); [|done]. simpl. f_equal. lia. }
  apply (push_blocks_pushed _ _ _ _ data) in Hp. rewrite app_nil_l in Hp.
  destruct (flush_pushed _ _ _ _ Hp) as [Hq Hu1].
  set (o1 := flush (push_blocks o0 data)) in *.
  assert (out_crc o1 = crc32k_update U32_MAX (encoded_data data)) as Hcrc.
  { destruct Hq as (_ & _ & f & Hf & -> & _). rewrite Hu1, take_0, app_nil_r in Hf. by rewrite Hf. }
  rewrite Hcrc. fold (crc32k (encoded_data data)).
  apply (push_blocks_pushed _ _ _ _ (to_le32 (crc32k (encoded_data data)))) in Hq.
  fold (encoded_fields data) in Hq.
  destruct (flush_pushed _ _ _ _ Hq) as [(_ & _ & f & Hf & _ & Hr) Hu]. intros [= <- <-].
  rewrite Hu, take_0, app_nil_r in Hf. by rewrite Hf.
Qed.
End WriteFields.

(** ** The checks accept exactly the fields that decode *)

(** Induction over the codes of a field that decodes. *)
Lemma cobs_decode_ind (P : bytes -> bytes -> Prop) :
  P [] [] ->
  (forall octet rest code d, code = Z.to_nat (Z.lxor octet MASK) ->
     (0 < code <= S (length rest))%nat ->
     cobs_decode (drop (code - 1) rest) = Some d -> P (drop (code - 1) rest) d ->
     P (octet :: rest) (mask (take (code - 1) rest) ++
       (if decide (code <> 255%nat /\ drop (code - 1) rest <> []) then [0] else []) ++ d)) ->
  forall field d, cobs_decode field = Some d -> P field d.
Proof.
  intros Hnil Hcons field.
  induction field as [field IH] using (induction_ltof1 _ (@length Z)). unfold ltof in IH.
  intros d Hd. destruct field as [|octet rest]; [by injection Hd as <-|].
  rewrite cobs_decode_cons in Hd. cbv zeta in Hd. case_decide as Hc; [done|].
  destruct (cobs_decode (drop _ rest)) as [d'|] eqn:E; [|done]. injection Hd as <-.
  apply Hcons; [done|lia|done|]. apply IH; [|done]. rewrite length_drop. simpl. lia.
Qed.

Lemma cobs_decode_wf field d : cobs_decode field = Some d -> wf_bytes field -> wf_bytes d.
Proof.
  revert field d. apply (cobs_decode_ind (fun field d => wf_bytes field -> wf_bytes d)); [done|].
  intros octet rest code d -> _ _ IH [_ Hw]%Forall_cons. rewrite !Forall_app. split_and!.
  - by apply mask_wf, Forall_take.
  - case_decide; repeat constructor; width.
  - by apply IH, Forall_drop.
Qed.

(** A field too short for a full run loses exactly one octet. *)
Lemma cobs_decode_short field d : cobs_decode field = Some d ->
  field <> [] -> (length field <= MAX_RUN)%nat -> S (length d) = length field.
Proof.
  revert field d. apply (cobs_decode_ind (fun field d =>
    field <> [] -> (length field <= MAX_RUN)%nat -> S (length d) = length field)); [done|].
  intros octet rest code d _ Hc Hd IH _ Hl. cbn [length] in *. unfold MAX_RUN in *.
  rewrite !length_app, length_mask, length_take. rewrite length_drop in IH.
  destruct (drop (code - 1) rest) as [|y t] eqn:E.
  - injection Hd as <-. apply (f_equal length) in E. rewrite length_drop in E. cbn in E.
    rewrite decide_False by (intros [_ ?]; done). cbn. lia.
  - rewrite decide_True by (split; [lia|done]). cbn [length].
    assert (S (length d) = length rest - (code - 1))%nat by (apply IH; [done|lia]). lia.
Qed.

Lemma check_fields_iff fields n : wf_bytes fields ->
  check_fields fields = Some n <->
  (ENCODED_CRC_LENGTH <= length fields)%nat /\
  exists data field crc, fields = field ++ crc /\ length crc = ENCODED_CRC_LENGTH /\
    cobs_decode field = Some data /\ n = length data /\
    cobs_decode crc = Some (to_le32 (crc32k field)).
Proof.
  intros Hw. unfold check_fields. case_decide as Hlen; [split; [done|lia]|].
  set (k := (length fields - ENCODED_CRC_LENGTH)%nat).
  assert (length (drop k fields) = ENCODED_CRC_LENGTH) as Hk
    by (rewrite length_drop; unfold k, ENCODED_CRC_LENGTH in *; lia).
  assert (Hsplit : forall field crc, fields = field ++ crc -> length crc = ENCODED_CRC_LENGTH ->
    field = take k fields /\ crc = drop k fields).
  { intros field crc E L. assert (k = length field) as ->
      by (unfold k; rewrite E, length_app; lia).
    by rewrite E, take_app_length, drop_app_length. }
  rewrite !decoded_length_spec.
  destruct (cobs_decode (take k fields)) as [d|] eqn:Ed; cbn [fmap option_fmap option_map];
    [|split; [done|]; intros (_ & ? & ? & ? & E & L & ? & _);
      destruct (Hsplit _ _ E L) as [-> ->]; congruence].
  destruct (cobs_decode (drop k fields)) as [c|] eqn:Ec; cbn [fmap option_fmap option_map];
    [|split; [done|]; intros (_ & ? & ? & ? & E & L & _ & _ & ?);
      destruct (Hsplit _ _ E L) as [-> ->]; congruence].
  assert (Hcl : S (length c) = 5%nat).
  { rewrite (cobs_decode_short _ _ Ec); [done| |unfold MAX_RUN, ENCODED_CRC_LENGTH in *; lia].
    intros E. rewrite E in Hk. done. }
  destruct (decode_in_place_spec _ _ Ec) as (f' & -> & _ & T).
  destruct c as [|c0 [|c1 [|c2 [|c3 [|]]]]]; try discriminate Hcl.
  destruct f' as [|x0 [|x1 [|x2 [|x3 ?]]]]; try discriminate T. cbn in T. injection T as -> -> -> ->.
  cbn [nth]. fold (crc32k (take k fields)).
  assert (Hcw : wf_bytes [c0; c1; c2; c3])
    by (eapply cobs_decode_wf; [exact Ec|by apply Forall_drop]).
  rewrite !Forall_cons in Hcw. destruct Hcw as (? & ? & ? & ? & _).
  assert (is_u32 (crc32k (take k fields))) by (apply crc32k_u32, Forall_take; done).
  destruct (Z.eqb_spec (from_le32 c0 c1 c2 c3) (crc32k (take k fields))) as [Eq|Ne].
  - split; [|intros (_ & ? & ? & ? & E & L & ? & -> & _); destruct (Hsplit _ _ E L) as [-> ->]; congruence].
    intros [= <-]. split; [lia|]. exists d, (take k fields), (drop k fields).
    rewrite take_drop, <-Eq, to_from_le32 by done. done.
  - split; [done|]. intros (_ & ? & ? & ? & E & L & _ & _ & Hc).
    destruct (Hsplit _ _ E L) as [-> ->]. destruct Ne. rewrite Ec in Hc.
    injection Hc as -> -> -> ->. apply from_to_le32. done.
Qed.

Lemma encoded_crc_length x : length (encoded_data (to_le32 x)) = ENCODED_CRC_LENGTH.
Proof.
  unfold encoded_data. rewrite length_mask. pose proof (cobs_encode_length (to_le32 x)) as Hl.
  change (length (to_le32 x)) with 4%nat in Hl. change (4 / 254)%nat with 0%nat in Hl.
  unfold ENCODED_CRC_LENGTH. lia.
Qed.

Lemma frame_length_fields data :
  (frame_length data + LENGTH_ADJUSTMENT)%nat = length (encoded_fields data).
Proof.
  rewrite frame_length_encode. unfold encoded_fields, LENGTH_ADJUSTMENT.
  rewrite length_app, encoded_crc_length. unfold encoded_data. rewrite length_mask.
  unfold ENCODED_CRC_LENGTH. lia.
Qed.

Lemma encoded_fields_wf data : wf_bytes data -> wf_bytes (encoded_fields data).
Proof.
  intros. unfold encoded_fields. apply Forall_app; auto 6 with bac.
Qed.
#[export] Hint Resolve encoded_fields_wf : bac.

Lemma check_encoded_fields data : wf_bytes data ->
  check_fields (encoded_fields data) = Some (length data).
Proof.
  intros. apply check_fields_iff; [auto with bac|]. rewrite <-frame_length_fields, frame_length_encode.
  split; [unfold ENCODED_CRC_LENGTH, LENGTH_ADJUSTMENT; lia|].
  exists data, (encoded_data data), (encoded_data (to_le32 (crc32k (encoded_data data)))).
  rewrite !cobs_decode_encode, encoded_crc_length. done.
Qed.

Lemma decode_data_in_place_spec field crc d : length crc = ENCODED_CRC_LENGTH ->
  cobs_decode field = Some d ->
  exists fields', decode_data_in_place (field ++ crc) = (fields', length d) /\
    length fields' = length (field ++ crc) /\ take (length d) fields' = d.
Proof.
  intros Hl Hd. unfold decode_data_in_place.
  rewrite length_app, Hl, Nat.add_sub, take_app_length, drop_app_length.
  destruct (decode_in_place_spec _ _ Hd) as (f' & -> & L & T).
  exists (f' ++ crc). rewrite !length_app, L. split_and!; [done|lia|].
  pose proof (cobs_decode_length _ _ Hd). rewrite take_app_le by lia. done.
Qed.

(** ** Correctness *)

(** Whatever the data, the two encoded fields pass the
    receiver's check with the data's own length, and decoding them in place
    leaves exactly the data at their start, in a buffer of the same length. *)
Theorem cobs_fields_roundtrip data : wf_bytes data ->
  check_fields (encoded_fields data) = Some (length data) /\
  exists fields', decode_data_in_place (encoded_fields data) = (fields', length data) /\
    length fields' = length (encoded_fields data) /\ take (length data) fields' = data.
Proof.
  intros Hw. split; [by apply check_encoded_fields|].
  apply decode_data_in_place_spec; [apply encoded_crc_length|apply cobs_decode_encode].
Qed.
Lemma cobs_fields_roundtrip_witness :
  check_fields (encoded_fields [1; 0; 255; 0]) = Some 4%nat.
Proof. apply (cobs_fields_roundtrip [1; 0; 255; 0]). repeat constructor; width. Defined.

(** The check accepts [n] decoded octets exactly when the first
    field decodes (by the reference decoder) to [n] octets and the last five
    octets decode to the little-endian CRC-32K of the first field as received. *)
Theorem check_fields_exact fields n : wf_bytes fields ->
  check_fields fields = Some n <->
  (ENCODED_CRC_LENGTH <= length fields)%nat /\
  exists data field crc, fields = field ++ crc /\ length crc = ENCODED_CRC_LENGTH /\
    cobs_decode field = Some data /\ n = length data /\
    cobs_decode crc = Some (to_le32 (crc32k field)).
Proof. apply check_fields_iff. Qed.
Lemma check_fields_exact_witness :
  exists data field crc, encoded_fields [7; 0] = field ++ crc /\ length crc = ENCODED_CRC_LENGTH /\
    cobs_decode field = Some data /\ 2%nat = length data /\
    cobs_decode crc = Some (to_le32 (crc32k field)).
Proof.
  apply (check_fields_exact (encoded_fields [7; 0]) 2%nat).
  - apply (bool_decide_unpack _). vm_compute. exact I.
  - vm_compute. reflexivity.
Defined.

(** No octet of the encoded fields is 0x55, the first
    preamble octet, every one is an octet, and the Length the header declares is
    between the plain length plus 4 and that plus one per 254 octets. *)
Theorem encoded_fields_no_preamble data : wf_bytes data ->
  Forall (fun x => is_u8 x /\ x <> 85) (encoded_fields data) /\
  (length data + 4 <= frame_length data <= length data + length data / 254 + 4)%nat /\
  length (encoded_fields data) = (frame_length data + 2)%nat.
Proof.
  intros Hw. split_and!.
  - assert (Hm : forall d, wf_bytes d -> Forall (fun x => is_u8 x /\ x <> 85) (encoded_data d)).
    { intros d Hd. destruct (cobs_encode_wf d Hd) as [Hu Hz]. unfold encoded_data, mask.
      rewrite Forall_map. eapply Forall_impl; [apply Forall_and; split; [exact Hu|exact Hz]|].
      intros x [Hx Hx0]. split; [apply lxor_u8; [done|unfold MASK; width]|].
      intros E. apply Hx0. rewrite <-(lxor_cancel x MASK). simpl. by rewrite E. }
    unfold encoded_fields. apply Forall_app. split; apply Hm; auto with bac.
  - rewrite frame_length_encode. pose proof (cobs_encode_length data). lia.
  - rewrite frame_length_encode. pose proof (cobs_encode_length data). lia.
  - by rewrite <-frame_length_fields.
Qed.
Lemma encoded_fields_no_preamble_witness :
  Forall (fun x => is_u8 x /\ x <> 85) (encoded_fields [85; 255; 0]).
Proof. apply (encoded_fields_no_preamble [85; 255; 0]). repeat constructor; width. Defined.

(** Through any sink that keeps its contract, [write_fields]
    either succeeds and has appended exactly the two encoded fields, or fails
    with a prefix of them appended; it can only fail when the sink's room is
    less than the fields. *)
Theorem write_fields_appends {S} `{FrameSinkLaws S} data (s s' : S) r :
  write_fields data s = (s', r) ->
  match r with
  | Ok _ => contents s' = contents s ++ encoded_fields data
  | Err _ => contents s' `prefix_of` contents s ++ encoded_fields data /\
      forall c, remaining_capacity s = Some c -> (c < length (encoded_fields data))%nat
  end.
Proof. intros E. apply write_fields_spec in E. destruct r; [apply E|done]. Qed.
Lemma write_fields_appends_witness :
  contents (fst (write_fields [1; 0] ([9] : bytes))) = contents ([9] : bytes) ++ encoded_fields [1; 0].
Proof.
  apply (write_fields_appends (S := bytes) [1; 0] [9] (fst (write_fields [1; 0] ([9] : bytes))) (Ok tt)).
  vm_compute. reflexivity.
Defined.
