(* ===== verification/Frame.v ===== *)
(** * MS/TP frames (crate bacnet-mstp-codec: frame.rs, decode.rs, error.rs)

    Frame types, the header checks both directions share, encoding into a sink
    and one-shot decoding. A frame's data is always plain; [wire] is the
    reference layout the encoder is proved to write and the decoder to read. *)

From S2P Require Import Prelude Crc Sink Cobs.

(** ** Constants *)

(** [PREAMBLE] (bacnet-mstp-codec/src/lib.rs:126-127) *)
Definition PREAMBLE : bytes := [85; 255].
(** [HEADER_LENGTH] (bacnet-mstp-codec/src/lib.rs:128-130) *)
Definition HEADER_LENGTH : nat := 6.
(** [MAX_STANDARD_MPDU_DATA] (bacnet-mstp-codec/src/lib.rs:131-132) *)
Definition MAX_STANDARD_MPDU_DATA : nat := 501.
(** [MAX_MASTER] (bacnet-mstp-codec/src/lib.rs:133-134) *)
Definition MAX_MASTER : Z := 127.
(** [BROADCAST_MAC] (bacnet-mstp-codec/src/lib.rs:135-136) *)
Definition BROADCAST_MAC : Z := 255.
(** [MAX_STANDARD_FRAME_LENGTH] (bacnet-mstp-codec/src/lib.rs:137-140) *)
Definition MAX_STANDARD_FRAME_LENGTH : nat :=
  length PREAMBLE + HEADER_LENGTH + MAX_STANDARD_MPDU_DATA + 2.
(** [MIN_COBS_LENGTH] (bacnet-mstp-codec/src/lib.rs:141-144) *)
Definition MIN_COBS_LENGTH : nat := 5.
(** [MAX_COBS_LENGTH] (bacnet-mstp-codec/src/lib.rs:145-147) *)
Definition MAX_COBS_LENGTH : nat := 2043.
(** [MAX_EXTENDED_MPDU_DATA] (bacnet-mstp-codec/src/lib.rs:148-149) *)
Definition MAX_EXTENDED_MPDU_DATA : nat := 1497.
(** [a.div_ceil(254)] is [(a + 253) / 254].
    [MAX_EXTENDED_FRAME_LENGTH] (bacnet-mstp-codec/src/lib.rs:150-157) *)
Definition MAX_EXTENDED_FRAME_LENGTH : nat :=
  length PREAMBLE + HEADER_LENGTH + MAX_EXTENDED_MPDU_DATA
  + (MAX_EXTENDED_MPDU_DATA + 253) / 254 + ENCODED_CRC_LENGTH.
(** [MAX_COBS_FRAME_LENGTH] (bacnet-mstp-codec/src/lib.rs:158-161) *)
Definition MAX_COBS_FRAME_LENGTH : nat :=
  length PREAMBLE + HEADER_LENGTH + MAX_COBS_LENGTH + LENGTH_ADJUSTMENT.
(** [DATA_OFFSET] (bacnet-mstp-codec/src/frame.rs:10-11) *)
Definition DATA_OFFSET : nat := length PREAMBLE + HEADER_LENGTH.
(** [TRAILER_LENGTH] (bacnet-mstp-codec/src/frame.rs:12-14) *)
Definition TRAILER_LENGTH : nat := 2.

(** [wire_length] (bacnet-mstp-codec/src/frame.rs) *)
Definition wire_length (len : nat) : nat :=
  if decide (len = 0)%nat then DATA_OFFSET else (DATA_OFFSET + len + TRAILER_LENGTH)%nat.

(** ** Frame types

    An open set of octets: any raw value is a frame type. *)

(** [FrameType] (bacnet-mstp-codec/src/frame.rs:109-166) *)
Definition FrameType := Z.
Definition TOKEN : FrameType := 0.
Definition POLL_FOR_MASTER : FrameType := 1.
Definition REPLY_TO_POLL_FOR_MASTER : FrameType := 2.
Definition TEST_REQUEST : FrameType := 3.
Definition TEST_RESPONSE : FrameType := 4.
Definition BACNET_DATA_EXPECTING_REPLY : FrameType := 5.
Definition BACNET_DATA_NOT_EXPECTING_REPLY : FrameType := 6.
Definition REPLY_POSTPONED : FrameType := 7.
Definition BACNET_EXTENDED_DATA_EXPECTING_REPLY : FrameType := 32.
Definition BACNET_EXTENDED_DATA_NOT_EXPECTING_REPLY : FrameType := 33.

(** [FrameType::allows_data] (bacnet-mstp-codec/src/frame.rs) *)
Definition allows_data (t : FrameType) : bool :=
  negb ((t =? 0) || (t =? 1) || (t =? 2) || (t =? 7)).
(** [FrameType::is_cobs] (bacnet-mstp-codec/src/frame.rs) *)
Definition is_cobs (t : FrameType) : bool := (32 <=? t) && (t <=? 127).
(** [FrameType::is_extended_data] (bacnet-mstp-codec/src/frame.rs) *)
Definition is_extended_data (t : FrameType) : bool := (t =? 32) || (t =? 33).
(** [FrameType::is_proprietary] (bacnet-mstp-codec/src/frame.rs) *)
Definition is_proprietary (t : FrameType) : bool := 128 <=? t.

(** [FrameHeader] (bacnet-mstp-codec/src/frame.rs) *)
Record FrameHeader := { frame_type : FrameType; destination : Z; source : Z }.
(** [Frame] (bacnet-mstp-codec/src/frame.rs) *)
Record Frame := { header : FrameHeader; data : bytes }.

#[global] Instance FrameHeader_eq_dec : EqDecision FrameHeader.
Proof. solve_decision. Defined.
#[global] Instance Frame_eq_dec : EqDecision Frame.
Proof. solve_decision. Defined.

(** [FrameError] (bacnet-mstp-codec/src/error.rs:7-125) *)
Inductive FrameError :=
| TooShort (needed available : nat)
| InvalidPreamble (first second : Z)
| HeaderCrcMismatch
| UnsupportedCobsFrame (raw_type : Z)
| BroadcastSource
| InvalidCobsLength (len : nat)
| ExtendedFrame (raw_type : Z)
| Oversize (len maximum : nat)
| UnexpectedData (raw_type : Z) (len : nat)
| MissingVendorId (raw_type : Z) (len : nat)
| Truncated (len available : nat)
| DataCrcMismatch (len : nat)
| FrameTooLong (needed capacity : nat)
| BufferExhausted (needed available : nat).

#[global] Instance FrameError_eq_dec : EqDecision FrameError.
Proof. solve_decision. Defined.

(** [From<SinkFull> for FrameError] (bacnet-mstp-codec/src/error.rs:179-186) *)
Definition from_sink_full (full : SinkFull) : FrameError :=
  BufferExhausted (full_needed full) (full_available full).

(** ** Encoding *)

(** [check_header_fields] (bacnet-mstp-codec/src/frame.rs) *)
Definition check_header_fields (t : FrameType) (src : Z) (len : nat) : Result unit FrameError :=
  if src =? BROADCAST_MAC then Err BroadcastSource else
  if is_cobs t then
    if negb (bool_decide (MIN_COBS_LENGTH <= len <= MAX_COBS_LENGTH)%nat)
    then Err (InvalidCobsLength len)
    else if negb (is_extended_data t) then Err (UnsupportedCobsFrame t)
    else Ok tt
  else if decide (MAX_STANDARD_MPDU_DATA < len)%nat
  then Err (Oversize len MAX_STANDARD_MPDU_DATA)
  else Ok tt.

(** [Frame::checked_length] (bacnet-mstp-codec/src/frame.rs) *)
Definition checked_length (f : Frame) : Result nat FrameError :=
  let t := frame_type (header f) in
  let len := if is_cobs t then frame_length (data f) else length (data f) in
  let? _ := check_header_fields t (source (header f)) len in
  if bool_decide (len <> 0)%nat && negb (allows_data t) then Err (UnexpectedData t len) else
  if bool_decide (len < 2)%nat && is_proprietary t then Err (MissingVendorId t len) else
  Ok len.

(** The array [head] of [encode_to_sink]: the preamble, the five header fields
    and their CRC. *)
Definition head_octets (h : FrameHeader) (len : nat) : bytes :=
  let fields := [frame_type h; destination h; source h;
                 Z.shiftr (Z.of_nat len) 8 mod 256; Z.of_nat len mod 256] in
  PREAMBLE ++ fields ++ [crc8 fields].

(** A sink write with the [?] after it. *)
Definition write_q {S} `{FrameSink S} (s : S) (b : bytes) (k : S -> S * Result nat FrameError)
  : S * Result nat FrameError :=
  match sink_write s b with
  | (s, Ok _) => k s
  | (s, Err e) => (s, Err (from_sink_full e))
  end.

(** The early return of [encode_to_sink] when the sink reports too little room. *)
Definition no_room {S} `{FrameSink S} (sink : S) (total : nat) : option FrameError :=
  match remaining_capacity sink with
  | Some available =>
      if decide (available < total)%nat then Some (BufferExhausted total available) else None
  | None => None
  end.

(** [Frame::encode_to_sink] (bacnet-mstp-codec/src/frame.rs) *)
Definition encode_to_sink {S} `{FrameSink S} (f : Frame) (sink : S) : S * Result nat FrameError :=
  match checked_length f with
  | Err e => (sink, Err e)
  | Ok len =>
      let total := wire_length len in
      match no_room sink total with
      | Some e => (sink, Err e)
      | None =>
          write_q sink (head_octets (header f) len) (fun sink =>
          if is_cobs (frame_type (header f)) then
            match write_fields (data f) sink with
            | (sink, Ok _) => (sink, Ok total)
            | (sink, Err e) => (sink, Err (from_sink_full e))
            end
          else if decide (len <> 0)%nat then
            write_q sink (data f) (fun sink =>
            write_q sink (to_le16 (crc16 (data f))) (fun sink =>
            (sink, Ok total)))
          else (sink, Ok total))
      end
  end.

(** The buffer after the call, and the result.
    [Frame::encode_into] (bacnet-mstp-codec/src/frame.rs) *)
Definition encode_into (f : Frame) (output : bytes) : bytes * Result nat FrameError :=
  let '(sink, r) := encode_to_sink f {| slice_buf := output; slice_pos := 0 |} in
  (slice_buf sink, r).

(** ** Decoding *)

(** [GoodHeader] (bacnet-mstp-codec/src/decode.rs:8-15) *)
Record GoodHeader := { good_header : FrameHeader; good_length : nat }.
(** [ValidFrame] (bacnet-mstp-codec/src/decode.rs:17-25) *)
Record ValidFrame := { valid_header : FrameHeader; valid_data_length : nat; valid_consumed : nat }.

(** [input[i]]; every index below is within the length checked before it. *)
Definition at_ (input : bytes) (i : nat) : Z := nth i input 0.

(** [check_header] (bacnet-mstp-codec/src/decode.rs) *)
Definition check_header (input : bytes) (reserved_cobs : bool) : Result GoodHeader FrameError :=
  if decide (length input < DATA_OFFSET)%nat
  then Err (TooShort DATA_OFFSET (length input)) else
  if negb (bool_decide (take (length PREAMBLE) input = PREAMBLE))
  then Err (InvalidPreamble (at_ input 0) (at_ input 1)) else
  if negb (crc8_valid (drop (length PREAMBLE) (take DATA_OFFSET input)))
  then Err HeaderCrcMismatch else
  let t := at_ input 2 in
  let len := Z.to_nat (from_be16 (at_ input 5) (at_ input 6)) in
  let good := {| good_header := {| frame_type := t; destination := at_ input 3;
                                   source := at_ input 4 |};
                 good_length := len |} in
  match check_header_fields t (at_ input 4) len with
  | Err (UnsupportedCobsFrame raw) =>
      if reserved_cobs then Ok good else Err (UnsupportedCobsFrame raw)
  | Err e => Err e
  | Ok _ => Ok good
  end.

(** [check_frame] (bacnet-mstp-codec/src/decode.rs) *)
Definition check_frame (input : bytes) (reserved_cobs : bool) : Result ValidFrame FrameError :=
  let? good := check_header input reserved_cobs in
  let h := good_header good in
  let len := good_length good in
  let consumed := wire_length len in
  if decide (length input < consumed)%nat
  then Err (Truncated len (length input - DATA_OFFSET)) else
  let body := drop DATA_OFFSET (take consumed input) in
  let? data_length :=
    (if is_cobs (frame_type h) then ok_or (check_fields body) (DataCrcMismatch len)
     else if bool_decide (len <> 0)%nat && negb (crc16_valid body) then Err (DataCrcMismatch len)
     else Ok len) in
  Ok {| valid_header := h; valid_data_length := data_length; valid_consumed := consumed |}.

(** [decode_extended_in_place] (bacnet-mstp-codec/src/decode.rs) *)
Definition decode_extended_in_place (input : bytes) (valid : ValidFrame) : bytes :=
  if is_cobs (frame_type (valid_header valid)) then
    let body := drop DATA_OFFSET (take (valid_consumed valid) input) in
    let '(body, _) := decode_data_in_place body in
    take DATA_OFFSET input ++ body ++ drop (valid_consumed valid) input
  else input.

(** [&input[DATA_OFFSET..DATA_OFFSET + data_length]]. *)
Definition frame_data (input : bytes) (data_length : nat) : bytes :=
  take data_length (drop DATA_OFFSET input).

(** [decode_frame] (bacnet-mstp-codec/src/decode.rs) *)
Definition decode_frame (input : bytes) : Result (Frame * nat) FrameError :=
  let? good := check_header input false in
  let t := frame_type (good_header good) in
  if is_cobs t then Err (ExtendedFrame t) else
  let? valid := check_frame input false in
  Ok ({| header := valid_header valid; data := frame_data input (valid_data_length valid) |},
      valid_consumed valid).

(** The buffer after the call, and the result.
    [decode_frame_in_place] (bacnet-mstp-codec/src/decode.rs) *)
Definition decode_frame_in_place (input : bytes) : bytes * Result (Frame * nat) FrameError :=
  match check_frame input false with
  | Err e => (input, Err e)
  | Ok valid =>
      let input := decode_extended_in_place input valid in
      (input, Ok ({| header := valid_header valid;
                     data := frame_data input (valid_data_length valid) |},
                  valid_consumed valid))
  end.

(** [find_preamble] (bacnet-mstp-codec/src/decode.rs) *)
Fixpoint find_preamble (l : bytes) : option nat :=
  match l with
  | a :: (b :: _) as l' =>
      if (a =? 85) && (b =? 255) then Some 0%nat else S <$> find_preamble l'
  | _ => None
  end.

(** ** The layout on the wire *)

(** The Length field of a frame. *)
Definition length_field (f : Frame) : nat :=
  if is_cobs (frame_type (header f)) then frame_length (data f) else length (data f).

(** What follows the header. *)
Definition body_octets (f : Frame) : bytes :=
  if is_cobs (frame_type (header f)) then encoded_fields (data f)
  else match data f with [] => [] | _ => data f ++ to_le16 (crc16 (data f)) end.

(** A whole frame. *)
Definition wire (f : Frame) : bytes := head_octets (header f) (length_field f) ++ body_octets f.

(** The fields are octets. *)
Definition wf_header (h : FrameHeader) : Prop :=
  is_u8 (frame_type h) /\ is_u8 (destination h) /\ is_u8 (source h).
Definition wf_frame (f : Frame) : Prop := wf_header (header f) /\ wf_bytes (data f).

Example token_wire :
  snd (encode_into {| header := {| frame_type := TOKEN; destination := 16; source := 5 |};
                      data := [] |} (replicate 8 0)) = Ok 8%nat /\
  fst (encode_into {| header := {| frame_type := TOKEN; destination := 16; source := 5 |};
                      data := [] |} (replicate 8 0)) = [85; 255; 0; 16; 5; 0; 0; 140].
Proof. vm_compute. done. Qed.

Example data_decode :
  decode_frame [85; 255; 6; 1; 200; 0; 2; 239; 1; 0; 159; 22] =
    Ok ({| header := {| frame_type := 6; destination := 1; source := 200 |};
           data := [1; 0] |}, 12%nat) /\
  find_preamble [85; 85; 255] = Some 1%nat.
Proof. vm_compute. done. Qed.

(** ** Headers *)

(** The header checks pass, for a receiver that does or does not take the
    reserved COBS types in. *)
Definition header_passes (rc : bool) (t : FrameType) (src : Z) (len : nat) : bool :=
  match check_header_fields t src len with
  | Ok _ => true
  | Err (UnsupportedCobsFrame _) => rc
  | Err _ => false
  end.

Lemma check_header_fields_ok t src len : check_header_fields t src len = Ok tt <->
  src <> BROADCAST_MAC /\
  ((is_cobs t = true /\ (MIN_COBS_LENGTH <= len <= MAX_COBS_LENGTH)%nat /\
    is_extended_data t = true) \/
   (is_cobs t = false /\ (len <= MAX_STANDARD_MPDU_DATA)%nat)).
Proof.
  unfold check_header_fields.
  destruct (Z.eqb_spec src BROADCAST_MAC); [split; [done|tauto]|].
  destruct (is_cobs t).
  - case_bool_decide; cbn [negb]; [destruct (is_extended_data t)|]; cbn [negb]; split; try done;
      naive_solver.
  - case_decide; split; try done; [intros (_ & [|[_ ?]]); [naive_solver|lia]|].
    intros _. split; [done|right; lia].
Qed.

Lemma header_passes_bound rc t src len : header_passes rc t src len = true ->
  src <> BROADCAST_MAC /\ (len <= MAX_COBS_LENGTH)%nat /\
  (is_cobs t = false -> (len <= MAX_STANDARD_MPDU_DATA)%nat).
Proof.
  unfold header_passes, check_header_fields.
  destruct (Z.eqb_spec src BROADCAST_MAC); [done|]. destruct (is_cobs t).
  - case_bool_decide; cbn [negb]; [|done]. intros _. split_and!; [done|lia|done].
  - case_decide; [done|]. unfold MAX_STANDARD_MPDU_DATA, MAX_COBS_LENGTH in *.
    intros _. split_and!; [done|lia|lia].
Qed.

Lemma head_octets_length h n : length (head_octets h n) = DATA_OFFSET.
Proof. reflexivity. Qed.

Lemma head_length_field n : Z.of_nat n < 65536 ->
  Z.to_nat (from_be16 (Z.shiftr (Z.of_nat n) 8 mod 256) (Z.of_nat n mod 256)) = n.
Proof.
  intros Hn. rewrite Z.shiftr_div_pow2 by lia. change (2 ^ 8) with 256.
  rewrite (Z.mod_small (_ / 256)) by divmod. rewrite from_to_be16 by width. lia.
Qed.

(** What the decoder makes of a header the encoder wrote. *)
Lemma check_header_head h n rest rc : Z.of_nat n < 65536 ->
  check_header (head_octets h n ++ rest) rc =
    if header_passes rc (frame_type h) (source h) n
    then Ok {| good_header := h; good_length := n |}
    else match check_header_fields (frame_type h) (source h) n with
         | Err e => Err e
         | Ok _ => Ok {| good_header := h; good_length := n |}
         end.
Proof.
  intros Hn. unfold check_header. rewrite decide_False
    by (rewrite length_app, head_octets_length; lia).
  rewrite (take_app_length' (head_octets h n) rest DATA_OFFSET) by done.
  rewrite bool_decide_eq_true_2 by reflexivity. cbn [negb].
  change (drop (length PREAMBLE) (head_octets h n)) with
    ([frame_type h; destination h; source h;
      Z.shiftr (Z.of_nat n) 8 mod 256; Z.of_nat n mod 256] ++
     [crc8 [frame_type h; destination h; source h;
      Z.shiftr (Z.of_nat n) 8 mod 256; Z.of_nat n mod 256]]).
  rewrite crc8_valid_app. cbn [negb].
  change (at_ (head_octets h n ++ rest) 2) with (frame_type h).
  change (at_ (head_octets h n ++ rest) 3) with (destination h).
  change (at_ (head_octets h n ++ rest) 4) with (source h).
  change (at_ (head_octets h n ++ rest) 5) with (Z.shiftr (Z.of_nat n) 8 mod 256).
  change (at_ (head_octets h n ++ rest) 6) with (Z.of_nat n mod 256).
  rewrite head_length_field by done. unfold header_passes. destruct h as [t d s]. simpl.
  destruct (check_header_fields t s n) as [|[]]; destruct rc; done.
Qed.

(** Conversely, a good header is the one at the front of the input. *)
Lemma check_header_inv input rc good : wf_bytes input -> check_header input rc = Ok good ->
  let h := good_header good in
  take DATA_OFFSET input = head_octets h (good_length good) /\
  (DATA_OFFSET <= length input)%nat /\ wf_header h /\
  header_passes rc (frame_type h) (source h) (good_length good) = true.
Proof.
  intros Hw. unfold check_header. case_decide as Hl; [done|].
  case_bool_decide as Hp; cbn [negb]; [|done].
  destruct (crc8_valid _) eqn:Hc; cbn [negb]; [|done].
  change (length PREAMBLE) with 2%nat in *. change DATA_OFFSET with 8%nat in *.
  destruct input as [|x0 [|x1 [|t [|d [|s [|hi [|lo [|c rest]]]]]]]]; cbn in Hl; try lia.
  cbn in Hp. injection Hp as -> ->.
  rewrite !Forall_cons in Hw. destruct Hw as (_ & _ & Ht & Hd & Hs & Hhi & Hlo & _).
  cbn [at_ nth]. set (n := Z.to_nat (from_be16 hi lo)).
  assert (Hn : Z.of_nat n = from_be16 hi lo)
    by (unfold n; rewrite Z2Nat.id; [done|unfold from_be16; width]).
  intros Hok. assert (header_passes rc t s n = true /\
    good = {| good_header := {| frame_type := t; destination := d; source := s |};
              good_length := n |}) as [Hpass ->].
  { unfold header_passes. destruct (check_header_fields t s n) as [|[]]; try discriminate Hok;
      try (destruct rc; try discriminate Hok); injection Hok as <-; done. }
  split_and!; [|cbn [length]; lia|done|done]. cbn [good_header good_length].
  unfold head_octets. cbn [frame_type destination source PREAMBLE app take].
  rewrite Hn, Z.shiftr_div_pow2 by lia. change (2 ^ 8) with 256.
  rewrite from_be16_hi, from_be16_lo by done. rewrite (Z.mod_small hi) by width.
  do 7 f_equal. change (crc8_valid ([t; d; s; hi; lo] ++ [c]) = true) in Hc.
  unfold crc8_valid in Hc. rewrite last_snoc in Hc. by apply Z.eqb_eq in Hc as <-.
Qed.

(** ** Whole frames *)

Lemma wire_length_body f : (DATA_OFFSET + length (body_octets f))%nat = wire_length (length_field f).
Proof.
  unfold body_octets, length_field, wire_length. destruct (is_cobs _).
  - rewrite <-frame_length_fields, frame_length_encode. rewrite decide_False by lia.
    unfold LENGTH_ADJUSTMENT, TRAILER_LENGTH. lia.
  - destruct (data f) as [|x d]; [done|]. rewrite decide_False by done.
    rewrite length_app. change (length (to_le16 _)) with 2%nat. unfold TRAILER_LENGTH. lia.
Qed.

Lemma length_wire f : length (wire f) = wire_length (length_field f).
Proof.
  unfold wire. rewrite length_app, head_octets_length. apply wire_length_body.
Qed.

Lemma wf_body f : wf_frame f -> wf_bytes (body_octets f).
Proof.
  intros [_ Hd]. unfold body_octets. destruct (is_cobs _); [auto with bac|].
  destruct (data f) eqn:E; [done|]. rewrite <-E in *. apply Forall_app; auto with bac.
Qed.

(** The input cut at the places of a frame. *)
Lemma cut_wire h n body rest :
  drop DATA_OFFSET (take (DATA_OFFSET + length body) ((head_octets h n ++ body) ++ rest)) = body /\
  drop (DATA_OFFSET + length body) ((head_octets h n ++ body) ++ rest) = rest /\
  take DATA_OFFSET ((head_octets h n ++ body) ++ rest) = head_octets h n.
Proof.
  split_and!.
  - rewrite take_app_length' by (rewrite length_app, head_octets_length; done).
    by rewrite drop_app_length' by done.
  - by rewrite drop_app_length' by (rewrite length_app, head_octets_length; done).
  - rewrite <-app_assoc. by rewrite take_app_length' by done.
Qed.

(** A frame whose header passes is accepted at the front of any input. *)
Lemma check_frame_wire f rest rc : wf_frame f ->
  header_passes rc (frame_type (header f)) (source (header f)) (length_field f) = true ->
  check_frame (wire f ++ rest) rc =
    Ok {| valid_header := header f; valid_data_length := length (data f);
          valid_consumed := length (wire f) |}.
Proof.
  intros Hw Hp. pose proof (header_passes_bound _ _ _ _ Hp) as (_ & Hb & _).
  unfold check_frame, wire. rewrite <-app_assoc, check_header_head, Hp
    by (unfold MAX_COBS_LENGTH in Hb; lia).
  cbn [rbind good_header good_length]. rewrite app_assoc. fold (wire f).
  rewrite <-length_wire, decide_False by (rewrite length_app; lia).
  rewrite length_wire, <-wire_length_body.
  destruct (cut_wire (header f) (length_field f) (body_octets f) rest) as (Hcut & _ & _).
  fold (wire f) in Hcut. rewrite Hcut. unfold body_octets, length_field. destruct (is_cobs _) eqn:Ec.
  - rewrite check_encoded_fields by apply Hw. done.
  - assert (bool_decide (length (data f) <> 0%nat) && negb
      (crc16_valid match data f with [] => [] | _ => data f ++ to_le16 (crc16 (data f)) end) = false)
      as ->; [|done].
    destruct (data f) eqn:E; [done|]. rewrite <-E. rewrite crc16_valid_app; [apply andb_false_r|apply Hw|].
    by rewrite E.
Qed.

(** ... and decoding it in place leaves its data after the header. *)
Lemma decode_extended_wire f rest n : wf_frame f -> 
  let input := decode_extended_in_place (wire f ++ rest)
    {| valid_header := header f; valid_data_length := n; valid_consumed := length (wire f) |} in
  length input = length (wire f ++ rest) /\
  take DATA_OFFSET input = head_octets (header f) (length_field f) /\
  drop (length (wire f)) input = rest /\
  frame_data input (length (data f)) = data f /\
  (is_cobs (frame_type (header f)) = false -> input = wire f ++ rest).
Proof.
  intros [_ Hw]. unfold decode_extended_in_place, frame_data. cbn [valid_header valid_consumed].
  pose proof (length_wire f) as Hl. rewrite <-wire_length_body in Hl.
  destruct (cut_wire (header f) (length_field f) (body_octets f) rest) as (E1 & E2 & E3).
  fold (wire f) in *. rewrite <-Hl in E1, E2. rewrite E1, E2, E3.
  destruct (is_cobs _) eqn:Ec.
  - unfold body_octets in *. rewrite Ec in *.
    destruct (decode_data_in_place_spec (encoded_data (data f))
      (encoded_data (to_le32 (crc32k (encoded_data (data f))))) (data f))
      as (f' & E & L & T); [apply encoded_crc_length|apply cobs_decode_encode|].
    fold (encoded_fields (data f)) in *. rewrite E, Hl. cbn [fst].
    split_and!; [| |  | |done].
    + rewrite !length_app, L, head_octets_length. rewrite Hl. lia.
    + by rewrite take_app_length' by done.
    + rewrite app_assoc. rewrite drop_app_length'; [done|]. rewrite length_app, L. done.
    + rewrite drop_app_length' by done. rewrite take_app_le; [done|].
      rewrite L. pose proof (frame_length_fields (data f)). rewrite frame_length_encode in *.
      pose proof (cobs_encode_length (data f)). lia.
  - split_and!; try done. unfold wire, body_octets. rewrite Ec, <-app_assoc.
    rewrite drop_app_length' by done. destruct (data f) eqn:E; [done|]. rewrite <-E, <-app_assoc.
    by rewrite take_app_length.
Qed.

(** What a standard frame that was accepted looked like. *)
Lemma check_frame_inv input rc valid : wf_bytes input -> check_frame input rc = Ok valid ->
  exists n rest, wf_header (valid_header valid) /\
    header_passes rc (frame_type (valid_header valid)) (source (valid_header valid)) n = true /\
    valid_consumed valid = wire_length n /\
    input = head_octets (valid_header valid) n ++ rest /\
    (valid_consumed valid <= length input)%nat /\
    let body := take (valid_consumed valid - DATA_OFFSET) rest in
    if is_cobs (frame_type (valid_header valid))
    then check_fields body = Some (valid_data_length valid)
    else valid_data_length valid = n /\ (n <> 0%nat -> crc16_valid body = true).
Proof.
  intros Hw. unfold check_frame. destruct (check_header input rc) as [good|] eqn:Eh; [|done].
  destruct (check_header_inv _ _ _ Hw Eh) as (Ht & Hl & Hh & Hp). cbn [rbind].
  case_decide as Hlen; [done|].
  set (body := drop DATA_OFFSET (take _ input)). intros E.
  exists (good_length good), (drop DATA_OFFSET input).
  assert (body = take (wire_length (good_length good) - DATA_OFFSET) (drop DATA_OFFSET input)) as Hbody.
  { unfold body. rewrite skipn_firstn_comm. done. }
  
  destruct (is_cobs _) eqn:Ec.
  - destruct (check_fields body) as [m|] eqn:Em; [|done]. cbn in E. injection E as <-. cbn [valid_header valid_consumed valid_data_length].
    rewrite Ec, <-Ht, take_drop, <-Hbody. split_and!; try done. lia.
  - destruct (bool_decide _ && _) eqn:Eb; [done|]. cbn in E. injection E as <-. cbn [valid_header valid_consumed valid_data_length].
    rewrite Ec, <-Ht, take_drop, <-Hbody. split_and!; try done; [lia|]. intros Hn.
    rewrite (bool_decide_eq_true_2 _ Hn) in Eb. cbn in Eb. by apply negb_false_iff in Eb.
Qed.

(** ** Encoding appends the wire layout *)

Lemma checked_length_ok f n : checked_length f = Ok n ->
  n = length_field f /\
  check_header_fields (frame_type (header f)) (source (header f)) n = Ok tt.
Proof.
  unfold checked_length, length_field. set (len := if is_cobs _ then _ else _).
  destruct (check_header_fields _ _ len) as [[]|] eqn:E; cbn [rbind]; [|done].
  destruct (bool_decide _ && _); [done|]. destruct (bool_decide _ && _); [done|].
  by intros [= <-].
Qed.

Lemma checked_length_passes f n rc : checked_length f = Ok n ->
  header_passes rc (frame_type (header f)) (source (header f)) (length_field f) = true.
Proof.
  intros H. apply checked_length_ok in H as [<- H]. unfold header_passes. by rewrite H.
Qed.

Section Encoding.
Context {S : Type} `{FrameSinkLaws S}.

(** The sink [s'] is [s] with [b] appended. *)
Definition appended (s : S) (b : bytes) (s' : S) : Prop :=
  contents s' = contents s ++ b /\
  remaining_capacity s' = (fun c => c - length b)%nat <$> remaining_capacity s.

Lemma appended_trans s a s1 b s2 :
  appended s a s1 -> appended s1 b s2 -> appended s (a ++ b) s2.
Proof.
  intros [C1 R1] [C2 R2]. split; [by rewrite C2, C1, app_assoc|].
  rewrite R2, R1. destruct (remaining_capacity s); [|done]. simpl. f_equal.
  rewrite length_app. lia.
Qed.

(** How a step of the encoder that writes [b] ends: all of [b] appended, or a
    failure, which needs a sink without enough reported room. *)
Definition step_ok (s : S) (b : bytes) (n : nat) (out : S * Result nat FrameError) : Prop :=
  match out with
  | (s', Ok m) => m = n /\ appended s b s'
  | (s', Err _) => contents s' `prefix_of` contents s ++ b /\
      forall c, remaining_capacity s = Some c -> (c < length b)%nat
  end.

Lemma write_q_step s a b n k :
  (forall s', appended s a s' -> step_ok s' b n (k s')) -> step_ok s (a ++ b) n (write_q s a k).
Proof.
  intros Hk. unfold write_q. destruct (sink_write s a) as [s1 [[]|e]] eqn:E.
  - assert (appended s a s1) as Ha by (by apply write_ok in E). specialize (Hk s1 Ha).
    destruct (k s1) as [s2 [m|e]]; simpl in *.
    + destruct Hk. split; [done|]. by eapply appended_trans.
    + destruct Hk as [Hp Hc], Ha as [C R]. rewrite app_assoc, <-C. split; [done|].
      intros c Hc0. rewrite Hc0 in R. simpl in R. specialize (Hc _ R). rewrite length_app. lia.
  - simpl. split; [apply write_err in E as [-> _]; by apply prefix_app_r|].
    intros c Hc. rewrite length_app. destruct (decide (length a <= c)%nat) as [Hl|]; [|lia].
    destruct (write_fits _ _ _ Hc Hl) as [? ?]. congruence.
Qed.

Lemma encode_to_sink_step f n (s : S) : checked_length f = Ok n ->
  no_room s (length (wire f)) = None ->
  step_ok s (wire f) (length (wire f)) (encode_to_sink f s).
Proof.
  intros Hc Hr. destruct (checked_length_ok _ _ Hc) as [-> _]. unfold encode_to_sink.
  rewrite Hc, <-length_wire, Hr. unfold wire at 1. apply write_q_step. intros s1 _.
  unfold body_octets, length_field. destruct (is_cobs _).
  - destruct (write_fields (data f) s1) as [s2 [[]|e]] eqn:E; apply write_fields_spec in E; done.
  - destruct (data f) as [|x d] eqn:Ed.
    + simpl. split; [done|]. split; [by rewrite app_nil_r|].
      destruct (remaining_capacity s1); [|done]. simpl. f_equal. lia.
    + rewrite decide_True by done. apply write_q_step. intros s2 _.
      rewrite <-(app_nil_r (to_le16 _)). apply write_q_step. intros s3 _.
      simpl. split; [done|]. split; [by rewrite app_nil_r|].
      destruct (remaining_capacity s3); [|done]. simpl. f_equal. lia.
Qed.
End Encoding.

Lemma wf_wire f n : wf_frame f -> checked_length f = Ok n -> wf_bytes (wire f).
Proof.
  intros Hw Hc. pose proof Hw as [(Ht & Hd & Hs) _].
  destruct (checked_length_ok _ _ Hc) as [Hn Hf].
  assert (n <= 2043)%nat by (eapply (header_passes_bound true);
    unfold header_passes; by erewrite Hf).
  unfold wire. apply Forall_app; split; [|by apply wf_body].
  assert (Hfields : wf_bytes [frame_type (header f); destination (header f); source (header f);
    Z.shiftr (Z.of_nat n) 8 mod 256; Z.of_nat n mod 256]).
  { rewrite !Forall_cons. unfold is_u8, U8_MAX in *. split_and!; try done; divmod. }
  rewrite <-Hn.
  unfold head_octets. rewrite !Forall_app. split_and!; [|done|].
  - unfold PREAMBLE. rewrite !Forall_cons. split_and!; [width..|done].
  - apply Forall_singleton. by apply crc8_u8.
Qed.

(** ** Correctness *)

(** Encoding is strict. A frame passes its checks exactly when
    its source is not the broadcast address and either it is an extended data
    frame with some data whose encoded Length is at most 2043, or it is a
    standard frame with at most 501 octets of data, none on the four types
    without any, and at least two on a proprietary type; the Length field is
    then the one of its class. *)
Theorem checked_length_exact f n :
  checked_length f = Ok n <->
  n = length_field f /\ source (header f) <> BROADCAST_MAC /\
  let t := frame_type (header f) in
  ((is_extended_data t = true /\ data f <> [] /\ (n <= MAX_COBS_LENGTH)%nat) \/
   (is_cobs t = false /\ (n <= MAX_STANDARD_MPDU_DATA)%nat /\
    (data f <> [] -> allows_data t = true) /\ (is_proprietary t = true -> (2 <= n)%nat))).
Proof.
  unfold checked_length. fold (length_field f). cbv zeta.
  set (t := frame_type (header f)).
  pose proof (cobs_encode_length (data f)) as Hcl. pose proof (frame_length_encode (data f)) as Hfl.
  assert (Hne : is_cobs t = false -> length_field f <> 0%nat <-> data f <> []).
  { unfold length_field. fold t. intros ->. destruct (data f); done. }
  assert (Hext : is_extended_data t = true -> is_cobs t = true /\ allows_data t = true /\
    is_proprietary t = false).
  { unfold is_extended_data, is_cobs, allows_data, is_proprietary. lia. }
  assert (Hco : is_cobs t = true -> length_field f = (length (cobs_encode (data f)) + 3)%nat /\
    (MIN_COBS_LENGTH <= length_field f <-> data f <> [])%nat).
  { unfold length_field. fold t. intros ->. split; [done|]. rewrite Hfl. unfold MIN_COBS_LENGTH.
    destruct (data f); [split; [vm_compute; lia|done]|]. cbn [length] in Hcl. split; [done|lia]. }
  destruct (check_header_fields t _ (length_field f)) as [[]|e] eqn:E; cbn [rbind].
  - apply check_header_fields_ok in E as (Hs & [(Hc & Hr & Hx)|(Hc & Hr)]).
    + destruct (Hext Hx) as (_ & Ha & Hp), (Hco Hc) as [_ Hd]. rewrite Ha, Hp, !andb_false_r.
      rewrite Hx, Hc. split; [|by intros (-> & _)]. intros [= <-]. split_and!; [done..|]. left.
      split_and!; [done|apply Hd, Hr|lia].
    + specialize (Hne Hc). rewrite Hc.
      assert (is_extended_data t = false) as ->
        by (destruct (is_extended_data t); [destruct Hext; congruence|done]).
      destruct (allows_data t), (is_proprietary t); repeat (case_bool_decide; cbn [andb negb]);
        (split; [try done; intros [= <-]; split_and!; try done; right; split_and!; try tauto; lia
                |try (intros (-> & _); done); intros (-> & _ & [?|?]); naive_solver lia]).
  - split; [done|]. intros (-> & Hs & H). exfalso.
    assert (check_header_fields t (source (header f)) (length_field f) = Ok tt); [|congruence].
    apply check_header_fields_ok. split; [done|]. destruct H as [(Hx & Hd & Hn)|(Hc & Hn & _)].
    + destruct (Hext Hx) as [Hc _]. left. split_and!; try done. by apply Hco.
    + right. done.
Qed.

(** Into any lawful sink, encoding either fails its own checks or
    finds too little reported room, and then leaves the sink alone; or it appends
    exactly the frame's wire octets and returns their count; or, only for a sink
    that reported no room limit, a write fails with part of the frame
    written. *)
Theorem encode_to_sink_spec {S} `{FrameSinkLaws S} f (s : S) :
  match checked_length f, remaining_capacity s with
  | Err e, _ => encode_to_sink f s = (s, Err e)
  | Ok _, Some c =>
      if decide (c < length (wire f))%nat
      then encode_to_sink f s = (s, Err (BufferExhausted (length (wire f)) c))
      else exists s', encode_to_sink f s = (s', Ok (length (wire f))) /\
             contents s' = contents s ++ wire f /\
             remaining_capacity s' = Some (c - length (wire f))%nat
  | Ok _, None =>
      match encode_to_sink f s with
      | (s', Ok n) => n = length (wire f) /\ contents s' = contents s ++ wire f
      | (s', Err _) => contents s' `prefix_of` contents s ++ wire f
      end
  end.
Proof.
  destruct (checked_length f) as [n|e] eqn:Hc; [|unfold encode_to_sink; by rewrite Hc].
  pose proof (encode_to_sink_step f n s Hc) as Hs. unfold no_room in Hs.
  destruct (remaining_capacity s) as [c|] eqn:Er.
  - case_decide as Hlt.
    + unfold encode_to_sink, no_room. rewrite Hc, Er. destruct (checked_length_ok _ _ Hc) as [-> _].
      rewrite <-length_wire, decide_True by done. done.
    + specialize (Hs eq_refl). destruct (encode_to_sink f s) as [s' [m|e]]; cbn [step_ok] in Hs.
      * destruct Hs as [-> [C R]]. exists s'. split_and!; [done..|]. by rewrite R, Er.
      * destruct Hs as [_ Hs]. specialize (Hs c Er). lia.
  - specialize (Hs eq_refl). destruct (encode_to_sink f s) as [s' [m|e]]; cbn [step_ok] in Hs.
    + destruct Hs as [-> [C _]]. done.
    + apply Hs.
Qed.

(** C2: what [encode_into] wrote decodes to the same frame and
    length, whatever follows it in the input: in place for every frame, and by
    the borrowing decoder for a standard one, while it refuses an extended one
    as such. *)
Theorem frame_encode_decode f output buf n rest : wf_frame f ->
  encode_into f output = (buf, Ok n) ->
  let input := take n buf ++ rest in
  snd (decode_frame_in_place input) = Ok (f, n) /\
  decode_frame input =
    (if is_cobs (frame_type (header f)) then Err (ExtendedFrame (frame_type (header f)))
     else Ok (f, n)).
Proof.
  intros Hw He. cbv zeta. unfold encode_into in He.
  destruct (encode_to_sink f _) as [s' r] eqn:E. injection He as <- ->.
  set (s0 := {| slice_buf := output; slice_pos := 0 |}) in *.
  destruct (checked_length f) as [k|e] eqn:Hc;
    [|unfold encode_to_sink in E; rewrite Hc in E; done].
  destruct (no_room s0 (length (wire f))) as [e|] eqn:Hr.
  { destruct (checked_length_ok _ _ Hc) as [-> _]. unfold encode_to_sink in E.
    rewrite Hc, <-length_wire, Hr in E. done. }
  pose proof (encode_to_sink_step f k s0 Hc Hr) as Hs. rewrite E in Hs. cbn [step_ok] in Hs.
  destruct Hs as [-> [C R]].
  assert (take (length (wire f)) (slice_buf s') = wire f) as ->.
  { change (take (slice_pos s') (slice_buf s') = wire f) in C.
    rewrite <-C, length_take. clear.
    destruct (decide (slice_pos s' <= length (slice_buf s'))%nat).
    - by rewrite Nat.min_l by lia.
    - rewrite Nat.min_r by lia. by rewrite !take_ge by lia. }
  pose proof (checked_length_passes _ _ false Hc) as Hp.
  pose proof (check_frame_wire f rest false Hw Hp) as Hf.
  unfold decode_frame_in_place, decode_frame. rewrite Hf.
  destruct (decode_extended_wire f rest (length (data f)) Hw) as (_ & _ & _ & Hd & Hstd).
  cbn [valid_header valid_data_length valid_consumed rbind snd]. split.
  - rewrite Hd. destruct f. done.
  - unfold wire at 1. pose proof (header_passes_bound _ _ _ _ Hp) as (_ & Hb & _).
    rewrite <-app_assoc, check_header_head, Hp by (unfold MAX_COBS_LENGTH in Hb; lia).
    cbn [rbind good_header]. destruct (is_cobs _) eqn:Ec; [done|].
    rewrite <-(Hstd eq_refl), Hd. destruct f. done.
Qed.
Lemma frame_encode_decode_witness :
  let f := {| header := {| frame_type := 33; destination := 255; source := 2 |};
              data := [1; 0; 16; 8] |} in
  snd (decode_frame_in_place (take 18 (fst (encode_into f (replicate 32 0))) ++ [7])) =
    Ok (f, 18%nat).
Proof.
  intros f.
  refine (proj1 (frame_encode_decode f (replicate 32 0) (fst (encode_into f (replicate 32 0)))
    18 [7] _ _)).
  - split; [split_and!|repeat constructor]; cbn; width.
  - vm_compute. reflexivity.
Defined.

(** The borrowing decoder accepts nothing but complete
    standard frames: what it returns is a well-formed frame within the limits,
    and the octets it consumed are exactly that frame's wire layout, CRCs
    included. *)
Theorem decode_frame_sound input f n : wf_bytes input -> decode_frame input = Ok (f, n) ->
  wf_frame f /\ take n input = wire f /\ (n <= length input)%nat /\
  is_cobs (frame_type (header f)) = false /\ source (header f) <> BROADCAST_MAC /\
  (length (data f) <= MAX_STANDARD_MPDU_DATA)%nat.
Proof.
  intros Hw. unfold decode_frame.
  destruct (check_header input false) as [good|] eqn:Eh; [|done]. cbn [rbind].
  destruct (is_cobs _) eqn:Ec; [done|].
  destruct (check_frame input false) as [valid|] eqn:Ef; [|done]. cbn [rbind]. intros [= <- <-].
  destruct (check_frame_inv _ _ _ Hw Ef) as (k & rest & Hh & Hp & Hcons & -> & Hlen & Hbody).
  rewrite check_header_head in Eh by (apply header_passes_bound in Hp;
    unfold MAX_COBS_LENGTH in Hp; lia). rewrite Hp in Eh. injection Eh as <-. cbn in Ec.
  rewrite Ec in Hbody. destruct Hbody as [-> Hcrc]. cbn [header data].
  pose proof (header_passes_bound _ _ _ _ Hp) as (Hs & _ & Hk). specialize (Hk Ec).
  unfold frame_data. rewrite drop_app_length' by done.
  rewrite Hcons in *. unfold wire_length in *. rewrite length_app, head_octets_length in Hlen.
  apply Forall_app in Hw as [_ Hw].
  unfold wire, length_field, body_octets. cbn [header data]. rewrite Ec.
  case_decide as Hk0.
  - subst k. rewrite take_0, take_app_length' by done. cbn [length]. rewrite app_nil_r.
    rewrite length_app, head_octets_length. split_and!; try done; lia.
  - specialize (Hcrc Hk0). unfold TRAILER_LENGTH in *.
    replace (DATA_OFFSET + k + 2 - DATA_OFFSET)%nat with (k + 2)%nat in Hcrc by lia.
    destruct (crc16_valid_inv _ (Forall_take _ _ _ Hw) Hcrc) as (d & Ed & Ld).
    rewrite length_take in Ld. assert (k = length d) as Hkd by lia.
    assert (take k rest = d) as Htd.
    { rewrite <-(take_app_length d (to_le16 (crc16 d))), <-Ed, take_take, <-Hkd. f_equal. lia. }
    rewrite Htd, <-Hkd.
    assert (wf_bytes d) by (rewrite <-Htd; by apply Forall_take).
    split_and!; try done; try lia.
    + replace (DATA_OFFSET + k + 2)%nat with (DATA_OFFSET + (k + 2))%nat by lia.
      rewrite take_app_add', Ed by done. destruct d; [done|]. done.
Qed.
Lemma decode_frame_sound_witness :
  take 12 [85; 255; 6; 1; 200; 0; 2; 239; 1; 0; 159; 22; 85] =
  wire {| header := {| frame_type := 6; destination := 1; source := 200 |}; data := [1; 0] |}.
Proof.
  apply (decode_frame_sound [85; 255; 6; 1; 200; 0; 2; 239; 1; 0; 159; 22; 85]).
  - repeat constructor; width.
  - vm_compute. reflexivity.
Defined.
