(* ===== verification/Stream.v ===== *)
(** * The incremental decoder (crate bacnet-mstp-codec, stream.rs)

    [StreamDecoder] keeps received octets in a buffer the caller lends it: a
    window that moves forward as octets are dropped, is moved to the front when
    room runs out, and has a delivered frame decoded over itself. The abstract
    decoder below it keeps only the octets not yet consumed and the count still
    to skip; the refinement theorem shows the storage management invisible, and
    the stream properties are then proved on the abstract decoder. *)

From S2P Require Import Prelude Crc Sink Cobs Frame.

(** [DecodeEvent] (bacnet-mstp-codec/src/stream.rs:9-61) *)
Inductive DecodeEvent :=
| EvNeedMore
| EvFrame (frame : Frame) (consumed : nat)
| EvInvalid (discard : nat)
| EvMalformed (discard : nat) (error : FrameError) (destination : option Z)
| EvError (error : FrameError).

#[global] Instance DecodeEvent_eq_dec : EqDecision DecodeEvent.
Proof. solve_decision. Defined.

(** [StreamPhase] (bacnet-mstp-codec/src/stream.rs:63-76) *)
Inductive StreamPhase := PhaseSync | PhasePreamble | PhaseHeader | PhaseData.

(** [InternalEvent] (bacnet-mstp-codec/src/stream.rs:204-220) *)
Inductive InternalEvent :=
| IntNeedMore
| IntFrame (header : FrameHeader) (data_length consumed : nat)
| IntInvalid (discard : nat)
| IntMalformed (discard : nat) (error : FrameError) (destination : option Z).

(** [StreamDecoder] (bacnet-mstp-codec/src/stream.rs:164-183) *)
Record StreamDecoder := {
  storage : bytes;
  start : nat;
  buf_length : nat;
  pending : nat;
  skip : nat;
  reserved_cobs : bool
}.

(** [DESTINATION_INDEX] (bacnet-mstp-codec/src/stream.rs:199-200) *)
Definition DESTINATION_INDEX : nat := length PREAMBLE + 1.
(** [LENGTH_INDEX] (bacnet-mstp-codec/src/stream.rs:201-202) *)
Definition LENGTH_INDEX : nat := length PREAMBLE + 3.

(** Assignments to the fields that change. *)
Definition set_window (d : StreamDecoder) (s n : nat) : StreamDecoder :=
  {| storage := storage d; start := s; buf_length := n; pending := pending d;
     skip := skip d; reserved_cobs := reserved_cobs d |}.
Definition set_storage (d : StreamDecoder) (st : bytes) : StreamDecoder :=
  {| storage := st; start := start d; buf_length := buf_length d; pending := pending d;
     skip := skip d; reserved_cobs := reserved_cobs d |}.
Definition set_pending (d : StreamDecoder) (n : nat) : StreamDecoder :=
  {| storage := storage d; start := start d; buf_length := buf_length d; pending := n;
     skip := skip d; reserved_cobs := reserved_cobs d |}.
Definition set_skip (d : StreamDecoder) (n : nat) : StreamDecoder :=
  {| storage := storage d; start := start d; buf_length := buf_length d; pending := pending d;
     skip := n; reserved_cobs := reserved_cobs d |}.

(** [StreamDecoder::new] (bacnet-mstp-codec/src/stream.rs) *)
Definition stream_new (st : bytes) : StreamDecoder :=
  {| storage := st; start := 0; buf_length := 0; pending := 0; skip := 0;
     reserved_cobs := false |}.
(** [StreamDecoder::with_reserved_cobs] (bacnet-mstp-codec/src/stream.rs) *)
Definition with_reserved_cobs (d : StreamDecoder) : StreamDecoder :=
  {| storage := storage d; start := start d; buf_length := buf_length d; pending := pending d;
     skip := skip d; reserved_cobs := true |}.
(** [StreamDecoder::checks_reserved_cobs] (bacnet-mstp-codec/src/stream.rs) *)
Definition checks_reserved_cobs (d : StreamDecoder) : bool := reserved_cobs d.
(** [StreamDecoder::buffered_len] (bacnet-mstp-codec/src/stream.rs) *)
Definition buffered_len (d : StreamDecoder) : nat := buf_length d.
(** [StreamDecoder::capacity] (bacnet-mstp-codec/src/stream.rs) *)
Definition capacity (d : StreamDecoder) : nat := length (storage d).
(** [StreamDecoder::buffered] (bacnet-mstp-codec/src/stream.rs) *)
Definition buffered (d : StreamDecoder) : bytes :=
  take (buf_length d) (drop (start d) (storage d)).

(** [StreamDecoder::phase] (bacnet-mstp-codec/src/stream.rs) *)
Definition phase (d : StreamDecoder) : StreamPhase :=
  if decide (skip d <> 0)%nat then PhaseData else
  let b := buffered d in
  if bool_decide (pending d <> 0)%nat || negb (bool_decide (b !! 0%nat = Some 85)) then PhaseSync else
  if decide (buf_length d = 1)%nat then PhasePreamble else
  if negb (at_ b 1 =? 255) then PhaseSync else
  if decide (buf_length d < DATA_OFFSET)%nat then PhaseHeader else PhaseData.

(** [StreamDecoder::reset] (bacnet-mstp-codec/src/stream.rs) *)
Definition stream_reset (d : StreamDecoder) : StreamDecoder :=
  {| storage := storage d; start := 0; buf_length := 0; pending := 0; skip := 0;
     reserved_cobs := reserved_cobs d |}.

(** [StreamDecoder::discard] (bacnet-mstp-codec/src/stream.rs:507-515) *)
Definition stream_discard (d : StreamDecoder) (count : nat) : StreamDecoder :=
  let count := Nat.min count (buf_length d) in
  let s := (start d + count)%nat in
  let n := (buf_length d - count)%nat in
  set_window d (if decide (n = 0)%nat then 0%nat else s) n.

(** [StreamDecoder::commit_pending] (bacnet-mstp-codec/src/stream.rs) *)
Definition commit_pending (d : StreamDecoder) : StreamDecoder :=
  if decide (pending d = 0)%nat then d
  else set_pending (stream_discard d (pending d)) 0.

(** The [while] loop of [compact]. Each round moves at least one octet.
    [StreamDecoder::compact] (bacnet-mstp-codec/src/stream.rs:527-533) *)
Fixpoint compact_loop (fuel : nat) (st : bytes) (gap from end_ : nat) : bytes :=
  match fuel with
  | O => st
  | S fuel =>
      if decide (from < end_)%nat then
        let count := Nat.min gap (end_ - from) in
        compact_loop fuel (splice st (from - gap) (take count (drop from st)))
          gap (from + count) end_
      else st
  end.
(** [StreamDecoder::compact] (bacnet-mstp-codec/src/stream.rs) *)
Definition compact (d : StreamDecoder) : StreamDecoder :=
  let gap := start d in
  if decide (gap = 0)%nat then d else
  let end_ := (start d + buf_length d)%nat in
  set_window (set_storage d (compact_loop (S (buf_length d)) (storage d) gap gap end_))
    0 (buf_length d).

(** [StreamDecoder::declared_length] (bacnet-mstp-codec/src/stream.rs) *)
Definition declared_length (d : StreamDecoder) : nat :=
  let b := buffered d in
  Z.to_nat (from_be16 (at_ b LENGTH_INDEX) (at_ b (LENGTH_INDEX + 1))).

(** [StreamDecoder::skip_frame] (bacnet-mstp-codec/src/stream.rs) *)
Definition skip_frame (d : StreamDecoder) (total : nat) (error : FrameError) (dest : option Z)
  : StreamDecoder * InternalEvent :=
  let d := if decide (total <= buf_length d)%nat then stream_discard d total
           else set_window (set_skip d (total - buf_length d)) 0 0 in
  (d, IntMalformed total error dest).

(** [StreamDecoder::wait_for_header] (bacnet-mstp-codec/src/stream.rs) *)
Definition wait_for_header (d : StreamDecoder) (needed : nat) : StreamDecoder * InternalEvent :=
  if decide (needed <= capacity d)%nat then (d, IntNeedMore)
  else (stream_discard d 1, IntMalformed 1 (FrameTooLong needed (capacity d)) None).

(** The octets up to the next one that might start a preamble:
    [buffered[1..].iter().position(..).map_or(buffered.len(), |index| index + 1)]. *)
Fixpoint next_preamble (l : bytes) : nat :=
  match l with [] => 0 | x :: l => if x =? 85 then 0 else S (next_preamble l) end.
Definition noise_length (b : bytes) : nat := S (next_preamble (drop 1 b)).

(** [may_start_preamble]. *)
Definition may_start (b : bytes) : bool :=
  (at_ b 0 =? 85) && match b !! 1%nat with None => true | Some x => x =? 255 end.

(** Whether a check_frame error comes with a trusted destination octet: the
    first [match error] of [try_decode].
    [StreamDecoder::try_decode] (bacnet-mstp-codec/src/stream.rs:401-421) *)
Definition error_destination (error : FrameError) (b : bytes) : option Z :=
  match error with
  | TooShort _ _ | InvalidPreamble _ _ | HeaderCrcMismatch => None
  | BroadcastSource | InvalidCobsLength _ | Oversize _ _ | UnsupportedCobsFrame _
  | Truncated _ _ | DataCrcMismatch _ => Some (at_ b DESTINATION_INDEX)
  | ExtendedFrame _ | UnexpectedData _ _ | MissingVendorId _ _ | FrameTooLong _ _
  | BufferExhausted _ _ => None
  end.

(** [StreamDecoder::try_decode] (bacnet-mstp-codec/src/stream.rs) *)
Definition try_decode (d : StreamDecoder) : StreamDecoder * InternalEvent :=
  let b := buffered d in
  match b with
  | [] => (d, IntNeedMore)
  | _ :: _ =>
      if negb (may_start b) then
        (stream_discard d (noise_length b), IntInvalid (noise_length b))
      else match check_frame b (reserved_cobs d) with
      | Ok valid =>
          let d := set_storage d (splice (storage d) (start d) (decode_extended_in_place b valid)) in
          (set_pending d (valid_consumed valid),
           IntFrame (valid_header valid) (valid_data_length valid) (valid_consumed valid))
      | Err error =>
          let dest := error_destination error b in
          match error with
          | TooShort needed _ => wait_for_header d needed
          | Truncated len _ =>
              let needed := wire_length len in
              if decide (needed <= capacity d)%nat then (d, IntNeedMore)
              else skip_frame d needed (FrameTooLong needed (capacity d)) dest
          | UnsupportedCobsFrame _ => skip_frame d (wire_length (declared_length d)) error dest
          | DataCrcMismatch len => skip_frame d (wire_length len) error dest
          | _ => (stream_discard d 1, IntMalformed 1 error dest)
          end
      end
  end.

(** [StreamDecoder::push_slice] (bacnet-mstp-codec/src/stream.rs) *)
Definition push_slice (d : StreamDecoder) (input : bytes) : StreamDecoder * DecodeEvent :=
  let d := commit_pending d in
  let skipped := Nat.min (skip d) (length input) in
  let rest := drop skipped input in
  let free := (length (storage d) - buf_length d)%nat in
  if decide (free < length rest)%nat
  then (d, EvError (BufferExhausted (length rest) free)) else
  let d := set_skip d (skip d - skipped) in
  let d := if decide (length (storage d) < start d + buf_length d + length rest)%nat
           then compact d else d in
  let end_ := (start d + buf_length d)%nat in
  let d := set_storage d (splice (storage d) end_ rest) in
  let d := set_window d (start d) (buf_length d + length rest) in
  let '(d, ev) := try_decode d in
  (d, match ev with
      | IntNeedMore => EvNeedMore
      | IntFrame h n consumed =>
          EvFrame {| header := h; data := frame_data (buffered d) n |} consumed
      | IntInvalid k => EvInvalid k
      | IntMalformed k e dest => EvMalformed k e dest
      end).

(** [StreamDecoder::push] (bacnet-mstp-codec/src/stream.rs) *)
Definition stream_push (d : StreamDecoder) (byte : Z) : StreamDecoder * DecodeEvent :=
  push_slice d [byte].

(** ** The abstract decoder

    Its state is the octets received and not yet consumed, and the octets of a
    dropped frame still to come. A delivered frame is consumed at once. *)

Definition AState : Type := bytes * nat.

(** What becomes of a candidate that failed [check_frame] with [e]: wait, or
    drop that many octets for that reason. *)
Definition refusal (cap : nat) (b : bytes) (e : FrameError) : option (nat * FrameError) :=
  match e with
  | TooShort needed _ =>
      if decide (needed <= cap)%nat then None else Some (1%nat, FrameTooLong needed cap)
  | Truncated len _ =>
      if decide (wire_length len <= cap)%nat then None
      else Some (wire_length len, FrameTooLong (wire_length len) cap)
  | UnsupportedCobsFrame _ =>
      Some (wire_length (Z.to_nat (from_be16 (at_ b LENGTH_INDEX) (at_ b (LENGTH_INDEX + 1)))), e)
  | DataCrcMismatch len => Some (wire_length len, e)
  | _ => Some (1%nat, e)
  end.

(** [check_frame] for a decoder of capacity [cap], whatever has arrived: a
    candidate too long for the storage counts as incomplete even if all of it is
    in [b]. *)
Definition icheck (cap : nat) (b : bytes) (rc : bool) : Result ValidFrame FrameError :=
  if decide (cap < DATA_OFFSET)%nat then Err (TooShort DATA_OFFSET (length b)) else
  let? good := check_header b rc in
  if decide (cap < wire_length (good_length good))%nat
  then Err (Truncated (good_length good) (length b - DATA_OFFSET))
  else check_frame b rc.

(** The event for the octets [b], and the state it leaves. *)
Definition adecode (cap : nat) (rc : bool) (b : bytes) : AState * DecodeEvent :=
  match b with
  | [] => (([], 0%nat), EvNeedMore)
  | _ :: _ =>
      if negb (may_start b) then
        ((drop (noise_length b) b, 0%nat), EvInvalid (noise_length b))
      else match icheck cap b rc with
      | Ok valid =>
          ((drop (valid_consumed valid) b, 0%nat),
           EvFrame {| header := valid_header valid;
                      data := frame_data (decode_extended_in_place b valid)
                                (valid_data_length valid) |}
             (valid_consumed valid))
      | Err e =>
          match refusal cap b e with
          | None => ((b, 0%nat), EvNeedMore)
          | Some (k, e') => ((drop k b, (k - length b)%nat), EvMalformed k e' (error_destination e b))
          end
      end
  end.

Definition apush (cap : nat) (rc : bool) (s : AState) (input : bytes) : AState * DecodeEvent :=
  let '(b, sk) := s in
  let skipped := Nat.min sk (length input) in
  let rest := drop skipped input in
  if decide (cap - length b < length rest)%nat
  then (s, EvError (BufferExhausted (length rest) (cap - length b))) else
  let '((b', sk'), ev) := adecode cap rc (b ++ rest) in
  ((b', sk - skipped + sk')%nat, ev).

(** The abstract state of a decoder. *)
Definition abs (d : StreamDecoder) : AState := (drop (pending d) (buffered d), skip d).

(** The window is within the storage and at its front when empty, a pending
    frame is buffered, and nothing is buffered while a frame is skipped. *)
Record wf_dec (d : StreamDecoder) : Prop := {
  wf_window : (start d + buf_length d <= length (storage d))%nat;
  wf_front : buf_length d = 0%nat -> start d = 0%nat;
  wf_pending : (pending d <= buf_length d)%nat;
  wf_skip : skip d <> 0%nat -> buf_length d = 0%nat
}.

(** The same storage size and mode. *)
Definition same_config (d d' : StreamDecoder) : Prop :=
  length (storage d') = length (storage d) /\ reserved_cobs d' = reserved_cobs d.

(** ** Windows of the storage *)

Lemma length_buffered d : wf_dec d -> length (buffered d) = buf_length d.
Proof. intros [? _ _ _]. unfold buffered. rewrite length_take, length_drop. lia. Qed.

Lemma window_append st s n rest : (s + n + length rest <= length st)%nat ->
  take (n + length rest) (drop s (splice st (s + n) rest)) = take n (drop s st) ++ rest.
Proof.
  intros H. unfold splice. rewrite drop_app_le by (rewrite length_take; lia).
  rewrite skipn_firstn_comm. replace (s + n - s)%nat with n by lia.
  assert (length (take n (drop s st)) = n) as Hn by (rewrite length_take, length_drop; lia).
  rewrite take_app_add' by done. by rewrite take_app_length.
Qed.

Lemma window_replace st s b : (s + length b <= length st)%nat ->
  take (length b) (drop s (splice st s b)) = b.
Proof.
  intros H. pose proof (window_append st s 0 b) as E. rewrite Nat.add_0_r, take_0 in E.
  apply E. lia.
Qed.

Lemma discard_spec d k : wf_dec d -> pending d = 0%nat ->
  wf_dec (stream_discard d k) /\ buffered (stream_discard d k) = drop k (buffered d).
Proof.
  intros Hw Hp. pose proof (length_buffered d Hw) as Hl. destruct Hw as [H1 H2 H3 H4].
  unfold stream_discard. set (count := Nat.min k (buf_length d)). split.
  - constructor; cbn; unfold count in *; try case_decide; try lia.
  - unfold buffered at 1. cbn. case_decide as Hz.
    + rewrite Hz, take_0, drop_ge; [done|]. unfold count in *. lia.
    + unfold buffered. rewrite <-drop_drop. unfold count.
      rewrite Nat.min_l by (unfold count in Hz; lia). by rewrite skipn_firstn_comm.
Qed.

Lemma commit_spec d : wf_dec d ->
  wf_dec (commit_pending d) /\ pending (commit_pending d) = 0%nat /\
  buffered (commit_pending d) = drop (pending d) (buffered d) /\
  storage (commit_pending d) = storage d /\ skip (commit_pending d) = skip d /\
  reserved_cobs (commit_pending d) = reserved_cobs d.
Proof.
  intros Hw. unfold commit_pending. case_decide as Hp; [by rewrite Hp, drop_0|].
  destruct (discard_spec (set_pending d 0) (pending d)) as [[W1 W2 W3 W4] B]; [|done|].
  { destruct Hw. constructor; cbn in *; lia. }
  split_and!; try done.
Qed.

(** The piecewise copy moves the window to the front. *)
Lemma compact_loop_spec fuel : forall st gap from end_ B,
  (0 < gap)%nat -> (gap <= from <= end_)%nat -> (end_ <= length st)%nat ->
  (end_ - from < fuel)%nat -> length B = (end_ - gap)%nat ->
  take (from - gap) st = take (from - gap) B ->
  take (end_ - from) (drop from st) = drop (from - gap) B ->
  length (compact_loop fuel st gap from end_) = length st /\
  take (end_ - gap) (compact_loop fuel st gap from end_) = B.
Proof.
  induction fuel as [|fuel IH]; intros st gap from end_ B Hg Hf He Hfuel HB Hdone Htodo; [lia|].
  cbn [compact_loop]. case_decide as Hlt.
  - set (count := Nat.min gap (end_ - from)).
    set (piece := take count (drop from st)).
    assert (length piece = count) as Hpl
      by (unfold piece; rewrite length_take, length_drop; unfold count; lia).
    assert (piece = take count (drop (from - gap) B)) as Hpiece.
    { unfold piece. rewrite <-Htodo, take_take. f_equal. unfold count. lia. }
    rewrite <-(length_splice st (from - gap) piece) by (rewrite Hpl; unfold count; lia).
    apply IH; try (unfold count; lia).
    + rewrite length_splice by (rewrite Hpl; unfold count; lia). done.
    + replace (from + count - gap)%nat with (from - gap + length piece)%nat by lia.
      unfold splice. rewrite app_assoc. rewrite take_app_length'.
      * rewrite Hdone, Hpl, Hpiece. by rewrite take_take_drop.
      * rewrite length_app, length_take. lia.
    + unfold splice. replace (from + count)%nat with (from - gap + length piece + (gap))%nat at 2 by lia.
      rewrite <-drop_drop, app_assoc.
      rewrite (drop_app_length' (take (from - gap) st ++ piece)) by (rewrite length_app, length_take; lia).
      rewrite drop_drop. replace (from - gap + length piece + gap)%nat with (from + count)%nat by lia.
      replace (from + count - gap)%nat with (from - gap + count)%nat by lia.
      rewrite <-(drop_drop B), <-Htodo, skipn_firstn_comm, drop_drop. f_equal. lia.
  - assert (from = end_) by lia. subst from. split; [done|]. rewrite Hdone, <-HB. by rewrite take_ge by lia.
Qed.

Lemma compact_spec d : wf_dec d -> pending d = 0%nat ->
  wf_dec (compact d) /\ start (compact d) = 0%nat /\ buffered (compact d) = buffered d /\
  same_config d (compact d) /\ skip (compact d) = skip d /\ pending (compact d) = 0%nat /\
  buf_length (compact d) = buf_length d.
Proof.
  intros Hw Hp. pose proof (length_buffered d Hw) as Hl. destruct Hw as [H1 H2 H3 H4].
  unfold compact. case_decide as Hs; [done|].
  destruct (compact_loop_spec (S (buf_length d)) (storage d) (start d) (start d)
    (start d + buf_length d) (buffered d)) as [L T]; try lia.
  - by rewrite Nat.sub_diag.
  - rewrite Nat.sub_diag, drop_0. unfold buffered. f_equal. lia.
  - replace (start d + buf_length d - start d)%nat with (buf_length d) in T by lia.
    split_and!; try done. constructor; cbn [start buf_length pending skip storage set_window set_storage]; rewrite ?L; lia || done.
Qed.

(** ** Refinement *)

(** Of a frame [check_frame] accepts, in-place decoding changes neither the
    length of the input nor what follows the frame. *)
Lemma check_frame_consumed b rc valid : check_frame b rc = Ok valid ->
  (DATA_OFFSET <= valid_consumed valid <= length b)%nat.
Proof.
  unfold check_frame. destruct (check_header b rc); [|done]. cbn [rbind].
  case_decide; [done|]. destruct (if is_cobs _ then _ else _); [|done]. cbn [rbind]. intros [= <-].
  cbn [valid_consumed]. split; [|lia]. unfold wire_length. case_decide; lia.
Qed.

Lemma decode_extended_frame b rc valid : check_frame b rc = Ok valid ->
  length (decode_extended_in_place b valid) = length b /\
  drop (valid_consumed valid) (decode_extended_in_place b valid) = drop (valid_consumed valid) b.
Proof.
  intros H%check_frame_consumed. unfold decode_extended_in_place. destruct (is_cobs _); [|done].
  set (body := drop _ _). pose proof (decode_data_in_place_length body) as L.
  destruct (decode_data_in_place body) as [body' n]. cbn [fst] in L.
  assert (length body = valid_consumed valid - DATA_OFFSET)%nat
    by (unfold body; rewrite length_drop, length_take; lia).
  split; [rewrite !length_app, length_take, length_drop; lia|].
  rewrite app_assoc. apply drop_app_length'. rewrite length_app, length_take. lia.
Qed.

Definition event_of (d : StreamDecoder) (ev : InternalEvent) : DecodeEvent :=
  match ev with
  | IntNeedMore => EvNeedMore
  | IntFrame h n consumed => EvFrame {| header := h; data := frame_data (buffered d) n |} consumed
  | IntInvalid k => EvInvalid k
  | IntMalformed k e dest => EvMalformed k e dest
  end.

(** The state [d'] reached from [d] with nothing pending has the octets and the
    skip of [s]. *)
Definition reached (d : StreamDecoder) (s : AState) (d' : StreamDecoder) : Prop :=
  wf_dec d' /\ same_config d d' /\ abs d' = s.

Lemma discard_reached d k : wf_dec d -> pending d = 0%nat -> skip d = 0%nat ->
  reached d (drop k (buffered d), 0%nat) (stream_discard d k).
Proof.
  intros Hw Hp Hs. destruct (discard_spec d k Hw Hp) as [W B].
  split_and!; try done. unfold abs. rewrite B. cbn. by rewrite Hp, Hs, drop_0.
Qed.

Lemma skip_frame_reached d k e dest : wf_dec d -> pending d = 0%nat -> skip d = 0%nat ->
  reached d (drop k (buffered d), (k - length (buffered d))%nat) (skip_frame d k e dest).1.
Proof.
  intros Hw Hp Hs. pose proof (length_buffered d Hw) as Hl. unfold skip_frame. cbn [fst].
  case_decide as Hk.
  - replace (k - length (buffered d))%nat with 0%nat by lia. by apply discard_reached.
  - split_and!; [| done |].
    + destruct Hw. constructor; cbn; lia.
    + unfold abs. cbn. rewrite Hp, drop_0, take_0, drop_ge by lia. by rewrite Hl.
Qed.

Lemma same_reached d : wf_dec d -> pending d = 0%nat -> reached d (buffered d, skip d) d.
Proof. intros. split_and!; try done. unfold abs. by rewrite H0, drop_0. Qed.

(** What fits the storage is checked as it stands. *)
Lemma icheck_fits cap b rc : (length b <= cap)%nat -> icheck cap b rc = check_frame b rc.
Proof.
  intros Hl. unfold icheck. case_decide as Hc.
  - unfold check_frame, check_header. rewrite decide_True by lia. done.
  - destruct (check_header b rc) as [good|] eqn:E; cbn [rbind].
    + case_decide; [|done]. unfold check_frame. rewrite E. cbn [rbind].
      rewrite decide_True by lia. done.
    + unfold check_frame. by rewrite E.
Qed.

Lemma try_decode_refines d : wf_dec d -> pending d = 0%nat -> skip d = 0%nat ->
  exists s, reached d s (try_decode d).1 /\
    adecode (capacity d) (reserved_cobs d) (buffered d) =
      (s, event_of (try_decode d).1 (try_decode d).2).
Proof.
  intros Hw Hp Hs. pose proof (same_reached d Hw Hp) as Hsame. rewrite Hs in Hsame.
  unfold try_decode, adecode. rewrite icheck_fits
    by (rewrite length_buffered by done; destruct Hw; unfold capacity; lia).
  destruct (buffered d) as [|x l] eqn:Eb; [by eexists|]. rewrite <-Eb in *.
  destruct (may_start (buffered d)); cbn [negb];
    [|eexists; split; [by apply discard_reached|done]].
  destruct (check_frame (buffered d) (reserved_cobs d)) as [valid|e] eqn:Ec.
  - pose proof (check_frame_consumed _ _ _ Ec) as Hcons.
    destruct (decode_extended_frame _ _ _ Ec) as [HL HD].
    pose proof (length_buffered d Hw) as Hl. eexists. cbn [fst snd].
    set (b' := decode_extended_in_place (buffered d) valid) in *.
    assert (take (buf_length d) (drop (start d) (splice (storage d) (start d) b')) = b') as Hb.
    { replace (buf_length d) with (length b') by lia. apply window_replace.
      destruct Hw. lia. }
    assert (length (splice (storage d) (start d) b') = length (storage d)) as Hst
      by (apply length_splice; destruct Hw; lia).
    split; [split_and!|].
    + destruct Hw. constructor; cbn; rewrite ?Hst; lia.
    + split; [exact Hst|done].
    + unfold abs, buffered. cbn. rewrite Hb, HD, Hs. done.
    + cbn. by rewrite Hb.
  - assert (H1 : (1 - length (buffered d) = 0)%nat) by (rewrite Eb; cbn; lia).
    destruct e; cbn [refusal];
      try (eexists; split; [by apply discard_reached|]; rewrite H1; done);
      try (eexists; split; [by apply skip_frame_reached|done]).
    + unfold wait_for_header. case_decide; [by eexists|].
      eexists. split; [by apply discard_reached|]. by rewrite H1.
    + case_decide; [by eexists|]. eexists. split; [by apply skip_frame_reached|done].
Qed.

(** The window after the input is buffered, with the skip taken off. *)
Lemma buffer_input d rest sk : wf_dec d -> pending d = 0%nat ->
  (length rest <= length (storage d) - buf_length d)%nat ->
  (sk <> 0%nat -> buf_length d = 0%nat /\ rest = []) ->
  let d1 := set_skip d sk in
  let d2 := if decide (length (storage d1) < start d1 + buf_length d1 + length rest)%nat
            then compact d1 else d1 in
  let d3 := set_storage d2 (splice (storage d2) (start d2 + buf_length d2) rest) in
  let d4 := set_window d3 (start d3) (buf_length d3 + length rest) in
  wf_dec d4 /\ same_config d d4 /\ pending d4 = 0%nat /\ skip d4 = sk /\
  buffered d4 = buffered d ++ rest.
Proof.
  intros Hw Hp Hfit Hsk d1 d2.
  assert (wf_dec d1) as Hw1 by (destruct Hw; constructor; cbn; intuition lia).
  assert (wf_dec d2 /\ same_config d d2 /\ pending d2 = 0%nat /\ skip d2 = sk /\
    buffered d2 = buffered d /\ buf_length d2 = buf_length d /\
    (start d2 + buf_length d2 + length rest <= length (storage d2))%nat)
    as (Hw2 & [Hc2 Hr2] & Hp2 & Hs2 & Hb2 & Hn2 & Hroom).
  { unfold d2. case_decide as Hc.
    - destruct (compact_spec d1 Hw1 Hp) as (? & Hst & Hbu & [Hle Hre] & Hsk' & Hpe & Hbl).
      split_and!; try done. rewrite Hst, Hbl, Hle. destruct Hw. cbn in *. lia.
    - split_and!; try done. cbn in *. lia. }
  cbv zeta. assert (Hst : length (splice (storage d2) (start d2 + buf_length d2) rest) =
    length (storage d2)) by (by apply length_splice).
  split_and!; try done.
  - destruct Hw2. constructor; cbn; rewrite ?Hst; try lia.
    intros Hz. rewrite Hs2 in Hz. destruct (Hsk Hz) as [? ->]. cbn. lia.
  - split; [cbn; congruence|done].
  - unfold buffered at 1. cbn. rewrite window_append by done. by rewrite <-Hb2.
Qed.

Lemma push_slice_sim d input : wf_dec d ->
  reached d (apush (capacity d) (reserved_cobs d) (abs d) input).1 (push_slice d input).1 /\
  (apush (capacity d) (reserved_cobs d) (abs d) input).2 = (push_slice d input).2.
Proof.
  intros Hw. unfold push_slice, apush, abs, capacity.
  destruct (commit_spec d Hw) as (Hwc & Hpc & Hbc & Hsc & Hkc & Hrc).
  set (dc := commit_pending d) in *. rewrite <-Hbc, <-Hkc, <-Hsc, <-Hrc.
  assert (reached d (buffered dc, skip dc) dc) as Hreach.
  { split_and!; [done|split; congruence|]. unfold abs. by rewrite Hpc, drop_0. }
  rewrite (length_buffered dc Hwc).
  set (skipped := Nat.min (skip dc) (length input)). set (rest := drop skipped input).
  case_decide as Hfit; [done|].
  destruct (buffer_input dc rest (skip dc - skipped)) as (W & C & P & K & B); [done|done|lia| |].
  { intros Hz. split; [destruct Hwc; lia|]. unfold rest. rewrite drop_ge; [done|]. unfold skipped. lia. }
  cbv zeta in *. set (d4 := set_window _ _ _) in *.
  assert (forall s, reached d4 s (try_decode d4).1 -> reached d s (try_decode d4).1) as Htrans.
  { intros s (? & [? ?] & ?). destruct C. split_and!; [done|split; congruence|done]. }
  destruct (decide (skip dc - skipped = 0)%nat) as [Hz|Hz].
  - rewrite Hz in *. destruct (try_decode_refines d4 W P K) as (s & Hr & E).
    unfold capacity in E. destruct C as [C1 C2]. rewrite C1, C2, B in E. rewrite E.
    apply Htrans in Hr. destruct (try_decode d4) as [d5 ev]. destruct s as [b' sk'].
    cbn [fst snd] in *. split; [exact Hr|]. by destruct ev.
  - assert (buffered d4 = []) as Bnil.
    { rewrite B. assert (rest = []) as -> by (unfold rest; apply drop_ge; unfold skipped; lia).
      rewrite app_nil_r. apply length_zero_iff_nil. rewrite length_buffered by done.
      destruct Hwc. apply wf_skip0. lia. }
    rewrite <-B. unfold try_decode. rewrite Bnil. cbn [adecode fst snd]. split; [|done].
    apply same_reached in W; [|done]. rewrite Bnil, K in W. rewrite Nat.add_0_r.
    destruct W as (? & [? ?] & ?), C. split_and!; [done|split; congruence|done].
Qed.

(** ** Draining: every event of the buffered octets *)

Definition frames_of (ev : DecodeEvent) : list Frame :=
  match ev with EvFrame f _ => [f] | _ => [] end.

(** Decode until more octets are needed; the frames in order, and the state. *)
Fixpoint adrain_fuel (fuel cap : nat) (rc : bool) (b : bytes) : list Frame * AState :=
  match fuel with
  | O => ([], (b, 0%nat))
  | S fuel =>
      match adecode cap rc b with
      | (s, EvNeedMore) => ([], s)
      | ((b', sk), ev) =>
          let '(fs, s) := if decide (sk = 0)%nat then adrain_fuel fuel cap rc b'
                          else ([], (b', sk)) in
          (frames_of ev ++ fs, s)
      end
  end.
Definition adrain (cap : nat) (rc : bool) (b : bytes) : list Frame * AState :=
  adrain_fuel (S (length b)) cap rc b.

(** Take [input] in, then drain. *)
Definition afeed (cap : nat) (rc : bool) (s : AState) (input : bytes) : list Frame * AState :=
  let '(b, sk) := s in
  let '(fs, (b', sk')) := adrain cap rc (b ++ drop sk input) in
  (fs, (b', (sk - length input + sk')%nat)).

Lemma wire_length_pos n : (DATA_OFFSET <= wire_length n)%nat.
Proof. unfold wire_length. case_decide; lia. Qed.

Lemma refusal_pos cap b e k e' : refusal cap b e = Some (k, e') -> (0 < k)%nat.
Proof.
  assert (0 < DATA_OFFSET)%nat by (unfold DATA_OFFSET; cbn; lia).
  pose proof wire_length_pos as Hw.
  destruct e; cbn [refusal]; try case_decide; intros [= <- _]; try lia;
    match goal with |- context [wire_length ?n] => specialize (Hw n); lia end.
Qed.

Lemma icheck_ok cap b rc valid : icheck cap b rc = Ok valid ->
  check_frame b rc = Ok valid /\ (valid_consumed valid <= cap)%nat.
Proof.
  unfold icheck. case_decide; [done|]. destruct (check_header b rc) eqn:E; cbn [rbind]; [|done].
  case_decide; [done|]. intros H1. split; [done|]. unfold check_frame in H1. rewrite E in H1.
  cbn [rbind] in H1. case_decide; [done|]. destruct (if is_cobs _ then _ else _); [|done].
  injection H1 as <-. cbn. lia.
Qed.

(** Every event but [NeedMore] consumes octets. *)
Lemma adecode_progress cap rc b b' sk ev : adecode cap rc b = ((b', sk), ev) ->
  ev <> EvNeedMore -> (length b' < length b)%nat /\ (sk <> 0%nat -> b' = []).
Proof.
  unfold adecode. destruct b as [|x l]; [by intros [= <- <- <-]|]. set (b := x :: l).
  assert (length b = S (length l)) as Hlen by done.
  destruct (may_start b); cbn [negb]; [destruct (icheck cap b rc) as [valid|e] eqn:E|].
  - intros [= <- <- <-] _. apply icheck_ok in E as [E%check_frame_consumed _].
    rewrite length_drop. change DATA_OFFSET with 8%nat in E. split; [lia|done].
  - destruct (refusal cap b e) as [[k e']|] eqn:Er; intros [= <- <- <-]; [|done]. intros _.
    apply refusal_pos in Er. rewrite length_drop. split; [lia|]. intros Hk. apply drop_ge. cbn [length] in *. lia.
  - intros [= <- <- <-] _. rewrite length_drop. unfold noise_length. split; [lia|done].
Qed.

Lemma adrain_fuel_eq cap rc f1 : forall f2 b, (length b < f1)%nat -> (length b < f2)%nat ->
  adrain_fuel f1 cap rc b = adrain_fuel f2 cap rc b.
Proof.
  induction f1 as [|f1 IH]; intros [|f2] b H1 H2; try lia. cbn [adrain_fuel].
  destruct (adecode cap rc b) as [[b' sk] ev] eqn:E.
  destruct (decide (ev = EvNeedMore)) as [->|Hne]; [done|].
  destruct (adecode_progress _ _ _ _ _ _ E Hne) as [Hl _].
  destruct ev; try done; case_decide; try done; rewrite (IH f2) by lia; done.
Qed.

(** The equation of [adrain], its fuel out of the way. *)
Lemma adrain_unfold cap rc b :
  adrain cap rc b =
    let '((b', sk), ev) := adecode cap rc b in
    if decide (ev = EvNeedMore) then ([], (b', sk)) else
    let '(fs, s) := if decide (sk = 0)%nat then adrain cap rc b' else ([], (b', sk)) in
    (frames_of ev ++ fs, s).
Proof.
  unfold adrain at 1. cbn [adrain_fuel].
  destruct (adecode cap rc b) as [[b' sk] ev] eqn:E.
  destruct (decide (ev = EvNeedMore)) as [->|Hne]; [done|].
  destruct (adecode_progress _ _ _ _ _ _ E Hne) as [Hl _].
  unfold adrain. rewrite (adrain_fuel_eq cap rc (length b) (S (length b'))) by lia.
  by destruct ev.
Qed.

Lemma adrain_nil cap rc : adrain cap rc [] = ([], ([], 0%nat)).
Proof. done. Qed.

(** ** More input never changes a verdict *)

Lemma check_header_app b c rc : (DATA_OFFSET <= length b)%nat ->
  check_header (b ++ c) rc = check_header b rc.
Proof.
  intros Hl. change DATA_OFFSET with 8%nat in Hl.
  destruct b as [|x0 [|x1 [|x2 [|x3 [|x4 [|x5 [|x6 [|x7 b]]]]]]]]; cbn in Hl; try lia.
  done.
Qed.

Lemma check_header_long b rc good : check_header b rc = Ok good -> (DATA_OFFSET <= length b)%nat.
Proof. unfold check_header. case_decide; [done|]. intros _. lia. Qed.

Lemma check_header_error_long b rc e : check_header b rc = Err e ->
  (exists n, e = TooShort DATA_OFFSET n) \/ (DATA_OFFSET <= length b)%nat.
Proof. unfold check_header. case_decide; [intros [= <-]; eauto|]. intros _. right. lia. Qed.

Lemma check_frame_app b c rc good : check_header b rc = Ok good ->
  (wire_length (good_length good) <= length b)%nat ->
  check_frame (b ++ c) rc = check_frame b rc.
Proof.
  intros Hg Hl. unfold check_frame. rewrite check_header_app by (by eapply check_header_long).
  rewrite Hg. cbn [rbind]. rewrite length_app, !decide_False by lia.
  rewrite take_app_le by lia. done.
Qed.

Lemma check_frame_long b rc good r : check_header b rc = Ok good ->
  check_frame b rc = r ->
  (wire_length (good_length good) <= length b)%nat \/
  r = Err (Truncated (good_length good) (length b - DATA_OFFSET)).
Proof.
  intros Hg. unfold check_frame. rewrite Hg. cbn [rbind]. case_decide; [intros <-; auto|].
  intros _. left. lia.
Qed.

Lemma at_app b c i : (i < length b)%nat -> at_ (b ++ c) i = at_ b i.
Proof. intros. unfold at_. by apply app_nth1. Qed.

(** A verdict on [b] that is not to wait stands for [b ++ c]. *)
Lemma icheck_app cap b c rc :
  match icheck cap b rc with
  | Ok valid => icheck cap (b ++ c) rc = Ok valid
  | Err e => match refusal cap b e with
             | None => True
             | Some r => exists e', icheck cap (b ++ c) rc = Err e' /\ refusal cap (b ++ c) e' = Some r
             end
  end.
Proof.
  unfold icheck. case_decide as Hcap.
  { cbn [refusal]. case_decide; [done|]. eexists. split; [done|]. cbn [refusal].
    by rewrite decide_False by done. }
  destruct (check_header b rc) as [good|e] eqn:Eh; cbn [rbind].
  - rewrite check_header_app by (by eapply check_header_long). rewrite Eh. cbn [rbind].
    case_decide as Hw.
    + cbn [refusal]. rewrite decide_False by lia. eexists. split; [done|]. cbn [refusal].
      by rewrite decide_False by lia.
    + destruct (check_frame_long b rc good _ Eh eq_refl) as [Hl|Ht].
      * rewrite (check_frame_app b c rc good) by done.
        destruct (check_frame b rc) as [|e] eqn:Ef; [done|].
        destruct (refusal cap b e) as [r|] eqn:Er; [|done]. exists e. split; [done|].
        rewrite <-Er. destruct e; try done.
        pose proof (check_header_long _ _ _ Eh) as H8. change DATA_OFFSET with 8%nat in H8.
        cbn [refusal]. rewrite !at_app; [done|change LENGTH_INDEX with 5%nat; lia..].
      * rewrite Ht. cbn [refusal]. by rewrite decide_True by lia.
  - destruct (check_header_error_long _ _ _ Eh) as [[n ->]|H8].
    + cbn [refusal]. by rewrite decide_True by lia.
    + rewrite check_header_app, Eh by done. cbn [rbind].
      destruct (refusal cap b e) as [r|] eqn:Er; [|done]. exists e. split; [done|].
      rewrite <-Er. destruct e; try done. change DATA_OFFSET with 8%nat in H8.
      cbn [refusal]. rewrite !at_app; [done|change LENGTH_INDEX with 5%nat; lia..].
Qed.

Lemma check_fields_length l n : check_fields l = Some n -> (n <= length l)%nat.
Proof.
  unfold check_fields. case_decide; [done|]. rewrite !decoded_length_spec.
  set (k := (length l - _)%nat).
  destruct (cobs_decode (take k l)) as [d|] eqn:E; cbn [fmap option_fmap option_map]; [|done].
  destruct (cobs_decode (drop k l)); cbn [fmap option_fmap option_map]; [|done].
  destruct (decode_in_place (drop k l)) as [crc m]. case_match; [|done]. intros [= <-].
  apply cobs_decode_length in E. rewrite length_take in E. lia.
Qed.

Lemma check_frame_data_length b rc valid : check_frame b rc = Ok valid ->
  (DATA_OFFSET + valid_data_length valid <= length b)%nat.
Proof.
  unfold check_frame. destruct (check_header b rc) as [good|]; [|done]. cbn [rbind].
  case_decide as Hl; [done|]. pose proof (wire_length_pos (good_length good)).
  destruct (is_cobs _).
  - destruct (check_fields _) as [n|] eqn:E; [|done]. cbn [rbind ok_or]. intros [= <-]. cbn [valid_data_length].
    apply check_fields_length in E. rewrite length_drop, length_take in E. lia.
  - destruct (bool_decide _ && _); [done|]. cbn [rbind]. intros [= <-]. cbn [valid_data_length].
    unfold wire_length in *. case_decide; lia.
Qed.

Lemma decode_extended_app b c rc valid : check_frame b rc = Ok valid ->
  frame_data (decode_extended_in_place (b ++ c) valid) (valid_data_length valid) =
  frame_data (decode_extended_in_place b valid) (valid_data_length valid).
Proof.
  intros H. pose proof (check_frame_consumed _ _ _ H) as Hc.
  pose proof (check_frame_data_length _ _ _ H) as Hn.
  assert (decode_extended_in_place (b ++ c) valid = decode_extended_in_place b valid ++ c) as ->.
  { unfold decode_extended_in_place. destruct (is_cobs _); [|done].
    rewrite !take_app_le, drop_app_le by lia. destruct (decode_data_in_place _).
    by rewrite <-!app_assoc. }
  destruct (decode_extended_frame _ _ _ H) as [L _]. unfold frame_data.
  rewrite drop_app_le by lia. rewrite take_app_le; [done|]. rewrite length_drop. lia.
Qed.

(** Noise before the next 0x55 does not matter. *)
Lemma next_preamble_app b c : next_preamble b = length b ->
  next_preamble (b ++ c) = (length b + next_preamble c)%nat.
Proof.
  induction b as [|x b IH]; cbn; [done|]. destruct (x =? 85); [done|]. intros [= E].
  by rewrite IH.
Qed.

Lemma next_preamble_stop b c : (next_preamble b < length b)%nat ->
  next_preamble (b ++ c) = next_preamble b.
Proof.
  induction b as [|x b IH]; cbn; [lia|]. destruct (x =? 85); [done|]. intros. rewrite IH by lia. done.
Qed.

Lemma next_preamble_le b : (next_preamble b <= length b)%nat.
Proof. induction b as [|x b IH]; cbn; [lia|]. destruct (x =? 85); lia. Qed.

Lemma adrain_noise cap rc c : adrain cap rc (drop (next_preamble c) c) = adrain cap rc c.
Proof.
  destruct c as [|x c]; [done|]. cbn [next_preamble]. destruct (x =? 85) eqn:Ex; [done|].
  rewrite (adrain_unfold cap rc (x :: c)). unfold adecode.
  assert (may_start (x :: c) = false) as ->
    by (unfold may_start, at_; cbn [nth]; by rewrite Ex).
  cbn [negb]. rewrite decide_False by done. cbn [frames_of].
  rewrite decide_True by done. unfold noise_length. cbn [drop]. rewrite drop_0.
  by destruct (adrain cap rc (drop (next_preamble c) c)).
Qed.

Lemma may_start_app b c : b <> [] -> may_start b = false -> may_start (b ++ c) = false.
Proof.
  destruct b as [|x [|y b]]; [done|intros _..]; unfold may_start, at_; cbn; [|done].
  rewrite andb_true_r. by intros ->.
Qed.

Lemma may_start_app_long b c : (2 <= length b)%nat -> may_start (b ++ c) = may_start b.
Proof. destruct b as [|x [|y b]]; cbn; [lia..|done]. Qed.

(** Draining in two steps. *)
Definition then_feed (cap : nat) (rc : bool) (r : list Frame * AState) (c : bytes)
  : list Frame * AState :=
  let '(fs, s) := r in let '(fs', s') := afeed cap rc s c in (fs ++ fs', s').

Lemma then_feed_cons cap rc f r c : then_feed cap rc (f ++ r.1, r.2) c =
  (f ++ (then_feed cap rc r c).1, (then_feed cap rc r c).2).
Proof.
  destruct r as [fs s]. cbn. destruct (afeed cap rc s c). cbn. by rewrite app_assoc.
Qed.

Lemma afeed_start cap rc b c : afeed cap rc (b, 0%nat) c = adrain cap rc (b ++ c).
Proof. unfold afeed. rewrite drop_0. by destruct (adrain cap rc (b ++ c)) as [? [? ?]]. Qed.

(** The state after a decode that goes on, continued with [c]. *)
Lemma adrain_continue cap rc b' k : forall b c ev, b' = drop k b ->
  (k <= length b -> then_feed cap rc (adrain cap rc b') c = adrain cap rc (b' ++ c))%nat ->
  then_feed cap rc
    (let '(fs, s) := if decide (k - length b = 0)%nat then adrain cap rc b'
                     else ([], (b', k - length b)%nat) in (frames_of ev ++ fs, s)) c =
  let '(fs, s) := if decide (k - length (b ++ c) = 0)%nat then adrain cap rc (drop k (b ++ c))
                  else ([], (drop k (b ++ c), k - length (b ++ c))%nat) in
  (frames_of ev ++ fs, s).
Proof.
  intros b c ev -> IH. rewrite length_app. destruct (decide (k - length b = 0)%nat) as [Hk|Hk].
  - rewrite decide_True by lia. rewrite drop_app_le by lia. rewrite <-IH by lia.
    destruct (adrain cap rc (drop k b)) as [fs s].
    pose proof (then_feed_cons cap rc (frames_of ev) (fs, s) c) as E. cbn [fst snd] in E.
    rewrite E. by destruct (then_feed cap rc (fs, s) c).
  - rewrite (drop_ge b) by lia.
    rewrite (drop_app_ge b c) by lia. cbn [then_feed afeed app]. rewrite app_nil_r.
    case_decide as Hd.
    + destruct (adrain cap rc (drop (k - length b) c)) as [fs [b2 sk2]].
      do 2 f_equal. lia.
    + rewrite (drop_ge c) by lia. cbn. do 3 f_equal. lia.
Qed.

Lemma adecode_eq cap rc b : b <> [] ->
  adecode cap rc b =
    if negb (may_start b) then
      ((drop (noise_length b) b, 0%nat), EvInvalid (noise_length b))
    else match icheck cap b rc with
    | Ok valid =>
        ((drop (valid_consumed valid) b, 0%nat),
         EvFrame {| header := valid_header valid;
                    data := frame_data (decode_extended_in_place b valid)
                              (valid_data_length valid) |}
           (valid_consumed valid))
    | Err e =>
        match refusal cap b e with
        | None => ((b, 0%nat), EvNeedMore)
        | Some (k, e') => ((drop k b, (k - length b)%nat), EvMalformed k e' (error_destination e b))
        end
    end.
Proof. by destruct b. Qed.

(** A decode of [b] that goes on is a decode of [b ++ c] that goes on, with the
    same frames, or noise that runs into [c]. *)
Lemma adecode_app cap rc b c b' sk ev : b <> [] -> adecode cap rc b = ((b', sk), ev) ->
  ev <> EvNeedMore ->
  (exists k ev', b' = drop k b /\ sk = (k - length b)%nat /\ (0 < k)%nat /\
     ev' <> EvNeedMore /\ frames_of ev' = frames_of ev /\
     adecode cap rc (b ++ c) = ((drop k (b ++ c), (k - length (b ++ c))%nat), ev')) \/
  (b' = [] /\ sk = 0%nat /\ frames_of ev = [] /\ exists ev', ev' <> EvNeedMore /\
     frames_of ev' = [] /\ adecode cap rc (b ++ c) = ((drop (next_preamble c) c, 0%nat), ev')).
Proof.
  intros Hb. assert (b ++ c <> []) as Hbc by (by destruct b).
  assert (0 < length b)%nat as Hpos by (destruct b; [done|cbn; lia]).
  rewrite !adecode_eq by done. destruct (may_start b) eqn:Em; cbn [negb].
  - pose proof (icheck_app cap b c rc) as Happ.
    destruct (icheck cap b rc) as [valid|e] eqn:Ei.
    + intros [= <- <- <-] _. left. destruct (icheck_ok _ _ _ _ Ei) as [Ef _].
      pose proof (check_frame_consumed _ _ _ Ef) as Hc. change DATA_OFFSET with 8%nat in Hc.
      rewrite may_start_app_long, Em, Happ by lia. cbn [negb].
      rewrite (decode_extended_app _ c _ _ Ef). eexists (valid_consumed valid), _.
      split_and!; [done|lia|lia| | |rewrite length_app; f_equal; f_equal; lia]; done.
    + destruct (refusal cap b e) as [[k e']|] eqn:Er; intros [= <- <- <-]; [|done]. intros _.
      destruct Happ as (e2 & Ei2 & Er2). pose proof (refusal_pos _ _ _ _ _ Er).
      destruct (may_start (b ++ c)) eqn:Em2; cbn [negb].
      * left. rewrite Ei2, Er2. eexists k, _. split_and!; [done..| | |reflexivity]; done.
      * destruct b as [|x [|y b]]; [done| |by rewrite may_start_app_long, Em in Em2 by (cbn; lia)].
        right. rewrite drop_ge by (cbn in *; lia). unfold noise_length. cbn [app drop].
        rewrite drop_0. split_and!; try done.
        -- unfold icheck in Ei. case_decide; injection Ei as <-; cbn [refusal] in Er;
             case_decide; try done; injection Er as <- <-; done.
        -- eexists. split_and!; [| |reflexivity]; done.
  - intros [= <- <- <-] _. rewrite (may_start_app b c) by done. cbn [negb].
    unfold noise_length. destruct b as [|x l]; [done|]. cbn [app drop]. rewrite !drop_0.
    pose proof (next_preamble_le l). destruct (decide (next_preamble l = length l)) as [Hn|Hn].
    + right. rewrite next_preamble_app by done. rewrite Hn, drop_all. split_and!; try done.
      eexists. split_and!; [| |do 2 f_equal]; try done.
      rewrite <-drop_drop, drop_app_length. done.
    + left. rewrite next_preamble_stop by lia. eexists (S (next_preamble l)), _.
      split_and!; [done|cbn; lia|lia| | |cbn [length drop]; rewrite length_app;
        f_equal; f_equal; lia]; done.
Qed.

(** Draining a stream at once, or a first part and then the rest, gives the
    same frames and leaves the same state. *)
Lemma adrain_app cap rc b c :
  then_feed cap rc (adrain cap rc b) c = adrain cap rc (b ++ c).
Proof.
  induction b as [b IH] using (induction_ltof1 _ (@length Z)). unfold ltof in IH.
  destruct (decide (b = [])) as [->|Hb].
  { rewrite adrain_nil. cbn [then_feed]. rewrite afeed_start. by destruct (adrain cap rc _). }
  rewrite (adrain_unfold cap rc b). destruct (adecode cap rc b) as [[b' sk] ev] eqn:E.
  destruct (decide (ev = EvNeedMore)) as [->|Hne].
  { assert (b' = b /\ sk = 0%nat) as [-> ->].
    { rewrite adecode_eq in E by done. destruct (may_start b); cbn in E; [|done].
      destruct (icheck cap b rc); [done|]. destruct (refusal cap b e) as [[? ?]|]; [done|].
      by injection E as <- <-. }
    cbn [then_feed]. rewrite afeed_start. by destruct (adrain cap rc _). }
  destruct (adecode_app cap rc b c b' sk ev Hb E Hne)
    as [(k & ev' & -> & -> & Hk & Hne' & Hf & E2)|(-> & -> & Hf & ev' & Hne' & Hf' & E2)];
    rewrite (adrain_unfold cap rc (b ++ c)), E2, (decide_False (P := ev' = _)) by done.
  - rewrite Hf. apply (adrain_continue cap rc (drop k b) k b c ev eq_refl).
    intros _. apply IH. rewrite length_drop. destruct b; [done|cbn; lia].
  - rewrite decide_True, adrain_nil, Hf, Hf', decide_True by done.
    cbn [then_feed app]. rewrite afeed_start, adrain_noise. done.
Qed.

Lemma afeed_app cap rc s a b : (s.2 <> 0%nat -> s.1 = []) ->
  then_feed cap rc (afeed cap rc s a) b = afeed cap rc s (a ++ b).
Proof.
  destruct s as [x sk]. cbn [fst snd]. intros Hs.
  destruct (decide (sk <= length a)%nat) as [Hle|Hgt].
  - assert (forall l, (length a <= length l)%nat -> afeed cap rc (x, sk) l =
      adrain cap rc (x ++ drop sk l)) as Hfeed.
    { intros l Hl. unfold afeed. replace (sk - length l)%nat with 0%nat by lia.
      by destruct (adrain cap rc _) as [? [? ?]]. }
    rewrite !Hfeed by (rewrite ?length_app; lia).
    rewrite drop_app_le by lia. rewrite app_assoc. apply adrain_app.
  - rewrite (Hs ltac:(lia)). unfold afeed at 1 2. rewrite drop_ge by lia.
    rewrite drop_app_ge, length_app by lia. cbn [app]. rewrite adrain_nil. cbn [then_feed].
    rewrite Nat.add_0_r. unfold afeed. cbn [app].
    replace (sk - length a - length b)%nat with (sk - (length a + length b))%nat by lia.
    by destruct (adrain cap rc _) as [? [? ?]].
Qed.

Lemma adecode_skip cap rc b b' sk ev : adecode cap rc b = ((b', sk), ev) ->
  sk <> 0%nat -> b' = [].
Proof.
  intros E Hs. destruct (decide (ev = EvNeedMore)) as [->|Hne];
    [|by apply (adecode_progress _ _ _ _ _ _ E Hne)].
  destruct b as [|x l]; [by injection E as <- <-|]. rewrite adecode_eq in E by done.
  destruct (may_start _); cbn [negb] in E; [|done].
  destruct (icheck _ _ _); [done|]. destruct (refusal _ _ _) as [[? ?]|]; [done|].
  by injection E as <- <-.
Qed.

(** ** The concrete decoder, drained after every push *)

(** Push [input] and then empty slices until [NeedMore], as the type's
    documentation says; [None] when the push was refused for lack of room. *)
Fixpoint drain_push (fuel : nat) (d : StreamDecoder) (input : bytes)
  : option (list Frame * StreamDecoder) :=
  match fuel with
  | O => None
  | S fuel =>
      match push_slice d input with
      | (d, EvNeedMore) => Some ([], d)
      | (d, EvError _) => None
      | (d, ev) => '(fs, d) ← drain_push fuel d []; Some (frames_of ev ++ fs, d)
      end
  end.
(** Receive slices one after the other. *)
Fixpoint receive (d : StreamDecoder) (chunks : list bytes) : option (list Frame * StreamDecoder) :=
  match chunks with
  | [] => Some ([], d)
  | c :: chunks =>
      '(fs, d) ← drain_push (S (capacity d)) d c;
      '(fs', d) ← receive d chunks;
      Some (fs ++ fs', d)
  end.

(** The octets that must be stored fit. *)
Definition fits (d : StreamDecoder) (input : bytes) : Prop :=
  (length (drop (skip d) input) <= capacity d - length (abs d).1)%nat.
#[global] Instance fits_dec d input : Decision (fits d input).
Proof. unfold fits. apply _. Defined.

Lemma apush_fits cap rc b sk input : (sk <> 0%nat -> b = []) ->
  (length (drop sk input) <= cap - length b)%nat ->
  apush cap rc (b, sk) input =
    let '((b', sk'), ev) := adecode cap rc (b ++ drop sk input) in
    ((b', (sk - length input + sk')%nat), ev).
Proof.
  intros Hs Hf. unfold apush.
  assert (drop (Nat.min sk (length input)) input = drop sk input) as ->.
  { destruct (decide (sk <= length input)%nat); [by rewrite Nat.min_l by lia|].
    rewrite Nat.min_r by lia. by rewrite !drop_ge by lia. }
  rewrite decide_False by lia. destruct (adecode cap rc _) as [[b' sk'] ev].
  do 2 f_equal. lia.
Qed.

Lemma wf_abs d : wf_dec d -> (abs d).2 <> 0%nat -> (abs d).1 = [].
Proof.
  intros Hw Hs. cbn in *. destruct Hw. apply length_zero_iff_nil.
  unfold buffered. rewrite length_drop, length_take, length_drop. lia.
Qed.

Lemma adecode_no_error cap rc b e : (adecode cap rc b).2 <> EvError e.
Proof.
  destruct b as [|x l]; [done|]. rewrite adecode_eq by done.
  destruct (may_start _); cbn [negb]; [|done]. destruct (icheck _ _ _); [done|].
  by destruct (refusal _ _ _) as [[? ?]|].
Qed.

Lemma drain_push_spec fuel : forall d input, wf_dec d -> fits d input ->
  (length ((abs d).1 ++ drop (skip d) input) < fuel)%nat ->
  exists fs d', drain_push fuel d input = Some (fs, d') /\ wf_dec d' /\ same_config d d' /\
    afeed (capacity d) (reserved_cobs d) (abs d) input = (fs, abs d').
Proof.
  induction fuel as [|fuel IH]; intros d input Hw Hf Hfuel; [lia|]. cbn [drain_push].
  destruct (push_slice_sim d input Hw) as [Hr He].
  destruct (abs d) as [b sk] eqn:Ea. cbn [fst] in *. unfold afeed.
  assert (sk = skip d) as -> by (by injection Ea).
  assert (skip d <> 0%nat -> b = []) as Hs
    by (pose proof (wf_abs d Hw) as Hz; by rewrite Ea in Hz).
  unfold fits in Hf. rewrite Ea in Hf. cbn [fst] in Hf.
  rewrite apush_fits in Hr, He by done.
  rewrite adrain_unfold.
  pose proof (adecode_no_error (capacity d) (reserved_cobs d) (b ++ drop (skip d) input)) as Hno.
  destruct (adecode _ _ _) as [[b' sk'] ev] eqn:E. cbn [fst snd] in *.
  destruct (push_slice d input) as [d1 ev']. cbn [fst snd] in *. subst ev'.
  destruct Hr as (Hw1 & [Hc1 Hr1] & Ha1).
  destruct (decide (ev = EvNeedMore)) as [->|Hne].
  { exists [], d1. split_and!; try done. by rewrite Ha1. }
  destruct (adecode_progress _ _ _ _ _ _ E Hne) as [Hlt Hnil].
  destruct (IH d1 []) as (fs & d2 & Hd & Hw2 & [Hc2 Hr2] & Hfeed); [done| |rewrite Ha1; cbn; rewrite drop_nil, app_nil_r; lia|].
  { unfold fits. rewrite drop_nil. cbn. lia. }
  exists (frames_of ev ++ fs), d2. unfold capacity in *. rewrite Hc1, Hr1, Ha1 in Hfeed.
  cbn [afeed] in Hfeed. rewrite drop_nil, app_nil_r in Hfeed. cbn [length] in Hfeed.
  split_and!; [|done|split; congruence|].
  - destruct ev; try done; [by rewrite Hd..|]. by destruct (Hno error).
  - case_decide as Hz.
    + subst sk'. destruct (adrain _ _ b') as [fs' [b2 sk2]].
      destruct (abs d2). injection Hfeed as -> -> <-. do 3 f_equal. lia.
    + rewrite (Hnil Hz), adrain_nil in *. destruct (abs d2). injection Hfeed as <- <- <-.
      do 2 f_equal. lia.
Qed.

Lemma drain_push_fits fuel d input r : wf_dec d -> drain_push fuel d input = Some r ->
  fits d input.
Proof.
  intros Hw. destruct fuel as [|fuel]; [done|]. cbn [drain_push].
  destruct (push_slice_sim d input Hw) as [_ He]. intros H.
  destruct (decide (fits d input)) as [|Hno]; [done|]. exfalso.
  assert (exists e, (push_slice d input).2 = EvError e) as [e Hev].
  { rewrite <-He. unfold apush, fits in *. destruct (abs d) as [b sk] eqn:Ea. cbn [fst] in *.
    assert (sk = skip d) as -> by (by injection Ea).
    rewrite decide_True; [by eexists|].
    destruct (decide (skip d <= length input)%nat); [rewrite Nat.min_l by lia; lia|].
    rewrite (drop_ge input (skip d)) in Hno by lia. cbn in Hno. lia. }
  destruct (push_slice d input) as [d1 ev]. cbn in Hev. by subst ev.
Qed.

Lemma drain_push_some d input fs d' : wf_dec d ->
  drain_push (S (capacity d)) d input = Some (fs, d') ->
  wf_dec d' /\ same_config d d' /\
  afeed (capacity d) (reserved_cobs d) (abs d) input = (fs, abs d').
Proof.
  intros Hw H. pose proof (drain_push_fits _ _ _ _ Hw H) as Hf.
  destruct (drain_push_spec (S (capacity d)) d input Hw Hf) as (fs2 & d2 & E & ? & ? & ?).
  - unfold fits, capacity in *. rewrite length_app.
    assert (length (abs d).1 <= length (storage d))%nat; [|lia].
    destruct Hw. cbn. rewrite length_drop. unfold buffered. rewrite length_take, length_drop. lia.
  - rewrite H in E. injection E as <- <-. done.
Qed.

(** Nothing more to report without more input. *)
Definition drained (d : StreamDecoder) : Prop :=
  afeed (capacity d) (reserved_cobs d) (abs d) [] = ([], abs d).

Lemma afeed_drained cap rc s a fs s' : (s.2 <> 0%nat -> s.1 = []) ->
  afeed cap rc s a = (fs, s') -> afeed cap rc s' [] = ([], s').
Proof.
  intros Hs E. pose proof (afeed_app cap rc s a [] Hs) as H. rewrite app_nil_r, E in H.
  cbn [then_feed] in H. destruct (afeed cap rc s' []) as [fs2 s2]. injection H as H ->.
  f_equal. rewrite <-(app_nil_r fs) in H at 2. by apply app_inv_head in H.
Qed.

Lemma drain_push_drained d input fs d' : wf_dec d ->
  drain_push (S (capacity d)) d input = Some (fs, d') -> drained d'.
Proof.
  intros Hw H. destruct (drain_push_some _ _ _ _ Hw H) as (Hw' & [Hc Hr] & Hf).
  unfold drained, capacity in *. rewrite Hc, Hr. eapply afeed_drained, Hf. by apply wf_abs.
Qed.

Lemma receive_spec chunks : forall d fs d', wf_dec d -> drained d ->
  receive d chunks = Some (fs, d') ->
  wf_dec d' /\ same_config d d' /\
  afeed (capacity d) (reserved_cobs d) (abs d) (concat chunks) = (fs, abs d').
Proof.
  induction chunks as [|c chunks IH]; intros d fs d' Hw Hd; cbn [receive].
  - intros [= <- <-]. split_and!; [done..|]. apply Hd.
  - destruct (drain_push _ d c) as [[fs1 d1]|] eqn:E1; [|done]. cbn [mbind option_bind].
    destruct (receive d1 chunks) as [[fs2 d2]|] eqn:E2; [|done]. cbn [mbind option_bind]. intros [= <- <-].
    destruct (drain_push_some _ _ _ _ Hw E1) as (Hw1 & [Hc1 Hr1] & Hf1).
    destruct (IH _ _ _ Hw1 (drain_push_drained _ _ _ _ Hw E1) E2) as (Hw2 & [Hc2 Hr2] & Hf2).
    split_and!; [done|split; congruence|].
    cbn [concat]. rewrite <-afeed_app by (by apply wf_abs). rewrite Hf1. cbn [then_feed].
    unfold capacity in *. rewrite Hc1, Hr1 in Hf2. by rewrite Hf2.
Qed.

(** ** Frames on the line *)

Lemma wire_cons f rest : exists l, wire f ++ rest = 85 :: 255 :: l.
Proof. by eexists. Qed.

Lemma adecode_wire cap rc f n rest : wf_frame f -> checked_length f = Ok n ->
  (length (wire f) <= cap)%nat ->
  adecode cap rc (wire f ++ rest) = ((rest, 0%nat), EvFrame f (length (wire f))).
Proof.
  intros Hw Hc Hcap. pose proof (checked_length_passes _ _ rc Hc) as Hp.
  pose proof (check_frame_wire f rest rc Hw Hp) as Hf.
  destruct (decode_extended_wire f rest (length (data f)) Hw) as (_ & _ & _ & Hd & _).
  rewrite adecode_eq by (by destruct (wire_cons f rest) as [l ->]).
  assert (may_start (wire f ++ rest) = true) as ->
    by (by destruct (wire_cons f rest) as [l ->]).
  assert (icheck cap (wire f ++ rest) rc = check_frame (wire f ++ rest) rc) as ->.
  { pose proof (length_wire f) as Hl. pose proof (wire_length_pos (length_field f)).
    unfold icheck. rewrite decide_False by lia.
    pose proof (header_passes_bound _ _ _ _ Hp) as (_ & Hb & _).
    unfold wire at 1. rewrite <-app_assoc, check_header_head, Hp
      by (unfold MAX_COBS_LENGTH in Hb; lia).
    cbn [rbind good_length]. by rewrite decide_False by lia. }
  rewrite Hf. cbn [negb valid_consumed valid_header valid_data_length].
  rewrite drop_app_length, Hd. by destruct f.
Qed.

(** Frames the encoder accepts and the storage can hold. *)
Definition deliverable (cap : nat) (f : Frame) : Prop :=
  wf_frame f /\ (exists n, checked_length f = Ok n) /\ (length (wire f) <= cap)%nat.

Lemma adrain_wires cap rc fs : Forall (deliverable cap) fs ->
  adrain cap rc (concat (map wire fs)) = (fs, ([], 0%nat)).
Proof.
  induction 1 as [|f fs (Hw & [n Hc] & Hl) _ IH]; [done|]. cbn [map concat].
  rewrite adrain_unfold, (adecode_wire cap rc f n) by done.
  rewrite decide_False, decide_True, IH by done. done.
Qed.

(** A drained decoder has room for one more octet. *)
Lemma adecode_waits cap rc b s : (0 < cap)%nat -> adecode cap rc b = (s, EvNeedMore) ->
  (length s.1 < cap)%nat.
Proof.
  intros Hcap. destruct b as [|x l]; [intros [= <-]; done|]. rewrite adecode_eq by done.
  set (b := x :: l). destruct (may_start b); cbn [negb]; [|done].
  destruct (icheck cap b rc) as [|e] eqn:E; [done|].
  destruct (refusal cap b e) as [[? ?]|] eqn:Er; [done|]. intros [= <-]. cbn [fst].
  unfold icheck in E. case_decide as H8.
  { injection E as <-. cbn [refusal] in Er. case_decide; [lia|done]. }
  destruct (check_header b rc) as [good|e'] eqn:Eh; cbn [rbind] in E.
  - case_decide as Hw.
    { injection E as <-. cbn [refusal] in Er. case_decide; [lia|done]. }
    unfold check_frame in E. rewrite Eh in E. cbn [rbind] in E. case_decide as Hl; [lia|].
    destruct (is_cobs _); [destruct (check_fields _); [done|]|destruct (bool_decide _ && _); [|done]];
      injection E as <-; done.
  - injection E as ->. unfold check_header in Eh. case_decide; [lia|].
    destruct (negb _); [injection Eh as <-; done|]. destruct (negb _); [injection Eh as <-; done|].
    destruct (check_header_fields _ _ _) as [|e2] eqn:Ef; [done|].
    assert (e2 = e) as ->.
    { destruct e2; try (injection Eh as <-; done). destruct rc; [done|by injection Eh]. }
    unfold check_header_fields in Ef. repeat case_match; try done; injection Ef as <-; done.
Qed.

Lemma adrain_room cap rc b : (0 < cap)%nat -> (length (adrain cap rc b).2.1 < cap)%nat.
Proof.
  intros Hcap. induction b as [b IH] using (induction_ltof1 _ (@length Z)). unfold ltof in IH.
  rewrite adrain_unfold. destruct (adecode cap rc b) as [[b' sk] ev] eqn:E.
  destruct (decide (ev = EvNeedMore)) as [->|Hne]; [by apply adecode_waits in E|].
  destruct (adecode_progress _ _ _ _ _ _ E Hne) as [Hlt Hnil]. case_decide as Hz.
  - specialize (IH b' Hlt). by destruct (adrain cap rc b').
  - cbn. rewrite (Hnil Hz). done.
Qed.

Lemma afeed_room cap rc s a : (0 < cap)%nat -> (length (afeed cap rc s a).2.1 < cap)%nat.
Proof.
  intros Hcap. destruct s as [b sk]. unfold afeed.
  pose proof (adrain_room cap rc (b ++ drop sk a) Hcap) as H.
  by destruct (adrain _ _ _) as [? [? ?]].
Qed.

Lemma concat_singletons (l : bytes) : concat (map (fun x => [x]) l) = l.
Proof. induction l as [|x l IH]; cbn; [done|]. by rewrite IH. Qed.

(** One octet at a time always fits. *)
Lemma receive_octets l : forall d, wf_dec d -> (length (abs d).1 < capacity d)%nat ->
  exists r, receive d (map (fun x => [x]) l) = Some r.
Proof.
  induction l as [|x l IH]; intros d Hw Hroom; [by eexists|]. cbn [map receive].
  assert (fits d [x]) as Hf by (unfold fits; rewrite length_drop; cbn [length]; lia).
  destruct (drain_push_spec (S (capacity d)) d [x] Hw Hf) as (fs & d1 & E & Hw1 & [Hc Hr] & Hfeed).
  { unfold fits in Hf. rewrite length_app. lia. }
  rewrite E. cbn [mbind option_bind].
  destruct (IH d1 Hw1) as [[fs' d2] E2]; [|rewrite E2; cbn; by eexists].
  pose proof (afeed_room (capacity d) (reserved_cobs d) (abs d) [x]) as Hs.
  rewrite Hfeed in Hs. cbn [snd] in Hs. unfold capacity in *. lia.
Qed.

(** A Token, for the examples. *)
Definition token_frame (d s : Z) : Frame :=
  {| header := {| frame_type := TOKEN; destination := d; source := s |}; data := [] |}.

Lemma token_deliverable cap d s : is_u8 d -> is_u8 s -> s <> 255 -> (8 <= cap)%nat ->
  deliverable cap (token_frame d s).
Proof.
  intros Hd Hs Hne Hc. split_and!; [split; [split_and!; cbn; unfold TOKEN; width|constructor]| |exact Hc].
  exists 0%nat. assert (E : check_header_fields TOKEN s 0 = Ok tt).
  { apply check_header_fields_ok. split; [done|]. right.
    split; [done|unfold MAX_STANDARD_MPDU_DATA; lia]. }
  exact (f_equal (fun r => rbind r (fun _ => Ok 0%nat)) E).
Qed.

(** ** Correctness *)

Lemma stream_new_ok st : wf_dec (stream_new st) /\ drained (stream_new st) /\
  abs (stream_new st) = ([], 0%nat).
Proof. split_and!; [constructor; cbn; lia|done..]. Qed.

(** The decoders a caller can get: a new one, in either mode, and whatever the
    operations make of it. *)
Inductive reachable (st : bytes) : StreamDecoder -> Prop :=
| reach_new : reachable st (stream_new st)
| reach_reserved d : reachable st d -> reachable st (with_reserved_cobs d)
| reach_push d input : reachable st d -> reachable st (push_slice d input).1
| reach_reset d : reachable st d -> reachable st (stream_reset d).

(** Whatever is pushed, in whatever order, the decoder keeps
    its documented invariants: the window stays inside the storage and returns to
    its front when empty, a pending frame is buffered, nothing is buffered while
    a dropped frame is skipped by count; and the storage keeps its size. *)
Theorem stream_reachable_wf st d : reachable st d ->
  wf_dec d /\ capacity d = length st.
Proof.
  unfold capacity. induction 1 as [|d _ [IH Hl]|d input _ [IH Hl]|d _ [IH Hl]].
  - split; [apply stream_new_ok|done].
  - split; [destruct IH; constructor; cbn; lia|done].
  - destruct (push_slice_sim d input IH) as [(? & [? _] & _) _]. split; [done|congruence].
  - split; [constructor; cbn; lia|done].
Qed.
Lemma stream_reachable_wf_witness :
  wf_dec (push_slice (stream_new (replicate 8 0)) [85; 255]).1 /\
  capacity (push_slice (stream_new (replicate 8 0)) [85; 255]).1 = 8%nat.
Proof. apply (stream_reachable_wf (replicate 8 0)). apply reach_push, reach_new. Defined.

(** C3: the window, the piecewise compaction and the in-place
    decoding are invisible: each push gives the event of the abstract decoder,
    which only keeps the octets not yet consumed and the count to skip, and
    leaves its state. *)
Theorem push_slice_refines d input : wf_dec d ->
  let '(d', ev) := push_slice d input in
  apush (capacity d) (reserved_cobs d) (abs d) input = (abs d', ev) /\
  wf_dec d' /\ capacity d' = capacity d /\ reserved_cobs d' = reserved_cobs d.
Proof.
  intros Hw. destruct (push_slice_sim d input Hw) as [(? & [? ?] & Ha) He].
  destruct (push_slice d input) as [d' ev]. cbn [fst snd] in *. split_and!; try done.
  destruct (apush _ _ _ _). cbn in *. by subst.
Qed.
Lemma push_slice_refines_witness :
  let d := (push_slice (stream_new (replicate 9 0)) [1; 2; 3; 85]).1 in
  apush 9 false (abs d) [255; 0; 16; 5; 0; 0; 140] =
    (abs (push_slice d [255; 0; 16; 5; 0; 0; 140]).1,
     (push_slice d [255; 0; 16; 5; 0; 0; 140]).2).
Proof.
  intros d.
  refine (proj1 (push_slice_refines d [255; 0; 16; 5; 0; 0; 140] _)). vm_compute.
  constructor; cbn; lia.
Defined.

(** Frames the encoder accepts and the storage can hold come
    out of the decoder exactly, in order and with nothing left buffered, however
    the line cuts their octets into slices that fit; and one octet at a time
    always fits. *)
Theorem stream_delivers d fs : wf_dec d -> abs d = ([], 0%nat) ->
  Forall (deliverable (capacity d)) fs ->
  (forall chunks out d', concat chunks = concat (map wire fs) ->
     receive d chunks = Some (out, d') -> out = fs /\ abs d' = ([], 0%nat)) /\
  exists d', receive d (map (fun x => [x]) (concat (map wire fs))) = Some (fs, d').
Proof.
  intros Hw Ha Hfs.
  assert (drained d) as Hdr by (unfold drained; by rewrite Ha, afeed_start).
  assert (Hout : forall chunks out d', concat chunks = concat (map wire fs) ->
     receive d chunks = Some (out, d') -> out = fs /\ abs d' = ([], 0%nat)).
  { intros chunks out d' Hc Hr. destruct (receive_spec _ _ _ _ Hw Hdr Hr) as (_ & _ & Hf).
    rewrite Ha, Hc, afeed_start in Hf. cbn [app] in Hf. rewrite adrain_wires in Hf by done.
    destruct (abs d'). by injection Hf as <- <- <-. }
  split; [done|]. destruct fs as [|f fs]; [by exists d|].
  destruct (receive_octets (concat (map wire (f :: fs))) d Hw) as [[out d'] E].
  { rewrite Ha. apply Forall_cons in Hfs as [(_ & _ & Hl) _].
    rewrite length_wire in Hl. pose proof (wire_length_pos (length_field f)).
    change DATA_OFFSET with 8%nat in *. cbn. lia. }
  exists d'. destruct (Hout _ _ _ (concat_singletons _) E) as [-> _]. done.
Qed.
Lemma stream_delivers_witness :
  exists d', receive (stream_new (replicate 16 0))
    (map (fun x => [x]) (concat (map wire [token_frame 1 0; token_frame 2 1]))) =
    Some ([token_frame 1 0; token_frame 2 1], d').
Proof.
  apply (stream_delivers (stream_new (replicate 16 0)) [token_frame 1 0; token_frame 2 1]).
  - constructor; cbn; lia.
  - reflexivity.
  - rewrite !Forall_cons. split_and!; [apply token_deliverable; cbn; width..|done].
Defined.

(** On any octets at all, noise and damaged frames included,
    two ways of cutting them into slices that fit give the same frames and leave
    the decoder with the same octets and the same count to skip. *)
Theorem stream_chunking d chunks1 chunks2 fs1 fs2 d1 d2 : wf_dec d -> drained d ->
  concat chunks1 = concat chunks2 ->
  receive d chunks1 = Some (fs1, d1) -> receive d chunks2 = Some (fs2, d2) ->
  fs1 = fs2 /\ abs d1 = abs d2.
Proof.
  intros Hw Hd Hc H1 H2.
  destruct (receive_spec _ _ _ _ Hw Hd H1) as (_ & _ & E1).
  destruct (receive_spec _ _ _ _ Hw Hd H2) as (_ & _ & E2).
  rewrite Hc, E2 in E1. destruct (abs d1), (abs d2). by injection E1 as -> -> ->.
Qed.
Lemma stream_chunking_witness :
  let d := stream_new (replicate 16 0) in
  let r1 := receive d [[9; 85]; [255; 0; 16; 5; 0; 0; 140]; [85]] in
  let r2 := receive d [[9]; [85; 255; 0; 16]; [5; 0; 0; 140; 85]] in
  fst <$> r1 = fst <$> r2.
Proof.
  intros d r1 r2.
  destruct r1 as [[fs1 d1]|] eqn:E1; [|vm_compute in E1; discriminate E1].
  destruct r2 as [[fs2 d2]|] eqn:E2; [|vm_compute in E2; discriminate E2].
  cbn. f_equal.
  refine (proj1 (stream_chunking d [[9; 85]; [255; 0; 16; 5; 0; 0; 140]; [85]]
    [[9]; [85; 255; 0; 16]; [5; 0; 0; 140; 85]] fs1 fs2 d1 d2 _ _ _ E1 E2)).
  - constructor; cbn; lia.
  - reflexivity.
  - reflexivity.
Defined.

(** A frame whose header passes but whose data fails its check,
    or that is of a reserved COBS type, is skipped whole, so nothing inside it
    comes out as a frame, and the frames after it are delivered. *)
Theorem stream_skips_bad_frame d bad n e fs chunks out d' : wf_dec d -> abs d = ([], 0%nat) ->
  check_frame bad (reserved_cobs d) = Err e ->
  (e = DataCrcMismatch n \/
   exists raw, e = UnsupportedCobsFrame raw /\
     n = Z.to_nat (from_be16 (at_ bad LENGTH_INDEX) (at_ bad (LENGTH_INDEX + 1)))) ->
  length bad = wire_length n -> (length bad <= capacity d)%nat ->
  Forall (deliverable (capacity d)) fs ->
  concat chunks = bad ++ concat (map wire fs) ->
  receive d chunks = Some (out, d') -> out = fs /\ abs d' = ([], 0%nat).
Proof.
  intros Hw Ha Hc He Hn Hcap Hfs Hch Hr.
  assert (drained d) as Hdr by (unfold drained; by rewrite Ha, afeed_start).
  destruct (receive_spec _ _ _ _ Hw Hdr Hr) as (_ & _ & Hf).
  rewrite Ha, Hch, afeed_start in Hf. cbn [app] in Hf.
  assert (adrain (capacity d) (reserved_cobs d) bad = ([], ([], 0%nat))) as Hbad.
  { pose proof (wire_length_pos n). change DATA_OFFSET with 8%nat in *.
    rewrite adrain_unfold, adecode_eq by (destruct bad; [cbn in Hn; lia|done]).
    assert (may_start bad = true) as ->.
    { unfold check_frame, check_header in Hc. case_decide as H8;
        change DATA_OFFSET with 8%nat in H8; [lia|].
      case_bool_decide as Hp; cbn [negb] in Hc; [|cbn in Hc; injection Hc as <-; naive_solver].
      destruct bad as [|x [|y bad]]; cbn [length] in H8; try lia. cbn in Hp. injection Hp as -> ->. done. }
    cbn [negb]. rewrite icheck_fits, Hc by done.
    assert (refusal (capacity d) bad e = Some (wire_length n, e)) as ->
      by (destruct He as [->|(raw & -> & ->)]; done).
    rewrite decide_False, decide_True by (done || lia). rewrite drop_ge by lia. done. }
  rewrite <-adrain_app, Hbad in Hf. cbn [then_feed] in Hf. rewrite afeed_start in Hf.
  cbn [app] in Hf. rewrite adrain_wires in Hf by done.
  destruct (abs d'). by injection Hf as <- <- <-.
Qed.
Lemma stream_skips_bad_frame_witness :
  let bad := head_octets {| frame_type := 6; destination := 1; source := 2 |} 8 ++
             wire (token_frame 1 0) ++ [0; 0] in
  fst <$> receive (stream_new (replicate 40 0))
    [bad ++ concat (map wire [token_frame 7 0])] = Some [token_frame 7 0].
Proof.
  intros bad.
  destruct (receive _ _) as [[out d']|] eqn:E; [|vm_compute in E; discriminate E].
  cbn. f_equal.
  refine (proj1 (stream_skips_bad_frame (stream_new (replicate 40 0)) bad 8 (DataCrcMismatch 8)
    [token_frame 7 0] [bad ++ concat (map wire [token_frame 7 0])] out d' _ _ _ _ _ _ _ _ E)).
  - constructor; cbn; lia.
  - reflexivity.
  - vm_compute. reflexivity.
  - left. reflexivity.
  - reflexivity.
  - cbn. lia.
  - apply Forall_singleton, token_deliverable; cbn; width.
  - cbn [concat]. by rewrite app_nil_r.
Defined.

(** The octets of the stream an event accounts for. *)
Definition event_octets (ev : DecodeEvent) : nat :=
  match ev with
  | EvNeedMore | EvError _ => 0
  | EvFrame _ n | EvInvalid n | EvMalformed n _ _ => n
  end.

Lemma adecode_conserves cap rc b b' sk ev : adecode cap rc b = ((b', sk), ev) ->
  (length b + sk = length b' + event_octets ev)%nat.
Proof.
  destruct (decide (b = [])) as [->|Hb]; [by intros [= <- <- <-]|]. rewrite adecode_eq by done.
  destruct (may_start b); cbn [negb]; [destruct (icheck cap b rc) as [valid|e] eqn:E|].
  - intros [= <- <- <-]. apply icheck_ok in E as [E%check_frame_consumed _].
    rewrite length_drop. cbn [event_octets]. lia.
  - destruct (refusal cap b e) as [[k e']|]; intros [= <- <- <-]; cbn [event_octets]; [|lia].
    rewrite length_drop. lia.
  - intros [= <- <- <-]. rewrite length_drop. unfold noise_length.
    destruct b as [|x l]; [done|]. cbn [drop event_octets length].
    rewrite drop_0. pose proof (next_preamble_le l). lia.
Qed.

(** No octet is lost or counted twice: those buffered before
    a push and those pushed are, after it, either accounted for by the event, or
    still buffered, or were those of a frame being skipped; and an event other
    than NeedMore, without new input, leaves fewer octets buffered, so draining
    ends. *)
Theorem push_slice_conserves d input : wf_dec d ->
  let '(d', ev) := push_slice d input in
  match ev with
  | EvError _ => abs d' = abs d
  | _ => (length (abs d).1 + length input + skip d' =
          length (abs d').1 + skip d + event_octets ev)%nat
  end /\
  (input = [] -> ev <> EvNeedMore -> (length (abs d').1 < length (abs d).1)%nat).
Proof.
  intros Hw. pose proof (wf_abs d Hw) as Hs. destruct (push_slice_sim d input Hw) as [(_ & _ & Ha) He].
  destruct (push_slice d input) as [d' ev]. cbn [fst snd] in Ha, He.
  change (skip d) with (abs d).2. change (skip d') with (abs d').2. rewrite Ha, <-He.
  destruct (decide (fits d input)) as [Hf|Hf]; unfold fits in Hf;
    change (skip d) with (abs d).2 in Hf; destruct (abs d) as [b sk]; cbn [fst snd] in *.
  - rewrite apush_fits by done. destruct (adecode _ _ _) as [[b' sk'] ev'] eqn:E. cbn [fst snd].
    pose proof (adecode_conserves _ _ _ _ _ _ E) as Hc. rewrite length_app, length_drop in Hc.
    pose proof (adecode_no_error (capacity d) (reserved_cobs d) (b ++ drop sk input)) as Hno.
    rewrite E in Hno. split.
    + destruct ev'; try (by destruct (Hno error)); cbn [event_octets] in *; lia.
    + intros -> Hne. destruct (adecode_progress _ _ _ _ _ _ E Hne) as [Hlt _].
      by rewrite drop_nil, app_nil_r in Hlt.
  - unfold apush. rewrite decide_True.
    + split; [done|]. intros ->. rewrite drop_nil in Hf. cbn in Hf. lia.
    + destruct (decide (sk <= length input)%nat); [rewrite Nat.min_l by lia; lia|].
      rewrite (drop_ge input sk) in Hf by lia. cbn in Hf. lia.
Qed.
Lemma push_slice_conserves_witness :
  (length (abs (stream_new (replicate 8 0%Z))).1 + 3 +
   skip (push_slice (stream_new (replicate 8 0%Z)) [1; 2; 85]%Z).1 =
   length (abs (push_slice (stream_new (replicate 8 0%Z)) [1; 2; 85]%Z).1).1 + 0 + 2)%nat.
Proof.
  refine (proj1 (push_slice_conserves (stream_new (replicate 8 0%Z)) [1; 2; 85]%Z _)).
  constructor; cbn; lia.
Defined.
