(* ===== verification/Config.v ===== *)
(** * Configuration of the MS/TP master (crate bacnet-mstp-core, config.rs)

    The Clause 9 constants, the configuration record, its validation and the
    constructors that derive the bit-time values from the baud rate. Durations
    are nanoseconds, as in [Time]. *)

From S2P Require Import Prelude Time Crc Sink Cobs Frame.

(** [DEFAULT_BAUD_RATE] (bacnet-mstp-core/src/config.rs:11-11) *)
Definition DEFAULT_BAUD_RATE : Z := 9600.
(** [N_POLL] (bacnet-mstp-core/src/config.rs:12-14) *)
Definition N_POLL : Z := 50.
(** [N_RETRY_TOKEN] (bacnet-mstp-core/src/config.rs:15-18) *)
Definition N_RETRY_TOKEN : Z := 1.
(** [N_MIN_OCTETS] (bacnet-mstp-core/src/config.rs:19-22) *)
Definition N_MIN_OCTETS : Z := 4.
(** [T_NO_TOKEN] (bacnet-mstp-core/src/config.rs:23-25) *)
Definition T_NO_TOKEN : Duration := duration_from_millis 500.
(** [T_SLOT] (bacnet-mstp-core/src/config.rs:26-28) *)
Definition T_SLOT : Duration := duration_from_millis 10.
(** [MAX_FRAME_ABORT] (bacnet-mstp-core/src/config.rs:29-31) *)
Definition MAX_FRAME_ABORT : Duration := duration_from_millis 100.
(** [MIN_REPLY_TIMEOUT] (bacnet-mstp-core/src/config.rs:32-36) *)
Definition MIN_REPLY_TIMEOUT : Duration := duration_from_millis 255.
(** [MAX_REPLY_TIMEOUT] (bacnet-mstp-core/src/config.rs:37-39) *)
Definition MAX_REPLY_TIMEOUT : Duration := duration_from_millis 300.
(** [MIN_USAGE_TIMEOUT] (bacnet-mstp-core/src/config.rs:40-44) *)
Definition MIN_USAGE_TIMEOUT : Duration := duration_from_millis 20.
(** [MAX_USAGE_TIMEOUT] (bacnet-mstp-core/src/config.rs:45-47) *)
Definition MAX_USAGE_TIMEOUT : Duration := duration_from_millis 35.
(** [MAX_REPLY_DELAY] (bacnet-mstp-core/src/config.rs:48-49) *)
Definition MAX_REPLY_DELAY : Duration := duration_from_millis 250.
(** [MAX_USAGE_DELAY] (bacnet-mstp-core/src/config.rs:50-51) *)
Definition MAX_USAGE_DELAY : Duration := duration_from_millis 15.
(** [DEFAULT_STARVATION_LIMIT] (bacnet-mstp-core/src/config.rs:52-54) *)
Definition DEFAULT_STARVATION_LIMIT : Z := 8.
(** [DEFAULT_REPLY_TRANSMIT_MARGIN] (bacnet-mstp-core/src/config.rs:55-57) *)
Definition DEFAULT_REPLY_TRANSMIT_MARGIN : Duration := duration_from_millis 25.
(** [DEFAULT_TRANSMIT_WATCHDOG] (bacnet-mstp-core/src/config.rs:58-60) *)
Definition DEFAULT_TRANSMIT_WATCHDOG : Duration := duration_from_secs 1.
(** [WATCHDOG_COMPLETION_MARGIN] (bacnet-mstp-core/src/config.rs:61-63) *)
Definition WATCHDOG_COMPLETION_MARGIN : Duration := duration_from_millis 1.
(** [DEFAULT_LATE_DEADLINE] (bacnet-mstp-core/src/config.rs:64-65) *)
Definition DEFAULT_LATE_DEADLINE : Duration := duration_from_millis 1.

(** [CoreBuffer] (bacnet-mstp-core/src/config.rs:319-338) *)
Inductive CoreBuffer := ReceiveStorage | TransmitFrame | DeliverySlotBuffer | QueueSlot.
(** [LocalDurationField] (bacnet-mstp-core/src/config.rs:340-348) *)
Inductive LocalDurationField := QueueMaxAge | TransmitWatchdog.
(** [LocalLimitField] (bacnet-mstp-core/src/config.rs:350-360) *)
Inductive LocalLimitField := BroadcastUnicastRatio | MultipleFrameRatio | StarvationLimit.

(** [ConfigError] (bacnet-mstp-core/src/config.rs:67-222) *)
Inductive ConfigError :=
| ZeroBaudRate
| TimingOverflow
| MaxMasterOutOfRange (value : Z)
| StationExceedsMaxMaster (station max_master : Z)
| MaxInfoFramesOutOfRange (value : Z)
| FrameAbortOutOfRange (value minimum maximum : Duration)
| FrameGapTooLong (value maximum : Duration)
| PostdriveTooLong (value maximum : Duration)
| ReplyDelayTooLong (value maximum : Duration)
| ReplyMarginTooLong (margin reply_delay : Duration)
| ReplyTimeoutOutOfRange (value minimum maximum : Duration)
| TurnaroundTooShort (value minimum : Duration)
| TurnaroundExceedsUsageDelay (turnaround usage_delay : Duration)
| UsageDelayTooLong (value maximum : Duration)
| UsageTimeoutOutOfRange (value minimum maximum : Duration)
| ZeroLocalDuration (field : LocalDurationField)
| ZeroLocalLimit (field : LocalLimitField)
| MultipleFrameRatioOutOfRange (value : Z)
| TransmitWatchdogTooShort (value minimum : Duration)
| ExtendedStorageTooSmall (buffer : CoreBuffer) (len minimum : nat)
| ReceiveStorageTooSmall (len minimum : nat).

(** [MstpCoreConfig] (bacnet-mstp-core/src/config.rs:424-528) *)
Record MstpCoreConfig := {
  station : Z;
  max_master : Z;
  max_info_frames : Z;
  baud_rate : Z;
  t_frame_abort : Duration;
  t_frame_gap : Duration;
  t_postdrive : Duration;
  t_reply_delay : Duration;
  t_reply_timeout : Duration;
  t_turnaround : Duration;
  t_usage_delay : Duration;
  t_usage_timeout : Duration;
  reply_transmit_margin : Duration;
  late_deadline : Duration;
  queue_max_age : Duration;
  broadcast_unicast_ratio : Z;
  multiple_frame_ratio : Z;
  starvation_limit : Z;
  transmit_watchdog : Duration;
  extended_frames : bool
}.
#[export] Instance eta_MstpCoreConfig : Settable MstpCoreConfig := fun r =>
  {| station := station r; max_master := max_master r; max_info_frames := max_info_frames r;
     baud_rate := baud_rate r; t_frame_abort := t_frame_abort r; t_frame_gap := t_frame_gap r;
     t_postdrive := t_postdrive r; t_reply_delay := t_reply_delay r; t_reply_timeout :=
     t_reply_timeout r; t_turnaround := t_turnaround r; t_usage_delay := t_usage_delay r;
     t_usage_timeout := t_usage_timeout r; reply_transmit_margin := reply_transmit_margin r;
     late_deadline := late_deadline r; queue_max_age := queue_max_age r; broadcast_unicast_ratio :=
     broadcast_unicast_ratio r; multiple_frame_ratio := multiple_frame_ratio r; starvation_limit :=
     starvation_limit r; transmit_watchdog := transmit_watchdog r; extended_frames :=
     extended_frames r |}.

(** [u32::div_ceil]. *)
Definition div_ceil (a b : Z) : Z := (a + b - 1) / b.

(** [ceil_bit_times] (bacnet-mstp-core/src/config.rs) *)
Definition ceil_bit_times (baud bits : Z) : option Duration :=
  match chk_mul U32_MAX bits 1000000 with
  | Some numerator =>
      if negb (baud =? 0) then Some (duration_from_micros (div_ceil numerator baud)) else None
  | None => None
  end.
(** [floor_bit_times] (bacnet-mstp-core/src/config.rs) *)
Definition floor_bit_times (baud bits : Z) : option Duration :=
  match chk_mul U32_MAX bits 1000000 with
  | Some numerator =>
      if baud =? 0 then None else Some (duration_from_micros (numerator / baud))
  | None => None
  end.
(** [shorter] (bacnet-mstp-core/src/config.rs) *)
Definition shorter (value bound : Duration) : bool := value <? bound.
(** [longer] (bacnet-mstp-core/src/config.rs) *)
Definition longer (value bound : Duration) : bool := bound <? value.
(** [or_max] (bacnet-mstp-core/src/config.rs) *)
Definition or_max (d : option Duration) : Duration := default DURATION_MAX d.

(** [MstpCoreConfig::octet_time] (bacnet-mstp-core/src/config.rs) *)
Definition octet_time (c : MstpCoreConfig) : Duration := or_max (ceil_bit_times (baud_rate c) 10).
(** [MstpCoreConfig::max_npdu] (bacnet-mstp-core/src/config.rs) *)
Definition config_max_npdu (c : MstpCoreConfig) : nat :=
  if extended_frames c then MAX_EXTENDED_MPDU_DATA else MAX_STANDARD_MPDU_DATA.
(** [MstpCoreConfig::longest_frame_time] (bacnet-mstp-core/src/config.rs) *)
Definition longest_frame_time (c : MstpCoreConfig) : Duration :=
  let octets := if extended_frames c then MAX_EXTENDED_FRAME_LENGTH
                else MAX_STANDARD_FRAME_LENGTH in
  duration_saturating_mul (octet_time c) (Z.of_nat octets).
(** [MstpCoreConfig::minimum_transmit_watchdog] (bacnet-mstp-core/src/config.rs) *)
Definition minimum_transmit_watchdog (c : MstpCoreConfig) : Duration :=
  duration_saturating_add
    (duration_saturating_add (longest_frame_time c) (t_postdrive c))
    WATCHDOG_COMPLETION_MARGIN.

(** [MstpCoreConfig::with_covering_watchdog] (bacnet-mstp-core/src/config.rs) *)
Definition with_covering_watchdog (c : MstpCoreConfig) : MstpCoreConfig :=
  if transmit_watchdog c <? minimum_transmit_watchdog c
  then c <| transmit_watchdog :=
         duration_saturating_add (longest_frame_time c) DEFAULT_TRANSMIT_WATCHDOG |>
  else c.
(** [MstpCoreConfig::with_extended_frames] (bacnet-mstp-core/src/config.rs) *)
Definition with_extended_frames (c : MstpCoreConfig) : MstpCoreConfig :=
  with_covering_watchdog (c <| extended_frames := true |>).

(** [MstpCoreConfig::for_baud_rate_unchecked] (bacnet-mstp-core/src/config.rs) *)
Definition for_baud_rate_unchecked (baud : Z) : MstpCoreConfig :=
  with_covering_watchdog {|
    station := 0;
    max_master := MAX_MASTER;
    max_info_frames := 1;
    baud_rate := baud;
    t_frame_abort := or_max (ceil_bit_times baud 60);
    t_frame_gap := or_max (floor_bit_times baud 20);
    t_postdrive := or_max (floor_bit_times baud 15);
    t_reply_delay := MAX_REPLY_DELAY;
    t_reply_timeout := MIN_REPLY_TIMEOUT;
    t_turnaround := or_max (ceil_bit_times baud 40);
    t_usage_delay := MAX_USAGE_DELAY;
    t_usage_timeout := MIN_USAGE_TIMEOUT;
    reply_transmit_margin := DEFAULT_REPLY_TRANSMIT_MARGIN;
    late_deadline := DEFAULT_LATE_DEADLINE;
    queue_max_age := duration_from_secs 5;
    broadcast_unicast_ratio := 1;
    multiple_frame_ratio := 100;
    starvation_limit := DEFAULT_STARVATION_LIMIT;
    transmit_watchdog := DEFAULT_TRANSMIT_WATCHDOG;
    extended_frames := false |}.

(** [MstpCoreConfig::STANDARD] (bacnet-mstp-core/src/config.rs:538-543) *)
Definition STANDARD : MstpCoreConfig := for_baud_rate_unchecked DEFAULT_BAUD_RATE.

(** [if cond { return Err(error) }]. *)
Definition refuse (cond : bool) (e : ConfigError) : Result unit ConfigError :=
  if cond then Err e else Ok tt.

(** [MstpCoreConfig::validate] (bacnet-mstp-core/src/config.rs) *)
Definition validate (c : MstpCoreConfig) : Result unit ConfigError :=
  let? _ := refuse (baud_rate c =? 0) ZeroBaudRate in
  let? _ := refuse (MAX_MASTER <? max_master c) (MaxMasterOutOfRange (max_master c)) in
  let? _ := refuse (max_master c <? station c)
              (StationExceedsMaxMaster (station c) (max_master c)) in
  let? _ := refuse (max_info_frames c =? 0) (MaxInfoFramesOutOfRange (max_info_frames c)) in
  match ceil_bit_times (baud_rate c) 60, floor_bit_times (baud_rate c) 20,
        floor_bit_times (baud_rate c) 15, ceil_bit_times (baud_rate c) 40 with
  | Some frame_abort_min, Some frame_gap_max, Some postdrive_max, Some turnaround_min =>
      let? _ := refuse (shorter (t_frame_abort c) frame_abort_min ||
                        longer (t_frame_abort c) MAX_FRAME_ABORT)
                  (FrameAbortOutOfRange (t_frame_abort c) frame_abort_min MAX_FRAME_ABORT) in
      let? _ := refuse (longer (t_frame_gap c) frame_gap_max)
                  (FrameGapTooLong (t_frame_gap c) frame_gap_max) in
      let? _ := refuse (longer (t_postdrive c) postdrive_max)
                  (PostdriveTooLong (t_postdrive c) postdrive_max) in
      let? _ := refuse (longer (t_reply_delay c) MAX_REPLY_DELAY)
                  (ReplyDelayTooLong (t_reply_delay c) MAX_REPLY_DELAY) in
      let? _ := refuse (negb (shorter (reply_transmit_margin c) (t_reply_delay c)))
                  (ReplyMarginTooLong (reply_transmit_margin c) (t_reply_delay c)) in
      let? _ := refuse (shorter (t_reply_timeout c) MIN_REPLY_TIMEOUT ||
                        longer (t_reply_timeout c) MAX_REPLY_TIMEOUT)
                  (ReplyTimeoutOutOfRange (t_reply_timeout c) MIN_REPLY_TIMEOUT
                     MAX_REPLY_TIMEOUT) in
      let? _ := refuse (shorter (t_turnaround c) turnaround_min)
                  (TurnaroundTooShort (t_turnaround c) turnaround_min) in
      let? _ := refuse (longer (t_turnaround c) (t_usage_delay c))
                  (TurnaroundExceedsUsageDelay (t_turnaround c) (t_usage_delay c)) in
      let? _ := refuse (longer (t_usage_delay c) MAX_USAGE_DELAY)
                  (UsageDelayTooLong (t_usage_delay c) MAX_USAGE_DELAY) in
      let? _ := refuse (shorter (t_usage_timeout c) MIN_USAGE_TIMEOUT ||
                        longer (t_usage_timeout c) MAX_USAGE_TIMEOUT)
                  (UsageTimeoutOutOfRange (t_usage_timeout c) MIN_USAGE_TIMEOUT
                     MAX_USAGE_TIMEOUT) in
      let? _ := refuse (queue_max_age c =? 0) (ZeroLocalDuration QueueMaxAge) in
      let? _ := refuse (transmit_watchdog c =? 0) (ZeroLocalDuration TransmitWatchdog) in
      let? _ := refuse (shorter (transmit_watchdog c) (minimum_transmit_watchdog c))
                  (TransmitWatchdogTooShort (transmit_watchdog c)
                     (minimum_transmit_watchdog c)) in
      let? _ := refuse (broadcast_unicast_ratio c =? 0) (ZeroLocalLimit BroadcastUnicastRatio) in
      let? _ := refuse (multiple_frame_ratio c =? 0) (ZeroLocalLimit MultipleFrameRatio) in
      let? _ := refuse (100 <? multiple_frame_ratio c)
                  (MultipleFrameRatioOutOfRange (multiple_frame_ratio c)) in
      refuse (starvation_limit c =? 0) (ZeroLocalLimit StarvationLimit)
  | _, _, _, _ => Err TimingOverflow
  end.

(** [MstpCoreConfig::for_baud_rate] (bacnet-mstp-core/src/config.rs) *)
Definition for_baud_rate (baud : Z) : Result MstpCoreConfig ConfigError :=
  if baud =? 0 then Err ZeroBaudRate else
  let config := for_baud_rate_unchecked baud in
  let? _ := validate config in
  Ok config.

Example standard_valid : validate STANDARD = Ok tt /\ octet_time STANDARD = 1042000 /\
  t_turnaround STANDARD = 4167000 /\ validate (with_extended_frames STANDARD) = Ok tt.
Proof. vm_compute. done. Qed.

(** ** What validation accepts *)

(** The bounds of Clause 9.5.3 and the local ones, over a [u32] baud rate: a
    lower bound in bit times is rounded up to a microsecond and an upper one
    down. *)
Record valid_config (c : MstpCoreConfig) : Prop := {
  valid_baud : baud_rate c <> 0;
  valid_addresses : station c <= max_master c <= 127;
  valid_info_frames : max_info_frames c <> 0;
  valid_frame_abort :
    1000 * div_ceil 60000000 (baud_rate c) <= t_frame_abort c <= 100000000;
  valid_frame_gap : t_frame_gap c <= 1000 * (20000000 / baud_rate c);
  valid_postdrive : t_postdrive c <= 1000 * (15000000 / baud_rate c);
  valid_reply_delay : reply_transmit_margin c < t_reply_delay c <= 250000000;
  valid_reply_timeout : 255000000 <= t_reply_timeout c <= 300000000;
  valid_turnaround :
    1000 * div_ceil 40000000 (baud_rate c) <= t_turnaround c <= t_usage_delay c;
  valid_usage_delay : t_usage_delay c <= 15000000;
  valid_usage_timeout : 20000000 <= t_usage_timeout c <= 35000000;
  valid_ages : queue_max_age c <> 0 /\ transmit_watchdog c <> 0;
  valid_watchdog : minimum_transmit_watchdog c <= transmit_watchdog c;
  valid_ratios : broadcast_unicast_ratio c <> 0 /\ multiple_frame_ratio c <> 0 /\
    multiple_frame_ratio c <= 100;
  valid_starvation : starvation_limit c <> 0
}.

Lemma refuse_bind {T} cond e (k : unit -> Result T ConfigError) r :
  rbind (refuse cond e) k = Ok r <-> cond = false /\ k tt = Ok r.
Proof. unfold refuse. destruct cond; simpl; naive_solver. Qed.

Lemma refuse_ok cond e : refuse cond e = Ok tt <-> cond = false.
Proof. unfold refuse. destruct cond; naive_solver. Qed.

Lemma div_ceil_bounds n b : 0 < b -> b * (div_ceil n b - 1) < n <= b * div_ceil n b.
Proof. intros Hb. unfold div_ceil. divmod. Qed.

Lemma div_ceil_range n b : 0 <= n -> 0 < b -> 0 <= div_ceil n b <= n.
Proof. intros. unfold div_ceil. Z.div_mod_to_equations. nia. Qed.

Lemma bit_times_micros x : 0 <= x <= 60000000 -> duration_from_micros x = 1000 * x.
Proof. unfold duration_from_micros, sat_mul, NANOS_PER_MICRO, U64_MAX. lia. Qed.

Lemma ceil_bit_times_eq b bits : 0 < b -> 0 <= bits <= 60 ->
  ceil_bit_times b bits = Some (1000 * div_ceil (bits * 1000000) b).
Proof.
  intros Hb Hbits. unfold ceil_bit_times, chk_mul, U32_MAX.
  rewrite (proj2 (Z.leb_le _ _)) by lia. rewrite (proj2 (Z.eqb_neq b 0)) by lia. simpl.
  pose proof (div_ceil_range (bits * 1000000) b). rewrite bit_times_micros by lia. done.
Qed.

Lemma floor_bit_times_eq b bits : 0 < b -> 0 <= bits <= 60 ->
  floor_bit_times b bits = Some (1000 * (bits * 1000000 / b)).
Proof.
  intros Hb Hbits. unfold floor_bit_times, chk_mul, U32_MAX.
  rewrite (proj2 (Z.leb_le _ _)) by lia. rewrite (proj2 (Z.eqb_neq b 0)) by lia.
  assert (0 <= bits * 1000000 / b <= 60000000) by (Z.div_mod_to_equations; nia).
  rewrite bit_times_micros by lia. done.
Qed.

Lemma validate_iff c : 0 <= baud_rate c -> validate c = Ok tt <-> valid_config c.
Proof.
  intros Hb. unfold validate. rewrite !refuse_bind.
  destruct (decide (baud_rate c = 0)) as [Hz|Hz].
  { split; [intros (?%Z.eqb_neq & _); done|intros []; done]. }
  rewrite !ceil_bit_times_eq, !floor_bit_times_eq by lia.
  change (60 * 1000000) with 60000000. change (20 * 1000000) with 20000000.
  change (15 * 1000000) with 15000000. change (40 * 1000000) with 40000000.
  rewrite !refuse_bind, refuse_ok. unfold shorter, longer.
  change MAX_MASTER with 127. change MAX_FRAME_ABORT with 100000000.
  change MAX_REPLY_DELAY with 250000000. change MIN_REPLY_TIMEOUT with 255000000.
  change MAX_REPLY_TIMEOUT with 300000000. change MAX_USAGE_DELAY with 15000000.
  change MIN_USAGE_TIMEOUT with 20000000. change MAX_USAGE_TIMEOUT with 35000000.
  rewrite !orb_false_iff, !negb_false_iff, !Z.eqb_neq, !Z.ltb_ge, !Z.ltb_lt.
  split.
  - intros. destruct_and!. constructor; lia.
  - intros []. destruct_and!. split_and!; lia.
Qed.

(** ** Correctness *)

(** Validation accepts a configuration exactly when every bound of
    Clause 9.5.3 and every local bound holds, the bit-time bounds included, and
    the transmit watchdog clears the longest frame the configuration sends. *)
Theorem validate_exact c : is_u32 (baud_rate c) ->
  validate c = Ok tt <-> valid_config c.
Proof. intros Hb. apply validate_iff. width. Qed.
Lemma validate_exact_witness : valid_config STANDARD.
Proof. apply (validate_exact STANDARD); [apply (bool_decide_unpack _); vm_compute; exact I|]. vm_compute. reflexivity. Defined.

Lemma octet_time_eq c : 0 < baud_rate c ->
  octet_time c = 1000 * div_ceil 10000000 (baud_rate c).
Proof. intros. unfold octet_time. rewrite ceil_bit_times_eq by lia. done. Qed.

Lemma valid_baud_rate c : 0 <= baud_rate c -> valid_config c -> 2667 <= baud_rate c.
Proof.
  intros Hb [Hz _ _ _ _ _ _ _ Ht Hu _ _ _ _ _].
  pose proof (div_ceil_bounds 40000000 (baud_rate c)) as H. nia.
Qed.

(** The longest frame takes under four seconds at any rate that validates. *)
Lemma longest_frame_time_bound c : 2667 <= baud_rate c ->
  0 <= longest_frame_time c <= 6000000000.
Proof.
  intros Hb. unfold longest_frame_time, duration_saturating_mul, sat_mul, U64_MAX.
  rewrite octet_time_eq by lia.
  pose proof (div_ceil_bounds 10000000 (baud_rate c)) as H.
  assert (0 <= div_ceil 10000000 (baud_rate c) <= 3750)
    by (unfold div_ceil in *; Z.div_mod_to_equations; nia).
  assert (0 <= Z.of_nat (if extended_frames c then MAX_EXTENDED_FRAME_LENGTH
    else MAX_STANDARD_FRAME_LENGTH) <= 1516).
  { destruct (extended_frames c); vm_compute; done. }
  nia.
Qed.

Lemma covering_watchdog c : 2667 <= baud_rate c -> t_postdrive c <= 10000000 ->
  minimum_transmit_watchdog (with_covering_watchdog c) <=
    transmit_watchdog (with_covering_watchdog c).
Proof.
  intros Hb Hp. unfold with_covering_watchdog.
  pose proof (longest_frame_time_bound c Hb) as Hl.
  destruct (Z.ltb_spec (transmit_watchdog c) (minimum_transmit_watchdog c)); [|done].
  unfold minimum_transmit_watchdog, duration_saturating_add, sat_add.
  set (w := Z.min U64_MAX (longest_frame_time c + _)). set (c' := c <| transmit_watchdog := w |>).
  change (longest_frame_time c') with (longest_frame_time c). change (transmit_watchdog c') with w.
  change (t_postdrive c') with (t_postdrive c). unfold w.
  change WATCHDOG_COMPLETION_MARGIN with 1000000. change DEFAULT_TRANSMIT_WATCHDOG with 1000000000.
  unfold U64_MAX. lia.
Qed.

Lemma with_covering_watchdog_set c : exists w,
  with_covering_watchdog c = c <| transmit_watchdog := w |> /\
  (w = transmit_watchdog c \/
   w = duration_saturating_add (longest_frame_time c) DEFAULT_TRANSMIT_WATCHDOG).
Proof.
  unfold with_covering_watchdog. destruct (_ <? _); [by eauto|].
  exists (transmit_watchdog c). split; [by destruct c|by left].
Qed.

Lemma for_baud_rate_unchecked_valid b : 2667 <= b -> valid_config (for_baud_rate_unchecked b).
Proof.
  intros Hb. pose proof (div_ceil_bounds 60000000 b) as H60. pose proof (div_ceil_bounds 40000000 b) as H40.
  unfold for_baud_rate_unchecked. rewrite !ceil_bit_times_eq, !floor_bit_times_eq by lia.
  cbn [or_max default].
  set (c0 := Build_MstpCoreConfig _ _ _ _ _ _ _ _ _ _ _ _ _ _ _ _ _ _ _ _).
  assert (15 * 1000000 / b <= 10000) by (Z.div_mod_to_equations; nia).
  assert (Hpd : t_postdrive c0 <= 10000000) by (change (t_postdrive c0) with
    (1000 * (15 * 1000000 / b)); lia).
  pose proof (covering_watchdog c0 Hb Hpd) as Hw.
  pose proof (longest_frame_time_bound c0 Hb) as Hl.
  destruct (with_covering_watchdog_set c0) as (w & Ew & Hwv). rewrite Ew in *.
  assert (w <> 0) as Hw0.
  { destruct Hwv as [->| ->]; [done|]. unfold duration_saturating_add, sat_add, U64_MAX.
    change DEFAULT_TRANSMIT_WATCHDOG with 1000000000. lia. }
  assert (div_ceil 60000000 b <= 100000) by nia. assert (div_ceil 40000000 b <= 15000) by nia.
  constructor; [..|exact Hw| |]; unfold c0; cbn; try done; try lia.
  - change (60 * 1000000) with 60000000. lia.
  - change (40 * 1000000) with 40000000. change MAX_USAGE_DELAY with 15000000. lia.
Qed.

Lemma with_extended_frames_valid c : 2667 <= baud_rate c -> valid_config c ->
  valid_config (with_extended_frames c).
Proof.
  intros Hb Hv. unfold with_extended_frames. set (c0 := c <| extended_frames := true |>).
  assert (15000000 / baud_rate c <= 10000) by (Z.div_mod_to_equations; nia).
  assert (Hpd : t_postdrive c0 <= 10000000) by (cbn; destruct Hv; lia).
  pose proof (covering_watchdog c0 Hb Hpd) as Hw.
  pose proof (longest_frame_time_bound c0 Hb) as Hl.
  destruct (with_covering_watchdog_set c0) as (w & Ew & Hwv). rewrite Ew in *.
  assert (w <> 0) as Hw0.
  { destruct Hwv as [->| ->]; [apply Hv|]. unfold duration_saturating_add, sat_add, U64_MAX.
    change DEFAULT_TRANSMIT_WATCHDOG with 1000000000. lia. }
  destruct Hv. constructor; [..|exact Hw| |]; cbn; tauto.
Qed.

(** The baud-rate constructor succeeds exactly from 2667 baud
    up, the rate the documentation names, and what it returns is valid, its
    extended-frames variant too. *)
Theorem for_baud_rate_exact b : is_u32 b ->
  if decide (2667 <= b)
  then exists c, for_baud_rate b = Ok c /\ baud_rate c = b /\ valid_config c /\
         valid_config (with_extended_frames c)
  else exists e, for_baud_rate b = Err e.
Proof.
  intros Hb. unfold for_baud_rate. case_decide as Hlow.
  - rewrite (proj2 (Z.eqb_neq b 0)) by lia. pose proof (for_baud_rate_unchecked_valid b Hlow) as Hv.
    assert (baud_rate (for_baud_rate_unchecked b) = b) as Hr
      by (unfold for_baud_rate_unchecked, with_covering_watchdog; by destruct (_ <? _)).
    pose proof Hv as Hok. rewrite <-validate_iff in Hok by lia. rewrite Hok.
    eexists. split_and!; [done..|]. apply with_extended_frames_valid; [lia|done].
  - destruct (Z.eqb_spec b 0); [by eexists|].
    assert (baud_rate (for_baud_rate_unchecked b) = b) as Hr
      by (unfold for_baud_rate_unchecked, with_covering_watchdog; by destruct (_ <? _)).
    destruct (validate (for_baud_rate_unchecked b)) as [[]|e] eqn:E; [|by eexists].
    apply validate_iff in E; [|width]. apply valid_baud_rate in E; width.
Qed.
Lemma for_baud_rate_exact_witness :
  exists c, for_baud_rate 38400 = Ok c /\ baud_rate c = 38400 /\ valid_config c /\
    valid_config (with_extended_frames c).
Proof. apply (for_baud_rate_exact 38400). width. Defined.
