(* ===== verification/Counters.v ===== *)
(** * What the core counts (crate bacnet-mstp-core, counters.rs)

    Every count is a [u32] that saturates, as the source's [increment] does. *)

From S2P Require Import Prelude Time.

(** [increment] (bacnet-mstp-core/src/counters.rs) *)
Definition increment (value : Z) : Z := sat_add U32_MAX value 1.

(** ** One queue's counters *)

(** [QueueCounters] (bacnet-mstp-core/src/counters.rs:16-44) *)
Record QueueCounters := {
  qc_depth : Z;
  qc_high_water : Z;
  qc_enqueued : Z;
  qc_dequeued : Z;
  qc_drops_full : Z;
  qc_drops_oversize : Z;
  qc_drops_expired : Z
}.
#[export] Instance eta_QueueCounters : Settable QueueCounters := fun r =>
  {| qc_depth := qc_depth r; qc_high_water := qc_high_water r; qc_enqueued := qc_enqueued r;
     qc_dequeued := qc_dequeued r; qc_drops_full := qc_drops_full r;
     qc_drops_oversize := qc_drops_oversize r; qc_drops_expired := qc_drops_expired r |}.

(** [QueueCounters::default()].
    [EMPTY_QUEUE_COUNTERS] (bacnet-mstp-core/src/queue/fixed.rs:16-24) *)
Definition EMPTY_QUEUE_COUNTERS : QueueCounters :=
  {| qc_depth := 0; qc_high_water := 0; qc_enqueued := 0; qc_dequeued := 0;
     qc_drops_full := 0; qc_drops_oversize := 0; qc_drops_expired := 0 |}.

(** [QueueCounters::set_depth] (bacnet-mstp-core/src/counters.rs) *)
Definition qc_set_depth (c : QueueCounters) (depth : nat) : QueueCounters :=
  let depth := Z.min (Z.of_nat depth) U32_MAX in
  let c := c <| qc_depth := depth |> in
  if qc_high_water c <? depth then c <| qc_high_water := depth |> else c.
(** [QueueCounters::record_enqueue] (bacnet-mstp-core/src/counters.rs) *)
Definition qc_record_enqueue (c : QueueCounters) (depth : nat) : QueueCounters :=
  qc_set_depth (c <| qc_enqueued ::= increment |>) depth.
(** [QueueCounters::record_dequeue] (bacnet-mstp-core/src/counters.rs) *)
Definition qc_record_dequeue (c : QueueCounters) (depth : nat) : QueueCounters :=
  qc_set_depth (c <| qc_dequeued ::= increment |>) depth.
(** [QueueCounters::record_drop_full] (bacnet-mstp-core/src/counters.rs) *)
Definition qc_record_drop_full (c : QueueCounters) : QueueCounters :=
  c <| qc_drops_full ::= increment |>.
(** [QueueCounters::record_drop_oversize] (bacnet-mstp-core/src/counters.rs) *)
Definition qc_record_drop_oversize (c : QueueCounters) : QueueCounters :=
  c <| qc_drops_oversize ::= increment |>.
(** [QueueCounters::record_drop_expired] (bacnet-mstp-core/src/counters.rs) *)
Definition qc_record_drop_expired (c : QueueCounters) : QueueCounters :=
  c <| qc_drops_expired ::= increment |>.
(** The counters left behind, and those taken.
    [QueueCounters::take] (bacnet-mstp-core/src/counters.rs) *)
Definition qc_take (c : QueueCounters) : QueueCounters * QueueCounters :=
  (EMPTY_QUEUE_COUNTERS <| qc_depth := qc_depth c |> <| qc_high_water := qc_depth c |>, c).

(** ** Lateness *)

(** [LATENESS_BUCKETS] (bacnet-mstp-core/src/counters.rs:117-118) *)
Definition LATENESS_BUCKETS : nat := 6.
(** [LatenessHistogram] (bacnet-mstp-core/src/counters.rs:97-115) *)
Record LatenessHistogram := { lh_buckets : list Z; lh_max : Duration }.
#[export] Instance eta_LatenessHistogram : Settable LatenessHistogram := fun r =>
  {| lh_buckets := lh_buckets r; lh_max := lh_max r |}.
(** [LatenessHistogram::EDGES] (bacnet-mstp-core/src/counters.rs:121-134) *)
Definition EDGES : list Duration := map duration_from_millis [1; 2; 5; 10; 25].
(** [LatenessHistogram::bucket] (bacnet-mstp-core/src/counters.rs) *)
Definition lh_bucket (lateness : Duration) : nat :=
  length (filter (fun edge => edge <= lateness) EDGES).
(** [LatenessHistogram::total] (bacnet-mstp-core/src/counters.rs) *)
Definition lh_total (h : LatenessHistogram) : Z :=
  fold_left (fun sum count => sat_add U32_MAX sum count) (lh_buckets h) 0.
(** [LatenessHistogram::record] (bacnet-mstp-core/src/counters.rs) *)
Definition lh_record (h : LatenessHistogram) (lateness : Duration) : LatenessHistogram :=
  h <| lh_buckets ::= alter increment (lh_bucket lateness) |>
    <| lh_max ::= fun m => duration_max m lateness |>.

(** ** The core's counters *)

(** [MstpCounters] (bacnet-mstp-core/src/counters.rs:157-276) *)
Record MstpCounters := {
  state_transitions : Z;
  late_deadlines : Z;
  deadline_lateness : LatenessHistogram;
  token_rotations : Z;
  token_regenerations : Z;
  missed_generation_slots : Z;
  token_retries : Z;
  parser_errors : Z;
  late_replies : Z;
  expired_requests : Z;
  cancelled_sends : Z;
  deferred_starts : Z;
  adapter_errors : Z;
  internal_errors : Z;
  discarded_while_busy : Z;
  frame_aborts : Z;
  frames_received : Z;
  own_address_frames : Z;
  npdus_delivered : Z;
  frames_delivered : Z;
  frames_transmitted : Z;
  delivery_drops : Z;
  framing_errors : Z;
  overrun_errors : Z;
  parity_errors : Z;
  break_errors : Z;
  transmit_aborts : Z;
  transmit_timeouts : Z;
  transmit_io_errors : Z;
  transmit_rejections : Z;
  de_assertion : Duration;
  unicast : QueueCounters;
  broadcast : QueueCounters
}.
#[export] Instance eta_MstpCounters : Settable MstpCounters := fun r =>
  {| state_transitions := state_transitions r; late_deadlines := late_deadlines r;
  deadline_lateness := deadline_lateness r; token_rotations := token_rotations r;
  token_regenerations := token_regenerations r; missed_generation_slots :=
  missed_generation_slots r; token_retries := token_retries r; parser_errors := parser_errors r;
  late_replies := late_replies r; expired_requests := expired_requests r; cancelled_sends :=
  cancelled_sends r; deferred_starts := deferred_starts r; adapter_errors := adapter_errors r;
  internal_errors := internal_errors r; discarded_while_busy := discarded_while_busy r;
  frame_aborts := frame_aborts r; frames_received := frames_received r; own_address_frames :=
  own_address_frames r; npdus_delivered := npdus_delivered r; frames_delivered :=
  frames_delivered r; frames_transmitted := frames_transmitted r; delivery_drops :=
  delivery_drops r; framing_errors := framing_errors r; overrun_errors := overrun_errors r;
  parity_errors := parity_errors r; break_errors := break_errors r; transmit_aborts :=
  transmit_aborts r; transmit_timeouts := transmit_timeouts r; transmit_io_errors :=
  transmit_io_errors r; transmit_rejections := transmit_rejections r; de_assertion :=
  de_assertion r; unicast := unicast r; broadcast := broadcast r |}.

(** [MstpCounters::default()]: every count zero. *)
Definition default_counters : MstpCounters :=
  {| state_transitions := 0; late_deadlines := 0; deadline_lateness := {| lh_buckets :=
  replicate LATENESS_BUCKETS 0; lh_max := 0 |}; token_rotations := 0; token_regenerations := 0;
  missed_generation_slots := 0; token_retries := 0; parser_errors := 0; late_replies := 0;
  expired_requests := 0; cancelled_sends := 0; deferred_starts := 0; adapter_errors := 0;
  internal_errors := 0; discarded_while_busy := 0; frame_aborts := 0; frames_received := 0;
  own_address_frames := 0; npdus_delivered := 0; frames_delivered := 0; frames_transmitted := 0;
  delivery_drops := 0; framing_errors := 0; overrun_errors := 0; parity_errors := 0;
  break_errors := 0; transmit_aborts := 0; transmit_timeouts := 0; transmit_io_errors := 0;
  transmit_rejections := 0; de_assertion := 0; unicast := EMPTY_QUEUE_COUNTERS; broadcast :=
  EMPTY_QUEUE_COUNTERS |}.

(** [MstpCounters::record_transition] (bacnet-mstp-core/src/counters.rs) *)
Definition record_transition (c : MstpCounters) : MstpCounters := c <| state_transitions ::= increment |>.
(** [MstpCounters::record_late_reply] (bacnet-mstp-core/src/counters.rs) *)
Definition record_late_reply (c : MstpCounters) : MstpCounters := c <| late_replies ::= increment |>.
(** [MstpCounters::record_expired_request] (bacnet-mstp-core/src/counters.rs) *)
Definition record_expired_request (c : MstpCounters) : MstpCounters := c <| expired_requests ::= increment |>.
(** [MstpCounters::record_cancelled_send] (bacnet-mstp-core/src/counters.rs) *)
Definition record_cancelled_send (c : MstpCounters) : MstpCounters := c <| cancelled_sends ::= increment |>.
(** [MstpCounters::record_deferred_start] (bacnet-mstp-core/src/counters.rs) *)
Definition record_deferred_start (c : MstpCounters) : MstpCounters := c <| deferred_starts ::= increment |>.
(** [MstpCounters::record_discarded_while_busy] (bacnet-mstp-core/src/counters.rs) *)
Definition record_discarded_while_busy (c : MstpCounters) : MstpCounters := c <| discarded_while_busy ::= increment |>.
(** [MstpCounters::record_adapter_error] (bacnet-mstp-core/src/counters.rs) *)
Definition record_adapter_error (c : MstpCounters) : MstpCounters := c <| adapter_errors ::= increment |>.
(** [MstpCounters::record_internal_error] (bacnet-mstp-core/src/counters.rs) *)
Definition record_internal_error (c : MstpCounters) : MstpCounters := c <| internal_errors ::= increment |>.
(** [MstpCounters::record_token_rotation] (bacnet-mstp-core/src/counters.rs) *)
Definition record_token_rotation (c : MstpCounters) : MstpCounters := c <| token_rotations ::= increment |>.
(** [MstpCounters::record_token_regeneration] (bacnet-mstp-core/src/counters.rs) *)
Definition record_token_regeneration (c : MstpCounters) : MstpCounters := c <| token_regenerations ::= increment |>.
(** [MstpCounters::record_missed_generation_slot] (bacnet-mstp-core/src/counters.rs) *)
Definition record_missed_generation_slot (c : MstpCounters) : MstpCounters := c <| missed_generation_slots ::= increment |>.
(** [MstpCounters::record_token_retry] (bacnet-mstp-core/src/counters.rs) *)
Definition record_token_retry (c : MstpCounters) : MstpCounters := c <| token_retries ::= increment |>.
(** [MstpCounters::record_parser_error] (bacnet-mstp-core/src/counters.rs) *)
Definition record_parser_error (c : MstpCounters) : MstpCounters := c <| parser_errors ::= increment |>.
(** [MstpCounters::record_frame_abort] (bacnet-mstp-core/src/counters.rs) *)
Definition record_frame_abort (c : MstpCounters) : MstpCounters := c <| frame_aborts ::= increment |>.
(** [MstpCounters::record_frame_received] (bacnet-mstp-core/src/counters.rs) *)
Definition record_frame_received (c : MstpCounters) : MstpCounters := c <| frames_received ::= increment |>.
(** [MstpCounters::record_own_address_frame] (bacnet-mstp-core/src/counters.rs) *)
Definition record_own_address_frame (c : MstpCounters) : MstpCounters := c <| own_address_frames ::= increment |>.
(** [MstpCounters::record_npdu_delivered] (bacnet-mstp-core/src/counters.rs) *)
Definition record_npdu_delivered (c : MstpCounters) : MstpCounters := c <| npdus_delivered ::= increment |>.
(** [MstpCounters::record_frame_delivered] (bacnet-mstp-core/src/counters.rs) *)
Definition record_frame_delivered (c : MstpCounters) : MstpCounters := c <| frames_delivered ::= increment |>.
(** [MstpCounters::record_frame_transmitted] (bacnet-mstp-core/src/counters.rs) *)
Definition record_frame_transmitted (c : MstpCounters) : MstpCounters := c <| frames_transmitted ::= increment |>.
(** [MstpCounters::record_delivery_drop] (bacnet-mstp-core/src/counters.rs) *)
Definition record_delivery_drop (c : MstpCounters) : MstpCounters := c <| delivery_drops ::= increment |>.
(** [MstpCounters::record_deadline] (bacnet-mstp-core/src/counters.rs) *)
Definition record_deadline (c : MstpCounters) (lateness late_deadline : Duration) : MstpCounters :=
  let c := c <| deadline_lateness ::= fun h => lh_record h lateness |> in
  if late_deadline <=? lateness then c <| late_deadlines ::= increment |> else c.
(** [MstpCounters::record_de_assertion] (bacnet-mstp-core/src/counters.rs) *)
Definition record_de_assertion (c : MstpCounters) (d : Duration) : MstpCounters :=
  c <| de_assertion ::= fun t => duration_saturating_add t d |>.

(** [ReceiveError] (bacnet-mstp-core/src/state.rs:60-72) *)
Inductive ReceiveError := Framing | Overrun | Parity | Break.
(** [TransmitFailure] (bacnet-mstp-core/src/actions.rs:77-93) *)
Inductive TransmitFailure := Aborted | Timeout | Io | Rejected.

(** [MstpCounters::record_receive_error] (bacnet-mstp-core/src/counters.rs) *)
Definition record_receive_error (c : MstpCounters) (error : ReceiveError) : MstpCounters :=
  match error with
  | Framing => c <| framing_errors ::= increment |>
  | Overrun => c <| overrun_errors ::= increment |>
  | Parity => c <| parity_errors ::= increment |>
  | Break => c <| break_errors ::= increment |>
  end.
(** [MstpCounters::record_transmit_failure] (bacnet-mstp-core/src/counters.rs) *)
Definition record_transmit_failure (c : MstpCounters) (reason : TransmitFailure) : MstpCounters :=
  match reason with
  | Aborted => c <| transmit_aborts ::= increment |>
  | Timeout => c <| transmit_timeouts ::= increment |>
  | Io => c <| transmit_io_errors ::= increment |>
  | Rejected => c <| transmit_rejections ::= increment |>
  end.
