(* ===== verification/Actions.v ===== *)
(** * Actions for the adapter (crate bacnet-mstp-core, actions.rs)

    Control actions (a switch to receive, one transmit) and a ring of received
    data. The [debug_assert!]s of the source are the field [aq_asserts]: it
    turns false when one of them would fire. [aq_npdu] is the const generic
    [NPDU]. *)

From S2P Require Import Prelude Crc Sink Cobs Frame.

(** [Direction] (bacnet-mstp-core/src/actions.rs:21-34) *)
Inductive Direction := Receive | TransmitDir.
(** [RequestId] (bacnet-mstp-core/src/actions.rs:36-57) *)
Definition RequestId := Z.
(** [TransmitId] (bacnet-mstp-core/src/actions.rs:59-75) *)
Definition TransmitId := Z.

(** [Action] (bacnet-mstp-core/src/actions.rs:95-175) *)
Inductive Action :=
| SetDirection (d : Direction)
| Transmit (id : TransmitId) (header : FrameHeader) (len : nat)
| DeliverNpdu (source destination : Z) (npdu : bytes) (request_id : option RequestId)
| DeliverFrame (frame_type : FrameType) (source destination : Z) (data : bytes)
| ActionIdle.

(** [DEFAULT_DELIVERY_SLOTS] (bacnet-mstp-core/src/actions.rs:177-179) *)
Definition DEFAULT_DELIVERY_SLOTS : nat := 8.

(** [frame_room] (bacnet-mstp-core/src/actions.rs) *)
Definition frame_room (npdu : nat) : nat :=
  if decide (npdu <= MAX_STANDARD_MPDU_DATA)%nat then MAX_STANDARD_FRAME_LENGTH
  else (length PREAMBLE + HEADER_LENGTH + npdu + (npdu + 253) / 254 + 5)%nat.

(** [DeliverySlot] (bacnet-mstp-core/src/actions.rs:287-299) *)
Record DeliverySlot := {
  slot_request_id : option RequestId;
  slot_frame_type : Z;
  slot_source : Z;
  slot_destination : Z;
  slot_length : nat;
  slot_data : bytes
}.
(** [DeliverySlot::EMPTY] (bacnet-mstp-core/src/actions.rs) *)
Definition EMPTY_SLOT (npdu : nat) : DeliverySlot :=
  {| slot_request_id := None; slot_frame_type := 0; slot_source := 0; slot_destination := 0;
     slot_length := 0; slot_data := replicate npdu 0 |}.

(** [ActionBuffers] (bacnet-mstp-core/src/actions.rs:213-220) *)
Record ActionBuffers := { ab_frame : bytes; ab_deliveries : list DeliverySlot; ab_npdu : nat }.
(** The two compile-time assertions are the [None] case.
    [ActionBuffers::new] (bacnet-mstp-core/src/actions.rs:232-249) *)
Definition action_buffers_new (deliveries npdu frame : nat) : option ActionBuffers :=
  if decide (0 < deliveries /\ frame_room npdu <= frame)%nat
  then Some {| ab_frame := replicate frame 0;
               ab_deliveries := replicate deliveries (EMPTY_SLOT npdu); ab_npdu := npdu |}
  else None.

(** [QueuedTransmit] (bacnet-mstp-core/src/actions.rs:318-324) *)
Record QueuedTransmit := { qt_id : TransmitId; qt_direction_polled : bool }.

(** [ActionQueue] (bacnet-mstp-core/src/actions.rs:326-356) *)
Record ActionQueue := {
  aq_receive : bool;
  aq_transmit : option QueuedTransmit;
  aq_frame : bytes;
  aq_frame_length : nat;
  aq_deliveries : list DeliverySlot;
  aq_head : nat;
  aq_waiting : nat;
  aq_npdu : nat;
  aq_asserts : bool
}.
#[export] Instance eta_ActionQueue : Settable ActionQueue := fun r =>
  {| aq_receive := aq_receive r; aq_transmit := aq_transmit r; aq_frame := aq_frame r;
     aq_frame_length := aq_frame_length r; aq_deliveries := aq_deliveries r;
     aq_head := aq_head r; aq_waiting := aq_waiting r; aq_npdu := aq_npdu r;
     aq_asserts := aq_asserts r |}.

(** [debug_assert!(cond)]. *)
Definition aq_assert (q : ActionQueue) (cond : bool) : ActionQueue :=
  q <| aq_asserts ::= andb cond |>.

(** [ActionQueue::new] (bacnet-mstp-core/src/actions.rs:371-386) *)
Definition action_queue_new (b : ActionBuffers) : ActionQueue :=
  {| aq_receive := false; aq_transmit := None; aq_frame := ab_frame b; aq_frame_length := 0;
     aq_deliveries := ab_deliveries b; aq_head := 0; aq_waiting := 0; aq_npdu := ab_npdu b;
     aq_asserts := true |}.

(** [ActionQueue::encode_frame] (bacnet-mstp-core/src/actions.rs) *)
Definition encode_frame (q : ActionQueue) (f : Frame) : ActionQueue * Result unit FrameError :=
  let q := aq_assert q (negb (is_some (aq_transmit q))) in
  let '(buf, r) := encode_into f (aq_frame q) in
  let q := q <| aq_frame := buf |> in
  match r with
  | Ok n => (q <| aq_frame_length := n |>, Ok tt)
  | Err e => (q, Err e)
  end.

(** [ActionQueue::queue_receive] (bacnet-mstp-core/src/actions.rs) *)
Definition queue_receive (q : ActionQueue) : ActionQueue :=
  (aq_assert q (negb (is_some (aq_transmit q)))) <| aq_receive := true |>.

(** [ActionQueue::frame] (bacnet-mstp-core/src/actions.rs:407-410) *)
Definition aq_current_frame (q : ActionQueue) : bytes := take (aq_frame_length q) (aq_frame q).

(** [ActionQueue::header] (bacnet-mstp-core/src/actions.rs:412-421) *)
Definition aq_header (q : ActionQueue) : FrameHeader :=
  {| frame_type := at_ (aq_frame q) 2; destination := at_ (aq_frame q) 3;
     source := at_ (aq_frame q) 4 |}.

(** [ActionQueue::queue_transmit] (bacnet-mstp-core/src/actions.rs) *)
Definition queue_transmit (q : ActionQueue) (id : TransmitId) : ActionQueue :=
  (aq_assert q (negb (is_some (aq_transmit q))))
    <| aq_transmit := Some {| qt_id := id; qt_direction_polled := false |} |>.

(** [ActionQueue::transmit_queued] (bacnet-mstp-core/src/actions.rs) *)
Definition transmit_queued (q : ActionQueue) (id : TransmitId) : bool :=
  match aq_transmit q with Some t => qt_id t =? id | None => false end.

(** [ActionQueue::purge_transmit] (bacnet-mstp-core/src/actions.rs) *)
Definition purge_transmit (q : ActionQueue) (id : TransmitId) : ActionQueue :=
  if transmit_queued q id then q <| aq_transmit := None |> else q.

(** [wrap] (bacnet-mstp-core/src/actions.rs) *)
Definition wrap (index len : nat) : nat :=
  if decide (len <= index)%nat then (index - len)%nat else index.

(** [carries_npdu] (bacnet-mstp-core/src/actions.rs) *)
Definition carries_npdu (t : FrameType) : bool :=
  (t =? BACNET_DATA_EXPECTING_REPLY) || (t =? BACNET_DATA_NOT_EXPECTING_REPLY) ||
  (t =? BACNET_EXTENDED_DATA_EXPECTING_REPLY) || (t =? BACNET_EXTENDED_DATA_NOT_EXPECTING_REPLY).

(** The assignments to a slot in [enqueue_delivery].
    [ActionQueue::enqueue_delivery] (bacnet-mstp-core/src/actions.rs:457-463) *)
Definition fill_slot (h : FrameHeader) (d : bytes) (request_id : option RequestId)
  (slot : DeliverySlot) : DeliverySlot :=
  {| slot_request_id := request_id; slot_frame_type := frame_type h; slot_source := source h;
     slot_destination := destination h; slot_length := length d;
     slot_data := splice (slot_data slot) 0 d |}.

(** The result is whether the delivery was queued ([Ok(())]) or refused.
    [ActionQueue::enqueue_delivery] (bacnet-mstp-core/src/actions.rs) *)
Definition enqueue_delivery (q : ActionQueue) (h : FrameHeader) (d : bytes)
  (request_id : option RequestId) : ActionQueue * bool :=
  if bool_decide (U16_MAX < Z.of_nat (length d)) then (q, false) else
  if bool_decide (aq_npdu q < length d)%nat ||
     bool_decide (aq_waiting q = length (aq_deliveries q)) then (q, false) else
  let index := wrap (aq_head q + aq_waiting q) (length (aq_deliveries q)) in
  (q <| aq_deliveries ::= alter (fill_slot h d request_id) index |> <| aq_waiting ::= S |>, true).

(** [ActionQueue::poll] (bacnet-mstp-core/src/actions.rs) *)
Definition poll (q : ActionQueue) : ActionQueue * Action :=
  if aq_receive q then (q <| aq_receive := false |>, SetDirection Receive) else
  match aq_transmit q with
  | Some t =>
      if negb (qt_direction_polled t)
      then (q <| aq_transmit := Some {| qt_id := qt_id t; qt_direction_polled := true |} |>,
            SetDirection TransmitDir)
      else (q <| aq_transmit := None |>, Transmit (qt_id t) (aq_header q) (aq_frame_length q))
  | None =>
      if decide (aq_waiting q = 0)%nat then (q, ActionIdle) else
      let index := aq_head q in
      let slot := nth index (aq_deliveries q) (EMPTY_SLOT (aq_npdu q)) in
      let q := q <| aq_head := wrap (index + 1) (length (aq_deliveries q)) |>
                 <| aq_waiting ::= Nat.pred |> in
      let d := take (slot_length slot) (slot_data slot) in
      (q, if carries_npdu (slot_frame_type slot)
          then DeliverNpdu (slot_source slot) (slot_destination slot) d (slot_request_id slot)
          else DeliverFrame (slot_frame_type slot) (slot_source slot) (slot_destination slot) d)
  end.

(** ** The ring as a list *)

(** What a delivery hands up. *)
Definition delivery (h : FrameHeader) (d : bytes) (request_id : option RequestId) : Action :=
  if carries_npdu (frame_type h)
  then DeliverNpdu (source h) (destination h) d request_id
  else DeliverFrame (frame_type h) (source h) (destination h) d.

Definition slot_action (slot : DeliverySlot) : Action :=
  delivery {| frame_type := slot_frame_type slot; destination := slot_destination slot;
              source := slot_source slot |}
    (take (slot_length slot) (slot_data slot)) (slot_request_id slot).

(** The waiting deliveries, oldest first. *)
Definition waiting_slots (q : ActionQueue) : list DeliverySlot :=
  map (fun i => nth (wrap (aq_head q + i) (length (aq_deliveries q))) (aq_deliveries q)
                  (EMPTY_SLOT (aq_npdu q)))
    (seq 0 (aq_waiting q)).
Definition deliveries_of (q : ActionQueue) : list Action := map slot_action (waiting_slots q).

(** The ring's indices are in range and every slot has its full size. *)
Record wf_actions (q : ActionQueue) : Prop := {
  wfa_head : (aq_head q < length (aq_deliveries q))%nat;
  wfa_waiting : (aq_waiting q <= length (aq_deliveries q))%nat;
  wfa_slots : Forall (fun s => length (slot_data s) = aq_npdu q) (aq_deliveries q)
}.

Lemma wrap_lt i n : (i < n + n)%nat -> (wrap i n < n)%nat.
Proof. unfold wrap. case_decide; lia. Qed.

Lemma wrap_inj a b n : (a < n + n)%nat -> (b < n + n)%nat ->
  (a < b + n)%nat -> (b < a + n)%nat -> wrap a n = wrap b n -> a = b.
Proof. unfold wrap. repeat case_decide; lia. Qed.

Lemma nth_alter {A} (f : A -> A) l i j d : (i < length l)%nat ->
  nth j (alter f i l) d = if decide (i = j) then f (nth i l d) else nth j l d.
Proof.
  intros Hi. destruct (lookup_lt_is_Some_2 l i Hi) as [x Hx].
  case_decide as E.
  - subst j. rewrite (nth_lookup_Some _ _ _ _ Hx). apply nth_lookup_Some.
    by rewrite list_lookup_alter_eq, Hx.
  - rewrite !nth_lookup. by rewrite list_lookup_alter_ne.
Qed.

Lemma enqueue_delivery_spec q h d r : wf_actions q ->
  Z.of_nat (length d) <= U16_MAX -> (length d <= aq_npdu q)%nat ->
  (aq_waiting q < length (aq_deliveries q))%nat ->
  exists q', enqueue_delivery q h d r = (q', true) /\ wf_actions q' /\
    deliveries_of q' = deliveries_of q ++ [delivery h d r] /\
    aq_receive q' = aq_receive q /\ aq_transmit q' = aq_transmit q /\
    aq_frame q' = aq_frame q /\ aq_frame_length q' = aq_frame_length q /\
    aq_asserts q' = aq_asserts q /\ length (aq_deliveries q') = length (aq_deliveries q) /\
    aq_npdu q' = aq_npdu q /\ aq_waiting q' = S (aq_waiting q).
Proof.
  intros [Hh Hw Hs] Hu Hn Hroom. unfold enqueue_delivery.
  rewrite !bool_decide_eq_false_2 by lia. cbn [orb].
  set (n := length (aq_deliveries q)) in *. set (i := wrap (aq_head q + aq_waiting q) n).
  assert (Hi : (i < n)%nat) by (apply wrap_lt; lia).
  set (fill := fill_slot h d r). eexists. split; [reflexivity|].
  assert (Hlen : length (alter fill i (aq_deliveries q)) = n) by apply length_alter.
  split_and!; try done.
  - constructor; cbn; rewrite ?Hlen; [done|lia|]. apply Forall_alter; [done|].
    intros x _ Hx. cbn. rewrite length_splice; [done|]. cbn. rewrite Hx. lia.
  - unfold deliveries_of, waiting_slots. cbn -[seq]. rewrite Hlen. fold n.
    rewrite seq_S, !map_app. cbn [map]. f_equal.
    + rewrite !map_map. apply map_ext_in. intros j Hj%in_seq.
      rewrite nth_alter by done. rewrite decide_False; [done|].
      intros E. apply wrap_inj in E; lia.
    + rewrite nth_alter by done. rewrite decide_True by done. cbn [slot_action].
      unfold slot_action. cbn. f_equal. unfold delivery. cbn. destruct h as [t ds sr]. cbn.
      assert (take (length d) (splice (slot_data (nth i (aq_deliveries q) (EMPTY_SLOT (aq_npdu q)))) 0 d) = d)
        as -> by (unfold splice; rewrite take_0; cbn [app]; apply take_app_length). done.
Qed.

Lemma poll_delivery_spec q : wf_actions q -> aq_receive q = false -> aq_transmit q = None ->
  match deliveries_of q with
  | [] => poll q = (q, ActionIdle)
  | a :: rest => exists q', poll q = (q', a) /\ wf_actions q' /\ deliveries_of q' = rest
  end.
Proof.
  intros [Hh Hw Hs] Hr Ht. unfold poll. rewrite Hr, Ht.
  unfold deliveries_of, waiting_slots.
  destruct (aq_waiting q) as [|w] eqn:Ew; [done|].
  rewrite decide_False by done. cbn [seq map]. rewrite Nat.add_0_r.
  set (n := length (aq_deliveries q)) in *.
  assert (wrap (aq_head q) n = aq_head q) as -> by (unfold wrap; rewrite decide_False by lia; done).
  eexists. split; [reflexivity|]. split.
  - constructor; cbn; fold n; [apply wrap_lt; lia|rewrite Ew; cbn; lia|done].
  - cbn -[seq wrap nth]. rewrite Ew. cbn [Nat.pred]. fold n.
    rewrite <-seq_shift, !map_map. apply map_ext_in. intros j Hj%in_seq. f_equal. f_equal.
    unfold wrap. repeat case_decide; lia.
Qed.

Lemma enqueue_delivery_refuses q h d r : wf_actions q ->
  Z.of_nat (length d) <= U16_MAX ->
  ~ (length d <= aq_npdu q /\ aq_waiting q < length (aq_deliveries q))%nat ->
  enqueue_delivery q h d r = (q, false).
Proof.
  intros [_ Hw _] Hu Hno. unfold enqueue_delivery. rewrite bool_decide_eq_false_2 by lia.
  destruct (decide (aq_npdu q < length d)%nat); [by rewrite bool_decide_eq_true_2 by done|].
  rewrite (bool_decide_eq_true_2 (aq_waiting q = _)) by lia. by rewrite orb_true_r.
Qed.

(** ** Correctness *)

(** The delivery ring is a bounded first-in, first-out queue: a
    delivery that fits a slot and finds one free is appended with its octets
    copied, any other is refused and changes nothing, and with no control action
    waiting, a poll hands up the oldest delivery, or reports idle when none
    waits. *)
Theorem action_ring_fifo q h d r : wf_actions q -> Z.of_nat (length d) <= U16_MAX ->
  (if decide (length d <= aq_npdu q /\ aq_waiting q < length (aq_deliveries q))%nat
   then exists q', enqueue_delivery q h d r = (q', true) /\ wf_actions q' /\
          deliveries_of q' = deliveries_of q ++ [delivery h d r]
   else enqueue_delivery q h d r = (q, false)) /\
  (aq_receive q = false -> aq_transmit q = None ->
   match deliveries_of q with
   | [] => poll q = (q, ActionIdle)
   | a :: rest => exists q', poll q = (q', a) /\ wf_actions q' /\ deliveries_of q' = rest
   end).
Proof.
  intros Hw Hu. split.
  - case_decide as Hc.
    + destruct (enqueue_delivery_spec q h d r) as (q' & ? & ? & ? & _); [done..|lia|lia|]. by exists q'.
    + by apply enqueue_delivery_refuses.
  - by apply poll_delivery_spec.
Qed.
Lemma action_ring_fifo_witness :
  exists q', enqueue_delivery (action_queue_new {| ab_frame := []; ab_npdu := 4;
      ab_deliveries := replicate 2 (EMPTY_SLOT 4) |})
    {| frame_type := 6; destination := 1; source := 2 |} [1; 2] None = (q', true) /\
    wf_actions q' /\ deliveries_of q' = [DeliverNpdu 2 1 [1; 2] None].
Proof.
  refine (proj1 (action_ring_fifo (action_queue_new {| ab_frame := []; ab_npdu := 4;
    ab_deliveries := replicate 2 (EMPTY_SLOT 4) |})
    {| frame_type := 6; destination := 1; source := 2 |} [1; 2] None _ _)).
  - constructor; cbn; [lia|lia|]. repeat constructor.
  - cbn. width.
Defined.
