(* ===== verification/Queue.v ===== *)
(** * Transmit queues (crate bacnet-mstp-core: queue.rs, queue/slots.rs, queue/fixed.rs)

    The [QueueStorage] trait as a class, and its allocator-free implementation:
    two lanes of slots, one per destination class. An item is written into a free
    slot and stays there until removed; the order items leave in is a policy over
    starvation, priority and sequence number. [fq_n] is the const generic [N]. *)

From S2P Require Import Prelude Time Npdu Crc Sink Cobs Frame Config Counters.

(** [QueueKind] (bacnet-mstp-core/src/queue.rs:21-29) *)
Inductive QueueKind := Unicast | Broadcast.
#[global] Instance QueueKind_eq_dec : EqDecision QueueKind.
Proof. solve_decision. Defined.
(** [QueueKind::from_destination] (bacnet-mstp-core/src/queue.rs) *)
Definition from_destination (d : Z) : QueueKind := if d =? BROADCAST_MAC then Broadcast else Unicast.

(** [QueueRefusal] (bacnet-mstp-core/src/queue.rs:43-60) *)
Inductive QueueRefusal := QueueFull | QueueOversize | QueueExpired.
#[global] Instance QueueRefusal_eq_dec : EqDecision QueueRefusal.
Proof. solve_decision. Defined.

(** [DequeuedNpdu] (bacnet-mstp-core/src/queue.rs:74-96) *)
Record DequeuedNpdu := {
  dq_destination : Z;
  dq_kind : QueueKind;
  dq_priority : NetworkPriority;
  dq_sequence : Z;
  dq_npdu : bytes
}.

(** [QueueItemInfo] (bacnet-mstp-core/src/queue.rs:119-143) *)
Record QueueItemInfo := {
  qi_destination : Z;
  qi_kind : QueueKind;
  qi_priority : NetworkPriority;
  qi_len : nat;
  qi_enqueued_at : Instant;
  qi_expires_at : option Instant;
  qi_sequence : Z;
  qi_service_wait : Z
}.

(** [QueueStorage] (bacnet-mstp-core/src/queue.rs:171-271) *)
Class QueueStorage (Q : Type) := {
  set_starvation_limit : Q -> Z -> Q;
  queue_max_npdu : Q -> nat;
  queue_enqueue_npdu : Q -> Z -> bytes -> NetworkPriority -> Instant -> option Instant ->
    Q * Result unit QueueRefusal;
  queue_expire : Q -> Instant -> Q * nat;
  queue_peek : Q -> Instant -> option QueueItemInfo;
  queue_peek_kind : Q -> QueueKind -> Instant -> option QueueItemInfo;
  queue_dequeue_kind : Q -> QueueKind -> Instant -> nat ->
    Q * Result (option DequeuedNpdu) QueueRefusal;
  queue_depth : Q -> QueueKind -> nat;
  queue_counters : Q -> QueueKind -> QueueCounters;
  queue_take_counters : Q -> QueueKind -> Q * QueueCounters
}.

(** [QueueStorage::total_depth] (bacnet-mstp-core/src/queue.rs:267-270) *)
Definition total_depth {Q} `{QueueStorage Q} (q : Q) : nat :=
  (queue_depth q Unicast + queue_depth q Broadcast)%nat.
(** [QueueStorage::dequeue] (bacnet-mstp-core/src/queue.rs:226-243) *)
Definition queue_dequeue {Q} `{QueueStorage Q} (q : Q) (now : Instant) (max_len : nat)
  : Q * Result (option DequeuedNpdu) QueueRefusal :=
  match queue_peek q now with
  | None => (q, Ok None)
  | Some info => queue_dequeue_kind q (qi_kind info) now max_len
  end.

(** ** Slots *)

(** [Slot] (bacnet-mstp-core/src/queue/slots.rs:20-38) *)
Record Slot := {
  sl_occupied : bool;
  sl_destination : Z;
  sl_priority : NetworkPriority;
  sl_service_wait : Z;
  sl_len : nat;
  sl_enqueued_at : Instant;
  sl_expires_at : option Instant;
  sl_sequence : Z;
  sl_payload : bytes
}.
#[export] Instance eta_Slot : Settable Slot := fun r =>
  {| sl_occupied := sl_occupied r; sl_destination := sl_destination r;
     sl_priority := sl_priority r; sl_service_wait := sl_service_wait r; sl_len := sl_len r;
     sl_enqueued_at := sl_enqueued_at r; sl_expires_at := sl_expires_at r;
     sl_sequence := sl_sequence r; sl_payload := sl_payload r |}.

(** [Slot::EMPTY] (bacnet-mstp-core/src/queue/slots.rs:44-56) *)
Definition EMPTY_QUEUE_SLOT (n : nat) : Slot :=
  {| sl_occupied := false; sl_destination := 0; sl_priority := Normal; sl_service_wait := 0;
     sl_len := 0; sl_enqueued_at := INSTANT_ZERO; sl_expires_at := None; sl_sequence := 0;
     sl_payload := replicate n 0 |}.
(** [Slot::is_free] (bacnet-mstp-core/src/queue/slots.rs) *)
Definition is_free (s : Slot) : bool := negb (sl_occupied s).
(** [Slot::fill] (bacnet-mstp-core/src/queue/slots.rs) *)
Definition slot_fill (dest : Z) (payload : bytes) (priority : NetworkPriority) (now : Instant)
  (expires_at : option Instant) (sequence : Z) (s : Slot) : Slot :=
  {| sl_occupied := true; sl_destination := dest; sl_priority := priority; sl_service_wait := 0;
     sl_len := length payload; sl_enqueued_at := now; sl_expires_at := expires_at;
     sl_sequence := sequence; sl_payload := splice (sl_payload s) 0 payload |}.
(** [Slot::info] (bacnet-mstp-core/src/queue/slots.rs) *)
Definition slot_info (kind : QueueKind) (s : Slot) : QueueItemInfo :=
  {| qi_destination := sl_destination s; qi_kind := kind; qi_priority := sl_priority s;
     qi_len := sl_len s; qi_enqueued_at := sl_enqueued_at s; qi_expires_at := sl_expires_at s;
     qi_sequence := sl_sequence s; qi_service_wait := sl_service_wait s |}.
(** [Slot::payload] (bacnet-mstp-core/src/queue/slots.rs:100-104) *)
Definition slot_payload (s : Slot) : bytes := take (sl_len s) (sl_payload s).

(** [expired] (bacnet-mstp-core/src/queue/slots.rs) *)
Definition expired (expires_at : option Instant) (now : Instant) : bool :=
  match expires_at with Some deadline => deadline <=? now | None => false end.
(** [is_older] (bacnet-mstp-core/src/queue/slots.rs) *)
Definition is_older (left right : Z) : bool :=
  negb (left =? right) && (U64_MAX / 2 <? (left - right) mod 2 ^ 64).
(** [better] (bacnet-mstp-core/src/queue/slots.rs) *)
Definition better (candidate : QueueItemInfo) (current : option QueueItemInfo) (limit : Z) : bool :=
  match current with
  | None => true
  | Some current =>
      match limit <=? qi_service_wait candidate, limit <=? qi_service_wait current with
      | true, false => true
      | false, true => false
      | true, true => is_older (qi_sequence candidate) (qi_sequence current)
      | false, false =>
          match priority_to_raw (qi_priority candidate) ?= priority_to_raw (qi_priority current) with
          | Gt => true
          | Lt => false
          | Eq => is_older (qi_sequence candidate) (qi_sequence current)
          end
      end
  end.

(** ** Lanes *)

(** [Selected] (bacnet-mstp-core/src/queue/slots.rs:107-108) *)
Definition Selected : Type := QueueKind * nat * QueueItemInfo.
(** [Lane] (bacnet-mstp-core/src/queue/slots.rs:110-118) *)
Record Lane := { la_slots : list Slot; la_depth : nat; la_counters : QueueCounters }.
#[export] Instance eta_Lane : Settable Lane := fun r =>
  {| la_slots := la_slots r; la_depth := la_depth r; la_counters := la_counters r |}.

(** [Lane::new] (bacnet-mstp-core/src/queue/slots.rs:121-128) *)
Definition lane_new (slots : list Slot) (c : QueueCounters) : Lane :=
  {| la_slots := slots; la_depth := 0; la_counters := c |}.
(** One round of the loop of [select].
    [Lane::select] (bacnet-mstp-core/src/queue/slots.rs:142-150) *)
Definition select_step (kind : QueueKind) (now : Instant) (limit : Z) (best : option Selected)
  (entry : nat * Slot) : option Selected :=
  let '(index, slot) := entry in
  if is_free slot || expired (sl_expires_at slot) now then best else
  let info := slot_info kind slot in
  if better info (snd <$> best) limit then Some (kind, index, info) else best.
(** [Lane::select] (bacnet-mstp-core/src/queue/slots.rs:130-152) *)
Definition lane_select (l : Lane) (kind : QueueKind) (now : Instant) (limit : Z)
  (best : option Selected) : option Selected :=
  fold_left (select_step kind now limit) (imap pair (la_slots l)) best.
(** [Lane::remove] (bacnet-mstp-core/src/queue/slots.rs) *)
Definition lane_remove (l : Lane) (index : nat) : Lane :=
  let l := l <| la_slots ::= alter (fun s => s <| sl_occupied := false |>) index |>
             <| la_depth ::= Nat.pred |> in
  l <| la_counters ::= fun c => qc_record_dequeue c (la_depth l) |>.
(** One round of the loop of [expire].
    [Lane::expire] (bacnet-mstp-core/src/queue/slots.rs:161-168) *)
Definition expire_step (now : Instant) (acc : Lane * nat) (index : nat) : Lane * nat :=
  let '(l, removed) := acc in
  match la_slots l !! index with
  | Some slot =>
      if negb (is_free slot) && expired (sl_expires_at slot) now
      then ((lane_remove l index) <| la_counters ::= qc_record_drop_expired |>, S removed)
      else (l, removed)
  | None => (l, removed)
  end.
(** [Lane::expire] (bacnet-mstp-core/src/queue/slots.rs:154-170) *)
Definition lane_expire (l : Lane) (now : Instant) : Lane * nat :=
  fold_left (expire_step now) (seq 0 (length (la_slots l))) (l, 0%nat).
(** One round of the loop of [bump_waits].
    [Lane::bump_waits] (bacnet-mstp-core/src/queue/slots.rs:187-191) *)
Definition bump_wait (s : Slot) : Slot :=
  if negb (is_free s) then s <| sl_service_wait ::= fun w => sat_add U8_MAX w 1 |> else s.
(** [Lane::bump_waits] (bacnet-mstp-core/src/queue/slots.rs) *)
Definition lane_bump_waits (l : Lane) : Lane := l <| la_slots ::= map bump_wait |>.
(** The index of the first free slot.
    [Lane::free_slot] (bacnet-mstp-core/src/queue/slots.rs) *)
Definition lane_free_slot (l : Lane) : option nat :=
  fst <$> list_find (fun s => is_free s = true) (la_slots l).
(** [Lane::record_enqueue] (bacnet-mstp-core/src/queue/slots.rs) *)
Definition lane_record_enqueue (l : Lane) : Lane :=
  let l := l <| la_depth ::= S |> in
  l <| la_counters ::= fun c => qc_record_enqueue c (la_depth l) |>.

(** ** Fixed queues *)

(** [FixedQueues] (bacnet-mstp-core/src/queue/fixed.rs:26-63) *)
Record FixedQueues := {
  fq_unicast : Lane;
  fq_broadcast : Lane;
  fq_sequence : Z;
  fq_limit : option Z;
  fq_n : nat
}.
#[export] Instance eta_FixedQueues : Settable FixedQueues := fun r =>
  {| fq_unicast := fq_unicast r; fq_broadcast := fq_broadcast r; fq_sequence := fq_sequence r;
     fq_limit := fq_limit r; fq_n := fq_n r |}.

(** [U], [B] and [N] are the const generics; [N] is at most 65535.
    [FixedQueues::new] (bacnet-mstp-core/src/queue/fixed.rs) *)
Definition fixed_new (u b n : nat) : FixedQueues :=
  {| fq_unicast := lane_new (replicate u (EMPTY_QUEUE_SLOT n)) EMPTY_QUEUE_COUNTERS;
     fq_broadcast := lane_new (replicate b (EMPTY_QUEUE_SLOT n)) EMPTY_QUEUE_COUNTERS;
     fq_sequence := 0; fq_limit := None; fq_n := n |}.
(** [FixedQueues::starvation_limit] (bacnet-mstp-core/src/queue/fixed.rs:83-85) *)
Definition fq_starvation_limit (q : FixedQueues) : Z := default DEFAULT_STARVATION_LIMIT (fq_limit q).

(** The lane of a class, and an update of it. *)
Definition fq_lane (q : FixedQueues) (kind : QueueKind) : Lane :=
  match kind with Unicast => fq_unicast q | Broadcast => fq_broadcast q end.
Definition over_lane (kind : QueueKind) (h : Lane -> Lane) (q : FixedQueues) : FixedQueues :=
  match kind with
  | Unicast => q <| fq_unicast ::= h |>
  | Broadcast => q <| fq_broadcast ::= h |>
  end.
(** [FixedQueues::counters_mut] (bacnet-mstp-core/src/queue/fixed.rs) *)
Definition counters_mut (kind : QueueKind) (h : QueueCounters -> QueueCounters) (q : FixedQueues)
  : FixedQueues := over_lane kind (fun l => l <| la_counters ::= h |>) q.

(** [FixedQueues::select] (bacnet-mstp-core/src/queue/fixed.rs:87-92) *)
Definition fixed_select (q : FixedQueues) (now : Instant) : option Selected :=
  let limit := fq_starvation_limit q in
  let unicast := lane_select (fq_unicast q) Unicast now limit None in
  lane_select (fq_broadcast q) Broadcast now limit unicast.
(** [FixedQueues::select_kind] (bacnet-mstp-core/src/queue/fixed.rs) *)
Definition fixed_select_kind (q : FixedQueues) (kind : QueueKind) (now : Instant) : option Selected :=
  lane_select (fq_lane q kind) kind now (fq_starvation_limit q) None.

(** [FixedQueues::set_starvation_limit] (bacnet-mstp-core/src/queue/fixed.rs) *)
Definition fixed_set_starvation_limit (q : FixedQueues) (limit : Z) : FixedQueues :=
  q <| fq_limit := Some limit |>.
(** [FixedQueues::enqueue_npdu] (bacnet-mstp-core/src/queue/fixed.rs) *)
Definition fixed_enqueue_npdu (q : FixedQueues) (dest : Z) (payload : bytes)
  (priority : NetworkPriority) (now : Instant) (expires_at : option Instant)
  : FixedQueues * Result unit QueueRefusal :=
  let kind := from_destination dest in
  if decide (fq_n q < length payload)%nat
  then (counters_mut kind qc_record_drop_oversize q, Err QueueOversize) else
  if expired expires_at now
  then (counters_mut kind qc_record_drop_expired q, Err QueueExpired) else
  let sequence := fq_sequence q in
  let q := q <| fq_sequence := (fq_sequence q + 1) mod 2 ^ 64 |> in
  match lane_free_slot (fq_lane q kind) with
  | None => (counters_mut kind qc_record_drop_full q, Err QueueFull)
  | Some i =>
      let fill := slot_fill dest payload priority now expires_at sequence in
      let q := over_lane kind (fun l => l <| la_slots ::= alter fill i |>) q in
      (over_lane kind lane_record_enqueue q, Ok tt)
  end.
(** [FixedQueues::expire] (bacnet-mstp-core/src/queue/fixed.rs) *)
Definition fixed_expire (q : FixedQueues) (now : Instant) : FixedQueues * nat :=
  let '(u, n) := lane_expire (fq_unicast q) now in
  let '(b, m) := lane_expire (fq_broadcast q) now in
  (q <| fq_unicast := u |> <| fq_broadcast := b |>, (n + m)%nat).
(** [FixedQueues::peek] (bacnet-mstp-core/src/queue/fixed.rs) *)
Definition fixed_peek (q : FixedQueues) (now : Instant) : option QueueItemInfo :=
  snd <$> fixed_select q now.
(** [FixedQueues::peek_kind] (bacnet-mstp-core/src/queue/fixed.rs) *)
Definition fixed_peek_kind (q : FixedQueues) (kind : QueueKind) (now : Instant)
  : option QueueItemInfo := snd <$> fixed_select_kind q kind now.
(** [FixedQueues::dequeue_kind] (bacnet-mstp-core/src/queue/fixed.rs) *)
Definition fixed_dequeue_kind (q : FixedQueues) (kind : QueueKind) (now : Instant) (max_len : nat)
  : FixedQueues * Result (option DequeuedNpdu) QueueRefusal :=
  let '(q, _) := fixed_expire q now in
  match fixed_select_kind q kind now with
  | None => (q, Ok None)
  | Some (_, index, info) =>
      let q := over_lane kind (fun l => lane_remove l index) q in
      if decide (max_len < qi_len info)%nat
      then (counters_mut kind qc_record_drop_oversize q, Err QueueOversize) else
      let q := q <| fq_unicast ::= lane_bump_waits |> <| fq_broadcast ::= lane_bump_waits |> in
      let slot := nth index (la_slots (fq_lane q kind)) (EMPTY_QUEUE_SLOT (fq_n q)) in
      (q, Ok (Some {| dq_destination := qi_destination info; dq_kind := kind;
                      dq_priority := qi_priority info; dq_sequence := qi_sequence info;
                      dq_npdu := slot_payload slot |}))
  end.
(** [FixedQueues::depth] (bacnet-mstp-core/src/queue/fixed.rs) *)
Definition fixed_depth (q : FixedQueues) (kind : QueueKind) : nat := la_depth (fq_lane q kind).
(** [FixedQueues::counters] (bacnet-mstp-core/src/queue/fixed.rs) *)
Definition fixed_counters (q : FixedQueues) (kind : QueueKind) : QueueCounters :=
  la_counters (fq_lane q kind).
(** [FixedQueues::take_counters] (bacnet-mstp-core/src/queue/fixed.rs) *)
Definition fixed_take_counters (q : FixedQueues) (kind : QueueKind) : FixedQueues * QueueCounters :=
  (counters_mut kind (fun c => (qc_take c).1) q, (qc_take (la_counters (fq_lane q kind))).2).

#[export] Instance FixedQueues_storage : QueueStorage FixedQueues := {
  set_starvation_limit := fixed_set_starvation_limit;
  queue_max_npdu := fq_n;
  queue_enqueue_npdu := fixed_enqueue_npdu;
  queue_expire := fixed_expire;
  queue_peek := fixed_peek;
  queue_peek_kind := fixed_peek_kind;
  queue_dequeue_kind := fixed_dequeue_kind;
  queue_depth := fixed_depth;
  queue_counters := fixed_counters;
  queue_take_counters := fixed_take_counters
}.

(** ** The items a queue holds

    The contract of a queue is stated on its items, free slots and positions left out. *)

(** An item: what [peek] shows of it, and its octets. *)
Definition item : Type := QueueItemInfo * bytes.
Definition slot_item (kind : QueueKind) (s : Slot) : item := (slot_info kind s, slot_payload s).
Definition occupied (s : Slot) : Prop := sl_occupied s = true.
#[export] Instance occupied_dec s : Decision (occupied s).
Proof. unfold occupied. apply _. Defined.

Definition lane_items (kind : QueueKind) (l : Lane) : list item :=
  slot_item kind <$> filter occupied (la_slots l).
Definition queue_items (q : FixedQueues) (kind : QueueKind) : list item :=
  lane_items kind (fq_lane q kind).

(** An item that has not expired at [now], and an item after one more turn went by. *)
Definition item_live (now : Instant) (x : item) : Prop := expired (qi_expires_at x.1) now = false.
#[export] Instance item_live_dec now x : Decision (item_live now x).
Proof. unfold item_live. apply _. Defined.
#[export] Instance eta_QueueItemInfo : Settable QueueItemInfo := fun r =>
  {| qi_destination := qi_destination r; qi_kind := qi_kind r; qi_priority := qi_priority r;
     qi_len := qi_len r; qi_enqueued_at := qi_enqueued_at r; qi_expires_at := qi_expires_at r;
     qi_sequence := qi_sequence r; qi_service_wait := qi_service_wait r |}.
Definition item_bump (x : item) : item :=
  (x.1 <| qi_service_wait ::= fun w => sat_add U8_MAX w 1 |>, x.2).

(** How long ago an item was enqueued, in enqueue calls. *)
Definition age (next seq : Z) : Z := (next - seq) mod 2 ^ 64.
(** The policy as one number: the greatest leaves first. Starved items come before the others
    and go by age; the others go by priority, then age. *)
Definition urgency (next limit : Z) (i : QueueItemInfo) : Z :=
  (if limit <=? qi_service_wait i then 4 else priority_to_raw (qi_priority i)) * 2 ^ 64
  + age next (qi_sequence i).

Definition wf_slot (n : nat) (s : Slot) : Prop :=
  length (sl_payload s) = n /\ (sl_len s <= n)%nat /\ is_u8 (sl_service_wait s).
Definition wf_lane (n : nat) (l : Lane) : Prop :=
  Forall (wf_slot n) (la_slots l) /\
  la_depth l = length (filter occupied (la_slots l)) /\
  qc_depth (la_counters l) = Z.min (Z.of_nat (la_depth l)) U32_MAX /\
  qc_depth (la_counters l) <= qc_high_water (la_counters l).
Definition wf_queue (q : FixedQueues) : Prop :=
  wf_lane (fq_n q) (fq_unicast q) /\ wf_lane (fq_n q) (fq_broadcast q).
(** No item is older than [k] enqueue calls. *)
Definition ages_within (k : Z) (q : FixedQueues) : Prop :=
  forall kind, Forall (fun x : item => 1 <= age (fq_sequence q) (qi_sequence x.1) <= k)
                 (queue_items q kind).

(** ** The policy *)

Lemma age_older next k a b : k <= 2 ^ 63 -> 1 <= age next a <= k -> 1 <= age next b <= k ->
  is_older a b = (age next b <? age next a).
Proof.
  unfold age, is_older, U64_MAX. intros Hk Ha Hb.
  assert (E : (a - b) mod 2 ^ 64 = ((next - b) mod 2 ^ 64 - (next - a) mod 2 ^ 64) mod 2 ^ 64).
  { rewrite <-Zminus_mod. f_equal. lia. }
  rewrite E. destruct (Z.eqb_spec a b) as [->|_]; cbn [negb andb].
  { symmetry. apply Z.ltb_irrefl. }
  generalize dependent ((next - a) mod 2 ^ 64). generalize dependent ((next - b) mod 2 ^ 64).
  intros y Hy x Hx _. destruct (Z.ltb_spec y x); [apply Z.ltb_lt|apply Z.ltb_ge]; divmod.
Qed.

Lemma age_range next a : 0 <= age next a < 2 ^ 64.
Proof. apply Z.mod_pos_bound. lia. Qed.

Lemma better_urgency next k limit a b : k <= 2 ^ 63 ->
  1 <= age next (qi_sequence a) <= k -> 1 <= age next (qi_sequence b) <= k ->
  better a (Some b) limit = (urgency next limit b <? urgency next limit a).
Proof.
  intros Hk Ha Hb. unfold better, urgency. rewrite (age_older next k) by done.
  pose proof (age_range next (qi_sequence a)). pose proof (age_range next (qi_sequence b)).
  destruct (limit <=? qi_service_wait a), (limit <=? qi_service_wait b);
    destruct (qi_priority a), (qi_priority b); cbn [priority_to_raw Z.compare Pos.compare Pos.compare_cont];
    repeat match goal with |- context [?x <? ?y] => destruct (Z.ltb_spec x y) end;
    (reflexivity || lia).
Qed.

(** ** Lanes as lists of items *)

Lemma alter_middle {A} (f : A -> A) i (l : list A) x : l !! i = Some x ->
  l = take i l ++ x :: drop (S i) l /\ alter f i l = take i l ++ f x :: drop (S i) l.
Proof.
  intros H. pose proof (lookup_lt_Some _ _ _ H) as Hi. pose proof (take_drop_middle l i x H) as E.
  split; [done|]. rewrite <-E at 1. rewrite alter_app_r_alt by (rewrite length_take; lia).
  rewrite length_take, Nat.min_l, Nat.sub_diag by lia. done.
Qed.

(** The occupied slots other than slot [i]. *)
Definition others (i : nat) (slots : list Slot) : list Slot :=
  filter occupied (take i slots ++ drop (S i) slots).

Lemma occupied_middle i slots s : slots !! i = Some s ->
  filter occupied slots ≡ₚ filter occupied [s] ++ others i slots.
Proof.
  intros H. destruct (alter_middle id i slots s H) as [E _]. rewrite E at 1. unfold others.
  rewrite !filter_app, (filter_cons _ s). case_decide.
  - rewrite filter_cons, decide_True by done. cbn. by rewrite Permutation_middle.
  - rewrite filter_cons, decide_False by done. done.
Qed.

Lemma occupied_alter f i slots s : slots !! i = Some s ->
  filter occupied (alter f i slots) ≡ₚ filter occupied [f s] ++ others i slots.
Proof.
  intros H. destruct (alter_middle f i slots s H) as [_ E]. pose proof (lookup_lt_Some _ _ _ H).
  assert (Hf : alter f i slots !! i = Some (f s)) by (rewrite list_lookup_alter_eq, H; done).
  rewrite (occupied_middle i _ _ Hf). apply Permutation_app_head. unfold others.
  rewrite E, take_app_length', drop_app_ge by (rewrite length_take; lia).
  rewrite length_take, Nat.min_l, Nat.sub_succ_l, Nat.sub_diag by lia. done.
Qed.

(** A slot whose item can be taken. *)
Definition eligible (now : Instant) (s : Slot) : Prop :=
  occupied s /\ expired (sl_expires_at s) now = false.

Lemma eligible_skip now s :
  (is_free s || expired (sl_expires_at s) now = true /\ ~ eligible now s) \/
  (is_free s || expired (sl_expires_at s) now = false /\ eligible now s).
Proof.
  unfold eligible, occupied, is_free. destruct (sl_occupied s), (expired _ _); cbn; naive_solver.
Qed.

(** The item a selection has, and what it is at least as urgent as. *)
Lemma select_fold kind now limit next k entries best :
  k <= 2 ^ 63 ->
  Forall (fun e : nat * Slot => occupied e.2 -> 1 <= age next (sl_sequence e.2) <= k) entries ->
  (forall b, best = Some b -> 1 <= age next (qi_sequence b.2) <= k) ->
  match fold_left (select_step kind now limit) entries best with
  | None => best = None /\ Forall (fun e => ~ eligible now e.2) entries
  | Some r =>
      (best = Some r \/ exists i s, (i, s) ∈ entries /\ eligible now s /\
                                    r = (kind, i, slot_info kind s)) /\
      (forall b, best = Some b -> urgency next limit b.2 <= urgency next limit r.2) /\
      Forall (fun e => eligible now e.2 ->
                urgency next limit (slot_info kind e.2) <= urgency next limit r.2) entries
  end.
Proof.
  intros Hk He. revert best.
  induction He as [|[i s] entries Hs He IH]; intros best Hb; cbn [fold_left].
  { destruct best; split_and!; auto using Forall_nil_2. intros b [= ->]. lia. }
  unfold select_step at 2. cbn [fst snd] in *.
  destruct (eligible_skip now s) as [[-> Hn]|[-> [Ho Hx]]].
  { specialize (IH best Hb). destruct (fold_left _ _ _) as [r|]; [|naive_solver].
    destruct IH as ([?|(j & t & ? & ?)] & ? & ?); split_and!; try by eauto.
    - constructor; naive_solver.
    - right. exists j, t. rewrite elem_of_cons. eauto.
    - constructor; naive_solver. }
  specialize (Hs Ho).
  assert (Hself : forall b, Some (kind, i, slot_info kind s) = Some b ->
    1 <= age next (qi_sequence b.2) <= k) by (intros ? [= <-]; done).
  destruct best as [b|]; cbn [fmap option_fmap option_map].
  - specialize (Hb b eq_refl).
    rewrite (better_urgency next k) by done.
    destruct (Z.ltb_spec (urgency next limit b.2) (urgency next limit (slot_info kind s))).
    + specialize (IH _ Hself). destruct (fold_left _ _ _) as [r|]; [|naive_solver].
      destruct IH as (IH1 & IH2 & IH3). specialize (IH2 _ eq_refl). cbn [snd] in IH2.
      split_and!; [|intros ? [= <-]; lia|constructor; auto].
      right. destruct IH1 as [[= <-]|(j & t & ? & ?)]; [exists i, s|exists j, t];
        rewrite elem_of_cons; split_and!; auto; try done; naive_solver.
    + assert (Hb' : forall b', Some b = Some b' -> 1 <= age next (qi_sequence b'.2) <= k)
        by (intros ? [= <-]; done).
      specialize (IH _ Hb'). destruct (fold_left _ _ _) as [r|]; [|naive_solver].
      destruct IH as (IH1 & IH2 & IH3). specialize (IH2 _ eq_refl).
      split_and!; [|intros ? [= <-]; lia|constructor; [intros _; cbn [snd]; lia|done]].
      destruct IH1 as [?|(j & t & ? & ?)]; [by left|right; exists j, t; rewrite elem_of_cons; eauto].
  - cbn [better]. specialize (IH _ Hself). destruct (fold_left _ _ _) as [r|]; [|naive_solver].
    destruct IH as (IH1 & IH2 & IH3). specialize (IH2 _ eq_refl). cbn [snd] in IH2.
    split_and!; [|done|constructor; auto].
    right. destruct IH1 as [[= <-]|(j & t & ? & ?)]; [exists i, s|exists j, t];
        rewrite elem_of_cons; split_and!; auto; try done; naive_solver.
Qed.

Lemma elem_of_entries (slots : list Slot) i s : (i, s) ∈ imap pair slots <-> slots !! i = Some s.
Proof.
  rewrite list_elem_of_lookup. split.
  - intros [j H]. rewrite list_lookup_imap in H. by destruct (slots !! j) eqn:E; simplify_eq/=.
  - intros H. exists i. by rewrite list_lookup_imap, H.
Qed.

(** A lane's selection is its most urgent item that has not expired. *)
Lemma lane_select_spec kind now limit next k l : k <= 2 ^ 63 ->
  Forall (fun x : item => 1 <= age next (qi_sequence x.1) <= k) (lane_items kind l) ->
  match lane_select l kind now limit None with
  | None => forall i s, la_slots l !! i = Some s -> ~ eligible now s
  | Some (kd, i, info) =>
      kd = kind /\
      exists s, la_slots l !! i = Some s /\ eligible now s /\ info = slot_info kind s /\
        forall j t, la_slots l !! j = Some t -> eligible now t ->
          urgency next limit (slot_info kind t) <= urgency next limit info
  end.
Proof.
  intros Hk Ha. unfold lane_select.
  assert (He : Forall (fun e : nat * Slot => occupied e.2 -> 1 <= age next (sl_sequence e.2) <= k)
                 (imap pair (la_slots l))).
  { apply Forall_forall. intros [i s] Hi Ho. apply elem_of_entries in Hi. cbn in Ho.
    unfold lane_items in Ha. rewrite Forall_fmap, Forall_forall in Ha. apply (Ha s).
    apply list_elem_of_filter. split; [done|]. by eapply list_elem_of_lookup_2. }
  pose proof (select_fold kind now limit next k _ None Hk He ltac:(done)) as H.
  destruct (fold_left _ _ _) as [[[kd i] info]|].
  - destruct H as ([|(i' & s & Hi & Hs & [= -> -> ->])] & _ & H); [done|].
    split; [done|]. exists s. apply elem_of_entries in Hi. split_and!; try done.
    intros j t Ht. rewrite Forall_forall in H. by apply (H (j, t)), elem_of_entries.
  - destruct H as [_ H]. rewrite Forall_forall in H. intros i s Hi.
    by apply (H (i, s)), elem_of_entries.
Qed.

(** *** Removing an item *)

Lemma lane_remove_items kind l i s : la_slots l !! i = Some s -> occupied s ->
  lane_items kind l ≡ₚ slot_item kind s :: lane_items kind (lane_remove l i).
Proof.
  intros H Ho. unfold lane_items. cbn.
  rewrite (occupied_middle i _ _ H), (occupied_alter _ i _ _ H).
  rewrite (filter_cons _ s), decide_True by done.
  rewrite (filter_cons _ (s <| sl_occupied := false |>)), decide_False by done. done.
Qed.

Lemma qc_set_depth_spec c d :
  let c' := qc_set_depth c d in
  qc_depth c' = Z.min (Z.of_nat d) U32_MAX /\ qc_depth c' <= qc_high_water c'.
Proof. unfold qc_set_depth. cbn. bac_case; cbn in *; lia. Qed.

Lemma lane_remove_wf n l i s : wf_lane n l -> la_slots l !! i = Some s -> occupied s ->
  wf_lane n (lane_remove l i).
Proof.
  intros (Hs & Hd & Hc & Hh) H Ho. unfold wf_lane. cbn -[qc_record_dequeue].
  pose proof (Permutation_length (lane_remove_items Unicast l i s H Ho)) as Hp.
  unfold lane_items in Hp. cbn [length] in Hp. rewrite !length_fmap in Hp.
  split_and!; [|cbn in Hp; lia|apply qc_set_depth_spec..].
  apply Forall_alter; [done|]. by intros t _ Ht.
Qed.

(** *** Expiry *)

(** What expiry does to a slot. *)
Definition slot_expire (now : Instant) (s : Slot) : Slot :=
  if negb (is_free s) && expired (sl_expires_at s) now then s <| sl_occupied := false |> else s.

Lemma expire_fold n now l k : wf_lane n l -> (k <= length (la_slots l))%nat ->
  let r := fold_left (expire_step now) (seq 0 k) (l, 0%nat) in
  wf_lane n r.1 /\
  la_slots r.1 = map (slot_expire now) (take k (la_slots l)) ++ drop k (la_slots l).
Proof.
  intros Hl. induction k as [|k IH]; intros Hk; [done|]. specialize (IH ltac:(lia)).
  rewrite seq_S, fold_left_app. cbn [fold_left]. destruct (fold_left _ _ _) as [l' m].
  cbn [fst] in IH. destruct IH as [Hw Hs]. cbn [Nat.add].
  destruct (lookup_lt_is_Some_2 (la_slots l) k ltac:(lia)) as [s Hk'].
  assert (Hlk : la_slots l' !! k = Some s).
  { rewrite Hs, lookup_app_r by (rewrite length_map, length_take; lia).
    rewrite length_map, length_take, Nat.min_l, Nat.sub_diag by lia.
    by rewrite lookup_drop, Nat.add_0_r. }
  unfold expire_step. rewrite Hlk.
  rewrite (take_S_r _ _ _ Hk'), map_app. cbn [map].
  rewrite (drop_S _ _ _ Hk') in Hs. unfold slot_expire at 2.
  destruct (negb (is_free s) && _) eqn:Ex; cbn [fst].
  - apply andb_prop in Ex as [Ho _]. unfold is_free in Ho. rewrite negb_involutive in Ho.
    split; [apply (lane_remove_wf n l' k s Hw Hlk) in Ho; destruct Ho as (? & ? & ? & ?); by split_and!|].
    cbn. rewrite Hs, alter_app_r_alt by (rewrite length_map, length_take; lia).
    rewrite length_map, length_take, Nat.min_l, Nat.sub_diag by lia.
    by rewrite <-app_assoc.
  - split; [done|]. rewrite Hs. by rewrite <-app_assoc.
Qed.

Lemma lane_expire_spec n now l : wf_lane n l ->
  wf_lane n (lane_expire l now).1 /\
  la_slots (lane_expire l now).1 = map (slot_expire now) (la_slots l).
Proof.
  intros H. pose proof (expire_fold n now l (length (la_slots l)) H ltac:(done)) as E.
  by rewrite take_ge, drop_ge, app_nil_r in E by done.
Qed.

Lemma slot_expire_cases now s :
  (eligible now s /\ slot_expire now s = s) \/
  (occupied s /\ expired (sl_expires_at s) now = true /\ ~ occupied (slot_expire now s)) \/
  (~ occupied s /\ ~ occupied (slot_expire now s)).
Proof.
  unfold eligible, slot_expire, is_free, occupied.
  destruct (sl_occupied s) eqn:E, (expired _ _) eqn:Ex; cbn; rewrite ?E; naive_solver.
Qed.

Lemma lane_expire_items n kind now l : wf_lane n l ->
  lane_items kind (lane_expire l now).1 = filter (item_live now) (lane_items kind l).
Proof.
  intros H. unfold lane_items. rewrite (proj2 (lane_expire_spec n now l H)).
  induction (la_slots l) as [|s ss IH]; [done|]. cbn [map]. rewrite !filter_cons.
  destruct (slot_expire_cases now s) as [([Ho Hx] & E)|[(Ho & Hx & Hn)|[Ho Hn]]].
  - rewrite E, !decide_True by done. cbn [fmap list_fmap]. rewrite filter_cons, decide_True by done.
    by rewrite <-IH.
  - rewrite (decide_False _ _ Hn), (decide_True _ _ Ho). cbn [fmap list_fmap].
    rewrite filter_cons, decide_False by (unfold item_live; cbn; congruence). apply IH.
  - rewrite (decide_False _ _ Hn), (decide_False _ _ Ho). apply IH.
Qed.

(** *** Waiting *)

Lemma bump_wait_cases s :
  (occupied s /\ occupied (bump_wait s) /\
   forall kind, slot_item kind (bump_wait s) = item_bump (slot_item kind s)) \/
  (~ occupied s /\ ~ occupied (bump_wait s)).
Proof.
  unfold bump_wait, is_free, occupied. destruct (sl_occupied s) eqn:E; cbn; rewrite ?E; naive_solver.
Qed.

Lemma lane_bump_items kind l :
  lane_items kind (lane_bump_waits l) = item_bump <$> lane_items kind l.
Proof.
  unfold lane_items. cbn. induction (la_slots l) as [|s ss IH]; [done|]. cbn [map].
  rewrite !filter_cons. destruct (bump_wait_cases s) as [(Ho & Hb & E)|[Ho Hb]].
  - rewrite !decide_True by done. cbn [fmap list_fmap]. by rewrite <-IH, <-E.
  - rewrite !decide_False by done. apply IH.
Qed.

Lemma bump_wait_wf n s : wf_slot n s -> wf_slot n (bump_wait s).
Proof.
  intros (? & ? & ?). unfold bump_wait. destruct (negb _); [|done]. split_and!; try done.
  cbn. unfold sat_add, U8_MAX in *. width.
Qed.

Lemma lane_bump_wf n l : wf_lane n l -> wf_lane n (lane_bump_waits l).
Proof.
  intros (Hs & Hd & Hc & Hh). split_and!; try done.
  - cbn. apply Forall_fmap. eapply Forall_impl; [done|]. apply bump_wait_wf.
  - cbn. pose proof (f_equal length (lane_bump_items Unicast l)) as E.
    unfold lane_items in E. rewrite !length_fmap in E. rewrite Hd. by rewrite <-E.
Qed.

(** *** Adding an item *)

Lemma lane_free_slot_spec l :
  match lane_free_slot l with
  | Some i => exists s, la_slots l !! i = Some s /\ ~ occupied s
  | None => Forall occupied (la_slots l)
  end.
Proof.
  unfold lane_free_slot. destruct (list_find _ _) as [[i s]|] eqn:E; cbn.
  - apply list_find_Some in E as (H & Hf & _). exists s. split; [done|].
    unfold is_free, occupied in *. destruct (sl_occupied s); done.
  - apply list_find_None in E. eapply Forall_impl; [exact E|].
    intros s. unfold is_free, occupied. by destruct (sl_occupied s).
Qed.

Definition new_item (kind : QueueKind) (dest : Z) (payload : bytes) (priority : NetworkPriority)
  (now : Instant) (expires_at : option Instant) (sequence : Z) : item :=
  ({| qi_destination := dest; qi_kind := kind; qi_priority := priority;
      qi_len := length payload; qi_enqueued_at := now; qi_expires_at := expires_at;
      qi_sequence := sequence; qi_service_wait := 0 |}, payload).

Lemma slot_fill_item kind dest payload p now e sq s n : wf_slot n s -> (length payload <= n)%nat ->
  slot_item kind (slot_fill dest payload p now e sq s) = new_item kind dest payload p now e sq /\
  wf_slot n (slot_fill dest payload p now e sq s).
Proof.
  intros (Hn & _ & _) Hl. split.
  - unfold slot_item, new_item, slot_payload. cbn [sl_len sl_payload slot_fill].
    unfold splice. rewrite take_0. cbn [app]. by rewrite take_app_length.
  - split_and!; [|done|cbn; width]. cbn [sl_payload slot_fill].
    by rewrite length_splice by lia.
Qed.

Lemma lane_fill_spec n kind l i s dest payload p now e sq :
  wf_lane n l -> la_slots l !! i = Some s -> ~ occupied s -> (length payload <= n)%nat ->
  let l' := lane_record_enqueue
              (l <| la_slots ::= alter (slot_fill dest payload p now e sq) i |>) in
  wf_lane n l' /\ lane_items kind l' ≡ₚ new_item kind dest payload p now e sq :: lane_items kind l.
Proof.
  intros (Hs & Hd & Hc & Hh) H Ho Hl. cbv zeta.
  destruct (slot_fill_item kind dest payload p now e sq s n (Forall_lookup_1 _ _ _ _ Hs H) Hl) as [Ei Hw].
  assert (Hp : filter occupied (alter (slot_fill dest payload p now e sq) i (la_slots l)) ≡ₚ
    slot_fill dest payload p now e sq s :: filter occupied (la_slots l)).
  { rewrite (occupied_alter _ i _ _ H), (occupied_middle i _ _ H), !filter_cons.
    rewrite (decide_False _ _ Ho), decide_True by done. done. }
  split.
  - unfold wf_lane. cbn -[qc_record_enqueue]. rewrite Hp. cbn [length].
    split_and!; [|by rewrite Hd|apply qc_set_depth_spec..].
    apply Forall_alter; [done|]. intros t Ht _. rewrite H in Ht. by simplify_eq.
  - unfold lane_items. cbn -[slot_item]. rewrite Hp. cbn [fmap list_fmap]. by rewrite Ei.
Qed.

(** ** The queue's operations *)

Lemma fq_lane_over kind h q kd :
  fq_lane (over_lane kind h q) kd = if decide (kd = kind) then h (fq_lane q kd) else fq_lane q kd.
Proof. by destruct kind, kd. Qed.
Lemma over_lane_same kind h q :
  fq_sequence (over_lane kind h q) = fq_sequence q /\ fq_n (over_lane kind h q) = fq_n q /\
  fq_limit (over_lane kind h q) = fq_limit q.
Proof. by destruct kind. Qed.

Lemma wf_queue_iff q : wf_queue q <-> forall kind, wf_lane (fq_n q) (fq_lane q kind).
Proof. split; [by intros [? ?] []|]. intros H. split; [apply (H Unicast)|apply (H Broadcast)]. Qed.

Lemma over_lane_wf kind h q : wf_queue q ->
  wf_lane (fq_n q) (h (fq_lane q kind)) -> wf_queue (over_lane kind h q).
Proof.
  rewrite !wf_queue_iff. intros Hq Hh kd. rewrite fq_lane_over, (proj1 (proj2 (over_lane_same _ _ _))).
  case_decide; subst; auto.
Qed.

Lemma lane_counters_wf n (h : QueueCounters -> QueueCounters) l :
  (forall c, qc_depth (h c) = qc_depth c /\
             (qc_depth c <= qc_high_water c -> qc_depth c <= qc_high_water (h c))) ->
  wf_lane n l -> wf_lane n (l <| la_counters ::= h |>).
Proof.
  intros Hh (? & ? & ? & ?). destruct (Hh (la_counters l)) as [E ?].
  split_and!; cbn; rewrite ?E; auto.
Qed.

Lemma counters_mut_wf kind h q :
  (forall c, qc_depth (h c) = qc_depth c /\
             (qc_depth c <= qc_high_water c -> qc_depth c <= qc_high_water (h c))) ->
  wf_queue q -> wf_queue (counters_mut kind h q).
Proof.
  intros Hh Hq. apply over_lane_wf; [done|]. apply lane_counters_wf; [done|].
  by apply wf_queue_iff.
Qed.

Lemma counters_mut_items kind h q kd : queue_items (counters_mut kind h q) kd = queue_items q kd.
Proof. unfold queue_items. by destruct kind, kd. Qed.

Lemma fixed_expire_spec q now : wf_queue q ->
  let q' := (fixed_expire q now).1 in
  wf_queue q' /\ fq_sequence q' = fq_sequence q /\ fq_limit q' = fq_limit q /\ fq_n q' = fq_n q /\
  forall kind, queue_items q' kind = filter (item_live now) (queue_items q kind).
Proof.
  intros [Hu Hb]. unfold fixed_expire, queue_items.
  pose proof (lane_expire_spec _ now _ Hu) as [Hu' _].
  pose proof (lane_expire_spec _ now _ Hb) as [Hb' _].
  pose proof (lane_expire_items _ Unicast now _ Hu) as Iu.
  pose proof (lane_expire_items _ Broadcast now _ Hb) as Ib.
  destruct (lane_expire (fq_unicast q) now), (lane_expire (fq_broadcast q) now).
  cbn [fst] in *. split_and!; try done. by intros [].
Qed.

Lemma ages_within_sub k q q' : fq_sequence q' = fq_sequence q ->
  (forall kind x, x ∈ queue_items q' kind ->
     exists y, y ∈ queue_items q kind /\ qi_sequence y.1 = qi_sequence x.1) ->
  ages_within k q -> ages_within k q'.
Proof.
  intros E H Ha kind. apply Forall_forall. intros x Hx. rewrite E.
  destruct (H kind x Hx) as (y & Hy & <-).
  specialize (Ha kind). rewrite Forall_forall in Ha. by apply Ha.
Qed.

Lemma full_lane l : Forall occupied (la_slots l) -> filter occupied (la_slots l) = la_slots l.
Proof.
  induction 1 as [|s ss Hs _ IH]; [done|]. by rewrite filter_cons, decide_True, IH by done.
Qed.

Lemma free_lane l i s : la_slots l !! i = Some s -> ~ occupied s ->
  (length (filter occupied (la_slots l)) < length (la_slots l))%nat.
Proof.
  intros H Ho. destruct (alter_middle id i _ _ H) as [E _].
  rewrite E, filter_app, filter_cons, decide_False, !length_app by done. cbn [length].
  pose proof (length_filter occupied (take i (la_slots l))).
  pose proof (length_filter occupied (drop (S i) (la_slots l))). lia.
Qed.

(** What an enqueue that changes only the counters [h] of a class leaves. *)
Definition only_counted (kind : QueueKind) (h : QueueCounters -> QueueCounters)
  (q q' : FixedQueues) : Prop :=
  (forall kd, queue_items q' kd = queue_items q kd) /\
  fixed_counters q' kind = h (fixed_counters q kind).

Lemma enqueue_cases q dest payload p now e :
  wf_queue q ->
  let kind := from_destination dest in
  let lane := fq_lane q kind in
  let '(q', r) := fixed_enqueue_npdu q dest payload p now e in
  wf_queue q' /\
  match r with
  | Err QueueOversize =>
      (fq_n q < length payload)%nat /\ only_counted kind qc_record_drop_oversize q q'
  | Err QueueExpired =>
      (length payload <= fq_n q)%nat /\ expired e now = true /\
      only_counted kind qc_record_drop_expired q q'
  | Err QueueFull =>
      (length payload <= fq_n q)%nat /\ expired e now = false /\
      fixed_depth q kind = length (la_slots lane) /\
      only_counted kind qc_record_drop_full q q'
  | Ok _ =>
      (length payload <= fq_n q)%nat /\ expired e now = false /\
      (fixed_depth q kind < length (la_slots lane))%nat /\
      queue_items q' kind ≡ₚ new_item kind dest payload p now e (fq_sequence q)
                            :: queue_items q kind /\
      (forall kd, kd <> kind -> queue_items q' kd = queue_items q kd)
  end.
Proof.
  intros Hq kind lane. unfold fixed_enqueue_npdu. fold kind.
  case_decide as Hn.
  { split; [by apply counters_mut_wf; [split|]|]. split; [done|]. split; [apply counters_mut_items|].
    unfold fixed_counters, counters_mut. rewrite fq_lane_over, decide_True by done. done. }
  destruct (expired e now) eqn:Hx.
  { split; [by apply counters_mut_wf; [split|]|]. split_and!; [lia|done|split; [apply counters_mut_items|]].
    unfold fixed_counters, counters_mut. rewrite fq_lane_over, decide_True by done. done. }
  set (q1 := q <| fq_sequence := _ |>).
  assert (El : fq_lane q1 kind = lane) by by destruct kind.
  assert (Hq1 : wf_queue q1) by done.
  pose proof (proj1 (wf_queue_iff q) Hq kind) as Hl.
  rewrite El. pose proof (lane_free_slot_spec lane) as Hf.
  destruct (lane_free_slot lane) as [i|].
  - destruct Hf as (s & Hs & Ho).
    assert (Ef : forall h, over_lane kind lane_record_enqueue (over_lane kind h q1) =
      over_lane kind (fun l => lane_record_enqueue (h l)) q1) by by destruct kind.
    rewrite Ef.
    destruct (lane_fill_spec (fq_n q) kind lane i s dest payload p now e (fq_sequence q) Hl Hs Ho
      ltac:(lia)) as [Hw Hi].
    split; [apply over_lane_wf; [done|by rewrite El]|].
    split_and!; [lia|done| | |].
    + unfold fixed_depth. destruct Hl as (_ & E & _). rewrite E. by eapply free_lane.
    + unfold queue_items at 1. rewrite fq_lane_over, decide_True, El by done. exact Hi.
    + intros kd Hkd. unfold queue_items. rewrite fq_lane_over, decide_False by done. by destruct kd.
  - split; [by apply counters_mut_wf; [split|]|].
    split_and!; [lia|done| |split].
    + unfold fixed_depth. destruct Hl as (_ & E & _). rewrite E. by rewrite full_lane.
    + intros kd. rewrite counters_mut_items. by destruct kd.
    + unfold fixed_counters, counters_mut. rewrite fq_lane_over, decide_True, El by done. done.
Qed.

Lemma enqueue_same q dest payload p now e :
  let q' := (fixed_enqueue_npdu q dest payload p now e).1 in
  fq_n q' = fq_n q /\ fq_limit q' = fq_limit q /\
  (fq_sequence q' = fq_sequence q \/ fq_sequence q' = (fq_sequence q + 1) mod 2 ^ 64).
Proof.
  unfold fixed_enqueue_npdu. destruct (from_destination dest); case_decide; [by auto| |by auto|];
    destruct (expired e now); [by auto|destruct (lane_free_slot _); by auto|by auto|
                               destruct (lane_free_slot _); by auto].
Qed.

Lemma enqueue_accepted_sequence q dest payload p now e :
  (fixed_enqueue_npdu q dest payload p now e).2 = Ok tt ->
  fq_sequence (fixed_enqueue_npdu q dest payload p now e).1 = (fq_sequence q + 1) mod 2 ^ 64.
Proof.
  unfold fixed_enqueue_npdu. destruct (from_destination dest); case_decide; try done;
    destruct (expired e now); try done; by destruct (lane_free_slot _).
Qed.

Lemma age_next next seq k : 1 <= age next seq <= k -> k < 2 ^ 64 - 1 ->
  1 <= age ((next + 1) mod 2 ^ 64) seq <= k + 1.
Proof.
  unfold age. intros H Hk. rewrite Zminus_mod_idemp_l.
  replace (next + 1 - seq) with (next - seq + 1) by lia. rewrite <-Zplus_mod_idemp_l.
  rewrite Z.mod_small by lia. lia.
Qed.

Lemma enqueue_ages q dest payload p now e k :
  wf_queue q -> ages_within k q -> 0 <= k < 2 ^ 64 - 1 ->
  ages_within (k + 1) (fixed_enqueue_npdu q dest payload p now e).1.
Proof.
  intros Hq Ha Hk. pose proof (enqueue_cases q dest payload p now e Hq) as H.
  pose proof (enqueue_same q dest payload p now e) as (_ & _ & Hs).
  pose proof (enqueue_accepted_sequence q dest payload p now e) as Hok.
  destruct (fixed_enqueue_npdu q dest payload p now e) as [q' r]. cbn [fst snd] in *.
  assert (Hold : forall kd x, x ∈ queue_items q kd ->
            1 <= age (fq_sequence q') (qi_sequence x.1) <= k + 1).
  { intros kd x Hx. specialize (Ha kd). rewrite Forall_forall in Ha. specialize (Ha x Hx).
    destruct Hs as [->| ->]; [lia|apply age_next; lia]. }
  intros kd. apply Forall_forall. intros x Hx.
  destruct H as [_ H]. destruct r as [[]|[]].
  - destruct H as (_ & _ & _ & Hi & Hne).
    destruct (decide (kd = from_destination dest)) as [->|Hkd].
    + rewrite Hi, elem_of_cons in Hx. destruct Hx as [->|Hx]; [|by eapply Hold].
      cbn. rewrite Hok by done. unfold age. rewrite Zminus_mod_idemp_l.
      replace (fq_sequence q + 1 - fq_sequence q) with 1 by lia. rewrite Z.mod_small by lia. lia.
    + rewrite Hne in Hx by done. by eapply Hold.
  - destruct H as (_ & _ & _ & Hi & _). rewrite Hi in Hx. by eapply Hold.
  - destruct H as (_ & Hi & _). rewrite Hi in Hx. by eapply Hold.
  - destruct H as (_ & _ & Hi & _). rewrite Hi in Hx. by eapply Hold.
Qed.

(** What [dequeue_kind] hands out for an item. *)
Definition dequeued_item (x : item) : DequeuedNpdu :=
  {| dq_destination := qi_destination x.1; dq_kind := qi_kind x.1; dq_priority := qi_priority x.1;
     dq_sequence := qi_sequence x.1; dq_npdu := x.2 |}.

(** [x] is the most urgent of the items of a class live at [now], and [rest] are the others. *)
Definition takes (q : FixedQueues) (kind : QueueKind) (now : Instant) (x : item)
  (rest : list item) : Prop :=
  let u (y : item) := urgency (fq_sequence q) (fq_starvation_limit q) y.1 in
  filter (item_live now) (queue_items q kind) ≡ₚ x :: rest /\ Forall (fun y => u y <= u x) rest.

Lemma item_len n kind s : wf_slot n s -> qi_len (slot_item kind s).1 = length (slot_item kind s).2.
Proof.
  intros (Hp & Hl & _). cbn. unfold slot_payload. rewrite length_take. lia.
Qed.

(** After expiry, a selection is the most urgent live item. *)
Lemma select_kind_cases q kind now k : wf_queue q -> ages_within k q -> k <= 2 ^ 63 ->
  let q1 := (fixed_expire q now).1 in
  match fixed_select_kind q1 kind now with
  | None => filter (item_live now) (queue_items q kind) = []
  | Some (_, i, info) =>
      exists s, la_slots (fq_lane q1 kind) !! i = Some s /\ occupied s /\
        info = slot_info kind s /\
        takes q kind now (slot_item kind s) (lane_items kind (lane_remove (fq_lane q1 kind) i))
  end.
Proof.
  intros Hq Ha Hk. cbv zeta.
  pose proof (fixed_expire_spec q now Hq) as (Hq1 & Hs & Hlim & Hn & Hi).
  set (q1 := (fixed_expire q now).1) in *.
  assert (Ha1 : Forall (fun x : item => 1 <= age (fq_sequence q) (qi_sequence x.1) <= k)
                  (lane_items kind (fq_lane q1 kind))).
  { change (lane_items kind (fq_lane q1 kind)) with (queue_items q1 kind). rewrite Hi.
    specialize (Ha kind). rewrite Forall_forall in *. intros x [_ Hx]%list_elem_of_filter. auto. }
  pose proof (lane_select_spec kind now (fq_starvation_limit q1) (fq_sequence q) k _ Hk Ha1) as H.
  assert (El : fq_starvation_limit q1 = fq_starvation_limit q)
    by (unfold fq_starvation_limit; by rewrite Hlim).
  unfold fixed_select_kind. rewrite El in *.
  assert (Hel : forall s, s ∈ la_slots (fq_lane q1 kind) -> occupied s -> eligible now s).
  { intros s Hin Ho. split; [done|].
    assert (Hx : slot_item kind s ∈ queue_items q1 kind).
    { apply list_elem_of_fmap. exists s. split; [done|]. by apply list_elem_of_filter. }
    rewrite Hi in Hx. apply list_elem_of_filter in Hx as [Hx _]. exact Hx. }
  destruct (lane_select _ _ _ _ _) as [[[kd i] info]|].
  - destruct H as (-> & s & Hsl & He & -> & Hmax). exists s.
    destruct He as [Ho Hx]. split_and!; try done.
    pose proof (lane_remove_items kind _ _ _ Hsl Ho) as Hp. split.
    + rewrite <-Hi. exact Hp.
    + apply Forall_forall. intros y Hy.
      assert (Hy' : y ∈ lane_items kind (fq_lane q1 kind)) by (rewrite Hp; by right).
      apply list_elem_of_fmap in Hy' as (t & -> & Ht). apply list_elem_of_filter in Ht as [Hot Ht].
      destruct (list_elem_of_lookup_1 _ _ Ht) as [j Hj]. exact (Hmax j t Hj (Hel t Ht Hot)).
  - rewrite <-Hi. unfold queue_items, lane_items.
    destruct (filter occupied (la_slots (fq_lane q1 kind))) as [|s ss] eqn:E; [done|]. exfalso.
    assert (Hin : s ∈ filter occupied (la_slots (fq_lane q1 kind))) by (rewrite E; by left).
    apply list_elem_of_filter in Hin as [Ho Hin].
    destruct (list_elem_of_lookup_1 _ _ Hin) as [j Hj]. exact (H j s Hj (Hel s Hin Ho)).
Qed.

(** The slot an item left still holds its octets. *)
Lemma removed_payload l i s d : la_slots l !! i = Some s ->
  slot_payload (nth i (la_slots (lane_bump_waits (lane_remove l i))) d) = slot_payload s.
Proof.
  intros H. rewrite (nth_lookup_Some _ i d (s <| sl_occupied := false |>)); [done|].
  cbn. rewrite list_lookup_fmap, list_lookup_alter_eq, H. done.
Qed.

Lemma dequeue_cases q kind now max_len k : wf_queue q -> ages_within k q -> k <= 2 ^ 63 ->
  let '(q', r) := fixed_dequeue_kind q kind now max_len in
  let live kd := filter (item_live now) (queue_items q kd) in
  wf_queue q' /\ fq_sequence q' = fq_sequence q /\ fq_limit q' = fq_limit q /\ fq_n q' = fq_n q /\
  match r with
  | Ok None => live kind = [] /\ forall kd, queue_items q' kd = live kd
  | Ok (Some d) => exists x rest, takes q kind now x rest /\ (length x.2 <= max_len)%nat /\
      d = dequeued_item x /\ queue_items q' kind = item_bump <$> rest /\
      (forall kd, kd <> kind -> queue_items q' kd = item_bump <$> live kd)
  | Err e => e = QueueOversize /\ exists x rest, takes q kind now x rest /\
      (max_len < length x.2)%nat /\ queue_items q' kind = rest /\
      (forall kd, kd <> kind -> queue_items q' kd = live kd)
  end.
Proof.
  intros Hq Ha Hk. unfold fixed_dequeue_kind.
  pose proof (select_kind_cases q kind now k Hq Ha Hk) as Hsel.
  pose proof (fixed_expire_spec q now Hq) as (Hq1 & Hs & Hlim & Hn & Hi).
  destruct (fixed_expire q now) as [q1 cnt]. cbn [fst] in *.
  destruct (fixed_select_kind q1 kind now) as [[[kd i] info]|]; [|by split_and!].
  destruct Hsel as (s & Hsl & Ho & -> & Ht).
  pose proof (proj1 (wf_queue_iff q1) Hq1 kind) as Hl.
  assert (Hw2 : wf_queue (over_lane kind (fun l => lane_remove l i) q1)).
  { apply over_lane_wf; [done|]. by eapply lane_remove_wf. }
  pose proof (over_lane_same kind (fun l => lane_remove l i) q1) as (E1 & E2 & E3).
  assert (Hlen : qi_len (slot_info kind s) = length (slot_item kind s).2).
  { eapply (item_len (fq_n q1) kind). destruct Hl as (Hl & _). by eapply Forall_lookup_1. }
  rewrite Hlen. case_decide as Hm.
  - split; [by apply counters_mut_wf; [split|]|].
    pose proof (over_lane_same kind (fun l => l <| la_counters ::= qc_record_drop_oversize |>)
      (over_lane kind (fun l => lane_remove l i) q1)) as (F1 & F2 & F3).
    unfold counters_mut. split_and!; try congruence.
    eexists _, _. split_and!; [exact Ht|done| |].
    + fold (counters_mut kind qc_record_drop_oversize (over_lane kind (fun l => lane_remove l i) q1)).
      rewrite counters_mut_items. unfold queue_items. by rewrite fq_lane_over, decide_True by done.
    + intros kd' Hkd.
      fold (counters_mut kind qc_record_drop_oversize (over_lane kind (fun l => lane_remove l i) q1)).
      rewrite counters_mut_items, <-Hi. unfold queue_items.
      by rewrite fq_lane_over, decide_False by done.
  - set (q2 := over_lane kind (fun l => lane_remove l i) q1) in *.
    assert (Hb : forall kd, fq_lane (q2 <| fq_unicast ::= lane_bump_waits |> <| fq_broadcast ::= lane_bump_waits |>) kd =
      lane_bump_waits (fq_lane q2 kd)) by by intros [].
    split; [apply wf_queue_iff; intros kd'; rewrite Hb; apply lane_bump_wf;
            by apply (proj1 (wf_queue_iff q2) Hw2)|].
    split_and!; try (cbn; congruence).
    eexists _, _. split_and!; [exact Ht|lia| | |].
    + rewrite Hb. unfold q2 at 1. rewrite fq_lane_over, decide_True by done.
      by rewrite (removed_payload _ i s).
    + unfold queue_items. rewrite Hb, lane_bump_items. unfold q2.
      by rewrite fq_lane_over, decide_True by done.
    + intros kd' Hkd. rewrite <-Hi. unfold queue_items. rewrite Hb, lane_bump_items. unfold q2.
      by rewrite fq_lane_over, decide_False by done.
Qed.

Lemma takes_sub q kind now x rest : takes q kind now x rest ->
  forall y, y ∈ rest -> y ∈ queue_items q kind.
Proof.
  intros [Hp _] y Hy. assert (H : y ∈ filter (item_live now) (queue_items q kind))
    by (rewrite Hp; by right). by apply list_elem_of_filter in H as [_ H].
Qed.

Lemma live_sub q kind now y : y ∈ filter (item_live now) (queue_items q kind) -> y ∈ queue_items q kind.
Proof. by intros [_ H]%list_elem_of_filter. Qed.

(** No item of a queue after [dequeue_kind] is new. *)
Lemma dequeue_sub q kind now max_len k : wf_queue q -> ages_within k q -> k <= 2 ^ 63 ->
  forall kd x, x ∈ queue_items (fixed_dequeue_kind q kind now max_len).1 kd ->
    exists y, y ∈ queue_items q kd /\ qi_sequence y.1 = qi_sequence x.1.
Proof.
  intros Hq Ha Hk kd x Hx. pose proof (dequeue_cases q kind now max_len k Hq Ha Hk) as H.
  destruct (fixed_dequeue_kind q kind now max_len) as [q' r]. destruct H as (_ & _ & _ & _ & H).
  cbn [fst] in Hx.
  destruct r as [[d|]|[]]; try (by destruct H).
  - destruct H as (y & rest & Ht & _ & _ & Hi & Hne).
    destruct (decide (kd = kind)) as [->|Hkd]; [rewrite Hi in Hx|rewrite Hne in Hx by done];
      apply list_elem_of_fmap in Hx as (z & -> & Hz); exists z;
      split; eauto using takes_sub, live_sub.
  - destruct H as [_ H]. rewrite H in Hx. eauto using live_sub.
  - destruct H as (_ & y & rest & Ht & _ & Hi & Hne).
    destruct (decide (kd = kind)) as [->|Hkd]; [subst rest|rewrite Hne in Hx by done];
      eauto using takes_sub, live_sub.
Qed.

Lemma dequeue_ages q kind now max_len k : wf_queue q -> ages_within k q -> k <= 2 ^ 63 ->
  ages_within k (fixed_dequeue_kind q kind now max_len).1.
Proof.
  intros Hq Ha Hk. eapply (ages_within_sub k q); [|by eapply dequeue_sub|done].
  pose proof (dequeue_cases q kind now max_len k Hq Ha Hk) as H.
  destruct (fixed_dequeue_kind q kind now max_len). by destruct H as (_ & H & _).
Qed.

(** ** Histories of a queue *)

(** A call of the trait that changes the queue. *)
Inductive QueueOp :=
  | OpLimit (limit : Z)
  | OpEnqueue (dest : Z) (payload : bytes) (p : NetworkPriority) (now : Instant) (e : option Instant)
  | OpExpire (now : Instant)
  | OpDequeue (kind : QueueKind) (now : Instant) (max_len : nat)
  | OpTake (kind : QueueKind).

Definition run_op {Q} `{QueueStorage Q} (q : Q) (op : QueueOp) : Q :=
  match op with
  | OpLimit limit => set_starvation_limit q limit
  | OpEnqueue dest payload p now e => (queue_enqueue_npdu q dest payload p now e).1
  | OpExpire now => (queue_expire q now).1
  | OpDequeue kind now max_len => (queue_dequeue_kind q kind now max_len).1
  | OpTake kind => (queue_take_counters q kind).1
  end.

(** How many calls of a history hand out an item of a class. *)
Definition hands_out {Q} `{QueueStorage Q} (kind : QueueKind) (q : Q) (op : QueueOp) : nat :=
  match op with
  | OpDequeue kd now max_len =>
      match (queue_dequeue_kind q kd now max_len).2 with
      | Ok (Some _) => if decide (kd = kind) then 1 else 0
      | _ => 0
      end
  | _ => 0
  end.
Fixpoint handed_out {Q} `{QueueStorage Q} (kind : QueueKind) (q : Q) (ops : list QueueOp) : nat :=
  match ops with
  | [] => 0
  | op :: ops => hands_out kind q op + handed_out kind (run_op q op) ops
  end.

Definition item_seq (x : item) : Z := qi_sequence x.1.
(** The invariant of a queue after [k] calls. *)
Definition queue_inv (k : Z) (q : FixedQueues) : Prop :=
  wf_queue q /\ ages_within k q /\ forall kind, NoDup (item_seq <$> queue_items q kind).

Lemma ages_within_mono k k' q : k <= k' -> ages_within k q -> ages_within k' q.
Proof. intros Hk H kind. eapply Forall_impl; [apply H|]. cbn. lia. Qed.

Lemma distinct_takes q kind now x rest : takes q kind now x rest ->
  NoDup (item_seq <$> queue_items q kind) -> NoDup (item_seq <$> rest).
Proof.
  intros [Hp _] H.
  assert (Hl : NoDup (item_seq <$> filter (item_live now) (queue_items q kind))).
  { eapply sublist_NoDup; [exact H|]. apply fmap_sublist, sublist_filter. }
  rewrite Hp in Hl. by apply NoDup_cons in Hl as [_ Hl].
Qed.

Lemma distinct_live q kind now : NoDup (item_seq <$> queue_items q kind) ->
  NoDup (item_seq <$> filter (item_live now) (queue_items q kind)).
Proof. intros H. eapply sublist_NoDup; [exact H|]. apply fmap_sublist, sublist_filter. Qed.

Lemma seq_bump (xs : list item) : item_seq <$> (item_bump <$> xs) = item_seq <$> xs.
Proof. rewrite <-list_fmap_compose. by apply list_fmap_ext. Qed.

Lemma enqueue_distinct q dest payload p now e k : queue_inv k q -> k <= 2 ^ 63 ->
  forall kind, NoDup (item_seq <$> queue_items (fixed_enqueue_npdu q dest payload p now e).1 kind).
Proof.
  intros (Hq & Ha & Hd) Hk kind. pose proof (enqueue_cases q dest payload p now e Hq) as H.
  destruct (fixed_enqueue_npdu q dest payload p now e) as [q' r]. cbn [fst] in *.
  destruct H as [_ H]. destruct r as [[]|[]].
  - destruct H as (_ & _ & _ & Hi & Hne).
    destruct (decide (kind = from_destination dest)) as [->|Hkd]; [|by rewrite Hne].
    rewrite Hi. cbn [fmap list_fmap]. apply NoDup_cons. split; [|apply Hd].
    intros (x & Ex & Hx)%list_elem_of_fmap. specialize (Ha (from_destination dest)).
    rewrite Forall_forall in Ha. specialize (Ha x Hx). unfold item_seq in Ex. cbn in Ex.
    rewrite <-Ex in Ha. unfold age in Ha. rewrite Z.sub_diag, Z.mod_0_l in Ha by lia. lia.
  - destruct H as (_ & _ & _ & Hi & _). by rewrite Hi.
  - destruct H as (_ & Hi & _). by rewrite Hi.
  - destruct H as (_ & _ & Hi & _). by rewrite Hi.
Qed.

Lemma dequeue_distinct q kind now max_len k : queue_inv k q -> k <= 2 ^ 63 ->
  forall kd, NoDup (item_seq <$> queue_items (fixed_dequeue_kind q kind now max_len).1 kd).
Proof.
  intros (Hq & Ha & Hd) Hk kd. pose proof (dequeue_cases q kind now max_len k Hq Ha Hk) as H.
  destruct (fixed_dequeue_kind q kind now max_len) as [q' r]. cbn [fst].
  destruct H as (_ & _ & _ & _ & H). destruct r as [[d|]|er].
  - destruct H as (x & rest & Ht & _ & _ & Hi & Hne). destruct (decide (kd = kind)) as [->|Hkd].
    + rewrite Hi, seq_bump. by eapply distinct_takes.
    + rewrite Hne, seq_bump by done. by apply distinct_live.
  - destruct H as [_ H]. rewrite H. by apply distinct_live.
  - destruct H as (_ & x & rest & Ht & _ & Hi & Hne). destruct (decide (kd = kind)) as [->|Hkd].
    + rewrite Hi. by eapply distinct_takes.
    + rewrite Hne by done. by apply distinct_live.
Qed.

Lemma expire_ages q now k : wf_queue q -> ages_within k q -> ages_within k (fixed_expire q now).1.
Proof.
  intros Hq Ha. pose proof (fixed_expire_spec q now Hq) as (_ & Hs & _ & _ & Hi).
  eapply (ages_within_sub k q); [done| |done]. intros kd x Hx. rewrite Hi in Hx.
  eauto using live_sub.
Qed.

Lemma take_wf q kind : wf_queue q -> wf_queue (fixed_take_counters q kind).1.
Proof. apply counters_mut_wf. intros c. cbn. split; [done|lia]. Qed.

Lemma run_op_inv k q op : queue_inv k q -> 0 <= k < 2 ^ 63 -> queue_inv (k + 1) (run_op q op).
Proof.
  intros (Hq & Ha & Hd) Hk. pose proof (ages_within_mono k (k + 1) _ ltac:(lia) Ha) as Ha'.
  destruct op as [limit|dest payload p now e|now|kind now max_len|kind]; cbn [run_op].
  - done.
  - split_and!; [|by apply enqueue_ages; [..|lia]|by apply (enqueue_distinct _ _ _ _ _ _ k); [|lia]].
    pose proof (enqueue_cases q dest payload p now e Hq) as H. cbn.
    destruct (fixed_enqueue_npdu _ _ _ _ _ _). by destruct H.
  - pose proof (fixed_expire_spec q now Hq) as (Hw & _ & _ & _ & Hi).
    split_and!; [done|by apply expire_ages|]. intros kd. cbn. rewrite Hi. by apply distinct_live.
  - split_and!.
    + pose proof (dequeue_cases q kind now max_len k Hq Ha ltac:(lia)) as H. cbn.
      destruct (fixed_dequeue_kind _ _ _ _). by destruct H.
    + eapply ages_within_mono; [|apply (dequeue_ages _ _ _ _ k)]; [lia|done|done|lia].
    + by apply (dequeue_distinct _ _ _ _ k); [|lia].
  - split_and!; [by apply take_wf|..]; intros kd; cbn; [rewrite counters_mut_items|rewrite counters_mut_items; done].
    destruct kind; apply Ha'.
Qed.

Lemma run_inv ops k q : queue_inv k q -> 0 <= k -> k + Z.of_nat (length ops) <= 2 ^ 63 ->
  queue_inv (k + Z.of_nat (length ops)) (fold_left run_op ops q).
Proof.
  revert k q. induction ops as [|op ops IH]; intros k q H Hk Hl; cbn [fold_left length] in *.
  { by rewrite Z.add_0_r. }
  replace (k + Z.of_nat (S (length ops))) with (k + 1 + Z.of_nat (length ops)) by lia.
  apply IH; [|lia..]. apply run_op_inv; [done|lia].
Qed.

Lemma new_items u b n kind : queue_items (fixed_new u b n) kind = [].
Proof.
  assert (H : forall m, filter occupied (replicate m (EMPTY_QUEUE_SLOT n)) = []).
  { induction m; [done|]. cbn [replicate]. by rewrite filter_cons, decide_False. }
  unfold queue_items, lane_items. destruct kind; cbn -[filter replicate]; by rewrite H.
Qed.

Lemma new_inv u b n : queue_inv 0 (fixed_new u b n).
Proof.
  split_and!.
  - apply wf_queue_iff. intros kind. split_and!.
    + destruct kind; apply Forall_replicate; (split_and!; [apply length_replicate|cbn; lia|cbn; width]).
    + pose proof (f_equal length (new_items u b n kind)) as E. unfold queue_items, lane_items in E.
      rewrite length_fmap in E. rewrite E. by destruct kind.
    + by destruct kind.
    + by destruct kind.
  - intros kind. by rewrite new_items.
  - intros kind. rewrite new_items. constructor.
Qed.

(** ** No item starves *)

(** The items of a class enqueued no later than [x], itself included. *)
Definition ahead (next : Z) (x : item) (ys : list item) : list item :=
  filter (fun y => age next (item_seq x) <= age next (item_seq y)) ys.
(** How many items its class can hand out before [x] leaves. *)
Definition patience (q : FixedQueues) (kind : QueueKind) (x : item) : nat :=
  (Z.to_nat (fq_starvation_limit q - qi_service_wait x.1)
   + length (ahead (fq_sequence q) x (queue_items q kind)))%nat.

Lemma same_item xs (x y : item) : NoDup (item_seq <$> xs) -> x ∈ xs -> y ∈ xs ->
  item_seq y = item_seq x -> y = x.
Proof.
  intros Hd (i & Hi)%list_elem_of_lookup (j & Hj)%list_elem_of_lookup E.
  assert (i = j) as ->; [|congruence].
  apply (NoDup_lookup (item_seq <$> xs) i j (item_seq x)); [done|..];
    rewrite list_lookup_fmap; [by rewrite Hi|rewrite Hj; cbn; congruence].
Qed.

Lemma ahead_perm next x ys zs : ys ≡ₚ zs -> length (ahead next x ys) = length (ahead next x zs).
Proof. intros H. unfold ahead. by rewrite H. Qed.

Lemma ahead_live next x now ys : (length (ahead next x (filter (item_live now) ys)) <= length (ahead next x ys))%nat.
Proof.
  unfold ahead. induction ys as [|y ys IH]; [done|]. rewrite filter_cons.
  case_decide; rewrite ?filter_cons; repeat case_decide; cbn [length]; lia.
Qed.

Lemma ahead_bump next x ys : length (ahead next (item_bump x) (item_bump <$> ys)) = length (ahead next x ys).
Proof.
  unfold ahead. induction ys as [|y ys IH]; [done|]. cbn [fmap list_fmap]. rewrite !filter_cons.
  change (item_seq (item_bump ?z)) with (item_seq z) in *.
  repeat case_decide; cbn [length]; rewrite ?IH; done.
Qed.

Lemma bump_wait_bound w limit : is_u8 limit -> is_u8 w ->
  (Z.to_nat (limit - sat_add U8_MAX w 1) <= Z.to_nat (limit - w))%nat /\
  (w < limit -> (Z.to_nat (limit - sat_add U8_MAX w 1) < Z.to_nat (limit - w))%nat).
Proof. intros. width. Qed.

Lemma item_wait n kind l x : wf_lane n l -> x ∈ lane_items kind l -> is_u8 (qi_service_wait x.1).
Proof.
  intros (Hs & _) (s & -> & Hin)%list_elem_of_fmap. apply list_elem_of_filter in Hin as [_ Hin].
  rewrite Forall_forall in Hs. by apply Hs.
Qed.

(** The item taken is ahead of every starved one. *)
Lemma takes_ahead q kind now d rest x : takes q kind now d rest -> x ∈ rest ->
  (fq_starvation_limit q <=? qi_service_wait x.1) = true ->
  age (fq_sequence q) (item_seq x) <= age (fq_sequence q) (item_seq d).
Proof.
  intros [_ Hu] Hx Hw. rewrite Forall_forall in Hu. specialize (Hu x Hx). cbv beta zeta in Hu.
  unfold urgency in Hu. rewrite Hw in Hu. unfold item_seq.
  pose proof (age_range (fq_sequence q) (qi_sequence x.1)).
  pose proof (age_range (fq_sequence q) (qi_sequence d.1)).
  destruct (_ <=? qi_service_wait d.1); [lia|]. destruct (qi_priority d.1); cbn in Hu; lia.
Qed.

Lemma patience_bump q q' kind x ys : fq_sequence q' = fq_sequence q -> fq_limit q' = fq_limit q ->
  queue_items q' kind = item_bump <$> ys ->
  patience q' kind (item_bump x) =
    (Z.to_nat (fq_starvation_limit q - sat_add U8_MAX (qi_service_wait x.1) 1)
     + length (ahead (fq_sequence q) x ys))%nat.
Proof.
  intros Es El Hi. unfold patience, fq_starvation_limit. rewrite Es, El, Hi, ahead_bump. done.
Qed.

Lemma patience_shrinks q q' kind x ys now : fq_sequence q' = fq_sequence q -> fq_limit q' = fq_limit q ->
  queue_items q' kind ≡ₚ ys ->
  (length (ahead (fq_sequence q) x ys) <= length (ahead (fq_sequence q) x (filter (item_live now) (queue_items q kind))))%nat ->
  (patience q' kind x <= patience q kind x)%nat.
Proof.
  intros Es El Hi H. unfold patience, fq_starvation_limit. rewrite Es, El, (ahead_perm _ _ _ _ Hi).
  pose proof (ahead_live (fq_sequence q) x now (queue_items q kind)). lia.
Qed.

(** Every item handed out of its class uses up the patience of one that stays. *)
Lemma dequeue_patience k q kind now max_len kd x y :
  queue_inv k q -> k <= 2 ^ 63 -> is_u8 (fq_starvation_limit q) ->
  let q' := run_op q (OpDequeue kd now max_len) in
  x ∈ queue_items q kind -> y ∈ queue_items q' kind -> item_seq y = item_seq x ->
  (patience q' kind y + hands_out kind q (OpDequeue kd now max_len) <= patience q kind x)%nat.
Proof.
  intros (Hq & Ha & Hd) Hk Hlim q' Hx Hy E. subst q'. cbn [run_op hands_out queue_dequeue_kind FixedQueues_storage] in *.
  pose proof (dequeue_cases q kd now max_len k Hq Ha Hk) as H.
  destruct (fixed_dequeue_kind q kd now max_len) as [q' r]. cbn [fst snd] in *.
  destruct H as (_ & Es & El & _ & H).
  pose proof (item_wait _ _ _ _ (proj1 (wf_queue_iff q) Hq kind) Hx) as Hw8.
  destruct (bump_wait_bound (qi_service_wait x.1) _ Hlim Hw8) as [Hb1 Hb2].
  pose proof (ahead_live (fq_sequence q) x now (queue_items q kind)) as Hal.
  assert (Hsame : forall z, z ∈ queue_items q kind -> item_seq z = item_seq x -> z = x)
    by (intros; by eapply same_item).
  destruct r as [[d|]|er].
  - destruct H as (t & rest & Ht & _ & _ & Hi & Hne). destruct (decide (kd = kind)) as [->|Hkd].
    + rewrite Hi in Hy. apply list_elem_of_fmap in Hy as (z & -> & Hz).
      assert (z = x) as -> by (apply Hsame; [by eapply takes_sub|exact E]). rewrite (patience_bump q q' kind x rest) by done.
      rewrite (ahead_perm _ _ _ _ (proj1 Ht)) in Hal. unfold patience.
      unfold ahead in Hal at 1. rewrite filter_cons in Hal.
      destruct (fq_starvation_limit q <=? qi_service_wait x.1) eqn:Hst.
      * rewrite (decide_True _ _ (takes_ahead _ _ _ _ _ _ Ht Hz Hst)) in Hal. fold (ahead (fq_sequence q) x rest) in Hal.
        cbn [length] in Hal. lia.
      * apply Z.leb_gt in Hst. fold (ahead (fq_sequence q) x rest) in Hal.
        case_decide; cbn [length] in Hal; lia.
    + rewrite Hne in Hy by congruence. apply list_elem_of_fmap in Hy as (z & -> & Hz).
      assert (z = x) as -> by (apply Hsame; [by eapply live_sub|exact E]).
      rewrite (patience_bump q q' kind x _ Es El (Hne kind ltac:(congruence))).
      unfold patience. lia.
  - destruct H as [_ H]. rewrite Nat.add_0_r. pose proof Hy as Hy'. rewrite H in Hy'.
    assert (y = x) as -> by (apply Hsame; [by eapply live_sub|exact E]).
    by apply (patience_shrinks q q' kind x _ now Es El (reflexivity _)); rewrite H.
  - destruct H as (_ & t & rest & Ht & _ & Hi & Hne). rewrite Nat.add_0_r.
    destruct (decide (kd = kind)) as [->|Hkd].
    + assert (y = x) as -> by (apply Hsame; [eapply takes_sub; [done|congruence]|exact E]).
      apply (patience_shrinks q q' kind x rest now Es El); [by rewrite Hi|].
      rewrite (ahead_perm _ _ _ _ (proj1 Ht)). unfold ahead. rewrite (filter_cons _ t).
      case_decide; cbn [length]; lia.
    + specialize (Hne kind ltac:(congruence)). pose proof Hy as Hy'. rewrite Hne in Hy'.
      assert (y = x) as -> by (apply Hsame; [by eapply live_sub|exact E]).
      by apply (patience_shrinks q q' kind x _ now Es El (reflexivity _)); rewrite Hne.
Qed.

Lemma age_succ next seq : age next seq < 2 ^ 64 - 1 ->
  age ((next + 1) mod 2 ^ 64) seq = age next seq + 1.
Proof.
  unfold age. intros H. rewrite Zminus_mod_idemp_l.
  replace (next + 1 - seq) with (next - seq + 1) by lia. rewrite <-Zplus_mod_idemp_l.
  pose proof (Z.mod_pos_bound (next - seq) (2 ^ 64)). rewrite Z.mod_small by lia. lia.
Qed.

Lemma ahead_succ next x ys : Forall (fun y : item => age next (item_seq y) < 2 ^ 64 - 1) (x :: ys) ->
  length (ahead ((next + 1) mod 2 ^ 64) x ys) = length (ahead next x ys).
Proof.
  intros [Hx H]%Forall_cons. unfold ahead. induction H as [|y ys Hy _ IH]; [done|].
  rewrite (age_succ _ _ Hx) in *. rewrite !filter_cons, (age_succ _ _ Hy).
  repeat case_decide; cbn [length]; rewrite ?IH; lia.
Qed.

Lemma enqueue_patience k q kind dest payload p now e x y :
  queue_inv k q -> k <= 2 ^ 63 ->
  let q' := run_op q (OpEnqueue dest payload p now e) in
  x ∈ queue_items q kind -> y ∈ queue_items q' kind -> item_seq y = item_seq x ->
  (patience q' kind y <= patience q kind x)%nat.
Proof.
  intros (Hq & Ha & Hd) Hk q' Hx Hy E. subst q'. cbn [run_op queue_enqueue_npdu FixedQueues_storage] in *.
  pose proof (enqueue_cases q dest payload p now e Hq) as H.
  pose proof (enqueue_same q dest payload p now e) as (_ & El & Hs).
  pose proof (enqueue_accepted_sequence q dest payload p now e) as Hok.
  destruct (fixed_enqueue_npdu q dest payload p now e) as [q' r]. cbn [fst snd] in *.
  assert (Hage : forall z, z ∈ queue_items q kind -> 1 <= age (fq_sequence q) (item_seq z) <= k).
  { specialize (Ha kind). by rewrite Forall_forall in Ha. }
  assert (Hold : forall zs, zs = queue_items q kind ->
    length (ahead (fq_sequence q') x zs) = length (ahead (fq_sequence q) x zs)).
  { intros zs ->. destruct Hs as [->| ->]; [done|]. apply ahead_succ, Forall_forall.
    intros z [->|Hz]%elem_of_cons; [specialize (Hage x Hx)|specialize (Hage z Hz)]; lia. }
  assert (Hkeep : queue_items q' kind = queue_items q kind -> (patience q' kind y <= patience q kind x)%nat).
  { intros Hi. rewrite Hi in Hy. assert (y = x) as -> by (by eapply same_item).
    unfold patience, fq_starvation_limit. rewrite El, Hi, Hold by done. lia. }
  destruct H as [_ H]. destruct r as [[]|[]].
  - destruct H as (_ & _ & _ & Hi & Hne).
    destruct (decide (kind = from_destination dest)) as [->|Hkd]; [|by apply Hkeep, Hne].
    specialize (Hok eq_refl). pose proof (Hage x Hx) as Hx1.
    assert (Hnew : age (fq_sequence q) (fq_sequence q) = 0)
      by (unfold age; rewrite Z.sub_diag; reflexivity).
    rewrite Hi, elem_of_cons in Hy. destruct Hy as [->|Hy].
    { unfold item_seq at 1 in E. cbn in E. rewrite <-E, Hnew in Hx1. lia. }
    assert (y = x) as -> by (by eapply same_item).
    unfold patience, fq_starvation_limit. rewrite El, (ahead_perm _ _ _ _ Hi).
    unfold ahead at 1. rewrite filter_cons, decide_False.
    + fold (ahead (fq_sequence q') x (queue_items q (from_destination dest))).
      rewrite Hold by done. lia.
    + rewrite Hok. change (item_seq (new_item _ _ _ _ _ _ _)) with (fq_sequence q).
      rewrite (age_succ _ (fq_sequence q)), (age_succ _ (item_seq x)) by lia. lia.
  - destruct H as (_ & _ & _ & Hi & _). by apply Hkeep.
  - destruct H as (_ & Hi & _). by apply Hkeep.
  - destruct H as (_ & _ & Hi & _). by apply Hkeep.
Qed.

(** [set_starvation_limit] is called once, when the core is built. *)
Definition keeps_limit (op : QueueOp) : bool := match op with OpLimit _ => false | _ => true end.

Lemma run_op_limit k q op : queue_inv k q -> k <= 2 ^ 63 -> keeps_limit op = true ->
  fq_limit (run_op q op) = fq_limit q.
Proof.
  intros (Hq & Ha & _) Hk. destruct op as [limit|dest payload p now e|now|kind now max_len|kind]; cbn -[fixed_enqueue_npdu fixed_expire fixed_dequeue_kind]; intros Hop; try done.
  - apply enqueue_same.
  - by apply fixed_expire_spec.
  - pose proof (dequeue_cases q kind now max_len k Hq Ha Hk) as H.
    destruct (fixed_dequeue_kind _ _ _ _). by destruct H as (_ & _ & H & _).
  - by destruct kind.
Qed.

Lemma run_op_patience k q kind op x y :
  queue_inv k q -> k <= 2 ^ 63 -> is_u8 (fq_starvation_limit q) -> keeps_limit op = true ->
  x ∈ queue_items q kind -> y ∈ queue_items (run_op q op) kind -> item_seq y = item_seq x ->
  (patience (run_op q op) kind y + hands_out kind q op <= patience q kind x)%nat.
Proof.
  intros Hi Hk Hl Hop Hx Hy E. destruct op as [limit|dest payload p now e|now|kd now max_len|kd]; [done|..].
  - rewrite Nat.add_0_r. by eapply enqueue_patience.
  - rewrite Nat.add_0_r. destruct Hi as (Hq & Ha & Hd).
    pose proof (fixed_expire_spec q now Hq) as (_ & Es & El & _ & Hi). cbn [run_op queue_expire FixedQueues_storage] in *.
    pose proof Hy as Hy'. rewrite Hi in Hy'.
    assert (y = x) as -> by (eapply same_item; [apply (Hd kind)|done|by eapply live_sub|done]).
    apply (patience_shrinks q _ kind x _ now Es El (reflexivity _)). by rewrite Hi.
  - by eapply dequeue_patience.
  - rewrite Nat.add_0_r. cbn [run_op queue_take_counters FixedQueues_storage fixed_take_counters fst] in *.
    rewrite counters_mut_items in Hy. destruct Hi as (_ & _ & Hd).
    assert (y = x) as -> by (eapply same_item; [apply (Hd kind)|done..]).
    unfold patience, fq_starvation_limit. rewrite counters_mut_items. by destruct kd.
Qed.

Lemma run_op_traces k q kind op y : queue_inv k q -> k <= 2 ^ 63 -> keeps_limit op = true ->
  y ∈ queue_items (run_op q op) kind ->
  (exists x, x ∈ queue_items q kind /\ item_seq x = item_seq y) \/ item_seq y = fq_sequence q.
Proof.
  intros (Hq & Ha & Hd) Hk Hop Hy. destruct op as [limit|dest payload p now e|now|kd now max_len|kd]; [done|..].
  - pose proof (enqueue_cases q dest payload p now e Hq) as H. cbn [run_op queue_enqueue_npdu FixedQueues_storage] in Hy.
    destruct (fixed_enqueue_npdu q dest payload p now e) as [q' r]. cbn [fst] in Hy.
    destruct H as [_ H]. destruct r as [[]|[]].
    + destruct H as (_ & _ & _ & Hi & Hne).
      destruct (decide (kind = from_destination dest)) as [->|Hkd]; [|rewrite Hne in Hy by done; eauto].
      rewrite Hi, elem_of_cons in Hy. destruct Hy as [->|]; eauto.
    + destruct H as (_ & _ & _ & Hi & _). rewrite Hi in Hy. eauto.
    + destruct H as (_ & Hi & _). rewrite Hi in Hy. eauto.
    + destruct H as (_ & _ & Hi & _). rewrite Hi in Hy. eauto.
  - left. exists y. split; [|done]. eapply live_sub.
    by rewrite <-(proj2 (proj2 (proj2 (proj2 (fixed_expire_spec q now Hq))))).
  - left. destruct (dequeue_sub q kd now max_len k Hq Ha Hk kind y Hy) as (x & ? & ?). by exists x.
  - left. exists y. cbn in Hy. rewrite counters_mut_items in Hy. done.
Qed.

Lemma run_op_sequence k q op : queue_inv k q -> k <= 2 ^ 63 ->
  fq_sequence (run_op q op) = fq_sequence q \/
  fq_sequence (run_op q op) = (fq_sequence q + 1) mod 2 ^ 64.
Proof.
  intros (Hq & Ha & _) Hk.
  destruct op as [limit|dest payload p now e|now|kind now max_len|kind]; cbn -[fixed_enqueue_npdu fixed_expire fixed_dequeue_kind].
  - by left.
  - apply enqueue_same.
  - left. by apply fixed_expire_spec.
  - left. pose proof (dequeue_cases q kind now max_len k Hq Ha Hk) as H.
    destruct (fixed_dequeue_kind _ _ _ _). by destruct H as (_ & H & _).
  - left. by destruct kind.
Qed.

Lemma patience_pos q kind x : x ∈ queue_items q kind -> (1 <= patience q kind x)%nat.
Proof.
  intros Hx. unfold patience.
  assert (H : x ∈ ahead (fq_sequence q) x (queue_items q kind)) by (by apply list_elem_of_filter).
  destruct (ahead _ _ _); [by apply not_elem_of_nil in H|]. cbn. lia.
Qed.

Lemma patience_bound q kind x : wf_queue q -> x ∈ queue_items q kind -> 0 <= fq_starvation_limit q ->
  (patience q kind x <= Z.to_nat (fq_starvation_limit q) + fixed_depth q kind)%nat.
Proof.
  intros Hq Hx Hl. pose proof (item_wait _ _ _ _ (proj1 (wf_queue_iff q) Hq kind) Hx) as Hw.
  unfold patience, ahead. pose proof (length_filter (fun y => age (fq_sequence q) (item_seq x) <= age (fq_sequence q) (item_seq y)) (queue_items q kind)) as Hf.
  destruct (proj1 (wf_queue_iff q) Hq kind) as (_ & Hd & _).
  unfold fixed_depth. rewrite Hd. unfold queue_items at 2, lane_items in Hf. rewrite length_fmap in Hf.
  unfold is_u8 in Hw. lia.
Qed.

Lemma history_patience ops : forall k q kind sq,
  queue_inv k q -> 0 <= k -> k + Z.of_nat (length ops) <= 2 ^ 63 -> is_u8 (fq_starvation_limit q) ->
  forallb keeps_limit ops = true -> 1 <= age (fq_sequence q) sq <= k ->
  (forall x, x ∈ queue_items q kind -> item_seq x = sq -> (patience q kind x <= handed_out kind q ops)%nat) ->
  forall y, y ∈ queue_items (fold_left run_op ops q) kind -> item_seq y <> sq.
Proof.
  induction ops as [|op ops IH]; intros k q kind sq Hi Hk Hl Hlim Hops Hsq Hp y Hy.
  { intros E. specialize (Hp y Hy E). pose proof (patience_pos q kind y Hy). cbn in Hp. lia. }
  cbn [fold_left length forallb handed_out] in *. apply andb_prop in Hops as [Hop Hops].
  apply (IH (k + 1) (run_op q op) kind sq); try done; [by apply run_op_inv; [|lia]|lia|lia|..].
  - unfold fq_starvation_limit. rewrite (run_op_limit k) by (done || lia). exact Hlim.
  - destruct (run_op_sequence k q op Hi ltac:(lia)) as [->| ->]; [lia|]. apply age_next; lia.
  - intros x' Hx' E.
    destruct (run_op_traces k q kind op x' Hi ltac:(lia) Hop Hx') as [(x & Hx & Es)|Es].
    + pose proof (run_op_patience k q kind op x x' Hi ltac:(lia) Hlim Hop Hx Hx' (eq_sym Es)).
      specialize (Hp x Hx ltac:(congruence)). lia.
    + rewrite <-E, Es in Hsq. unfold age in Hsq. rewrite Z.sub_diag, Z.mod_0_l in Hsq by lia. lia.
Qed.

(** ** What the queues promise *)

(** What [FixedQueues::enqueue_npdu] does on every branch: an NPDU longer than a
    slot is refused first, then one already expired, then one with no free slot, each with its
    own counter and nothing else changed; otherwise the item with the NPDU's octets, destination,
    priority, expiry and the next sequence number is added to its class's items, and no other
    item changes. The invariant holds afterwards,
    and items have grown older by at most one call. *)
Theorem enqueue_npdu_spec q dest payload p now e k :
  wf_queue q -> ages_within k q -> 0 <= k < 2 ^ 63 ->
  let kind := from_destination dest in
  let lane := fq_lane q kind in
  let '(q', r) := queue_enqueue_npdu q dest payload p now e in
  wf_queue q' /\ ages_within (k + 1) q' /\
  match r with
  | Err QueueOversize =>
      (fq_n q < length payload)%nat /\ only_counted kind qc_record_drop_oversize q q'
  | Err QueueExpired =>
      (length payload <= fq_n q)%nat /\ expired e now = true /\
      only_counted kind qc_record_drop_expired q q'
  | Err QueueFull =>
      (length payload <= fq_n q)%nat /\ expired e now = false /\
      fixed_depth q kind = length (la_slots lane) /\
      only_counted kind qc_record_drop_full q q'
  | Ok _ =>
      (length payload <= fq_n q)%nat /\ expired e now = false /\
      (fixed_depth q kind < length (la_slots lane))%nat /\
      queue_items q' kind ≡ₚ new_item kind dest payload p now e (fq_sequence q)
                            :: queue_items q kind /\
      (forall kd, kd <> kind -> queue_items q' kd = queue_items q kd)
  end.
Proof.
  intros Hq Ha Hk kind lane. pose proof (enqueue_cases q dest payload p now e Hq) as H.
  pose proof (enqueue_ages q dest payload p now e k Hq Ha ltac:(lia)) as Hg.
  change (queue_enqueue_npdu q) with (fixed_enqueue_npdu q).
  destruct (fixed_enqueue_npdu q dest payload p now e). destruct H as [? H]. by split_and!.
Qed.
Lemma enqueue_npdu_spec_witness :
  let q' := (queue_enqueue_npdu (fixed_new 1 1 4) 7 [1; 0] Urgent 5 (Some 9)).1 in
  wf_queue q' /\ queue_items q' Unicast = [new_item Unicast 7 [1; 0] Urgent 5 (Some 9) 0].
Proof.
  cbv zeta. split; [|vm_compute; reflexivity].
  refine (proj1 (enqueue_npdu_spec (fixed_new 1 1 4) 7 [1; 0] Urgent 5 (Some 9) 0 _ _ _)).
  - apply (new_inv 1 1 4).
  - apply (new_inv 1 1 4).
  - lia.
Defined.

(** [FixedQueues::dequeue_kind] first drops the expired items of both classes; then it
    takes from the class the item that starved longest (enqueued first), or when none has
    waited [starvation_limit] turns the oldest of the highest priority, and hands out its octets
    exactly as they were enqueued. The other items stay, with one more turn waited. An item longer
    than the caller can send is dropped and reported [Oversize], and no wait is counted. Only when the
    class has no live item is there none to hand out. *)
Theorem dequeue_kind_spec q kind now max_len k :
  wf_queue q -> ages_within k q -> k <= 2 ^ 63 ->
  let '(q', r) := queue_dequeue_kind q kind now max_len in
  let live kd := filter (item_live now) (queue_items q kd) in
  wf_queue q' /\ ages_within k q' /\
  match r with
  | Ok None => live kind = [] /\ forall kd, queue_items q' kd = live kd
  | Ok (Some d) => exists x rest, takes q kind now x rest /\ (length x.2 <= max_len)%nat /\
      d = dequeued_item x /\ queue_items q' kind = item_bump <$> rest /\
      (forall kd, kd <> kind -> queue_items q' kd = item_bump <$> live kd)
  | Err e => e = QueueOversize /\ exists x rest, takes q kind now x rest /\
      (max_len < length x.2)%nat /\ queue_items q' kind = rest /\
      (forall kd, kd <> kind -> queue_items q' kd = live kd)
  end.
Proof.
  intros Hq Ha Hk. pose proof (dequeue_cases q kind now max_len k Hq Ha Hk) as H.
  pose proof (dequeue_ages q kind now max_len k Hq Ha Hk) as Hg.
  change (queue_dequeue_kind q) with (fixed_dequeue_kind q).
  destruct (fixed_dequeue_kind q kind now max_len). naive_solver.
Qed.
Lemma dequeue_kind_spec_witness :
  let q := run_op (run_op (fixed_new 2 1 4) (OpEnqueue 7 [1; 0] Normal 0 None))
             (OpEnqueue 8 [1; 0; 2] Urgent 0 None) in
  let r := queue_dequeue_kind q Unicast 1 4 in
  r.2 = Ok (Some (dequeued_item (new_item Unicast 8 [1; 0; 2] Urgent 0 None 1))) /\ wf_queue r.1.
Proof.
  cbv zeta. split; [vm_compute; reflexivity|].
  refine (proj1 (dequeue_kind_spec (run_op (run_op (fixed_new 2 1 4)
    (OpEnqueue 7 [1; 0] Normal 0 None)) (OpEnqueue 8 [1; 0; 2] Urgent 0 None)) Unicast 1 4 2 _ _ _)).
  - apply (run_op_inv 1); [|lia]. apply (run_op_inv 0); [|lia]. apply new_inv.
  - apply (run_op_inv 1); [|lia]. apply (run_op_inv 0); [|lia]. apply new_inv.
  - lia.
Defined.

(** Whatever calls are made on queues just built, a class's depth is the number of
    its items and never more than its slots; every item's octets fit a slot; the depth counter
    agrees and never passes the high-water mark; no two items of a class share a sequence number
    and, for the first 2^63 calls, all lie in the half range within which [is_older] is right. *)
Theorem queue_reachable_inv u b n ops :
  Z.of_nat (length ops) <= 2 ^ 63 ->
  let q := fold_left run_op ops (fixed_new u b n) in
  queue_inv (Z.of_nat (length ops)) q /\
  forall kind, fixed_depth q kind = length (queue_items q kind) /\
    (fixed_depth q kind <= length (la_slots (fq_lane q kind)))%nat /\
    Forall (fun x : item => (length x.2 <= fq_n q)%nat) (queue_items q kind).
Proof.
  intros Hl q. pose proof (run_inv ops 0 _ (new_inv u b n) ltac:(lia) ltac:(lia)) as H.
  split; [exact H|]. intros kind. destruct H as (Hq & _). fold q in Hq.
  destruct (proj1 (wf_queue_iff q) Hq kind) as (Hs & Hd & _).
  unfold fixed_depth, queue_items, lane_items. rewrite Hd, length_fmap.
  split_and!; [done|apply length_filter|].
  apply Forall_fmap, Forall_forall. intros s [_ Hin]%list_elem_of_filter.
  rewrite Forall_forall in Hs. destruct (Hs s Hin) as (Hp & Hn & _). cbn.
  unfold slot_payload. rewrite length_take. lia.
Qed.
Lemma queue_reachable_inv_witness :
  let ops := [OpEnqueue 5 [1; 0] Normal 0 None; OpEnqueue 255 [1; 0; 9] Urgent 3 (Some 10);
              OpDequeue Unicast 4 501] in
  fixed_depth (fold_left run_op ops (fixed_new 2 2 501)) Broadcast = 1%nat /\
  queue_inv 3 (fold_left run_op ops (fixed_new 2 2 501)).
Proof.
  split; [vm_compute; reflexivity|].
  refine (proj1 (queue_reachable_inv 2 2 501 [OpEnqueue 5 [1; 0] Normal 0 None;
    OpEnqueue 255 [1; 0; 9] Urgent 3 (Some 10); OpDequeue Unicast 4 501] _)). cbn. lia.
Defined.

(** C40: no item starves: however the calls are interleaved and whatever is enqueued meanwhile,
    once its class has handed out as many items as the starvation limit and the class's depth
    together, an item that was waiting has left the queue. *)
Theorem queue_no_starvation k q kind x ops :
  queue_inv k q -> 0 <= k -> k + Z.of_nat (length ops) <= 2 ^ 63 ->
  is_u8 (fq_starvation_limit q) -> forallb keeps_limit ops = true ->
  x ∈ queue_items q kind ->
  (Z.to_nat (fq_starvation_limit q) + fixed_depth q kind <= handed_out kind q ops)%nat ->
  Forall (fun y => item_seq y <> item_seq x) (queue_items (fold_left run_op ops q) kind).
Proof.
  intros Hi Hk Hl Hlim Hops Hx Hh. apply Forall_forall.
  destruct Hi as (Hq & Ha & Hd). pose proof (Ha kind) as Hax. rewrite Forall_forall in Hax.
  apply (history_patience ops k); try done; [by apply Hax|].
  intros z Hz E. assert (z = x) as -> by (by eapply same_item).
  pose proof (patience_bound q kind x Hq Hx ltac:(unfold is_u8 in Hlim; lia)). lia.
Qed.
Lemma queue_no_starvation_witness :
  let q := run_op (run_op (fixed_new 3 0 4) (OpLimit 2)) (OpEnqueue 7 [1; 0] Normal 0 None) in
  let urgent := OpEnqueue 8 [1; 1] LifeSafety 0 None in
  let ops := [urgent; urgent; OpDequeue Unicast 0 4; urgent; OpDequeue Unicast 0 4;
              OpDequeue Unicast 0 4] in
  handed_out Unicast q ops = 3%nat /\
  Forall (fun y => item_seq y <> 0) (queue_items (fold_left run_op ops q) Unicast).
Proof.
  cbv zeta. split; [vm_compute; reflexivity|].
  refine (queue_no_starvation 2
    (run_op (run_op (fixed_new 3 0 4) (OpLimit 2)) (OpEnqueue 7 [1; 0] Normal 0 None)) Unicast
    (new_item Unicast 7 [1; 0] Normal 0 None 0) _ _ _ _ _ _ _ _).
  - apply (run_op_inv 1); [|lia]. apply (run_op_inv 0); [|lia]. apply new_inv.
  - lia.
  - cbn. lia.
  - apply (bool_decide_unpack _). vm_compute. exact I.
  - reflexivity.
  - replace (queue_items _ _) with [new_item Unicast 7 [1; 0] Normal 0 None 0]
      by (vm_compute; reflexivity). apply list_elem_of_singleton. reflexivity.
  - vm_compute. lia.
Defined.
