(* ===== verification/Master.v ===== *)
(** * The master state machine (crate bacnet-mstp-core: state.rs and state/*.rs)

    The Clause 9.5.6 token-passing master, one definition per method of [MasterCore], over any
    [QueueStorage]. Methods take the core and the time and return the core after the call.
    The [debug_assert!]s of the methods are the field [asserts]: it turns false when one of them would
    fire. The const generic [NPDU] is [aq_npdu] of the actions.

    [enter_idle] takes up a remembered Token, which can come back to [enter_idle]: the
    one cycle of calls. Its back edge is the class [Reentry]; below, [use_token_fuel] ties it. *)

From S2P Require Import Prelude Time Npdu Crc Sink Cobs Frame Stream Config Counters Actions Queue.
Open Scope time_scope.

(** [MIN_RX_STORAGE] (bacnet-mstp-core/src/state.rs:34-36) *)
Definition MIN_RX_STORAGE : nat := length PREAMBLE + HEADER_LENGTH.

(** [MasterState] (bacnet-mstp-core/src/state.rs:38-58) *)
Inductive MasterState :=
| Idle | NoToken | UseToken | DoneWithToken | PassToken | WaitForReply | PollForMaster
| AnswerDataRequest.
#[global] Instance MasterState_eq_dec : EqDecision MasterState.
Proof. solve_decision. Defined.

(** [ReplyDecision] (bacnet-mstp-core/src/state.rs:74-83) *)
Inductive ReplyDecision := ReplyData (d : bytes) | Postponed | Abandoned.

(** [TransmitError] (bacnet-mstp-core/src/errors.rs) *)
Inductive TransmitError := StaleTransmit | Deferred | TransmitExpired | AlreadyStarted | NotPolled.
(** [RequestError] (bacnet-mstp-core/src/errors.rs) *)
Inductive RequestError :=
| NoPending | StaleRequest | RequestExpired | RequestOversize (len maximum : nat).

(** [MasterSnapshot] (bacnet-mstp-core/src/state.rs:85-105) *)
Record MasterSnapshot := {
  ms_state : MasterState;
  ms_next_station : Z;
  ms_poll_station : Z;
  ms_frame_count : Z;
  ms_token_count : Z;
  ms_sole_master : bool;
  ms_transmit_id : option TransmitId;
  ms_request_id : option RequestId
}.

(** [ReplyWindow] (bacnet-mstp-core/src/state.rs:117-126) *)
Record ReplyWindow := { send_by : Instant; gives_up : Instant }.
(** [PendingRequest] (bacnet-mstp-core/src/state.rs:107-115) *)
Record PendingRequest := {
  pr_id : RequestId; pr_source : Z; decide_by : Instant; window : ReplyWindow
}.
(** [PostTransmit] (bacnet-mstp-core/src/state.rs:128-135) *)
Inductive PostTransmit :=
| PostIdle | PostContinueToken | PostWaitForReply | PostPassToken | PostPollForMaster.
(** [ActiveTransmit] (bacnet-mstp-core/src/state.rs:137-147) *)
Record ActiveTransmit := {
  tx_id : TransmitId; asserted_at : Instant; started : bool; tx_post : PostTransmit
}.
(** [Origin] (bacnet-mstp-core/src/state/pending.rs:70-88) *)
Inductive Origin := Answer (w : ReplyWindow) | Holder | NextPoll | FromPassToken | FromNoToken.
(** [PendingSend] (bacnet-mstp-core/src/state/pending.rs:90-101) *)
Record PendingSend := {
  ps_post : PostTransmit; ps_origin : Origin; ps_earliest : Instant; ps_limit : Instant
}.
#[export] Instance eta_PendingSend : Settable PendingSend := fun r =>
  {| ps_post := ps_post r; ps_origin := ps_origin r; ps_earliest := ps_earliest r;
     ps_limit := ps_limit r |}.
(** [PendingSend::deadline] (bacnet-mstp-core/src/state/pending.rs) *)
Definition pending_deadline (p : PendingSend) : Instant := Z.min (ps_earliest p) (ps_limit p).

(** [MasterCore] (bacnet-mstp-core/src/state.rs:218-246) *)
Record MasterCore {Q : Type} := {
  config : MstpCoreConfig;
  queues : Q;
  decoder : StreamDecoder;
  actions : ActionQueue;
  state : MasterState;
  next_station : Z;
  poll_station : Z;
  token_count : Z;
  frame_count : Z;
  retry_token_count : Z;
  event_count : Z;
  sole_master : bool;
  pending_token : bool;
  pending_request : option PendingRequest;
  next_request_generation : Z;
  active_transmit : option ActiveTransmit;
  pending_send : option PendingSend;
  next_transmit_generation : Z;
  protocol_deadline : option Instant;
  last_activity : Instant;
  last_octet : option Instant;
  parser_partial : bool;
  last_now : Instant;
  consecutive_broadcast : Z;
  counters : MstpCounters;
  asserts : bool
}.
Arguments MasterCore : clear implicits.
#[export] Instance eta_MasterCore {Q} : Settable (MasterCore Q) := fun r =>
  {| config := config r; queues := queues r; decoder := decoder r; actions := actions r; state
     := state r; next_station := next_station r; poll_station := poll_station r; token_count :=
     token_count r; frame_count := frame_count r; retry_token_count := retry_token_count r;
     event_count := event_count r; sole_master := sole_master r; pending_token := pending_token
     r; pending_request := pending_request r; next_request_generation := next_request_generation
     r; active_transmit := active_transmit r; pending_send := pending_send r;
     next_transmit_generation := next_transmit_generation r; protocol_deadline :=
     protocol_deadline r; last_activity := last_activity r; last_octet := last_octet r;
     parser_partial := parser_partial r; last_now := last_now r; consecutive_broadcast :=
     consecutive_broadcast r; counters := counters r; asserts := asserts r |}.

(** [debug_assert!(cond)] in a method of the core. *)
Definition core_assert {Q} (c : MasterCore Q) (cond : bool) : MasterCore Q :=
  c <| asserts ::= andb cond |>.
(** The one back edge of the calls below: [use_received_token]. *)
Class Reentry (Q : Type) := again : MasterCore Q -> Instant -> MasterCore Q.

Definition is_none {A} (o : option A) : bool := negb (is_some o).

Section Core.
Context {Q : Type} `{QS : QueueStorage Q}.
Abbreviation Core := (MasterCore Q).

(** ** Time, states and counters (state.rs) *)

(** The time the call is taken at is [last_now] of the result.
    [MasterCore::observe_time] (bacnet-mstp-core/src/state.rs) *)
Definition observe_time (c : Core) (now : Instant) : Core :=
  c <| last_now := instant_max (last_now c) now |>.
(** [MasterCore::set_state] (bacnet-mstp-core/src/state.rs) *)
Definition set_state (c : Core) (s : MasterState) : Core :=
  if decide (state c = s) then c
  else c <| state := s |> <| counters ::= record_transition |>.
(** [MasterCore::record_oversize_npdu] (bacnet-mstp-core/src/state.rs) *)
Definition record_oversize_npdu (c : Core) (kind : QueueKind) : Core :=
  match kind with
  | Unicast => c <| counters ::= fun n => n <| unicast ::= qc_record_drop_oversize |> |>
  | Broadcast => c <| counters ::= fun n => n <| broadcast ::= qc_record_drop_oversize |> |>
  end.
(** [next_addr] (bacnet-mstp-core/src/state.rs) *)
Definition next_addr (current max_master : Z) : Z :=
  match current ?= max_master with
  | Lt => current + 1
  | Eq => 0
  | Gt => ((current + 1) mod (max_master + 1)) mod 256
  end.
(** [merge_queues] (bacnet-mstp-core/src/state.rs) *)
Definition merge_queues (core : MstpCounters) (u b : QueueCounters) : MstpCounters :=
  let merge (queue own : QueueCounters) :=
    queue <| qc_drops_oversize ::= fun n => sat_add U32_MAX n (qc_drops_oversize own) |> in
  core <| unicast := merge u (unicast core) |> <| broadcast := merge b (broadcast core) |>.

(** [MasterCore::snapshot] (bacnet-mstp-core/src/state.rs) *)
Definition snapshot (c : Core) : MasterSnapshot :=
  {| ms_state := state c; ms_next_station := next_station c; ms_poll_station := poll_station c;
     ms_frame_count := frame_count c; ms_token_count := token_count c;
     ms_sole_master := sole_master c; ms_transmit_id := tx_id <$> active_transmit c;
     ms_request_id := pr_id <$> pending_request c |}.
(** [MasterCore::take_counters] (bacnet-mstp-core/src/state.rs) *)
Definition take_counters (c : Core) : Core * MstpCounters :=
  let own := counters c in
  let c := c <| counters := default_counters |> in
  let '(q, u) := queue_take_counters (queues c) Unicast in
  let '(q, b) := queue_take_counters q Broadcast in
  (c <| queues := q |>, merge_queues own u b).
(** [MasterCore::counters] (bacnet-mstp-core/src/state.rs) *)
Definition core_counters (c : Core) : MstpCounters :=
  merge_queues (counters c) (queue_counters (queues c) Unicast) (queue_counters (queues c) Broadcast).

(** [MasterCore::next_deadline] (bacnet-mstp-core/src/state.rs) *)
Definition next_deadline (c : Core) : option Instant :=
  let parser :=
    if parser_partial c
    then (fun last => last +: t_frame_abort (config c) +: duration_from_micros 1) <$> last_octet c
    else None in
  let watchdog :=
    (fun tx => asserted_at tx +: transmit_watchdog (config c)) <$> active_transmit c in
  earliest [protocol_deadline c; parser; watchdog].

(** [MasterCore::transmitting] (bacnet-mstp-core/src/state/transmission.rs) *)
Definition transmitting (c : Core) : bool :=
  match active_transmit c with Some tx => started tx | None => false end.

(** ** Frames waiting to go out (state/pending.rs, state/transmission.rs) *)

(** [encode] (bacnet-mstp-core/src/state/pending.rs) *)
Definition encode (c : Core) (f : Frame) : Core * bool :=
  let '(a, r) := encode_frame (actions c) f in
  let c := c <| actions := a |> in
  let ok := match r with Ok _ => true | Err _ => false end in
  let c := core_assert c ok in
  let c := if negb ok then c <| counters ::= record_internal_error |> else c in
  (c, ok).
(** [MasterCore::withdraw_transmit] (bacnet-mstp-core/src/state/transmission.rs) *)
Definition withdraw_transmit (c : Core) (id : TransmitId) : Core :=
  c <| actions ::= fun a => queue_receive (purge_transmit a id) |> <| active_transmit := None |>.
(** [MasterCore::forget_pending] (bacnet-mstp-core/src/state/pending.rs) *)
Definition forget_pending (c : Core) : Core :=
  match pending_send c with
  | None => c
  | Some pending =>
      let c := c <| pending_send := None |> in
      match ps_origin pending with
      | Answer _ => c <| counters ::= record_expired_request |>
      | Holder | NextPoll | FromPassToken | FromNoToken => c <| counters ::= record_cancelled_send |>
      end
  end.
(** [MasterCore::discard_pending] (bacnet-mstp-core/src/state/pending.rs) *)
Definition discard_pending (c : Core) : Core :=
  let c := match active_transmit c with
           | Some tx => if negb (started tx) then withdraw_transmit c (tx_id tx) else c
           | None => c
           end in
  forget_pending c.
(** [MasterCore::dispatch_frame] (bacnet-mstp-core/src/state/transmission.rs) *)
Definition dispatch_frame (c : Core) (post : PostTransmit) (now : Instant) : Core :=
  let c := core_assert c (is_none (active_transmit c)) in
  let id := next_transmit_generation c in
  let c := c <| next_transmit_generation ::= fun n => (n + 1) mod 2 ^ 32 |> in
  let c := c <| actions ::= fun a => queue_transmit a id |> in
  let c := c <| active_transmit := Some {| tx_id := id; asserted_at := now; started := false;
                                           tx_post := post |} |> in
  c <| protocol_deadline := None |>.

Section Reentrant.
Context {again_ : Reentry Q}.

(** [MasterCore::take_pending_token] (bacnet-mstp-core/src/state.rs) *)
Definition take_pending_token (c : Core) (now : Instant) : Core :=
  let remembered := pending_token c in
  let c := c <| pending_token := false |> in
  if remembered then again c now else c.
(** [MasterCore::enter_idle] (bacnet-mstp-core/src/state.rs) *)
Definition enter_idle (c : Core) (now : Instant) : Core :=
  let c := set_state c Idle in
  let c := c <| protocol_deadline := Some (last_activity c +: T_NO_TOKEN) |> in
  take_pending_token c now.
(** [MasterCore::drop_pending] (bacnet-mstp-core/src/state/pending.rs) *)
Definition drop_pending (c : Core) (now : Instant) : Core := enter_idle (discard_pending c) now.
(** [MasterCore::dispatch_pending_send] (bacnet-mstp-core/src/state/pending.rs) *)
Definition dispatch_pending_send (c : Core) (now : Instant) : Core :=
  match pending_send c with
  | None => c
  | Some pending =>
      if ps_limit pending <=? now then drop_pending c now else
      if now <? ps_earliest pending
      then c <| protocol_deadline := Some (pending_deadline pending) |>
      else dispatch_frame c (ps_post pending) now
  end.
(** [MasterCore::send_encoded] (bacnet-mstp-core/src/state/pending.rs) *)
Definition send_encoded (c : Core) (post : PostTransmit) (origin : Origin) (now : Instant) : Core :=
  let c := core_assert c (is_none (pending_send c) && is_none (active_transmit c)) in
  let limit := match origin with
               | Answer w => gives_up w
               | Holder | NextPoll | FromNoToken => now +: T_NO_TOKEN
               | FromPassToken => now +: t_usage_timeout (config c)
               end in
  let c := c <| pending_send := Some {| ps_post := post; ps_origin := origin;
              ps_earliest := last_activity c +: t_turnaround (config c); ps_limit := limit |} |> in
  dispatch_pending_send c now.
(** [MasterCore::queue_frame] (bacnet-mstp-core/src/state/pending.rs) *)
Definition queue_frame (c : Core) (t : FrameType) (dest : Z) (d : bytes) (post : PostTransmit)
  (origin : Origin) (now : Instant) : Core :=
  let f := {| header := {| frame_type := t; destination := dest; source := station (config c) |};
              data := d |} in
  let '(c, ok) := encode c f in
  if ok then send_encoded c post origin now else c.

(** ** Holding the token (state/token.rs) *)

(** [MasterCore::queue_poll] (bacnet-mstp-core/src/state/token.rs) *)
Definition queue_poll (c : Core) (origin : Origin) (now : Instant) : Core :=
  let c := queue_frame c POLL_FOR_MASTER (poll_station c) [] PostPollForMaster origin now in
  set_state c PollForMaster.
(** [MasterCore::queue_token] (bacnet-mstp-core/src/state/token.rs) *)
Definition queue_token (c : Core) (dest : Z) (origin : Origin) (now : Instant) : Core :=
  if dest =? station (config c)
  then queue_poll (c <| poll_station := next_addr (station (config c)) (max_master (config c)) |>)
         origin now
  else
    let c := queue_frame c TOKEN dest [] PostPassToken origin now in
    (set_state c PassToken) <| event_count := 0 |>.
(** [MasterCore::next_queue_kind] (bacnet-mstp-core/src/state/token.rs) *)
Definition next_queue_kind (c : Core) (now : Instant) : option QueueKind :=
  let has_u := is_some (queue_peek_kind (queues c) Unicast now) in
  let has_b := is_some (queue_peek_kind (queues c) Broadcast now) in
  match has_u, has_b with
  | false, false => None
  | true, false => Some Unicast
  | false, true => Some Broadcast
  | true, true =>
      if consecutive_broadcast c <? broadcast_unicast_ratio (config c)
      then Some Broadcast else Some Unicast
  end.
(** The frame type and what follows it, by whether the NPDU expects a reply and is longer than a
    standard frame carries.
    [MasterCore::dequeue_and_send] (bacnet-mstp-core/src/state/token.rs:144-164) *)
Definition data_frame_type (kind : QueueKind) (d : bytes) : FrameType * PostTransmit :=
  let expecting := bool_decide (kind = Unicast) &&
    bool_decide (2 <= length d)%nat && negb (Z.land (nth 1 d 0) 4 =? 0) in
  let extended := bool_decide (MAX_STANDARD_MPDU_DATA < length d)%nat in
  match expecting, extended with
  | true, false => (BACNET_DATA_EXPECTING_REPLY, PostWaitForReply)
  | true, true => (BACNET_EXTENDED_DATA_EXPECTING_REPLY, PostWaitForReply)
  | false, false => (BACNET_DATA_NOT_EXPECTING_REPLY, PostContinueToken)
  | false, true => (BACNET_EXTENDED_DATA_NOT_EXPECTING_REPLY, PostContinueToken)
  end.
(** The rounds of the loop, at most [rounds] of them.
    [MasterCore::dequeue_and_send] (bacnet-mstp-core/src/state/token.rs:120-175) *)
Fixpoint dequeue_rounds (rounds : nat) (c : Core) (now : Instant) : Core * bool :=
  match rounds with
  | O => (c, false)
  | S rounds =>
      match next_queue_kind c now with
      | None => (c, false)
      | Some kind =>
          let '(q, r) := queue_dequeue_kind (queues c) kind now (aq_npdu (actions c)) in
          let c := c <| queues := q |> in
          match r with
          | Ok None => (c, false)
          | Err _ => dequeue_rounds rounds c now
          | Ok (Some item) =>
              let d := dq_npdu item in
              if bool_decide (aq_npdu (actions c) < length d)%nat ||
                 bool_decide (config_max_npdu (config c) < length d)%nat
              then dequeue_rounds rounds (record_oversize_npdu c kind) now else
              let c := c <| consecutive_broadcast := if bool_decide (kind = Broadcast)
                            then sat_add U8_MAX (consecutive_broadcast c) 1 else 0 |> in
              let c := c <| frame_count ::= fun n => sat_add U8_MAX n 1 |> in
              let '(t, post) := data_frame_type kind d in
              let f := {| header := {| frame_type := t; destination := dq_destination item;
                                       source := station (config c) |}; data := d |} in
              let '(c, ok) := encode c f in
              if negb ok then dequeue_rounds rounds c now
              else (send_encoded c post Holder now, true)
          end
      end
  end.
(** [MasterCore::dequeue_and_send] (bacnet-mstp-core/src/state/token.rs:118-120) *)
Definition dequeue_and_send (c : Core) (now : Instant) : Core * bool :=
  let c := c <| queues ::= fun q => (queue_expire q now).1 |> in
  dequeue_rounds (S (total_depth (queues c))) c now.
(** The loop, at most [fuel] rounds of it.
    [MasterCore::done_with_token] (bacnet-mstp-core/src/state/token.rs) *)
Fixpoint done_with_token_loop (fuel : nat) (c : Core) (now : Instant) : Core :=
  match fuel with
  | O => c
  | S fuel =>
      let next_ts := next_addr (station (config c)) (max_master (config c)) in
      let next_ps := next_addr (poll_station c) (max_master (config c)) in
      if negb (sole_master c) && (next_station c =? station (config c))
      then queue_poll (c <| poll_station := next_ts |>) Holder now else
      if token_count c <? N_POLL then
        let c := c <| token_count ::= fun n => sat_add U8_MAX n 1 |> in
        if sole_master c then
          let c := set_state (c <| frame_count := 0 |>) UseToken in
          let '(c, sent) := dequeue_and_send c now in
          if sent then c else done_with_token_loop fuel c now
        else queue_token (c <| retry_token_count := 0 |>) (next_station c) Holder now
      else
      if (next_ps =? next_station c) || (next_ps =? station (config c)) then
        let c := c <| poll_station := station (config c) |> <| token_count := 1 |> in
        if sole_master c then
          queue_poll (c <| next_station := station (config c) |> <| poll_station := next_ts |>)
            Holder now
        else queue_token (c <| retry_token_count := 0 |>) (next_station c) Holder now
      else queue_poll (c <| poll_station := next_ps |>) Holder now
  end.
(** Each round that does not return adds one to the token count, up to N_poll; the result does not
    depend on more fuel ([core_loops_end]).
    [MasterCore::done_with_token] (bacnet-mstp-core/src/state/token.rs:191-192) *)
Definition done_with_token (c : Core) (now : Instant) : Core :=
  done_with_token_loop (S (Z.to_nat N_POLL)) c now.
(** The frame limit of one token use.
    [MasterCore::drive_token] (bacnet-mstp-core/src/state/token.rs:95-98) *)
Definition frame_limit (cf : MstpCoreConfig) : Z :=
  Z.min (Z.max (div_ceil (sat_mul U16_MAX (max_info_frames cf) (multiple_frame_ratio cf)) 100) 1)
    (max_info_frames cf) mod 256.
(** [MasterCore::drive_token] (bacnet-mstp-core/src/state/token.rs) *)
Definition drive_token (c : Core) (now : Instant) : Core :=
  if is_some (active_transmit c) || is_some (pending_send c) then c else
  let '(c, sent) :=
    if frame_count c <? frame_limit (config c) then dequeue_and_send c now else (c, false) in
  if sent then c else done_with_token (set_state c DoneWithToken) now.
(** [MasterCore::use_received_token] (bacnet-mstp-core/src/state/receive.rs) *)
Definition use_received_token (c : Core) (now : Instant) : Core :=
  let c := c <| sole_master := false |> <| frame_count := 0 |> <| retry_token_count := 0 |> in
  drive_token (set_state c UseToken) now.

End Reentrant.

(** ** Tying the cycle

    [again] is only called with the remembered Token taken, and then never again on the way, so one
    level is enough ([core_loops_end]). *)
Fixpoint use_token_fuel (fuel : nat) (c : Core) (now : Instant) : Core :=
  match fuel with
  | O => c
  | S fuel => @use_received_token (use_token_fuel fuel) c now
  end.
#[local] Instance reentry_use_token : Reentry Q := use_token_fuel 1.

(** The window that [now] falls in, or the next one.
    [MasterCore::generate_token_if_in_slot] (bacnet-mstp-core/src/state/token.rs:19-34) *)
Definition generation_start (cf : MstpCoreConfig) (last now : Instant) : Instant :=
  let cycle := duration_saturating_mul T_SLOT (max_master cf + 1) in
  let first := last +: T_NO_TOKEN +: duration_saturating_mul T_SLOT (station cf) in
  if first +: T_SLOT <=? now then
    match duration_checked_rem (instant_since now first) cycle with
    | Some offset =>
        let start := now -: offset in
        if T_SLOT <=? offset then start +: cycle else start
    | None => first
    end
  else first.
(** [MasterCore::generate_token_if_in_slot] (bacnet-mstp-core/src/state/token.rs) *)
Definition generate_token_if_in_slot (c : Core) (now : Instant) : Core :=
  let cf := config c in
  let first := last_activity c +: T_NO_TOKEN +: duration_saturating_mul T_SLOT (station cf) in
  let start := generation_start cf (last_activity c) now in
  if now <? start then c <| protocol_deadline := Some start |> else
  let c := if negb (start =? first)
           then c <| counters ::= record_missed_generation_slot |> else c in
  let c := c <| counters ::= record_token_regeneration |> <| next_station := station cf |>
             <| token_count := 0 |> <| poll_station := next_addr (station cf) (max_master cf) |> in
  queue_poll c FromNoToken now.
(** [MasterCore::enter_no_token] (bacnet-mstp-core/src/state/token.rs) *)
Definition enter_no_token (c : Core) (now : Instant) : Core :=
  let c := (set_state c NoToken) <| retry_token_count := 0 |> <| event_count := 0 |> in
  generate_token_if_in_slot c now.
(** [set_state(Idle)] and the token-loss timer from [now]. *)
Definition idle_from (c : Core) (now : Instant) : Core :=
  (set_state c Idle) <| protocol_deadline := Some (now +: T_NO_TOKEN) |>.
(** [MasterCore::pass_token_timeout] (bacnet-mstp-core/src/state/token.rs) *)
Definition pass_token_timeout (c : Core) (now : Instant) : Core :=
  if N_MIN_OCTETS <? event_count c then idle_from c now else
  if retry_token_count c <? N_RETRY_TOKEN then
    let c := c <| retry_token_count ::= fun n => sat_add U8_MAX n 1 |>
               <| counters ::= record_token_retry |> in
    queue_token c (next_station c) FromPassToken now
  else
    let ts := station (config c) in
    let mm := max_master (config c) in
    let failed := next_station c in
    let c := c <| next_station := ts |> <| poll_station := next_addr failed mm |> in
    let c := if poll_station c =? ts then c <| poll_station := next_addr ts mm |> else c in
    queue_poll (c <| retry_token_count := 0 |> <| token_count := 0 |>) FromPassToken now.
(** [MasterCore::poll_timeout] (bacnet-mstp-core/src/state/token.rs) *)
Definition poll_timeout (c : Core) (now : Instant) : Core :=
  if sole_master c then drive_token (set_state (c <| frame_count := 0 |>) UseToken) now else
  if negb (next_station c =? station (config c))
  then queue_token (c <| retry_token_count := 0 |>) (next_station c) Holder now else
  let next := next_addr (poll_station c) (max_master (config c)) in
  if next =? station (config c)
  then drive_token (set_state (c <| sole_master := true |> <| frame_count := 0 |>) UseToken) now
  else queue_poll (c <| poll_station := next |>) NextPoll now.

(** ** Receiving (state/receive.rs, state/pending.rs) *)

(** [is_data_expecting_reply] (bacnet-mstp-core/src/state/receive.rs) *)
Definition is_data_expecting_reply (t : FrameType) : bool :=
  (t =? BACNET_DATA_EXPECTING_REPLY) || (t =? BACNET_EXTENDED_DATA_EXPECTING_REPLY).
(** [is_data_not_expecting_reply] (bacnet-mstp-core/src/state/receive.rs) *)
Definition is_data_not_expecting_reply (t : FrameType) : bool :=
  (t =? BACNET_DATA_NOT_EXPECTING_REPLY) || (t =? BACNET_EXTENDED_DATA_NOT_EXPECTING_REPLY).
(** [StreamPhase::Header | StreamPhase::Data]: inside a candidate frame. *)
Definition in_candidate (d : StreamDecoder) : bool :=
  match phase d with PhaseHeader | PhaseData => true | PhaseSync | PhasePreamble => false end.
(** [MasterCore::abort_partial_if_late] (bacnet-mstp-core/src/state/receive.rs) *)
Definition abort_partial_if_late (c : Core) (now : Instant) : Core * bool :=
  let late := match last_octet c with
              | Some last => t_frame_abort (config c) <? instant_since now last
              | None => false
              end in
  if parser_partial c && late then
    let invalid_candidate := in_candidate (decoder c) in
    let c := c <| decoder ::= stream_reset |> <| parser_partial := false |>
               <| counters ::= record_frame_abort |> in
    let c := if invalid_candidate then c <| counters ::= record_parser_error |> else c in
    (c, invalid_candidate)
  else (c, false).
(** [MasterCore::dropped_candidate_is_invalid] (bacnet-mstp-core/src/state/receive.rs) *)
Definition dropped_candidate_is_invalid (c : Core) (error : FrameError) (dest : option Z) : bool :=
  match error with
  | HeaderCrcMismatch | BroadcastSource | InvalidCobsLength _ | Oversize _ _ => true
  | FrameTooLong _ _ | UnsupportedCobsFrame _ | DataCrcMismatch _ =>
      match dest with
      | None => true
      | Some address => (address =? station (config c)) || (address =? BROADCAST_MAC)
      end
  | TooShort _ _ | InvalidPreamble _ _ | ExtendedFrame _ | UnexpectedData _ _
  | MissingVendorId _ _ | Truncated _ _ | BufferExhausted _ _ => true
  end.
(** [MasterCore::invalid_frame_event] (bacnet-mstp-core/src/state/receive.rs) *)
Definition invalid_frame_event (c : Core) (now : Instant) : Core :=
  if is_some (pending_send c) || is_some (active_transmit c) then c else
  if decide (state c = WaitForReply) then drive_token (set_state c DoneWithToken) now else
  if decide (state c = PollForMaster) then poll_timeout c now else c.
(** [MasterCore::deliver] (bacnet-mstp-core/src/state/receive.rs) *)
Definition deliver (c : Core) (f : Frame) (request_id : option RequestId) : Core * bool :=
  let '(a, queued) := enqueue_delivery (actions c) (header f) (data f) request_id in
  let c := c <| actions := a |> in
  if queued then
    (if carries_npdu (frame_type (header f))
     then c <| counters ::= record_npdu_delivered |>
     else c <| counters ::= record_frame_delivered |>, true)
  else (c <| counters ::= record_delivery_drop |>, false).
(** [MasterCore::goes_up_whole] (bacnet-mstp-core/src/state/receive.rs) *)
Definition goes_up_whole (c : Core) (f : Frame) : bool :=
  let h := header f in
  ((destination h =? station (config c)) || (destination h =? BROADCAST_MAC)) &&
  ((frame_type h =? TEST_RESPONSE) ||
   (is_proprietary (frame_type h) && bool_decide (2 <= length (data f))%nat)).
(** [MasterCore::take_successor] (bacnet-mstp-core/src/state/receive.rs) *)
Definition take_successor (c : Core) (src : Z) (now : Instant) : Core :=
  let c := c <| next_station := src |> <| poll_station := station (config c) |>
             <| token_count := 0 |> <| retry_token_count := 0 |> <| sole_master := false |> in
  queue_token c (next_station c) Holder now.
(** [MasterCore::frame_while_busy] (bacnet-mstp-core/src/state/receive.rs) *)
Definition frame_while_busy (c : Core) (f : Frame) (keep_token : bool) : Core :=
  let h := header f in
  let t := frame_type h in
  let for_us := destination h =? station (config c) in
  let is_broadcast := destination h =? BROADCAST_MAC in
  if is_data_not_expecting_reply t && (for_us || is_broadcast) then (deliver c f None).1 else
  if is_data_expecting_reply t && is_broadcast then (deliver c f None).1 else
  if goes_up_whole c f then (deliver c f None).1 else
  if (t =? TOKEN) && for_us && keep_token then c <| pending_token := true |> else
  if ((t =? TOKEN) || (t =? POLL_FOR_MASTER) || (t =? BACNET_DATA_EXPECTING_REPLY) ||
      (t =? BACNET_EXTENDED_DATA_EXPECTING_REPLY) || (t =? TEST_REQUEST) ||
      (t =? REPLY_TO_POLL_FOR_MASTER)) && for_us
  then c <| pending_token := false |> <| counters ::= record_discarded_while_busy |>
  else c <| pending_token := false |>.
(** [MasterCore::pending_activity] (bacnet-mstp-core/src/state/pending.rs) *)
Definition pending_activity (c : Core) (now : Instant) : Core :=
  match pending_send c with
  | None => c
  | Some pending =>
      let evidence :=
        match ps_origin pending with
        | FromPassToken | FromNoToken => N_MIN_OCTETS <? event_count c
        | Answer _ | Holder | NextPoll => false
        end in
      if (ps_limit pending <=? now) || evidence then drop_pending c now else
      let pending := pending <| ps_earliest := last_activity c +: t_turnaround (config c) |> in
      let c := c <| pending_send := Some pending |> in
      if is_none (active_transmit c)
      then c <| protocol_deadline := Some (pending_deadline pending) |> else c
  end.
(** [MasterCore::frame_while_pending] (bacnet-mstp-core/src/state/pending.rs) *)
Definition frame_while_pending (c : Core) (f : Frame) (now : Instant) : Core * bool :=
  match pending_send c with
  | None => (c, false)
  | Some pending =>
      let h := header f in
      let late_poll_reply := (frame_type h =? REPLY_TO_POLL_FOR_MASTER) &&
                             (destination h =? station (config c)) in
      match ps_origin pending with
      | Answer _ => (frame_while_busy c f true, true)
      | NextPoll =>
          if late_poll_reply then (take_successor (discard_pending c) (source h) now, true)
          else (frame_while_busy c f false, true)
      | Holder => (frame_while_busy c f false, true)
      | FromPassToken | FromNoToken => (drop_pending c now, false)
      end
  end.
(** [MasterCore::note_bus_activity] (bacnet-mstp-core/src/state.rs) *)
Definition note_bus_activity (c : Core) (now : Instant) (events : Z) : Core :=
  let c := c <| last_activity := now |> <| event_count ::= fun n => sat_add U32_MAX n events |> in
  if is_some (pending_send c) then pending_activity c now else
  match state c with
  | NoToken => idle_from c now
  | Idle => c <| protocol_deadline := Some (now +: T_NO_TOKEN) |>
  | PassToken =>
      if N_MIN_OCTETS <? event_count c then idle_from c now
      else c <| protocol_deadline := Some (now +: t_usage_timeout (config c)) |>
  | PollForMaster => c <| protocol_deadline := Some (now +: t_usage_timeout (config c)) |>
  | WaitForReply => c <| protocol_deadline := Some (now +: t_reply_timeout (config c)) |>
  | UseToken | DoneWithToken | AnswerDataRequest => c
  end.

(** ** Answering (state/reply.rs) *)

(** [REPLY_GUARD] (bacnet-mstp-core/src/state/reply.rs:15-18) *)
Definition REPLY_GUARD : Duration := duration_from_millis 1.
(** [MasterCore::reply_window] (bacnet-mstp-core/src/state/reply.rs) *)
Definition reply_window (cf : MstpCoreConfig) (now : Instant) : ReplyWindow :=
  let sb := now +: t_reply_delay cf in
  {| send_by := sb;
     gives_up := instant_max (now +: MIN_REPLY_TIMEOUT -: octet_time cf -: REPLY_GUARD) sb |}.
(** [MasterCore::poll_reply_window] (bacnet-mstp-core/src/state/reply.rs) *)
Definition poll_reply_window (cf : MstpCoreConfig) (now : Instant) : ReplyWindow :=
  let sb := now +: t_usage_delay cf in
  {| send_by := sb;
     gives_up := instant_max (now +: MIN_USAGE_TIMEOUT -: octet_time cf -: REPLY_GUARD) sb |}.
(** [MasterCore::release_unanswered_request] (bacnet-mstp-core/src/state/reply.rs) *)
Definition release_unanswered_request (c : Core) (now : Instant) : Core :=
  enter_idle (c <| pending_request := None |> <| counters ::= record_expired_request |>) now.
(** The frame a decision asks for, or what ends the call without one.
    [MasterCore::complete_request] (bacnet-mstp-core/src/state/reply.rs:76-96) *)
Definition reply_frame (cf : MstpCoreConfig) (request : PendingRequest) (decision : ReplyDecision)
  (now : Instant) : Result (option (FrameType * bytes)) RequestError :=
  match decision with
  | ReplyData d =>
      if decide_by request <=? now then Err RequestExpired else
      if bool_decide (config_max_npdu cf < length d)%nat
      then Err (RequestOversize (length d) (config_max_npdu cf)) else
      if bool_decide (MAX_STANDARD_MPDU_DATA < length d)%nat
      then Ok (Some (BACNET_EXTENDED_DATA_NOT_EXPECTING_REPLY, d))
      else Ok (Some (BACNET_DATA_NOT_EXPECTING_REPLY, d))
  | Postponed => Ok (Some (REPLY_POSTPONED, []))
  | Abandoned => Ok None
  end.
(** [MasterCore::complete_request] (bacnet-mstp-core/src/state/reply.rs) *)
Definition complete_request (c : Core) (id : RequestId) (decision : ReplyDecision) (now : Instant)
  : Core * Result unit RequestError :=
  let c := observe_time c now in
  let now := last_now c in
  match pending_request c with
  | None => (c, Err NoPending)
  | Some request =>
      if negb (pr_id request =? id) then (c, Err StaleRequest) else
      if gives_up (window request) <=? now
      then (release_unanswered_request c now, Err RequestExpired) else
      match reply_frame (config c) request decision now with
      | Err e => (c, Err e)
      | Ok None => (enter_idle (c <| pending_request := None |>) now, Ok tt)
      | Ok (Some (t, payload)) =>
          let c := queue_frame c t (pr_source request) payload PostIdle
                     (Answer (window request)) now in
          (c <| pending_request := None |>, Ok tt)
      end
  end.
(** [MasterCore::begin_request] (bacnet-mstp-core/src/state/reply.rs) *)
Definition begin_request (c : Core) (f : Frame) (now : Instant) : Core :=
  let id := next_request_generation c in
  let c := c <| next_request_generation ::= fun n => (n + 1) mod 2 ^ 32 |> in
  let w := reply_window (config c) now in
  let request := {| pr_id := id; pr_source := source (header f);
                    decide_by := send_by w -: reply_transmit_margin (config c); window := w |} in
  let c := set_state (c <| pending_request := Some request |>) AnswerDataRequest in
  let c := c <| protocol_deadline := Some (decide_by request) |> in
  let '(c, delivered) := deliver c f (Some id) in
  if delivered then c else (complete_request c id Postponed now).1.
(** [MasterCore::reply_deadline] (bacnet-mstp-core/src/state/reply.rs) *)
Definition reply_deadline (c : Core) (now : Instant) : Core :=
  match pending_request c with
  | None => enter_idle c now
  | Some request => (complete_request c (pr_id request) Postponed now).1
  end.

(** ** A valid frame (state/receive.rs) *)

(** [MasterCore::process_wait_for_reply] (bacnet-mstp-core/src/state/receive.rs) *)
Definition process_wait_for_reply (c : Core) (f : Frame) (now : Instant) : Core :=
  let t := frame_type (header f) in
  let is_reply := (destination (header f) =? station (config c)) &&
    (is_data_not_expecting_reply t || (t =? TEST_RESPONSE) || (t =? REPLY_POSTPONED)) in
  if negb is_reply then idle_from c now else
  let c := if negb (t =? REPLY_POSTPONED) then (deliver c f None).1 else c in
  drive_token (set_state c DoneWithToken) now.
(** The last [match] of [process_frame]: a frame in IDLE, NO_TOKEN, USE_TOKEN or DONE_WITH_TOKEN.
    [MasterCore::process_frame] (bacnet-mstp-core/src/state/receive.rs:177-223) *)
Definition process_idle_frame (c : Core) (f : Frame) (now : Instant) : Core :=
  let h := header f in
  let t := frame_type h in
  let for_us := destination h =? station (config c) in
  let is_broadcast := destination h =? BROADCAST_MAC in
  if (t =? TOKEN) && for_us then use_received_token c now else
  if (t =? POLL_FOR_MASTER) && for_us
  then queue_frame c REPLY_TO_POLL_FOR_MASTER (source h) [] PostIdle
         (Answer (poll_reply_window (config c) now)) now else
  if is_data_not_expecting_reply t && (for_us || is_broadcast) then (deliver c f None).1 else
  if is_data_expecting_reply t && is_broadcast then (deliver c f None).1 else
  if is_data_expecting_reply t && for_us then begin_request c f now else
  if (t =? TEST_REQUEST) && for_us
  then queue_frame c TEST_RESPONSE (source h) (data f) PostIdle
         (Answer (reply_window (config c) now)) now else
  if goes_up_whole c f then (deliver c f None).1 else c.
(** [MasterCore::process_frame] (bacnet-mstp-core/src/state/receive.rs) *)
Definition process_frame (c : Core) (f : Frame) (now : Instant) : Core :=
  let c := c <| counters ::= record_frame_received |> in
  let c := if source (header f) =? station (config c)
           then c <| counters ::= record_own_address_frame |> else c in
  let '(c, handled) := frame_while_pending c f now in
  if handled then c else
  if is_some (pending_request c) || bool_decide (state c = AnswerDataRequest)
  then frame_while_busy c f true else
  let c := if decide (state c = PassToken) then idle_from c now else c in
  if decide (state c = WaitForReply) then process_wait_for_reply c f now else
  if decide (state c = PollForMaster) then
    if (frame_type (header f) =? REPLY_TO_POLL_FOR_MASTER) &&
       (destination (header f) =? station (config c))
    then take_successor c (source (header f)) now
    else idle_from c now
  else process_idle_frame c f now.
(** What one event of the decoder does.
    [MasterCore::drain_decoder] (bacnet-mstp-core/src/state/receive.rs:50-84) *)
Definition act_on_event (c : Core) (ev : DecodeEvent) (now : Instant) : Core :=
  let dropped (error : FrameError) (dest : option Z) :=
    if dropped_candidate_is_invalid c error dest
    then invalid_frame_event (c <| counters ::= record_parser_error |>) now else c in
  match ev with
  | EvNeedMore | EvInvalid _ => c
  | EvFrame f _ =>
      if is_cobs (frame_type (header f)) && negb (extended_frames (config c))
      then dropped (UnsupportedCobsFrame (frame_type (header f))) (Some (destination (header f)))
      else process_frame c f now
  | EvMalformed _ error dest => dropped error dest
  | EvError error => dropped error None
  end.
(** The loop, at most [fuel] rounds of it.
    [MasterCore::drain_decoder] (bacnet-mstp-core/src/state/receive.rs) *)
Fixpoint drain_decoder (fuel : nat) (c : Core) (d : StreamDecoder) (input : bytes) (now : Instant)
  : Core * StreamDecoder :=
  match fuel with
  | O => (c, d)
  | S fuel =>
      let '(d, ev) := push_slice d input in
      match ev with
      | EvNeedMore => (c, d)
      | _ => drain_decoder fuel (act_on_event c ev now) d [] now
      end
  end.
(** Every event but the last uses up octets the storage holds, so its capacity bounds the rounds
    ([core_loops_end]).
    [MasterCore::decode_octet] (bacnet-mstp-core/src/state/receive.rs) *)
Definition decode_octet (c : Core) (byte : Z) (now : Instant) : Core :=
  let d := decoder c in
  let c := c <| decoder := stream_new [] |> in
  let '(c, d) := drain_decoder (capacity d + 3) c d [byte] now in
  c <| decoder := d |>.

(** ** Input from the line (state/input.rs) *)

(** [MasterCore::on_octet] (bacnet-mstp-core/src/state/input.rs) *)
Definition on_octet (c : Core) (byte : Z) (now : Instant) : Core :=
  let c := observe_time c now in
  let now := last_now c in
  if transmitting c then c else
  let '(c, timed_out_candidate) := abort_partial_if_late c now in
  let c := note_bus_activity c now 1 in
  let c := if timed_out_candidate then invalid_frame_event c now else c in
  let c := decode_octet (c <| last_octet := Some now |>) byte now in
  c <| parser_partial := match phase (decoder c) with PhaseSync => false | _ => true end |>.
(** [MasterCore::on_validated_frame] (bacnet-mstp-core/src/state/input.rs) *)
Definition on_validated_frame (c : Core) (f : Frame) (now : Instant) : Core :=
  let t := frame_type (header f) in
  let extended := extended_frames (config c) && is_cobs t in
  let too_long :=
    if negb extended then bool_decide (MAX_STANDARD_MPDU_DATA < length (data f))%nat
    else if is_extended_data t then bool_decide (MAX_EXTENDED_MPDU_DATA < length (data f))%nat
    else false in
  if too_long || (source (header f) =? BROADCAST_MAC) || (is_cobs t && negb extended)
  then c <| counters ::= record_adapter_error |> else
  let c := observe_time c now in
  let now := last_now c in
  if transmitting c then c else
  process_frame (note_bus_activity c now 1) f now.
(** [MasterCore::on_invalid_frame] (bacnet-mstp-core/src/state/input.rs) *)
Definition on_invalid_frame (c : Core) (now : Instant) : Core :=
  let c := observe_time c now in
  let now := last_now c in
  if transmitting c then c else
  let c := note_bus_activity c now 1 in
  invalid_frame_event (c <| counters ::= record_parser_error |>) now.
(** [MasterCore::on_host_activity] (bacnet-mstp-core/src/state/input.rs) *)
Definition on_host_activity (c : Core) (octets : Z) (now : Instant) : Core :=
  let c := observe_time c now in
  let now := last_now c in
  if transmitting c || (octets =? 0) then c else
  note_bus_activity c now (if octets <=? U32_MAX then octets else U32_MAX).
(** [MasterCore::on_receive_error] (bacnet-mstp-core/src/state/input.rs) *)
Definition on_receive_error (c : Core) (error : ReceiveError) (now : Instant) : Core :=
  let c := observe_time c now in
  let now := last_now c in
  if transmitting c then c else
  let c := c <| counters ::= fun n => record_receive_error n error |> in
  let c := note_bus_activity c now 1 in
  let invalid_candidate := in_candidate (decoder c) in
  let c := c <| decoder ::= stream_reset |> <| parser_partial := false |> in
  if invalid_candidate
  then invalid_frame_event (c <| counters ::= record_parser_error |>) now else c.
(** [MasterCore::on_silence] (bacnet-mstp-core/src/state/input.rs) *)
Definition on_silence (c : Core) (now : Instant) : Core :=
  let c := observe_time c now in
  let now := last_now c in
  let '(c, invalid) := abort_partial_if_late c now in
  if invalid then invalid_frame_event c now else c.

(** ** The adapter's transmit events (state/transmission.rs) *)

(** [pending_send] with its start refused or confirmed: the last part of [on_transmit_started].
    [MasterCore::on_transmit_started] (bacnet-mstp-core/src/state/transmission.rs:106-123) *)
Definition confirm_start (c : Core) (tx : ActiveTransmit) (now : Instant) : Core :=
  let '(c, _) := abort_partial_if_late c now in
  let c := if parser_partial c
           then c <| decoder ::= stream_reset |> <| parser_partial := false |>
                  <| counters ::= record_frame_abort |>
           else c in
  c <| pending_send := None |>
    <| active_transmit := Some {| tx_id := tx_id tx; asserted_at := now; started := true;
                                  tx_post := tx_post tx |} |>.
(** [MasterCore::on_transmit_started] (bacnet-mstp-core/src/state/transmission.rs) *)
Definition on_transmit_started (c : Core) (id : TransmitId) (now : Instant)
  : Core * Result bytes TransmitError :=
  let c := observe_time c now in
  let now := last_now c in
  match active_transmit c with
  | None => (c, Err StaleTransmit)
  | Some tx =>
      if negb (tx_id tx =? id) then (c, Err StaleTransmit) else
      if started tx then (c <| counters ::= record_adapter_error |>, Err AlreadyStarted) else
      if transmit_queued (actions c) id
      then (c <| counters ::= record_adapter_error |>, Err NotPolled) else
      match pending_send c with
      | None => (c, Err StaleTransmit)
      | Some pending =>
          let win := match ps_origin pending with
                     | Answer w => Some w
                     | Holder | NextPoll | FromPassToken | FromNoToken => None
                     end in
          if match win with Some w => gives_up w <=? now | None => false end
          then (drop_pending c now, Err TransmitExpired) else
          if now <? ps_earliest pending then
            let c := (withdraw_transmit c id) <| counters ::= record_deferred_start |> in
            let c := if ps_limit pending <=? now then drop_pending c now
                     else c <| protocol_deadline := Some (pending_deadline pending) |> in
            (c, Err Deferred)
          else
          let c := if match win with Some w => send_by w <? now | None => false end
                   then c <| counters ::= record_late_reply |> else c in
          let c := confirm_start c tx now in
          (c, Ok (aq_current_frame (actions c)))
      end
  end.
(** [MasterCore::on_transmit_complete] (bacnet-mstp-core/src/state/transmission.rs) *)
Definition on_transmit_complete (c : Core) (id : TransmitId) (now : Instant) : Core :=
  let c := observe_time c now in
  let now := last_now c in
  match active_transmit c with
  | None => c
  | Some tx =>
      if negb (tx_id tx =? id) then c else
      if negb (started tx) then c <| counters ::= record_adapter_error |> else
      let c := c <| actions ::= queue_receive |> <| active_transmit := None |>
                 <| last_activity := now |> in
      let c := c <| counters ::= fun n =>
        record_de_assertion n (instant_saturating_duration_since now (asserted_at tx)) |> in
      let c := c <| counters ::= record_frame_transmitted |> in
      match tx_post tx with
      | PostIdle => enter_idle c now
      | PostContinueToken => drive_token (set_state c UseToken) now
      | PostWaitForReply =>
          (set_state c WaitForReply) <| protocol_deadline := Some (now +: t_reply_timeout (config c)) |>
      | PostPassToken =>
          (set_state c PassToken) <| event_count := 0 |>
            <| protocol_deadline := Some (now +: t_usage_timeout (config c)) |>
            <| counters ::= record_token_rotation |>
      | PostPollForMaster =>
          (set_state c PollForMaster)
            <| protocol_deadline := Some (now +: t_usage_timeout (config c)) |>
      end
  end.
(** [MasterCore::on_transmit_aborted] (bacnet-mstp-core/src/state/transmission.rs) *)
Definition on_transmit_aborted (c : Core) (id : TransmitId) (reason : TransmitFailure)
  (now : Instant) : Core :=
  let c := observe_time c now in
  let now := last_now c in
  match active_transmit c with
  | None => c
  | Some tx =>
      if negb (tx_id tx =? id) then c else
      let c := c <| counters ::= fun n => record_transmit_failure n reason |> in
      let c := forget_pending (withdraw_transmit c id) in
      let c := if started tx
               then c <| last_activity := now |> <| counters ::= fun n =>
                 record_de_assertion n (instant_saturating_duration_since now (asserted_at tx)) |>
               else c in
      take_pending_token (idle_from c now) now
  end.

(** ** The application and the clock (state.rs) *)

(** [MasterCore::enqueue_npdu] (bacnet-mstp-core/src/state.rs) *)
Definition enqueue_npdu (c : Core) (dest : Z) (npdu : bytes) (p : NetworkPriority) (now : Instant)
  : Core * Result unit QueueRefusal :=
  let now := instant_max now (last_now c) in
  if bool_decide (config_max_npdu (config c) < length npdu)%nat
  then (record_oversize_npdu c (from_destination dest), Err QueueOversize) else
  let expires := instant_saturating_add now (queue_max_age (config c)) in
  let '(q, r) := queue_enqueue_npdu (queues c) dest npdu p now (Some expires) in
  (c <| queues := q |>, r).
(** [MasterCore::on_deadline] (bacnet-mstp-core/src/state.rs) *)
Definition on_deadline (c : Core) (now : Instant) : Core :=
  let c := observe_time c now in
  let now := last_now c in
  let '(c, invalid) := abort_partial_if_late c now in
  let c := if invalid then invalid_frame_event c now else c in
  match next_deadline c with
  | None => c
  | Some deadline =>
      if now <? deadline then c else
      let c := c <| counters ::= fun n =>
        record_deadline n (instant_since now deadline) (late_deadline (config c)) |> in
      match active_transmit c with
      | Some tx =>
          if asserted_at tx +: transmit_watchdog (config c) <=? now
          then on_transmit_aborted c (tx_id tx) Timeout now else c
      | None =>
          if is_some (pending_send c) then dispatch_pending_send c now else
          match state c with
          | Idle => enter_no_token c now
          | NoToken => generate_token_if_in_slot c now
          | WaitForReply =>
              let c := c <| frame_count := max_info_frames (config c) |> in
              drive_token (set_state c DoneWithToken) now
          | AnswerDataRequest => reply_deadline c now
          | PassToken => pass_token_timeout c now
          | PollForMaster => poll_timeout c now
          | UseToken | DoneWithToken => drive_token c now
          end
      end
  end.
(** [MasterCore::poll_action] (bacnet-mstp-core/src/state.rs) *)
Definition poll_action (c : Core) : Core * Action :=
  let '(a, act) := poll (actions c) in (c <| actions := a |>, act).

(** One of the checks of [from_parts] on an extended core's buffers.
    [MasterCore::from_parts] (bacnet-mstp-core/src/state.rs:365-371) *)
Definition check_buffer (buffer : CoreBuffer) (len minimum : nat) : Result unit ConfigError :=
  refuse (bool_decide (len < minimum)%nat) (ExtendedStorageTooSmall buffer len minimum).
(** [MasterCore::from_parts] (bacnet-mstp-core/src/state.rs:336-409) *)
Definition from_parts (cf : MstpCoreConfig) (qs : Q) (rx_storage : bytes) (buffers : ActionBuffers)
  (now : Instant) : Result Core ConfigError :=
  let? _ := validate cf in
  let? _ := refuse (bool_decide (length rx_storage < MIN_RX_STORAGE)%nat)
              (ReceiveStorageTooSmall (length rx_storage) MIN_RX_STORAGE) in
  let? _ :=
    if extended_frames cf then
      let? _ := check_buffer ReceiveStorage (length rx_storage) MAX_EXTENDED_FRAME_LENGTH in
      let? _ := check_buffer TransmitFrame (length (ab_frame buffers)) MAX_EXTENDED_FRAME_LENGTH in
      let? _ := check_buffer DeliverySlotBuffer (ab_npdu buffers) MAX_EXTENDED_MPDU_DATA in
      check_buffer QueueSlot (queue_max_npdu qs) MAX_EXTENDED_MPDU_DATA
    else Ok tt in
  let d := stream_new rx_storage in
  Ok {| config := cf;
        queues := set_starvation_limit qs (starvation_limit cf);
        decoder := if extended_frames cf then with_reserved_cobs d else d;
        actions := action_queue_new buffers;
        state := Idle;
        next_station := station cf;
        poll_station := station cf;
        token_count := N_POLL;
        frame_count := 0;
        retry_token_count := 0;
        event_count := 0;
        sole_master := false;
        pending_token := false;
        pending_request := None;
        next_request_generation := 0;
        active_transmit := None;
        pending_send := None;
        next_transmit_generation := 0;
        protocol_deadline := Some (now +: T_NO_TOKEN);
        last_activity := now;
        last_octet := None;
        parser_partial := false;
        last_now := now;
        consecutive_broadcast := 0;
        counters := default_counters;
        asserts := true |}.

(** [Storage] (bacnet-mstp-core/src/storage.rs:39-48) *)
Record Storage := { st_rx : bytes; st_queues : Q; st_actions : ActionBuffers }.
(** [receive_window] (bacnet-mstp-core/src/storage.rs) *)
Definition receive_window (extended : bool) (frame : nat) : nat :=
  let wanted := if extended then MAX_EXTENDED_FRAME_LENGTH else MAX_STANDARD_FRAME_LENGTH in
  if bool_decide (wanted < frame)%nat then wanted else frame.
(** [Storage::with_queues] (bacnet-mstp-core/src/storage.rs) *)
Definition storage_with_queues (qs : Q) (deliveries npdu frame : nat) : option Storage :=
  (fun b => {| st_rx := replicate frame 0; st_queues := qs; st_actions := b |})
    <$> action_buffers_new deliveries npdu frame.
(** [MasterCore::new] (bacnet-mstp-core/src/state.rs:292-304) *)
Definition master_new (cf : MstpCoreConfig) (st : Storage) (now : Instant) : Result Core ConfigError :=
  from_parts cf (st_queues st) (take (receive_window (extended_frames cf) (length (st_rx st))) (st_rx st))
    (st_actions st) now.
End Core.

#[export] Existing Instance reentry_use_token.

(** ** A core for examples: a standard core, station 0, at 9600 baud. *)
Definition example_core : option (MasterCore FixedQueues) :=
  match storage_with_queues (fixed_new 4 2 501) 8 501 MAX_STANDARD_FRAME_LENGTH with
  | Some st => match master_new STANDARD st 0 with Ok c => Some c | Err _ => None end
  | None => None
  end.
