(* ===== verification/MasterSafety.v ===== *)
(** * Safety of the master state machine (crate bacnet-mstp-core)

    The invariant every method of [MasterCore] keeps, over any [QueueStorage]: at most one frame
    of this station's waits or is on the wire, no debug assertion fires, every frame the core builds
    encodes, and the core always has a next deadline. *)

From S2P Require Import Prelude Time Npdu Crc Sink Cobs Frame Stream Config Counters Actions Queue.
From S2P Require Import Master.
Open Scope time_scope.

(** ** Frames the core builds *)

(** A frame this station may send: a standard one of at most 501 octets, or an extended one of up to
    1497 when they are on. *)
Definition sendable (cf : MstpCoreConfig) (f : Frame) : Prop :=
  let t := frame_type (header f) in
  source (header f) = station cf /\ is_proprietary t = false /\
  ((is_cobs t = false /\ (length (data f) <= MAX_STANDARD_MPDU_DATA)%nat /\
    (data f = [] \/ allows_data t = true)) \/
   (is_extended_data t = true /\ allows_data t = true /\ extended_frames cf = true /\
    (0 < length (data f) <= MAX_EXTENDED_MPDU_DATA)%nat)).
(** The frame buffer holds any such frame. *)
Definition roomy (cf : MstpCoreConfig) (n : nat) : Prop :=
  (MAX_STANDARD_FRAME_LENGTH <= n)%nat /\
  (extended_frames cf = true -> (MAX_EXTENDED_FRAME_LENGTH <= n)%nat).

Lemma extended_is_cobs t : is_extended_data t = true -> is_cobs t = true.
Proof. unfold is_extended_data, is_cobs. lia. Qed.

Lemma sendable_length cf f : valid_config cf -> sendable cf f ->
  exists n, checked_length f = Ok n /\
    forall m, roomy cf m -> (length (wire f) <= m)%nat.
Proof.
  intros Hv (Hs & Hp & H). pose proof (valid_addresses _ Hv) as Ha.
  assert (Hsrc : source (header f) <> BROADCAST_MAC) by (rewrite Hs; unfold BROADCAST_MAC; lia).
  unfold checked_length. rewrite Hp, andb_false_r.
  destruct H as [(Hc & Hl & Hd)|(Hx & Hd & He & Hl)].
  - rewrite Hc. exists (length (data f)). split.
    + rewrite (proj2 (check_header_fields_ok _ _ _)) by (split; [done|right; done]). cbn [rbind].
      destruct Hd as [->| ->]; [done|]. by rewrite andb_false_r.
    + intros m [Hm _]. rewrite length_wire. unfold length_field. rewrite Hc. unfold wire_length.
      unfold MAX_STANDARD_FRAME_LENGTH, MAX_STANDARD_MPDU_DATA, DATA_OFFSET, TRAILER_LENGTH in *.
      case_decide; lia.
  - pose proof (extended_is_cobs _ Hx) as Hc. rewrite Hc. exists (frame_length (data f)).
    pose proof (cobs_encode_length (data f)) as Hb. pose proof (frame_length_encode (data f)) as Hf.
    assert (Hq : (length (data f) / 254 <= 5)%nat).
    { transitivity (1497 / 254)%nat; [|apply (bool_decide_unpack _); vm_compute; exact I].
      apply Nat.Div0.div_le_mono. apply Hl. }
    unfold MAX_EXTENDED_MPDU_DATA in Hl. split.
    + rewrite (proj2 (check_header_fields_ok _ _ _)).
      * cbn [rbind]. by rewrite Hd, andb_false_r.
      * split; [done|]. left. unfold MIN_COBS_LENGTH, MAX_COBS_LENGTH. split_and!; [done|lia|lia|done].
    + intros m [_ Hm]. specialize (Hm He). rewrite length_wire. unfold length_field. rewrite Hc.
      unfold wire_length. change MAX_EXTENDED_FRAME_LENGTH with 1516%nat in Hm.
      change DATA_OFFSET with 8%nat. unfold TRAILER_LENGTH. case_decide; lia.
Qed.

Lemma encode_into_fits f n out : checked_length f = Ok n -> (length (wire f) <= length out)%nat ->
  exists buf, encode_into f out = (buf, Ok (length (wire f))) /\
    take (length (wire f)) buf = wire f /\ length buf = length out.
Proof.
  intros Hc Hl. unfold encode_into. set (s0 := {| slice_buf := out; slice_pos := 0 |}).
  assert (Hr : no_room s0 (length (wire f)) = None).
  { unfold no_room. change (remaining_capacity s0) with (Some (length out - 0)%nat).
    rewrite Nat.sub_0_r, decide_False by lia. done. }
  pose proof (encode_to_sink_step f n s0 Hc Hr) as Hs.
  destruct (encode_to_sink f s0) as [s' [m|e]]; cbn [step_ok] in Hs.
  - destruct Hs as [-> [C R]]. exists (slice_buf s'). split; [done|].
    change (take (slice_pos s') (slice_buf s') = wire f) in C.
    change (Some (slice_room s') = Some (length out - 0 - length (wire f))%nat) in R.
    apply (inj Some) in R. unfold slice_room in R.
    pose proof (f_equal length C) as L. rewrite length_take in L.
    destruct (decide (slice_pos s' <= length (slice_buf s'))%nat) as [Hp|Hp].
    + rewrite Nat.min_l in L by lia. rewrite <-L, C. split; [done|lia].
    + rewrite Nat.min_r in L by lia. rewrite take_ge in * by lia. split; [done|lia].
  - destruct Hs as [_ Hs]. specialize (Hs (length out - 0)%nat eq_refl). lia.
Qed.

(** ** The invariant *)

Section Safety.
Context {Q : Type} `{QS : QueueStorage Q}.
Abbreviation Core := (MasterCore Q).

(** What the methods below the handlers never change. *)
Definition stable (c c' : Core) : Prop :=
  config c' = config c /\ decoder c' = decoder c /\ last_now c <= last_now c' /\
  last_octet c' = last_octet c /\ parser_partial c' = parser_partial c.
Lemma stable_refl c : stable c c.
Proof. unfold stable. by split_and!. Qed.
Lemma stable_trans c1 c2 c3 : stable c1 c2 -> stable c2 c3 -> stable c1 c3.
Proof. unfold stable. intros (? & ? & ? & ? & ?) (? & ? & ? & ? & ?). split_and!; congruence || lia. Qed.

(** The configuration is valid, the buffers hold what is put into them, and nothing has gone wrong. *)
Definition env (c : Core) : Prop :=
  valid_config (config c) /\ roomy (config c) (length (aq_frame (actions c))) /\
  wf_actions (actions c) /\ aq_asserts (actions c) = true /\ asserts c = true /\
  internal_errors (counters c) = 0 /\ 0 <= token_count c.
(** No frame of this station's waits or is on the wire. *)
Definition quiet (c : Core) : Prop :=
  pending_send c = None /\ active_transmit c = None /\ aq_transmit (actions c) = None.
(** The frame buffer holds a whole frame this station may send. *)
Definition holds (c : Core) : Prop :=
  exists f, sendable (config c) f /\ aq_current_frame (actions c) = wire f.
(** Answers lead back to IDLE. *)
Definition post_ok (p : PendingSend) : Prop := forall w, ps_origin p = Answer w -> ps_post p = PostIdle.

(** A frame waits, or is with the adapter and waits for its start to be confirmed, or is on the
    wire; there is one at most, and a transmit not yet polled is that one's. *)
Definition tx_ok (c : Core) : Prop :=
  match active_transmit c, pending_send c with
  | None, None => aq_transmit (actions c) = None
  | None, Some p => aq_transmit (actions c) = None /\ holds c /\ post_ok p
  | Some tx, Some p => started tx = false /\ tx_post tx = ps_post p /\ holds c /\ post_ok p /\
      forall t, aq_transmit (actions c) = Some t -> qt_id t = tx_id tx
  | Some tx, None => started tx = true /\ aq_transmit (actions c) = None /\ holds c
  end.
(** A waiting frame starts no sooner than T_turnaround after the last activity. *)
Definition early (c : Core) : Prop := forall p, pending_send c = Some p ->
  ps_earliest p = last_activity c +: t_turnaround (config c).
(** This station owes an answer: the application has not decided, or the answer waits or is on
    the wire. *)
Definition answering (c : Core) : Prop :=
  pending_request c <> None \/
  (exists p w, pending_send c = Some p /\ ps_origin p = Answer w) \/
  (exists tx, active_transmit c = Some tx /\ started tx = true /\ tx_post tx = PostIdle).
Definition req_ok (c : Core) : Prop :=
  pending_request c <> None -> state c = AnswerDataRequest /\ quiet c.
Definition busy_ok (c : Core) : Prop :=
  pending_token c = true \/ state c = AnswerDataRequest -> answering c.
(** Something will happen next. *)
Definition live (c : Core) : Prop :=
  match active_transmit c, pending_send c with
  | Some _, _ => True
  | None, Some p => protocol_deadline c = Some (pending_deadline p)
  | None, None => protocol_deadline c <> None
  end.

Definition Inv (c : Core) : Prop :=
  env c /\ tx_ok c /\ early c /\ req_ok c /\ busy_ok c /\ live c.
(** The invariant outside a transmission, with no request and no remembered Token. *)
Definition Calm (c : Core) : Prop :=
  Inv c /\ pending_request c = None /\ pending_token c = false /\ transmitting c = false.
(** No frame in hand, so that one can be made. *)
Definition Ready (c : Core) : Prop :=
  env c /\ quiet c /\ pending_request c = None /\ pending_token c = false.

Lemma env_set_state c s : env c -> env (set_state c s).
Proof. unfold set_state. by case_decide. Qed.
Lemma set_state_same c s :
  let c' := set_state c s in
  state c' = s /\ stable c c' /\ actions c' = actions c /\ pending_send c' = pending_send c /\
  active_transmit c' = active_transmit c /\ pending_request c' = pending_request c /\
  pending_token c' = pending_token c /\ protocol_deadline c' = protocol_deadline c /\
  last_activity c' = last_activity c /\ token_count c' = token_count c /\
  sole_master c' = sole_master c.
Proof. unfold set_state. by case_decide. Qed.
Lemma Ready_set_state c s : Ready c -> Ready (set_state c s).
Proof. intros (He & Hr). split; [by apply env_set_state|]. unfold set_state. by case_decide. Qed.
Lemma Calm_set_state c s : Calm c -> s <> AnswerDataRequest -> Calm (set_state c s).
Proof.
  intros ((He & Ht & Hy & Hq & Hb & Hl) & Hr & Hp & Hx) Hs. unfold set_state. case_decide as E; [done|].
  refine (conj (conj He (conj Ht (conj Hy (conj _ (conj _ Hl))))) (conj Hr (conj Hp Hx))).
  - intros H. by destruct H.
  - intros [H|H]; [change (pending_token c = true) in H; congruence|done].
Qed.
Lemma stable_set_state c s : stable c (set_state c s).
Proof. unfold set_state. by case_decide. Qed.
Hint Resolve stable_refl stable_set_state Ready_set_state : core.

(** Every frame the core builds goes into the buffer. *)
Lemma encode_ok c f : env c -> quiet c -> sendable (config c) f ->
  exists a, encode c f = ((c <| actions := a |>) <| asserts ::= andb true |>, true) /\
    wf_actions a /\ aq_asserts a = true /\ aq_transmit a = None /\
    length (aq_frame a) = length (aq_frame (actions c)) /\ aq_current_frame a = wire f.
Proof.
  intros (Hv & Hr & Hw & Ha & _ & _) (_ & _ & Hq) Hf.
  destruct (sendable_length _ _ Hv Hf) as (n & Hn & Hl). specialize (Hl _ Hr).
  destruct (encode_into_fits f n _ Hn Hl) as (buf & Eb & Et & El).
  unfold encode, encode_frame, aq_assert. rewrite Hq. cbn [is_some negb].
  change (aq_frame ((actions c) <| aq_asserts ::= andb true |>)) with (aq_frame (actions c)).
  rewrite Eb. eexists. split; [reflexivity|].
  destruct Hw. by split_and!.
Qed.

Lemma env_actions c a : env c -> wf_actions a -> aq_asserts a = true ->
  length (aq_frame a) = length (aq_frame (actions c)) ->
  env ((c <| actions := a |>) <| asserts ::= andb true |>).
Proof.
  intros (Hv & Hr & _ & _ & Hs & Hi & Ht) Ha1 Ha2 Ha3. unfold env. cbn. rewrite Ha3, Hs.
  by split_and!.
Qed.

Lemma answering_mono c c' : pending_request c' = pending_request c -> pending_send c' = pending_send c ->
  active_transmit c' = active_transmit c -> answering c -> answering c'.
Proof. unfold answering. by intros -> -> ->. Qed.

(** ** Sending

    These hold whatever the back edge [again] is, since no Token is remembered. *)

Section AnyReentry.
Context {again_ : Reentry Q}.

Lemma enter_idle_no_token c now : pending_token c = false ->
  enter_idle c now = (set_state c Idle) <| protocol_deadline := Some (last_activity c +: T_NO_TOKEN) |>
                       <| pending_token := false |>.
Proof.
  intros H. unfold enter_idle, take_pending_token.
  destruct (set_state_same c Idle) as (_ & _ & _ & _ & _ & _ & Hp & _ & Ha & _).
  cbn. rewrite Hp, H, Ha. done.
Qed.

Lemma enter_idle_calm c now : Ready c -> Calm (enter_idle c now) /\ stable c (enter_idle c now).
Proof.
  intros (He & Hq & Hr & Hp). rewrite enter_idle_no_token by done.
  destruct (set_state_same c Idle) as (Hs & Hst & Ha & Hse & Hac & Hre & Hpt & _).
  pose proof (env_set_state c Idle He) as He'. destruct Hq as (Q1 & Q2 & Q3).
  split; [|exact Hst].
  assert (Hc : pending_send (set_state c Idle) = None /\ active_transmit (set_state c Idle) = None /\
               aq_transmit (actions (set_state c Idle)) = None) by (rewrite Hse, Hac, Ha; done).
  destruct Hc as (H1 & H2 & H3). generalize dependent (set_state c Idle). intros c0. intros.
  unfold Calm, Inv. split_and!; try done.
  - unfold tx_ok. cbn. by rewrite H1, H2.
  - intros p. cbn. by rewrite H1.
  - intros H. cbn in H. rewrite Hre in H. done.
  - intros [H|H]; cbn in H; [done|congruence].
  - unfold live. cbn. by rewrite H1, H2.
  - cbn. by rewrite Hre.
  - unfold transmitting. cbn. by rewrite H2.
Qed.

(** The limit of a frame's wait. *)
Definition send_limit (c : Core) (origin : Origin) (now : Instant) : Instant :=
  match origin with
  | Answer w => gives_up w
  | Holder | NextPoll | FromNoToken => now +: T_NO_TOKEN
  | FromPassToken => now +: t_usage_timeout (config c)
  end.

(** The core after [send_encoded]: the frame waits, or is with the adapter, or was dropped. *)
Definition sent (c c' : Core) (origin : Origin) : Prop :=
  env c' /\ tx_ok c' /\ early c' /\ live c' /\ transmitting c' = false /\ stable c c' /\
  pending_request c' = pending_request c /\ pending_token c' = pending_token c /\
  ((state c' = state c /\ exists p, pending_send c' = Some p /\ ps_origin p = origin) \/
   (state c' = Idle /\ quiet c' /\ pending_request c = None)).

Lemma send_encoded_sent c post origin now : env c -> quiet c -> holds c ->
  (forall w, origin = Answer w -> post = PostIdle) ->
  (send_limit c origin now <= now -> pending_token c = false /\ pending_request c = None) ->
  sent c (send_encoded c post origin now) origin.
Proof.
  intros He (Q1 & Q2 & Q3) Hh Hpo Hlim. unfold send_encoded. cbv zeta.
  fold (send_limit c origin now). rewrite Q1, Q2. cbn [is_none is_some negb andb].
  set (p := {| ps_post := post; ps_origin := origin; ps_earliest := _; ps_limit := _ |}).
  set (c1 := (core_assert c true) <| pending_send := Some p |>).
  assert (He1 : env c1) by exact He.
  assert (Hl1 : ps_limit p = send_limit c origin now) by (by destruct origin).
  unfold dispatch_pending_send. change (pending_send c1) with (Some p). cbn iota beta.
  rewrite Hl1. destruct (Z.leb_spec (send_limit c origin now) now) as [Hd|Hd].
  - destruct (Hlim Hd) as [Hpt Hpr]. unfold drop_pending.
    assert (Ed : discard_pending c1 = forget_pending c1).
    { unfold discard_pending. change (active_transmit c1) with (active_transmit c). by rewrite Q2. }
    assert (Hr : Ready (discard_pending c1) /\ stable c (discard_pending c1)).
    { rewrite Ed. unfold forget_pending. change (pending_send c1) with (Some p). cbn iota beta.
      destruct (ps_origin p);
        (split; [exact (conj He (conj (conj eq_refl (conj Q2 Q3)) (conj Hpr Hpt)))|done]). }
    destruct Hr as [Hr Hs]. destruct (enter_idle_calm _ now Hr) as [Hc Hs'].
    assert (Hst : state (enter_idle (discard_pending c1) now) = Idle).
    { rewrite enter_idle_no_token by apply Hr. apply set_state_same. }
    destruct Hc as ((E1 & E2 & E3 & E4 & E5 & E6) & Hcr & Hct & Hcx).
    unfold sent. split_and!; try done; [by eapply stable_trans|congruence|congruence|].
    right. split_and!; [done| |done].
    rewrite enter_idle_no_token by apply Hr.
    destruct (set_state_same (discard_pending c1) Idle) as (_ & _ & Ha & Hse & Hac & _).
    destruct Hr as (_ & (R1 & R2 & R3) & _). unfold quiet. cbn. by rewrite Hse, Hac, Ha.
  - assert (Hpo' : post_ok p) by (intros w; apply Hpo).
    change (ps_earliest p) with (last_activity c +: t_turnaround (config c)).
    destruct (Z.ltb_spec now (last_activity c +: t_turnaround (config c))) as [Hn|Hn].
    + unfold sent. split_and!; try done.
      * unfold tx_ok. cbn. rewrite Q2. done.
      * by intros ? [= <-].
      * unfold live. cbn. by rewrite Q2.
      * unfold transmitting. cbn. by rewrite Q2.
      * left. split; [done|]. by exists p.
    + unfold dispatch_frame. change (active_transmit c1) with (active_transmit c). rewrite Q2.
      cbn [is_none is_some negb]. unfold sent. split_and!; try done.
      * unfold env. cbn. unfold aq_assert. rewrite Q3.
        destruct He as (? & ? & [] & ? & ? & ? & ?). by split_and!.
      * unfold tx_ok. cbn [active_transmit pending_send]. split_and!; try done. by intros t [= <-].
      * by intros ? [= <-].
      * left. split; [done|]. by exists p.
Qed.

Lemma queue_frame_sent c t dest d post origin now : env c -> quiet c ->
  sendable (config c) {| header := {| frame_type := t; destination := dest;
                                      source := station (config c) |}; data := d |} ->
  (forall w, origin = Answer w -> post = PostIdle) ->
  (send_limit c origin now <= now -> pending_token c = false /\ pending_request c = None) ->
  sent c (queue_frame c t dest d post origin now) origin.
Proof.
  intros He Hq Hf Hpo Hlim. unfold queue_frame.
  destruct (encode_ok c _ He Hq Hf) as (a & Ee & Ha1 & Ha2 & Ha3 & Ha4 & Ha5). rewrite Ee.
  destruct Hq as (Q1 & Q2 & _).
  refine (send_encoded_sent ((c <| actions := a |>) <| asserts ::= andb true |>) post origin now
    (env_actions c a He Ha1 Ha2 Ha4) (conj Q1 (conj Q2 Ha3)) _ Hpo Hlim).
  by eexists.
Qed.

(** From a core with no frame in hand, a frame that is no answer leaves the core calm. *)
Lemma sent_calm c c' origin : Ready c -> state c <> AnswerDataRequest -> sent c c' origin ->
  Calm c' /\ stable c c'.
Proof.
  intros (_ & _ & Hr & Hp) Hst (E1 & E2 & E3 & E4 & E5 & E6 & E7 & E8 & E9).
  assert (state c' <> AnswerDataRequest) by (destruct E9 as [[-> _]|[-> _]]; done).
  unfold Calm, Inv. split_and!; try done; [|..|congruence|congruence].
  - intros H'. congruence.
  - intros [H'|H']; congruence.
Qed.

Lemma no_data_sendable cf t dest : valid_config cf -> is_proprietary t = false -> is_cobs t = false ->
  sendable cf {| header := {| frame_type := t; destination := dest; source := station cf |}; data := [] |}.
Proof.
  intros. split_and!; [done..|]. left. split_and!; [done| |by left]. cbn. lia.
Qed.

Lemma queue_poll_calm c origin now : Ready c -> (forall w, origin <> Answer w) ->
  state c <> AnswerDataRequest ->
  Calm (queue_poll c origin now) /\ stable c (queue_poll c origin now).
Proof.
  intros H Ho Hs. unfold queue_poll.
  pose proof H as (He & Hq & Hr & Hp).
  assert (Hsent : sent c (queue_frame c POLL_FOR_MASTER (poll_station c) [] PostPollForMaster origin now) origin).
  { apply queue_frame_sent; try done; [apply no_data_sendable; [apply He|done..]|].
    intros w E. by destruct (Ho w). }
  destruct (sent_calm _ _ _ H Hs Hsent) as [Hc Hst].
  split; [by apply Calm_set_state|]. eapply stable_trans; [exact Hst|apply stable_set_state].
Qed.

Lemma queue_token_calm c dest origin now : Ready c -> (forall w, origin <> Answer w) ->
  state c <> AnswerDataRequest ->
  Calm (queue_token c dest origin now) /\ stable c (queue_token c dest origin now).
Proof.
  intros H Ho Hs. unfold queue_token. destruct (dest =? station (config c)).
  - match goal with |- Calm (queue_poll ?c1 _ _) /\ _ => exact (queue_poll_calm c1 origin now H Ho Hs) end.
  - pose proof H as (He & Hq & Hr & Hp).
    assert (Hsent : sent c (queue_frame c TOKEN dest [] PostPassToken origin now) origin).
    { apply queue_frame_sent; try done; [apply no_data_sendable; [apply He|done..]|].
      intros w E. by destruct (Ho w). }
    destruct (sent_calm _ _ _ H Hs Hsent) as [Hc Hst].
    apply (Calm_set_state _ PassToken) in Hc; [|done].
    split; [exact Hc|]. eapply stable_trans; [exact Hst|apply stable_set_state].
Qed.

(** ** Serving the queues *)

Lemma data_frame_sendable cf kind d dest : valid_config cf -> (length d <= config_max_npdu cf)%nat ->
  sendable cf {| header := {| frame_type := (data_frame_type kind d).1; destination := dest;
                              source := station cf |}; data := d |}.
Proof.
  intros Hv Hl. unfold config_max_npdu in Hl. unfold data_frame_type.
  set (expecting := _ && _ && _).
  case_bool_decide as Hx; destruct expecting; cbn [fst];
    (split_and!; [done..|]); cbn [frame_type header data].
  1,2: right; destruct (extended_frames cf); [|lia]; split_and!; try done; lia.
  all: left; split_and!; [done|lia|right; done].
Qed.

Lemma dequeue_rounds_ok rounds : forall c now, Ready c -> state c <> AnswerDataRequest ->
  let '(c', was_sent) := dequeue_rounds rounds c now in
  stable c c' /\
  if was_sent then Calm c'
  else Ready c' /\ state c' = state c /\ token_count c' = token_count c /\ sole_master c' = sole_master c.
Proof.
  induction rounds as [|rounds IH]; intros c now H Hs; [by split|].
  cbn [dequeue_rounds]. destruct (next_queue_kind c now) as [kind|]; [|by split].
  destruct (queue_dequeue_kind _ _ _ _) as [q r]. set (c1 := c <| queues := q |>).
  assert (H1 : Ready c1) by exact H.
  destruct r as [[item|]|e]; [|by split|exact (IH c1 now H Hs)].
  destruct (_ || _) eqn:Hl.
  { destruct kind; [exact (IH (record_oversize_npdu c1 Unicast) now H Hs)
                   |exact (IH (record_oversize_npdu c1 Broadcast) now H Hs)]. }
  set (c2 := _ <| frame_count ::= _ |>).
  assert (H2 : Ready c2) by exact H. pose proof H2 as (He & Hq & Hr & Hp).
  pose proof (data_frame_sendable (config c2) kind (dq_npdu item) (dq_destination item)
    ltac:(apply He)) as Hf.
  apply orb_false_iff in Hl as [_ Hl]. apply bool_decide_eq_false_1 in Hl.
  specialize (Hf ltac:(apply Nat.nlt_ge in Hl; exact Hl)).
  destruct (data_frame_type kind (dq_npdu item)) as [t post] eqn:Et. cbn [fst] in Hf.
  destruct (encode_ok c2 _ He Hq Hf) as (a & Ee & Ha1 & Ha2 & Ha3 & Ha4 & Ha5). rewrite Ee.
  cbn [negb]. set (c3 := (c2 <| actions := a |>) <| asserts ::= andb true |>).
  assert (H3 : Ready c3).
  { destruct Hq as (Q1 & Q2 & _).
    exact (conj (env_actions c2 a He Ha1 Ha2 Ha4) (conj (conj Q1 (conj Q2 Ha3)) (conj Hr Hp))). }
  assert (Hsent : sent c3 (send_encoded c3 post Holder now) Holder).
  { destruct H3 as (He3 & Hq3 & Hr3 & Hp3).
    apply (send_encoded_sent c3 post Holder now He3 Hq3); [by eexists|done|done]. }
  destruct (sent_calm c3 _ Holder H3 Hs Hsent) as [Hc Hst]. split; [|done].
  eapply stable_trans; [|exact Hst]. done.
Qed.

Lemma dequeue_and_send_ok c now : Ready c -> state c <> AnswerDataRequest ->
  let '(c', was_sent) := dequeue_and_send c now in
  stable c c' /\
  if was_sent then Calm c'
  else Ready c' /\ state c' = state c /\ token_count c' = token_count c /\ sole_master c' = sole_master c.
Proof.
  intros H Hs. unfold dequeue_and_send.
  match goal with |- context [dequeue_rounds ?n ?c1 now] =>
    exact (dequeue_rounds_ok n c1 now H Hs) end.
Qed.

(** ** The end of a token use *)

Lemma done_with_token_loop_calm fuel : forall c now, Ready c -> state c <> AnswerDataRequest ->
  N_POLL - token_count c < Z.of_nat fuel -> (0 < fuel)%nat ->
  Calm (done_with_token_loop fuel c now) /\ stable c (done_with_token_loop fuel c now).
Proof.
  induction fuel as [|fuel IH]; intros c now H Hs Hf H0; [lia|]. cbn [done_with_token_loop].
  assert (Ho : forall w, Holder <> Answer w) by done.
  assert (Hadd : 0 <= token_count c -> 0 <= sat_add U8_MAX (token_count c) 1) by (intros; width).
  assert (Hpoll : forall ps, Calm (queue_poll (c <| poll_station := ps |>) Holder now) /\
                             stable c (queue_poll (c <| poll_station := ps |>) Holder now)).
  { intros ps. set (c1 := c <| poll_station := ps |>). exact (queue_poll_calm c1 Holder now H Ho Hs). }
  destruct (negb (sole_master c) && _); [apply Hpoll|].
  destruct H as (He & Hr). pose proof He as (Hv & Hro & Hw & Has & Ha & Hi & Ht).
  destruct (Z.ltb_spec (token_count c) N_POLL) as [Hlt|Hge].
  - set (c1 := c <| token_count ::= _ |>).
    assert (H1 : Ready c1).
    { split; [|exact Hr]. unfold env. cbn. split_and!; try done. auto. }
    change (sole_master c1) with (sole_master c). destruct (sole_master c).
    + set (c2 := set_state (c1 <| frame_count := 0 |>) UseToken).
      assert (H2 : Ready c2) by (apply Ready_set_state; exact H1).
      destruct (set_state_same (c1 <| frame_count := 0 |>) UseToken) as
        (Hs2 & Hst2 & _ & _ & _ & _ & _ & _ & _ & Ht2 & _).
      pose proof (dequeue_and_send_ok c2 now H2 ltac:(unfold c2; rewrite Hs2; done)) as Hd.
      destruct (dequeue_and_send c2 now) as [c3 []]; destruct Hd as [Hst3 Hd].
      * split; [done|]. by eapply stable_trans.
      * destruct Hd as (H3 & Hs3 & Ht3 & _).
        destruct (IH c3 now H3) as [Hc Hst].
        -- rewrite Hs3. unfold c2. by rewrite Hs2.
        -- rewrite Ht3. unfold c2. rewrite Ht2. cbn. unfold sat_add, U8_MAX, N_POLL in *. lia.
        -- unfold N_POLL in *. lia.
        -- split; [done|]. eapply stable_trans; [exact Hst2|]. by eapply stable_trans.
    + set (c2 := c1 <| retry_token_count := 0 |>).
      exact (queue_token_calm c2 (next_station c1) Holder now H1 Ho Hs).
  - destruct (_ || _).
    + set (c1 := c <| poll_station := _ |> <| token_count := 1 |>).
      assert (H1 : Ready c1).
      { split; [|exact Hr]. unfold env. cbn. split_and!; try done. }
      change (sole_master c1) with (sole_master c). destruct (sole_master c).
      * match goal with |- Calm (queue_poll ?c2 _ _) /\ _ => exact (queue_poll_calm c2 Holder now H1 Ho Hs) end.
      * set (c2 := c1 <| retry_token_count := 0 |>).
      exact (queue_token_calm c2 (next_station c1) Holder now H1 Ho Hs).
    + apply Hpoll.
Qed.

Lemma drive_token_calm c now : Ready c -> Calm (drive_token c now) /\ stable c (drive_token c now) \/
  state c = AnswerDataRequest.
Proof.
  intros H. destruct (decide (state c = AnswerDataRequest)) as [|Hs]; [by right|left].
  unfold drive_token. pose proof H as (He & (Q1 & Q2 & Q3) & _). rewrite Q1, Q2. cbn [is_some orb].
  set (r := if _ <? _ then _ else _).
  assert (Hr : let '(c', was_sent) := r in stable c c' /\
    if was_sent then Calm c'
    else Ready c' /\ state c' = state c).
  { unfold r. destruct (_ <? _); [|by split]. pose proof (dequeue_and_send_ok c now H Hs) as Hd.
    destruct (dequeue_and_send c now) as [c' []]; naive_solver. }
  destruct r as [c' []]; destruct Hr as [Hst Hr]; [by split|]. destruct Hr as [H' Hs'].
  destruct (set_state_same c' DoneWithToken) as (Hs2 & Hst2 & _).
  assert (Hrd : Ready (set_state c' DoneWithToken)) by (by apply Ready_set_state).
  destruct (done_with_token_loop_calm (S (Z.to_nat N_POLL)) (set_state c' DoneWithToken) now Hrd)
    as [Hc Hst3].
  - by rewrite Hs2.
  - destruct Hrd as ((_ & _ & _ & _ & _ & _ & Ht) & _). lia.
  - lia.
  - split; [done|]. eapply stable_trans; [exact Hst|]. by eapply stable_trans.
Qed.

Lemma drive_calm c now : Ready c -> state c <> AnswerDataRequest ->
  Calm (drive_token c now) /\ stable c (drive_token c now).
Proof. intros H Hs. by destruct (drive_token_calm c now H). Qed.

Lemma drive_set_state c s now : Ready c -> s <> AnswerDataRequest ->
  Calm (drive_token (set_state c s) now) /\ stable c (drive_token (set_state c s) now).
Proof.
  intros H Hs. destruct (set_state_same c s) as (E & Hst & _).
  destruct (drive_calm (set_state c s) now) as [Hc Hst']; [by apply Ready_set_state|by rewrite E|].
  split; [done|by eapply stable_trans].
Qed.

Lemma use_received_token_calm c now : Ready c ->
  Calm (use_received_token c now) /\ stable c (use_received_token c now).
Proof.
  intros H. unfold use_received_token. set (c1 := c <| sole_master := _ |> <| frame_count := _ |> <| retry_token_count := _ |>).
  exact (drive_set_state c1 UseToken now H ltac:(done)).
Qed.
End AnyReentry.

(** ** Back to IDLE, a remembered Token included *)

Lemma enter_idle_any c now : env c -> quiet c -> pending_request c = None ->
  Calm (enter_idle c now) /\ stable c (enter_idle c now).
Proof.
  intros He Hq Hr. destruct (pending_token c) eqn:Hp; [|by apply enter_idle_calm].
  unfold enter_idle, take_pending_token.
  destruct (set_state_same c Idle) as (_ & Hst & Ha & Hse & Hac & Hre & Hpt & _).
  pose proof (env_set_state c Idle He) as He'. revert He' Hst Ha Hse Hac Hre Hpt.
  generalize (set_state c Idle). intros c0 He' Hst Ha Hse Hac Hre Hpt.
  set (c1 := c0 <| protocol_deadline := _ |>). change (pending_token c1) with (pending_token c0).
  rewrite Hpt, Hp. set (c2 := c1 <| pending_token := false |>).
  assert (H2 : Ready c2).
  { destruct Hq as (Q1 & Q2 & Q3). refine (conj He' (conj (conj _ (conj _ _)) (conj _ eq_refl)));
      [rewrite <-Q1; exact Hse|rewrite <-Q2; exact Hac| |rewrite <-Hr; exact Hre].
    change (aq_transmit (actions c0) = None). by rewrite Ha. }
  destruct (use_received_token_calm (again_ := use_token_fuel 0) c2 now H2) as [Hc Hst2].
  split; [exact Hc|]. eapply stable_trans; [|exact Hst2]. exact Hst.
Qed.

Lemma Inv_no_request c : Inv c -> pending_send c <> None \/ active_transmit c <> None ->
  pending_request c = None.
Proof.
  intros (_ & _ & _ & Hr & _) H. destruct (pending_request c) eqn:E; [|done].
  assert (Hn : pending_request c <> None) by (by rewrite E).
  destruct (Hr Hn) as (_ & Q1 & Q2 & _). naive_solver.
Qed.

Lemma wf_queue_receive a : wf_actions a -> wf_actions (queue_receive a).
Proof. by intros []. Qed.

(** Taking a transmit back leaves no transmit with the adapter. *)
Lemma withdraw_ok c tx : env c -> tx_ok c -> active_transmit c = Some tx ->
  let c' := withdraw_transmit c (tx_id tx) in
  env c' /\ active_transmit c' = None /\ aq_transmit (actions c') = None /\
  aq_current_frame (actions c') = aq_current_frame (actions c).
Proof.
  intros (Hv & Hro & Hw & Has & Ha & Hi & Htc) Ht Et. cbv zeta.
  assert (Hq : forall t, aq_transmit (actions c) = Some t -> qt_id t = tx_id tx).
  { unfold tx_ok in Ht. rewrite Et in Ht. destruct (pending_send c); [naive_solver|].
    destruct Ht as (_ & Ht & _). congruence. }
  assert (Hx : aq_transmit (purge_transmit (actions c) (tx_id tx)) = None).
  { unfold purge_transmit, transmit_queued. destruct (aq_transmit (actions c)) as [t|] eqn:Eq; [|done].
    rewrite (Hq t eq_refl), Z.eqb_refl. done. }
  assert (Hpg : forall (P : ActionQueue -> Prop), P (actions c) -> P ((actions c) <| aq_transmit := None |>) ->
                P (purge_transmit (actions c) (tx_id tx))).
  { intros P H1 H2. unfold purge_transmit. by destruct (transmit_queued _ _). }
  split_and!; [|done|exact Hx|by apply (Hpg (fun a => aq_current_frame a = aq_current_frame (actions c)))].
  unfold env. cbn. unfold aq_assert. rewrite Hx. cbn. split_and!; try done.
  - by apply (Hpg (fun a => roomy (config c) (length (aq_frame a)))).
  - apply wf_queue_receive. apply Hpg; [done|]. by destruct Hw.
  - by apply (Hpg (fun a => aq_asserts a = true)).
Qed.

(** Taking a frame back that has not started leaves none in hand. *)
Lemma discard_pending_ok c : env c -> tx_ok c -> pending_send c <> None ->
  let c' := discard_pending c in
  env c' /\ quiet c' /\ stable c c' /\ pending_request c' = pending_request c /\
  pending_token c' = pending_token c /\ state c' = state c.
Proof.
  intros He Ht Hp. destruct (pending_send c) as [p|] eqn:Ep; [|done].
  cbv zeta. unfold discard_pending.
  destruct (active_transmit c) as [tx|] eqn:Et.
  - destruct (withdraw_ok c tx He Ht Et) as (H1 & H2 & H3 & _).
    unfold tx_ok in Ht. rewrite Et, Ep in Ht. destruct Ht as (Hs & _). rewrite Hs. cbn [negb].
    set (c1 := withdraw_transmit c (tx_id tx)) in *. unfold forget_pending.
    change (pending_send c1) with (pending_send c). rewrite Ep. cbn iota beta.
    destruct (ps_origin p); split_and!; try done; exact H1.
  - unfold tx_ok in Ht. rewrite Et, Ep in Ht. destruct Ht as (Hq & _). unfold forget_pending. rewrite Ep.
    destruct (ps_origin p); split_and!; done.
Qed.

Lemma drop_pending_any c now : env c -> tx_ok c -> pending_send c <> None -> pending_request c = None ->
  Calm (drop_pending c now) /\ stable c (drop_pending c now).
Proof.
  intros He Ht Hp Hr. destruct (discard_pending_ok c He Ht Hp) as (He' & Hq & Hst & Hr' & _).
  unfold drop_pending. destruct (enter_idle_any (discard_pending c) now He' Hq) as [Hc Hst'];
    [congruence|]. split; [done|by eapply stable_trans].
Qed.

(** The invariant while this station listens. *)
Definition Rx (c : Core) : Prop := Inv c /\ transmitting c = false.
Lemma Calm_Rx c : Calm c -> Rx c.
Proof. by intros (? & _ & _ & ?). Qed.
Hint Resolve Calm_Rx : core.

(** With no frame waiting, a listening core has none at all. *)
Lemma Rx_quiet c : Rx c -> pending_send c = None -> quiet c.
Proof.
  intros [(_ & Ht & _) Hx] Hp. unfold tx_ok, transmitting in *. rewrite Hp in Ht.
  destruct (active_transmit c) as [tx|] eqn:E; [|done]. destruct Ht. congruence.
Qed.
Lemma quiet_calm c : Rx c -> quiet c -> pending_request c = None ->
  Ready c /\ state c <> AnswerDataRequest.
Proof.
  intros [(He & _ & _ & _ & Hb & _) Hx] Hq Hr.
  assert (Hn : ~ answering c).
  { destruct Hq as (Q1 & Q2 & _). intros [H|[(p & w & H & _)|(tx & H & _)]]; congruence. }
  destruct (pending_token c) eqn:Ep; [exfalso; auto|]. repeat split; try apply He; try apply Hq; auto.
Qed.

(** ** Deliveries and remembered Tokens *)

(** Alike in all the invariant looks at but the environment and the remembered Token. *)
Definition alike (c c' : Core) : Prop :=
  stable c c' /\ state c' = state c /\ pending_send c' = pending_send c /\
  active_transmit c' = active_transmit c /\ pending_request c' = pending_request c /\
  protocol_deadline c' = protocol_deadline c /\ last_activity c' = last_activity c /\
  aq_transmit (actions c') = aq_transmit (actions c) /\
  aq_current_frame (actions c') = aq_current_frame (actions c).

Lemma alike_Inv c c' : alike c c' -> env c' -> (pending_token c' = true -> answering c) ->
  Inv c -> Inv c'.
Proof.
  intros ((Hcf & _) & Hs & Hp & Ha & Hr & Hd & Hl & Ht & Hf) He Hk (_ & I1 & I2 & I3 & I4 & I5).
  assert (Hh : holds c -> holds c') by (unfold holds; rewrite Hcf, Hf; done).
  unfold Inv, tx_ok, early, req_ok, busy_ok, live, quiet in *.
  rewrite Hs, Hp, Ha, Hr, Hd, Hl, Ht, Hcf. split_and!; try done.
  - destruct (active_transmit c), (pending_send c); naive_solver.
  - intros H. apply (answering_mono c c' Hr Hp Ha). naive_solver.
Qed.

Lemma alike_transmitting c c' : alike c c' -> transmitting c' = transmitting c.
Proof. intros (_ & _ & _ & Ha & _). unfold transmitting. by rewrite Ha. Qed.

Lemma enqueue_delivery_keeps a h d r : wf_actions a ->
  let a' := (enqueue_delivery a h d r).1 in
  wf_actions a' /\ aq_transmit a' = aq_transmit a /\ aq_frame a' = aq_frame a /\
  aq_frame_length a' = aq_frame_length a /\ aq_asserts a' = aq_asserts a.
Proof.
  intros Hw. cbv zeta.
  destruct (decide (Z.of_nat (length d) <= U16_MAX /\ (length d <= aq_npdu a)%nat /\
                    (aq_waiting a < length (aq_deliveries a))%nat)) as [(H1 & H2 & H3)|H].
  - destruct (enqueue_delivery_spec a h d r Hw H1 H2 H3) as (a' & -> & ?). naive_solver.
  - assert ((enqueue_delivery a h d r).1 = a) as ->; [|done].
    unfold enqueue_delivery. case_bool_decide; [done|].
    destruct (bool_decide (aq_npdu a < length d)%nat || _) eqn:E; [done|].
    apply orb_false_iff in E as [E1 E2]. apply bool_decide_eq_false_1 in E1, E2.
    destruct Hw as [_ Hw _]. destruct H. lia.
Qed.

Lemma deliver_alike c f r : env c ->
  let c' := (deliver c f r).1 in
  env c' /\ alike c c' /\ pending_token c' = pending_token c.
Proof.
  intros (Hv & Hro & Hw & Has & Ha & Hi & Htc). cbv zeta. unfold deliver.
  pose proof (enqueue_delivery_keeps (actions c) (header f) (data f) r Hw) as Hd.
  destruct (enqueue_delivery (actions c) (header f) (data f) r) as [a b]. cbn [fst] in Hd.
  destruct Hd as (D1 & D2 & D3 & D4 & D5).
  assert (He : env (c <| actions := a |>)) by (unfold env; cbn; rewrite D3, D5; by split_and!).
  assert (Hk : alike c (c <| actions := a |>))
    by (unfold alike, aq_current_frame; cbn; rewrite D2, D3, D4; by split_and!).
  destruct b; [destruct (carries_npdu _)|]; cbn [fst]; (split; [exact He|split; [exact Hk|done]]).
Qed.

Lemma frame_while_busy_ok c f keep : Inv c -> (keep = true -> answering c) ->
  let c' := frame_while_busy c f keep in
  Inv c' /\ alike c c'.
Proof.
  intros H Hk. cbv zeta.
  assert (Hdel : Inv (deliver c f None).1 /\ alike c (deliver c f None).1).
  { destruct (deliver_alike c f None ltac:(apply H)) as (He & Ha & Ht). split; [|done].
    apply (alike_Inv c); try done. rewrite Ht. destruct H as (_ & _ & _ & _ & Hb & _). auto. }
  assert (Htok : forall c', alike c c' -> env c' -> pending_token c' = false -> Inv c' /\ alike c c').
  { intros c' Ha He Ht. split; [|done]. apply (alike_Inv c); try done. congruence. }
  unfold frame_while_busy.
  destruct (_ && _); [done|]. destruct (is_data_expecting_reply _ && _); [done|].
  destruct (goes_up_whole _ _); [done|].
  destruct (_ && _ && keep) eqn:E.
  - apply andb_prop in E as [_ ->]. split; [|done].
    set (c1 := c <| pending_token := true |>).
    exact (alike_Inv c c1 ltac:(done) (proj1 H) (fun _ => Hk eq_refl) H).
  - clear E. destruct (_ && _); (apply Htok; [done|exact (proj1 H)|done]).
Qed.

(** ** A listening core with no frame in hand *)

Lemma quiet_Rx c : env c -> quiet c -> protocol_deadline c <> None ->
  (pending_request c <> None <-> state c = AnswerDataRequest) ->
  (pending_token c = true -> pending_request c <> None) -> Rx c.
Proof.
  intros He (Q1 & Q2 & Q3) Hd Hr Hp. unfold Rx, Inv. split_and!.
  - done.
  - unfold tx_ok. by rewrite Q1, Q2.
  - intros p. by rewrite Q1.
  - intros H. split; [by apply Hr|done].
  - intros [H|H]; left; [by apply Hp|by apply Hr].
  - unfold live. by rewrite Q1, Q2.
  - unfold transmitting. by rewrite Q2.
Qed.

Lemma quiet_facts c : Rx c -> quiet c ->
  protocol_deadline c <> None /\ (pending_request c <> None <-> state c = AnswerDataRequest) /\
  (pending_token c = true -> pending_request c <> None).
Proof.
  intros [(He & Ht & Hy & Hr & Hb & Hl) Hx] (Q1 & Q2 & Q3).
  assert (Hn : answering c -> pending_request c <> None).
  { intros [H|[(p & w & H & _)|(tx & H & _)]]; [done|congruence|congruence]. }
  unfold live in Hl. rewrite Q1, Q2 in Hl. split_and!; [done| |by auto].
  split; [by intros H; apply Hr|by auto].
Qed.

(** A state other than ANSWER_DATA_REQUEST, with a deadline. *)
Lemma settle_ok c s d : Ready c -> s <> AnswerDataRequest ->
  let c' := (set_state c s) <| protocol_deadline := Some d |> in Rx c' /\ stable c c'.
Proof.
  intros (He & (Q1 & Q2 & Q3) & Hr & Hp) Hs. cbv zeta.
  destruct (set_state_same c s) as (S1 & S2 & S3 & S4 & S5 & S6 & S7 & _).
  pose proof (env_set_state c s He) as S8.
  generalize dependent (set_state c s). intros c1 S1 S2 S3 S4 S5 S6 S7 S8. split; [|exact S2].
  apply quiet_Rx; [exact S8| |done| |]; unfold quiet; cbn; rewrite ?S1, ?S3, ?S4, ?S5, ?S6, ?S7, ?Hr, ?Hp; done.
Qed.

Lemma idle_from_Rx c now : Rx c -> quiet c -> pending_request c = None ->
  Rx (idle_from c now) /\ stable c (idle_from c now).
Proof. intros H Hq Hr. apply settle_ok; [by apply quiet_calm|done]. Qed.

(** ** Line activity *)

Lemma pending_activity_ok c p now : Rx c -> pending_send c = Some p ->
  forall c1, alike (c <| last_activity := last_activity c1 |>) c1 -> env c1 ->
  pending_token c1 = pending_token c ->
  Rx (pending_activity c1 now) /\ stable c (pending_activity c1 now).
Proof.
  intros H Ep c1 Hk He1 Hpt1. pose proof H as [Hi Hx].
  assert (Hreq : pending_request c = None) by (apply Inv_no_request; [done|left; congruence]).
  destruct Hi as (He & Ht & Hy & Hr & Hb & Hl).
  assert (Ht1 : tx_ok c1).
  { destruct Hk as ((Hcf & _) & _ & Kp & Ka & _ & _ & _ & Kt & Kf). unfold tx_ok, holds in *.
    rewrite Kp, Ka, Kt, Kf, Hcf. exact Ht. }
  pose proof Hk as (Kst & Ks & Kp & Ka & Kr & _).
  change (pending_send c1 = pending_send c) in Kp. change (active_transmit c1 = active_transmit c) in Ka.
  change (pending_request c1 = pending_request c) in Kr. change (state c1 = state c) in Ks.
  unfold pending_activity. rewrite Kp, Ep. destruct (_ || _).
  { destruct (drop_pending_any c1 now He1 Ht1) as [Hc Hs]; [congruence|congruence|].
    split; [auto|]. eapply stable_trans; [exact Kst|exact Hs]. }
  set (p1 := p <| ps_earliest := _ |>).
  assert (Hinv : forall c2, alike c1 (c2 <| pending_send := pending_send c1 |>
            <| protocol_deadline := protocol_deadline c1 |>) -> env c2 -> pending_token c2 = pending_token c1 ->
          pending_send c2 = Some p1 -> (active_transmit c = None -> protocol_deadline c2 = Some (pending_deadline p1)) ->
          Rx c2 /\ stable c c2).
  { intros c2 (Lst & Ls & _ & La & Lr & _ & Ll & Lt & Lf) He2 Lp Hp2 Hd2.
    change (active_transmit c2 = active_transmit c1) in La. change (state c2 = state c1) in Ls.
    change (pending_request c2 = pending_request c1) in Lr.
    change (last_activity c2 = last_activity c1) in Ll.
    change (aq_transmit (actions c2) = aq_transmit (actions c1)) in Lt.
    change (aq_current_frame (actions c2) = aq_current_frame (actions c1)) in Lf.
    assert (Lcf : config c2 = config c1) by apply Lst.
    split; [|eapply stable_trans; [exact Kst|exact Lst]].
    split; [|by unfold transmitting in *; rewrite La, Ka]. unfold Inv. split_and!; [done|..].
    - unfold tx_ok, holds in *. rewrite La, Hp2, Lt, Lf, Lcf. rewrite Kp, Ep in Ht1. exact Ht1.
    - intros q. rewrite Hp2. intros [= <-]. rewrite Ll, Lcf. done.
    - unfold req_ok. rewrite Lr, Kr. intros Hn. by destruct Hn.
    - unfold busy_ok. rewrite Lp, Ls, Hpt1, Ks. intros Hbb. destruct (Hb Hbb) as [Hn|[(q & w & Hq & Ho)|(tx & Htx & Hn)]].
      + by destruct Hn.
      + right; left. exists p1, w. split; [done|]. rewrite Ep in Hq. by injection Hq as <-.
      + right; right. exists tx. by rewrite La, Ka.
    - unfold live. rewrite La, Ka, Hp2. destruct (active_transmit c); [done|auto]. }
  change (active_transmit (c1 <| pending_send := Some p1 |>)) with (active_transmit c1).
  rewrite Ka. destruct (active_transmit c) as [tx|] eqn:Et; cbn [is_none is_some negb].
  - by apply (Hinv (c1 <| pending_send := Some p1 |>)).
  - by apply (Hinv (c1 <| pending_send := Some p1 |> <| protocol_deadline := _ |>)).
Qed.

Lemma note_bus_activity_ok c now events : Rx c ->
  let c' := note_bus_activity c now events in
  Rx c' /\ stable c c'.
Proof.
  intros H. cbv zeta. unfold note_bus_activity. cbv zeta.
  set (c1 := c <| last_activity := now |> <| event_count ::= _ |>).
  change (pending_send c1) with (pending_send c).
  pose proof H as [(He & _) _].
  destruct (pending_send c) as [p|] eqn:Ep; cbn [is_some].
  { by apply (pending_activity_ok c p now H Ep c1). }
  pose proof (Rx_quiet c H Ep) as Hq. destruct (quiet_facts c H Hq) as (Hd & Hr & Hp).
  assert (H1 : Rx c1) by (by apply quiet_Rx).
  assert (Hdl : forall d, Rx (c1 <| protocol_deadline := Some d |>) /\ stable c (c1 <| protocol_deadline := Some d |>)).
  { intros d. split; [|done]. by apply quiet_Rx. }
  assert (Hid : state c <> AnswerDataRequest -> Rx (idle_from c1 now) /\ stable c (idle_from c1 now)).
  { intros Hs. refine (idle_from_Rx c1 now H1 Hq _).
    change (pending_request c = None). destruct (pending_request c); [|done]. exfalso. apply Hs, Hr. done. }
  change (state c1) with (state c). destruct (state c); try apply Hdl; try (by apply Hid); try done.
  destruct (_ <? _); [by apply Hid|apply Hdl].
Qed.

(** ** Timeouts *)

(** A listening core with nothing in hand, from which a frame can be made. *)
Definition Free (c : Core) : Prop := Rx c /\ quiet c /\ pending_request c = None.
Definition keeps (c c' : Core) : Prop := Rx c' /\ stable c c'.

Lemma keeps_calm c c' : Calm c' /\ stable c c' -> keeps c c'.
Proof. intros [? ?]. split; auto. Qed.
Lemma keeps_refl c : Rx c -> keeps c c.
Proof. by split. Qed.
Lemma Free_Ready c : Free c -> Ready c /\ state c <> AnswerDataRequest.
Proof. intros (H & Hq & Hr). by apply quiet_calm. Qed.
Lemma Free_deadline c d : Free c -> keeps c (c <| protocol_deadline := Some d |>).
Proof.
  intros (H & Hq & Hr). destruct (quiet_facts c H Hq) as (_ & Hs & Hp).
  split; [|done]. by apply quiet_Rx; [apply H|..].
Qed.

Lemma generate_token_ok c now : Free c -> keeps c (generate_token_if_in_slot c now).
Proof.
  intros H. destruct (Free_Ready c H) as [(He & Hr) Hs]. unfold generate_token_if_in_slot. cbv zeta.
  destruct (_ <? _); [by apply Free_deadline|].
  match goal with |- keeps c (queue_poll ?c1 _ _) => assert (H1 : Ready c1 /\ state c1 = state c /\ stable c c1) end.
  { destruct He as (Hv & Hro & Hw & Has & Ha & Hi & Htc).
    destruct (negb _); (split; [split; [unfold env; cbn; by split_and!|exact Hr]|done]). }
  destruct H1 as (H1 & Hs1 & Hst1). apply keeps_calm.
  match goal with |- Calm (queue_poll ?c1 _ _) /\ _ =>
    destruct (queue_poll_calm c1 FromNoToken now H1 ltac:(done) ltac:(by rewrite Hs1)) as [Hc Hst] end.
  split; [exact Hc|by eapply stable_trans].
Qed.

Lemma enter_no_token_ok c now : Free c -> keeps c (enter_no_token c now).
Proof.
  intros (H & Hq & Hr). destruct (quiet_facts c H Hq) as (Hd & Hsr & Hp). unfold enter_no_token.
  destruct (set_state_same c NoToken) as (Hs & Hst & Ha & Hse & Hac & Hre & Hpt & Hdl & _).
  pose proof (env_set_state c NoToken ltac:(apply H)) as He.
  set (c1 := (set_state c NoToken) <| retry_token_count := 0 |> <| event_count := 0 |>).
  assert (Q1 : quiet c1).
  { destruct Hq as (Q1 & Q2 & Q3).
    exact (conj (eq_trans Hse Q1) (conj (eq_trans Hac Q2) (eq_trans (f_equal aq_transmit Ha) Q3))). }
  assert (H1 : Free c1).
  { split_and!; [|done|exact (eq_trans Hre Hr)]. apply quiet_Rx; [exact He|done| | |].
    - change (protocol_deadline (set_state c NoToken) <> None). by rewrite Hdl.
    - change (pending_request (set_state c NoToken) <> None <-> state (set_state c NoToken) = AnswerDataRequest).
      rewrite Hre, Hs, Hr. done.
    - change (pending_token (set_state c NoToken) = true -> pending_request (set_state c NoToken) <> None).
      by rewrite Hre, Hpt. }
  destruct (generate_token_ok c1 now H1) as [H2 Hst2]. split; [done|].
  eapply stable_trans; [exact Hst|exact Hst2].
Qed.

(** Updates of the token variables keep a core ready. *)
Ltac ready_update H := 
  let He := fresh in let Hr := fresh in destruct H as [He Hr];
  destruct He as (? & ? & ? & ? & ? & ? & ?);
  split; [unfold env; cbn; by split_and!|exact Hr].

Lemma pass_token_timeout_ok c now : Free c -> keeps c (pass_token_timeout c now).
Proof.
  intros H. destruct (Free_Ready c H) as [Hr Hs]. unfold pass_token_timeout.
  destruct (_ <? event_count c); [destruct H as (? & ? & ?); by apply idle_from_Rx|].
  apply keeps_calm. destruct (_ <? N_RETRY_TOKEN).
  - set (c1 := c <| retry_token_count ::= _ |> <| counters ::= record_token_retry |>).
    exact (queue_token_calm c1 (next_station c1) FromPassToken now Hr ltac:(done) Hs).
  - match goal with |- Calm (queue_poll ?c1 _ _) /\ _ =>
      assert (H1 : Ready c1 /\ state c1 = state c /\ stable c c1) end.
    { destruct (_ =? station (config c)); (split; [ready_update Hr|done]). }
    destruct H1 as (H1 & Hs1 & Hst1).
    match goal with |- Calm (queue_poll ?c1 _ _) /\ _ =>
      destruct (queue_poll_calm c1 FromPassToken now H1 ltac:(done) ltac:(by rewrite Hs1)) as [Hc Hst] end.
    split; [exact Hc|by eapply stable_trans].
Qed.

Lemma poll_timeout_ok c now : Free c -> keeps c (poll_timeout c now).
Proof.
  intros H. destruct (Free_Ready c H) as [Hr Hs]. apply keeps_calm. unfold poll_timeout.
  destruct (sole_master c).
  { set (c1 := c <| frame_count := 0 |>). exact (drive_set_state c1 UseToken now Hr ltac:(done)). }
  destruct (negb _).
  { set (c1 := c <| retry_token_count := 0 |>).
    exact (queue_token_calm c1 (next_station c) Holder now Hr ltac:(done) Hs). }
  destruct (_ =? _).
  - set (c1 := c <| sole_master := true |> <| frame_count := 0 |>).
    exact (drive_set_state c1 UseToken now Hr ltac:(done)).
  - set (c1 := c <| poll_station := _ |>).
    exact (queue_poll_calm c1 NextPoll now Hr ltac:(done) Hs).
Qed.

Lemma invalid_frame_event_ok c now : Rx c -> keeps c (invalid_frame_event c now).
Proof.
  intros H. unfold invalid_frame_event.
  destruct (pending_send c) as [p|] eqn:Ep; [by apply keeps_refl|].
  pose proof (Rx_quiet c H Ep) as Hq. destruct (quiet_facts c H Hq) as (_ & Hsr & _).
  destruct (active_transmit c); [by apply keeps_refl|]. cbn [is_some orb].
  assert (Hf : state c <> AnswerDataRequest -> Free c).
  { intros Hs. split_and!; [done|done|]. destruct (pending_request c); [|done]. exfalso. by apply Hs, Hsr. }
  case_decide as Hs; [|case_decide as Hs'; [|by apply keeps_refl]].
  - destruct (Free_Ready c (Hf ltac:(by rewrite Hs))) as [Hr _]. apply keeps_calm.
    exact (drive_set_state c DoneWithToken now Hr ltac:(done)).
  - apply poll_timeout_ok, Hf. by rewrite Hs'.
Qed.

Lemma take_successor_ok c src now : Ready c -> state c <> AnswerDataRequest ->
  keeps c (take_successor c src now).
Proof.
  intros H Hs. unfold take_successor. set (c1 := c <| next_station := _ |> <| poll_station := _ |> <| token_count := _ |>
    <| retry_token_count := _ |> <| sole_master := _ |>).
  assert (H1 : Ready c1) by (ready_update H). apply keeps_calm.
  exact (queue_token_calm c1 (next_station c1) Holder now H1 ltac:(done) Hs).
Qed.

(** ** Answers *)

Lemma reply_frame_sendable cf request decision now t d dest : valid_config cf ->
  reply_frame cf request decision now = Ok (Some (t, d)) ->
  sendable cf {| header := {| frame_type := t; destination := dest; source := station cf |}; data := d |}.
Proof.
  intros Hv. unfold reply_frame. destruct decision as [d'| |]; [|intros [= <- <-]|done].
  - destruct (_ <=? _); [done|]. case_bool_decide as H1; [done|]. unfold config_max_npdu in H1.
    case_bool_decide as H2; intros [= <- <-]; (split_and!; [done..|]); cbn.
    + right. destruct (extended_frames cf); [|lia]. unfold MAX_STANDARD_MPDU_DATA in *. split_and!; try done; lia.
    + left. split_and!; [done|lia|by right].
  - by apply no_data_sendable.
Qed.

Lemma complete_request_ok c id decision now : Inv c ->
  let c' := (complete_request c id decision now).1 in
  Inv c' /\ transmitting c' = transmitting c /\ stable c c'.
Proof.
  intros H. cbv zeta. unfold complete_request. cbv zeta.
  set (c1 := observe_time c now). set (t1 := last_now c1).
  assert (Hst : stable c c1).
  { split_and!; try done. cbn. unfold instant_max. destruct (Z.leb_spec now (last_now c)); lia. }
  assert (H1 : Inv c1) by exact H.
  assert (Hsame : Inv c1 /\ transmitting c1 = transmitting c /\ stable c c1) by done.
  change (pending_request c1) with (pending_request c).
  destruct (pending_request c) as [request|] eqn:Er; [|exact Hsame].
  assert (Hn : pending_request c <> None) by (by rewrite Er).
  pose proof H as (He & _ & _ & Hq & _). destruct (Hq Hn) as [Hs Hqt]. clear Hq.
  assert (Hx : transmitting c = false) by (unfold transmitting; by rewrite (proj1 (proj2 Hqt))).
  assert (Hcalm : forall c' : Core, Calm c' /\ stable c1 c' ->
    Inv c' /\ transmitting c' = transmitting c /\ stable c c').
  { intros c' [(HI & _ & _ & Hx') Hst']. rewrite Hx, Hx'. split_and!; [done..|by eapply stable_trans]. }
  destruct (negb _); [exact Hsame|].
  destruct (Z.leb_spec (gives_up (window request)) t1) as [Hg|Hg].
  { apply Hcalm. unfold release_unanswered_request.
    set (c2 := c1 <| pending_request := None |> <| counters ::= record_expired_request |>).
    exact (enter_idle_any c2 t1 He Hqt eq_refl). }
  destruct (reply_frame (config c1) request decision t1) as [[[t d]|]|e] eqn:Ef; [| |exact Hsame].
  - assert (Hsent : sent c1 (queue_frame c1 t (pr_source request) d PostIdle (Answer (window request)) t1)
                      (Answer (window request))).
    { apply queue_frame_sent; [exact He|exact Hqt| |done|].
      - eapply reply_frame_sendable; [|exact Ef]. apply He.
      - intros Hle. change (gives_up (window request) <= t1) in Hle. lia. }
    destruct Hsent as (E1 & E2 & E3 & E4 & E5 & E6 & E7 & E8 & E9).
    destruct E9 as [[Es (p & Ep & Eo)]|(_ & _ & Eq)];
      [|change (pending_request c = None) in Eq; congruence].
    cbn [fst]. generalize dependent (queue_frame c1 t (pr_source request) d PostIdle
      (Answer (window request)) t1). intros c2 E1 E2 E3 E4 E5 E6 E7 E8 Es Ep.
    split_and!; [|by rewrite Hx|by eapply stable_trans].
    unfold Inv. split_and!; try done. intros _. right; left. by exists p, (window request).
  - apply Hcalm. set (c2 := c1 <| pending_request := None |>).
    exact (enter_idle_any c2 t1 He Hqt eq_refl).
Qed.

Lemma complete_request_keeps c id decision now : Rx c ->
  keeps c (complete_request c id decision now).1.
Proof.
  intros [H Hx]. destruct (complete_request_ok c id decision now H) as (H1 & H2 & H3).
  split; [|done]. split; [done|congruence].
Qed.

Lemma reply_deadline_ok c now : Rx c -> quiet c -> keeps c (reply_deadline c now).
Proof.
  intros H Hq. unfold reply_deadline. destruct (pending_request c) eqn:E.
  - by apply complete_request_keeps.
  - apply keeps_calm. apply enter_idle_any; [apply H|done|done].
Qed.

Lemma begin_request_ok c f now : Free c -> keeps c (begin_request c f now).
Proof.
  intros (H & Hq & Hr). unfold begin_request. cbv zeta.
  set (c1 := c <| next_request_generation ::= _ |>).
  set (r := {| pr_id := _; pr_source := _; decide_by := _; window := _ |}).
  set (c2 := c1 <| pending_request := Some r |>).
  destruct (set_state_same c2 AnswerDataRequest) as (Hs & Hst & Ha & Hse & Hac & Hre & Hpt & _).
  pose proof (env_set_state c2 AnswerDataRequest ltac:(exact (proj1 (proj1 H)))) as He.
  generalize dependent (set_state c2 AnswerDataRequest). intros c3 Hs Hst Ha Hse Hac Hre Hpt He.
  set (c4 := c3 <| protocol_deadline := Some (decide_by r) |>).
  assert (Q4 : quiet c4).
  { destruct Hq as (Q1 & Q2 & Q3).
    exact (conj (eq_trans Hse Q1) (conj (eq_trans Hac Q2) (eq_trans (f_equal aq_transmit Ha) Q3))). }
  assert (H4 : Rx c4).
  { apply quiet_Rx; [exact He|exact Q4|done| |].
    - change (pending_request c3 <> None <-> state c3 = AnswerDataRequest). by rewrite Hre, Hs.
    - intros _. change (pending_request c3 <> None). by rewrite Hre. }
  destruct (deliver_alike c4 f (Some (next_request_generation c)) He) as (Hde & Hda & Hdt).
  assert (H5 : keeps c (deliver c4 f (Some (next_request_generation c))).1).
  { split; [|eapply stable_trans; [exact Hst|apply Hda]].
    split; [|rewrite (alike_transmitting _ _ Hda); apply H4].
    apply (alike_Inv c4); try done; [|apply H4]. rewrite Hdt. intros Ht. by apply H4; left. }
  change (next_request_generation c1) with ((next_request_generation c + 1) mod 2 ^ 32) in *.
  destruct (deliver c4 f (Some (next_request_generation c))) as [c5 []]; cbn [fst] in H5; [done|].
  destruct H5 as [H5 Hst5]. destruct (complete_request_keeps c5 (next_request_generation c) Postponed now H5).
  split; [done|by eapply stable_trans].
Qed.

(** ** A valid frame *)

(** What the decoder and [on_validated_frame] let through. *)
Definition frame_ok (f : Frame) : Prop :=
  is_cobs (frame_type (header f)) = false -> (length (data f) <= MAX_STANDARD_MPDU_DATA)%nat.

Lemma drop_pending_quiet c now : env c -> tx_ok c -> pending_send c <> None -> pending_token c = false ->
  quiet (drop_pending c now).
Proof.
  intros He Ht Hp Hk. destruct (discard_pending_ok c He Ht Hp) as (_ & (Q1 & Q2 & Q3) & _ & _ & Hk' & _).
  unfold drop_pending. rewrite enter_idle_no_token by congruence.
  destruct (set_state_same (discard_pending c) Idle) as (_ & _ & Ha & Hse & Hac & _).
  exact (conj (eq_trans Hse Q1) (conj (eq_trans Hac Q2) (eq_trans (f_equal aq_transmit Ha) Q3))).
Qed.

Lemma frame_while_pending_ok c f now : Rx c ->
  let '(c', handled) := frame_while_pending c f now in
  keeps c c' /\ (handled = false -> pending_send c' = None).
Proof.
  intros H. unfold frame_while_pending. pose proof H as [HI Hx].
  destruct (pending_send c) as [p|] eqn:Ep; [|by split].
  assert (Hreq : pending_request c = None) by (apply Inv_no_request; [done|left; congruence]).
  assert (Hn : pending_send c <> None) by congruence.
  pose proof HI as (He & Ht & Hy & Hr & Hb & Hl).
  assert (Hna : (forall w, ps_origin p <> Answer w) -> ~ answering c).
  { intros Ho [Ha|[(q & w & Hq & Hw)|(tx & Htx & Hst & _)]]; [by destruct Ha| |].
    - rewrite Ep in Hq. injection Hq as <-. by destruct (Ho w).
    - unfold transmitting in Hx. rewrite Htx in Hx. congruence. }
  assert (Hbusy : forall keep, (keep = true -> answering c) -> keeps c (frame_while_busy c f keep)).
  { intros keep Hk. destruct (frame_while_busy_ok c f keep HI Hk) as [H1 H2].
    split; [|apply H2]. split; [done|by rewrite (alike_transmitting _ _ H2)]. }
  assert (Hdrop : (forall w, ps_origin p <> Answer w) ->
    keeps c (drop_pending c now) /\ (false = false -> pending_send (drop_pending c now) = None)).
  { intros Ho. split; [by apply keeps_calm, drop_pending_any|]. intros _.
    apply drop_pending_quiet; try done. destruct (pending_token c) eqn:Ek; [|done].
    exfalso. apply (Hna Ho), Hb. by left. }
  destruct (ps_origin p) eqn:Eo; try (split; [apply Hbusy; try done; intros _; right; left; by exists p, w|done]).
  - destruct (_ && _); (split; [|done]); [|by apply Hbusy].
    destruct (discard_pending_ok c He Ht Hn) as (He' & Hq' & Hst' & Hr' & Hk' & Hs').
    assert (Hrd : Ready (discard_pending c) /\ state (discard_pending c) <> AnswerDataRequest).
    { assert (Hnn : ~ answering c) by (apply Hna; done). split.
      - refine (conj He' (conj Hq' (conj _ _))); [congruence|]. rewrite Hk'.
        destruct (pending_token c) eqn:Ek; [|done]. exfalso. apply Hnn, Hb. by left.
      - rewrite Hs'. intros E. apply Hnn, Hb. by right. }
    destruct (take_successor_ok (discard_pending c) (source (header f)) now) as [H1 H2]; [apply Hrd..|].
    split; [done|by eapply stable_trans].
  - by apply Hdrop.
  - by apply Hdrop.
Qed.

Lemma process_wait_for_reply_ok c f now : Free c -> keeps c (process_wait_for_reply c f now).
Proof.
  intros H. destruct (Free_Ready c H) as [Hr Hs]. unfold process_wait_for_reply. cbv zeta.
  destruct (negb _); [destruct H as (? & ? & ?); by apply idle_from_Rx|].
  apply keeps_calm. destruct (negb _); [|by apply drive_set_state].
  destruct Hr as (He & Hq & Hre & Hp).
  destruct (deliver_alike c f None He) as (Hde & Hda & Hdt). pose proof Hda as (Hst & _ & D1 & D2 & D3 & _ & _ & D4 & _).
  destruct (drive_set_state (deliver c f None).1 DoneWithToken now) as [Hc Hst']; [|done|].
  - destruct Hq as (Q1 & Q2 & Q3). refine (conj Hde (conj (conj _ (conj _ _)) (conj _ _))); congruence.
  - split; [done|by eapply stable_trans].
Qed.

Lemma sent_answer_keeps c c' w : Free c -> sent c c' (Answer w) -> keeps c c'.
Proof.
  intros H Hs. destruct (Free_Ready c H) as [Hr Hst]. apply keeps_calm. by eapply sent_calm.
Qed.

Lemma deliver_keeps c f r : Rx c -> keeps c (deliver c f r).1.
Proof.
  intros [H Hx]. destruct (deliver_alike c f r ltac:(apply H)) as (He & Ha & Ht).
  split; [|apply Ha]. split; [|by rewrite (alike_transmitting _ _ Ha)].
  apply (alike_Inv c); try done. rewrite Ht. intros Hp. apply H. by left.
Qed.

Lemma process_idle_frame_ok c f now : Free c -> frame_ok f -> keeps c (process_idle_frame c f now).
Proof.
  intros H Hf. destruct (Free_Ready c H) as [Hr Hs]. pose proof Hr as (He & Hq & Hre & Hp).
  assert (Hv : valid_config (config c)) by apply He.
  unfold process_idle_frame. cbv zeta.
  destruct (_ && _); [apply keeps_calm; by apply use_received_token_calm|].
  destruct (_ && _).
  { eapply sent_answer_keeps; [done|]. apply queue_frame_sent; try done. by apply no_data_sendable. }
  destruct (_ && _); [by apply deliver_keeps, H|]. destruct (_ && _); [by apply deliver_keeps, H|].
  destruct (_ && _); [by apply begin_request_ok|].
  destruct ((frame_type (header f) =? TEST_REQUEST) && _) eqn:Et.
  { eapply sent_answer_keeps; [done|]. apply queue_frame_sent; try done.
    apply andb_prop in Et as [Et _]. apply Z.eqb_eq in Et. split_and!; [done..|].
    left. split_and!; [done| |by right]. apply Hf. by rewrite Et. }
  destruct (goes_up_whole _ _); [by apply deliver_keeps, H|by apply keeps_refl, H].
Qed.

Lemma process_frame_ok c f now : Rx c -> frame_ok f -> keeps c (process_frame c f now).
Proof.
  intros H Hf. unfold process_frame. cbv zeta.
  set (c1 := if _ =? _ then _ else _).
  assert (H1 : Rx c1 /\ stable c c1) by (unfold c1; destruct (_ =? _); by split).
  clearbody c1. destruct H1 as [H1 Hst1].
  pose proof (frame_while_pending_ok c1 f now H1) as H2.
  destruct (frame_while_pending c1 f now) as [c2 handled]. destruct H2 as [[H2 Hst2] Hpn].
  assert (Hst : stable c c2) by (by eapply stable_trans).
  destruct handled; [by split|]. specialize (Hpn eq_refl).
  pose proof (Rx_quiet c2 H2 Hpn) as Hq. destruct (quiet_facts c2 H2 Hq) as (_ & Hsr & _).
  assert (Hk : forall c', keeps c2 c' -> keeps c c')
    by (intros c' [? ?]; split; [done|by eapply stable_trans]).
  apply Hk. destruct (is_some (pending_request c2) || _) eqn:Eb.
  { assert (Ha : answering c2).
    { left. apply orb_prop in Eb as [Eb|Eb]; [by destruct (pending_request c2)|].
      apply bool_decide_eq_true_1 in Eb. by apply Hsr. }
    destruct (frame_while_busy_ok c2 f true ltac:(apply H2) ltac:(done)) as [H3 H4].
    split; [|apply H4]. split; [done|]. rewrite (alike_transmitting _ _ H4). apply H2. }
  apply orb_false_iff in Eb as [Eb _].
  assert (Hfr : Free c2) by (split_and!; [done|done|by destruct (pending_request c2)]).
  set (c3 := if decide _ then idle_from c2 now else c2).
  assert (H3 : Free c3 /\ stable c2 c3).
  { unfold c3. case_decide; [|done]. destruct Hfr as (F1 & F2 & F3).
    destruct (idle_from_Rx c2 now F1 F2 F3) as [G1 G2]. split; [|done].
    destruct (set_state_same c2 Idle) as (_ & _ & Ha & Hse & Hac & Hre & _).
    destruct F2 as (Q1 & Q2 & Q3). split_and!; [done| |exact (eq_trans Hre F3)].
    exact (conj (eq_trans Hse Q1) (conj (eq_trans Hac Q2) (eq_trans (f_equal aq_transmit Ha) Q3))). }
  clearbody c3. destruct H3 as [H3 Hst3].
  assert (Hk3 : forall c', keeps c3 c' -> keeps c2 c')
    by (intros c' [? ?]; split; [done|by eapply stable_trans]).
  apply Hk3. case_decide as Ew; [by apply process_wait_for_reply_ok|].
  case_decide as Ep.
  - destruct (_ && _).
    + destruct (Free_Ready c3 H3). by apply take_successor_ok.
    + destruct H3 as (? & ? & ?). by apply idle_from_Rx.
  - by apply process_idle_frame_ok.
Qed.

(** ** The decoder *)

Lemma push_frame_ok d input d' f n : wf_dec d -> push_slice d input = (d', EvFrame f n) -> frame_ok f.
Proof.
  intros Hw E. pose proof (proj2 (push_slice_sim d input Hw)) as He. rewrite E in He. cbn [snd] in He.
  unfold apush in He. destruct (abs d) as [b sk]. case_decide; [done|].
  set (b1 := b ++ _) in He. destruct (adecode _ _ b1) as [[b' sk'] ev] eqn:Ea. cbn [snd] in He. subst ev.
  unfold adecode in Ea. destruct b1 as [|x l] eqn:Eb; [done|]. rewrite <-Eb in Ea.
  destruct (negb _); [done|]. destruct (icheck _ b1 _) as [valid|e] eqn:Ei.
  - injection Ea as _ _ <- _. apply icheck_ok in Ei as [Ei _]. intros Hc. cbn in Hc |- *.
    unfold frame_data. rewrite length_take.
    assert (valid_data_length valid <= MAX_STANDARD_MPDU_DATA)%nat; [|lia].
    unfold check_frame in Ei. destruct (check_header b1 _) as [good|] eqn:Eh; [|done]. cbn [rbind] in Ei.
    case_decide; [done|]. destruct (is_cobs (frame_type (good_header good))) eqn:Ec.
    + destruct (ok_or _ _); [|done]. injection Ei as <-. cbn in Hc. congruence.
    + destruct (bool_decide _ && _); [done|]. injection Ei as <-. cbn [valid_data_length].
      unfold check_header in Eh. case_decide; [done|]. destruct (negb _); [done|]. destruct (negb _); [done|].
      set (len := Z.to_nat _) in Eh.
      destruct (check_header_fields _ _ len) as [[]|e] eqn:Ef.
      * injection Eh as <-. cbn [good_length good_header frame_type] in *.
        apply check_header_fields_ok in Ef as [_ [(Hx & _)|(_ & Hx)]]; [congruence|exact Hx].
      * destruct e; try done. destruct (reserved_cobs d); [|done]. injection Eh as <-. cbn in Ec.
        unfold check_header_fields in Ef. rewrite Ec in Ef. destruct (_ =? _); [done|].
        case_decide; done.
  - destruct (refusal _ _ _) as [[? ?]|]; done.
Qed.

Lemma act_on_event_ok c ev now : Rx c -> (forall f n, ev = EvFrame f n -> frame_ok f) ->
  keeps c (act_on_event c ev now).
Proof.
  intros H Hf. unfold act_on_event. cbv zeta.
  assert (Hd : forall e dst, keeps c (if dropped_candidate_is_invalid c e dst
    then invalid_frame_event (c <| counters ::= record_parser_error |>) now else c)).
  { intros e dst. destruct (dropped_candidate_is_invalid _ _ _); [|by apply keeps_refl].
    set (c1 := c <| counters ::= record_parser_error |>).
    exact (invalid_frame_event_ok c1 now H). }
  destruct ev; try apply Hd; try by apply keeps_refl.
  destruct (_ && _); [apply Hd|]. apply process_frame_ok; [done|]. by eapply Hf.
Qed.

Lemma drain_decoder_ok fuel : forall c d input now, Rx c -> wf_dec d ->
  let '(c', d') := drain_decoder fuel c d input now in
  keeps c c' /\ wf_dec d' /\ capacity d' = capacity d.
Proof.
  induction fuel as [|fuel IH]; intros c d input now H Hw; [by split|]. cbn [drain_decoder].
  pose proof (proj1 (push_slice_sim d input Hw)) as (Hw' & [Hc' _] & _).
  destruct (push_slice d input) as [d1 ev] eqn:E. cbn [fst] in Hw', Hc'.
  assert (Hk : keeps c (act_on_event c ev now)).
  { apply act_on_event_ok; [done|]. intros f n ->. exact (push_frame_ok d input d1 f n Hw E). }
  destruct ev eqn:Eev; [by split|..]; 
    (destruct Hk as [Hk1 Hk2]; specialize (IH (act_on_event c ev now) d1 [] now);
     rewrite Eev in IH; specialize (IH Hk1 Hw');
     destruct (drain_decoder fuel _ _ _ _) as [c' d']; destruct IH as ((? & ?) & ? & ?);
     split; [split; [done|eapply stable_trans; [exact Hk2|done]]|split; [done|etransitivity; [eassumption|exact Hc']]]).
Qed.

(** The decoder's loop as the source writes it, with the rounds it took: it returns only when the decoder needs more octets. *)
Inductive drains (now : Instant) : Core -> StreamDecoder -> bytes -> nat -> Core * StreamDecoder -> Prop :=
| dr_returns c d input d' : push_slice d input = (d', EvNeedMore) -> drains now c d input 1 (c, d')
| dr_round c d input d' ev k r : push_slice d input = (d', ev) -> ev <> EvNeedMore -> drains now (act_on_event c ev now) d' [] k r ->
    drains now c d input (S k) r.
Lemma drain_round fuel c d input now d' ev : push_slice d input = (d', ev) -> ev <> EvNeedMore ->
  drain_decoder (S fuel) c d input now = drain_decoder fuel (act_on_event c ev now) d' [] now.
Proof. intros E Hn. cbn [drain_decoder]. rewrite E. by destruct ev. Qed.
(** More fuel than the rounds it takes changes nothing. *)
Lemma drains_fuel now c d input k r : drains now c d input k r -> forall fuel, (k <= fuel)%nat -> drain_decoder fuel c d input now = r.
Proof.
  induction 1 as [c d input d' E|c d input d' ev k r E Hn _ IH]; intros [|fuel] Hf; try lia.
  - cbn [drain_decoder]. by rewrite E.
  - rewrite (drain_round fuel c d input now d' ev E Hn). apply IH. lia.
Qed.
(** Once the octet is in, every event takes octets off the storage. *)
Lemma drain_rest fuel : forall c d now, wf_dec d -> (length (abs d).1 < fuel)%nat ->
  exists k, (k <= fuel)%nat /\ drains now c d [] k (drain_decoder fuel c d [] now).
Proof.
  induction fuel as [|fuel IH]; intros c d now Hw H1; [lia|].
  destruct (push_slice_sim d [] Hw) as [(Hw' & _ & Ha) He].
  destruct (push_slice d []) as [d1 ev] eqn:E. cbn [fst snd] in *.
  destruct (decide (ev = EvNeedMore)) as [->|Hn]; [exists 1%nat; split; [lia|]; cbn [drain_decoder]; rewrite E; by apply dr_returns|].
  unfold apush in Ha, He. destruct (abs d) as [b sk]. cbn [fst length] in *.
  rewrite Nat.min_0_r, drop_0, app_nil_r in *. rewrite decide_False in Ha, He by (cbn; lia).
  destruct (adecode _ _ b) as [[b' sk'] ev'] eqn:Ea. cbn [fst snd] in *. subst ev'.
  destruct (adecode_progress _ _ _ _ _ _ Ea Hn) as [Hp _].
  assert (Hl : length (abs d1).1 = length b') by (by rewrite Ha).
  destruct (IH (act_on_event c ev now) d1 now Hw' ltac:(lia)) as (k & Hk & Hd). exists (S k). split; [lia|].
  rewrite (drain_round fuel c d [] now d1 ev E Hn). by eapply dr_round.
Qed.
Lemma drain_octet c d byte now : wf_dec d -> exists k, (k <= capacity d + 2)%nat /\ drains now c d [byte] k (drain_decoder (capacity d + 3) c d [byte] now).
Proof.
  intros Hw. replace (capacity d + 3)%nat with (S (S (S (capacity d)))) by lia.
  destruct (push_slice_sim d [byte] Hw) as [(Hw' & _ & Ha) He].
  destruct (push_slice d [byte]) as [d1 ev] eqn:E. cbn [fst snd] in *.
  destruct (decide (ev = EvNeedMore)) as [->|Hn]; [exists 1%nat; split; [lia|]; cbn [drain_decoder]; rewrite E; by apply dr_returns|].
  assert (Hl : (length (abs d1).1 <= capacity d)%nat).
  { unfold apush in Ha, He. destruct (abs d) as [b sk] eqn:Eab. cbn [length] in *.
    assert (Hb : (length b <= capacity d)%nat).
    { assert (b = (abs d).1) as -> by (by rewrite Eab). unfold abs, capacity. cbn [fst].
      rewrite length_drop, length_buffered by done. destruct Hw. lia. }
    case_decide as Hx; [by rewrite Ha|].
    destruct (adecode _ _ (b ++ _)) as [[b' sk'] ev'] eqn:Ea. cbn [fst snd] in *. subst ev'.
    destruct (adecode_progress _ _ _ _ _ _ Ea Hn) as [Hp _]. rewrite length_app in Hp.
    assert (length (abs d1).1 = length b') as -> by (by rewrite Ha). lia. }
  destruct (drain_rest (S (capacity d)) (act_on_event c ev now) d1 now Hw' ltac:(lia)) as (k & Hk & Hd). exists (S k). split; [lia|].
  eapply dr_round; [exact E|exact Hn|]. rewrite (drain_round _ c d [byte] now d1 ev E Hn). by rewrite (drains_fuel _ _ _ _ _ _ Hd) by lia.
Qed.

(** ** The handlers *)

(** The whole invariant, the decoder's included. *)
Definition Good (c : Core) : Prop := Inv c /\ wf_dec (decoder c).

Lemma keeps_Good c c' : wf_dec (decoder c) -> keeps c c' -> Good c' /\ Rx c'.
Proof. intros Hw [[H Hx] (_ & Hd & _)]. split; [|done]. split; [done|by rewrite Hd]. Qed.

Lemma wf_reset d : wf_dec (stream_reset d).
Proof. constructor; cbn; lia. Qed.

Lemma abort_partial_ok c now : Good c ->
  let '(c', b) := abort_partial_if_late c now in
  Good c' /\ config c' = config c /\ last_now c' = last_now c /\ active_transmit c' = active_transmit c /\
  pending_send c' = pending_send c /\ actions c' = actions c /\ last_activity c' = last_activity c.
Proof.
  intros [H Hw]. unfold abort_partial_if_late. destruct (_ && _); [|by split_and!].
  destruct (in_candidate _); split_and!; try done; split; (exact H || apply wf_reset).
Qed.

Lemma Good_Rx c : Good c -> transmitting c = false -> Rx c.
Proof. by intros [? ?]. Qed.

(** Anything found invalid outside a transmission. *)
Lemma invalid_event_Good c now : Good c -> Good (invalid_frame_event c now).
Proof.
  intros H. destruct (transmitting c) eqn:Hx.
  - unfold transmitting in Hx. unfold invalid_frame_event.
    destruct (active_transmit c); [|done]. by rewrite orb_true_r.
  - apply (keeps_Good c); [apply H|]. by apply invalid_frame_event_ok, Good_Rx.
Qed.

Lemma observe_Good c now : Good c -> Good (observe_time c now).
Proof. done. Qed.

Lemma note_Good c now events : Good c -> transmitting c = false ->
  Good (note_bus_activity c now events) /\ Rx (note_bus_activity c now events).
Proof.
  intros H Hx. apply (keeps_Good c); [apply H|]. by apply note_bus_activity_ok, Good_Rx.
Qed.

Lemma decode_octet_Good c byte now : Good c -> transmitting c = false -> Good (decode_octet c byte now).
Proof.
  intros [H Hw] Hx. unfold decode_octet. set (c1 := c <| decoder := stream_new [] |>).
  pose proof (drain_decoder_ok (capacity (decoder c) + 3) c1 (decoder c) [byte] now (conj H Hx) Hw) as Hd.
  destruct (drain_decoder _ c1 (decoder c) [byte] now) as [c2 d2]. destruct Hd as ([H2 _] & Hw2 & _).
  split; [apply H2|exact Hw2].
Qed.

Lemma on_octet_Good c byte now : Good c -> Good (on_octet c byte now).
Proof.
  intros H. unfold on_octet. cbv zeta. set (c1 := observe_time c now).
  destruct (transmitting c1) eqn:Hx; [exact H|].
  pose proof (abort_partial_ok c1 (last_now c1) H) as Ha.
  destruct (abort_partial_if_late c1 (last_now c1)) as [c2 b].
  destruct Ha as (H2 & _ & _ & Hac & _).
  assert (Hx2 : transmitting c2 = false) by (unfold transmitting in *; by rewrite Hac).
  destruct (note_Good c2 (last_now c1) 1 H2 Hx2) as [H3 [_ Hx3]].
  set (c3 := note_bus_activity c2 (last_now c1) 1) in *.
  set (c4 := if b then invalid_frame_event c3 (last_now c1) else c3).
  assert (H4 : Good c4 /\ transmitting c4 = false).
  { unfold c4. destruct b; [|done]. destruct (keeps_Good c3 (invalid_frame_event c3 (last_now c1))) as [? [_ ?]];
      [apply H3| |done]. by apply invalid_frame_event_ok, Good_Rx. }
  destruct H4 as [H4 Hx4].
  set (c5 := c4 <| last_octet := Some (last_now c1) |>).
  exact (decode_octet_Good c5 byte (last_now c1) H4 Hx4).
Qed.

Lemma on_validated_frame_Good c f now : Good c -> Good (on_validated_frame c f now).
Proof.
  intros H. unfold on_validated_frame. cbv zeta.
  set (too_long := if negb _ then _ else _).
  destruct (too_long || _ || _) eqn:Eu; [exact H|].
  set (c1 := observe_time c now). destruct (transmitting c1) eqn:Hx; [exact H|].
  destruct (note_Good c1 (last_now c1) 1 H Hx) as [[H2 Hw2] Hrx].
  apply (keeps_Good (note_bus_activity c1 (last_now c1) 1)); [done|]. apply process_frame_ok; [done|].
  intros Hc. apply orb_false_iff in Eu as [Eu _]. apply orb_false_iff in Eu as [Eu _].
  unfold too_long in Eu. rewrite Hc, andb_false_r in Eu. cbn [negb] in Eu.
  apply bool_decide_eq_false_1 in Eu. lia.
Qed.

Lemma on_invalid_frame_Good c now : Good c -> Good (on_invalid_frame c now).
Proof.
  intros H. unfold on_invalid_frame. cbv zeta. set (c1 := observe_time c now).
  destruct (transmitting c1) eqn:Hx; [exact H|].
  destruct (note_Good c1 (last_now c1) 1 H Hx) as [H2 _].
  set (c3 := _ <| counters ::= record_parser_error |>).
  exact (invalid_event_Good c3 (last_now c1) H2).
Qed.

Lemma on_host_activity_Good c octets now : Good c -> Good (on_host_activity c octets now).
Proof.
  intros H. unfold on_host_activity. cbv zeta. set (c1 := observe_time c now).
  destruct (transmitting c1) eqn:Hx; [exact H|]. destruct (octets =? 0); [exact H|].
  by apply (note_Good c1).
Qed.

Lemma on_receive_error_Good c e now : Good c -> Good (on_receive_error c e now).
Proof.
  intros H. unfold on_receive_error. cbv zeta. set (c1 := observe_time c now).
  destruct (transmitting c1) eqn:Hx; [exact H|].
  set (c2 := c1 <| counters ::= _ |>).
  assert (H2 : Good c2) by (unfold c2; destruct e; exact H).
  destruct (note_Good c2 (last_now c1) 1 H2 Hx) as [[H3 _] _].
  set (c4 := _ <| decoder ::= stream_reset |> <| parser_partial := false |>).
  assert (H4 : Good c4) by (split; [exact H3|apply wf_reset]).
  destruct (in_candidate _); [|exact H4].
  set (c5 := c4 <| counters ::= record_parser_error |>).
  exact (invalid_event_Good c5 (last_now c1) H4).
Qed.

Lemma on_silence_Good c now : Good c -> Good (on_silence c now).
Proof.
  intros H. unfold on_silence. cbv zeta. set (c1 := observe_time c now).
  pose proof (abort_partial_ok c1 (last_now c1) H) as Ha.
  destruct (abort_partial_if_late c1 (last_now c1)) as [c2 b]. destruct Ha as [H2 _].
  destruct b; [by apply invalid_event_Good|done].
Qed.

(** *** Transmit events *)

Lemma calm_Good c c' : wf_dec (decoder c) -> Calm c' /\ stable c c' -> Good c'.
Proof. intros Hw [(HI & _) (_ & Hd & _)]. split; [done|by rewrite Hd]. Qed.

(** The octets handed out at a confirmed start, and when. *)
Lemma confirm_start_Good c tx now : Good c -> active_transmit c = Some tx -> pending_send c <> None ->
  transmit_queued (actions c) (tx_id tx) = false ->
  let c' := confirm_start c tx now in
  Good c' /\ actions c' = actions c /\ config c' = config c.
Proof.
  intros H Et Hp Hnq. cbv zeta. unfold confirm_start.
  pose proof (abort_partial_ok c now H) as Ha. destruct (abort_partial_if_late c now) as [c1 b].
  destruct Ha as ([H1 Hw1] & Hcf & _ & Hac & Hps & Hact & _).
  set (c2 := if parser_partial c1 then _ else c1).
  assert (H2 : Inv c2 /\ wf_dec (decoder c2) /\ active_transmit c2 = active_transmit c1 /\
    pending_send c2 = pending_send c1 /\ actions c2 = actions c1 /\ config c2 = config c1).
  { unfold c2. destruct (parser_partial c1); split_and!; try done. apply wf_reset. }
  clearbody c2. destruct H2 as (H2 & Hw2 & Hac2 & Hps2 & Hact2 & Hcf2).
  assert (Hreq : pending_request c2 = None) by (apply Inv_no_request; [done|left; congruence]).
  destruct H2 as (He & Ht & Hy & Hr & Hb & Hl).
  destruct (pending_send c) as [p|] eqn:Ep; [|done].
  unfold tx_ok in Ht. rewrite Hac2, Hac, Et, Hps2, Hps in Ht. 
  split_and!; [|by rewrite <-Hact, <-Hact2|by rewrite <-Hcf, <-Hcf2].
  split; [|exact Hw2]. refine (conj He (conj _ (conj _ (conj _ (conj _ I))))).
  - destruct Ht as (_ & _ & Hh & _ & Hq). refine (conj eq_refl (conj _ Hh)).
    change (aq_transmit (actions c2) = None).
    destruct (aq_transmit (actions c2)) as [t|] eqn:Eq; [|done]. specialize (Hq t eq_refl).
    unfold transmit_queued in Hnq. rewrite <-Hact, <-Hact2, Eq, Hq, Z.eqb_refl in Hnq. done.
  - by intros ? [=].
  - intros Hn. by destruct Hn.
  - intros Hbb. destruct (Hb Hbb) as [Hn|[(q & w & Hq & Ho)|(tx' & Htx' & Hn & _)]]; [by destruct Hn| |].
    + right; right. eexists. split; [reflexivity|]. split; [done|]. cbn.
      rewrite Hps2, Hps in Hq. injection Hq as ->. destruct Ht as (_ & -> & _ & Hpo & _). by eapply Hpo.
    + rewrite Hac2, Hac, Et in Htx'. injection Htx' as ->. destruct Ht. congruence.
Qed.

(** What a confirmed start promises: the octets are a frame this station may send, and the line
    has been quiet for T_turnaround. *)
Lemma on_transmit_started_Good c id now : Good c ->
  let '(c', r) := on_transmit_started c id now in
  Good c' /\
  match r with
  | Ok octets =>
      exists p f, pending_send c = Some p /\ sendable (config c) f /\ octets = wire f /\
        last_activity c +: t_turnaround (config c) <= instant_max (last_now c) now /\
        (forall w, ps_origin p = Answer w -> instant_max (last_now c) now < gives_up w) /\
        transmitting c = false /\ transmitting c' = true /\ pending_send c' = None
  | Err _ => True
  end.
Proof.
  intros H. unfold on_transmit_started. cbv zeta. set (c1 := observe_time c now).
  change (last_now c1) with (instant_max (last_now c) now). set (t1 := instant_max (last_now c) now).
  assert (H1 : Good c1) by exact H. pose proof H1 as [HI Hw].
  destruct (active_transmit c1) as [tx|] eqn:Et; [|by split].
  destruct (negb (tx_id tx =? id)) eqn:Eid; [by split|].
  apply negb_false_iff, Z.eqb_eq in Eid.
  destruct (started tx) eqn:Es; [by split|].
  destruct (transmit_queued (actions c1) id) eqn:Eq; [by split|].
  destruct (pending_send c1) as [p|] eqn:Ep; [|by split].
  assert (Hn : pending_send c1 <> None) by congruence.
  assert (Hreq : pending_request c1 = None) by (apply Inv_no_request; [done|by left]).
  pose proof HI as (He & Ht & Hy & Hr & Hb & Hl).
  set (win := match ps_origin p with Answer w => Some w | _ => None end).
  destruct (match win with Some w => gives_up w <=? t1 | None => false end) eqn:Eg.
  { split; [|done]. apply (calm_Good c1); [done|]. by apply drop_pending_any. }
  pose proof (withdraw_ok c1 tx He Ht Et) as (W1 & W2 & W3 & W4). rewrite Eid in W1, W2, W3, W4.
  pose proof Ht as Ht'. unfold tx_ok in Ht'. rewrite Et, Ep in Ht'. destruct Ht' as (_ & Hpost & Hh & Hpo & Hq).
  destruct (Z.ltb_spec t1 (ps_earliest p)) as [Hd|Hd].
  { split; [|done].
    set (c2 := (withdraw_transmit c1 id) <| counters ::= record_deferred_start |>).
    assert (Hh2 : holds c2) by (destruct Hh as (f & Hf & Hw'); exists f; split; [exact Hf|]; etransitivity; [exact W4|exact Hw']).
    assert (Ht2 : tx_ok c2).
    { unfold tx_ok. change (active_transmit c2) with (@None ActiveTransmit).
      change (pending_send c2) with (pending_send c1). rewrite Ep. by split_and!. }
    destruct (ps_limit p <=? t1).
    - apply (calm_Good c2); [exact Hw|]. apply drop_pending_any; try done.
    - split; [|exact Hw]. refine (conj W1 (conj Ht2 (conj Hy (conj _ (conj _ _))))).
      + intros Hnr. by destruct Hnr.
      + intros Hbb. destruct (Hb Hbb) as [Hnr|[(q & w & Hq' & Ho)|(tx' & Htx' & Hst & _)]];
          [by destruct Hnr|right; left; by exists q, w|congruence].
      + unfold live. cbn. change (pending_send c1) with (pending_send c) in Ep. by rewrite Ep. }
  set (c2 := if match win with Some w => send_by w <? t1 | None => false end then _ else c1).
  assert (H2 : Good c2 /\ active_transmit c2 = Some tx /\ pending_send c2 = Some p /\ actions c2 = actions c1)
    by (unfold c2; destruct win as [w|]; [destruct (send_by w <? t1)|];
        refine (conj (conj HI Hw) (conj Et (conj Ep eq_refl)))).
  clearbody c2. destruct H2 as (H2 & Et2 & Ep2 & Ea2).
  destruct (confirm_start_Good c2 tx t1 H2 Et2 ltac:(congruence) ltac:(by rewrite Ea2, Eid)) as (H3 & Ha3 & _).
  split; [exact H3|]. rewrite Ha3, Ea2. destruct Hh as (f & Hf & Hw').
  exists p, f. split_and!; [exact Ep|exact Hf|exact Hw'| | | | |].
  - pose proof (Hy p Ep) as Hy'. change (ps_earliest p = last_activity c +: t_turnaround (config c)) in Hy'.
    rewrite <-Hy'. exact Hd.
  - intros w Ho. unfold win in Eg. rewrite Ho in Eg. lia.
  - change (transmitting c) with (transmitting c1). unfold transmitting. by rewrite Et.
  - unfold confirm_start. by destruct (abort_partial_if_late c2 t1).
  - unfold confirm_start. by destruct (abort_partial_if_late c2 t1).
Qed.

Lemma on_transmit_complete_Good c id now : Good c -> Good (on_transmit_complete c id now).
Proof.
  intros H. unfold on_transmit_complete. cbv zeta. set (c1 := observe_time c now).
  set (t1 := last_now c1).
  assert (H1 : Good c1) by exact H. pose proof H1 as [HI Hw].
  destruct (active_transmit c1) as [tx|] eqn:Et; [|done].
  destruct (negb (tx_id tx =? id)); [done|]. destruct (started tx) eqn:Es; [|done]. cbn [negb].
  assert (Hreq : pending_request c1 = None) by (apply Inv_no_request; [done|right; congruence]).
  destruct HI as (He & Ht & Hy & Hr & Hb & Hl).
  unfold tx_ok in Ht. rewrite Et in Ht.
  destruct (pending_send c1) as [p|] eqn:Ep; [destruct Ht; congruence|]. destruct Ht as (_ & Hq & _).
  set (c2 := c1 <| actions ::= queue_receive |> <| active_transmit := None |> <| last_activity := t1 |>).
  set (c3 := c2 <| counters ::= _ |>). set (c4 := c3 <| counters ::= record_frame_transmitted |>).
  assert (He4 : env c4).
  { destruct He as (Hv & Hro & Hw' & Has & Ha & Hi & Htc). unfold env. cbn. unfold aq_assert. 
    change (actions c1) with (actions c) in *. rewrite Hq. cbn. split_and!; try done. by apply wf_queue_receive. }
  assert (Hq4 : quiet c4) by (split_and!; [exact Ep|done|exact Hq]).
  assert (Hidle : tx_post tx <> PostIdle -> Ready c4 /\ pending_token c4 = false).
  { intros Hpi. assert (Hna : ~ answering c1).
    { intros [Hn|[(q & w & Hq' & _)|(tx' & Htx' & _ & Hp')]]; congruence. }
    assert (Hpt : pending_token c1 = false)
      by (destruct (pending_token c1) eqn:E; [exfalso; apply Hna, Hb; by left|done]).
    split; [|exact Hpt]. exact (conj He4 (conj Hq4 (conj Hreq Hpt))). }
  assert (Hset : forall s d, s <> AnswerDataRequest -> tx_post tx <> PostIdle ->
    Good ((set_state c4 s) <| protocol_deadline := Some d |>)).
  { intros s d Hs Hpi. destruct (Hidle Hpi) as [Hrd _].
    destruct (settle_ok c4 s d Hrd Hs) as [[H5 _] (_ & Hd5 & _)]. split; [exact H5|]. rewrite Hd5. exact Hw. }
  destruct (tx_post tx) eqn:Epost.
  - apply (calm_Good c4); [exact Hw|]. by apply enter_idle_any.
  - apply (calm_Good c4); [exact Hw|]. apply drive_set_state; [by apply Hidle|done].
  - by apply Hset.
  - exact (Hset PassToken (t1 +: t_usage_timeout (config c)) ltac:(done) ltac:(done)).
  - by apply Hset.
Qed.

Lemma on_transmit_aborted_Good c id reason now : Good c -> Good (on_transmit_aborted c id reason now).
Proof.
  intros H. unfold on_transmit_aborted. cbv zeta. set (c1 := observe_time c now). set (t1 := last_now c1).
  pose proof H as [HI Hw]. change (active_transmit c1) with (active_transmit c).
  destruct (active_transmit c) as [tx|] eqn:Et; [|exact H].
  destruct (negb (tx_id tx =? id)) eqn:Eid; [exact H|]. apply negb_false_iff, Z.eqb_eq in Eid. subst id.
  assert (Hreq : pending_request c = None) by (apply Inv_no_request; [done|right; congruence]).
  destruct HI as (He & Ht & _).
  set (c2 := c1 <| counters ::= _ |>).
  assert (He2 : env c2) by (unfold c2; destruct reason; exact He).
  destruct (withdraw_ok c2 tx He2 Ht Et) as (W1 & W2 & W3 & _).
  set (c3 := withdraw_transmit c2 (tx_id tx)) in *. set (c4 := forget_pending c3).
  assert (H4 : env c4 /\ quiet c4 /\ stable c c4 /\ pending_request c4 = None).
  { assert (Hst : last_now c <= last_now c1) by (cbn; unfold instant_max; destruct (Z.leb_spec now (last_now c)); lia).
    unfold c4, forget_pending. destruct (pending_send c3) as [p|] eqn:Ep.
    - destruct (ps_origin p); split_and!; try done; exact W1.
    - by split_and!. }
  clearbody c4. destruct H4 as (He4 & Hq4 & Hst4 & Hr4).
  set (c5 := if started tx then _ else c4).
  assert (H5 : env c5 /\ quiet c5 /\ stable c c5 /\ pending_request c5 = None)
    by (unfold c5; destruct (started tx); by split_and!).
  clearbody c5. destruct H5 as (He5 & Hq5 & Hst5 & Hr5).
  unfold take_pending_token. set (c6 := idle_from c5 t1).
  destruct (set_state_same c5 Idle) as (S1 & S2 & S3 & S4 & S5 & S6 & S7 & _).
  pose proof (env_set_state c5 Idle He5) as S8. destruct Hq5 as (Q1 & Q2 & Q3).
  set (c7 := c6 <| pending_token := false |>).
  assert (H7 : Ready c7).
  { refine (conj S8 (conj (conj _ (conj _ _)) (conj _ eq_refl)));
      [exact (eq_trans S4 Q1)|exact (eq_trans S5 Q2)|exact (eq_trans (f_equal aq_transmit S3) Q3)|exact (eq_trans S6 Hr5)]. }
  assert (Hst7 : stable c c7) by (eapply stable_trans; [exact Hst5|exact S2]).
  destruct (pending_token c6).
  - destruct (use_received_token_calm (again_ := use_token_fuel 0) c7 t1 H7) as [Hc Hst].
    apply (calm_Good c); [done|]. split; [exact Hc|by eapply stable_trans].
  - split; [|destruct Hst7 as (_ & -> & _); exact Hw].
    apply quiet_Rx; [apply H7|apply H7|done| |done].
    change (pending_request (set_state c5 Idle) <> None <-> state (set_state c5 Idle) = AnswerDataRequest).
    rewrite S6, S1, Hr5. done.
Qed.

(** A waiting frame whose time has come is handed over, waits on, or is dropped. *)
Lemma dispatch_pending_Good c p now : Good c -> pending_send c = Some p -> active_transmit c = None ->
  Good (dispatch_pending_send c now).
Proof.
  intros [HI Hw] Ep Et. unfold dispatch_pending_send. rewrite Ep.
  assert (Hreq : pending_request c = None) by (apply Inv_no_request; [done|left; congruence]).
  pose proof HI as (He & Ht & Hy & Hr & Hb & Hl).
  destruct (_ <=? _).
  { apply (calm_Good c); [done|]. apply drop_pending_any; try done. congruence. }
  unfold tx_ok in Ht. rewrite Et, Ep in Ht. destruct Ht as (Hq & Hh & Hpo).
  destruct (_ <? _).
  - split; [|exact Hw]. unfold live in Hl. rewrite Et, Ep in Hl.
    refine (conj He (conj _ (conj Hy (conj Hr (conj Hb _))))).
    + unfold tx_ok. cbn. rewrite Et, Ep. by split_and!.
    + unfold live. cbn. by rewrite Et, Ep.
  - unfold dispatch_frame. rewrite Et. cbn [is_none is_some negb]. split; [|exact Hw].
    refine (conj _ (conj _ (conj Hy (conj _ (conj _ I))))).
    + destruct He as (? & ? & [] & ? & ? & ? & ?). unfold env. cbn. unfold aq_assert. rewrite Hq. by split_and!.
    + unfold tx_ok. cbn. rewrite Ep. split_and!; try done. by intros t [= <-].
    + intros Hn. by destruct Hn.
    + intros Hbb. destruct (Hb Hbb) as [Hn|[(q & w & Hq' & Ho)|(tx & Htx & _)]];
        [by destruct Hn|right; left; by exists q, w|congruence].
Qed.

Lemma on_deadline_Good c now : Good c -> Good (on_deadline c now).
Proof.
  intros H. unfold on_deadline. cbv zeta. set (c1 := observe_time c now). set (t1 := last_now c1).
  pose proof (abort_partial_ok c1 t1 H) as Ha. destruct (abort_partial_if_late c1 t1) as [c2 b].
  destruct Ha as [H2 _].
  set (c3 := if b then invalid_frame_event c2 t1 else c2).
  assert (H3 : Good c3) by (unfold c3; destruct b; [by apply invalid_event_Good|done]). clearbody c3.
  destruct (next_deadline c3) as [d|]; [|done]. destruct (t1 <? d); [done|].
  set (c4 := c3 <| counters ::= _ |>).
  assert (H4 : Good c4).
  { unfold c4, record_deadline. destruct H3 as [HI Hw]. split; [|exact Hw].
    destruct HI as ((Hv & Hro & Hw' & Has & Has' & Hi & Htc) & HI). split; [|exact HI].
    unfold env. cbn. destruct (_ <=? _); by split_and!. }
  clearbody c4. destruct (active_transmit c4) as [tx|] eqn:Et.
  { destruct (_ <=? _); [by apply on_transmit_aborted_Good|done]. }
  assert (Hx : transmitting c4 = false) by (unfold transmitting; by rewrite Et).
  destruct (pending_send c4) as [p|] eqn:Ep; cbn [is_some]; [by eapply dispatch_pending_Good|].
  pose proof (Good_Rx c4 H4 Hx) as Hrx. pose proof (Rx_quiet c4 Hrx Ep) as Hq.
  destruct (quiet_facts c4 Hrx Hq) as (_ & Hsr & _).
  assert (Hf : state c4 <> AnswerDataRequest -> Free c4).
  { intros Hs. split_and!; [done|done|]. destruct (pending_request c4); [|done]. exfalso. by apply Hs, Hsr. }
  assert (Hk : forall c', keeps c4 c' -> Good c') by (intros c' Hk; apply (keeps_Good c4); [apply H4|done]).
  apply Hk. destruct (state c4) eqn:Es; try (specialize (Hf ltac:(congruence))).
  - by apply enter_no_token_ok.
  - by apply generate_token_ok.
  - apply keeps_calm, drive_calm; [by apply Free_Ready|congruence].
  - apply keeps_calm, drive_calm; [by apply Free_Ready|congruence].
  - by apply pass_token_timeout_ok.
  - apply keeps_calm. set (c5 := c4 <| frame_count := _ |>).
    exact (drive_set_state c5 DoneWithToken t1 (proj1 (Free_Ready c4 Hf)) ltac:(done)).
  - by apply poll_timeout_ok.
  - by apply reply_deadline_ok.
Qed.

(** *** The application *)

Lemma enqueue_npdu_Good c dest npdu p now : Good c -> Good (enqueue_npdu c dest npdu p now).1.
Proof.
  intros H. unfold enqueue_npdu. cbv zeta. case_bool_decide; [by destruct (from_destination dest)|].
  by destruct (queue_enqueue_npdu _ _ _ _ _ _).
Qed.

Lemma take_counters_Good c : Good c -> Good (take_counters c).1.
Proof.
  intros [((Hv & Hro & Hw' & Has & Has' & Hi & Htc) & HI) Hw]. unfold take_counters.
  destruct (queue_take_counters _ Unicast) as [q u]. destruct (queue_take_counters q Broadcast) as [q' b].
  cbn [fst]. split; [|exact Hw]. split; [|exact HI]. by split_and!.
Qed.

Lemma poll_keeps a : wf_actions a ->
  let a' := (poll a).1 in
  wf_actions a' /\ aq_frame a' = aq_frame a /\ aq_frame_length a' = aq_frame_length a /\
  aq_asserts a' = aq_asserts a /\
  (forall t, aq_transmit a' = Some t -> exists t0, aq_transmit a = Some t0 /\ qt_id t = qt_id t0).
Proof.
  intros Hw. pose proof Hw as [Hh Hwa Hs]. cbv zeta. unfold poll.
  destruct (aq_receive a); [split_and!; try done; by eauto|].
  destruct (aq_transmit a) as [t0|] eqn:Et.
  - destruct (negb _); cbn [fst]; split_and!; try done. intros t [= <-]. by eauto.
  - case_decide as Hz; cbn [fst]; [split_and!; try done; intros t Ht; congruence|].
    split_and!; try done; [|cbn; intros t Ht; congruence].
    constructor; cbn; [apply wrap_lt; lia|lia|done].
Qed.

Lemma poll_action_Good c : Good c -> Good (poll_action c).1.
Proof.
  intros [((Hv & Hro & Hw' & Has & Has' & Hi & Htc) & Ht & Hy & Hr & Hb & Hl) Hw].
  unfold poll_action. pose proof (poll_keeps (actions c) Hw') as Hp.
  destruct (poll (actions c)) as [a act]. cbn [fst] in *. destruct Hp as (P1 & P2 & P3 & P4 & P5).
  assert (Hn : aq_transmit (actions c) = None -> aq_transmit a = None).
  { intros E. destruct (aq_transmit a) as [t|]; [|done]. destruct (P5 t eq_refl) as (? & ? & _). congruence. }
  assert (Hh : holds c -> holds (c <| actions := a |>)).
  { intros (f & Hf & E). exists f. split; [exact Hf|]. unfold aq_current_frame in *. cbn. by rewrite P2, P3. }
  split; [|exact Hw]. refine (conj _ (conj _ (conj Hy (conj _ (conj Hb Hl))))).
  - unfold env. cbn. rewrite P2, P4. by split_and!.
  - unfold tx_ok in *. cbn. destruct (active_transmit c), (pending_send c); [|naive_solver..].
    destruct Ht as (? & ? & ? & ? & Hq). split_and!; auto.
    intros t E. destruct (P5 t E) as (t0 & E0 & ->). by apply Hq.
  - intros Hnr. destruct (Hr Hnr) as (? & Q1 & Q2 & Q3). split_and!; [done|split_and!]; try done. by apply Hn.
Qed.

(** ** Construction and histories *)

Lemma from_parts_Good cf qs rx deliveries npdu frame b now c : 0 <= baud_rate cf ->
  action_buffers_new deliveries npdu frame = Some b -> from_parts cf qs rx b now = Ok c -> Good c.
Proof.
  intros Hb Hab Hc. unfold from_parts in Hc.
  destruct (validate cf) as [[]|] eqn:Hv; [|done]. apply (validate_iff cf Hb) in Hv. cbn [rbind] in Hc.
  apply refuse_bind in Hc as [_ Hc].
  unfold action_buffers_new in Hab. case_decide as Hd; [|done]. injection Hab as <-.
  set (x := if extended_frames cf then _ else _) in Hc. destruct x as [[]|] eqn:Hx; [|done].
  injection Hc as <-.
  assert (Hr : roomy cf frame).
  { split.
    - destruct Hd as [_ Hd]. unfold frame_room in Hd. case_decide; [done|].
      change MAX_STANDARD_FRAME_LENGTH with 511%nat. change (length PREAMBLE + HEADER_LENGTH)%nat with 8%nat in Hd.
      unfold MAX_STANDARD_MPDU_DATA in *. lia.
    - intros He. unfold x in Hx. rewrite He in Hx. unfold check_buffer in Hx.
      apply refuse_bind in Hx as [_ Hx]. apply refuse_bind in Hx as [Hx _].
      apply bool_decide_eq_false_1 in Hx. cbn [ab_frame] in Hx. rewrite length_replicate in Hx. lia. }
  split; [|destruct (extended_frames cf); constructor; cbn; lia].
  apply quiet_Rx; [|by split_and!|done|split; done|done].
  unfold env. cbn. rewrite length_replicate. split_and!; try done.
  constructor; cbn; rewrite ?length_replicate; [lia|lia|].
  apply Forall_replicate. apply length_replicate.
Qed.

(** A call of the adapter's or the application's that changes the core. *)
Inductive CoreInput :=
| InOctet (byte : Z) (now : Instant)
| InValidatedFrame (f : Frame) (now : Instant)
| InInvalidFrame (now : Instant)
| InHostActivity (octets : Z) (now : Instant)
| InReceiveError (e : ReceiveError) (now : Instant)
| InSilence (now : Instant)
| InDeadline (now : Instant)
| InTransmitStarted (id : TransmitId) (now : Instant)
| InTransmitComplete (id : TransmitId) (now : Instant)
| InTransmitAborted (id : TransmitId) (reason : TransmitFailure) (now : Instant)
| InCompleteRequest (id : RequestId) (decision : ReplyDecision) (now : Instant)
| InEnqueue (dest : Z) (npdu : bytes) (p : NetworkPriority) (now : Instant)
| InPoll
| InTakeCounters.

Definition core_step (c : Core) (i : CoreInput) : Core :=
  match i with
  | InOctet byte now => on_octet c byte now
  | InValidatedFrame f now => on_validated_frame c f now
  | InInvalidFrame now => on_invalid_frame c now
  | InHostActivity octets now => on_host_activity c octets now
  | InReceiveError e now => on_receive_error c e now
  | InSilence now => on_silence c now
  | InDeadline now => on_deadline c now
  | InTransmitStarted id now => (on_transmit_started c id now).1
  | InTransmitComplete id now => on_transmit_complete c id now
  | InTransmitAborted id reason now => on_transmit_aborted c id reason now
  | InCompleteRequest id decision now => (complete_request c id decision now).1
  | InEnqueue dest npdu p now => (enqueue_npdu c dest npdu p now).1
  | InPoll => (poll_action c).1
  | InTakeCounters => (take_counters c).1
  end.

(** The cores a caller can have: built over buffers of any size the constructors take, then driven
    by any calls in any order. *)
Inductive core_reachable : Core -> Prop :=
| core_built cf qs rx deliveries npdu frame b now c :
    is_u32 (baud_rate cf) -> action_buffers_new deliveries npdu frame = Some b ->
    from_parts cf qs rx b now = Ok c -> core_reachable c
| core_stepped c i : core_reachable c -> core_reachable (core_step c i).

Lemma core_step_Good c i : Good c -> Good (core_step c i).
Proof.
  intros H. destruct i; cbn [core_step].
  - by apply on_octet_Good.
  - by apply on_validated_frame_Good.
  - by apply on_invalid_frame_Good.
  - by apply on_host_activity_Good.
  - by apply on_receive_error_Good.
  - by apply on_silence_Good.
  - by apply on_deadline_Good.
  - pose proof (on_transmit_started_Good c id now H) as Hs.
    destruct (on_transmit_started c id now). by destruct Hs.
  - by apply on_transmit_complete_Good.
  - by apply on_transmit_aborted_Good.
  - destruct H as [H Hw]. destruct (complete_request_ok c id decision now H) as (H1 & _ & (_ & Hd & _)).
    split; [done|by rewrite Hd].
  - by apply enqueue_npdu_Good.
  - by apply poll_action_Good.
  - by apply take_counters_Good.
Qed.

Lemma reachable_Good c : core_reachable c -> Good c.
Proof.
  induction 1 as [cf qs rx deliveries npdu frame b now c Hu Hab Hc|c i _ IH].
  - eapply from_parts_Good; [|done..]. width.
  - by apply core_step_Good.
Qed.

Lemma earliest_some l d : Some d ∈ l -> exists d', earliest l = Some d' /\ d' <= d.
Proof.
  unfold earliest. intros H.
  assert (G : forall l acc, (exists a, acc = Some a /\ a <= d) \/ Some d ∈ l ->
    exists d', fold_left merge_deadline l acc = Some d' /\ d' <= d).
  { clear. induction l as [|x l IH]; intros acc [(a & -> & Ha)|H]; cbn [fold_left].
    - by exists a.
    - by apply not_elem_of_nil in H.
    - apply IH. left. destruct x as [x|]; cbn; [|by exists a].
      destruct (Z.ltb_spec x a); eexists; split; eauto; lia.
    - apply elem_of_cons in H as [<-|H]; apply IH; [left|by right].
      destruct acc as [a|]; cbn; [|by exists d]. destruct (Z.ltb_spec d a); eexists; split; eauto; lia. }
  apply G. by right.
Qed.
End Safety.
