(* ===== verification/MasterTheorems.v ===== *)
(** * What the master state machine guarantees (crate bacnet-mstp-core)

    The claims about [MasterCore]: safety and liveness of every reachable core, what a confirmed start
    promises, termination of its loops and of its one cycle of calls, and the timing of answers and
    of token generation. *)

From S2P Require Import Prelude Time Npdu Crc Sink Cobs Frame Stream Config Counters Actions Queue.
From S2P Require Import Master MasterSafety.
Open Scope time_scope.

(** ** The example core can be reached *)

Lemma example_core_reachable c : example_core = Some c -> core_reachable c.
Proof.
  unfold example_core, storage_with_queues.
  destruct (action_buffers_new 8 501 MAX_STANDARD_FRAME_LENGTH) as [b|] eqn:Eb; [|done].
  cbn [fmap option_fmap option_map]. unfold master_new. cbn [st_queues st_actions st_rx].
  destruct (from_parts _ _ _ _ _) as [c'|] eqn:Ec; [|done]. intros [= <-].
  eapply core_built; [|exact Eb|exact Ec]. apply (bool_decide_unpack _). vm_compute. exact I.
Qed.
(** Half a second of silence makes it generate a token: its first poll is with the adapter. *)
Definition example_polling : option (MasterCore FixedQueues) :=
  (fun c => core_step (core_step (core_step c (InDeadline 500000000)) InPoll) InPoll) <$> example_core.
Lemma example_polling_reachable c : example_polling = Some c -> core_reachable c.
Proof.
  unfold example_polling. destruct example_core as [c0|] eqn:E; [|done]. intros E'.
  apply (inj Some) in E'. subst c.
  by apply core_stepped, core_stepped, core_stepped, example_core_reachable.
Qed.
Ltac with_example Hr :=
  let c := fresh "c" in let E := fresh "E" in
  destruct example_polling as [c|] eqn:E; [|vm_compute in E; discriminate E];
  pose proof (example_polling_reachable c E) as Hr.

(** ** Safety and liveness *)

(** C1: in every state the core can reach, over any queue storage and whatever the line, the
    adapter and the application do in whatever order: no debug assertion of the core or of its action queue
    has fired; every frame the core built went into its buffer (no internal error); there is at most one
    frame of this station's, either still waiting for its start to be confirmed or on the wire; a
    transmit action not yet polled is that frame's; while the application owes an answer there is none; and
    a Token is only remembered, and ANSWER_DATA_REQUEST only occupied, while an answer is owed. *)
Theorem core_reachable_safe {Q} `{QueueStorage Q} (c : MasterCore Q) : core_reachable c ->
  asserts c = true /\ aq_asserts (actions c) = true /\ internal_errors (counters c) = 0 /\
  match active_transmit c, pending_send c with
  | Some tx, Some p => started tx = false /\ tx_post tx = ps_post p /\
      forall t, aq_transmit (actions c) = Some t -> qt_id t = tx_id tx
  | Some tx, None => started tx = true /\ aq_transmit (actions c) = None
  | None, _ => aq_transmit (actions c) = None
  end /\
  (pending_request c <> None ->
     state c = AnswerDataRequest /\ pending_send c = None /\ active_transmit c = None) /\
  (pending_token c = true \/ state c = AnswerDataRequest -> answering c).
Proof.
  intros Hr. destruct (reachable_Good c Hr) as [((_ & _ & _ & Ha & Hs & Hi & _) & Ht & _ & Hq & Hb & _) _].
  split_and!; try done.
  - unfold tx_ok in Ht. destruct (active_transmit c), (pending_send c); naive_solver.
  - intros Hn. destruct (Hq Hn) as (? & ? & ? & _). done.
Qed.
Lemma core_reachable_safe_witness :
  match example_polling with Some c => asserts c = true | None => False end.
Proof. with_example Hr. exact (proj1 (core_reachable_safe c Hr)). Defined.

(** C34: the core never gets stuck: in every reachable state it has a next deadline, no later than
    the transmit watchdog of a frame with the adapter, and no later than the limit of a frame that
    waits to be handed over. *)
Theorem core_reachable_live {Q} `{QueueStorage Q} (c : MasterCore Q) : core_reachable c ->
  exists d, next_deadline c = Some d /\
    (forall tx, active_transmit c = Some tx ->
       d <= asserted_at tx +: transmit_watchdog (config c)) /\
    (forall p, active_transmit c = None -> pending_send c = Some p -> d <= ps_limit p).
Proof.
  intros Hr. destruct (reachable_Good c Hr) as [(_ & _ & _ & _ & _ & Hl) _].
  unfold next_deadline. cbv zeta. set (parser := if parser_partial c then _ else None).
  unfold live in Hl. destruct (active_transmit c) as [tx|]; cbn [fmap option_fmap option_map].
  - edestruct (earliest_some [protocol_deadline c; parser; Some (asserted_at tx +: transmit_watchdog (config c))])
      as (d & Hd & Hle); [apply elem_of_cons; right; apply elem_of_cons; right; by left|].
    exists d. split_and!; [done| |done]. by intros ? [= <-].
  - destruct (protocol_deadline c) as [pd|] eqn:Ep; [|by destruct (pending_send c)].
    destruct (earliest_some [Some pd; parser; None] pd) as (d & Hd & Hle); [by left|].
    exists d. split_and!; [done|done|]. intros p _ Hp. rewrite Hp in Hl. injection Hl as ->.
    unfold pending_deadline in Hle. lia.
Qed.
Lemma core_reachable_live_witness :
  match example_polling with Some c => exists d, next_deadline c = Some d | None => False end.
Proof.
  with_example Hr. destruct (core_reachable_live c Hr) as (d & Hd & _). exists d. exact Hd.
Defined.

(** C4: when a reachable core confirms a transmit start, the octets it hands over are exactly the
    wire encoding of one frame this station may send, with its own address as the source; the line has been
    quiet for T_turnaround since the last activity; an answer goes out only before its asker may
    have stopped waiting; and from then on what the core hears is its own echo. *)
Theorem confirmed_start {Q} `{QueueStorage Q} (c c' : MasterCore Q) id now octets : core_reachable c ->
  on_transmit_started c id now = (c', Ok octets) ->
  let t := instant_max (last_now c) now in
  exists p f, pending_send c = Some p /\ octets = wire f /\ source (header f) = station (config c) /\
    sendable (config c) f /\ last_activity c +: t_turnaround (config c) <= t /\
    (forall w, ps_origin p = Answer w -> t < gives_up w) /\
    transmitting c = false /\ transmitting c' = true /\ pending_send c' = None.
Proof.
  intros Hr E. pose proof (on_transmit_started_Good c id now (reachable_Good c Hr)) as Hs.
  rewrite E in Hs. destruct Hs as (_ & p & f & H1 & H2 & H3 & H4 & H5 & H6 & H7 & H8).
  exists p, f. split_and!; try done. apply H2.
Qed.
Lemma confirmed_start_witness :
  match example_polling with
  | Some c => exists f, (on_transmit_started c 0 501000000).2 = Ok (wire f) /\ source (header f) = 0
  | None => False
  end.
Proof.
  destruct example_polling as [c|] eqn:E; [|vm_compute in E; discriminate E].
  pose proof (example_polling_reachable c E) as Hr.
  assert (Hst : station (config c) = 0) by (vm_compute in E; injection E as <-; reflexivity).
  destruct (on_transmit_started c 0 501000000) as [c' r] eqn:Es.
  destruct r as [octets|e].
  - destruct (confirmed_start c c' 0 501000000 octets Hr Es) as (p & f & _ & Ho & Hs & _).
    exists f. split; [exact (f_equal Ok Ho)|exact (eq_trans Hs Hst)].
  - exfalso. vm_compute in E. injection E as <-. vm_compute in Es. discriminate Es.
Defined.

(** ** The loops and the cycle of calls end *)

Section Loops.
Context {Q : Type} `{QS : QueueStorage Q}.
Implicit Types c : MasterCore Q.

Lemma pending_token_set_state c s : pending_token (set_state c s) = pending_token c.
Proof. unfold set_state. by case_decide. Qed.
Lemma pending_token_encode c f : pending_token (encode c f).1 = pending_token c.
Proof. unfold encode. destruct (encode_frame _ _) as [a [?|?]]; done. Qed.
Lemma pending_token_discard c : pending_token (discard_pending c) = pending_token c.
Proof.
  unfold discard_pending, forget_pending.
  destruct (active_transmit c) as [tx|]; [destruct (negb _)|]; cbn; destruct (pending_send c) as [[? [] ? ?]|]; done.
Qed.
Lemma expire_fields c now : let c' := c <| queues ::= fun q => (queue_expire q now).1 |> in
  pending_token c' = pending_token c /\ token_count c' = token_count c.
Proof. done. Qed.

(** With no remembered Token, nothing below [again] depends on it. *)
Section Independent.
Context (r1 r2 : Reentry Q).
Lemma enter_idle_indep c now : pending_token c = false -> enter_idle (again_ := r1) c now = enter_idle (again_ := r2) c now.
Proof.
  intros H. unfold enter_idle, take_pending_token. set (c1 := (set_state c Idle) <| protocol_deadline := _ |>).
  assert (pending_token c1 = false) as ->; [|done].
  change (pending_token (set_state c Idle) = false). by rewrite pending_token_set_state.
Qed.
Lemma dispatch_indep c now : pending_token c = false ->
  dispatch_pending_send (again_ := r1) c now = dispatch_pending_send (again_ := r2) c now.
Proof.
  intros H. unfold dispatch_pending_send, drop_pending. rewrite enter_idle_indep; [done|].
  by rewrite pending_token_discard.
Qed.
Lemma send_encoded_indep c post origin now : pending_token c = false ->
  send_encoded (again_ := r1) c post origin now = send_encoded (again_ := r2) c post origin now.
Proof. intros H. by apply dispatch_indep. Qed.
Lemma queue_frame_indep c t dest d post origin now : pending_token c = false ->
  queue_frame (again_ := r1) c t dest d post origin now = queue_frame (again_ := r2) c t dest d post origin now.
Proof.
  intros H. unfold queue_frame. destruct (encode c _) as [c1 ok] eqn:E.
  destruct ok; [|done]. apply send_encoded_indep. change c1 with (c1, true).1. by rewrite <- E, pending_token_encode.
Qed.
Lemma queue_poll_indep c origin now : pending_token c = false ->
  queue_poll (again_ := r1) c origin now = queue_poll (again_ := r2) c origin now.
Proof. intros H. unfold queue_poll. by rewrite queue_frame_indep. Qed.
Lemma queue_token_indep c dest origin now : pending_token c = false ->
  queue_token (again_ := r1) c dest origin now = queue_token (again_ := r2) c dest origin now.
Proof.
  intros H. unfold queue_token. rewrite (queue_frame_indep c) by done.
  by destruct (_ =? _); [apply queue_poll_indep|].
Qed.
Lemma dequeue_rounds_indep rounds : forall c now, pending_token c = false ->
  dequeue_rounds (again_ := r1) rounds c now = dequeue_rounds (again_ := r2) rounds c now /\
  ((dequeue_rounds (again_ := r1) rounds c now).2 = false ->
   pending_token (dequeue_rounds (again_ := r1) rounds c now).1 = false).
Proof.
  induction rounds as [|rounds IH]; intros c now H; [done|].
  cbn [dequeue_rounds]. destruct (next_queue_kind c now) as [kind|]; [|done].
  destruct (queue_dequeue_kind _ _ _ _) as [q r]. destruct r as [[item|]|e]; [|done|by apply IH].
  destruct (_ || _); [by destruct kind; apply IH|].
  destruct (data_frame_type _ _) as [t post]. destruct (encode _ _) as [c1 ok] eqn:E.
  assert (H1 : pending_token c1 = false).
  { match type of E with encode ?c ?f = _ => pose proof (pending_token_encode c f) as Hx end.
    rewrite E in Hx. exact (eq_trans Hx H). }
  destruct ok; cbn [negb]; [|by apply IH]. by rewrite send_encoded_indep.
Qed.
Lemma dequeue_and_send_indep c now : pending_token c = false ->
  dequeue_and_send (again_ := r1) c now = dequeue_and_send (again_ := r2) c now /\
  ((dequeue_and_send (again_ := r1) c now).2 = false ->
   pending_token (dequeue_and_send (again_ := r1) c now).1 = false).
Proof. intros H. by apply dequeue_rounds_indep. Qed.
Lemma done_with_token_indep fuel : forall c now, pending_token c = false ->
  done_with_token_loop (again_ := r1) fuel c now = done_with_token_loop (again_ := r2) fuel c now.
Proof.
  induction fuel as [|fuel IH]; intros c now H; [done|]. cbn [done_with_token_loop].
  repeat match goal with |- context [if ?b then _ else _] =>
    lazymatch b with context [dequeue_and_send] => fail | _ => destruct b end end;
    lazymatch goal with
    | |- queue_poll _ _ _ = _ => apply queue_poll_indep; exact H
    | |- queue_token _ _ _ _ = _ => apply queue_token_indep; exact H
    | |- _ => idtac
    end.
  set (c1 := set_state _ UseToken).
  destruct (dequeue_and_send_indep c1 now) as [E Hf]; [by unfold c1; rewrite pending_token_set_state|].
  rewrite <- E. destruct (dequeue_and_send (again_ := r1) c1 now) as [c2 [|]]; [done|].
  apply IH, Hf. done.
Qed.
Lemma drive_token_indep c now : pending_token c = false ->
  drive_token (again_ := r1) c now = drive_token (again_ := r2) c now.
Proof.
  intros H. unfold drive_token. destruct (_ || _); [done|].
  destruct (dequeue_and_send_indep c now H) as [E Hf]. rewrite <- E.
  destruct (frame_count c <? _).
  - destruct (dequeue_and_send (again_ := r1) c now) as [c2 [|]]; [done|].
    apply done_with_token_indep. rewrite pending_token_set_state. by apply Hf.
  - apply done_with_token_indep. by rewrite pending_token_set_state.
Qed.
Lemma use_received_indep c now : pending_token c = false ->
  use_received_token (again_ := r1) c now = use_received_token (again_ := r2) c now.
Proof. intros H. apply drive_token_indep. by rewrite pending_token_set_state. Qed.
End Independent.

Lemma token_count_set_state c s : token_count (set_state c s) = token_count c.
Proof. unfold set_state. by case_decide. Qed.
Lemma token_count_encode c f : token_count (encode c f).1 = token_count c.
Proof. unfold encode. destruct (encode_frame _ _) as [a [?|?]]; done. Qed.
Lemma dequeue_rounds_count {r : Reentry Q} rounds : forall c now,
  (dequeue_rounds (again_ := r) rounds c now).2 = false ->
  token_count (dequeue_rounds (again_ := r) rounds c now).1 = token_count c.
Proof.
  induction rounds as [|rounds IH]; intros c now; [done|].
  cbn [dequeue_rounds]. destruct (next_queue_kind c now) as [kind|]; [|done].
  destruct (queue_dequeue_kind _ _ _ _) as [q r']. destruct r' as [[item|]|e]; [|done|intros H; by rewrite IH].
  destruct (_ || _); [intros H; rewrite IH by done; by destruct kind|].
  destruct (data_frame_type _ _) as [t post]. destruct (encode _ _) as [c1 ok] eqn:E.
  destruct ok; cbn [negb]; [done|]. intros H. rewrite IH by done.
  match type of E with encode ?c ?f = _ => pose proof (token_count_encode c f) as Hx end.
  rewrite E in Hx. exact Hx.
Qed.
(** The state in which the loop of DONE_WITH_TOKEN goes round again: the [continue] of the sole master that has nothing to send; any other round
    returns. *)
Definition token_again {r : Reentry Q} c now : option (MasterCore Q) :=
  if negb (sole_master c) && (next_station c =? station (config c)) then None else
  if (token_count c <? N_POLL) && sole_master c then
    match dequeue_and_send (again_ := r) (set_state (c <| token_count ::= (fun n => sat_add U8_MAX n 1) |> <| frame_count := 0 |>) UseToken) now with
    | (c, true) => None
    | (c, false) => Some c
    end
  else None.
(** The loop as the source writes it, with the rounds it took: the last one returns. *)
Inductive token_loop {r : Reentry Q} (now : Instant) : MasterCore Q -> nat -> MasterCore Q -> Prop :=
| tl_returns c : token_again c now = None -> token_loop now c 1 (done_with_token_loop (again_ := r) 1 c now)
| tl_round c c' k c2 : token_again c now = Some c' -> token_loop now c' k c2 -> token_loop now c (S k) c2.
Lemma token_round {r : Reentry Q} fuel c now : done_with_token_loop (again_ := r) (S fuel) c now =
  match token_again c now with Some c' => done_with_token_loop (again_ := r) fuel c' now | None => done_with_token_loop (again_ := r) 1 c now end.
Proof.
  unfold token_again. cbn [done_with_token_loop]. destruct (_ && _); [done|]. destruct (token_count c <? N_POLL); [|done]. cbn [andb].
  change (sole_master (c <| token_count ::= (fun n => sat_add U8_MAX n 1) |>)) with (sole_master c). destruct (sole_master c); [|done].
  by destruct (dequeue_and_send _ _) as [c2 [|]].
Qed.
(** A round that goes round again has counted one more token. *)
Lemma again_counts {r : Reentry Q} c now c' : token_again (r := r) c now = Some c' -> token_count c < N_POLL /\ token_count c' = token_count c + 1.
Proof.
  unfold token_again. destruct (_ && _); [done|]. destruct (token_count c <? N_POLL) eqn:Hc; [|done]. apply Z.ltb_lt in Hc. destruct (sole_master c); [|done]. cbn [andb].
  set (c0 := c <| token_count ::= _ |>).
  assert (Ht : token_count c0 = token_count c + 1)
    by (change (token_count c0) with (sat_add U8_MAX (token_count c) 1); unfold sat_add, U8_MAX, N_POLL in *; lia).
  set (c1 := set_state _ UseToken).
  pose proof (dequeue_rounds_count (r := r) (S (total_depth (queues
    (c1 <| queues ::= fun q => (queue_expire q now).1 |>)))) (c1 <| queues ::= fun q => (queue_expire q now).1 |>) now) as Hd.
  change (dequeue_rounds (again_ := r) _ (c1 <| queues ::= fun q => (queue_expire q now).1 |>) now)
    with (dequeue_and_send (again_ := r) c1 now) in Hd.
  destruct (dequeue_and_send (again_ := r) c1 now) as [c2 [|]]; [done|]. cbn [fst snd] in Hd. intros [= <-]. split; [done|].
  rewrite (Hd eq_refl). change (token_count c1 = token_count c + 1). unfold c1. by rewrite token_count_set_state.
Qed.
Lemma token_loop_ends {r : Reentry Q} fuel : forall c now, N_POLL - token_count c < Z.of_nat fuel -> (0 < fuel)%nat ->
  exists k, (k <= fuel)%nat /\ token_loop (r := r) now c k (done_with_token_loop (again_ := r) fuel c now).
Proof.
  induction fuel as [|fuel IH]; intros c now Hn Hf; [lia|]. rewrite token_round. destruct (token_again c now) as [c'|] eqn:E.
  - destruct (again_counts _ _ _ E) as [Hlt Hc]. destruct (IH c' now ltac:(lia) ltac:(lia)) as (k & Hk & Hl). exists (S k). split; [lia|]. by eapply tl_round.
  - exists 1%nat. split; [lia|]. by apply tl_returns.
Qed.
End Loops.

(** C35: the loops of the core return, and the bounded definitions are the code's own unbounded ones. The one cycle of calls ([enter_idle] to
    [use_received_token] and back) closes after one turn: with the remembered token taken, [use_received_token] never comes back to it, whatever
    that call would do, so [take_pending_token] satisfies the recursive equation of the source. The loop of [done_with_token]
    returns within N_poll + 1 rounds. The drain of the decoder returns, with the decoder needing more octets, within two rounds more than
    its capacity, whatever it holds. *)
Theorem core_loops_end {Q} `{QueueStorage Q} (c : MasterCore Q) (now : Instant) : 0 <= token_count c ->
  take_pending_token c now =
    (if pending_token c then use_received_token (c <| pending_token := false |>) now
     else c <| pending_token := false |>) /\
  (forall other : Reentry Q, use_received_token (again_ := other) (c <| pending_token := false |>) now =
     use_received_token (again_ := reentry_use_token) (c <| pending_token := false |>) now) /\
  (exists rounds, (rounds <= S (Z.to_nat N_POLL))%nat /\ token_loop now c rounds (done_with_token c now)) /\
  (forall d byte, wf_dec d -> exists rounds, (rounds <= capacity d + 2)%nat /\ drains now c d [byte] rounds (drain_decoder (capacity d + 3) c d [byte] now)).
Proof.
  intros Hu. split_and!.
  - unfold take_pending_token. destruct (pending_token c); [|done].
    exact (use_received_indep (use_token_fuel 0) reentry_use_token (c <| pending_token := false |>) now eq_refl).
  - intros other. exact (use_received_indep other reentry_use_token (c <| pending_token := false |>) now eq_refl).
  - apply token_loop_ends; unfold N_POLL; lia.
  - intros d byte. apply drain_octet.
Qed.
Lemma core_loops_end_witness :
  match example_polling with
  | Some c => exists rounds, (rounds <= 51)%nat /\ token_loop 0 c rounds (done_with_token c 0)
  | None => False
  end.
Proof.
  destruct example_polling as [c|] eqn:E; [|vm_compute in E; discriminate E].
  refine (proj1 (proj2 (proj2 (core_loops_end c 0 _)))).
  vm_compute in E. injection E as <-. by apply (bool_decide_unpack _); vm_compute.
Defined.

(** ** Timing *)

(** Instants this far from the end of the clock: nothing below saturates. *)
Definition far_from_end (t : Instant) : Prop := 0 <= t <= U64_MAX - 10000000000.
Lemma add_exact t d : 0 <= t + d <= U64_MAX -> t +: d = t + d.
Proof. unfold instant_add, instant_saturating_add, sat_add. width. Qed.
Lemma sub_exact t d : 0 <= d <= t -> t -: d = t - d.
Proof. unfold instant_sub, instant_saturating_sub. width. Qed.

(** The windows of an answer, for every valid configuration: it is due by T_reply_delay (for a
    Reply To Poll For Master, T_usage_delay) after the request, and the time at which the station gives up on it
    is later than that and still one octet time and one millisecond before the shortest T_reply_timeout
    (T_usage_timeout) the standard lets the asker use. *)
Theorem reply_windows_fit cf now : 0 <= baud_rate cf -> 0 <= t_turnaround cf -> 0 <= t_reply_delay cf ->
  valid_config cf -> far_from_end now ->
  let w := reply_window cf now in let p := poll_reply_window cf now in
  (send_by w = now + t_reply_delay cf /\ send_by w <= gives_up w /\
   gives_up w + octet_time cf + 1000000 = now + 255000000) /\
  (send_by p = now + t_usage_delay cf /\ send_by p <= gives_up p /\
   gives_up p + octet_time cf + 1000000 = now + 20000000).
Proof.
  intros Hb Ht Hd Hv Hn. pose proof (valid_baud_rate cf Hb Hv) as Hr.
  destruct Hv as [_ _ _ _ _ _ [_ Hrd] _ [_ Htu] Hud _ _ _ _ _].
  assert (Ho : 0 <= octet_time cf <= 3750000).
  { rewrite octet_time_eq by lia. pose proof (div_ceil_bounds 10000000 (baud_rate cf)).
    assert (0 <= div_ceil 10000000 (baud_rate cf) <= 3750)
      by (unfold div_ceil in *; Z.div_mod_to_equations; nia). lia. }
  unfold far_from_end, U64_MAX in Hn. cbv zeta. unfold reply_window, poll_reply_window. cbn [send_by gives_up].
  change MIN_REPLY_TIMEOUT with 255000000. change MIN_USAGE_TIMEOUT with 20000000.
  change REPLY_GUARD with 1000000.
  rewrite !add_exact by (unfold U64_MAX; lia).
  rewrite !(sub_exact _ (octet_time cf)) by lia. rewrite !sub_exact by lia. unfold instant_max.
  rewrite !(proj2 (Z.leb_le _ _)) by lia. lia.
Qed.
Lemma reply_windows_fit_witness : send_by (reply_window STANDARD 0) <= gives_up (reply_window STANDARD 0).
Proof.
  refine (proj1 (proj2 (proj1 (reply_windows_fit STANDARD 0 _ _ _ _ _)))).
  1-3: vm_compute; discriminate. 1: apply validate_iff; [vm_compute; discriminate|apply standard_valid]. unfold far_from_end. width.
Defined.

(** A station's generation slots: the first, and the length of a round of them. *)
Definition first_slot (cf : MstpCoreConfig) (last : Instant) : Z := last + 500000000 + 10000000 * station cf.
Definition slot_cycle (cf : MstpCoreConfig) : Z := 10000000 * (max_master cf + 1).

Lemma generation_start_spec cf last now : 0 <= station cf <= max_master cf -> max_master cf <= 127 ->
  far_from_end last -> far_from_end now ->
  exists k, 0 <= k /\ generation_start cf last now = first_slot cf last + k * slot_cycle cf /\
    now < generation_start cf last now + 10000000 /\
    (k = 0 \/ generation_start cf last now - slot_cycle cf + 10000000 <= now).
Proof.
  intros Hs Hm Hl Hn. unfold far_from_end, U64_MAX in *. unfold generation_start, slot_cycle, first_slot.
  change T_SLOT with 10000000. change T_NO_TOKEN with 500000000. unfold duration_saturating_mul.
  assert (Ec : sat_mul U64_MAX 10000000 (max_master cf + 1) = 10000000 * (max_master cf + 1)) by width.
  assert (Es : sat_mul U64_MAX 10000000 (station cf) = 10000000 * station cf) by width.
  rewrite Ec, Es. rewrite (add_exact last) by (unfold U64_MAX; lia).
  rewrite (add_exact (last + _)) by (unfold U64_MAX; lia).
  set (first := last + 500000000 + 10000000 * station cf).
  assert (Hf : 0 <= first <= U64_MAX - 5000000000) by (unfold first, U64_MAX; lia).
  rewrite (add_exact first) by (unfold U64_MAX in *; lia).
  destruct (first + 10000000 <=? now) eqn:Eg; [apply Z.leb_le in Eg|apply Z.leb_gt in Eg; exists 0; lia].
  unfold duration_checked_rem. rewrite (proj2 (Z.eqb_neq _ 0)) by lia.
  assert (instant_since now first = now - first) as ->
    by (unfold instant_since, instant_saturating_duration_since; width).
  rewrite div_rem_native by (unfold is_u64, U64_MAX in *; lia). cbn [snd].
  set (cyc := 10000000 * (max_master cf + 1)). assert (0 < cyc <= 1280000000) by (unfold cyc; lia).
  pose proof (Z.div_mod (now - first) cyc ltac:(lia)) as Hdm.
  pose proof (Z.mod_pos_bound (now - first) cyc ltac:(lia)) as Hmb.
  set (q := (now - first) / cyc) in *. set (o := (now - first) mod cyc) in *.
  assert (0 <= q) by (apply Z.div_pos; lia).
  rewrite (sub_exact now) by lia.
  destruct (10000000 <=? o) eqn:Eo; [apply Z.leb_le in Eo|apply Z.leb_gt in Eo].
  - rewrite add_exact by (unfold U64_MAX; lia). exists (q + 1). lia.
  - exists q. lia.
Qed.

(** Token generation after silence. The start the core computes is its station's first slot,
    T_no_token after the last activity plus its address in slots, or a whole number of rounds later; it is the first whose
    window is not over, so a station that has missed a window waits for its next. And two stations that
    saw the same last activity never share a window, whenever each of them looks: their windows are a slot apart. *)
Theorem generation_slots cf cf' last now now' :
  0 <= station cf <= max_master cf -> 0 <= station cf' <= max_master cf ->
  max_master cf' = max_master cf -> max_master cf <= 127 ->
  far_from_end last -> far_from_end now -> far_from_end now' ->
  let start := generation_start cf last now in let start' := generation_start cf' last now' in
  (exists k, 0 <= k /\ start = first_slot cf last + k * slot_cycle cf /\ now < start + T_SLOT /\
     (k = 0 \/ start - slot_cycle cf + T_SLOT <= now)) /\
  (station cf <> station cf' -> start + T_SLOT <= start' \/ start' + T_SLOT <= start).
Proof.
  intros Hs Hs' Hm Hmm Hl Hn Hn'. cbv zeta. change T_SLOT with 10000000.
  destruct (generation_start_spec cf last now) as (k & Hk & E & H1 & H2); try done.
  destruct (generation_start_spec cf' last now') as (k' & Hk' & E' & _); try lia; try done.
  split; [by exists k|]. intros Hd. rewrite E, E'. unfold first_slot, slot_cycle. rewrite Hm.
  set (m := max_master cf) in *.
  assert (station cf + k * (m + 1) <> station cf' + k' * (m + 1)).
  { intros He. destruct (Z.lt_total k k') as [?|[<-|?]]; nia. }
  lia.
Qed.
Lemma generation_slots_witness :
  let a := STANDARD <| station := 3 |> in let b := STANDARD <| station := 4 |> in
  generation_start a 0 0 + T_SLOT <= generation_start b 0 999 \/
  generation_start b 0 999 + T_SLOT <= generation_start a 0 0.
Proof.
  refine (proj2 (generation_slots (STANDARD <| station := 3 |>) (STANDARD <| station := 4 |>) 0 0 999 _ _ _ _ _ _ _) _).
  1-2: split; vm_compute; discriminate. 1: reflexivity. 1: vm_compute; discriminate.
  1-3: unfold far_from_end; width. vm_compute. discriminate.
Defined.
