(* ===== verification/Bvll.v ===== *)
(** * BACnet/IP BVLL messages (crate bacnet-bip-codec)

    The B/IPv4 codec of Annex J: addresses and table entries (table.rs), function and result
    codes with the payload shape of each function (function.rs), and the one-shot decoder and the
    checked encoder of messages (message.rs). A table is borrowed, either as wire octets or as
    entries; two tables are equal when their entries are, so equality of messages is a relation of
    its own here, coarser than the model's [=]. *)

From S2P Require Import Prelude Sink.

(** ** Constants (lib.rs) *)

(** [BVLC_TYPE_BIP] (bacnet-bip-codec/src/lib.rs:99-100) *)
Definition BVLC_TYPE_BIP : Z := 129.
(** [HEADER_LENGTH] (bacnet-bip-codec/src/lib.rs:101-103) *)
Definition BVLL_HEADER_LENGTH : nat := 4.
(** [MAX_BVLL_LENGTH] (bacnet-bip-codec/src/lib.rs:104-106) *)
Definition MAX_BVLL_LENGTH : Z := U16_MAX.
(** [BIP_ADDRESS_LENGTH] (bacnet-bip-codec/src/lib.rs:107-108) *)
Definition BIP_ADDRESS_LENGTH : nat := 6.
(** [BDT_ENTRY_LENGTH] (bacnet-bip-codec/src/lib.rs:109-111) *)
Definition BDT_ENTRY_LENGTH : nat := 10.
(** [FDT_ENTRY_LENGTH] (bacnet-bip-codec/src/lib.rs:112-114) *)
Definition FDT_ENTRY_LENGTH : nat := 10.

(** ** Addresses (table.rs) *)

(** An [Ipv4Addr] by its 32-bit value, and its octets, most significant first. *)
Definition Ipv4Addr : Type := Z.
Definition ipv4_new (a b c d : Z) : Ipv4Addr := 16777216 * a + 65536 * b + 256 * c + d.
Definition ipv4_octets (ip : Ipv4Addr) : bytes :=
  [ip / 16777216; ip / 65536 mod 256; ip / 256 mod 256; ip mod 256].
(** [SocketAddrV4]. *)
Record SocketAddrV4 := { sa_ip : Ipv4Addr; sa_port : Z }.
#[global] Instance SocketAddrV4_eq_dec : EqDecision SocketAddrV4.
Proof. solve_decision. Defined.

(** [address_to_octets] (bacnet-bip-codec/src/table.rs) *)
Definition address_to_octets (a : SocketAddrV4) : bytes := ipv4_octets (sa_ip a) ++ to_be16 (sa_port a).
(** A [[u8; 6]] as its six octets.
    [address_from_octets] (bacnet-bip-codec/src/table.rs) *)
Definition address_from_octets (a b c d high low : Z) : SocketAddrV4 :=
  {| sa_ip := ipv4_new a b c d; sa_port := from_be16 high low |}.

(** ** Codes (function.rs) *)

(** [BvlcFunction] (bacnet-bip-codec/src/function.rs:90-124) *)
Definition BvlcFunction : Type := Z.
Definition BVLC_RESULT : BvlcFunction := 0.
Definition WRITE_BROADCAST_DISTRIBUTION_TABLE : BvlcFunction := 1.
Definition READ_BROADCAST_DISTRIBUTION_TABLE : BvlcFunction := 2.
Definition READ_BROADCAST_DISTRIBUTION_TABLE_ACK : BvlcFunction := 3.
Definition FORWARDED_NPDU : BvlcFunction := 4.
Definition REGISTER_FOREIGN_DEVICE : BvlcFunction := 5.
Definition READ_FOREIGN_DEVICE_TABLE : BvlcFunction := 6.
Definition READ_FOREIGN_DEVICE_TABLE_ACK : BvlcFunction := 7.
Definition DELETE_FOREIGN_DEVICE_TABLE_ENTRY : BvlcFunction := 8.
Definition DISTRIBUTE_BROADCAST_TO_NETWORK : BvlcFunction := 9.
Definition ORIGINAL_UNICAST_NPDU : BvlcFunction := 10.
Definition ORIGINAL_BROADCAST_NPDU : BvlcFunction := 11.
(** [BvlcResultCode] (bacnet-bip-codec/src/function.rs:126-143) *)
Definition BvlcResultCode : Type := Z.
Definition SUCCESSFUL_COMPLETION : BvlcResultCode := 0.
Definition WRITE_BROADCAST_DISTRIBUTION_TABLE_NAK : BvlcResultCode := 16.
Definition READ_BROADCAST_DISTRIBUTION_TABLE_NAK : BvlcResultCode := 32.
Definition REGISTER_FOREIGN_DEVICE_NAK : BvlcResultCode := 48.
Definition READ_FOREIGN_DEVICE_TABLE_NAK : BvlcResultCode := 64.
Definition DELETE_FOREIGN_DEVICE_TABLE_ENTRY_NAK : BvlcResultCode := 80.
Definition DISTRIBUTE_BROADCAST_TO_NETWORK_NAK : BvlcResultCode := 96.

(** [is_defined]: the value is one of the constants of its type.
    [named_codes::is_defined] (bacnet-bip-codec/src/function.rs:49-63) *)
Definition code_is_defined (named : list Z) (code : Z) : bool := bool_decide (code ∈ named).
Definition function_is_defined : BvlcFunction -> bool :=
  code_is_defined [BVLC_RESULT; WRITE_BROADCAST_DISTRIBUTION_TABLE; READ_BROADCAST_DISTRIBUTION_TABLE;
    READ_BROADCAST_DISTRIBUTION_TABLE_ACK; FORWARDED_NPDU; REGISTER_FOREIGN_DEVICE;
    READ_FOREIGN_DEVICE_TABLE; READ_FOREIGN_DEVICE_TABLE_ACK; DELETE_FOREIGN_DEVICE_TABLE_ENTRY;
    DISTRIBUTE_BROADCAST_TO_NETWORK; ORIGINAL_UNICAST_NPDU; ORIGINAL_BROADCAST_NPDU].
Definition result_is_defined : BvlcResultCode -> bool :=
  code_is_defined [SUCCESSFUL_COMPLETION; WRITE_BROADCAST_DISTRIBUTION_TABLE_NAK;
    READ_BROADCAST_DISTRIBUTION_TABLE_NAK; REGISTER_FOREIGN_DEVICE_NAK; READ_FOREIGN_DEVICE_TABLE_NAK;
    DELETE_FOREIGN_DEVICE_TABLE_ENTRY_NAK; DISTRIBUTE_BROADCAST_TO_NETWORK_NAK].

(** [PayloadShape] (bacnet-bip-codec/src/function.rs) *)
Inductive PayloadShape :=
| ShapeFixed (n : nat) | ShapeTable (entry_length : nat) | ShapeNpdu (prefix : nat).
(** [PayloadShape::admits] (bacnet-bip-codec/src/function.rs) *)
Definition admits (s : PayloadShape) (n : nat) : bool :=
  match s with
  | ShapeFixed fixed => bool_decide (n = fixed)
  | ShapeTable entry_length => bool_decide (n mod entry_length = 0)%nat
  | ShapeNpdu prefix => bool_decide (prefix <= n)%nat
  end.
(** [BvlcFunction::payload_shape] (bacnet-bip-codec/src/function.rs) *)
Definition payload_shape (f : BvlcFunction) : option PayloadShape :=
  if (f =? BVLC_RESULT) || (f =? REGISTER_FOREIGN_DEVICE) then Some (ShapeFixed 2) else
  if (f =? READ_BROADCAST_DISTRIBUTION_TABLE) || (f =? READ_FOREIGN_DEVICE_TABLE)
  then Some (ShapeFixed 0) else
  if f =? DELETE_FOREIGN_DEVICE_TABLE_ENTRY then Some (ShapeFixed BIP_ADDRESS_LENGTH) else
  if (f =? WRITE_BROADCAST_DISTRIBUTION_TABLE) || (f =? READ_BROADCAST_DISTRIBUTION_TABLE_ACK)
  then Some (ShapeTable BDT_ENTRY_LENGTH) else
  if f =? READ_FOREIGN_DEVICE_TABLE_ACK then Some (ShapeTable FDT_ENTRY_LENGTH) else
  if f =? FORWARDED_NPDU then Some (ShapeNpdu BIP_ADDRESS_LENGTH) else
  if (f =? DISTRIBUTE_BROADCAST_TO_NETWORK) || (f =? ORIGINAL_UNICAST_NPDU)
     || (f =? ORIGINAL_BROADCAST_NPDU)
  then Some (ShapeNpdu 0) else None.
(** [BvlcFunction::nak] (bacnet-bip-codec/src/function.rs) *)
Definition bvlc_nak (f : BvlcFunction) : option BvlcResultCode :=
  if f =? WRITE_BROADCAST_DISTRIBUTION_TABLE then Some WRITE_BROADCAST_DISTRIBUTION_TABLE_NAK else
  if f =? READ_BROADCAST_DISTRIBUTION_TABLE then Some READ_BROADCAST_DISTRIBUTION_TABLE_NAK else
  if f =? REGISTER_FOREIGN_DEVICE then Some REGISTER_FOREIGN_DEVICE_NAK else
  if f =? READ_FOREIGN_DEVICE_TABLE then Some READ_FOREIGN_DEVICE_TABLE_NAK else
  if f =? DELETE_FOREIGN_DEVICE_TABLE_ENTRY then Some DELETE_FOREIGN_DEVICE_TABLE_ENTRY_NAK else
  if f =? DISTRIBUTE_BROADCAST_TO_NETWORK then Some DISTRIBUTE_BROADCAST_TO_NETWORK_NAK else None.

(** [BvllError] (bacnet-bip-codec/src/error.rs) *)
Inductive BvllError :=
| BvllTooShort (len : nat) | NotBip (bvlc_type : Z) | LengthMismatch (declared : Z) (received : nat)
| UnknownFunction (function : Z) | PayloadLength (function : BvlcFunction) (len : nat)
| TableLength (len entry_length : nat) | AddressLength (len : nat) | BvllTooLong (len : nat)
| UndefinedResultCode (code : Z) | BvllBufferExhausted (needed available : nat).
#[global] Instance BvllError_eq_dec : EqDecision BvllError.
Proof. solve_decision. Defined.

(** [address_from_slice] (bacnet-bip-codec/src/table.rs) *)
Definition address_from_slice (octets : bytes) : Result SocketAddrV4 BvllError :=
  match octets with
  | [a; b; c; d; high; low] => Ok (address_from_octets a b c d high low)
  | _ => Err (AddressLength (length octets))
  end.

(** ** Tables (table.rs) *)

(** [ENTRY_LENGTH] (bacnet-bip-codec/src/table.rs:11-14) *)
Definition ENTRY_LENGTH : nat := BDT_ENTRY_LENGTH.
(** [BdtEntry] (bacnet-bip-codec/src/table.rs) *)
Record BdtEntry := { bdt_address : SocketAddrV4; bdt_mask : Ipv4Addr }.
(** [BdtEntry::to_octets] (bacnet-bip-codec/src/table.rs) *)
Definition bdt_to_octets (e : BdtEntry) : bytes :=
  address_to_octets (bdt_address e) ++ ipv4_octets (bdt_mask e).
(** [octets] is a [[u8; 10]].
    [BdtEntry::from_octets] (bacnet-bip-codec/src/table.rs) *)
Definition bdt_from_octets (octets : bytes) : BdtEntry :=
  let at_ i := nth i octets 0 in
  {| bdt_address := address_from_octets (at_ 0%nat) (at_ 1%nat) (at_ 2%nat) (at_ 3%nat) (at_ 4%nat) (at_ 5%nat);
     bdt_mask := ipv4_new (at_ 6%nat) (at_ 7%nat) (at_ 8%nat) (at_ 9%nat) |}.
(** [FdtEntry] (bacnet-bip-codec/src/table.rs) *)
Record FdtEntry := { fdt_address : SocketAddrV4; fdt_ttl : Z; fdt_remaining : Z }.
(** [FdtEntry::to_octets] (bacnet-bip-codec/src/table.rs) *)
Definition fdt_to_octets (e : FdtEntry) : bytes :=
  address_to_octets (fdt_address e) ++ to_be16 (fdt_ttl e) ++ to_be16 (fdt_remaining e).
(** [FdtEntry::from_octets] (bacnet-bip-codec/src/table.rs) *)
Definition fdt_from_octets (octets : bytes) : FdtEntry :=
  let at_ i := nth i octets 0 in
  {| fdt_address := address_from_octets (at_ 0%nat) (at_ 1%nat) (at_ 2%nat) (at_ 3%nat) (at_ 4%nat) (at_ 5%nat);
     fdt_ttl := from_be16 (at_ 6%nat) (at_ 7%nat);
     fdt_remaining := from_be16 (at_ 8%nat) (at_ 9%nat) |}.

(** [TableEntry] (bacnet-bip-codec/src/table.rs:145-151) *)
Class TableEntry (T : Type) := { from_wire : bytes -> T; to_wire : T -> bytes }.
(** [TableEntry for BdtEntry] (bacnet-bip-codec/src/table.rs:153-160) *)
#[export] Instance BdtEntry_TableEntry : TableEntry BdtEntry :=
  {| from_wire := bdt_from_octets; to_wire := bdt_to_octets |}.
(** [TableEntry for FdtEntry] (bacnet-bip-codec/src/table.rs:162-169) *)
#[export] Instance FdtEntry_TableEntry : TableEntry FdtEntry :=
  {| from_wire := fdt_from_octets; to_wire := fdt_to_octets |}.

(** A table: [[u8; 10]] chunks of a datagram, or a caller's entries.
    [Entries] (bacnet-bip-codec/src/table.rs:171-184) *)
Inductive Entries (T : Type) := EntriesWire (l : list bytes) | EntriesTyped (l : list T).
Arguments EntriesWire {T} l.
Arguments EntriesTyped {T} l.

(** [slice.as_chunks::<n>()]: the whole chunks, and the octets left over. *)
Fixpoint as_chunks_fuel (fuel n : nat) (l : bytes) : list bytes * bytes :=
  match fuel with
  | O => ([], l)
  | S fuel =>
      if decide (length l < n)%nat then ([], l)
      else let '(chunks, rest) := as_chunks_fuel fuel n (drop n l) in (take n l :: chunks, rest)
  end.
Definition as_chunks (n : nat) (l : bytes) : list bytes * bytes := as_chunks_fuel (length l) n l.

Section Tables.
Context {T : Type} `{TableEntry T}.
(** [Entries::from_wire] (bacnet-bip-codec/src/table.rs:191-220) *)
Definition entries_from_wire (octets : bytes) : Result (Entries T) BvllError :=
  match as_chunks ENTRY_LENGTH octets with
  | (entries, []) => Ok (EntriesWire entries)
  | _ => Err (TableLength (length octets) ENTRY_LENGTH)
  end.
(** [Entries::from_entries] (bacnet-bip-codec/src/table.rs) *)
Definition entries_from_entries (l : list T) : Entries T := EntriesTyped l.
(** [Entries::len] (bacnet-bip-codec/src/table.rs:230-238) *)
Definition entries_len (e : Entries T) : nat :=
  match e with EntriesWire l => length l | EntriesTyped l => length l end.
(** What the iterator yields.
    [Entries::iter] (bacnet-bip-codec/src/table.rs:245-254) *)
Definition entries_iter (e : Entries T) : list T :=
  match e with EntriesWire l => map from_wire l | EntriesTyped l => l end.
(** [Entries::wire_length] (bacnet-bip-codec/src/table.rs) *)
Definition entries_wire_length (e : Entries T) : nat := entries_len e * ENTRY_LENGTH.
(** The writes, in order: the flattened octets at once, or entry by entry.
    [Entries::write_to] (bacnet-bip-codec/src/table.rs) *)
Definition entries_chunks (e : Entries T) : list bytes :=
  match e with EntriesWire l => [concat l] | EntriesTyped l => map to_wire l end.
(** [PartialEq for Entries] (bacnet-bip-codec/src/table.rs:272-278) *)
Definition entries_eq (a b : Entries T) : Prop := entries_iter a = entries_iter b.
End Tables.

(** ** Frames and messages (message.rs) *)

(** [Bvll] (bacnet-bip-codec/src/message.rs) *)
Inductive Bvll :=
| BvlcResultMsg (code : BvlcResultCode)
| WriteBroadcastDistributionTable (table : Entries BdtEntry)
| ReadBroadcastDistributionTable
| ReadBroadcastDistributionTableAck (table : Entries BdtEntry)
| ForwardedNpdu (origin : SocketAddrV4) (npdu : bytes)
| RegisterForeignDevice (ttl : Z)
| ReadForeignDeviceTable
| ReadForeignDeviceTableAck (table : Entries FdtEntry)
| DeleteForeignDeviceTableEntry (entry : SocketAddrV4)
| DistributeBroadcastToNetwork (npdu : bytes)
| OriginalUnicastNpdu (npdu : bytes)
| OriginalBroadcastNpdu (npdu : bytes).
(** [BvllFrame] (bacnet-bip-codec/src/message.rs) *)
Record BvllFrame := { bf_function : BvlcFunction; bf_payload : bytes }.

(** [BvllFrame::decode] (bacnet-bip-codec/src/message.rs:53-75) *)
Definition bvll_frame_decode (datagram : bytes) : Result BvllFrame BvllError :=
  match datagram with
  | bvlc_type :: function :: high :: low :: payload =>
      if negb (bvlc_type =? BVLC_TYPE_BIP) then Err (NotBip bvlc_type) else
      let declared := from_be16 high low in
      if negb (declared =? Z.of_nat (length datagram))
      then Err (LengthMismatch declared (length datagram)) else
      Ok {| bf_function := function; bf_payload := payload |}
  | _ => Err (BvllTooShort (length datagram))
  end.
(** [BvllFrame::message] (bacnet-bip-codec/src/message.rs) *)
Definition bvll_message (f : BvllFrame) : Result Bvll BvllError :=
  let function := bf_function f in
  let wrong_length := PayloadLength function (length (bf_payload f)) in
  let otherwise :=
    if function_is_defined function then Err wrong_length else Err (UnknownFunction function) in
  if function =? BVLC_RESULT then
    match bf_payload f with
    | [high; low] => Ok (BvlcResultMsg (from_be16 high low))
    | _ => otherwise
    end else
  if function =? WRITE_BROADCAST_DISTRIBUTION_TABLE then
    let? table := map_err (fun _ => wrong_length) (entries_from_wire (bf_payload f)) in
    Ok (WriteBroadcastDistributionTable table) else
  if function =? READ_BROADCAST_DISTRIBUTION_TABLE then
    match bf_payload f with [] => Ok ReadBroadcastDistributionTable | _ => otherwise end else
  if function =? READ_BROADCAST_DISTRIBUTION_TABLE_ACK then
    let? table := map_err (fun _ => wrong_length) (entries_from_wire (bf_payload f)) in
    Ok (ReadBroadcastDistributionTableAck table) else
  if function =? FORWARDED_NPDU then
    match bf_payload f with
    | a :: b :: c :: d :: high :: low :: npdu => Ok (ForwardedNpdu (address_from_octets a b c d high low) npdu)
    | _ => otherwise
    end else
  if function =? REGISTER_FOREIGN_DEVICE then
    match bf_payload f with
    | [high; low] => Ok (RegisterForeignDevice (from_be16 high low))
    | _ => otherwise
    end else
  if function =? READ_FOREIGN_DEVICE_TABLE then
    match bf_payload f with [] => Ok ReadForeignDeviceTable | _ => otherwise end else
  if function =? READ_FOREIGN_DEVICE_TABLE_ACK then
    let? table := map_err (fun _ => wrong_length) (entries_from_wire (bf_payload f)) in
    Ok (ReadForeignDeviceTableAck table) else
  if function =? DELETE_FOREIGN_DEVICE_TABLE_ENTRY then
    match bf_payload f with
    | [a; b; c; d; high; low] => Ok (DeleteForeignDeviceTableEntry (address_from_octets a b c d high low))
    | _ => otherwise
    end else
  if function =? DISTRIBUTE_BROADCAST_TO_NETWORK then Ok (DistributeBroadcastToNetwork (bf_payload f)) else
  if function =? ORIGINAL_UNICAST_NPDU then Ok (OriginalUnicastNpdu (bf_payload f)) else
  if function =? ORIGINAL_BROADCAST_NPDU then Ok (OriginalBroadcastNpdu (bf_payload f)) else
  otherwise.
(** [decode] (bacnet-bip-codec/src/message.rs:142-167) *)
Definition bvll_decode (datagram : bytes) : Result Bvll BvllError :=
  let? frame := bvll_frame_decode datagram in bvll_message frame.

(** [Bvll::function] (bacnet-bip-codec/src/message.rs) *)
Definition bvll_function (m : Bvll) : BvlcFunction :=
  match m with
  | BvlcResultMsg _ => BVLC_RESULT
  | WriteBroadcastDistributionTable _ => WRITE_BROADCAST_DISTRIBUTION_TABLE
  | ReadBroadcastDistributionTable => READ_BROADCAST_DISTRIBUTION_TABLE
  | ReadBroadcastDistributionTableAck _ => READ_BROADCAST_DISTRIBUTION_TABLE_ACK
  | ForwardedNpdu _ _ => FORWARDED_NPDU
  | RegisterForeignDevice _ => REGISTER_FOREIGN_DEVICE
  | ReadForeignDeviceTable => READ_FOREIGN_DEVICE_TABLE
  | ReadForeignDeviceTableAck _ => READ_FOREIGN_DEVICE_TABLE_ACK
  | DeleteForeignDeviceTableEntry _ => DELETE_FOREIGN_DEVICE_TABLE_ENTRY
  | DistributeBroadcastToNetwork _ => DISTRIBUTE_BROADCAST_TO_NETWORK
  | OriginalUnicastNpdu _ => ORIGINAL_UNICAST_NPDU
  | OriginalBroadcastNpdu _ => ORIGINAL_BROADCAST_NPDU
  end.
(** [Bvll::npdu] (bacnet-bip-codec/src/message.rs) *)
Definition bvll_npdu (m : Bvll) : option bytes :=
  match m with
  | ForwardedNpdu _ npdu | DistributeBroadcastToNetwork npdu
  | OriginalUnicastNpdu npdu | OriginalBroadcastNpdu npdu => Some npdu
  | _ => None
  end.
(** [Bvll::origin] (bacnet-bip-codec/src/message.rs) *)
Definition bvll_origin (m : Bvll) : option SocketAddrV4 :=
  match m with ForwardedNpdu origin _ => Some origin | _ => None end.
(** [Bvll::payload_length] (bacnet-bip-codec/src/message.rs) *)
Definition bvll_payload_length (m : Bvll) : nat :=
  match m with
  | BvlcResultMsg _ | RegisterForeignDevice _ => 2
  | ReadBroadcastDistributionTable | ReadForeignDeviceTable => 0
  | WriteBroadcastDistributionTable table | ReadBroadcastDistributionTableAck table =>
      entries_wire_length table
  | ReadForeignDeviceTableAck table => entries_wire_length table
  | DeleteForeignDeviceTableEntry _ => 6
  | ForwardedNpdu _ npdu => 6 + length npdu
  | DistributeBroadcastToNetwork npdu | OriginalUnicastNpdu npdu | OriginalBroadcastNpdu npdu =>
      length npdu
  end.
(** [Bvll::encoded_len] (bacnet-bip-codec/src/message.rs) *)
Definition bvll_encoded_len (m : Bvll) : Result nat BvllError :=
  let refused :=
    match m with
    | BvlcResultMsg code => if negb (result_is_defined code) then Some (UndefinedResultCode code) else None
    | _ => None
    end in
  match refused with
  | Some e => Err e
  | None =>
      let len := (BVLL_HEADER_LENGTH + bvll_payload_length m)%nat in
      if MAX_BVLL_LENGTH <? Z.of_nat len then Err (BvllTooLong len) else Ok len
  end.
(** The writes after the header, in order.
    [Bvll::encode_to_sink] (bacnet-bip-codec/src/message.rs:343-361) *)
Definition bvll_payload_chunks (m : Bvll) : list bytes :=
  match m with
  | BvlcResultMsg code => [to_be16 code]
  | RegisterForeignDevice ttl => [to_be16 ttl]
  | ReadBroadcastDistributionTable | ReadForeignDeviceTable => []
  | WriteBroadcastDistributionTable table | ReadBroadcastDistributionTableAck table => entries_chunks table
  | ReadForeignDeviceTableAck table => entries_chunks table
  | DeleteForeignDeviceTableEntry address => [address_to_octets address]
  | ForwardedNpdu origin npdu => [address_to_octets origin; npdu]
  | DistributeBroadcastToNetwork npdu | OriginalUnicastNpdu npdu | OriginalBroadcastNpdu npdu => [npdu]
  end.
(** [Bvll::encode_to_sink] (bacnet-bip-codec/src/message.rs) *)
Definition bvll_encode_to_sink {S} `{FrameSink S} (m : Bvll) (sink : S) : S * Result nat BvllError :=
  match bvll_encoded_len m with
  | Err e => (sink, Err e)
  | Ok len =>
      checked_write BvllBufferExhausted len
        ((BVLC_TYPE_BIP :: bvll_function m :: to_be16 (Z.of_nat len)) :: bvll_payload_chunks m) sink
  end.
(** The buffer after the call, and the result.
    [Bvll::encode_into] (bacnet-bip-codec/src/message.rs) *)
Definition bvll_encode_into (m : Bvll) (output : bytes) : bytes * Result nat BvllError :=
  let '(sink, r) := bvll_encode_to_sink m {| slice_buf := output; slice_pos := 0 |} in
  (slice_buf sink, r).

(** ** Equality of messages *)

#[export] Instance Entries_equiv {T} `{TableEntry T} : Equiv (Entries T) := entries_eq.
#[export] Instance Entries_equivalence {T} `{TableEntry T} : Equivalence (≡@{Entries T}).
Proof. split; unfold equiv, Entries_equiv, entries_eq; repeat intro; congruence. Qed.
(** The derived [PartialEq]: field by field, with a table's own equality.
    [PartialEq for Bvll] (bacnet-bip-codec/src/message.rs:175-175) *)
Definition bvll_eq (m m' : Bvll) : Prop :=
  match m, m' with
  | WriteBroadcastDistributionTable a, WriteBroadcastDistributionTable b => a ≡ b
  | ReadBroadcastDistributionTableAck a, ReadBroadcastDistributionTableAck b => a ≡ b
  | ReadForeignDeviceTableAck a, ReadForeignDeviceTableAck b => a ≡ b
  | _, _ => m = m'
  end.
#[export] Instance Bvll_equiv : Equiv Bvll := bvll_eq.
#[export] Instance Bvll_equivalence : Equivalence (≡@{Bvll}).
Proof.
  split; unfold equiv, Bvll_equiv.
  - by intros [].
  - intros [] []; cbn; intros H; (done || by rewrite H).
  - intros [] [] []; cbn; intros H1 H2; simplify_eq; (done || by rewrite H1).
Qed.
#[export] Instance entries_len_proper {T} `{TableEntry T} : Proper ((≡@{Entries T}) ==> (=)) entries_len.
Proof.
  intros a b H'. unfold equiv, Entries_equiv, entries_eq in H'. apply (f_equal length) in H'.
  destruct a, b; cbn in *; by rewrite ?length_map in H'.
Qed.
(** Equal messages take the same room. *)
#[export] Instance bvll_encoded_len_proper : Proper ((≡@{Bvll}) ==> (=)) bvll_encoded_len.
Proof.
  intros m m' H. unfold equiv, Bvll_equiv in H.
  destruct m, m'; cbv beta iota delta [bvll_eq] in H; simplify_eq; try done;
    unfold bvll_encoded_len, bvll_payload_length, entries_wire_length; by rewrite (entries_len_proper _ _ H).
Qed.

(** ** Well-formed messages *)

Definition wf_sa (a : SocketAddrV4) : Prop := is_u32 (sa_ip a) /\ is_u16 (sa_port a).
(** What an entry type promises: its ten octets hold it, and hold nothing else. *)
Class TableEntryLaws (T : Type) `{TableEntry T} := {
  wf_entry : T -> Prop;
  length_to_wire e : length (to_wire e) = ENTRY_LENGTH;
  to_wire_wf e : wf_entry e -> wf_bytes (to_wire e);
  from_to_wire e : wf_entry e -> from_wire (to_wire e) = e;
  from_wire_wf o : length o = ENTRY_LENGTH -> wf_bytes o -> wf_entry (from_wire o);
  to_from_wire o : length o = ENTRY_LENGTH -> wf_bytes o -> to_wire (from_wire o) = o
}.
Definition wf_entries {T} `{TableEntryLaws T} (e : Entries T) : Prop :=
  match e with
  | EntriesWire l => Forall (fun o => length o = ENTRY_LENGTH /\ wf_bytes o) l
  | EntriesTyped l => Forall wf_entry l
  end.

Lemma ipv4_octets_new a b c d : is_u8 a -> is_u8 b -> is_u8 c -> is_u8 d ->
  ipv4_octets (ipv4_new a b c d) = [a; b; c; d].
Proof.
  unfold ipv4_octets, ipv4_new, is_u8, U8_MAX. intros.
  f_equal; [divmod|f_equal; [divmod|f_equal; [divmod|f_equal; divmod]]].
Qed.
Lemma ipv4_new_octets ip : is_u32 ip ->
  ipv4_new (ip / 16777216) (ip / 65536 mod 256) (ip / 256 mod 256) (ip mod 256) = ip.
Proof. unfold ipv4_new, is_u32, U32_MAX. intros. divmod. Qed.
Lemma ipv4_octets_wf ip : is_u32 ip -> wf_bytes (ipv4_octets ip).
Proof. unfold ipv4_octets, is_u32, is_u8, U32_MAX, U8_MAX. intros. repeat constructor; divmod. Qed.
Lemma ipv4_new_u32 a b c d : is_u8 a -> is_u8 b -> is_u8 c -> is_u8 d -> is_u32 (ipv4_new a b c d).
Proof. unfold ipv4_new. width. Qed.
Lemma address_to_octets_wf a : wf_sa a -> wf_bytes (address_to_octets a).
Proof. intros []. apply Forall_app; split; [by apply ipv4_octets_wf|auto with bac]. Qed.
Lemma address_from_octets_wf a b c d h l : is_u8 a -> is_u8 b -> is_u8 c -> is_u8 d -> is_u8 h -> is_u8 l ->
  wf_sa (address_from_octets a b c d h l).
Proof. intros. split; [by apply ipv4_new_u32|by apply from_be16_u16]. Qed.
Lemma address_to_from a b c d h l : is_u8 a -> is_u8 b -> is_u8 c -> is_u8 d -> is_u8 h -> is_u8 l ->
  address_to_octets (address_from_octets a b c d h l) = [a; b; c; d; h; l].
Proof.
  intros. unfold address_to_octets, address_from_octets. cbn [sa_ip sa_port].
  by rewrite ipv4_octets_new, to_from_be16.
Qed.
(** An address read back from its octets, wherever they are matched. *)
Lemma address_read_back a : wf_sa a ->
  address_from_octets (sa_ip a / 16777216) (sa_ip a / 65536 mod 256) (sa_ip a / 256 mod 256)
    (sa_ip a mod 256) (sa_port a / 256) (sa_port a mod 256) = a.
Proof.
  intros []. unfold address_from_octets. rewrite ipv4_new_octets, from_to_be16 by done. by destruct a.
Qed.
Ltac ten_octets o :=
  do 10 (destruct o as [|? o]; [done|]); destruct o; [|done];
  repeat match goal with H : Forall _ (_ :: _) |- _ => apply Forall_cons in H as [? ?] end.
#[export] Instance BdtEntry_laws : TableEntryLaws BdtEntry.
Proof.
  refine {| wf_entry e := wf_sa (bdt_address e) /\ is_u32 (bdt_mask e) |}.
  - done.
  - intros e [? ?]. apply Forall_app; split; [by apply address_to_octets_wf|by apply ipv4_octets_wf].
  - intros [a m] [Ha Hm]. cbn [from_wire to_wire BdtEntry_TableEntry bdt_address bdt_mask] in *.
    unfold bdt_from_octets, bdt_to_octets, address_to_octets, ipv4_octets, to_be16.
    cbn [app nth bdt_address bdt_mask]. by rewrite address_read_back, ipv4_new_octets.
  - intros o Hl Hw. ten_octets o. cbn. split; [by apply address_from_octets_wf|by apply ipv4_new_u32].
  - intros o Hl Hw. ten_octets o. cbn [from_wire to_wire BdtEntry_TableEntry].
    unfold bdt_to_octets, bdt_from_octets. cbn [bdt_address bdt_mask nth].
    rewrite ipv4_octets_new by done. by rewrite address_to_from.
Defined.
#[export] Instance FdtEntry_laws : TableEntryLaws FdtEntry.
Proof.
  refine {| wf_entry e := wf_sa (fdt_address e) /\ is_u16 (fdt_ttl e) /\ is_u16 (fdt_remaining e) |}.
  - done.
  - intros e (? & ? & ?). apply Forall_app; split; [by apply address_to_octets_wf|].
    apply Forall_app; auto with bac.
  - intros [a t r] (Ha & Ht & Hr). cbn [from_wire to_wire FdtEntry_TableEntry fdt_address fdt_ttl fdt_remaining] in *.
    unfold fdt_from_octets, fdt_to_octets, address_to_octets, ipv4_octets, to_be16.
    cbn [app nth fdt_address fdt_ttl fdt_remaining]. by rewrite address_read_back, !from_to_be16.
  - intros o Hl Hw. ten_octets o. cbn. split_and!; [by apply address_from_octets_wf|by apply from_be16_u16..].
  - intros o Hl Hw. ten_octets o. cbn [from_wire to_wire FdtEntry_TableEntry].
    unfold fdt_to_octets, fdt_from_octets. cbn [fdt_address fdt_ttl fdt_remaining nth].
    rewrite !to_from_be16 by done. by rewrite address_to_from.
Defined.

(** ** Whole chunks *)

Lemma as_chunks_fuel_spec n : (0 < n)%nat -> forall fuel l, (length l <= fuel)%nat ->
  let '(chunks, rest) := as_chunks_fuel fuel n l in
  l = concat chunks ++ rest /\ Forall (fun c => length c = n) chunks /\ (length rest < n)%nat.
Proof.
  intros Hn. induction fuel as [|fuel IH]; intros l Hl.
  { destruct l; cbn in *; [by split_and!|lia]. }
  cbn [as_chunks_fuel]. case_decide as Hd; [by split_and!|].
  specialize (IH (drop n l)). destruct (as_chunks_fuel fuel n (drop n l)) as [chunks rest].
  rewrite length_drop in IH. destruct IH as (E & Hc & Hr); [lia|]. split_and!; [|constructor; [|done]|done].
  - cbn [concat]. by rewrite <-app_assoc, <-E, take_drop.
  - rewrite length_take. lia.
Qed.
Lemma length_concat_chunks n chunks : Forall (fun c : bytes => length c = n) chunks ->
  length (concat chunks) = (length chunks * n)%nat.
Proof. induction 1; cbn; [done|]. rewrite length_app. lia. Qed.
Lemma as_chunks_concat n chunks : (0 < n)%nat -> Forall (fun c : bytes => length c = n) chunks ->
  as_chunks n (concat chunks) = (chunks, []).
Proof.
  intros Hn Hc. unfold as_chunks.
  assert (G : forall fuel, (length (concat chunks) <= fuel)%nat ->
    as_chunks_fuel fuel n (concat chunks) = (chunks, [])); [|by apply G].
  induction Hc as [|c chunks Hc Hcs IH]; intros [|fuel] Hf; cbn [concat] in *.
  - done.
  - cbn [as_chunks_fuel]. by rewrite decide_True by (cbn; lia).
  - rewrite length_app in Hf. lia.
  - rewrite length_app in Hf. cbn [as_chunks_fuel]. rewrite decide_False by (rewrite length_app; lia).
    rewrite <-Hc, drop_app_length, take_app_length, Hc, IH by lia. done.
Qed.
(** A table is read from any whole number of entries, and from nothing else. *)
Lemma entries_from_wire_spec {T} `{TableEntryLaws T} (octets : bytes) : wf_bytes octets ->
  if bool_decide (length octets mod ENTRY_LENGTH = 0)%nat
  then exists l, entries_from_wire (T := T) octets = Ok (EntriesWire l) /\ concat l = octets /\
         wf_entries (EntriesWire (T := T) l)
  else entries_from_wire (T := T) octets = Err (TableLength (length octets) ENTRY_LENGTH).
Proof.
  intros Hw. unfold entries_from_wire, as_chunks.
  pose proof (as_chunks_fuel_spec ENTRY_LENGTH ltac:(vm_compute; lia) (length octets) octets ltac:(done)) as Hs.
  destruct (as_chunks_fuel _ _ _) as [chunks rest]. destruct Hs as (E & Hc & Hr).
  assert (Hm : (length octets mod ENTRY_LENGTH = length rest)%nat).
  { rewrite E, length_app, (length_concat_chunks ENTRY_LENGTH) by done.
    rewrite Nat.add_comm, Nat.Div0.mod_add. by apply Nat.mod_small. }
  rewrite Hm. destruct rest as [|x rest]; [|done]. cbn [length]. rewrite bool_decide_true by done.
  rewrite app_nil_r in E. subst octets. exists chunks. split_and!; [done..|].
  cbn [wf_entries]. clear Hm Hr. induction Hc as [|c chunks Hc _ IH]; [done|]. cbn [concat] in Hw.
  apply Forall_app in Hw as [? ?]. constructor; auto.
Qed.

(** ** The wire form of a message *)

Definition wf_bvll (m : Bvll) : Prop :=
  match m with
  | BvlcResultMsg code => is_u16 code
  | RegisterForeignDevice ttl => is_u16 ttl
  | ReadBroadcastDistributionTable | ReadForeignDeviceTable => True
  | WriteBroadcastDistributionTable table | ReadBroadcastDistributionTableAck table => wf_entries table
  | ReadForeignDeviceTableAck table => wf_entries table
  | DeleteForeignDeviceTableEntry address => wf_sa address
  | ForwardedNpdu origin npdu => wf_sa origin /\ wf_bytes npdu
  | DistributeBroadcastToNetwork npdu | OriginalUnicastNpdu npdu | OriginalBroadcastNpdu npdu => wf_bytes npdu
  end.
Definition bvll_payload (m : Bvll) : bytes := concat (bvll_payload_chunks m).
Definition bvll_wire (m : Bvll) : bytes :=
  (BVLC_TYPE_BIP :: bvll_function m ::
     to_be16 (Z.of_nat (BVLL_HEADER_LENGTH + bvll_payload_length m))) ++ bvll_payload m.
(** The message a receiver holds: its tables are wire octets. *)
Definition entries_received {T} `{TableEntry T} (e : Entries T) : Entries T :=
  match e with EntriesWire l => EntriesWire l | EntriesTyped l => EntriesWire (map to_wire l) end.
Definition bvll_received (m : Bvll) : Bvll :=
  match m with
  | WriteBroadcastDistributionTable t => WriteBroadcastDistributionTable (entries_received t)
  | ReadBroadcastDistributionTableAck t => ReadBroadcastDistributionTableAck (entries_received t)
  | ReadForeignDeviceTableAck t => ReadForeignDeviceTableAck (entries_received t)
  | _ => m
  end.

Section Entries_lemmas.
Context {T : Type} `{TableEntryLaws T}.
Lemma entries_received_equiv (e : Entries T) : wf_entries e -> entries_received e ≡ e.
Proof.
  destruct e as [l|l]; [done|]. unfold equiv, Entries_equiv, entries_eq. cbn.
  induction 1 as [|x l Hx _ IH]; [done|]. cbn. by rewrite from_to_wire, IH.
Qed.
Lemma entries_chunks_received (e : Entries T) :
  concat (entries_chunks (entries_received e)) = concat (entries_chunks e).
Proof. destruct e as [l|l]; [done|]. cbn. by rewrite app_nil_r. Qed.
Lemma length_entries (e : Entries T) : wf_entries e ->
  length (concat (entries_chunks e)) = entries_wire_length e.
Proof.
  unfold entries_wire_length. destruct e as [l|l]; cbn [entries_chunks entries_len wf_entries]; intros Hw.
  - cbn [concat]. rewrite app_nil_r. apply length_concat_chunks. eapply Forall_impl; [exact Hw|]. by intros ? [].
  - rewrite (length_concat_chunks ENTRY_LENGTH); [by rewrite length_map|].
    apply Forall_map, Forall_true. intros ?. apply length_to_wire.
Qed.
Lemma entries_read_back (e : Entries T) : wf_entries e ->
  entries_from_wire (concat (entries_chunks e)) = Ok (entries_received e).
Proof.
  intros Hw. rewrite <-entries_chunks_received.
  assert (Hl : exists l, entries_received e = EntriesWire l /\ Forall (fun c => length c = ENTRY_LENGTH) l).
  { destruct e as [l|l]; cbn in *; eexists; (split; [done|]).
    - eapply Forall_impl; [exact Hw|]. by intros ? [].
    - apply Forall_map, Forall_true. intros ?. apply length_to_wire. }
  destruct Hl as (l & -> & Hl). unfold entries_from_wire. cbn [entries_chunks concat].
  rewrite app_nil_r, as_chunks_concat by (done || vm_compute; lia). done.
Qed.
Lemma entries_payload_wf (e : Entries T) : wf_entries e -> wf_bytes (concat (entries_chunks e)).
Proof.
  destruct e as [l|l]; cbn [entries_chunks wf_entries]; intros Hw.
  - cbn [concat]. rewrite app_nil_r. induction Hw as [|o l [_ Ho] _ IH]; [done|]. by apply Forall_app.
  - induction Hw as [|x l Hx _ IH]; [done|]. apply Forall_app; split; [by apply to_wire_wf|done].
Qed.
End Entries_lemmas.

Lemma bvll_received_equiv m : wf_bvll m -> bvll_received m ≡ m.
Proof. destruct m; cbn [wf_bvll]; intros Hw; try done; by apply entries_received_equiv. Qed.
Lemma length_bvll_payload m : wf_bvll m -> length (bvll_payload m) = bvll_payload_length m.
Proof.
  unfold bvll_payload. destruct m; cbn [wf_bvll bvll_payload_chunks bvll_payload_length]; intros Hw;
    try (by apply length_entries); cbn [concat]; rewrite ?app_nil_r; try done.
Qed.
Lemma length_bvll_wire m : wf_bvll m -> length (bvll_wire m) = (BVLL_HEADER_LENGTH + bvll_payload_length m)%nat.
Proof. intros Hw. unfold bvll_wire. rewrite length_app, length_bvll_payload by done. done. Qed.
Lemma bvll_encoded_len_ok m n : bvll_encoded_len m = Ok n ->
  n = (BVLL_HEADER_LENGTH + bvll_payload_length m)%nat /\ Z.of_nat n <= U16_MAX.
Proof.
  unfold bvll_encoded_len. destruct (match m with BvlcResultMsg _ => _ | _ => _ end); [done|]. cbv zeta.
  destruct (Z.ltb_spec MAX_BVLL_LENGTH (Z.of_nat (BVLL_HEADER_LENGTH + bvll_payload_length m))); [done|].
  intros [= <-]. done.
Qed.

(** The header reads back, whatever the payload. *)
Lemma bvll_frame_decode_head f n payload : is_u16 (Z.of_nat n) -> n = (4 + length payload)%nat ->
  bvll_frame_decode ((BVLC_TYPE_BIP :: f :: to_be16 (Z.of_nat n)) ++ payload) =
  Ok {| bf_function := f; bf_payload := payload |}.
Proof.
  intros Hn E. unfold to_be16. cbn [app]. unfold bvll_frame_decode. rewrite Z.eqb_refl. cbn [negb].
  rewrite from_to_be16 by done. cbn [length]. rewrite E. by rewrite Z.eqb_refl.
Qed.
Lemma bvll_message_payload m : wf_bvll m ->
  bvll_message {| bf_function := bvll_function m; bf_payload := bvll_payload m |} = Ok (bvll_received m).
Proof.
  intros Hw. unfold bvll_message, bvll_payload. cbn [bf_function bf_payload].
  destruct m; cbn [bvll_function bvll_payload_chunks bvll_received wf_bvll] in *;
    cbv [BVLC_RESULT WRITE_BROADCAST_DISTRIBUTION_TABLE READ_BROADCAST_DISTRIBUTION_TABLE
      READ_BROADCAST_DISTRIBUTION_TABLE_ACK FORWARDED_NPDU REGISTER_FOREIGN_DEVICE READ_FOREIGN_DEVICE_TABLE
      READ_FOREIGN_DEVICE_TABLE_ACK DELETE_FOREIGN_DEVICE_TABLE_ENTRY DISTRIBUTE_BROADCAST_TO_NETWORK
      ORIGINAL_UNICAST_NPDU ORIGINAL_BROADCAST_NPDU]; cbn [Z.eqb Pos.eqb]; cbv zeta;
    rewrite ?entries_read_back by done; try done;
    cbn [concat]; unfold address_to_octets, ipv4_octets, to_be16; cbn [app];
    rewrite ?app_nil_r, ?from_to_be16, ?address_read_back by (done || apply Hw); done.
Qed.
Lemma bvll_decode_wire m : wf_bvll m -> Z.of_nat (BVLL_HEADER_LENGTH + bvll_payload_length m) <= U16_MAX ->
  bvll_decode (bvll_wire m) = Ok (bvll_received m).
Proof.
  intros Hw Hl. unfold bvll_decode, bvll_wire.
  rewrite bvll_frame_decode_head; [|width|by rewrite length_bvll_payload].
  cbn [rbind]. by apply bvll_message_payload.
Qed.

(** A B/IP message that passes the encoder's checks is written, into any buffer with room for it, as its
    wire octets, and is refused without a trace otherwise; what was written decodes to an equal
    message, tables compared entry by entry. *)
Theorem bvll_encode_decode m n output : wf_bvll m -> bvll_encoded_len m = Ok n ->
  if decide (length output < n)%nat
  then bvll_encode_into m output = (output, Err (BvllBufferExhausted n (length output)))
  else exists buf m', bvll_encode_into m output = (buf, Ok n) /\ length (bvll_wire m) = n /\
         take n buf = bvll_wire m /\ bvll_decode (take n buf) = Ok m' /\ m' ≡ m.
Proof.
  intros Hw Hn. destruct (bvll_encoded_len_ok m n Hn) as [En Hb].
  unfold bvll_encode_into, bvll_encode_to_sink. rewrite Hn.
  set (chunks := (_ :: _) :: _). assert (Ec : concat chunks = bvll_wire m).
  { unfold chunks, bvll_wire, bvll_payload. cbn [concat]. by rewrite En. }
  pose proof (length_bvll_wire m Hw) as Hl. rewrite <-En in Hl.
  pose proof (checked_write_slice BvllBufferExhausted chunks output) as Hs. cbv zeta in Hs.
  rewrite Ec, Hl in Hs. case_decide as Hd; [by rewrite Hs|].
  destruct (checked_write _ _ _ _) as [s r]. cbn [fst snd] in Hs. destruct Hs as [-> Ht].
  exists (slice_buf s), (bvll_received m). rewrite Ht. split_and!; try done.
  - apply bvll_decode_wire; [done|]. by rewrite <-En.
  - by apply bvll_received_equiv.
Qed.
Lemma bvll_encode_decode_witness :
  let m := WriteBroadcastDistributionTable (EntriesTyped
    [{| bdt_address := {| sa_ip := ipv4_new 192 168 1 10; sa_port := 47808 |}; bdt_mask := 4294967295 |}]) in
  exists buf m', bvll_encode_into m (replicate 20 0) = (buf, Ok 14%nat) /\ bvll_decode (take 14 buf) = Ok m' /\ m' ≡ m.
Proof.
  intros m. pose proof (bvll_encode_decode m 14 (replicate 20 0)) as H.
  destruct H as (buf & m' & H1 & _ & _ & H2 & H3).
  - apply Forall_singleton. repeat split; vm_compute; discriminate.
  - vm_compute. reflexivity.
  - exists buf, m'. split_and!; assumption.
Defined.

(** ** What is refused *)

(** Why a datagram is refused, by the header clause and by the payload shape of its function. *)
Definition bvll_refusal (datagram : bytes) : option BvllError :=
  match datagram with
  | bvlc_type :: function :: high :: low :: payload =>
      if negb (bvlc_type =? BVLC_TYPE_BIP) then Some (NotBip bvlc_type) else
      if negb (from_be16 high low =? Z.of_nat (length datagram))
      then Some (LengthMismatch (from_be16 high low) (length datagram)) else
      match payload_shape function with
      | None => Some (UnknownFunction function)
      | Some shape =>
          if admits shape (length payload) then None else Some (PayloadLength function (length payload))
      end
  | _ => Some (BvllTooShort (length datagram))
  end.

Ltac bvlc_functions :=
  cbv [BVLC_RESULT WRITE_BROADCAST_DISTRIBUTION_TABLE READ_BROADCAST_DISTRIBUTION_TABLE
    READ_BROADCAST_DISTRIBUTION_TABLE_ACK FORWARDED_NPDU REGISTER_FOREIGN_DEVICE READ_FOREIGN_DEVICE_TABLE
    READ_FOREIGN_DEVICE_TABLE_ACK DELETE_FOREIGN_DEVICE_TABLE_ENTRY DISTRIBUTE_BROADCAST_TO_NETWORK
    ORIGINAL_UNICAST_NPDU ORIGINAL_BROADCAST_NPDU].
(** Reading a payload ends as its function's shape says. *)
Definition reads_as_shaped (f : BvlcFunction) (p : bytes) : Prop :=
  let r := bvll_message {| bf_function := f; bf_payload := p |} in
  match payload_shape f with
  | None => r = Err (UnknownFunction f)
  | Some shape =>
      if admits shape (length p)
      then exists m, r = Ok m /\ wf_bvll m /\ bvll_function m = f /\ bvll_payload m = p
      else r = Err (PayloadLength f (length p))
  end.
Lemma shaped_table {T} `{TableEntryLaws T} (f : BvlcFunction) (wrap : Entries T -> Bvll) p : wf_bytes p ->
  (forall e, wf_bvll (wrap e) = wf_entries e) -> (forall e, bvll_function (wrap e) = f) ->
  (forall e, bvll_payload (wrap e) = concat (entries_chunks e)) ->
  let r := rbind (map_err (fun _ => PayloadLength f (length p)) (entries_from_wire p)) (fun t => Ok (wrap t)) in
  if admits (ShapeTable ENTRY_LENGTH) (length p)
  then exists m, r = Ok m /\ wf_bvll m /\ bvll_function m = f /\ bvll_payload m = p
  else r = Err (PayloadLength f (length p)).
Proof.
  intros Hw H1 H2 H3. cbv zeta. unfold admits. pose proof (entries_from_wire_spec (T := T) p Hw) as Hs.
  destruct (bool_decide _); [|by rewrite Hs]. destruct Hs as (l & -> & <- & Hl).
  exists (wrap (EntriesWire l)). rewrite H1, H2, H3. cbn. by rewrite app_nil_r.
Qed.
Lemma shaped_unknown f p : ~ 0 <= f <= 11 -> reads_as_shaped f p.
Proof.
  intros Hf. unfold reads_as_shaped, payload_shape, bvll_message, function_is_defined, code_is_defined.
  bvlc_functions. cbn [bf_function bf_payload].
  rewrite !(proj2 (Z.eqb_neq f _)) by lia. cbn [orb].
  rewrite bool_decide_false; [done|]. intros Hi. repeat (apply elem_of_cons in Hi as [->|Hi]; [lia|]).
  by apply elem_of_nil in Hi.
Qed.
Lemma shaped_fixed2 f p (wrap : Z -> Bvll) : f = BVLC_RESULT /\ wrap = BvlcResultMsg \/
  f = REGISTER_FOREIGN_DEVICE /\ wrap = RegisterForeignDevice -> wf_bytes p -> reads_as_shaped f p.
Proof.
  intros Hf Hw. destruct Hf as [[-> ->]|[-> ->]];
    unfold reads_as_shaped, bvll_message; bvlc_functions; cbn [bf_function bf_payload Z.eqb Pos.eqb payload_shape];
    cbn -[from_be16]; destruct p as [|h [|l [|x p]]]; try done;
    apply Forall_cons in Hw as [? Hw]; apply Forall_cons in Hw as [? _]; cbn [length admits];
    rewrite bool_decide_true by done; eexists; (split; [done|]); cbn [wf_bvll];
    (split; [by apply from_be16_u16|]); (split; [done|]); unfold bvll_payload; cbn [bvll_payload_chunks concat];
    by rewrite app_nil_r, to_from_be16.
Qed.
Lemma shaped_address p : wf_bytes p -> reads_as_shaped DELETE_FOREIGN_DEVICE_TABLE_ENTRY p /\
  reads_as_shaped FORWARDED_NPDU p.
Proof.
  intros Hw. unfold reads_as_shaped, bvll_message; bvlc_functions; cbn [bf_function bf_payload Z.eqb Pos.eqb].
  do 6 (destruct p as [|? p]; [by split|]).
  repeat match goal with H : Forall _ (_ :: _) |- _ => apply Forall_cons in H as [? ?] end. split.
  - destruct p; [|done]. cbn [length payload_shape]. eexists. split; [done|].
    unfold bvll_payload. cbn [wf_bvll bvll_payload_chunks concat bvll_function].
    rewrite app_nil_r, address_to_from by done. split_and!; [by apply address_from_octets_wf|done..].
  - cbn [length payload_shape]. eexists. split; [done|].
    unfold bvll_payload. cbn [wf_bvll bvll_payload_chunks concat bvll_function].
    rewrite app_nil_r, address_to_from by done. split_and!; [by apply address_from_octets_wf|done..].
Qed.
Lemma bvll_message_shaped f p : wf_bytes p -> reads_as_shaped f p.
Proof.
  intros Hw. destruct (decide (0 <= f <= 11)) as [Hf|Hf]; [|by apply shaped_unknown].
  assert (Hc : f = 0 \/ f = 1 \/ f = 2 \/ f = 3 \/ f = 4 \/ f = 5 \/ f = 6 \/ f = 7 \/ f = 8 \/ f = 9 \/
    f = 10 \/ f = 11) by lia.
  destruct Hc as [->|[->|[->|[->|[->|[->|[->|[->|[->|[->|[->| ->]]]]]]]]]]].
  - apply (shaped_fixed2 _ _ BvlcResultMsg); [by left|done].
  - by apply (shaped_table 1 WriteBroadcastDistributionTable).
  - destruct p; [|done]. by eexists.
  - by apply (shaped_table 3 ReadBroadcastDistributionTableAck).
  - by apply shaped_address.
  - apply (shaped_fixed2 _ _ RegisterForeignDevice); [by right|done].
  - destruct p; [|done]. by eexists.
  - by apply (shaped_table 7 ReadForeignDeviceTableAck).
  - by apply shaped_address.
  - eexists. split; [done|]. split_and!; [done..|apply app_nil_r].
  - eexists. split; [done|]. split_and!; [done..|apply app_nil_r].
  - eexists. split; [done|]. split_and!; [done..|apply app_nil_r].
Qed.

(** C39: decoding a B/IP datagram is exact: it is refused just for the reasons its header and the payload
    shape of its function give (an undefined function, a length the shape does not admit), with that error;
    and whatever is accepted is the wire form of the message returned, so no two datagrams decode to the
    same message, and a message with a defined result code encodes back to the datagram's length. *)
Theorem bvll_decode_exact datagram : wf_bytes datagram ->
  match bvll_refusal datagram with
  | Some e => bvll_decode datagram = Err e
  | None => exists m, bvll_decode datagram = Ok m /\ wf_bvll m /\ bvll_wire m = datagram /\
      ((forall code, m = BvlcResultMsg code -> result_is_defined code = true) ->
       bvll_encoded_len m = Ok (length datagram))
  end.
Proof.
  intros Hw. unfold bvll_refusal, bvll_decode, bvll_frame_decode.
  destruct datagram as [|ty [|f [|h [|l p]]]]; try done.
  destruct (Z.eqb_spec ty BVLC_TYPE_BIP) as [->|]; [|done]. cbn [negb].
  destruct (Z.eqb_spec (from_be16 h l) (Z.of_nat (length (BVLC_TYPE_BIP :: f :: h :: l :: p)))) as [El|]; [|done].
  cbn [negb rbind]. do 4 (apply Forall_cons in Hw as [? Hw]).
  pose proof (bvll_message_shaped f p Hw) as Hm. unfold reads_as_shaped in Hm. cbv zeta in Hm.
  destruct (payload_shape f) as [shape|]; [|done]. destruct (admits _ _); [|done].
  destruct Hm as (m & Em & Hwm & <- & <-). exists m.
  assert (En : (BVLL_HEADER_LENGTH + bvll_payload_length m =
    length (BVLC_TYPE_BIP :: bvll_function m :: h :: l :: bvll_payload m))%nat)
    by (cbn [length]; by rewrite length_bvll_payload).
  split_and!; try done.
  - unfold bvll_wire. by rewrite (eq_trans (f_equal Z.of_nat En) (eq_sym El)), to_from_be16.
  - intros Hr. assert (Hu : is_u16 (from_be16 h l)) by (by apply from_be16_u16).
    etransitivity; [|exact (f_equal Ok En)]. unfold bvll_encoded_len.
    replace (match m with BvlcResultMsg _ => _ | _ => _ end) with (@None BvllError)
      by (destruct m; try done; by rewrite (Hr _ eq_refl)).
    cbv zeta. rewrite (proj2 (Z.ltb_ge _ _)); [done|].
    rewrite (eq_trans (f_equal Z.of_nat En) (eq_sym El)). unfold MAX_BVLL_LENGTH. width.
Qed.
Lemma bvll_decode_exact_witness :
  exists m, bvll_decode [129; 4; 0; 12; 192; 168; 1; 20; 186; 192; 1; 0] = Ok m /\
    bvll_wire m = [129; 4; 0; 12; 192; 168; 1; 20; 186; 192; 1; 0].
Proof.
  destruct (bvll_decode_exact [129; 4; 0; 12; 192; 168; 1; 20; 186; 192; 1; 0]) as (m & H1 & _ & H2 & _).
  - repeat constructor; width.
  - exists m. split; assumption.
Defined.
