(* ===== verification/Bvll6.v ===== *)
(** * BACnet/IPv6 BVLL messages (crate bacnet-bip-codec, module ipv6)

    The B/IPv6 codec of Annex U: virtual MAC addresses and 18-octet addresses, the function and
    result codes with their payload shapes, and the decoder, which reads a payload field by field,
    with the checked encoder. *)

From S2P Require Import Prelude Sink Bvll.

(** ** Constants and addresses (ipv6.rs, ipv6/address.rs) *)

(** [BVLC_TYPE_BIP6] (bacnet-bip-codec/src/ipv6.rs:79-80) *)
Definition BVLC_TYPE_BIP6 : Z := 130.
(** [VMAC_LENGTH] (bacnet-bip-codec/src/ipv6.rs:81-82) *)
Definition VMAC_LENGTH : nat := 3.
(** [BIP6_ADDRESS_LENGTH] (bacnet-bip-codec/src/ipv6.rs:83-84) *)
Definition BIP6_ADDRESS_LENGTH : nat := 18.
(** [IPV6_LENGTH] (bacnet-bip-codec/src/ipv6/address.rs:8-9) *)
Definition IPV6_LENGTH : nat := 16.

(** Three octets.
    [Bip6Vmac] (bacnet-bip-codec/src/ipv6/address.rs) *)
Definition Bip6Vmac : Type := bytes.
(** The 16 octets of an [Ipv6Addr], and a port.
    [Bip6Address] (bacnet-bip-codec/src/ipv6/address.rs) *)
Record Bip6Address := { ip6 : bytes; port6 : Z }.
#[global] Instance Bip6Address_eq_dec : EqDecision Bip6Address.
Proof. solve_decision. Defined.
(** [Bip6Address::to_octets] (bacnet-bip-codec/src/ipv6/address.rs) *)
Definition bip6_to_octets (a : Bip6Address) : bytes := ip6 a ++ to_be16 (port6 a).
(** [octets] is a [[u8; 18]].
    [Bip6Address::from_octets] (bacnet-bip-codec/src/ipv6/address.rs) *)
Definition bip6_from_octets (octets : bytes) : Bip6Address :=
  {| ip6 := take IPV6_LENGTH octets;
     port6 := from_be16 (nth IPV6_LENGTH octets 0) (nth (IPV6_LENGTH + 1) octets 0) |}.

(** ** Codes (ipv6/function.rs) *)

(** [Bvlc6Function] (bacnet-bip-codec/src/ipv6/function.rs:8-44) *)
Definition Bvlc6Function : Type := Z.
Definition BVLC_RESULT6 : Bvlc6Function := 0.
Definition ORIGINAL_UNICAST_NPDU6 : Bvlc6Function := 1.
Definition ORIGINAL_BROADCAST_NPDU6 : Bvlc6Function := 2.
Definition ADDRESS_RESOLUTION : Bvlc6Function := 3.
Definition FORWARDED_ADDRESS_RESOLUTION : Bvlc6Function := 4.
Definition ADDRESS_RESOLUTION_ACK : Bvlc6Function := 5.
Definition VIRTUAL_ADDRESS_RESOLUTION : Bvlc6Function := 6.
Definition VIRTUAL_ADDRESS_RESOLUTION_ACK : Bvlc6Function := 7.
Definition FORWARDED_NPDU6 : Bvlc6Function := 8.
Definition REGISTER_FOREIGN_DEVICE6 : Bvlc6Function := 9.
Definition DELETE_FOREIGN_DEVICE_TABLE_ENTRY6 : Bvlc6Function := 10.
Definition DISTRIBUTE_BROADCAST_TO_NETWORK6 : Bvlc6Function := 12.
Definition function6_is_defined : Bvlc6Function -> bool :=
  code_is_defined [BVLC_RESULT6; ORIGINAL_UNICAST_NPDU6; ORIGINAL_BROADCAST_NPDU6; ADDRESS_RESOLUTION;
    FORWARDED_ADDRESS_RESOLUTION; ADDRESS_RESOLUTION_ACK; VIRTUAL_ADDRESS_RESOLUTION;
    VIRTUAL_ADDRESS_RESOLUTION_ACK; FORWARDED_NPDU6; REGISTER_FOREIGN_DEVICE6;
    DELETE_FOREIGN_DEVICE_TABLE_ENTRY6; DISTRIBUTE_BROADCAST_TO_NETWORK6].
(** [Bvlc6ResultCode] (bacnet-bip-codec/src/ipv6/function.rs:46-65) *)
Definition Bvlc6ResultCode : Type := Z.
Definition SUCCESSFUL_COMPLETION6 : Bvlc6ResultCode := 0.
Definition ADDRESS_RESOLUTION_NAK : Bvlc6ResultCode := 48.
Definition VIRTUAL_ADDRESS_RESOLUTION_NAK : Bvlc6ResultCode := 96.
Definition REGISTER_FOREIGN_DEVICE_NAK6 : Bvlc6ResultCode := 144.
Definition DELETE_FOREIGN_DEVICE_TABLE_ENTRY_NAK6 : Bvlc6ResultCode := 160.
Definition DISTRIBUTE_BROADCAST_TO_NETWORK_NAK6 : Bvlc6ResultCode := 192.
Definition result6_is_defined : Bvlc6ResultCode -> bool :=
  code_is_defined [SUCCESSFUL_COMPLETION6; ADDRESS_RESOLUTION_NAK; VIRTUAL_ADDRESS_RESOLUTION_NAK;
    REGISTER_FOREIGN_DEVICE_NAK6; DELETE_FOREIGN_DEVICE_TABLE_ENTRY_NAK6; DISTRIBUTE_BROADCAST_TO_NETWORK_NAK6].

(** [Bvlc6Function::payload_shape] (bacnet-bip-codec/src/ipv6/function.rs) *)
Definition payload_shape6 (f : Bvlc6Function) : option PayloadShape :=
  if f =? VIRTUAL_ADDRESS_RESOLUTION then Some (ShapeFixed VMAC_LENGTH) else
  if (f =? BVLC_RESULT6) || (f =? REGISTER_FOREIGN_DEVICE6) then Some (ShapeFixed (VMAC_LENGTH + 2)) else
  if (f =? ADDRESS_RESOLUTION) || (f =? ADDRESS_RESOLUTION_ACK) || (f =? VIRTUAL_ADDRESS_RESOLUTION_ACK)
  then Some (ShapeFixed (2 * VMAC_LENGTH)) else
  if f =? DELETE_FOREIGN_DEVICE_TABLE_ENTRY6 then Some (ShapeFixed (VMAC_LENGTH + BIP6_ADDRESS_LENGTH)) else
  if f =? FORWARDED_ADDRESS_RESOLUTION then Some (ShapeFixed (2 * VMAC_LENGTH + BIP6_ADDRESS_LENGTH)) else
  if (f =? ORIGINAL_BROADCAST_NPDU6) || (f =? DISTRIBUTE_BROADCAST_TO_NETWORK6)
  then Some (ShapeNpdu VMAC_LENGTH) else
  if f =? ORIGINAL_UNICAST_NPDU6 then Some (ShapeNpdu (2 * VMAC_LENGTH)) else
  if f =? FORWARDED_NPDU6 then Some (ShapeNpdu (VMAC_LENGTH + BIP6_ADDRESS_LENGTH)) else None.
(** [Bvlc6Function::nak] (bacnet-bip-codec/src/ipv6/function.rs) *)
Definition bvlc6_nak (f : Bvlc6Function) : option Bvlc6ResultCode :=
  if f =? ADDRESS_RESOLUTION then Some ADDRESS_RESOLUTION_NAK else
  if f =? VIRTUAL_ADDRESS_RESOLUTION then Some VIRTUAL_ADDRESS_RESOLUTION_NAK else
  if f =? REGISTER_FOREIGN_DEVICE6 then Some REGISTER_FOREIGN_DEVICE_NAK6 else
  if f =? DELETE_FOREIGN_DEVICE_TABLE_ENTRY6 then Some DELETE_FOREIGN_DEVICE_TABLE_ENTRY_NAK6 else
  if f =? DISTRIBUTE_BROADCAST_TO_NETWORK6 then Some DISTRIBUTE_BROADCAST_TO_NETWORK_NAK6 else None.

(** [Bvll6Error] (bacnet-bip-codec/src/ipv6/error.rs) *)
Inductive Bvll6Error :=
| Bvll6TooShort (len : nat) | NotBip6 (bvlc_type : Z) | LengthMismatch6 (declared : Z) (received : nat)
| UnknownFunction6 (function : Z) | PayloadLength6 (function : Bvlc6Function) (len : nat)
| AddressLength6 (len : nat) | Bvll6TooLong (len : nat) | UndefinedResultCode6 (code : Z)
| Bvll6BufferExhausted (needed available : nat).
#[global] Instance Bvll6Error_eq_dec : EqDecision Bvll6Error.
Proof. solve_decision. Defined.
(** [Bip6Address::from_slice] (bacnet-bip-codec/src/ipv6/address.rs) *)
Definition bip6_from_slice (octets : bytes) : Result Bip6Address Bvll6Error :=
  if decide (length octets = BIP6_ADDRESS_LENGTH) then Ok (bip6_from_octets octets)
  else Err (AddressLength6 (length octets)).

(** ** Frames and messages (ipv6/message.rs) *)

(** [Bvll6] (bacnet-bip-codec/src/ipv6/message.rs) *)
Inductive Bvll6 :=
| BvlcResult6Msg (source : Bip6Vmac) (code : Bvlc6ResultCode)
| OriginalUnicastNpdu6 (source dest : Bip6Vmac) (npdu : bytes)
| OriginalBroadcastNpdu6 (source : Bip6Vmac) (npdu : bytes)
| AddressResolution (source target : Bip6Vmac)
| ForwardedAddressResolution (original_source target : Bip6Vmac) (original_address : Bip6Address)
| AddressResolutionAck (source dest : Bip6Vmac)
| VirtualAddressResolution (source : Bip6Vmac)
| VirtualAddressResolutionAck (source dest : Bip6Vmac)
| ForwardedNpdu6 (original_source : Bip6Vmac) (original_address : Bip6Address) (npdu : bytes)
| RegisterForeignDevice6 (source : Bip6Vmac) (ttl : Z)
| DeleteForeignDeviceTableEntry6 (source : Bip6Vmac) (entry : Bip6Address)
| DistributeBroadcastToNetwork6 (original_source : Bip6Vmac) (npdu : bytes).
(** [Bvll6Frame] (bacnet-bip-codec/src/ipv6/message.rs) *)
Record Bvll6Frame := { bf6_function : Bvlc6Function; bf6_payload : bytes }.

(** [Bvll6Frame::decode] (bacnet-bip-codec/src/ipv6/message.rs:22-73) *)
Definition bvll6_frame_decode (datagram : bytes) : Result Bvll6Frame Bvll6Error :=
  match datagram with
  | bvlc_type :: function :: high :: low :: payload =>
      if negb (bvlc_type =? BVLC_TYPE_BIP6) then Err (NotBip6 bvlc_type) else
      let declared := from_be16 high low in
      if negb (declared =? Z.of_nat (length datagram))
      then Err (LengthMismatch6 declared (length datagram)) else
      Ok {| bf6_function := function; bf6_payload := payload |}
  | _ => Err (Bvll6TooShort (length datagram))
  end.

(** The field at the front, and the octets after it.
    [Fields::take] (bacnet-bip-codec/src/ipv6/message.rs) *)
Definition fields_take (n : nat) (fields : bytes) : option (bytes * bytes) :=
  if decide (n <= length fields)%nat then Some (take n fields, drop n fields) else None.
(** [Fields::vmac] (bacnet-bip-codec/src/ipv6/message.rs) *)
Definition fields_vmac (fields : bytes) : option (Bip6Vmac * bytes) := fields_take VMAC_LENGTH fields.
(** [Fields::address] (bacnet-bip-codec/src/ipv6/message.rs) *)
Definition fields_address (fields : bytes) : option (Bip6Address * bytes) :=
  '(octets, rest) ← fields_take BIP6_ADDRESS_LENGTH fields; Some (bip6_from_octets octets, rest).
(** [Fields::u16] (bacnet-bip-codec/src/ipv6/message.rs) *)
Definition fields_u16 (fields : bytes) : option (Z * bytes) :=
  '(octets, rest) ← fields_take 2 fields; Some (from_be16 (nth 0 octets 0) (nth 1 octets 0), rest).
(** [Fields::end] (bacnet-bip-codec/src/ipv6/message.rs) *)
Definition fields_end (fields : bytes) (message : Bvll6) : option Bvll6 :=
  match fields with [] => Some message | _ => None end.
(** [read] (bacnet-bip-codec/src/ipv6/message.rs) *)
Definition bvll6_read (function : Bvlc6Function) (payload : bytes) : option Bvll6 :=
  '(source, fields) ← fields_vmac payload;
  if function =? BVLC_RESULT6 then
    '(code, fields) ← fields_u16 fields; fields_end fields (BvlcResult6Msg source code) else
  if function =? ORIGINAL_UNICAST_NPDU6 then
    '(dest, npdu) ← fields_vmac fields; Some (OriginalUnicastNpdu6 source dest npdu) else
  if function =? ORIGINAL_BROADCAST_NPDU6 then Some (OriginalBroadcastNpdu6 source fields) else
  if function =? ADDRESS_RESOLUTION then
    '(target, fields) ← fields_vmac fields; fields_end fields (AddressResolution source target) else
  if function =? FORWARDED_ADDRESS_RESOLUTION then
    '(target, fields) ← fields_vmac fields;
    '(address, fields) ← fields_address fields;
    fields_end fields (ForwardedAddressResolution source target address) else
  if function =? ADDRESS_RESOLUTION_ACK then
    '(dest, fields) ← fields_vmac fields; fields_end fields (AddressResolutionAck source dest) else
  if function =? VIRTUAL_ADDRESS_RESOLUTION then fields_end fields (VirtualAddressResolution source) else
  if function =? VIRTUAL_ADDRESS_RESOLUTION_ACK then
    '(dest, fields) ← fields_vmac fields; fields_end fields (VirtualAddressResolutionAck source dest) else
  if function =? FORWARDED_NPDU6 then
    '(address, npdu) ← fields_address fields; Some (ForwardedNpdu6 source address npdu) else
  if function =? REGISTER_FOREIGN_DEVICE6 then
    '(ttl, fields) ← fields_u16 fields; fields_end fields (RegisterForeignDevice6 source ttl) else
  if function =? DELETE_FOREIGN_DEVICE_TABLE_ENTRY6 then
    '(entry, fields) ← fields_address fields; fields_end fields (DeleteForeignDeviceTableEntry6 source entry) else
  if function =? DISTRIBUTE_BROADCAST_TO_NETWORK6 then Some (DistributeBroadcastToNetwork6 source fields) else
  None.
(** [Bvll6Frame::message] (bacnet-bip-codec/src/ipv6/message.rs) *)
Definition bvll6_message (f : Bvll6Frame) : Result Bvll6 Bvll6Error :=
  match bvll6_read (bf6_function f) (bf6_payload f) with
  | Some message => Ok message
  | None =>
      if function6_is_defined (bf6_function f)
      then Err (PayloadLength6 (bf6_function f) (length (bf6_payload f)))
      else Err (UnknownFunction6 (bf6_function f))
  end.
(** [decode] (bacnet-bip-codec/src/ipv6/message.rs:201-235) *)
Definition bvll6_decode (datagram : bytes) : Result Bvll6 Bvll6Error :=
  let? frame := bvll6_frame_decode datagram in bvll6_message frame.

(** [Bvll6::function] (bacnet-bip-codec/src/ipv6/message.rs) *)
Definition bvll6_function (m : Bvll6) : Bvlc6Function :=
  match m with
  | BvlcResult6Msg _ _ => BVLC_RESULT6
  | OriginalUnicastNpdu6 _ _ _ => ORIGINAL_UNICAST_NPDU6
  | OriginalBroadcastNpdu6 _ _ => ORIGINAL_BROADCAST_NPDU6
  | AddressResolution _ _ => ADDRESS_RESOLUTION
  | ForwardedAddressResolution _ _ _ => FORWARDED_ADDRESS_RESOLUTION
  | AddressResolutionAck _ _ => ADDRESS_RESOLUTION_ACK
  | VirtualAddressResolution _ => VIRTUAL_ADDRESS_RESOLUTION
  | VirtualAddressResolutionAck _ _ => VIRTUAL_ADDRESS_RESOLUTION_ACK
  | ForwardedNpdu6 _ _ _ => FORWARDED_NPDU6
  | RegisterForeignDevice6 _ _ => REGISTER_FOREIGN_DEVICE6
  | DeleteForeignDeviceTableEntry6 _ _ => DELETE_FOREIGN_DEVICE_TABLE_ENTRY6
  | DistributeBroadcastToNetwork6 _ _ => DISTRIBUTE_BROADCAST_TO_NETWORK6
  end.
(** [Bvll6::source_vmac] (bacnet-bip-codec/src/ipv6/message.rs) *)
Definition source_vmac (m : Bvll6) : Bip6Vmac :=
  match m with
  | BvlcResult6Msg s _ | OriginalUnicastNpdu6 s _ _ | OriginalBroadcastNpdu6 s _ | AddressResolution s _
  | AddressResolutionAck s _ | VirtualAddressResolution s | VirtualAddressResolutionAck s _
  | RegisterForeignDevice6 s _ | DeleteForeignDeviceTableEntry6 s _ | ForwardedAddressResolution s _ _
  | ForwardedNpdu6 s _ _ | DistributeBroadcastToNetwork6 s _ => s
  end.
(** [Bvll6::destination_vmac] (bacnet-bip-codec/src/ipv6/message.rs) *)
Definition destination_vmac (m : Bvll6) : option Bip6Vmac :=
  match m with
  | OriginalUnicastNpdu6 _ d _ | AddressResolutionAck _ d | VirtualAddressResolutionAck _ d => Some d
  | _ => None
  end.
(** [Bvll6::npdu] (bacnet-bip-codec/src/ipv6/message.rs) *)
Definition bvll6_npdu (m : Bvll6) : option bytes :=
  match m with
  | OriginalUnicastNpdu6 _ _ npdu | OriginalBroadcastNpdu6 _ npdu | ForwardedNpdu6 _ _ npdu
  | DistributeBroadcastToNetwork6 _ npdu => Some npdu
  | _ => None
  end.
(** [Bvll6::origin] (bacnet-bip-codec/src/ipv6/message.rs) *)
Definition bvll6_origin (m : Bvll6) : option Bip6Address :=
  match m with
  | ForwardedNpdu6 _ a _ | ForwardedAddressResolution _ _ a => Some a
  | _ => None
  end.
(** [Bvll6::payload_length] (bacnet-bip-codec/src/ipv6/message.rs) *)
Definition bvll6_payload_length (m : Bvll6) : nat :=
  let fixed := match payload_shape6 (bvll6_function m) with
               | Some (ShapeFixed n) | Some (ShapeNpdu n) => n
               | Some (ShapeTable _) | None => 0%nat
               end in
  match bvll6_npdu m with Some npdu => (fixed + length npdu)%nat | None => fixed end.
(** [Bvll6::encoded_len] (bacnet-bip-codec/src/ipv6/message.rs) *)
Definition bvll6_encoded_len (m : Bvll6) : Result nat Bvll6Error :=
  let refused :=
    match m with
    | BvlcResult6Msg _ code =>
        if negb (result6_is_defined code) then Some (UndefinedResultCode6 code) else None
    | _ => None
    end in
  match refused with
  | Some e => Err e
  | None =>
      let len := (BVLL_HEADER_LENGTH + bvll6_payload_length m)%nat in
      if MAX_BVLL_LENGTH <? Z.of_nat len then Err (Bvll6TooLong len) else Ok len
  end.
(** The writes after the header and the first VMAC, in order.
    [Bvll6::encode_to_sink] (bacnet-bip-codec/src/ipv6/message.rs:532-570) *)
Definition bvll6_payload_chunks (m : Bvll6) : list bytes :=
  match m with
  | VirtualAddressResolution _ => []
  | BvlcResult6Msg _ code => [to_be16 code]
  | RegisterForeignDevice6 _ ttl => [to_be16 ttl]
  | AddressResolution _ second | AddressResolutionAck _ second | VirtualAddressResolutionAck _ second => [second]
  | ForwardedAddressResolution _ target address => [target; bip6_to_octets address]
  | DeleteForeignDeviceTableEntry6 _ entry => [bip6_to_octets entry]
  | OriginalUnicastNpdu6 _ dest npdu => [dest; npdu]
  | ForwardedNpdu6 _ address npdu => [bip6_to_octets address; npdu]
  | OriginalBroadcastNpdu6 _ npdu | DistributeBroadcastToNetwork6 _ npdu => [npdu]
  end.
(** [Bvll6::encode_to_sink] (bacnet-bip-codec/src/ipv6/message.rs) *)
Definition bvll6_encode_to_sink {S} `{FrameSink S} (m : Bvll6) (sink : S) : S * Result nat Bvll6Error :=
  match bvll6_encoded_len m with
  | Err e => (sink, Err e)
  | Ok len =>
      checked_write Bvll6BufferExhausted len
        (((BVLC_TYPE_BIP6 :: bvll6_function m :: to_be16 (Z.of_nat len)) ++ source_vmac m)
           :: bvll6_payload_chunks m) sink
  end.
(** The buffer after the call, and the result.
    [Bvll6::encode_into] (bacnet-bip-codec/src/ipv6/message.rs) *)
Definition bvll6_encode_into (m : Bvll6) (output : bytes) : bytes * Result nat Bvll6Error :=
  let '(sink, r) := bvll6_encode_to_sink m {| slice_buf := output; slice_pos := 0 |} in
  (slice_buf sink, r).

(** ** Well-formed messages and their wire form *)

Definition wf_vmac (v : Bip6Vmac) : Prop := length v = VMAC_LENGTH /\ wf_bytes v.
Definition wf_bip6 (a : Bip6Address) : Prop := length (ip6 a) = IPV6_LENGTH /\ wf_bytes (ip6 a) /\ is_u16 (port6 a).
Definition wf_bvll6 (m : Bvll6) : Prop :=
  wf_vmac (source_vmac m) /\
  match m with
  | VirtualAddressResolution _ => True
  | BvlcResult6Msg _ n | RegisterForeignDevice6 _ n => is_u16 n
  | AddressResolution _ v | AddressResolutionAck _ v | VirtualAddressResolutionAck _ v => wf_vmac v
  | ForwardedAddressResolution _ v a => wf_vmac v /\ wf_bip6 a
  | DeleteForeignDeviceTableEntry6 _ a => wf_bip6 a
  | OriginalUnicastNpdu6 _ v npdu => wf_vmac v /\ wf_bytes npdu
  | ForwardedNpdu6 _ a npdu => wf_bip6 a /\ wf_bytes npdu
  | OriginalBroadcastNpdu6 _ npdu | DistributeBroadcastToNetwork6 _ npdu => wf_bytes npdu
  end.
Definition bvll6_payload (m : Bvll6) : bytes := source_vmac m ++ concat (bvll6_payload_chunks m).
Definition bvll6_wire (m : Bvll6) : bytes :=
  (BVLC_TYPE_BIP6 :: bvll6_function m ::
     to_be16 (Z.of_nat (BVLL_HEADER_LENGTH + bvll6_payload_length m))) ++ bvll6_payload m.

Lemma fields_take_app n a rest : length a = n -> fields_take n (a ++ rest) = Some (a, rest).
Proof.
  intros <-. unfold fields_take. rewrite decide_True by (rewrite length_app; lia).
  by rewrite take_app_length, drop_app_length.
Qed.
Lemma fields_take_all n a : length a = n -> fields_take n a = Some (a, []).
Proof. intros H. rewrite <-(app_nil_r a) at 1. by apply fields_take_app. Qed.
Lemma fields_take_some n l a rest : fields_take n l = Some (a, rest) -> l = a ++ rest /\ length a = n.
Proof.
  unfold fields_take. case_decide; intros [= <- <-]. rewrite take_drop, length_take. split; [done|lia].
Qed.
Lemma fields_take_none n l : fields_take n l = None -> (length l < n)%nat.
Proof. unfold fields_take. case_decide; [done|]. lia. Qed.
Lemma bip6_to_octets_length a : wf_bip6 a -> length (bip6_to_octets a) = BIP6_ADDRESS_LENGTH.
Proof. intros (H & _). unfold bip6_to_octets. rewrite length_app, H. done. Qed.
Lemma bip6_read_back a : wf_bip6 a -> bip6_from_octets (bip6_to_octets a) = a.
Proof.
  intros (H & _ & Hp). unfold bip6_from_octets, bip6_to_octets. rewrite <-H, take_app_length.
  rewrite !app_nth2 by lia. replace (length (ip6 a) + 1 - length (ip6 a))%nat with 1%nat by lia.
  rewrite Nat.sub_diag. cbn [nth to_be16]. rewrite from_to_be16 by done. by destruct a.
Qed.
Lemma bip6_from_octets_wf o : length o = BIP6_ADDRESS_LENGTH -> wf_bytes o ->
  wf_bip6 (bip6_from_octets o) /\ bip6_to_octets (bip6_from_octets o) = o.
Proof.
  intros Hl Hw. do 18 (destruct o as [|? o]; [done|]). destruct o; [|done].
  repeat match goal with H : Forall _ (_ :: _) |- _ => apply Forall_cons in H as [? ?] end.
  unfold bip6_from_octets, bip6_to_octets, wf_bip6. cbn [ip6 port6 take nth IPV6_LENGTH Nat.add].
  rewrite to_from_be16 by done. split; [|done]. split; [done|].
  split; [repeat (constructor; [done|]); constructor|by apply from_be16_u16].
Qed.
Lemma two_octets o : length o = 2%nat -> wf_bytes o ->
  is_u16 (from_be16 (nth 0 o 0) (nth 1 o 0)) /\ to_be16 (from_be16 (nth 0 o 0) (nth 1 o 0)) = o.
Proof.
  intros Hl Hw. destruct o as [|h [|l []]]; try done. apply Forall_cons in Hw as [? Hw].
  apply Forall_cons in Hw as [? _]. cbn [nth]. split; [by apply from_be16_u16|by apply to_from_be16].
Qed.
Ltac bvlc6_functions :=
  cbv [BVLC_RESULT6 ORIGINAL_UNICAST_NPDU6 ORIGINAL_BROADCAST_NPDU6 ADDRESS_RESOLUTION
    FORWARDED_ADDRESS_RESOLUTION ADDRESS_RESOLUTION_ACK VIRTUAL_ADDRESS_RESOLUTION
    VIRTUAL_ADDRESS_RESOLUTION_ACK FORWARDED_NPDU6 REGISTER_FOREIGN_DEVICE6
    DELETE_FOREIGN_DEVICE_TABLE_ENTRY6 DISTRIBUTE_BROADCAST_TO_NETWORK6].

Lemma length_bvll6_payload m : wf_bvll6 m -> length (bvll6_payload m) = bvll6_payload_length m.
Proof.
  unfold bvll6_payload. intros [[Hv _] Hw]. rewrite length_app, Hv.
  destruct m; cbn [bvll6_payload_chunks concat] in *; rewrite ?app_nil_r, ?length_app;
    repeat match goal with
    | H : _ /\ _ |- _ => destruct H
    | H : wf_vmac _ |- _ => destruct H as [? ?]
    end; rewrite ?bip6_to_octets_length by done;
    unfold bvll6_payload_length; cbn [bvll6_npdu]; bvlc6_functions;
    cbn in *; cbv [VMAC_LENGTH BIP6_ADDRESS_LENGTH] in *; lia.
Qed.
(** The fields of a message read back. *)
Lemma bvll6_read_payload m : wf_bvll6 m -> bvll6_read (bvll6_function m) (bvll6_payload m) = Some m.
Proof.
  intros [[Hv _] Hw]. unfold bvll6_read, bvll6_payload, fields_vmac, fields_address, fields_u16.
  rewrite fields_take_app by done. cbn [mbind option_bind].
  destruct m; cbn [bvll6_function bvll6_payload_chunks source_vmac concat] in *; bvlc6_functions;
    cbn [Z.eqb Pos.eqb]; rewrite ?app_nil_r;
    repeat match goal with
    | H : _ /\ _ |- _ => destruct H
    | H : wf_vmac _ |- _ => destruct H as [? ?]
    end;
    repeat (first [rewrite fields_take_app by (done || by apply bip6_to_octets_length)
                  |rewrite fields_take_all by (done || by apply bip6_to_octets_length)];
            cbn [mbind option_bind]);
    rewrite ?bip6_read_back by done; cbn [nth to_be16]; rewrite ?from_to_be16 by done; done.
Qed.
(** What [read] accepts is the payload of the message it returns; what it refuses has an undefined
    function or a length its shape does not admit. *)
Lemma bvll6_read_spec f p : wf_bytes p ->
  match bvll6_read f p with
  | Some m => wf_bvll6 m /\ bvll6_function m = f /\ bvll6_payload m = p
  | None => match payload_shape6 f with Some shape => admits shape (length p) = false | None => True end
  end.
Proof.
  intros Hw. unfold bvll6_read, fields_vmac, fields_address, fields_u16, payload_shape6. bvlc6_functions.
  destruct (fields_take VMAC_LENGTH p) as [[source rest]|] eqn:Es.
  2:{ apply fields_take_none in Es. cbn [mbind option_bind].
      repeat match goal with |- context [if ?b then _ else _] => destruct b end; try done;
        cbn [admits]; apply bool_decide_eq_false; cbv [VMAC_LENGTH BIP6_ADDRESS_LENGTH] in *; lia. }
  apply fields_take_some in Es as [-> Hs]. apply Forall_app in Hw as [Hw1 Hw2]. cbn [mbind option_bind].
  unfold bvll6_payload, wf_bvll6, wf_vmac.
  repeat match goal with
  | |- context [if ?f =? ?n then _ else _] => destruct (Z.eqb_spec f n) as [->|]; cbn [Z.eqb Pos.eqb orb]
  end; try done;
  repeat match goal with
  | |- context [fields_take ?n ?l] =>
      let E := fresh "E" in destruct (fields_take n l) as [[? ?]|] eqn:E;
      [apply fields_take_some in E as [-> ?];
       match goal with H : Forall _ (_ ++ _) |- _ => apply Forall_app in H as [? ?] end
      |apply fields_take_none in E]; cbn [mbind option_bind]
  end;
  try match goal with |- context [fields_end ?l _] => destruct l as [|? ?]; cbn [fields_end] end;
  try match goal with H : length ?o = 2%nat, Hw : wf_bytes ?o |- _ => destruct (two_octets o H Hw) end;
  try match goal with H : length ?o = BIP6_ADDRESS_LENGTH, Hw : wf_bytes ?o |- _ =>
    destruct (bip6_from_octets_wf o H Hw) end;
  lazymatch goal with
  | |- _ = false =>
      cbn [admits]; apply bool_decide_eq_false; rewrite ?length_app; cbn [length];
      cbv [VMAC_LENGTH BIP6_ADDRESS_LENGTH] in *; lia
  | |- _ =>
      cbn [source_vmac bvll6_payload_chunks concat bvll6_function]; rewrite ?app_nil_r;
      repeat match goal with
      | H : to_be16 (from_be16 _ _) = _ |- _ => rewrite H
      | H : bip6_to_octets (bip6_from_octets _) = _ |- _ => rewrite H
      end; split_and!; done
  end.
Qed.
Lemma shape6_defined f : function6_is_defined f = is_some (payload_shape6 f).
Proof.
  unfold function6_is_defined, code_is_defined, payload_shape6. bvlc6_functions.
  destruct (decide (0 <= f <= 12)) as [Hf|Hf].
  - assert (Hc : f = 0 \/ f = 1 \/ f = 2 \/ f = 3 \/ f = 4 \/ f = 5 \/ f = 6 \/ f = 7 \/ f = 8 \/ f = 9 \/
      f = 10 \/ f = 11 \/ f = 12) by lia.
    by destruct Hc as [->|[->|[->|[->|[->|[->|[->|[->|[->|[->|[->|[->| ->]]]]]]]]]]]].
  - rewrite !(proj2 (Z.eqb_neq f _)) by lia. cbn [orb is_some].
    apply bool_decide_eq_false. intros Hi. repeat (apply elem_of_cons in Hi as [->|Hi]; [lia|]).
    by apply elem_of_nil in Hi.
Qed.
Lemma bvll6_payload_admitted m : wf_bvll6 m ->
  exists shape, payload_shape6 (bvll6_function m) = Some shape /\ admits shape (length (bvll6_payload m)) = true.
Proof.
  intros Hw. rewrite length_bvll6_payload by done.
  destruct m; (eexists; split; [reflexivity|]); cbn [admits]; apply bool_decide_eq_true;
    unfold bvll6_payload_length; cbn; cbv [VMAC_LENGTH BIP6_ADDRESS_LENGTH]; lia.
Qed.

(** Why a datagram is refused. *)
Definition bvll6_refusal (datagram : bytes) : option Bvll6Error :=
  match datagram with
  | bvlc_type :: function :: high :: low :: payload =>
      if negb (bvlc_type =? BVLC_TYPE_BIP6) then Some (NotBip6 bvlc_type) else
      if negb (from_be16 high low =? Z.of_nat (length datagram))
      then Some (LengthMismatch6 (from_be16 high low) (length datagram)) else
      match payload_shape6 function with
      | None => Some (UnknownFunction6 function)
      | Some shape =>
          if admits shape (length payload) then None else Some (PayloadLength6 function (length payload))
      end
  | _ => Some (Bvll6TooShort (length datagram))
  end.

(** A B/IPv6 message that passes the encoder's checks is written, into any buffer with room
    for it, as its wire octets, and is refused without a trace otherwise; what was written decodes to the same
    message. *)
Theorem bvll6_encode_decode m n output : wf_bvll6 m -> bvll6_encoded_len m = Ok n ->
  if decide (length output < n)%nat
  then bvll6_encode_into m output = (output, Err (Bvll6BufferExhausted n (length output)))
  else exists buf, bvll6_encode_into m output = (buf, Ok n) /\ length (bvll6_wire m) = n /\
         take n buf = bvll6_wire m /\ bvll6_decode (take n buf) = Ok m.
Proof.
  intros Hw Hn.
  assert (En : n = (BVLL_HEADER_LENGTH + bvll6_payload_length m)%nat /\ Z.of_nat n <= U16_MAX).
  { unfold bvll6_encoded_len in Hn. destruct (match m with BvlcResult6Msg _ _ => _ | _ => _ end); [done|].
    cbv zeta in Hn. destruct (Z.ltb_spec MAX_BVLL_LENGTH (Z.of_nat (BVLL_HEADER_LENGTH + bvll6_payload_length m)));
      [done|]. injection Hn as <-. done. }
  destruct En as [En Hb]. unfold bvll6_encode_into, bvll6_encode_to_sink. rewrite Hn.
  set (chunks := _ :: bvll6_payload_chunks m). assert (Ec : concat chunks = bvll6_wire m).
  { unfold chunks, bvll6_wire, bvll6_payload. cbn [concat]. by rewrite En, <-app_assoc. }
  assert (Hl : length (bvll6_wire m) = n)
    by (unfold bvll6_wire; rewrite length_app, length_bvll6_payload, En by done; done).
  pose proof (checked_write_slice Bvll6BufferExhausted chunks output) as Hs. cbv zeta in Hs.
  rewrite Ec, Hl in Hs. case_decide as Hd; [by rewrite Hs|].
  destruct (checked_write _ _ _ _) as [s r]. cbn [fst snd] in Hs. destruct Hs as [-> Ht].
  exists (slice_buf s). rewrite Ht. split_and!; try done.
  unfold bvll6_decode, bvll6_wire, to_be16. cbn [app]. unfold bvll6_frame_decode. rewrite Z.eqb_refl. cbn [negb].
  rewrite <-En, from_to_be16 by width. cbn [length]. rewrite length_bvll6_payload by done.
  rewrite (proj2 (Z.eqb_eq _ _)) by (rewrite En; done). cbn [negb rbind].
  unfold bvll6_message. cbn [bf6_function bf6_payload]. by rewrite bvll6_read_payload.
Qed.
Lemma bvll6_encode_decode_witness :
  let m := OriginalUnicastNpdu6 [0; 4; 210] [0; 22; 46] [1; 0; 16; 8] in
  exists buf, bvll6_encode_into m (replicate 20 0) = (buf, Ok 14%nat) /\ bvll6_decode (take 14 buf) = Ok m.
Proof.
  intros m. destruct (bvll6_encode_decode m 14 (replicate 20 0)) as (buf & H1 & _ & _ & H2).
  - repeat split; repeat constructor; width.
  - vm_compute. reflexivity.
  - exists buf. split; assumption.
Defined.

(** Decoding a B/IPv6 datagram is exact: the field-by-field reader refuses just what the header clause and the
    payload shape of the function refuse, with that error, and what it accepts is the wire form
    of the message returned. *)
Theorem bvll6_decode_exact datagram : wf_bytes datagram ->
  match bvll6_refusal datagram with
  | Some e => bvll6_decode datagram = Err e
  | None => exists m, bvll6_decode datagram = Ok m /\ wf_bvll6 m /\ bvll6_wire m = datagram
  end.
Proof.
  intros Hw. unfold bvll6_refusal, bvll6_decode, bvll6_frame_decode.
  destruct datagram as [|ty [|f [|h [|l p]]]]; try done.
  destruct (Z.eqb_spec ty BVLC_TYPE_BIP6) as [->|]; [|done]. cbn [negb].
  destruct (Z.eqb_spec (from_be16 h l) (Z.of_nat (length (BVLC_TYPE_BIP6 :: f :: h :: l :: p)))) as [El|]; [|done].
  cbn [negb rbind]. do 4 (apply Forall_cons in Hw as [? Hw]).
  pose proof (bvll6_read_spec f p Hw) as Hr. unfold bvll6_message. cbn [bf6_function bf6_payload].
  destruct (bvll6_read f p) as [m|].
  - destruct Hr as (Hwm & <- & <-). destruct (bvll6_payload_admitted m Hwm) as (shape & -> & ->).
    exists m. split_and!; [done..|]. unfold bvll6_wire.
    assert (Ef : Z.of_nat (BVLL_HEADER_LENGTH + bvll6_payload_length m) = from_be16 h l).
    { rewrite El. cbn [length]. by rewrite length_bvll6_payload. }
    by rewrite Ef, to_from_be16.
  - rewrite shape6_defined. destruct (payload_shape6 f) as [shape|]; cbn [is_some]; [|done]. by rewrite Hr.
Qed.
Lemma bvll6_decode_exact_witness :
  exists m, bvll6_decode [130; 9; 0; 9; 0; 4; 210; 0; 60] = Ok m /\ bvll6_wire m = [130; 9; 0; 9; 0; 4; 210; 0; 60].
Proof.
  destruct (bvll6_decode_exact [130; 9; 0; 9; 0; 4; 210; 0; 60]) as (m & H1 & _ & H2).
  - repeat constructor; width.
  - exists m. split; assumption.
Defined.
