(* ===== verification/Fdt.v ===== *)
(** * The foreign device table (crate bacnet-bip-core, bbmd/fdt.rs)

    A BBMD's registrations in a fixed array, one per B/IP address, in the order they first
    registered, with their expiry on the caller's clock. The array and its length are modelled as
    they are; what they promise is a finite map from addresses to registrations, and the operations
    refine the map's. *)

From stdpp Require Export gmap.
From S2P Require Import Prelude Time Bvll.

#[export] Instance SocketAddrV4_countable : Countable SocketAddrV4.
Proof.
  refine (inj_countable' (fun a => (sa_ip a, sa_port a)) (fun p => {| sa_ip := p.1; sa_port := p.2 |}) _).
  by intros [].
Defined.

(** [GRACE_PERIOD] (bacnet-bip-core/src/bbmd/fdt.rs:9-11) *)
Definition GRACE_PERIOD : Duration := duration_from_secs 30.
(** [GRACE_WHOLE_SECONDS] (bacnet-bip-core/src/bbmd/fdt.rs:13-14) *)
Definition GRACE_WHOLE_SECONDS : Z := duration_as_secs GRACE_PERIOD.
(** [Registration] (bacnet-bip-core/src/bbmd/fdt.rs) *)
Record Registration := { rg_address : SocketAddrV4; rg_ttl : Z; rg_at : Instant }.
#[global] Instance Registration_eq_dec : EqDecision Registration.
Proof. solve_decision. Defined.
(** [EMPTY_SLOT] (bacnet-bip-core/src/bbmd/fdt.rs:32-37) *)
Definition EMPTY_SLOT : Registration :=
  {| rg_address := {| sa_ip := 0; sa_port := 0 |}; rg_ttl := 0; rg_at := INSTANT_ZERO |}.
(** [Registration::lifetime] (bacnet-bip-core/src/bbmd/fdt.rs) *)
Definition lifetime (r : Registration) : Duration := duration_from_secs (rg_ttl r + GRACE_WHOLE_SECONDS).
(** [Registration::is_expired_at] (bacnet-bip-core/src/bbmd/fdt.rs) *)
Definition is_expired_at (r : Registration) (now : Instant) : bool :=
  lifetime r <? instant_saturating_duration_since now (rg_at r).
(** [Registration::seconds_remaining_at] (bacnet-bip-core/src/bbmd/fdt.rs) *)
Definition seconds_remaining_at (r : Registration) (now : Instant) : Z :=
  let lifetime_secs := rg_ttl r + GRACE_WHOLE_SECONDS in
  let passed := duration_as_secs (instant_saturating_duration_since now (rg_at r)) in
  let left := sat_sub lifetime_secs passed in
  if left <=? U16_MAX then left else U16_MAX.
(** [Registration::wire_entry_at] (bacnet-bip-core/src/bbmd/fdt.rs) *)
Definition wire_entry_at (r : Registration) (now : Instant) : FdtEntry :=
  {| fdt_address := rg_address r; fdt_ttl := rg_ttl r; fdt_remaining := seconds_remaining_at r now |}.

(** [RegistrationLimits] (bacnet-bip-core/src/bbmd/fdt.rs) *)
Record RegistrationLimits := {
  min_ttl : Z; max_ttl : Z; max_entries_per_source : nat; reserved_capacity : nat
}.
(** [RegistrationLimits::DEFAULT] (bacnet-bip-core/src/bbmd/fdt.rs) *)
Definition DEFAULT_LIMITS : RegistrationLimits :=
  {| min_ttl := 1; max_ttl := 3600; max_entries_per_source := 8; reserved_capacity := 0 |}.
(** [Reservation] (bacnet-bip-core/src/bbmd/fdt.rs) *)
Inductive Reservation := Ordinary | Reserved.
(** [Registered] (bacnet-bip-core/src/bbmd/fdt.rs) *)
Inductive Registered := RegisteredNew | RegisteredRenewed.
(** [RegistrationRefusal] (bacnet-bip-core/src/bbmd/fdt.rs) *)
Inductive RegistrationRefusal := RefusedTimeToLive | RefusedNotAdmitted | RefusedSourceQuota | RefusedTableFull.
(** [RegistrationRefusal::result_code] (bacnet-bip-core/src/bbmd/fdt.rs) *)
Definition registration_refusal_code (r : RegistrationRefusal) : BvlcResultCode := REGISTER_FOREIGN_DEVICE_NAK.
(** [RegisterOutcome] (bacnet-bip-core/src/bbmd/fdt.rs) *)
Record RegisterOutcome := { ro_result : Result Registered RegistrationRefusal; ro_purged : nat }.
(** [StorageFull] (bacnet-bip-core/src/bbmd/fdt.rs) *)
Record StorageFull := { sf_needed : nat; sf_available : nat }.

(** The array and the slots in use; [N] is the array's length.
    [Fdt] (bacnet-bip-core/src/bbmd/fdt.rs) *)
Record Fdt := { slots : list Registration; fdt_len : nat }.
(** [Fdt::new] (bacnet-bip-core/src/bbmd/fdt.rs:246-253) *)
Definition fdt_new (N : nat) : Fdt := {| slots := replicate N EMPTY_SLOT; fdt_len := 0 |}.
Definition fdt_capacity (f : Fdt) : nat := length (slots f).
(** [Fdt::registrations] (bacnet-bip-core/src/bbmd/fdt.rs) *)
Definition registrations (f : Fdt) : list Registration := take (fdt_len f) (slots f).
(** [Fdt::live_at] (bacnet-bip-core/src/bbmd/fdt.rs) *)
Definition live_at (f : Fdt) (now : Instant) : list Registration :=
  List.filter (fun r => negb (is_expired_at r now)) (registrations f).
Definition at_address (a : SocketAddrV4) (r : Registration) : bool := bool_decide (rg_address r = a).
(** [Fdt::get] (bacnet-bip-core/src/bbmd/fdt.rs) *)
Definition fdt_get (f : Fdt) (a : SocketAddrV4) : option Registration := List.find (at_address a) (registrations f).
(** [Fdt::is_registered_at] (bacnet-bip-core/src/bbmd/fdt.rs) *)
Definition is_registered_at (f : Fdt) (a : SocketAddrV4) (now : Instant) : bool :=
  match fdt_get f a with Some r => negb (is_expired_at r now) | None => false end.

(** The loop of [retain], from [index] over [n] more slots: the slots and how many are kept.
    [Fdt::retain] (bacnet-bip-core/src/bbmd/fdt.rs) *)
Fixpoint retain_loop (keep : Registration -> bool) (n index : nat) (l : list Registration) (kept : nat)
  : list Registration * nat :=
  match n with
  | O => (l, kept)
  | S n =>
      let r := nth index l EMPTY_SLOT in
      if keep r then retain_loop keep n (S index) (<[kept := r]> l) (S kept)
      else retain_loop keep n (S index) l kept
  end.
(** [Fdt::retain] (bacnet-bip-core/src/bbmd/fdt.rs) *)
Definition fdt_retain (f : Fdt) (keep : Registration -> bool) : Fdt * nat :=
  let '(l, kept) := retain_loop keep (fdt_len f) 0 (slots f) 0 in
  ({| slots := l; fdt_len := kept |}, (fdt_len f - kept)%nat).
(** [Fdt::delete] (bacnet-bip-core/src/bbmd/fdt.rs) *)
Definition fdt_delete (f : Fdt) (a : SocketAddrV4) : Fdt * bool :=
  let '(f, removed) := fdt_retain f (fun r => negb (at_address a r)) in (f, bool_decide (0 < removed)%nat).
(** [Fdt::purge] (bacnet-bip-core/src/bbmd/fdt.rs) *)
Definition fdt_purge (f : Fdt) (now : Instant) : Fdt * nat :=
  fdt_retain f (fun r => negb (is_expired_at r now)).

(** The first slot in use for an address: [iter_mut().find(..)]. *)
Definition slot_of (f : Fdt) (a : SocketAddrV4) : option nat :=
  fst <$> list_find (fun r => rg_address r = a) (registrations f).
(** [admits] is the caller's check, which may keep state of its own: what it leaves is returned, and
    it is asked only once the time-to-live has passed.
    [Fdt::admit_and_store] (bacnet-bip-core/src/bbmd/fdt.rs) *)
Definition admit_and_store {A} (f : Fdt) (source : SocketAddrV4) (ttl : Z) (now : Instant)
  (limits : RegistrationLimits) (reservation : Reservation) (admits : A -> A * bool) (a : A)
  : Fdt * A * Result Registered RegistrationRefusal :=
  if (ttl =? 0) || (ttl <? min_ttl limits) || (max_ttl limits <? ttl)
  then (f, a, Err RefusedTimeToLive) else
  let '(a, admitted) := admits a in
  if negb admitted then (f, a, Err RefusedNotAdmitted) else
  let registration := {| rg_address := source; rg_ttl := ttl; rg_at := now |} in
  match slot_of f source with
  | Some i => ({| slots := <[i := registration]> (slots f); fdt_len := fdt_len f |}, a, Ok RegisteredRenewed)
  | None =>
      let from_source := length (List.filter (fun r => sa_ip (rg_address r) =? sa_ip source) (registrations f)) in
      if bool_decide (max_entries_per_source limits <= from_source)%nat then (f, a, Err RefusedSourceQuota) else
      let limit := match reservation with
                   | Reserved => fdt_capacity f
                   | Ordinary => (fdt_capacity f - reserved_capacity limits)%nat
                   end in
      if bool_decide (limit <= fdt_len f)%nat then (f, a, Err RefusedTableFull) else
      ({| slots := <[fdt_len f := registration]> (slots f); fdt_len := S (fdt_len f) |}, a, Ok RegisteredNew)
  end.
(** [Fdt::register] (bacnet-bip-core/src/bbmd/fdt.rs) *)
Definition fdt_register {A} (f : Fdt) (source : SocketAddrV4) (ttl : Z) (now : Instant)
  (limits : RegistrationLimits) (reservation : Reservation) (admits : A -> A * bool) (a : A)
  : Fdt * A * RegisterOutcome :=
  let '(f, purged) := fdt_purge f now in
  let '(f, a, result) := admit_and_store f source ttl now limits reservation admits a in
  (f, a, {| ro_result := result; ro_purged := purged |}).
(** [Fdt::restore] (bacnet-bip-core/src/bbmd/fdt.rs) *)
Definition fdt_restore (f : Fdt) (r : Registration) : Fdt * Result unit StorageFull :=
  match slot_of f (rg_address r) with
  | Some i => ({| slots := <[i := r]> (slots f); fdt_len := fdt_len f |}, Ok tt)
  | None =>
      if bool_decide (fdt_len f < length (slots f))%nat
      then ({| slots := <[fdt_len f := r]> (slots f); fdt_len := S (fdt_len f) |}, Ok tt)
      else (f, Err {| sf_needed := fdt_len f + 1; sf_available := fdt_capacity f |})
  end.
(** The loop over the live registrations: [room] is [out.len()], [written] how many rows are in.
    [Fdt::wire_entries] (bacnet-bip-core/src/bbmd/fdt.rs:414-438) *)
Fixpoint wire_entries_loop (live : list Registration) (now : Instant) (room : nat) (rows : list FdtEntry)
  : Result (list FdtEntry) StorageFull :=
  match live with
  | [] => Ok rows
  | r :: live =>
      if bool_decide (length rows < room)%nat
      then wire_entries_loop live now room (rows ++ [wire_entry_at r now])
      else Err {| sf_needed := length rows + 1 + length live; sf_available := room |}
  end.
(** [Fdt::wire_entries] (bacnet-bip-core/src/bbmd/fdt.rs) *)
Definition fdt_wire_entries (f : Fdt) (now : Instant) (room : nat) : Result (Entries FdtEntry) StorageFull :=
  let? rows := wire_entries_loop (live_at f now) now room [] in Ok (entries_from_entries rows).

(** ** The table as a finite map *)

Definition addresses (l : list Registration) : list SocketAddrV4 := rg_address <$> l.
Definition amap (l : list Registration) : gmap SocketAddrV4 Registration :=
  list_to_map ((fun r => (rg_address r, r)) <$> l).
Definition fdt_map (f : Fdt) : gmap SocketAddrV4 Registration := amap (registrations f).
(** The slots in use lie within the array, and no two hold the same address. *)
Definition wf_fdt (f : Fdt) : Prop := (fdt_len f <= fdt_capacity f)%nat /\ NoDup (addresses (registrations f)).

Lemma keys_addresses l : ((fun r => (rg_address r, r)) <$> l).*1 = addresses l.
Proof. induction l as [|x l IH]; [done|]. cbn. by rewrite IH. Qed.
Lemma amap_lookup l a r : NoDup (addresses l) -> amap l !! a = Some r <-> r ∈ l /\ rg_address r = a.
Proof.
  intros Hn. unfold amap. rewrite <-elem_of_list_to_map by (by rewrite keys_addresses).
  rewrite list_elem_of_fmap. naive_solver.
Qed.
Lemma amap_lookup_none l a : amap l !! a = None <-> a ∉ addresses l.
Proof. unfold amap. by rewrite <-not_elem_of_list_to_map, keys_addresses. Qed.
Lemma amap_size l : NoDup (addresses l) -> size (amap l) = length l.
Proof. intros Hn. unfold amap. rewrite map_size_list_to_map by (by rewrite keys_addresses). apply length_fmap. Qed.
Lemma addresses_filter p l : NoDup (addresses l) -> NoDup (addresses (List.filter p l)).
Proof.
  induction l as [|x l IH]; [done|]. cbn. intros [Hx Hn]%NoDup_cons. destruct (p x); [|by apply IH].
  cbn. constructor; [|by apply IH]. intros Hi. apply Hx. unfold addresses in *.
  apply list_elem_of_fmap in Hi as (r & E & Hr). apply list_elem_of_fmap. exists r. split; [done|].
  apply list_elem_of_In, filter_In in Hr as [Hr _]. by apply list_elem_of_In.
Qed.
Lemma amap_filter p l : NoDup (addresses l) ->
  amap (List.filter p l) = filter (fun ar => p ar.2 = true) (amap l).
Proof.
  intros Hn. apply map_eq. intros a. apply option_eq. intros r.
  rewrite amap_lookup by (by apply addresses_filter). rewrite map_lookup_filter_Some, amap_lookup by done.
  rewrite !list_elem_of_In, filter_In. cbn. naive_solver.
Qed.
Lemma amap_snoc l r : NoDup (addresses l) -> rg_address r ∉ addresses l ->
  NoDup (addresses (l ++ [r])) /\ amap (l ++ [r]) = <[rg_address r := r]> (amap l).
Proof.
  intros Hn Hr. assert (Hs : NoDup (addresses (l ++ [r]))).
  { unfold addresses. rewrite fmap_app. apply NoDup_app. split_and!; [done| |apply NoDup_singleton].
    intros x Hx ->%list_elem_of_singleton. done. }
  split; [done|]. apply map_eq. intros a. apply option_eq. intros r'.
  rewrite amap_lookup, lookup_insert_Some, amap_lookup, elem_of_app, list_elem_of_singleton by done.
  split; [|naive_solver]. intros [[Hi| ->] <-]; [|by left]. right. split; [|done].
  intros E. apply Hr. rewrite E. by apply list_elem_of_fmap_2.
Qed.
Lemma amap_replace l i r0 r : NoDup (addresses l) -> l !! i = Some r0 -> rg_address r0 = rg_address r ->
  addresses (<[i := r]> l) = addresses l /\ amap (<[i := r]> l) = <[rg_address r := r]> (amap l).
Proof.
  intros Hn Hi E. assert (Ha : addresses (<[i := r]> l) = addresses l).
  { unfold addresses. rewrite list_fmap_insert, <-E. apply list_insert_id. by rewrite list_lookup_fmap, Hi. }
  split; [done|]. apply map_eq. intros a. apply option_eq. intros r'.
  rewrite amap_lookup by (by rewrite Ha). rewrite lookup_insert_Some, amap_lookup by done. split.
  - intros [Hm <-]. apply list_elem_of_lookup in Hm as [j Hj].
    apply list_lookup_insert_Some in Hj as [(-> & <- & _)|[Hne Hj]]; [by left|]. right.
    split; [|split; [by eapply list_elem_of_lookup_2|done]]. intros Heq. apply Hne.
    eapply (NoDup_lookup (addresses l) i j); [done|..]; unfold addresses; rewrite list_lookup_fmap.
    + by rewrite Hi.
    + rewrite Hj. cbn. by rewrite <-Heq, E.
  - intros [[<- <-]|(Hne & Hm & <-)].
    + split; [|done]. eapply (list_elem_of_lookup_2 _ i). apply list_lookup_insert_eq. by eapply lookup_lt_Some.
    + split; [|done]. apply list_elem_of_lookup in Hm as [j Hj]. apply (list_elem_of_lookup_2 _ j).
      rewrite list_lookup_insert_ne; [done|]. intros ->. rewrite Hi in Hj. congruence.
Qed.

(** ** The operations keep their shape *)

Lemma registrations_length f : wf_fdt f -> length (registrations f) = fdt_len f.
Proof. intros [H _]. unfold registrations. rewrite length_take. unfold fdt_capacity in H. lia. Qed.
Lemma retain_loop_spec keep l0 : forall n index l kept,
  (index + n <= length l0)%nat -> (kept <= index)%nat -> length l = length l0 ->
  take kept l = List.filter keep (take index l0) -> drop index l = drop index l0 ->
  let '(l', kept') := retain_loop keep n index l kept in
  take kept' l' = List.filter keep (take (index + n) l0) /\ length l' = length l0 /\ (kept' <= index + n)%nat.
Proof.
  induction n as [|n IH]; intros index l kept Hn Hk Hl Ht Hd; cbn [retain_loop].
  { rewrite Nat.add_0_r. split_and!; [done..|lia]. }
  assert (Hi : l !! index = Some (nth index l EMPTY_SLOT))
    by (destruct (nth_lookup_or_length l index EMPTY_SLOT); [done|lia]).
  set (r := nth index l EMPTY_SLOT) in *.
  assert (Hi0 : l0 !! index = Some r).
  { rewrite <-(Nat.add_0_r index), <-lookup_drop, <-Hd, lookup_drop, Nat.add_0_r. done. }
  assert (Hs : take (S index) l0 = take index l0 ++ [r]) by (by apply take_S_r).
  assert (Hd' : drop (S index) l = drop (S index) l0)
    by (rewrite !(drop_S _ r index) in Hd by done; by injection Hd).
  replace (index + S n)%nat with (S index + n)%nat by lia.
  destruct (keep r) eqn:Ek; apply IH; try lia.
  - by rewrite length_insert.
  - rewrite (take_S_r _ _ r) by (apply list_lookup_insert_eq; lia).
    rewrite take_insert_ge by done. rewrite Hs, List.filter_app, Ht. cbn. by rewrite Ek.
  - by rewrite drop_insert_lt by lia.
  - rewrite Hs, List.filter_app, Ht. cbn. by rewrite Ek, app_nil_r.
  - done.
Qed.
Lemma filter_length_le {A} (p : A -> bool) l : (length (List.filter p l) <= length l)%nat.
Proof. induction l; cbn; [lia|]. destruct (p _); cbn; lia. Qed.
(** [retain] is the filter of the registrations, in order. *)
Lemma fdt_retain_spec f keep : wf_fdt f ->
  let '(f', removed) := fdt_retain f keep in
  registrations f' = List.filter keep (registrations f) /\ wf_fdt f' /\ fdt_capacity f' = fdt_capacity f /\
  removed = (length (registrations f) - length (registrations f'))%nat.
Proof.
  intros Hw. pose proof Hw as [Hl Hn]. unfold fdt_capacity in Hl.
  unfold fdt_retain. pose proof (retain_loop_spec keep (slots f) (fdt_len f) 0 (slots f) 0) as Hs.
  destruct (retain_loop keep (fdt_len f) 0 (slots f) 0) as [l' kept].
  destruct Hs as (Ht & Hll & Hk); [lia|lia|done..|]. cbn [Nat.add] in *.
  assert (Er : registrations {| slots := l'; fdt_len := kept |} = List.filter keep (registrations f)) by done.
  assert (Hkl : length (registrations {| slots := l'; fdt_len := kept |}) = kept)
    by (unfold registrations; cbn; rewrite length_take; lia).
  split_and!; try done.
  - split; [unfold fdt_capacity; cbn; lia|]. rewrite Er. by apply addresses_filter.
  - by rewrite Hkl, registrations_length.
Qed.
Lemma slot_of_spec f a : wf_fdt f ->
  match slot_of f a with
  | Some i => exists r, registrations f !! i = Some r /\ rg_address r = a /\ (i < fdt_len f)%nat
  | None => a ∉ addresses (registrations f)
  end.
Proof.
  intros Hw. unfold slot_of. destruct (list_find _ _) as [[i r]|] eqn:E; cbn.
  - apply list_find_Some in E as (Hi & Ha & _). exists r. split_and!; [done..|].
    apply lookup_lt_Some in Hi. by rewrite registrations_length in Hi.
  - apply list_find_None in E. intros Hi. apply list_elem_of_fmap in Hi as (r & -> & Hr).
    rewrite Forall_forall in E. by apply (E r).
Qed.
(** Writing the slot of an address, or the first free one, is an insertion into the map. *)
Lemma fdt_overwrite f i r0 r : wf_fdt f -> registrations f !! i = Some r0 -> rg_address r0 = rg_address r ->
  let f' := {| slots := <[i := r]> (slots f); fdt_len := fdt_len f |} in
  wf_fdt f' /\ fdt_capacity f' = fdt_capacity f /\ fdt_map f' = <[rg_address r := r]> (fdt_map f).
Proof.
  intros Hw Hi E. pose proof Hw as [Hl Hn]. cbv zeta.
  assert (Hlt : (i < fdt_len f)%nat) by (apply lookup_lt_Some in Hi; by rewrite registrations_length in Hi).
  assert (Er : registrations {| slots := <[i := r]> (slots f); fdt_len := fdt_len f |} = <[i := r]> (registrations f))
    by (unfold registrations; cbn; by rewrite take_insert_lt).
  destruct (amap_replace (registrations f) i r0 r Hn Hi E) as [Ha Hm].
  unfold fdt_map, wf_fdt, fdt_capacity in *. rewrite Er, Ha. cbn. rewrite length_insert. done.
Qed.
Lemma fdt_append f r : wf_fdt f -> rg_address r ∉ addresses (registrations f) -> (fdt_len f < fdt_capacity f)%nat ->
  let f' := {| slots := <[fdt_len f := r]> (slots f); fdt_len := S (fdt_len f) |} in
  wf_fdt f' /\ fdt_capacity f' = fdt_capacity f /\ fdt_map f' = <[rg_address r := r]> (fdt_map f).
Proof.
  intros Hw Hr Hlt. pose proof Hw as [Hl Hn]. cbv zeta.
  assert (Er : registrations {| slots := <[fdt_len f := r]> (slots f); fdt_len := S (fdt_len f) |} = registrations f ++ [r]).
  { unfold registrations, fdt_capacity in *. cbn [slots fdt_len].
    rewrite (take_S_r _ _ r) by (by apply list_lookup_insert_eq). by rewrite take_insert_ge. }
  destruct (amap_snoc (registrations f) r Hn Hr) as [Ha Hm].
  unfold fdt_map, wf_fdt, fdt_capacity in *. rewrite Er. cbn. rewrite length_insert. split_and!; [lia|done..].
Qed.

(** ** What the table promises

    The operations of a BBMD's registrations as a finite map of bounded size. *)

Inductive FdtOp :=
| OpRegister (source : SocketAddrV4) (ttl : Z) (now : Instant) (limits : RegistrationLimits)
    (reservation : Reservation) (admitted : bool)
| OpDelete (a : SocketAddrV4)
| OpPurge (now : Instant)
| OpRestore (r : Registration).
Inductive FdtAnswer :=
| RegisteredAs (o : RegisterOutcome) | Deleted (b : bool) | Purged (n : nat) | Restored (r : Result unit StorageFull).

Definition fdt_step (f : Fdt) (op : FdtOp) : Fdt * FdtAnswer :=
  match op with
  | OpRegister source ttl now limits reservation admitted =>
      let '(f, _, o) := fdt_register f source ttl now limits reservation (fun _ => (tt, admitted)) tt in
      (f, RegisteredAs o)
  | OpDelete a => let '(f, b) := fdt_delete f a in (f, Deleted b)
  | OpPurge now => let '(f, n) := fdt_purge f now in (f, Purged n)
  | OpRestore r => let '(f, e) := fdt_restore f r in (f, Restored e)
  end.

Section Map.
Context (N : nat).
Abbreviation Map := (gmap SocketAddrV4 Registration).
Definition map_live (m : Map) (now : Instant) : Map := filter (fun ar => negb (is_expired_at ar.2 now) = true) m.
Definition map_register (m : Map) (source : SocketAddrV4) (ttl : Z) (now : Instant) (limits : RegistrationLimits)
  (reservation : Reservation) (admitted : bool) : Map * Result Registered RegistrationRefusal :=
  let m' := <[source := {| rg_address := source; rg_ttl := ttl; rg_at := now |}]> m in
  if negb ((0 <? ttl) && (min_ttl limits <=? ttl) && (ttl <=? max_ttl limits)) then (m, Err RefusedTimeToLive) else
  if negb admitted then (m, Err RefusedNotAdmitted) else
  if decide (is_Some (m !! source)) then (m', Ok RegisteredRenewed) else
  let held := size (filter (fun ar => (sa_ip (rg_address ar.2) =? sa_ip source) = true) m) in
  if decide (max_entries_per_source limits <= held)%nat
  then (m, Err RefusedSourceQuota) else
  let room := match reservation with Reserved => N | Ordinary => (N - reserved_capacity limits)%nat end in
  if decide (size m < room)%nat then (m', Ok RegisteredNew) else (m, Err RefusedTableFull).
Definition map_step (m : Map) (op : FdtOp) : Map * FdtAnswer :=
  match op with
  | OpRegister source ttl now limits reservation admitted =>
      let m1 := map_live m now in
      let '(m2, r) := map_register m1 source ttl now limits reservation admitted in
      (m2, RegisteredAs {| ro_result := r; ro_purged := size m - size m1 |})
  | OpDelete a => (delete a m, Deleted (bool_decide (is_Some (m !! a))))
  | OpPurge now => (map_live m now, Purged (size m - size (map_live m now)))
  | OpRestore r =>
      if decide (is_Some (m !! rg_address r) \/ (size m < N)%nat)
      then (<[rg_address r := r]> m, Restored (Ok tt))
      else (m, Restored (Err {| sf_needed := size m + 1; sf_available := N |}))
  end.
End Map.

Lemma fdt_size f : wf_fdt f -> size (fdt_map f) = fdt_len f.
Proof. intros Hw. unfold fdt_map. rewrite amap_size by apply Hw. by apply registrations_length. Qed.
Lemma fdt_get_map f a : wf_fdt f -> fdt_get f a = fdt_map f !! a.
Proof.
  intros [_ Hn]. unfold fdt_get, fdt_map. destruct (List.find _ _) as [r|] eqn:E; symmetry.
  - apply List.find_some in E as [Hi Ha]. apply amap_lookup; [done|]. unfold at_address in Ha.
    apply bool_decide_eq_true in Ha. split; [by apply list_elem_of_In|done].
  - apply amap_lookup_none. intros Hi. apply list_elem_of_fmap in Hi as (r & -> & Hr%list_elem_of_In).
    apply (List.find_none _ _ E) in Hr. unfold at_address in Hr. by rewrite bool_decide_true in Hr.
Qed.
Lemma retain_refines f keep : wf_fdt f -> let '(f', removed) := fdt_retain f keep in
  wf_fdt f' /\ fdt_capacity f' = fdt_capacity f /\
  fdt_map f' = filter (fun ar => keep ar.2 = true) (fdt_map f) /\ removed = (size (fdt_map f) - size (fdt_map f'))%nat.
Proof.
  intros Hw. pose proof (fdt_retain_spec f keep Hw) as Hs. destruct (fdt_retain f keep) as [f' removed].
  destruct Hs as (Er & Hw' & Hc & ->). rewrite !fdt_size, !registrations_length by done. split_and!; try done.
  unfold fdt_map. rewrite Er. apply amap_filter, Hw.
Qed.
Lemma store_refines f source ttl now limits reservation admitted : wf_fdt f -> 0 <= ttl ->
  let '(f', _, r) := admit_and_store f source ttl now limits reservation (fun _ => (tt, admitted)) tt in
  wf_fdt f' /\ fdt_capacity f' = fdt_capacity f /\
  (fdt_map f', r) = map_register (fdt_capacity f) (fdt_map f) source ttl now limits reservation admitted.
Proof.
  intros Hw Ht. unfold admit_and_store, map_register. cbv zeta.
  replace (negb ((0 <? ttl) && (min_ttl limits <=? ttl) && (ttl <=? max_ttl limits))) with
    ((ttl =? 0) || (ttl <? min_ttl limits) || (max_ttl limits <? ttl)) by lia.
  destruct (_ || _ || _); [done|]. destruct (negb admitted); [done|].
  set (r := {| rg_address := source; rg_ttl := ttl; rg_at := now |}).
  pose proof (slot_of_spec f source Hw) as Hs. destruct (slot_of f source) as [i|].
  - destruct Hs as (r0 & Hi & Ha & _). destruct (fdt_overwrite f i r0 r Hw Hi Ha) as (? & ? & Hm).
    rewrite decide_True; [by rewrite Hm|].
    exists r0. unfold fdt_map. apply amap_lookup; [apply Hw|]. split; [by eapply list_elem_of_lookup_2|done].
  - rewrite decide_False by (unfold fdt_map; rewrite (proj2 (amap_lookup_none _ _) Hs); by intros [? ?]).
    rewrite fdt_size by done.
    assert (Hq : size (filter (fun ar => (sa_ip (rg_address ar.2) =? sa_ip source) = true) (fdt_map f)) =
      length (List.filter (fun r => sa_ip (rg_address r) =? sa_ip source) (registrations f))).
    { unfold fdt_map. rewrite <-(amap_filter (fun r => sa_ip (rg_address r) =? sa_ip source)) by apply Hw.
      rewrite amap_size; [done|]. by apply addresses_filter, Hw. }
    rewrite Hq. destruct (decide (max_entries_per_source limits <= _)%nat) as [Hd|Hd];
      [by rewrite bool_decide_true|rewrite bool_decide_false by done].
    set (room := match reservation with Ordinary => _ | Reserved => _ end).
    assert (Hr : (room <= fdt_capacity f)%nat) by (unfold room; destruct reservation; lia).
    destruct (decide (fdt_len f < room)%nat) as [Hf|Hf];
      [rewrite bool_decide_false by lia|by rewrite bool_decide_true by lia].
    destruct (fdt_append f r Hw Hs ltac:(lia)) as (? & ? & Hm). by rewrite Hm.
Qed.

Lemma delete_refines f a : wf_fdt f -> let '(f', b) := fdt_delete f a in
  wf_fdt f' /\ fdt_capacity f' = fdt_capacity f /\
  (fdt_map f', Deleted b) = map_step (fdt_capacity f) (fdt_map f) (OpDelete a).
Proof.
  intros Hw. cbn [map_step].
  unfold fdt_delete. pose proof (retain_refines f (fun r => negb (at_address a r)) Hw) as Hp.
  destruct (fdt_retain f _) as [f1 removed]. destruct Hp as (Hw1 & Hc1 & Hm1 & ->).
  assert (Hd : fdt_map f1 = delete a (fdt_map f)).
  { rewrite Hm1. apply map_eq. intros b. apply option_eq. intros r.
    rewrite map_lookup_filter_Some, lookup_delete_Some. unfold fdt_map. cbn [snd].
    rewrite amap_lookup by apply Hw. unfold at_address. rewrite negb_true_iff, bool_decide_eq_false. naive_solver. }
  split_and!; [done..|]. rewrite Hd. do 2 f_equal. destruct (fdt_map f !! a) as [r|] eqn:E.
  + rewrite map_size_delete_Some by (by rewrite E). assert (size (fdt_map f) <> 0%nat).
    { rewrite map_size_ne_0_lookup. by exists a, r. }
    rewrite !bool_decide_true by (lia || done). done.
  + rewrite delete_id by done. rewrite !bool_decide_false; [done| |lia]. by intros [? ?].
Qed.
Lemma restore_refines f r : wf_fdt f -> let '(f', e) := fdt_restore f r in
  wf_fdt f' /\ fdt_capacity f' = fdt_capacity f /\
  (fdt_map f', Restored e) = map_step (fdt_capacity f) (fdt_map f) (OpRestore r).
Proof.
  intros Hw. cbn [map_step].
  unfold fdt_restore. pose proof (slot_of_spec f (rg_address r) Hw) as Hs. rewrite fdt_size by done.
  destruct (slot_of f _) as [i|].
  + destruct Hs as (r0 & Hi & Ha & _). destruct (fdt_overwrite f i r0 r Hw Hi Ha) as (? & ? & Hm).
    rewrite decide_True; [by rewrite Hm|]. left. exists r0. unfold fdt_map. apply amap_lookup; [apply Hw|].
    split; [by eapply list_elem_of_lookup_2|done].
  + unfold fdt_capacity. destruct (decide (fdt_len f < length (slots f))%nat) as [Hf|Hf].
    * rewrite bool_decide_true by done. destruct (fdt_append f r Hw Hs Hf) as (? & ? & Hm).
      rewrite decide_True by (by right). by rewrite Hm.
    * rewrite bool_decide_false by done. rewrite decide_False; [done|]. intros [[? Hm]|?]; [|done].
      unfold fdt_map in Hm. by rewrite (proj2 (amap_lookup_none _ _) Hs) in Hm.
Qed.

(** The foreign device table is a bounded map from B/IP addresses to registrations. Each operation on the
    array refines the map's: purging and deleting drop just the lapsed and the named registration; a
    registration purges first, and then is refused for its time-to-live, for the caller's check, for a source
    over its quota or for a table without room (an ordinary source leaving the reserved slots), or
    replaces the address's entry, which no limit stops, or adds one. The slots stay within the array with
    one registration per address, and a lookup finds what the map holds. *)
Theorem fdt_refines f op : wf_fdt f -> (forall s t n l r b, op = OpRegister s t n l r b -> 0 <= t) ->
  let '(f', answer) := fdt_step f op in
  wf_fdt f' /\ fdt_capacity f' = fdt_capacity f /\
  (fdt_map f', answer) = map_step (fdt_capacity f) (fdt_map f) op /\
  forall a now, fdt_get f' a = fdt_map f' !! a /\
    is_registered_at f' a now = bool_decide (is_Some (map_live (fdt_map f') now !! a)).
Proof.
  intros Hw Ht. assert (G : let '(f', answer) := fdt_step f op in wf_fdt f' /\ fdt_capacity f' = fdt_capacity f /\
    (fdt_map f', answer) = map_step (fdt_capacity f) (fdt_map f) op).
  { destruct op as [source ttl now limits reservation admitted|a|now|r]; cbn [fdt_step].
    - cbn [map_step]. unfold fdt_register, fdt_purge. pose proof (retain_refines f (fun r => negb (is_expired_at r now)) Hw) as Hp.
      destruct (fdt_retain f _) as [f1 purged]. destruct Hp as (Hw1 & Hc1 & Hm1 & ->).
      pose proof (store_refines f1 source ttl now limits reservation admitted Hw1 (Ht _ _ _ _ _ _ eq_refl)) as Hs.
      destruct (admit_and_store _ _ _ _ _ _ _ _) as [[f2 []] r]. destruct Hs as (Hw2 & Hc2 & Hm2).
      change (map_live (fdt_map f) now) with (filter (fun ar => negb (is_expired_at ar.2 now) = true) (fdt_map f)).
      rewrite <-Hm1, <-Hc1, <-Hm2. split_and!; [done|congruence|done].
    - pose proof (delete_refines f a Hw) as Hs. by destruct (fdt_delete f a).
    - cbn [map_step]. unfold fdt_purge. pose proof (retain_refines f (fun r => negb (is_expired_at r now)) Hw) as Hp.
      destruct (fdt_retain f _) as [f1 purged]. destruct Hp as (Hw1 & Hc1 & Hm1 & ->). unfold map_live. by rewrite <-Hm1.
    - pose proof (restore_refines f r Hw) as Hs. by destruct (fdt_restore f r). }
  destruct (fdt_step f op) as [f' answer]. destruct G as (Hw' & Hc & Hm). split_and!; [done..|].
  intros a now. rewrite <-fdt_get_map by done. split; [done|]. unfold is_registered_at. rewrite fdt_get_map by done.
  unfold map_live. rewrite map_lookup_filter. destruct (fdt_map f' !! a) as [r|]; cbn; [|done].
  by destruct (negb (is_expired_at r now)).
Qed.
Lemma fdt_refines_witness :
  let a := {| sa_ip := ipv4_new 10 0 0 7; sa_port := 47808 |} in
  let op := OpRegister a 60 0 DEFAULT_LIMITS Ordinary true in
  (fdt_map (fdt_step (fdt_new 2) op).1, (fdt_step (fdt_new 2) op).2) = map_step 2 (fdt_map (fdt_new 2)) op.
Proof.
  intros a op. pose proof (fdt_refines (fdt_new 2) op) as H. unfold op in *.
  destruct (fdt_step (fdt_new 2) _) as [f' answer]. apply H.
  - split; [apply (bool_decide_unpack _); vm_compute; exact I|]. constructor.
  - intros s t n l r b [= <- <- <- <- <- <-]. discriminate.
Defined.
