(* ===== verification/Bdt.v ===== *)
(** * The broadcast distribution table (crate bacnet-bip-core, bbmd/bdt.rs and bbmd/nat.rs)

    A BBMD's peers in a fixed array of rows, its own row among them, with the rules a row and a
    table must meet: the address policy of [validate_entry], one mask per address, and, behind a NAT
    router or for a BBMD that serves a multicast group, two-hop masks. *)

From S2P Require Import Prelude Bvll.

(** ** 32-bit words *)

(** [!x] on [u32]. *)
Definition not32 (x : Z) : Z := U32_MAX - x.
(** [u32::count_ones]. *)
Definition count_ones (x : Z) : nat := length (List.filter (fun i => Z.testbit x (Z.of_nat i)) (seq 0 32)).

(** ** Addresses behind a NAT router (nat.rs) *)

(** [MAX_PRIVATE_RANGES] (bacnet-bip-core/src/bbmd/nat.rs:27-28) *)
Definition MAX_PRIVATE_RANGES : nat := 4.
(** [NatError] (bacnet-bip-core/src/bbmd/nat.rs) *)
Inductive NatError := NatPrefix | NatTooManyRanges.
(** [PrivateRange] (bacnet-bip-core/src/bbmd/nat.rs) *)
Record PrivateRange := { pr_network : Ipv4Addr; pr_prefix : Z }.
#[global] Instance PrivateRange_eq_dec : EqDecision PrivateRange.
Proof. solve_decision. Defined.
(** [mask_bits] (bacnet-bip-core/src/bbmd/nat.rs) *)
Definition mask_bits (prefix : Z) : Z :=
  if prefix =? 0 then 0 else Z.shiftl U32_MAX (32 - prefix) mod 2 ^ 32.
(** [PrivateRange::new] (bacnet-bip-core/src/bbmd/nat.rs) *)
Definition private_range_new (network : Ipv4Addr) (prefix : Z) : Result PrivateRange NatError :=
  if 32 <? prefix then Err NatPrefix
  else Ok {| pr_network := Z.land network (mask_bits prefix); pr_prefix := prefix |}.
(** [PrivateRange::contains] (bacnet-bip-core/src/bbmd/nat.rs) *)
Definition range_contains (r : PrivateRange) (ip : Ipv4Addr) : bool :=
  Z.land (Z.lxor ip (pr_network r)) (mask_bits (pr_prefix r)) =? 0.
(** [is_rfc1918] (bacnet-bip-core/src/bbmd/nat.rs) *)
Definition is_rfc1918 (ip : Ipv4Addr) : bool :=
  let a := ip / 16777216 in
  let b := ip / 65536 mod 256 in
  (a =? 10) || ((a =? 172) && (Z.land b 240 =? 16)) || ((a =? 192) && (b =? 168)).
(** The ranges in use: at most four.
    [Nat] (bacnet-bip-core/src/bbmd/nat.rs) *)
Record Nat := { nat_global : SocketAddrV4; nat_ranges : list PrivateRange }.
(** [Nat::new] (bacnet-bip-core/src/bbmd/nat.rs) *)
Definition nat_new (global : SocketAddrV4) : Nat := {| nat_global := global; nat_ranges := [] |}.
(** [Nat::add_private_range] (bacnet-bip-core/src/bbmd/nat.rs) *)
Definition add_private_range (n : Nat) (range : PrivateRange) : Nat * Result unit NatError :=
  if decide (range ∈ nat_ranges n) then (n, Ok tt) else
  if bool_decide (length (nat_ranges n) < MAX_PRIVATE_RANGES)%nat
  then ({| nat_global := nat_global n; nat_ranges := nat_ranges n ++ [range] |}, Ok tt)
  else (n, Err NatTooManyRanges).
(** [Nat::is_private] (bacnet-bip-core/src/bbmd/nat.rs) *)
Definition nat_is_private (n : Nat) (ip : Ipv4Addr) : bool :=
  is_rfc1918 ip || existsb (fun range => range_contains range ip) (nat_ranges n).

(** ** Rows (bdt.rs) *)

#[global] Instance BdtEntry_eq_dec : EqDecision BdtEntry.
Proof. solve_decision. Defined.
(** [TWO_HOP_MASK] (bacnet-bip-core/src/bbmd/bdt.rs:8-12) *)
Definition TWO_HOP_MASK : Ipv4Addr := U32_MAX.
(** [distribution_address] (bacnet-bip-core/src/bbmd/bdt.rs) *)
Definition distribution_address (row : BdtEntry) : SocketAddrV4 :=
  {| sa_ip := Z.lor (sa_ip (bdt_address row)) (not32 (bdt_mask row)); sa_port := sa_port (bdt_address row) |}.
(** [EntryError] (bacnet-bip-core/src/bbmd/bdt.rs) *)
Inductive EntryError :=
| ZeroPort | UnspecifiedAddress | LimitedBroadcastAddress | MulticastAddress | NonContiguousMask | MaskTooWide
| NetworkAddress | DirectedBroadcastAddress | LimitedBroadcastTarget.
(** [BdtError] (bacnet-bip-core/src/bbmd/bdt.rs) *)
Inductive BdtError :=
| BdtInvalid (entry : BdtEntry) (reason : EntryError)
| ConflictingMasks (entry : BdtEntry)
| OneHopBehindNat (entry : BdtEntry)
| OneHopForGroup (entry : BdtEntry)
| NoOwnRow (own : SocketAddrV4)
| BdtCapacity (needed available : nat).
(** [validate_entry] (bacnet-bip-core/src/bbmd/bdt.rs) *)
Definition validate_entry (entry : BdtEntry) : Result unit EntryError :=
  let ip := sa_ip (bdt_address entry) in
  let mask := bdt_mask entry in
  let host := not32 mask in
  let contiguous := Z.land host ((host + 1) mod 2 ^ 32) =? 0 in
  let prefix := count_ones mask in
  let first_octet := Z.shiftr ip 24 in
  if sa_port (bdt_address entry) =? 0 then Err ZeroPort else
  if ip =? 0 then Err UnspecifiedAddress else
  if ip =? U32_MAX then Err LimitedBroadcastAddress else
  if (224 <=? first_octet) && (first_octet <=? 239) then Err MulticastAddress else
  if negb contiguous then Err NonContiguousMask else
  if bool_decide (prefix < 8)%nat then Err MaskTooWide else
  if bool_decide (prefix < 32)%nat && (Z.land ip host =? 0) then Err NetworkAddress else
  if bool_decide (prefix < 32)%nat && (Z.lor ip mask =? U32_MAX) then Err DirectedBroadcastAddress else
  if Z.lor ip host =? U32_MAX then Err LimitedBroadcastTarget else
  Ok tt.

(** [EMPTY_ROW] (bacnet-bip-core/src/bbmd/bdt.rs:14-18) *)
Definition EMPTY_ROW : BdtEntry := {| bdt_address := {| sa_ip := 0; sa_port := 0 |}; bdt_mask := 0 |}.
(** [stored] and [distinct], with the storage and the index of the first distinct row that found no
    room.
    [Canonical] (bacnet-bip-core/src/bbmd/bdt.rs) *)
Record Canonical := { cn_out : list BdtEntry; cn_stored : nat; cn_distinct : nat; cn_overflow : option nat }.
Definition row_at (a : SocketAddrV4) (row : BdtEntry) : bool := bool_decide (bdt_address row = a).
(** The row for an entry's address among those before it.
    [canonical_rows] (bacnet-bip-core/src/bbmd/bdt.rs:244-254) *)
Definition earlier_row (table : list BdtEntry) (index : nat) (st : Canonical) (entry : BdtEntry) : option BdtEntry :=
  let rows := take (cn_stored st) (cn_out st) in
  match cn_overflow st with
  | None => List.find (row_at (bdt_address entry)) rows
  | Some from => List.find (row_at (bdt_address entry)) (rows ++ drop from (take index table))
  end.
(** One round of the loop.
    [canonical_rows] (bacnet-bip-core/src/bbmd/bdt.rs:240-273) *)
Definition canonical_step (table : list BdtEntry) (index : nat) (entry : BdtEntry) (st : Canonical)
  : Result Canonical BdtError :=
  match validate_entry entry with
  | Err reason => Err (BdtInvalid entry reason)
  | Ok _ =>
      match earlier_row table index st entry with
      | Some row => if negb (bdt_mask row =? bdt_mask entry) then Err (ConflictingMasks entry) else Ok st
      | None =>
          let distinct := S (cn_distinct st) in
          if bool_decide (cn_stored st < length (cn_out st))%nat && negb (is_some (cn_overflow st))
          then Ok {| cn_out := <[cn_stored st := entry]> (cn_out st); cn_stored := S (cn_stored st);
                     cn_distinct := distinct; cn_overflow := cn_overflow st |}
          else Ok {| cn_out := cn_out st; cn_stored := cn_stored st; cn_distinct := distinct;
                     cn_overflow := match cn_overflow st with Some from => Some from | None => Some index end |}
      end
  end.
(** [canonical_rows] (bacnet-bip-core/src/bbmd/bdt.rs) *)
Fixpoint canonical_rows_from (table : list BdtEntry) (index : nat) (rest : list BdtEntry) (st : Canonical)
  : Result Canonical BdtError :=
  match rest with
  | [] => Ok st
  | entry :: rest =>
      let? st := canonical_step table index entry st in canonical_rows_from table (S index) rest st
  end.
Definition canonical_rows (table : list BdtEntry) (out : list BdtEntry) : Result Canonical BdtError :=
  canonical_rows_from table 0 table {| cn_out := out; cn_stored := 0; cn_distinct := 0; cn_overflow := None |}.
(** The table is what its iterator yields; the storage after the call, and the result.
    [canonicalize] (bacnet-bip-core/src/bbmd/bdt.rs) *)
Definition canonicalize (table : Entries BdtEntry) (out : list BdtEntry) : Result (list BdtEntry * nat) BdtError :=
  let? found := canonical_rows (entries_iter table) out in
  if bool_decide (cn_stored found < cn_distinct found)%nat
  then Err (BdtCapacity (cn_distinct found) (length out))
  else Ok (cn_out found, cn_stored found).

(** ** The table (bdt.rs) *)

(** [N] is the array's length.
    [Bdt] (bacnet-bip-core/src/bbmd/bdt.rs) *)
Record Bdt := {
  bdt_rows : list BdtEntry; bdt_len : nat; bdt_own : SocketAddrV4; own_row_appended : bool;
  behind_nat : bool; serves_group : bool
}.
#[export] Instance eta_Bdt : Settable Bdt := fun r =>
  {| bdt_rows := bdt_rows r; bdt_len := bdt_len r; bdt_own := bdt_own r; own_row_appended := own_row_appended r;
     behind_nat := behind_nat r; serves_group := serves_group r |}.
Definition bdt_capacity (b : Bdt) : nat := length (bdt_rows b).
(** [Bdt::new] (bacnet-bip-core/src/bbmd/bdt.rs) *)
Definition bdt_new (N : nat) (own : SocketAddrV4) : Bdt :=
  {| bdt_rows := replicate N EMPTY_ROW; bdt_len := 0; bdt_own := own; own_row_appended := false;
     behind_nat := false; serves_group := false |}.
(** [Bdt::with_nat] (bacnet-bip-core/src/bbmd/bdt.rs) *)
Definition with_nat (b : Bdt) (own : SocketAddrV4) (nat : bool) : Bdt :=
  (bdt_new (bdt_capacity b) own) <| behind_nat := nat |> <| serves_group := serves_group b |>.
(** [Bdt::rows] (bacnet-bip-core/src/bbmd/bdt.rs) *)
Definition rows (b : Bdt) : list BdtEntry := take (bdt_len b) (bdt_rows b).
(** [Bdt::entries] (bacnet-bip-core/src/bbmd/bdt.rs) *)
Definition bdt_entries (b : Bdt) : Entries BdtEntry := entries_from_entries (rows b).
(** [Bdt::configured_rows] (bacnet-bip-core/src/bbmd/bdt.rs) *)
Definition configured_rows (b : Bdt) : list BdtEntry :=
  take (bdt_len b - (if own_row_appended b then 1 else 0)) (bdt_rows b).
(** [Bdt::row] (bacnet-bip-core/src/bbmd/bdt.rs) *)
Definition bdt_row (b : Bdt) (a : SocketAddrV4) : option BdtEntry := List.find (row_at a) (rows b).
(** [Bdt::contains] (bacnet-bip-core/src/bbmd/bdt.rs) *)
Definition bdt_contains (b : Bdt) (a : SocketAddrV4) : bool := is_some (bdt_row b a).
(** [Bdt::check_group_row] (bacnet-bip-core/src/bbmd/bdt.rs) *)
Definition check_group_row (own : SocketAddrV4) (l : list BdtEntry) : Result unit BdtError :=
  match List.find (fun row => row_at own row && negb (bdt_mask row =? TWO_HOP_MASK)) l with
  | Some entry => Err (OneHopForGroup entry)
  | None => Ok tt
  end.
(** [Bdt::set_serves_group] (bacnet-bip-core/src/bbmd/bdt.rs) *)
Definition set_serves_group (b : Bdt) (serves : bool) : Bdt * Result unit BdtError :=
  match if serves then check_group_row (bdt_own b) (rows b) else Ok tt with
  | Err e => (b, Err e)
  | Ok _ => (b <| serves_group := serves |>, Ok tt)
  end.
(** The callers have checked that the row fits.
    [Bdt::ensure_own_row] (bacnet-bip-core/src/bbmd/bdt.rs) *)
Definition ensure_own_row (b : Bdt) : Bdt :=
  if bdt_contains b (bdt_own b) then b else
  b <| bdt_rows ::= fun l => <[bdt_len b := {| bdt_address := bdt_own b; bdt_mask := TWO_HOP_MASK |}]> l |>
    <| bdt_len ::= S |> <| own_row_appended := true |>.
(** The table [set] builds, with the checks it makes.
    [Bdt::set] (bacnet-bip-core/src/bbmd/bdt.rs:467-494) *)
Definition bdt_checked (b : Bdt) (table : list BdtEntry) : Result Bdt BdtError :=
  let next := with_nat b (bdt_own b) (behind_nat b) in
  let? found := canonical_rows table (bdt_rows next) in
  let has_own := existsb (row_at (bdt_own b)) table in
  let? _ :=
    if behind_nat b then
      match List.find (fun row => negb (bdt_mask row =? TWO_HOP_MASK)) table with
      | Some entry => Err (OneHopBehindNat entry)
      | None =>
          if negb has_own && bool_decide (0 < cn_distinct found)%nat then Err (NoOwnRow (bdt_own b)) else Ok tt
      end
    else Ok tt in
  let? _ := if serves_group b then check_group_row (bdt_own b) table else Ok tt in
  let needed := (cn_distinct found + (if negb has_own && negb (behind_nat b) then 1 else 0))%nat in
  if bool_decide (bdt_capacity b < needed)%nat then Err (BdtCapacity needed (bdt_capacity b)) else
  let next := next <| bdt_rows := cn_out found |> <| bdt_len := cn_stored found |> in
  Ok (if negb (behind_nat b) then ensure_own_row next else next).
(** [Bdt::set] (bacnet-bip-core/src/bbmd/bdt.rs) *)
Definition bdt_set (b : Bdt) (table : Entries BdtEntry) : Bdt * Result unit BdtError :=
  match bdt_checked b (entries_iter table) with Ok next => (next, Ok tt) | Err e => (b, Err e) end.
(** The rows but the dropped address's, or the whole table when they would not fit the array.
    [Bdt::set_without] (bacnet-bip-core/src/bbmd/bdt.rs:568-577) *)
Definition rows_without (N : nat) (table : list BdtEntry) (dropped : SocketAddrV4) : list BdtEntry :=
  let kept := List.filter (fun row => negb (row_at dropped row)) table in
  if bool_decide (length kept <= N)%nat then kept else table.
(** [Bdt::set_without] (bacnet-bip-core/src/bbmd/bdt.rs) *)
Definition set_without (b : Bdt) (table : Entries BdtEntry) (dropped : option SocketAddrV4)
  : Bdt * Result unit BdtError :=
  match dropped with
  | None => bdt_set b table
  | Some a => bdt_set b (entries_from_entries (rows_without (bdt_capacity b) (entries_iter table) a))
  end.
(** [Bdt::reconfigure] (bacnet-bip-core/src/bbmd/bdt.rs) *)
Definition reconfigure (b : Bdt) (own : SocketAddrV4) (nat : bool) (dropped : option SocketAddrV4)
  : Bdt * Result unit BdtError :=
  if bool_decide (bdt_len b = 0)%nat && negb (behind_nat b)
  then (b <| bdt_own := own |> <| behind_nat := nat |>, Ok tt) else
  match set_without (with_nat b own nat) (entries_from_entries (configured_rows b)) dropped with
  | (next, Ok _) => (next, Ok tt)
  | (_, Err e) => (b, Err e)
  end.
(** [Bdt::set_own_address] (bacnet-bip-core/src/bbmd/bdt.rs) *)
Definition set_own_address (b : Bdt) (own : SocketAddrV4) : Bdt * Result unit BdtError :=
  if decide (own = bdt_own b) then (b, Ok tt) else
  if behind_nat b then reconfigure b own true None else
  let configured := configured_rows b in
  match if serves_group b then check_group_row own configured else Ok tt with
  | Err e => (b, Err e)
  | Ok _ =>
      let has_own := existsb (row_at own) configured in
      let needed := (length configured + (if negb has_own then 1 else 0))%nat in
      if bool_decide (bdt_capacity b < needed)%nat then (b, Err (BdtCapacity needed (bdt_capacity b))) else
      let b := if own_row_appended b then b <| bdt_len ::= Nat.pred |> <| own_row_appended := false |> else b in
      (ensure_own_row (b <| bdt_own := own |>), Ok tt)
  end.

(** ** Masks

    A mask whose host part is [2 ^ k - 1]: a prefix of [32 - k] ones. *)

Lemma land_succ_zero_pos p : Z.land (Z.pos p) (Z.pos p + 1) = 0 -> exists k, 0 <= k /\ Z.pos p = 2 ^ k - 1.
Proof.
  induction p as [p IH|p _|]; intros H.
  - assert (Hl : Z.land (Z.pos p) (Z.pos p + 1) = 0).
    { replace (Z.pos p~1 + 1) with (2 * (Z.pos p + 1)) in H by lia. apply Z.bits_inj'. intros i Hi.
      apply (f_equal (fun z => Z.testbit z (Z.succ i))) in H. rewrite Z.land_spec, Z.testbit_even_succ in H by done.
      change (Z.pos p~1) with (2 * Z.pos p + 1) in H. rewrite Z.testbit_odd_succ in H by done.
      by rewrite Z.land_spec, H, !Z.bits_0. }
    destruct (IH Hl) as (k & Hk & E). exists (k + 1). split; [lia|]. rewrite Z.pow_add_r by lia. lia.
  - exfalso. replace (Z.pos p~0 + 1) with (2 * Z.pos p + 1) in H by lia.
    change (Z.pos p~0) with (2 * Z.pos p) in H.
    assert (Hp : Z.pos p = 0); [|done]. apply Z.bits_inj'. intros i Hi.
    apply (f_equal (fun z => Z.testbit z (Z.succ i))) in H.
    rewrite Z.land_spec, Z.testbit_even_succ, Z.testbit_odd_succ in H by done. rewrite andb_diag in H.
    by rewrite H, !Z.bits_0.
  - exists 1. done.
Qed.
Lemma land_pow2_pred k : 0 <= k -> Z.land (2 ^ k - 1) (2 ^ k) = 0.
Proof.
  intros Hk. apply Z.bits_inj'. intros i Hi. rewrite Z.land_spec, Z.bits_0.
  rewrite Z.sub_1_r, <-Z.ones_equiv. destruct (Z_lt_ge_dec i k).
  - rewrite (Z.pow2_bits_false k i) by lia. apply andb_false_r.
  - by rewrite Z.ones_spec_high by lia.
Qed.
(** The test for contiguous ones. *)
Lemma contiguous_host host : is_u32 host ->
  Z.land host ((host + 1) mod 2 ^ 32) = 0 <-> exists k, 0 <= k <= 32 /\ host = 2 ^ k - 1.
Proof.
  intros Hh. unfold is_u32, U32_MAX in Hh. split.
  - intros H. destruct (decide (host = 2 ^ 32 - 1)) as [->|Hn]; [by exists 32|].
    rewrite Z.mod_small in H by lia. destruct host as [|p|p]; [by exists 0| |lia].
    destruct (land_succ_zero_pos p H) as (k & Hk & E). exists k. split; [|done]. split; [done|].
    destruct (Z_le_gt_dec k 32); [done|]. assert (2 ^ 32 < 2 ^ k) by (apply Z.pow_lt_mono_r; lia). lia.
  - intros (k & Hk & ->). destruct (decide (k = 32)) as [->|Hn]; [done|].
    assert (2 ^ k < 2 ^ 32) by (apply Z.pow_lt_mono_r; lia).
    replace (2 ^ k - 1 + 1) with (2 ^ k) by lia. rewrite Z.mod_small by lia. apply land_pow2_pred. lia.
Qed.
Lemma count_ones_prefix k : 0 <= k <= 32 -> count_ones (2 ^ 32 - 2 ^ k) = (32 - Z.to_nat k)%nat.
Proof.
  intros Hk. assert (H : forallb (fun k => Nat.eqb (count_ones (2 ^ 32 - 2 ^ k)) (32 - Z.to_nat k)) (seqZ 0 33) = true)
    by (vm_compute; reflexivity).
  rewrite forallb_forall in H. apply Nat.eqb_eq, H, list_elem_of_In, elem_of_seqZ. lia.
Qed.
(** Or with a host part fills the host bits, or with a mask the network bits. *)
Lemma lor_host ip k : 0 <= k -> Z.lor ip (2 ^ k - 1) = 2 ^ k * (ip / 2 ^ k) + (2 ^ k - 1).
Proof.
  intros Hk. pose proof (Z.add_lor_land ip (2 ^ k - 1)) as H.
  assert (E : Z.land ip (2 ^ k - 1) = ip mod 2 ^ k) by (by rewrite Z.sub_1_r, <-Z.ones_equiv, Z.land_ones).
  assert (0 < 2 ^ k) by (apply Z.pow_pos_nonneg; lia). pose proof (Z.div_mod ip (2 ^ k)). lia.
Qed.
Lemma land_mask ip k : is_u32 ip -> 0 <= k <= 32 -> Z.land ip (2 ^ 32 - 2 ^ k) = ip - ip mod 2 ^ k.
Proof.
  intros Hi Hk. unfold is_u32, U32_MAX in Hi.
  assert (Em : 2 ^ 32 - 2 ^ k = Z.ldiff (Z.ones 32) (Z.ones k)).
  { rewrite <-Z.sub_nocarry_ldiff.
    - rewrite !Z.ones_equiv. lia.
    - apply Z.bits_inj'. intros i Hii. rewrite Z.ldiff_spec, Z.bits_0. destruct (Z_lt_ge_dec i k).
      + rewrite (Z.ones_spec_low 32) by lia. apply andb_false_r.
      + by rewrite Z.ones_spec_high by lia. }
  assert (E : Z.land ip (2 ^ 32 - 2 ^ k) = Z.ldiff ip (Z.ones k)).
  { rewrite Em. apply Z.bits_inj'. intros i Hii. rewrite Z.land_spec, !Z.ldiff_spec.
    destruct (Z_lt_ge_dec i 32); [by rewrite (Z.ones_spec_low 32) by lia|].
    rewrite (testbit_high ip 32 i) by lia. done. }
  rewrite E, Z.ldiff_ones_r, Z.shiftr_div_pow2, Z.shiftl_mul_pow2 by lia.
  assert (0 < 2 ^ k) by (apply Z.pow_pos_nonneg; lia). pose proof (Z.div_mod ip (2 ^ k)). lia.
Qed.
Lemma lor_mask ip k : is_u32 ip -> 0 <= k <= 32 -> Z.lor ip (2 ^ 32 - 2 ^ k) = 2 ^ 32 - 2 ^ k + ip mod 2 ^ k.
Proof.
  intros Hi Hk. pose proof (Z.add_lor_land ip (2 ^ 32 - 2 ^ k)) as H. rewrite (land_mask ip k Hi Hk) in H. lia.
Qed.

(** ** The rows [validate_entry] accepts *)

(** A unicast host address under a prefix of 8 to 32 bits, neither its subnet's network nor its broadcast
    address, and not in the topmost subnet of its mask. *)
Definition valid_row (e : BdtEntry) : Prop :=
  let ip := sa_ip (bdt_address e) in
  sa_port (bdt_address e) <> 0 /\ 0 < ip < U32_MAX /\ ~ 224 <= ip / 2 ^ 24 <= 239 /\
  exists k, 0 <= k <= 24 /\ bdt_mask e = 2 ^ 32 - 2 ^ k /\
    (k = 0 \/ 0 < ip mod 2 ^ k < 2 ^ k - 1) /\ ip / 2 ^ k < 2 ^ (32 - k) - 1.
Definition wf_bdt_entry (e : BdtEntry) : Prop := wf_sa (bdt_address e) /\ is_u32 (bdt_mask e).

Lemma host_bits ip k : is_u32 ip -> 0 <= k <= 32 ->
  Z.land ip (2 ^ k - 1) = ip mod 2 ^ k /\
  (Z.lor ip (2 ^ 32 - 2 ^ k) = U32_MAX <-> ip mod 2 ^ k = 2 ^ k - 1) /\
  (Z.lor ip (2 ^ k - 1) = U32_MAX <-> ip / 2 ^ k = 2 ^ (32 - k) - 1).
Proof.
  intros Hi Hk. assert (Hp : 2 ^ 32 = 2 ^ k * 2 ^ (32 - k)) by (rewrite <-Z.pow_add_r by lia; f_equal; lia).
  assert (0 < 2 ^ k) by (apply Z.pow_pos_nonneg; lia). split_and!.
  - by rewrite Z.sub_1_r, <-Z.ones_equiv, Z.land_ones by lia.
  - rewrite lor_mask by done. unfold U32_MAX. lia.
  - rewrite lor_host by lia. change U32_MAX with (2 ^ 32 - 1). nia.
Qed.
Lemma validate_entry_iff e : wf_bdt_entry e -> validate_entry e = Ok tt <-> valid_row e.
Proof.
  intros [[Hip Hport] Hmask]. destruct e as [[ip port] mask]. cbn [bdt_address bdt_mask sa_ip sa_port] in *.
  unfold validate_entry, valid_row. cbn [bdt_address bdt_mask sa_ip sa_port].
  rewrite Z.shiftr_div_pow2 by lia. unfold not32.
  destruct (Z.eqb_spec port 0); [naive_solver|]. destruct (Z.eqb_spec ip 0); [naive_solver lia|].
  destruct (Z.eqb_spec ip U32_MAX); [naive_solver lia|].
  destruct ((224 <=? ip / 2 ^ 24) && (ip / 2 ^ 24 <=? 239)) eqn:Hm; [naive_solver lia|].
  assert (Hh : is_u32 (U32_MAX - mask)) by width. pose proof (contiguous_host _ Hh) as Hc.
  destruct (Z.eqb_spec (Z.land (U32_MAX - mask) ((U32_MAX - mask + 1) mod 2 ^ 32)) 0) as [Hz|Hz]; cbn [negb].
  2:{ split; [done|]. intros (_ & _ & _ & k & Hk & Em & _). destruct Hz. apply Hc. exists k.
      split; [lia|]. unfold U32_MAX. lia. }
  apply Hc in Hz as (k & Hk & Eh). assert (Em : mask = 2 ^ 32 - 2 ^ k) by (unfold U32_MAX in Eh; lia).
  rewrite Eh, Em, count_ones_prefix by done. destruct (host_bits ip k Hip Hk) as (E1 & E2 & E3). rewrite E1.
  assert (Hu : forall k', 0 <= k' <= 24 -> mask = 2 ^ 32 - 2 ^ k' -> k' = k).
  { intros k' Hk' E. apply (Z.pow_inj_r 2); lia. }
  assert (0 < 2 ^ k) by (apply Z.pow_pos_nonneg; lia).
  pose proof (Z.mod_pos_bound ip (2 ^ k) ltac:(lia)) as Hmb.
  assert (Hq : ip / 2 ^ k <= 2 ^ (32 - k) - 1).
  { assert (2 ^ 32 = 2 ^ k * 2 ^ (32 - k)) by (rewrite <-Z.pow_add_r by lia; f_equal; lia).
    assert (ip / 2 ^ k < 2 ^ (32 - k)) by (apply Z.div_lt_upper_bound; unfold is_u32, U32_MAX in Hip; lia). lia. }
  case_bool_decide as H8.
  { split; [done|]. intros (_ & _ & _ & k' & Hk' & E & _). rewrite (Hu k' Hk') in Hk' by lia. lia. }
  destruct (bool_decide (32 - Z.to_nat k < 32)%nat && (ip mod 2 ^ k =? 0)) eqn:Hn.
  { split; [done|]. intros (_ & _ & _ & k' & Hk' & E & Hd & _). rewrite (Hu k' Hk') in Hd by lia.
    apply andb_prop in Hn as [Hn%bool_decide_eq_true Hn2%Z.eqb_eq]. lia. }
  destruct (bool_decide (32 - Z.to_nat k < 32)%nat && (Z.lor ip (2 ^ 32 - 2 ^ k) =? U32_MAX)) eqn:Hb.
  { split; [done|]. intros (_ & _ & _ & k' & Hk' & E & Hd & _). rewrite (Hu k' Hk') in Hd by lia.
    apply andb_prop in Hb as [Hb%bool_decide_eq_true Hb2%Z.eqb_eq%E2]. lia. }
  destruct (Z.eqb_spec (Z.lor ip (2 ^ k - 1)) U32_MAX) as [Ht|Ht].
  { split; [done|]. intros (_ & _ & _ & k' & Hk' & E & _ & Hd). rewrite (Hu k' Hk') in Hd by lia.
    apply E3 in Ht. lia. }
  split; [|done]. intros _. split_and!; [done|width|width|lia|]. exists k.
  split_and!; [lia|lia|done| |].
  - destruct (decide (k = 0)) as [->|Hk0]; [by left|]. right.
    apply andb_false_iff in Hn as [Hn%bool_decide_eq_false|Hn%Z.eqb_neq]; [lia|].
    apply andb_false_iff in Hb as [Hb%bool_decide_eq_false|Hb%Z.eqb_neq]; [lia|]. rewrite E2 in Hb. lia.
  - rewrite E3 in Ht. lia.
Qed.

(** The bit tests of [validate_entry] accept exactly the rows of the address policy: a port, a unicast host
    address, a contiguous mask of 8 to 32 ones under which the address is neither the network's nor the
    directed broadcast address, outside the topmost subnet of that mask. The destination of an accepted row is in the row's
    subnet, at its port, and is the directed broadcast address of it, or the peer itself just when the mask
    is all ones; so no accepted row makes a BBMD send to the limited broadcast address or to a
    multicast group. *)
Theorem validate_entry_exact e : wf_bdt_entry e ->
  (validate_entry e = Ok tt <-> valid_row e) /\
  (valid_row e -> let d := distribution_address e in
     sa_port d = sa_port (bdt_address e) /\
     Z.land (sa_ip d) (bdt_mask e) = Z.land (sa_ip (bdt_address e)) (bdt_mask e) /\
     Z.lor (sa_ip d) (bdt_mask e) = U32_MAX /\ (d = bdt_address e <-> bdt_mask e = TWO_HOP_MASK) /\
     0 < sa_ip d < U32_MAX /\ ~ 224 <= sa_ip d / 2 ^ 24 <= 239).
Proof.
  intros Hw. split; [by apply validate_entry_iff|]. destruct Hw as [[Hip Hport] _].
  destruct e as [[ip port] mask]. unfold valid_row, distribution_address.
  cbn [bdt_address bdt_mask sa_ip sa_port] in *. intros (_ & Hr & Hmc & k & Hk & -> & Hd & Ht).
  unfold not32. replace (U32_MAX - (2 ^ 32 - 2 ^ k)) with (2 ^ k - 1) by (unfold U32_MAX; lia).
  assert (Hp : 2 ^ 32 = 2 ^ k * 2 ^ (32 - k)) by (rewrite <-Z.pow_add_r by lia; f_equal; lia).
  assert (Hp24 : 2 ^ 24 = 2 ^ k * 2 ^ (24 - k)) by (rewrite <-Z.pow_add_r by lia; f_equal; lia).
  assert (0 < 2 ^ k) by (apply Z.pow_pos_nonneg; lia). assert (0 < 2 ^ (24 - k)) by (apply Z.pow_pos_nonneg; lia).
  pose proof (Z.div_mod ip (2 ^ k) ltac:(lia)) as Hdm. pose proof (Z.mod_pos_bound ip (2 ^ k) ltac:(lia)) as Hmb.
  set (q := ip / 2 ^ k) in *. pose proof (lor_host ip k ltac:(lia)) as El. fold q in El. rewrite El.
  set (d := 2 ^ k * q + (2 ^ k - 1)).
  assert (Hq : 0 <= q) by (apply Z.div_pos; unfold is_u32 in Hip; lia).
  assert (Hdu : is_u32 d) by (unfold is_u32, d; change U32_MAX with (2 ^ 32 - 1); nia).
  assert (Edk : d mod 2 ^ k = 2 ^ k - 1) by (unfold d; rewrite Z.add_comm, Z.mul_comm, Z.mod_add by lia; apply Z.mod_small; lia).
  assert (Edq : d / 2 ^ 24 = ip / 2 ^ 24).
  { rewrite Hp24, <-!Z.div_div by lia. fold q. f_equal. unfold d.
    rewrite Z.add_comm, Z.mul_comm, Z.div_add by lia. rewrite Z.div_small by lia. lia. }
  split_and!.
  - done.
  - rewrite !land_mask, Edk by (done || lia). unfold d. lia.
  - rewrite lor_mask, Edk by (done || lia). unfold U32_MAX. lia.
  - unfold TWO_HOP_MASK. change U32_MAX with (2 ^ 32 - 1). split; [intros [= E]|intros E].
    + destruct Hd as [->|Hd]; [lia|]. unfold d in E. lia.
    + f_equal. unfold d. nia.
  - unfold d. nia.
  - unfold d. change U32_MAX with (2 ^ 32 - 1). nia.
  - by rewrite Edq.
Qed.
Lemma validate_entry_exact_witness :
  let e := {| bdt_address := {| sa_ip := ipv4_new 10 0 2 1; sa_port := 47808 |}; bdt_mask := ipv4_new 255 255 255 0 |} in
  validate_entry e = Ok tt /\ valid_row e.
Proof.
  intros e. assert (H : wf_bdt_entry e) by (repeat split; vm_compute; discriminate).
  assert (Hv : validate_entry e = Ok tt) by (vm_compute; reflexivity). split; [exact Hv|].
  apply (proj1 (validate_entry_exact e H)). exact Hv.
Defined.

(** ** The canonical rows *)

(** The distinct rows in first-seen order, one at a time. *)
Fixpoint first_rows (seen l : list BdtEntry) : Result (list BdtEntry) BdtError :=
  match l with
  | [] => Ok seen
  | e :: l =>
      match validate_entry e with
      | Err reason => Err (BdtInvalid e reason)
      | Ok _ =>
          match List.find (row_at (bdt_address e)) seen with
          | Some row => if bdt_mask row =? bdt_mask e then first_rows seen l else Err (ConflictingMasks e)
          | None => first_rows (seen ++ [e]) l
          end
      end
  end.
Definition row_addresses (l : list BdtEntry) : list SocketAddrV4 := bdt_address <$> l.

Lemma row_at_true a r : row_at a r = true <-> bdt_address r = a.
Proof. apply bool_decide_eq_true. Qed.
Lemma find_row_some a l r : List.find (row_at a) l = Some r -> r ∈ l /\ bdt_address r = a.
Proof. intros H. apply List.find_some in H as [Hi Ha%row_at_true]. by rewrite list_elem_of_In. Qed.
Lemma find_row_none a l : List.find (row_at a) l = None <-> a ∉ row_addresses l.
Proof.
  split.
  - intros H Hi. apply list_elem_of_fmap in Hi as (r & -> & Hr%list_elem_of_In).
    apply (List.find_none _ _ H) in Hr. by apply not_true_iff_false in Hr as []; apply row_at_true.
  - intros Hi. destruct (List.find _ _) as [r|] eqn:E; [|done]. apply find_row_some in E as [Hr <-].
    destruct Hi. by apply list_elem_of_fmap_2.
Qed.
Lemma row_unique d r r' : NoDup (row_addresses d) -> r ∈ d -> r' ∈ d -> bdt_address r = bdt_address r' -> r = r'.
Proof.
  intros Hn [i Hi]%list_elem_of_lookup [j Hj]%list_elem_of_lookup E.
  assert (i = j); [|congruence]. eapply (NoDup_lookup (row_addresses d)); [done|..];
    unfold row_addresses; rewrite list_lookup_fmap; [by rewrite Hi|by rewrite Hj, E].
Qed.
(** A row is found in any list with the same rows, whatever repeats it has. *)
Lemma find_row_same a l d : NoDup (row_addresses d) -> (forall r, r ∈ l <-> r ∈ d) ->
  List.find (row_at a) l = List.find (row_at a) d.
Proof.
  intros Hn Hs. destruct (List.find (row_at a) d) as [r|] eqn:E.
  - apply find_row_some in E as [Hr Ha]. destruct (List.find (row_at a) l) as [r'|] eqn:E'.
    + apply find_row_some in E' as [Hr' Ha']. f_equal. eapply row_unique; [done| |done|congruence]. by apply Hs.
    + apply find_row_none in E'. destruct E'. rewrite <-Ha. by apply list_elem_of_fmap_2, Hs.
  - apply find_row_none in E. apply find_row_none. intros Hi. apply E.
    apply list_elem_of_fmap in Hi as (r & -> & Hr). by apply list_elem_of_fmap_2, Hs.
Qed.

(** The loop's state after the rows [p], [d] being the distinct ones: what fits is stored, and the rows
    that do not are still in the candidate from the overflow on. *)
Definition canonical_ok (out0 p d : list BdtEntry) (st : Canonical) : Prop :=
  let N := length out0 in
  cn_distinct st = length d /\ cn_stored st = Nat.min (length d) N /\
  cn_out st = take N d ++ drop (length d) out0 /\ NoDup (row_addresses d) /\
  match cn_overflow st with
  | None => (length d <= N)%nat
  | Some from => (N < length d)%nat /\ (from <= length p)%nat /\ forall r, r ∈ take N d ++ drop from p <-> r ∈ d
  end.

Lemma take_stored out0 p d st : canonical_ok out0 p d st -> take (cn_stored st) (cn_out st) = take (length out0) d.
Proof.
  intros (_ & Hs & Ho & _). rewrite Hs, Ho, take_app_length'; [done|]. rewrite length_take. lia.
Qed.
Lemma canonical_length out0 p d st : canonical_ok out0 p d st -> length (cn_out st) = length out0.
Proof. intros (_ & _ & Ho & _). rewrite Ho, length_app, length_take, length_drop. lia. Qed.
Lemma canonical_earlier out0 p rest d st e : canonical_ok out0 p d st ->
  earlier_row (p ++ rest) (length p) st e = List.find (row_at (bdt_address e)) d.
Proof.
  intros H. unfold earlier_row. rewrite (take_stored _ _ _ _ H). destruct H as (_ & _ & _ & Hn & Hv).
  destruct (cn_overflow st) as [from|].
  - destruct Hv as (_ & _ & Hv). rewrite take_app_length. by apply find_row_same.
  - by rewrite take_ge.
Qed.
Lemma row_addresses_snoc d e : NoDup (row_addresses d) -> bdt_address e ∉ row_addresses d ->
  NoDup (row_addresses (d ++ [e])).
Proof.
  intros Hn He. unfold row_addresses. rewrite fmap_app. apply NoDup_app. split_and!; [done| |apply NoDup_singleton].
  intros x Hx ->%list_elem_of_singleton. done.
Qed.
Lemma canonical_step_new out0 p rest d st e : canonical_ok out0 p d st -> validate_entry e = Ok tt ->
  List.find (row_at (bdt_address e)) d = None ->
  exists st', canonical_step (p ++ rest) (length p) e st = Ok st' /\ canonical_ok out0 (p ++ [e]) (d ++ [e]) st'.
Proof.
  intros H Hv Hf. unfold canonical_step. rewrite Hv, (canonical_earlier _ _ _ _ _ _ H), Hf.
  rewrite (canonical_length _ _ _ _ H). pose proof (take_stored _ _ _ _ H) as Ht.
  destruct H as (Hd & Hs & Ho & Hn & Hov). apply find_row_none in Hf.
  pose proof (row_addresses_snoc d e Hn Hf) as Hn'.
  destruct (cn_overflow st) as [from|] eqn:Eo; cbn [is_some negb].
  - rewrite andb_false_r. eexists. split; [done|]. destruct Hov as (Hlt & Hle & Hsame).
    unfold canonical_ok. cbn [cn_distinct cn_stored cn_out cn_overflow]. rewrite !length_app. cbn [length].
    rewrite Hs, Ho, Hd. split_and!; [lia|lia| |done|lia|lia|].
    + rewrite take_app_le by lia. by rewrite !(drop_ge out0) by lia.
    + intros r. rewrite take_app_le, drop_app_le, app_assoc by lia. rewrite elem_of_app, Hsame, <-elem_of_app. done.
  - rewrite andb_true_r. case_bool_decide as Hlt; (eexists; split; [done|]);
      unfold canonical_ok; cbn [cn_distinct cn_stored cn_out cn_overflow]; rewrite !length_app; cbn [length]; rewrite ?Hd, Hs, Ho.
    + assert (Hlt' : (length d < length out0)%nat) by lia. rewrite Nat.min_l by lia.
      split_and!; [lia|lia| |done|lia].
      rewrite (take_ge d) by lia. rewrite (take_ge (d ++ [e])) by (rewrite length_app; cbn; lia).
      rewrite <-(Nat.add_0_r (length d)) at 1. rewrite insert_app_r, <-app_assoc. f_equal.
      destruct (drop (length d) out0) as [|x l] eqn:Ed; [apply (f_equal length) in Ed; rewrite length_drop in Ed; cbn in Ed; lia|].
      cbn. f_equal. replace (length d + 1)%nat with (S (length d)) by lia. rewrite <-Nat.add_1_r, <-drop_drop, Ed. done.
    + assert (Hge : length d = length out0) by lia. split_and!; [lia|lia| |done|lia|lia|].
      * rewrite take_app_le by lia. by rewrite !(drop_ge out0) by lia.
      * intros r. rewrite take_app_le, (take_ge d), drop_app_length by lia. done.
Qed.
(** The bounded loop computes the distinct rows: what fits the storage, and the count of all. *)
Lemma canonical_rows_from_spec out0 : forall rest p d st, canonical_ok out0 p d st -> (forall r, r ∈ p -> r ∈ d) ->
  match first_rows d rest with
  | Err e => canonical_rows_from (p ++ rest) (length p) rest st = Err e
  | Ok d' => exists st', canonical_rows_from (p ++ rest) (length p) rest st = Ok st' /\ canonical_ok out0 (p ++ rest) d' st'
  end.
Proof.
  induction rest as [|e rest IH]; intros p d st H Hp; cbn [first_rows canonical_rows_from].
  { rewrite app_nil_r. by exists st. }
  pose proof (canonical_earlier _ _ (e :: rest) _ _ e H) as He.
  destruct (validate_entry e) as [[]|reason] eqn:Ev; [|unfold canonical_step; by rewrite Ev].
  destruct (List.find _ d) as [row|] eqn:Ef.
  - unfold canonical_step. rewrite Ev, He. apply find_row_some in Ef as [Hr Ha].
    destruct (Z.eqb_spec (bdt_mask row) (bdt_mask e)) as [Em|Em]; [|done]. cbn [negb rbind].
    assert (row = e) as -> by (destruct row, e; cbn in *; congruence).
    specialize (IH (p ++ [e]) d st). rewrite length_app, Nat.add_1_r, <-app_assoc in IH. apply IH.
    + destruct H as (? & ? & ? & ? & Hov). split_and!; [done..|]. destruct (cn_overflow st) as [from|]; [|done].
      destruct Hov as (? & ? & Hs). split_and!; [done|rewrite length_app; lia|]. intros r. rewrite drop_app_le by lia.
      rewrite app_assoc, elem_of_app, Hs, list_elem_of_singleton. naive_solver.
    + intros r [?| ->%list_elem_of_singleton]%elem_of_app; auto.
  - destruct (canonical_step_new out0 p (e :: rest) d st e H Ev Ef) as (st' & Es & H'). rewrite Es. cbn [rbind].
    specialize (IH (p ++ [e]) (d ++ [e]) st' H'). rewrite length_app, Nat.add_1_r, <-app_assoc in IH. apply IH.
    intros r. rewrite !elem_of_app. naive_solver.
Qed.
Lemma canonical_rows_spec table out :
  match first_rows [] table with
  | Err e => canonical_rows table out = Err e
  | Ok d => exists st, canonical_rows table out = Ok st /\ canonical_ok out table d st
  end.
Proof.
  apply (canonical_rows_from_spec out table [] []); [|done].
  unfold canonical_ok. cbn. rewrite take_nil, drop_0. split_and!; [done..|constructor|lia].
Qed.

(** Cleaning a candidate table in bounded storage, where rows past the end of the storage are looked up
    in the candidate itself, is the unbounded pass over the rows in order: the same row is refused, for the same
    reason, even when the storage has run out before it; otherwise the storage holds the distinct rows in
    first-seen order, or all of them are counted in the refusal. *)
Theorem canonicalize_exact table out :
  canonicalize table out =
    match first_rows [] (entries_iter table) with
    | Err e => Err e
    | Ok d => if decide (length out < length d)%nat then Err (BdtCapacity (length d) (length out))
              else Ok (d ++ drop (length d) out, length d)
    end.
Proof.
  unfold canonicalize. pose proof (canonical_rows_spec (entries_iter table) out) as Hs.
  destruct (first_rows [] _) as [d|e]; [|by rewrite Hs]. destruct Hs as (st & -> & Hd & Hst & Ho & _). cbn [rbind].
  rewrite Hd, Hst, Ho. case_decide as Hl.
  - by rewrite bool_decide_true by lia.
  - rewrite bool_decide_false by lia. rewrite Nat.min_l, take_ge by lia. done.
Qed.

(** ** The table's invariant *)

Definition own_row (own : SocketAddrV4) : BdtEntry := {| bdt_address := own; bdt_mask := TWO_HOP_MASK |}.
Definition two_hop (r : BdtEntry) : Prop := bdt_mask r = TWO_HOP_MASK.
Record wf_bdt (b : Bdt) : Prop := {
  bdt_fits : (bdt_len b <= bdt_capacity b)%nat;
  bdt_distinct : NoDup (row_addresses (rows b));
  bdt_valid : Forall (fun r => validate_entry r = Ok tt) (configured_rows b);
  bdt_lists_own : rows b = [] \/ bdt_own b ∈ row_addresses (rows b);
  bdt_appended : own_row_appended b = true ->
    behind_nat b = false /\ rows b = configured_rows b ++ [own_row (bdt_own b)];
  bdt_nat_two_hop : behind_nat b = true -> Forall two_hop (rows b);
  bdt_group_two_hop : serves_group b = true -> forall r, r ∈ rows b -> bdt_address r = bdt_own b -> two_hop r
}.

Lemma first_rows_spec l : forall seen d, first_rows seen l = Ok d ->
  NoDup (row_addresses seen) -> Forall (fun r => validate_entry r = Ok tt) seen ->
  NoDup (row_addresses d) /\ Forall (fun r => validate_entry r = Ok tt) d /\
  forall r, r ∈ d <-> r ∈ seen \/ r ∈ l.
Proof.
  induction l as [|e l IH]; intros seen d H Hn Hv; cbn [first_rows] in H.
  { injection H as <-. split_and!; [done..|]. intros r. rewrite elem_of_nil. tauto. }
  destruct (validate_entry e) as [[]|] eqn:Ev; [|done]. destruct (List.find _ seen) as [row|] eqn:Ef.
  - destruct (Z.eqb_spec (bdt_mask row) (bdt_mask e)) as [Em|]; [|done]. apply find_row_some in Ef as [Hr Ha].
    assert (row = e) as -> by (destruct row, e; cbn in *; congruence).
    destruct (IH _ _ H Hn Hv) as (? & ? & Hs). split_and!; [done..|]. intros r. rewrite Hs, elem_of_cons. naive_solver.
  - apply find_row_none in Ef. destruct (IH _ _ H) as (? & ? & Hs).
    + by apply row_addresses_snoc.
    + apply Forall_app. auto.
    + split_and!; [done..|]. intros r. rewrite Hs, elem_of_app, list_elem_of_singleton, elem_of_cons. tauto.
Qed.
Lemma bdt_contains_iff b a : bdt_contains b a = true <-> a ∈ row_addresses (rows b).
Proof.
  unfold bdt_contains, bdt_row. destruct (List.find _ _) as [r|] eqn:E; cbn.
  - apply find_row_some in E as [Hr <-]. split; [|done]. intros _. by apply list_elem_of_fmap_2.
  - apply find_row_none in E. done.
Qed.
Lemma existsb_row_at a l : existsb (row_at a) l = true <-> a ∈ row_addresses l.
Proof.
  rewrite existsb_exists. unfold row_addresses. rewrite list_elem_of_fmap.
  split; intros (r & H1 & H2); exists r; rewrite row_at_true, list_elem_of_In in *; naive_solver.
Qed.
Lemma check_group_row_ok own l : check_group_row own l = Ok tt <->
  forall r, r ∈ l -> bdt_address r = own -> two_hop r.
Proof.
  unfold check_group_row. destruct (List.find _ l) as [r|] eqn:E.
  - apply List.find_some in E as [Hi [Ha%row_at_true Hm%negb_true_iff%Z.eqb_neq]%andb_prop].
    split; [done|]. intros H. destruct Hm. apply H; [by apply list_elem_of_In|done].
  - split; [|done]. intros _ r Hr%list_elem_of_In Ha. pose proof (List.find_none _ _ E r Hr) as Hf.
    apply andb_false_iff in Hf as [Hf|Hf]; [by apply not_true_iff_false in Hf as []; apply row_at_true|].
    by apply negb_false_iff, Z.eqb_eq in Hf.
Qed.
Lemma length_rows b : (bdt_len b <= bdt_capacity b)%nat -> length (rows b) = bdt_len b.
Proof. unfold rows, bdt_capacity. rewrite length_take. lia. Qed.
(** Adding the own row, where the table has room for it. *)
Lemma ensure_own_row_rows b : ((if negb (bdt_contains b (bdt_own b)) then bdt_len b + 1 else bdt_len b) <= bdt_capacity b)%nat ->
  rows (ensure_own_row b) = rows b ++ (if bdt_contains b (bdt_own b) then [] else [own_row (bdt_own b)]) /\
  bdt_capacity (ensure_own_row b) = bdt_capacity b /\ bdt_own (ensure_own_row b) = bdt_own b /\
  behind_nat (ensure_own_row b) = behind_nat b /\ serves_group (ensure_own_row b) = serves_group b /\
  own_row_appended (ensure_own_row b) = negb (bdt_contains b (bdt_own b)) || own_row_appended b /\
  (bdt_len (ensure_own_row b) <= bdt_capacity b)%nat /\
  (bdt_contains b (bdt_own b) = false -> take (bdt_len b) (bdt_rows (ensure_own_row b)) = rows b /\ bdt_len (ensure_own_row b) = S (bdt_len b)).
Proof.
  intros Hl. unfold ensure_own_row, bdt_capacity in *. destruct (bdt_contains b _); cbn [negb] in *.
  - rewrite app_nil_r. by split_and!.
  - set (b' := b <| bdt_rows ::= _ |> <| bdt_len ::= _ |> <| own_row_appended := _ |>).
    change (bdt_rows b') with (<[bdt_len b := own_row (bdt_own b)]> (bdt_rows b)).
    change (bdt_len b') with (S (bdt_len b)). rewrite length_insert. split_and!; try done; try lia.
    + change (take (S (bdt_len b)) (<[bdt_len b := own_row (bdt_own b)]> (bdt_rows b)) = rows b ++ [own_row (bdt_own b)]).
      rewrite (take_S_r _ _ (own_row (bdt_own b))) by (apply list_lookup_insert_eq; lia).
      by rewrite take_insert_ge.
    + intros _. split; [|done]. by rewrite take_insert_ge.
Qed.
(** A table with no own row of its own making becomes well formed once its own row is ensured. *)
Lemma ensure_own_row_wf b : own_row_appended b = false -> behind_nat b = false ->
  ((if negb (bdt_contains b (bdt_own b)) then bdt_len b + 1 else bdt_len b) <= bdt_capacity b)%nat ->
  NoDup (row_addresses (rows b)) -> Forall (fun r => validate_entry r = Ok tt) (rows b) ->
  (serves_group b = true -> forall r, r ∈ rows b -> bdt_address r = bdt_own b -> two_hop r) ->
  wf_bdt (ensure_own_row b).
Proof.
  intros Ha Hb Hl Hn Hv Hg.
  destruct (ensure_own_row_rows b Hl) as (Er & Ec & Eo & Eb & Eg & Ea & El & Ep).
  rewrite Ha, orb_false_r in Ea. pose proof (bdt_contains_iff b (bdt_own b)) as Hc.
  assert (Hcf : configured_rows (ensure_own_row b) = rows b).
  { unfold configured_rows. rewrite Ea. destruct (bdt_contains b (bdt_own b)) eqn:E; cbn [negb].
    - rewrite Nat.sub_0_r. unfold rows in Er at 1. by rewrite Er, app_nil_r.
    - destruct (Ep eq_refl) as [Et ->]. by replace (S (bdt_len b) - 1)%nat with (bdt_len b) by lia. }
  split.
  - by rewrite Ec.
  - rewrite Er. destruct (bdt_contains b (bdt_own b)) eqn:E; [by rewrite app_nil_r|].
    apply row_addresses_snoc; [done|]. cbn. rewrite <-Hc. done.
  - by rewrite Hcf.
  - right. rewrite Er, Eo. unfold row_addresses. rewrite fmap_app, elem_of_app.
    destruct (bdt_contains b (bdt_own b)); [left; by apply Hc|right; by left].
  - rewrite Ea, Eb, Eo, Hcf, Er. destruct (bdt_contains b (bdt_own b)); done.
  - rewrite Eb, Hb. done.
  - rewrite Eg, Eo, Er. intros Hs r [Hr|Hr]%elem_of_app; [by apply Hg|].
    destruct (bdt_contains b (bdt_own b)); [by apply elem_of_nil in Hr|]. apply list_elem_of_singleton in Hr as ->. done.
Qed.
Lemma bdt_checked_wf b table next : bdt_checked b table = Ok next ->
  wf_bdt next /\ bdt_capacity next = bdt_capacity b /\ bdt_own next = bdt_own b /\
  behind_nat next = behind_nat b /\ serves_group next = serves_group b /\
  (forall r, r ∈ configured_rows next <-> r ∈ table).
Proof.
  unfold bdt_checked. intros H.
  pose proof (canonical_rows_spec table (bdt_rows (with_nat b (bdt_own b) (behind_nat b)))) as Hs.
  destruct (first_rows [] table) as [d|e] eqn:Ef; [|by rewrite Hs in H].
  destruct Hs as (st & Est & Hd & Hst & Ho & Hnd & _). rewrite Est in H. cbn [rbind] in H.
  destruct (first_rows_spec table [] d Ef) as (_ & Hv & Hsame); [constructor|done|].
  assert (Hsame' : forall r, r ∈ d <-> r ∈ table) by (intros r; rewrite Hsame, elem_of_nil; tauto).
  assert (Hcap : length (bdt_rows (with_nat b (bdt_own b) (behind_nat b))) = bdt_capacity b)
    by (apply length_replicate).
  rewrite Hcap in *. rewrite Hd in H.
  assert (Hadr : forall a, existsb (row_at a) table = true <-> a ∈ row_addresses d).
  { intros a. rewrite existsb_row_at. unfold row_addresses. rewrite !list_elem_of_fmap. naive_solver. }
  set (next0 := (with_nat b (bdt_own b) (behind_nat b)) <| bdt_rows := cn_out st |> <| bdt_len := cn_stored st |>) in H.
  destruct (if behind_nat b then _ else Ok tt) as [[]|] eqn:Hnat; cbn [rbind] in H; [|done].
  destruct (if serves_group b then _ else Ok tt) as [[]|] eqn:Hgrp; cbn [rbind] in H; [|done].
  case_bool_decide as Hfit; [done|]. injection H as <-.
  assert (Hld : (length d <= bdt_capacity b)%nat) by lia.
  assert (E0 : rows next0 = d).
  { unfold rows, next0. cbn. rewrite Hst, Ho, Nat.min_l, (take_ge d) by lia. apply take_app_length. }
  assert (El0 : bdt_len next0 = length d) by (unfold next0; cbn; lia).
  assert (Ec0 : bdt_capacity next0 = bdt_capacity b).
  { unfold bdt_capacity at 1, next0. cbn. rewrite Ho, length_app, length_take, length_drop, Hcap. lia. }
  assert (Hg0 : serves_group b = true -> forall r, r ∈ rows next0 -> bdt_address r = bdt_own b -> two_hop r).
  { intros Hs. rewrite Hs in Hgrp. intros r Hr. rewrite E0 in Hr. by apply check_group_row_ok with (1 := Hgrp), Hsame'. }
  assert (Hf0 : configured_rows next0 = d) by (unfold configured_rows, next0; cbn; rewrite Nat.sub_0_r; exact E0).
  destruct (behind_nat b) eqn:Eb; cbn [negb] in *.
  - destruct (List.find _ table) as [r|] eqn:Ew; [done|]. split_and!; try done; [|by rewrite Hf0].
    assert (Hown : d = [] \/ bdt_own b ∈ row_addresses d).
    { destruct (existsb (row_at (bdt_own b)) table) eqn:Eo; [right; by apply Hadr|]. left. cbn [negb andb] in Hnat.
      case_bool_decide as Hp; [done|]. destruct d; [done|cbn in Hp; lia]. }
    split; try (rewrite ?E0, ?Hf0; done).
    + rewrite El0, Ec0. done.
    + intros _. rewrite E0. apply Forall_forall. intros r Hr. apply Hsame', list_elem_of_In in Hr.
      pose proof (List.find_none _ _ Ew r Hr) as Hm. by apply negb_false_iff, Z.eqb_eq in Hm.
    + exact Hg0.
  - assert (Hc : bdt_contains next0 (bdt_own next0) = existsb (row_at (bdt_own b)) table).
    { change (bdt_own next0) with (bdt_own b). apply eq_true_iff_eq. rewrite bdt_contains_iff, E0. symmetry. apply Hadr. }
    assert (Hl : ((if negb (bdt_contains next0 (bdt_own next0)) then bdt_len next0 + 1 else bdt_len next0) <= bdt_capacity next0)%nat).
    { rewrite Hc, El0, Ec0. destruct (existsb _ _); cbn [negb andb] in *; lia. }
    destruct (ensure_own_row_rows next0 Hl) as (Er & Ec & Eo & Ebb & Eg & Ea & _ & Ep).
    split_and!; [|by rewrite Ec|done..|].
    + apply ensure_own_row_wf; try done; rewrite E0; done.
    + unfold configured_rows. rewrite Ea. destruct (bdt_contains next0 (bdt_own next0)) eqn:Ecn; cbn [negb orb].
      * change (own_row_appended next0) with false. rewrite Nat.sub_0_r. unfold rows in Er at 1. rewrite Er, app_nil_r, E0. done.
      * destruct (Ep eq_refl) as [Et ->]. replace (S (bdt_len next0) - 1)%nat with (bdt_len next0) by lia.
        rewrite Et, E0. done.
Qed.
Lemma bdt_set_wf b table : wf_bdt b -> wf_bdt (bdt_set b table).1.
Proof.
  intros Hw. unfold bdt_set. destruct (bdt_checked b _) as [next|] eqn:E; [|done]. by apply bdt_checked_wf in E as [? _].
Qed.
Lemma set_without_wf b table dropped b' : set_without b table dropped = (b', Ok tt) ->
  wf_bdt b' /\ bdt_capacity b' = bdt_capacity b /\ bdt_own b' = bdt_own b /\ behind_nat b' = behind_nat b /\
  serves_group b' = serves_group b.
Proof.
  unfold set_without, bdt_set. intros H.
  destruct dropped as [a|]; destruct (bdt_checked b _) as [next|] eqn:E; try done; injection H as <-;
    apply bdt_checked_wf in E; naive_solver.
Qed.
Lemma set_serves_group_wf b serves : wf_bdt b -> wf_bdt (set_serves_group b serves).1.
Proof.
  intros Hw. unfold set_serves_group. destruct (if serves then _ else _) as [[]|] eqn:E; [|done].
  destruct Hw as [H1 H2 H3 H4 H5 H6 H7]. split; try done. cbn. intros ->. by apply check_group_row_ok.
Qed.
Lemma reconfigure_wf b own nat dropped : wf_bdt b -> wf_bdt (reconfigure b own nat dropped).1.
Proof.
  intros Hw. unfold reconfigure. destruct (bool_decide _ && _) eqn:E.
  - apply andb_prop in E as [E%bool_decide_eq_true Eb%negb_true_iff]. destruct Hw as [H1 H2 H3 H4 H5 H6 H7].
    cbn [fst]. set (b' := b <| bdt_own := own |> <| behind_nat := nat |>).
    assert (Er : rows b' = []) by (unfold rows, b'; cbn; by rewrite E).
    assert (Ea : own_row_appended b = false).
    { destruct (own_row_appended b) eqn:Ea; [|done]. destruct (H5 eq_refl) as [_ Hr].
      apply (f_equal length) in Hr. rewrite length_rows, E, length_app in Hr by done. cbn [length] in Hr. lia. }
    split; rewrite ?Er.
    + exact H1.
    + constructor.
    + exact H3.
    + by left.
    + change (own_row_appended b') with (own_row_appended b). by rewrite Ea.
    + done.
    + intros _ r Hr. by apply elem_of_nil in Hr.
  - destruct (set_without _ _ _) as [next [[]|]] eqn:Es; [|done]. by apply set_without_wf in Es as [? _].
Qed.
Lemma set_own_address_wf b own : wf_bdt b -> wf_bdt (set_own_address b own).1.
Proof.
  intros Hw. unfold set_own_address. case_decide; [done|]. destruct (behind_nat b) eqn:Eb; [by apply reconfigure_wf|].
  destruct (if serves_group b then _ else _) as [[]|] eqn:Eg; [|done]. case_bool_decide as Hfit; [done|]. cbn [fst].
  set (b1 := if own_row_appended b then _ else b). set (b2 := b1 <| bdt_own := own |>).
  destruct Hw as [H1 H2 H3 H4 H5 H6 H7].
  assert (Hb1 : rows b1 = configured_rows b /\ own_row_appended b1 = false /\ behind_nat b1 = false /\
    bdt_capacity b1 = bdt_capacity b /\ serves_group b1 = serves_group b /\ bdt_len b1 = length (configured_rows b)).
  { unfold b1, configured_rows, bdt_capacity, rows in *. destruct (own_row_appended b) eqn:Ea; cbn.
    - rewrite length_take. replace (Nat.pred (bdt_len b)) with (bdt_len b - 1)%nat by lia. split_and!; (done || lia).
    - rewrite Nat.sub_0_r, length_take. split_and!; (done || lia). }
  destruct Hb1 as (Er & Ea & Ebn & Ec & Es & El).
  assert (Hc : bdt_contains b2 own = existsb (row_at own) (configured_rows b)).
  { apply eq_true_iff_eq. rewrite bdt_contains_iff, existsb_row_at. change (rows b2) with (rows b1). by rewrite Er. }
  apply ensure_own_row_wf; try done.
  - change (bdt_own b2) with own. change (bdt_len b2) with (bdt_len b1). change (bdt_capacity b2) with (bdt_capacity b1).
    rewrite Hc, El, Ec. destruct (existsb _ _); cbn [negb] in *; lia.
  - change (rows b2) with (rows b1). rewrite Er. destruct (own_row_appended b) eqn:Eao.
    + destruct (H5 eq_refl) as [_ Hr]. rewrite Hr in H2. unfold row_addresses in H2. rewrite fmap_app in H2.
      by apply NoDup_app in H2 as [? _].
    + unfold configured_rows. rewrite Eao, Nat.sub_0_r. exact H2.
  - change (rows b2) with (rows b1). by rewrite Er.
  - change (serves_group b2) with (serves_group b1). change (rows b2) with (rows b1). change (bdt_own b2) with own.
    rewrite Es, Er. intros Hs. rewrite Hs in Eg. by apply check_group_row_ok.
Qed.
Lemma bdt_new_wf N own : wf_bdt (bdt_new N own).
Proof.
  split; cbn; try done.
  - lia.
  - constructor.
  - by left.
Qed.
