(* ===== verification/Bbmd.v ===== *)
(** * A BBMD's decisions (crate bacnet-bip-core, bbmd/forward.rs, bbmd/serve.rs and subnet.rs)

    The two tables together: running behind a NAT router or not, where each broadcast goes (written into
    the caller's storage, with its fanout budget), and the management requests answered from the
    tables under the host's rules. *)

From S2P Require Import Prelude Time Bvll Fdt Bdt.
Open Scope Z_scope.

(** ** The subnet and how a datagram came (subnet.rs, arrival.rs) *)

(** [Arrival] (bacnet-bip-core/src/arrival.rs) *)
Inductive Arrival := ArrivedUnicast | ArrivedBroadcast.
#[global] Instance Arrival_eq_dec : EqDecision Arrival.
Proof. solve_decision. Defined.
(** [LocalSubnet] (bacnet-bip-core/src/subnet.rs) *)
Record LocalSubnet := {
  ls_broadcast : SocketAddrV4; ls_mask : option Ipv4Addr; ls_alone : bool; ls_directed : option Ipv4Addr
}.
(** [LocalSubnet::new] (bacnet-bip-core/src/subnet.rs:56-66) *)
Definition local_subnet_new (broadcast : SocketAddrV4) : LocalSubnet :=
  {| ls_broadcast := broadcast; ls_mask := None; ls_alone := false; ls_directed := None |}.
(** [LocalSubnet::member] (bacnet-bip-core/src/subnet.rs) *)
Definition local_subnet_member (group : SocketAddrV4) (directed : option Ipv4Addr) : LocalSubnet :=
  {| ls_broadcast := group; ls_mask := None; ls_alone := false; ls_directed := directed |}.
(** [Ipv4Addr::is_multicast]. *)
Definition is_multicast (ip : Ipv4Addr) : bool := (224 <=? ip / 2 ^ 24) && (ip / 2 ^ 24 <=? 239).
(** [LocalSubnet::is_group] (bacnet-bip-core/src/subnet.rs) *)
Definition is_group (s : LocalSubnet) : bool := is_multicast (sa_ip (ls_broadcast s)).

(** ** Destinations (forward.rs) *)

(** [Via] (bacnet-bip-core/src/bbmd/forward.rs) *)
Inductive Via := LocalBroadcast | Peer | ForeignDevice.
#[global] Instance Via_eq_dec : EqDecision Via.
Proof. solve_decision. Defined.
(** [Target] (bacnet-bip-core/src/bbmd/forward.rs) *)
Record Target := { tg_destination : SocketAddrV4; tg_via : Via }.
(** [Context] (bacnet-bip-core/src/bbmd/forward.rs) *)
Record Context_ := { cx_now : Instant; cx_fdt_fanout : nat }.
(** [Fanout] (bacnet-bip-core/src/bbmd/forward.rs) *)
Record Fanout := { fo_targets : list Target; fo_deduplicated : nat; fo_capped : bool; fo_dropped : nat }.
(** [Distribution] (bacnet-bip-core/src/bbmd/forward.rs) *)
Record Distribution := { di_origin : SocketAddrV4; di_npdu : bytes; di_fanout : Fanout }.
(** [Distribution::message] (bacnet-bip-core/src/bbmd/forward.rs) *)
Definition distribution_message (d : Distribution) : Bvll := ForwardedNpdu (di_origin d) (di_npdu d).
(** [Distribution::transmissions] (bacnet-bip-core/src/bbmd/forward.rs) *)
Definition transmissions (d : Distribution) : list (SocketAddrV4 * Bvll) :=
  map (fun t => (tg_destination t, distribution_message d)) (fo_targets (di_fanout d)).
(** [ForwardRefusal] (bacnet-bip-core/src/bbmd/forward.rs) *)
Inductive ForwardRefusal := NotFromPeer | OwnEcho.
(** [ForwardRefusal::result_code] (bacnet-bip-core/src/bbmd/forward.rs:136-143) *)
Definition forward_refusal_code (r : ForwardRefusal) : option BvlcResultCode := None.
(** [DistributeRefusal] (bacnet-bip-core/src/bbmd/forward.rs) *)
Inductive DistributeRefusal := NotRegistered.
(** [DistributeRefusal::result_code] (bacnet-bip-core/src/bbmd/forward.rs:167-174) *)
Definition distribute_refusal_code (r : DistributeRefusal) : BvlcResultCode := DISTRIBUTE_BROADCAST_TO_NETWORK_NAK.

(** The targets written so far, at the front of storage with room for [wr_room].
    [Writer] (bacnet-bip-core/src/bbmd/forward.rs) *)
Record Writer := {
  wr_room : nat; wr_out : list Target; wr_peers_start : nat; wr_peers_end : nat; wr_deduplicated : nat;
  wr_capped : bool; wr_dropped : nat
}.
#[export] Instance eta_Writer : Settable Writer := fun r =>
  {| wr_room := wr_room r; wr_out := wr_out r; wr_peers_start := wr_peers_start r; wr_peers_end := wr_peers_end r;
     wr_deduplicated := wr_deduplicated r; wr_capped := wr_capped r; wr_dropped := wr_dropped r |}.
(** [Writer::new] (bacnet-bip-core/src/bbmd/forward.rs:534-544) *)
Definition writer_new (room : nat) : Writer :=
  {| wr_room := room; wr_out := []; wr_peers_start := 0; wr_peers_end := 0; wr_deduplicated := 0;
     wr_capped := false; wr_dropped := 0 |}.
(** [Writer::push] (bacnet-bip-core/src/bbmd/forward.rs) *)
Definition writer_push (w : Writer) (d : SocketAddrV4) (via : Via) : Writer :=
  if bool_decide (length (wr_out w) < wr_room w)%nat
  then w <| wr_out ::= fun l => l ++ [{| tg_destination := d; tg_via := via |}] |>
  else w <| wr_dropped ::= S |>.
(** [Writer::push_local] (bacnet-bip-core/src/bbmd/forward.rs) *)
Definition push_local (w : Writer) (d : SocketAddrV4) : Writer :=
  let w := writer_push w d LocalBroadcast in
  w <| wr_peers_start := length (wr_out w) |> <| wr_peers_end := length (wr_out w) |>.
Definition goes_to (d : SocketAddrV4) (t : Target) : bool := bool_decide (tg_destination t = d).
(** [Writer::push_unique] (bacnet-bip-core/src/bbmd/forward.rs) *)
Definition push_unique (w : Writer) (d : SocketAddrV4) (via : Via) : Writer :=
  if existsb (goes_to d) (drop (wr_peers_start w) (wr_out w)) then w <| wr_deduplicated ::= S |>
  else writer_push w d via.
(** [Writer::is_peer_target] (bacnet-bip-core/src/bbmd/forward.rs) *)
Definition is_peer_target (w : Writer) (d : SocketAddrV4) : bool :=
  existsb (goes_to d) (drop (wr_peers_start w) (take (wr_peers_end w) (wr_out w))).
(** [Writer::finish] (bacnet-bip-core/src/bbmd/forward.rs) *)
Definition writer_finish (w : Writer) : Fanout :=
  {| fo_targets := wr_out w; fo_deduplicated := wr_deduplicated w; fo_capped := wr_capped w;
     fo_dropped := wr_dropped w |}.

(** ** The tables (forward.rs) *)

(** [Tables] (bacnet-bip-core/src/bbmd/forward.rs) *)
Record Tables := { tb_bdt : Bdt; tb_fdt : Fdt; tb_nat : option Nat }.
#[export] Instance eta_Tables : Settable Tables := fun r =>
  {| tb_bdt := tb_bdt r; tb_fdt := tb_fdt r; tb_nat := tb_nat r |}.
(** [Tables::MAX_TARGETS] (bacnet-bip-core/src/bbmd/forward.rs:204-206) *)
Definition MAX_TARGETS (t : Tables) : nat := bdt_capacity (tb_bdt t) + fdt_capacity (tb_fdt t) + 1.
(** [Tables::new] (bacnet-bip-core/src/bbmd/forward.rs:208-216) *)
Definition tables_new (B F : nat) (own : SocketAddrV4) : Tables :=
  {| tb_bdt := bdt_new B own; tb_fdt := fdt_new F; tb_nat := None |}.
(** [Tables::own_address_for] (bacnet-bip-core/src/bbmd/forward.rs) *)
Definition own_address_for (nat : option Nat) (local : SocketAddrV4) : Result SocketAddrV4 BdtError :=
  match nat with
  | Some n =>
      let entry := own_row (nat_global n) in
      let? _ := map_err (BdtInvalid entry) (validate_entry entry) in Ok (nat_global n)
  | None => Ok local
  end.
(** [Tables::leaving_nat] (bacnet-bip-core/src/bbmd/forward.rs) *)
Definition leaving_nat (t : Tables) (nat : option Nat) : option SocketAddrV4 :=
  match tb_nat t, nat with Some old, None => Some (nat_global old) | _, _ => None end.
(** [Tables::set_nat] (bacnet-bip-core/src/bbmd/forward.rs) *)
Definition set_nat (t : Tables) (nat : option Nat) (local : SocketAddrV4) : Tables * Result unit BdtError :=
  match own_address_for nat local with
  | Err e => (t, Err e)
  | Ok own =>
      match reconfigure (tb_bdt t) own (is_some nat) (leaving_nat t nat) with
      | (b, Ok _) => (t <| tb_bdt := b |> <| tb_nat := nat |>, Ok tt)
      | (b, Err e) => (t <| tb_bdt := b |>, Err e)
      end
  end.
(** [Tables::set_nat_and_bdt] (bacnet-bip-core/src/bbmd/forward.rs) *)
Definition set_nat_and_bdt (t : Tables) (nat : option Nat) (local : SocketAddrV4) (table : Entries BdtEntry)
  : Tables * Result unit BdtError :=
  match own_address_for nat local with
  | Err e => (t, Err e)
  | Ok own =>
      match set_without (with_nat (tb_bdt t) own (is_some nat)) table (leaving_nat t nat) with
      | (b, Ok _) => (t <| tb_bdt := b |> <| tb_nat := nat |>, Ok tt)
      | (_, Err e) => (t, Err e)
      end
  end.
(** [Tables::origin_for] (bacnet-bip-core/src/bbmd/forward.rs) *)
Definition origin_for (t : Tables) (source : SocketAddrV4) (private : Nat -> bool) : SocketAddrV4 :=
  match tb_nat t with Some n => if private n then nat_global n else source | None => source end.

(** [Tables::peer_targets] (bacnet-bip-core/src/bbmd/forward.rs) *)
Definition peer_targets (t : Tables) (w : Writer) (exclude : SocketAddrV4) : Writer :=
  let own := bdt_own (tb_bdt t) in
  let w := fold_left (fun w row =>
    if row_at own row || row_at exclude row then w
    else push_unique w (distribution_address row) Peer) (rows (tb_bdt t)) w in
  w <| wr_peers_end := length (wr_out w) |>.
(** The loop over the live registrations, [sent] of them counted so far.
    [Tables::foreign_device_targets_into] (bacnet-bip-core/src/bbmd/forward.rs:498-516) *)
Fixpoint fd_targets_loop (live : list Registration) (w : Writer) (exclude : SocketAddrV4) (fanout sent : nat) : Writer :=
  match live with
  | [] => w
  | r :: live =>
      if at_address exclude r then fd_targets_loop live w exclude fanout sent else
      if is_peer_target w (rg_address r)
      then fd_targets_loop live (w <| wr_deduplicated ::= S |>) exclude fanout sent else
      if bool_decide (fanout <= sent)%nat then w <| wr_capped := true |> else
      fd_targets_loop live (writer_push w (rg_address r) ForeignDevice) exclude fanout (S sent)
  end.
(** [Tables::foreign_device_targets_into] (bacnet-bip-core/src/bbmd/forward.rs) *)
Definition foreign_device_targets_into (t : Tables) (w : Writer) (cx : Context_) (exclude : SocketAddrV4) : Writer :=
  fd_targets_loop (live_at (tb_fdt t) (cx_now cx)) w exclude (cx_fdt_fanout cx) 0.
(** [Tables::broadcast_targets] (bacnet-bip-core/src/bbmd/forward.rs) *)
Definition broadcast_targets (t : Tables) (cx : Context_) (exclude : SocketAddrV4) (room : nat) : Fanout :=
  writer_finish (foreign_device_targets_into t (peer_targets t (writer_new room) exclude) cx exclude).
(** [Tables::foreign_device_targets] (bacnet-bip-core/src/bbmd/forward.rs) *)
Definition foreign_device_targets (t : Tables) (cx : Context_) (exclude : SocketAddrV4) (room : nat) : Fanout :=
  writer_finish (foreign_device_targets_into t (writer_new room) cx exclude).
(** [Tables::original_broadcast] (bacnet-bip-core/src/bbmd/forward.rs) *)
Definition original_broadcast (t : Tables) (cx : Context_) (source : SocketAddrV4) (npdu : bytes) (room : nat) : Distribution :=
  {| di_origin := origin_for t source (fun _ => true); di_npdu := npdu;
     di_fanout := broadcast_targets t cx source room |}.
(** [Tables::own_broadcast] (bacnet-bip-core/src/bbmd/forward.rs) *)
Definition own_broadcast (t : Tables) (cx : Context_) (npdu : bytes) (room : nat) : Distribution :=
  original_broadcast t cx (bdt_own (tb_bdt t)) npdu room.
(** [Tables::rebroadcasts_forwarded] (bacnet-bip-core/src/bbmd/forward.rs) *)
Definition rebroadcasts_forwarded (t : Tables) (subnet_mask : option Ipv4Addr) (sender : SocketAddrV4) (arrival : Arrival) : bool :=
  let own := bdt_own (tb_bdt t) in
  let peers_send_here :=
    match bdt_row (tb_bdt t) own with Some row => bdt_mask row =? TWO_HOP_MASK | None => true end in
  let sender_on_subnet :=
    negb (is_some (tb_nat t)) && (sa_port sender =? sa_port own) &&
    match subnet_mask with
    | Some mask => Z.land (Z.lxor (sa_ip sender) (sa_ip own)) mask =? 0
    | None => false
    end in
  peers_send_here && bool_decide (arrival = ArrivedUnicast) && negb sender_on_subnet.
(** [Tables::forwarded_npdu] (bacnet-bip-core/src/bbmd/forward.rs) *)
Definition forwarded_npdu (t : Tables) (cx : Context_) (subnet : LocalSubnet) (sender : SocketAddrV4) (arrival : Arrival)
  (origin : SocketAddrV4) (room : nat) : Result Fanout ForwardRefusal :=
  if decide (sender = bdt_own (tb_bdt t)) then Err OwnEcho else
  if negb (bdt_contains (tb_bdt t) sender) then Err NotFromPeer else
  let w := writer_new room in
  let mask := if is_group subnet then None else ls_mask subnet in
  let w := if negb (ls_alone subnet) && rebroadcasts_forwarded t mask sender arrival
           then push_local w (ls_broadcast subnet) else w in
  Ok (writer_finish (foreign_device_targets_into t w cx origin)).
(** [Tables::distribute_broadcast] (bacnet-bip-core/src/bbmd/forward.rs) *)
Definition distribute_broadcast (t : Tables) (cx : Context_) (subnet : LocalSubnet) (sender : SocketAddrV4) (npdu : bytes)
  (room : nat) : Result Distribution DistributeRefusal :=
  if negb (is_registered_at (tb_fdt t) sender (cx_now cx)) then Err NotRegistered else
  let w := writer_new room in
  let w := if negb (ls_alone subnet) then push_local w (ls_broadcast subnet) else w in
  let w := peer_targets t w sender in
  let w := foreign_device_targets_into t w cx sender in
  Ok {| di_origin := origin_for t sender (fun n => nat_is_private n (sa_ip sender)); di_npdu := npdu;
        di_fanout := writer_finish w |}.

(** ** Management requests (serve.rs) *)

(** [Request] (bacnet-bip-core/src/bbmd/serve.rs) *)
Inductive Request :=
| ReqRegister (sender : SocketAddrV4) (ttl : Z) | ReqReadBdt (sender : SocketAddrV4) | ReqReadFdt (sender : SocketAddrV4)
| ReqDeleteFdtEntry (sender entry : SocketAddrV4).
(** [Request::sender] (bacnet-bip-core/src/bbmd/serve.rs) *)
Definition request_sender (r : Request) : SocketAddrV4 :=
  match r with ReqRegister s _ | ReqReadBdt s | ReqReadFdt s | ReqDeleteFdtEntry s _ => s end.
(** The host's rules, with the state they keep.
    [Rules] (bacnet-bip-core/src/bbmd/serve.rs) *)
Class Rules (R : Type) := {
  registration_limits : R -> R * RegistrationLimits;
  reservation_of : R -> SocketAddrV4 -> R * Reservation;
  admit_registration : R -> SocketAddrV4 -> Instant -> R * bool;
  admit_delete : R -> SocketAddrV4 -> SocketAddrV4 -> R * bool
}.
(** The trait's defaults.
    [Rules for Permissive] (bacnet-bip-core/src/bbmd/serve.rs:65-103) *)
#[export] Instance permissive_rules : Rules unit := {|
  registration_limits r := (r, DEFAULT_LIMITS); reservation_of r _ := (r, Ordinary);
  admit_registration r _ _ := (r, true); admit_delete r _ _ := (r, true)
|}.
(** [DeleteRefusal] (bacnet-bip-core/src/bbmd/serve.rs) *)
Inductive DeleteRefusal := DeleteNotRegistered | DeleteNotAdmitted.
(** [DeleteRefusal::result_code] (bacnet-bip-core/src/bbmd/serve.rs) *)
Definition delete_refusal_code (r : DeleteRefusal) : BvlcResultCode := DELETE_FOREIGN_DEVICE_TABLE_ENTRY_NAK.
(** [Served] (bacnet-bip-core/src/bbmd/serve.rs) *)
Inductive Served :=
| ServedRegister (o : RegisterOutcome) | ServedReadBdt | ServedReadFdt (r : Result nat StorageFull)
| ServedDelete (r : Result unit DeleteRefusal).
(** [Answer] (bacnet-bip-core/src/bbmd/serve.rs) *)
Record BbmdAnswer := { an_to : SocketAddrV4; an_message : Bvll; an_served : Served }.
(** [result] (bacnet-bip-core/src/bbmd/serve.rs) *)
Definition answer_result (to : SocketAddrV4) (code : BvlcResultCode) (served : Served) : BbmdAnswer :=
  {| an_to := to; an_message := BvlcResultMsg code; an_served := served |}.
(** [room] is [rows.len()].
    [Tables::serve] (bacnet-bip-core/src/bbmd/serve.rs) *)
Definition serve {R} `{Rules R} (t : Tables) (request : Request) (now : Instant) (rules : R) (room : nat)
  : Tables * R * BbmdAnswer :=
  match request with
  | ReqRegister sender ttl =>
      let '(rules, limits) := registration_limits rules in
      let '(rules, reservation) := reservation_of rules sender in
      let '(f, rules, outcome) :=
        fdt_register (tb_fdt t) sender ttl now limits reservation
          (fun rules => admit_registration rules sender now) rules in
      let code := match ro_result outcome with
                  | Ok _ => SUCCESSFUL_COMPLETION
                  | Err refusal => registration_refusal_code refusal
                  end in
      (t <| tb_fdt := f |>, rules, answer_result sender code (ServedRegister outcome))
  | ReqReadBdt sender =>
      (t, rules, {| an_to := sender; an_message := ReadBroadcastDistributionTableAck (bdt_entries (tb_bdt t));
                    an_served := ServedReadBdt |})
  | ReqReadFdt sender =>
      match fdt_wire_entries (tb_fdt t) now room with
      | Ok entries =>
          (t, rules, {| an_to := sender; an_message := ReadForeignDeviceTableAck entries;
                        an_served := ServedReadFdt (Ok (entries_len entries)) |})
      | Err full =>
          (t, rules, answer_result sender READ_FOREIGN_DEVICE_TABLE_NAK (ServedReadFdt (Err full)))
      end
  | ReqDeleteFdtEntry sender entry =>
      let '(rules, admitted) := admit_delete rules sender entry in
      let '(f, deleted) :=
        if admitted then
          let live := is_registered_at (tb_fdt t) entry now in
          ((fdt_delete (tb_fdt t) entry).1, if live then Ok tt else Err DeleteNotRegistered)
        else (tb_fdt t, Err DeleteNotAdmitted) in
      let code := match deleted with
                  | Ok _ => SUCCESSFUL_COMPLETION
                  | Err refusal => delete_refusal_code refusal
                  end in
      (t <| tb_fdt := f |>, rules, answer_result sender code (ServedDelete deleted))
  end.

(** ** The tables' invariant *)

Create HintDb bbmd.
Definition wf_tables (t : Tables) : Prop :=
  wf_bdt (tb_bdt t) /\ wf_fdt (tb_fdt t) /\ behind_nat (tb_bdt t) = is_some (tb_nat t).

Inductive TablesOp {R : Type} :=
| TSet (table : Entries BdtEntry) | TServesGroup (b : bool) | TOwnAddress (own : SocketAddrV4)
| TNat (nat : option Nat) (local : SocketAddrV4)
| TNatAndBdt (nat : option Nat) (local : SocketAddrV4) (table : Entries BdtEntry)
| TServe (request : Request) (now : Instant) (rules : R) (room : nat)
| TRestore (r : Registration) | TPurge (now : Instant) | TDelete (a : SocketAddrV4).
Arguments TablesOp : clear implicits.
Definition tables_step {R} `{Rules R} (t : Tables) (op : TablesOp R) : Tables :=
  match op with
  | TSet table => t <| tb_bdt := (bdt_set (tb_bdt t) table).1 |>
  | TServesGroup b => t <| tb_bdt := (set_serves_group (tb_bdt t) b).1 |>
  | TOwnAddress own => t <| tb_bdt := (set_own_address (tb_bdt t) own).1 |>
  | TNat nat local => (set_nat t nat local).1
  | TNatAndBdt nat local table => (set_nat_and_bdt t nat local table).1
  | TServe request now rules room => (serve t request now rules room).1.1
  | TRestore r => t <| tb_fdt := (fdt_restore (tb_fdt t) r).1 |>
  | TPurge now => t <| tb_fdt := (fdt_purge (tb_fdt t) now).1 |>
  | TDelete a => t <| tb_fdt := (fdt_delete (tb_fdt t) a).1 |>
  end.
(** A request's time-to-live is a [u16]. *)
Definition op_wf {R} (op : TablesOp R) : Prop :=
  match op with TServe (ReqRegister _ ttl) _ _ _ => is_u16 ttl | _ => True end.
Inductive tables_reachable {R} `{Rules R} : Tables -> Prop :=
| tables_built B F own : tables_reachable (tables_new B F own)
| tables_stepped t op : tables_reachable t -> op_wf op -> tables_reachable (tables_step t op).

Lemma admit_and_store_bool {A} f source ttl now limits reservation (admits : A -> A * bool) a :
  let '(f1, _, r1) := admit_and_store f source ttl now limits reservation admits a in
  let '(f2, _, r2) := admit_and_store f source ttl now limits reservation (fun _ => (tt, (admits a).2)) tt in
  f1 = f2 /\ r1 = r2.
Proof.
  unfold admit_and_store. destruct (_ || _ || _); [done|]. destruct (admits a) as [a' [|]]; cbn [snd negb]; [|done].
  destruct (slot_of f source); [done|]. do 2 (case_bool_decide; [done|]). done.
Qed.
Lemma fdt_register_refines {A} f source ttl now limits reservation (admits : A -> A * bool) a : wf_fdt f -> 0 <= ttl ->
  let '(f', _, o) := fdt_register f source ttl now limits reservation admits a in
  wf_fdt f' /\ fdt_capacity f' = fdt_capacity f /\
  (fdt_map f', ro_result o) =
    map_register (fdt_capacity f) (map_live (fdt_map f) now) source ttl now limits reservation (admits a).2.
Proof.
  intros Hw Ht. unfold fdt_register, fdt_purge.
  pose proof (retain_refines f (fun r => negb (is_expired_at r now)) Hw) as Hp.
  destruct (fdt_retain f _) as [f1 purged]. destruct Hp as (Hw1 & Hc1 & Hm1 & _).
  pose proof (admit_and_store_bool f1 source ttl now limits reservation admits a) as Hb.
  pose proof (store_refines f1 source ttl now limits reservation (admits a).2 Hw1 Ht) as Hs.
  destruct (admit_and_store f1 source ttl now limits reservation (fun _ => _) tt) as [[f2 u] r2].
  destruct (admit_and_store f1 source ttl now limits reservation admits a) as [[f3 a'] r3].
  destruct Hb as [-> ->]. destruct Hs as (Hw2 & Hc2 & Hm2). cbn [ro_result].
  rewrite Hm1, Hc1 in Hm2. split_and!; [done|congruence|done].
Qed.
Lemma set_own_address_nat b own : behind_nat (set_own_address b own).1 = behind_nat b.
Proof.
  unfold set_own_address. case_decide; [done|]. destruct (behind_nat b) eqn:Eb.
  - unfold reconfigure. destruct (bool_decide _ && _) eqn:E; [done|].
    destruct (set_without _ _ _) as [next [[]|]] eqn:Es; [|done].
    apply set_without_wf in Es as (_ & _ & _ & Hn & _). done.
  - destruct (if serves_group b then _ else _) as [[]|]; [|done]. case_bool_decide; [done|]. cbn [fst].
    unfold ensure_own_row. by destruct (bdt_contains _ _), (own_row_appended b).
Qed.
Lemma bdt_set_nat b table : behind_nat (bdt_set b table).1 = behind_nat b.
Proof.
  unfold bdt_set. destruct (bdt_checked b _) as [next|] eqn:E; [|done].
  by apply bdt_checked_wf in E as (_ & _ & _ & ? & _).
Qed.
Lemma reconfigure_nat b own nat dropped : match reconfigure b own nat dropped with
  | (b', Ok _) => behind_nat b' = nat | (b', Err _) => b' = b end.
Proof.
  unfold reconfigure. destruct (bool_decide _ && _); [done|].
  destruct (set_without _ _ _) as [next [[]|]] eqn:Es; [|done]. by apply set_without_wf in Es as (_ & _ & _ & ? & _).
Qed.
Lemma serve_fdt {R} `{Rules R} t request now (rules : R) room : wf_fdt (tb_fdt t) ->
  op_wf (TServe request now rules room) ->
  let t' := (serve t request now rules room).1.1 in
  wf_fdt (tb_fdt t') /\ tb_bdt t' = tb_bdt t /\ tb_nat t' = tb_nat t.
Proof.
  intros Hf Hop. destruct request as [sender ttl|sender|sender|sender entry]; cbn [serve op_wf] in *; cbv zeta.
  - destruct (registration_limits rules) as [r1 limits]. destruct (reservation_of r1 sender) as [r2 reservation].
    pose proof (fdt_register_refines (tb_fdt t) sender ttl now limits reservation
      (fun rules => admit_registration rules sender now) r2 Hf ltac:(width)) as Hs.
    destruct (fdt_register _ _ _ _ _ _ _ _) as [[f r3] o]. by destruct Hs.
  - done.
  - by destruct (fdt_wire_entries _ _ _).
  - destruct (admit_delete rules sender entry) as [r1 [|]]; [|done]. cbn.
    pose proof (delete_refines (tb_fdt t) entry Hf) as Hd. destruct (fdt_delete _ _) as [f b]. by destruct Hd.
Qed.

Lemma tables_new_wf B F own : wf_tables (tables_new B F own).
Proof. split_and!; [apply bdt_new_wf| |done]. split; [unfold fdt_capacity; cbn; lia|]. constructor. Qed.
Lemma tables_step_wf {R} `{Rules R} t (op : TablesOp R) : wf_tables t -> op_wf op -> wf_tables (tables_step t op).
Proof.
  intros (Hb & Hf & Hn) Hop. destruct op as [table|b|own|nat local|nat local table|request now rules room|r|now|a];
    cbn [tables_step].
  - split_and!; [by apply bdt_set_wf|done|]. etransitivity; [apply bdt_set_nat|done].
  - split_and!; [by apply set_serves_group_wf|done|]. cbn. unfold set_serves_group.
    by destruct (if b then _ else _) as [[]|].
  - split_and!; [by apply set_own_address_wf|done|]. etransitivity; [apply set_own_address_nat|done].
  - unfold set_nat. destruct (own_address_for nat local) as [own|]; [|done].
    pose proof (reconfigure_wf (tb_bdt t) own (is_some nat) (leaving_nat t nat) Hb) as Hw.
    pose proof (reconfigure_nat (tb_bdt t) own (is_some nat) (leaving_nat t nat)) as Hr.
    destruct (reconfigure _ _ _ _) as [b' [u|e]]; [done|]. subst b'. by split_and!.
  - unfold set_nat_and_bdt. destruct (own_address_for nat local) as [own|]; [|done].
    destruct (set_without _ _ _) as [b' [[]|]] eqn:Es; [|done]. apply set_without_wf in Es as (Hw & _ & _ & Hnn & _).
    by split_and!.
  - destruct (serve_fdt t request now rules room Hf Hop) as (Hw & Eb & En). unfold wf_tables. by rewrite Eb, En.
  - pose proof (restore_refines (tb_fdt t) r Hf) as Hr. destruct (fdt_restore _ _) as [f e]. destruct Hr. by split_and!.
  - pose proof (retain_refines (tb_fdt t) (fun r => negb (is_expired_at r now)) Hf) as Hr. unfold fdt_purge.
    destruct (fdt_retain _ _) as [f n]. destruct Hr. by split_and!.
  - pose proof (delete_refines (tb_fdt t) a Hf) as Hr. destruct (fdt_delete _ _) as [f e]. destruct Hr. by split_and!.
Qed.
#[export] Hint Resolve tables_new_wf tables_step_wf : bbmd.

(** C9: whatever its operator configures and whoever registers, in every reachable state of a BBMD's tables: the BDT's rows and
    the registrations fit their arrays, no address has two rows or two registrations; every configured row
    passes the address policy; a BDT that has rows lists the BBMD's own address, and an own row the table added is
    its last, two-hop; behind a NAT router every row is two-hop and none is added; and the own row of a BBMD that serves a
    group is two-hop. *)
Theorem tables_reachable_inv {R} `{Rules R} t : tables_reachable t -> wf_tables t.
Proof. induction 1; eauto with bbmd. Qed.

(** A BBMD at 10.0.1.1 with one peer, reached by one hop, and one foreign device. *)
Definition example_own : SocketAddrV4 := {| sa_ip := ipv4_new 10 0 1 1; sa_port := 47808 |}.
Definition example_peer : SocketAddrV4 := {| sa_ip := ipv4_new 10 0 2 1; sa_port := 47808 |}.
Definition example_device : SocketAddrV4 := {| sa_ip := ipv4_new 10 9 0 7; sa_port := 47808 |}.
Definition example_ops : list (TablesOp unit) :=
  [TSet (EntriesTyped [{| bdt_address := example_peer; bdt_mask := ipv4_new 255 255 255 0 |}]);
   TServe (ReqRegister example_device 60) 0 tt 4].
Definition example_tables : Tables := fold_left tables_step example_ops (tables_new 4 4 example_own).
Lemma example_tables_reachable : tables_reachable (R := unit) example_tables.
Proof.
  unfold example_tables, example_ops. cbn [fold_left]. do 2 (apply tables_stepped; [|cbn; (done || width)]).
  apply tables_built.
Qed.
Lemma example_tables_wf : wf_tables example_tables.
Proof. unfold example_tables, example_ops. cbn [fold_left]. repeat (apply tables_step_wf; [|cbn; (done || width)]). auto with bbmd. Qed.
Lemma tables_reachable_inv_witness : wf_tables example_tables.
Proof. apply (tables_reachable_inv (R := unit)). exact example_tables_reachable. Defined.
