(* ===== verification/Forwarding.v ===== *)
(** * Where a BBMD's broadcasts go (crate bacnet-bip-core, bbmd/forward.rs and bbmd/serve.rs)

    The destinations of each kind of broadcast as lists computed from the tables alone, and the proofs that
    the writer over the caller's storage produces them, cut at the storage's end; that nothing a
    peer forwarded is passed to a peer again; and what each management request is answered. *)

From S2P Require Import Prelude Time Bvll Fdt Bdt Bbmd.
Open Scope Z_scope.

(** ** The destinations, from the tables *)

(** The first occurrences, in order. *)
Definition add_new (acc : list SocketAddrV4) (d : SocketAddrV4) : list SocketAddrV4 :=
  if bool_decide (d ∈ acc) then acc else acc ++ [d].
Definition first_occurrences (l : list SocketAddrV4) : list SocketAddrV4 := fold_left add_new l [].
Definition peer_rows (t : Tables) (exclude : SocketAddrV4) : list BdtEntry :=
  List.filter (fun row => negb (row_at (bdt_own (tb_bdt t)) row || row_at exclude row)) (rows (tb_bdt t)).
Definition peer_destinations (t : Tables) (exclude : SocketAddrV4) : list SocketAddrV4 :=
  first_occurrences (distribution_address <$> peer_rows t exclude).
(** The live registrations a broadcast is owed to, before the fanout budget. *)
Definition device_candidates (t : Tables) (now : Instant) (exclude : SocketAddrV4) (peers : list SocketAddrV4)
  : list SocketAddrV4 :=
  addresses (List.filter (fun r => negb (at_address exclude r) && negb (bool_decide (rg_address r ∈ peers)))
    (live_at (tb_fdt t) now)).
Definition via (v : Via) (d : SocketAddrV4) : Target := {| tg_destination := d; tg_via := v |}.
(** What a broadcast goes to: the subnets in [local], then the peers, then the devices within the budget. *)
Definition owed (t : Tables) (cx : Context_) (local peers : list SocketAddrV4) (exclude : SocketAddrV4) : list Target :=
  map (via LocalBroadcast) local ++ map (via Peer) peers ++
  map (via ForeignDevice) (take (cx_fdt_fanout cx) (device_candidates t (cx_now cx) exclude peers)).
(** A fanout holds what is owed, cut at the storage's end, and where all of it has room, none is
    counted as dropped and [capped] says exactly that the budget was short. *)
Definition fanout_is (f : Fanout) (room : nat) (t : Tables) (cx : Context_) (local peers : list SocketAddrV4)
  (exclude : SocketAddrV4) : Prop :=
  let all := owed t cx local peers exclude in
  fo_targets f = take room all /\
  ((length all <= room)%nat -> fo_dropped f = 0%nat /\
    fo_capped f = bool_decide (cx_fdt_fanout cx < length (device_candidates t (cx_now cx) exclude peers))%nat).

(** ** The writer *)

Lemma add_new_snoc acc d : d ∉ acc -> add_new acc d = acc ++ [d].
Proof. intros H. unfold add_new. by rewrite bool_decide_eq_false_2. Qed.
Lemma add_new_old acc d : d ∈ acc -> add_new acc d = acc.
Proof. intros H. unfold add_new. by rewrite bool_decide_eq_true_2. Qed.
Lemma first_occurrences_nodup l : forall acc, NoDup acc -> NoDup (fold_left add_new l acc).
Proof.
  induction l as [|d l IH]; intros acc Hn; [done|]. cbn. apply IH. unfold add_new. case_bool_decide; [done|].
  apply NoDup_app. split_and!; [done| |apply NoDup_singleton]. by intros x Hx ->%list_elem_of_singleton.
Qed.
Lemma first_occurrences_elem x l : forall acc, x ∈ fold_left add_new l acc <-> x ∈ acc \/ x ∈ l.
Proof.
  induction l as [|d l IH]; intros acc; cbn; [set_solver|]. rewrite IH. unfold add_new.
  case_bool_decide; set_solver.
Qed.
Lemma first_occurrences_length l : forall acc, (length (fold_left add_new l acc) <= length acc + length l)%nat.
Proof.
  induction l as [|d l IH]; intros acc; cbn; [lia|]. specialize (IH (add_new acc d)). unfold add_new in *.
  case_bool_decide; [lia|]. rewrite length_app in IH. cbn in IH. lia.
Qed.
Lemma existsb_goes_to d l : existsb (goes_to d) l = true <-> d ∈ tg_destination <$> l.
Proof.
  rewrite existsb_exists, list_elem_of_fmap. unfold goes_to.
  split; intros (t & H1 & H2); exists t; rewrite bool_decide_eq_true, list_elem_of_In in *; naive_solver.
Qed.
Lemma destinations_via v l : tg_destination <$> map (via v) l = l.
Proof. induction l as [|d l IH]; [done|]. cbn. f_equal. exact IH. Qed.
Lemma elem_of_destinations_take n l d : d ∈ tg_destination <$> take n l -> d ∈ tg_destination <$> l.
Proof.
  intros (t & -> & (i & Hi & _)%elem_of_take)%list_elem_of_fmap. apply list_elem_of_fmap_2.
  by eapply list_elem_of_lookup_2.
Qed.

(** What one push does to the storage and to the count of what it dropped. *)
Lemma writer_push_out w d v all :
  wr_out w = take (wr_room w) all -> ((length all <= wr_room w)%nat -> wr_dropped w = 0%nat) ->
  let w' := writer_push w d v in
  wr_out w' = take (wr_room w) (all ++ [via v d]) /\
  ((length (all ++ [via v d]) <= wr_room w)%nat -> wr_dropped w' = 0%nat) /\
  wr_room w' = wr_room w /\ wr_peers_start w' = wr_peers_start w /\ wr_peers_end w' = wr_peers_end w /\
  wr_capped w' = wr_capped w.
Proof.
  intros Ho Hd. cbv zeta. unfold writer_push. assert (Hl := f_equal length Ho). rewrite length_take in Hl.
  rewrite length_app. cbn [length]. case_bool_decide.
  - rewrite take_ge in Ho by lia. cbn. split_and!; try done; [|intros; apply Hd; lia].
    rewrite Ho, take_ge; [done|]. rewrite length_app. cbn. lia.
  - cbn. split_and!; try done; [|lia]. rewrite Ho, take_app_le; [done|lia].
Qed.

(** The peers, whatever was written before them. *)
Definition peers_inv (room : nat) (base : list Target) (acc : list SocketAddrV4) (w : Writer) : Prop :=
  wr_room w = room /\ wr_peers_start w = length (take room base) /\ wr_capped w = false /\
  wr_out w = take room (base ++ map (via Peer) acc) /\
  ((length (base ++ map (via Peer) acc) <= room)%nat -> wr_dropped w = 0%nat).
Lemma push_unique_inv room base acc w d : peers_inv room base acc w ->
  peers_inv room base (add_new acc d) (push_unique w d Peer).
Proof.
  intros (Er & Es & Ec & Ho & Hd). unfold push_unique.
  assert (Hw : drop (wr_peers_start w) (wr_out w) = take (room - length base) (map (via Peer) acc)).
  { rewrite Ho, Es, length_take, take_app, drop_app_ge by (rewrite length_take; lia).
    rewrite length_take. by replace (_ - _)%nat with 0%nat by lia. }
  rewrite Hw. destruct (existsb _ _) eqn:Ee.
  - apply existsb_goes_to in Ee. assert (Hin : d ∈ acc).
    { rewrite <-(destinations_via Peer acc). by eapply elem_of_destinations_take. }
    by rewrite add_new_old.
  - assert (Hnw : d ∉ tg_destination <$> take (room - length base) (map (via Peer) acc))
      by (rewrite <-existsb_goes_to; congruence).
    destruct (decide (d ∈ acc)) as [Hin|Hin].
    + rewrite add_new_old by done.
      assert (Hfull : (room < length (base ++ map (via Peer) acc))%nat).
      { rewrite length_app, length_map. destruct (decide (room < length base + length acc)%nat); [done|].
        destruct Hnw. rewrite take_ge by (rewrite length_map; lia). by rewrite destinations_via. }
      assert (Hl : length (wr_out w) = room) by (rewrite Ho, length_take; lia).
      unfold writer_push. rewrite bool_decide_eq_false_2 by lia. unfold peers_inv. cbn. split_and!; try done. lia.
    + rewrite add_new_snoc by done. unfold peers_inv. rewrite map_app, (assoc_L (++)). cbn [map].
      rewrite <-Er in *. destruct (writer_push_out w d Peer _ Ho Hd) as (Ho' & Hd' & Hr' & Hs' & _ & Hc').
      rewrite Hs', Hc'. split_and!; done.
Qed.
Lemma peer_loop_inv own exclude l : forall room base acc w, peers_inv room base acc w ->
  peers_inv room base
    (fold_left add_new
       (distribution_address <$> List.filter (fun row => negb (row_at own row || row_at exclude row)) l) acc)
    (fold_left (fun w row => if row_at own row || row_at exclude row then w
                             else push_unique w (distribution_address row) Peer) l w).
Proof.
  induction l as [|row l IH]; intros room base acc w Hw; [done|]. cbn [fold_left List.filter].
  destruct (row_at own row || row_at exclude row); cbn [negb]; [by apply IH|]. cbn [fmap list_fmap fold_left].
  by apply IH, push_unique_inv.
Qed.
(** After the peers: the storage holds what came before and the peers, and where all of it had room
    the peers are recognised. *)
Definition devices_inv (room : nat) (base : list Target) (peers : list SocketAddrV4) (w : Writer) : Prop :=
  let all := base ++ map (via Peer) peers in
  wr_room w = room /\ wr_capped w = false /\ wr_out w = take room all /\
  ((length all <= room)%nat -> wr_dropped w = 0%nat /\ (wr_peers_end w <= length (wr_out w))%nat /\
     drop (wr_peers_start w) (take (wr_peers_end w) (wr_out w)) = map (via Peer) peers).
Lemma peer_targets_inv t room base w exclude : peers_inv room base [] w ->
  devices_inv room base (peer_destinations t exclude) (peer_targets t w exclude).
Proof.
  intros Hw. unfold peer_targets.
  destruct (peer_loop_inv (bdt_own (tb_bdt t)) exclude (rows (tb_bdt t)) _ _ _ _ Hw) as (Er & Es & Ec & Ho & Hd).
  set (w' := fold_left _ (rows (tb_bdt t)) w) in *. unfold devices_inv. cbn. split_and!; try done.
  intros Hl. split; [by apply Hd|]. split; [done|]. rewrite take_ge by lia.
  fold (peer_rows t exclude) in Ho, Hl.
  rewrite Ho, take_ge by exact Hl. rewrite length_app in Hl. rewrite Es, take_ge by lia. by rewrite drop_app_length.
Qed.
Lemma no_peers_inv room base w : wr_room w = room -> wr_capped w = false -> wr_out w = take room base ->
  ((length base <= room)%nat -> wr_dropped w = 0%nat) -> wr_peers_start w = length (wr_out w) ->
  wr_peers_end w = length (wr_out w) -> devices_inv room base [] w.
Proof.
  intros Er Ec Ho Hd Hs He. unfold devices_inv. cbn. rewrite app_nil_r, Er, Ec. split_and!; try done.
  intros Hl. split; [by apply Hd|]. split; [lia|]. by rewrite Hs, He, take_ge, drop_all.
Qed.

(** A full storage stays as it is. *)
Lemma fd_loop_full exclude fanout live : forall w sent, (wr_room w <= length (wr_out w))%nat ->
  wr_out (fd_targets_loop live w exclude fanout sent) = wr_out w.
Proof.
  induction live as [|r live IH]; intros w sent Hf; [done|]. cbn [fd_targets_loop].
  destruct (at_address _ _); [by apply IH|]. destruct (is_peer_target _ _); [by rewrite IH|].
  case_bool_decide; [done|]. unfold writer_push. rewrite bool_decide_eq_false_2 by lia. by rewrite IH.
Qed.
Definition candidates_of (exclude : SocketAddrV4) (peers : list SocketAddrV4) (live : list Registration) :=
  addresses (List.filter (fun r => negb (at_address exclude r) && negb (bool_decide (rg_address r ∈ peers))) live).
Lemma fd_loop_out exclude fanout peers live : forall w sent all,
  wr_out w = take (wr_room w) all -> ((length all <= wr_room w)%nat -> wr_dropped w = 0%nat) ->
  (wr_peers_end w <= length (wr_out w))%nat ->
  drop (wr_peers_start w) (take (wr_peers_end w) (wr_out w)) = map (via Peer) peers ->
  let w' := fd_targets_loop live w exclude fanout sent in
  let all' := all ++ map (via ForeignDevice) (take (fanout - sent) (candidates_of exclude peers live)) in
  wr_out w' = take (wr_room w) all' /\ ((length all' <= wr_room w)%nat -> wr_dropped w' = 0%nat) /\
  wr_capped w' = wr_capped w || bool_decide (fanout - sent < length (candidates_of exclude peers live))%nat.
Proof.
  induction live as [|r live IH]; intros w sent all Ho Hd He Hp; cbv zeta.
  { cbn. rewrite take_nil, app_nil_r. split_and!; try done. rewrite bool_decide_eq_false_2 by lia.
    by rewrite orb_false_r. }
  cbn [fd_targets_loop]. unfold candidates_of. cbn [List.filter]. fold (candidates_of exclude peers live).
  destruct (at_address exclude r); cbn [negb andb]; [by apply IH|].
  unfold is_peer_target at 1 2 3. rewrite Hp.
  assert (Eb : existsb (goes_to (rg_address r)) (map (via Peer) peers) = bool_decide (rg_address r ∈ peers)).
  { apply eq_iff_eq_true. rewrite existsb_goes_to, destinations_via, bool_decide_eq_true. done. }
  rewrite Eb. case_bool_decide as Hin; cbn [negb].
  { specialize (IH (w <| wr_deduplicated ::= S |>) sent all). by apply IH. }
  cbn [addresses fmap list_fmap]. fold (addresses (List.filter (fun r => negb (at_address exclude r) &&
    negb (bool_decide (rg_address r ∈ peers))) live)). fold (candidates_of exclude peers live).
  case_bool_decide as Hs.
  - replace (fanout - sent)%nat with 0%nat by lia. cbn. rewrite app_nil_r. split_and!; try done.
    rewrite bool_decide_eq_true_2 by lia. by rewrite orb_true_r.
  - destruct (writer_push_out w (rg_address r) ForeignDevice all Ho Hd) as (Ho' & Hd' & Hr' & Hs' & He' & Hc').
    assert (Hkeep : take (wr_peers_end w) (wr_out (writer_push w (rg_address r) ForeignDevice)) = take (wr_peers_end w) (wr_out w)
      /\ (length (wr_out w) <= length (wr_out (writer_push w (rg_address r) ForeignDevice)))%nat).
    { unfold writer_push. case_bool_decide; cbn; [|done]. rewrite take_app_le by done. rewrite length_app. split; [done|lia]. }
    destruct Hkeep as [Hk Hlen].
    specialize (IH (writer_push w (rg_address r) ForeignDevice) (S sent) (all ++ [via ForeignDevice (rg_address r)])).
    rewrite Hr', Hs', He', Hc', Hk in IH. destruct IH as (H1 & H2 & H3); [done|done|lia|done|].
    replace (fanout - sent)%nat with (S (fanout - S sent)) by lia. cbn [take map length].
    rewrite <-(assoc_L (++)) in H1, H2. cbn [app] in H1, H2. split_and!; [done|done|]. rewrite H3. f_equal.
    apply bool_decide_ext. lia.
Qed.
Lemma devices_targets t cx room base peers w exclude : devices_inv room base peers w ->
  let f := writer_finish (foreign_device_targets_into t w cx exclude) in
  let devices := device_candidates t (cx_now cx) exclude peers in
  let all := base ++ map (via Peer) peers ++ map (via ForeignDevice) (take (cx_fdt_fanout cx) devices) in
  fo_targets f = take room all /\
  ((length all <= room)%nat -> fo_dropped f = 0%nat /\ fo_capped f = bool_decide (cx_fdt_fanout cx < length devices)%nat).
Proof.
  intros (Er & Ec & Ho & Hfit). cbv zeta. unfold writer_finish, foreign_device_targets_into. cbn [fo_targets fo_dropped fo_capped].
  rewrite (assoc_L (++)).
  destruct (decide (length (base ++ map (via Peer) peers) <= room)%nat) as [Hl|Hl].
  - destruct (Hfit Hl) as (Hd & He & Hp).
    destruct (fd_loop_out exclude (cx_fdt_fanout cx) peers (live_at (tb_fdt t) (cx_now cx)) w 0 (base ++ map (via Peer) peers))
      as (H1 & H2 & H3); [by rewrite Er|done..|]. rewrite Er, Nat.sub_0_r in *. rewrite Ec in H3.
    split; [done|]. intros Ha. split; [by apply H2|done].
  - split; [|rewrite (length_app (base ++ _)); lia]. rewrite fd_loop_full by (rewrite Er, Ho, length_take; lia).
    by rewrite Ho, (take_app_le (_ ++ _)) by lia.
Qed.

(** ** The destinations of each kind of broadcast *)

Lemma writer_new_peers room : peers_inv room [] [] (writer_new room).
Proof. unfold peers_inv. cbn. by rewrite take_nil. Qed.
Lemma writer_new_devices room : devices_inv room [] [] (writer_new room).
Proof. apply no_peers_inv; cbn; by rewrite ?take_nil. Qed.
Lemma push_local_out room d : let w := push_local (writer_new room) d in
  wr_room w = room /\ wr_capped w = false /\ wr_out w = take room [via LocalBroadcast d] /\
  ((1 <= room)%nat -> wr_dropped w = 0%nat) /\ wr_peers_start w = length (wr_out w) /\ wr_peers_end w = length (wr_out w).
Proof. destruct room as [|room]; cbn; rewrite ?take_nil; split_and!; try done; lia. Qed.
Lemma push_local_peers room d : peers_inv room [via LocalBroadcast d] [] (push_local (writer_new room) d).
Proof. destruct (push_local_out room d) as (?&?&Ho&?&Hs&?). unfold peers_inv. rewrite Hs, Ho. by split_and!. Qed.
Lemma push_local_devices room d : devices_inv room [via LocalBroadcast d] [] (push_local (writer_new room) d).
Proof. destruct (push_local_out room d) as (?&?&?&?&?&?). by apply no_peers_inv. Qed.
Lemma live_length f now : wf_fdt f -> (length (live_at f now) <= fdt_capacity f)%nat.
Proof.
  intros Hw. unfold live_at. etransitivity; [apply filter_length_le|]. rewrite registrations_length by done. apply Hw.
Qed.
(** [MAX_TARGETS] is room for everything. *)
Lemma owed_length t cx local peers exclude : wf_tables t -> (length local <= 1)%nat ->
  (length peers <= length (rows (tb_bdt t)))%nat -> (length (owed t cx local peers exclude) <= MAX_TARGETS t)%nat.
Proof.
  intros (Hb & Hf & _) Hl Hp. unfold owed, MAX_TARGETS. rewrite !length_app, !length_map, length_take.
  assert (Hr : (length (rows (tb_bdt t)) <= bdt_capacity (tb_bdt t))%nat)
    by (unfold rows, bdt_capacity; rewrite length_take; lia).
  assert (Hd : (length (device_candidates t (cx_now cx) exclude peers) <= fdt_capacity (tb_fdt t))%nat).
  { unfold device_candidates, addresses. rewrite length_fmap. etransitivity; [apply filter_length_le|]. by apply live_length. }
  lia.
Qed.
Lemma peer_destinations_length t exclude : (length (peer_destinations t exclude) <= length (rows (tb_bdt t)))%nat.
Proof.
  unfold peer_destinations, first_occurrences. etransitivity; [apply first_occurrences_length|]. cbn.
  rewrite length_fmap. apply filter_length_le.
Qed.

(** The subnet a forwarded broadcast is put on again, if any. *)
Definition rebroadcast_on (t : Tables) (subnet : LocalSubnet) (sender : SocketAddrV4) (arrival : Arrival) : list SocketAddrV4 :=
  if negb (ls_alone subnet) &&
     rebroadcasts_forwarded t (if is_group subnet then None else ls_mask subnet) sender arrival
  then [ls_broadcast subnet] else [].
Definition distributed_on (subnet : LocalSubnet) : list SocketAddrV4 :=
  if ls_alone subnet then [] else [ls_broadcast subnet].

Lemma broadcast_fanout t cx exclude room :
  fanout_is (broadcast_targets t cx exclude room) room t cx [] (peer_destinations t exclude) exclude.
Proof. unfold broadcast_targets. apply devices_targets with (base := []). apply peer_targets_inv, writer_new_peers. Qed.
Lemma forwarded_fanout t cx subnet sender arrival origin room f :
  forwarded_npdu t cx subnet sender arrival origin room = Ok f ->
  fanout_is f room t cx (rebroadcast_on t subnet sender arrival) [] origin.
Proof.
  unfold forwarded_npdu. case_decide; [done|]. destruct (negb (bdt_contains _ _)); [done|]. intros [= <-].
  unfold fanout_is, owed, rebroadcast_on. apply devices_targets.
  destruct (negb _ && _); [apply push_local_devices|apply writer_new_devices].
Qed.
Lemma distribute_fanout t cx subnet sender npdu room d :
  distribute_broadcast t cx subnet sender npdu room = Ok d ->
  fanout_is (di_fanout d) room t cx (distributed_on subnet) (peer_destinations t sender) sender.
Proof.
  unfold distribute_broadcast. destruct (negb (is_registered_at _ _ _)); [done|]. intros [= <-]. cbn [di_fanout].
  unfold fanout_is, owed, distributed_on. apply devices_targets, peer_targets_inv.
  destruct (ls_alone subnet); cbn [negb map]; [apply writer_new_peers|apply push_local_peers].
Qed.


(** ** No loops, no copies *)

Lemma live_registered f now r : wf_fdt f -> r ∈ live_at f now -> is_registered_at f (rg_address r) now = true.
Proof.
  intros Hw Hr. apply list_elem_of_In, filter_In in Hr as [Hr Hx]. unfold is_registered_at. rewrite fdt_get_map by done.
  unfold fdt_map. rewrite (proj2 (amap_lookup (registrations f) (rg_address r) r ltac:(apply Hw))); [done|].
  by rewrite list_elem_of_In.
Qed.
Lemma candidate_elem t now exclude peers d : wf_fdt (tb_fdt t) -> d ∈ device_candidates t now exclude peers ->
  d <> exclude /\ (d ∉ peers) /\ is_registered_at (tb_fdt t) d now = true.
Proof.
  intros Hw Hd. unfold device_candidates, addresses in Hd. apply list_elem_of_fmap in Hd as (r & -> & Hr).
  apply list_elem_of_In, filter_In in Hr as [Hr [Ha Hp]%andb_prop]. apply list_elem_of_In in Hr.
  apply negb_true_iff in Ha, Hp. unfold at_address in Ha. rewrite bool_decide_eq_false in Ha, Hp.
  split_and!; [done..|by apply live_registered].
Qed.
Lemma candidates_nodup t now exclude peers : wf_fdt (tb_fdt t) -> NoDup (device_candidates t now exclude peers).
Proof. intros Hw. unfold device_candidates, live_at. do 2 apply addresses_filter. apply Hw. Qed.
Lemma peer_destination_elem t exclude d : d ∈ peer_destinations t exclude ->
  exists row, row ∈ rows (tb_bdt t) /\ bdt_address row <> bdt_own (tb_bdt t) /\ bdt_address row <> exclude /\
    d = distribution_address row.
Proof.
  unfold peer_destinations, first_occurrences. rewrite first_occurrences_elem. intros [?%not_elem_of_nil|Hd]; [done|].
  apply list_elem_of_fmap in Hd as (row & -> & Hr). apply list_elem_of_In, filter_In in Hr as [Hr Ha].
  apply negb_true_iff, orb_false_iff in Ha as [Ho He]. unfold row_at in *. rewrite bool_decide_eq_false in Ho, He.
  exists row. by rewrite list_elem_of_In.
Qed.
(** What a target may be: a subnet of [local], a peer's distribution address, or a live registration. *)
Definition target_allowed (t : Tables) (now : Instant) (local peers : list SocketAddrV4) (exclude : SocketAddrV4) (x : Target) : Prop :=
  match tg_via x with
  | LocalBroadcast => tg_destination x ∈ local
  | Peer => tg_destination x ∈ peers
  | ForeignDevice => tg_destination x <> exclude /\ is_registered_at (tb_fdt t) (tg_destination x) now = true
  end.
Definition is_remote (x : Target) : bool := negb (bool_decide (tg_via x = LocalBroadcast)).
Definition remote_destinations (l : list Target) : list SocketAddrV4 := tg_destination <$> List.filter is_remote l.
Lemma remote_app l1 l2 : remote_destinations (l1 ++ l2) = remote_destinations l1 ++ remote_destinations l2.
Proof. unfold remote_destinations. by rewrite List.filter_app, fmap_app. Qed.
Lemma remote_via v l : remote_destinations (map (via v) l) = if decide (v = LocalBroadcast) then [] else l.
Proof.
  unfold remote_destinations. induction l as [|d l IH]; cbn; [by case_decide|]. unfold is_remote at 1. cbn.
  case_bool_decide; case_decide; cbn; try done. f_equal. exact IH.
Qed.
Lemma owed_allowed t cx local peers exclude : wf_tables t ->
  Forall (target_allowed t (cx_now cx) local peers exclude) (owed t cx local peers exclude).
Proof.
  intros (_ & Hf & _). unfold owed. rewrite !Forall_app, !Forall_map. split_and!; apply Forall_forall.
  - by intros d Hd.
  - by intros d Hd.
  - intros d (i & Hi & _)%elem_of_take. apply list_elem_of_lookup_2 in Hi.
    apply candidate_elem in Hi as (? & _ & ?); done.
Qed.
Lemma owed_nodup t cx local peers exclude : wf_tables t -> NoDup peers ->
  NoDup (remote_destinations (owed t cx local peers exclude)).
Proof.
  intros (_ & Hf & _) Hn. unfold owed. rewrite !remote_app, !remote_via.
  rewrite decide_True, !decide_False by done. cbn [app].
  apply NoDup_app. split_and!; [done| |].
  - intros d Hd (i & Hi & _)%elem_of_take. apply list_elem_of_lookup_2 in Hi.
    apply candidate_elem in Hi as (_ & ? & _); done.
  - eapply sublist_NoDup; [|apply sublist_take]. by apply candidates_nodup.
Qed.
Lemma fanout_allowed f room t cx local peers exclude : wf_tables t -> NoDup peers ->
  fanout_is f room t cx local peers exclude ->
  Forall (target_allowed t (cx_now cx) local peers exclude) (fo_targets f) /\ NoDup (remote_destinations (fo_targets f)).
Proof.
  intros Hw Hn [-> _]. pose proof (owed_allowed t cx local peers exclude Hw) as Ha.
  pose proof (owed_nodup t cx local peers exclude Hw Hn) as Hd. rewrite <-(take_drop room (owed _ _ _ _ _)) in Ha, Hd.
  apply Forall_app in Ha as [Ha _]. rewrite remote_app in Hd. by apply NoDup_app in Hd as [Hd _].
Qed.

(** C8: whatever storage the caller passes, no remote address is sent the same broadcast
    twice; a broadcast is never sent back to its source as a foreign device or to a peer row at the source's or the
    BBMD's own address; every foreign device sent to has a live registration; and a broadcast a peer forwarded is
    never sent to a peer, so that it cannot travel on from BBMD to BBMD. *)
Theorem forwarding_no_loop t cx subnet sender arrival exclude npdu room : wf_tables t ->
  let peers := peer_destinations t exclude in
  let sound local peers l :=
    Forall (target_allowed t (cx_now cx) local peers exclude) l /\ NoDup (remote_destinations l) in
  sound [] peers (fo_targets (broadcast_targets t cx exclude room)) /\
  (forall f, forwarded_npdu t cx subnet sender arrival exclude room = Ok f ->
     sound [ls_broadcast subnet] [] (fo_targets f) /\ Forall (fun x => tg_via x <> Peer) (fo_targets f)) /\
  (forall d, distribute_broadcast t cx subnet exclude npdu room = Ok d ->
     sound [ls_broadcast subnet] peers (fo_targets (di_fanout d))) /\
  (forall d, d ∈ peers -> exists row, row ∈ rows (tb_bdt t) /\ bdt_address row <> bdt_own (tb_bdt t) /\
     bdt_address row <> exclude /\ d = distribution_address row).
Proof.
  intros Hw. cbv zeta. assert (Hn : NoDup (peer_destinations t exclude)) by (apply first_occurrences_nodup, NoDup_nil_2).
  assert (Hmono : forall local peers l, Forall (target_allowed t (cx_now cx) local peers exclude) l ->
    (forall d, d ∈ local -> d = ls_broadcast subnet) ->
    Forall (target_allowed t (cx_now cx) [ls_broadcast subnet] peers exclude) l).
  { intros local peers l Hl Hi. eapply Forall_impl; [exact Hl|]. intros [d [| |]]; unfold target_allowed; cbn; try done.
    intros Hd%Hi. by apply list_elem_of_singleton. }
  split; [exact (fanout_allowed _ _ _ _ _ _ _ Hw Hn (broadcast_fanout t cx exclude room))|]. split; [|split].
  - intros f E%forwarded_fanout. apply fanout_allowed in E as [Ha Hd]; [|done|apply NoDup_nil_2]. split_and!; [|done|].
    + eapply Hmono; [exact Ha|]. unfold rebroadcast_on. destruct (negb _ && _); set_solver.
    + eapply Forall_impl; [exact Ha|]. intros [d v] Hx Ev. cbn in Ev. subst v. by apply not_elem_of_nil in Hx.
  - intros d E%distribute_fanout. apply fanout_allowed in E as [Ha Hd]; [|done..]. split; [|done].
    eapply Hmono; [exact Ha|]. unfold distributed_on. destruct (ls_alone subnet); set_solver.
  - intros d. apply peer_destination_elem.
Qed.
Lemma forwarding_no_loop_witness :
  let cx := {| cx_now := 0; cx_fdt_fanout := 8 |} in
  let subnet := local_subnet_new {| sa_ip := ipv4_new 10 0 1 255; sa_port := 47808 |} in
  match forwarded_npdu example_tables cx subnet example_peer ArrivedUnicast example_peer 9 with
  | Ok f => fo_targets f <> [] /\ Forall (fun x => tg_via x <> Peer) (fo_targets f)
  | Err _ => False
  end.
Proof.
  cbv zeta. pose proof (proj1 (proj2 (forwarding_no_loop example_tables {| cx_now := 0; cx_fdt_fanout := 8 |}
    (local_subnet_new {| sa_ip := ipv4_new 10 0 1 255; sa_port := 47808 |}) example_peer ArrivedUnicast example_peer [] 9
    example_tables_wf))) as H.
  destruct (forwarded_npdu _ _ _ _ _ _ _) as [f|e] eqn:E; [|vm_compute in E; discriminate].
  split; [|exact (proj2 (H f eq_refl))]. vm_compute in E. injection E as <-. discriminate.
Defined.

(** ** The answers *)

Lemma wire_entries_loop_spec live now room : forall acc, (length acc <= room)%nat ->
  wire_entries_loop live now room acc =
  if decide (length acc + length live <= room)%nat then Ok (acc ++ ((fun r => wire_entry_at r now) <$> live))
  else Err {| sf_needed := length acc + length live; sf_available := room |}.
Proof.
  induction live as [|r live IH]; intros acc Ha; cbn [wire_entries_loop length fmap list_fmap].
  { rewrite decide_True by lia. by rewrite app_nil_r. }
  case_bool_decide as Hl.
  - rewrite IH by (rewrite length_app; cbn; lia). rewrite length_app. cbn [length]. rewrite <-(assoc_L (++)). cbn [app].
    replace (length acc + 1 + length live)%nat with (length acc + S (length live))%nat by lia. done.
  - rewrite decide_False by lia. f_equal. f_equal. lia.
Qed.
(** A registration lives for its time-to-live and the grace period. *)
Lemma is_expired_at_iff r now : is_u16 (rg_ttl r) ->
  is_expired_at r now = false <-> now <= rg_at r + (rg_ttl r + 30) * NANOS_PER_SEC.
Proof.
  intros Hu. unfold is_expired_at, lifetime, duration_from_secs, instant_saturating_duration_since, sat_sub, sat_mul.
  change GRACE_WHOLE_SECONDS with 30. unfold is_u16, U16_MAX in Hu. change NANOS_PER_SEC with 1000000000.
  change U64_MAX with 18446744073709551615. rewrite Z.min_r by lia. lia.
Qed.
Lemma map_register_stored N m source ttl now limits reservation admitted :
  match map_register N m source ttl now limits reservation admitted with
  | (m', Ok _) => m' !! source = Some {| rg_address := source; rg_ttl := ttl; rg_at := now |}
  | (m', Err _) => m' = m
  end.
Proof.
  unfold map_register. cbv zeta. destruct (negb (_ && _)); [done|]. destruct (negb admitted); [done|].
  case_decide; [by simplify_map_eq|]. do 2 (try case_decide; try case_bool_decide; try done).
  all: by simplify_map_eq.
Qed.
Definition ok_or {A E} (r : Result A E) (nak : BvlcResultCode) : Bvll :=
  BvlcResultMsg (match r with Ok _ => SUCCESSFUL_COMPLETION | Err _ => nak end).

(** What each management request is answered, to its sender, and what it changes, whatever
    rules the host keeps. A registration is the map's insertion under the limits the rules give, after the
    expired are dropped, and once acknowledged it is live exactly until its time-to-live and the thirty
    seconds of grace have passed; a refusal stores nothing. Both tables are read as they stand, the foreign devices with the
    seconds each has left; a deletion removes the entry when the rules admit it and succeeds when it was live. The distribution table is never
    changed. *)
Theorem serve_exact {R} `{Rules R} t request now (rules : R) room : wf_tables t ->
  op_wf (TServe request now rules room) ->
  let '(t', _, a) := serve t request now rules room in
  let m := fdt_map (tb_fdt t) in
  let m' := fdt_map (tb_fdt t') in
  let live := live_at (tb_fdt t) now in
  an_to a = request_sender request /\ tb_bdt t' = tb_bdt t /\ tb_nat t' = tb_nat t /\
  match request with
  | ReqRegister sender ttl =>
      let '(r1, limits) := registration_limits rules in
      let '(r2, reservation) := reservation_of r1 sender in
      let '(stored, result) := map_register (fdt_capacity (tb_fdt t)) (map_live m now) sender ttl now limits
                                 reservation (admit_registration r2 sender now).2 in
      m' = stored /\ an_message a = ok_or result REGISTER_FOREIGN_DEVICE_NAK /\
      match result with
      | Ok _ => forall later, is_registered_at (tb_fdt t') sender later = true <-> later <= now + (ttl + 30) * NANOS_PER_SEC
      | Err _ => m' = map_live m now
      end
  | ReqReadBdt _ =>
      t' = t /\ an_message a = ReadBroadcastDistributionTableAck (EntriesTyped (rows (tb_bdt t)))
  | ReqReadFdt _ =>
      t' = t /\ (length live <= fdt_capacity (tb_fdt t))%nat /\
      an_message a = if decide (length live <= room)%nat
                     then ReadForeignDeviceTableAck (EntriesTyped ((fun r => wire_entry_at r now) <$> live))
                     else BvlcResultMsg READ_FOREIGN_DEVICE_TABLE_NAK
  | ReqDeleteFdtEntry sender entry =>
      let admitted := (admit_delete rules sender entry).2 in
      m' = (if admitted then delete entry m else m) /\
      an_message a = BvlcResultMsg (if admitted && is_registered_at (tb_fdt t) entry now then SUCCESSFUL_COMPLETION
                                    else DELETE_FOREIGN_DEVICE_TABLE_ENTRY_NAK)
  end.
Proof.
  intros Hw Hop. pose proof Hw as (_ & Hf & _).
  destruct request as [sender ttl|sender|sender|sender entry]; cbn [serve op_wf request_sender] in *.
  - destruct (registration_limits rules) as [r1 limits]. destruct (reservation_of r1 sender) as [r2 reservation].
    pose proof (fdt_register_refines (tb_fdt t) sender ttl now limits reservation
      (fun rules => admit_registration rules sender now) r2 Hf ltac:(width)) as Hs.
    destruct (fdt_register _ _ _ _ _ _ _ _) as [[f r3] o]. destruct Hs as (Hwf & _ & Hm).
    pose proof (map_register_stored (fdt_capacity (tb_fdt t)) (map_live (fdt_map (tb_fdt t)) now) sender ttl now limits
      reservation (admit_registration r2 sender now).2) as Hst. rewrite <-Hm in *. cbv zeta. cbn.
    split_and!; try done. destruct (ro_result o); [|done].
    intros later. unfold is_registered_at. rewrite fdt_get_map, Hst by done. rewrite negb_true_iff. by apply is_expired_at_iff.
  - done.
  - unfold fdt_wire_entries. rewrite wire_entries_loop_spec by (cbn; lia). pose proof (live_length (tb_fdt t) now Hf).
    cbn [length Nat.add app]. by case_decide.
  - pose proof (delete_refines (tb_fdt t) entry Hf) as Hd. destruct (admit_delete rules sender entry) as [r1 [|]]; [|done].
    destruct (fdt_delete (tb_fdt t) entry) as [f b]. destruct Hd as (_ & _ & Hm). cbn [map_step] in Hm.
    injection Hm as Hm _. cbv zeta. cbn. rewrite Hm. split_and!; try done. by destruct (is_registered_at _ _ _).
Qed.
Lemma serve_exact_witness :
  let '(t', _, a) := serve example_tables (ReqRegister example_device 30) 0 tt 4 in
  an_message a = BvlcResultMsg SUCCESSFUL_COMPLETION /\
  (is_registered_at (tb_fdt t') example_device (60 * NANOS_PER_SEC) = true <->
   60 * NANOS_PER_SEC <= 0 + (30 + 30) * NANOS_PER_SEC).
Proof.
  pose proof (serve_exact example_tables (ReqRegister example_device 30) 0 tt 4 example_tables_wf ltac:(cbn; width)) as H.
  destruct (serve _ _ _ _ _) as [[t' r'] a] eqn:E. destruct H as (_ & _ & _ & H). cbn [registration_limits reservation_of permissive_rules] in H.
  destruct (map_register _ _ _ _ _ _ _ _) as [stored result] eqn:Em. destruct H as (_ & Ha & Hr).
  vm_compute in Em. injection Em as _ <-. split; [exact Ha|apply Hr].
Defined.

(** ** Leaving NAT

    Turning NAT off together with a new table is documented to drop the row of the old global
    address; a table whose other rows alone exceed the capacity by repetition is stored with it. *)
Definition repeated_table : list BdtEntry :=
  let row a := {| bdt_address := a; bdt_mask := TWO_HOP_MASK |} in
  [row example_own; row example_own; row example_own; row example_peer].
Definition nat_tables : Tables :=
  (set_nat (tables_new 2 4 example_own) (Some {| nat_global := example_peer; nat_ranges := [] |}) example_own).1.
Lemma set_nat_and_bdt_keeps_old_global :
  tb_nat nat_tables <> None /\
  match set_nat_and_bdt nat_tables None example_own (EntriesTyped repeated_table) with
  | (t, Ok _) => tb_nat t = None /\ bdt_contains (tb_bdt t) example_peer = true
  | _ => False
  end.
Proof. split; vm_compute; [discriminate|]. split; reflexivity. Qed.
