(* ===== verification/NodeLink.v ===== *)
(** * A B/IP node's link (crate bacnet-bip-core, node/config.rs, node/addressing.rs, node/receive.rs, node/send.rs)

    The fixed half of a node: its configuration and the checks on it, what the addresses of a datagram mean to it,
    the receive rules in their order with the dispatch by function and mode, and what it sends for an NPDU.
    The host's policy is a class whose operations thread the policy's own state. *)

From S2P Require Import Prelude Time Npdu Bvll Fdt Bdt Bbmd.
Open Scope Z_scope.

(** ** Configuration (config.rs) *)

(** [MAX_DATAGRAM] (bacnet-bip-core/src/node/config.rs:12-17) *)
Definition MAX_DATAGRAM : Z := 4 + 6 + Z.of_nat MAX_NPDU.
(** [MIN_RENEWAL] (bacnet-bip-core/src/node/config.rs:19-22) *)
Definition MIN_RENEWAL : Duration := duration_from_millis 100.
(** [DEFAULT_RESPONSE_TIMEOUT] (bacnet-bip-core/src/node/config.rs:24-25) *)
Definition DEFAULT_RESPONSE_TIMEOUT : Duration := duration_from_secs 3.
(** [MIN_BUDGET] (bacnet-bip-core/src/node/config.rs:27-28) *)
Definition MIN_BUDGET : Z := 64.

(** [Retry] (bacnet-bip-core/src/node/config.rs) *)
Inductive Retry := AtRenewal | Backoff.
#[global] Instance Retry_eq_dec : EqDecision Retry.
Proof. solve_decision. Defined.
(** [ForwardedTrust] (bacnet-bip-core/src/node/config.rs) *)
Inductive ForwardedTrust := AnySender | ConfiguredBbmd.
#[global] Instance ForwardedTrust_eq_dec : EqDecision ForwardedTrust.
Proof. solve_decision. Defined.
(** [Foreign] (bacnet-bip-core/src/node/config.rs) *)
Record Foreign := {
  fr_bbmd : option SocketAddrV4; fr_ttl : Z; fr_renewal : Duration; fr_response_timeout : Duration;
  fr_retry : Retry; fr_hold : Z; fr_trust : ForwardedTrust; fr_release_previous : bool
}.
#[export] Instance eta_Foreign : Settable Foreign := fun r =>
  {| fr_bbmd := fr_bbmd r; fr_ttl := fr_ttl r; fr_renewal := fr_renewal r;
     fr_response_timeout := fr_response_timeout r; fr_retry := fr_retry r; fr_hold := fr_hold r;
     fr_trust := fr_trust r; fr_release_previous := fr_release_previous r |}.
(** [Mode] (bacnet-bip-core/src/node/config.rs) *)
Inductive Mode := ModeNormal | ModeForeign (foreign : Foreign) | ModeBbmd.

(** [Foreign::with_bbmd] (bacnet-bip-core/src/node/config.rs) *)
Definition foreign_with_bbmd (bbmd : option SocketAddrV4) (ttl : Z) : Foreign :=
  let renewal := duration_max (duration_from_millis (ttl * 500)) MIN_RENEWAL in
  {| fr_bbmd := bbmd; fr_ttl := ttl; fr_renewal := renewal;
     fr_response_timeout := duration_min renewal DEFAULT_RESPONSE_TIMEOUT; fr_retry := Backoff; fr_hold := 0;
     fr_trust := ConfiguredBbmd; fr_release_previous := false |}.
(** [Foreign::new] (bacnet-bip-core/src/node/config.rs) *)
Definition foreign_new (bbmd : SocketAddrV4) (ttl : Z) : Foreign := foreign_with_bbmd (Some bbmd) ttl.
(** [Foreign::waiting] (bacnet-bip-core/src/node/config.rs) *)
Definition foreign_waiting (ttl : Z) : Foreign := foreign_with_bbmd None ttl.
(** [Foreign::ttl_duration] (bacnet-bip-core/src/node/config.rs) *)
Definition ttl_duration (f : Foreign) : Duration := duration_from_secs (fr_ttl f).
(** [Foreign::effective_renewal] (bacnet-bip-core/src/node/config.rs) *)
Definition effective_renewal (f : Foreign) : Duration := duration_max (fr_renewal f) MIN_RENEWAL.
(** [Foreign::effective_response_timeout] (bacnet-bip-core/src/node/config.rs) *)
Definition effective_response_timeout (f : Foreign) : Duration :=
  duration_min (fr_response_timeout f) (effective_renewal f).

(** [Link] (bacnet-bip-core/src/node/config.rs) *)
Record Link := {
  lk_address : SocketAddrV4; lk_subnet : LocalSubnet; lk_mode : Mode; lk_budget : option Z
}.
#[export] Instance eta_Link : Settable Link := fun r =>
  {| lk_address := lk_address r; lk_subnet := lk_subnet r; lk_mode := lk_mode r; lk_budget := lk_budget r |}.
(** [ConfigError] (bacnet-bip-core/src/node/config.rs) *)
Inductive ConfigError :=
| OwnPort | RenewalError | ResponseTimeoutError | BbmdPort | BbmdAddress | BbmdIsSelf | BudgetError
| NotForeign | MulticastMode.
#[global] Instance ConfigError_eq_dec : EqDecision ConfigError.
Proof. solve_decision. Defined.

(** ** Addresses (addressing.rs) *)

(** [Ipv4Addr::is_broadcast], [is_unspecified] and [is_loopback]. *)
Definition is_broadcast (ip : Ipv4Addr) : bool := ip =? U32_MAX.
Definition is_unspecified (ip : Ipv4Addr) : bool := ip =? 0.
Definition is_loopback (ip : Ipv4Addr) : bool := ip / 2 ^ 24 =? 127.

(** [Addressed] (bacnet-bip-core/src/node/addressing.rs) *)
Record Addressed := { ad_node : bool; ad_broadcast : bool }.
(** [LocalAddresses] (bacnet-bip-core/src/node/addressing.rs) *)
Record LocalAddresses := { la_own : Ipv4Addr; la_broadcast : Ipv4Addr; la_wildcard : option (list Ipv4Addr) }.
(** [LocalAddresses::new] (bacnet-bip-core/src/node/addressing.rs) *)
Definition local_addresses_new (own broadcast : Ipv4Addr) : LocalAddresses :=
  {| la_own := own; la_broadcast := broadcast; la_wildcard := None |}.
(** [Addressed::classify] (bacnet-bip-core/src/node/addressing.rs) *)
Definition classify (destination : Ipv4Addr) (os_group : option bool) (local : LocalAddresses) : Addressed :=
  let to_broadcast := (destination =? la_broadcast local)
    || (is_broadcast destination && negb (is_multicast (la_broadcast local))) in
  let node :=
    match la_wildcard local with
    | Some own_ips => negb to_broadcast && negb (is_multicast destination) && bool_decide (destination ∈ own_ips)
    | None => destination =? la_own local
    end && negb (bool_decide (os_group = Some true)) in
  {| ad_node := node; ad_broadcast := to_broadcast && negb (bool_decide (os_group = Some false)) |}.
(** [Addressed::arrival] (bacnet-bip-core/src/node/addressing.rs) *)
Definition addressed_arrival (a : Addressed) (function : BvlcFunction) : option Arrival :=
  let unicast := if ad_node a then Some ArrivedUnicast else None in
  let broadcast := if ad_broadcast a then Some ArrivedBroadcast else None in
  if function =? ORIGINAL_UNICAST_NPDU then unicast else
  if function =? ORIGINAL_BROADCAST_NPDU then broadcast else
  if function =? FORWARDED_NPDU then match broadcast with Some x => Some x | None => unicast end else unicast.

(** [Groups] (bacnet-bip-core/src/node/addressing.rs) *)
Record Groups := { gr_broadcast : SocketAddrV4; gr_interface : Ipv4Addr; gr_directed : Ipv4Addr }.
(** [Groups::new] (bacnet-bip-core/src/node/addressing.rs) *)
Definition groups_new (broadcast : SocketAddrV4) (interface : Ipv4Addr) : Groups :=
  {| gr_broadcast := broadcast; gr_interface := interface; gr_directed := 0 |}.
(** [Groups::contains_ip] (bacnet-bip-core/src/node/addressing.rs) *)
Definition contains_ip (g : Groups) (ip : Ipv4Addr) : bool :=
  let directed := negb (is_unspecified (gr_directed g)) && (gr_directed g =? ip) in
  let subnet := (ip =? sa_ip (gr_broadcast g)) || directed in
  is_broadcast ip || is_multicast ip || (subnet && negb (is_loopback ip) && negb (ip =? gr_interface g)).
(** [Groups::contains] (bacnet-bip-core/src/node/addressing.rs) *)
Definition groups_contains (g : Groups) (a : SocketAddrV4) : bool :=
  ((sa_ip a =? sa_ip (gr_broadcast g)) && (sa_port a =? sa_port (gr_broadcast g))) || contains_ip g (sa_ip a).
(** [Link::groups] (bacnet-bip-core/src/node/addressing.rs) *)
Definition link_groups (l : Link) : Groups :=
  {| gr_broadcast := ls_broadcast (lk_subnet l); gr_interface := sa_ip (lk_address l);
     gr_directed := match ls_directed (lk_subnet l) with Some d => d | None => 0 end |}.
(** [Link::is_own] (bacnet-bip-core/src/node/addressing.rs) *)
Definition is_own (l : Link) (a : SocketAddrV4) : bool := bool_decide (a = lk_address l).
(** [Link::is_answerable] (bacnet-bip-core/src/node/addressing.rs) *)
Definition is_answerable (l : Link) (source : SocketAddrV4) : bool :=
  negb (is_unspecified (sa_ip source)) && negb (sa_port source =? 0)
  && negb (contains_ip (link_groups l) (sa_ip source)) && negb (is_own l source).

(** [Link::validate] (bacnet-bip-core/src/node/config.rs) *)
Definition link_validate (l : Link) : Result unit ConfigError :=
  if sa_port (lk_address l) =? 0 then Err OwnPort else
  if is_group (lk_subnet l) && match lk_mode l with ModeForeign _ => true | _ => false end
  then Err MulticastMode else
  if match lk_budget l with Some budget => budget <? MIN_BUDGET | None => false end then Err BudgetError else
  match lk_mode l with
  | ModeForeign f =>
      let ttl := ttl_duration f in
      let renewal := fr_renewal f in
      if (fr_ttl f =? 0) || (renewal =? 0) || (ttl <=? renewal) then Err RenewalError else
      if fr_response_timeout f =? 0 then Err ResponseTimeoutError else
      match fr_bbmd f with
      | Some bbmd =>
          if sa_port bbmd =? 0 then Err BbmdPort else
          if is_unspecified (sa_ip bbmd) || groups_contains (link_groups l) bbmd then Err BbmdAddress else
          let own := lk_address l in
          if (sa_ip bbmd =? sa_ip own) && (sa_port bbmd =? sa_port own) then Err BbmdIsSelf else Ok tt
      | None => Ok tt
      end
  | _ => Ok tt
  end.
(** [Link::new] (bacnet-bip-core/src/node/config.rs) *)
Definition link_new (address : SocketAddrV4) (subnet : LocalSubnet) (mode : Mode) : Result Link ConfigError :=
  let link := {| lk_address := address; lk_subnet := subnet; lk_mode := mode; lk_budget := Some MAX_DATAGRAM |} in
  match link_validate link with Ok _ => Ok link | Err e => Err e end.

(** ** Receiving (receive.rs) *)

(** [Path] (bacnet-bip-core/src/node/receive.rs) *)
Inductive Path := Primary | Listener (other_interface : bool).
(** [Datagram] (bacnet-bip-core/src/node/receive.rs) *)
Record Datagram := {
  dg_payload : bytes; dg_source : SocketAddrV4; dg_to : option Addressed; dg_path : Path; dg_truncated : bool
}.
(** [Datagram::new] (bacnet-bip-core/src/node/receive.rs) *)
Definition datagram_new (payload : bytes) (source : SocketAddrV4) (to : option Addressed) : Datagram :=
  {| dg_payload := payload; dg_source := source; dg_to := to; dg_path := Primary; dg_truncated := false |}.
(** The host's admission rules, with the state they keep.
    [Policy] (bacnet-bip-core/src/node/receive.rs) *)
Class Policy (P : Type) := {
  admit_management : P -> SocketAddrV4 -> BvlcFunction -> P * bool;
  accept_table : P -> Bvll -> P * bool
}.
(** [Permissive] (bacnet-bip-core/src/node/receive.rs) *)
#[export] Instance permissive_policy : Policy unit :=
  {| admit_management p _ _ := (p, true); accept_table p _ := (p, true) |}.
(** [Delivery] (bacnet-bip-core/src/node/receive.rs) *)
Record Delivery := { dl_npdu : bytes; dl_source : SocketAddrV4; dl_group : bool }.
(** [Response] (bacnet-bip-core/src/node/receive.rs) *)
Record Response := {
  rs_peer : SocketAddrV4; rs_function : BvlcFunction; rs_message : Result Bvll BvllError; rs_accepted : bool
}.
(** [Discard] (bacnet-bip-core/src/node/receive.rs) *)
Inductive Discard :=
| DTruncated | DGroupSource | DUnknownDestination | DListenerMismatch (other_interface : bool) | DTooShort | DNotBip
| DLengthMismatch | DDestinationMismatch | DRateLimited | DUnknownFunction | DMalformedPayload | DOwnEcho
| DGroupOrigin | DUnanswerableSource | DForwardedUntrusted.
#[global] Instance Discard_eq_dec : EqDecision Discard.
Proof. solve_decision. Defined.
(** [Discard::of_decode_error] (bacnet-bip-core/src/node/receive.rs) *)
Definition of_decode_error (e : BvllError) : Discard :=
  match e with
  | BvllTooShort _ => DTooShort | NotBip _ => DNotBip | LengthMismatch _ _ => DLengthMismatch
  | UnknownFunction _ => DUnknownFunction | _ => DMalformedPayload
  end.
(** [ForBbmd] (bacnet-bip-core/src/node/receive.rs) *)
Inductive ForBbmd :=
| ForOriginalBroadcast (delivery : Delivery)
| ForForwarded (sender : SocketAddrV4) (arrival : Arrival) (origin : SocketAddrV4) (npdu : bytes)
| ForDistribute (sender : SocketAddrV4) (npdu : bytes)
| ForManagement (request : Request).
(** [Received] (bacnet-bip-core/src/node/receive.rs) *)
Inductive Received :=
| RDeliver (delivery : Delivery)
| RNak (to : SocketAddrV4) (code : BvlcResultCode) (malformed : bool)
| RResponse (response : Response)
| RBbmd (share : ForBbmd)
| RDiscarded (reason : Discard).

(** [ForBbmd::of_request] (bacnet-bip-core/src/node/receive.rs) *)
Definition of_request (message : Bvll) (sender : SocketAddrV4) : option ForBbmd :=
  match message with
  | DistributeBroadcastToNetwork npdu => Some (ForDistribute sender npdu)
  | RegisterForeignDevice ttl => Some (ForManagement (ReqRegister sender ttl))
  | ReadBroadcastDistributionTable => Some (ForManagement (ReqReadBdt sender))
  | ReadForeignDeviceTable => Some (ForManagement (ReqReadFdt sender))
  | DeleteForeignDeviceTableEntry entry => Some (ForManagement (ReqDeleteFdtEntry sender entry))
  | _ => None
  end.
(** [rate_limited] (bacnet-bip-core/src/node/receive.rs) *)
Definition rate_limited (function : BvlcFunction) : bool :=
  (function =? READ_BROADCAST_DISTRIBUTION_TABLE) || (function =? READ_FOREIGN_DEVICE_TABLE)
  || (function =? REGISTER_FOREIGN_DEVICE) || (function =? DELETE_FOREIGN_DEVICE_TABLE_ENTRY).
(** [listener_address_mismatch] (bacnet-bip-core/src/node/receive.rs) *)
Definition listener_address_mismatch (to : Addressed) (other_interface : bool) : option Discard :=
  if negb (ad_broadcast to) then Some (DListenerMismatch false)
  else if other_interface then Some (DListenerMismatch true) else None.
(** [listener_mismatch] (bacnet-bip-core/src/node/receive.rs) *)
Definition listener_mismatch (other_interface : bool) : Received := RDiscarded (DListenerMismatch other_interface).
(** [Link::arrival] (bacnet-bip-core/src/node/receive.rs) *)
Definition link_arrival (l : Link) (to : Addressed) (function : BvlcFunction) : option Arrival :=
  match addressed_arrival to function with
  | None => None
  | Some arrival =>
      if ad_node to && (function =? FORWARDED_NPDU) && match lk_mode l with ModeForeign _ => true | _ => false end
      then Some ArrivedUnicast else Some arrival
  end.
(** [Link::forwarded] (bacnet-bip-core/src/node/receive.rs) *)
Definition link_forwarded (l : Link) (sender : SocketAddrV4) (arrival : Arrival) (origin : SocketAddrV4) (npdu : bytes)
  : Received :=
  if is_own l origin then RDiscarded DOwnEcho else
  if groups_contains (link_groups l) origin then RDiscarded DGroupOrigin else
  let deliver := RDeliver {| dl_npdu := npdu; dl_source := origin; dl_group := true |} in
  match lk_mode l with
  | ModeBbmd => if is_own l sender then RDiscarded DOwnEcho else RBbmd (ForForwarded sender arrival origin npdu)
  | ModeForeign f =>
      if bool_decide (fr_trust f = ConfiguredBbmd)
         && (negb (bool_decide (fr_bbmd f = Some sender)) || negb (bool_decide (arrival = ArrivedUnicast)))
      then RDiscarded DForwardedUntrusted else deliver
  | ModeNormal => deliver
  end.
(** [Link::request] (bacnet-bip-core/src/node/receive.rs) *)
Definition link_request (l : Link) (message : Bvll) (source : SocketAddrV4) : Received :=
  let function := bvll_function message in
  match bvlc_nak function with
  | None => RDiscarded DUnknownFunction
  | Some code =>
      if (function =? DISTRIBUTE_BROADCAST_TO_NETWORK) && is_own l source then RDiscarded DOwnEcho else
      match match lk_mode l with ModeBbmd => of_request message source | _ => None end with
      | Some share => RBbmd share
      | None => if negb (is_answerable l source) then RDiscarded DUnanswerableSource else RNak source code false
      end
  end.
(** [Link::malformed] (bacnet-bip-core/src/node/receive.rs) *)
Definition link_malformed (l : Link) (function : BvlcFunction) (error : BvllError) (source : SocketAddrV4) : Received :=
  match bvlc_nak function with
  | Some code => if is_answerable l source then RNak source code true else RDiscarded DMalformedPayload
  | None =>
      if (function =? BVLC_RESULT) || (function =? READ_BROADCAST_DISTRIBUTION_TABLE_ACK)
         || (function =? READ_FOREIGN_DEVICE_TABLE_ACK)
      then RResponse {| rs_peer := source; rs_function := function; rs_message := Err error; rs_accepted := false |}
      else RDiscarded (of_decode_error error)
  end.

Section Receive.
Context {P : Type} `{Policy P}.
(** [Link::dispatch] (bacnet-bip-core/src/node/receive.rs) *)
Definition link_dispatch (l : Link) (message : Bvll) (source : SocketAddrV4) (arrival : Arrival) (policy : P)
  : P * Received :=
  match message with
  | OriginalUnicastNpdu npdu =>
      (policy, if is_own l source then RDiscarded DOwnEcho else
       RDeliver {| dl_npdu := npdu; dl_source := source; dl_group := bool_decide (arrival = ArrivedBroadcast) |})
  | OriginalBroadcastNpdu npdu =>
      (policy, if is_own l source then RDiscarded DOwnEcho else
       let delivery := {| dl_npdu := npdu; dl_source := source; dl_group := true |} in
       match lk_mode l with ModeBbmd => RBbmd (ForOriginalBroadcast delivery) | _ => RDeliver delivery end)
  | ForwardedNpdu origin npdu => (policy, link_forwarded l source arrival origin npdu)
  | BvlcResultMsg _ =>
      (policy, RResponse {| rs_peer := source; rs_function := bvll_function message; rs_message := Ok message;
                            rs_accepted := true |})
  | ReadBroadcastDistributionTableAck _ | ReadForeignDeviceTableAck _ =>
      let '(policy, accepted) := accept_table policy message in
      (policy, RResponse {| rs_peer := source; rs_function := bvll_function message; rs_message := Ok message;
                            rs_accepted := accepted |})
  | _ => (policy, link_request l message source)
  end.
(** From the rate limit on, for a frame whose destination fits.
    [Link::receive] (bacnet-bip-core/src/node/receive.rs:332-338) *)
Definition receive_frame (l : Link) (frame : BvllFrame) (source : SocketAddrV4) (arrival : Arrival) (policy : P)
  : P * Received :=
  let '(policy, admitted) :=
    if rate_limited (bf_function frame) then admit_management policy source (bf_function frame) else (policy, true) in
  if negb admitted then (policy, RDiscarded DRateLimited) else
  match bvll_message frame with
  | Ok message => link_dispatch l message source arrival policy
  | Err error => (policy, link_malformed l (bf_function frame) error source)
  end.
(** [Link::receive] (bacnet-bip-core/src/node/receive.rs) *)
Definition link_receive (l : Link) (d : Datagram) (policy : P) : P * Received :=
  let source := dg_source d in
  if dg_truncated d then (policy, RDiscarded DTruncated) else
  if contains_ip (link_groups l) (sa_ip source) then (policy, RDiscarded DGroupSource) else
  match dg_to d with
  | None => (policy, RDiscarded DUnknownDestination)
  | Some to =>
      let listener := match dg_path d with Listener _ => true | Primary => false end in
      match match dg_path d with Listener other => listener_address_mismatch to other | Primary => None end with
      | Some discard => (policy, RDiscarded discard)
      | None =>
          match bvll_frame_decode (dg_payload d) with
          | Err error => (policy, RDiscarded (of_decode_error error))
          | Ok frame =>
              match link_arrival l to (bf_function frame) with
              | None => (policy, RDiscarded DDestinationMismatch)
              | Some arrival =>
                  if listener && negb (bool_decide (arrival = ArrivedBroadcast)) then (policy, listener_mismatch false)
                  else receive_frame l frame source arrival policy
              end
          end
      end
  end.
End Receive.

(** [Link::listener_keeps] (bacnet-bip-core/src/node/receive.rs) *)
Definition listener_keeps (l : Link) (d : Datagram) : bool :=
  match dg_to d, dg_path d with
  | Some to, Listener other_interface =>
      if is_some (listener_address_mismatch to other_interface) then false else
      match bvll_frame_decode (dg_payload d) with
      | Ok frame =>
          match link_arrival l to (bf_function frame) with
          | Some arrival => bool_decide (arrival = ArrivedBroadcast)
          | None => true
          end
      | Err _ => true
      end
  | _, _ => true
  end.

(** ** Sending (send.rs) *)

(** [Outgoing] (bacnet-bip-core/src/node/send.rs) *)
Record Outgoing := { og_to : SocketAddrV4; og_message : Bvll }.
(** [Cast] (bacnet-bip-core/src/node/send.rs) *)
Inductive Cast := Unicast | Broadcast.
(** [SendRefusal] (bacnet-bip-core/src/node/send.rs) *)
Inductive SendRefusal := SendTooLong (max : Z) | HoldFull | GroupDestination | SocketFull | SocketError | NoBbmd.
#[global] Instance SendRefusal_eq_dec : EqDecision SendRefusal.
Proof. solve_decision. Defined.
(** [BROADCAST_OVERHEAD] (bacnet-bip-core/src/node/send.rs) *)
Definition BROADCAST_OVERHEAD : Z := Z.of_nat BVLL_HEADER_LENGTH + 6.
(** [Link::max_npdu] (bacnet-bip-core/src/node/send.rs) *)
Definition max_npdu (l : Link) (cast : Cast) : Z :=
  let overhead := match cast with Unicast => Z.of_nat BVLL_HEADER_LENGTH | Broadcast => BROADCAST_OVERHEAD end in
  match lk_budget l with
  | Some budget => Z.min (sat_sub budget overhead) (Z.of_nat MAX_NPDU)
  | None => MAX_BVLL_LENGTH - overhead
  end.
(** [Link::fits] (bacnet-bip-core/src/node/send.rs) *)
Definition link_fits (l : Link) (npdu : bytes) (cast : Cast) : Result unit SendRefusal :=
  if negb (is_some (lk_budget l)) then Ok tt else
  let max := max_npdu l cast in
  if max <? Z.of_nat (length npdu) then Err (SendTooLong max) else Ok tt.
(** [Link::unicast] (bacnet-bip-core/src/node/send.rs) *)
Definition link_unicast (l : Link) (to : SocketAddrV4) (npdu : bytes) : Result Outgoing SendRefusal :=
  if groups_contains (link_groups l) to then Err GroupDestination else
  let? _ := link_fits l npdu Unicast in Ok {| og_to := to; og_message := OriginalUnicastNpdu npdu |}.
(** [Link::broadcast] (bacnet-bip-core/src/node/send.rs) *)
Definition link_broadcast (l : Link) (npdu : bytes) : Result (Outgoing * bool) SendRefusal :=
  let? _ := link_fits l npdu Broadcast in
  let local := {| og_to := ls_broadcast (lk_subnet l); og_message := OriginalBroadcastNpdu npdu |} in
  match lk_mode l with
  | ModeNormal => Ok (local, false)
  | ModeBbmd => Ok (local, true)
  | ModeForeign f =>
      let? bbmd := ok_or (fr_bbmd f) NoBbmd in
      Ok ({| og_to := bbmd; og_message := DistributeBroadcastToNetwork npdu |}, false)
  end.
