(* ===== verification/LinkTheorems.v ===== *)
(** * What a link's decisions guarantee

    The outcome of each received datagram, the broadcast listener's predicate, the bounds on what is sent, and whole
    paths: a message sent by one node's link, encoded, decoded and dispatched by another's, directly or
    through a BBMD's tables. *)

From S2P Require Import Prelude Time Npdu Sink Bvll Fdt Bdt Bbmd Forwarding NodeLink.
Open Scope Z_scope.

(** ** Lemmas *)

Lemma bvll_message_function f m : bvll_message f = Ok m -> bvll_function m = bf_function f.
Proof.
  unfold bvll_message. cbv zeta. intros H.
  repeat match type of H with
  | (if ?b then _ else _) = Ok _ => destruct b eqn:?
  end; try discriminate;
  repeat match type of H with
  | match ?x with _ => _ end = Ok _ => destruct x eqn:?; try discriminate
  | rbind ?x _ = Ok _ => destruct x eqn:?; cbn [rbind] in H; try discriminate
  end; injection H as <-; cbn [bvll_function]; symmetry; by apply Z.eqb_eq.
Qed.

Lemma link_arrival_point l to f a : f <> ORIGINAL_BROADCAST_NPDU -> f <> FORWARDED_NPDU ->
  link_arrival l to f = Some a -> ad_node to = true /\ a = ArrivedUnicast.
Proof.
  intros H1 H2. unfold link_arrival, addressed_arrival.
  rewrite (proj2 (Z.eqb_neq f ORIGINAL_BROADCAST_NPDU)), (proj2 (Z.eqb_neq f FORWARDED_NPDU)) by done.
  rewrite andb_false_r. cbn [andb]. destruct (f =? ORIGINAL_UNICAST_NPDU), (ad_node to); naive_solver.
Qed.
Lemma link_arrival_broadcast l to a : link_arrival l to ORIGINAL_BROADCAST_NPDU = Some a ->
  ad_broadcast to = true /\ a = ArrivedBroadcast.
Proof. unfold link_arrival, addressed_arrival. cbn. rewrite andb_false_r. destruct (ad_broadcast to); naive_solver. Qed.
Lemma link_arrival_some l to f a : link_arrival l to f = Some a ->
  (ad_node to = true \/ ad_broadcast to = true) /\ (a = ArrivedUnicast -> ad_node to = true) /\
  (a = ArrivedBroadcast -> ad_broadcast to = true).
Proof.
  unfold link_arrival, addressed_arrival. intros H.
  destruct (f =? ORIGINAL_UNICAST_NPDU), (f =? ORIGINAL_BROADCAST_NPDU), (f =? FORWARDED_NPDU), (ad_node to),
    (ad_broadcast to), (lk_mode l); cbn in H; naive_solver.
Qed.

(** The functions with a NAK are the six requests. *)
Lemma bvlc_nak_point f code : bvlc_nak f = Some code -> f <> ORIGINAL_BROADCAST_NPDU /\ f <> FORWARDED_NPDU /\
  f <> ORIGINAL_UNICAST_NPDU /\ f <> BVLC_RESULT /\ f <> READ_BROADCAST_DISTRIBUTION_TABLE_ACK /\
  f <> READ_FOREIGN_DEVICE_TABLE_ACK.
Proof. intros H. split_and!; intros ->; discriminate H. Qed.

(** ** Receiving *)

Section Receive.
Context {P : Type} `{Policy P}.

(** A datagram that passed the rules up to its destination. *)
Record passed (l : Link) (d : Datagram) (to : Addressed) (frame : BvllFrame) (arrival : Arrival) : Prop := {
  ps_whole : dg_truncated d = false;
  ps_source : contains_ip (link_groups l) (sa_ip (dg_source d)) = false;
  ps_to : dg_to d = Some to;
  ps_frame : bvll_frame_decode (dg_payload d) = Ok frame;
  ps_arrival : link_arrival l to (bf_function frame) = Some arrival;
  ps_path : dg_path d = Primary \/ arrival = ArrivedBroadcast /\ dg_path d = Listener false
}.
Lemma link_receive_inv l d p : let '(p', r) := link_receive l d p in
  (exists reason, r = RDiscarded reason) \/
  (exists to frame arrival, passed l d to frame arrival /\ receive_frame l frame (dg_source d) arrival p = (p', r)).
Proof.
  destruct (link_receive l d p) as [p' r] eqn:E. unfold link_receive in E. cbv zeta in E.
  destruct (dg_truncated d) eqn:E1; [simplify_eq; eauto|].
  destruct (contains_ip _ _) eqn:E2; [simplify_eq; eauto|].
  destruct (dg_to d) as [to|] eqn:E3; [|simplify_eq; eauto].
  destruct (match dg_path d with Primary => _ | _ => _ end) eqn:E4; [simplify_eq; eauto|].
  destruct (bvll_frame_decode _) as [frame|] eqn:E5; [|simplify_eq; eauto].
  destruct (link_arrival _ _ _) as [arrival|] eqn:E6; [|simplify_eq; eauto].
  destruct (_ && _) eqn:E7; [unfold listener_mismatch in E; simplify_eq; eauto|].
  right. exists to, frame, arrival. split; [|done]. split; try done.
  destruct (dg_path d) as [|other]; [by left|]. right. apply negb_false_iff, bool_decide_eq_true in E7.
  split; [done|]. unfold listener_address_mismatch in E4. destruct (ad_broadcast to), other; naive_solver.
Qed.
Lemma receive_frame_inv l frame source arrival p : let '(p', r) := receive_frame l frame source arrival p in
  r = RDiscarded DRateLimited \/ exists p1,
  match bvll_message frame with
  | Ok m => link_dispatch l m source arrival p1 = (p', r)
  | Err e => link_malformed l (bf_function frame) e source = r
  end.
Proof.
  unfold receive_frame. destruct (if rate_limited _ then _ else _) as [p1 admitted].
  destruct admitted; cbn; [|by left].
  destruct (bvll_message frame); cbn; [destruct (link_dispatch _ _ _ _ _) eqn:?|]; right; by exists p1.
Qed.

(** What each outcome of a received datagram is worth. *)
Definition received_ok (l : Link) (d : Datagram) (r : Received) : Prop :=
  match r with
  | RDeliver dv =>
      exists to m, dg_to d = Some to /\ bvll_decode (dg_payload d) = Ok m /\ bvll_npdu m = Some (dl_npdu dv) /\
        dl_source dv = default (dg_source d) (bvll_origin m) /\ is_own l (dl_source dv) = false /\
        contains_ip (link_groups l) (sa_ip (dl_source dv)) = false /\
        (if dl_group dv then m <> OriginalUnicastNpdu (dl_npdu dv)
         else m = OriginalUnicastNpdu (dl_npdu dv) /\ ad_node to = true /\ dg_path d = Primary)
  | RNak to code malformed =>
      to = dg_source d /\ is_answerable l to = true /\ dg_path d = Primary /\
      (exists a, dg_to d = Some a /\ ad_node a = true) /\
      (exists frame, bvll_frame_decode (dg_payload d) = Ok frame /\ bvlc_nak (bf_function frame) = Some code /\
         (malformed = true <-> forall m, bvll_message frame <> Ok m) /\
         (lk_mode l = ModeBbmd -> malformed = true \/ bf_function frame = WRITE_BROADCAST_DISTRIBUTION_TABLE))
  | RResponse r =>
      rs_peer r = dg_source d /\ dg_path d = Primary /\ (exists a, dg_to d = Some a /\ ad_node a = true) /\
      rs_message r = bvll_decode (dg_payload d) /\
      rs_function r ∈ [BVLC_RESULT; READ_BROADCAST_DISTRIBUTION_TABLE_ACK; READ_FOREIGN_DEVICE_TABLE_ACK]
  | RBbmd share =>
      lk_mode l = ModeBbmd /\ exists m, bvll_decode (dg_payload d) = Ok m /\
      match share with
      | ForOriginalBroadcast dv => m = OriginalBroadcastNpdu (dl_npdu dv) /\ dl_source dv = dg_source d /\
          is_own l (dg_source d) = false
      | ForForwarded sender _ origin npdu => m = ForwardedNpdu origin npdu /\ sender = dg_source d /\
          is_own l sender = false /\ is_own l origin = false /\ groups_contains (link_groups l) origin = false
      | ForDistribute sender npdu => m = DistributeBroadcastToNetwork npdu /\ sender = dg_source d /\
          is_own l sender = false /\ dg_path d = Primary /\ (exists a, dg_to d = Some a /\ ad_node a = true)
      | ForManagement request => of_request m (dg_source d) = Some (ForManagement request) /\
          dg_path d = Primary /\ (exists a, dg_to d = Some a /\ ad_node a = true)
      end
  | RDiscarded _ => True
  end.

Lemma passed_point l d to frame arrival : passed l d to frame arrival ->
  bf_function frame <> ORIGINAL_BROADCAST_NPDU -> bf_function frame <> FORWARDED_NPDU ->
  arrival = ArrivedUnicast /\ dg_path d = Primary /\ exists a, dg_to d = Some a /\ ad_node a = true.
Proof.
  intros [] H1 H2. destruct (link_arrival_point l to (bf_function frame) arrival) as [? ->]; [done..|].
  split_and!; [done| |by exists to]. by destruct ps_path0 as [|[? ?]].
Qed.
Lemma groups_contains_ip g a : groups_contains g a = false -> contains_ip g (sa_ip a) = false.
Proof. unfold groups_contains. intros [_ ?]%orb_false_iff. done. Qed.
Lemma passed_decode l d to frame arrival : passed l d to frame arrival ->
  bvll_decode (dg_payload d) = bvll_message frame.
Proof. intros []. unfold bvll_decode. by rewrite ps_frame0. Qed.

Lemma request_ok l d to frame arrival m : passed l d to frame arrival -> bvll_message frame = Ok m ->
  received_ok l d (link_request l m (dg_source d)).
Proof.
  intros Hp Hm. pose proof (passed_decode _ _ _ _ _ Hp) as Hd. rewrite Hm in Hd.
  pose proof (bvll_message_function _ _ Hm) as Hf. unfold link_request. rewrite Hf.
  destruct (bvlc_nak _) as [code|] eqn:En; [|done].
  destruct (_ && _) eqn:Eo; [done|].
  destruct (bvlc_nak_point _ _ En) as (Hb & Hw & _).
  destruct (passed_point _ _ _ _ _ Hp Hb Hw) as (-> & Hpath & Hto).
  assert (Hnak : (lk_mode l = ModeBbmd -> bf_function frame = WRITE_BROADCAST_DISTRIBUTION_TABLE) ->
    received_ok l d (if negb (is_answerable l (dg_source d)) then RDiscarded DUnanswerableSource
                     else RNak (dg_source d) code false)).
  { intros Hmode. destruct (is_answerable l (dg_source d)) eqn:Ea; [|done]. cbn. split_and!; try done.
    exists frame. split_and!; [apply Hp|done| |naive_solver]. split; [done|]. intros Hn. by destruct (Hn m). }
  destruct (lk_mode l) eqn:El; [by apply Hnak..|].
  destruct (of_request m (dg_source d)) as [share|] eqn:Er.
  - split; [done|]. exists m. split; [done|].
    destruct m; cbn in Er; simplify_eq; try done. split_and!; [done|done| |done|done].
    cbn in Hf. rewrite <-Hf in Eo. exact Eo.
  - apply Hnak. intros _. rewrite <-Hf. rewrite <-Hf in En. destruct m; cbn in Er, En; simplify_eq; done.
Qed.
Lemma forwarded_ok l d to frame arrival origin npdu : passed l d to frame arrival ->
  bvll_message frame = Ok (ForwardedNpdu origin npdu) ->
  received_ok l d (link_forwarded l (dg_source d) arrival origin npdu).
Proof.
  intros Hp Hm. pose proof (passed_decode _ _ _ _ _ Hp) as Hd. rewrite Hm in Hd. unfold link_forwarded.
  destruct (is_own l origin) eqn:Eo; [done|]. destruct (groups_contains _ _) eqn:Eg; [done|]. cbv zeta.
  assert (Hv : received_ok l d (RDeliver {| dl_npdu := npdu; dl_source := origin; dl_group := true |})).
  { exists to, (ForwardedNpdu origin npdu). cbn. split_and!; try done; [apply Hp|by apply groups_contains_ip]. }
  destruct (lk_mode l) eqn:El; [done|by destruct (_ && _)|].
  destruct (is_own l (dg_source d)) eqn:Es; [done|]. split; [done|]. by eexists.
Qed.
Lemma malformed_ok l d to frame arrival e : passed l d to frame arrival -> bvll_message frame = Err e ->
  received_ok l d (link_malformed l (bf_function frame) e (dg_source d)).
Proof.
  intros Hp Hm. pose proof (passed_decode _ _ _ _ _ Hp) as Hd. rewrite Hm in Hd. unfold link_malformed.
  destruct (bvlc_nak _) as [code|] eqn:En.
  - destruct (is_answerable _ _) eqn:Ea; [|done].
    destruct (bvlc_nak_point _ _ En) as (Hb & Hw & _).
    destruct (passed_point _ _ _ _ _ Hp Hb Hw) as (-> & Hpath & Hto). cbn. split_and!; try done.
    exists frame. split_and!; [apply Hp|done| |by left]. split; [|done]. intros _ m. by rewrite Hm.
  - destruct (_ || _) eqn:Ef; [|done].
    assert (Hin : bf_function frame ∈
      [BVLC_RESULT; READ_BROADCAST_DISTRIBUTION_TABLE_ACK; READ_FOREIGN_DEVICE_TABLE_ACK]).
    { rewrite !elem_of_cons. lia. }
    destruct (passed_point _ _ _ _ _ Hp) as (-> & Hpath & Hto);
      [intros E; rewrite E in Hin; set_solver..|]. cbn. split_and!; done.
Qed.

Lemma response_ok l d to frame arrival m accepted : passed l d to frame arrival -> bvll_message frame = Ok m ->
  bvll_function m ∈ [BVLC_RESULT; READ_BROADCAST_DISTRIBUTION_TABLE_ACK; READ_FOREIGN_DEVICE_TABLE_ACK] ->
  received_ok l d (RResponse {| rs_peer := dg_source d; rs_function := bvll_function m; rs_message := Ok m;
                                rs_accepted := accepted |}).
Proof.
  intros Hp Hm Hin. pose proof (passed_decode _ _ _ _ _ Hp) as Hd. rewrite Hm in Hd.
  destruct (passed_point _ _ _ _ _ Hp) as (-> & Hpath & Hto);
    [rewrite <-(bvll_message_function _ _ Hm); intros E; rewrite E in Hin; set_solver..|].
  cbn. split_and!; done.
Qed.


Lemma receive_frame_listener l frame source arrival p other :
  (receive_frame l frame source arrival p).2 <> RDiscarded (DListenerMismatch other).
Proof.
  pose proof (receive_frame_inv l frame source arrival p) as Hf. destruct (receive_frame _ _ _ _ _) as [p' r].
  cbn [snd]. destruct Hf as [->|[p1 Hf]]; [done|]. intros ->.
  destruct (bvll_message frame) as [m|e].
  - destruct m; cbn [link_dispatch] in Hf; try destruct (accept_table _ _); try discriminate; injection Hf as _ Hf;
      revert Hf; unfold link_request, link_forwarded; cbv zeta; repeat (case_match; try discriminate).
  - revert Hf. unfold link_malformed, of_decode_error. repeat (case_match; try discriminate).
Qed.

(** The listener predicate a frame tap asks and the receive rules agree: a whole datagram, from no group, with a
    reported destination, is dropped as not the listener's exactly when the predicate refuses it. *)
Theorem listener_keeps_exact l d p :
  (exists other, (link_receive l d p).2 = RDiscarded (DListenerMismatch other)) <->
  dg_truncated d = false /\ contains_ip (link_groups l) (sa_ip (dg_source d)) = false /\ listener_keeps l d = false.
Proof.
  unfold link_receive, listener_keeps. cbv zeta.
  destruct (dg_truncated d); [naive_solver|]. destruct (contains_ip _ _); [naive_solver|].
  destruct (dg_to d) as [to|]; [|naive_solver].
  destruct (dg_path d) as [|other]; cbn [andb].
  - destruct (bvll_frame_decode _) as [frame|e] eqn:Ed; [|destruct e; naive_solver].
    destruct (link_arrival _ _ _); [|naive_solver].
    split; [intros [o Ho]; by destruct (receive_frame_listener l frame (dg_source d) a p o)|naive_solver].
  - destruct (listener_address_mismatch to other) as [reason|] eqn:Em.
    + unfold listener_address_mismatch in Em. destruct (ad_broadcast to), other; naive_solver.
    + cbn [is_some]. destruct (bvll_frame_decode _) as [frame|e] eqn:Ed; [|destruct e; naive_solver].
      destruct (link_arrival _ _ _) as [a|]; [|naive_solver].
      case_bool_decide; cbn [negb andb]; [|unfold listener_mismatch; naive_solver].
      split; [intros [o Ho]; by destruct (receive_frame_listener l frame (dg_source d) a p o)|naive_solver].
Qed.
End Receive.

(** ** Sending *)

(** An NPDU message's encoded length, where the Length field can state it. *)
Lemma npdu_message_len m npdu : bvll_npdu m = Some npdu ->
  let len := (BVLL_HEADER_LENGTH + length npdu + match bvll_origin m with Some _ => 6 | None => 0 end)%nat in
  Z.of_nat len <= U16_MAX -> bvll_encoded_len m = Ok len.
Proof.
  intros Hm len Hl. unfold bvll_encoded_len.
  destruct m; cbn [bvll_npdu] in Hm; simplify_eq; cbn [bvll_payload_length bvll_origin] in *; cbv zeta;
    unfold len in *; change MAX_BVLL_LENGTH with U16_MAX;
    rewrite (proj2 (Z.ltb_ge _ _)) by lia; f_equal; lia.
Qed.

(** A validated link with a datagram budget sends nothing longer: a unicast goes to no group and its datagram
    is within the budget, a broadcast goes to the subnet, or to the BBMD of a foreign device and never to its
    subnet, and stays within the budget even after a BBMD adds the origin; no NPDU is longer than the network
    layer's limit; and every shorter NPDU is sent. *)
Theorem send_within_budget l b npdu : link_validate l = Ok tt -> lk_budget l = Some b -> is_u16 b ->
  (forall to o, link_unicast l to npdu = Ok o ->
     og_to o = to /\ groups_contains (link_groups l) to = false /\ (length npdu <= MAX_NPDU)%nat /\
     exists n, bvll_encoded_len (og_message o) = Ok n /\ Z.of_nat n <= b) /\
  (forall o flood origin, link_broadcast l npdu = Ok (o, flood) ->
     (length npdu <= MAX_NPDU)%nat /\
     (exists n, bvll_encoded_len (og_message o) = Ok n /\ Z.of_nat n <= b) /\
     (exists n, bvll_encoded_len (ForwardedNpdu origin npdu) = Ok n /\ Z.of_nat n <= b) /\
     match lk_mode l with
     | ModeForeign f => fr_bbmd f = Some (og_to o) /\ groups_contains (link_groups l) (og_to o) = false /\ flood = false
     | mode => og_to o = ls_broadcast (lk_subnet l) /\ (flood = true <-> mode = ModeBbmd)
     end) /\
  (forall to, groups_contains (link_groups l) to = false ->
     Z.of_nat (length npdu) <= Z.min (b - 4) (Z.of_nat MAX_NPDU) ->
     link_unicast l to npdu = Ok {| og_to := to; og_message := OriginalUnicastNpdu npdu |}).
Proof.
  intros Hv Hb Hu.
  assert (Hmin : MIN_BUDGET <= b).
  { unfold link_validate in Hv. rewrite Hb in Hv. repeat case_match; try discriminate; lia. }
  unfold MIN_BUDGET in Hmin.
  assert (Hfit : forall cast, link_fits l npdu cast = Ok tt -> Z.of_nat (length npdu) <= max_npdu l cast).
  { intros cast. unfold link_fits. rewrite Hb. cbn [is_some negb]. cbv zeta. case_match eqn:E; [done|]. intros _. lia. }
  unfold max_npdu in Hfit. rewrite Hb in Hfit.
  pose proof (Hfit Unicast) as Hfu. pose proof (Hfit Broadcast) as Hfb. clear Hfit. cbn iota in Hfu, Hfb.
  unfold sat_sub, BROADCAST_OVERHEAD in *. change (Z.of_nat BVLL_HEADER_LENGTH) with 4 in *.
  split_and!.
  - intros to o. unfold link_unicast. destruct (groups_contains _ _) eqn:Eg; [done|].
    destruct (link_fits l npdu Unicast) as [[]|] eqn:Ef; [|done]. intros [= <-]. cbn [og_to og_message].
    specialize (Hfu eq_refl). split_and!; [done..|lia|].
    eexists. split; [apply (npdu_message_len (OriginalUnicastNpdu npdu) npdu); [done|]|]; cbn; width.
  - intros o flood origin. unfold link_broadcast.
    destruct (link_fits l npdu Broadcast) as [[]|] eqn:Ef; [|done]. cbn [rbind]. specialize (Hfb eq_refl).
    assert (Hfwd : exists n, bvll_encoded_len (ForwardedNpdu origin npdu) = Ok n /\ Z.of_nat n <= b).
    { eexists. split; [apply (npdu_message_len (ForwardedNpdu origin npdu) npdu); [done|]|]; cbn; width. }
    assert (Hout : forall m, bvll_npdu m = Some npdu -> bvll_origin m = None ->
      exists n, bvll_encoded_len m = Ok n /\ Z.of_nat n <= b).
    { intros m Hm Ho. eexists. split; [apply (npdu_message_len m npdu); [done|]|]; cbn; rewrite Ho; width. }
    cbv zeta. destruct (lk_mode l) as [|f|] eqn:El.
    + intros [= <- <-]. split_and!; [lia|by apply Hout|done..].
    + destruct (fr_bbmd f) as [bbmd|] eqn:Ebb; [|done]. cbn [ok_or rbind]. intros [= <- <-].
      split_and!; [lia|by apply Hout|done..| |done]. cbn [og_to].
      unfold link_validate in Hv. rewrite El, Ebb in Hv. repeat case_match; try discriminate.
      cbn [rbind] in *. by bac_simp.
    + intros [= <- <-]. split_and!; [lia|by apply Hout|done..].
  - intros to Eg Hl. unfold link_unicast. rewrite Eg. unfold link_fits. rewrite Hb. cbn [is_some negb]. cbv zeta.
    unfold max_npdu. rewrite Hb. unfold sat_sub. change (Z.of_nat BVLL_HEADER_LENGTH) with 4.
    rewrite (proj2 (Z.ltb_ge _ _)) by lia. done.
Qed.
(** Addresses for the witnesses: 10.0.0.[host], at the B/IP port. *)
Definition host (h : Z) : SocketAddrV4 := {| sa_ip := ipv4_new 10 0 0 h; sa_port := 47808 |}.
Definition node_at (h : Z) (mode : Mode) : Link :=
  {| lk_address := host h; lk_subnet := local_subnet_new (host 255); lk_mode := mode; lk_budget := Some MAX_DATAGRAM |}.
Lemma send_within_budget_witness :
  let l := node_at 1 (ModeForeign (foreign_new (host 9) 60)) in
  link_unicast l (host 2) [1; 4; 16; 8] = Ok {| og_to := host 2; og_message := OriginalUnicastNpdu [1; 4; 16; 8] |} /\
  exists n, bvll_encoded_len (DistributeBroadcastToNetwork [1; 4; 16; 8]) = Ok n /\ Z.of_nat n <= MAX_DATAGRAM.
Proof.
  intros l. destruct (send_within_budget l MAX_DATAGRAM [1; 4; 16; 8]) as (_ & Hb & Hu).
  - vm_compute. reflexivity.
  - reflexivity.
  - split; vm_compute; discriminate.
  - split; [apply Hu; vm_compute; [reflexivity|discriminate]|].
    destruct (Hb {| og_to := host 9; og_message := DistributeBroadcastToNetwork [1; 4; 16; 8] |} false (host 1)) as (_ & H & _);
      [vm_compute; reflexivity|exact H].
Defined.

(** ** From one node to another *)

(** A datagram holding a message's wire octets, sent to what [to] says, read whole by the primary socket. *)
Definition carrying (m : Bvll) (source : SocketAddrV4) (to : Addressed) : Datagram :=
  datagram_new (bvll_wire m) source (Some to).
Section Path.
Context {P : Type} `{Policy P}.
Lemma receive_carrying l m source to p arrival n : wf_bvll m -> bvll_encoded_len m = Ok n ->
  contains_ip (link_groups l) (sa_ip source) = false -> link_arrival l to (bvll_function m) = Some arrival ->
  rate_limited (bvll_function m) = false ->
  link_receive l (carrying m source to) p = link_dispatch l (bvll_received m) source arrival p.
Proof.
  intros Hw Hn Hs Ha Hr. destruct (bvll_encoded_len_ok m n Hn) as [En Hb].
  unfold link_receive, carrying, datagram_new. cbn [dg_source dg_truncated dg_to dg_path dg_payload]. rewrite Hs.
  unfold bvll_wire. rewrite bvll_frame_decode_head; [|width|by rewrite length_bvll_payload].
  cbn [bf_function]. rewrite Ha. cbn [andb]. unfold receive_frame. cbn [bf_function]. rewrite Hr. cbn [negb].
  by rewrite bvll_message_payload.
Qed.

(** An NPDU one link unicasts to another's address is handed up there, octet for octet, as a directed message
    from the sender, in any mode of either; as long as the two addresses differ and the receiver does not take the
    sender's for a group. *)
Theorem unicast_delivered a b npdu o n to p : link_unicast a (lk_address b) npdu = Ok o ->
  wf_bytes npdu -> bvll_encoded_len (og_message o) = Ok n ->
  lk_address a <> lk_address b -> contains_ip (link_groups b) (sa_ip (lk_address a)) = false -> ad_node to = true ->
  og_to o = lk_address b /\
  link_receive b (carrying (og_message o) (lk_address a) to) p =
    (p, RDeliver {| dl_npdu := npdu; dl_source := lk_address a; dl_group := false |}).
Proof.
  unfold link_unicast. destruct (groups_contains _ _); [done|]. destruct (link_fits _ _ _); [|done].
  cbn [rbind]. intros [= <-] Hw Hn Hab Hg Hto. cbn [og_to og_message] in *. split; [done|].
  rewrite (receive_carrying b _ _ to p ArrivedUnicast n); try done.
  - cbn. unfold is_own. by rewrite bool_decide_false.
  - unfold link_arrival, addressed_arrival. cbn. rewrite Hto, andb_false_r. done.
Qed.

Lemma transmitted t cx subnet sender npdu room di r : wf_tables t ->
  distribute_broadcast t cx subnet sender npdu room = Ok di ->
  r ∈ live_at (tb_fdt t) (cx_now cx) -> rg_address r <> sender ->
  (length (live_at (tb_fdt t) (cx_now cx)) <= cx_fdt_fanout cx)%nat -> (MAX_TARGETS t <= room)%nat ->
  (rg_address r, distribution_message di) ∈ transmissions di.
Proof.
  intros Hw Hd Hr Hne Hfan Hroom. destruct (distribute_fanout _ _ _ _ _ _ _ Hd) as [Ht _].
  unfold transmissions. rewrite Ht. apply list_elem_of_fmap.
  assert (Hall : (length (owed t cx (distributed_on subnet) (peer_destinations t sender) sender) <= MAX_TARGETS t)%nat).
  { apply owed_length; [done| |apply peer_destinations_length; done]. unfold distributed_on. case_match; cbn; lia. }
  rewrite take_ge by lia. unfold owed.
  assert (Hdev : forall peers, (length (device_candidates t (cx_now cx) sender peers) <= cx_fdt_fanout cx)%nat).
  { intros peers. unfold device_candidates, addresses. rewrite length_fmap.
    etrans; [apply filter_length_le|done]. }
  rewrite (take_ge (device_candidates _ _ _ _)) by done.
  destruct (decide (rg_address r ∈ peer_destinations t sender)) as [Hp|Hp].
  - exists (via Peer (rg_address r)). split; [done|]. rewrite !elem_of_app. right. left. by apply list_elem_of_fmap_2.
  - exists (via ForeignDevice (rg_address r)). split; [done|]. rewrite !elem_of_app. right. right.
    apply list_elem_of_fmap_2. unfold device_candidates, addresses. apply list_elem_of_fmap_2, list_elem_of_In, filter_In.
    split; [by apply list_elem_of_In|]. unfold at_address. by rewrite !bool_decide_false.
Qed.

(** A foreign device's broadcast, end to end. What the device sends goes to its BBMD; the BBMD's link hands it to the
    tables as a distribution from that device; with the device registered, a fanout budget for the live
    registrations and storage for [MAX_TARGETS], the tables send it to every other registered device; and such a
    device, taking Forwarded-NPDUs only from its BBMD, hands the same NPDU up as a broadcast from the device that sent it. *)
Theorem foreign_broadcast_delivered f b g ff gf t cx npdu o flood n r room p :
  let direct := {| ad_node := true; ad_broadcast := false |} in
  lk_mode f = ModeForeign ff -> fr_bbmd ff = Some (lk_address b) -> lk_mode b = ModeBbmd ->
  lk_mode g = ModeForeign gf -> fr_bbmd gf = Some (lk_address b) ->
  link_broadcast f npdu = Ok (o, flood) -> wf_bytes npdu -> wf_sa (lk_address f) ->
  bvll_encoded_len (ForwardedNpdu (lk_address f) npdu) = Ok n ->
  lk_address f <> lk_address b -> contains_ip (link_groups b) (sa_ip (lk_address f)) = false ->
  lk_address f <> lk_address g -> groups_contains (link_groups g) (lk_address f) = false ->
  contains_ip (link_groups g) (sa_ip (lk_address b)) = false ->
  wf_tables t -> tb_nat t = None -> is_registered_at (tb_fdt t) (lk_address f) (cx_now cx) = true ->
  r ∈ live_at (tb_fdt t) (cx_now cx) -> rg_address r = lk_address g ->
  (length (live_at (tb_fdt t) (cx_now cx)) <= cx_fdt_fanout cx)%nat -> (MAX_TARGETS t <= room)%nat ->
  og_to o = lk_address b /\
  link_receive b (carrying (og_message o) (lk_address f) direct) p = (p, RBbmd (ForDistribute (lk_address f) npdu)) /\
  exists di, distribute_broadcast t cx (lk_subnet b) (lk_address f) npdu room = Ok di /\
    (lk_address g, distribution_message di) ∈ transmissions di /\
    link_receive g (carrying (distribution_message di) (lk_address b) direct) p =
      (p, RDeliver {| dl_npdu := npdu; dl_source := lk_address f; dl_group := true |}).
Proof.
  intros direct Hf Hfb Hb Hg Hgb Ho Hw Hsa Hn Hfb' Hcb Hfg Hcg Hcgb Ht Hnat Hreg Hr Hrg Hfan Hroom.
  unfold link_broadcast in Ho. rewrite Hf, Hfb in Ho. destruct (link_fits _ _ _); [|done]. cbn in Ho.
  injection Ho as <- <-. cbn [og_to og_message]. split; [done|].
  destruct (bvll_encoded_len_ok _ _ Hn) as [En Hlen]. cbn in En. split.
  - rewrite (receive_carrying b _ _ direct p ArrivedUnicast (4 + length npdu + 0)); try done.
    + cbn. unfold link_request. cbn. unfold is_own. rewrite bool_decide_false by done. by rewrite Hb.
    + apply (npdu_message_len (DistributeBroadcastToNetwork npdu) npdu); [done|]. cbn. lia.
  - destruct (distribute_broadcast t cx (lk_subnet b) (lk_address f) npdu room) as [di|] eqn:Ed;
      [|unfold distribute_broadcast in Ed; by rewrite Hreg in Ed].
    exists di. split; [done|]. split.
    { rewrite <-Hrg. eapply transmitted; try done. by rewrite Hrg. }
    unfold distribute_broadcast in Ed. rewrite Hreg in Ed. cbn in Ed. injection Ed as <-.
    unfold distribution_message, origin_for. rewrite Hnat. cbn [di_origin di_npdu].
    rewrite (receive_carrying g _ _ direct p ArrivedUnicast n); try done.
    + cbn. unfold link_forwarded, is_own. rewrite bool_decide_false, Hcg, Hg, Hgb by done.
      rewrite (bool_decide_true (Some (lk_address b) = _)) by done. cbn. rewrite andb_false_r. done.
    + unfold link_arrival. cbn. by rewrite Hg.
Qed.
End Path.
Lemma unicast_delivered_witness :
  let npdu := [1; 4; 16; 8] in
  link_receive (node_at 2 ModeBbmd) (carrying (OriginalUnicastNpdu npdu) (host 1) {| ad_node := true; ad_broadcast := false |}) tt =
    (tt, RDeliver {| dl_npdu := npdu; dl_source := host 1; dl_group := false |}).
Proof.
  intros npdu.
  apply (unicast_delivered (node_at 1 ModeNormal) (node_at 2 ModeBbmd) npdu
    {| og_to := host 2; og_message := OriginalUnicastNpdu npdu |} 8 {| ad_node := true; ad_broadcast := false |} tt).
  - vm_compute. reflexivity.
  - repeat constructor; vm_compute; discriminate.
  - vm_compute. reflexivity.
  - vm_compute. discriminate.
  - vm_compute. reflexivity.
  - reflexivity.
Defined.
(** A BBMD at 10.0.0.9 with two registered devices, 10.0.0.1 and 10.0.0.2. *)
Definition bbmd_tables : Tables :=
  let t := tables_new 4 4 (host 9) in
  let register t h := (serve t (ReqRegister (host h) 60) 0 tt 0).1.1 in
  register (register t 1) 2.
Lemma bbmd_tables_wf : wf_tables bbmd_tables.
Proof.
  unfold bbmd_tables. cbv zeta.
  change (wf_tables (tables_step (tables_step (tables_new 4 4 (host 9)) (TServe (ReqRegister (host 1) 60) 0 tt 0))
    (TServe (ReqRegister (host 2) 60) 0 tt 0))).
  do 2 (apply tables_step_wf; [|vm_compute; try done; split_and?; discriminate]). apply tables_new_wf.
Qed.
Lemma foreign_broadcast_delivered_witness :
  let npdu := [1; 4; 16; 8] in
  let g := node_at 2 (ModeForeign (foreign_new (host 9) 60)) in
  exists di, distribute_broadcast bbmd_tables {| cx_now := 0; cx_fdt_fanout := 8 |} (local_subnet_new (host 255)) (host 1)
    npdu 9 = Ok di /\ (host 2, distribution_message di) ∈ transmissions di /\
  link_receive g (carrying (distribution_message di) (host 9) {| ad_node := true; ad_broadcast := false |}) tt =
    (tt, RDeliver {| dl_npdu := npdu; dl_source := host 1; dl_group := true |}).
Proof.
  intros npdu g.
  destruct (foreign_broadcast_delivered (node_at 1 (ModeForeign (foreign_new (host 9) 60))) (node_at 9 ModeBbmd) g
    (foreign_new (host 9) 60) (foreign_new (host 9) 60) bbmd_tables {| cx_now := 0; cx_fdt_fanout := 8 |} npdu
    {| og_to := host 9; og_message := DistributeBroadcastToNetwork npdu |} false 14
    {| rg_address := host 2; rg_ttl := 60; rg_at := 0 |} 9 tt) as (_ & _ & H);
    [reflexivity..|vm_compute; reflexivity|repeat constructor; vm_compute; discriminate|
     split; split; vm_compute; discriminate|vm_compute; reflexivity|vm_compute; discriminate|vm_compute; reflexivity|
     vm_compute; discriminate|vm_compute; reflexivity|vm_compute; reflexivity|apply bbmd_tables_wf|reflexivity|
     vm_compute; reflexivity|apply (bool_decide_unpack _); vm_compute; exact I|reflexivity|vm_compute; lia|vm_compute; lia|].
  exact H.
Defined.
