(* ===== verification/Lifecycle.v ===== *)
(** * A foreign device's registration (crate bacnet-bip-core, node/registration.rs)

    The state machine behind a foreign device's registration: when the next attempt is due, what an
    answer proves (the lease), and the broadcasts held for the first attempt. It knows times and outcomes
    only; [Node] sends the attempts and matches their answers. The theorems are about every sequence of its
    operations: the lease is never longer than the entry of the BBMD that answered, however answers are delayed
    within the answer window, and the ring of four recent sends loses nothing that could matter. *)

From Stdlib Require Import ZifyNat.
From S2P Require Import Prelude Time Bvll Fdt NodeLink.
Open Scope Z_scope.

(** ** The data *)

(** [Lease] (bacnet-bip-core/src/node/registration.rs) *)
Record Lease := { le_since : Instant; le_until : Instant }.
(** [Lease::is_live_at] (bacnet-bip-core/src/node/registration.rs) *)
Definition is_live_at (l : Lease) (now : Instant) : bool := now <? le_until l.
(** [AttemptOutcome] (bacnet-bip-core/src/node/registration.rs) *)
Inductive AttemptOutcome := OutPending | OutAccepted | OutRefused | OutTimedOut | OutLocalError | OutCancelled.
#[global] Instance AttemptOutcome_eq_dec : EqDecision AttemptOutcome.
Proof. solve_decision. Defined.
(** [RegistrationEvent] (bacnet-bip-core/src/node/registration.rs) *)
Inductive RegistrationEvent :=
| EvRegistered (since until : Instant) | EvRenewed (until : Instant) | EvRefused (code : BvlcResultCode)
| EvUnanswered | EvLapsed | EvPreviousRelease (bbmd : SocketAddrV4) (outcome : AttemptOutcome).
(** [RegistrationSnapshot] (bacnet-bip-core/src/node/registration.rs) *)
Record RegistrationSnapshot := {
  sn_lease : option Lease; sn_registered : bool; sn_lease_remaining : option Duration; sn_attempt_in_flight : bool;
  sn_next_attempt : option Instant; sn_last_outcome : option AttemptOutcome; sn_consecutive_failures : Z;
  sn_first_resolved : bool; sn_held : Z
}.
(** [Admission] (bacnet-bip-core/src/node/registration.rs) *)
Inductive Admission := AdmitSend | AdmitHold.
(** [BroadcastDecision] (bacnet-bip-core/src/node/registration.rs) *)
Inductive BroadcastDecision := DecideSend (lapsed : bool) | DecideHold | DecideFull.
(** [HeldVerdict] (bacnet-bip-core/src/node/registration.rs) *)
Record HeldVerdict := { hv_release : bool; hv_count : Z }.

(** ** The ring of recent sends *)

(** [Recent] (bacnet-bip-core/src/node/registration.rs) *)
Record Recent := { rc_starts : list Instant; rc_len : nat; rc_next : nat; rc_evicted : option Instant }.
#[export] Instance eta_Recent : Settable Recent := fun r =>
  {| rc_starts := rc_starts r; rc_len := rc_len r; rc_next := rc_next r; rc_evicted := rc_evicted r |}.
(** [Recent::LEN] (bacnet-bip-core/src/node/registration.rs) *)
Definition RECENT_LEN : nat := 4.
(** [Recent::new] (bacnet-bip-core/src/node/registration.rs) *)
Definition recent_new : Recent :=
  {| rc_starts := replicate RECENT_LEN INSTANT_ZERO; rc_len := 0; rc_next := 0; rc_evicted := None |}.
(** [Recent::push] (bacnet-bip-core/src/node/registration.rs) *)
Definition recent_push (r : Recent) (start : Instant) : Recent :=
  let slot := nth (rc_next r) (rc_starts r) INSTANT_ZERO in
  let r := if bool_decide (rc_len r = RECENT_LEN) then r <| rc_evicted := Some slot |> else r <| rc_len ::= S |> in
  let r := r <| rc_starts := <[rc_next r := start]> (rc_starts r) |> in
  r <| rc_next := Nat.land (rc_next r + 1) (RECENT_LEN - 1) |>.
(** [Iterator::min] over instants. *)
Definition min_start (l : list Instant) : option Instant :=
  fold_left (fun acc x => Some match acc with Some a => if x <? a then x else a | None => x end) l None.
(** The closure [inside]: after the floor, or any start with no floor. *)
Definition is_inside (floor : option Instant) (start : Instant) : bool :=
  match floor with Some f => f <? start | None => true end.
(** [Recent::earliest_after] (bacnet-bip-core/src/node/registration.rs) *)
Definition earliest_after (r : Recent) (floor : option Instant) : option Instant :=
  if match rc_evicted r with Some e => is_inside floor e | None => false end then Some (default INSTANT_ZERO floor) else
  min_start (List.filter (is_inside floor) (take (rc_len r) (rc_starts r))).

(** ** The state machine *)

(** The attempt in flight is its start: [Attempt] has that one field.
    [Lifecycle] (bacnet-bip-core/src/node/registration.rs) *)
Record Lifecycle := {
  lc_ttl : Duration; lc_renewal : Duration; lc_timeout : Duration; lc_retry : Retry; lc_hold_limit : Z;
  lc_waiting : bool; lc_lease : option Lease; lc_lapsed : bool; lc_unanswered_since : option Instant;
  lc_recent : Recent; lc_attempt : option Instant; lc_last_start : option Instant;
  lc_last_outcome : option AttemptOutcome; lc_failures : Z; lc_next : option Instant; lc_first_resolved : bool;
  lc_held : Z
}.
#[export] Instance eta_Lifecycle : Settable Lifecycle := fun r =>
  {| lc_ttl := lc_ttl r; lc_renewal := lc_renewal r; lc_timeout := lc_timeout r; lc_retry := lc_retry r;
     lc_hold_limit := lc_hold_limit r; lc_waiting := lc_waiting r; lc_lease := lc_lease r; lc_lapsed := lc_lapsed r;
     lc_unanswered_since := lc_unanswered_since r; lc_recent := lc_recent r; lc_attempt := lc_attempt r;
     lc_last_start := lc_last_start r; lc_last_outcome := lc_last_outcome r; lc_failures := lc_failures r;
     lc_next := lc_next r; lc_first_resolved := lc_first_resolved r; lc_held := lc_held r |}.

(** [foreign.bbmd.map(|_| now)]. *)
Definition due_with (f : Foreign) (now : Instant) : option Instant := (fun _ => now) <$> fr_bbmd f.
(** [Lifecycle::new] (bacnet-bip-core/src/node/registration.rs) *)
Definition lifecycle_new (f : Foreign) (now : Instant) : Lifecycle := {|
  lc_ttl := ttl_duration f; lc_renewal := effective_renewal f; lc_timeout := effective_response_timeout f;
  lc_retry := fr_retry f; lc_hold_limit := fr_hold f; lc_waiting := negb (is_some (fr_bbmd f)); lc_lease := None;
  lc_lapsed := false; lc_unanswered_since := None; lc_recent := recent_new; lc_attempt := None; lc_last_start := None;
  lc_last_outcome := None; lc_failures := 0; lc_next := due_with f now; lc_first_resolved := false; lc_held := 0
|}.
(** [Lifecycle::retarget] (bacnet-bip-core/src/node/registration.rs) *)
Definition lifecycle_retarget (c : Lifecycle) (f : Foreign) (now : Instant) (same_bbmd : bool) : Lifecycle :=
  let c := c <| lc_ttl := ttl_duration f |> <| lc_renewal := effective_renewal f |>
    <| lc_timeout := effective_response_timeout f |> <| lc_retry := fr_retry f |> <| lc_hold_limit := fr_hold f |> in
  let c := if same_bbmd then c else
    c <| lc_lease := None |> <| lc_lapsed := false |> <| lc_unanswered_since := None |> <| lc_recent := recent_new |>
      <| lc_first_resolved := false |> in
  c <| lc_attempt := None |> <| lc_last_start := None |> <| lc_failures := 0 |>
    <| lc_waiting := negb (is_some (fr_bbmd f)) |> <| lc_next := due_with f now |>.
(** [Lifecycle::answer_window] (bacnet-bip-core/src/node/registration.rs) *)
Definition answer_window (c : Lifecycle) : Duration :=
  let three := duration_saturating_add (duration_saturating_mul (lc_timeout c) 2) (lc_timeout c) in
  duration_min three (lc_renewal c).
(** [Lifecycle::due_at] (bacnet-bip-core/src/node/registration.rs) *)
Definition due_at (c : Lifecycle) : option Instant := if is_some (lc_attempt c) then None else lc_next c.
(** [Lifecycle::lapse_at] (bacnet-bip-core/src/node/registration.rs) *)
Definition lapse_at (c : Lifecycle) : option Instant := if lc_lapsed c then None else le_until <$> lc_lease c.
(** [Lifecycle::lapse] (bacnet-bip-core/src/node/registration.rs) *)
Definition lapse (c : Lifecycle) : Lifecycle := c <| lc_lapsed := true |>.
(** [Lifecycle::admitted] (bacnet-bip-core/src/node/registration.rs) *)
Definition admitted (c : Lifecycle) (now : Instant) : Lifecycle :=
  c <| lc_attempt := Some now |> <| lc_next := None |> <| lc_last_start := Some now |>
    <| lc_last_outcome := Some OutPending |>.
(** [Lifecycle::sent] (bacnet-bip-core/src/node/registration.rs) *)
Definition sent (c : Lifecycle) : Lifecycle :=
  match lc_attempt c with
  | Some start => c <| lc_unanswered_since ::= (fun u => Some (default start u)) |>
                    <| lc_recent ::= (fun r => recent_push r start) |>
  | None => c
  end.
(** [Lifecycle::resolve_first] (bacnet-bip-core/src/node/registration.rs) *)
Definition resolve_first (c : Lifecycle) (release : bool) : Lifecycle * option HeldVerdict :=
  if lc_first_resolved c then (c, None) else
  let count := lc_held c in
  (c <| lc_first_resolved := true |> <| lc_held := 0 |>,
   if 0 <? count then Some {| hv_release := release; hv_count := count |} else None).
(** [lease.is_some_and(|lease| lease.is_live_at(now))]. *)
Definition lease_live (c : Lifecycle) (now : Instant) : bool :=
  match lc_lease c with Some l => is_live_at l now | None => false end.
(** [Instant::min] in the fold over the two optional starts. *)
Definition min_with (acc : Instant) (o : option Instant) : Instant :=
  match o with Some x => Z.min acc x | None => acc end.
(** [Lifecycle::accepted] (bacnet-bip-core/src/node/registration.rs) *)
Definition accepted (c : Lifecycle) (now : Instant) : Lifecycle * (option RegistrationEvent * option HeldVerdict) :=
  let start := default now (lc_attempt c) in
  let c := c <| lc_attempt := None |> in
  let floor := instant_checked_sub now (answer_window c) in
  let since := min_with (min_with start (lc_unanswered_since c)) (earliest_after (lc_recent c) floor) in
  let until := instant_add since (lc_ttl c) in
  let was_live := lease_live c now in
  let lapsed := until <=? now in
  let c := c <| lc_lease := Some {| le_since := since; le_until := until |} |> <| lc_lapsed := lapsed |>
    <| lc_unanswered_since := None |> <| lc_failures := 0 |>
    <| lc_next := Some (instant_add (match lc_retry c with Backoff => since | AtRenewal => start end) (lc_renewal c)) |>
    <| lc_last_outcome := Some OutAccepted |> in
  let event := if lapsed then None else if was_live then Some (EvRenewed until) else Some (EvRegistered since until) in
  let '(c, verdict) := resolve_first c true in
  (c, (event, verdict)).
(** [Lifecycle::refused] (bacnet-bip-core/src/node/registration.rs) *)
Definition refused (c : Lifecycle) (now : Instant) : Lifecycle * option HeldVerdict :=
  let start := default now (lc_attempt c) in
  let c := c <| lc_attempt := None |> <| lc_unanswered_since := None |> <| lc_failures := 0 |>
    <| lc_next := Some (instant_add start (lc_renewal c)) |> <| lc_last_outcome := Some OutRefused |> in
  resolve_first c false.
(** The loop of [backoff], [n] rounds to go.
    [Lifecycle::backoff] (bacnet-bip-core/src/node/registration.rs) *)
Fixpoint backoff_loop (n : nat) (renewal wait : Duration) : Duration :=
  match n with
  | O => wait
  | S n => if renewal <=? wait then wait else backoff_loop n renewal (duration_saturating_mul wait 2)
  end.
(** [Lifecycle::backoff] (bacnet-bip-core/src/node/registration.rs) *)
Definition backoff (c : Lifecycle) : Duration :=
  duration_min (backoff_loop (Z.to_nat (lc_failures c - 1)) (lc_renewal c) (lc_timeout c)) (lc_renewal c).
(** [Lifecycle::failed] (bacnet-bip-core/src/node/registration.rs) *)
Definition failed (c : Lifecycle) (now : Instant) (outcome : option AttemptOutcome) : Lifecycle * option HeldVerdict :=
  let start := default now (lc_attempt c) in
  let c := c <| lc_attempt := None |> <| lc_failures ::= (fun n => sat_add U32_MAX n 1) |> in
  let at_renewal := instant_add start (lc_renewal c) in
  let c := c <| lc_next := Some match lc_retry c with
    | AtRenewal => at_renewal
    | Backoff => Z.min at_renewal (instant_add now (backoff c))
    end |> in
  let c := if is_some outcome then c <| lc_last_outcome := outcome |> else c in
  resolve_first c true.
(** [Lifecycle::due_now] (bacnet-bip-core/src/node/registration.rs) *)
Definition due_now (c : Lifecycle) (now : Instant) : Lifecycle :=
  if negb (lease_live c now) && match lc_next c with Some next => now <? next | None => false end
  then c <| lc_next := Some now |> else c.
(** [Lifecycle::not_before] (bacnet-bip-core/src/node/registration.rs) *)
Definition not_before (c : Lifecycle) (at_ : Instant) : Lifecycle :=
  if match lc_next c with Some next => next <? at_ | None => false end then c <| lc_next := Some at_ |> else c.
(** [Lifecycle::hint] (bacnet-bip-core/src/node/registration.rs) *)
Definition hint (c : Lifecycle) (now : Instant) : Lifecycle :=
  if is_some (lc_attempt c) then c else
  let earliest := match lc_last_start c with
    | Some start => instant_max (instant_add start (lc_timeout c)) now
    | None => now
    end in
  if match lc_next c with Some next => earliest <? next | None => false end
  then c <| lc_next := Some earliest |> else c.
(** [Lifecycle::admit_broadcast] (bacnet-bip-core/src/node/registration.rs) *)
Definition lc_admit_broadcast (c : Lifecycle) (now : Instant) : Lifecycle * BroadcastDecision :=
  if negb (lc_first_resolved c) && ((0 <? lc_hold_limit c) || lc_waiting c) then
    if lc_hold_limit c <=? lc_held c then (c, DecideFull) else (c <| lc_held ::= Z.succ |>, DecideHold)
  else (c, DecideSend (negb (lease_live c now))).
(** [Lifecycle::snapshot] (bacnet-bip-core/src/node/registration.rs) *)
Definition snapshot (c : Lifecycle) (now : Instant) : RegistrationSnapshot :=
  let registered := lease_live c now in
  {| sn_lease := lc_lease c; sn_registered := registered;
     sn_lease_remaining := if registered then (fun l => instant_since (le_until l) now) <$> lc_lease c else None;
     sn_attempt_in_flight := is_some (lc_attempt c); sn_next_attempt := due_at c; sn_last_outcome := lc_last_outcome c;
     sn_consecutive_failures := lc_failures c; sn_first_resolved := lc_first_resolved c; sn_held := lc_held c |}.

(** ** The ring loses nothing that could matter *)

(** The ring after the sends [h], oldest first: the last four by their place modulo four, and the one before. *)
Record ring_of (r : Recent) (h : list Instant) : Prop := {
  ro_slots : length (rc_starts r) = RECENT_LEN;
  ro_len : rc_len r = Nat.min RECENT_LEN (length h);
  ro_next : rc_next r = (length h mod RECENT_LEN)%nat;
  ro_evicted : rc_evicted r = if decide (length h <= RECENT_LEN)%nat then None else h !! (length h - 5)%nat;
  ro_starts : forall i, (length h - RECENT_LEN <= i < length h)%nat -> rc_starts r !! (i mod RECENT_LEN)%nat = h !! i
}.
Lemma ring_new : ring_of recent_new [].
Proof. split; try done. intros i Hi. cbn in Hi. lia. Qed.
Ltac natmod := zify; Z.div_mod_to_equations; lia.
Lemma mod4_near a b : (a <= b < a + 4)%nat -> (a mod 4 = b mod 4)%nat -> a = b.
Proof. intros. natmod. Qed.
Lemma ring_push r h s : ring_of r h -> ring_of (recent_push r s) (h ++ [s]).
Proof.
  intros [Hs Hl Hn He Hr]. unfold recent_push.
  assert (Hland : forall x, Nat.land x (RECENT_LEN - 1) = (x mod RECENT_LEN)%nat).
  { intros x. change (RECENT_LEN - 1)%nat with (Nat.ones 2). by rewrite Nat.land_ones. }
  unfold RECENT_LEN in *.
  assert (Hmod : (length h mod 4 < 4)%nat) by (apply Nat.mod_upper_bound; lia).
  set (slot := nth _ _ _).
  assert (Hslot : (4 <= length h)%nat -> h !! (length h - 4)%nat = Some slot).
  { intros Hfull. rewrite <-Hr by lia. unfold slot. rewrite Hn, nth_lookup.
    assert (E : ((length h - 4) mod 4 = length h mod 4)%nat) by natmod. rewrite E.
    destruct (lookup_lt_is_Some_2 (rc_starts r) (length h mod 4)%nat) as [x Hx]; [lia|]. by rewrite Hx. }
  assert (Hput : forall i, (length h + 1 - 4 <= i < length h + 1)%nat ->
    <[rc_next r := s]> (rc_starts r) !! (i mod 4)%nat = (h ++ [s]) !! i).
  { intros i Hi. rewrite Hn. destruct (decide (i = length h)) as [->|Hne].
    + rewrite list_lookup_insert_eq, lookup_app_r, Nat.sub_diag by lia. done.
    + rewrite list_lookup_insert_ne, lookup_app_l by (try (intros E; apply (mod4_near i) in E); lia). apply Hr. lia. }
  case_bool_decide as Hfull; split; unfold over, RECENT_LEN; cbn [rc_starts rc_len rc_next rc_evicted];
    rewrite ?length_app; cbn [length];
    try (rewrite length_insert; lia); try (rewrite Hland, Hn; natmod); try lia.
  - rewrite decide_False by lia. rewrite lookup_app_l by lia. rewrite <-Hslot by lia. f_equal. lia.
  - exact Hput.
  - rewrite He, !decide_True by lia. done.
  - exact Hput.
Qed.

Lemma min_start_spec l acc :
  match fold_left (fun acc x => Some match acc with Some a => if x <? a then x else a | None => x end) l acc with
  | Some m => (acc = Some m \/ m ∈ l) /\ (forall x, acc = Some x \/ x ∈ l -> m <= x)
  | None => acc = None /\ l = []
  end.
Proof.
  revert acc. induction l as [|x l IH]; intros acc; cbn [fold_left].
  - destruct acc as [a|]; [|done]. split; [by left|]. intros x [[= ->]|[]%not_elem_of_nil]. lia.
  - specialize (IH (Some match acc with Some a => if x <? a then x else a | None => x end)).
    destruct (fold_left _ _ _) as [m|]; [|naive_solver]. destruct IH as [Hm Hle]. split.
    + rewrite elem_of_cons. destruct acc as [a|]; [destruct (Z.ltb_spec x a)|]; naive_solver.
    + intros y. rewrite elem_of_cons. destruct acc as [a|]; [destruct (Z.ltb_spec x a)|]; intros [Hy|[->|Hy]]; simplify_eq;
        try (by apply Hle; right); try (by apply Hle; left);
        (etrans; [apply Hle; left; reflexivity|lia]).
Qed.
Definition inside_of (floor : option Instant) (start : Instant) : Prop :=
  match floor with Some f => f < start | None => True end.
Definition nondecreasing (h : list Instant) : Prop :=
  forall i j x y, (i <= j)%nat -> h !! i = Some x -> h !! j = Some y -> x <= y.
Lemma ring_slot_of_send r h i : ring_of r h -> (length h - RECENT_LEN <= i < length h)%nat ->
  take (rc_len r) (rc_starts r) !! (i mod RECENT_LEN)%nat = h !! i.
Proof.
  intros [Hs Hl Hn He Hr] Hi. rewrite lookup_take_lt; [by apply Hr|]. rewrite Hl. unfold RECENT_LEN in *. natmod.
Qed.
Lemma ring_send_of_slot r h j x : ring_of r h -> take (rc_len r) (rc_starts r) !! j = Some x -> x ∈ h.
Proof.
  intros Hro Hx. pose proof (lookup_lt_Some _ _ _ Hx) as Hj. rewrite length_take in Hj.
  pose proof (ro_len _ _ Hro) as Hl. unfold RECENT_LEN in *.
  set (i := if decide (length h <= 4)%nat then j else (length h - 4 + (j + 4 - length h mod 4) mod 4)%nat).
  assert (Hi : (length h - 4 <= i < length h /\ i mod 4 = j)%nat).
  { unfold i. case_decide; [split; [lia|natmod]|]. split; natmod. }
  destruct Hi as [Hi Em]. rewrite <-Em in Hx. pose proof (ring_slot_of_send r h i Hro) as Hsl. unfold RECENT_LEN in Hsl.
  rewrite Hsl in Hx by lia. by eapply list_elem_of_lookup_2.
Qed.
(** Whatever the ring holds, the answer is no later than any send after the floor; it is one of them, or the floor. *)
Lemma earliest_after_spec r h floor : ring_of r h -> nondecreasing h -> Forall (Z.le 0) h ->
  (forall s, s ∈ h -> inside_of floor s -> exists m, earliest_after r floor = Some m /\ m <= s) /\
  (forall m, earliest_after r floor = Some m -> m = default 0 floor \/ m ∈ h /\ inside_of floor m).
Proof.
  intros Hro Hnd H0. unfold earliest_after. set (inside := is_inside floor).
  assert (Hin : forall x, inside x = true <-> inside_of floor x) by (intros; unfold inside, is_inside, inside_of; destruct floor; [lia|done]).
  split.
  - intros s Hs His. destruct (match rc_evicted r with Some e => inside e | None => false end) eqn:Ee.
    { eexists. split; [done|]. destruct floor as [f|]; cbn in *; [lia|]. rewrite Forall_forall in H0. by apply H0. }
    apply list_elem_of_lookup in Hs as [k Hk]. pose proof (lookup_lt_Some _ _ _ Hk) as Hkl.
    destruct (decide (length h - RECENT_LEN <= k)%nat) as [Hk4|Hk4].
    + pose proof (ring_slot_of_send r h k Hro) as Hsl. rewrite Hk in Hsl.
      pose proof (min_start_spec (List.filter inside (take (rc_len r) (rc_starts r))) None) as Hm. unfold min_start.
      assert (Hsi : s ∈ List.filter inside (take (rc_len r) (rc_starts r))).
      { apply list_elem_of_In, filter_In. split; [|by apply Hin]. apply list_elem_of_In.
        eapply list_elem_of_lookup_2. apply Hsl. lia. }
      destruct (fold_left _ _ _) as [m|]; [|destruct Hm as [_ Hm]; rewrite Hm in Hsi; by apply not_elem_of_nil in Hsi].
      exists m. split; [done|]. apply Hm. by right.
    + exfalso. pose proof (ro_evicted _ _ Hro) as Hev. unfold RECENT_LEN in *. rewrite decide_False in Hev by lia.
      destruct (lookup_lt_is_Some_2 h (length h - 5)%nat) as [e He]; [lia|]. rewrite Hev, He in Ee.
      assert (s <= e) by (eapply (Hnd k (length h - 5)%nat); try done; lia).
      assert (inside e = true) by (apply Hin; unfold inside_of in *; destruct floor; [lia|done]). congruence.
  - intros m. destruct (match rc_evicted r with Some e => inside e | None => false end) eqn:Ee; [intros [= <-]; by left|].
    intros Hm. right. pose proof (min_start_spec (List.filter inside (take (rc_len r) (rc_starts r))) None) as Hs.
    unfold min_start in Hm. rewrite Hm in Hs. destruct Hs as [[?|Hs] _]; [done|].
    apply list_elem_of_In, filter_In in Hs as [Hs Hi]. apply list_elem_of_In, list_elem_of_lookup in Hs as [j Hj].
    split; [by eapply ring_send_of_slot|by apply Hin].
Qed.

(** ** Runs *)

(** The operations the node calls, each at a time that never goes back. *)
Inductive LcOp :=
| LAdmitted | LSent | LAccepted | LRefused | LFailed (outcome : option AttemptOutcome) | LLapse | LDueNow
| LNotBefore (at_ : Instant) | LHint | LAdmitBroadcast | LRetarget (f : Foreign) (same_bbmd : bool).
Definition lc_step (c : Lifecycle) (op : LcOp) (now : Instant) : Lifecycle :=
  match op with
  | LAdmitted => admitted c now
  | LSent => sent c
  | LAccepted => (accepted c now).1
  | LRefused => (refused c now).1
  | LFailed outcome => (failed c now outcome).1
  | LLapse => lapse c
  | LDueNow => due_now c now
  | LNotBefore at_ => not_before c at_
  | LHint => hint c now
  | LAdmitBroadcast => (lc_admit_broadcast c now).1
  | LRetarget f same_bbmd => lifecycle_retarget c f now same_bbmd
  end.
(** What was sent to the BBMD in use: each attempt's start and time-to-live, oldest first; and the starts of
    those sent since its last answer. *)
Record History := { hs_sends : list (Instant * Duration); hs_open : list Instant }.
Definition history_step (c : Lifecycle) (h : History) (op : LcOp) : History :=
  match op with
  | LSent =>
      match lc_attempt c with
      | Some start => {| hs_sends := hs_sends h ++ [(start, lc_ttl c)]; hs_open := hs_open h ++ [start] |}
      | None => h
      end
  | LAccepted | LRefused => {| hs_sends := hs_sends h; hs_open := [] |}
  | LRetarget _ false => {| hs_sends := []; hs_open := [] |}
  | _ => h
  end.
Inductive lc_run : Lifecycle -> History -> Instant -> Prop :=
| lc_start f now : 0 <= now -> lc_run (lifecycle_new f now) {| hs_sends := []; hs_open := [] |} now
| lc_next_step c h clock op now : lc_run c h clock -> clock <= now ->
    lc_run (lc_step c op now) (history_step c h op) now.

(** The state's view of the history. *)
Record lc_inv (c : Lifecycle) (h : History) (clock : Instant) : Prop := {
  li_clock : 0 <= clock;
  li_attempt : forall s, lc_attempt c = Some s -> 0 <= s <= clock;
  li_ring : ring_of (lc_recent c) (hs_sends h).*1;
  li_open : lc_unanswered_since c = head (hs_open h);
  li_sorted : nondecreasing (hs_sends h).*1;
  li_open_sorted : nondecreasing (hs_open h);
  li_open_sends : forall s, s ∈ hs_open h -> s ∈ (hs_sends h).*1;
  li_before : forall s, s ∈ (hs_sends h).*1 -> 0 <= s <= default clock (lc_attempt c)
}.
Lemma nondecreasing_nil : nondecreasing [].
Proof. intros i j x y _ Hi. by rewrite lookup_nil in Hi. Qed.
Lemma nondecreasing_snoc h s : nondecreasing h -> (forall x, x ∈ h -> x <= s) -> nondecreasing (h ++ [s]).
Proof.
  intros Hn Hs i j x y Hij Hi Hj. apply lookup_snoc_Some in Hj as [[Hjl Hj]|[-> ->]].
  - rewrite lookup_app_l in Hi by lia. exact (Hn i j x y Hij Hi Hj).
  - apply lookup_snoc_Some in Hi as [[_ Hi]|[_ ->]]; [|lia]. apply Hs. by eapply list_elem_of_lookup_2.
Qed.
Lemma nondecreasing_head h x s : nondecreasing h -> head h = Some x -> s ∈ h -> x <= s.
Proof. intros Hn Hh [k Hk]%list_elem_of_lookup. eapply (Hn 0%nat k); [lia| |done]. by destruct h. Qed.

(** An operation that touches neither the sends nor the attempt keeps the view. *)
Lemma lc_inv_frame c h clock c' now : lc_inv c h clock -> clock <= now ->
  lc_recent c' = lc_recent c -> lc_unanswered_since c' = lc_unanswered_since c ->
  (lc_attempt c' = lc_attempt c \/ lc_attempt c' = None \/ lc_attempt c' = Some now) -> lc_inv c' h now.
Proof.
  intros [] Hnow Er Eu Ea. split; try done; try lia; try congruence.
  - intros s Hs. destruct Ea as [Ea|[Ea|Ea]]; rewrite Ea in Hs; [|done|]; [apply li_attempt0 in Hs|simplify_eq]; lia.
  - intros s Hs. apply li_before0 in Hs. assert (Hle : default clock (lc_attempt c) <= now).
    { destruct (lc_attempt c) as [a|]; cbn; [specialize (li_attempt0 _ eq_refl)|]; lia. }
    destruct Ea as [Ea|[Ea|Ea]]; rewrite Ea; cbn; try lia.
    destruct (lc_attempt c); cbn in *; lia.
Qed.
Lemma lc_inv_answer c h clock : lc_inv c h clock ->
  lc_inv (c <| lc_unanswered_since := None |>) {| hs_sends := hs_sends h; hs_open := [] |} clock.
Proof. intros []. split; try done. intros s Hs. by apply not_elem_of_nil in Hs. Qed.
Lemma lc_inv_sent c h clock s : lc_inv c h clock -> lc_attempt c = Some s ->
  lc_inv (sent c) {| hs_sends := hs_sends h ++ [(s, lc_ttl c)]; hs_open := hs_open h ++ [s] |} clock.
Proof.
  intros [] Hs. unfold sent. rewrite Hs. rewrite Hs in li_before0. cbn in li_before0.
  specialize (li_attempt0 _ Hs).
  split; cbn [hs_sends hs_open]; rewrite ?fmap_app; cbn [fmap list_fmap fst]; try done.
  - intros s' Hs'. cbn in Hs'. rewrite Hs in Hs'. simplify_eq. lia.
  - by apply ring_push.
  - cbn. rewrite li_open0. by destruct (hs_open h).
  - apply nondecreasing_snoc; [done|]. intros x Hx%li_before0. lia.
  - apply nondecreasing_snoc; [done|]. intros x Hx%li_open_sends0%li_before0. lia.
  - intros x. rewrite !elem_of_app. intros [Hx|Hx]; [left; by apply li_open_sends0|by right].
  - intros x. cbn. rewrite Hs. cbn. rewrite elem_of_app, list_elem_of_singleton. intros [Hx%li_before0| ->]; lia.
Qed.

Lemma resolve_first_frame c release : let c' := (resolve_first c release).1 in
  lc_recent c' = lc_recent c /\ lc_unanswered_since c' = lc_unanswered_since c /\ lc_attempt c' = lc_attempt c /\
  lc_lease c' = lc_lease c /\ lc_next c' = lc_next c.
Proof. unfold resolve_first. by destruct (lc_first_resolved c). Qed.
Lemma lc_run_inv c h clock : lc_run c h clock -> lc_inv c h clock.
Proof.
  induction 1 as [f now Hnow|c h clock op now Hrun IH Hle].
  - split; try done; try apply ring_new; intros s Hs; by apply not_elem_of_nil in Hs.
  - pose proof (lc_inv_answer _ _ _ IH) as Ha.
    destruct op; cbn [lc_step history_step]; try (eapply lc_inv_frame; [exact IH|exact Hle|done|done|by auto]).
    + unfold sent at 1. destruct (lc_attempt c) as [s|] eqn:Es; [|eapply lc_inv_frame; [exact IH|exact Hle|by auto..]].
      pose proof (lc_inv_sent _ _ _ _ IH Es) as Hi. unfold sent in Hi. rewrite Es in Hi.
      eapply lc_inv_frame; [exact Hi|exact Hle|by auto..].
    + unfold accepted. cbv zeta. destruct (resolve_first _ true) as [c' v] eqn:E. cbn [fst].
      match type of E with resolve_first ?x _ = _ => pose proof (resolve_first_frame x true) as Hr end.
      rewrite E in Hr. cbn in Hr. destruct Hr as (Hr & Hu & Hat & _).
      eapply lc_inv_frame; [exact Ha|exact Hle|exact Hr|exact Hu|]. rewrite Hat. by auto.
    + unfold refused. cbv zeta. match goal with |- context [resolve_first ?x ?b] => destruct (resolve_first_frame x b) as (Hr & Hu & Hat & _) end.
      eapply lc_inv_frame; [exact Ha|exact Hle|exact Hr|exact Hu|]. rewrite Hat. by auto.
    + unfold failed. cbv zeta. match goal with |- context [resolve_first ?x ?b] => destruct (resolve_first_frame x b) as (Hr & Hu & Hat & _) end.
      destruct (is_some outcome); (eapply lc_inv_frame; [exact IH|exact Hle|exact Hr|exact Hu|]; rewrite Hat; by auto).
    + unfold due_now. case_match; (eapply lc_inv_frame; [exact IH|exact Hle|by auto..]).
    + unfold not_before. case_match; (eapply lc_inv_frame; [exact IH|exact Hle|by auto..]).
    + unfold hint. repeat case_match; (eapply lc_inv_frame; [exact IH|exact Hle|by auto..]).
    + unfold lc_admit_broadcast. repeat case_match; (eapply lc_inv_frame; [exact IH|exact Hle|by auto..]).
    + destruct same_bbmd; [eapply lc_inv_frame; [exact IH|exact Hle|by auto..]|].
      destruct IH. split; try done; try apply ring_new; try lia; intros s Hs; by apply not_elem_of_nil in Hs.
Qed.

(** ** The lease *)

Lemma min_with_le acc o : min_with acc o <= acc /\ (forall x, o = Some x -> min_with acc o <= x) /\
  (min_with acc o = acc \/ o = Some (min_with acc o)).
Proof.
  destruct o as [x|]; cbn; [|split_and!; [lia|done|by left]]. split; [lia|]. split; [intros y [= <-]; lia|].
  destruct (Z.min_spec acc x) as [[_ ->]|[_ ->]]; auto.
Qed.
(** The start of the lease a success at [now] proves. *)
Definition proven_since (c : Lifecycle) (now : Instant) : Instant :=
  min_with (min_with (default now (lc_attempt c)) (lc_unanswered_since c))
    (earliest_after (lc_recent c) (instant_checked_sub now (answer_window c))).
Lemma accepted_lease c now : lc_lease (accepted c now).1 =
  Some {| le_since := proven_since c now; le_until := instant_add (proven_since c now) (lc_ttl c) |}.
Proof. unfold accepted, resolve_first. cbv zeta. cbn. by destruct (lc_first_resolved c). Qed.
Lemma proven_since_le c h clock now s : lc_inv c h clock -> s ∈ (hs_sends h).*1 ->
  s ∈ hs_open h \/ now - s < answer_window c -> proven_since c now <= s.
Proof.
  intros [] Hs Hel. unfold proven_since.
  destruct (min_with_le (min_with (default now (lc_attempt c)) (lc_unanswered_since c))
    (earliest_after (lc_recent c) (instant_checked_sub now (answer_window c)))) as (H1 & H2 & _).
  destruct Hel as [Ho|Hw].
  - destruct (min_with_le (default now (lc_attempt c)) (lc_unanswered_since c)) as (_ & H3 & _).
    etrans; [exact H1|]. destruct (head (hs_open h)) as [x|] eqn:Eh; [|by destruct (hs_open h); [apply not_elem_of_nil in Ho|]].
    etrans; [by apply H3|]. by eapply nondecreasing_head.
  - destruct (earliest_after_spec (lc_recent c) (hs_sends h).*1 (instant_checked_sub now (answer_window c))) as [He _];
      [done|done|by apply Forall_forall; intros x Hx; apply li_before0 in Hx; lia|].
    destruct (He s Hs) as (m & Em & Hm); [|exact (Z.le_trans _ _ _ (H2 m Em) Hm)].
    unfold instant_checked_sub, chk_sub. case_match; cbn; [lia|done].
Qed.

Lemma proven_since_from c h clock now : lc_inv c h clock ->
  proven_since c now = default now (lc_attempt c) \/ proven_since c now ∈ hs_open h \/
  (proven_since c now ∈ (hs_sends h).*1 /\ now - proven_since c now < answer_window c) \/
  proven_since c now = Z.max 0 (now - answer_window c).
Proof.
  intros []. assert (Hx : proven_since c now = min_with (min_with (default now (lc_attempt c)) (lc_unanswered_since c))
    (earliest_after (lc_recent c) (instant_checked_sub now (answer_window c)))) by done.
  revert Hx. generalize (proven_since c now). intros x Hx.
  match type of Hx with _ = min_with (min_with ?a ?b) ?d =>
    destruct (min_with_le (min_with a b) d) as (_ & _ & [E|He]); [destruct (min_with_le a b) as (_ & _ & [E'|Hu])|] end.
  - left. by rewrite Hx, E, E'.
  - right. left. rewrite Hx, E. rewrite li_open0 in Hu at 1.
    destruct (hs_open h) as [|y l]; [done|]. injection Hu as Hy. rewrite <-Hy. apply elem_of_cons. by left.
  - rewrite <-Hx in He.
    destruct (earliest_after_spec (lc_recent c) (hs_sends h).*1 (instant_checked_sub now (answer_window c))) as [_ Hs];
      [done|done|by apply Forall_forall; intros y Hy; apply li_before0 in Hy; lia|].
    destruct (Hs _ He) as [Hm|[Hm Hin]]; right; right.
    + right. etrans; [exact Hm|]. unfold instant_checked_sub, chk_sub. case_match; cbn; lia.
    + left. split; [exact Hm|]. apply li_before0 in Hm. revert Hin. unfold instant_checked_sub, chk_sub.
      case_match; cbn; lia.
Qed.

(** C37: a proven lease is conservative. Over any run of a foreign device's registration, when an attempt is answered
    with success the lease ends no later than the BBMD's entry for whichever request the success answers, grace period
    left out, as long as that request is one of those sent since the last answer or less than the answer window ago,
    and asked for no shorter a time than the settings now do: while the lease is live, that entry is not expired. And the lease
    starts no earlier than one of those requests or the answer window. *)
Theorem lease_within_entry c h clock now : lc_run c h clock -> clock <= now ->
  exists lease, lc_lease (accepted c now).1 = Some lease /\ le_until lease = instant_add (le_since lease) (lc_ttl c) /\
  (forall s r t, (s, duration_from_secs (rg_ttl r)) ∈ hs_sends h -> s ∈ hs_open h \/ now - s < answer_window c ->
     lc_ttl c <= duration_from_secs (rg_ttl r) -> is_u16 (rg_ttl r) -> s <= rg_at r ->
     le_until lease <= rg_at r + duration_from_secs (rg_ttl r) /\
     (is_live_at lease t = true -> is_expired_at r t = false)) /\
  (le_since lease = default now (lc_attempt c) \/ le_since lease ∈ hs_open h \/
   (le_since lease ∈ (hs_sends h).*1 /\ now - le_since lease < answer_window c) \/
   le_since lease = Z.max 0 (now - answer_window c)).
Proof.
  intros Hrun Hle. pose proof (lc_run_inv _ _ _ Hrun) as Hi. eexists. split; [apply accepted_lease|].
  cbn [le_since le_until]. split; [done|]. split.
  - intros s r t Hs Hel Httl Hu Hat.
    assert (Hsin : s ∈ (hs_sends h).*1) by (apply list_elem_of_fmap; by exists (s, duration_from_secs (rg_ttl r))).
    pose proof (proven_since_le _ _ _ _ _ Hi Hsin Hel) as Hps.
    assert (Hend : instant_add (proven_since c now) (lc_ttl c) <= rg_at r + duration_from_secs (rg_ttl r))
      by (unfold instant_add, instant_saturating_add, sat_add; lia).
    split; [done|]. unfold is_live_at, is_expired_at, instant_saturating_duration_since, sat_sub, lifetime. cbn [le_until].
    intros Ht. change GRACE_WHOLE_SECONDS with 30.
    unfold duration_from_secs, sat_mul, NANOS_PER_SEC in *. unfold is_u16, U16_MAX, U64_MAX in *. lia.
  - by eapply proven_since_from.
Qed.
(** A device registering for 60 s, its attempt sent at 0 and answered a second later. *)
Definition example_registration : Lifecycle :=
  let f := foreign_new {| sa_ip := ipv4_new 10 0 0 9; sa_port := 47808 |} 60 in
  lc_step (lc_step (lifecycle_new f 0) LAdmitted 0) LSent 0.
Lemma lease_within_entry_witness :
  let ends := duration_from_secs 60 in
  lc_lease (accepted example_registration NANOS_PER_SEC).1 = Some {| le_since := 0; le_until  := ends |} /\
  forall t, t < ends -> is_expired_at {| rg_address := {| sa_ip := 1; sa_port := 47808 |}; rg_ttl := 60; rg_at := 5 |} t = false.
Proof.
  intros ends. split; [vm_compute; reflexivity|]. intros t Ht.
  destruct (lease_within_entry example_registration {| hs_sends := [(0, ends)]; hs_open := [0] |} 0 NANOS_PER_SEC)
    as (lease & Hl & Hu & He & _).
  - pose (f := foreign_new {| sa_ip := ipv4_new 10 0 0 9; sa_port := 47808 |} 60).
    apply (lc_next_step (lc_step (lifecycle_new f 0) LAdmitted 0) {| hs_sends := []; hs_open := [] |} 0 LSent 0); [|lia].
    apply (lc_next_step (lifecycle_new f 0) {| hs_sends := []; hs_open := [] |} 0 LAdmitted 0); [|lia].
    apply lc_start. lia.
  - vm_compute. discriminate.
  - apply (He 0); try (vm_compute; done || (split; discriminate)).
    + apply list_elem_of_singleton. reflexivity.
    + left. apply list_elem_of_singleton. reflexivity.
    + vm_compute in Hl. injection Hl as <-. apply Z.ltb_lt. exact Ht.
Defined.

(** ** When the next attempt is due *)

(** The settings of a validated registration. *)
Definition lc_settings (c : Lifecycle) : Prop :=
  0 < lc_timeout c <= lc_renewal c /\ is_u64 (lc_renewal c) /\ is_u32 (lc_failures c).
Lemma backoff_loop_spec n : forall renewal wait, 0 < wait -> is_u64 renewal ->
  Z.min (backoff_loop n renewal wait) renewal = Z.min (wait * 2 ^ Z.of_nat n) renewal.
Proof.
  induction n as [|n IH]; intros renewal wait Hw Hr; [cbn; f_equal; lia|]. cbn [backoff_loop].
  replace (Z.of_nat (S n)) with (1 + Z.of_nat n) by lia. rewrite Z.pow_add_r, Z.pow_1_r by lia.
  assert (1 <= 2 ^ Z.of_nat n) by (apply (Z.pow_le_mono_r 2 0); lia).
  case_match eqn:E; [rewrite !Z.min_r by nia; done|].
  unfold duration_saturating_mul, sat_mul. destruct (Z.le_ge_cases (wait * 2) U64_MAX).
  - rewrite (Z.min_r U64_MAX) by lia. rewrite IH by (try done; lia). f_equal. lia.
  - rewrite (Z.min_l U64_MAX) by lia. rewrite IH by (try done; width). unfold is_u64, U64_MAX in *. rewrite !Z.min_r by nia. done.
Qed.
Lemma backoff_spec c : lc_settings c -> 1 <= lc_failures c ->
  backoff c = Z.min (lc_timeout c * 2 ^ (lc_failures c - 1)) (lc_renewal c).
Proof.
  intros (Ht & Hr & _) Hf. unfold backoff, duration_min.
  pose proof (backoff_loop_spec (Z.to_nat (lc_failures c - 1)) (lc_renewal c) (lc_timeout c)) as Hb.
  rewrite Z2Nat.id in Hb by lia. rewrite <-Hb by (done || lia). case_match; lia.
Qed.

Lemma failed_next c now outcome : lc_settings c ->
  let n := Z.min U32_MAX (lc_failures c + 1) in
  lc_next (failed c now outcome).1 = Some match lc_retry c with
    | AtRenewal => instant_add (default now (lc_attempt c)) (lc_renewal c)
    | Backoff => Z.min (instant_add (default now (lc_attempt c)) (lc_renewal c))
                   (instant_add now (Z.min (lc_timeout c * 2 ^ (n - 1)) (lc_renewal c)))
    end.
Proof.
  intros Hs n. set (c1 := c <| lc_attempt := None |> <| lc_failures := n |>).
  assert (Hs1 : lc_settings c1 /\ 1 <= lc_failures c1).
  { destruct Hs as (Ht & Hr & Hf). unfold lc_settings, c1, n. cbn. split_and!; try done; try apply Hr; width. }
  pose proof (backoff_spec c1 (proj1 Hs1) (proj2 Hs1)) as Hb. unfold failed. cbv zeta.
  match goal with |- context [resolve_first ?x ?b] => destruct (resolve_first_frame x b) as (_ & _ & _ & _ & ->) end.
  transitivity (Some match lc_retry c with AtRenewal => instant_add (default now (lc_attempt c)) (lc_renewal c)
    | Backoff => Z.min (instant_add (default now (lc_attempt c)) (lc_renewal c)) (instant_add now (backoff c1)) end);
    [by destruct (is_some outcome)|]. rewrite Hb. done.
Qed.

(** When the next attempt goes. After the [n]th failure in a row a retrying device waits one response timeout doubled
    [n - 1] times, never past one renewal interval after the failed attempt started, where a device that keeps to
    its renewals waits that interval; the loop that stops doubling early, on saturating
    arithmetic, computes just that. After a refusal, one renewal interval from the attempt's start. After a success, one
    interval from the lease's start, or for a device that keeps to its renewals from the attempt's. *)
Theorem retry_schedule c now outcome : lc_settings c ->
  let start := default now (lc_attempt c) in
  let n := Z.min U32_MAX (lc_failures c + 1) in
  lc_failures (failed c now outcome).1 = n /\
  lc_next (failed c now outcome).1 = Some match lc_retry c with
    | AtRenewal => instant_add start (lc_renewal c)
    | Backoff => Z.min (instant_add start (lc_renewal c))
                   (instant_add now (Z.min (lc_timeout c * 2 ^ (n - 1)) (lc_renewal c)))
    end /\
  lc_next (refused c now).1 = Some (instant_add start (lc_renewal c)) /\
  lc_next (accepted c now).1 = Some (instant_add
    match lc_retry c with Backoff => proven_since c now | AtRenewal => start end (lc_renewal c)).
Proof.
  intros Hs start n. split_and!.
  - unfold failed. cbv zeta. destruct (is_some outcome); unfold resolve_first; cbn; destruct (lc_first_resolved c); done.
  - by apply failed_next.
  - unfold refused. cbv zeta.
    match goal with |- context [resolve_first ?x ?b] => destruct (resolve_first_frame x b) as (_ & _ & _ & _ & ->) end. done.
  - unfold accepted, resolve_first. cbv zeta. cbn. by destruct (lc_first_resolved c).
Qed.
Lemma retry_schedule_witness :
  lc_next (failed (example_registration <| lc_failures := 2 |>) (duration_from_secs 3) (Some OutTimedOut)).1 =
    Some (duration_from_secs 15).
Proof.
  destruct (retry_schedule (example_registration <| lc_failures := 2 |>) (duration_from_secs 3) (Some OutTimedOut))
    as (_ & H & _).
  - repeat split; vm_compute; discriminate || reflexivity.
  - rewrite H. vm_compute. reflexivity.
Defined.

(** ** Held broadcasts *)

(** Broadcasts held, and of those released and discarded, by one operation. *)
Record Tally := { ty_held : Z; ty_released : Z; ty_discarded : Z }.
#[export] Instance eta_Tally : Settable Tally := fun r =>
  {| ty_held := ty_held r; ty_released := ty_released r; ty_discarded := ty_discarded r |}.
Definition tally_verdict (t : Tally) (v : option HeldVerdict) : Tally :=
  match v with
  | Some v => if hv_release v then t <| ty_released ::= Z.add (hv_count v) |> else t <| ty_discarded ::= Z.add (hv_count v) |>
  | None => t
  end.
Definition tally_step (c : Lifecycle) (op : LcOp) (now : Instant) (t : Tally) : Tally :=
  match op with
  | LAccepted => tally_verdict t (accepted c now).2.2
  | LRefused => tally_verdict t (refused c now).2
  | LFailed outcome => tally_verdict t (failed c now outcome).2
  | LAdmitBroadcast =>
      match (lc_admit_broadcast c now).2 with DecideHold => t <| ty_held ::= Z.succ |> | _ => t end
  | _ => t
  end.
Definition lc_exec (c : Lifecycle) (ops : list (LcOp * Instant)) : Lifecycle * Tally :=
  fold_left (fun '(c, t) '(op, now) => (lc_step c op now, tally_step c op now t)) ops
    (c, {| ty_held := 0; ty_released := 0; ty_discarded := 0 |}).
Definition tally_ok (c : Lifecycle) (t : Tally) : Prop :=
  ty_held t = ty_released t + ty_discarded t + lc_held c /\ 0 <= lc_held c /\ (lc_first_resolved c = true -> lc_held c = 0).
Lemma resolve_first_tally c release t : tally_ok c t ->
  tally_ok (resolve_first c release).1 (tally_verdict t (resolve_first c release).2).
Proof.
  unfold tally_ok, resolve_first. intros (H1 & H2 & H3). destruct (lc_first_resolved c) eqn:E; [by cbn; auto|]. cbv zeta. cbn.
  destruct (Z.ltb_spec 0 (lc_held c)); cbn; [destruct release; cbn|]; split_and!; try done; lia.
Qed.
Lemma tally_step_ok c op now t : tally_ok c t -> tally_ok (lc_step c op now) (tally_step c op now t).
Proof.
  intros Ht. destruct op; cbn [lc_step tally_step]; try exact Ht.
  - unfold sent. by destruct (lc_attempt c).
  - unfold accepted. cbv zeta.
    match goal with |- context [resolve_first ?x true] => pose proof (resolve_first_tally x true t Ht) as Hr end.
    destruct (resolve_first _ true). exact Hr.
  - unfold refused. cbv zeta. by apply resolve_first_tally.
  - unfold failed. cbv zeta. apply resolve_first_tally. by destruct (is_some outcome).
  - unfold due_now. by case_match.
  - unfold not_before. by case_match.
  - unfold hint. by repeat case_match.
  - unfold tally_ok, lc_admit_broadcast in *. destruct Ht as (H1 & H2 & H3). destruct (lc_first_resolved c) eqn:E; cbn; [by auto|].
    repeat case_match; cbn; split_and!; try lia; try done; congruence.
  - unfold lifecycle_retarget. cbv zeta. destruct Ht as (H1 & H2 & H3). by destruct same_bbmd.
Qed.

(** Every held broadcast is released or discarded once. Over any operations on a registration, the broadcasts it asked
    its caller to hold are those released, those discarded and those still held, and once the first attempt has ended
    none is held, so a move to another BBMD drops none. *)
Theorem held_once f now ops : let '(c, t) := lc_exec (lifecycle_new f now) ops in
  ty_held t = ty_released t + ty_discarded t + lc_held c /\ 0 <= lc_held c /\ (lc_first_resolved c = true -> lc_held c = 0).
Proof.
  unfold lc_exec. assert (H : tally_ok (lifecycle_new f now) {| ty_held := 0; ty_released := 0; ty_discarded := 0 |}) by done.
  revert H. generalize (lifecycle_new f now) as c. generalize {| ty_held := 0; ty_released := 0; ty_discarded := 0 |} as t.
  induction ops as [|[op at_] ops IH]; intros t c H; [done|]. cbn [fold_left]. apply IH. by apply tally_step_ok.
Qed.
