(* ===== verification/Exchange.v ===== *)
(** * A node's management exchanges (crate bacnet-bip-core, node/exchange.rs, node/counters.rs, node/actions.rs)

    The exchange slots of a B/IP node, which match a response without an invoke ID to the request it answers; the
    node's counters; and the fixed storage for what the node asks its caller to do. An array of [X] slots is a
    list of that length. *)

From S2P Require Import Prelude Time Bvll NodeLink Lifecycle.
Open Scope Z_scope.

(** [Iterator::position]. *)
Fixpoint position {A} (p : A -> bool) (l : list A) : option nat :=
  match l with
  | [] => None
  | x :: l => if p x then Some 0%nat else S <$> position p l
  end.

(** ** Operations (exchange.rs) *)

(** [Operation] (bacnet-bip-core/src/node/exchange.rs) *)
Inductive Operation := ReadBdt | WriteBdt | ReadFdt | DeleteFdtEntry | RegisterFD.
#[global] Instance Operation_eq_dec : EqDecision Operation.
Proof. solve_decision. Defined.
(** [Operation::ALL] (bacnet-bip-core/src/node/exchange.rs:34-41) *)
Definition ALL_OPERATIONS : list Operation := [ReadBdt; WriteBdt; ReadFdt; DeleteFdtEntry; RegisterFD].
(** [Operation::of] (bacnet-bip-core/src/node/exchange.rs:43-54) *)
Definition operation_of (function : BvlcFunction) : option Operation :=
  if function =? READ_BROADCAST_DISTRIBUTION_TABLE then Some ReadBdt else
  if function =? WRITE_BROADCAST_DISTRIBUTION_TABLE then Some WriteBdt else
  if function =? READ_FOREIGN_DEVICE_TABLE then Some ReadFdt else
  if function =? DELETE_FOREIGN_DEVICE_TABLE_ENTRY then Some DeleteFdtEntry else
  if function =? REGISTER_FOREIGN_DEVICE then Some RegisterFD else None.
(** [Operation::function] (bacnet-bip-core/src/node/exchange.rs) *)
Definition operation_function (o : Operation) : BvlcFunction :=
  match o with
  | ReadBdt => READ_BROADCAST_DISTRIBUTION_TABLE
  | WriteBdt => WRITE_BROADCAST_DISTRIBUTION_TABLE
  | ReadFdt => READ_FOREIGN_DEVICE_TABLE
  | DeleteFdtEntry => DELETE_FOREIGN_DEVICE_TABLE_ENTRY
  | RegisterFD => REGISTER_FOREIGN_DEVICE
  end.
(** The [while] loop is a search through [ALL].
    [Operation::of_nak] (bacnet-bip-core/src/node/exchange.rs) *)
Definition of_nak (code : BvlcResultCode) : option Operation :=
  List.find (fun o => match bvlc_nak (operation_function o) with Some nak => nak =? code | None => false end)
    ALL_OPERATIONS.
(** [Operation::ack] (bacnet-bip-core/src/node/exchange.rs:85-93) *)
Definition operation_ack (o : Operation) : option BvlcFunction :=
  match o with
  | ReadBdt => Some READ_BROADCAST_DISTRIBUTION_TABLE_ACK
  | ReadFdt => Some READ_FOREIGN_DEVICE_TABLE_ACK
  | _ => None
  end.
(** [Operation::of_ack] (bacnet-bip-core/src/node/exchange.rs) *)
Definition of_ack (function : BvlcFunction) : option Operation :=
  if function =? READ_BROADCAST_DISTRIBUTION_TABLE_ACK then Some ReadBdt else
  if function =? READ_FOREIGN_DEVICE_TABLE_ACK then Some ReadFdt else None.
(** [Operation::answered_by_success] (bacnet-bip-core/src/node/exchange.rs) *)
Definition answered_by_success (o : Operation) : bool :=
  match o with WriteBdt | DeleteFdtEntry | RegisterFD => true | _ => false end.

(** [ExchangeId] (bacnet-bip-core/src/node/exchange.rs) *)
Record ExchangeId := { xi_slot : Z; xi_generation : Z }.
#[global] Instance ExchangeId_eq_dec : EqDecision ExchangeId.
Proof. solve_decision. Defined.
(** [ExchangeId::new] (bacnet-bip-core/src/node/exchange.rs) *)
Definition exchange_id_new (slot : nat) (generation : Z) : ExchangeId :=
  {| xi_slot := Z.of_nat slot mod 256; xi_generation := generation |}.
(** [ExchangeId::slot] (bacnet-bip-core/src/node/exchange.rs) *)
Definition exchange_id_slot (id : ExchangeId) : nat := Z.to_nat (xi_slot id).
(** [ExchangeRefusal] (bacnet-bip-core/src/node/exchange.rs) *)
Inductive ExchangeRefusal := SameExchange | ResultClass | ExchangeFull | NotARequest | ManagedRegistration.
#[global] Instance ExchangeRefusal_eq_dec : EqDecision ExchangeRefusal.
Proof. solve_decision. Defined.
(** [LocalFailure] (bacnet-bip-core/src/node/exchange.rs) *)
Inductive LocalFailure := SendFailed | Cancelled.
(** [Early] (bacnet-bip-core/src/node/exchange.rs) *)
Record Early := { ea_code : option BvlcResultCode; ea_valid : bool }.
(** [Owner] (bacnet-bip-core/src/node/exchange.rs) *)
Inductive Owner := OwnManual | OwnRegistration | OwnRelease.
#[global] Instance Owner_eq_dec : EqDecision Owner.
Proof. solve_decision. Defined.
(** [Phase] (bacnet-bip-core/src/node/exchange.rs) *)
Inductive Phase := PhFree | PhAdmitted | PhSent (deadline : Instant).
#[global] Instance Phase_eq_dec : EqDecision Phase.
Proof. solve_decision. Defined.
(** [Slot] (bacnet-bip-core/src/node/exchange.rs) *)
Record Slot := {
  sl_phase : Phase; sl_peer : SocketAddrV4; sl_operation : Operation; sl_generation : Z; sl_timeout : Duration;
  sl_owner : Owner; sl_ttl : Z; sl_early : option Early; sl_late_until : option Instant
}.
#[export] Instance eta_Slot : Settable Slot := fun r =>
  {| sl_phase := sl_phase r; sl_peer := sl_peer r; sl_operation := sl_operation r; sl_generation := sl_generation r;
     sl_timeout := sl_timeout r; sl_owner := sl_owner r; sl_ttl := sl_ttl r; sl_early := sl_early r;
     sl_late_until := sl_late_until r |}.
(** [Slot::FREE] (bacnet-bip-core/src/node/exchange.rs) *)
Definition SLOT_FREE : Slot := {|
  sl_phase := PhFree; sl_peer := {| sa_ip := 0; sa_port := 0 |}; sl_operation := ReadBdt; sl_generation := 0;
  sl_timeout := DURATION_ZERO; sl_owner := OwnManual; sl_ttl := 0; sl_early := None; sl_late_until := None
|}.
(** [Slot::is_live] (bacnet-bip-core/src/node/exchange.rs) *)
Definition is_live (s : Slot) : bool := match sl_phase s with PhFree => false | _ => true end.
(** [Slot::id] (bacnet-bip-core/src/node/exchange.rs) *)
Definition slot_id (s : Slot) (slot : nat) : ExchangeId := exchange_id_new slot (sl_generation s).

(** [Key] (bacnet-bip-core/src/node/exchange.rs) *)
Inductive Key := KeySuccess | KeyOperation (o : Operation).
(** [Key::of] (bacnet-bip-core/src/node/exchange.rs) *)
Definition key_of (function : BvlcFunction) (code : option BvlcResultCode) : option Key :=
  match code with
  | Some code => if code =? SUCCESSFUL_COMPLETION then Some KeySuccess else KeyOperation <$> of_nak code
  | None => KeyOperation <$> of_ack function
  end.
(** [Key::fits] (bacnet-bip-core/src/node/exchange.rs) *)
Definition key_fits (k : Key) (o : Operation) : bool :=
  match k with KeySuccess => answered_by_success o | KeyOperation own => bool_decide (own = o) end.

(** ** The slots (exchange.rs) *)

(** [Exchanges] (bacnet-bip-core/src/node/exchange.rs) *)
Record Exchanges := { xs_slots : list Slot; xs_generation : Z }.
#[export] Instance eta_Exchanges : Settable Exchanges := fun r =>
  {| xs_slots := xs_slots r; xs_generation := xs_generation r |}.
(** [Exchanges::new] (bacnet-bip-core/src/node/exchange.rs:304-309) *)
Definition exchanges_new (X : nat) : Exchanges := {| xs_slots := replicate X SLOT_FREE; xs_generation := 0 |}.
(** [self.slots[index]]: the source panics out of range; every index here is one [position] or [live] found. *)
Definition slot_at (x : Exchanges) (index : nat) : Slot := nth index (xs_slots x) SLOT_FREE.
Definition set_slot (x : Exchanges) (index : nat) (s : Slot) : Exchanges :=
  x <| xs_slots := <[index := s]> (xs_slots x) |>.
Definition live_with (peer : SocketAddrV4) (s : Slot) : bool := is_live s && bool_decide (sl_peer s = peer).
(** The loop over the live slots of the peer: the first that is in the way.
    [Exchanges::admit] (bacnet-bip-core/src/node/exchange.rs:320-331) *)
Fixpoint admit_conflict (slots : list Slot) (peer : SocketAddrV4) (operation : Operation) : option ExchangeRefusal :=
  match slots with
  | [] => None
  | s :: slots =>
      if negb (live_with peer s) then admit_conflict slots peer operation else
      if decide (sl_operation s = operation) then Some SameExchange else
      if answered_by_success operation && answered_by_success (sl_operation s) then Some ResultClass
      else admit_conflict slots peer operation
  end.
(** [Exchanges::admit] (bacnet-bip-core/src/node/exchange.rs) *)
Definition exchanges_admit (x : Exchanges) (peer : SocketAddrV4) (operation : Operation) (timeout : Duration)
  (owner : Owner) (ttl : Z) : Exchanges * Result ExchangeId ExchangeRefusal :=
  match admit_conflict (xs_slots x) peer operation with
  | Some refusal => (x, Err refusal)
  | None =>
      match position (fun s => negb (is_live s)) (xs_slots x) with
      | None => (x, Err ExchangeFull)
      | Some index =>
          let x := x <| xs_generation := wrapping_add32 (xs_generation x) 1 |> in
          let s := {| sl_phase := PhAdmitted; sl_peer := peer; sl_operation := operation;
                      sl_generation := xs_generation x; sl_timeout := timeout; sl_owner := owner; sl_ttl := ttl;
                      sl_early := None; sl_late_until := None |} in
          (set_slot x index s, Ok (slot_id s index))
      end
  end.
(** [Exchanges::live] (bacnet-bip-core/src/node/exchange.rs) *)
Definition exchanges_live (x : Exchanges) (id : ExchangeId) : option nat :=
  match xs_slots x !! exchange_id_slot id with
  | Some s => if is_live s && (sl_generation s =? xi_generation id) then Some (exchange_id_slot id) else None
  | None => None
  end.
(** [Exchanges::id] (bacnet-bip-core/src/node/exchange.rs) *)
Definition exchanges_id (x : Exchanges) (index : nat) : ExchangeId := slot_id (slot_at x index) index.
(** [Exchanges::find] (bacnet-bip-core/src/node/exchange.rs) *)
Definition exchanges_find (x : Exchanges) (peer : SocketAddrV4) (key : Key) : option nat :=
  position (fun s => live_with peer s && key_fits key (sl_operation s)) (xs_slots x).
(** [Exchanges::first_with] (bacnet-bip-core/src/node/exchange.rs) *)
Definition first_with (x : Exchanges) (peer : SocketAddrV4) (function : BvlcFunction) : option nat :=
  let read := of_ack function in
  position (fun s => live_with peer s && ((function =? BVLC_RESULT) || bool_decide (Some (sl_operation s) = read)))
    (xs_slots x).
(** [Exchanges::is_late] (bacnet-bip-core/src/node/exchange.rs) *)
Definition is_late (x : Exchanges) (peer : SocketAddrV4) (key : Key) (now : Instant) : bool :=
  existsb (fun s => negb (is_live s) && bool_decide (sl_peer s = peer) && key_fits key (sl_operation s)
                    && match sl_late_until s with Some t => now <? t | None => false end) (xs_slots x).
(** [Exchanges::retire] (bacnet-bip-core/src/node/exchange.rs) *)
Definition exchanges_retire (x : Exchanges) (index : nat) (now : Instant) : Exchanges * Slot :=
  let ended := slot_at x index in
  let late := match sl_phase ended with PhSent _ => Some (instant_add now (sl_timeout ended)) | _ => None end in
  (set_slot x index (ended <| sl_late_until := late |> <| sl_phase := PhFree |> <| sl_early := None |>), ended).
(** [Exchanges::registration] (bacnet-bip-core/src/node/exchange.rs) *)
Definition exchanges_registration (x : Exchanges) : option nat :=
  position (fun s => is_live s && bool_decide (sl_owner s = OwnRegistration)) (xs_slots x).
(** The loop of [next_deadline], at slot [index].
    [Exchanges::next_deadline] (bacnet-bip-core/src/node/exchange.rs:418-429) *)
Fixpoint next_deadline_loop (slots : list Slot) (index : nat) (first : option (nat * Instant))
  : option (nat * Instant) :=
  match slots with
  | [] => first
  | s :: slots =>
      let first := match sl_phase s with
        | PhSent deadline =>
            if match first with Some (_, earliest) => deadline <? earliest | None => true end
            then Some (index, deadline) else first
        | _ => first
        end in
      next_deadline_loop slots (S index) first
  end.
(** [Exchanges::next_deadline] (bacnet-bip-core/src/node/exchange.rs) *)
Definition exchanges_next_deadline (x : Exchanges) : option (nat * Instant) := next_deadline_loop (xs_slots x) 0 None.

(** ** Counters (counters.rs) *)

(** [ExchangeCounters] (bacnet-bip-core/src/node/counters.rs) *)
Record ExchangeCounters := {
  ec_sent : Z; ec_acknowledgements : Z; ec_results : Z; ec_last_result : option BvlcResultCode; ec_timeouts : Z;
  ec_busy : Z; ec_local_errors : Z; ec_malformed_responses : Z
}.
#[export] Instance eta_ExchangeCounters : Settable ExchangeCounters := fun r =>
  {| ec_sent := ec_sent r; ec_acknowledgements := ec_acknowledgements r; ec_results := ec_results r;
     ec_last_result := ec_last_result r; ec_timeouts := ec_timeouts r; ec_busy := ec_busy r;
     ec_local_errors := ec_local_errors r; ec_malformed_responses := ec_malformed_responses r |}.
Definition EXCHANGE_COUNTERS_ZERO : ExchangeCounters :=
  {| ec_sent := 0; ec_acknowledgements := 0; ec_results := 0; ec_last_result := None; ec_timeouts := 0; ec_busy := 0;
     ec_local_errors := 0; ec_malformed_responses := 0 |}.
(** [RegisterAttempt] (bacnet-bip-core/src/node/counters.rs) *)
Record RegisterAttempt := {
  ra_bbmd : SocketAddrV4; ra_ttl : Z; ra_outcome : AttemptOutcome; ra_result : option BvlcResultCode
}.
#[export] Instance eta_RegisterAttempt : Settable RegisterAttempt := fun r =>
  {| ra_bbmd := ra_bbmd r; ra_ttl := ra_ttl r; ra_outcome := ra_outcome r; ra_result := ra_result r |}.
(** [NodeCounters] (bacnet-bip-core/src/node/counters.rs) *)
Record NodeCounters := {
  nc_read_bdt : ExchangeCounters; nc_write_bdt : ExchangeCounters; nc_read_fdt : ExchangeCounters;
  nc_delete_fdt_entry : ExchangeCounters; nc_register_foreign_device : ExchangeCounters;
  nc_registration_attempts : Z; nc_registrations_accepted : Z; nc_registrations_refused : Z;
  nc_last_registration_attempt : option RegisterAttempt; nc_unmatched_responses : Z; nc_late_responses : Z;
  nc_last_unmatched_result : option BvlcResultCode; nc_malformed_responses : Z; nc_renewal_hints : Z; nc_lapses : Z;
  nc_broadcasts_held : Z; nc_broadcasts_released : Z; nc_broadcasts_discarded : Z; nc_broadcasts_hold_full : Z;
  nc_broadcasts_unregistered : Z; nc_previous_releases : Z; nc_previous_released : Z;
  nc_previous_release_refused : Z; nc_previous_release_unanswered : Z
}.
#[export] Instance eta_NodeCounters : Settable NodeCounters := fun r =>
  {| nc_read_bdt := nc_read_bdt r; nc_write_bdt := nc_write_bdt r; nc_read_fdt := nc_read_fdt r;
     nc_delete_fdt_entry := nc_delete_fdt_entry r; nc_register_foreign_device := nc_register_foreign_device r;
     nc_registration_attempts := nc_registration_attempts r; nc_registrations_accepted := nc_registrations_accepted r;
     nc_registrations_refused := nc_registrations_refused r;
     nc_last_registration_attempt := nc_last_registration_attempt r;
     nc_unmatched_responses := nc_unmatched_responses r; nc_late_responses := nc_late_responses r;
     nc_last_unmatched_result := nc_last_unmatched_result r; nc_malformed_responses := nc_malformed_responses r;
     nc_renewal_hints := nc_renewal_hints r; nc_lapses := nc_lapses r; nc_broadcasts_held := nc_broadcasts_held r;
     nc_broadcasts_released := nc_broadcasts_released r; nc_broadcasts_discarded := nc_broadcasts_discarded r;
     nc_broadcasts_hold_full := nc_broadcasts_hold_full r;
     nc_broadcasts_unregistered := nc_broadcasts_unregistered r; nc_previous_releases := nc_previous_releases r;
     nc_previous_released := nc_previous_released r; nc_previous_release_refused := nc_previous_release_refused r;
     nc_previous_release_unanswered := nc_previous_release_unanswered r |}.
(** The derived [Default]. *)
Definition NODE_COUNTERS_ZERO : NodeCounters :=
  let z := EXCHANGE_COUNTERS_ZERO in
  {| nc_read_bdt := z; nc_write_bdt := z; nc_read_fdt := z; nc_delete_fdt_entry := z; nc_register_foreign_device := z;
     nc_registration_attempts := 0; nc_registrations_accepted := 0; nc_registrations_refused := 0;
     nc_last_registration_attempt := None; nc_unmatched_responses := 0; nc_late_responses := 0;
     nc_last_unmatched_result := None; nc_malformed_responses := 0; nc_renewal_hints := 0; nc_lapses := 0;
     nc_broadcasts_held := 0; nc_broadcasts_released := 0; nc_broadcasts_discarded := 0; nc_broadcasts_hold_full := 0;
     nc_broadcasts_unregistered := 0; nc_previous_releases := 0; nc_previous_released := 0;
     nc_previous_release_refused := 0; nc_previous_release_unanswered := 0 |}.
(** [NodeCounters::exchange] (bacnet-bip-core/src/node/counters.rs) *)
Definition counters_exchange (n : NodeCounters) (o : Operation) : ExchangeCounters :=
  match o with
  | ReadBdt => nc_read_bdt n | WriteBdt => nc_write_bdt n | ReadFdt => nc_read_fdt n
  | DeleteFdtEntry => nc_delete_fdt_entry n | RegisterFD => nc_register_foreign_device n
  end.
(** An update through the reference.
    [NodeCounters::exchange_mut] (bacnet-bip-core/src/node/counters.rs) *)
Definition exchange_mut (n : NodeCounters) (o : Operation) (h : ExchangeCounters -> ExchangeCounters) : NodeCounters :=
  match o with
  | ReadBdt => n <| nc_read_bdt ::= h |>
  | WriteBdt => n <| nc_write_bdt ::= h |>
  | ReadFdt => n <| nc_read_fdt ::= h |>
  | DeleteFdtEntry => n <| nc_delete_fdt_entry ::= h |>
  | RegisterFD => n <| nc_register_foreign_device ::= h |>
  end.
(** [bump] (bacnet-bip-core/src/node/counters.rs) *)
Definition bump (counter : Z) : Z := sat_add U32_MAX counter 1.
(** [add] (bacnet-bip-core/src/node/counters.rs) *)
Definition counter_add (count counter : Z) : Z := sat_add U32_MAX counter count.

(** ** Actions (actions.rs) *)

(** [Action] (bacnet-bip-core/src/node/actions.rs) *)
Inductive NodeAction :=
| ActIdle
| ActRegister (exchange : ExchangeId) (to : SocketAddrV4) (ttl : Z)
| ActExchangeEnded (exchange : ExchangeId)
| ActReleaseHeld
| ActDiscardHeld
| ActRegistration (event : RegistrationEvent)
| ActReleasePrevious (exchange : ExchangeId) (to entry : SocketAddrV4).
(** [Action::message] (bacnet-bip-core/src/node/actions.rs) *)
Definition action_message (a : NodeAction) : option Bvll :=
  match a with
  | ActRegister _ _ ttl => Some (RegisterForeignDevice ttl)
  | ActReleasePrevious _ _ entry => Some (DeleteForeignDeviceTableEntry entry)
  | _ => None
  end.
(** [EVENTS] (bacnet-bip-core/src/node/actions.rs) *)
Definition EVENTS : nat := 3.
(** [Actions] (bacnet-bip-core/src/node/actions.rs) *)
Record NodeActions := {
  na_ended : list (option Z); na_events : list (option RegistrationEvent); na_held : option bool;
  na_register : option (ExchangeId * SocketAddrV4 * Z); na_release : option (ExchangeId * SocketAddrV4 * SocketAddrV4)
}.
#[export] Instance eta_NodeActions : Settable NodeActions := fun r =>
  {| na_ended := na_ended r; na_events := na_events r; na_held := na_held r; na_register := na_register r;
     na_release := na_release r |}.
(** [Actions::new] (bacnet-bip-core/src/node/actions.rs) *)
Definition actions_new (X : nat) : NodeActions :=
  {| na_ended := replicate X None; na_events := replicate EVENTS None; na_held := None; na_register := None;
     na_release := None |}.
(** [Actions::ended] (bacnet-bip-core/src/node/actions.rs) *)
Definition actions_ended (a : NodeActions) (exchange : ExchangeId) : NodeActions :=
  a <| na_ended ::= <[exchange_id_slot exchange := Some (xi_generation exchange)]> |>.
Definition is_none_slot {A} (o : option A) : bool := negb (is_some o).
(** [Actions::event] (bacnet-bip-core/src/node/actions.rs) *)
Definition actions_event (a : NodeActions) (event : RegistrationEvent) : NodeActions :=
  match position is_none_slot (na_events a) with
  | Some slot => a <| na_events ::= <[slot := Some event]> |>
  | None => a <| na_events ::= <[(EVENTS - 1)%nat := Some event]> |>
  end.
(** [Actions::event_if_room] (bacnet-bip-core/src/node/actions.rs) *)
Definition event_if_room (a : NodeActions) (event : RegistrationEvent) : NodeActions :=
  match position is_none_slot (na_events a) with
  | Some slot => a <| na_events ::= <[slot := Some event]> |>
  | None => a
  end.
(** [Actions::held] (bacnet-bip-core/src/node/actions.rs) *)
Definition actions_held (a : NodeActions) (release : bool) : NodeActions := a <| na_held := Some release |>.
(** [Actions::register] (bacnet-bip-core/src/node/actions.rs) *)
Definition actions_register (a : NodeActions) (exchange : ExchangeId) (to : SocketAddrV4) (ttl : Z) : NodeActions :=
  a <| na_register := Some (exchange, to, ttl) |>.
(** [Actions::forget_register] (bacnet-bip-core/src/node/actions.rs) *)
Definition forget_register (a : NodeActions) (exchange : ExchangeId) : NodeActions :=
  match na_register a with
  | Some (queued, _, _) => if decide (queued = exchange) then a <| na_register := None |> else a
  | None => a
  end.
(** [Actions::release] (bacnet-bip-core/src/node/actions.rs) *)
Definition actions_release (a : NodeActions) (exchange : ExchangeId) (to entry : SocketAddrV4) : NodeActions :=
  a <| na_release := Some (exchange, to, entry) |>.
(** [Actions::take_release_if] (bacnet-bip-core/src/node/actions.rs) *)
Definition take_release_if (a : NodeActions) (drop_it : SocketAddrV4 -> bool) : NodeActions * option ExchangeId :=
  match na_release a with
  | Some (exchange, to, _) =>
      if negb (drop_it to) then (a, None) else (a <| na_release := None |>, Some exchange)
  | None => (a, None)
  end.
(** [slice.swap(i, j)]. *)
Definition swap {A} (d : A) (l : list A) (i j : nat) : list A := <[j := nth i l d]> (<[i := nth j l d]> l).
(** [Actions::poll] (bacnet-bip-core/src/node/actions.rs) *)
Definition actions_poll (a : NodeActions) : NodeActions * NodeAction :=
  match position is_some (na_ended a) with
  | Some slot =>
      (a <| na_ended ::= <[slot := None]> |>,
       ActExchangeEnded (exchange_id_new slot (default 0 (nth slot (na_ended a) None))))
  | None =>
      match nth 0 (na_events a) None with
      | Some event =>
          let events := <[0%nat := None]> (na_events a) in
          (a <| na_events := fold_left (fun l index => swap None l (index - 1) index) (seq 1 (EVENTS - 1)) events |>,
           ActRegistration event)
      | None =>
          match na_held a with
          | Some release => (a <| na_held := None |>, if release then ActReleaseHeld else ActDiscardHeld)
          | None =>
              match na_register a with
              | Some (exchange, to, ttl) => (a <| na_register := None |>, ActRegister exchange to ttl)
              | None =>
                  match na_release a with
                  | Some (exchange, to, entry) => (a <| na_release := None |>, ActReleasePrevious exchange to entry)
                  | None => (a, ActIdle)
                  end
              end
          end
      end
  end.
