(* ===== verification/Node.v ===== *)
(** * The B/IP node engine (crate bacnet-bip-core, node/engine.rs)

    The mutable half of a node: its link, its exchanges, a foreign device's registration, the actions waiting for the
    caller and the counters, with every call the host makes into it. Each call takes the current time and first
    catches up on the deadlines passed; the loop that does so carries fuel for two rounds per exchange slot, one
    lapse and one attempt, which [NodeTheorems] proves enough. *)

From S2P Require Import Prelude Time Bvll Fdt Bdt Bbmd NodeLink Lifecycle Exchange.
Open Scope Z_scope.

(** ** The data *)

(** [Inbound] (bacnet-bip-core/src/node/engine.rs) *)
Inductive Inbound :=
| InDeliver (delivery : Delivery)
| InNak (to : SocketAddrV4) (code : BvlcResultCode) (malformed : bool)
| InBbmd (share : ForBbmd)
| InDiscarded (reason : Discard)
| InMatched (exchange : ExchangeId) (message : Result Bvll BvllError) (accepted settled : bool)
| InDuplicate (exchange : ExchangeId)
| InUnmatched (peer : SocketAddrV4) (code : option BvlcResultCode) (late : bool).
(** [Node] (bacnet-bip-core/src/node/engine.rs) *)
Record Node := {
  nd_link : Link; nd_exchanges : Exchanges; nd_lifecycle : option Lifecycle; nd_actions : NodeActions;
  nd_counters : NodeCounters; nd_latest_register : option (ExchangeId * RegisterAttempt); nd_now : Instant
}.
#[export] Instance eta_Node : Settable Node := fun r =>
  {| nd_link := nd_link r; nd_exchanges := nd_exchanges r; nd_lifecycle := nd_lifecycle r; nd_actions := nd_actions r;
     nd_counters := nd_counters r; nd_latest_register := nd_latest_register r; nd_now := nd_now r |}.

(** ** What the calls share *)

(** [Node::record_register] (bacnet-bip-core/src/node/engine.rs) *)
Definition record_register (n : Node) (exchange : ExchangeId) (outcome : AttemptOutcome) (result : option BvlcResultCode)
  : Node :=
  match nd_latest_register n with
  | Some (latest, attempt) =>
      if decide (latest = exchange) then
        let attempt := attempt <| ra_outcome := outcome |> <| ra_result := result |> in
        n <| nd_latest_register := Some (latest, attempt) |>
          <| nd_counters ::= (fun k => k <| nc_last_registration_attempt := Some attempt |>) |>
      else n
  | None => n
  end.
(** [Node::held_verdict] (bacnet-bip-core/src/node/engine.rs) *)
Definition held_verdict (n : Node) (verdict : option HeldVerdict) : Node :=
  match verdict with
  | None => n
  | Some v =>
      n <| nd_counters ::= (fun k =>
             if hv_release v then k <| nc_broadcasts_released ::= counter_add (hv_count v) |>
             else k <| nc_broadcasts_discarded ::= counter_add (hv_count v) |>) |>
        <| nd_actions ::= (fun a => actions_held a (hv_release v)) |>
  end.
(** [Node::release_ended] (bacnet-bip-core/src/node/engine.rs) *)
Definition release_ended (n : Node) (slot : Slot) (outcome : AttemptOutcome) (now : Instant) : Node :=
  let bbmd := sl_peer slot in
  let n := n <| nd_actions ::= (fun a => event_if_room a (EvPreviousRelease bbmd outcome)) |> in
  match lk_mode (nd_link n), nd_lifecycle n with
  | ModeForeign foreign, Some lifecycle =>
      if negb (bool_decide (fr_bbmd foreign = Some bbmd)) then n else
      match outcome with
      | OutAccepted | OutRefused => n <| nd_lifecycle := Some (due_now lifecycle now) |>
      | _ =>
          match sl_phase slot with
          | PhSent _ => n <| nd_lifecycle := Some (not_before lifecycle (instant_add now (sl_timeout slot))) |>
          | _ => n
          end
      end
  | _, _ => n
  end.
(** [Node::ended_unanswered] (bacnet-bip-core/src/node/engine.rs) *)
Definition ended_unanswered (n : Node) (exchange : ExchangeId) (slot : Slot) (outcome : AttemptOutcome) (now : Instant)
  : Node :=
  let n := if decide (sl_operation slot = RegisterFD) then record_register n exchange outcome None else n in
  match sl_owner slot with
  | OwnManual => n
  | OwnRelease =>
      release_ended (n <| nd_counters ::= (fun k => k <| nc_previous_release_unanswered ::= bump |>) |>) slot outcome now
  | OwnRegistration =>
      match nd_lifecycle n with
      | Some lifecycle =>
          let '(lifecycle, verdict) := failed lifecycle now (Some outcome) in
          let n := n <| nd_lifecycle := Some lifecycle |> <| nd_actions ::= (fun a => actions_event a EvUnanswered) |> in
          held_verdict n verdict
      | None => n
      end
  end.
(** [Node::time_out] (bacnet-bip-core/src/node/engine.rs) *)
Definition time_out (n : Node) (index : nat) (now : Instant) : Node :=
  let exchange := exchanges_id (nd_exchanges n) index in
  let '(exchanges, slot) := exchanges_retire (nd_exchanges n) index now in
  let n := n <| nd_exchanges := exchanges |>
    <| nd_counters ::= (fun k => exchange_mut k (sl_operation slot) (fun x => x <| ec_timeouts ::= bump |>)) |> in
  let n := if decide (sl_owner slot = OwnManual) then n <| nd_actions ::= (fun a => actions_ended a exchange) |> else n in
  ended_unanswered n exchange slot OutTimedOut now.
(** [Node::admit] (bacnet-bip-core/src/node/engine.rs) *)
Definition node_admit (n : Node) (peer : SocketAddrV4) (operation : Operation) (timeout : Duration) (owner : Owner)
  (ttl : Z) : Node * Result ExchangeId ExchangeRefusal :=
  match exchanges_admit (nd_exchanges n) peer operation timeout owner ttl with
  | (exchanges, Err refusal) =>
      (n <| nd_exchanges := exchanges |>
         <| nd_counters ::= (fun k => exchange_mut k operation (fun x => x <| ec_busy ::= bump |>)) |>, Err refusal)
  | (exchanges, Ok exchange) =>
      let n := n <| nd_exchanges := exchanges |> in
      let n := if decide (operation = RegisterFD) then
          let attempt := {| ra_bbmd := peer; ra_ttl := ttl; ra_outcome := OutPending; ra_result := None |} in
          n <| nd_counters ::= (fun k => k <| nc_registration_attempts ::= bump |>) |>
            <| nd_latest_register := Some (exchange, attempt) |>
            <| nd_counters ::= (fun k => k <| nc_last_registration_attempt := Some attempt |>) |>
        else n in
      (n, Ok exchange)
  end.
(** [Node::start_attempt] (bacnet-bip-core/src/node/engine.rs) *)
Definition start_attempt (n : Node) (now : Instant) : Node :=
  match lk_mode (nd_link n) with
  | ModeForeign foreign =>
      match fr_bbmd foreign with
      | None => n
      | Some bbmd =>
          let timeout := effective_response_timeout foreign in
          match node_admit n bbmd RegisterFD timeout OwnRegistration (fr_ttl foreign) with
          | (n, Ok exchange) =>
              n <| nd_lifecycle ::= option_map (fun c => admitted c now) |>
                <| nd_actions ::= (fun a => actions_register a exchange bbmd (fr_ttl foreign)) |>
          | (n, Err _) =>
              match nd_lifecycle n with
              | Some lifecycle =>
                  let '(lifecycle, verdict) := failed lifecycle now None in
                  held_verdict (n <| nd_lifecycle := Some lifecycle |>) verdict
              | None => n
              end
          end
      end
  | _ => n
  end.

(** ** Deadlines *)

Definition node_lapse_at (n : Node) : option Instant := match nd_lifecycle n with Some c => lapse_at c | None => None end.
Definition node_due_at (n : Node) : option Instant := match nd_lifecycle n with Some c => due_at c | None => None end.
(** [Node::next_deadline] (bacnet-bip-core/src/node/engine.rs) *)
Definition next_deadline (n : Node) : option Instant :=
  earliest [snd <$> exchanges_next_deadline (nd_exchanges n); node_lapse_at n; node_due_at n].
(** One round of the loop of [catch_up], or [None] where it returns.
    [Node::catch_up] (bacnet-bip-core/src/node/engine.rs:559-580) *)
Definition catch_up_round (n : Node) (now : Instant) (start_due : bool) : option Node :=
  let timeout := exchanges_next_deadline (nd_exchanges n) in
  let lapse_ := node_lapse_at n in
  let due := if start_due then node_due_at n else None in
  let first := earliest [snd <$> timeout; lapse_; due] in
  match first with
  | Some at_ =>
      if negb (at_ <=? now) then None else
      let timed := match timeout with
        | Some (index, deadline) => if bool_decide (Some deadline = first) then Some index else None
        | None => None
        end in
      Some match timed with
        | Some index => time_out n index now
        | None =>
            if bool_decide (lapse_ = first) then
              n <| nd_lifecycle ::= option_map lapse |> <| nd_counters ::= (fun k => k <| nc_lapses ::= bump |>) |>
                <| nd_actions ::= (fun a => actions_event a EvLapsed) |>
            else start_attempt n now
        end
  | None => None
  end.
Fixpoint catch_up_loop (fuel : nat) (n : Node) (now : Instant) (start_due : bool) : Node :=
  match fuel with
  | O => n
  | S fuel =>
      match catch_up_round n now start_due with
      | Some n => catch_up_loop fuel n now start_due
      | None => n
      end
  end.
Definition catch_up_fuel (n : Node) : nat := 2 * length (xs_slots (nd_exchanges n)) + 3.
(** [Node::catch_up] (bacnet-bip-core/src/node/engine.rs) *)
Definition catch_up (n : Node) (now : Instant) (start_due : bool) : Node * Instant :=
  let now := instant_max now (nd_now n) in
  let n := n <| nd_now := now |> in
  (catch_up_loop (catch_up_fuel n) n now start_due, now).
(** [Node::advance] (bacnet-bip-core/src/node/engine.rs) *)
Definition advance (n : Node) (now : Instant) : Node * Instant := catch_up n now true.
(** [Node::on_deadline] (bacnet-bip-core/src/node/engine.rs) *)
Definition on_deadline (n : Node) (now : Instant) : Node := (advance n now).1.
(** [Node::new] (bacnet-bip-core/src/node/engine.rs) *)
Definition node_new (X : nat) (link : Link) (now : Instant) : Result Node ConfigError :=
  let? _ := link_validate link in
  let lifecycle := match lk_mode link with ModeForeign foreign => Some (lifecycle_new foreign now) | _ => None end in
  let node := {| nd_link := link; nd_exchanges := exchanges_new X; nd_lifecycle := lifecycle; nd_actions := actions_new X;
                 nd_counters := NODE_COUNTERS_ZERO; nd_latest_register := None; nd_now := now |} in
  Ok (advance node now).1.

(** ** Responses *)

(** [Node::unmatched] (bacnet-bip-core/src/node/engine.rs) *)
Definition unmatched (n : Node) (peer : SocketAddrV4) (code : option BvlcResultCode) (key : option Key) (now : Instant)
  : Node * Inbound :=
  let late := match key with Some key => is_late (nd_exchanges n) peer key now | None => false end in
  let n := n <| nd_counters ::= (fun k => k <| nc_unmatched_responses ::= bump |>) |> in
  let n := if late then n <| nd_counters ::= (fun k => k <| nc_late_responses ::= bump |>) |> else n in
  let n := if is_some code then n <| nd_counters ::= (fun k => k <| nc_last_unmatched_result := code |>) |> else n in
  let n :=
    if bool_decide (code = Some DISTRIBUTE_BROADCAST_TO_NETWORK_NAK) then
      match lk_mode (nd_link n), nd_lifecycle n with
      | ModeForeign foreign, Some lifecycle =>
          if bool_decide (fr_bbmd foreign = Some peer) && bool_decide (fr_retry foreign = Backoff)
          then n <| nd_counters ::= (fun k => k <| nc_renewal_hints ::= bump |>) |>
                 <| nd_lifecycle := Some (hint lifecycle now) |>
          else n
      | _, _ => n
      end
    else n in
  (n, InUnmatched peer code late).
(** What a success or a refusal of the node's own registration attempt changes.
    [Node::settle] (bacnet-bip-core/src/node/engine.rs:311-323) *)
Definition settle_registration (n : Node) (accepted_ : bool) (code : BvlcResultCode) (now : Instant) : Node :=
  match nd_lifecycle n with
  | None => n
  | Some lifecycle =>
      let '(lifecycle, (event, verdict)) :=
        if accepted_ then accepted lifecycle now
        else let '(lifecycle, verdict) := refused lifecycle now in (lifecycle, (Some (EvRefused code), verdict)) in
      let n := n <| nd_lifecycle := Some lifecycle |> in
      let n := match event with
        | Some event => n <| nd_actions ::= (fun a => actions_event a event) |>
        | None => n
        end in
      held_verdict n verdict
  end.
(** [Node::settle] (bacnet-bip-core/src/node/engine.rs) *)
Definition settle (n : Node) (index : nat) (code : option BvlcResultCode) (valid : bool) (now : Instant) : Node :=
  let exchange := exchanges_id (nd_exchanges n) index in
  let '(exchanges, slot) := exchanges_retire (nd_exchanges n) index now in
  let n := n <| nd_exchanges := exchanges |> in
  if negb valid then n else
  let n := n <| nd_counters ::= (fun k => exchange_mut k (sl_operation slot) (fun x =>
    match code with
    | Some code => x <| ec_results ::= bump |> <| ec_last_result := Some code |>
    | None => x <| ec_acknowledgements ::= bump |>
    end)) |> in
  match code with
  | None => n
  | Some code =>
      let accepted_ := code =? SUCCESSFUL_COMPLETION in
      let outcome := if accepted_ then OutAccepted else OutRefused in
      if decide (sl_owner slot = OwnRelease) then
        release_ended (n <| nd_counters ::= (fun k =>
          if accepted_ then k <| nc_previous_released ::= bump |> else k <| nc_previous_release_refused ::= bump |>) |>)
          slot outcome now
      else if negb (bool_decide (sl_operation slot = RegisterFD)) then n else
      let n := n <| nd_counters ::= (fun k =>
        if accepted_ then k <| nc_registrations_accepted ::= bump |> else k <| nc_registrations_refused ::= bump |>) |> in
      let n := record_register n exchange outcome (Some code) in
      if negb (bool_decide (sl_owner slot = OwnRegistration)) then n else settle_registration n accepted_ code now
  end.
(** [Node::match_response] (bacnet-bip-core/src/node/engine.rs) *)
Definition match_response (n : Node) (response : Response) (now : Instant) : Node * Inbound :=
  let peer := rs_peer response in
  let function := rs_function response in
  let message := rs_message response in
  let code := match message with Ok (BvlcResultMsg code) => Some code | _ => None end in
  let valid := match message with Ok _ => rs_accepted response | Err _ => false end in
  let '(n, key) :=
    if valid then (n, key_of function code) else
    let n := n <| nd_counters ::= (fun k => k <| nc_malformed_responses ::= bump |>) |> in
    let n := match first_with (nd_exchanges n) peer function with
      | Some index =>
          let operation := sl_operation (slot_at (nd_exchanges n) index) in
          n <| nd_counters ::= (fun k => exchange_mut k operation (fun x => x <| ec_malformed_responses ::= bump |>)) |>
      | None => n
      end in
    (n, KeyOperation <$> of_ack function) in
  match match key with Some key => exchanges_find (nd_exchanges n) peer key | None => None end with
  | None => if negb valid then (n, InUnmatched peer None false) else unmatched n peer code key now
  | Some index =>
      let exchange := exchanges_id (nd_exchanges n) index in
      let slot := slot_at (nd_exchanges n) index in
      if decide (sl_phase slot = PhAdmitted) then
        if is_some (sl_early slot) then (n, InDuplicate exchange) else
        let slot := slot <| sl_early := Some {| ea_code := code; ea_valid := valid |} |> in
        (n <| nd_exchanges ::= (fun x => set_slot x index slot) |>, InMatched exchange message valid false)
      else (settle n index code valid now, InMatched exchange message valid true)
  end.
(** [Node::resolve] (bacnet-bip-core/src/node/engine.rs) *)
Definition resolve (n : Node) (response : Response) (now : Instant) : Node * Inbound :=
  let '(n, now) := catch_up n now false in
  let '(n, inbound) := match_response n response now in
  ((advance n now).1, inbound).
(** [Node::receive] (bacnet-bip-core/src/node/engine.rs) *)
Definition node_receive {P} `{Policy P} (n : Node) (datagram : Datagram) (now : Instant) (policy : P)
  : Node * P * Inbound :=
  let '(n, now) := catch_up n now false in
  let '(policy, received) := link_receive (nd_link n) datagram policy in
  let '(n, inbound) :=
    match received with
    | RDeliver delivery => (n, InDeliver delivery)
    | RNak to code malformed => (n, InNak to code malformed)
    | RBbmd share => (n, InBbmd share)
    | RDiscarded reason => (n, InDiscarded reason)
    | RResponse response => match_response n response now
    end in
  ((advance n now).1, policy, inbound).

(** ** The caller's requests *)

(** [Node::admit_broadcast] (bacnet-bip-core/src/node/engine.rs) *)
Definition admit_broadcast (n : Node) (now : Instant) : Node * Result Admission SendRefusal :=
  let '(n, now) := advance n now in
  match nd_lifecycle n with
  | None => (n, Ok AdmitSend)
  | Some lifecycle =>
      let '(lifecycle, decision) := lc_admit_broadcast lifecycle now in
      let n := n <| nd_lifecycle := Some lifecycle |> in
      match decision with
      | DecideHold => (n <| nd_counters ::= (fun k => k <| nc_broadcasts_held ::= bump |>) |>, Ok AdmitHold)
      | DecideSend lapsed =>
          (if lapsed then n <| nd_counters ::= (fun k => k <| nc_broadcasts_unregistered ::= bump |>) |> else n,
           Ok AdmitSend)
      | DecideFull => (n <| nd_counters ::= (fun k => k <| nc_broadcasts_hold_full ::= bump |>) |>, Err HoldFull)
      end
  end.
(** [Node::begin_exchange] (bacnet-bip-core/src/node/engine.rs) *)
Definition begin_exchange (n : Node) (peer : SocketAddrV4) (request : Bvll) (timeout : Duration) (now : Instant)
  : Node * Result (ExchangeId * Outgoing) ExchangeRefusal :=
  let '(n, _) := advance n now in
  match operation_of (bvll_function request) with
  | None => (n, Err NotARequest)
  | Some operation =>
      if match lk_mode (nd_link n) with
         | ModeForeign foreign => bool_decide (fr_bbmd foreign = Some peer) && answered_by_success operation
         | _ => false
         end
      then (n, Err ManagedRegistration) else
      let ttl := match request with RegisterForeignDevice ttl => ttl | _ => 0 end in
      match node_admit n peer operation timeout OwnManual ttl with
      | (n, Ok exchange) => (n, Ok (exchange, {| og_to := peer; og_message := request |}))
      | (n, Err refusal) => (n, Err refusal)
      end
  end.
(** [Node::exchange_sent] (bacnet-bip-core/src/node/engine.rs) *)
Definition exchange_sent (n : Node) (exchange : ExchangeId) (now : Instant) : Node * bool :=
  let '(n, now) := advance n now in
  match exchanges_live (nd_exchanges n) exchange with
  | None => (n, false)
  | Some index =>
      let slot := slot_at (nd_exchanges n) index in
      if negb (bool_decide (sl_phase slot = PhAdmitted)) then (n, false) else
      let early := sl_early slot in
      let slot := slot <| sl_phase := PhSent (instant_add now (sl_timeout slot)) |> <| sl_early := None |> in
      let n := n <| nd_exchanges ::= (fun x => set_slot x index slot) |>
        <| nd_counters ::= (fun k => exchange_mut k (sl_operation slot) (fun x => x <| ec_sent ::= bump |>)) |> in
      let n := if decide (sl_owner slot = OwnRegistration) then n <| nd_lifecycle ::= option_map sent |> else n in
      let n := match early with
        | Some early => settle n index (ea_code early) (ea_valid early) now
        | None => n
        end in
      ((advance n now).1, is_some early)
  end.
(** [Node::exchange_failed] (bacnet-bip-core/src/node/engine.rs) *)
Definition exchange_failed (n : Node) (exchange : ExchangeId) (why : LocalFailure) (now : Instant) : Node :=
  let '(n, now) := advance n now in
  match exchanges_live (nd_exchanges n) exchange with
  | None => n
  | Some index =>
      let '(exchanges, slot) := exchanges_retire (nd_exchanges n) index now in
      let n := n <| nd_exchanges := exchanges |> in
      let '(n, outcome) :=
        match why with
        | SendFailed =>
            (n <| nd_counters ::= (fun k => exchange_mut k (sl_operation slot) (fun x => x <| ec_local_errors ::= bump |>)) |>,
             OutLocalError)
        | Cancelled => (n, OutCancelled)
        end in
      let n := ended_unanswered n exchange slot outcome now in
      (advance n now).1
  end.
(** [Node::release_previous] (bacnet-bip-core/src/node/engine.rs) *)
Definition release_previous (n : Node) (bbmd : SocketAddrV4) (timeout : Duration) : Node :=
  let n := n <| nd_counters ::= (fun k => k <| nc_previous_releases ::= bump |>) |> in
  let entry := lk_address (nd_link n) in
  match node_admit n bbmd DeleteFdtEntry timeout OwnRelease 0 with
  | (n, Ok exchange) => n <| nd_actions ::= (fun a => actions_release a exchange bbmd entry) |>
  | (n, Err _) =>
      n <| nd_counters ::= (fun k => k <| nc_previous_release_unanswered ::= bump |>) |>
        <| nd_actions ::= (fun a => event_if_room a (EvPreviousRelease bbmd OutCancelled)) |>
  end.
(** The attempt in flight ends as cancelled.
    [Node::retarget] (bacnet-bip-core/src/node/engine.rs:667-672) *)
Definition cancel_attempt (n : Node) (now : Instant) : Node :=
  match exchanges_registration (nd_exchanges n) with
  | None => n
  | Some index =>
      let exchange := exchanges_id (nd_exchanges n) index in
      let n := n <| nd_exchanges ::= (fun x => (exchanges_retire x index now).1) |>
        <| nd_actions ::= (fun a => forget_register a exchange) |> in
      record_register n exchange OutCancelled None
  end.
(** A release queued and never polled, to a BBMD [drop_it] picks, ends as cancelled.
    [Node::retarget] (bacnet-bip-core/src/node/engine.rs:678-688) *)
Definition drop_release (n : Node) (drop_it : SocketAddrV4 -> bool) (now : Instant) : Node :=
  let '(actions, taken) := take_release_if (nd_actions n) drop_it in
  let n := n <| nd_actions := actions |> in
  match taken with
  | None => n
  | Some exchange =>
      match exchanges_live (nd_exchanges n) exchange with
      | None => n
      | Some index =>
          let '(exchanges, slot) := exchanges_retire (nd_exchanges n) index now in
          ended_unanswered (n <| nd_exchanges := exchanges |>) exchange slot OutCancelled now
      end
  end.
(** [Node::retarget] (bacnet-bip-core/src/node/engine.rs) *)
Definition retarget (n : Node) (foreign : Foreign) (now : Instant) : Node * Result unit ConfigError :=
  match lk_mode (nd_link n) with
  | ModeForeign old =>
      let link := (nd_link n) <| lk_mode := ModeForeign foreign |> in
      match link_validate link with
      | Err e => (n, Err e)
      | Ok _ =>
          let '(n, now) := catch_up n now false in
          let n := cancel_attempt n now in
          let left_bbmd := match fr_bbmd old with
            | Some bbmd =>
                if fr_release_previous foreign && negb (bool_decide (fr_bbmd foreign = Some bbmd)) then Some bbmd else None
            | None => None
            end in
          let n := drop_release n (fun to => is_some left_bbmd || bool_decide (fr_bbmd foreign = Some to)) now in
          let n := n <| nd_lifecycle ::= option_map (fun c =>
            lifecycle_retarget c foreign now (bool_decide (fr_bbmd old = fr_bbmd foreign))) |> in
          let n := n <| nd_link := link |> in
          let n := (advance n now).1 in
          (match left_bbmd with
           | Some bbmd => release_previous n bbmd (effective_response_timeout old)
           | None => n
           end, Ok tt)
      end
  | _ => (n, Err NotForeign)
  end.
(** [Node::set_subnet] (bacnet-bip-core/src/node/engine.rs) *)
Definition set_subnet (n : Node) (subnet : LocalSubnet) : Node * Result unit ConfigError :=
  let link := (nd_link n) <| lk_subnet := subnet |> in
  match link_validate link with
  | Err e => (n, Err e)
  | Ok _ => (n <| nd_link := link |>, Ok tt)
  end.
(** [Node::poll_action] (bacnet-bip-core/src/node/engine.rs) *)
Definition poll_action (n : Node) : Node * NodeAction :=
  let '(actions, action) := actions_poll (nd_actions n) in (n <| nd_actions := actions |>, action).
(** [Node::registration] (bacnet-bip-core/src/node/engine.rs) *)
Definition node_registration (n : Node) (now : Instant) : option RegistrationSnapshot :=
  option_map (fun c => snapshot c (instant_max now (nd_now n))) (nd_lifecycle n).
(** [Node::take_counters] (bacnet-bip-core/src/node/engine.rs) *)
Definition take_counters (n : Node) : Node * NodeCounters :=
  (n <| nd_counters := NODE_COUNTERS_ZERO |>, nd_counters n).
