(* ===== verification/NodeCore.v ===== *)
(** * The node's exchanges and registration as one machine

    What a node's calls do to the part of its state that decides who is answered and when it registers: the link, who
    is asked what in each exchange slot and for whom, and the registration's state machine. [core_step] lists the
    moves; the engine's calls are shown to be sequences of them, so an invariant of the moves is one of the node, and
    the registration of any node is a run of [Lifecycle]. *)

From stdpp Require Import relations.
From S2P Require Import Prelude Time Bvll Fdt Bdt Bbmd NodeLink Lifecycle Exchange Node.
Open Scope Z_scope.

(** ** The machine *)

(** Who a live exchange is with, what it asks and who runs it. *)
Definition Entry : Type := SocketAddrV4 * Operation * Owner.
Definition entry_of (s : Slot) : option Entry :=
  if is_live s then Some (sl_peer s, sl_operation s, sl_owner s) else None.
(** [co_dangling]: the attempt in flight was cancelled, and the registration is about to be set anew. *)
Record Core := {
  co_link : Link; co_view : list (option Entry); co_lc : option Lifecycle; co_now : Instant; co_dangling : bool
}.
#[export] Instance eta_Core : Settable Core := fun r =>
  {| co_link := co_link r; co_view := co_view r; co_lc := co_lc r; co_now := co_now r; co_dangling := co_dangling r |}.
Definition view (x : Exchanges) : list (option Entry) := entry_of <$> xs_slots x.
Definition core_at (dangling : bool) (n : Node) : Core :=
  {| co_link := nd_link n; co_view := view (nd_exchanges n); co_lc := nd_lifecycle n; co_now := nd_now n;
     co_dangling := dangling |}.
Definition core_of (n : Node) : Core := core_at false n.

(** Two exchanges a response could not tell apart. *)
Definition clash (o o' : Operation) : Prop := o = o' \/ answered_by_success o && answered_by_success o' = true.
Definition no_clash (v : list (option Entry)) (p : SocketAddrV4) (o : Operation) : Prop :=
  forall i o' w, v !! i = Some (Some (p, o', w)) -> ~ clash o o'.
Definition no_registration (v : list (option Entry)) : Prop :=
  forall i p o, v !! i <> Some (Some (p, o, OwnRegistration)).

(** The fields of a registration's settings fit their types. *)
Definition foreign_typed (f : Foreign) : Prop :=
  is_u16 (fr_ttl f) /\ is_u64 (fr_renewal f) /\ is_u64 (fr_response_timeout f) /\ is_u16 (fr_hold f).
Definition link_typed (l : Link) : Prop := match lk_mode l with ModeForeign f => foreign_typed f | _ => True end.

Inductive core_step : Core -> Core -> Prop :=
| step_tick c now : co_now c <= now -> core_step c (c <| co_now := now |>)
| step_manual_end c i p o : co_view c !! i = Some (Some (p, o, OwnManual)) ->
    core_step c (c <| co_view ::= <[i := None]> |>)
| step_release_end c i p a a' : co_view c !! i = Some (Some (p, DeleteFdtEntry, OwnRelease)) -> co_lc c = Some a ->
    a' = a \/ a' = due_now a (co_now c) \/ (exists t, a' = not_before a t) ->
    core_step c (c <| co_view ::= <[i := None]> |> <| co_lc := Some a' |>)
| step_registration_end c i p a a' : co_view c !! i = Some (Some (p, RegisterFD, OwnRegistration)) -> co_lc c = Some a ->
    (exists o, a' = (failed a (co_now c) (Some o)).1) \/ a' = (accepted a (co_now c)).1 \/ a' = (refused a (co_now c)).1 ->
    core_step c (c <| co_view ::= <[i := None]> |> <| co_lc := Some a' |>)
| step_lapse c a : co_lc c = Some a -> core_step c (c <| co_lc := Some (lapse a) |>)
| step_hint c a : co_lc c = Some a -> core_step c (c <| co_lc := Some (hint a (co_now c)) |>)
| step_broadcast c a : co_lc c = Some a -> core_step c (c <| co_lc := Some (lc_admit_broadcast a (co_now c)).1 |>)
| step_sent c a : co_lc c = Some a -> core_step c (c <| co_lc := Some (sent a) |>)
| step_admit c i p o w : co_view c !! i = Some None -> no_clash (co_view c) p o ->
    w = OwnManual \/ w = OwnRelease /\ o = DeleteFdtEntry /\ is_some (co_lc c) = true ->
    core_step c (c <| co_view ::= <[i := Some (p, o, w)]> |>)
| step_start c i f b a : lk_mode (co_link c) = ModeForeign f -> fr_bbmd f = Some b -> co_lc c = Some a ->
    lc_attempt a = None -> co_view c !! i = Some None -> no_clash (co_view c) b RegisterFD ->
    co_dangling c = false ->
    core_step c (c <| co_view ::= <[i := Some (b, RegisterFD, OwnRegistration)]> |>
                   <| co_lc := Some (admitted a (co_now c)) |>)
| step_busy c f b a : lk_mode (co_link c) = ModeForeign f -> fr_bbmd f = Some b -> co_lc c = Some a ->
    lc_attempt a = None -> core_step c (c <| co_lc := Some (failed a (co_now c) None).1 |>)
| step_cancel c i p o : co_view c !! i = Some (Some (p, o, OwnRegistration)) ->
    core_step c (c <| co_view ::= <[i := None]> |> <| co_dangling := true |>)
| step_retarget c old f a : lk_mode (co_link c) = ModeForeign old -> co_lc c = Some a -> no_registration (co_view c) ->
    link_validate ((co_link c) <| lk_mode := ModeForeign f |>) = Ok tt -> foreign_typed f ->
    core_step c (c <| co_link ::= (fun l => l <| lk_mode := ModeForeign f |>) |>
      <| co_lc := Some (lifecycle_retarget a f (co_now c) (bool_decide (fr_bbmd old = fr_bbmd f))) |>
      <| co_dangling := false |>)
| step_subnet c s : link_validate ((co_link c) <| lk_subnet := s |>) = Ok tt ->
    core_step c (c <| co_link ::= (fun l => l <| lk_subnet := s |>) |>).
Definition core_steps : Core -> Core -> Prop := rtc core_step.

(** ** The invariant *)

(** No two live exchanges with a peer could be answered by the same response. *)
Definition unambiguous (v : list (option Entry)) : Prop :=
  forall i j p o o' w w', v !! i = Some (Some (p, o, w)) -> v !! j = Some (Some (p, o', w')) -> i <> j -> ~ clash o o'.
(** The registration holds the link's settings; an attempt is in flight, or one is due, or there is no BBMD yet. *)
Record lc_follows (f : Foreign) (a : Lifecycle) : Prop := {
  lf_ttl : lc_ttl a = ttl_duration f; lf_renewal : lc_renewal a = effective_renewal f;
  lf_timeout : lc_timeout a = effective_response_timeout f; lf_retry : lc_retry a = fr_retry f;
  lf_hold : lc_hold_limit a = fr_hold f; lf_waiting : lc_waiting a = negb (is_some (fr_bbmd f));
  lf_due : is_some (lc_next a) = is_some (fr_bbmd f) && negb (is_some (lc_attempt a));
  lf_attempt : is_some (lc_attempt a) = true -> is_some (fr_bbmd f) = true;
  lf_failures : is_u32 (lc_failures a)
}.
(** Once the first attempt has ended nothing is held. *)
Definition held_ok (a : Lifecycle) : Prop := 0 <= lc_held a /\ (lc_first_resolved a = true -> lc_held a = 0).
Record core_inv (c : Core) : Prop := {
  ci_link : link_validate (co_link c) = Ok tt;
  ci_typed : link_typed (co_link c);
  ci_unambiguous : unambiguous (co_view c);
  ci_release : forall i p o, co_view c !! i = Some (Some (p, o, OwnRelease)) -> o = DeleteFdtEntry /\ is_some (co_lc c) = true;
  ci_registration : match lk_mode (co_link c) with
    | ModeForeign f => exists a, co_lc c = Some a /\ held_ok a /\ (co_dangling c = false -> lc_follows f a) /\
        (forall i p o, co_view c !! i = Some (Some (p, o, OwnRegistration)) ->
           Some p = fr_bbmd f /\ o = RegisterFD /\ is_some (lc_attempt a) = true /\ co_dangling c = false) /\
        (is_some (lc_attempt a) = true -> co_dangling c = false ->
           exists i p, co_view c !! i = Some (Some (p, RegisterFD, OwnRegistration)))
    | _ => co_lc c = None /\ no_registration (co_view c)
    end
}.

(** ** The registration's moves *)

(** A move that keeps the settings, the attempt and whether one is due. *)
Record lc_same (a a' : Lifecycle) : Prop := {
  ls_ttl : lc_ttl a' = lc_ttl a; ls_renewal : lc_renewal a' = lc_renewal a; ls_timeout : lc_timeout a' = lc_timeout a;
  ls_retry : lc_retry a' = lc_retry a; ls_hold : lc_hold_limit a' = lc_hold_limit a;
  ls_waiting : lc_waiting a' = lc_waiting a; ls_next : is_some (lc_next a') = is_some (lc_next a);
  ls_attempt : lc_attempt a' = lc_attempt a; ls_failures : lc_failures a' = lc_failures a
}.
Lemma lc_same_refl a : lc_same a a.
Proof. by split. Qed.
Lemma lc_same_follows f a a' : lc_same a a' -> lc_follows f a -> lc_follows f a'.
Proof. intros [] []. split; try congruence. by rewrite ls_attempt0. Qed.
Ltac same E := split; [split; cbn; by rewrite ?E|done].
Lemma due_now_same a now : lc_same a (due_now a now) /\ (held_ok a -> held_ok (due_now a now)).
Proof. unfold due_now. destruct (lc_next a) eqn:E; [case_match|rewrite andb_false_r]; same E. Qed.
Lemma not_before_same a t : lc_same a (not_before a t) /\ (held_ok a -> held_ok (not_before a t)).
Proof. unfold not_before. destruct (lc_next a) eqn:E; [case_match|]; same E. Qed.
Lemma hint_same a now : lc_same a (hint a now) /\ (held_ok a -> held_ok (hint a now)).
Proof.
  unfold hint. destruct (is_some (lc_attempt a)); [by split|]. destruct (lc_next a) eqn:E; [|by split]. case_match; same E.
Qed.
Lemma sent_same a : lc_same a (sent a) /\ (held_ok a -> held_ok (sent a)).
Proof. unfold sent. destruct (lc_attempt a) eqn:E; same E. Qed.
Lemma lapse_same a : lc_same a (lapse a) /\ (held_ok a -> held_ok (lapse a)).
Proof. same (eq_refl a). Qed.
Lemma broadcast_same a now : lc_same a (lc_admit_broadcast a now).1 /\ (held_ok a -> held_ok (lc_admit_broadcast a now).1).
Proof.
  unfold lc_admit_broadcast. destruct (lc_first_resolved a) eqn:E; [by split|]. cbn [negb andb].
  repeat case_match; (split; [by split|try done]). unfold held_ok. cbn. intros [? ?]. split; [lia|congruence].
Qed.

(** A move that ends the attempt and sets the next one. *)
Record lc_ended (a a' : Lifecycle) : Prop := {
  le_ttl : lc_ttl a' = lc_ttl a; le_renewal : lc_renewal a' = lc_renewal a; le_timeout : lc_timeout a' = lc_timeout a;
  le_retry : lc_retry a' = lc_retry a; le_hold : lc_hold_limit a' = lc_hold_limit a;
  le_waiting : lc_waiting a' = lc_waiting a; le_next : is_some (lc_next a') = true; le_attempt : lc_attempt a' = None;
  le_failures : is_u32 (lc_failures a) -> is_u32 (lc_failures a')
}.
Lemma lc_ended_follows f a a' : lc_ended a a' -> is_some (fr_bbmd f) = true -> lc_follows f a -> lc_follows f a'.
Proof. intros [] Hf []. split; try congruence; [by rewrite Hf, le_next0, le_attempt0|by auto]. Qed.
Lemma resolve_first_ended a a1 release : lc_ended a a1 -> lc_ended a (resolve_first a1 release).1 /\
  (held_ok a1 -> held_ok (resolve_first a1 release).1).
Proof.
  intros []. unfold resolve_first. destruct (lc_first_resolved a1) eqn:E; [by split; [split|]|].
  split; [by split|]. unfold held_ok. cbn. done.
Qed.
Lemma failed_ended a now o : lc_ended a (failed a now o).1 /\ (held_ok a -> held_ok (failed a now o).1).
Proof.
  unfold failed. cbv zeta. edestruct (resolve_first_ended a) as [H1 H2]; [|split; [exact H1|intros Hh; apply H2]].
  - destruct (is_some o); split; try done; cbn; width.
  - by destruct (is_some o).
Qed.
Lemma refused_ended a now : lc_ended a (refused a now).1 /\ (held_ok a -> held_ok (refused a now).1).
Proof.
  unfold refused. cbv zeta. edestruct (resolve_first_ended a) as [H1 H2]; [|split; [exact H1|intros Hh; apply H2]]; [|done].
  split; try done; cbn; width.
Qed.
Lemma accepted_ended a now : lc_ended a (accepted a now).1 /\ (held_ok a -> held_ok (accepted a now).1).
Proof.
  unfold accepted. cbv zeta. destruct (resolve_first _ true) as [a' v] eqn:E. cbn [fst].
  match type of E with resolve_first ?x _ = _ => destruct (resolve_first_ended a x true) as [H1 H2] end.
  - split; try done; cbn; width.
  - rewrite E in *. cbn [fst] in *. split; [done|]. intros Hh. by apply H2.
Qed.

(** ** Every move keeps the invariant *)

Lemma view_remove (v : list (option Entry)) i j (e : Entry) : <[i := None]> v !! j = Some (Some e) -> j <> i /\ v !! j = Some (Some e).
Proof. intros H. apply list_lookup_insert_Some in H as [(_ & ? & _)|[? ?]]; [done|]. by split; [congruence|]. Qed.
Lemma view_add (v : list (option Entry)) i j (e e' : Entry) : <[i := Some e]> v !! j = Some (Some e') ->
  (j = i /\ e' = e) \/ (j <> i /\ v !! j = Some (Some e')).
Proof.
  intros H. apply list_lookup_insert_Some in H as [(-> & E & _)|[? ?]]; [left; by simplify_eq|right].
  by split; [congruence|].
Qed.
Lemma clash_sym o o' : clash o o' -> clash o' o.
Proof. unfold clash. intros [->|H]; [by left|right]. by rewrite andb_comm. Qed.
Lemma unambiguous_remove v i : unambiguous v -> unambiguous (<[i := None]> v).
Proof. intros Hu j k p o o' w w' [_ Hj]%view_remove [_ Hk]%view_remove. by eapply Hu. Qed.
Lemma unambiguous_add v i p o w : unambiguous v -> no_clash v p o -> unambiguous (<[i := Some (p, o, w)]> v).
Proof.
  intros Hu Hn j k q o1 o2 w1 w2 Hj Hk Hne.
  apply view_add in Hj as [[-> Ej]|[Hji Hj]]; apply view_add in Hk as [[-> Ek]|[Hki Hk]]; simplify_eq.
  - by eapply Hn.
  - intros Hc%clash_sym. by eapply Hn.
  - by eapply Hu.
Qed.

(** A move of the registration alone that keeps its settings. *)
Lemma inv_same c a a' : core_inv c -> co_lc c = Some a -> lc_same a a' -> (held_ok a -> held_ok a') ->
  core_inv (c <| co_lc := Some a' |>).
Proof.
  intros [Hl Hty Hu Hr Hg] Ha Hs Hh. split; cbn [co_link co_view co_lc co_now co_dangling]; try done.
  - cbn. intros i p o Hi. split; [by eapply Hr|done].
  - cbn. destruct (lk_mode (co_link c)); [by destruct Hg as [? _]; congruence| |by destruct Hg as [? _]; congruence].
    destruct Hg as (b & Hb & Hk & Hf & Hreg & Hex). rewrite Ha in Hb. injection Hb as <-.
    exists a'. split; [done|]. split; [by auto|]. split; [intros; eapply lc_same_follows; [done|by apply Hf]|].
    by rewrite (ls_attempt _ _ Hs).
Qed.
(** An exchange that is not the registration's ends. *)
Lemma inv_remove c i p o w : core_inv c -> co_view c !! i = Some (Some (p, o, w)) -> w <> OwnRegistration ->
  core_inv (c <| co_view ::= <[i := None]> |>).
Proof.
  intros [Hl Hty Hu Hr Hg] Hi Hw. split; cbn; try done.
  - by apply unambiguous_remove.
  - intros j q o' [_ Hj]%view_remove. by eapply Hr.
  - destruct (lk_mode (co_link c)) as [|f|].
    + destruct Hg as [? Hn]. split; [done|]. intros j q o' [_ Hj]%view_remove. by eapply Hn.
    + destruct Hg as (a & Ha & Hk & Hf & Hreg & Hex). exists a. split_and!; try done.
      * intros j q o' [_ Hj]%view_remove. by eapply Hreg.
      * intros Hs Hd. destruct (Hex Hs Hd) as (j & q & Hj). exists j, q.
        rewrite list_lookup_insert_ne; [done|]. intros ->. congruence.
    + destruct Hg as [? Hn]. split; [done|]. intros j q o' [_ Hj]%view_remove. by eapply Hn.
Qed.
(** The registration's exchange ends, and the registration with it. *)
Lemma inv_registration_end c i p a a' : core_inv c -> co_view c !! i = Some (Some (p, RegisterFD, OwnRegistration)) ->
  co_lc c = Some a -> lc_ended a a' -> (held_ok a -> held_ok a') ->
  core_inv (c <| co_view ::= <[i := None]> |> <| co_lc := Some a' |>).
Proof.
  intros [Hl Hty Hu Hr Hg] Hi Ha He Hh. split; cbn; try done.
  - by apply unambiguous_remove.
  - intros j q o' [_ Hj]%view_remove. split; [by eapply Hr|done].
  - destruct (lk_mode (co_link c)) as [|f|]; [by destruct Hg; congruence| |by destruct Hg; congruence].
    destruct Hg as (b & Hb & Hk & Hf & Hreg & Hex). rewrite Ha in Hb. injection Hb as <-. exists a'.
    destruct (Hreg _ _ _ Hi) as (Ep & _ & _ & Hd). split; [done|]. split; [by auto|]. split.
    + intros _. eapply lc_ended_follows; [done|by rewrite <-Ep|by apply Hf].
    + split; [|by rewrite (le_attempt _ _ He)].
      intros j q o' [Hne Hj]%view_remove. exfalso. destruct (Hreg _ _ _ Hj) as (Eq & -> & _).
      rewrite <-Eq in Ep. injection Ep as ->. eapply (Hu i j); [exact Hi|exact Hj|congruence|by left].
Qed.
Lemma inv_admit c i p o w : core_inv c -> no_clash (co_view c) p o ->
  co_view c !! i = Some None ->
  w = OwnManual \/ w = OwnRelease /\ o = DeleteFdtEntry /\ is_some (co_lc c) = true ->
  core_inv (c <| co_view ::= <[i := Some (p, o, w)]> |>).
Proof.
  intros [Hl Hty Hu Hr Hg] Hn Hi Hw. split; cbn; try done.
  - by apply unambiguous_add.
  - intros j q o' [[-> E]|[_ Hj]]%view_add; [simplify_eq; naive_solver|by eapply Hr].
  - assert (Hadd : forall j q o', <[i := Some (p, o, w)]> (co_view c) !! j = Some (Some (q, o', OwnRegistration)) ->
      co_view c !! j = Some (Some (q, o', OwnRegistration))).
    { intros j q o' [[-> E]|[_ Hj]]%view_add; [|done]. simplify_eq. naive_solver. }
    destruct (lk_mode (co_link c)) as [|f|].
    + destruct Hg as [? Hn']. split; [done|]. intros j q o' Hj%Hadd. by eapply Hn'.
    + destruct Hg as (a & Ha & Hk & Hf & Hreg & Hex). exists a. split_and!; try done.
      * intros j q o' Hj%Hadd. by eapply Hreg.
      * intros Hs Hd. destruct (Hex Hs Hd) as (j & q & Hj). exists j, q.
        rewrite list_lookup_insert_ne; [done|]. intros ->. discriminate (eq_trans (eq_sym Hi) Hj).
    + destruct Hg as [? Hn']. split; [done|]. intros j q o' Hj%Hadd. by eapply Hn'.
Qed.
Lemma inv_start c i f b a : core_inv c -> lk_mode (co_link c) = ModeForeign f -> fr_bbmd f = Some b -> co_lc c = Some a ->
  lc_attempt a = None -> co_view c !! i = Some None -> no_clash (co_view c) b RegisterFD -> co_dangling c = false ->
  core_inv (c <| co_view ::= <[i := Some (b, RegisterFD, OwnRegistration)]> |> <| co_lc := Some (admitted a (co_now c)) |>).
Proof.
  intros [Hl Hty Hu Hr Hg] Hm Hb Ha Hat Hi Hn Hd. split; cbn; try done.
  - by apply unambiguous_add.
  - intros j q o' [[-> E]|[_ Hj]]%view_add; [by simplify_eq|]. split; [by eapply Hr|done].
  - rewrite Hm in Hg |- *. destruct Hg as (a0 & Ha0 & Hk & Hf & Hreg & Hex). rewrite Ha in Ha0. injection Ha0 as <-.
    exists (admitted a (co_now c)). split; [done|]. split; [done|]. split.
    + intros _. destruct (Hf Hd). split; cbn; try done; by rewrite Hb.
    + split; [|intros _ _; exists i, b; apply list_lookup_insert_eq; by eapply lookup_lt_Some].
      intros j q o' [[-> E]|[_ Hj]]%view_add; [by simplify_eq|].
      destruct (Hreg _ _ _ Hj) as (_ & _ & Hs & _). by rewrite Hat in Hs.
Qed.
Lemma inv_busy c f b a : core_inv c -> lk_mode (co_link c) = ModeForeign f -> fr_bbmd f = Some b -> co_lc c = Some a ->
  lc_attempt a = None -> core_inv (c <| co_lc := Some (failed a (co_now c) None).1 |>).
Proof.
  intros [Hl Hty Hu Hr Hg] Hm Hb Ha Hat. destruct (failed_ended a (co_now c) None) as [He Hh]. split; cbn; try done.
  - intros j q o' Hj. split; [by eapply Hr|done].
  - rewrite Hm in Hg |- *. destruct Hg as (a0 & Ha0 & Hk & Hf & Hreg & Hex). rewrite Ha in Ha0. injection Ha0 as <-.
    eexists. split; [done|]. split; [by auto|]. split.
    + intros Hd. eapply lc_ended_follows; [done|by rewrite Hb|by apply Hf].
    + split; [|by rewrite (le_attempt _ _ He)].
      intros j q o' Hj. destruct (Hreg _ _ _ Hj) as (_ & _ & Hs & _). by rewrite Hat in Hs.
Qed.
Lemma inv_cancel c i p o : core_inv c -> co_view c !! i = Some (Some (p, o, OwnRegistration)) ->
  core_inv (c <| co_view ::= <[i := None]> |> <| co_dangling := true |>).
Proof.
  intros [Hl Hty Hu Hr Hg] Hi. split; cbn; try done.
  - by apply unambiguous_remove.
  - intros j q o' [_ Hj]%view_remove. by eapply Hr.
  - destruct (lk_mode (co_link c)) as [|f|]; [by destruct Hg as [_ Hn]; destruct (Hn _ _ _ Hi)| |
      by destruct Hg as [_ Hn]; destruct (Hn _ _ _ Hi)].
    destruct Hg as (a & Ha & Hk & Hf & Hreg & Hex). exists a. split_and!; try done.
    intros j q o' [Hne Hj]%view_remove. exfalso.
    destruct (Hreg _ _ _ Hj) as (Eq & -> & _), (Hreg _ _ _ Hi) as (Ep & -> & _).
    rewrite <-Eq in Ep. injection Ep as ->. eapply (Hu i j); [exact Hi|exact Hj|congruence|by left].
Qed.
Lemma inv_retarget c old f a : core_inv c -> lk_mode (co_link c) = ModeForeign old -> co_lc c = Some a ->
  no_registration (co_view c) -> link_validate ((co_link c) <| lk_mode := ModeForeign f |>) = Ok tt -> foreign_typed f ->
  core_inv (c <| co_link ::= (fun l => l <| lk_mode := ModeForeign f |>) |>
    <| co_lc := Some (lifecycle_retarget a f (co_now c) (bool_decide (fr_bbmd old = fr_bbmd f))) |>
    <| co_dangling := false |>).
Proof.
  intros [Hl Hty Hu Hr Hg] Hm Ha Hn Hv Hft. split; cbn; try done.
  - intros i p o Hi. split; [by eapply Hr|done].
  - rewrite Hm in Hg. destruct Hg as (a0 & Ha0 & Hk & _). rewrite Ha in Ha0. injection Ha0 as <-.
    eexists. split; [done|]. split_and!.
    + unfold lifecycle_retarget, held_ok in *. cbv zeta. case_match; cbn; [done|]. split; [apply Hk|done].
    + intros _. unfold lifecycle_retarget, due_with. cbv zeta. case_match; split; try done; cbn; by destruct (fr_bbmd f).
    + intros i p o Hi. by destruct (Hn _ _ _ Hi).
    + unfold lifecycle_retarget. cbv zeta. by case_match.
Qed.
Lemma core_step_inv c c' : core_step c c' -> core_inv c -> core_inv c'.
Proof.
  intros Hs Hi. destruct Hs as [c now|c i p o Hv|c i p a a' Hv Ha He|c i p a a' Hv Ha He|c a Ha|c a Ha|c a Ha|c a Ha|
    c i p o w Hv Hn Hw|c i f b a Hm Hb Ha Hat Hv Hn Hd|c f b a Hm Hb Ha Hat|c i p o Hv|c old f a Hm Ha Hn Hl Hft|c s Hl].
  - destruct Hi. split; done.
  - by eapply inv_remove.
  - assert (Hx : lc_same a a' /\ (held_ok a -> held_ok a')).
    { destruct He as [->|[->|[t ->]]]; [split; [apply lc_same_refl|done]|apply due_now_same|apply not_before_same]. }
    eapply (inv_same (c <| co_view ::= <[i := None]> |>)); [by eapply inv_remove|done|apply Hx..].
  - assert (Hx : lc_ended a a' /\ (held_ok a -> held_ok a')).
    { destruct He as [[o ->]|[->| ->]]; [apply failed_ended|apply accepted_ended|apply refused_ended]. }
    by eapply inv_registration_end; [..|apply Hx|apply Hx].
  - by eapply inv_same; [..|apply lapse_same|apply lapse_same].
  - by eapply inv_same; [..|apply hint_same|apply hint_same].
  - by eapply inv_same; [..|apply broadcast_same|apply broadcast_same].
  - by eapply inv_same; [..|apply sent_same|apply sent_same].
  - by apply inv_admit.
  - by eapply inv_start.
  - by eapply inv_busy.
  - by eapply inv_cancel.
  - by eapply inv_retarget.
  - destruct Hi as [_ Hty Hu Hr Hg]. split; done.
Qed.
Lemma core_steps_inv c c' : core_steps c c' -> core_inv c -> core_inv c'.
Proof. induction 1 as [|c c1 c' H _ IH]; [done|]. intros Hi. apply IH. by eapply core_step_inv. Qed.

(** ** The registration of a node is a run of its state machine *)

Definition lc_running (c : Core) : Prop :=
  forall a, co_lc c = Some a -> exists h clock, lc_run a h clock /\ clock <= co_now c.
Lemma lc_running_step c c2 a op a' : lc_running c -> co_lc c = Some a -> co_now c2 = co_now c -> co_lc c2 = Some a' ->
  a' = lc_step a op (co_now c) -> lc_running c2.
Proof.
  intros Hr Ha Hn Hc2 -> b Hb. rewrite Hc2 in Hb. injection Hb as <-.
  destruct (Hr a Ha) as (h & clock & Hrun & Hle). exists (history_step a h op), (co_now c).
  split; [by eapply lc_next_step|lia].
Qed.
Lemma core_step_running c c' : core_step c c' -> lc_running c -> lc_running c'.
Proof.
  intros Hs Hr.
  destruct Hs as [c now Hle|c i p o Hv|c i p a a' Hv Ha He|c i p a a' Hv Ha He|c a Ha|c a Ha|c a Ha|c a Ha|
    c i p o w Hv Hn Hw|c i f b a Hm Hb Ha Hat Hv Hn Hd|c f b a Hm Hb Ha Hat|c i p o Hv|c old f a Hm Ha Hn Hl Hft|c s Hl].
  - intros a Ha. destruct (Hr a Ha) as (h & clock & Hrun & Hc). exists h, clock. cbn. split; [done|lia].
  - exact Hr.
  - destruct He as [He|[He|[t He]]].
    + intros a0 Ha0. cbn in Ha0. injection Ha0 as <-. subst a'. by apply Hr.
    + eapply (lc_running_step c _ a LDueNow a'); [exact Hr|exact Ha|reflexivity|reflexivity|exact He].
    + eapply (lc_running_step c _ a (LNotBefore t) a'); [exact Hr|exact Ha|reflexivity|reflexivity|exact He].
  - destruct He as [[o He]|[He|He]].
    + eapply (lc_running_step c _ a (LFailed (Some o)) a'); [exact Hr|exact Ha|reflexivity|reflexivity|exact He].
    + eapply (lc_running_step c _ a LAccepted a'); [exact Hr|exact Ha|reflexivity|reflexivity|exact He].
    + eapply (lc_running_step c _ a LRefused a'); [exact Hr|exact Ha|reflexivity|reflexivity|exact He].
  - eapply (lc_running_step c _ a LLapse); [exact Hr|exact Ha|reflexivity..].
  - eapply (lc_running_step c _ a LHint); [exact Hr|exact Ha|reflexivity..].
  - eapply (lc_running_step c _ a LAdmitBroadcast); [exact Hr|exact Ha|reflexivity..].
  - eapply (lc_running_step c _ a LSent); [exact Hr|exact Ha|reflexivity..].
  - exact Hr.
  - eapply (lc_running_step c _ a LAdmitted); [exact Hr|exact Ha|reflexivity..].
  - eapply (lc_running_step c _ a (LFailed None)); [exact Hr|exact Ha|reflexivity..].
  - exact Hr.
  - eapply (lc_running_step c _ a (LRetarget f _)); [exact Hr|exact Ha|reflexivity..].
  - exact Hr.
Qed.
Lemma core_steps_running c c' : core_steps c c' -> lc_running c -> lc_running c'.
Proof. induction 1 as [|c c1 c' H _ IH]; [done|]. intros Hi. apply IH. by eapply core_step_running. Qed.
