(* ===== verification/NodeSim.v ===== *)
(** * The node's calls are moves of the machine

    Each function of the engine, on a node whose state satisfies the invariant, is a sequence of [core_step]s; what it does
    to counters and queued actions is not seen by the machine. *)

From stdpp Require Import relations.
From S2P Require Import Prelude Time Bvll Fdt Bdt Bbmd NodeLink Lifecycle Exchange Node NodeCore.
Open Scope Z_scope.

(** ** Slots *)

Lemma position_some {A} (p : A -> bool) l i : position p l = Some i -> exists x, l !! i = Some x /\ p x = true.
Proof.
  revert i. induction l as [|x l IH]; intros i; cbn; [done|]. destruct (p x) eqn:E.
  - intros [= <-]. by exists x.
  - destruct (position p l) as [j|]; [|done]. cbn. intros [= <-]. destruct (IH j eq_refl) as (y & Hy & Hp). by exists y.
Qed.
Lemma position_none {A} (p : A -> bool) l : position p l = None -> forall i x, l !! i = Some x -> p x = false.
Proof.
  induction l as [|y l IH]; cbn; [done|]. destruct (p y) eqn:E; [done|]. destruct (position p l) as [j|]; [done|].
  intros _ [|i] x Hx; cbn in Hx; [by simplify_eq|]. by eapply IH.
Qed.
Lemma slot_at_lookup x i s : xs_slots x !! i = Some s -> slot_at x i = s.
Proof. intros H. unfold slot_at. rewrite nth_lookup, H. done. Qed.
Lemma view_lookup x i s : xs_slots x !! i = Some s -> view x !! i = Some (entry_of s).
Proof. intros H. unfold view. by rewrite list_lookup_fmap, H. Qed.
Lemma view_entry x i p o w : view x !! i = Some (Some (p, o, w)) ->
  exists s, xs_slots x !! i = Some s /\ is_live s = true /\ sl_peer s = p /\ sl_operation s = o /\ sl_owner s = w.
Proof.
  unfold view. rewrite list_lookup_fmap. destruct (xs_slots x !! i) as [s|]; [|done]. cbn. intros [= E].
  exists s. unfold entry_of in E. destruct (is_live s); by simplify_eq.
Qed.
Lemma view_set x i s : view (set_slot x i s) = <[i := entry_of s]> (view x).
Proof. unfold view, set_slot. cbn. by rewrite list_fmap_insert. Qed.
Lemma view_set_same x i s s' : xs_slots x !! i = Some s -> entry_of s' = entry_of s -> view (set_slot x i s') = view x.
Proof. intros Hs E. rewrite view_set, E. apply list_insert_id. by apply view_lookup. Qed.
Lemma view_retire x i now : view (exchanges_retire x i now).1 = <[i := None]> (view x).
Proof. unfold exchanges_retire. cbn [fst]. by rewrite view_set. Qed.

Lemma admit_conflict_none slots p o : admit_conflict slots p o = None -> no_clash (entry_of <$> slots) p o.
Proof.
  induction slots as [|s slots IH]; [by intros _ [|i] o' w Hi|]. cbn [admit_conflict].
  intros H [|i] o' w Hi; cbn in Hi; [|case_match; [by eapply IH|]; case_decide; [done|]; case_match; [done|by eapply IH]].
  unfold entry_of in Hi. destruct (is_live s) eqn:El; [|done]. injection Hi as Hp Ho Hw.
  unfold live_with in H. rewrite El, bool_decide_true in H by done. cbn [andb negb] in H.
  case_decide; [done|]. destruct (_ && _) eqn:Ea; [done|]. subst o'. unfold clash. intros [->|Hc]; congruence.
Qed.
Lemma exchanges_admit_ok x p o t w ttl x' id : exchanges_admit x p o t w ttl = (x', Ok id) ->
  exists i, view x !! i = Some None /\ no_clash (view x) p o /\ view x' = <[i := Some (p, o, w)]> (view x) /\
    xs_slots x' = <[i := slot_at x' i]> (xs_slots x) /\ sl_early (slot_at x' i) = None /\ sl_phase (slot_at x' i) = PhAdmitted.
Proof.
  unfold exchanges_admit. destruct (admit_conflict _ _ _) eqn:Ec; [done|].
  destruct (position _ _) as [i|] eqn:Ep; [|done]. intros [= <- <-].
  destruct (position_some _ _ _ Ep) as (s & Hs & Hl). apply negb_true_iff in Hl. exists i. split_and!.
  - rewrite (view_lookup _ _ _ Hs). unfold entry_of. by rewrite Hl.
  - by apply admit_conflict_none.
  - by rewrite view_set.
  - unfold set_slot, slot_at. cbn. rewrite nth_lookup, list_lookup_insert_eq by (by eapply lookup_lt_Some). done.
  - unfold set_slot, slot_at. cbn. rewrite nth_lookup, list_lookup_insert_eq by (by eapply lookup_lt_Some). done.
  - unfold set_slot, slot_at. cbn. rewrite nth_lookup, list_lookup_insert_eq by (by eapply lookup_lt_Some). done.
Qed.
Lemma exchanges_admit_err x p o t w ttl x' e : exchanges_admit x p o t w ttl = (x', Err e) -> x' = x.
Proof. unfold exchanges_admit. repeat case_match; naive_solver. Qed.

(** A response that came before its request was reported sent, for an exchange a success answers, is a result. *)
Definition early_ok (x : Exchanges) : Prop :=
  forall i s e, xs_slots x !! i = Some s -> is_live s = true -> sl_early s = Some e ->
    answered_by_success (sl_operation s) = true -> ea_valid e = true /\ is_some (ea_code e) = true.
Lemma early_ok_set x i s : early_ok x -> (forall e, is_live s = true -> sl_early s = Some e ->
    answered_by_success (sl_operation s) = true -> ea_valid e = true /\ is_some (ea_code e) = true) ->
  early_ok (set_slot x i s).
Proof.
  intros Hx Hs j t e Hj. unfold set_slot in Hj. cbn in Hj. apply list_lookup_insert_Some in Hj as [(-> & <- & _)|[_ Hj]];
    [by apply Hs|by eapply Hx].
Qed.
Lemma early_ok_retire x i now : early_ok x -> early_ok (exchanges_retire x i now).1.
Proof. intros Hx. unfold exchanges_retire. cbn [fst]. by apply early_ok_set. Qed.

(** ** What the shared steps change *)

(** Only counters, actions and the newest attempt's record differ. *)
Definition same_core (n n' : Node) : Prop :=
  nd_link n' = nd_link n /\ nd_exchanges n' = nd_exchanges n /\ nd_lifecycle n' = nd_lifecycle n /\ nd_now n' = nd_now n.
Lemma same_core_at n n' d : same_core n n' -> core_at d n' = core_at d n.
Proof. intros (Hl & Hx & Hc & Ht). unfold core_at. by rewrite Hl, Hx, Hc, Ht. Qed.
Lemma record_register_same n e o r : same_core n (record_register n e o r).
Proof. unfold record_register. destruct (nd_latest_register n) as [[l a]|]; [case_decide|]; done. Qed.
Lemma held_verdict_same n v : same_core n (held_verdict n v).
Proof. unfold held_verdict. by destruct v. Qed.

(** What the end of a release does to the registration. *)
Definition release_lc (l : Link) (lc : option Lifecycle) (s : Slot) (o : AttemptOutcome) (now : Instant)
  : option Lifecycle :=
  match lk_mode l, lc with
  | ModeForeign f, Some a =>
      if negb (bool_decide (fr_bbmd f = Some (sl_peer s))) then Some a else
      match o with
      | OutAccepted | OutRefused => Some (due_now a now)
      | _ => match sl_phase s with PhSent _ => Some (not_before a (instant_add now (sl_timeout s))) | _ => Some a end
      end
  | _, _ => lc
  end.
Lemma release_ended_core n s o now d : core_at d (release_ended n s o now) =
  (core_at d n) <| co_lc := release_lc (nd_link n) (nd_lifecycle n) s o now |>.
Proof.
  unfold release_ended, release_lc, core_at. cbv zeta. cbn.
  destruct (lk_mode (nd_link n)) as [|f|]; [done| |done]. destruct (nd_lifecycle n) as [a|] eqn:E; [|by cbn; rewrite E].
  cbn. destruct (negb _); [by cbn; rewrite E|]. destruct o; try done; destruct (sl_phase s); try done; by cbn; rewrite E.
Qed.
Lemma release_lc_cases l a s o now : exists a', release_lc l (Some a) s o now = Some a' /\
  (a' = a \/ a' = due_now a now \/ exists t, a' = not_before a t).
Proof. unfold release_lc. repeat case_match; eauto 7. Qed.
Definition ended_lc (l : Link) (lc : option Lifecycle) (s : Slot) (o : AttemptOutcome) (now : Instant)
  : option Lifecycle :=
  match sl_owner s with
  | OwnManual => lc
  | OwnRelease => release_lc l lc s o now
  | OwnRegistration => option_map (fun a => (failed a now (Some o)).1) lc
  end.
Lemma ended_unanswered_core n e s o now d : core_at d (ended_unanswered n e s o now) =
  (core_at d n) <| co_lc := ended_lc (nd_link n) (nd_lifecycle n) s o now |>.
Proof.
  unfold ended_unanswered, ended_lc. cbv zeta.
  set (n1 := if decide (sl_operation s = RegisterFD) then _ else _).
  assert (H1 : same_core n n1) by (unfold n1; case_decide; [apply record_register_same|done]).
  destruct H1 as (Hl & Hx & Hc & Ht). destruct (sl_owner s).
  - unfold core_at. by rewrite Hl, Hx, Hc, Ht.
  - destruct (nd_lifecycle n1) as [a|] eqn:Ea.
    + destruct (failed a now (Some o)) as [a' v] eqn:Ef.
      rewrite (same_core_at _ _ _ (held_verdict_same _ _)). unfold core_at. cbn. rewrite Hl, Hx, Ht, <-Hc. cbn. by rewrite Ef.
    + unfold core_at. rewrite Hl, Hx, Ht, Ea, <-Hc. done.
  - rewrite release_ended_core. unfold core_at. cbn. by rewrite Hl, Hx, Hc, Ht.
Qed.

(** An exchange ends unanswered: its slot is freed and the registration told. *)
Lemma ended_step c i s o now a' : core_inv c -> co_view c !! i = Some (entry_of s) -> is_live s = true ->
  co_now c = now -> ended_lc (co_link c) (co_lc c) s o now = a' ->
  core_step c (c <| co_view ::= <[i := None]> |> <| co_lc := a' |>).
Proof.
  intros Hi Hv Hl Ht <-. unfold entry_of in Hv. rewrite Hl in Hv. destruct Hi as [_ _ _ Hr Hg]. unfold ended_lc.
  destruct (sl_owner s) eqn:Eo.
  - replace (c <| co_view ::= _ |> <| co_lc := co_lc c |>) with (c <| co_view ::= <[i := None]> |>) by by destruct c.
    by eapply step_manual_end.
  - destruct (lk_mode (co_link c)) as [|f|]; [by destruct Hg as [_ Hn]; destruct (Hn _ _ _ Hv)| |
      by destruct Hg as [_ Hn]; destruct (Hn _ _ _ Hv)].
    destruct Hg as (a & Ha & _ & _ & Hreg & _). destruct (Hreg _ _ _ Hv) as (_ & Eop & _). rewrite Eop in Hv.
    rewrite Ha. cbn [option_map]. eapply step_registration_end; [exact Hv|exact Ha|]. left. exists o. by rewrite Ht.
  - destruct (Hr _ _ _ Hv) as [Eop Hsome]. rewrite Eop in Hv. destruct (co_lc c) as [a|] eqn:Ea; [|done].
    destruct (release_lc_cases (co_link c) a s o now) as (a' & -> & Hc). rewrite <-Ht in Hc.
    eapply step_release_end; [exact Hv|exact Ea|exact Hc].
Qed.

(** ** Each function is a sequence of moves *)

Definition node_ok (n : Node) : Prop := core_inv (core_of n) /\ early_ok (nd_exchanges n).
Definition sim (n n' : Node) : Prop := core_steps (core_of n) (core_of n') /\ early_ok (nd_exchanges n').
Lemma sim_ok n n' : node_ok n -> sim n n' -> node_ok n'.
Proof. intros [Hi _] [Hs He]. split; [|done]. by eapply core_steps_inv. Qed.
Lemma sim_trans n n1 n2 : sim n n1 -> sim n1 n2 -> sim n n2.
Proof. intros [H1 _] [H2 He]. split; [|done]. by etrans. Qed.
Lemma sim_same n n' : node_ok n -> same_core n n' -> sim n n'.
Proof.
  intros [_ He] Hs. split; [|by destruct Hs as (_ & -> & _)].
  unfold core_of. by rewrite (same_core_at _ _ _ Hs).
Qed.
(** The end of an exchange, by a function that frees its slot and then tells the registration. *)
Lemma sim_end n n' i s o now : node_ok n -> xs_slots (nd_exchanges n) !! i = Some s -> is_live s = true -> nd_now n = now ->
  early_ok (nd_exchanges n') ->
  core_of n' = (core_of n) <| co_view ::= <[i := None]> |> <| co_lc := ended_lc (nd_link n) (nd_lifecycle n) s o now |> ->
  sim n n'.
Proof.
  intros [Hi _] Hs Hl Ht He E. split; [|done]. apply rtc_once. rewrite E.
  eapply ended_step; [done|cbn; by apply view_lookup|done|done|done].
Qed.
Lemma ended_unanswered_exchanges n e s o now : nd_exchanges (ended_unanswered n e s o now) = nd_exchanges n.
Proof.
  unfold ended_unanswered, release_ended, held_verdict, record_register. cbv zeta.
  repeat (case_match; cbn; try done).
Qed.
Lemma time_out_sim n i s now : node_ok n -> xs_slots (nd_exchanges n) !! i = Some s -> is_live s = true -> nd_now n = now ->
  sim n (time_out n i now).
Proof.
  intros Hok Hs Hl Ht. unfold time_out. destruct (exchanges_retire (nd_exchanges n) i now) as [x' s'] eqn:Er.
  assert (s' = s) as -> by (unfold exchanges_retire in Er; injection Er as _ <-; by apply slot_at_lookup).
  assert (Ex : x' = (exchanges_retire (nd_exchanges n) i now).1) by (by rewrite Er).
  eapply (sim_end n _ i s OutTimedOut now); try done.
  - rewrite ended_unanswered_exchanges. case_decide; cbn; rewrite Ex; apply early_ok_retire; apply Hok.
  - unfold core_of. rewrite ended_unanswered_core. case_decide; cbn; unfold core_at; cbn; by rewrite Ex, view_retire.
Qed.
Lemma node_admit_fields n p o t w ttl : let '(n', r) := node_admit n p o t w ttl in
  nd_link n' = nd_link n /\ nd_lifecycle n' = nd_lifecycle n /\ nd_now n' = nd_now n /\ nd_actions n' = nd_actions n /\
  (nd_exchanges n', r) = exchanges_admit (nd_exchanges n) p o t w ttl.
Proof.
  unfold node_admit. destruct (exchanges_admit _ _ _ _ _ _) as [x' [id|e]]; [|done]. case_decide; done.
Qed.
Lemma early_ok_admit x p o t w ttl x' id : early_ok x -> exchanges_admit x p o t w ttl = (x', Ok id) -> early_ok x'.
Proof.
  intros Hx Ha. destruct (exchanges_admit_ok _ _ _ _ _ _ _ _ Ha) as (i & _ & _ & _ & Es & He & _).
  intros j s e Hj. rewrite Es in Hj. apply list_lookup_insert_Some in Hj as [(-> & <- & _)|[_ Hj]]; [by rewrite He|by eapply Hx].
Qed.
Lemma node_admit_sim n p o t w ttl : node_ok n ->
  w = OwnManual \/ w = OwnRelease /\ o = DeleteFdtEntry /\ is_some (nd_lifecycle n) = true ->
  sim n (node_admit n p o t w ttl).1.
Proof.
  intros Hok Hw. pose proof (node_admit_fields n p o t w ttl) as Hf. destruct (node_admit n p o t w ttl) as [n' r].
  cbn [fst]. destruct Hf as (Hl & Hc & Ht & _ & Ha). destruct r as [id|e].
  - split; [|by eapply early_ok_admit; [apply Hok|]].
    destruct (exchanges_admit_ok _ _ _ _ _ _ _ _ (eq_sym Ha)) as (i & Hi & Hn & Hv & _).
    apply rtc_once. unfold core_of, core_at. rewrite Hl, Hc, Ht, Hv.
    eapply (step_admit (core_of n) i p o w); done.
  - symmetry in Ha. apply exchanges_admit_err in Ha. apply sim_same; [done|]. done.
Qed.
Lemma start_attempt_sim n now : node_ok n -> nd_now n = now -> is_some (node_due_at n) = true -> sim n (start_attempt n now).
Proof.
  intros Hok Ht Hd. assert (Hok' := Hok). destruct Hok' as [[_ _ _ _ Hg] Hearly]. cbn in Hg. unfold start_attempt.
  destruct (lk_mode (nd_link n)) as [|f|] eqn:Em; [by apply sim_same| |by apply sim_same].
  destruct Hg as (a & Ha & _ & _ & Hreg & _).
  unfold node_due_at, due_at in Hd. rewrite Ha in Hd. destruct (lc_attempt a) as [st|] eqn:Eat; [done|]. clear Hd.
  destruct (fr_bbmd f) as [b|] eqn:Eb; [|by apply sim_same]. cbv zeta.
  pose proof (node_admit_fields n b RegisterFD (effective_response_timeout f) OwnRegistration (fr_ttl f)) as Hf.
  destruct (node_admit _ _ _ _ _ _) as [n' [id|e]]; destruct Hf as (Hl & Hc & Ht' & _ & Had).
  - split; [|cbn; by eapply early_ok_admit; [apply Hok|]].
    destruct (exchanges_admit_ok _ _ _ _ _ _ _ _ (eq_sym Had)) as (i & Hi & Hn & Hv & _).
    apply rtc_once. unfold core_of, core_at. cbn. rewrite Hl, Hc, Ht', Hv.
    replace (option_map _ (nd_lifecycle n)) with (Some (admitted a (nd_now n))) by (by rewrite Ha, <-Ht).
    eapply (step_start (core_of n) i f b a); done.
  - symmetry in Had. apply exchanges_admit_err in Had. rewrite Hc, Ha.
    destruct (failed a now None) as [a' v] eqn:Ef.
    destruct (held_verdict_same (n' <| nd_lifecycle := Some a' |>) v) as (Hl2 & Hx2 & Hc2 & Ht2).
    split; [|by rewrite Hx2; cbn; rewrite Had].
    apply rtc_once. unfold core_of, core_at. rewrite Hl2, Hx2, Hc2, Ht2. cbn. rewrite Hl, Had, Ht'.
    replace (Some a') with (Some (failed a (nd_now n) None).1) by (by rewrite Ht, Ef).
    eapply (step_busy (core_of n) f b a); done.
Qed.

(** ** Deadlines *)

Lemma next_deadline_loop_spec slots : forall k first,
  (forall i d, first = Some (i, d) -> (i < k)%nat) ->
  match next_deadline_loop slots k first with
  | Some (i, d) => (first = Some (i, d) \/ exists s, slots !! (i - k)%nat = Some s /\ (k <= i)%nat /\ sl_phase s = PhSent d) /\
      (forall j s d', slots !! j = Some s -> sl_phase s = PhSent d' -> d <= d') /\
      (forall i' d', first = Some (i', d') -> d <= d')
  | None => first = None /\ forall j s d', slots !! j = Some s -> sl_phase s <> PhSent d'
  end.
Proof.
  induction slots as [|s slots IH]; intros k first Hk; cbn [next_deadline_loop].
  - destruct first as [[i d]|]; [|done]. split; [by left|]. split; [done|]. intros i' d' [= -> ->]. lia.
  - set (first' := match sl_phase s with PhSent _ => _ | _ => _ end). specialize (IH (S k) first').
    assert (Hk' : forall i d, first' = Some (i, d) -> (i < S k)%nat).
    { intros i d E. unfold first' in E. destruct (sl_phase s); [apply Hk in E; lia..|].
      destruct (match first with Some _ => _ | None => _ end); [by simplify_eq; lia|apply Hk in E; lia]. }
    specialize (IH Hk'). destruct (next_deadline_loop slots (S k) first') as [[i d]|].
    + destruct IH as (H1 & H2 & H3). split_and!.
      * destruct H1 as [H1|(t & Ht & Hle & Hp)]; [|right; exists t; replace (i - k)%nat with (S (i - S k)) by lia; auto with lia].
        unfold first' in H1. destruct (sl_phase s) eqn:Es; [by left..|].
        destruct (match first with Some _ => _ | None => _ end); [|by left]. simplify_eq. right. exists s.
        rewrite Nat.sub_diag. done.
      * intros [|j] t d' Hj Hp; cbn in Hj; [|by eapply H2]. simplify_eq. unfold first' in H3. rewrite Hp in H3.
        destruct first as [[i0 d0]|]; [|by eapply H3]. destruct (Z.ltb_spec d' d0); [by eapply H3|].
        etrans; [by eapply H3|lia].
      * intros i' d' ->. unfold first' in H3. destruct (sl_phase s) as [| |d1]; [by eapply H3..|].
        destruct (Z.ltb_spec d1 d'); [etrans; [by eapply H3|lia]|by eapply H3].
    + destruct IH as [E H2]. unfold first' in E. destruct (sl_phase s) eqn:Es; cycle 2.
      { destruct first as [[]|]; [destruct (_ <? _)|]; done. }
      all: split; [done|]; intros [|j] t d' Hj; cbn in Hj; [simplify_eq; by rewrite Es|by eapply H2].
Qed.
Lemma exchanges_next_deadline_spec x :
  match exchanges_next_deadline x with
  | Some (i, d) => (exists s, xs_slots x !! i = Some s /\ sl_phase s = PhSent d) /\
      (forall j s d', xs_slots x !! j = Some s -> sl_phase s = PhSent d' -> d <= d')
  | None => forall j s d', xs_slots x !! j = Some s -> sl_phase s <> PhSent d'
  end.
Proof.
  unfold exchanges_next_deadline. pose proof (next_deadline_loop_spec (xs_slots x) 0 None) as H.
  destruct (next_deadline_loop _ _ _) as [[i d]|]; [|by apply H]. destruct H as ([H|(s & Hs & _ & Hp)] & H2 & _); [done..|].
  rewrite Nat.sub_0_r in Hs. split; [by exists s|done].
Qed.
Lemma time_out_now n i now : nd_now (time_out n i now) = nd_now n /\ nd_link (time_out n i now) = nd_link n.
Proof.
  unfold time_out. destruct (exchanges_retire _ _ _) as [x' s].
  match goal with |- context [ended_unanswered ?m ?e ?s ?o ?t] => pose proof (ended_unanswered_core m e s o t false) as E end.
  pose proof (f_equal co_now E) as E1. pose proof (f_equal co_link E) as E2. cbn in E1, E2. rewrite E1, E2. by case_decide.
Qed.
Lemma start_attempt_now n now : nd_now (start_attempt n now) = nd_now n /\ nd_link (start_attempt n now) = nd_link n.
Proof.
  unfold start_attempt. destruct (lk_mode _) as [|f|]; [done| |done]. destruct (fr_bbmd f) as [b|]; [|done]. cbv zeta.
  pose proof (node_admit_fields n b RegisterFD (effective_response_timeout f) OwnRegistration (fr_ttl f)) as Hf.
  destruct (node_admit _ _ _ _ _ _) as [n' [id|e]]; destruct Hf as (Hl & _ & Ht & _); [done|].
  destruct (nd_lifecycle n') as [a|]; [|done]. destruct (failed a now None) as [a' v].
  destruct (held_verdict_same (n' <| nd_lifecycle := Some a' |>) v) as (Hl2 & _ & _ & Ht2). by rewrite Ht2, Hl2.
Qed.
Lemma earliest_three a b c : match earliest [a; b; c] with
  | Some m => (a = Some m \/ b = Some m \/ c = Some m) /\ (forall x, a = Some x \/ b = Some x \/ c = Some x -> m <= x)
  | None => a = None /\ b = None /\ c = None
  end.
Proof.
  pose proof (earliest_spec [a; b; c]) as H. destruct (earliest [a; b; c]) as [m|].
  - destruct H as [Hin Hle]. rewrite !elem_of_cons in Hin. split; [set_solver|].
    intros x Hx. apply Hle. rewrite !elem_of_cons. naive_solver.
  - rewrite !Forall_cons in H. naive_solver.
Qed.
Lemma catch_up_round_sim n now sd n' : node_ok n -> nd_now n = now -> catch_up_round n now sd = Some n' ->
  sim n n' /\ nd_now n' = now /\ nd_link n' = nd_link n.
Proof.
  intros Hok Ht. unfold catch_up_round. cbv zeta.
  pose proof (exchanges_next_deadline_spec (nd_exchanges n)) as Hd.
  set (timeout := exchanges_next_deadline (nd_exchanges n)) in *.
  pose proof (earliest_three (snd <$> timeout) (node_lapse_at n) (if sd then node_due_at n else None)) as He.
  destruct (earliest _) as [at_|] eqn:Ee; [|done]. destruct (negb _); [done|]. intros [= <-].
  destruct He as [He _].
  destruct (match timeout with Some _ => _ | None => _ end) as [i|] eqn:Em.
  - destruct timeout as [[i' d]|]; [|done]. destruct Hd as [(s & Hs & Hp) _].
    case_bool_decide; [|done]. injection Em as ->. destruct (time_out_now n i now) as [-> ->]. split; [|done].
    eapply time_out_sim; try done. unfold is_live. by rewrite Hp.
  - case_bool_decide as Hl.
    + split; [|done]. split; [|apply Hok]. apply rtc_once. unfold node_lapse_at in Hl.
      destruct (nd_lifecycle n) as [a|] eqn:Ea; [|done]. unfold core_of, core_at. cbn.
      rewrite Ea. cbn [option_map]. 
      pose proof (step_lapse (core_of n) a Ea) as Hst. unfold core_of, core_at in Hst. cbn in Hst. rewrite Ea in Hst. exact Hst.
    + destruct (start_attempt_now n now) as [-> ->]. split; [|done]. apply start_attempt_sim; try done.
      destruct He as [He|[He|He]]; [|congruence|].
      * destruct timeout as [[i d]|]; [|done]. cbn in He. injection He as ->. case_bool_decide; done.
      * destruct sd; [by rewrite He|done].
Qed.
Lemma catch_up_loop_sim fuel : forall n now sd, node_ok n -> nd_now n = now ->
  sim n (catch_up_loop fuel n now sd) /\ nd_now (catch_up_loop fuel n now sd) = now /\
  nd_link (catch_up_loop fuel n now sd) = nd_link n.
Proof.
  induction fuel as [|fuel IH]; intros n now sd Hok Ht; cbn [catch_up_loop]; [split; [by apply sim_same|done]|].
  destruct (catch_up_round n now sd) as [n'|] eqn:E; [|split; [by apply sim_same|done]].
  destruct (catch_up_round_sim _ _ _ _ Hok Ht E) as (Hs & Ht' & Hl'). destruct (IH n' now sd) as (Hs2 & Ht2 & Hl2); [by eapply sim_ok|done|].
  split; [by eapply sim_trans|]. split; [done|congruence].
Qed.
Lemma instant_max_spec a b : instant_max a b = Z.max a b.
Proof. unfold instant_max. case_match; lia. Qed.
Lemma catch_up_sim n now sd : node_ok n -> let '(n', now') := catch_up n now sd in
  sim n n' /\ nd_now n' = now' /\ now' = Z.max now (nd_now n) /\ nd_link n' = nd_link n.
Proof.
  intros Hok. unfold catch_up. cbv zeta. set (now' := instant_max now (nd_now n)).
  assert (E : now' = Z.max now (nd_now n)) by apply instant_max_spec.
  assert (Htick : sim n (n <| nd_now := now' |>)).
  { split; [|apply Hok]. apply rtc_once. apply (step_tick (core_of n) now'). cbn. lia. }
  destruct (catch_up_loop_sim (catch_up_fuel (n <| nd_now := now' |>)) (n <| nd_now := now' |>) now' sd) as (Hs & Ht & Hl);
    [by eapply sim_ok|done|].
  split; [by eapply sim_trans|done].
Qed.
Lemma advance_sim n now : node_ok n -> sim n (advance n now).1.
Proof. intros Hok. pose proof (catch_up_sim n now true Hok) as H. unfold advance. by destruct (catch_up n now true) as [n' t]; destruct H. Qed.

(** ** Answers *)

Lemma owner_cases n i s : node_ok n -> xs_slots (nd_exchanges n) !! i = Some s -> is_live s = true ->
  match sl_owner s with
  | OwnManual => True
  | OwnRegistration => sl_operation s = RegisterFD /\ is_some (nd_lifecycle n) = true
  | OwnRelease => sl_operation s = DeleteFdtEntry /\ is_some (nd_lifecycle n) = true
  end.
Proof.
  intros [[_ _ _ Hr Hg] _] Hs Hl. pose proof (view_lookup _ _ _ Hs) as Hv. unfold entry_of in Hv. rewrite Hl in Hv.
  cbn in Hr, Hg. destruct (sl_owner s); [done| |by eapply Hr].
  destruct (lk_mode _); [by destruct Hg as [_ Hn]; destruct (Hn _ _ _ Hv)| |by destruct Hg as [_ Hn]; destruct (Hn _ _ _ Hv)].
  destruct Hg as (a & Ha & _ & _ & Hreg & _). destruct (Hreg _ _ _ Hv) as (_ & Eo & _). by rewrite Ha.
Qed.
Lemma settle_registration_core n acc code now a : nd_lifecycle n = Some a ->
  core_of (settle_registration n acc code now) =
    (core_of n) <| co_lc := Some (if acc then (accepted a now).1 else (refused a now).1) |> /\
  nd_exchanges (settle_registration n acc code now) = nd_exchanges n.
Proof.
  intros Ha. unfold settle_registration. rewrite Ha.
  destruct acc; [destruct (accepted a now) as [a' [ev v]]|destruct (refused a now) as [a' v]];
    match goal with |- core_of (held_verdict ?m ?v) = _ /\ _ => destruct (held_verdict_same m v) as (Hl & Hx & Hc & Ht) end;
    unfold core_of, core_at; rewrite Hl, Hx, Hc, Ht; try destruct ev; done.
Qed.
Lemma settle_sim n i s code valid now : node_ok n -> xs_slots (nd_exchanges n) !! i = Some s -> is_live s = true ->
  nd_now n = now -> (answered_by_success (sl_operation s) = true -> valid = true /\ is_some code = true) ->
  sim n (settle n i code valid now).
Proof.
  intros Hok Hs Hl Ht Hv. unfold settle. destruct (exchanges_retire (nd_exchanges n) i now) as [x' s'] eqn:Er.
  assert (s' = s) as -> by (unfold exchanges_retire in Er; injection Er as _ <-; by apply slot_at_lookup).
  assert (Ex : x' = (exchanges_retire (nd_exchanges n) i now).1) by (by rewrite Er).
  assert (Hearly : early_ok x') by (rewrite Ex; apply early_ok_retire; apply Hok).
  assert (Hview : view x' = <[i := None]> (view (nd_exchanges n))) by (by rewrite Ex, view_retire).
  pose proof (owner_cases n i s Hok Hs Hl) as Ho. pose proof (view_lookup _ _ _ Hs) as Hen. unfold entry_of in Hen.
  rewrite Hl in Hen.
  assert (Hman : sl_owner s = OwnManual -> forall n', nd_link n' = nd_link n -> nd_lifecycle n' = nd_lifecycle n ->
    nd_now n' = nd_now n -> nd_exchanges n' = x' -> sim n n').
  { intros Eo n' El Ec En Exx. split; [|by rewrite Exx]. apply rtc_once. unfold core_of, core_at.
    rewrite El, Ec, En, Exx, Hview. rewrite Eo in Hen. eapply (step_manual_end (core_of n)). exact Hen. }
  assert (Hother : sl_owner s <> OwnManual -> valid = true /\ is_some code = true).
  { intros Hne. apply Hv. destruct (sl_owner s); [done| |]; destruct Ho as [-> _]; done. }
  destruct valid; cbn [negb]; cycle 1.
  { apply Hman; try done. destruct (decide (sl_owner s = OwnManual)); [done|]. by destruct Hother. }
  cbv zeta. destruct code as [code|]; cycle 1.
  { apply Hman; try done. destruct (decide (sl_owner s = OwnManual)); [done|]. by destruct Hother. }
  case_decide as Erel.
  { rewrite Erel in Ho, Hen. destruct Ho as [Eop Hsome]. rewrite Eop in Hen. destruct (nd_lifecycle n) as [a|] eqn:Ea; [|done].
    match goal with |- sim n (release_ended ?m ?s ?o ?t) => pose proof (release_ended_core m s o t false) as Ec end.
    destruct (release_lc_cases (nd_link n) a s (if code =? SUCCESSFUL_COMPLETION then OutAccepted else OutRefused) now)
      as (a' & Ea' & Hc). split.
    - apply rtc_once. unfold core_of. rewrite Ec. cbn. rewrite Ea, Ea'. unfold core_at at 2. cbn. rewrite Hview.
      eapply (step_release_end (core_of n)); [exact Hen|exact Ea|by cbn; rewrite Ht].
    - unfold release_ended. cbv zeta. repeat (case_match; cbn; try done). }
  case_bool_decide as Eop; cbn [negb]; cycle 1.
  { apply Hman; try done. destruct (sl_owner s); [done|by destruct Ho|done]. }
  set (n1 := record_register _ _ _ _).
  destruct (record_register_same (n <| nd_exchanges := x' |> <| nd_counters ::= (fun k => exchange_mut k (sl_operation s) (fun x =>
    x <| ec_results ::= bump |> <| ec_last_result := Some code |>)) |> <| nd_counters ::= (fun k =>
    if code =? SUCCESSFUL_COMPLETION then k <| nc_registrations_accepted ::= bump |>
    else k <| nc_registrations_refused ::= bump |>) |>) (exchanges_id (nd_exchanges n) i)
    (if code =? SUCCESSFUL_COMPLETION then OutAccepted else OutRefused) (Some code)) as (H1 & H2 & H3 & H4).
  change (record_register _ _ _ _) with n1 in H1, H2, H3, H4. cbn in H1, H2, H3, H4.
  case_bool_decide as Ereg; cbn [negb]; cycle 1.
  { apply Hman; try done. destruct (sl_owner s); done. }
  rewrite Ereg in Ho, Hen. rewrite Eop in Hen. destruct Ho as [_ Hsome].
  destruct (nd_lifecycle n) as [a|] eqn:Ea; [|done].
  destruct (settle_registration_core n1 (code =? SUCCESSFUL_COMPLETION) code now a H3) as [Ec Exx].
  split; [|by rewrite Exx, H2]. apply rtc_once. rewrite Ec. unfold core_of, core_at. rewrite H1, H2, H3, H4, Hview.
  eapply (step_registration_end (core_of n)); [exact Hen|exact Ea|].
  right. cbn. rewrite Ht. destruct (code =? SUCCESSFUL_COMPLETION); [by left|by right].
Qed.

Lemma of_ack_read f o : of_ack f = Some o -> answered_by_success o = false.
Proof. unfold of_ack. repeat case_match; naive_solver. Qed.
Lemma unmatched_sim n peer code key now : node_ok n -> nd_now n = now -> sim n (unmatched n peer code key now).1.
Proof.
  intros Hok Ht. unfold unmatched. cbv zeta. cbn [fst].
  set (n1 := if is_some code then _ else _).
  assert (H1 : same_core n n1) by (unfold n1; repeat case_match; done).
  assert (Hs : sim n n1) by (by apply sim_same). case_bool_decide; [|done]. destruct H1 as (Hl & Hx & Hc & Hn).
  destruct (lk_mode (nd_link n1)) as [|f|]; [done| |done].
  destruct (nd_lifecycle n1) as [a|] eqn:Ea; [|done]. destruct (_ && _); [|done].
  split; [|cbn; rewrite Hx; apply Hok]. apply rtc_once. unfold core_of at 2, core_at. cbn. rewrite Hl, Hx, Hn, <-Ht.
  by apply (step_hint (core_of n) a).
Qed.
(** The key of a response and the exchange it is for: an exchange a success answers gets a valid result. *)
Lemma key_result (valid : bool) f code k o : (if valid then key_of f code else KeyOperation <$> of_ack f) = Some k ->
  key_fits k o = true -> answered_by_success o = true -> valid = true /\ is_some code = true.
Proof.
  intros Hk Hf Ha. destruct valid; [|destruct (of_ack f) as [o'|] eqn:E; [|done]; injection Hk as <-; apply of_ack_read in E;
    apply bool_decide_eq_true in Hf; congruence].
  split; [done|]. destruct code; [done|]. cbn in Hk. destruct (of_ack f) as [o'|] eqn:E; [|done]. injection Hk as <-.
  apply of_ack_read in E. apply bool_decide_eq_true in Hf. congruence.
Qed.
Lemma match_response_sim n r now : node_ok n -> nd_now n = now -> sim n (match_response n r now).1.
Proof.
  intros Hok Ht. unfold match_response. cbv zeta.
  set (code := match rs_message r with Ok (BvlcResultMsg code) => Some code | _ => None end).
  set (valid := match rs_message r with Ok _ => rs_accepted r | Err _ => false end).
  destruct (if valid then _ else _) as [n1 key] eqn:E.
  assert (H1 : same_core n n1 /\ key = if valid then key_of (rs_function r) code else KeyOperation <$> of_ack (rs_function r)).
  { destruct valid; injection E as <- <-; [done|]. split; [|done]. by case_match. }
  clear E. destruct H1 as [H1 Ekey]. assert (Hok1 : node_ok n1) by (eapply sim_ok; [done|by apply sim_same]).
  assert (Hs1 : sim n n1) by (by apply sim_same). destruct H1 as (Hl & Hx & Hc & Hn).
  destruct (match key with Some k => _ | None => _ end) as [i|] eqn:Ef; cycle 1.
  { destruct valid; cbn [negb]; [|done]. eapply sim_trans; [exact Hs1|]. apply unmatched_sim; [done|congruence]. }
  destruct key as [k|]; [|done]. unfold exchanges_find in Ef. destruct (position_some _ _ _ Ef) as (s & Hs & Hp).
  apply andb_prop in Hp as [Hlw Hfit]. apply andb_prop in Hlw as [Hlive _].
  rewrite (slot_at_lookup _ _ _ Hs). pose proof (key_result _ _ _ _ _ (eq_sym Ekey) Hfit) as Hres.
  case_decide as Ea; [|cbn [fst]; eapply sim_trans; [exact Hs1|]; eapply settle_sim; try done; congruence].
  destruct (is_some (sl_early s)); [done|]. cbn [fst]. eapply sim_trans; [exact Hs1|].
  set (s' := s <| sl_early := _ |>). assert (Ev : view (set_slot (nd_exchanges n1) i s') = view (nd_exchanges n1))
    by (by eapply view_set_same).
  split; [unfold core_of, core_at; cbn -[set_slot view]; by rewrite Ev|]. cbn -[set_slot].
  apply early_ok_set; [apply Hok1|]. intros e _ He Ho. injection He as <-. cbn. by apply Hres.
Qed.

(** ** The calls *)

Lemma exchanges_live_lookup x id i : exchanges_live x id = Some i ->
  exists s, xs_slots x !! i = Some s /\ is_live s = true /\ i = exchange_id_slot id /\ sl_generation s = xi_generation id.
Proof.
  unfold exchanges_live. destruct (xs_slots x !! exchange_id_slot id) as [s|] eqn:E; [|done].
  destruct (is_live s) eqn:El; [|done]. cbn [andb]. destruct (Z.eqb_spec (sl_generation s) (xi_generation id)); [|done].
  intros [= <-]. by exists s.
Qed.
Lemma resolve_sim n r now : node_ok n -> sim n (resolve n r now).1.
Proof.
  intros Hok. unfold resolve. pose proof (catch_up_sim n now false Hok) as Hc. destruct (catch_up n now false) as [n1 t].
  destruct Hc as (Hs & Ht & _). assert (Hok1 : node_ok n1) by (by eapply sim_ok).
  pose proof (match_response_sim n1 r t Hok1 Ht) as Hm. destruct (match_response n1 r t) as [n2 inb]. cbn [fst] in *.
  eapply sim_trans; [exact Hs|]. eapply sim_trans; [exact Hm|]. apply advance_sim. by eapply sim_ok.
Qed.
Lemma receive_sim {P} `{Policy P} n d now (p : P) : node_ok n -> sim n (node_receive n d now p).1.1.
Proof.
  intros Hok. unfold node_receive. pose proof (catch_up_sim n now false Hok) as Hc. destruct (catch_up n now false) as [n1 t].
  destruct Hc as (Hs & Ht & _). assert (Hok1 : node_ok n1) by (by eapply sim_ok).
  destruct (link_receive (nd_link n1) d p) as [p' rc].
  assert (Hgo : forall n2, sim n1 n2 -> sim n (advance n2 t).1).
  { intros n2 H2. eapply sim_trans; [exact Hs|]. eapply sim_trans; [exact H2|]. apply advance_sim. by eapply sim_ok. }
  destruct rc as [dv|to code m|r|share|reason]; try (cbn [fst]; apply Hgo; by apply sim_same).
  pose proof (match_response_sim n1 r t Hok1 Ht) as Hm. destruct (match_response n1 r t) as [n2 inb]. by apply Hgo.
Qed.
Lemma admit_broadcast_sim n now : node_ok n -> sim n (admit_broadcast n now).1.
Proof.
  intros Hok. unfold admit_broadcast, advance. pose proof (catch_up_sim n now true Hok) as Hc.
  destruct (catch_up n now true) as [n1 t]. destruct Hc as (Hs & Ht & _).
  destruct (nd_lifecycle n1) as [a|] eqn:Ea; [|done]. destruct (lc_admit_broadcast a t) as [a' dec] eqn:Ed. cbv zeta.
  assert (Hstep : forall n2, same_core (n1 <| nd_lifecycle := Some a' |>) n2 -> sim n n2).
  { intros n2 Hsame. eapply sim_trans; [exact Hs|]. split; [|destruct Hsame as (_ & -> & _); apply Hs].
    apply rtc_once. unfold core_of at 2. rewrite (same_core_at _ _ _ Hsame). unfold core_at. cbn.
    replace a' with (lc_admit_broadcast a (nd_now n1)).1 by (by rewrite Ht, Ed). by apply (step_broadcast (core_of n1) a). }
  destruct dec as [l| |]; cbn [fst]; [destruct l|..]; by apply Hstep.
Qed.
Lemma begin_exchange_sim n p r t now : node_ok n -> sim n (begin_exchange n p r t now).1.
Proof.
  intros Hok. unfold begin_exchange. pose proof (advance_sim n now Hok) as Hs. destruct (advance n now) as [n1 t1].
  cbn [fst] in Hs. destruct (operation_of _) as [o|]; [|done]. destruct (match lk_mode _ with ModeNormal => _ | _ => _ end); [done|].
  cbv zeta. assert (Hok1 : node_ok n1) by (by eapply sim_ok).
  pose proof (node_admit_sim n1 p o t OwnManual (match r with RegisterForeignDevice ttl => ttl | _ => 0 end) Hok1
    (or_introl eq_refl)) as Ha.
  destruct (node_admit _ _ _ _ _ _) as [n2 [id|e]]; cbn [fst] in *; by eapply sim_trans.
Qed.
Lemma exchange_failed_sim n id why now : node_ok n -> sim n (exchange_failed n id why now).
Proof.
  intros Hok. unfold exchange_failed, advance at 1. pose proof (catch_up_sim n now true Hok) as Hc.
  destruct (catch_up n now true) as [n1 t]. destruct Hc as (Hs & Ht & _). assert (Hok1 : node_ok n1) by (by eapply sim_ok).
  destruct (exchanges_live _ _) as [i|] eqn:El; [|done]. destruct (exchanges_live_lookup _ _ _ El) as (s & Hslot & Hlive & _).
  destruct (exchanges_retire (nd_exchanges n1) i t) as [x' s'] eqn:Er.
  assert (s' = s) as -> by (unfold exchanges_retire in Er; injection Er as _ <-; by apply slot_at_lookup).
  assert (Ex : x' = (exchanges_retire (nd_exchanges n1) i t).1) by (by rewrite Er). cbv zeta.
  destruct (match why with SendFailed => _ | Cancelled => _ end) as [n2 o] eqn:Ew.
  assert (H2 : nd_link n2 = nd_link n1 /\ nd_lifecycle n2 = nd_lifecycle n1 /\ nd_now n2 = nd_now n1 /\ nd_exchanges n2 = x')
    by (destruct why; by injection Ew as <- <-).
  destruct H2 as (H2l & H2c & H2t & H2x).
  assert (Hend : sim n1 (ended_unanswered n2 id s o t)).
  { eapply (sim_end n1 _ i s o t); try done.
    - rewrite ended_unanswered_exchanges, H2x, Ex. apply early_ok_retire. apply Hok1.
    - unfold core_of. rewrite ended_unanswered_core. unfold core_at. by rewrite H2l, H2c, H2t, H2x, Ex, view_retire. }
  eapply sim_trans; [exact Hs|]. eapply sim_trans; [exact Hend|]. apply advance_sim. by eapply sim_ok.
Qed.
Lemma exchange_sent_sim n id now : node_ok n -> sim n (exchange_sent n id now).1.
Proof.
  intros Hok. unfold exchange_sent, advance at 1. pose proof (catch_up_sim n now true Hok) as Hc.
  destruct (catch_up n now true) as [n1 t]. destruct Hc as (Hs & Ht & _). assert (Hok1 : node_ok n1) by (by eapply sim_ok).
  destruct (exchanges_live _ _) as [i|] eqn:El; [|done]. destruct (exchanges_live_lookup _ _ _ El) as (s & Hslot & Hlive & _).
  rewrite (slot_at_lookup _ _ _ Hslot). cbv zeta. case_bool_decide as Ep; cbn [negb]; [|done]. cbn [fst].
  set (s' := s <| sl_phase := _ |> <| sl_early := None |>). set (x' := set_slot (nd_exchanges n1) i s').
  assert (Ev : view x' = view (nd_exchanges n1)).
  { apply (view_set_same _ _ s); [done|]. unfold entry_of. cbn. by rewrite Hlive. }
  assert (He : early_ok x') by (apply early_ok_set; [apply Hok1|done]).
  set (n2 := if decide (sl_owner s' = OwnRegistration) then _ else _).
  assert (H2x : nd_exchanges n2 = x') by (unfold n2; case_decide; done).
  assert (H2t : nd_now n2 = t) by (unfold n2; case_decide; done).
  assert (H2 : sim n1 n2).
  { split; [|by rewrite H2x]. unfold core_of at 2, core_at. rewrite H2x, Ev, H2t, <-Ht. unfold n2.
    case_decide; cbn; [|done]. destruct (nd_lifecycle n1) as [a|] eqn:Ea; cbn [option_map]; [|by rewrite <-Ea].
    apply rtc_once. by apply (step_sent (core_of n1) a). }
  eapply sim_trans; [exact Hs|]. eapply sim_trans; [exact H2|]. assert (Hok2 : node_ok n2) by (by eapply sim_ok).
  destruct (sl_early s) as [e|] eqn:Ee; [|by apply advance_sim].
  assert (Hset : sim n2 (settle n2 i (ea_code e) (ea_valid e) t)).
  { eapply (settle_sim n2 i s'); try done.
    - rewrite H2x. unfold x', set_slot. cbn. apply list_lookup_insert_eq. by eapply lookup_lt_Some.
    - intros Ho. destruct Hok1 as [_ Hearly]. by eapply Hearly. }
  eapply sim_trans; [exact Hset|]. apply advance_sim. by eapply sim_ok.
Qed.

(** ** A move to another BBMD *)

Lemma cancel_attempt_sim n now : node_ok n -> nd_now n = now -> exists d,
  core_steps (core_of n) (core_at d (cancel_attempt n now)) /\ no_registration (view (nd_exchanges (cancel_attempt n now))) /\
  early_ok (nd_exchanges (cancel_attempt n now)) /\ nd_now (cancel_attempt n now) = now /\
  nd_link (cancel_attempt n now) = nd_link n.
Proof.
  intros Hok Ht. unfold cancel_attempt. destruct (exchanges_registration (nd_exchanges n)) as [i|] eqn:E; cycle 1.
  { exists false. split_and!; try done; [|apply Hok]. intros i p o Hv. destruct (view_entry _ _ _ _ _ Hv) as (s & Hs & Hl & _ & _ & Hw).
    pose proof (position_none _ _ E _ _ Hs) as Hp. cbn in Hp. rewrite Hl, bool_decide_true in Hp by done. done. }
  destruct (position_some _ _ _ E) as (s & Hs & Hp). apply andb_prop in Hp as [Hl Hw]. apply bool_decide_eq_true in Hw.
  cbv zeta. set (n1 := n <| nd_exchanges ::= _ |> <| nd_actions ::= _ |>).
  destruct (record_register_same n1 (exchanges_id (nd_exchanges n) i) OutCancelled None) as (H1 & H2 & H3 & H4).
  set (n2 := record_register _ _ _ _) in *.
  assert (Ev : view (nd_exchanges n2) = <[i := None]> (view (nd_exchanges n))) by (rewrite H2; apply view_retire).
  pose proof (view_lookup _ _ _ Hs) as Hen. unfold entry_of in Hen. rewrite Hl, Hw in Hen.
  assert (Hst : core_steps (core_of n) (core_at true n2)).
  { apply rtc_once. unfold core_at. rewrite Ev, H1, H3, H4. eapply (step_cancel (core_of n)). exact Hen. }
  exists true. split_and!; try done; [|rewrite H2; apply early_ok_retire; apply Hok|by rewrite H4].
  destruct (core_steps_inv _ _ Hst (proj1 Hok)) as [_ _ _ _ Hg]. cbn in Hg.
  destruct (lk_mode (nd_link n2)); [apply Hg| |apply Hg]. destruct Hg as (a & _ & _ & _ & Hreg & _).
  intros j p o Hj. by destruct (Hreg _ _ _ Hj) as (_ & _ & _ & ?).
Qed.
Lemma drop_release_sim n drop_it now d : core_inv (core_at d n) -> early_ok (nd_exchanges n) -> nd_now n = now ->
  no_registration (view (nd_exchanges n)) -> let n' := drop_release n drop_it now in
  core_steps (core_at d n) (core_at d n') /\ no_registration (view (nd_exchanges n')) /\ early_ok (nd_exchanges n') /\
  nd_now n' = now /\ nd_link n' = nd_link n.
Proof.
  intros Hi He Ht Hn. unfold drop_release. destruct (take_release_if _ _) as [acts [id|]]; cbv zeta; [|done].
  cbn [nd_exchanges]. destruct (exchanges_live _ _) as [i|] eqn:El; [|done].
  destruct (exchanges_live_lookup _ _ _ El) as (s & Hs & Hl & _).
  destruct (exchanges_retire _ i now) as [x' s'] eqn:Er.
  assert (s' = s) as -> by (unfold exchanges_retire in Er; injection Er as _ <-; by apply slot_at_lookup).
  assert (Ex : x' = (exchanges_retire (nd_exchanges n) i now).1) by exact (f_equal fst (eq_sym Er)).
  set (n1 := n <| nd_actions := acts |> <| nd_exchanges := x' |>).
  pose proof (ended_unanswered_core n1 id s OutCancelled now d) as Ec.
  pose proof (ended_unanswered_exchanges n1 id s OutCancelled now) as Exx. cbn in Exx.
  set (n2 := ended_unanswered n1 id s OutCancelled now) in *.
  assert (Ev : view x' = <[i := None]> (view (nd_exchanges n))) by (rewrite Ex; apply view_retire).
  split_and!.
  - apply rtc_once. rewrite Ec.
    pose proof (ended_step (core_at d n) i s OutCancelled now _ Hi (view_lookup _ _ _ Hs) Hl Ht eq_refl) as Hst.
    unfold core_at in *. cbn in *. by rewrite Ev.
  - rewrite Exx, Ev. intros j p o [_ Hj]%view_remove. by eapply Hn.
  - rewrite Exx, Ex. by apply early_ok_retire.
  - apply (f_equal co_now) in Ec. etrans; [exact Ec|exact Ht].
  - apply (f_equal co_link) in Ec. exact Ec.
Qed.
Lemma release_previous_sim n b t : node_ok n -> is_some (nd_lifecycle n) = true -> sim n (release_previous n b t).
Proof.
  intros Hok Hsome. unfold release_previous. cbv zeta. set (n1 := n <| nd_counters ::= _ |>).
  assert (Hok1 : node_ok n1) by done.
  pose proof (node_admit_sim n1 b DeleteFdtEntry t OwnRelease 0 Hok1 (or_intror (conj eq_refl (conj eq_refl Hsome)))) as Hs.
  destruct (node_admit n1 b DeleteFdtEntry t OwnRelease 0) as [n2 [id|e]]; cbn [fst] in Hs; exact Hs.
Qed.
Lemma retarget_sim n f now : node_ok n -> foreign_typed f -> sim n (retarget n f now).1.
Proof.
  intros Hok Hft. unfold retarget. destruct (lk_mode (nd_link n)) as [|old|] eqn:Em; [by apply sim_same| |by apply sim_same].
  cbv zeta. destruct (link_validate _) as [[]|e] eqn:Ev; [|by apply sim_same].
  pose proof (catch_up_sim n now false Hok) as Hc.
  destruct (catch_up n now false) as [n1 t]. destruct Hc as (Hs & Ht & _ & Hcl).
  assert (Hok1 : node_ok n1) by (by eapply sim_ok).
  destruct (cancel_attempt_sim n1 t Hok1 Ht) as (d & Hs2 & Hn2 & He2 & Ht2 & Hl2). set (n2 := cancel_attempt n1 t) in *.
  pose proof (core_steps_inv _ _ Hs2 (proj1 Hok1)) as Hi2.
  set (left_bbmd := match fr_bbmd old with Some _ => _ | None => _ end).
  set (drop_it := fun to => is_some left_bbmd || bool_decide (fr_bbmd f = Some to)).
  destruct (drop_release_sim n2 drop_it t d Hi2 He2 Ht2 Hn2) as (Hs3 & Hn3 & He3 & Ht3 & Hl3).
  set (n3 := drop_release n2 drop_it t) in *.
  pose proof (core_steps_inv _ _ Hs3 Hi2) as Hi3.
  assert (El : nd_link n3 = nd_link n) by congruence.
  pose proof (ci_registration _ Hi3) as Hg. cbn in Hg. rewrite El, Em in Hg. destruct Hg as (a & Ha & _).
  set (n5 := n3 <| nd_lifecycle ::= _ |> <| nd_link := _ |>).
  assert (Hs5 : sim n1 n5).
  { split; [|done]. etrans; [exact Hs2|]. etrans; [exact Hs3|]. apply rtc_once.
    pose proof (step_retarget (core_at d n3) old f a) as Hst. cbn in Hst. rewrite El in Hst.
    specialize (Hst Em Ha Hn3 Ev Hft). unfold core_of, core_at, n5 in *. cbn in *. rewrite El, Ha in *. cbn [option_map].
    rewrite Ht3 in Hst. rewrite Ht3. exact Hst. }
  assert (Hok5 : node_ok n5) by (by eapply sim_ok). pose proof (advance_sim n5 t Hok5) as Hs6.
  eapply sim_trans; [exact Hs|]. eapply sim_trans; [exact Hs5|].
  assert (Hok6 : node_ok (advance n5 t).1) by (by eapply sim_ok).
  destruct left_bbmd as [b|]; cbn [fst]; [|exact Hs6]. eapply sim_trans; [exact Hs6|]. apply release_previous_sim; [done|].
  pose proof (catch_up_sim n5 t true Hok5) as Hc6. unfold advance in *. destruct (catch_up n5 t true) as [n6 t6].
  destruct Hc6 as (_ & _ & _ & Hl6). pose proof (ci_registration _ (proj1 Hok6)) as Hg6. cbn in Hg6. rewrite Hl6 in Hg6.
  cbn in Hg6. destruct Hg6 as (a6 & Ha6 & _). cbn. by rewrite Ha6.
Qed.
