(* ===== verification/NodeTheorems.v ===== *)
(** * What a B/IP node guarantees

    Properties of every sequence of calls into a node: responses are matched to one exchange, a foreign device's
    registration is always in flight or due and is a run of [Lifecycle], held broadcasts are released or
    discarded once, and catching up on deadlines ends with none overdue. *)

From stdpp Require Import relations.
From S2P Require Import Prelude Time Bvll Fdt Bdt Bbmd NodeLink LinkTheorems Lifecycle Exchange Node NodeCore NodeSim.
Open Scope Z_scope.

(** ** Calls *)

Section Calls.
Context {P : Type} `{Policy P}.
Inductive NodeCall :=
| CReceive (d : Datagram) (now : Instant) (policy : P) | CResolve (r : Response) (now : Instant)
| CAdmitBroadcast (now : Instant) | CBegin (peer : SocketAddrV4) (request : Bvll) (timeout : Duration) (now : Instant)
| CSent (id : ExchangeId) (now : Instant) | CFailed (id : ExchangeId) (why : LocalFailure) (now : Instant)
| CDeadline (now : Instant) | CRetarget (f : Foreign) (now : Instant) | CSubnet (s : LocalSubnet) | CPoll | CTake.
Definition node_call (n : Node) (c : NodeCall) : Node :=
  match c with
  | CReceive d now policy => (node_receive n d now policy).1.1
  | CResolve r now => (resolve n r now).1
  | CAdmitBroadcast now => (admit_broadcast n now).1
  | CBegin peer request timeout now => (begin_exchange n peer request timeout now).1
  | CSent id now => (exchange_sent n id now).1
  | CFailed id why now => exchange_failed n id why now
  | CDeadline now => on_deadline n now
  | CRetarget f now => (retarget n f now).1
  | CSubnet s => (set_subnet n s).1
  | CPoll => (poll_action n).1
  | CTake => (take_counters n).1
  end.
(** The arguments of a call fit their types. *)
Definition call_typed (c : NodeCall) : Prop := match c with CRetarget f _ => foreign_typed f | _ => True end.
(** A node with [X] exchange slots, started at some time, after some calls. *)
Inductive node_reachable (X : nat) : Node -> Prop :=
| reach_new link now n : 0 <= now -> link_typed link -> node_new X link now = Ok n -> node_reachable X n
| reach_call n c : node_reachable X n -> call_typed c -> node_reachable X (node_call n c).

Lemma node_call_sim n c : node_ok n -> call_typed c -> sim n (node_call n c).
Proof.
  intros Hok Hty. destruct c; cbn [node_call].
  - by apply receive_sim.
  - by apply resolve_sim.
  - by apply admit_broadcast_sim.
  - by apply begin_exchange_sim.
  - by apply exchange_sent_sim.
  - by apply exchange_failed_sim.
  - by apply advance_sim.
  - by apply retarget_sim.
  - unfold set_subnet. destruct (link_validate _) as [[]|] eqn:E; [|by apply sim_same].
    split; [|apply Hok]. apply rtc_once. by apply (step_subnet (core_of n) s).
  - unfold poll_action. destruct (actions_poll _). by apply sim_same.
  - by apply sim_same.
Qed.
Lemma replicate_view X i e : view (exchanges_new X) !! i <> Some (Some e : option Entry).
Proof.
  unfold view, exchanges_new. cbn. rewrite fmap_replicate. intros [E _]%lookup_replicate. discriminate E.
Qed.
(** The state before [Node::new] catches up. *)
Definition node_start (X : nat) (link : Link) (now : Instant) : Node :=
  {| nd_link := link; nd_exchanges := exchanges_new X;
     nd_lifecycle := match lk_mode link with ModeForeign f => Some (lifecycle_new f now) | _ => None end;
     nd_actions := actions_new X; nd_counters := NODE_COUNTERS_ZERO; nd_latest_register := None; nd_now := now |}.
Lemma node_new_start X link now n : node_new X link now = Ok n ->
  link_validate link = Ok tt /\ n = (advance (node_start X link now) now).1.
Proof. unfold node_new. destruct (link_validate link) as [[]|]; [|done]. cbn [rbind]. intros [= <-]. done. Qed.
Lemma node_start_ok X link now : link_validate link = Ok tt -> link_typed link -> node_ok (node_start X link now).
Proof.
  intros Hv Hty. split; [split; cbn; try done|].
  - intros i j p o o' w w' Hi. by destruct (replicate_view _ _ _ Hi).
  - intros i p o Hi. by destruct (replicate_view _ _ _ Hi).
  - destruct (lk_mode link) as [|f|]; [split; [done|]; intros i p o Hi; by destruct (replicate_view _ _ _ Hi)| |
      split; [done|]; intros i p o Hi; by destruct (replicate_view _ _ _ Hi)].
    exists (lifecycle_new f now). split; [done|]. split; [done|]. split; [intros _; split; try done|].
    + cbn. unfold due_with. by destruct (fr_bbmd f).
    + split; [intros i p o Hi; by destruct (replicate_view _ _ _ Hi)|done].
  - intros i s e Hi. cbn in Hi. apply lookup_replicate in Hi as [-> _]. done.
Qed.
Lemma reachable_ok X n : node_reachable X n -> node_ok n.
Proof.
  induction 1 as [link now n _ Hty Hn|n c _ IH Hty].
  - apply node_new_start in Hn as [Hv ->]. pose proof (node_start_ok X link now Hv Hty) as Hok.
    eapply sim_ok; [exact Hok|by apply advance_sim].
  - eapply sim_ok; [exact IH|by apply node_call_sim].
Qed.

(** C36: matching a response needs no invoke ID. After any calls into a node, whatever a peer answers (a success, a NAK or
    a table ACK) fits at most one live exchange with that peer, the one the search finds; and an exchange handle names a
    live exchange of its own generation or nothing. *)
Theorem response_unambiguous X n peer key i : node_reachable X n ->
  (exchanges_find (nd_exchanges n) peer key = Some i <->
   exists s, xs_slots (nd_exchanges n) !! i = Some s /\ is_live s = true /\ sl_peer s = peer /\
     key_fits key (sl_operation s) = true) /\
  (forall j s, xs_slots (nd_exchanges n) !! j = Some s -> is_live s = true -> sl_peer s = peer ->
     key_fits key (sl_operation s) = true -> exchanges_find (nd_exchanges n) peer key = Some i -> j = i) /\
  (forall id, exchanges_live (nd_exchanges n) id = Some i ->
     exists s, xs_slots (nd_exchanges n) !! i = Some s /\ is_live s = true /\ sl_generation s = xi_generation id).
Proof.
  intros [[_ _ Hu _ _] _]%reachable_ok. cbn in Hu. set (x := nd_exchanges n) in *.
  assert (Huniq : forall j k s t, xs_slots x !! j = Some s -> xs_slots x !! k = Some t -> is_live s = true ->
    is_live t = true -> sl_peer s = sl_peer t -> key_fits key (sl_operation s) = true -> key_fits key (sl_operation t) = true ->
    j = k).
  { intros j k s t Hs Ht Hls Hlt Hp Hks Hkt. destruct (decide (j = k)) as [|Hne]; [done|]. exfalso.
    apply view_lookup in Hs, Ht. unfold entry_of in Hs, Ht. rewrite Hls in Hs. rewrite Hlt in Ht. rewrite <-Hp in Ht.
    apply (Hu _ _ _ _ _ _ _ Hs Ht Hne). unfold clash. destruct key as [|o]; cbn in Hks, Hkt.
    - right. by rewrite Hks, Hkt.
    - left. by apply bool_decide_eq_true in Hks, Hkt; subst. }
  assert (Hfound : forall k, exchanges_find x peer key = Some k -> exists s, xs_slots x !! k = Some s /\ is_live s = true /\
    sl_peer s = peer /\ key_fits key (sl_operation s) = true).
  { intros k Hk. destruct (position_some _ _ _ Hk) as (s & Hs & Hp). apply andb_prop in Hp as [Hlw Hf].
    apply andb_prop in Hlw as [Hl Hpeer]. apply bool_decide_eq_true in Hpeer. by exists s. }
  split_and!.
  - split; [by apply Hfound|]. intros (s & Hs & Hl & Hp & Hf).
    destruct (exchanges_find x peer key) as [k|] eqn:E.
    + destruct (Hfound _ eq_refl) as (t & Ht & Hlt & Hpt & Hft). f_equal. by eapply Huniq; try done; congruence.
    + pose proof (position_none _ _ E _ _ Hs) as Hc. cbn in Hc. unfold live_with in Hc.
      rewrite Hl, Hf, bool_decide_true in Hc by done. done.
  - intros j s Hs Hl Hp Hf Hi. destruct (Hfound _ Hi) as (t & Ht & Hlt & Hpt & Hft). by eapply Huniq; try done; congruence.
  - intros id Hid. destruct (exchanges_live_lookup _ _ _ Hid) as (s & Hs & Hl & _ & Hg). by exists s.
Qed.

Lemma core_steps_now c c' : core_steps c c' -> co_now c <= co_now c'.
Proof. induction 1 as [|c c1 c' Hs _ IH]; [lia|]. destruct Hs; cbn in *; lia. Qed.
Lemma reachable_now X n : node_reachable X n -> 0 <= nd_now n.
Proof.
  induction 1 as [link now n Hnow Hty Hn|n c Hr IH Hty].
  - apply node_new_start in Hn as [Hv ->]. destruct (advance_sim (node_start X link now) now) as [Hs _]; [by apply node_start_ok|].
    etrans; [exact Hnow|]. exact (core_steps_now _ _ Hs).
  - destruct (node_call_sim n c (reachable_ok _ _ Hr) Hty) as [Hs _]. etrans; [exact IH|]. exact (core_steps_now _ _ Hs).
Qed.
Lemma reachable_running X n : node_reachable X n -> lc_running (core_of n).
Proof.
  induction 1 as [link now n Hnow Hty Hn|n c Hr IH Hty].
  - apply node_new_start in Hn as [Hv ->]. destruct (advance_sim (node_start X link now) now) as [Hs _]; [by apply node_start_ok|].
    eapply core_steps_running; [exact Hs|]. intros a Ha. cbn in Ha. destruct (lk_mode link) as [|f|]; [done| |done].
    injection Ha as <-. eexists _, now. split; [by apply lc_start|done].
  - destruct (node_call_sim n c (reachable_ok _ _ Hr) Hty) as [Hs _]. by eapply core_steps_running.
Qed.

(** A foreign device is always registering. After any calls, its registration has an attempt in flight exactly when one
    live exchange is the registration's, and that one asks the link's BBMD; with no attempt in flight and a BBMD
    known, the next attempt has a time, so the node has a deadline; with none known, it waits; and the registration is a run of the
    state machine whose leases are conservative. *)
Theorem always_registering X n f : node_reachable X n -> lk_mode (nd_link n) = ModeForeign f ->
  exists a, nd_lifecycle n = Some a /\
  (is_some (lc_attempt a) = true <-> exists i s, xs_slots (nd_exchanges n) !! i = Some s /\ is_live s = true /\
     sl_owner s = OwnRegistration /\ sl_operation s = RegisterFD /\ Some (sl_peer s) = fr_bbmd f) /\
  (lc_attempt a = None -> is_some (fr_bbmd f) = true -> exists t, due_at a = Some t /\ is_some (next_deadline n) = true) /\
  (fr_bbmd f = None -> due_at a = None /\ lc_attempt a = None) /\
  exists h clock, lc_run a h clock /\ clock <= nd_now n.
Proof.
  intros Hr Hm. pose proof (reachable_running _ _ Hr) as Hrun. apply reachable_ok in Hr as [[_ _ _ _ Hg] _].
  cbn in Hg. rewrite Hm in Hg. destruct Hg as (a & Ha & _ & Hf & Hreg & Hex). specialize (Hf eq_refl). exists a.
  split; [done|]. destruct Hf as [_ _ _ _ _ _ Hdue Hatt _]. split_and!.
  - split.
    + intros Hs. destruct (Hex Hs eq_refl) as (i & p & Hv). destruct (view_entry _ _ _ _ _ Hv) as (s & Hsl & Hl & Hp & Ho & Hw).
      destruct (Hreg _ _ _ Hv) as (Ep & _). exists i, s. split_and!; try done. by rewrite Hp.
    + intros (i & s & Hs & Hl & Hw & Ho & _). apply view_lookup in Hs. unfold entry_of in Hs. rewrite Hl, Hw in Hs.
      by destruct (Hreg _ _ _ Hs) as (_ & _ & ? & _).
  - intros Hat Hb. rewrite Hat, Hb in Hdue. cbn in Hdue. destruct (lc_next a) as [t|] eqn:En; [|done]. exists t.
    assert (Hd : due_at a = Some t) by (unfold due_at; by rewrite Hat). split; [done|].
    unfold next_deadline, node_due_at. rewrite Ha, Hd.
    match goal with |- is_some (earliest [?x; ?y; ?z]) = _ => pose proof (earliest_three x y z) as He end.
    destruct (earliest _); [done|]. naive_solver.
  - intros Hb. rewrite Hb in *. cbn in *. destruct (lc_attempt a) eqn:Eat; [by specialize (Hatt eq_refl)|].
    split; [|done]. unfold due_at. rewrite Eat. by destruct (lc_next a).
  - by apply Hrun.
Qed.
End Calls.

(** ** Catching up ends *)

Definition is_sent (s : Slot) : bool := match sl_phase s with PhSent _ => true | _ => false end.
Definition sent_count (l : list Slot) : nat := length (List.filter is_sent l).
Definition lapse_count (lc : option Lifecycle) : nat :=
  match lc with Some a => if is_some (lapse_at a) then 1 else 0 | None => 0 end.
Definition due_count (lc : option Lifecycle) (now : Instant) : nat :=
  match lc with Some a => match due_at a with Some t => if t <=? now then 1 else 0 | None => 0 end | None => 0 end.
(** The rounds still to go: two per exchange that may time out, one for the lease's end, one for a due attempt. *)
Definition rounds (n : Node) (now : Instant) : nat :=
  2 * sent_count (xs_slots (nd_exchanges n)) + lapse_count (nd_lifecycle n) + due_count (nd_lifecycle n) now.

Lemma sent_count_cons t l : sent_count (t :: l) = ((if is_sent t then 1 else 0) + sent_count l)%nat.
Proof. unfold sent_count. cbn [List.filter]. by destruct (is_sent t). Qed.
Lemma sent_count_insert l i s s' : l !! i = Some s ->
  (sent_count (<[i := s']> l) + (if is_sent s then 1 else 0) = sent_count l + (if is_sent s' then 1 else 0))%nat.
Proof.
  revert i. induction l as [|t l IH]; intros [|i] Hi; [done..| |]; cbn in Hi.
  - injection Hi as ->. cbn [insert list_insert]. rewrite !sent_count_cons. lia.
  - specialize (IH i Hi). cbn [insert list_insert]. rewrite !sent_count_cons, <-!Nat.add_assoc. f_equal. exact IH.
Qed.
Lemma sent_count_le l : (sent_count l <= length l)%nat.
Proof. induction l as [|t l IH]; [done|]. rewrite sent_count_cons. cbn. destruct (is_sent t); lia. Qed.
Lemma ended_lc_lapse l lc s o now : lapse_count (ended_lc l lc s o now) = lapse_count lc.
Proof.
  assert (Hf : forall a oc, lapse_at (failed a now oc).1 = lapse_at a).
  { intros a oc. unfold failed, resolve_first. cbv zeta. by destruct (is_some oc); cbn; destruct (lc_first_resolved a). }
  unfold ended_lc, lapse_count. destruct (sl_owner s); [done|destruct lc; cbn; [by rewrite Hf|done]|].
  destruct lc as [a|]; [|by unfold release_lc; destruct (lk_mode l)].
  assert (Hd : lapse_at (due_now a now) = lapse_at a) by (unfold due_now; by case_match).
  assert (Hn : forall t, lapse_at (not_before a t) = lapse_at a) by (intros t; unfold not_before; by case_match).
  destruct (release_lc_cases l a s o now) as (a' & -> & [->|[->|[t ->]]]); by rewrite ?Hd, ?Hn.
Qed.
Lemma time_out_rounds n i s d now : xs_slots (nd_exchanges n) !! i = Some s -> sl_phase s = PhSent d ->
  (rounds (time_out n i now) now < rounds n now)%nat.
Proof.
  intros Hs Hp. unfold time_out. destruct (exchanges_retire (nd_exchanges n) i now) as [x' s'] eqn:Er.
  assert (s' = s) as -> by (unfold exchanges_retire in Er; injection Er as _ <-; by apply slot_at_lookup).
  match goal with |- context [ended_unanswered ?m ?e ?t ?o now] =>
    pose proof (ended_unanswered_core m e t o now false) as Ec; pose proof (ended_unanswered_exchanges m e t o now) as Ex;
    set (n1 := m) in *; set (n2 := ended_unanswered _ _ _ _ _) in * end.
  assert (H1 : nd_exchanges n1 = x' /\ nd_lifecycle n1 = nd_lifecycle n /\ nd_link n1 = nd_link n)
    by (unfold n1; case_decide; done). destruct H1 as (H1x & H1c & H1l).
  apply (f_equal co_lc) in Ec. cbn in Ec. unfold rounds. rewrite Ec, ended_lc_lapse, Ex, H1c, H1x.
  assert (Hc : (sent_count (xs_slots x') + 1 = sent_count (xs_slots (nd_exchanges n)))%nat).
  { unfold exchanges_retire in Er. injection Er as <- _. unfold set_slot. cbn.
    match goal with |- context [<[i := ?t]> _] => pose proof (sent_count_insert _ _ _ t Hs) as Hc end.
    replace (is_sent s) with true in Hc by (unfold is_sent; by rewrite Hp).
    match type of Hc with context [is_sent ?t] => change (is_sent t) with false in Hc end. rewrite Nat.add_0_r in Hc. exact Hc. }
  assert (due_count (ended_lc (nd_link n1) (nd_lifecycle n) s OutTimedOut now) now <= 1)%nat
    by (unfold due_count; repeat case_match; lia). lia.
Qed.
Lemma admit_sent_count x p o t w ttl x' id : exchanges_admit x p o t w ttl = (x', Ok id) ->
  sent_count (xs_slots x') = sent_count (xs_slots x).
Proof.
  unfold exchanges_admit. destruct (admit_conflict _ _ _); [done|]. destruct (position _ _) as [i|] eqn:Ep; [|done].
  intros [= <- _]. destruct (position_some _ _ _ Ep) as (s & Hs & Hl). apply negb_true_iff in Hl.
  unfold set_slot. cbn. match goal with |- context [<[i := ?t]> _] => pose proof (sent_count_insert _ _ _ t Hs) as Hc end.
  assert (Es : is_sent s = false) by (unfold is_sent, is_live in *; by destruct (sl_phase s)). rewrite Es in Hc.
  match type of Hc with context [is_sent ?t] => change (is_sent t) with false in Hc end. rewrite !Nat.add_0_r in Hc. exact Hc.
Qed.

(** A failed start is tried again after now, unless time has run out. *)
Lemma failed_later a f now : lc_follows f a -> foreign_typed f -> fr_response_timeout f <> 0 -> lc_attempt a = None ->
  0 <= now < U64_MAX -> exists t, due_at (failed a now None).1 = Some t /\ now < t.
Proof.
  intros Hf (_ & Hr & Ht & _) Hne Hat Hnow.
  assert (Hset : lc_settings a).
  { unfold lc_settings. rewrite (lf_timeout _ _ Hf), (lf_renewal _ _ Hf). unfold effective_response_timeout, effective_renewal,
      duration_min, duration_max. change MIN_RENEWAL with 100000000 in *. split_and!; try (repeat case_match; width); apply Hf. }
  pose proof (failed_next a now None Hset) as Hn.
  destruct (failed_ended a now None) as [He _]. unfold due_at. rewrite (le_attempt _ _ He), Hn. cbn [is_some].
  eexists. split; [done|]. rewrite Hat. cbn [default id]. destruct Hset as ((Ht0 & Htr) & Hru & Hfu).
  assert (1 <= 2 ^ (Z.min U32_MAX (lc_failures a + 1) - 1)) by (apply (Z.pow_le_mono_r 2 0); width).
  assert (Hpos : forall d, 0 < d -> now < instant_add now d)
    by (intros d Hd; unfold instant_add, instant_saturating_add, sat_add; lia).
  pose proof (Hpos (lc_renewal a)). 
  pose proof (Hpos (Z.min (lc_timeout a * 2 ^ (Z.min U32_MAX (lc_failures a + 1) - 1)) (lc_renewal a))).
  destruct (lc_retry a); [lia|]. apply Z.min_glb_lt; [lia|]. apply Hpos. nia.
Qed.
Lemma start_attempt_rounds n now : node_ok n -> nd_now n = now -> 0 <= now < U64_MAX ->
  (exists t, node_due_at n = Some t /\ t <= now) -> (rounds (start_attempt n now) now < rounds n now)%nat.
Proof.
  intros [[Hv Hty _ _ Hg] _] Ht Hnow (t & Hdue & Hle). cbn in Hv, Hty, Hg. unfold start_attempt, link_typed in *.
  unfold node_due_at in Hdue. destruct (lk_mode (nd_link n)) as [|f|] eqn:Em; [by destruct Hg as [Hg _]; rewrite Hg in Hdue| |
    by destruct Hg as [Hg _]; rewrite Hg in Hdue].
  destruct Hg as (a & Ha & _ & Hf & _). specialize (Hf eq_refl). rewrite Ha in Hdue. assert (Hdue' := Hdue).
  unfold due_at in Hdue. destruct (lc_attempt a) as [st|] eqn:Eat; [done|]. cbn in Hdue.
  pose proof (lf_due _ _ Hf) as Hd. rewrite Hdue, Eat in Hd. destruct (fr_bbmd f) as [b|] eqn:Eb; [|done].
  assert (Hresp : fr_response_timeout f <> 0).
  { unfold link_validate in Hv. rewrite Em in Hv. repeat case_match; try discriminate; lia. }
  assert (Hbefore : rounds n now = (2 * sent_count (xs_slots (nd_exchanges n)) + lapse_count (Some a) + 1)%nat).
  { unfold rounds. rewrite Ha. unfold due_count. rewrite Hdue'. rewrite (proj2 (Z.leb_le t now) Hle). done. }
  rewrite Hbefore. cbv zeta.
  pose proof (node_admit_fields n b RegisterFD (effective_response_timeout f) OwnRegistration (fr_ttl f)) as Hfl.
  destruct (node_admit _ _ _ _ _ _) as [n' [id|e]]; destruct Hfl as (_ & Hc & _ & _ & Had).
  - unfold rounds. cbn -[lapse_count due_count Nat.mul]. rewrite Hc, Ha, (admit_sent_count _ _ _ _ _ _ _ _ (eq_sym Had)). cbn [option_map].
    change (due_count (Some (admitted a now)) now) with 0%nat.
    change (lapse_count (Some (admitted a now))) with (lapse_count (Some a)). lia.
  - symmetry in Had. apply exchanges_admit_err in Had. rewrite Hc, Ha. destruct (failed a now None) as [a' v] eqn:Ef.
    destruct (held_verdict_same (n' <| nd_lifecycle := Some a' |>) v) as (_ & Hx2 & Hc2 & _).
    unfold rounds. rewrite Hx2, Hc2. cbn -[lapse_count due_count Nat.mul]. rewrite Had.
    destruct (failed_later a f now Hf Hty Hresp Eat Hnow) as (t' & Hd' & Hlt). rewrite Ef in Hd'. cbn in Hd'.
    unfold due_count. rewrite Hd', (proj2 (Z.leb_gt t' now) Hlt).
    assert (El : lapse_count (Some a') = lapse_count (Some a)).
    { pose proof (ended_lc_lapse (nd_link n) (Some a) (SLOT_FREE <| sl_owner := OwnRegistration |>) OutPending now) as E.
      unfold ended_lc in E. cbn [sl_owner option_map] in E.
      replace (lapse_count (Some a')) with (lapse_count (Some (failed a now None).1)) by (by rewrite Ef). 
      unfold lapse_count in *. cbn in E. rewrite <-E. 
      unfold failed, resolve_first. cbv zeta. cbn. by destruct (lc_first_resolved a). }
    rewrite El. lia.
Qed.
Lemma catch_up_round_rounds n now sd n' : node_ok n -> nd_now n = now -> 0 <= now < U64_MAX ->
  catch_up_round n now sd = Some n' -> (rounds n' now < rounds n now)%nat.
Proof.
  intros Hok Ht Hnow. unfold catch_up_round. cbv zeta.
  pose proof (exchanges_next_deadline_spec (nd_exchanges n)) as Hd.
  set (timeout := exchanges_next_deadline (nd_exchanges n)) in *.
  pose proof (earliest_three (snd <$> timeout) (node_lapse_at n) (if sd then node_due_at n else None)) as He.
  destruct (earliest _) as [at_|] eqn:Ee; [|done]. destruct (Z.leb_spec at_ now); cbn [negb]; [|done]. intros [= <-].
  destruct He as [He _].
  destruct (match timeout with Some _ => _ | None => _ end) as [i|] eqn:Em.
  - destruct timeout as [[i' d]|]; [|done]. destruct Hd as [(s & Hs & Hp) _].
    case_bool_decide; [|done]. injection Em as ->. by eapply time_out_rounds.
  - case_bool_decide as Hl.
    + unfold node_lapse_at in Hl. destruct (nd_lifecycle n) as [a|] eqn:Ea; [|done].
      unfold rounds. cbn. rewrite Ea. cbn. rewrite Hl. cbn. unfold due_at. cbn. lia.
    + apply start_attempt_rounds; try done. destruct He as [He|[He|He]]; [|congruence|].
      * destruct timeout as [[i d]|]; [|done]. cbn in He. injection He as ->. case_bool_decide; done.
      * destruct sd; [|done]. by exists at_.
Qed.
Lemma catch_up_loop_done fuel : forall n now sd, node_ok n -> nd_now n = now -> 0 <= now < U64_MAX ->
  (rounds n now < fuel)%nat -> catch_up_round (catch_up_loop fuel n now sd) now sd = None /\
  forall more, (fuel <= more)%nat -> catch_up_loop more n now sd = catch_up_loop fuel n now sd.
Proof.
  induction fuel as [|fuel IH]; intros n now sd Hok Ht Hnow Hr; [lia|]. cbn [catch_up_loop].
  destruct (catch_up_round n now sd) as [n'|] eqn:E.
  - pose proof (catch_up_round_rounds _ _ _ _ Hok Ht Hnow E) as Hlt.
    destruct (catch_up_round_sim _ _ _ _ Hok Ht E) as (Hs & Ht' & _).
    destruct (IH n' now sd) as [H1 H2]; [by eapply sim_ok|done|done|lia|]. split; [done|].
    intros [|more] Hm; [lia|]. cbn [catch_up_loop]. rewrite E. apply H2. lia.
  - split; [done|]. intros [|more] Hm; [lia|]. cbn [catch_up_loop]. by rewrite E.
Qed.
Lemma rounds_bound n now : (rounds n now < catch_up_fuel n)%nat.
Proof.
  unfold rounds, catch_up_fuel. pose proof (sent_count_le (xs_slots (nd_exchanges n))).
  assert (lapse_count (nd_lifecycle n) <= 1)%nat by (unfold lapse_count; repeat case_match; lia).
  assert (due_count (nd_lifecycle n) now <= 1)%nat by (unfold due_count; repeat case_match; lia). lia.
Qed.

(** Catching up ends, with nothing overdue. In any state a node can reach, before the last instant a clock can show, the
    loop that handles the deadlines passed returns within the rounds allowed for it (more would change nothing), the
    time used is the later of now and the last, and no exchange's timeout, lease's end or due attempt at or before it remains. *)
Theorem catch_up_ends {P} `{Policy P} X n now : node_reachable (P := P) X n ->
  Z.max now (nd_now n) < U64_MAX ->
  let '(n', t) := advance n now in
  t = Z.max now (nd_now n) /\ nd_now n' = t /\ (forall d, next_deadline n' = Some d -> t < d) /\
  forall more, (catch_up_fuel n <= more)%nat -> catch_up_loop more (n <| nd_now := t |>) t true = n'.
Proof.
  intros Hr Hmax. pose proof (reachable_ok _ _ Hr) as Hok. pose proof (reachable_now _ _ Hr) as Hn0. unfold advance.
  pose proof (catch_up_sim n now true Hok) as Hc. destruct (catch_up n now true) as [n' t] eqn:E.
  destruct Hc as (_ & Ht & Et & _). split; [done|]. split; [done|].
  unfold catch_up in E. injection E as En Et'. rewrite Et' in En. set (n1 := n <| nd_now := t |>) in *.
  assert (Hok1 : node_ok n1).
  { eapply sim_ok; [exact Hok|]. split; [|apply Hok]. apply rtc_once. apply (step_tick (core_of n) t). cbn. lia. }
  destruct (catch_up_loop_done (catch_up_fuel n1) n1 t true Hok1 eq_refl) as [Hnone Hmore]; [lia|apply rounds_bound|].
  rewrite En in Hnone, Hmore. split; [|exact Hmore]. intros d Hd. unfold catch_up_round in Hnone. cbv zeta in Hnone.
  unfold next_deadline in Hd. rewrite Hd in Hnone. destruct (Z.leb_spec d t); [done|lia].
Qed.

(** ** A device registering *)

(** A foreign device at 10.0.0.1 registering for 60 s with the BBMD at 10.0.0.9, started at one second. *)
Definition start_time : Instant := NANOS_PER_SEC.
Definition device : Foreign := foreign_new (host 9) 60.
Definition device_link (f : Foreign) : Link := node_at 1 (ModeForeign f).
Definition device_node : Node := (advance (node_start 2 (device_link device) start_time) start_time).1.
Lemma device_reachable : node_reachable (P := unit) 2 device_node.
Proof.
  apply (reach_new 2 (device_link device) start_time); [vm_compute; discriminate| |vm_compute; reflexivity].
  repeat split; vm_compute; discriminate.
Qed.
(** Its attempt reported sent. *)
Definition first_exchange : ExchangeId := exchange_id_new 0 1.
Definition sent_node : Node := node_call (P := unit) device_node (CSent first_exchange start_time).
Lemma sent_reachable : node_reachable (P := unit) 2 sent_node.
Proof. apply reach_call; [exact device_reachable|exact I]. Qed.
Lemma response_unambiguous_witness :
  exchanges_find (nd_exchanges sent_node) (host 9) KeySuccess = Some 0%nat /\
  forall j s, xs_slots (nd_exchanges sent_node) !! j = Some s -> is_live s = true -> sl_peer s = host 9 ->
    key_fits KeySuccess (sl_operation s) = true -> j = 0%nat.
Proof.
  destruct (response_unambiguous (P := unit) 2 sent_node (host 9) KeySuccess 0 sent_reachable) as (_ & H & _).
  assert (E : exchanges_find (nd_exchanges sent_node) (host 9) KeySuccess = Some 0%nat) by (vm_compute; reflexivity).
  split; [exact E|]. intros j s Hs Hl Hp Hf. exact (H j s Hs Hl Hp Hf E).
Defined.
Lemma always_registering_witness : exists a, nd_lifecycle sent_node = Some a /\ lc_attempt a = Some start_time /\
  exists h clock, lc_run a h clock /\ clock <= nd_now sent_node.
Proof.
  destruct (always_registering (P := unit) 2 sent_node device sent_reachable) as (a & Ha & _ & _ & _ & Hr).
  - vm_compute. reflexivity.
  - exists a. split; [exact Ha|]. split; [|exact Hr]. vm_compute in Ha. injection Ha as <-. vm_compute. reflexivity.
Defined.
Lemma catch_up_ends_witness :
  let '(n', t) := advance sent_node (duration_from_secs 100) in
  t = duration_from_secs 100 /\ nd_now n' = t /\ forall d, next_deadline n' = Some d -> t < d.
Proof.
  pose proof (catch_up_ends (P := unit) 2 sent_node (duration_from_secs 100) sent_reachable) as H.
  assert (Hm : Z.max (duration_from_secs 100) (nd_now sent_node) < U64_MAX) by (vm_compute; reflexivity).
  specialize (H Hm). destruct (advance sent_node (duration_from_secs 100)) as [n' t]. destruct H as (Ht & Hn & Hd & _).
  split; [rewrite Ht; vm_compute; reflexivity|]. split; [exact Hn|exact Hd].
Defined.

(** The BBMD's success registers the device until one time-to-live after its attempt. *)
Definition success_from (peer : SocketAddrV4) : Datagram :=
  carrying (BvlcResultMsg SUCCESSFUL_COMPLETION) peer {| ad_node := true; ad_broadcast := false |}.
Example success_registers :
  let '(n, _, inbound) := node_receive sent_node (success_from (host 9)) (start_time + 10) tt in
  inbound = InMatched first_exchange (Ok (BvlcResultMsg SUCCESSFUL_COMPLETION)) true true /\
  (poll_action n).2 = ActRegistration (EvRegistered start_time (start_time + duration_from_secs 60)).
Proof. vm_compute. split; reflexivity. Qed.

(** A longer time-to-live from the same BBMD, while the first attempt's answer is under way: the answer is taken for the
    second attempt's, and the lease is counted by the longer time, so when the second attempt is lost the lease outlives the
    entry the answer was for. *)
Example lengthened_lease_outlives_entry :
  let later := start_time + NANOS_PER_SEC in
  let n := (retarget sent_node (foreign_new (host 9) 3600) later).1 in
  let n := (exchange_sent n (exchange_id_new 0 2) later).1 in
  let '(n, _, _) := node_receive n (success_from (host 9)) (later + 10) tt in
  let entry := {| rg_address := host 1; rg_ttl := 60; rg_at := start_time |} in
  option_map (fun a => option_map le_until (lc_lease a)) (nd_lifecycle n)
    = Some (Some (start_time + duration_from_secs 3600)) /\
  is_expired_at entry (start_time + duration_from_secs 100) = true.
Proof. vm_compute. split; reflexivity. Qed.

(** With a response timeout of a microsecond an unanswered attempt is followed by another two microseconds after it started,
    well within [MIN_RENEWAL]. *)
Example short_timeout_retries_at_once :
  let f := device <| fr_response_timeout := 1000 |> in
  let n := (advance (node_start 2 (device_link f) 0) 0).1 in
  let n := (poll_action (exchange_sent n first_exchange 0).1).1 in
  let n := on_deadline (on_deadline n 1000) 2000 in
  let n := (poll_action n).1 in
  (poll_action n).2 = ActRegister (exchange_id_new 0 2) (host 9) 60 /\ 2000 < MIN_RENEWAL.
Proof. vm_compute. split; reflexivity. Qed.
