(* ===== verification/Arrays.v ===== *)
(** * Fixed arrays kept in order (crate bacnet-router-core, lib.rs, and the array code of table.rs,
    table/holds.rs and discovery.rs)

    The routing table, its hold-down records and the searches keep their rows at the front of a fixed
    array, and move them one swap at a time: an insertion sifts the new row down from the end, a
    removal sifts the removed one up, and a sweep swaps each kept row forward. Sorted ones are read by
    the standard library's binary search. *)

From stdpp Require Export gmap.
From Stdlib Require Import Sorting.Sorted.
From S2P Require Import Prelude.
Open Scope Z_scope.

Section Swaps.
Context {T : Type}.
Implicit Types (l : list T) (x y : T).

(** What a release build does; the debug assertion holds at every call below, whose indices are in
    order and in range.
    [swap_apart] (bacnet-router-core/src/lib.rs) *)
Definition swap_apart l (low high : nat) : list T :=
  if bool_decide (low < high)%nat then
    match l !! low, l !! high with
    | Some first, Some second => <[low := second]> (<[high := first]> l)
    | _, _ => l
    end
  else l.

(** [for at in (index..len).rev() { swap_apart(slots, at, at + 1) }], over [n = len - index] places.
    [Table::put] (bacnet-router-core/src/table.rs:465-471) *)
Fixpoint sift_down (n index : nat) l : list T :=
  match n with O => l | S n => sift_down n index (swap_apart l (index + n) (index + n + 1)) end.
(** [for at in index + 1..len { swap_apart(slots, at - 1, at) }], over [n] places from [at].
    [Table::remove] (bacnet-router-core/src/table.rs:491-495) *)
Fixpoint sift_up (n at_ : nat) l : list T :=
  match n with O => l | S n => sift_up n (S at_) (swap_apart l (at_ - 1) at_) end.
(** The sweep: each row not dropped is swapped forward; [on_drop] is what is done for a dropped one.
    [Holds::forget] (bacnet-router-core/src/table/holds.rs:123-129) *)
Fixpoint compact_loop {A} (dropped : T -> bool) (on_drop : T -> A -> A) (n index kept : nat) l (a : A) : list T * nat * A :=
  match n with
  | O => (l, kept, a)
  | S n =>
      match l !! index with
      | Some x => if dropped x then compact_loop dropped on_drop n (S index) kept l (on_drop x a)
                  else compact_loop dropped on_drop n (S index) (S kept) (swap_apart l kept index) a
      | None => (l, kept, a)
      end
  end.
(** [slice[from..to].fill(value)] *)
Definition fill (from to : nat) (value : T) l : list T :=
  take from l ++ replicate (to - from) value ++ drop to l.

(** ** What the loops do *)

Lemma swap_apart_length l low high : length (swap_apart l low high) = length l.
Proof. unfold swap_apart. case_bool_decide; [|done]. destruct (l !! low), (l !! high); rewrite ?length_insert; done. Qed.
Lemma swap_apart_same l i : swap_apart l i i = l.
Proof. unfold swap_apart. rewrite bool_decide_eq_false_2 by lia. done. Qed.
Lemma swap_apart_middle p x m y s :
  swap_apart (p ++ x :: m ++ y :: s) (length p) (length p + S (length m)) = p ++ y :: m ++ x :: s.
Proof.
  unfold swap_apart. rewrite bool_decide_eq_true_2 by lia. rewrite list_lookup_middle by done.
  rewrite lookup_app_r by lia. replace (length p + S (length m) - length p)%nat with (S (length m)) by lia.
  change ((x :: m ++ y :: s) !! S (length m)) with ((m ++ y :: s) !! length m). rewrite list_lookup_middle by done.
  rewrite insert_app_r. change (<[S (length m):=x]> (x :: m ++ y :: s)) with (x :: <[length m:=x]> (m ++ y :: s)).
  rewrite <-(Nat.add_0_r (length p)), insert_app_r. cbn [insert list_insert].
  rewrite <-(Nat.add_0_r (length m)), insert_app_r. done.
Qed.
Lemma swap_adjacent p x y s : swap_apart (p ++ x :: y :: s) (length p) (length p + 1) = p ++ y :: x :: s.
Proof. apply (swap_apart_middle p x [] y s). Qed.
(** The row at the end of [m] goes to its front. *)
Lemma sift_down_spec p m x s : sift_down (length m) (length p) (p ++ m ++ x :: s) = p ++ x :: m ++ s.
Proof.
  revert s. induction m as [|y m IH] using rev_ind; intros s; [done|].
  rewrite length_app. cbn [length]. rewrite Nat.add_1_r. cbn [sift_down].
  replace (p ++ (m ++ [y]) ++ x :: s) with ((p ++ m) ++ y :: x :: s) by (by rewrite <-!(assoc_L (++))).
  rewrite <-length_app, swap_adjacent, <-(assoc_L (++)), IH, <-(assoc_L (++)). done.
Qed.
(** The row at the front goes to the end of [m]. *)
Lemma sift_up_spec m : forall p x s, sift_up (length m) (length p + 1) (p ++ x :: m ++ s) = p ++ m ++ x :: s.
Proof.
  induction m as [|y m IH]; intros p x s; [done|]. cbn [length sift_up app].
  rewrite Nat.add_sub, swap_adjacent. specialize (IH (p ++ [y]) x s). rewrite length_app in IH. cbn [length] in IH.
  rewrite <-!(assoc_L (++)) in IH. cbn [app] in IH. replace (S (length p + 1)) with (length p + 1 + 1)%nat by lia. exact IH.
Qed.
Lemma fill_length from to v l : (from <= to)%nat -> (to <= length l)%nat -> length (fill from to v l) = length l.
Proof. intros. unfold fill. rewrite !length_app, length_take, length_replicate, length_drop. lia. Qed.
Lemma fill_take from to v l : (from <= to)%nat -> (to <= length l)%nat -> take from (fill from to v l) = take from l.
Proof. intros. unfold fill. rewrite take_app_length' by (rewrite length_take; lia). done. Qed.

(** The sweep keeps the rows not dropped, in order, and visits the dropped ones in order. *)
Lemma swap_compact_loop_spec {A} dropped (on_drop : T -> A -> A) rest : forall kept gone s a,
  let '(l', kept', a') := compact_loop dropped on_drop (length rest) (length kept + length gone) (length kept)
                            (kept ++ gone ++ rest ++ s) a in
  exists junk, l' = kept ++ List.filter (fun x => negb (dropped x)) rest ++ junk ++ s /\
    kept' = (length kept + length (List.filter (fun x => negb (dropped x)) rest))%nat /\
    (length junk + length (List.filter (fun x => negb (dropped x)) rest) = length gone + length rest)%nat /\
    a' = fold_left (fun a x => on_drop x a) (List.filter dropped rest) a.
Proof.
  induction rest as [|x rest IH]; intros kept gone s a; cbn [compact_loop length List.filter fold_left app].
  { exists gone. split_and!; try done; lia. }
  assert (Hx : (kept ++ gone ++ x :: rest ++ s) !! (length kept + length gone)%nat = Some x).
  { rewrite (assoc_L (++)), <-length_app. by apply list_lookup_middle. }
  rewrite Hx. destruct (dropped x); cbn [negb length fold_left app].
  - specialize (IH kept (gone ++ [x]) s (on_drop x a)). rewrite length_app in IH. cbn [length] in IH.
    rewrite <-!(assoc_L (++)) in IH. cbn [app] in IH.
    replace (length kept + (length gone + 1))%nat with (S (length kept + length gone)) in IH by lia.
    destruct (compact_loop _ _ _ _ _ _ _) as [[l' kept'] a']. destruct IH as (junk & E1 & E2 & E3 & E4).
    exists junk. split_and!; try done. lia.
  - assert (exists gone', swap_apart (kept ++ gone ++ x :: rest ++ s) (length kept) (length kept + length gone) =
      (kept ++ [x]) ++ gone' ++ rest ++ s /\ length gone' = length gone) as (gone' & Es & El).
    { destruct gone as [|g gone].
      - exists []. rewrite Nat.add_0_r, swap_apart_same, <-(assoc_L (++)). done.
      - exists (gone ++ [g]). cbn [app length]. rewrite swap_apart_middle, <-!(assoc_L (++)), length_app. cbn. split; [done|lia]. }
    rewrite Es. specialize (IH (kept ++ [x]) gone' s a). rewrite length_app in IH. cbn [length] in IH. rewrite El in IH.
    replace (length kept + 1 + length gone)%nat with (S (length kept + length gone)) in IH by lia.
    replace (length kept + 1)%nat with (S (length kept)) in IH by lia.
    destruct (compact_loop _ _ _ _ _ _ _) as [[l' kept'] a']. destruct IH as (junk & E1 & E2 & E3 & E4).
    exists junk. rewrite E1, <-!(assoc_L (++)). split_and!; try done; lia.
Qed.
(** The same, from the front of an array whose first [n] rows are in use. *)
Lemma swap_compact_spec {A} dropped (on_drop : T -> A -> A) n l a : (n <= length l)%nat ->
  let keeps := List.filter (fun x => negb (dropped x)) (take n l) in
  let '(l', kept, a') := compact_loop dropped on_drop n 0 0 l a in
  take kept l' = keeps /\ kept = length keeps /\ (kept <= n)%nat /\ length l' = length l /\
  a' = fold_left (fun a x => on_drop x a) (List.filter dropped (take n l)) a.
Proof.
  intros Hn. cbv zeta. pose proof (swap_compact_loop_spec dropped on_drop (take n l) [] [] (drop n l) a) as H.
  cbn [length app Nat.add] in H. rewrite take_drop, length_take_le in H by done.
  destruct (compact_loop _ _ _ _ _ _ _) as [[l' kept] a']. destruct H as (junk & -> & -> & El & ->).
  set (keeps := List.filter _ (take n l)) in *. split_and!; [by rewrite take_app_length|done|lia| |done].
  rewrite !length_app, length_drop. lia.
Qed.
End Swaps.

(** ** Rows sorted by a key *)

Section Keyed.
Context {T : Type} (key : T -> Z).
Implicit Types (l : list T).

(** The loop of [slice::binary_search_by_key]: [size] rows from [base] are left. *)
Fixpoint search_loop (fuel : nat) l (k : Z) (base size : nat) : nat :=
  match fuel with
  | O => base
  | S fuel =>
      if bool_decide (1 < size)%nat then
        let half := (size / 2)%nat in
        let mid := (base + half)%nat in
        let base := match l !! mid with Some x => if k <? key x then base else mid | None => base end in
        search_loop fuel l k base (size - half)
      else base
  end.
(** [slice::binary_search_by_key]: the index of the row with the key, or where it would go. *)
Definition binary_search l (k : Z) : Result nat nat :=
  match l with
  | [] => Err 0%nat
  | _ =>
      let base := search_loop (length l) l k 0 (length l) in
      match l !! base with
      | Some x => if key x =? k then Ok base else if key x <? k then Err (S base) else Err base
      | None => Err base
      end
  end.
Definition sorted l : Prop := StronglySorted (fun x y => key x < key y) l.

Lemma sorted_app l1 l2 : sorted (l1 ++ l2) <->
  sorted l1 /\ sorted l2 /\ (forall x y, x ∈ l1 -> y ∈ l2 -> key x < key y).
Proof.
  unfold sorted. induction l1 as [|a l1 IH]; cbn [app].
  { split; [intros H; split_and!; [constructor|done|by intros x y ?%not_elem_of_nil]|by intros (_ & ? & _)]. }
  split.
  - intros H. apply StronglySorted_inv in H as [H Ha]. apply IH in H as (H1 & H2 & H12).
    apply Forall_app in Ha as [Ha1 Ha2]. rewrite Forall_forall in Ha2.
    split_and!; [by constructor|done|]. intros x y [->|Hx]%elem_of_cons Hy; [by apply Ha2|by apply H12].
  - intros (H1 & H2 & H12). apply StronglySorted_inv in H1 as [H1 Ha]. constructor.
    + apply IH. split_and!; [done..|]. intros x y Hx. apply H12. by apply elem_of_cons; right.
    + apply Forall_app. split; [done|]. apply Forall_forall. intros y. apply H12. apply elem_of_cons. by left.
Qed.
Lemma sorted_lookup l i j x y : sorted l -> l !! i = Some x -> l !! j = Some y -> (i < j)%nat -> key x < key y.
Proof.
  intros Hs Hx Hy Hij. rewrite <-(take_drop j l) in Hs. apply sorted_app in Hs as (_ & _ & H). apply H.
  - apply elem_of_take. by exists i.
  - apply (list_elem_of_lookup_2 _ 0). by rewrite lookup_drop, Nat.add_0_r.
Qed.
Lemma sorted_unique l i j x y : sorted l -> l !! i = Some x -> l !! j = Some y -> key x = key y -> i = j.
Proof.
  intros Hs Hx Hy E. destruct (Nat.lt_total i j) as [H|[->|H]]; [|done|].
  - pose proof (sorted_lookup _ _ _ _ _ Hs Hx Hy H). lia.
  - pose proof (sorted_lookup _ _ _ _ _ Hs Hy Hx H). lia.
Qed.
(** The loop's invariant: every row from [base + size] on is above the key, and unless [base] is still
    the start, the row at [base] is not. *)
Lemma search_loop_spec l k : sorted l -> forall fuel base size, (size <= S fuel)%nat -> (0 < size)%nat ->
  (base + size <= length l)%nat ->
  (forall j x, l !! j = Some x -> (base + size <= j)%nat -> k < key x) ->
  (forall j x, l !! j = Some x -> (j < base)%nat -> key x < k) ->
  let b := search_loop fuel l k base size in
  (b < length l)%nat /\ (forall j x, l !! j = Some x -> (b < j)%nat -> k < key x) /\
  (forall j x, l !! j = Some x -> (j < b)%nat -> key x < k).
Proof.
  intros Hs. induction fuel as [|fuel IH]; intros base size Hf Hpos Hlen Hhi Hlo; cbn [search_loop].
  { split_and!; [lia| |done]. intros j x Hj Hb. apply (Hhi j); [done|lia]. }
  case_bool_decide as H1; [|split_and!; [lia| |done]; intros j x Hj Hb; apply (Hhi j); [done|lia]].
  assert (Hh : (0 < size / 2 < size)%nat) by (split; [apply Nat.div_str_pos; lia|apply Nat.div_lt; lia]).
  assert (Hh2 : (size / 2 <= size - size / 2)%nat) by (pose proof (Nat.div_mod_eq size 2); lia).
  destruct (lookup_lt_is_Some_2 l (base + size / 2)%nat) as [x Hx]; [lia|]. rewrite Hx.
  destruct (Z.ltb_spec k (key x)) as [Hk|Hk]; apply IH; try lia; try done.
  - intros j y Hj Hle. destruct (decide (j = base + size / 2)%nat) as [->|Hne]; [congruence|].
    pose proof (sorted_lookup _ _ _ _ _ Hs Hx Hj). lia.
  - intros j y Hj Hle. apply (Hhi j); [done|lia].
  - intros j y Hj Hlt. pose proof (sorted_lookup _ _ _ _ _ Hs Hj Hx). lia.
Qed.
(** On sorted rows, the search finds the row with the key, or splits the rows around the place it has. *)
Lemma binary_search_spec l k : sorted l ->
  match binary_search l k with
  | Ok i => exists x, l !! i = Some x /\ key x = k
  | Err i => (i <= length l)%nat /\ (forall x, x ∈ take i l -> key x < k) /\ (forall x, x ∈ drop i l -> k < key x)
  end.
Proof.
  intros Hs. unfold binary_search. destruct l as [|a l'].
  { cbn. split_and!; [lia|..]; intros x; by rewrite ?take_nil, ?drop_nil; intros ?%not_elem_of_nil. }
  set (l := a :: l') in *.
  destruct (search_loop_spec l k Hs (length l) 0 (length l)) as (Hb & Hhi & Hlo); [lia|cbn; lia|done|..].
  { intros j x Hj%lookup_lt_Some. lia. }
  { lia. }
  set (b := search_loop _ _ _ _ _) in *. destruct (lookup_lt_is_Some_2 l b Hb) as [x Hx]. rewrite Hx.
  destruct (Z.eqb_spec (key x) k); [by exists x|].
  assert (Hsplit : forall i, (i = b /\ k < key x \/ i = S b /\ key x < k) ->
    (i <= length l)%nat /\ (forall x, x ∈ take i l -> key x < k) /\ (forall x, x ∈ drop i l -> k < key x)).
  { intros i Hi. split_and!; [lia|..].
    - intros y (j & Hj & Hlt)%elem_of_take. destruct (decide (j = b)) as [->|]; [|apply (Hlo j); [done|lia]].
      replace y with x by congruence. lia.
    - intros y (j & Hj)%list_elem_of_lookup. rewrite lookup_drop in Hj.
      destruct (decide (i + j = b)%nat) as [E|]; [|apply (Hhi (i + j)%nat); [done|lia]].
      rewrite E in Hj. replace y with x by congruence. lia. }
  destruct (Z.ltb_spec (key x) k); apply Hsplit; [right|left]; split; try done; lia.
Qed.

(** ** Sorted rows as a finite map *)

Definition keys l : list Z := key <$> l.
Definition as_map l : gmap Z T := list_to_map ((fun x => (key x, x)) <$> l).
Lemma keyed_keys l : ((fun x => (key x, x)) <$> l).*1 = keys l.
Proof. induction l as [|x l IH]; [done|]. cbn. by rewrite IH. Qed.
Lemma sorted_nodup l : sorted l -> NoDup (keys l).
Proof.
  induction l as [|x l IH]; intros Hs; [constructor|]. apply StronglySorted_inv in Hs as [Hs Hx]. cbn.
  constructor; [|by apply IH]. intros (y & E & Hy)%list_elem_of_fmap. rewrite Forall_forall in Hx. apply Hx in Hy. lia.
Qed.
Lemma as_map_lookup l k x : sorted l -> as_map l !! k = Some x <-> x ∈ l /\ key x = k.
Proof.
  intros Hs%sorted_nodup. unfold as_map. rewrite <-elem_of_list_to_map by (by rewrite keyed_keys).
  rewrite list_elem_of_fmap. naive_solver.
Qed.
Lemma as_map_none l k : as_map l !! k = None <-> k ∉ keys l.
Proof. unfold as_map. by rewrite <-not_elem_of_list_to_map, keyed_keys. Qed.
Lemma as_map_size l : sorted l -> size (as_map l) = length l.
Proof.
  intros Hs%sorted_nodup. unfold as_map. rewrite map_size_list_to_map by (by rewrite keyed_keys). apply length_fmap.
Qed.
Lemma as_map_ext l m : sorted l -> (forall k x, m !! k = Some x <-> x ∈ l /\ key x = k) -> as_map l = m.
Proof. intros Hs Hm. apply map_eq. intros k. apply option_eq. intros x. by rewrite as_map_lookup, Hm. Qed.
Lemma binary_search_map l k : sorted l ->
  match binary_search l k with
  | Ok i => exists x, l !! i = Some x /\ key x = k /\ as_map l !! k = Some x
  | Err i => (i <= length l)%nat /\ as_map l !! k = None /\ (forall x, x ∈ take i l -> key x < k) /\
      (forall x, x ∈ drop i l -> k < key x)
  end.
Proof.
  intros Hs. pose proof (binary_search_spec l k Hs) as H. destruct (binary_search l k) as [i|i].
  - destruct H as (x & Hx & E). exists x. rewrite as_map_lookup by done. split_and!; try done. by eapply list_elem_of_lookup_2.
  - destruct H as (Hi & Hlo & Hhi). split_and!; try done. apply as_map_none. intros (x & -> & Hx)%list_elem_of_fmap.
    rewrite <-(take_drop i l), elem_of_app in Hx. destruct Hx as [Hx|Hx]; [apply Hlo in Hx|apply Hhi in Hx]; lia.
Qed.
Lemma sorted_insert_at l i x : sorted l -> (forall y, y ∈ take i l -> key y < key x) ->
  (forall y, y ∈ drop i l -> key x < key y) ->
  sorted (take i l ++ x :: drop i l) /\ as_map (take i l ++ x :: drop i l) = <[key x := x]> (as_map l).
Proof.
  intros Hs Hlo Hhi. assert (Hs' : sorted (take i l ++ x :: drop i l)).
  { pose proof Hs as H. rewrite <-(take_drop i l) in H. apply sorted_app in H as (H1 & H2 & H12). apply sorted_app.
    split_and!; [done| |].
    - constructor; [done|]. by apply Forall_forall.
    - intros y z Hy [->|Hz]%elem_of_cons; [by apply Hlo|by apply H12]. }
  split; [done|]. apply as_map_ext; [done|]. intros k y. rewrite lookup_insert_Some, as_map_lookup by done.
  rewrite elem_of_app, elem_of_cons. rewrite <-(take_drop i l) at 1 2 3. rewrite elem_of_app, take_drop. split.
  - intros [[<- <-]|(Hne & Hy & <-)]; [by split; [right; left|]|]. split; [|done]. destruct Hy; [by left|by right; right].
  - intros [[Hy|[->|Hy]] <-]; [right|by left|right].
    + split; [|by split; [left|]]. apply Hlo in Hy. lia.
    + split; [|by split; [right|]]. apply Hhi in Hy. lia.
Qed.
Lemma sorted_replace_at l i x0 x : sorted l -> l !! i = Some x0 -> key x0 = key x ->
  sorted (<[i := x]> l) /\ as_map (<[i := x]> l) = <[key x := x]> (as_map l).
Proof.
  intros Hs Hi E. pose proof (lookup_lt_Some _ _ _ Hi) as Hl.
  assert (Hk : keys (<[i := x]> l) = keys l).
  { unfold keys. rewrite list_fmap_insert, <-E. apply list_insert_id. by rewrite list_lookup_fmap, Hi. }
  assert (Hs' : sorted (<[i := x]> l)).
  { pose proof Hs as H. rewrite <-(take_drop_middle l i x0 Hi) in H. apply sorted_app in H as (H1 & H2 & H12).
    apply StronglySorted_inv in H2 as [H2 H2x]. rewrite insert_take_drop by done. apply sorted_app. split_and!; [done| |].
    - constructor; [done|]. eapply Forall_impl; [exact H2x|]. cbn. intros y. by rewrite E.
    - intros y z Hy [->|Hz]%elem_of_cons; [rewrite <-E|]; apply H12; try done; apply elem_of_cons; [by left|by right]. }
  split; [done|]. apply as_map_ext; [done|]. intros k y. rewrite lookup_insert_Some, as_map_lookup by done. split.
  - intros [[<- <-]|(Hne & Hy & <-)].
    + split; [|done]. apply (list_elem_of_lookup_2 _ i). by apply list_lookup_insert_eq.
    + split; [|done]. apply list_elem_of_lookup in Hy as [j Hj]. apply (list_elem_of_lookup_2 _ j).
      rewrite list_lookup_insert_ne; [done|]. intros ->. rewrite Hi in Hj. congruence.
  - intros [(j & Hj)%list_elem_of_lookup <-]. apply list_lookup_insert_Some in Hj as [(-> & <- & _)|[Hne Hj]]; [by left|].
    right. split; [|split; [by eapply list_elem_of_lookup_2|done]]. intros Heq. apply Hne.
    eapply (sorted_unique l); [done..|]. congruence.
Qed.
Lemma sorted_delete_at l i x : sorted l -> l !! i = Some x ->
  sorted (take i l ++ drop (S i) l) /\ as_map (take i l ++ drop (S i) l) = delete (key x) (as_map l).
Proof.
  intros Hs Hi. pose proof Hs as H. rewrite <-(take_drop_middle l i x Hi) in H. apply sorted_app in H as (H1 & H2 & H12).
  apply StronglySorted_inv in H2 as [H2 H2x]. rewrite Forall_forall in H2x.
  assert (Hs' : sorted (take i l ++ drop (S i) l)).
  { apply sorted_app. split_and!; try done. intros y z Hy Hz. apply H12; [done|]. apply elem_of_cons. by right. }
  split; [done|]. apply as_map_ext; [done|]. intros k y. rewrite lookup_delete_Some, as_map_lookup by done.
  rewrite <-(take_drop_middle l i x Hi) at 1. rewrite !elem_of_app, elem_of_cons. split.
  - intros (Hne & [Hy|[->|Hy]] & <-); try done; (split; [|done]); [by left|by right].
  - intros [[Hy|Hy] <-]; (split; [|split; [|done]]).
    + pose proof (H12 y x Hy (list_elem_of_here _ _)). lia.
    + by left.
    + apply H2x in Hy. lia.
    + by right; right.
Qed.
Lemma sorted_filter p l : sorted l ->
  sorted (List.filter p l) /\ as_map (List.filter p l) = filter (fun kx => p kx.2 = true) (as_map l).
Proof.
  intros Hs. assert (Hs' : sorted (List.filter p l)).
  { clear -Hs. induction l as [|x l IH]; [done|]. apply StronglySorted_inv in Hs as [Hs Hx]. cbn.
    destruct (p x); [|by apply IH]. constructor; [by apply IH|]. rewrite Forall_forall in *. intros y Hy. apply Hx.
    by apply list_elem_of_In, filter_In in Hy as [Hy%list_elem_of_In _]. }
  split; [done|]. apply as_map_ext; [done|]. intros k x.
  rewrite map_lookup_filter_Some, as_map_lookup by done. rewrite !list_elem_of_In, filter_In. cbn. naive_solver.
Qed.
Lemma sorted_fmap g l : (forall x, key (g x) = key x) -> sorted l ->
  sorted (g <$> l) /\ as_map (g <$> l) = g <$> as_map l.
Proof.
  intros Hg Hs. assert (Hs' : sorted (g <$> l)).
  { clear -Hs Hg. induction l as [|x l IH]; [done|]. apply StronglySorted_inv in Hs as [Hs Hx]. cbn.
    constructor; [by apply IH|]. apply Forall_fmap. eapply Forall_impl; [exact Hx|]. intros y. cbn. by rewrite !Hg. }
  split; [done|]. apply as_map_ext; [done|]. intros k x. rewrite lookup_fmap_Some. split.
  - intros (y & <- & Hy). apply as_map_lookup in Hy as [Hy <-]; [|done]. split; [by apply list_elem_of_fmap_2|by rewrite Hg].
  - intros [(y & -> & Hy)%list_elem_of_fmap <-]. exists y. rewrite as_map_lookup by done. by rewrite Hg.
Qed.
End Keyed.
