(* ===== verification/RouteTable.v ===== *)
(** * The routing table (crate bacnet-router-core, table.rs, table/claims.rs and table/holds.rs)

    The routes a router knows, one per network, in a fixed array sorted by network number and read by
    binary search, with the hardened-mode claims that wait for a second one and the hold-down records
    of rejects. What the array promises is a finite map from networks to rows; the operations refine the
    map's. *)

From S2P Require Import Prelude Time Npdu Arrays.
Open Scope Z_scope.

(** ** Routes (table.rs) *)

(** [PortId] (bacnet-router-core/src/lib.rs) *)
Definition PortId := Z.
(** [PortId::wire_id] (bacnet-router-core/src/lib.rs) *)
Definition wire_id (port : PortId) : option Z := chk_add U8_MAX port 1.
(** [PortId::from_wire_id] (bacnet-router-core/src/lib.rs) *)
Definition from_wire_id (id : Z) (port_count : nat) : option PortId :=
  match chk_sub id 1 with
  | Some index => if bool_decide (Z.to_nat index < port_count)%nat then Some index else None
  | None => None
  end.
(** [Reachability] (bacnet-router-core/src/table.rs) *)
Inductive Reachability := Reachable | Busy | Unreachable.
#[global] Instance Reachability_eq_dec : EqDecision Reachability.
Proof. solve_decision. Defined.
(** [Convergence] (bacnet-router-core/src/table.rs) *)
Inductive Convergence := Standard | Hardened.
#[global] Instance Convergence_eq_dec : EqDecision Convergence.
Proof. solve_decision. Defined.
(** [Route] (bacnet-router-core/src/table.rs) *)
Record Route := {
  rt_port : PortId; rt_direct : bool; rt_next_hop : Mac; rt_last_seen : option Instant; rt_last_used : option Instant;
  rt_reachability : Reachability; rt_busy_until : option Instant; rt_flap_count : Z; rt_last_port_change : option Instant
}.
#[export] Instance eta_Route : Settable Route := fun r =>
  {| rt_port := rt_port r; rt_direct := rt_direct r; rt_next_hop := rt_next_hop r; rt_last_seen := rt_last_seen r;
     rt_last_used := rt_last_used r; rt_reachability := rt_reachability r; rt_busy_until := rt_busy_until r;
     rt_flap_count := rt_flap_count r; rt_last_port_change := rt_last_port_change r |}.
(** [Route::ZERO] (bacnet-router-core/src/table.rs) *)
Definition ROUTE_ZERO : Route :=
  {| rt_port := 0; rt_direct := false; rt_next_hop := MAC_EMPTY; rt_last_seen := None; rt_last_used := None;
     rt_reachability := Reachable; rt_busy_until := None; rt_flap_count := 0; rt_last_port_change := None |}.
(** [Route::direct] (bacnet-router-core/src/table.rs) *)
Definition route_direct (port : PortId) : Route := ROUTE_ZERO <| rt_port := port |> <| rt_direct := true |>.
(** [Route::learned] (bacnet-router-core/src/table.rs) *)
Definition route_learned (port : PortId) (next_hop : Mac) (now : Instant) : Route :=
  ROUTE_ZERO <| rt_port := port |> <| rt_next_hop := next_hop |> <| rt_last_seen := Some now |>.
(** [Route::served_via] (bacnet-router-core/src/table.rs) *)
Definition served_via (r : Route) (port : PortId) (peer : bytes) : bool :=
  negb (rt_direct r) && (rt_port r =? port) && bool_decide (mac_as_slice (rt_next_hop r) = peer).
(** [busy] (bacnet-router-core/src/table.rs) *)
Definition busy (r : Route) (deadline : Instant) : Route * bool :=
  if negb (rt_direct r) && negb (bool_decide (rt_reachability r = Unreachable))
  then (r <| rt_reachability := Busy |> <| rt_busy_until := Some deadline |>, true)
  else (r, false).
(** [available] (bacnet-router-core/src/table.rs) *)
Definition available (r : Route) : Route :=
  if negb (rt_direct r) then r <| rt_reachability := Reachable |> <| rt_busy_until := None |> else r.

(** [Pending] (bacnet-router-core/src/table.rs) *)
Record Pending := { pn_port : PortId; pn_first_seen : Instant }.
(** [ClaimCounters] (bacnet-router-core/src/table.rs) *)
Record ClaimCounters := {
  reject_applied : Z; reject_dampened : Z; reject_dampened_same_state : Z; reject_dampened_hold_down : Z;
  reject_kept : Z; learned_ok : Z; learned_cap_ignored : Z; flap_warned : Z; pending_started : Z;
  corroborated_applied : Z; pending_expired : Z; disconnect_removal_ignored : Z; hold_evicted : Z
}.
#[export] Instance eta_ClaimCounters : Settable ClaimCounters := fun c =>
  {| reject_applied := reject_applied c; reject_dampened := reject_dampened c;
     reject_dampened_same_state := reject_dampened_same_state c; reject_dampened_hold_down := reject_dampened_hold_down c;
     reject_kept := reject_kept c; learned_ok := learned_ok c; learned_cap_ignored := learned_cap_ignored c;
     flap_warned := flap_warned c; pending_started := pending_started c; corroborated_applied := corroborated_applied c;
     pending_expired := pending_expired c; disconnect_removal_ignored := disconnect_removal_ignored c;
     hold_evicted := hold_evicted c |}.
Definition NO_CLAIMS : ClaimCounters :=
  {| reject_applied := 0; reject_dampened := 0; reject_dampened_same_state := 0; reject_dampened_hold_down := 0;
     reject_kept := 0; learned_ok := 0; learned_cap_ignored := 0; flap_warned := 0; pending_started := 0;
     corroborated_applied := 0; pending_expired := 0; disconnect_removal_ignored := 0; hold_evicted := 0 |}.
(** [saturating_add(1)] on a [u64] count. *)
Definition inc (n : Z) : Z := sat_add U64_MAX n 1.
(** [Timing] (bacnet-router-core/src/table.rs) *)
Record Timing := { busy_for : Duration; hold_down : Duration; corroboration : Duration }.
(** [Timing::DEFAULT] (bacnet-router-core/src/table.rs) *)
Definition DEFAULT_TIMING : Timing :=
  {| busy_for := duration_from_secs 30; hold_down := duration_from_secs 30; corroboration := duration_from_secs 60 |}.
(** [Slot] (bacnet-router-core/src/table.rs) *)
Record RouteSlot := { sl_network : Z; sl_route : Route; sl_pending : option Pending }.
#[export] Instance eta_RouteSlot : Settable RouteSlot := fun s =>
  {| sl_network := sl_network s; sl_route := sl_route s; sl_pending := sl_pending s |}.
(** [VACANT] (bacnet-router-core/src/table.rs) *)
Definition VACANT : RouteSlot := {| sl_network := 0; sl_route := ROUTE_ZERO; sl_pending := None |}.
(** [is_reserved] (bacnet-router-core/src/table.rs) *)
Definition is_reserved (network : Z) : bool := (network =? 0) || (network =? 65535).

(** ** Hold-down records (table/holds.rs) *)

(** [Hold] (bacnet-router-core/src/table/holds.rs) *)
Record Hold := { ho_network : Z; ho_port : PortId; ho_since : Instant }.
(** [NO_HOLD] (bacnet-router-core/src/table/holds.rs) *)
Definition NO_HOLD : Hold := {| ho_network := 0; ho_port := 0; ho_since := INSTANT_ZERO |}.
(** [Holds] (bacnet-router-core/src/table/holds.rs) *)
Record Holds := { ho_records : list Hold; ho_len : nat }.
(** [Holds::new] (bacnet-router-core/src/table/holds.rs) *)
Definition holds_new (H : nat) : Holds := {| ho_records := replicate H NO_HOLD; ho_len := 0 |}.
(** [Holds::stored] (bacnet-router-core/src/table/holds.rs) *)
Definition holds_stored (h : Holds) : list Hold := take (ho_len h) (ho_records h).
Definition hold_for (network : Z) (port : PortId) (h : Hold) : bool := (ho_network h =? network) && (ho_port h =? port).
(** [Holds::since] (bacnet-router-core/src/table/holds.rs) *)
Definition holds_since (h : Holds) (network : Z) (port : PortId) : option Instant :=
  ho_since <$> List.find (hold_for network port) (holds_stored h).
(** [iter_mut().min_by_key(..)]: the index of the first record with the least [since]. *)
Fixpoint oldest_from (l : list Hold) (index best : nat) (since : Instant) : nat :=
  match l with
  | [] => best
  | h :: l => if ho_since h <? since then oldest_from l (S index) index (ho_since h) else oldest_from l (S index) best since
  end.
Definition oldest (l : list Hold) : option nat :=
  match l with [] => None | h :: l => Some (oldest_from l 1 0 (ho_since h)) end.
(** [Holds::record] (bacnet-router-core/src/table/holds.rs) *)
Definition holds_record (h : Holds) (network : Z) (port : PortId) (now : Instant) : Holds * bool :=
  let hold := {| ho_network := network; ho_port := port; ho_since := now |} in
  match list_find (fun x => hold_for network port x = true) (holds_stored h) with
  | Some (i, _) => ({| ho_records := <[i := hold]> (ho_records h); ho_len := ho_len h |}, false)
  | None =>
      if bool_decide (ho_len h < length (ho_records h))%nat
      then ({| ho_records := <[ho_len h := hold]> (ho_records h); ho_len := S (ho_len h) |}, false)
      else match oldest (ho_records h) with
           | Some i => ({| ho_records := <[i := hold]> (ho_records h); ho_len := ho_len h |}, true)
           | None => (h, true)
           end
  end.
(** [Holds::clear] (bacnet-router-core/src/table/holds.rs) *)
Definition holds_clear (h : Holds) : Holds :=
  {| ho_records := fill 0 (ho_len h) NO_HOLD (ho_records h); ho_len := 0 |}.
(** [Holds::forget] (bacnet-router-core/src/table/holds.rs) *)
Definition holds_forget (h : Holds) (network : Z) : Holds :=
  let '(l, kept, _) := compact_loop (fun x => ho_network x =? network) (fun _ a => a) (ho_len h) 0 0 (ho_records h) tt in
  {| ho_records := fill kept (ho_len h) NO_HOLD l; ho_len := kept |}.

(** ** The table (table.rs) *)

(** [Table] (bacnet-router-core/src/table.rs) *)
Record Table := {
  tl_slots : list RouteSlot; tl_len : nat; tl_holds : Holds; tl_counters : ClaimCounters; tl_convergence : Convergence
}.
#[export] Instance eta_Table : Settable Table := fun t =>
  {| tl_slots := tl_slots t; tl_len := tl_len t; tl_holds := tl_holds t; tl_counters := tl_counters t;
     tl_convergence := tl_convergence t |}.
Definition table_capacity (t : Table) : nat := length (tl_slots t).
(** [Table::new] (bacnet-router-core/src/table.rs) *)
Definition table_new (R H : nat) : Table :=
  {| tl_slots := replicate R VACANT; tl_len := 0; tl_holds := holds_new H; tl_counters := NO_CLAIMS;
     tl_convergence := Standard |}.
(** [Table::clear] (bacnet-router-core/src/table.rs) *)
Definition table_clear (t : Table) : Table :=
  t <| tl_slots := fill 0 (tl_len t) VACANT (tl_slots t) |> <| tl_len := 0%nat |> <| tl_holds := holds_clear (tl_holds t) |>
    <| tl_counters := NO_CLAIMS |>.
(** [Table::set_convergence] (bacnet-router-core/src/table.rs) *)
Definition set_convergence (t : Table) (c : Convergence) : Table := t <| tl_convergence := c |>.
(** [Table::stored] (bacnet-router-core/src/table.rs) *)
Definition table_stored (t : Table) : list RouteSlot := take (tl_len t) (tl_slots t).
(** [Table::find] (bacnet-router-core/src/table.rs) *)
Definition table_find (t : Table) (network : Z) : Result nat nat := binary_search sl_network (table_stored t) network.
(** A change of the slot for a network, if it is stored.
    [Table::slot_mut] (bacnet-router-core/src/table.rs) *)
Definition slot_mut (t : Table) (network : Z) (f : RouteSlot -> RouteSlot) : Table :=
  match table_find t network with
  | Ok index => t <| tl_slots ::= alter f index |>
  | Err _ => t
  end.
(** [Table::put] (bacnet-router-core/src/table.rs) *)
Definition table_put (t : Table) (network : Z) (route : Route) : Table * bool :=
  let slot := {| sl_network := network; sl_route := route; sl_pending := None |} in
  match table_find t network with
  | Ok index => (t <| tl_slots ::= <[index := slot]> |>, true)
  | Err index =>
      if bool_decide (tl_len t = table_capacity t) then (t, false) else
      (t <| tl_slots ::= fun l => sift_down (tl_len t - index) index (<[tl_len t := slot]> l) |> <| tl_len ::= S |>, true)
  end.
(** [Table::lookup] (bacnet-router-core/src/table.rs) *)
Definition table_lookup (t : Table) (network : Z) : option Route :=
  match table_find t network with Ok index => sl_route <$> tl_slots t !! index | Err _ => None end.
(** [Table::remove] (bacnet-router-core/src/table.rs) *)
Definition table_remove (t : Table) (network : Z) : Table * option Route :=
  match table_find t network with
  | Ok index =>
      let route := sl_route <$> tl_slots t !! index in
      let l := sift_up (tl_len t - (index + 1)) (index + 1) (tl_slots t) in
      let len := (tl_len t - 1)%nat in
      (t <| tl_slots := <[len := VACANT]> l |> <| tl_len := len |> <| tl_holds ::= fun h => holds_forget h network |>, route)
  | Err _ => (t, None)
  end.
(** [Table::routes] (bacnet-router-core/src/table.rs) *)
Definition table_routes (t : Table) : list (Z * Route) := map (fun s => (sl_network s, sl_route s)) (table_stored t).
(** [Table::networks] (bacnet-router-core/src/table.rs) *)
Definition table_networks (t : Table) : list Z := map sl_network (table_stored t).
(** [Table::networks_on_port] (bacnet-router-core/src/table.rs) *)
Definition networks_on_port (t : Table) (port : PortId) : list Z :=
  map fst (List.filter (fun nr => rt_port nr.2 =? port) (table_routes t)).
(** [Table::networks_not_on_port] (bacnet-router-core/src/table.rs) *)
Definition networks_not_on_port (t : Table) (port : PortId) : list Z :=
  map fst (List.filter (fun nr => negb (rt_port nr.2 =? port)) (table_routes t)).
(** [Table::add_direct] (bacnet-router-core/src/table.rs) *)
Definition add_direct (t : Table) (network : Z) (port : PortId) : Table * bool :=
  if is_reserved network then (t, false) else
  table_put (t <| tl_holds ::= fun h => holds_forget h network |>) network (route_direct port).
(** [Table::add_learned] (bacnet-router-core/src/table.rs) *)
Definition add_learned (t : Table) (network : Z) (port : PortId) (next_hop : Mac) (now : Instant) : Table * bool :=
  if is_reserved network then (t, false) else
  let install last_used :=
    table_put (t <| tl_holds ::= fun h => holds_forget h network |>) network
      ((route_learned port next_hop now) <| rt_last_used := last_used |>) in
  match table_lookup t network with
  | Some existing =>
      if rt_direct existing then (t, false) else
      install (if rt_port existing =? port then rt_last_used existing else None)
  | None => install None
  end.
(** [Table::mark_busy] (bacnet-router-core/src/table.rs) *)
Definition mark_busy (t : Table) (network : Z) (deadline : Instant) : Table :=
  slot_mut t network (fun s => s <| sl_route ::= fun r => (busy r deadline).1 |>).
(** [Table::mark_available] (bacnet-router-core/src/table.rs) *)
Definition mark_available (t : Table) (network : Z) : Table :=
  slot_mut t network (fun s => s <| sl_route ::= available |>).
Definition unreachable_route (r : Route) : Route :=
  if negb (rt_direct r) then r <| rt_reachability := Unreachable |> <| rt_busy_until := None |> else r.
(** [Table::mark_unreachable] (bacnet-router-core/src/table.rs) *)
Definition mark_unreachable (t : Table) (network : Z) : Table :=
  slot_mut t network (fun s => s <| sl_route ::= unreachable_route |>).
(** [for slot in &mut self.slots[..self.len]]: a change of every stored slot. *)
Definition over_stored (t : Table) (f : RouteSlot -> RouteSlot) : Table :=
  t <| tl_slots := (f <$> table_stored t) ++ drop (tl_len t) (tl_slots t) |>.
Definition count_stored (t : Table) (p : RouteSlot -> bool) : nat := length (List.filter p (table_stored t)).
(** [Table::mark_busy_via_peer] (bacnet-router-core/src/table.rs) *)
Definition mark_busy_via_peer (t : Table) (port : PortId) (peer : bytes) (deadline : Instant) : Table * nat :=
  (over_stored t (fun s => if served_via (sl_route s) port peer
                           then s <| sl_route ::= fun r => (busy r deadline).1 |> else s),
   count_stored t (fun s => served_via (sl_route s) port peer && (busy (sl_route s) deadline).2)).
(** [Table::mark_available_via_peer] (bacnet-router-core/src/table.rs) *)
Definition mark_available_via_peer (t : Table) (port : PortId) (peer : bytes) : Table * nat :=
  (over_stored t (fun s => if served_via (sl_route s) port peer then s <| sl_route ::= available |> else s),
   count_stored t (fun s => served_via (sl_route s) port peer)).
(** [Table::is_served_via_peer] (bacnet-router-core/src/table.rs) *)
Definition is_served_via_peer (t : Table) (network : Z) (port : PortId) (peer : bytes) : bool :=
  match table_lookup t network with Some r => served_via r port peer | None => false end.
(** [Table::routes_served_via_peer] (bacnet-router-core/src/table.rs) *)
Definition routes_served_via_peer (t : Table) (port : PortId) (peer : bytes) : list Z :=
  map fst (List.filter (fun nr => served_via nr.2 port peer) (table_routes t)).
Definition busy_lapsed (r : Route) (now : Instant) : bool :=
  match rt_busy_until r with Some deadline => deadline <=? now | None => false end.
(** [Table::clear_expired_busy] (bacnet-router-core/src/table.rs) *)
Definition clear_expired_busy (t : Table) (now : Instant) : Table * nat :=
  (over_stored t (fun s => if busy_lapsed (sl_route s) now
                           then s <| sl_route ::= fun r => r <| rt_reachability := Reachable |> <| rt_busy_until := None |> |>
                           else s),
   count_stored t (fun s => busy_lapsed (sl_route s) now)).
Definition effective (r : Route) (now : Instant) : Reachability :=
  match rt_busy_until r with
  | Some deadline => if bool_decide (rt_reachability r = Busy) && (deadline <=? now) then Reachable else rt_reachability r
  | None => rt_reachability r
  end.
(** [Table::effective_reachability] (bacnet-router-core/src/table.rs) *)
Definition effective_reachability (t : Table) (network : Z) (now : Instant) : option Reachability :=
  (fun r => effective r now) <$> table_lookup t network.
Definition touch_route (now : Instant) (r : Route) : Route :=
  if rt_direct r then r else r <| rt_last_used := Some now |>.
(** [Table::touch] (bacnet-router-core/src/table.rs) *)
Definition table_touch (t : Table) (network : Z) (now : Instant) : Table :=
  slot_mut t network (fun s => s <| sl_route ::= touch_route now |>).
Definition stale (now : Instant) (max_age : Duration) (s : RouteSlot) : bool :=
  negb (rt_direct (sl_route s)) &&
  match rt_last_seen (sl_route s) with
  | Some seen => max_age <? instant_saturating_duration_since now seen
  | None => false
  end.
(** The table, the networks [purged] is called with, in order, and the count.
    [Table::purge_stale] (bacnet-router-core/src/table.rs) *)
Definition purge_stale (t : Table) (now : Instant) (max_age : Duration) : Table * list Z * nat :=
  let purged := map sl_network (List.filter (stale now max_age) (table_stored t)) in
  let '(l, kept, h) := compact_loop (stale now max_age) (fun s h => holds_forget h (sl_network s))
                         (tl_len t) 0 0 (tl_slots t) (tl_holds t) in
  (t <| tl_slots := fill kept (tl_len t) VACANT l |> <| tl_len := kept |> <| tl_holds := h |>, purged,
   (tl_len t - kept)%nat).

(** ** Learning (table/claims.rs) *)

(** [FLAP_WINDOW] (bacnet-router-core/src/table/claims.rs:8-10) *)
Definition FLAP_WINDOW : Duration := duration_from_secs 60.
(** [FLAP_WARNING] (bacnet-router-core/src/table/claims.rs:12-13) *)
Definition FLAP_WARNING : Z := 3.
(** [LearnRefusal] (bacnet-router-core/src/table/claims.rs) *)
Inductive LearnRefusal := LearnReserved | LearnDirect | LearnFull.
(** [Learned] (bacnet-router-core/src/table/claims.rs) *)
Inductive Learned := LearnRefused (r : LearnRefusal) | Held | Applied | Moved (from : PortId) (flaps : Z).
(** [Learned::applied] (bacnet-router-core/src/table/claims.rs) *)
Definition learned_applied (l : Learned) : bool := match l with Applied | Moved _ _ => true | _ => false end.
(** [Learned::flapping] (bacnet-router-core/src/table/claims.rs) *)
Definition learned_flapping (l : Learned) : bool := match l with Moved _ flaps => FLAP_WARNING <=? flaps | _ => false end.
(** The moves within the window, this one included.
    [Table::learn] (bacnet-router-core/src/table/claims.rs:149-154) *)
Definition flaps_of (existing : Route) (now : Instant) : Z :=
  match rt_last_port_change existing with
  | Some changed => if instant_saturating_duration_since now changed <? FLAP_WINDOW
                    then sat_add U8_MAX (rt_flap_count existing) 1 else 1
  | None => 1
  end.
(** [Table::learn] (bacnet-router-core/src/table/claims.rs) *)
Definition table_learn (t : Table) (network : Z) (port : PortId) (next_hop : Mac) (now : Instant) : Table * Learned :=
  if is_reserved network then (t, LearnRefused LearnReserved) else
  let install :=
    let '(t, ok) := add_learned t network port next_hop now in
    (t, if ok then Applied else LearnRefused LearnFull) in
  match table_lookup t network with
  | Some existing =>
      if rt_direct existing then (t, LearnRefused LearnDirect) else
      if negb (rt_port existing =? port) then
        let flaps := flaps_of existing now in
        let t := if FLAP_WARNING <=? flaps then t <| tl_counters ::= over flap_warned inc |> else t in
        let route := (route_learned port next_hop now) <| rt_flap_count := flaps |> <| rt_last_port_change := Some now |> in
        let t := t <| tl_holds ::= fun h => holds_forget h network |> in
        ((table_put t network route).1, Moved (rt_port existing) flaps)
      else install
  | None => install
  end.
Definition pending_lapsed (p : option Pending) (now : Instant) (window : Duration) : bool :=
  match p with Some p => window <? instant_saturating_duration_since now (pn_first_seen p) | None => false end.
(** [Table::apply_claim] (bacnet-router-core/src/table/claims.rs) *)
Definition apply_claim (t : Table) (network : Z) (port : PortId) (next_hop : Mac) (now : Instant) (timing : Timing)
  : Table * Learned :=
  match table_find t network with
  | Err _ => table_learn t network port next_hop now
  | Ok index =>
      let slot := nth index (tl_slots t) VACANT in
      let t := t <| tl_slots ::= alter (fun s => s <| sl_pending := None |>) index |> in
      if bool_decide (tl_convergence t = Standard) then table_learn t network port next_hop now else
      let lapsed := pending_lapsed (sl_pending slot) now (corroboration timing) in
      let t := if lapsed then t <| tl_counters ::= over pending_expired inc |> else t in
      let pending := if lapsed then None else sl_pending slot in
      if negb (rt_direct (sl_route slot)) && negb (rt_port (sl_route slot) =? port) then
        if match pending with Some p => pn_port p =? port | None => false end
        then table_learn (t <| tl_counters ::= over corroborated_applied inc |>) network port next_hop now
        else (t <| tl_slots ::= alter (fun s => s <| sl_pending := Some {| pn_port := port; pn_first_seen := now |} |>) index |>
                <| tl_counters ::= over pending_started inc |>, Held)
      else table_learn t network port next_hop now
  end.
(** The table, the networks [expired] is called with, and the count.
    [Table::expire_pending] (bacnet-router-core/src/table/claims.rs) *)
Definition expire_pending (t : Table) (now : Instant) (timing : Timing) : Table * list Z * nat :=
  let old s := pending_lapsed (sl_pending s) now (corroboration timing) in
  let expired := List.filter old (table_stored t) in
  ((over_stored t (fun s => if old s then s <| sl_pending := None |> else s))
     <| tl_counters ::= over pending_expired (Nat.iter (length expired) inc) |>,
   map sl_network expired, length expired).
(** [Table::pending] (bacnet-router-core/src/table/claims.rs) *)
Definition table_pending (t : Table) (network : Z) : option Pending :=
  match table_find t network with Ok index => tl_slots t !! index ≫= sl_pending | Err _ => None end.
(** [Table::pending_count] (bacnet-router-core/src/table/claims.rs) *)
Definition pending_count (t : Table) : nat := count_stored t (fun s => is_some (sl_pending s)).
(** [Table::apply_management_update] (bacnet-router-core/src/table/claims.rs) *)
Definition apply_management_update (t : Table) (network : Z) (port : PortId) (next_hop : Mac) (now : Instant) : Table * bool :=
  add_learned t network port next_hop now.
(** [Table::apply_management_removal] (bacnet-router-core/src/table/claims.rs) *)
Definition apply_management_removal (t : Table) (network : Z) : Table * bool :=
  match table_lookup t network with
  | Some route => if negb (rt_direct route) then let '(t, r) := table_remove t network in (t, is_some r) else (t, false)
  | None => (t, false)
  end.
(** [Table::record_learned] (bacnet-router-core/src/table/claims.rs) *)
Definition record_learned (t : Table) : Table := t <| tl_counters ::= over learned_ok inc |>.
(** [Table::record_learning_cap] (bacnet-router-core/src/table/claims.rs) *)
Definition record_learning_cap (t : Table) : Table := t <| tl_counters ::= over learned_cap_ignored inc |>.
(** [Table::record_disconnect_removal_ignored] (bacnet-router-core/src/table/claims.rs) *)
Definition record_disconnect_removal_ignored (t : Table) : Table := t <| tl_counters ::= over disconnect_removal_ignored inc |>.

(** ** Rejects (table/holds.rs) *)

(** [RejectEffect] (bacnet-router-core/src/table/holds.rs) *)
Inductive RejectEffect := EffectApplied | EffectSameState | EffectHeldDown | EffectKept | EffectNotNextHop.
(** The reasons that change a route, in the open set of reject reasons. *)
Definition NOT_DIRECTLY_CONNECTED : Z := 1.
Definition ROUTER_BUSY : Z := 2.
(** Whether a reject changes a route.
    [Table::apply_reject] (bacnet-router-core/src/table/holds.rs:167-183) *)
Definition reject_changes (route : Route) (reason : Z) (now : Instant) : bool :=
  negb (rt_direct route) &&
  (if reason =? NOT_DIRECTLY_CONNECTED then negb (bool_decide (rt_reachability route = Unreachable)) else
   if reason =? ROUTER_BUSY then
     negb (bool_decide (rt_reachability route = Unreachable)) &&
     (negb (bool_decide (rt_reachability route = Busy)) || busy_lapsed route now)
   else false).
(** [Table::apply_reject] (bacnet-router-core/src/table/holds.rs) *)
Definition apply_reject (t : Table) (network : Z) (port : PortId) (reason : Z) (now : Instant) (timing : Timing)
  : Table * RejectEffect :=
  let learned := match table_lookup t network with Some r => negb (rt_direct r) | None => false end in
  let other := negb ((reason =? NOT_DIRECTLY_CONNECTED) || (reason =? ROUTER_BUSY)) in
  if learned && other then (t <| tl_counters ::= over reject_kept inc |>, EffectKept) else
  let changes := match table_lookup t network with Some r => reject_changes r reason now | None => false end in
  let held_down :=
    match holds_since (tl_holds t) network port with
    | Some since => instant_saturating_duration_since now since <? hold_down timing
    | None => false
    end in
  if negb changes || held_down then
    let t := t <| tl_counters ::= over reject_dampened inc |> in
    if changes then (t <| tl_counters ::= over reject_dampened_hold_down inc |>, EffectHeldDown)
    else (t <| tl_counters ::= over reject_dampened_same_state inc |>, EffectSameState)
  else
    let t := t <| tl_counters ::= over reject_applied inc |> in
    let t := if reason =? NOT_DIRECTLY_CONNECTED then mark_unreachable t network
             else mark_busy t network (instant_add now (busy_for timing)) in
    let '(h, evicted) := holds_record (tl_holds t) network port now in
    let t := t <| tl_holds := h |> in
    (if evicted then t <| tl_counters ::= over hold_evicted inc |> else t, EffectApplied).
