(* ===== verification/RouteTheorems.v ===== *)
(** * What the routing table promises (crate bacnet-router-core, table.rs and its parts)

    The sorted array refines a finite map of rows; its rows stay well-formed; direct routes never
    change; hardened convergence moves a route only on a second claim within the window; rejects are held
    down; and the sweep of busy marks changes no decision. *)

From stdpp Require Import sorting.
From S2P Require Import Prelude Time Npdu Arrays RouteTable.
Open Scope Z_scope.

Create HintDb routes.

(** ** The rows as a finite map *)

Definition rows (t : Table) : gmap Z RouteSlot := as_map sl_network (table_stored t).
Definition shape (t : Table) : Prop := (tl_len t <= table_capacity t)%nat /\ sorted sl_network (table_stored t).

Lemma stored_length t : shape t -> length (table_stored t) = tl_len t.
Proof. intros [H _]. unfold table_stored, table_capacity in *. rewrite length_take. lia. Qed.
Lemma rows_size t : shape t -> size (rows t) = tl_len t.
Proof. intros H. unfold rows. rewrite as_map_size by apply H. by apply stored_length. Qed.
Lemma stored_slots t i : (i < tl_len t)%nat -> table_stored t !! i = tl_slots t !! i.
Proof. intros H. unfold table_stored. by rewrite lookup_take_lt. Qed.
Lemma find_rows t n : shape t ->
  match table_find t n with
  | Ok i => exists s, tl_slots t !! i = Some s /\ (i < tl_len t)%nat /\ sl_network s = n /\ rows t !! n = Some s
  | Err i => (i <= tl_len t)%nat /\ rows t !! n = None /\ (forall x, x ∈ take i (table_stored t) -> sl_network x < n) /\
      (forall x, x ∈ drop i (table_stored t) -> n < sl_network x)
  end.
Proof.
  intros Hs. pose proof (binary_search_map sl_network (table_stored t) n (proj2 Hs)) as H.
  unfold table_find. destruct (binary_search _ _ _) as [i|i].
  - destruct H as (s & Hi & E & Hr). exists s. pose proof (lookup_lt_Some _ _ _ Hi) as Hl. rewrite stored_length in Hl by done.
    by rewrite <-stored_slots.
  - rewrite stored_length in H by done. exact H.
Qed.
Lemma lookup_rows t n : shape t -> table_lookup t n = sl_route <$> rows t !! n.
Proof.
  intros Hs. unfold table_lookup. pose proof (find_rows t n Hs) as H. destruct (table_find t n).
  - destruct H as (s & -> & _ & _ & ->). done.
  - by destruct H as (_ & -> & _).
Qed.
Lemma pending_rows t n : shape t -> table_pending t n = rows t !! n ≫= sl_pending.
Proof.
  intros Hs. unfold table_pending. pose proof (find_rows t n Hs) as H. destruct (table_find t n).
  - destruct H as (s & -> & _ & _ & ->). done.
  - by destruct H as (_ & -> & _).
Qed.
(** A table with the same slots has the same rows. *)
Definition same_slots (t t' : Table) : Prop := tl_slots t' = tl_slots t /\ tl_len t' = tl_len t.
Lemma same_slots_rows t t' : same_slots t t' -> rows t' = rows t /\ (shape t -> shape t').
Proof. intros [E1 E2]. unfold rows, shape, table_stored, table_capacity. by rewrite E1, E2. Qed.

Lemma replace_rows t i s0 s : shape t -> tl_slots t !! i = Some s0 -> (i < tl_len t)%nat -> sl_network s0 = sl_network s ->
  let t' := t <| tl_slots ::= <[i := s]> |> in
  shape t' /\ table_capacity t' = table_capacity t /\ rows t' = <[sl_network s := s]> (rows t).
Proof.
  intros Hs Hi Hl E. cbv zeta. rewrite <-stored_slots in Hi by done.
  destruct (sorted_replace_at sl_network (table_stored t) i s0 s (proj2 Hs) Hi E) as [H1 H2].
  unfold shape, rows, table_capacity, table_stored in *. cbn. rewrite length_insert, take_insert_lt by done.
  split_and!; try done. apply Hs.
Qed.
Lemma alter_insert {A} (f : A -> A) (l : list A) i x : l !! i = Some x -> alter f i l = <[i := f x]> l.
Proof.
  revert i. induction l as [|y l IH]; intros [|i] H; try done; cbn in *; [by injection H as ->|]. f_equal. by apply IH.
Qed.
Lemma slot_mut_rows t n f : shape t -> (forall s, sl_network (f s) = sl_network s) ->
  let t' := slot_mut t n f in
  shape t' /\ table_capacity t' = table_capacity t /\ rows t' = alter f n (rows t) /\ tl_holds t' = tl_holds t /\
  tl_convergence t' = tl_convergence t.
Proof.
  intros Hs Hf. unfold slot_mut. pose proof (find_rows t n Hs) as H. destruct (table_find t n) as [i|i].
  - destruct H as (s & Hi & Hl & E & Hr). cbv zeta.
    destruct (replace_rows t i s (f s) Hs Hi Hl) as (H1 & H2 & H3); [by rewrite Hf|]. cbn in *.
    assert (Ea : alter f i (tl_slots t) = <[i := f s]> (tl_slots t)) by (by apply alter_insert). unfold over. cbn. rewrite Ea.
    split_and!; try done. etransitivity; [exact H3|]. rewrite Hf, E. symmetry. apply map_eq. intros k.
    destruct (decide (k = n)) as [->|]; [by rewrite lookup_alter_eq, lookup_insert_eq, Hr|].
    by rewrite lookup_alter_ne, lookup_insert_ne.
  - destruct H as (_ & Hr & _). split_and!; try done. symmetry. apply map_eq. intros k.
    destruct (decide (k = n)) as [->|]; [by rewrite lookup_alter_eq, Hr|by rewrite lookup_alter_ne].
Qed.
Lemma over_stored_rows t f : shape t -> (forall s, sl_network (f s) = sl_network s) ->
  let t' := over_stored t f in
  shape t' /\ table_capacity t' = table_capacity t /\ rows t' = f <$> rows t /\ table_stored t' = f <$> table_stored t.
Proof.
  intros Hs Hf. cbv zeta. destruct (sorted_fmap sl_network f (table_stored t) Hf (proj2 Hs)) as [H1 H2].
  assert (E : table_stored (over_stored t f) = f <$> table_stored t).
  { unfold table_stored at 1. cbn. rewrite take_app_length'; [done|]. by rewrite length_fmap, stored_length. }
  assert (Ec : table_capacity (over_stored t f) = table_capacity t).
  { unfold table_capacity. cbn. rewrite length_app, length_fmap, length_drop, stored_length by done.
    destruct Hs as [Hl _]. unfold table_capacity in Hl. lia. }
  unfold rows, shape. rewrite E, Ec. split_and!; try done. apply Hs.
Qed.
Definition fresh_slot (n : Z) (r : Route) : RouteSlot := {| sl_network := n; sl_route := r; sl_pending := None |}.
Definition has_room (R : nat) (m : gmap Z RouteSlot) (n : Z) : bool :=
  bool_decide (is_Some (m !! n) \/ (size m < R)%nat).
Lemma put_rows t n r : shape t ->
  let '(t', ok) := table_put t n r in
  shape t' /\ table_capacity t' = table_capacity t /\ tl_holds t' = tl_holds t /\ tl_convergence t' = tl_convergence t /\
  (rows t', ok) = if has_room (table_capacity t) (rows t) n then (<[n := fresh_slot n r]> (rows t), true) else (rows t, false).
Proof.
  intros Hs. unfold table_put, has_room. pose proof (find_rows t n Hs) as H. destruct (table_find t n) as [i|i].
  - destruct H as (s & Hi & Hl & E & Hr). rewrite bool_decide_eq_true_2 by (left; by eexists).
    destruct (replace_rows t i s (fresh_slot n r) Hs Hi Hl E) as (H1 & H2 & H3). split_and!; try done. f_equal. exact H3.
  - destruct H as (Hi & Hr & Hlo & Hhi). rewrite Hr. case_bool_decide as Hfull.
    { rewrite bool_decide_eq_false_2; [done|]. rewrite rows_size by done. intros [[]%is_Some_None|]. lia. }
    pose proof Hs as [Hl Hsorted]. rewrite bool_decide_eq_true_2 by (right; rewrite rows_size by done; lia).
    destruct (sorted_insert_at sl_network (table_stored t) i (fresh_slot n r) Hsorted Hlo Hhi) as [H1 H2].
    fold (fresh_slot n r).
    assert (El : sift_down (tl_len t - i) i (<[tl_len t := fresh_slot n r]> (tl_slots t)) =
      (take i (table_stored t) ++ fresh_slot n r :: drop i (table_stored t)) ++ drop (S (tl_len t)) (tl_slots t)).
    { rewrite insert_take_drop by (unfold table_capacity in *; lia). fold (table_stored t).
      rewrite <-(take_drop i (table_stored t)) at 1. rewrite <-(assoc_L (++)).
      pose proof (sift_down_spec (take i (table_stored t)) (drop i (table_stored t)) (fresh_slot n r) (drop (S (tl_len t)) (tl_slots t))) as Hd.
      rewrite length_drop, length_take, stored_length, Nat.min_l in Hd by done.
      rewrite Hd, <-(assoc_L (++)). done. }
    set (t' := t <| tl_slots ::= _ |> <| tl_len ::= S |>).
    assert (Est : table_stored t' = take i (table_stored t) ++ fresh_slot n r :: drop i (table_stored t)).
    { unfold t', table_stored at 1. cbn [over tl_slots tl_len]. unfold over. cbn [tl_slots tl_len]. rewrite El, take_app_length'; [done|].
      rewrite length_app, length_take. cbn. rewrite length_drop, stored_length by done. lia. }
    assert (Ec : table_capacity t' = table_capacity t).
    { unfold t', table_capacity, over. cbn [tl_slots tl_len]. rewrite El, !length_app, length_take. cbn. rewrite !length_drop, stored_length by done.
      unfold table_capacity in *. lia. }
    unfold shape, rows. rewrite Est, Ec. split_and!; try done; [|by f_equal]. unfold t', over. cbn. lia.
Qed.
Lemma remove_rows t n : shape t ->
  let '(t', r) := table_remove t n in
  shape t' /\ table_capacity t' = table_capacity t /\ tl_convergence t' = tl_convergence t /\ rows t' = delete n (rows t) /\
  r = sl_route <$> rows t !! n /\
  tl_holds t' = if bool_decide (is_Some (rows t !! n)) then holds_forget (tl_holds t) n else tl_holds t.
Proof.
  intros Hs. unfold table_remove. pose proof (find_rows t n Hs) as H. destruct (table_find t n) as [i|i].
  - destruct H as (s & Hi & Hl & E & Hr). pose proof Hs as [Hle Hsorted].
    assert (Hist : table_stored t !! i = Some s) by (by rewrite stored_slots).
    destruct (sorted_delete_at sl_network (table_stored t) i s Hsorted Hist) as [H1 H2].
    assert (El : sift_up (tl_len t - (i + 1)) (i + 1) (tl_slots t) =
      (take i (table_stored t) ++ drop (S i) (table_stored t)) ++ s :: drop (tl_len t) (tl_slots t)).
    { assert (Es : tl_slots t = take i (table_stored t) ++ s :: drop (S i) (table_stored t) ++ drop (tl_len t) (tl_slots t)).
      { rewrite <-(take_drop (tl_len t) (tl_slots t)) at 1. fold (table_stored t).
        rewrite <-(take_drop_middle (table_stored t) i s Hist) at 1. rewrite <-(assoc_L (++)). done. }
      rewrite Es at 1. pose proof (sift_up_spec (drop (S i) (table_stored t)) (take i (table_stored t)) s (drop (tl_len t) (tl_slots t))) as Hu.
      rewrite length_drop, length_take, stored_length, Nat.min_l in Hu by (done || lia).
      replace (tl_len t - S i)%nat with (tl_len t - (i + 1))%nat in Hu by lia. etransitivity; [exact Hu|]. by rewrite <-(assoc_L (++)). }
    rewrite El.
    set (front := take i (table_stored t) ++ drop (S i) (table_stored t)) in *.
    assert (Hf : length front = (tl_len t - 1)%nat).
    { unfold front. rewrite length_app, length_take, length_drop, stored_length by done. lia. }
    rewrite Hr, bool_decide_eq_true_2 by (by eexists).
    set (t' := t <| tl_slots := _ |> <| tl_len := _ |> <| tl_holds ::= _ |>).
    assert (Est : table_stored t' = front).
    { unfold t', table_stored, over. cbn [tl_slots tl_len]. rewrite take_insert_ge by done. by rewrite take_app_length'. }
    assert (Ec : table_capacity t' = table_capacity t).
    { unfold t', table_capacity, over. cbn [tl_slots]. rewrite length_insert, length_app, Hf. cbn. rewrite length_drop.
      unfold table_capacity in *. lia. }
    unfold shape, rows. rewrite Est, Ec. split_and!; try done; [unfold t', over; cbn; lia|by rewrite H2, E|by rewrite Hi].
  - destruct H as (_ & Hr & _). rewrite Hr, bool_decide_eq_false_2 by (by intros []%is_Some_None).
    split_and!; try done. by rewrite delete_id.
Qed.

(** ** What the table promises

    The operations on a map of at most [R] rows; a reject also depends on what the hold-down records say. *)

Inductive TableOp :=
| OpAddDirect (n : Z) (p : PortId) | OpAddLearned (n : Z) (p : PortId) (hop : Mac) (now : Instant)
| OpLearn (n : Z) (p : PortId) (hop : Mac) (now : Instant)
| OpClaim (n : Z) (p : PortId) (hop : Mac) (now : Instant) (timing : Timing)
| OpReject (n : Z) (p : PortId) (reason : Z) (now : Instant) (timing : Timing)
| OpRemove (n : Z) | OpManagementRemoval (n : Z)
| OpBusy (n : Z) (deadline : Instant) | OpAvailable (n : Z) | OpUnreachable (n : Z)
| OpBusyVia (p : PortId) (peer : bytes) (deadline : Instant) | OpAvailableVia (p : PortId) (peer : bytes)
| OpClearBusy (now : Instant) | OpTouch (n : Z) (now : Instant) | OpPurge (now : Instant) (max_age : Duration)
| OpExpirePending (now : Instant) (timing : Timing) | OpConvergence (c : Convergence) | OpClear.
Inductive TableAnswer :=
| ANothing | ABool (b : bool) | ARoute (r : option Route) | ALearned (l : Learned) | AReject (e : RejectEffect)
| ACount (n : nat) | ANetworks (l : list Z) (n : nat).

Definition table_step (t : Table) (op : TableOp) : Table * TableAnswer :=
  match op with
  | OpAddDirect n p => let '(t, b) := add_direct t n p in (t, ABool b)
  | OpAddLearned n p hop now => let '(t, b) := add_learned t n p hop now in (t, ABool b)
  | OpLearn n p hop now => let '(t, l) := table_learn t n p hop now in (t, ALearned l)
  | OpClaim n p hop now timing => let '(t, l) := apply_claim t n p hop now timing in (t, ALearned l)
  | OpReject n p reason now timing => let '(t, e) := apply_reject t n p reason now timing in (t, AReject e)
  | OpRemove n => let '(t, r) := table_remove t n in (t, ARoute r)
  | OpManagementRemoval n => let '(t, b) := apply_management_removal t n in (t, ABool b)
  | OpBusy n deadline => (mark_busy t n deadline, ANothing)
  | OpAvailable n => (mark_available t n, ANothing)
  | OpUnreachable n => (mark_unreachable t n, ANothing)
  | OpBusyVia p peer deadline => let '(t, k) := mark_busy_via_peer t p peer deadline in (t, ACount k)
  | OpAvailableVia p peer => let '(t, k) := mark_available_via_peer t p peer in (t, ACount k)
  | OpClearBusy now => let '(t, k) := clear_expired_busy t now in (t, ACount k)
  | OpTouch n now => (table_touch t n now, ANothing)
  | OpPurge now max_age => let '(t, l, k) := purge_stale t now max_age in (t, ANetworks l k)
  | OpExpirePending now timing => let '(t, l, k) := expire_pending t now timing in (t, ANetworks l k)
  | OpConvergence c => (set_convergence t c, ANothing)
  | OpClear => (table_clear t, ANothing)
  end.

Section Map.
Context (R : nat).
Abbreviation Rows := (gmap Z RouteSlot).
Implicit Types (m : Rows) (n : Z) (p : PortId).

Definition map_put m n r : Rows * bool :=
  if has_room R m n then (<[n := fresh_slot n r]> m, true) else (m, false).
Definition map_add_direct m n p : Rows * bool :=
  if is_reserved n then (m, false) else map_put m n (route_direct p).
Definition kept_use (m : Rows) n p : option Instant :=
  s ← m !! n; if rt_port (sl_route s) =? p then rt_last_used (sl_route s) else None.
Definition is_direct (m : Rows) n : bool := match m !! n with Some s => rt_direct (sl_route s) | None => false end.
Definition map_add_learned m n p hop now : Rows * bool :=
  if is_reserved n || is_direct m n then (m, false) else
  map_put m n ((route_learned p hop now) <| rt_last_used := kept_use m n p |>).
Definition moved_route (old : Route) p hop now : Route :=
  (route_learned p hop now) <| rt_flap_count := flaps_of old now |> <| rt_last_port_change := Some now |>.
Definition map_learn m n p hop now : Rows * Learned :=
  if is_reserved n then (m, LearnRefused LearnReserved) else
  if is_direct m n then (m, LearnRefused LearnDirect) else
  let install := let '(m', ok) := map_add_learned m n p hop now in (m', if ok then Applied else LearnRefused LearnFull) in
  match m !! n with
  | Some s =>
      if rt_port (sl_route s) =? p then install else
      (<[n := fresh_slot n (moved_route (sl_route s) p hop now)]> m, Moved (rt_port (sl_route s)) (flaps_of (sl_route s) now))
  | None => install
  end.
Definition corroborates (s : RouteSlot) p now (window : Duration) : bool :=
  match sl_pending s with
  | Some q => (pn_port q =? p) && (instant_saturating_duration_since now (pn_first_seen q) <=? window)
  | None => false
  end.
Definition map_claim (c : Convergence) m n p hop now (timing : Timing) : Rows * Learned :=
  match m !! n with
  | None => map_learn m n p hop now
  | Some s =>
      if bool_decide (c = Standard) || rt_direct (sl_route s) || (rt_port (sl_route s) =? p) ||
         corroborates s p now (corroboration timing)
      then map_learn (<[n := s <| sl_pending := None |>]> m) n p hop now
      else (<[n := s <| sl_pending := Some {| pn_port := p; pn_first_seen := now |} |>]> m, Held)
  end.
Definition rejected_route (r : Route) reason now (timing : Timing) : Route :=
  if reason =? NOT_DIRECTLY_CONNECTED then unreachable_route r else (busy r (instant_add now (busy_for timing))).1.
Definition held_at (held : Z -> PortId -> option Instant) n p now (timing : Timing) : bool :=
  match held n p with Some since => instant_saturating_duration_since now since <? hold_down timing | None => false end.
Definition map_reject held m n p reason now timing : Rows * RejectEffect :=
  match m !! n with
  | None => (m, EffectSameState)
  | Some s =>
      let r := sl_route s in
      if negb (rt_direct r) && negb ((reason =? NOT_DIRECTLY_CONNECTED) || (reason =? ROUTER_BUSY)) then (m, EffectKept) else
      if negb (reject_changes r reason now) then (m, EffectSameState) else
      if held_at held n p now timing then (m, EffectHeldDown) else
      (<[n := s <| sl_route := rejected_route r reason now timing |>]> m, EffectApplied)
  end.
Definition on_route (f : Route -> Route) (s : RouteSlot) : RouteSlot := s <| sl_route ::= f |>.
Definition map_count (q : RouteSlot -> bool) m : nat := size (filter (fun ns => q ns.2 = true) m).
(** The networks of a map, in ascending order. *)
Definition ascending m : list Z := merge_sort (≤) (elements (dom m)).

Definition map_step (c : Convergence) (held : Z -> PortId -> option Instant) m (op : TableOp) : Rows * TableAnswer :=
  match op with
  | OpAddDirect n p => let '(m, b) := map_add_direct m n p in (m, ABool b)
  | OpAddLearned n p hop now => let '(m, b) := map_add_learned m n p hop now in (m, ABool b)
  | OpLearn n p hop now => let '(m, l) := map_learn m n p hop now in (m, ALearned l)
  | OpClaim n p hop now timing => let '(m, l) := map_claim c m n p hop now timing in (m, ALearned l)
  | OpReject n p reason now timing => let '(m, e) := map_reject held m n p reason now timing in (m, AReject e)
  | OpRemove n => (delete n m, ARoute (sl_route <$> m !! n))
  | OpManagementRemoval n =>
      if is_direct m n then (m, ABool false) else (delete n m, ABool (bool_decide (is_Some (m !! n))))
  | OpBusy n deadline => (alter (on_route (fun r => (busy r deadline).1)) n m, ANothing)
  | OpAvailable n => (alter (on_route available) n m, ANothing)
  | OpUnreachable n => (alter (on_route unreachable_route) n m, ANothing)
  | OpBusyVia p peer deadline =>
      let q s := served_via (sl_route s) p peer in
      ((fun s => if q s then on_route (fun r => (busy r deadline).1) s else s) <$> m,
       ACount (map_count (fun s => q s && (busy (sl_route s) deadline).2) m))
  | OpAvailableVia p peer =>
      let q s := served_via (sl_route s) p peer in
      ((fun s => if q s then on_route available s else s) <$> m, ACount (map_count q m))
  | OpClearBusy now =>
      let q s := busy_lapsed (sl_route s) now in
      ((fun s => if q s then on_route (fun r => r <| rt_reachability := Reachable |> <| rt_busy_until := None |>) s else s) <$> m,
       ACount (map_count q m))
  | OpTouch n now => (alter (on_route (touch_route now)) n m, ANothing)
  | OpPurge now max_age =>
      let gone := filter (fun ns => stale now max_age ns.2 = true) m in
      (filter (fun ns => negb (stale now max_age ns.2) = true) m, ANetworks (ascending gone) (size gone))
  | OpExpirePending now timing =>
      let old s := pending_lapsed (sl_pending s) now (corroboration timing) in
      let gone := filter (fun ns => old ns.2 = true) m in
      ((fun s => if old s then s <| sl_pending := None |> else s) <$> m, ANetworks (ascending gone) (size gone))
  | OpConvergence _ => (m, ANothing)
  | OpClear => (∅, ANothing)
  end.
End Map.

(** ** The array refines the map *)

(** What each lemma below says of an operation: the shape and the capacity stay. *)
Definition keeps_shape (t t' : Table) : Prop := shape t' /\ table_capacity t' = table_capacity t.
Lemma keeps_shape_same t t' : shape t -> same_slots t t' -> keeps_shape t t' /\ rows t' = rows t.
Proof.
  intros Hs E. destruct (same_slots_rows t t' E) as [Hr Hsh]. unfold keeps_shape, table_capacity.
  destruct E as [-> _]. by split_and!; [apply Hsh| |].
Qed.
Lemma same_answer {A} t t' (a : A) : shape t -> same_slots t t' -> keeps_shape t t' /\ (rows t', a) = (rows t, a).
Proof. intros Hs E. destruct (keeps_shape_same t t' Hs E) as [? ->]. done. Qed.
Lemma put_same t t' n r : shape t -> same_slots t t' ->
  let '(t2, ok) := table_put t' n r in
  keeps_shape t t2 /\ (rows t2, ok) = map_put (table_capacity t) (rows t) n r.
Proof.
  intros Hs E. destruct (keeps_shape_same t t' Hs E) as [[Hs' Hc] Hr]. pose proof (put_rows t' n r Hs') as H.
  destruct (table_put t' n r) as [t2 ok]. destruct H as (H1 & H2 & _ & _ & H3). unfold keeps_shape.
  split_and!; [done|congruence|]. rewrite Hc, Hr in H3. exact H3.
Qed.
Lemma add_direct_refines t n p : shape t -> let '(t', b) := add_direct t n p in
  keeps_shape t t' /\ (rows t', b) = map_add_direct (table_capacity t) (rows t) n p.
Proof.
  intros Hs. unfold add_direct, map_add_direct. destruct (is_reserved n); [done|]. by apply put_same.
Qed.
Lemma add_learned_refines t n p hop now : shape t -> let '(t', b) := add_learned t n p hop now in
  keeps_shape t t' /\ (rows t', b) = map_add_learned (table_capacity t) (rows t) n p hop now.
Proof.
  intros Hs. unfold add_learned, map_add_learned. destruct (is_reserved n); [done|]. cbn [orb].
  rewrite lookup_rows by done. unfold is_direct, kept_use. destruct (rows t !! n) as [s|]; cbn [fmap option_fmap option_map].
  - cbn. destruct (rt_direct (sl_route s)); [done|]. by apply put_same.
  - cbn. by apply put_same.
Qed.
Lemma learn_refines t n p hop now : shape t -> let '(t', l) := table_learn t n p hop now in
  keeps_shape t t' /\ (rows t', l) = map_learn (table_capacity t) (rows t) n p hop now.
Proof.
  intros Hs. unfold table_learn, map_learn, is_direct. destruct (is_reserved n); [done|]. rewrite lookup_rows by done.
  pose proof (add_learned_refines t n p hop now Hs) as Ha. destruct (add_learned t n p hop now) as [ta ok].
  destruct (map_add_learned _ _ _ _ _ _) as [ma oka]. destruct Ha as (Hk & [= <- <-]).
  destruct (rows t !! n) as [s|] eqn:Es; cbn; [|done]. destruct (rt_direct (sl_route s)); [done|].
  destruct (rt_port (sl_route s) =? p); cbn [negb]; [done|].
  set (t1 := if FLAP_WARNING <=? _ then _ else t).
  assert (E1 : same_slots t (t1 <| tl_holds ::= fun h => holds_forget h n |>)) by (unfold t1; by destruct (_ <=? _)).
  pose proof (put_same t _ n (moved_route (sl_route s) p hop now) Hs E1) as Hp. fold (moved_route (sl_route s) p hop now).
  destruct (table_put _ _ _) as [t2 ok2]. unfold map_put, has_room in Hp.
  rewrite bool_decide_eq_true_2 in Hp by (left; by eexists). destruct Hp as (Hk2 & [= E2 _]). split; [done|].
  cbn. by rewrite E2.
Qed.
Lemma keeps_shape_trans t1 t2 t3 : keeps_shape t1 t2 -> keeps_shape t2 t3 -> keeps_shape t1 t3.
Proof. intros [_ E] [H E']. split; [done|congruence]. Qed.
(** A learning after the slot was changed and the counts bumped. *)
Lemma learn_after t t1 t2 n p hop now : shape t -> keeps_shape t t1 -> same_slots t1 t2 ->
  let '(t', l) := table_learn t2 n p hop now in
  keeps_shape t t' /\ (rows t', l) = map_learn (table_capacity t) (rows t1) n p hop now.
Proof.
  intros Hs Hk1 E2. destruct (keeps_shape_same t1 t2 (proj1 Hk1) E2) as [Hk2 Hr2].
  pose proof (learn_refines t2 n p hop now (proj1 Hk2)) as Hl. destruct (table_learn t2 n p hop now) as [t' l].
  destruct Hl as [Hk3 Hl]. pose proof (keeps_shape_trans _ _ _ Hk1 Hk2) as Hk. split; [by eapply keeps_shape_trans|].
  rewrite Hl, Hr2, (proj2 Hk). done.
Qed.
Lemma alter_rows t i s f : shape t -> tl_slots t !! i = Some s -> (i < tl_len t)%nat -> sl_network (f s) = sl_network s ->
  let t' := t <| tl_slots ::= alter f i |> in
  keeps_shape t t' /\ rows t' = <[sl_network s := f s]> (rows t) /\ tl_slots t' !! i = Some (f s).
Proof.
  intros Hs Hi Hl E. destruct (replace_rows t i s (f s) Hs Hi Hl (eq_sym E)) as (H1 & H2 & H3). unfold over in *. cbn in *.
  rewrite (alter_insert f _ _ s Hi). rewrite E in H3. split_and!; try done.
  apply list_lookup_insert_eq. destruct Hs as [Hle _]. unfold table_capacity in Hle. lia.
Qed.
Lemma claim_refines t n p hop now timing : shape t -> let '(t', l) := apply_claim t n p hop now timing in
  keeps_shape t t' /\ (rows t', l) = map_claim (table_capacity t) (tl_convergence t) (rows t) n p hop now timing.
Proof.
  intros Hs. unfold apply_claim, map_claim. pose proof (find_rows t n Hs) as Hf. destruct (table_find t n) as [i|i].
  2: { destruct Hf as (_ & -> & _). by apply learn_refines. }
  destruct Hf as (s & Hi & Hl & En & ->). cbv beta iota. rewrite (nth_lookup_Some _ _ _ _ Hi). cbv zeta.
  destruct (alter_rows t i s (fun s => s <| sl_pending := None |>) Hs Hi Hl) as (Hk1 & Hr1 & Hi1); [done|].
  set (t1 := t <| tl_slots ::= _ |>) in *. rewrite En in Hr1. change (tl_convergence t1) with (tl_convergence t).
  replace (<[n := s <| sl_pending := None |>]> (rows t)) with (rows t1) by exact Hr1. case_bool_decide as Hc; cbn [orb]; [by apply (learn_after t t1 t1)|].
  set (lapsed := pending_lapsed _ _ _).
  set (t2 := if lapsed then _ else t1). assert (E2 : same_slots t1 t2) by (unfold t2; by destruct lapsed).
  destruct (rt_direct (sl_route s)) eqn:Ed; cbn [negb andb orb]; [by apply (learn_after t t1 t2)|].
  destruct (rt_port (sl_route s) =? p) eqn:Ep; cbn [negb andb orb]; [by apply (learn_after t t1 t2)|].
  assert (Ecor : (match (if lapsed then None else sl_pending s) with Some q => pn_port q =? p | None => false end) =
                 corroborates s p now (corroboration timing)).
  { unfold corroborates, lapsed, pending_lapsed. destruct (sl_pending s) as [q|]; [|done].
    destruct (Z.ltb_spec (corroboration timing) (instant_saturating_duration_since now (pn_first_seen q))).
    - by rewrite (proj2 (Z.leb_gt _ _)), andb_false_r by done.
    - by rewrite (proj2 (Z.leb_le _ _)), andb_true_r by done. }
  rewrite Ecor. destruct (corroborates _ _ _ _); [by apply (learn_after t t1)|].
  destruct (keeps_shape_same t1 t2 (proj1 Hk1) E2) as [Hk2 Hr2]. destruct E2 as [Es2 El2].
  assert (Hi2 : tl_slots t2 !! i = Some (s <| sl_pending := None |>)) by (by rewrite Es2).
  assert (Hl2 : (i < tl_len t2)%nat) by (by rewrite El2).
  destruct (alter_rows t2 i _ (fun s => s <| sl_pending := Some {| pn_port := p; pn_first_seen := now |} |>)
    (proj1 Hk2) Hi2 Hl2) as (Hk3 & Hr3 & _); [done|].
  set (t3 := t2 <| tl_slots ::= _ |>) in *.
  destruct (keeps_shape_same t3 (t3 <| tl_counters ::= over pending_started inc |>) (proj1 Hk3)) as [Hk4 Hr4]; [done|].
  split; [by do 3 (eapply keeps_shape_trans; [eassumption|])|]. f_equal. rewrite Hr4, Hr3, Hr2, Hr1. cbn. rewrite En.
  by rewrite insert_insert_eq.
Qed.
Lemma reject_refines t n p reason now timing : shape t -> let '(t', e) := apply_reject t n p reason now timing in
  keeps_shape t t' /\ (rows t', e) = map_reject (holds_since (tl_holds t)) (rows t) n p reason now timing.
Proof.
  intros Hs. unfold apply_reject, map_reject, held_at. rewrite lookup_rows by done.
  destruct (rows t !! n) as [s|] eqn:Es; cbn [fmap option_fmap option_map andb negb orb]; [|by apply same_answer].
  destruct (negb (rt_direct (sl_route s)) && _) eqn:Eo; [by apply same_answer|].
  destruct (reject_changes (sl_route s) reason now) eqn:Ec; cbn [negb orb]; [|by apply same_answer].
  set (held := match holds_since _ _ _ with Some _ => _ | None => _ end). destruct held; [by apply same_answer|].
  set (t1 := t <| tl_counters ::= _ |>). destruct (keeps_shape_same t t1 Hs) as [Hk1 Hr1]; [done|].
  assert (Hm : keeps_shape t1 (if reason =? NOT_DIRECTLY_CONNECTED then mark_unreachable t1 n
      else mark_busy t1 n (instant_add now (busy_for timing))) /\
    rows (if reason =? NOT_DIRECTLY_CONNECTED then mark_unreachable t1 n
      else mark_busy t1 n (instant_add now (busy_for timing))) = <[n := s <| sl_route := rejected_route (sl_route s) reason now timing |>]> (rows t1)).
  { assert (Ea : forall f, alter (fun s => s <| sl_route ::= f |>) n (rows t1) = <[n := s <| sl_route := f (sl_route s) |>]> (rows t1)).
    { intros f. rewrite Hr1. apply map_eq. intros k. destruct (decide (k = n)) as [->|].
      - by rewrite lookup_alter_eq, lookup_insert_eq, Es.
      - by rewrite lookup_alter_ne, lookup_insert_ne. }
    unfold rejected_route, mark_unreachable, mark_busy. destruct (reason =? _).
    - destruct (slot_mut_rows t1 n (fun s => s <| sl_route ::= unreachable_route |>) (proj1 Hk1)) as (?&?&->&_); [done|].
      by rewrite Ea.
    - destruct (slot_mut_rows t1 n (fun s => s <| sl_route ::= fun r => (busy r (instant_add now (busy_for timing))).1 |>) (proj1 Hk1)) as (?&?&->&_); [done|].
      by rewrite Ea. }
  set (t2 := if reason =? _ then _ else _) in *. destruct Hm as [Hk2 Hr2]. destruct (holds_record _ _ _ _) as [h evicted].
  set (t3 := if evicted then _ else _). assert (E3 : same_slots t2 t3) by (unfold t3; by destruct evicted).
  destruct (keeps_shape_same t2 t3 (proj1 Hk2) E3) as [Hk3 Hr3].
  split; [exact (keeps_shape_trans _ _ _ Hk1 (keeps_shape_trans _ _ _ Hk2 Hk3))|]. by rewrite Hr3, Hr2, Hr1.
Qed.
(** The rows listed in the array's order are the map's in ascending order. *)
Lemma networks_ascending l : sorted sl_network l -> map sl_network l = ascending (as_map sl_network l).
Proof.
  intros Hs. unfold ascending.
  assert (Hp : elements (dom (as_map sl_network l)) ≡ₚ map sl_network l).
  { apply NoDup_Permutation; [apply NoDup_elements|by apply sorted_nodup|]. intros n. rewrite elem_of_elements, elem_of_dom.
    split.
    - intros [s Hn]. apply as_map_lookup in Hn as [Hi <-]; [|done]. by apply (list_elem_of_fmap_2 sl_network).
    - intros (s & -> & Hi)%(list_elem_of_fmap sl_network l n). exists s. by apply as_map_lookup. }
  apply (StronglySorted_unique (≤)).
  - clear Hp. induction Hs as [|s l _ IH Hx]; cbn; constructor; [done|]. rewrite Forall_map. eapply Forall_impl; [exact Hx|].
    cbn. lia.
  - apply Sorted_StronglySorted; [intros x y z; lia|]. apply Sorted_merge_sort. intros x y. lia.
  - by rewrite merge_sort_Permutation, Hp.
Qed.
Lemma stored_networks t : shape t -> table_networks t = ascending (rows t).
Proof. intros Hs. by apply networks_ascending, Hs. Qed.
Lemma count_rows t q : shape t -> count_stored t q = map_count q (rows t).
Proof.
  intros Hs. unfold count_stored, map_count, rows. destruct (sorted_filter sl_network q (table_stored t) (proj2 Hs)) as [H1 H2].
  by rewrite <-H2, as_map_size.
Qed.
Lemma filtered_networks t q : shape t ->
  map sl_network (List.filter q (table_stored t)) = ascending (filter (fun ns => q ns.2 = true) (rows t)) /\
  length (List.filter q (table_stored t)) = size (filter (fun ns => q ns.2 = true) (rows t)).
Proof.
  intros Hs. destruct (sorted_filter sl_network q (table_stored t) (proj2 Hs)) as [H1 H2]. unfold rows. rewrite <-H2.
  split; [by apply networks_ascending|by rewrite as_map_size].
Qed.
Lemma purge_refines t now max_age : shape t -> let '(t', l, k) := purge_stale t now max_age in
  keeps_shape t t' /\ tl_convergence t' = tl_convergence t /\
  (rows t', ANetworks l k) = map_step (table_capacity t) (tl_convergence t) (holds_since (tl_holds t)) (rows t) (OpPurge now max_age) /\
  tl_holds t' = fold_left (fun h s => holds_forget h (sl_network s)) (List.filter (stale now max_age) (table_stored t)) (tl_holds t).
Proof.
  intros Hs. pose proof Hs as [Hl Hso]. unfold purge_stale, table_capacity in *.
  pose proof (swap_compact_spec (stale now max_age) (fun s h => holds_forget h (sl_network s)) (tl_len t) (tl_slots t) (tl_holds t) Hl) as Hc.
  destruct (compact_loop _ _ _ _ _ _ _) as [[l kept] h]. destruct Hc as (Ht & Hk & Hkl & Hlen & Hh).
  fold (table_stored t) in Ht, Hk, Hh. destruct (filtered_networks t (stale now max_age) Hs) as [E1 E2].
  destruct (sorted_filter sl_network (fun s => negb (stale now max_age s)) (table_stored t) Hso) as [H1 H2].
  set (t' := t <| tl_slots := _ |> <| tl_len := _ |> <| tl_holds := _ |>).
  assert (Est : table_stored t' = List.filter (fun s => negb (stale now max_age s)) (table_stored t)).
  { unfold t', table_stored at 1, over. cbn [tl_slots tl_len]. rewrite fill_take by lia. done. }
  assert (Ec : length (tl_slots t') = length (tl_slots t)).
  { unfold t', over. cbn [tl_slots]. rewrite fill_length by lia. done. }
  assert (Hcount : (tl_len t - kept)%nat = size (filter (fun ns => stale now max_age ns.2 = true) (rows t))).
  { rewrite <-E2, Hk, <-(stored_length t) by done. pose proof (filter_length (stale now max_age) (table_stored t)). lia. }
  unfold keeps_shape, shape, table_capacity, rows. rewrite Est, Ec. split_and!; try done; [unfold t', over; cbn; lia|].
  cbn [map_step]. f_equal; [exact H2|]. by rewrite E1, Hcount.
Qed.
Lemma clear_rows t : shape t -> keeps_shape t (table_clear t) /\ rows (table_clear t) = ∅.
Proof.
  intros [Hl _]. unfold table_capacity in Hl. assert (Est : table_stored (table_clear t) = []) by done.
  assert (Ec : length (tl_slots (table_clear t)) = length (tl_slots t)) by (unfold table_clear, over; cbn [tl_slots]; rewrite fill_length; lia).
  unfold keeps_shape, shape, table_capacity, rows. rewrite Est, Ec. split_and!; try done; [cbn; lia|constructor].
Qed.
Lemma step_rows t op : shape t -> let '(t', a) := table_step t op in
  keeps_shape t t' /\ (rows t', a) = map_step (table_capacity t) (tl_convergence t) (holds_since (tl_holds t)) (rows t) op.
Proof.
  intros Hs. destruct op as [n p|n p hop now|n p hop now|n p hop now timing|n p reason now timing|n|n|n deadline|n|n|p peer deadline
    |p peer|now|n now|now max_age|now timing|c|]; cbn [table_step map_step].
  - pose proof (add_direct_refines t n p Hs) as H. destruct (add_direct t n p), (map_add_direct _ _ _ _). naive_solver.
  - pose proof (add_learned_refines t n p hop now Hs) as H. destruct (add_learned _ _ _ _ _), (map_add_learned _ _ _ _ _ _). naive_solver.
  - pose proof (learn_refines t n p hop now Hs) as H. destruct (table_learn _ _ _ _ _), (map_learn _ _ _ _ _ _). naive_solver.
  - pose proof (claim_refines t n p hop now timing Hs) as H. destruct (apply_claim _ _ _ _ _ _), (map_claim _ _ _ _ _ _ _ _). naive_solver.
  - pose proof (reject_refines t n p reason now timing Hs) as H. destruct (apply_reject _ _ _ _ _ _), (map_reject _ _ _ _ _ _ _). naive_solver.
  - pose proof (remove_rows t n Hs) as H. destruct (table_remove t n) as [t' r]. destruct H as (?&?&_&->&->&_). done.
  - unfold apply_management_removal, is_direct. rewrite lookup_rows by done. pose proof (remove_rows t n Hs) as H.
    destruct (table_remove t n) as [t' r]. destruct H as (?&?&_&Hr&->&_). destruct (rows t !! n) as [s|] eqn:E; cbn.
    + destruct (rt_direct (sl_route s)); cbn; [done|]. by rewrite Hr.
    + rewrite delete_id by done. done.
  - destruct (slot_mut_rows t n (on_route (fun r => (busy r deadline).1)) Hs) as (?&?&?&_); [done|].
    split; [done|]. by f_equal.
  - destruct (slot_mut_rows t n (on_route available) Hs) as (?&?&?&_); [done|]. split; [done|]. by f_equal.
  - destruct (slot_mut_rows t n (on_route unreachable_route) Hs) as (?&?&?&_); [done|]. split; [done|]. by f_equal.
  - unfold mark_busy_via_peer. rewrite count_rows by done.
    destruct (over_stored_rows t (fun s => if served_via (sl_route s) p peer then on_route (fun r => (busy r deadline).1) s else s) Hs)
      as (?&?&?&_); [intros s; by destruct (served_via _ _ _)|]. split; [done|]. by f_equal.
  - unfold mark_available_via_peer. rewrite count_rows by done.
    destruct (over_stored_rows t (fun s => if served_via (sl_route s) p peer then on_route available s else s) Hs)
      as (?&?&?&_); [intros s; by destruct (served_via _ _ _)|]. split; [done|]. by f_equal.
  - unfold clear_expired_busy. rewrite count_rows by done.
    destruct (over_stored_rows t (fun s => if busy_lapsed (sl_route s) now
       then on_route (fun r => r <| rt_reachability := Reachable |> <| rt_busy_until := None |>) s else s) Hs)
      as (?&?&?&_); [intros s; by destruct (busy_lapsed _ _)|]. split; [done|]. by f_equal.
  - destruct (slot_mut_rows t n (on_route (touch_route now)) Hs) as (?&?&?&_); [done|]. split; [done|]. by f_equal.
  - pose proof (purge_refines t now max_age Hs) as H. destruct (purge_stale t now max_age) as [[t' l] k].
    destruct H as (?&_&?&_). done.
  - unfold expire_pending. set (old := fun s => pending_lapsed (sl_pending s) now (corroboration timing)).
    destruct (filtered_networks t old Hs) as [E1 E2]. rewrite E1, E2.
    destruct (over_stored_rows t (fun s => if old s then s <| sl_pending := None |> else s) Hs) as (H1&H2&H3&_);
      [intros s; by destruct (old s)|]. split; [done|]. by f_equal.
  - by apply same_answer.
  - destruct (clear_rows t Hs) as [? ->]. done.
Qed.
Lemma put_convergence t n r : tl_convergence (table_put t n r).1 = tl_convergence t.
Proof. unfold table_put. destruct (table_find t n); [done|]. by case_bool_decide. Qed.
Lemma slot_mut_convergence t n f : tl_convergence (slot_mut t n f) = tl_convergence t.
Proof. unfold slot_mut. by destruct (table_find t n). Qed.
Lemma add_learned_convergence t n p hop now : tl_convergence (add_learned t n p hop now).1 = tl_convergence t.
Proof.
  unfold add_learned. destruct (is_reserved n); [done|]. destruct (table_lookup t n) as [r|]; [destruct (rt_direct r); [done|]|];
    by rewrite put_convergence.
Qed.
Lemma learn_convergence t n p hop now : tl_convergence (table_learn t n p hop now).1 = tl_convergence t.
Proof.
  unfold table_learn. pose proof (add_learned_convergence t n p hop now) as Ha. destruct (add_learned t n p hop now) as [ta ok].
  destruct (is_reserved n); [done|]. destruct (table_lookup t n) as [r|]; [|done]. destruct (rt_direct r); [done|].
  destruct (negb _); [|done]. cbn [fst]. rewrite put_convergence. cbn. by destruct (_ <=? _).
Qed.
Lemma step_convergence t op :
  tl_convergence (table_step t op).1 = match op with OpConvergence c => c | _ => tl_convergence t end.
Proof.
  destruct op; cbn [table_step]; try done; try (apply slot_mut_convergence).
  - unfold add_direct. destruct (is_reserved n); [done|]. pose proof (put_convergence (t <| tl_holds ::= fun h => holds_forget h n |>) n (route_direct p)).
    by destruct (table_put _ _ _).
  - pose proof (add_learned_convergence t n p hop now). by destruct (add_learned _ _ _ _ _).
  - pose proof (learn_convergence t n p hop now). by destruct (table_learn _ _ _ _ _).
  - unfold apply_claim. destruct (table_find t n) as [i|]; cbv zeta.
    + set (t1 := t <| tl_slots ::= _ |>). pose proof (learn_convergence t1 n p hop now) as H1.
      case_bool_decide; [by destruct (table_learn t1 n p hop now)|]. clear H1.
      set (t2 := if pending_lapsed _ _ _ then _ else t1). assert (E2 : tl_convergence t2 = tl_convergence t) by (unfold t2; by destruct (pending_lapsed _ _ _)).
      destruct (negb _ && _); [lazymatch goal with |- context [if ?b then table_learn _ _ _ _ _ else _] => destruct b end|].
      * pose proof (learn_convergence (t2 <| tl_counters ::= over corroborated_applied inc |>) n p hop now) as Hl.
        destruct (table_learn _ _ _ _ _). exact (eq_trans Hl E2).
      * exact E2.
      * pose proof (learn_convergence t2 n p hop now) as Hl. destruct (table_learn _ _ _ _ _). exact (eq_trans Hl E2).
    + pose proof (learn_convergence t n p hop now). by destruct (table_learn _ _ _ _ _).
  - unfold apply_reject. destruct (_ && _); [done|]. cbv zeta. destruct (negb _ || _).
    { lazymatch goal with |- context [if ?b then (_, EffectHeldDown) else _] => by destruct b end. }
    set (t1 := if reason =? _ then _ else _). assert (E1 : tl_convergence t1 = tl_convergence t)
      by (unfold t1; destruct (reason =? _); unfold mark_unreachable, mark_busy; by rewrite slot_mut_convergence).
    destruct (holds_record _ _ _ _) as [h []]; exact E1.
  - unfold table_remove. by destruct (table_find t n).
  - unfold apply_management_removal, table_remove. destruct (table_lookup t n) as [r|]; [|done].
    destruct (negb _); [|done]. by destruct (table_find t n).
  - unfold purge_stale. by destruct (compact_loop _ _ _ _ _ _ _) as [[? ?] ?].
Qed.

(** C5: the sorted array with its binary search, sifts and sweeps refines a finite map of at most [R] rows. Whatever
    operation, the array stays sorted within its capacity; the rows and the answer are the map
    operation's (networks reported purged or expired come in ascending order); and a lookup and the listing read the map. *)
Theorem table_refines t op : shape t ->
  let '(t', a) := table_step t op in
  shape t' /\ table_capacity t' = table_capacity t /\
  (rows t', a) = map_step (table_capacity t) (tl_convergence t) (holds_since (tl_holds t)) (rows t) op /\
  tl_convergence t' = match op with OpConvergence c => c | _ => tl_convergence t end /\
  (forall n, table_lookup t' n = sl_route <$> rows t' !! n /\ table_pending t' n = rows t' !! n ≫= sl_pending) /\
  table_networks t' = ascending (rows t').
Proof.
  intros Hs. pose proof (step_rows t op Hs) as H. pose proof (step_convergence t op) as Hc.
  destruct (table_step t op) as [t' a]. destruct H as [[Hs' Hcap] Hr]. split_and!; try done.
  - intros n. split; [by apply lookup_rows|by apply pending_rows].
  - by apply stored_networks.
Qed.
Lemma table_refines_witness :
  let op := OpLearn 7 1 MAC_EMPTY 5 in
  let t := (table_step (table_new 4 2) (OpAddDirect 3 0)).1 in
  table_networks t = [3] /\ (table_step t op).2 = ALearned Applied /\
  table_lookup (table_step t op).1 7 = sl_route <$> rows (table_step t op).1 !! 7.
Proof.
  cbv zeta. split; [vm_compute; reflexivity|]. split; [vm_compute; reflexivity|].
  assert (H : shape (table_step (table_new 4 2) (OpAddDirect 3 0)).1)
    by (split; [vm_compute; lia|vm_compute; repeat constructor]).
  pose proof (table_refines _ (OpLearn 7 1 MAC_EMPTY 5) H) as Hr. destruct (table_step _ (OpLearn _ _ _ _)) as [t' a].
  exact (proj1 (proj1 (proj2 (proj2 (proj2 (proj2 Hr)))) 7)).
Defined.
