(* ===== verification/RouteSafety.v ===== *)
(** * Invariants and timing of the routing table (crate bacnet-router-core, table.rs and its parts)

    The rows and the hold-down records stay well-formed in every reachable table; direct routes never
    change; a move under hardened convergence needs two claims; rejects are held down; the sweeps
    change no decision. *)

From stdpp Require Import sorting.
From S2P Require Import Prelude Time Npdu Arrays RouteTable RouteTheorems.
Open Scope Z_scope.

(** ** Hold-down records *)

Definition hold_key (x : Hold) : Z * PortId := (ho_network x, ho_port x).
Definition wf_holds (h : Holds) : Prop :=
  (ho_len h <= length (ho_records h))%nat /\ NoDup (hold_key <$> holds_stored h).
Lemma hold_for_key n p x : hold_for n p x = true <-> hold_key x = (n, p).
Proof. unfold hold_for, hold_key. rewrite andb_true_iff, !Z.eqb_eq. naive_solver. Qed.
Lemma holds_since_some h n p since : wf_holds h ->
  holds_since h n p = Some since <-> exists x, x ∈ holds_stored h /\ hold_key x = (n, p) /\ ho_since x = since.
Proof.
  intros [_ Hn]. unfold holds_since. destruct (List.find _ _) as [y|] eqn:E; cbn.
  - apply List.find_some in E as [Hy%list_elem_of_In Hk%hold_for_key]. split.
    + intros [= <-]. by exists y.
    + intros (x & Hx & Hkx & <-). do 2 f_equal.
      apply list_elem_of_lookup in Hx as [i Hi]. apply list_elem_of_lookup in Hy as [j Hj].
      assert (i = j) as ->; [|congruence]. eapply (NoDup_lookup (hold_key <$> holds_stored h)); [done|..];
        rewrite list_lookup_fmap; [rewrite Hi|rewrite Hj]; cbn; by rewrite ?Hkx, ?Hk.
  - split; [done|]. intros (x & Hx%list_elem_of_In & Hk%hold_for_key & _).
    pose proof (List.find_none _ _ E x Hx). congruence.
Qed.
Lemma holds_ext h h' n p : wf_holds h -> wf_holds h' ->
  (forall x, hold_key x = (n, p) -> x ∈ holds_stored h <-> x ∈ holds_stored h') -> holds_since h n p = holds_since h' n p.
Proof.
  intros Hw Hw' He. apply option_eq. intros since. rewrite !holds_since_some by done.
  split; intros (x & Hx & Hk & Hs); exists x; (split; [by apply (He x)|done]).
Qed.
Lemma NoDup_filter_bool {A} (q : A -> bool) (l : list A) {B} (f : A -> B) : NoDup (f <$> l) -> NoDup (f <$> List.filter q l).
Proof.
  induction l as [|x l IH]; [done|]. cbn. intros [Hx Hn]%NoDup_cons. destruct (q x); [|by apply IH].
  cbn. constructor; [|by apply IH]. intros (y & E & Hy)%list_elem_of_fmap. apply Hx. rewrite E.
  apply list_elem_of_fmap_2. by apply list_elem_of_In, filter_In in Hy as [Hy%list_elem_of_In _].
Qed.
Lemma holds_forget_stored h n : wf_holds h ->
  holds_stored (holds_forget h n) = List.filter (fun x => negb (ho_network x =? n)) (holds_stored h) /\
  wf_holds (holds_forget h n) /\ length (ho_records (holds_forget h n)) = length (ho_records h).
Proof.
  intros [Hl Hn]. unfold holds_forget.
  pose proof (swap_compact_spec (fun x => ho_network x =? n) (fun _ (a : unit) => a) (ho_len h) (ho_records h) tt Hl) as Hc.
  destruct (compact_loop _ _ _ _ _ _ _) as [[l kept] u]. destruct Hc as (Ht & Hk & Hkl & Hlen & _).
  fold (holds_stored h) in Ht, Hk.
  assert (E : holds_stored {| ho_records := fill kept (ho_len h) NO_HOLD l; ho_len := kept |} =
    List.filter (fun x => negb (ho_network x =? n)) (holds_stored h)).
  { unfold holds_stored at 1. cbn [ho_records ho_len]. rewrite fill_take by lia. done. }
  assert (Ef : length (fill kept (ho_len h) NO_HOLD l) = length (ho_records h)) by (rewrite fill_length; lia).
  split_and!; try done. unfold wf_holds. rewrite E. cbn [ho_records ho_len]. split; [lia|by apply NoDup_filter_bool].
Qed.
Lemma holds_forget_since h n n' p : wf_holds h ->
  holds_since (holds_forget h n) n' p = if decide (n' = n) then None else holds_since h n' p.
Proof.
  intros Hw. destruct (holds_forget_stored h n Hw) as (E & Hw' & _). case_decide as Hd.
  - apply eq_None_not_Some. intros [since Hs]. apply holds_since_some in Hs as (x & Hx & Hk & _); [|done]. rewrite E in Hx.
    apply list_elem_of_In, filter_In in Hx as [_ Hx]. unfold hold_key in Hk. injection Hk as Hn _. lia.
  - apply holds_ext; try done. intros x Hk. rewrite E, !list_elem_of_In, filter_In. unfold hold_key in Hk. injection Hk as Hn _.
    split; [by intros [? _]|]. intros Hx. split; [done|]. lia.
Qed.
Lemma holds_clear_since h n p : holds_since (holds_clear h) n p = None.
Proof. done. Qed.
Lemma holds_clear_wf h : wf_holds h -> wf_holds (holds_clear h) /\ length (ho_records (holds_clear h)) = length (ho_records h).
Proof.
  intros [Hl _]. unfold holds_clear, wf_holds. cbn. rewrite fill_length by lia. split_and!; [lia|constructor|done].
Qed.
(** The oldest record is within the array, and no record is older. *)
Lemma oldest_from_spec l pre : forall index best since, length pre = index -> (best < index)%nat ->
  (exists x, pre !! best = Some x /\ ho_since x = since) -> (forall x, x ∈ pre -> since <= ho_since x) ->
  let i := oldest_from l index best since in
  exists x, (pre ++ l) !! i = Some x /\ (forall y, y ∈ pre ++ l -> ho_since x <= ho_since y).
Proof.
  revert pre. induction l as [|h l IH]; intros pre index best since Hp Hb (x & Hx & Es) Hmin; cbn [oldest_from].
  { exists x. rewrite app_nil_r, Es. done. }
  replace (pre ++ h :: l) with ((pre ++ [h]) ++ l) by (by rewrite <-(assoc_L (++))).
  destruct (Z.ltb_spec (ho_since h) since); apply IH; rewrite ?length_app; cbn; try lia.
  - exists h. split; [|done]. rewrite lookup_app_r, Hp, Nat.sub_diag by lia. done.
  - intros y [Hy| ->%list_elem_of_singleton]%elem_of_app; [|lia]. apply Hmin in Hy. lia.
  - exists x. split; [by apply lookup_app_l_Some|done].
  - intros y [Hy| ->%list_elem_of_singleton]%elem_of_app; [|lia]. by apply Hmin.
Qed.
Lemma oldest_spec l : match oldest l with
  | Some i => exists x, l !! i = Some x /\ (forall y, y ∈ l -> ho_since x <= ho_since y)
  | None => l = [] end.
Proof.
  destruct l as [|h l]; [done|]. cbn [oldest]. apply (oldest_from_spec l [h]); cbn; try lia; [by exists h|].
  by intros x ->%list_elem_of_singleton.
Qed.
Lemma holds_overwrite h i x hold : wf_holds h -> holds_stored h !! i = Some x ->
  hold_key hold = hold_key x \/ hold_key hold ∉ hold_key <$> holds_stored h ->
  let h' := {| ho_records := <[i := hold]> (ho_records h); ho_len := ho_len h |} in
  wf_holds h' /\ length (ho_records h') = length (ho_records h) /\
  holds_since h' (ho_network hold) (ho_port hold) = Some (ho_since hold) /\
  (forall n p, (n, p) <> hold_key hold ->
     holds_since h' n p = if decide ((n, p) = hold_key x) then None else holds_since h n p).
Proof.
  intros Hw Hi Hk. pose proof Hw as [Hl Hn]. cbv zeta. set (h' := {| ho_records := _ |}).
  assert (Hil : (i < ho_len h)%nat).
  { apply lookup_lt_Some in Hi. unfold holds_stored in Hi. rewrite length_take in Hi. lia. }
  assert (Es : holds_stored h' = <[i := hold]> (holds_stored h)) by (unfold h', holds_stored; cbn; by rewrite take_insert_lt).
  assert (Hin : forall y, y ∈ holds_stored h' <-> y = hold \/ y ∈ holds_stored h /\ y <> x).
  { intros y. rewrite Es. split.
    - intros (j & Hj)%list_elem_of_lookup. apply list_lookup_insert_Some in Hj as [(_ & <- & _)|[Hji Hj]]; [by left|right].
      split; [by eapply list_elem_of_lookup_2|]. intros ->. apply Hji.
      eapply (NoDup_lookup (hold_key <$> holds_stored h)); [done|..]; rewrite list_lookup_fmap; [by rewrite Hi|by rewrite Hj].
    - intros [->|[(j & Hj)%list_elem_of_lookup Hne]].
      + apply (list_elem_of_lookup_2 _ i), list_lookup_insert_eq. by eapply lookup_lt_Some.
      + apply (list_elem_of_lookup_2 _ j). rewrite list_lookup_insert_ne; [done|]. intros ->. congruence. }
  assert (Hw' : wf_holds h').
  { split; [unfold h'; cbn; rewrite length_insert; lia|]. rewrite Es, list_fmap_insert. destruct Hk as [->|Hk].
    - rewrite list_insert_id; [done|]. by rewrite list_lookup_fmap, Hi.
    - rewrite insert_take_drop by (rewrite length_fmap; by eapply lookup_lt_Some).
      rewrite <-(take_drop_middle (hold_key <$> holds_stored h) i (hold_key x)) in Hn, Hk by (by rewrite list_lookup_fmap, Hi).
      apply NoDup_app in Hn as (H1 & H2 & H3). apply NoDup_cons in H3 as [H3 H4].
      apply not_elem_of_app in Hk as [Hk1 Hk2]. apply not_elem_of_cons in Hk2 as [_ Hk2].
      apply NoDup_app. split_and!; [done| |by constructor].
      intros k Hkt [->|Hkd]%elem_of_cons; [done|]. eapply (H2 k); [done|]. by apply elem_of_cons; right. }
  split_and!; [done|unfold h'; cbn; by rewrite length_insert|..].
  - apply holds_since_some; [done|]. exists hold. split; [|done]. apply Hin. by left.
  - intros n p Hne. case_decide as Hd.
    + apply eq_None_not_Some. intros [since Hs]. apply holds_since_some in Hs as (y & Hin' & Hky & _); [|done].
      apply Hin in Hin' as [->|[Hy Hyx]]; [congruence|].
      apply Hyx. apply list_elem_of_lookup in Hy as [j Hj]. assert (i = j) as ->; [|congruence].
      eapply (NoDup_lookup (hold_key <$> holds_stored h)); [done|..]; rewrite list_lookup_fmap; [by rewrite Hi|rewrite Hj; cbn; congruence].
    + apply holds_ext; try done. intros y Hy. rewrite Hin. naive_solver congruence.
Qed.
Lemma holds_append h hold : wf_holds h -> hold_key hold ∉ hold_key <$> holds_stored h -> (ho_len h < length (ho_records h))%nat ->
  let h' := {| ho_records := <[ho_len h := hold]> (ho_records h); ho_len := S (ho_len h) |} in
  wf_holds h' /\ length (ho_records h') = length (ho_records h) /\
  holds_since h' (ho_network hold) (ho_port hold) = Some (ho_since hold) /\
  (forall n p, (n, p) <> hold_key hold -> holds_since h' n p = holds_since h n p).
Proof.
  intros Hw Hnew Hroom. pose proof Hw as [Hl Hn]. cbv zeta. set (h' := {| ho_records := _ |}).
  assert (Es : holds_stored h' = holds_stored h ++ [hold]).
  { unfold h', holds_stored. cbn [ho_records ho_len]. rewrite (take_S_r _ _ hold) by (by apply list_lookup_insert_eq).
    by rewrite take_insert_ge. }
  assert (Hw' : wf_holds h').
  { split; [unfold h'; cbn; rewrite length_insert; lia|]. rewrite Es, fmap_app. apply NoDup_app.
    split_and!; [done| |apply NoDup_singleton]. by intros k Hk ->%list_elem_of_singleton. }
  split_and!; [done|unfold h'; cbn; by rewrite length_insert|..].
  - apply holds_since_some; [done|]. exists hold. rewrite Es. split; [|done]. apply elem_of_app. right. by apply list_elem_of_singleton.
  - intros n p Hne. apply holds_ext; try done. intros y Hy. rewrite Es, elem_of_app, list_elem_of_singleton.
    split; [|by left]. intros [?| ->]; [done|congruence].
Qed.
(** What a record does: unless the pool is empty the new one is kept, another record goes only when the
    pool was full, and then it was an oldest one. *)
Lemma holds_record_spec h n p now : wf_holds h ->
  let '(h', evicted) := holds_record h n p now in
  wf_holds h' /\ length (ho_records h') = length (ho_records h) /\
  ((0 < length (ho_records h))%nat -> holds_since h' n p = Some now) /\
  (forall n' p', (n', p') <> (n, p) -> holds_since h' n' p' = holds_since h n' p' \/
     evicted = true /\ holds_since h' n' p' = None /\
     forall n2 p2 since since2, holds_since h n' p' = Some since -> holds_since h n2 p2 = Some since2 -> since <= since2).
Proof.
  intros Hw. pose proof Hw as [Hl Hn]. unfold holds_record.
  set (hold := {| ho_network := n; ho_port := p; ho_since := now |}).
  destruct (list_find _ _) as [[i x]|] eqn:Ef.
  - apply list_find_Some in Ef as (Hi & Hk%hold_for_key & _).
    destruct (holds_overwrite h i x hold Hw Hi) as (H1 & H2 & H3 & H4); [by left|]. split_and!; try done.
    intros n' p' Hne. left. rewrite H4 by done. by rewrite decide_False by congruence.
  - apply list_find_None in Ef. rewrite Forall_forall in Ef.
    assert (Hnew : hold_key hold ∉ hold_key <$> holds_stored h).
    { intros (x & E & Hx)%list_elem_of_fmap. apply (Ef x Hx). by apply hold_for_key. }
    case_bool_decide as Hroom.
    { destruct (holds_append h hold Hw Hnew Hroom) as (H1 & H2 & H3 & H4). split_and!; try done. intros n' p' Hne. left. by apply H4. }
    pose proof (oldest_spec (ho_records h)) as Ho. destruct (oldest (ho_records h)) as [i|].
    2: { split_and!; try done; [rewrite Ho; cbn; lia|]. by left. }
    destruct Ho as (x & Hi & Hmin).
    assert (Est : holds_stored h = ho_records h) by (unfold holds_stored; rewrite take_ge by lia; done).
    rewrite <-Est in Hi, Hmin. destruct (holds_overwrite h i x hold Hw Hi) as (H1 & H2 & H3 & H4); [by right|].
    split_and!; try done. intros n' p' Hne. rewrite H4 by done. case_decide as Hd; [|by left]. right. split_and!; try done.
    intros n2 p2 since since2 Hs (z & Hz & _ & <-)%holds_since_some; [|done].
    assert (Hx : holds_since h n' p' = Some (ho_since x)).
    { apply holds_since_some; [done|]. exists x. split; [by eapply list_elem_of_lookup_2|done]. }
    rewrite Hx in Hs. injection Hs as <-. by apply Hmin.
Qed.

(** ** What each operation does to the hold-down records *)

Definition relearns (m : gmap Z RouteSlot) (n : Z) : bool := negb (is_reserved n || is_direct m n).
Definition holds_step (m : gmap Z RouteSlot) (h : Holds) (op : TableOp) (a : TableAnswer) : Holds :=
  match op with
  | OpAddDirect n _ => if is_reserved n then h else holds_forget h n
  | OpAddLearned n _ _ _ | OpLearn n _ _ _ => if relearns m n then holds_forget h n else h
  | OpClaim n _ _ _ _ => match a with ALearned Held => h | _ => if relearns m n then holds_forget h n else h end
  | OpReject n p _ now _ => match a with AReject EffectApplied => (holds_record h n p now).1 | _ => h end
  | OpRemove n => if is_some (m !! n) then holds_forget h n else h
  | OpManagementRemoval n => if is_some (m !! n) && negb (is_direct m n) then holds_forget h n else h
  | OpPurge now max_age =>
      fold_left holds_forget (ascending (filter (fun ns => stale now max_age ns.2 = true) m)) h
  | OpClear => holds_clear h
  | _ => h
  end.
Lemma put_holds t n r : tl_holds (table_put t n r).1 = tl_holds t.
Proof. unfold table_put. destruct (table_find t n); [done|]. by case_bool_decide. Qed.
Lemma slot_mut_holds t n f : tl_holds (slot_mut t n f) = tl_holds t.
Proof. unfold slot_mut. by destruct (table_find t n). Qed.
Lemma add_learned_holds t n p hop now : shape t ->
  tl_holds (add_learned t n p hop now).1 = if relearns (rows t) n then holds_forget (tl_holds t) n else tl_holds t.
Proof.
  intros Hs. unfold add_learned, relearns, is_direct. destruct (is_reserved n); [done|]. rewrite lookup_rows by done.
  destruct (rows t !! n) as [s|]; cbn [fmap option_fmap option_map orb negb]; [destruct (rt_direct _); [done|]|];
    by rewrite put_holds.
Qed.
Lemma learn_holds t n p hop now : shape t ->
  tl_holds (table_learn t n p hop now).1 = if relearns (rows t) n then holds_forget (tl_holds t) n else tl_holds t.
Proof.
  intros Hs. unfold table_learn. pose proof (add_learned_holds t n p hop now Hs) as Ha.
  destruct (add_learned t n p hop now) as [ta ok]. unfold relearns, is_direct in *. destruct (is_reserved n); [done|].
  rewrite lookup_rows by done. destruct (rows t !! n) as [s|]; cbn [fmap option_fmap option_map orb negb] in *; [|done].
  destruct (rt_direct _); cbn [negb] in *; [done|]. destruct (rt_port _ =? _); cbn [negb]; [done|]. cbn [fst]. rewrite put_holds. cbn. by destruct (_ <=? _).
Qed.
Lemma claim_holds t n p hop now timing : shape t -> let '(t', l) := apply_claim t n p hop now timing in
  tl_holds t' = match l with Held => tl_holds t | _ => if relearns (rows t) n then holds_forget (tl_holds t) n else tl_holds t end.
Proof.
  intros Hs. unfold apply_claim. pose proof (find_rows t n Hs) as Hf.
  assert (Hgo : forall t2, shape t2 -> is_direct (rows t2) n = is_direct (rows t) n -> tl_holds t2 = tl_holds t ->
    let '(t', l) := table_learn t2 n p hop now in tl_holds t' = match l with Held => tl_holds t
      | _ => if relearns (rows t) n then holds_forget (tl_holds t) n else tl_holds t end).
  { intros t2 Hs2 Ed Eh. pose proof (learn_holds t2 n p hop now Hs2) as Hl. pose proof (learn_refines t2 n p hop now Hs2) as Hr.
    destruct (table_learn t2 n p hop now) as [t' l]. unfold relearns in *. rewrite Ed, Eh in Hl. destruct Hr as [_ Hr].
    assert (l <> Held); [|by destruct l]. intros ->. unfold map_learn in Hr.
    destruct (is_reserved n); [done|]. destruct (is_direct _ _); [done|]. destruct (map_add_learned _ _ _ _ _ _) as [m' []];
      destruct (rows t2 !! n); try done; by destruct (_ =? _). }
  destruct (table_find t n) as [i|i]; [|by apply Hgo].
  destruct Hf as (s & Hi & Hl & En & Hrow). rewrite (nth_lookup_Some _ _ _ _ Hi). cbv zeta.
  destruct (alter_rows t i s (fun s => s <| sl_pending := None |>) Hs Hi Hl) as (Hk1 & Hr1 & _); [done|].
  set (t1 := t <| tl_slots ::= _ |>) in *.
  assert (Ed1 : is_direct (rows t1) n = is_direct (rows t) n) by (unfold is_direct; by rewrite Hr1, En, lookup_insert_eq, Hrow).
  assert (Hgo2 : forall t2, same_slots t1 t2 -> tl_holds t2 = tl_holds t ->
    let '(t', l) := table_learn t2 n p hop now in tl_holds t' = match l with Held => tl_holds t
      | _ => if relearns (rows t) n then holds_forget (tl_holds t) n else tl_holds t end).
  { intros t2 E2 Eh. destruct (same_slots_rows t1 t2 E2) as [Hr2 Hs2]. apply Hgo; [apply Hs2, Hk1|by rewrite Hr2|done]. }
  case_bool_decide; [by apply Hgo2|]. set (t2 := if pending_lapsed _ _ _ then _ else t1).
  assert (E2 : same_slots t1 t2 /\ tl_holds t2 = tl_holds t) by (unfold t2; by destruct (pending_lapsed _ _ _)).
  destruct E2 as [E2 Eh2]. destruct (negb _ && _); [|by apply Hgo2].
  lazymatch goal with |- context [if ?b then table_learn _ _ _ _ _ else _] => destruct b end; [by apply Hgo2|]. exact Eh2.
Qed.
Lemma step_holds t op : shape t -> let '(t', a) := table_step t op in tl_holds t' = holds_step (rows t) (tl_holds t) op a.
Proof.
  intros Hs. destruct op; cbn [table_step holds_step]; try done; try (apply slot_mut_holds).
  - unfold add_direct. destruct (is_reserved n); [done|].
    pose proof (put_holds (t <| tl_holds ::= fun h => holds_forget h n |>) n (route_direct p)). by destruct (table_put _ _ _).
  - pose proof (add_learned_holds t n p hop now Hs). by destruct (add_learned _ _ _ _ _).
  - pose proof (learn_holds t n p hop now Hs). by destruct (table_learn _ _ _ _ _).
  - pose proof (claim_holds t n p hop now timing Hs). by destruct (apply_claim _ _ _ _ _ _).
  - unfold apply_reject. destruct (_ && _); [done|]. cbv zeta. destruct (negb _ || _).
    { lazymatch goal with |- context [if ?b then (_, EffectHeldDown) else _] => by destruct b end. }
    set (t1 := if reason =? _ then _ else _). assert (E1 : tl_holds t1 = tl_holds t)
      by (unfold t1; destruct (reason =? _); unfold mark_unreachable, mark_busy; by rewrite slot_mut_holds).
    rewrite E1. by destruct (holds_record _ _ _ _) as [h []].
  - pose proof (remove_rows t n Hs) as H. destruct (table_remove t n) as [t' r]. destruct H as (_&_&_&_&_&->).
    by destruct (rows t !! n).
  - unfold apply_management_removal, is_direct. rewrite lookup_rows by done. pose proof (remove_rows t n Hs) as H.
    destruct (table_remove t n) as [t' r]. destruct H as (_&_&_&_&_&H). destruct (rows t !! n) as [s|]; cbn; [|done].
    by destruct (rt_direct (sl_route s)).
  - pose proof (purge_refines t now max_age Hs) as H. destruct (purge_stale t now max_age) as [[t' l] k].
    destruct H as (_&_&_&->). destruct (filtered_networks t (stale now max_age) Hs) as [<- _].
    generalize (tl_holds t). induction (List.filter _ _) as [|s l' IH]; intros h; [done|]. cbn. apply IH.
Qed.

(** ** Well-formed rows *)

Record wf_row (n : Z) (s : RouteSlot) : Prop := {
  wr_network : sl_network s = n;
  wr_unreserved : is_reserved n = false;
  wr_direct : rt_direct (sl_route s) = true -> sl_route s = route_direct (rt_port (sl_route s)) /\ sl_pending s = None;
  wr_seen : rt_direct (sl_route s) = false -> rt_last_seen (sl_route s) <> None;
  wr_busy : rt_reachability (sl_route s) = Busy <-> rt_busy_until (sl_route s) <> None;
  wr_flap_width : is_u8 (rt_flap_count (sl_route s));
  wr_flaps : 0 < rt_flap_count (sl_route s) <-> rt_last_port_change (sl_route s) <> None;
  wr_pending : forall q, sl_pending s = Some q -> pn_port q <> rt_port (sl_route s)
}.
Abbreviation wf_rows := (map_Forall wf_row).
Implicit Types m : gmap Z RouteSlot.
Definition wf_table (t : Table) : Prop :=
  shape t /\ wf_rows (rows t) /\ wf_holds (tl_holds t) /\
  forall n p, holds_since (tl_holds t) n p <> None -> exists s, rows t !! n = Some s /\ rt_direct (sl_route s) = false.

Lemma wf_fresh_direct n p : is_reserved n = false -> wf_row n (fresh_slot n (route_direct p)).
Proof. intros Hn. constructor; cbn; try done; width. Qed.
Lemma wf_fresh_learned n p hop now used : is_reserved n = false ->
  wf_row n (fresh_slot n ((route_learned p hop now) <| rt_last_used := used |>)).
Proof. intros Hn. constructor; cbn; try done; width. Qed.
Lemma flaps_range r now : is_u8 (rt_flap_count r) -> 1 <= flaps_of r now <= U8_MAX.
Proof. intros Hu. unfold flaps_of. destruct (rt_last_port_change r); [destruct (_ <? _)|]; width. Qed.
Lemma wf_moved n r p hop now : is_reserved n = false -> is_u8 (rt_flap_count r) -> wf_row n (fresh_slot n (moved_route r p hop now)).
Proof.
  intros Hn Hu. pose proof (flaps_range r now Hu). constructor; cbn; try done; [width|]. split; [done|lia].
Qed.
(** A change of a row's marks keeps it well-formed. *)
Definition marks_only (f : Route -> Route) : Prop := forall r,
  (rt_direct r = true -> f r = r) /\ rt_direct (f r) = rt_direct r /\ rt_port (f r) = rt_port r /\
  (rt_last_seen r <> None -> rt_last_seen (f r) <> None) /\
  ((rt_reachability r = Busy <-> rt_busy_until r <> None) -> rt_reachability (f r) = Busy <-> rt_busy_until (f r) <> None) /\
  rt_flap_count (f r) = rt_flap_count r /\ rt_last_port_change (f r) = rt_last_port_change r.
Lemma wf_marks f n s : marks_only f -> wf_row n s -> wf_row n (on_route f s).
Proof.
  intros Hf [H1 H2 H3 H4 H5 H6 H7 H8]. destruct (Hf (sl_route s)) as (Fd & Fd' & Fp & Fs & Fb & Ff & Fl).
  constructor; cbn [on_route over sl_network sl_route sl_pending]; unfold over; cbn; rewrite ?Fd', ?Fp, ?Ff, ?Fl; auto.
  intros E. destruct (H3 E) as [H3a H3b]. split; [|done]. by rewrite Fd.
Qed.
Lemma busy_marks d : marks_only (fun r => (busy r d).1).
Proof.
  intros r. unfold busy. destruct (rt_direct r) eqn:E; cbn; [by rewrite E|]. case_bool_decide; cbn; rewrite ?E; done.
Qed.
Lemma available_marks : marks_only available.
Proof. intros r. unfold available. destruct (rt_direct r) eqn:E; cbn; rewrite ?E; done. Qed.
Lemma unreachable_marks : marks_only unreachable_route.
Proof. intros r. unfold unreachable_route. destruct (rt_direct r) eqn:E; cbn; rewrite ?E; done. Qed.
Lemma touch_marks now : marks_only (touch_route now).
Proof. intros r. unfold touch_route. destruct (rt_direct r) eqn:E; cbn; rewrite ?E; done. Qed.
#[export] Hint Resolve busy_marks available_marks unreachable_marks touch_marks wf_marks : routes.

Lemma wf_alter f n m : (forall s, wf_row n s -> wf_row n (f s)) -> wf_rows m -> wf_rows (alter f n m).
Proof.
  intros Hf Hm k s Hk. apply lookup_alter_Some in Hk as [(-> & s0 & Hs & ->)|[_ Hs]]; [|by apply Hm]. by apply Hf, Hm.
Qed.
Lemma wf_fmap f m : (forall n s, wf_row n s -> wf_row n (f s)) -> wf_rows m -> wf_rows (f <$> m).
Proof. intros Hf Hm k s Hk. apply lookup_fmap_Some in Hk as (s0 & <- & Hs). by apply Hf, Hm. Qed.
Lemma wf_put R m n r : wf_row n (fresh_slot n r) -> wf_rows m -> wf_rows (map_put R m n r).1.
Proof. intros Hr Hm. unfold map_put. destruct (has_room R m n); [|done]. by apply map_Forall_insert_2. Qed.
Lemma wf_add_learned R m n p hop now : wf_rows m -> wf_rows (map_add_learned R m n p hop now).1.
Proof.
  intros Hm. unfold map_add_learned. destruct (is_reserved n) eqn:E; [done|]. destruct (is_direct m n); [done|].
  apply wf_put; [by apply wf_fresh_learned|done].
Qed.
Lemma wf_learn R m n p hop now : wf_rows m -> wf_rows (map_learn R m n p hop now).1.
Proof.
  intros Hm. unfold map_learn. destruct (is_reserved n) eqn:E; [done|]. destruct (is_direct m n); [done|].
  pose proof (wf_add_learned R m n p hop now Hm). destruct (map_add_learned _ _ _ _ _ _) as [m' ok].
  destruct (m !! n) as [s|] eqn:Es; [|done]. destruct (_ =? _); [done|]. apply map_Forall_insert_2; [|done].
  apply wf_moved; [done|]. by apply (Hm n s).
Qed.
Lemma wf_drop_pending n s : wf_row n s -> wf_row n (s <| sl_pending := None |>).
Proof. intros [H1 H2 H3 H4 H5 H6 H7 H8]. constructor; cbn; try done. intros E. by apply H3 in E as [? _]. Qed.
Lemma wf_claim R c m n p hop now timing : wf_rows m -> wf_rows (map_claim R c m n p hop now timing).1.
Proof.
  intros Hm. unfold map_claim. destruct (m !! n) as [s|] eqn:Es; [|by apply wf_learn]. pose proof (Hm n s Es) as Hs.
  destruct (_ || _) eqn:Eb; [apply wf_learn; apply map_Forall_insert_2; [by apply wf_drop_pending|done]|].
  apply map_Forall_insert_2; [|done]. apply orb_false_iff in Eb as [Eb _]. apply orb_false_iff in Eb as [Eb Ep].
  apply orb_false_iff in Eb as [_ Ed]. destruct Hs as [H1 H2 H3 H4 H5 H6 H7 H8]. constructor; cbn; try done; [by rewrite Ed|].
  intros q [= <-]. cbn. lia.
Qed.
Lemma rejected_marks reason now timing : marks_only (fun r => rejected_route r reason now timing).
Proof. unfold rejected_route. destruct (reason =? _); auto with routes. Qed.
Lemma wf_reject held m n p reason now timing : wf_rows m -> wf_rows (map_reject held m n p reason now timing).1.
Proof.
  intros Hm. unfold map_reject. destruct (m !! n) as [s|] eqn:Es; [|done]. destruct (_ && _); [done|].
  destruct (negb _); [done|]. destruct (held_at _ _ _ _ _); [done|]. apply map_Forall_insert_2; [|done].
  apply (wf_marks (fun r => rejected_route r reason now timing)); [apply rejected_marks|by apply Hm].
Qed.
Lemma wf_clear_busy now n s : wf_row n s -> wf_row n (if busy_lapsed (sl_route s) now
  then on_route (fun r => r <| rt_reachability := Reachable |> <| rt_busy_until := None |>) s else s).
Proof.
  intros Hs. destruct (busy_lapsed (sl_route s) now) eqn:E; [|done]. pose proof Hs as [H1 H2 H3 H4 H5 H6 H7 H8].
  destruct (rt_direct (sl_route s)) eqn:Ed.
  { destruct (H3 eq_refl) as [Hr _]. unfold busy_lapsed in E. rewrite Hr in E. done. }
  constructor; cbn; rewrite ?Ed; done.
Qed.
Lemma map_step_wf R c held m op : wf_rows m -> wf_rows (map_step R c held m op).1.
Proof.
  intros Hm. destruct op; cbn [map_step fst]; try done; try (apply wf_alter; [|done]; intros s; apply wf_marks; auto with routes).
  - unfold map_add_direct. destruct (is_reserved n) eqn:E; [done|].
    pose proof (wf_put R m n (route_direct p) (wf_fresh_direct n p E) Hm). by destruct (map_put _ _ _ _).
  - pose proof (wf_add_learned R m n p hop now Hm). by destruct (map_add_learned _ _ _ _ _ _).
  - pose proof (wf_learn R m n p hop now Hm). by destruct (map_learn _ _ _ _ _ _).
  - pose proof (wf_claim R c m n p hop now timing Hm). by destruct (map_claim _ _ _ _ _ _ _ _).
  - pose proof (wf_reject held m n p reason now timing Hm). by destruct (map_reject _ _ _ _ _ _ _).
  - by apply map_Forall_delete.
  - destruct (is_direct m n); [done|]. by apply map_Forall_delete.
  - apply wf_fmap; [|done]. intros n s Hs. destruct (served_via _ _ _); [|done]. apply wf_marks; auto with routes.
  - apply wf_fmap; [|done]. intros n s Hs. destruct (served_via _ _ _); [|done]. apply wf_marks; auto with routes.
  - apply wf_fmap; [|done]. intros n s Hs. by apply wf_clear_busy.
  - intros n s Hs. apply map_lookup_filter_Some in Hs as [Hs _]. by apply Hm.
  - apply wf_fmap; [|done]. intros n s Hs. destruct (pending_lapsed _ _ _); [|done]. by apply wf_drop_pending.
Qed.

(** ** Which rows an operation can change *)

(** An operation leaves a row as it was but for marks and the pending claim, moves it, or, when it is one of these,
    replaces or removes it. *)
Definition row_kept (m m' : gmap Z RouteSlot) (n : Z) : Prop :=
  (rt_direct <$> (sl_route <$> m' !! n)) = (rt_direct <$> (sl_route <$> m !! n)).
Lemma put_kept R m n r k : k <> n -> row_kept m (map_put R m n r).1 k.
Proof. intros Hne. unfold row_kept, map_put. destruct (has_room R m n); [|done]. cbn. by rewrite lookup_insert_ne. Qed.
Lemma put_learned R m n r : rt_direct r = false -> is_direct m n = false -> m !! n <> None -> row_kept m (map_put R m n r).1 n.
Proof.
  unfold row_kept, map_put, is_direct. intros Hr Hd Hn. destruct (has_room R m n); [|done]. cbn. rewrite lookup_insert_eq.
  destruct (m !! n) as [s|]; [|done]. cbn in *. congruence.
Qed.
Lemma add_learned_kept R m n p hop now k : k <> n \/ m !! k <> None -> row_kept m (map_add_learned R m n p hop now).1 k.
Proof.
  intros H. unfold map_add_learned. destruct (is_reserved n); [done|]. destruct (is_direct m n) eqn:Ed; [done|].
  destruct (decide (k = n)) as [->|Hne]; [|by apply put_kept]. apply put_learned; [done..|]. by destruct H.
Qed.
Lemma learn_kept R m n p hop now k : k <> n \/ m !! k <> None -> row_kept m (map_learn R m n p hop now).1 k.
Proof.
  intros H. unfold map_learn. destruct (is_reserved n); [done|]. destruct (is_direct m n) eqn:Ed; [done|].
  pose proof (add_learned_kept R m n p hop now k H) as Ha. destruct (map_add_learned _ _ _ _ _ _) as [m' ok].
  unfold is_direct in Ed. destruct (m !! n) as [s|] eqn:Es; [|done]. destruct (_ =? _); [done|]. unfold row_kept. cbn.
  destruct (decide (k = n)) as [->|Hne]; [|by rewrite lookup_insert_ne]. rewrite lookup_insert_eq, Es. cbn. by rewrite Ed.
Qed.
Lemma insert_kept m n s s' k : m !! n = Some s -> rt_direct (sl_route s') = rt_direct (sl_route s) ->
  row_kept m (<[n := s']> m) k.
Proof.
  intros Hs E. unfold row_kept. destruct (decide (k = n)) as [->|]; [|by rewrite lookup_insert_ne].
  rewrite lookup_insert_eq, Hs. cbn. by rewrite E.
Qed.
Lemma claim_kept R c m n p hop now timing k : k <> n \/ m !! k <> None -> row_kept m (map_claim R c m n p hop now timing).1 k.
Proof.
  intros H. unfold map_claim. destruct (m !! n) as [s|] eqn:Es; [|by apply learn_kept].
  destruct (_ || _); [|cbn [fst]; by eapply insert_kept].
  set (m0 := <[n := s <| sl_pending := None |>]> m). assert (H0 : row_kept m m0 k) by (by eapply insert_kept).
  assert (k <> n \/ m0 !! k <> None) as Hk.
  { destruct (decide (k = n)) as [->|]; [right|by left]. unfold m0. by rewrite lookup_insert_eq. }
  pose proof (learn_kept R m0 n p hop now k Hk) as Hl. unfold row_kept in *. by rewrite Hl.
Qed.
Lemma alter_kept f m n k : (forall s, rt_direct (sl_route (f s)) = rt_direct (sl_route s)) -> row_kept m (alter f n m) k.
Proof.
  intros Hf. unfold row_kept. destruct (decide (k = n)) as [->|]; [|by rewrite lookup_alter_ne].
  rewrite lookup_alter_eq. destruct (m !! n); cbn; [by rewrite Hf|done].
Qed.
Lemma fmap_kept f m k : (forall s, rt_direct (sl_route (f s)) = rt_direct (sl_route s)) -> row_kept m (f <$> m) k.
Proof. intros Hf. unfold row_kept. rewrite lookup_fmap. destruct (m !! k); cbn; [by rewrite Hf|done]. Qed.
Lemma marks_direct f s : marks_only f -> rt_direct (sl_route (on_route f s)) = rt_direct (sl_route s).
Proof. intros Hf. by destruct (Hf (sl_route s)) as (_ & ? & _). Qed.
(** The networks whose records an operation forgets. *)
Definition forgotten (m : gmap Z RouteSlot) (op : TableOp) (k : Z) : Prop :=
  match op with
  | OpAddDirect n _ | OpRemove n | OpManagementRemoval n => k = n
  | OpPurge now max_age => exists s, m !! k = Some s /\ stale now max_age s = true
  | OpClear => True
  | _ => False
  end.
Lemma map_step_kept R c held m op k : m !! k <> None -> ~ forgotten m op k -> row_kept m (map_step R c held m op).1 k.
Proof.
  intros Hk Hf. destruct op; cbn [map_step forgotten fst] in *; try done;
    try (apply alter_kept; intros s; apply marks_direct; auto with routes).
  - unfold map_add_direct. destruct (is_reserved n); [done|]. pose proof (put_kept R m n (route_direct p) k Hf) as H.
    by destruct (map_put _ _ _ _).
  - pose proof (add_learned_kept R m n p hop now k (or_intror Hk)) as H. by destruct (map_add_learned _ _ _ _ _ _).
  - pose proof (learn_kept R m n p hop now k (or_intror Hk)) as H. by destruct (map_learn _ _ _ _ _ _).
  - pose proof (claim_kept R c m n p hop now timing k (or_intror Hk)) as H. by destruct (map_claim _ _ _ _ _ _ _ _).
  - unfold map_reject. destruct (m !! n) as [s|] eqn:Es; [|done]. destruct (_ && _); [done|]. destruct (negb _); [done|].
    destruct (held_at _ _ _ _ _); [done|]. cbn [fst]. eapply insert_kept; [done|]. cbn.
    by destruct (rejected_marks reason now timing (sl_route s)) as (_ & ? & _).
  - unfold row_kept. by rewrite lookup_delete_ne.
  - destruct (is_direct m n); [done|]. unfold row_kept. cbn [fst]. by rewrite lookup_delete_ne.
  - apply fmap_kept. intros s. destruct (served_via _ _ _); [|done]. apply marks_direct; auto with routes.
  - apply fmap_kept. intros s. destruct (served_via _ _ _); [|done]. apply marks_direct; auto with routes.
  - apply fmap_kept. intros s. by destruct (busy_lapsed _ _).
  - unfold row_kept. rewrite map_lookup_filter. destruct (m !! k) as [s|] eqn:Es; [|done]. cbn.
    destruct (stale now max_age s) eqn:E; [by destruct Hf; exists s|]. done.
  - apply fmap_kept. intros s. by destruct (pending_lapsed _ _ _).
Qed.

(** ** Every reachable table *)

Lemma forget_list_since l : forall h k p, wf_holds h ->
  wf_holds (fold_left holds_forget l h) /\
  holds_since (fold_left holds_forget l h) k p = if decide (k ∈ l) then None else holds_since h k p.
Proof.
  induction l as [|n l IH]; intros h k p Hw; cbn [fold_left].
  { split; [done|]. by rewrite decide_False by apply not_elem_of_nil. }
  destruct (holds_forget_stored h n Hw) as (_ & Hw' & _). destruct (IH (holds_forget h n) k p Hw') as [H1 ->]. split; [done|].
  rewrite holds_forget_since by done. repeat case_decide; set_solver.
Qed.
Lemma elem_of_ascending m n : n ∈ ascending m <-> is_Some (m !! n).
Proof. unfold ascending. by rewrite merge_sort_Permutation, elem_of_elements, elem_of_dom. Qed.
(** A record after an operation was there before and its network was not forgotten, or a reject has just been applied. *)
Lemma holds_step_since m h op a k p : wf_holds h ->
  wf_holds (holds_step m h op a) /\
  (holds_since (holds_step m h op a) k p <> None ->
     (holds_since h k p <> None /\
      (forgotten m op k -> is_reserved k = true \/ m !! k = None \/ exists n, op = OpManagementRemoval n /\ is_direct m k = true)) \/
     exists reason now timing, op = OpReject k p reason now timing /\ a = AReject EffectApplied).
Proof.
  intros Hw.
  assert (Hforget : forall n, wf_holds (holds_forget h n) /\ (holds_since (holds_forget h n) k p <> None -> holds_since h k p <> None /\ k <> n)).
  { intros n. split; [by apply holds_forget_stored|]. rewrite holds_forget_since by done. case_decide; [by intros []|done]. }
  destruct op; cbn [holds_step forgotten]; try (split; [done|]; intros H; left; split; [done|]; by intros []).
  - destruct (is_reserved n) eqn:E; [split; [done|]; intros H; left; split; [done|]; intros ->; by left|].
    destruct (Hforget n) as [H1 H2]. split; [done|]. intros H. left. apply H2 in H as [H Hne]. split; [done|]. by intros ->.
  - destruct (relearns m n); [|split; [done|]; intros H; left; split; [done|by intros []]]. destruct (Hforget n) as [H1 H2]. split; [done|]. intros [H _]%H2. left. split; [done|by intros []].
  - destruct (relearns m n); [|split; [done|]; intros H; left; split; [done|by intros []]]. destruct (Hforget n) as [H1 H2]. split; [done|]. intros [H _]%H2. left. split; [done|by intros []].
  - assert (Hr : wf_holds (if relearns m n then holds_forget h n else h) /\
      (holds_since (if relearns m n then holds_forget h n else h) k p <> None -> holds_since h k p <> None))
      by (destruct (relearns m n); [destruct (Hforget n); naive_solver|done]).
    destruct a as [| | |[]| | |]; (split; [try done; apply Hr|]); intros H; left; (split; [by apply Hr in H || exact H|done]).
  - destruct a as [| | | |[]| |]; try (split; [done|]; by left).
    pose proof (holds_record_spec h n p0 now Hw) as Hs. destruct (holds_record h n p0 now) as [h' ev].
    destruct Hs as (H1 & _ & _ & H2). split; [done|]. cbn. intros H.
    destruct (decide ((k, p) = (n, p0))) as [[= -> ->]|Hne]; [right; by do 3 eexists|]. left. split; [|done].
    destruct (H2 k p Hne) as [<-|(_ & E & _)]; [done|congruence].
  - destruct (m !! n) as [s|] eqn:E; cbn [is_some].
    + destruct (Hforget n) as [H1 H2]. split; [done|]. intros H. left. apply H2 in H as [H Hne]. split; [done|]. by intros ->.
    + split; [done|]. intros H. left. split; [done|]. intros ->. right. by left.
  - destruct (m !! n) as [s|] eqn:E; cbn [is_some andb].
    + destruct (is_direct m n) eqn:Ed; cbn [negb]; [split; [done|]; intros H; left; split; [done|]; intros ->; right; right; by exists n|].
      destruct (Hforget n) as [H1 H2]. split; [done|]. intros H. left. apply H2 in H as [H Hne]. split; [done|]. by intros ->.
    + split; [done|]. intros H. left. split; [done|]. intros ->. right. by left.
  - destruct (forget_list_since (ascending (filter (fun ns => stale now max_age ns.2 = true) m)) h k p Hw) as [H1 H2].
    split; [done|]. rewrite H2. case_decide as Hd; [done|]. intros H. left. split; [done|]. intros (s & Hs & Hst).
    destruct Hd. apply elem_of_ascending. exists s. by apply map_lookup_filter_Some.
  - split; [by apply holds_clear_wf|]. by rewrite holds_clear_since.
Qed.
Lemma wf_step t op : wf_table t -> wf_table (table_step t op).1.
Proof.
  intros (Hs & Hr & Hh & Hlink). pose proof (step_rows t op Hs) as Hrows. pose proof (step_holds t op Hs) as Hholds.
  destruct (table_step t op) as [t' a]. destruct Hrows as [[Hs' _] Hm].
  pose proof (map_step_wf (table_capacity t) (tl_convergence t) (holds_since (tl_holds t)) (rows t) op Hr) as Hr'.
  rewrite <-Hm in Hr'. cbn [fst] in *. split_and!; [done|done|rewrite Hholds; by apply (holds_step_since _ _ _ _ 0 0)|].
  intros k p Hk. rewrite Hholds in Hk. destruct (holds_step_since (rows t) (tl_holds t) op a k p Hh) as [_ Hk'].
  apply Hk' in Hk as [[Hk Hf]|(reason & now & timing & -> & ->)].
  - destruct (Hlink k p Hk) as (s & Es & Ed).
    assert (Hnf : ~ forgotten (rows t) op k).
    { intros H%Hf. destruct H as [H|[H|(n & -> & H)]]; [|congruence|].
      - pose proof (wr_unreserved _ _ (Hr k s Es)). congruence.
      - unfold is_direct in H. rewrite Es in H. congruence. }
    pose proof (map_step_kept (table_capacity t) (tl_convergence t) (holds_since (tl_holds t)) (rows t) op k ltac:(congruence) Hnf) as Hkept.
    rewrite <-Hm in Hkept. unfold row_kept in Hkept. cbn [fst] in Hkept. rewrite Es in Hkept.
    destruct (rows t' !! k) as [s'|]; [|done]. exists s'. split; [done|]. cbn in Hkept. congruence.
  - cbn [map_step] in Hm. unfold map_reject in Hm. destruct (rows t !! k) as [s|] eqn:Es; [|done].
    destruct (negb (rt_direct (sl_route s)) && _); [done|]. destruct (reject_changes (sl_route s) reason now) eqn:Ec; [|done].
    cbn [negb] in Hm. destruct (held_at _ _ _ _ _); [done|]. injection Hm as ->. eexists. rewrite lookup_insert_eq.
    split; [done|]. cbn. destruct (rejected_marks reason now timing (sl_route s)) as (_ & -> & _).
    unfold reject_changes in Ec. by destruct (rt_direct (sl_route s)).
Qed.
Lemma wf_new R H : wf_table (table_new R H).
Proof.
  unfold wf_table, shape, rows, table_stored. cbn. split_and!; try done; [lia|constructor|].
  split; [cbn; lia|constructor].
Qed.
#[export] Hint Resolve wf_step wf_new : routes.
Definition run (t : Table) (ops : list TableOp) : Table := fold_left (fun t op => (table_step t op).1) ops t.
Lemma run_snoc t ops op : run t (ops ++ [op]) = (table_step (run t ops) op).1.
Proof. unfold run. by rewrite fold_left_app. Qed.
Lemma wf_run t ops : wf_table t -> wf_table (run t ops).
Proof. revert t. induction ops as [|op ops IH]; intros t Hw; cbn; [done|]. by apply IH, wf_step. Qed.

(** Whatever operations a routing table has seen, its array is sorted within its capacity; no row is
    for network 0 or 65535; a direct row is exactly the port's direct route, with no mark, age or pending
    claim; a learned row has the time it was last confirmed, a busy deadline exactly when it is marked busy, a
    move count of one octet that is nonzero exactly when the time of a move is kept, and a
    pending claim only for another port than its own; and a hold-down record belongs to a learned row,
    one per network and port. *)
Theorem table_reachable_inv R H ops : let t := run (table_new R H) ops in
  shape t /\ wf_rows (rows t) /\ wf_holds (tl_holds t) /\
  forall n p, holds_since (tl_holds t) n p <> None -> exists s, rows t !! n = Some s /\ rt_direct (sl_route s) = false.
Proof. apply wf_run. auto with routes. Qed.

(** ** Direct routes are fixed *)

Definition replaces (op : TableOp) (n : Z) : bool :=
  match op with OpAddDirect k _ | OpRemove k => k =? n | OpClear => true | _ => false end.
Lemma direct_marks f s : marks_only f -> rt_direct (sl_route s) = true -> on_route f s = s.
Proof. intros Hf Hd. destruct (Hf (sl_route s)) as [E _]. unfold on_route, over. rewrite E by done. by destruct s. Qed.
Lemma put_other R m n r k : k <> n -> (map_put R m n r).1 !! k = m !! k.
Proof. intros Hne. unfold map_put. destruct (has_room R m n); [|done]. cbn. by rewrite lookup_insert_ne. Qed.
Lemma learn_direct R m n p hop now k s : m !! k = Some s -> rt_direct (sl_route s) = true ->
  (map_add_learned R m n p hop now).1 !! k = Some s /\ (map_learn R m n p hop now).1 !! k = Some s.
Proof.
  intros Hs Hd. unfold map_add_learned, map_learn, map_add_learned. destruct (is_reserved n); [done|]. cbn [orb].
  destruct (is_direct m n) eqn:Ed; [done|]. assert (Hne : k <> n) by (intros ->; unfold is_direct in Ed; rewrite Hs in Ed; congruence).
  pose proof (put_other R m n ((route_learned p hop now) <| rt_last_used := kept_use m n p |>) k Hne) as Hp.
  destruct (map_put _ _ _ _) as [m' ok]. cbn [fst] in *. rewrite Hp. split; [done|].
  destruct (m !! n) as [s0|]; [destruct (_ =? _)|]; cbn; rewrite ?Hp, ?lookup_insert_ne by done; done.
Qed.
Lemma map_step_direct R c held m op k s : wf_rows m -> m !! k = Some s -> rt_direct (sl_route s) = true ->
  replaces op k = false -> (map_step R c held m op).1 !! k = Some s.
Proof.
  intros Hm Hs Hd Hr. destruct (wr_direct _ _ (Hm k s Hs) Hd) as [Hroute Hpend].
  assert (Halter : forall f n, marks_only f -> alter (on_route f) n m !! k = Some s).
  { intros f n Hf. destruct (decide (k = n)) as [->|]; [|by rewrite lookup_alter_ne]. rewrite lookup_alter_eq, Hs. cbn.
    by rewrite direct_marks. }
  destruct op; cbn [map_step replaces fst] in *; try done; try (apply Halter; auto with routes).
  - unfold map_add_direct. destruct (is_reserved n); [done|]. pose proof (put_other R m n (route_direct p) k ltac:(lia)) as H.
    destruct (map_put _ _ _ _). cbn in *. by rewrite H.
  - destruct (learn_direct R m n p hop now k s Hs Hd) as [H _]. by destruct (map_add_learned _ _ _ _ _ _).
  - destruct (learn_direct R m n p hop now k s Hs Hd) as [_ H]. by destruct (map_learn _ _ _ _ _ _).
  - unfold map_claim. destruct (m !! n) as [s0|] eqn:E0.
    2: { destruct (learn_direct R m n p hop now k s Hs Hd) as [_ H]. by destruct (map_learn _ _ _ _ _ _). }
    destruct (_ || _) eqn:Eb.
    + destruct (learn_direct R (<[n := s0 <| sl_pending := None |>]> m) n p hop now k s) as [_ H]; [|done|by destruct (map_learn _ _ _ _ _ _)].
      destruct (decide (k = n)) as [->|]; [|by rewrite lookup_insert_ne]. rewrite lookup_insert_eq. f_equal.
      replace s0 with s by congruence. destruct s; cbn in *. by rewrite Hpend.
    + cbn [fst]. apply lookup_insert_Some. right. split; [|done]. intros ->. replace s0 with s in Eb by congruence.
      rewrite Hd, orb_true_r in Eb. done.
  - unfold map_reject. destruct (m !! n) as [s0|] eqn:E0; [|done]. destruct (_ && _); [done|].
    destruct (reject_changes (sl_route s0) reason now) eqn:Ec; cbn [negb]; [|done]. destruct (held_at _ _ _ _ _); [done|]. cbn [fst].
    apply lookup_insert_Some. right. split; [|done]. intros ->. replace s0 with s in Ec by congruence. unfold reject_changes in Ec. by rewrite Hd in Ec.
  - by rewrite lookup_delete_ne by lia.
  - destruct (is_direct m n) eqn:Ed; [done|]. cbn. rewrite lookup_delete_ne; [done|]. intros ->. unfold is_direct in Ed. rewrite Hs in Ed. congruence.
  - rewrite lookup_fmap, Hs. cbn. unfold served_via. by rewrite Hd.
  - rewrite lookup_fmap, Hs. cbn. unfold served_via. by rewrite Hd.
  - rewrite lookup_fmap, Hs. cbn. unfold busy_lapsed. by rewrite Hroute.
  - apply map_lookup_filter_Some. split; [done|]. cbn. unfold stale. by rewrite Hd.
  - rewrite lookup_fmap, Hs. cbn. unfold pending_lapsed. by rewrite Hpend.
Qed.

(** C10: a directly attached network's route is the same after any sequence of learning, claims, rejects, flow control,
    management writes and sweeps: only installing another direct route for it, removing it or
    clearing the table changes it, so no message from the network can divert it. *)
Theorem direct_routes_fixed R H before ops n r :
  let t := run (table_new R H) before in
  table_lookup t n = Some r -> rt_direct r = true -> Forall (fun op => replaces op n = false) ops ->
  table_lookup (run t ops) n = Some r.
Proof.
  cbv zeta. intros Hr Hd Hops. pose proof (wf_run _ before (wf_new R H)) as Hw. set (t := run (table_new R H) before) in *. clearbody t.
  revert t Hr Hw. induction Hops as [|op ops Hop _ IH]; intros t Hr Hw; [done|]. cbn. apply IH; [|by apply wf_step].
  pose proof Hw as (Hs & Hm & _). rewrite lookup_rows in Hr by done. destruct (rows t !! n) as [s|] eqn:Es; [|done].
  injection Hr as <-. pose proof (step_rows t op Hs) as Hstep. destruct (table_step t op) as [t' a]. destruct Hstep as [[Hs' _] Hrow].
  pose proof (map_step_direct (table_capacity t) (tl_convergence t) (holds_since (tl_holds t)) (rows t) op n s Hm Es Hd Hop) as Hk.
  rewrite <-Hrow in Hk. cbn [fst] in *. by rewrite lookup_rows, Hk.
Qed.
Lemma direct_routes_fixed_witness :
  let t := run (table_new 4 2) [OpAddDirect 3 0; OpLearn 7 1 MAC_EMPTY 5] in
  table_lookup (run t [OpClaim 3 1 MAC_EMPTY 9 DEFAULT_TIMING; OpReject 3 1 1 9 DEFAULT_TIMING; OpPurge (2 ^ 60) 1]) 3 = Some (route_direct 0).
Proof.
  cbv zeta. apply (direct_routes_fixed 4 2); [vm_compute; reflexivity|reflexivity|repeat constructor].
Defined.

(** ** Hardened convergence *)

(** Where a pending claim comes from. *)
Lemma put_pending R m n r k q : (map_put R m n r).1 !! k ≫= sl_pending = Some q -> m !! k ≫= sl_pending = Some q.
Proof.
  unfold map_put. destruct (has_room R m n); [|done]. cbn. destruct (decide (k = n)) as [->|]; [by rewrite lookup_insert_eq|].
  by rewrite lookup_insert_ne.
Qed.
Lemma learn_pending R m n p hop now k q :
  ((map_add_learned R m n p hop now).1 !! k ≫= sl_pending = Some q -> m !! k ≫= sl_pending = Some q) /\
  ((map_learn R m n p hop now).1 !! k ≫= sl_pending = Some q -> m !! k ≫= sl_pending = Some q).
Proof.
  unfold map_learn, map_add_learned. destruct (is_reserved n); [done|]. cbn [orb]. destruct (is_direct m n); [done|].
  pose proof (put_pending R m n ((route_learned p hop now) <| rt_last_used := kept_use m n p |>) k q) as Hp.
  destruct (map_put _ _ _ _) as [m' ok]. cbn [fst] in *. split; [done|]. destruct (m !! n) as [s0|]; [|done].
  destruct (_ =? _); [done|]. cbn. destruct (decide (k = n)) as [->|]; [by rewrite lookup_insert_eq|by rewrite lookup_insert_ne].
Qed.
Lemma alter_pending f m n k q : (forall s, sl_pending (f s) = sl_pending s) ->
  alter f n m !! k ≫= sl_pending = Some q -> m !! k ≫= sl_pending = Some q.
Proof.
  intros Hf. destruct (decide (k = n)) as [->|]; [|by rewrite lookup_alter_ne]. rewrite lookup_alter_eq.
  destruct (m !! n); cbn; [by rewrite Hf|done].
Qed.
Lemma fmap_pending f m k q : (forall s, sl_pending (f s) = sl_pending s \/ sl_pending (f s) = None) ->
  (f <$> m) !! k ≫= sl_pending = Some q -> m !! k ≫= sl_pending = Some q.
Proof.
  intros Hf. rewrite lookup_fmap. destruct (m !! k) as [s|]; cbn; [|done]. destruct (Hf s) as [->| ->]; done.
Qed.
Lemma map_step_pending R c held m op k q : (map_step R c held m op).1 !! k ≫= sl_pending = Some q ->
  m !! k ≫= sl_pending = Some q \/
  exists hop timing, op = OpClaim k (pn_port q) hop (pn_first_seen q) timing /\ (map_step R c held m op).2 = ALearned Held.
Proof.
  destruct op; cbn [map_step fst snd]; try (by left); try (intros H; left; by eapply alter_pending in H).
  - unfold map_add_direct. destruct (is_reserved n); [by left|]. pose proof (put_pending R m n (route_direct p) k q).
    destruct (map_put _ _ _ _). left. auto.
  - destruct (learn_pending R m n p hop now k q) as [H _]. destruct (map_add_learned _ _ _ _ _ _). left. auto.
  - destruct (learn_pending R m n p hop now k q) as [_ H]. destruct (map_learn _ _ _ _ _ _). left. auto.
  - unfold map_claim. destruct (m !! n) as [s|] eqn:Es.
    2: { destruct (learn_pending R m n p hop now k q) as [_ H]. destruct (map_learn _ _ _ _ _ _). left. auto. }
    destruct (_ || _).
    + destruct (learn_pending R (<[n := s <| sl_pending := None |>]> m) n p hop now k q) as [_ H].
      destruct (map_learn _ _ _ _ _ _). intros Hq. left. apply H in Hq.
      destruct (decide (k = n)) as [->|]; [by rewrite lookup_insert_eq in Hq|by rewrite lookup_insert_ne in Hq].
    + cbn [fst snd]. destruct (decide (k = n)) as [->|]; [|rewrite lookup_insert_ne by done; by left]. rewrite lookup_insert_eq.
      intros [= <-]. right. by exists hop, timing.
  - unfold map_reject. destruct (m !! n) as [s|] eqn:Es; [|by left]. destruct (_ && _); [by left|]. destruct (negb _); [by left|].
    destruct (held_at _ _ _ _ _); [by left|]. cbn. intros Hq. left.
    destruct (decide (k = n)) as [->|]; [by rewrite lookup_insert_eq in Hq; rewrite Es|by rewrite lookup_insert_ne in Hq].
  - intros Hq. left. destruct (decide (k = n)) as [->|]; [by rewrite lookup_delete_eq in Hq|by rewrite lookup_delete_ne in Hq].
  - destruct (is_direct m n); cbn; [by left|]. intros Hq. left.
    destruct (decide (k = n)) as [->|]; [by rewrite lookup_delete_eq in Hq|by rewrite lookup_delete_ne in Hq].
  - intros H. left. eapply fmap_pending; [|done]. intros s. left. by destruct (served_via _ _ _).
  - intros H. left. eapply fmap_pending; [|done]. intros s. left. by destruct (served_via _ _ _).
  - intros H. left. eapply fmap_pending; [|done]. intros s. left. by destruct (busy_lapsed _ _).
  - rewrite map_lookup_filter. intros Hq. left. destruct (m !! k) as [s|]; [|done]. cbn in *. by case_guard.
  - intros H. left. eapply fmap_pending; [|exact H]. intros s. cbn beta. destruct (pending_lapsed _ _ _); [by right|by left].
Qed.
Lemma pending_origin R H ops n q : table_pending (run (table_new R H) ops) n = Some q ->
  exists pre hop timing post, ops = pre ++ OpClaim n (pn_port q) hop (pn_first_seen q) timing :: post /\
    (table_step (run (table_new R H) pre) (OpClaim n (pn_port q) hop (pn_first_seen q) timing)).2 = ALearned Held /\
    forall mid rest, post = mid ++ rest ->
      table_pending (run (table_new R H) (pre ++ OpClaim n (pn_port q) hop (pn_first_seen q) timing :: mid)) n = Some q.
Proof.
  induction ops as [|op ops IH] using rev_ind; [done|]. intros Hq. pose proof Hq as Hq0. rewrite run_snoc in Hq.
  pose proof (wf_run _ ops (wf_new R H)) as (Hs & _). set (t := run (table_new R H) ops) in *.
  pose proof (step_rows t op Hs) as Hstep. destruct (table_step t op) as [t' a] eqn:Et. destruct Hstep as [[Hs' _] Hrow]. cbn [fst] in Hq.
  rewrite pending_rows in Hq by done.
  pose proof (map_step_pending (table_capacity t) (tl_convergence t) (holds_since (tl_holds t)) (rows t) op n q) as Hp.
  rewrite <-Hrow in Hp. cbn [fst snd] in Hp. apply Hp in Hq as [Hq|(hop & timing & -> & ->)].
  - rewrite <-pending_rows in Hq by done. destruct (IH Hq) as (pre & hop & timing & post & -> & Hheld & Hmid).
    exists pre, hop, timing, (post ++ [op]). rewrite <-(assoc_L (++)). split_and!; [done|done|].
    intros mid rest E. destruct rest as [|x rest _] using rev_ind.
    + rewrite app_nil_r in E. subst mid. rewrite app_comm_cons, (assoc_L (++)) in *. exact Hq0.
    + rewrite (assoc_L (++)) in E. apply app_inj_tail in E as [E _]. by apply (Hmid mid rest).
  - exists ops, hop, timing, []. split_and!; [done|by fold t; rewrite Et|]. intros mid rest E. symmetry in E. apply app_eq_nil in E as [-> _].
    exact Hq0.
Qed.

(** C6: under hardened convergence a claim moves a route to another port only when an earlier claim for the same
    network and port was held, no longer ago than the corroboration window, and has stayed pending through
    everything that happened since; a single claim never moves a route. *)
Theorem hardened_two_claims R H ops n p hop now timing from flaps :
  let t := run (table_new R H) ops in
  tl_convergence t = Hardened -> (apply_claim t n p hop now timing).2 = Moved from flaps ->
  exists pre hop0 first timing0 post, ops = pre ++ OpClaim n p hop0 first timing0 :: post /\
    (table_step (run (table_new R H) pre) (OpClaim n p hop0 first timing0)).2 = ALearned Held /\
    instant_saturating_duration_since now first <= corroboration timing /\
    forall mid rest, post = mid ++ rest ->
      table_pending (run (table_new R H) (pre ++ OpClaim n p hop0 first timing0 :: mid)) n =
        Some {| pn_port := p; pn_first_seen := first |}.
Proof.
  cbv zeta. intros Hc Hm. pose proof (wf_run _ ops (wf_new R H)) as (Hs & _). set (t := run (table_new R H) ops) in *.
  pose proof (claim_refines t n p hop now timing Hs) as Hr. destruct (apply_claim t n p hop now timing) as [t' l]. cbn in Hm. subst l.
  destruct Hr as [_ Hr]. unfold map_claim in Hr. destruct (rows t !! n) as [s|] eqn:Es.
  2: { unfold map_learn, is_direct in Hr. rewrite Es in Hr. destruct (is_reserved n); [done|]. destruct (map_add_learned _ _ _ _ _ _) as [? []]; done. }
  rewrite Hc in Hr. cbn [bool_decide decide decide_rel] in Hr. rewrite (bool_decide_eq_false_2 (Hardened = Standard)) in Hr by done. cbn [orb] in Hr.
  destruct (rt_direct (sl_route s) || (rt_port (sl_route s) =? p)) eqn:Ed; cbn [orb] in Hr.
  { unfold map_learn, is_direct in Hr. rewrite lookup_insert_eq in Hr. cbn in Hr. destruct (is_reserved n); [done|].
    destruct (rt_direct (sl_route s)); [done|]. cbn [orb] in Ed. rewrite Ed in Hr. by destruct (map_add_learned _ _ _ _ _ _) as [? []]. }
  destruct (corroborates s p now (corroboration timing)) eqn:Ec; [|done]. unfold corroborates in Ec.
  destruct (sl_pending s) as [[port first]|] eqn:Ep; [|done]. apply andb_prop in Ec as [Eport%Z.eqb_eq Ew%Z.leb_le]. cbn in Eport, Ew. subst port.
  assert (Hpend : table_pending t n = Some {| pn_port := p; pn_first_seen := first |}) by (rewrite pending_rows, Es by done; exact Ep).
  apply pending_origin in Hpend as (pre & hop0 & timing0 & post & E & Hheld & Hmid). by exists pre, hop0, first, timing0, post.
Qed.
(** A route on port 0, claimed twice for port 1. *)
Definition example_claim (now : Instant) : TableOp := OpClaim 7 1 MAC_EMPTY now DEFAULT_TIMING.
Definition example_routes : list TableOp := [OpConvergence Hardened; OpLearn 7 0 MAC_EMPTY 5; example_claim 10].
Lemma hardened_two_claims_witness :
  (table_step (run (table_new 4 2) example_routes) (example_claim 20)).2 = ALearned (Moved 0 1) /\
  exists pre hop0 first timing0 post, example_routes = pre ++ OpClaim 7 1 hop0 first timing0 :: post /\
    (table_step (run (table_new 4 2) pre) (OpClaim 7 1 hop0 first timing0)).2 = ALearned Held.
Proof.
  split; [vm_compute; reflexivity|].
  destruct (hardened_two_claims 4 2 example_routes 7 1 MAC_EMPTY 20 DEFAULT_TIMING 0 1) as (pre & hop0 & first & timing0 & post & E & Hh & _);
    [vm_compute; reflexivity|vm_compute; reflexivity|]. by exists pre, hop0, first, timing0, post.
Defined.

(** ** Rejects are held down *)

Lemma holds_step_length m h op a : wf_holds h -> length (ho_records (holds_step m h op a)) = length (ho_records h).
Proof.
  intros Hw. assert (Hforget : forall n, length (ho_records (holds_forget h n)) = length (ho_records h))
    by (intros n; by apply holds_forget_stored).
  destruct op; cbn [holds_step]; try done; try (destruct (relearns m n); [apply Hforget|done]).
  - destruct (is_reserved n); [done|apply Hforget].
  - destruct a as [| | |[]| | |]; try done; (destruct (relearns m n); [apply Hforget|done]).
  - destruct a as [| | | |[]| |]; try done. pose proof (holds_record_spec h n p now Hw) as Hs.
    destruct (holds_record h n p now). by destruct Hs as (_ & ? & _).
  - destruct (is_some _); [apply Hforget|done].
  - destruct (_ && _); [apply Hforget|done].
  - generalize (ascending (filter (fun ns => stale now max_age ns.2 = true) m)). intros l. revert h Hw Hforget.
    induction l as [|n l IH]; intros h Hw Hforget; [done|]. cbn. destruct (holds_forget_stored h n Hw) as (_ & Hw' & E).
    rewrite IH; [done|done|]. intros k. by apply holds_forget_stored.
  - by apply holds_clear_wf.
Qed.
Lemma run_pool R H ops : length (ho_records (tl_holds (run (table_new R H) ops))) = H.
Proof.
  induction ops as [|op ops IH] using rev_ind; [apply length_replicate|]. rewrite run_snoc.
  pose proof (wf_run _ ops (wf_new R H)) as (Hs & _ & Hh & _). pose proof (step_holds (run (table_new R H) ops) op Hs) as Ho.
  destruct (table_step _ op) as [t a]. cbn. rewrite Ho. by rewrite holds_step_length.
Qed.
Lemma hold_survives R c held m m' h op a n p since : wf_holds h -> holds_since h n p = Some since ->
  (m', a) = map_step R c held m op ->
  holds_since (holds_step m h op a) n p = Some since \/
  match op with
  | OpAddDirect k _ | OpAddLearned k _ _ _ | OpLearn k _ _ _ | OpClaim k _ _ _ _ | OpRemove k | OpManagementRemoval k => k = n
  | OpPurge _ _ => m' !! n = None
  | OpClear => True
  | OpReject k port _ at_ _ =>
      a = AReject EffectApplied /\
      ((k, port) = (n, p) \/ forall k2 p2 since2, holds_since h k2 p2 = Some since2 -> since <= since2)
  | _ => False
  end.
Proof.
  intros Hw Hs Hm. assert (Hforget : forall k, holds_since (holds_forget h k) n p = Some since \/ k = n).
  { intros k. rewrite holds_forget_since by done. case_decide; [by right|by left]. }
  destruct op as [k q|k q hop now|k q hop now|k q hop now timing|k q reason now timing|k|k|k deadline|k|k|q peer deadline|q peer|now|k now
    |now max_age|now timing|c'|]; cbn [holds_step]; try (by left); try (destruct (relearns m k); [apply Hforget|by left]).
  - destruct (is_reserved k); [by left|apply Hforget].
  - destruct a as [| | |[]| | |]; try (by left); (destruct (relearns m k); [apply Hforget|by left]).
  - destruct a as [| | | |[]| |]; try (by left). pose proof (holds_record_spec h k q now Hw) as Hr.
    destruct (holds_record h k q now) as [h' ev]. destruct Hr as (_ & _ & _ & Hr). cbn [fst].
    destruct (decide ((n, p) = (k, q))) as [[= -> ->]|Hne]; [right; split; [done|by left]|].
    destruct (Hr n p Hne) as [->|(_ & _ & Hmin)]; [by left|]. right. split; [done|]. right. intros k2 p2 since2. by apply Hmin.
  - destruct (is_some _); [apply Hforget|by left].
  - destruct (_ && _); [apply Hforget|by left].
  - destruct (forget_list_since (ascending (filter (fun ns => stale now max_age ns.2 = true) m)) h n p Hw) as [_ ->].
    case_decide as Hd; [|by left]. right. cbn [map_step] in Hm. injection Hm as -> _. apply elem_of_ascending in Hd as [s Hd].
    apply map_lookup_filter_Some in Hd as [Hd Hst]. apply map_lookup_filter_None. right. intros x Hx. cbn in *. replace x with s by congruence.
    by rewrite Hst.
  - by right.
Qed.

(** A reject that changed a route is recorded; while the record for its network and arrival port stands and
    the hold-down has not passed, no reject from that port changes any route; and the record
    stands through every other operation, unless its network is learned afresh, made direct, removed, aged
    out or cleared, or the pool was full and it was an oldest record. *)
Theorem reject_hold_down R H before n p reason now timing : let t := run (table_new R H) before in
  let '(t', e) := apply_reject t n p reason now timing in
  (e = EffectApplied -> (0 < H)%nat -> holds_since (tl_holds t') n p = Some now) /\
  (forall since, holds_since (tl_holds t) n p = Some since ->
     instant_saturating_duration_since now since < hold_down timing -> rows t' = rows t /\ e <> EffectApplied) /\
  (forall op since, let t1 := (table_step t op).1 in
     holds_since (tl_holds t) n p = Some since ->
     holds_since (tl_holds t1) n p = Some since \/
     match op with
     | OpAddDirect k _ | OpAddLearned k _ _ _ | OpLearn k _ _ _ | OpClaim k _ _ _ _ | OpRemove k | OpManagementRemoval k => k = n
     | OpPurge _ _ => rows t1 !! n = None
     | OpClear => True
     | OpReject k port _ at_ _ =>
         (table_step t op).2 = AReject EffectApplied /\
         ((k, port) = (n, p) \/
          forall k2 p2 since2, holds_since (tl_holds t) k2 p2 = Some since2 -> since <= since2)
     | _ => False
     end).
Proof.
  cbv zeta. pose proof (wf_run _ before (wf_new R H)) as (Hs & Hm & Hh & Hlink).
  assert (HH : length (ho_records (tl_holds (run (table_new R H) before))) = H) by apply run_pool.
  set (t := run (table_new R H) before) in *. clearbody t.
  pose proof (reject_refines t n p reason now timing Hs) as Hr.
  pose proof (step_holds t (OpReject n p reason now timing) Hs) as Hst. cbn [table_step] in Hst.
  destruct (apply_reject t n p reason now timing) as [t' e]. destruct Hr as [_ Hr]. split_and!.
  - intros -> Hpos. cbn in Hst. pose proof (holds_record_spec (tl_holds t) n p now Hh) as Hspec. rewrite Hst.
    destruct (holds_record _ _ _ _) as [h' ev]. destruct Hspec as (_ & _ & Hrec & _). apply Hrec. by rewrite HH.
  - intros since Hsince Hlt. unfold map_reject, held_at in Hr. rewrite Hsince in Hr. rewrite (proj2 (Z.ltb_lt _ _)) in Hr by done.
    destruct (rows t !! n) as [s|]; [|by injection Hr as -> ->]. destruct (_ && _); [by injection Hr as -> ->|].
    destruct (negb _); by injection Hr as -> ->.
  - intros op since Hsince. pose proof (step_holds t op Hs) as Ho. pose proof (step_rows t op Hs) as Hrw.
    destruct (table_step t op) as [t1 a]. cbn [fst snd] in *. destruct Hrw as [_ Hrw]. rewrite Ho. exact (hold_survives _ _ _ _ _ _ _ _ _ _ _ Hh Hsince Hrw).
Qed.

(** ** The sweep of busy marks *)

Lemma effective_swept r now0 now : (rt_reachability r = Busy <-> rt_busy_until r <> None) -> now0 <= now ->
  effective (if busy_lapsed r now0 then r <| rt_reachability := Reachable |> <| rt_busy_until := None |> else r) now = effective r now.
Proof.
  intros Hb Hle. destruct (busy_lapsed r now0) eqn:E; [|done]. unfold busy_lapsed in E. unfold effective. cbn.
  destruct (rt_busy_until r) as [d|]; [|done]. apply Z.leb_le in E. rewrite (proj2 Hb) by done.
  by rewrite bool_decide_eq_true_2, (proj2 (Z.leb_le _ _)) by (done || lia).
Qed.
(** A reject's effect depends on the effective state only. *)
Lemma reject_changes_effective r reason now : (rt_reachability r = Busy <-> rt_busy_until r <> None) ->
  reject_changes r reason now = negb (rt_direct r) &&
    (if reason =? NOT_DIRECTLY_CONNECTED then negb (bool_decide (effective r now = Unreachable)) else
     if reason =? ROUTER_BUSY then bool_decide (effective r now = Reachable) else false).
Proof.
  intros Hb. unfold reject_changes, effective, busy_lapsed. f_equal. destruct (rt_reachability r), (rt_busy_until r) as [d|]; cbn;
    try (by destruct (reason =? _)); destruct (d <=? now); try done; by destruct Hb as [H1 H2]; (specialize (H2 ltac:(done)) || specialize (H1 eq_refl)).
Qed.

(** When the sweep of lapsed busy marks runs never matters. In any reachable table, for every network and every time from the
    sweep on, the effective reachability is the same swept or not, so is the answer a reject
    draws, and a second sweep at the same time finds nothing. *)
Theorem busy_sweep_unobservable R H ops now0 now n : now0 <= now ->
  let t := run (table_new R H) ops in
  let t' := (clear_expired_busy t now0).1 in
  effective_reachability t' n now = effective_reachability t n now /\
  (forall p reason timing, (apply_reject t' n p reason now timing).2 = (apply_reject t n p reason now timing).2) /\
  (clear_expired_busy t' now0).2 = 0%nat.
Proof.
  intros Hle. cbv zeta. pose proof (wf_run _ ops (wf_new R H)) as (Hs & Hm & _). set (t := run (table_new R H) ops) in *. clearbody t.
  set (f := fun s => if busy_lapsed (sl_route s) now0
     then on_route (fun r => r <| rt_reachability := Reachable |> <| rt_busy_until := None |>) s else s).
  destruct (over_stored_rows t f Hs) as (Hs' & _ & Hr & _); [intros s; unfold f; by destruct (busy_lapsed _ _)|].
  change (clear_expired_busy t now0).1 with (over_stored t f). set (t' := over_stored t f) in *.
  assert (Hroute : forall s, sl_route (f s) = if busy_lapsed (sl_route s) now0
     then (sl_route s) <| rt_reachability := Reachable |> <| rt_busy_until := None |> else sl_route s)
    by (intros s; unfold f; by destruct (busy_lapsed _ _)).
  split_and!.
  - unfold effective_reachability. rewrite !lookup_rows, Hr, lookup_fmap by done. destruct (rows t !! n) as [s|] eqn:Es; [|done]. cbn.
    f_equal. rewrite Hroute. apply effective_swept; [|done]. by apply (Hm n s).
  - intros p reason timing. pose proof (reject_refines t n p reason now timing Hs) as H1.
    pose proof (reject_refines t' n p reason now timing Hs') as H2.
    destruct (apply_reject t n p reason now timing) as [t1 e1], (apply_reject t' n p reason now timing) as [t2 e2].
    destruct H1 as [_ H1], H2 as [_ H2]. cbn. unfold map_reject in *. rewrite Hr, lookup_fmap in H2.
    change (tl_holds t') with (tl_holds t) in H2. destruct (rows t !! n) as [s|] eqn:Es; cbn [fmap option_fmap option_map] in H2; [|congruence].
    assert (Hd : rt_direct (sl_route (f s)) = rt_direct (sl_route s)) by (rewrite Hroute; by destruct (busy_lapsed _ _)).
    assert (Hc : reject_changes (sl_route (f s)) reason now = reject_changes (sl_route s) reason now).
    { pose proof (wr_busy _ _ (Hm n s Es)) as Hb. rewrite !reject_changes_effective, Hd; [|done|].
      - by rewrite Hroute, effective_swept.
      - rewrite Hroute. by destruct (busy_lapsed _ _). }
    rewrite Hd, Hc in H2. destruct (negb (rt_direct _) && _); [congruence|]. destruct (negb _); [congruence|].
    destruct (held_at _ _ _ _ _); congruence.
  - cbn [clear_expired_busy snd]. rewrite count_rows by done. unfold map_count. rewrite Hr. apply map_size_empty_iff, map_empty.
    intros k. apply map_lookup_filter_None. right. intros s (s0 & <- & _)%lookup_fmap_Some. cbn. rewrite Hroute.
    destruct (busy_lapsed (sl_route s0) now0) eqn:E; [done|]. by rewrite E.
Qed.
Lemma busy_sweep_unobservable_witness :
  let t := run (table_new 4 2) [OpLearn 7 0 MAC_EMPTY 5; OpBusy 7 30] in
  (clear_expired_busy t 40).2 = 1%nat /\
  effective_reachability (clear_expired_busy t 40).1 7 50 = effective_reachability t 7 50.
Proof.
  cbv zeta. split; [vm_compute; reflexivity|].
  exact (proj1 (busy_sweep_unobservable 4 2 [OpLearn 7 0 MAC_EMPTY 5; OpBusy 7 30] 40 50 7 ltac:(lia))).
Defined.
Lemma reject_hold_down_witness :
  let t := run (table_new 4 2) [OpLearn 7 0 MAC_EMPTY 5] in
  let r := apply_reject t 7 1 NOT_DIRECTLY_CONNECTED 9 DEFAULT_TIMING in
  r.2 = EffectApplied /\ holds_since (tl_holds r.1) 7 1 = Some 9.
Proof.
  cbv zeta. split; [vm_compute; reflexivity|].
  pose proof (reject_hold_down 4 2 [OpLearn 7 0 MAC_EMPTY 5] 7 1 NOT_DIRECTLY_CONNECTED 9 DEFAULT_TIMING) as H. cbv zeta in H.
  destruct (apply_reject _ _ _ _ _ _) as [t' e] eqn:E. destruct H as [H _]. apply H; [|lia].
  vm_compute in E. by injection E as _ <-.
Defined.
