(* ===== verification/Discovery.v ===== *)
(** * Looking for routes (crate bacnet-router-core, discovery.rs)

    When to send a Who-Is-Router: at most once per network per cooldown, for a bounded number of networks at a
    time, in a fixed array sorted by network. *)

From S2P Require Import Prelude Time Arrays.
Open Scope Z_scope.

(** [Entry] (bacnet-router-core/src/discovery.rs) *)
Record SearchEntry := { se_network : Z; se_solicited : Instant }.
(** [NO_ENTRY] (bacnet-router-core/src/discovery.rs) *)
Definition NO_ENTRY : SearchEntry := {| se_network := 0; se_solicited := INSTANT_ZERO |}.
(** [Discovery] (bacnet-router-core/src/discovery.rs) *)
Record Discovery := { ds_entries : list SearchEntry; ds_len : nat; ds_cancelled : bool }.
#[export] Instance eta_Discovery : Settable Discovery := fun d =>
  {| ds_entries := ds_entries d; ds_len := ds_len d; ds_cancelled := ds_cancelled d |}.
(** [Discovery::new] (bacnet-router-core/src/discovery.rs) *)
Definition discovery_new (D : nat) : Discovery :=
  {| ds_entries := replicate D NO_ENTRY; ds_len := 0; ds_cancelled := false |}.
(** [Discovery::stored] (bacnet-router-core/src/discovery.rs) *)
Definition searches (d : Discovery) : list SearchEntry := take (ds_len d) (ds_entries d).
(** [Discovery::find] (bacnet-router-core/src/discovery.rs) *)
Definition search_find (d : Discovery) (network : Z) : Result nat nat := binary_search se_network (searches d) network.
(** [Discovery::should_solicit] (bacnet-router-core/src/discovery.rs) *)
Definition should_solicit (d : Discovery) (network : Z) (now : Instant) (cooldown : Duration) : Discovery * bool :=
  if ds_cancelled d || (network =? 0) || (network =? 65535) then (d, false) else
  let entry := {| se_network := network; se_solicited := now |} in
  match search_find d network with
  | Ok index =>
      let last := se_solicited (nth index (ds_entries d) NO_ENTRY) in
      if instant_saturating_duration_since now last <? cooldown then (d, false) else
      (d <| ds_entries ::= <[index := entry]> |>, true)
  | Err index =>
      if bool_decide (ds_len d = length (ds_entries d)) then (d, false) else
      (d <| ds_entries ::= fun l => sift_down (ds_len d - index) index (<[ds_len d := entry]> l) |> <| ds_len ::= S |>, true)
  end.
Definition search_old (now : Instant) (max_age : Duration) (e : SearchEntry) : bool :=
  max_age <? instant_saturating_duration_since now (se_solicited e).
(** The searches, the networks [expired] is called with, and the count.
    [Discovery::expire] (bacnet-router-core/src/discovery.rs) *)
Definition search_expire (d : Discovery) (now : Instant) (max_age : Duration) : Discovery * list Z * nat :=
  let expired := map se_network (List.filter (search_old now max_age) (searches d)) in
  let '(l, kept, _) := compact_loop (search_old now max_age) (fun _ a => a) (ds_len d) 0 0 (ds_entries d) tt in
  (d <| ds_entries := fill kept (ds_len d) NO_ENTRY l |> <| ds_len := kept |>, expired, (ds_len d - kept)%nat).
(** [Discovery::clear] (bacnet-router-core/src/discovery.rs) *)
Definition search_clear (d : Discovery) : Discovery :=
  d <| ds_entries := fill 0 (ds_len d) NO_ENTRY (ds_entries d) |> <| ds_len := 0%nat |> <| ds_cancelled := false |>.
(** [Discovery::cancel] (bacnet-router-core/src/discovery.rs) *)
Definition search_cancel (d : Discovery) : Discovery :=
  d <| ds_cancelled := true |> <| ds_entries := fill 0 (ds_len d) NO_ENTRY (ds_entries d) |> <| ds_len := 0%nat |>.
(** [Discovery::last_solicited] (bacnet-router-core/src/discovery.rs) *)
Definition last_solicited (d : Discovery) (network : Z) : option Instant :=
  match search_find d network with Ok index => se_solicited <$> ds_entries d !! index | Err _ => None end.

(** ** The searches as a finite map *)

Definition search_shape (d : Discovery) : Prop :=
  (ds_len d <= length (ds_entries d))%nat /\ sorted se_network (searches d).
Definition search_map (d : Discovery) : gmap Z SearchEntry := as_map se_network (searches d).
Lemma searches_length d : search_shape d -> length (searches d) = ds_len d.
Proof. intros [H _]. unfold searches. rewrite length_take. lia. Qed.
Lemma search_find_map d n : search_shape d ->
  match search_find d n with
  | Ok i => exists e, ds_entries d !! i = Some e /\ searches d !! i = Some e /\ (i < ds_len d)%nat /\ se_network e = n /\ search_map d !! n = Some e
  | Err i => (i <= ds_len d)%nat /\ search_map d !! n = None /\ (forall x, x ∈ take i (searches d) -> se_network x < n) /\
      (forall x, x ∈ drop i (searches d) -> n < se_network x)
  end.
Proof.
  intros Hs. pose proof (binary_search_map se_network (searches d) n (proj2 Hs)) as H.
  unfold search_find. destruct (binary_search _ _ _) as [i|i].
  - destruct H as (e & Hi & E & Hr). exists e. pose proof (lookup_lt_Some _ _ _ Hi) as Hl. rewrite searches_length in Hl by done.
    split_and!; try done. unfold searches in Hi. by rewrite lookup_take_lt in Hi.
  - rewrite searches_length in H by done. exact H.
Qed.
Lemma last_solicited_map d n : search_shape d -> last_solicited d n = se_solicited <$> search_map d !! n.
Proof.
  intros Hs. unfold last_solicited. pose proof (search_find_map d n Hs) as H. destruct (search_find d n).
  - by destruct H as (e & -> & _ & _ & _ & ->).
  - by destruct H as (_ & -> & _).
Qed.
(** What the searches promise: the map's answer and the map. *)
Definition map_solicit (D : nat) (cancelled : bool) (m : gmap Z SearchEntry) (n : Z) (now : Instant) (cooldown : Duration)
  : gmap Z SearchEntry * bool :=
  let go := match m !! n with
            | Some e => cooldown <=? instant_saturating_duration_since now (se_solicited e)
            | None => bool_decide (size m < D)%nat
            end in
  if negb cancelled && negb (n =? 0) && negb (n =? 65535) && go
  then (<[n := {| se_network := n; se_solicited := now |}]> m, true) else (m, false).
Lemma should_solicit_refines d n now cooldown : search_shape d ->
  let '(d', b) := should_solicit d n now cooldown in
  search_shape d' /\ length (ds_entries d') = length (ds_entries d) /\ ds_cancelled d' = ds_cancelled d /\
  (search_map d', b) = map_solicit (length (ds_entries d)) (ds_cancelled d) (search_map d) n now cooldown.
Proof.
  intros Hs. pose proof Hs as [Hl Hso]. unfold should_solicit, map_solicit. destruct (ds_cancelled d) eqn:Ec; [done|]. cbn [orb negb andb].
  destruct (n =? 0); [done|]. destruct (n =? 65535); [done|]. cbn [orb negb andb].
  set (entry := {| se_network := n; se_solicited := now |}).
  pose proof (search_find_map d n Hs) as Hf. destruct (search_find d n) as [i|i].
  - destruct Hf as (e & Hi & Hi' & Hil & En & ->). rewrite (nth_lookup_Some _ _ _ _ Hi), Z.leb_antisym.
    destruct (_ <? _); cbn [negb]; [done|].
    destruct (sorted_replace_at se_network (searches d) i e entry Hso Hi' En) as [H1 H2].
    unfold search_shape, search_map, searches in *. unfold over. cbn. rewrite length_insert, take_insert_lt by done.
    split_and!; try done. by f_equal.
  - destruct Hf as (Hi & -> & Hlo & Hhi). unfold search_map. rewrite as_map_size, searches_length by done.
    case_bool_decide as Hfull; [by rewrite bool_decide_eq_false_2 by lia|]. rewrite bool_decide_eq_true_2 by lia.
    destruct (sorted_insert_at se_network (searches d) i entry Hso Hlo Hhi) as [H1 H2].
    assert (El : sift_down (ds_len d - i) i (<[ds_len d := entry]> (ds_entries d)) =
      (take i (searches d) ++ entry :: drop i (searches d)) ++ drop (S (ds_len d)) (ds_entries d)).
    { rewrite insert_take_drop by lia. fold (searches d).
      rewrite <-(take_drop i (searches d)) at 1. rewrite <-(assoc_L (++)).
      pose proof (sift_down_spec (take i (searches d)) (drop i (searches d)) entry (drop (S (ds_len d)) (ds_entries d))) as Hd.
      rewrite length_drop, length_take, searches_length, Nat.min_l in Hd by done. rewrite Hd, <-(assoc_L (++)). done. }
    set (d' := d <| ds_entries ::= _ |> <| ds_len ::= S |>).
    assert (Est : searches d' = take i (searches d) ++ entry :: drop i (searches d)).
    { unfold d', searches at 1, over. cbn [ds_entries ds_len]. rewrite El, take_app_length'; [done|].
      rewrite length_app, length_take. cbn. rewrite length_drop, searches_length by done. lia. }
    assert (Ecap : length (ds_entries d') = length (ds_entries d)).
    { unfold d', over. cbn [ds_entries]. rewrite El, !length_app, length_take. cbn. rewrite !length_drop, searches_length by done. lia. }
    unfold search_shape. rewrite Est, Ecap. split_and!; try done; [unfold d', over; cbn; lia|by f_equal].
Qed.
Lemma search_expire_refines d now max_age : search_shape d ->
  let '(d', l, k) := search_expire d now max_age in
  search_shape d' /\ length (ds_entries d') = length (ds_entries d) /\ ds_cancelled d' = ds_cancelled d /\
  search_map d' = filter (fun ne => negb (search_old now max_age ne.2) = true) (search_map d).
Proof.
  intros [Hl Hso]. unfold search_expire.
  pose proof (swap_compact_spec (search_old now max_age) (fun _ (a : unit) => a) (ds_len d) (ds_entries d) tt Hl) as Hc.
  destruct (compact_loop _ _ _ _ _ _ _) as [[l kept] u]. destruct Hc as (Ht & Hk & Hkl & Hlen & _). fold (searches d) in Ht, Hk.
  destruct (sorted_filter se_network (fun e => negb (search_old now max_age e)) (searches d) Hso) as [H1 H2].
  set (d' := d <| ds_entries := _ |> <| ds_len := _ |>).
  assert (Est : searches d' = List.filter (fun e => negb (search_old now max_age e)) (searches d))
    by (unfold d', searches at 1, over; cbn [ds_entries ds_len]; rewrite fill_take by lia; done).
  assert (Ec : length (ds_entries d') = length (ds_entries d)) by (unfold d', over; cbn [ds_entries]; rewrite fill_length by lia; done).
  unfold search_shape, search_map. rewrite Est, Ec. split_and!; try done. unfold d', over; cbn; lia.
Qed.
Lemma search_cleared d : search_shape d ->
  (search_shape (search_clear d) /\ search_map (search_clear d) = ∅) /\
  (search_shape (search_cancel d) /\ search_map (search_cancel d) = ∅).
Proof.
  intros [Hl _]. unfold search_shape, search_map. split; (split; [|done]); (split; [cbn; lia|constructor]).
Qed.

(** ** The cooldown *)

Inductive SearchOp :=
| SSolicit (n : Z) (now : Instant) (cooldown : Duration) | SExpire (now : Instant) (max_age : Duration) | SClear | SCancel.
Definition search_step (d : Discovery) (op : SearchOp) : Discovery :=
  match op with
  | SSolicit n now cooldown => (should_solicit d n now cooldown).1
  | SExpire now max_age => (search_expire d now max_age).1.1
  | SClear => search_clear d
  | SCancel => search_cancel d
  end.
Definition search_run (d : Discovery) (ops : list SearchOp) : Discovery := fold_left search_step ops d.
Lemma search_step_shape d op : search_shape d ->
  search_shape (search_step d op) /\ length (ds_entries (search_step d op)) = length (ds_entries d).
Proof.
  intros Hs. pose proof Hs as [Hl _]. destruct op as [n now c|now age| |]; cbn [search_step].
  - pose proof (should_solicit_refines d n now c Hs) as H. destruct (should_solicit d n now c). by destruct H as (? & ? & _).
  - pose proof (search_expire_refines d now age Hs) as H. destruct (search_expire d now age) as [[] ?]. by destruct H as (? & ? & _).
  - split; [by apply search_cleared|]. cbn. by rewrite fill_length by lia.
  - split; [by apply search_cleared|]. cbn. by rewrite fill_length by lia.
Qed.
Lemma search_run_shape ops : forall d, search_shape d ->
  search_shape (search_run d ops) /\ length (ds_entries (search_run d ops)) = length (ds_entries d).
Proof.
  induction ops as [|op ops IH]; intros d Hs; [done|]. cbn. destruct (search_step_shape d op Hs) as [Hs' E].
  destruct (IH _ Hs') as [? E']. split; [done|]. by rewrite <-E.
Qed.
Lemma discovery_new_shape D : search_shape (discovery_new D).
Proof. split; [cbn; lia|constructor]. Qed.
(** An operation that leaves the search for [n] begun at [t] as it is, or ends all searching. *)
Definition search_quiet (n : Z) (t : Instant) (op : SearchOp) : Prop :=
  match op with
  | SSolicit k now cooldown => k <> n \/ instant_saturating_duration_since now t < cooldown
  | SExpire now max_age => instant_saturating_duration_since now t <= max_age
  | SClear => False
  | SCancel => True
  end.
Definition searched_at (d : Discovery) (n : Z) (t : Instant) : Prop :=
  ds_cancelled d = true \/ search_map d !! n = Some {| se_network := n; se_solicited := t |}.
Lemma search_quiet_step d n t op : search_shape d -> searched_at d n t -> search_quiet n t op -> searched_at (search_step d op) n t.
Proof.
  intros Hs Hd Hq. destruct op as [k now c|now age| |]; cbn [search_step search_quiet] in *; [..|done|by left].
  - pose proof (should_solicit_refines d k now c Hs) as H. destruct (should_solicit d k now c) as [d' b]. destruct H as (_ & _ & Hc & Hm).
    unfold searched_at. cbn [fst]. rewrite Hc. destruct Hd as [Hd|Hd]; [by left|]. right. unfold map_solicit in Hm.
    destruct (_ && _) eqn:Eb; injection Hm as -> _; [|done]. rewrite lookup_insert_ne; [done|]. intros ->.
    destruct Hq as [Hq|Hq]; [done|]. apply andb_prop in Eb as [_ Eb]. rewrite Hd in Eb. cbn in Eb. lia.
  - pose proof (search_expire_refines d now age Hs) as H. destruct (search_expire d now age) as [[d' l] k]. destruct H as (_ & _ & Hc & Hm).
    unfold searched_at. cbn [fst]. rewrite Hc, Hm. destruct Hd as [Hd|Hd]; [by left|]. right. apply map_lookup_filter_Some.
    split; [done|]. unfold search_old. cbn. apply negb_true_iff. lia.
Qed.

(** Once a search for a network has been sent, the next one for it is at least the cooldown later, whatever
    else is looked for, swept or refused in between, as long as the sweeps keep searches that young and the searches are not
    reset; and no more networks are looked for at a time than the storage holds. *)
Theorem solicit_spaced D before n t1 c1 ops t2 c2 :
  let d := search_run (discovery_new D) before in
  let '(d1, first) := should_solicit d n t1 c1 in
  let d2 := search_run d1 ops in
  first = true -> Forall (search_quiet n t1) ops -> (should_solicit d2 n t2 c2).2 = true ->
  c2 <= instant_saturating_duration_since t2 t1 /\ (size (search_map d2) <= D)%nat.
Proof.
  cbv zeta. destruct (search_run_shape before _ (discovery_new_shape D)) as [Hs Hlen].
  set (d := search_run (discovery_new D) before) in *. clearbody d.
  pose proof (should_solicit_refines d n t1 c1 Hs) as H1. destruct (should_solicit d n t1 c1) as [d1 first].
  destruct H1 as (Hs1 & Hl1 & Hc1 & Hm1). intros -> Hq H2.
  assert (H1 : searched_at d1 n t1).
  { right. unfold map_solicit in Hm1. destruct (_ && _); injection Hm1 as ->; [|done]. by rewrite lookup_insert_eq. }
  assert (Hrun : searched_at (search_run d1 ops) n t1).
  { clear -Hs1 H1 Hq. revert d1 Hs1 H1. induction Hq as [|op ops Hop _ IH]; intros d1 Hs1 H1; [done|]. cbn. apply IH.
    - by apply search_step_shape.
    - by apply search_quiet_step. }
  destruct (search_run_shape ops d1 Hs1) as [Hs2 Hl2]. set (d2 := search_run d1 ops) in *.
  split.
  - pose proof (should_solicit_refines d2 n t2 c2 Hs2) as H3. destruct (should_solicit d2 n t2 c2) as [d3 b]. cbn in H2. subst b.
    destruct H3 as (_ & _ & _ & Hm3). unfold map_solicit in Hm3. destruct (_ && _) eqn:Eb; [|done].
    apply andb_prop in Eb as [[[Ec _]%andb_prop _]%andb_prop Eb]. destruct Hrun as [Hrun|Hrun]; [by rewrite Hrun in Ec|].
    rewrite Hrun in Eb. cbn in Eb. lia.
  - unfold search_map. rewrite as_map_size by apply Hs2. rewrite searches_length by done. destruct Hs2 as [Hle _]. cbn in Hlen.
    rewrite length_replicate in Hlen. lia.
Qed.
Definition example_searches : list SearchOp := [SSolicit 9 110 50; SExpire 120 1000; SSolicit 7 130 50].
Lemma solicit_spaced_witness :
  let d1 := (should_solicit (discovery_new 2) 7 100 50).1 in
  50 <= instant_saturating_duration_since 160 100 /\ (size (search_map (search_run d1 example_searches)) <= 2)%nat.
Proof.
  cbv zeta. pose proof (solicit_spaced 2 [] 7 100 50 example_searches 160 50) as H. cbv zeta in H.
  change (search_run (discovery_new 2) []) with (discovery_new 2) in H.
  destruct (should_solicit (discovery_new 2) 7 100 50) as [d1 b] eqn:E. vm_compute in E. injection E as <- <-.
  apply H; [reflexivity| |vm_compute; reflexivity].
  apply Forall_cons_2; [by left|]. apply Forall_cons_2; [vm_compute; discriminate|].
  apply Forall_cons_2; [right; vm_compute; reflexivity|constructor].
Defined.
