(* ===== verification/RouterMessage.v ===== *)
(** * Network-layer message data (crate bacnet-router-core, message.rs)

    The payloads of the network messages a router reads and sends. A view reads a whole payload or
    refuses it; a writer fills the caller's buffer or writes nothing. *)

From S2P Require Import Prelude.
Open Scope Z_scope.

(** [DataError] (bacnet-router-core/src/message.rs) *)
Inductive DataError :=
| BadLength (length : nat) | NoRoom (needed available : nat) | TooManyEntries (count : nat).
(** [bad_length] (bacnet-router-core/src/message.rs) *)
Definition bad_length (payload : bytes) : DataError := BadLength (length payload).
Definition be16 (high low : Z) : Z := from_be16 high low.

(** ** Network lists *)

(** [Networks] (bacnet-router-core/src/message.rs) *)
Record Networks := { nw_octets : bytes }.
(** [Networks::EMPTY] (bacnet-router-core/src/message.rs:84-85) *)
Definition NETWORKS_EMPTY : Networks := {| nw_octets := [] |}.
(** [Networks::parse] (bacnet-router-core/src/message.rs) *)
Definition networks_parse (payload : bytes) : Result Networks DataError :=
  if bool_decide (length payload mod 2 = 0)%nat then Ok {| nw_octets := payload |} else Err (bad_length payload).
(** [Networks::len] (bacnet-router-core/src/message.rs) *)
Definition networks_len (n : Networks) : nat := (length (nw_octets n) / 2)%nat.
(** [Networks::is_empty] (bacnet-router-core/src/message.rs) *)
Definition networks_is_empty (n : Networks) : bool := bool_decide (nw_octets n = []).
Fixpoint pairs16 (l : bytes) : list Z :=
  match l with high :: low :: l => be16 high low :: pairs16 l | _ => [] end.
(** [Networks::iter] (bacnet-router-core/src/message.rs) *)
Definition networks_iter (n : Networks) : list Z := pairs16 (nw_octets n).
(** [Networks::contains] (bacnet-router-core/src/message.rs) *)
Definition networks_contains (n : Networks) (network : Z) : bool := existsb (fun listed => listed =? network) (networks_iter n).
(** Writing each value at its place, from [at_]: [as_chunks_mut().iter_mut().zip(..)]. *)
Fixpoint write_chunks (chunks : list bytes) (at_ : nat) (out : bytes) : bytes :=
  match chunks with [] => out | c :: chunks => write_chunks chunks (at_ + length c) (splice out at_ c) end.
(** The buffer after the call, and the length or the error.
    [Networks::write] (bacnet-router-core/src/message.rs) *)
Definition networks_write (networks : list Z) (out : bytes) : bytes * Result nat DataError :=
  let needed := (length networks * 2)%nat in
  if bool_decide (needed <= length out)%nat
  then (write_chunks (map to_be16 networks) 0 out, Ok needed)
  else (out, Err (NoRoom needed (length out))).

(** ** Fixed layouts *)

(** [WhoIsRouter] (bacnet-router-core/src/message.rs) *)
Inductive WhoIsRouter := WhoIsAll | WhoIsNetwork (network : Z).
(** [WhoIsRouter::parse] (bacnet-router-core/src/message.rs) *)
Definition who_is_router_parse (payload : bytes) : Result WhoIsRouter DataError :=
  match payload with
  | [] => Ok WhoIsAll
  | [high; low] => Ok (WhoIsNetwork (be16 high low))
  | _ => Err (bad_length payload)
  end.
(** [network_and_octet] (bacnet-router-core/src/message.rs) *)
Definition network_and_octet (payload : bytes) : Result (Z * Z) DataError :=
  match payload with [high; low; octet] => Ok (be16 high low, octet) | _ => Err (bad_length payload) end.
(** [ICouldBeRouter] (bacnet-router-core/src/message.rs) *)
Record ICouldBeRouter := { icb_network : Z; icb_performance_index : Z }.
(** [ICouldBeRouter::parse] (bacnet-router-core/src/message.rs) *)
Definition i_could_be_router_parse (payload : bytes) : Result ICouldBeRouter DataError :=
  let? p := network_and_octet payload in Ok {| icb_network := p.1; icb_performance_index := p.2 |}.
(** [EstablishConnection] (bacnet-router-core/src/message.rs) *)
Record EstablishConnection := { ec_network : Z; ec_termination_time : Z }.
(** [EstablishConnection::parse] (bacnet-router-core/src/message.rs) *)
Definition establish_connection_parse (payload : bytes) : Result EstablishConnection DataError :=
  let? p := network_and_octet payload in Ok {| ec_network := p.1; ec_termination_time := p.2 |}.
(** [DisconnectConnection] (bacnet-router-core/src/message.rs) *)
Record DisconnectConnection := { dc_network : Z }.
(** [DisconnectConnection::parse] (bacnet-router-core/src/message.rs) *)
Definition disconnect_connection_parse (payload : bytes) : Result DisconnectConnection DataError :=
  match payload with [high; low] => Ok {| dc_network := be16 high low |} | _ => Err (bad_length payload) end.
(** [NetworkNumberIs] (bacnet-router-core/src/message.rs) *)
Record NetworkNumberIs := { nn_network : Z; nn_flag : Z }.
(** [NetworkNumberIs::CONFIGURED] (bacnet-router-core/src/message.rs:256-257) *)
Definition CONFIGURED : Z := 1.
(** [NetworkNumberIs::parse] (bacnet-router-core/src/message.rs) *)
Definition network_number_is_parse (payload : bytes) : Result NetworkNumberIs DataError :=
  let? p := network_and_octet payload in Ok {| nn_network := p.1; nn_flag := p.2 |}.
(** [NetworkNumberIs::is_configured] (bacnet-router-core/src/message.rs) *)
Definition is_configured (n : NetworkNumberIs) : bool := nn_flag n =? CONFIGURED.
(** [NetworkNumberIs::to_bytes] (bacnet-router-core/src/message.rs) *)
Definition network_number_is_to_bytes (n : NetworkNumberIs) : bytes := to_be16 (nn_network n) ++ [nn_flag n].

(** ** Routing table entries *)

(** [RoutingEntries] (bacnet-router-core/src/message.rs) *)
Record RoutingEntries := { re_count : Z; re_entries : bytes }.
(** [RoutingEntry] (bacnet-router-core/src/message.rs) *)
Record RoutingEntry := { ry_network : Z; ry_port_id : Z; ry_port_info : bytes }.
(** [RoutingEntries::ENTRY_LEN] (bacnet-router-core/src/message.rs:306-307) *)
Definition ROUTING_ENTRY_LEN : nat := 4.
(** [split_entry] (bacnet-router-core/src/message.rs) *)
Definition split_entry (octets : bytes) : option (RoutingEntry * bytes) :=
  match octets with
  | high :: low :: port_id :: info_len :: rest =>
      match slice_get rest 0 (Z.to_nat info_len) with
      | Some port_info =>
          Some ({| ry_network := be16 high low; ry_port_id := port_id; ry_port_info := port_info |}, drop (length port_info) rest)
      | None => None
      end
  | _ => None
  end.
(** The rounds of [parse]: what is left after [n] entries.
    [RoutingEntries::parse] (bacnet-router-core/src/message.rs:313-316) *)
Fixpoint skip_entries (n : nat) (rest : bytes) : option bytes :=
  match n with O => Some rest | S n => match split_entry rest with Some (_, rest) => skip_entries n rest | None => None end end.
(** [RoutingEntries::parse] (bacnet-router-core/src/message.rs) *)
Definition routing_entries_parse (payload : bytes) : Result RoutingEntries DataError :=
  match payload with
  | [] => Err (bad_length payload)
  | count :: entries =>
      match skip_entries (Z.to_nat count) entries with
      | Some [] => Ok {| re_count := count; re_entries := entries |}
      | _ => Err (bad_length payload)
      end
  end.
(** [from_fn] over [split_entry]; each entry takes four octets or more, so the octets' length is fuel enough. *)
Fixpoint entries_from (fuel : nat) (rest : bytes) : list RoutingEntry :=
  match fuel with
  | O => []
  | S fuel => match split_entry rest with Some (entry, after) => entry :: entries_from fuel after | None => [] end
  end.
(** [RoutingEntries::iter] (bacnet-router-core/src/message.rs) *)
Definition routing_entries_iter (r : RoutingEntries) : list RoutingEntry := entries_from (length (re_entries r)) (re_entries r).
(** [RoutingEntries::write] (bacnet-router-core/src/message.rs) *)
Definition routing_entries_write (entries : list (Z * Z)) (out : bytes) : bytes * Result nat DataError :=
  let count := length entries in
  if negb (bool_decide (count <= 255)%nat) then (out, Err (TooManyEntries count)) else
  let needed := (1 + count * ROUTING_ENTRY_LEN)%nat in
  if negb (bool_decide (needed <= length out)%nat) then (out, Err (NoRoom needed (length out))) else
  (write_chunks ([Z.of_nat count] :: map (fun e => to_be16 e.1 ++ [e.2; 0]) entries) 0 out, Ok needed).

(** ** Reading back what is written *)

Definition wf_entry16 (e : RoutingEntry) : Prop :=
  is_u16 (ry_network e) /\ is_u8 (ry_port_id e) /\ (length (ry_port_info e) <= 255)%nat /\ wf_bytes (ry_port_info e).
Definition entry_octets (e : RoutingEntry) : bytes :=
  to_be16 (ry_network e) ++ [ry_port_id e; Z.of_nat (length (ry_port_info e))] ++ ry_port_info e.
(** The data an Initialize-Routing-Table or its Ack carries. *)
Definition routing_payload (l : list RoutingEntry) : bytes := Z.of_nat (length l) :: concat (map entry_octets l).
Definition wf_entries16 (l : list RoutingEntry) : Prop := Forall wf_entry16 l /\ (length l <= 255)%nat.

Lemma write_chunks_spec chunks : forall at_ out, (at_ + length (concat chunks) <= length out)%nat ->
  write_chunks chunks at_ out = take at_ out ++ concat chunks ++ drop (at_ + length (concat chunks)) out.
Proof.
  induction chunks as [|c chunks IH]; intros at_ out Hl; cbn [write_chunks concat] in *.
  { cbn [length app]. by rewrite Nat.add_0_r, take_drop. }
  rewrite length_app in *. rewrite IH by (rewrite length_splice; lia). unfold splice.
  rewrite (assoc_L (++) (take at_ out) c), take_app_length' by (rewrite length_app, length_take; lia).
  rewrite drop_app_ge by (rewrite length_app, length_take; lia).
  rewrite length_app, length_take, drop_drop, <-!(assoc_L (++)). do 4 f_equal. lia.
Qed.
Lemma split_entry_octets e rest : wf_entry16 e -> split_entry (entry_octets e ++ rest) = Some (e, rest).
Proof.
  intros (Hn & Hp & Hl & Hi). destruct e as [n p info]. cbn in *. unfold be16. rewrite from_to_be16 by done. rewrite Nat2Z.id.
  unfold slice_get. rewrite decide_True by (rewrite length_app; lia). cbv beta iota. rewrite drop_0, take_app_length. by rewrite drop_app_length.
Qed.
Lemma split_entry_inv l e rest : wf_bytes l -> split_entry l = Some (e, rest) ->
  l = entry_octets e ++ rest /\ wf_entry16 e /\ wf_bytes rest /\ (length rest < length l)%nat.
Proof.
  intros Hw H. destruct l as [|h [|lo [|port [|len l]]]]; try done. cbn in H. unfold slice_get in H. case_decide as Hl; [|done].
  rewrite drop_0 in H. injection H as <- <-. repeat (apply Forall_cons in Hw as [? Hw]).
  assert (El : Z.of_nat (length (take (Z.to_nat len) l)) = len) by (rewrite length_take; width).
  unfold entry_octets, wf_entry16. cbn [ry_network ry_port_id ry_port_info]. rewrite El. unfold be16. rewrite to_from_be16 by done. cbn.
  rewrite length_take, Nat.min_l by (cbn in Hl; lia). split_and!; try done; [by rewrite take_drop|auto with bac|width|by apply Forall_take|by apply Forall_drop|].
  rewrite length_drop. lia.
Qed.
Lemma skip_entries_octets l : forall rest, Forall wf_entry16 l ->
  skip_entries (length l) (concat (map entry_octets l) ++ rest) = Some rest.
Proof.
  induction l as [|e l IH]; intros rest Hl; [done|]. apply Forall_cons in Hl as [He Hl]. cbn [length skip_entries map concat].
  rewrite <-(assoc_L (++)), split_entry_octets by done. by apply IH.
Qed.
Lemma entries_from_octets l : forall fuel, Forall wf_entry16 l -> (length l <= fuel)%nat -> entries_from fuel (concat (map entry_octets l)) = l.
Proof.
  induction l as [|e l IH]; intros fuel Hl Hf; [by destruct fuel|]. apply Forall_cons in Hl as [He Hl].
  destruct fuel as [|fuel]; [cbn in Hf; lia|]. cbn [entries_from map concat]. rewrite split_entry_octets by done.
  f_equal. apply IH; [done|cbn in Hf; lia].
Qed.
Lemma octets_fuel l : (length l <= length (concat (map entry_octets l)))%nat.
Proof. induction l as [|e l IH]; [done|]. cbn [map concat length]. rewrite length_app. unfold entry_octets at 1. cbn. lia. Qed.
Lemma parse_payload l : wf_entries16 l ->
  exists r, routing_entries_parse (routing_payload l) = Ok r /\ routing_entries_iter r = l /\ re_count r = Z.of_nat (length l).
Proof.
  intros [Hl Hn]. unfold routing_entries_parse, routing_payload. rewrite Nat2Z.id.
  pose proof (skip_entries_octets l [] Hl) as Hs. rewrite app_nil_r in Hs. rewrite Hs.
  eexists. split_and!; [done| |done]. unfold routing_entries_iter. cbn. apply entries_from_octets; [done|apply octets_fuel].
Qed.
Lemma skip_entries_inv n : forall l, wf_bytes l -> skip_entries n l = Some [] ->
  exists es, length es = n /\ Forall wf_entry16 es /\ l = concat (map entry_octets es).
Proof.
  induction n as [|n IH]; intros l Hw H; cbn in H; [injection H as ->; by exists []|].
  destruct (split_entry l) as [[e rest]|] eqn:E; [|done]. apply split_entry_inv in E as (-> & He & Hr & _); [|done].
  destruct (IH rest Hr H) as (es & <- & Hes & ->). exists (e :: es). split_and!; [done|by constructor|done].
Qed.

(** A routing-table payload is read exactly: a payload is accepted when and only when it is the count and that many
    entries, nothing short and nothing after, and the iterator then yields those entries; any other is refused with
    its length. *)
Theorem routing_entries_exact payload : wf_bytes payload ->
  match routing_entries_parse payload with
  | Ok r => wf_entries16 (routing_entries_iter r) /\ payload = routing_payload (routing_entries_iter r)
  | Err e => e = BadLength (length payload) /\ forall l, wf_entries16 l -> payload <> routing_payload l
  end.
Proof.
  intros Hw. destruct (routing_entries_parse payload) as [r|e] eqn:E.
  - destruct payload as [|count entries]; [done|]. apply Forall_cons in Hw as [Hc Hw]. cbn in E.
    destruct (skip_entries (Z.to_nat count) entries) as [[|]|] eqn:Es; try done. injection E as <-.
    apply skip_entries_inv in Es as (es & Hn & Hes & ->); [|done].
    assert (Hl : wf_entries16 es) by (split; [done|width]). destruct (parse_payload es Hl) as (r & Hp & Hi & _).
    unfold routing_payload in Hp. replace (Z.of_nat (length es)) with count in Hp by width. cbn in Hp.
    rewrite <-Hn in Hp. pose proof (skip_entries_octets es [] Hes) as Hs. rewrite app_nil_r in Hs. rewrite Hs in Hp. injection Hp as <-.
    rewrite Hi. split; [done|]. unfold routing_payload. f_equal. width.
  - split.
    + unfold routing_entries_parse in E. destruct payload as [|count entries]; [by injection E as <-|].
      destruct (skip_entries _ _) as [[|]|]; try done; by injection E as <-.
    + intros l Hl ->. destruct (parse_payload l Hl) as (r & Hp & _). congruence.
Qed.
Lemma routing_entries_exact_witness :
  let l := [{| ry_network := 7; ry_port_id := 2; ry_port_info := [9] |}] in
  match routing_entries_parse (routing_payload l) with
  | Ok r => wf_entries16 (routing_entries_iter r) /\ routing_payload l = routing_payload (routing_entries_iter r)
  | Err e => False
  end.
Proof.
  cbv zeta. pose proof (routing_entries_exact (routing_payload [{| ry_network := 7; ry_port_id := 2; ry_port_info := [9] |}])) as H.
  destruct (routing_entries_parse _) as [r|] eqn:E; [apply H; repeat constructor; vm_compute; discriminate|vm_compute in E; discriminate].
Defined.

(** What the writer is given, as entries with no Port Info. *)
Definition bare_entry (e : Z * Z) : RoutingEntry := {| ry_network := e.1; ry_port_id := e.2; ry_port_info := [] |}.
(** The writer writes the whole payload at the front of the buffer and nothing after it, or nothing at all, and says what
    was missing; what it writes is read back as the entries. *)
Lemma routing_entries_write_spec entries out : Forall (fun e => is_u16 e.1 /\ is_u8 e.2) entries ->
  let count := length entries in
  let needed := (1 + count * 4)%nat in
  match routing_entries_write entries out with
  | (out', Ok n) => n = needed /\ (needed <= length out)%nat /\ (count <= 255)%nat /\
      out' = routing_payload (map bare_entry entries) ++ drop needed out /\
      exists r, routing_entries_parse (take n out') = Ok r /\ routing_entries_iter r = map bare_entry entries
  | (out', Err (TooManyEntries c)) => out' = out /\ c = count /\ (255 < count)%nat
  | (out', Err (NoRoom n a)) => out' = out /\ n = needed /\ a = length out /\ (length out < needed)%nat /\ (count <= 255)%nat
  | (_, Err (BadLength _)) => False
  end.
Proof.
  intros Hw. cbv zeta. unfold routing_entries_write. case_bool_decide as Hc; cbn [negb]; [|split_and!; try done; lia].
  change ROUTING_ENTRY_LEN with 4%nat. case_bool_decide as Hn; cbn [negb]; [|split_and!; try done; lia].
  set (chunks := [Z.of_nat (length entries)] :: map (fun e => to_be16 e.1 ++ [e.2; 0]) entries).
  assert (Ec : concat chunks = routing_payload (map bare_entry entries)).
  { unfold chunks, routing_payload. cbn [concat app]. rewrite length_map, map_map. done. }
  assert (El : length (concat chunks) = (1 + length entries * 4)%nat).
  { unfold chunks. cbn [concat length app]. f_equal. clear. induction entries as [|e l IH]; [done|]. cbn [map concat]. rewrite length_app, IH. cbn. lia. }
  rewrite write_chunks_spec, take_0 by lia. cbn [app]. rewrite Nat.add_0_l, El, Ec. split_and!; try done.
  rewrite take_app_length' by (by rewrite <-Ec). destruct (parse_payload (map bare_entry entries)) as (r & Hp & Hi & _); [|by exists r].
  split; [|by rewrite length_map]. apply Forall_map. eapply Forall_impl; [exact Hw|]. intros [n p] [??]. unfold wf_entry16. cbn. split_and!; try done; lia.
Qed.
(** A list of networks is read exactly, and what is written is read back. *)
Lemma networks_roundtrip networks out : Forall is_u16 networks ->
  match networks_write networks out with
  | (out', Ok n) => n = (2 * length networks)%nat /\ drop n out' = drop n out /\
      exists l, networks_parse (take n out') = Ok l /\ networks_iter l = networks
  | (out', Err e) => out' = out /\ e = NoRoom (length networks * 2) (length out) /\ (length out < length networks * 2)%nat
  end.
Proof.
  intros Hw. unfold networks_write. case_bool_decide as Hn; [|split_and!; try done; lia].
  assert (El : length (concat (map to_be16 networks)) = (length networks * 2)%nat).
  { clear. induction networks as [|n l IH]; [done|]. cbn [map concat]. rewrite length_app, IH. cbn. lia. }
  rewrite write_chunks_spec, take_0 by lia. cbn [app]. rewrite Nat.add_0_l, El. split_and!; [lia|by rewrite drop_app_length'|].
  rewrite take_app_length' by done. unfold networks_parse. rewrite bool_decide_eq_true_2 by (rewrite El; apply Nat.Div0.mod_mul).
  eexists. split; [done|]. unfold networks_iter. cbn. clear Hn El. induction Hw as [|n l Hn _ IH]; [done|]. cbn. rewrite IH.
  unfold be16. by rewrite from_to_be16.
Qed.
