(* ===== verification/RouterGroups.v ===== *)
(** * What a destination is on its delivery port (crate bacnet-router-core, router/groups.rs)

    The class a port's link implements to tell group addresses from nodes, and the rules of the portable links. *)

From S2P Require Import Prelude Bvll NodeLink.
Open Scope Z_scope.

(** [Group] (bacnet-router-core/src/router/groups.rs) *)
Inductive Group := GroupNo | GroupBroadcast | GroupRefuse.
#[global] Instance Group_eq_dec : EqDecision Group.
Proof. solve_decision. Defined.
(** [GroupClassifier] (bacnet-router-core/src/router/groups.rs) *)
Class GroupClassifier (G : Type) := { groups_NONE : G; classify : G -> bytes -> Group }.

(** [Groups] (bacnet-router-core/src/router/groups.rs) *)
Inductive PortGroups := GroupsNone | GroupsBip (destinations : Groups) (port : Z) | GroupsMstp.
(** [Groups::classify] (bacnet-router-core/src/router/groups.rs) *)
Definition groups_classify (g : PortGroups) (mac : bytes) : Group :=
  match g with
  | GroupsNone => GroupNo
  | GroupsBip destinations port =>
      match address_from_slice mac with
      | Ok address =>
          if groups_contains destinations address
          then if sa_port address =? port then GroupBroadcast else GroupRefuse
          else GroupNo
      | Err _ => GroupNo
      end
  | GroupsMstp => if bool_decide (mac = [255]) then GroupBroadcast else GroupNo
  end.
#[export] Instance PortGroups_classifier : GroupClassifier PortGroups :=
  { groups_NONE := GroupsNone; classify := groups_classify }.
