(* ===== verification/RouterData.v ===== *)
(** * What a router is set up with, told and counts (crate bacnet-router-core, router/config.rs, counters.rs,
    host.rs, reply.rs, the types of router/ingress.rs, and node.rs)

    The ports and options of a router, its counters, the hooks of its host and the events they hear, the addressing
    of a local reply, and the checks every arriving frame passes, at a router and at a node that does not route alike. *)

From S2P Require Import Prelude Time Npdu RouteTable RouterMessage RouterGroups.
Open Scope Z_scope.

#[export] Instance eta_Npdu : Settable Npdu := fun n =>
  {| expecting_reply := expecting_reply n; priority := priority n; destination := destination n; source := source n;
     hop_count := hop_count n; message_type := message_type n; vendor_id := vendor_id n; payload := payload n;
     payload_offset := payload_offset n |}.
(** [Npdu::is_network_message] (bacnet-npdu/src/view.rs) *)
Definition is_network_message (n : Npdu) : bool := is_some (message_type n).

(** The named message types and reject reasons of bacnet-npdu, in their open sets. *)
Definition WHO_IS_ROUTER_TO_NETWORK : Z := 0.
Definition I_AM_ROUTER_TO_NETWORK : Z := 1.
Definition I_COULD_BE_ROUTER_TO_NETWORK : Z := 2.
Definition REJECT_MESSAGE_TO_NETWORK : Z := 3.
Definition ROUTER_BUSY_TO_NETWORK : Z := 4.
Definition ROUTER_AVAILABLE_TO_NETWORK : Z := 5.
Definition INITIALIZE_ROUTING_TABLE : Z := 6.
Definition INITIALIZE_ROUTING_TABLE_ACK : Z := 7.
Definition ESTABLISH_CONNECTION_TO_NETWORK : Z := 8.
Definition DISCONNECT_CONNECTION_TO_NETWORK : Z := 9.
Definition WHAT_IS_NETWORK_NUMBER : Z := 18.
Definition NETWORK_NUMBER_IS : Z := 19.
Definition REASON_OTHER : Z := 0.
Definition UNKNOWN_MESSAGE_TYPE : Z := 3.
Definition MESSAGE_TOO_LONG : Z := 4.
Definition ADDRESSING_ERROR : Z := 6.

(** ** Ports and options (router/config.rs) *)

(** [MIN_PORT_LIMIT] (bacnet-router-core/src/router/config.rs) *)
Definition MIN_PORT_LIMIT : Z := 64.
(** [limits_fit] (bacnet-router-core/src/router/config.rs) *)
Definition limits_fit (limits : NpduLimits) (scratch : nat) : bool :=
  forallb (fun limit => (MIN_PORT_LIMIT <=? limit) && (limit <=? Z.of_nat scratch))
    [limit_unicast limits; limit_broadcast limits].
(** [PortConfig] (bacnet-router-core/src/router/config.rs) *)
Record PortConfig (G : Type) := {
  pc_network : Z; pc_mac : Mac; pc_max_npdu : NpduLimits; pc_groups : G
}.
Arguments pc_network {G}.
Arguments pc_mac {G}.
Arguments pc_max_npdu {G}.
Arguments pc_groups {G}.
#[export] Instance eta_PortConfig {G} : Settable (PortConfig G) := fun p =>
  {| pc_network := pc_network p; pc_mac := pc_mac p; pc_max_npdu := pc_max_npdu p; pc_groups := pc_groups p |}.
(** [PortConfig::ZERO] (bacnet-router-core/src/router/config.rs) *)
Definition PORT_ZERO {G} `{GroupClassifier G} : PortConfig G :=
  {| pc_network := 0; pc_mac := MAC_EMPTY; pc_max_npdu := limits_both 0; pc_groups := groups_NONE |}.
(** [Congestion] (bacnet-router-core/src/router/congestion.rs) *)
Record Congestion := { cg_clog_after : Duration; cg_drain_below_percent : Z; cg_repeat : Duration }.
(** [Congestion::DEFAULT] (bacnet-router-core/src/router/congestion.rs) *)
Definition CONGESTION_DEFAULT : Congestion :=
  {| cg_clog_after := duration_from_secs 2; cg_drain_below_percent := 50; cg_repeat := duration_from_secs 20 |}.
(** [Congestion::is_valid] (bacnet-router-core/src/router/congestion.rs) *)
Definition congestion_is_valid (c : Congestion) : bool :=
  negb (cg_clog_after c =? 0) && negb (cg_repeat c =? 0)
  && (1 <=? cg_drain_below_percent c) && (cg_drain_below_percent c <=? 99).
(** [Duplicates] (bacnet-router-core/src/router/duplicates.rs) *)
Record Duplicates := { dp_ttl : Duration }.
(** [Duplicates::RESET_LIMIT] (bacnet-router-core/src/router/duplicates.rs) *)
Definition RESET_LIMIT : Z := 4.
(** [Options] (bacnet-router-core/src/router/config.rs) *)
Record Options := {
  op_convergence : Convergence; op_route_cap : option Z; op_learned_age : Duration; op_sweep : Duration; op_timing : Timing;
  op_discovery_cooldown : Duration; op_discovery_age : Duration; op_congestion : option Congestion;
  op_next_hop_rejects : bool; op_duplicates : option Duplicates
}.
#[export] Instance eta_Options : Settable Options := fun o =>
  {| op_convergence := op_convergence o; op_route_cap := op_route_cap o; op_learned_age := op_learned_age o;
     op_sweep := op_sweep o; op_timing := op_timing o; op_discovery_cooldown := op_discovery_cooldown o;
     op_discovery_age := op_discovery_age o; op_congestion := op_congestion o;
     op_next_hop_rejects := op_next_hop_rejects o; op_duplicates := op_duplicates o |}.
(** [Options::STANDARD] (bacnet-router-core/src/router/config.rs) *)
Definition STANDARD : Options :=
  {| op_convergence := Standard; op_route_cap := None; op_learned_age := duration_from_secs 300;
     op_sweep := duration_from_secs 60; op_timing := DEFAULT_TIMING; op_discovery_cooldown := duration_from_secs 5;
     op_discovery_age := duration_from_secs 30; op_congestion := None; op_next_hop_rejects := false;
     op_duplicates := None |}.
(** [Options::HOSTED] (bacnet-router-core/src/router/config.rs) *)
Definition HOSTED : Options := STANDARD <| op_route_cap := Some 256 |>.
(** [Options::cap] (bacnet-router-core/src/router/config.rs) *)
Definition options_cap (o : Options) (capacity : nat) : nat :=
  match op_route_cap o with Some cap => Z.to_nat cap | None => capacity end.
(** [ConfigError] (bacnet-router-core/src/router/config.rs) *)
Inductive ConfigError :=
| NoPorts | TooManyPorts (count capacity : nat) | DuplicateNetwork (network : Z) | ReservedPortNetwork (port : PortId) (network : Z)
| PortLimit (port : PortId) | RouteCapOver (cap : Z) (capacity : nat) | TableTooSmall | ZeroSweep | NoDuplicateRecord
| BadCongestion.
(** [LimitError] (bacnet-router-core/src/router/config.rs) *)
Inductive LimitError := UnknownLimitPort | LimitOutOfRange.

(** ** Counters (router/counters.rs) *)

(** [Counters] (bacnet-router-core/src/router/counters.rs) *)
Record Counters := {
  rc_address_length_drops : Z; rc_global_broadcast_dadr_drops : Z; rc_broadcast_pdu_type_drops : Z; rc_group_dadr_drops : Z;
  rc_malformed : Z; rc_bad_messages : Z; rc_unknown_port : Z; rc_hop_count_drops : Z; rc_denied : Z;
  rc_unroutable_rejects : Z; rc_rejects : Z; rc_solicitations : Z; rc_write_failures : Z; rc_egress_too_long : Z;
  rc_refused : Z; rc_undrained : Z; rc_busy_announced : Z; rc_available_announced : Z; rc_duplicate_drops : Z;
  rc_own_source_drops : Z; rc_not_next_hop : Z; rc_originated : Z
}.
#[export] Instance eta_Counters : Settable Counters := fun c =>
  {| rc_address_length_drops := rc_address_length_drops c; rc_global_broadcast_dadr_drops := rc_global_broadcast_dadr_drops c;
     rc_broadcast_pdu_type_drops := rc_broadcast_pdu_type_drops c; rc_group_dadr_drops := rc_group_dadr_drops c;
     rc_malformed := rc_malformed c; rc_bad_messages := rc_bad_messages c; rc_unknown_port := rc_unknown_port c;
     rc_hop_count_drops := rc_hop_count_drops c; rc_denied := rc_denied c; rc_unroutable_rejects := rc_unroutable_rejects c;
     rc_rejects := rc_rejects c; rc_solicitations := rc_solicitations c; rc_write_failures := rc_write_failures c;
     rc_egress_too_long := rc_egress_too_long c; rc_refused := rc_refused c; rc_undrained := rc_undrained c;
     rc_busy_announced := rc_busy_announced c; rc_available_announced := rc_available_announced c;
     rc_duplicate_drops := rc_duplicate_drops c; rc_own_source_drops := rc_own_source_drops c;
     rc_not_next_hop := rc_not_next_hop c; rc_originated := rc_originated c |}.
(** [Counters::ZERO] (bacnet-router-core/src/router/counters.rs) *)
Definition COUNTERS_ZERO : Counters :=
  {| rc_address_length_drops := 0; rc_global_broadcast_dadr_drops := 0; rc_broadcast_pdu_type_drops := 0;
     rc_group_dadr_drops := 0; rc_malformed := 0; rc_bad_messages := 0; rc_unknown_port := 0; rc_hop_count_drops := 0;
     rc_denied := 0; rc_unroutable_rejects := 0; rc_rejects := 0; rc_solicitations := 0; rc_write_failures := 0;
     rc_egress_too_long := 0; rc_refused := 0; rc_undrained := 0; rc_busy_announced := 0; rc_available_announced := 0;
     rc_duplicate_drops := 0; rc_own_source_drops := 0; rc_not_next_hop := 0; rc_originated := 0 |}.
(** [bump] (bacnet-router-core/src/router/counters.rs) *)
Definition bump (count : Z) : Z := sat_add U32_MAX count 1.

(** ** The host (router/host.rs) *)

(** [ControlClass] (bacnet-router-core/src/router/host.rs) *)
Inductive ControlClass := CcIAm | CcInitAck | CcInitMgmt | CcBusy | CcAvailable | CcReject | CcICouldBe.
(** [Targets] (bacnet-router-core/src/router/host.rs) *)
Inductive Targets := TargetNetworks (list : Networks) | TargetEntries (entries : RoutingEntries).
(** [Targets::iter] (bacnet-router-core/src/router/host.rs) *)
Definition targets_iter (t : Targets) : list Z :=
  match t with TargetNetworks l => networks_iter l | TargetEntries e => map ry_network (routing_entries_iter e) end.
(** [Targets::is_empty] (bacnet-router-core/src/router/host.rs) *)
Definition targets_is_empty (t : Targets) : bool := match targets_iter t with [] => true | _ => false end.
(** [Claim] (bacnet-router-core/src/router/host.rs) *)
Record Claim := {
  cm_class : ControlClass; cm_port : PortId; cm_port_network : Z; cm_source : bytes; cm_message_type : Z;
  cm_vendor_id : option Z; cm_snet : option Z; cm_dnet : option Z; cm_targets : Targets; cm_targets_omitted : bool
}.
(** [Event] (bacnet-router-core/src/router/host.rs) *)
Inductive Event :=
| EvNoRoute (port : PortId) (network : Z) | EvLearned (network : Z) (port : PortId) (class : ControlClass)
| EvFlapping (network flaps : Z) | EvRouteCap (class : ControlClass)
| EvRejectReceived (network reason : Z) (effect : RejectEffect) | EvMarked (network : Z) (busy : bool)
| EvUpdateApplied (network : Z) (port : PortId) | EvUpdateRemoved (network : Z) | EvUnknownPortId (network port_id : Z)
| EvICouldBe (network performance_index : Z) (stored : bool) | EvEstablishConnection (network termination_time : Z)
| EvDisconnectIgnored (network : Z) | EvSecurityMessage (message_type : Z) | EvUnknownMessage (message_type : Z)
| EvNumberConflict (port : PortId) (local reported : Z) (configured : bool) | EvHopCountSpent (network : Z)
| EvTooLong (port : PortId) (octets : nat) (limit : Z) (rejected : option Z) | EvOwnOrigin (network : Z)
| EvPurged (network : Z) | EvPendingExpired (network : Z) | EvDiscoveryExpired (network : Z).
(** What a router asks of its caller, over the caller's own state.
    [Host] (bacnet-router-core/src/router/host.rs) *)
Class Host (H : Type) := { host_authorize : H -> Claim -> H * bool; host_observe : H -> Event -> H }.
(** [Permissive] (bacnet-router-core/src/router/host.rs) *)
Inductive Permissive := ThePermissive.
#[export] Instance Permissive_host : Host Permissive :=
  { host_authorize h _ := (h, true); host_observe h _ := h }.

(** ** Replies (router/reply.rs) *)

(** [ReplyPlanError] (bacnet-router-core/src/router/reply.rs) *)
Inductive ReplyPlanError := EmptyDestination | ReplyNpdu (e : EncodeError).
(** [ReplyPlan] (bacnet-router-core/src/router/reply.rs) *)
Record ReplyPlan := {
  rp_port : PortId; rp_peer : Mac; rp_source : option (Z * Mac); rp_destination : option (Z * Mac)
}.
(** The owned copy of an address.
    [ReplyPlan::new] (bacnet-router-core/src/router/reply.rs:77-82) *)
Definition reply_own (a : Address) : Result (Z * Mac) ReplyPlanError :=
  let? mac := map_err (fun _ => ReplyNpdu EncAddressTooLong) (mac_from_slice (addr_mac a)) in Ok (addr_network a, mac).
Definition reply_own_option (a : option Address) : Result (option (Z * Mac)) ReplyPlanError :=
  match a with Some a => let? own := reply_own a in Ok (Some own) | None => Ok None end.
(** [ReplyPlan::new] (bacnet-router-core/src/router/reply.rs) *)
Definition reply_plan_new (port : PortId) (peer : bytes) (src dst : option Address) : Result ReplyPlan ReplyPlanError :=
  let reserved := match dst with Some a => addr_network a =? 65535 | None => false end in
  let empty := match dst with Some a => bool_decide (addr_mac a = []) | None => false end in
  if reserved || empty then Err (if reserved then ReplyNpdu EncReservedNetwork else EmptyDestination) else
  let header := replicate (2 + 2 * (3 + MAX_MAC_LEN) + 1) 0 in
  let? _ := map_err ReplyNpdu
    (npdu_encode_into ((npdu_apdu []) <| source := src |> <| destination := dst |>) header).2 in
  let? peer := map_err (fun _ => ReplyNpdu EncAddressTooLong) (mac_from_slice peer) in
  let? src := reply_own_option src in
  let? dst := reply_own_option dst in
  Ok {| rp_port := port; rp_peer := peer; rp_source := src; rp_destination := dst |}.
Definition reply_address (a : option (Z * Mac)) : option Address :=
  match a with Some (network, mac) => Some {| addr_network := network; addr_mac := mac_as_slice mac |} | None => None end.
(** The NPDU of a reply, from the captured addresses.
    [ReplyPlan::npdu] (bacnet-router-core/src/router/reply.rs) *)
Definition reply_npdu (p : ReplyPlan) (apdu : bytes) (expecting : bool) (prio : NetworkPriority) : Npdu :=
  (npdu_apdu apdu) <| source := reply_address (rp_source p) |> <| destination := reply_address (rp_destination p) |>
    <| expecting_reply := expecting |> <| priority := prio |>.

(** ** A frame and what becomes of it (router/ingress.rs) *)

(** [Frame] (bacnet-router-core/src/router/ingress.rs) *)
Record Frame := { fm_port : PortId; fm_source : bytes; fm_link_group : bool; fm_npdu : bytes }.
(** [Local] (bacnet-router-core/src/router/ingress.rs) *)
Record LocalDelivery := {
  ld_apdu : bytes; ld_apdu_offset : nat; ld_source : option Address; ld_group : bool; ld_global : bool;
  ld_expecting_reply : bool; ld_priority : NetworkPriority; ld_reply : ReplyPlan
}.
(** [Discard] (bacnet-router-core/src/router/ingress.rs) *)
Inductive Discard :=
| DUnknownPort | DSourceTooLong (length : nat) | DAddressTooLong (field : AddressField) (length : Z) | DMalformed (fault : Malformed)
| DGlobalWithDadr | DBroadcastNotUnconfirmed | DGroupDadr | DHopCount | DDenied | DBadMessage | DUnroutable | DUnwritable
| DDuplicate | DOwnSource | DNotRouted.
(** [Received] (bacnet-router-core/src/router/ingress.rs) *)
Inductive Received := RLocal (l : LocalDelivery) | RToRouter (n : Npdu) | RHandled | RDiscarded (d : Discard).
(** [Arrival] (bacnet-router-core/src/router/ingress.rs) *)
Record Arrival := {
  at_port : PortId; at_network : Z; at_source : bytes; at_source_mac : Mac; at_link_group : bool; at_now : Instant
}.

(** ** The checks every frame passes (node.rs) *)

(** [Count] (bacnet-router-core/src/node.rs) *)
Inductive Count := CountAddressLength | CountGlobalDadr | CountBroadcastType | CountMalformed.
(** [Refused] (bacnet-router-core/src/node.rs) *)
Record Refused := { rf_discard : Discard; rf_count : Count; rf_reject_to : option (option Z * option Address) }.
(** [Refused::only] (bacnet-router-core/src/node.rs) *)
Definition refused_only (d : Discard) (c : Count) : Refused :=
  {| rf_discard := d; rf_count := c; rf_reject_to := None |}.
(** [is_unconfirmed] (bacnet-router-core/src/node.rs) *)
Definition is_unconfirmed (apdu : bytes) : bool :=
  match apdu with first :: _ => Z.shiftr first 4 =? 1 | [] => false end.
(** [admit_source] (bacnet-router-core/src/node.rs) *)
Definition admit_source (src : bytes) : Result Mac Refused :=
  map_err (fun _ => refused_only (DSourceTooLong (length src)) CountAddressLength) (mac_from_slice src).
(** [admit_npdu] (bacnet-router-core/src/node.rs) *)
Definition admit_npdu (octets : bytes) : Result Npdu Refused :=
  match npdu_decode octets with
  | Ok npdu =>
      match destination npdu with
      | Some d =>
          let global := addr_network d =? GLOBAL_NETWORK in
          let no_mac := bool_decide (addr_mac d = []) in
          if global && negb no_mac then Err (refused_only DGlobalWithDadr CountGlobalDadr) else
          let broadcast := global || no_mac in
          if broadcast && negb (is_network_message npdu) && negb (is_unconfirmed (payload npdu))
          then Err (refused_only DBroadcastNotUnconfirmed CountBroadcastType)
          else Ok npdu
      | None => Ok npdu
      end
  | Err (AddressTooLong field len dnet src) =>
      Err {| rf_discard := DAddressTooLong field len; rf_count := CountAddressLength; rf_reject_to := Some (dnet, src) |}
  | Err (MalformedNpdu fault) => Err (refused_only (DMalformed fault) CountMalformed)
  end.
(** [admit] (bacnet-router-core/src/node.rs) *)
Definition admit_frame (src octets : bytes) : Result Npdu Refused :=
  let? _ := admit_source src in admit_npdu octets.
(** The router's count of a refusal.
    [Counters::slot] (bacnet-router-core/src/router/counters.rs) *)
Definition bump_slot (c : Counters) (count : Count) : Counters :=
  match count with
  | CountAddressLength => c <| rc_address_length_drops ::= bump |>
  | CountGlobalDadr => c <| rc_global_broadcast_dadr_drops ::= bump |>
  | CountBroadcastType => c <| rc_broadcast_pdu_type_drops ::= bump |>
  | CountMalformed => c <| rc_malformed ::= bump |>
  end.

(** ** A node that does not route (node.rs) *)

(** [Counters] (bacnet-router-core/src/node.rs) *)
Record EndCounters := {
  ec_address_length_drops : Z; ec_global_broadcast_dadr_drops : Z; ec_broadcast_pdu_type_drops : Z; ec_malformed : Z;
  ec_routed_drops : Z
}.
#[export] Instance eta_EndCounters : Settable EndCounters := fun c =>
  {| ec_address_length_drops := ec_address_length_drops c; ec_global_broadcast_dadr_drops := ec_global_broadcast_dadr_drops c;
     ec_broadcast_pdu_type_drops := ec_broadcast_pdu_type_drops c; ec_malformed := ec_malformed c;
     ec_routed_drops := ec_routed_drops c |}.
(** [Counters::slot] (bacnet-router-core/src/node.rs) *)
Definition end_bump_slot (c : EndCounters) (count : Count) : EndCounters :=
  match count with
  | CountAddressLength => c <| ec_address_length_drops ::= bump |>
  | CountGlobalDadr => c <| ec_global_broadcast_dadr_drops ::= bump |>
  | CountBroadcastType => c <| ec_broadcast_pdu_type_drops ::= bump |>
  | CountMalformed => c <| ec_malformed ::= bump |>
  end.
(** [Node::new] (bacnet-router-core/src/node.rs) *)
Definition end_node_new : EndCounters :=
  {| ec_address_length_drops := 0; ec_global_broadcast_dadr_drops := 0; ec_broadcast_pdu_type_drops := 0;
     ec_malformed := 0; ec_routed_drops := 0 |}.
(** [Apdu] (bacnet-router-core/src/node.rs) *)
Record EndApdu := { ea_npdu : Npdu; ea_group : bool; ea_global : bool }.
(** [Received] (bacnet-router-core/src/node.rs) *)
Inductive EndReceived := EndApduFor (a : EndApdu) | EndMessage (n : Npdu) | EndDiscarded (d : Discard).
(** The node is its counters.
    [Node::receive] (bacnet-router-core/src/node.rs) *)
Definition end_receive (c : EndCounters) (src : bytes) (link_group : bool) (octets : bytes) : EndCounters * EndReceived :=
  match admit_frame src octets with
  | Err refused => (end_bump_slot c (rf_count refused), EndDiscarded (rf_discard refused))
  | Ok npdu =>
      let keep global :=
        if is_network_message npdu then (c, EndMessage npdu) else
        (c, EndApduFor {| ea_npdu := npdu; ea_group := global || link_group; ea_global := global |}) in
      match destination npdu with
      | None => keep false
      | Some d =>
          if addr_network d =? GLOBAL_NETWORK then keep true
          else (c <| ec_routed_drops ::= bump |>, EndDiscarded DNotRouted)
      end
  end.
(** [Node::take_counters] (bacnet-router-core/src/node.rs) *)
Definition end_take_counters (c : EndCounters) : EndCounters * EndCounters := (end_node_new, c).
