(* ===== verification/RouterOutput.v ===== *)
(** * What a router keeps between calls (crate bacnet-router-core, router/output.rs, tasks.rs, reject.rs,
    congestion.rs, duplicates.rs and the claimed set of control.rs)

    The NPDU in the scratch and where it goes next, the queue of tasks, the return path of a reject, each
    port's congestion state, and the ring of broadcasts seen. *)

From S2P Require Import Prelude Time Npdu Arrays RouteTable RouterMessage RouterGroups RouterData.
Open Scope Z_scope.

(** ** Sends (router/output.rs) *)

(** [Kind] (bacnet-router-core/src/router/output.rs) *)
Inductive Kind :=
| KForward | KGlobal | KRelay (message_type : Z) | KReject (reason : Z) | KAnswer (message_type : Z)
| KAnnounce (message_type : Z) | KSolicit | KCongestion (message_type : Z) | KOriginate.
#[global] Instance Kind_eq_dec : EqDecision Kind.
Proof. solve_decision. Defined.
(** [Cause] (bacnet-router-core/src/router/output.rs) *)
Inductive Cause := CauseIngress | CauseLocal.
#[global] Instance Cause_eq_dec : EqDecision Cause.
Proof. solve_decision. Defined.
(** [SendRefusal] (bacnet-router-core/src/router/output.rs) *)
Inductive SendRefusal := SrFull | SrTooLong | SrPortDown | SrOther.
#[global] Instance SendRefusal_eq_dec : EqDecision SendRefusal.
Proof. solve_decision. Defined.
(** [Dest] (bacnet-router-core/src/router/output.rs) *)
Inductive Dest := ToUnicast (mac : bytes) | ToBroadcast.
(** [Tag] (bacnet-router-core/src/router/output.rs) *)
Inductive Tag :=
| TagForward | TagGlobal | TagRelay | TagReject | TagAnswer | TagAnnounce | TagSolicit | TagCongestion | TagOriginate.
(** [Target] (bacnet-router-core/src/router/output.rs) *)
Inductive Target :=
| Toward (port : PortId) (mac : bytes) | TargetUnicast (port : PortId) (mac : bytes) | TargetBroadcast (port : PortId)
| AllBut (port : PortId).

(** ** Return paths (router/reject.rs) and tasks (router/tasks.rs) *)

(** [Mac::from_slice(octets).unwrap_or(Mac::EMPTY)] *)
Definition mac_or_empty (octets : bytes) : Mac := match mac_from_slice octets with Ok m => m | Err _ => MAC_EMPTY end.
(** [TaskKind] (bacnet-router-core/src/router/tasks.rs) *)
Inductive TaskKind :=
| TkEmpty | TkSolicit | TkReject | TkIAmAnswer | TkUpdateAck | TkTableAck | TkNumberIs | TkAnnounce | TkAnnouncePort.
#[global] Instance TaskKind_eq_dec : EqDecision TaskKind.
Proof. solve_decision. Defined.
(** [Task] (bacnet-router-core/src/router/tasks.rs) *)
Record Task := {
  tk_kind : TaskKind; tk_port : PortId; tk_network : Z; tk_reason : Z; tk_to : Mac; tk_origin_network : Z; tk_origin : Mac;
  tk_cursor : Z
}.
#[export] Instance eta_Task : Settable Task := fun t =>
  {| tk_kind := tk_kind t; tk_port := tk_port t; tk_network := tk_network t; tk_reason := tk_reason t; tk_to := tk_to t;
     tk_origin_network := tk_origin_network t; tk_origin := tk_origin t; tk_cursor := tk_cursor t |}.
(** [Task::EMPTY] (bacnet-router-core/src/router/tasks.rs) *)
Definition TASK_EMPTY : Task :=
  {| tk_kind := TkEmpty; tk_port := 0; tk_network := 0; tk_reason := REASON_OTHER; tk_to := MAC_EMPTY;
     tk_origin_network := 0; tk_origin := MAC_EMPTY; tk_cursor := 0 |}.
(** [Task::of] (bacnet-router-core/src/router/tasks.rs) *)
Definition task_of (kind : TaskKind) (port : PortId) : Task := TASK_EMPTY <| tk_kind := kind |> <| tk_port := port |>.
(** [Task::solicit] (bacnet-router-core/src/router/tasks.rs) *)
Definition task_solicit (except : PortId) (network : Z) : Task := (task_of TkSolicit except) <| tk_network := network |>.
(** [Task::reject] (bacnet-router-core/src/router/tasks.rs) *)
Definition task_reject (port : PortId) (to : bytes) (origin : option Address) (network reason : Z) : Task :=
  (task_of TkReject port) <| tk_network := network |> <| tk_reason := reason |> <| tk_to := mac_or_empty to |>
    <| tk_origin_network := match origin with Some o => addr_network o | None => 0 end |>
    <| tk_origin := match origin with Some o => mac_or_empty (addr_mac o) | None => MAC_EMPTY end |>.
(** [Task::i_am_answer] (bacnet-router-core/src/router/tasks.rs) *)
Definition task_i_am_answer (port : PortId) (network : option Z) : Task :=
  (task_of TkIAmAnswer port) <| tk_network := default 0 network |>.
(** [Task::update_ack] (bacnet-router-core/src/router/tasks.rs) *)
Definition task_update_ack (port : PortId) (to : Mac) : Task := (task_of TkUpdateAck port) <| tk_to := to |>.
(** [Task::table_ack] (bacnet-router-core/src/router/tasks.rs) *)
Definition task_table_ack (port : PortId) (to : Mac) : Task := (task_of TkTableAck port) <| tk_to := to |>.
(** [Task::number_is] (bacnet-router-core/src/router/tasks.rs) *)
Definition task_number_is (port : PortId) : Task := task_of TkNumberIs port.
(** [Task::announce] (bacnet-router-core/src/router/tasks.rs) *)
Definition task_announce : Task := task_of TkAnnounce 0.
(** [Task::announce_port] (bacnet-router-core/src/router/tasks.rs) *)
Definition task_announce_port (port : PortId) : Task := (task_of TkAnnouncePort port) <| tk_cursor := port * 2 |>.

(** [RejectOrigin] (bacnet-router-core/src/router/reject.rs) *)
Record RejectOrigin := {
  ro_port : PortId; ro_to : Mac; ro_network : Z; ro_destination_network : Z; ro_destination : Mac
}.
(** [RejectOrigin::NONE] (bacnet-router-core/src/router/reject.rs) *)
Definition ORIGIN_NONE : RejectOrigin :=
  {| ro_port := 0; ro_to := MAC_EMPTY; ro_network := 0; ro_destination_network := 0; ro_destination := MAC_EMPTY |}.
(** [RejectOrigin::as_option] (bacnet-router-core/src/router/reject.rs) *)
Definition origin_as_option (o : RejectOrigin) : option RejectOrigin := if ro_network o =? 0 then None else Some o.
(** [RejectOrigin::new] (bacnet-router-core/src/router/reject.rs) *)
Definition reject_origin_new (port : PortId) (to : bytes) (dst : option Address) (network : Z) : RejectOrigin :=
  {| ro_port := port; ro_to := mac_or_empty to; ro_network := network;
     ro_destination_network := match dst with Some a => addr_network a | None => 0 end;
     ro_destination := match dst with Some a => mac_or_empty (addr_mac a) | None => MAC_EMPTY end |}.
(** [RejectOrigin::task] (bacnet-router-core/src/router/reject.rs) *)
Definition reject_origin_task (o : RejectOrigin) (reason : Z) : Task :=
  let dst := if ro_destination_network o =? 0 then None
             else Some {| addr_network := ro_destination_network o; addr_mac := mac_as_slice (ro_destination o) |} in
  task_reject (ro_port o) (mac_as_slice (ro_to o)) dst (ro_network o) reason.

(** [Send] (bacnet-router-core/src/router/output.rs) *)
Record Send := {
  sd_port : PortId; sd_to : Dest; sd_npdu : bytes; sd_priority : NetworkPriority; sd_kind : Kind; sd_cause : Cause;
  sd_reject_origin : option RejectOrigin
}.
(** [Action] (bacnet-router-core/src/router/output.rs) *)
Inductive Action := ActSend (s : Send) | ActIdle.

(** ** The current output (router/output.rs) *)

(** [Current] (bacnet-router-core/src/router/output.rs) *)
Record Current := {
  cu_active : bool; cu_len : nat; cu_tag : Tag; cu_code : Z; cu_local : bool; cu_priority : NetworkPriority; cu_fan_out : bool;
  cu_port : PortId; cu_next : nat; cu_start : nat; cu_tail : nat; cu_tail_control : Z; cu_broadcast : bool; cu_to : Mac;
  cu_table_ack : bool; cu_reject_origin : RejectOrigin
}.
#[export] Instance eta_Current : Settable Current := fun c =>
  {| cu_active := cu_active c; cu_len := cu_len c; cu_tag := cu_tag c; cu_code := cu_code c; cu_local := cu_local c;
     cu_priority := cu_priority c; cu_fan_out := cu_fan_out c; cu_port := cu_port c; cu_next := cu_next c;
     cu_start := cu_start c; cu_tail := cu_tail c; cu_tail_control := cu_tail_control c; cu_broadcast := cu_broadcast c;
     cu_to := cu_to c; cu_table_ack := cu_table_ack c; cu_reject_origin := cu_reject_origin c |}.
(** [Current::NONE] (bacnet-router-core/src/router/output.rs) *)
Definition CURRENT_NONE : Current :=
  {| cu_active := false; cu_len := 0; cu_tag := TagForward; cu_code := 0; cu_local := false; cu_priority := Normal;
     cu_fan_out := false; cu_port := 0; cu_next := 0; cu_start := 0; cu_tail := 0; cu_tail_control := 0;
     cu_broadcast := false; cu_to := MAC_EMPTY; cu_table_ack := false; cu_reject_origin := ORIGIN_NONE |}.
(** [Current::new] (bacnet-router-core/src/router/output.rs:214-224) *)
Definition tag_of (kind : Kind) : Tag * Z :=
  match kind with
  | KForward => (TagForward, 0) | KGlobal => (TagGlobal, 0) | KRelay code => (TagRelay, code)
  | KReject reason => (TagReject, reason) | KAnswer code => (TagAnswer, code) | KAnnounce code => (TagAnnounce, code)
  | KSolicit => (TagSolicit, 0) | KCongestion code => (TagCongestion, code) | KOriginate => (TagOriginate, 0)
  end.
(** [Current::new] (bacnet-router-core/src/router/output.rs) *)
Definition current_new (len : nat) (kind : Kind) (cause : Cause) (prio : NetworkPriority) (target : Target) : Current :=
  let current := CURRENT_NONE <| cu_active := true |> <| cu_len := len |> <| cu_tag := (tag_of kind).1 |>
    <| cu_code := (tag_of kind).2 |> <| cu_local := bool_decide (cause = CauseLocal) |> <| cu_priority := prio |> in
  match target with
  | Toward port to =>
      current <| cu_port := port |> <| cu_broadcast := bool_decide (to = []) |> <| cu_to := mac_or_empty to |>
  | TargetUnicast port to => current <| cu_port := port |> <| cu_to := mac_or_empty to |>
  | TargetBroadcast port => current <| cu_port := port |> <| cu_broadcast := true |>
  | AllBut port => current <| cu_port := port |> <| cu_fan_out := true |>
  end.
(** [Current::with_tail] (bacnet-router-core/src/router/output.rs) *)
Definition with_tail (c : Current) (offset : nat) (control : Z) : Current :=
  c <| cu_tail := offset |> <| cu_tail_control := control |>.
(** [Current::has_more] (bacnet-router-core/src/router/output.rs) *)
Definition has_more (c : Current) (ports : nat) : bool :=
  cu_active c && (negb (cu_fan_out c) || negb (bool_decide (cu_tail c = 0%nat))
    || existsb (fun port => negb (Z.of_nat port =? cu_port c)) (seq (cu_next c) (ports - cu_next c))).
(** [Current::kind] (bacnet-router-core/src/router/output.rs) *)
Definition current_kind (c : Current) : Kind :=
  match cu_tag c with
  | TagForward => KForward | TagGlobal => KGlobal | TagRelay => KRelay (cu_code c) | TagReject => KReject (cu_code c)
  | TagAnswer => KAnswer (cu_code c) | TagAnnounce => KAnnounce (cu_code c) | TagSolicit => KSolicit
  | TagCongestion => KCongestion (cu_code c) | TagOriginate => KOriginate
  end.

(** ** The queue of tasks (router/output.rs) *)

(** [QUEUE] (bacnet-router-core/src/router/output.rs) *)
Definition QUEUE : nat := 4.
(** [Outputs] (bacnet-router-core/src/router/output.rs) *)
Record Outputs := {
  ou_current : Current; ou_tasks : list Task; ou_len : nat; ou_last_table_ack : bool; ou_last_port : PortId
}.
#[export] Instance eta_Outputs : Settable Outputs := fun o =>
  {| ou_current := ou_current o; ou_tasks := ou_tasks o; ou_len := ou_len o; ou_last_table_ack := ou_last_table_ack o;
     ou_last_port := ou_last_port o |}.
(** [Outputs::NEW] (bacnet-router-core/src/router/output.rs) *)
Definition OUTPUTS_NEW : Outputs :=
  {| ou_current := CURRENT_NONE; ou_tasks := replicate QUEUE TASK_EMPTY; ou_len := 0; ou_last_table_ack := false;
     ou_last_port := 0 |}.
(** [Outputs::pending] (bacnet-router-core/src/router/output.rs) *)
Definition outputs_pending (o : Outputs) (ports : nat) : nat :=
  ((if has_more (ou_current o) ports then 1 else 0) + ou_len o)%nat.
(** [Outputs::push] (bacnet-router-core/src/router/output.rs) *)
Definition outputs_push (o : Outputs) (t : Task) : Outputs :=
  if bool_decide (ou_len o < length (ou_tasks o))%nat
  then o <| ou_tasks ::= <[ou_len o := t]> |> <| ou_len ::= S |> else o.
(** [Outputs::front] (bacnet-router-core/src/router/output.rs) *)
Definition outputs_front (o : Outputs) : option Task := take (ou_len o) (ou_tasks o) !! 0%nat.
(** [Outputs::advance] (bacnet-router-core/src/router/output.rs) *)
Definition outputs_advance (o : Outputs) (cursor : Z) : Outputs :=
  if bool_decide (0 < ou_len o)%nat then o <| ou_tasks ::= alter (fun t => t <| tk_cursor := cursor |>) 0%nat |> else o.
(** [Outputs::pop] (bacnet-router-core/src/router/output.rs) *)
Definition outputs_pop (o : Outputs) : Outputs :=
  if bool_decide (0 < ou_len o)%nat then
    let l := sift_up (ou_len o - 1) 1 (ou_tasks o) in
    o <| ou_tasks := <[(ou_len o - 1)%nat := TASK_EMPTY]> l |> <| ou_len ::= Nat.pred |>
  else o.

(** ** Congestion (router/congestion.rs) *)

(** [Backlog] (bacnet-router-core/src/router/congestion.rs) *)
Record Backlog := { bl_queued : Z; bl_capacity : Z }.
(** [Backlog::full] (bacnet-router-core/src/router/congestion.rs) *)
Definition backlog_full (b : Backlog) : bool := bl_capacity b <=? bl_queued b.
(** [Backlog::under] (bacnet-router-core/src/router/congestion.rs) *)
Definition backlog_under (b : Backlog) (percent : Z) : bool :=
  sat_mul U32_MAX (bl_queued b) 100 <? sat_mul U32_MAX (bl_capacity b) percent.
(** [State] (bacnet-router-core/src/router/congestion.rs) *)
Inductive FlowState := FlowClear | FlowFilling | FlowClogged.
#[global] Instance FlowState_eq_dec : EqDecision FlowState.
Proof. solve_decision. Defined.
(** [Pending] (bacnet-router-core/src/router/congestion.rs) *)
Inductive FlowPending := PendNone | PendBusy | PendAvailable.
#[global] Instance FlowPending_eq_dec : EqDecision FlowPending.
Proof. solve_decision. Defined.
(** [Flow] (bacnet-router-core/src/router/congestion.rs) *)
Record Flow := { fl_state : FlowState; fl_since : Instant; fl_pending : FlowPending; fl_cursor : Z }.
#[export] Instance eta_Flow : Settable Flow := fun f =>
  {| fl_state := fl_state f; fl_since := fl_since f; fl_pending := fl_pending f; fl_cursor := fl_cursor f |}.
(** [Flow::CLEAR] (bacnet-router-core/src/router/congestion.rs) *)
Definition FLOW_CLEAR : Flow :=
  {| fl_state := FlowClear; fl_since := INSTANT_ZERO; fl_pending := PendNone; fl_cursor := 0 |}.
(** [Flow::congested] (bacnet-router-core/src/router/congestion.rs) *)
Definition flow_congested (f : Flow) : bool := negb (bool_decide (fl_state f = FlowClear)).
(** [Flow::clogged] (bacnet-router-core/src/router/congestion.rs) *)
Definition flow_clogged (f : Flow) : bool := bool_decide (fl_state f = FlowClogged).
Definition flow_waits (f : Flow) : bool := negb (bool_decide (fl_pending f = PendNone)).
(** [Flow::take_pending] (bacnet-router-core/src/router/congestion.rs) *)
Definition flow_take_pending (f : Flow) : Flow * bool := (f <| fl_pending := PendNone |>, flow_waits f).
(** [Flow::announce] (bacnet-router-core/src/router/congestion.rs) *)
Definition flow_announce (f : Flow) (p : FlowPending) : Flow * option FlowPending :=
  (f <| fl_pending := p |> <| fl_cursor := 0 |>, Some p).
(** [Flow::report] (bacnet-router-core/src/router/congestion.rs) *)
Definition flow_report (f : Flow) (b : Backlog) (now : Instant) (policy : Congestion) : Flow * option FlowPending :=
  if backlog_under b (cg_drain_below_percent policy) then
    let was := fl_state f in
    let f := f <| fl_state := FlowClear |> in
    if bool_decide (was = FlowClogged) then flow_announce f PendAvailable else (f, None)
  else if negb (backlog_full b) then (f, None) else
  match fl_state f with
  | FlowClear => (f <| fl_state := FlowFilling |> <| fl_since := now |>, None)
  | FlowFilling =>
      if instant_add (fl_since f) (cg_clog_after policy) <=? now
      then flow_announce (f <| fl_state := FlowClogged |> <| fl_since := now |>) PendBusy else (f, None)
  | FlowClogged =>
      if instant_add (fl_since f) (cg_repeat policy) <=? now
      then flow_announce (f <| fl_since := now |>) PendBusy else (f, None)
  end.

(** ** Broadcasts seen (router/duplicates.rs) *)

(** [Seen] (bacnet-router-core/src/router/duplicates.rs) *)
Record Seen := { sn_at : Instant; sn_payload : Z; sn_source : Z; sn_network : Z; sn_tag : Z; sn_resets : Z }.
(** [APDU] (bacnet-router-core/src/router/duplicates.rs) *)
Definition TAG_APDU : Z := 255.
(** [EMPTY] (bacnet-router-core/src/router/duplicates.rs) *)
Definition SEEN_EMPTY : Seen :=
  {| sn_at := INSTANT_ZERO; sn_payload := 0; sn_source := 0; sn_network := 0; sn_tag := TAG_APDU; sn_resets := 0 |}.
(** [Recent] (bacnet-router-core/src/router/duplicates.rs) *)
Record Recent := { re_seen : list Seen; re_next : nat }.
(** [Recent::NEW] (bacnet-router-core/src/router/duplicates.rs) *)
Definition recent_new (B : nat) : Recent := {| re_seen := replicate B SEEN_EMPTY; re_next := 0 |}.
(** [fnv1a] (bacnet-router-core/src/router/duplicates.rs) *)
Definition fnv1a (octets : bytes) : Z :=
  fold_left (fun hash octet => (Z.lxor hash octet * 16777619) mod 4294967296) octets 2166136261.
(** [Recent::record] (bacnet-router-core/src/router/duplicates.rs) *)
Definition recent_record (r : Recent) (entry : Seen) : Recent :=
  if bool_decide (re_next r < length (re_seen r))%nat then
    let next := S (re_next r) in
    {| re_seen := <[re_next r := entry]> (re_seen r);
       re_next := if bool_decide (next = length (re_seen r)) then 0 else next |}
  else r.
Definition seen_fresh (now : Instant) (ttl : Duration) (s : Seen) : bool := now <? instant_add (sn_at s) ttl.
Definition seen_matches (network tag src data : Z) (s : Seen) : bool :=
  (sn_network s =? network) && (sn_tag s =? tag) && (sn_source s =? src) && (sn_payload s =? data).
(** [Recent::repeat_tagged] (bacnet-router-core/src/router/duplicates.rs) *)
Definition repeat_tagged (r : Recent) (network : Z) (src : bytes) (tag : Z) (data : bytes) (now : Instant) (ttl : Duration)
  : Recent * bool :=
  let entry := {| sn_at := now; sn_payload := fnv1a data; sn_source := fnv1a src; sn_network := network; sn_tag := tag;
                  sn_resets := 0 |} in
  if existsb (seen_fresh now ttl) (List.filter (seen_matches network tag (sn_source entry) (sn_payload entry)) (re_seen r))
  then (r, true) else (recent_record r entry, false).
(** [Recent::repeat] (bacnet-router-core/src/router/duplicates.rs) *)
Definition recent_repeat (r : Recent) (network : Z) (src data : bytes) (now : Instant) (ttl : Duration) : Recent * bool :=
  repeat_tagged r network src TAG_APDU data now ttl.
Definition seen_live (network src : Z) (now : Instant) (ttl : Duration) (s : Seen) : bool :=
  (sn_network s =? network) && (sn_source s =? src) && seen_fresh now ttl s.
(** [Iterator::max] *)
Definition max_of (l : list Z) : option Z :=
  match l with [] => None | x :: l => Some (fold_left Z.max l x) end.
(** [Recent::repeat_flow] (bacnet-router-core/src/router/duplicates.rs) *)
Definition repeat_flow (r : Recent) (network : Z) (src : bytes) (tag opposite : Z) (data : bytes) (now : Instant)
  (ttl : Duration) : Recent * bool :=
  let src := fnv1a src in
  let data := fnv1a data in
  let live := seen_live network src now ttl in
  if existsb (fun s => live s && (sn_tag s =? tag) && (sn_payload s =? data)) (re_seen r) then (r, true) else
  let opposed s := live s && (sn_tag s =? opposite) in
  let before := max_of (map sn_resets (List.filter opposed (re_seen r))) in
  let '(seen, resets) :=
    match before with
    | Some count =>
        if count <? RESET_LIMIT then (map (fun s => if opposed s then SEEN_EMPTY else s) (re_seen r), count + 1)
        else (re_seen r, count)
    | None => (re_seen r, 0)
    end in
  (recent_record {| re_seen := seen; re_next := re_next r |}
     {| sn_at := now; sn_payload := data; sn_source := src; sn_network := network; sn_tag := tag; sn_resets := resets |},
   false).

(** ** The networks one message has claimed (router/control.rs) *)

(** [Claimed] (bacnet-router-core/src/router/control.rs) *)
Record Claimed := { cl_networks : list Z; cl_len : nat }.
(** [Claimed::new] (bacnet-router-core/src/router/control.rs) *)
Definition claimed_new (R : nat) : Claimed := {| cl_networks := replicate R 0; cl_len := 0 |}.
(** [Claimed::insert] (bacnet-router-core/src/router/control.rs) *)
Definition claimed_insert (c : Claimed) (network : Z) : Claimed * bool :=
  match binary_search (fun n => n) (take (cl_len c) (cl_networks c)) network with
  | Ok _ => (c, false)
  | Err at_ =>
      (if bool_decide (cl_len c < length (cl_networks c))%nat
       then {| cl_networks := sift_down (cl_len c - at_) at_ (<[cl_len c := network]> (cl_networks c)); cl_len := S (cl_len c) |}
       else c, true)
  end.
