(* ===== verification/RouterEngine.v ===== *)
(** * The router engine (crate bacnet-router-core, router.rs and router/)

    A router's storage and every call into it. A method of the storage is a function that returns the
    new storage with its result; one that also calls the host's hooks is in the monad [M], which threads the
    storage and the host's state. Debug assertions, and the [expect] of a local delivery, are the flag [st_asserts]. *)

From S2P Require Import Prelude Time Npdu Arrays RouteTable Discovery RouterMessage RouterGroups RouterData RouterOutput.
Open Scope Z_scope.

(** ** State and hooks, threaded *)

Definition M (S H A : Type) : Type := S -> H -> S * H * A.
Definition ret {S H A} (a : A) : M S H A := fun s h => (s, h, a).
Definition bind {S H A B} (m : M S H A) (k : A -> M S H B) : M S H B := fun s h => let '(s, h, a) := m s h in k a s h.
(** A read of the storage, a change of it, and both. *)
Definition get {S H A} (f : S -> A) : M S H A := fun s h => (s, h, f s).
Definition upd {S H} (f : S -> S) : M S H unit := fun s h => (f s, h, tt).
Definition act {S H A} (f : S -> S * A) : M S H A := fun s h => let '(s, a) := f s in (s, h, a).
Definition observe {S H} `{Host H} (e : Event) : M S H unit := fun s h => (s, host_observe h e, tt).
Definition ask {S H} `{Host H} (c : Claim) : M S H bool := fun s h => let '(h, b) := host_authorize h c in (s, h, b).
Notation "'let!' x := m 'in' k" := (bind m (fun x => k))
  (at level 10, x strict pattern, m at level 100, k at level 200) : bac_scope.
Notation "'do!' m 'in' k" := (bind m (fun _ => k)) (at level 10, m at level 100, k at level 200) : bac_scope.
(** [for x in l], and [for x in l] until the body says to stop. *)
Fixpoint for_each {S H A} (l : list A) (body : A -> M S H unit) : M S H unit :=
  match l with [] => ret tt | x :: l => do! body x in for_each l body end.

(** ** Storage (router.rs) *)

(** [Storage] (bacnet-router-core/src/router.rs) *)
Record Storage (G : Type) := {
  st_ports : list (PortConfig G); st_flows : list Flow; st_port_count : nat; st_table : Table; st_discovery : Discovery;
  st_scratch : bytes; st_out : Outputs; st_counters : Counters; st_recent : Recent; st_next_sweep : Instant;
  st_latest : Instant; st_asserts : bool
}.
Arguments st_ports {G}.
Arguments st_flows {G}.
Arguments st_port_count {G}.
Arguments st_table {G}.
Arguments st_discovery {G}.
Arguments st_scratch {G}.
Arguments st_out {G}.
Arguments st_counters {G}.
Arguments st_recent {G}.
Arguments st_next_sweep {G}.
Arguments st_latest {G}.
Arguments st_asserts {G}.
#[export] Instance eta_Storage {G} : Settable (Storage G) := fun s =>
  {| st_ports := st_ports s; st_flows := st_flows s; st_port_count := st_port_count s; st_table := st_table s;
     st_discovery := st_discovery s; st_scratch := st_scratch s; st_out := st_out s; st_counters := st_counters s;
     st_recent := st_recent s; st_next_sweep := st_next_sweep s; st_latest := st_latest s; st_asserts := st_asserts s |}.

(** ** Requests (router/originate.rs) *)

(** [SourceSelection] (bacnet-router-core/src/router/originate.rs) *)
Inductive SourceSelection := EgressPort | SourcePort (port : PortId).
(** [Request] (bacnet-router-core/src/router/originate.rs) *)
Record Request := {
  rq_destination : Address; rq_apdu : bytes; rq_expecting_reply : bool; rq_priority : NetworkPriority; rq_source : SourceSelection
}.
(** [OriginateError] (bacnet-router-core/src/router/originate.rs) *)
Inductive OriginateError :=
| OrReservedNetwork | OrGlobalWithDadr | OrOwnAddress | OrBroadcastNotUnconfirmed | OrUnknownPort | OrNoRoute | OrBusy
| OrUnreachable | OrGroupDestination | OrTooLong (octets : nat) (limit : Z) | OrUnwritable.

Section Engine.
Context {G : Type} `{GroupClassifier G} {Hst : Type} `{Host Hst}.
Implicit Types (s : Storage G) (arr : Arrival) (n : Npdu) (opt : Options).
Let E A := M (Storage G) Hst A.

(** Its constant assertions bound [P] and [N]; the model takes any.
    [Storage::new] (bacnet-router-core/src/router.rs:163-180) *)
Definition storage_new (P R H D N B : nat) : Storage G :=
  {| st_ports := replicate P PORT_ZERO; st_flows := replicate P FLOW_CLEAR; st_port_count := 0; st_table := table_new R H;
     st_discovery := discovery_new D; st_scratch := replicate N 0; st_out := OUTPUTS_NEW; st_counters := COUNTERS_ZERO;
     st_recent := recent_new B; st_next_sweep := INSTANT_ZERO; st_latest := INSTANT_ZERO; st_asserts := true |}.
(** [&self.ports[..self.port_count]] *)
Definition ports_of s : list (PortConfig G) := take (st_port_count s) (st_ports s).
Definition port_at s (port : PortId) : option (PortConfig G) := ports_of s !! Z.to_nat port.
Definition flows_of s : list Flow := take (st_port_count s) (st_flows s).
(** [debug_assert!] *)
Definition check (b : bool) s : Storage G := s <| st_asserts ::= andb b |>.
Definition push s (t : Task) : Storage G :=
  (check (bool_decide (ou_len (st_out s) < QUEUE)%nat) s) <| st_out ::= fun o => outputs_push o t |>.

(** ** Writing (router/output.rs) *)

(** [Storage::drop_undrained] (bacnet-router-core/src/router/output.rs) *)
Definition drop_undrained s : Storage G :=
  let announcements := length (List.filter flow_waits (flows_of s)) in
  let s := s <| st_flows ::= fun l => ((fun f => (flow_take_pending f).1) <$> take (st_port_count s) l)
                                      ++ drop (st_port_count s) l |> in
  let pending := (outputs_pending (st_out s) (st_port_count s) + announcements)%nat in
  if bool_decide (0 < pending)%nat then
    s <| st_counters ::= over rc_undrained (fun u => sat_add U32_MAX u (Z.min U32_MAX (Z.of_nat pending))) |>
      <| st_out := OUTPUTS_NEW |>
  else s.
(** [Storage::write_now] (bacnet-router-core/src/router/output.rs) *)
Definition write_now s n (kind : Kind) (target : Target) : Storage G * bool :=
  let s := check (bool_decide (outputs_pending (st_out s) (st_port_count s) = 0)%nat) s in
  match npdu_encode_into n (st_scratch s) with
  | (scratch, Ok len) =>
      (s <| st_scratch := scratch |>
         <| st_out ::= over ou_current (fun _ => current_new len kind CauseIngress (priority n) target) |>, true)
  | (scratch, Err _) => (s <| st_scratch := scratch |> <| st_counters ::= over rc_write_failures bump |>, false)
  end.
(** [enumerate()] over the ports, with their identifiers. *)
Definition numbered {A} (l : list A) : list (PortId * A) := imap (fun i x => (Z.of_nat i, x)) l.
(** [Storage::write_fan_out] (bacnet-router-core/src/router/output.rs) *)
Definition write_fan_out n (kind : Kind) (except : PortId) : E bool :=
  let! written := act (fun s => write_now s n kind (AllBut except)) in
  if negb written then ret false else
  let! octets := get (fun s => cu_len (ou_current (st_out s))) in
  let! ports := get ports_of in
  do! for_each (numbered ports) (fun '(port, config) =>
        let limit := limits_get (pc_max_npdu config) true in
        if negb (port =? except) && (limit <? Z.of_nat octets) then observe (EvTooLong port octets limit None) else ret tt) in
  ret true.

(** Whether [octets] fit a port.
    [Storage::next_target] (bacnet-router-core/src/router/output.rs:479-484) *)
Definition fits_from s (octets : nat) (port : PortId) (broadcast : bool) : bool :=
  match port_at s port with
  | Some config => Z.of_nat octets <=? limits_get (pc_max_npdu config) broadcast
  | None => false
  end.
Definition too_long s : Storage G := s <| st_counters ::= over rc_egress_too_long bump |>.
Definition on_current (f : Current -> Current) s : Storage G := s <| st_out ::= over ou_current f |>.
(** The [while] loop of a fan-out, over the ports still to try.
    [Storage::next_target] (bacnet-router-core/src/router/output.rs:493-505) *)
Fixpoint fan_out_next (rest : nat) s : Storage G * option PortId :=
  match rest with
  | O => (s, None)
  | S rest =>
      let current := ou_current (st_out s) in
      let port := Z.of_nat (cu_next current) in
      let s := on_current (over cu_next S) s in
      if port =? cu_port current then fan_out_next rest s else
      if fits_from s (cu_len current) port true then (s, Some port) else fan_out_next rest (too_long s)
  end.
(** [Storage::next_target] (bacnet-router-core/src/router/output.rs) *)
Definition next_target s : Storage G * option (PortId * bool) :=
  let current := ou_current (st_out s) in
  if negb (cu_active current) then (s, None) else
  if negb (cu_fan_out current) then
    let s := on_current (fun c => c <| cu_active := false |>) s in
    if fits_from s (cu_len current) (cu_port current) (cu_broadcast current)
    then (s, Some (cu_port current, cu_broadcast current)) else (too_long s, None)
  else
    match fan_out_next (st_port_count s - cu_next current) s with
    | (s, Some port) => (s, Some (port, true))
    | (s, None) =>
        let tail := cu_tail current in
        let finish s := (on_current (fun c => c <| cu_active := false |>) s, None) in
        let s := on_current (fun c => c <| cu_tail := 0%nat |>) s in
        if bool_decide (tail = 0%nat) then finish s else
        let header := [VERSION; cu_tail_control current; 255; 255; 0] in
        let s := check (bool_decide (tail + length header < cu_len current)%nat) s in
        if bool_decide (tail + length header <= length (st_scratch s))%nat then
          let s := on_current (fun c => c <| cu_start := tail |>)
                     (s <| st_scratch ::= fun l => splice l tail header |>) in
          if fits_from s (cu_len current - tail) (cu_port current) true then (s, Some (cu_port current, true))
          else finish (too_long s)
        else finish s
    end.
(** The send of the current output to a port.
    [Storage::poll] (bacnet-router-core/src/router/output.rs:445-462) *)
Definition current_send s (port : PortId) (broadcast : bool) : Send :=
  let current := ou_current (st_out s) in
  {| sd_port := port; sd_to := if broadcast then ToBroadcast else ToUnicast (mac_as_slice (cu_to current));
     sd_npdu := drop (cu_start current) (take (cu_len current) (st_scratch s)); sd_priority := cu_priority current;
     sd_kind := current_kind current; sd_cause := if cu_local current then CauseLocal else CauseIngress;
     sd_reject_origin := origin_as_option (cu_reject_origin current) |}.

(** ** Tasks (router/tasks.rs) *)

(** [ACK_ENTRIES] (bacnet-router-core/src/router/tasks.rs) *)
Definition ACK_ENTRIES : nat := ((501 - 3 - 1) / ROUTING_ENTRY_LEN)%nat.
(** The buffer and the length written.
    [write_message] (bacnet-router-core/src/router/tasks.rs) *)
Definition write_message (scratch : bytes) (kind : Z) (data : bytes -> bytes * option nat) : bytes * option nat :=
  let header := npdu_message kind [] in
  let at_ := encoded_len header in
  if bool_decide (at_ <= length scratch)%nat then
    match data (drop at_ scratch) with
    | (rest, None) => (take at_ scratch ++ rest, None)
    | (rest, Some len) =>
        match npdu_encode_into header (take at_ scratch) with
        | (head, Ok _) => (head ++ rest, Some (at_ + len)%nat)
        | (head, Err _) => (head ++ rest, None)
        end
    end
  else (scratch, None).
(** [Result::ok] of what a writer returns. *)
Definition written {T} (r : bytes * Result nat T) : bytes * option nat :=
  (r.1, match r.2 with Ok len => Some len | Err _ => None end).
(** [wire_entries] (bacnet-router-core/src/router/tasks.rs) *)
Definition wire_entries (t : Table) (from : Z) : list (Z * Z) :=
  omap (fun nr => match wire_id (rt_port nr.2) with Some id => Some (nr.1, id) | None => None end)
    (List.filter (fun nr => from <=? nr.1) (table_routes t)).
(** [other_networks] (bacnet-router-core/src/router/tasks.rs) *)
Definition other_networks (ports : list (PortConfig G)) (port : PortId) : list Z :=
  map (fun x => pc_network x.2) (List.filter (fun x => negb (x.1 =? port)) (numbered ports)).
(** [Storage::write_number_is] (bacnet-router-core/src/router/tasks.rs) *)
Definition write_number_is s (port : PortId) : bytes * option nat :=
  match st_ports s !! Z.to_nat port with
  | Some config =>
      let data := network_number_is_to_bytes {| nn_network := pc_network config; nn_flag := CONFIGURED |} in
      written (npdu_encode_into (npdu_message NETWORK_NUMBER_IS data) (st_scratch s))
  | None => (st_scratch s, None)
  end.
(** [Storage::announce_end] (bacnet-router-core/src/router/tasks.rs) *)
Definition announce_end s : Z := 2 * Z.of_nat (st_port_count s).
(** The search over the cursors still to try.
    [Storage::next_announcement] (bacnet-router-core/src/router/tasks.rs) *)
Fixpoint next_announcement (rest : nat) s (cursor : Z) : bytes * option (Z * option nat) :=
  match rest with
  | O => (st_scratch s, None)
  | S rest =>
      let port := Z.shiftr cursor 1 in
      if Z.land cursor 1 =? 0 then
        let '(scratch, len) := write_number_is s port in (scratch, Some (cursor, len))
      else if bool_decide (1 < st_port_count s)%nat then
        let others := other_networks (ports_of s) port in
        let '(scratch, len) :=
          write_message (st_scratch s) I_AM_ROUTER_TO_NETWORK (fun data => written (networks_write others data)) in
        (scratch, Some (cursor, len))
      else next_announcement rest s (cursor + 1)
  end.
(** What a task writes: its next cursor, and the length (or nothing, for a writer that refused), kind, cause and
    target of its output, if it has one. *)
Definition TaskOutput : Type := option Z * option (option nat * Kind * Cause * Target).
(** The networks an unscoped answer on [port] lists.
    [Storage::write_task] (bacnet-router-core/src/router/tasks.rs:236-244) *)
Definition answer_networks (t : Table) (port : PortId) : list Z :=
  map fst (List.filter (fun nr => negb (rt_port nr.2 =? port) && negb (bool_decide (rt_reachability nr.2 = Unreachable)))
             (table_routes t)).
(** [Storage::write_task] (bacnet-router-core/src/router/tasks.rs:202-315) *)
Definition task_output s (task : Task) : bytes * TaskOutput :=
  let scratch := st_scratch s in
  let unicast := TargetUnicast (tk_port task) (mac_as_slice (tk_to task)) in
  match tk_kind task with
  | TkEmpty => (scratch, (None, None))
  | TkSolicit =>
      let '(scratch, len) :=
        written (npdu_encode_into (npdu_message WHO_IS_ROUTER_TO_NETWORK (to_be16 (tk_network task))) scratch) in
      (scratch, (None, Some (len, KSolicit, CauseIngress, AllBut (tk_port task))))
  | TkReject =>
      let data := reject_to_bytes {| reject_reason := tk_reason task; reject_network := tk_network task |} in
      let n := npdu_message REJECT_MESSAGE_TO_NETWORK data in
      let n := if tk_origin_network task =? 0 then n
               else n <| destination := Some {| addr_network := tk_origin_network task;
                                                addr_mac := mac_as_slice (tk_origin task) |} |> in
      let '(scratch, len) := written (npdu_encode_into n scratch) in
      (scratch, (None, Some (len, KReject (tk_reason task), CauseIngress, unicast)))
  | TkIAmAnswer =>
      let others := answer_networks (st_table s) (tk_port task) in
      let answer list :=
        let '(scratch, len) :=
          write_message scratch I_AM_ROUTER_TO_NETWORK (fun data => written (networks_write list data)) in
        (scratch, (None, Some (len, KAnswer I_AM_ROUTER_TO_NETWORK, CauseIngress, TargetBroadcast (tk_port task)))) in
      if negb (tk_network task =? 0) then answer [tk_network task]
      else match others with [] => (scratch, (None, None)) | _ => answer others end
  | TkUpdateAck =>
      let '(scratch, len) := written (npdu_encode_into (npdu_message INITIALIZE_ROUTING_TABLE_ACK []) scratch) in
      (scratch, (None, Some (len, KAnswer INITIALIZE_ROUTING_TABLE_ACK, CauseIngress, unicast)))
  | TkTableAck =>
      let entries := take ACK_ENTRIES (wire_entries (st_table s) (tk_cursor task)) in
      let last_network := fst <$> last entries in
      if negb (tk_cursor task =? 0) && negb (is_some last_network) then (scratch, (None, None)) else
      let '(scratch, len) :=
        write_message scratch INITIALIZE_ROUTING_TABLE_ACK (fun data => written (routing_entries_write entries data)) in
      let next := match last_network with Some network => if is_some len then Some (network + 1) else None | None => None end in
      (scratch, (next, Some (len, KAnswer INITIALIZE_ROUTING_TABLE_ACK, CauseIngress, unicast)))
  | TkNumberIs =>
      let '(scratch, len) := write_number_is s (tk_port task) in
      (scratch, (None, Some (len, KAnswer NETWORK_NUMBER_IS, CauseIngress, TargetBroadcast (tk_port task))))
  | TkAnnounce | TkAnnouncePort =>
      let end_ := if bool_decide (tk_kind task = TkAnnouncePort) then (tk_port task + 1) * 2 else announce_end s in
      match next_announcement (Z.to_nat (announce_end s - tk_cursor task)) s (tk_cursor task) with
      | (scratch, None) => (scratch, (None, None))
      | (scratch, Some (cursor, len)) =>
          let next := if cursor + 1 <? end_ then Some (cursor + 1) else None in
          let kind := if Z.land cursor 1 =? 0 then KAnnounce NETWORK_NUMBER_IS else KAnnounce I_AM_ROUTER_TO_NETWORK in
          (scratch, (next, Some (len, kind, CauseLocal, TargetBroadcast (Z.shiftr cursor 1))))
      end
  end.
(** [Storage::write_announcement] (bacnet-router-core/src/router/congestion.rs:265-276) *)
Definition announced_networks s (index : nat) (flow : Flow) (limit : Z) : list Z :=
  let per_message := Z.to_nat (Z.shiftr (sat_sub limit 3) 1) in
  take per_message (map fst (List.filter (fun nr => (fl_cursor flow <=? nr.1) && (rt_port nr.2 =? Z.of_nat index)
    && negb (bool_decide (rt_reachability nr.2 = Unreachable))) (table_routes (st_table s)))).
Definition min_of (l : list Z) : option Z := match l with [] => None | x :: l => Some (fold_left Z.min l x) end.
Definition set_flow s (index : nat) (f : Flow -> Flow) : Storage G := s <| st_flows ::= alter f index |>.
(** [Storage::write_announcement] (bacnet-router-core/src/router/congestion.rs) *)
Definition write_announcement s : Storage G * bool :=
  match list_find (fun f => flow_waits f = true) (flows_of s) with
  | None => (s, false)
  | Some (index, flow) =>
      let kind := match fl_pending flow with PendAvailable => ROUTER_AVAILABLE_TO_NETWORK | _ => ROUTER_BUSY_TO_NETWORK end in
      let stop s := set_flow s index (fun f => f <| fl_pending := PendNone |>) in
      let limits := map (fun x => limit_broadcast (pc_max_npdu x.2))
                      (List.filter (fun x => negb (x.1 =? Z.of_nat index)) (numbered (ports_of s))) in
      match min_of limits with
      | None => (stop s, true)
      | Some limit =>
          let networks := announced_networks s index flow limit in
          match last networks with
          | None => (stop s, true)
          | Some last_network =>
              match write_message (st_scratch s) kind (fun data => written (networks_write networks data)) with
              | (scratch, Some len) =>
                  let s := s <| st_scratch := scratch |> in
                  let s := on_current
                    (fun _ => current_new len (KCongestion kind) CauseLocal Normal (AllBut (Z.of_nat index))) s in
                  (set_flow s index (fun f => f <| fl_cursor := last_network + 1 |>), true)
              | (scratch, None) =>
                  (stop (s <| st_scratch := scratch |> <| st_counters ::= over rc_write_failures bump |>), true)
              end
          end
      end
  end.
(** [Storage::write_task] (bacnet-router-core/src/router/tasks.rs) *)
Definition write_task s : Storage G * bool :=
  match outputs_front (st_out s) with
  | None => write_announcement s
  | Some task =>
      let '(scratch, (next, output)) := task_output s task in
      let s := s <| st_scratch := scratch |> in
      let s := match output with
               | Some (Some len, kind, cause, target) =>
                   on_current (fun _ => (current_new len kind cause Normal target)
                                          <| cu_table_ack := bool_decide (tk_kind task = TkTableAck) |>) s
               | Some (None, _, _, _) => s <| st_counters ::= over rc_write_failures bump |>
               | None => s
               end in
      (s <| st_out ::= fun o => match next with Some cursor => outputs_advance o cursor | None => outputs_pop o end |>, true)
  end.
(** The rounds of [poll]: enough for every output each task and each waiting announcement may write. *)
Definition poll_fuel s : nat :=
  let routes := tl_len (st_table s) in
  let ports := st_port_count s in
  S (ou_len (st_out s) * (routes + 2 * ports + 2) + ports * (routes + 1)).
(** [Storage::poll] (bacnet-router-core/src/router/output.rs) *)
Fixpoint poll_loop (fuel : nat) s : Storage G * Action :=
  match next_target s with
  | (s, Some (port, broadcast)) =>
      let s := s <| st_out ::= fun o => o <| ou_last_table_ack := cu_table_ack (ou_current o) |> <| ou_last_port := port |> |> in
      (s, ActSend (current_send s port broadcast))
  | (s, None) =>
      match write_task s with
      | (s, true) => match fuel with O => (s, ActIdle) | S fuel => poll_loop fuel s end
      | (s, false) => (s, ActIdle)
      end
  end.
Definition poll s : Storage G * Action := poll_loop (poll_fuel s) s.
(** [Storage::end_refused_answer] (bacnet-router-core/src/router/output.rs) *)
Definition end_refused_answer s : Storage G :=
  let last_table_ack := ou_last_table_ack (st_out s) in
  let s := s <| st_out ::= fun o => o <| ou_last_table_ack := false |> |> in
  if last_table_ack && match outputs_front (st_out s) with Some t => bool_decide (tk_kind t = TkTableAck) | None => false end
  then s <| st_out ::= outputs_pop |> else s.

(** ** Rejects (router/reject.rs) *)

(** [Storage::is_own] (bacnet-router-core/src/router/reject.rs) *)
Definition is_own s (a : Address) : bool :=
  existsb (fun port => (pc_network port =? addr_network a) && bool_decide (mac_as_slice (pc_mac port) = addr_mac a)) (ports_of s).
(** [Storage::reject_origin] (bacnet-router-core/src/router/reject.rs) *)
Definition reject_origin s arr (origin : option Address) (network : Z) : option RejectOrigin :=
  match origin with
  | None => Some (reject_origin_new (at_port arr) (at_source arr) None network)
  | Some origin =>
      if is_own s origin then None else
      match list_find (fun port => pc_network port = addr_network origin) (ports_of s) with
      | Some (index, _) => Some (reject_origin_new (Z.of_nat index) (addr_mac origin) None network)
      | None => Some (reject_origin_new (at_port arr) (at_source arr) (Some origin) network)
      end
  end.
(** [Storage::queue_reject] (bacnet-router-core/src/router/reject.rs) *)
Definition queue_reject s (origin : RejectOrigin) (reason : Z) : Storage G :=
  push (s <| st_counters ::= over rc_rejects bump |>) (reject_origin_task origin reason).
(** [Storage::reject] (bacnet-router-core/src/router/reject.rs) *)
Definition reject arr (origin : option Address) (network reason : Z) : E unit :=
  let! found := get (fun s => reject_origin s arr origin network) in
  match found with
  | Some origin => upd (fun s => queue_reject s origin reason)
  | None => observe (EvOwnOrigin network)
  end.
(** [Storage::refused_while_clogged] (bacnet-router-core/src/router/output.rs) *)
Definition refused_while_clogged s : Storage G :=
  let clogged := match flows_of s !! Z.to_nat (ou_last_port (st_out s)) with Some flow => flow_clogged flow | None => false end in
  match origin_as_option (cu_reject_origin (ou_current (st_out s))) with
  | Some origin => if clogged then queue_reject s origin ROUTER_BUSY else s
  | None => s
  end.

(** ** Forwarding (router/forward.rs) *)

Definition bumped (f : Counters -> Counters) : E unit := upd (fun s => s <| st_counters ::= f |>).
Definition dnet_of n : Z := match destination n with Some d => addr_network d | None => 0 end.
(** [source_of] (bacnet-router-core/src/router/forward.rs) *)
Definition source_of arr n : option Address :=
  match source n with
  | Some a => Some a
  | None => Some {| addr_network := at_network arr; addr_mac := at_source arr |}
  end.
(** [Storage::hop_count_spent] (bacnet-router-core/src/router/forward.rs) *)
Definition hop_count_spent n : E Received :=
  do! bumped (over rc_hop_count_drops bump) in
  do! observe (EvHopCountSpent (dnet_of n)) in
  ret (RDiscarded DHopCount).
(** The NPDU as rewritten for [route], and its link destination.
    [Storage::forward] (bacnet-router-core/src/router/forward.rs:90-107) *)
Definition rewrite arr n (route : Route) : Npdu * bytes :=
  let '(dst, hops, to) :=
    if rt_direct route
    then (None, 0, match destination n with Some d => addr_mac d | None => [] end)
    else (destination n, hop_count n - 1, mac_as_slice (rt_next_hop route)) in
  (n <| destination := dst |> <| source := source_of arr n |> <| hop_count := hops |>, to).
(** [Storage::forward] (bacnet-router-core/src/router/forward.rs) *)
Definition forward arr n (route : Route) : E Received :=
  let last_hop := negb (rt_direct route) && (hop_count n =? 1) in
  if (hop_count n =? 0) || last_hop then hop_count_spent n else
  let! egress := get (fun s => port_at s (rt_port route)) in
  match egress with
  | None =>
      do! bumped (over rc_unknown_port bump) in
      do! observe (EvNoRoute (at_port arr) (dnet_of n)) in
      ret (RDiscarded DUnknownPort)
  | Some egress =>
      let '(rewritten, to) := rewrite arr n route in
      let limit := limits_get (pc_max_npdu egress) (bool_decide (to = [])) in
      let octets := encoded_len rewritten in
      let eligible := negb (bool_decide (message_type n = Some REJECT_MESSAGE_TO_NETWORK)) in
      let dnet := dnet_of n in
      if limit <? Z.of_nat octets then
        do! bumped (over rc_egress_too_long bump) in
        do! observe (EvTooLong (rt_port route) octets limit (if eligible then Some dnet else None)) in
        do! (if eligible then reject arr (source n) dnet MESSAGE_TOO_LONG else ret tt) in
        ret RHandled
      else
        let! written := act (fun s => write_now s rewritten KForward (Toward (rt_port route) to)) in
        if written then
          do! (if eligible then
                 upd (fun s => on_current (fun c => c <| cu_reject_origin :=
                   match reject_origin s arr (source n) dnet with Some r => r | None => ORIGIN_NONE end |>) s)
               else ret tt) in
          ret RHandled
        else ret (RDiscarded DUnwritable)
  end.
(** [Storage::forward_global] (bacnet-router-core/src/router/forward.rs) *)
Definition forward_global arr n : E unit :=
  if hop_count n <=? 1 then do! hop_count_spent n in ret tt else
  let rewritten := n <| source := source_of arr n |> <| hop_count := hop_count n - 1 |> in
  do! write_fan_out rewritten KGlobal (at_port arr) in ret tt.

(** ** Ingress (router/ingress.rs) *)

Definition REPLY_DEFAULT : ReplyPlan := {| rp_port := 0; rp_peer := MAC_EMPTY; rp_source := None; rp_destination := None |}.
(** The delivery, and the [expect] on its reply plan.
    [local] (bacnet-router-core/src/router/ingress.rs) *)
Definition local arr n (group global : bool) : E LocalDelivery :=
  let plan := reply_plan_new (at_port arr) (at_source arr) (if group then None else destination n) (source n) in
  do! upd (check (match plan with Ok _ => true | Err _ => false end)) in
  ret {| ld_apdu := payload n; ld_apdu_offset := payload_offset n; ld_source := source n; ld_group := group;
         ld_global := global; ld_expecting_reply := expecting_reply n; ld_priority := priority n;
         ld_reply := match plan with Ok plan => plan | Err _ => REPLY_DEFAULT end |}.
Definition deliver arr n (group global : bool) : E Received := let! l := local arr n group global in ret (RLocal l).
(** [Storage::dropped_as_own] (bacnet-router-core/src/router/ingress.rs) *)
Definition dropped_as_own n : E bool :=
  let! own := get (fun s => match source n with Some a => is_own s a | None => false end) in
  do! (if own then bumped (over rc_own_source_drops bump) else ret tt) in
  ret own.
(** [Storage::group_of] (bacnet-router-core/src/router/ingress.rs) *)
Definition group_of s (route : Route) n : Group :=
  match destination n with
  | Some d =>
      if rt_direct route && negb (bool_decide (addr_mac d = [])) then
        match port_at s (rt_port route) with Some port => classify (pc_groups port) (addr_mac d) | None => GroupNo end
      else GroupNo
  | None => GroupNo
  end.
(** [Storage::group_drop] (bacnet-router-core/src/router/ingress.rs) *)
Definition group_drop : E Received := do! bumped (over rc_group_dadr_drops bump) in ret (RDiscarded DGroupDadr).
(** A search for [dnet], if one is due, on every port but [except].
    [Storage::find_route] (bacnet-router-core/src/router/ingress.rs:367-373) *)
Definition solicit (dnet : Z) (except : PortId) (now : Instant) opt : E unit :=
  let! due := act (fun s => let '(d, b) := should_solicit (st_discovery s) dnet now (op_discovery_cooldown opt) in
                            (s <| st_discovery := d |>, b)) in
  if due then do! bumped (over rc_solicitations bump) in upd (fun s => push s (task_solicit except dnet)) else ret tt.
(** [Storage::find_route] (bacnet-router-core/src/router/ingress.rs) *)
Definition find_route arr n (dnet : Z) opt : E (option Route) :=
  let! route := get (fun s => table_lookup (st_table s) dnet) in
  let! reachability := get (fun s => effective_reachability (st_table s) dnet (at_now arr)) in
  match route with
  | None =>
      do! observe (EvNoRoute (at_port arr) dnet) in
      do! solicit dnet (at_port arr) (at_now arr) opt in
      do! reject arr (source n) dnet NOT_DIRECTLY_CONNECTED in
      ret None
  | Some route =>
      do! upd (fun s => s <| st_table ::= fun t => table_touch t dnet (at_now arr) |>) in
      match reachability with
      | Some Busy => do! reject arr (source n) dnet ROUTER_BUSY in ret None
      | Some Unreachable =>
          do! observe (EvNoRoute (at_port arr) dnet) in
          do! reject arr (source n) dnet NOT_DIRECTLY_CONNECTED in
          ret None
      | _ => ret (Some route)
      end
  end.
(** A global broadcast, its copies dropped.
    [Storage::route_apdu] (bacnet-router-core/src/router/ingress.rs:261-281) *)
Definition route_global arr n opt : E Received :=
  let! own := dropped_as_own n in
  if own then ret (RDiscarded DOwnSource) else
  let! repeated :=
    match op_duplicates opt with
    | Some duplicates =>
        let '(network, src) := match source n with Some a => (addr_network a, addr_mac a)
                               | None => (at_network arr, at_source arr) end in
        act (fun s => let '(r, b) := recent_repeat (st_recent s) network src (payload n) (at_now arr) (dp_ttl duplicates) in
                      (s <| st_recent := r |>, b))
    | None => ret false
    end in
  if repeated then do! bumped (over rc_duplicate_drops bump) in ret (RDiscarded DDuplicate) else
  do! forward_global arr n in
  deliver arr n true true.
(** [Storage::route_apdu] (bacnet-router-core/src/router/ingress.rs) *)
Definition route_apdu arr n opt : E Received :=
  match destination n with
  | None => deliver arr n (at_link_group arr) false
  | Some d =>
      if addr_network d =? GLOBAL_NETWORK then route_global arr n opt else
      let! own := get (fun s => negb (bool_decide (addr_mac d = [])) && is_own s d) in
      if own then deliver arr n false false else
      let! route := find_route arr n (addr_network d) opt in
      match route with
      | None => ret RHandled
      | Some route =>
          let here := (rt_port route =? at_port arr) && rt_direct route in
          let! own := get (fun s => match st_ports s !! Z.to_nat (at_port arr) with
                                    | Some port => bool_decide (mac_as_slice (pc_mac port) = addr_mac d) | None => false end) in
          if here && negb (bool_decide (addr_mac d = [])) && own then deliver arr n false false else
          let! delivered := if here && bool_decide (addr_mac d = [])
                            then let! l := local arr n true false in ret (Some l) else ret None in
          let! group := get (fun s => group_of s route n) in
          let pass n delivered :=
            let! forwarded := forward arr n route in
            ret (match delivered with Some l => RLocal l | None => forwarded end) in
          match group with
          | GroupNo => pass n delivered
          | GroupBroadcast =>
              if is_unconfirmed (payload n) then
                let n := n <| destination := Some {| addr_network := addr_network d; addr_mac := [] |} |> in
                let! delivered := if rt_port route =? at_port arr
                                  then let! l := local arr n true false in ret (Some l) else ret delivered in
                pass n delivered
              else group_drop
          | GroupRefuse => group_drop
          end
      end
  end.

(** ** Network messages (router/control.rs, init.rs) *)

(** [Storage::bad_message] (bacnet-router-core/src/router/control.rs) *)
Definition bad_message : E Received := do! bumped (over rc_bad_messages bump) in ret (RDiscarded DBadMessage).
(** [class_omits] (bacnet-router-core/src/router/control.rs) *)
Definition class_omits (class : ControlClass) : bool := match class with CcBusy | CcAvailable => true | _ => false end.
(** [Storage::authorize] (bacnet-router-core/src/router/control.rs) *)
Definition authorize arr n (class : ControlClass) (targets : Targets) : E bool :=
  let! allowed := ask {| cm_class := class; cm_port := at_port arr; cm_port_network := at_network arr; cm_source := at_source arr;
                         cm_message_type := default 255 (message_type n); cm_vendor_id := vendor_id n;
                         cm_snet := addr_network <$> source n; cm_dnet := addr_network <$> destination n; cm_targets := targets;
                         cm_targets_omitted := class_omits class && targets_is_empty targets |} in
  do! (if allowed then ret tt else bumped (over rc_denied bump)) in
  ret allowed.
(** [origin] (bacnet-router-core/src/router/control.rs) *)
Definition origin arr n : Address :=
  match source n with Some a => a | None => {| addr_network := at_network arr; addr_mac := at_source arr |} end.
(** [Storage::repeated_relay] (bacnet-router-core/src/router/control.rs) *)
Definition repeated_relay arr n (kind : Z) opt : E bool :=
  match op_duplicates opt with
  | None => ret false
  | Some duplicates =>
      let opposite := if kind =? ROUTER_BUSY_TO_NETWORK then Some ROUTER_AVAILABLE_TO_NETWORK else
                      if kind =? ROUTER_AVAILABLE_TO_NETWORK then Some ROUTER_BUSY_TO_NETWORK else None in
      let '(network, src) :=
        match opposite with
        | Some _ => (at_network arr, at_source arr)
        | None => if kind =? WHO_IS_ROUTER_TO_NETWORK then (addr_network (origin arr n), addr_mac (origin arr n))
                  else (GLOBAL_NETWORK, [])
        end in
      let! repeated := act (fun s =>
        let '(r, b) := match opposite with
          | Some opposite =>
              repeat_flow (st_recent s) network src kind opposite (payload n) (at_now arr) (dp_ttl duplicates)
          | None => repeat_tagged (st_recent s) network src kind (payload n) (at_now arr) (dp_ttl duplicates)
          end in (s <| st_recent := r |>, b)) in
      do! (if repeated then bumped (over rc_duplicate_drops bump) else ret tt) in
      ret repeated
  end.
(** [Handled], or [Unwritable] when the relay could not be written. *)
Definition relayed (written : bool) : Received := if written then RHandled else RDiscarded DUnwritable.
(** [Storage::rebroadcast] (bacnet-router-core/src/router/control.rs) *)
Definition rebroadcast arr n (kind : Z) : E Received :=
  let! written := write_fan_out (npdu_message kind (payload n)) (KRelay kind) (at_port arr) in
  ret (relayed written).
(** [Storage::who_is_router] (bacnet-router-core/src/router/control.rs) *)
Definition who_is_router arr n opt : E Received :=
  let! own := dropped_as_own n in
  if own then ret (RDiscarded DOwnSource) else
  match who_is_router_parse (payload n) with
  | Err _ | Ok (WhoIsNetwork 0) => bad_message
  | Ok WhoIsAll => do! upd (fun s => push s (task_i_am_answer (at_port arr) None)) in ret RHandled
  | Ok (WhoIsNetwork network) =>
      let! route := get (fun s => table_lookup (st_table s) network) in
      match route with
      | Some route =>
          if negb (rt_port route =? at_port arr)
          then do! upd (fun s => push s (task_i_am_answer (at_port arr) (Some network))) in ret RHandled
          else ret RHandled
      | None =>
          let! repeated := repeated_relay arr n WHO_IS_ROUTER_TO_NETWORK opt in
          if repeated then ret (RDiscarded DDuplicate) else
          let relay := n <| destination := None |> <| source := Some (origin arr n) |> <| vendor_id := None |> in
          let! written := write_fan_out relay (KRelay WHO_IS_ROUTER_TO_NETWORK) (at_port arr) in
          ret (relayed written)
      end
  end.
(** Whether the claims of the message go on, with the set claimed so far.
    [Storage::claim] (bacnet-router-core/src/router/control.rs) *)
Definition claim arr (network : Z) (claimed : Claimed) (class : ControlClass) opt : E (Claimed * bool) :=
  let! route := get (fun s => table_lookup (st_table s) network) in
  let! full := get (fun s => bool_decide (options_cap opt (table_capacity (st_table s)) <= tl_len (st_table s))%nat) in
  if full && negb (is_some route) then
    do! upd (fun s => s <| st_table ::= record_learning_cap |>) in
    do! observe (EvRouteCap class) in
    ret (claimed, false)
  else
  let moving := match route with Some r => negb (rt_direct r) && negb (rt_port r =? at_port arr) | None => false end in
  let '(claimed, new) := if moving then claimed_insert claimed network else (claimed, true) in
  if negb new then ret (claimed, true) else
  let! learned := act (fun s =>
    let '(t, l) := apply_claim (st_table s) network (at_port arr) (at_source_mac arr) (at_now arr) (op_timing opt) in
    (s <| st_table := t |>, l)) in
  do! (match learned with
       | Moved _ flaps => if learned_flapping learned then observe (EvFlapping network flaps) else ret tt
       | _ => ret tt
       end) in
  do! (if learned_applied learned then
         do! upd (fun s => s <| st_table ::= record_learned |>) in observe (EvLearned network (at_port arr) class)
       else ret tt) in
  ret (claimed, true).
(** The networks of a message, claimed in order until the cap ends it.
    [Storage::i_am_router] (bacnet-router-core/src/router/control.rs:339-344) *)
Fixpoint claims arr (networks : list Z) (claimed : Claimed) (class : ControlClass) opt : E unit :=
  match networks with
  | [] => ret tt
  | network :: networks =>
      let! (claimed, more) := claim arr network claimed class opt in
      if more then claims arr networks claimed class opt else ret tt
  end.
(** [Storage::i_am_router] (bacnet-router-core/src/router/control.rs) *)
Definition i_am_router arr n opt : E Received :=
  match networks_parse (payload n) with
  | Ok list =>
      if networks_is_empty list then bad_message else
      let! allowed := authorize arr n CcIAm (TargetNetworks list) in
      if negb allowed then ret (RDiscarded DDenied) else
      let! repeated := repeated_relay arr n I_AM_ROUTER_TO_NETWORK opt in
      if repeated then ret (RDiscarded DDuplicate) else
      let! capacity := get (fun s => table_capacity (st_table s)) in
      do! claims arr (networks_iter list) (claimed_new capacity) CcIAm opt in
      rebroadcast arr n I_AM_ROUTER_TO_NETWORK
  | Err _ => bad_message
  end.

(** [Storage::i_could_be_router] (bacnet-router-core/src/router/control.rs) *)
Definition i_could_be_router arr n opt : E Received :=
  match i_could_be_router_parse (payload n) with
  | Err _ => bad_message
  | Ok offer =>
      let named := match networks_parse (take 2 (payload n)) with Ok l => l | Err _ => NETWORKS_EMPTY end in
      let! allowed := authorize arr n CcICouldBe (TargetNetworks named) in
      if negb allowed then ret (RDiscarded DDenied) else
      let network := icb_network offer in
      let! new := get (fun s => negb (network =? 0) && negb (network =? GLOBAL_NETWORK)
                                && negb (is_some (table_lookup (st_table s) network))) in
      let! at_cap := get (fun s => bool_decide (options_cap opt (table_capacity (st_table s)) <= tl_len (st_table s))%nat) in
      do! (if new && at_cap then
             do! upd (fun s => s <| st_table ::= record_learning_cap |>) in observe (EvRouteCap CcICouldBe)
           else ret tt) in
      let! stored := if new && negb at_cap then
        act (fun s => let '(t, b) := add_learned (st_table s) network (at_port arr) (at_source_mac arr) (at_now arr) in
                      (s <| st_table := t |>, b)) else ret false in
      do! observe (EvICouldBe network (icb_performance_index offer) stored) in
      ret RHandled
  end.
(** [Storage::pass_on_reject] (bacnet-router-core/src/router/reject.rs) *)
Definition pass_on_reject arr n : E Received :=
  let! own := get (fun s => match destination n with Some d => is_own s d | None => true end) in
  match destination n with
  | Some d =>
      if own then ret (RToRouter n) else
      let! route := get (fun s => if addr_network d =? GLOBAL_NETWORK then None else
                                  if addr_network d =? at_network arr then None else table_lookup (st_table s) (addr_network d)) in
      match route with
      | Some route =>
          let! group := get (fun s => group_of s route n) in
          if negb (bool_decide (group = GroupNo)) then group_drop else forward arr n route
      | None => do! bumped (over rc_unroutable_rejects bump) in ret (RDiscarded DUnroutable)
      end
  | None => ret (RToRouter n)
  end.
(** [Storage::received_reject] (bacnet-router-core/src/router/control.rs) *)
Definition received_reject arr n opt : E Received :=
  match reject_decode (payload n) with
  | Err _ => bad_message
  | Ok r =>
      let named := match networks_parse (drop 1 (payload n)) with Ok l => l | Err _ => NETWORKS_EMPTY end in
      let! allowed := authorize arr n CcReject (TargetNetworks named) in
      if negb allowed then ret (RDiscarded DDenied) else
      let! off_path := get (fun s => op_next_hop_rejects opt &&
        match table_lookup (st_table s) (reject_network r) with
        | Some route => negb (rt_direct route)
            && negb (is_served_via_peer (st_table s) (reject_network r) (at_port arr) (at_source arr))
        | None => false
        end) in
      let! effect :=
        if off_path then do! bumped (over rc_not_next_hop bump) in ret EffectNotNextHop else
        act (fun s => let '(t, e) := apply_reject (st_table s) (reject_network r) (at_port arr) (reject_reason r) (at_now arr)
                                       (op_timing opt) in
                      (s <| st_table := t |>, e)) in
      do! observe (EvRejectReceived (reject_network r) (reject_reason r) effect) in
      pass_on_reject arr n
  end.
(** The [mark] of a network.
    [Storage::flow_control] (bacnet-router-core/src/router/control.rs:529-537) *)
Definition mark arr (busy : bool) opt (network : Z) : E unit :=
  let deadline := instant_add (at_now arr) (busy_for (op_timing opt)) in
  do! upd (fun s => s <| st_table ::= fun t => if busy then mark_busy t network deadline else mark_available t network |>) in
  observe (EvMarked network busy).
(** The loop over every network served via the sender, from [from] on; a round marks one of the table's networks, and the next
    starts behind it.
    [Storage::flow_control] (bacnet-router-core/src/router/control.rs:538-553) *)
Fixpoint mark_served (fuel : nat) arr (busy : bool) opt (from : Z) : E unit :=
  match fuel with
  | O => ret tt
  | S fuel =>
      let! next := get (fun s => List.find (fun network => from <=? network)
                                   (routes_served_via_peer (st_table s) (at_port arr) (at_source arr))) in
      match next with
      | None => ret tt
      | Some network => do! mark arr busy opt network in mark_served fuel arr busy opt (network + 1)
      end
  end.
(** One network of a list.
    [Storage::flow_control] (bacnet-router-core/src/router/control.rs:555-567) *)
Definition mark_listed arr (busy : bool) opt (network : Z) : E unit :=
  let! served := get (fun s => is_served_via_peer (st_table s) network (at_port arr) (at_source arr)) in
  if served then mark arr busy opt network else
  let! learned := get (fun s => match table_lookup (st_table s) network with Some r => negb (rt_direct r) | None => false end) in
  if learned then bumped (over rc_not_next_hop bump) else ret tt.
(** [Storage::flow_control] (bacnet-router-core/src/router/control.rs) *)
Definition flow_control arr n (busy : bool) opt : E Received :=
  match networks_parse (payload n) with
  | Err _ => bad_message
  | Ok list =>
      let! allowed := authorize arr n (if busy then CcBusy else CcAvailable) (TargetNetworks list) in
      if negb allowed then ret (RDiscarded DDenied) else
      let kind := if busy then ROUTER_BUSY_TO_NETWORK else ROUTER_AVAILABLE_TO_NETWORK in
      let! repeated := repeated_relay arr n kind opt in
      if repeated then ret (RDiscarded DDuplicate) else
      let! routes := get (fun s => tl_len (st_table s)) in
      do! (if networks_is_empty list then mark_served (S routes) arr busy opt 0
           else for_each (networks_iter list) (mark_listed arr busy opt)) in
      rebroadcast arr n kind
  end.
(** [Storage::network_number_is] (bacnet-router-core/src/router/control.rs) *)
Definition network_number_is arr n : E Received :=
  if is_some (source n) || is_some (destination n) || negb (at_link_group arr) then bad_message else
  match network_number_is_parse (payload n) with
  | Err _ => bad_message
  | Ok number =>
      do! (if negb (nn_network number =? at_network arr)
           then observe (EvNumberConflict (at_port arr) (at_network arr) (nn_network number) (is_configured number))
           else ret tt) in
      ret RHandled
  end.
(** One entry of an update; whether the update goes on.
    [Storage::initialize_routing_table] (bacnet-router-core/src/router/init.rs:55-86) *)
Definition update_entry arr (entry : RoutingEntry) opt : E bool :=
  let network := ry_network entry in
  if (network =? 0) || (network =? GLOBAL_NETWORK) then ret true else
  if ry_port_id entry =? 0 then
    let! removed := act (fun s => let '(t, b) := apply_management_removal (st_table s) network in (s <| st_table := t |>, b)) in
    do! (if removed then observe (EvUpdateRemoved network) else ret tt) in ret true
  else
  let! port := get (fun s => from_wire_id (ry_port_id entry) (st_port_count s)) in
  match port with
  | None => do! observe (EvUnknownPortId network (ry_port_id entry)) in ret true
  | Some port =>
      let! full := get (fun s => bool_decide (options_cap opt (table_capacity (st_table s)) <= tl_len (st_table s))%nat
                                 && negb (is_some (table_lookup (st_table s) network))) in
      if full then
        do! upd (fun s => s <| st_table ::= record_learning_cap |>) in
        do! observe (EvRouteCap CcInitMgmt) in ret false
      else
        let! applied := act (fun s =>
          let '(t, b) := apply_management_update (st_table s) network port (at_source_mac arr) (at_now arr) in
          (s <| st_table := t |>, b)) in
        do! (if applied then observe (EvUpdateApplied network port) else ret tt) in ret true
  end.
Fixpoint update_entries arr (entries : list RoutingEntry) opt : E unit :=
  match entries with
  | [] => ret tt
  | entry :: entries => let! more := update_entry arr entry opt in if more then update_entries arr entries opt else ret tt
  end.
(** [Storage::initialize_routing_table] (bacnet-router-core/src/router/init.rs) *)
Definition initialize_routing_table arr n opt : E Received :=
  match routing_entries_parse (payload n) with
  | Err _ => bad_message
  | Ok entries =>
      if re_count entries =? 0 then
        do! upd (fun s => push s (task_table_ack (at_port arr) (at_source_mac arr))) in ret RHandled
      else
      let! allowed := authorize arr n CcInitMgmt (TargetEntries entries) in
      if negb allowed then ret (RDiscarded DDenied) else
      do! update_entries arr (routing_entries_iter entries) opt in
      do! upd (fun s => push s (task_update_ack (at_port arr) (at_source_mac arr))) in
      ret RHandled
  end.
(** [Storage::routing_table_ack] (bacnet-router-core/src/router/init.rs) *)
Definition routing_table_ack arr n opt : E Received :=
  match payload n with
  | [] => ret RHandled
  | _ =>
      match routing_entries_parse (payload n) with
      | Err _ => bad_message
      | Ok entries =>
          let! allowed := authorize arr n CcInitAck (TargetEntries entries) in
          if negb allowed then ret (RDiscarded DDenied) else
          let networks := List.filter (fun network => negb ((network =? 0) || (network =? GLOBAL_NETWORK)))
                            (map ry_network (routing_entries_iter entries)) in
          let! capacity := get (fun s => table_capacity (st_table s)) in
          do! claims arr networks (claimed_new capacity) CcInitAck opt in
          ret RHandled
      end
  end.
(** The handler of a message type, for a message taken here.
    [Storage::network_message] (bacnet-router-core/src/router/control.rs:67-135) *)
Definition handle_message arr n (kind : Z) opt : E Received :=
  if kind =? WHO_IS_ROUTER_TO_NETWORK then who_is_router arr n opt else
  if kind =? I_AM_ROUTER_TO_NETWORK then i_am_router arr n opt else
  if kind =? I_COULD_BE_ROUTER_TO_NETWORK then i_could_be_router arr n opt else
  if kind =? REJECT_MESSAGE_TO_NETWORK then received_reject arr n opt else
  if kind =? ROUTER_BUSY_TO_NETWORK then flow_control arr n true opt else
  if kind =? ROUTER_AVAILABLE_TO_NETWORK then flow_control arr n false opt else
  if kind =? INITIALIZE_ROUTING_TABLE then initialize_routing_table arr n opt else
  if kind =? INITIALIZE_ROUTING_TABLE_ACK then routing_table_ack arr n opt else
  if kind =? ESTABLISH_CONNECTION_TO_NETWORK then
    match establish_connection_parse (payload n) with
    | Err _ => bad_message
    | Ok r => do! observe (EvEstablishConnection (ec_network r) (ec_termination_time r)) in ret RHandled
    end
  else if kind =? DISCONNECT_CONNECTION_TO_NETWORK then
    match disconnect_connection_parse (payload n) with
    | Err _ => bad_message
    | Ok r =>
        do! observe (EvDisconnectIgnored (dc_network r)) in
        do! upd (fun s => s <| st_table ::= record_disconnect_removal_ignored |>) in ret RHandled
    end
  else if kind =? WHAT_IS_NETWORK_NUMBER then
    if is_some (source n) || is_some (destination n) || negb (bool_decide (payload n = [])) then bad_message else
    do! upd (fun s => push s (task_number_is (at_port arr))) in ret RHandled
  else if kind =? NETWORK_NUMBER_IS then network_number_is arr n
  else if message_is_removed_security kind then do! observe (EvSecurityMessage kind) in ret RHandled
  else
    do! observe (EvUnknownMessage kind) in
    do! reject arr (source n) 0 UNKNOWN_MESSAGE_TYPE in ret RHandled.
(** [Storage::network_message] (bacnet-router-core/src/router/control.rs) *)
Definition network_message arr n (kind : Z) opt : E Received :=
  let always_here := (kind =? WHAT_IS_NETWORK_NUMBER) || (kind =? NETWORK_NUMBER_IS) || (kind =? REJECT_MESSAGE_TO_NETWORK) in
  let elsewhere := match destination n with
                   | Some d => negb (addr_network d =? GLOBAL_NETWORK) && negb (addr_network d =? at_network arr)
                   | None => false end in
  if elsewhere && negb always_here then
    let! route := find_route arr n (dnet_of n) opt in
    match route with
    | None => ret RHandled
    | Some route =>
        let! group := get (fun s => group_of s route n) in
        if negb (bool_decide (group = GroupNo)) then group_drop else forward arr n route
    end
  else handle_message arr n kind opt.
(** [Storage::dispatch] (bacnet-router-core/src/router/ingress.rs) *)
Definition dispatch arr n opt : E Received :=
  match message_type n with Some kind => network_message arr n kind opt | None => route_apdu arr n opt end.
(** [Storage::receive] (bacnet-router-core/src/router/ingress.rs) *)
Definition store_receive (frame : Frame) (now : Instant) opt : E Received :=
  do! upd drop_undrained in
  let! config := get (fun s => port_at s (fm_port frame)) in
  let refuse refused :=
    do! bumped (fun c => bump_slot c (rf_count refused)) in ret (RDiscarded (rf_discard refused)) in
  match config with
  | None => do! bumped (over rc_unknown_port bump) in ret (RDiscarded DUnknownPort)
  | Some config =>
      match admit_source (fm_source frame) with
      | Err refused => refuse refused
      | Ok source_mac =>
          let arr := {| at_port := fm_port frame; at_network := pc_network config; at_source := fm_source frame;
                        at_source_mac := source_mac; at_link_group := fm_link_group frame; at_now := now |} in
          match admit_npdu (fm_npdu frame) with
          | Ok n => dispatch arr n opt
          | Err refused =>
              do! (match rf_reject_to refused with
                   | Some (Some dnet, src) => if negb (dnet =? GLOBAL_NETWORK) then reject arr src dnet ADDRESSING_ERROR else ret tt
                   | _ => ret tt
                   end) in
              refuse refused
          end
      end
  end.

(** ** Requests of the router's own (router/originate.rs) *)

(** [NO_PORT] (bacnet-router-core/src/router/originate.rs) *)
Definition NO_PORT : PortId := 255.
(** [Storage::originate_global] (bacnet-router-core/src/router/originate.rs) *)
Definition originate_global s (req : Request) (from : option PortId) : Storage G * Result unit OriginateError :=
  let n := (npdu_apdu (rq_apdu req)) <| expecting_reply := rq_expecting_reply req |> <| priority := rq_priority req |>
             <| destination := Some {| addr_network := GLOBAL_NETWORK; addr_mac := [] |} |> in
  let bare := encoded_len n in
  let ports := ports_of s in
  let named := if bool_decide (1 < length ports)%nat then from else None in
  let n := n <| source := named ≫= fun port =>
    (fun config => {| addr_network := pc_network config; addr_mac := mac_as_slice (pc_mac config) |}) <$> port_at s port |> in
  let sourced := encoded_len n in
  let size port := if bool_decide (named = Some port) then bare else sourced in
  let over_limit x := limits_get (pc_max_npdu x.2) true <? Z.of_nat (size x.1) in
  match List.find over_limit (numbered ports) with
  | Some (port, config) => (too_long s, Err (OrTooLong (size port) (limits_get (pc_max_npdu config) true)))
  | None =>
      match npdu_encode_into n (st_scratch s) with
      | (scratch, Err _) =>
          (s <| st_scratch := scratch |> <| st_counters ::= over rc_write_failures bump |>, Err OrUnwritable)
      | (scratch, Ok len) =>
          let s := s <| st_scratch := scratch |> in
          let current := current_new len KOriginate CauseLocal (rq_priority req) (AllBut (default NO_PORT named)) in
          let '(s, current) :=
            if is_some named then
              let '(header, header_written) := npdu_encode_into (n <| source := None |> <| payload := [] |>) (replicate 6 0) in
              (check (bool_decide (header_written = Ok 6%nat)) s, with_tail current (sourced - bare) (nth 1 header 0))
            else (s, current) in
          ((on_current (fun _ => current) s) <| st_counters ::= over rc_originated bump |>, Ok tt)
      end
  end.
(** [Storage::originate] (bacnet-router-core/src/router/originate.rs) *)
Definition store_originate s (req : Request) (now : Instant) opt : Storage G * Result unit OriginateError :=
  let s := drop_undrained s in
  let d := rq_destination req in
  let global := addr_network d =? GLOBAL_NETWORK in
  let broadcast := bool_decide (addr_mac d = []) in
  if addr_network d =? 0 then (s, Err OrReservedNetwork) else
  if global && negb broadcast then (s, Err OrGlobalWithDadr) else
  if negb broadcast && is_own s d then (s, Err OrOwnAddress) else
  if broadcast && negb (is_unconfirmed (rq_apdu req)) then (s, Err OrBroadcastNotUnconfirmed) else
  let from := match rq_source req with
              | EgressPort => Ok None
              | SourcePort port => if is_some (port_at s port) then Ok (Some port) else Err OrUnknownPort
              end in
  match from with
  | Err e => (s, Err e)
  | Ok from =>
      if global then originate_global s req from else
      let dnet := addr_network d in
      match table_lookup (st_table s) dnet with
      | None =>
          let '(disc, due) := should_solicit (st_discovery s) dnet now (op_discovery_cooldown opt) in
          let s := s <| st_discovery := disc |> in
          (if due then push (s <| st_counters ::= over rc_solicitations bump |>) (task_solicit NO_PORT dnet) else s, Err OrNoRoute)
      | Some route =>
          let s := s <| st_table ::= fun t => table_touch t dnet now |> in
          match effective_reachability (st_table s) dnet now with
          | Some Busy => (s, Err OrBusy)
          | Some Unreachable => (s, Err OrUnreachable)
          | _ =>
              match port_at s (rt_port route) with
              | None => (s, Err OrUnknownPort)
              | Some egress =>
                  let n := (npdu_apdu (rq_apdu req)) <| expecting_reply := rq_expecting_reply req |>
                             <| priority := rq_priority req |> <| destination := Some d |> in
                  let send n :=
                    let named := match from with
                                 | Some port => if negb (port =? rt_port route) then port_at s port else None
                                 | None => None end in
                    let n := n <| source := (fun config => {| addr_network := pc_network config;
                                                              addr_mac := mac_as_slice (pc_mac config) |}) <$> named |> in
                    let '(n, to) :=
                      if rt_direct route
                      then (n <| destination := None |>, match destination n with Some a => addr_mac a | None => [] end)
                      else (n, mac_as_slice (rt_next_hop route)) in
                    let limit := limits_get (pc_max_npdu egress) (bool_decide (to = [])) in
                    let octets := encoded_len n in
                    if limit <? Z.of_nat octets then (too_long s, Err (OrTooLong octets limit)) else
                    match npdu_encode_into n (st_scratch s) with
                    | (scratch, Ok len) =>
                        let s := s <| st_scratch := scratch |> in
                        ((on_current (fun _ => current_new len KOriginate CauseLocal (rq_priority req)
                                                 (Toward (rt_port route) to)) s) <| st_counters ::= over rc_originated bump |>,
                         Ok tt)
                    | (scratch, Err _) =>
                        (s <| st_scratch := scratch |> <| st_counters ::= over rc_write_failures bump |>, Err OrUnwritable)
                    end in
                  match group_of s route n with
                  | GroupNo => send n
                  | GroupBroadcast =>
                      if is_unconfirmed (rq_apdu req)
                      then send (n <| destination := Some {| addr_network := dnet; addr_mac := [] |} |>)
                      else (s, Err OrGroupDestination)
                  | GroupRefuse => (s, Err OrGroupDestination)
                  end
              end
          end
      end
  end.
End Engine.

(** ** The router (router.rs) *)

(** [Router] (bacnet-router-core/src/router.rs) *)
Record Router (G : Type) := { rr_storage : Storage G; rr_options : Options }.
Arguments rr_storage {G}.
Arguments rr_options {G}.
#[export] Instance eta_Router {G} : Settable (Router G) := fun r =>
  {| rr_storage := rr_storage r; rr_options := rr_options r |}.

Section Router.
Context {G : Type} `{GroupClassifier G} {Hst : Type} `{Host Hst}.
Implicit Types (s : Storage G) (r : Router G).

(** The first port that may not be on this router.
    [Router::new] (bacnet-router-core/src/router.rs:331-349) *)
Fixpoint check_ports (N : nat) (before rest : list (PortConfig G)) : option ConfigError :=
  match rest with
  | [] => None
  | port :: rest =>
      let id := Z.of_nat (length before) in
      if (pc_network port =? 0) || (pc_network port =? GLOBAL_NETWORK) then Some (ReservedPortNetwork id (pc_network port)) else
      if existsb (fun other => pc_network other =? pc_network port) before then Some (DuplicateNetwork (pc_network port)) else
      if negb (limits_fit (pc_max_npdu port) N) then Some (PortLimit id) else check_ports N (before ++ [port]) rest
  end.
(** The direct routes of the ports.
    [Router::new] (bacnet-router-core/src/router.rs:379-383) *)
Fixpoint add_ports (t : Table) (ports : list (PortId * PortConfig G)) : option Table :=
  match ports with
  | [] => Some t
  | (index, port) :: ports => let '(t, ok) := add_direct t (pc_network port) index in if ok then add_ports t ports else None
  end.
(** [Router::new] (bacnet-router-core/src/router.rs:316-389) *)
Definition router_new s (ports : list (PortConfig G)) (opt : Options) (now : Instant) : Result (Router G) ConfigError :=
  let P := length (st_ports s) in
  let R := table_capacity (st_table s) in
  if bool_decide (ports = []) then Err NoPorts else
  if bool_decide (Nat.min P 255 < length ports)%nat then Err (TooManyPorts (length ports) (Nat.min P 255)) else
  match check_ports (length (st_scratch s)) [] ports with
  | Some e => Err e
  | None =>
      if match op_route_cap opt with Some cap => bool_decide (R < Z.to_nat cap)%nat | None => false end
      then Err (RouteCapOver (default 0 (op_route_cap opt)) R) else
      if op_sweep opt =? 0 then Err ZeroSweep else
      if is_some (op_duplicates opt) && bool_decide (length (re_seen (st_recent s)) = 0%nat) then Err NoDuplicateRecord else
      if match op_congestion opt with Some policy => negb (congestion_is_valid policy) | None => false end
      then Err BadCongestion else
      let table := set_convergence (table_clear (st_table s)) (op_convergence opt) in
      match add_ports table (numbered ports) with
      | None => Err TableTooSmall
      | Some table =>
          Ok {| rr_storage := s <| st_table := table |> <| st_discovery ::= search_clear |> <| st_out := OUTPUTS_NEW |>
                  <| st_counters := COUNTERS_ZERO |> <| st_recent := recent_new (length (re_seen (st_recent s))) |>
                  <| st_next_sweep := instant_add now (op_sweep opt) |> <| st_latest := now |>
                  <| st_ports := ports ++ replicate (P - length ports) PORT_ZERO |> <| st_port_count := length ports |>
                  <| st_flows := replicate P FLOW_CLEAR |>;
                rr_options := opt |}
      end
  end.
(** [Router::clock] (bacnet-router-core/src/router.rs) *)
Definition clock s (now : Instant) : Storage G := s <| st_latest ::= fun latest => Z.max latest now |>.
(** [Router::start] (bacnet-router-core/src/router.rs) *)
Definition router_start r : Router G := r <| rr_storage ::= fun s => push (drop_undrained s) task_announce |>.
(** [Router::announce_port] (bacnet-router-core/src/router.rs) *)
Definition announce_port r (port : PortId) : Router G * bool :=
  if bool_decide (st_port_count (rr_storage r) <= Z.to_nat port)%nat then (r, false) else
  (r <| rr_storage ::= fun s => push (drop_undrained s) (task_announce_port port) |>, true).
(** [Router::receive] (bacnet-router-core/src/router.rs) *)
Definition router_receive r (frame : Frame) (now : Instant) (host : Hst) : Router G * Hst * Received :=
  let s := clock (rr_storage r) now in
  let '(s, host, received) := store_receive frame (st_latest s) (rr_options r) s host in
  (r <| rr_storage := s |>, host, received).
(** [Router::originate] (bacnet-router-core/src/router.rs) *)
Definition router_originate r (req : Request) (now : Instant) : Router G * Result unit OriginateError :=
  let s := clock (rr_storage r) now in
  let '(s, result) := store_originate s req (st_latest s) (rr_options r) in
  (r <| rr_storage := s |>, result).
(** [Router::poll_action] (bacnet-router-core/src/router.rs) *)
Definition router_poll_action r : Router G * Action :=
  let '(s, action) := poll (rr_storage r) in (r <| rr_storage := s |>, action).
(** [Router::refused_later] (bacnet-router-core/src/router.rs) *)
Definition refused_later r (why : SendRefusal) (origin : option RejectOrigin) : Router G :=
  r <| rr_storage ::= fun s =>
    let s := if bool_decide (why = SrTooLong) then
               let s := too_long s in
               match origin with Some origin => queue_reject s origin MESSAGE_TOO_LONG | None => s end
             else s in
    s <| st_counters ::= over rc_refused bump |> |>.
(** [Router::refused] (bacnet-router-core/src/router.rs) *)
Definition router_refused r (why : SendRefusal) : Router G :=
  let r := refused_later r why None in
  r <| rr_storage ::= fun s =>
    let s := end_refused_answer s in
    if is_some (op_congestion (rr_options r)) && bool_decide (why = SrFull) then refused_while_clogged s else s |>.
(** [Storage::egress_backlog] (bacnet-router-core/src/router/congestion.rs) *)
Definition store_egress_backlog s (port : PortId) (b : Backlog) (now : Instant) (policy : Congestion) : Storage G :=
  match flows_of s !! Z.to_nat port with
  | None => s
  | Some flow =>
      let '(flow, announced) := flow_report flow b now policy in
      let s := s <| st_flows ::= <[Z.to_nat port := flow]> |> in
      match announced with
      | Some PendBusy => s <| st_counters ::= over rc_busy_announced bump |>
      | Some PendAvailable => s <| st_counters ::= over rc_available_announced bump |>
      | _ => s
      end
  end.
(** [Router::egress_backlog] (bacnet-router-core/src/router.rs) *)
Definition router_egress_backlog r (port : PortId) (b : Backlog) (now : Instant) : Router G :=
  r <| rr_storage ::= fun s =>
    let s := clock s now in
    match op_congestion (rr_options r) with Some policy => store_egress_backlog s port b (st_latest s) policy | None => s end |>.
(** [Router::port_congested] (bacnet-router-core/src/router.rs) *)
Definition port_congested r (port : PortId) : bool :=
  match flows_of (rr_storage r) !! Z.to_nat port with Some flow => flow_congested flow | None => false end.
(** [Router::set_port_max_npdu] (bacnet-router-core/src/router.rs) *)
Definition set_port_max_npdu r (port : PortId) (limits : NpduLimits) : Router G * Result unit LimitError :=
  let s := rr_storage r in
  if negb (is_some (port_at s port)) then (r, Err UnknownLimitPort) else
  if negb (limits_fit limits (length (st_scratch s))) then (r, Err LimitOutOfRange) else
  (r <| rr_storage ::= fun s => s <| st_ports ::= alter (fun p => p <| pc_max_npdu := limits |>) (Z.to_nat port) |> |>, Ok tt).
(** [Router::next_deadline] (bacnet-router-core/src/router.rs) *)
Definition router_next_deadline r : option Instant := Some (st_next_sweep (rr_storage r)).
(** The host is told of each network in turn. *)
Definition observe_all (h : Hst) (f : Z -> Event) (networks : list Z) : Hst :=
  fold_left (fun h network => host_observe h (f network)) networks h.
(** [Router::on_deadline] (bacnet-router-core/src/router.rs) *)
Definition router_on_deadline r (now : Instant) (h : Hst) : Router G * Hst :=
  let s := clock (rr_storage r) now in
  let now := st_latest s in
  if now <? st_next_sweep s then (r <| rr_storage := s |>, h) else
  let opt := rr_options r in
  let '(t, purged, _) := purge_stale (st_table s) now (op_learned_age opt) in
  let h := observe_all h EvPurged purged in
  let t := (clear_expired_busy t now).1 in
  let '(t, expired, _) := expire_pending t now (op_timing opt) in
  let h := observe_all h EvPendingExpired expired in
  let '(d, forgotten, _) := search_expire (st_discovery s) now (op_discovery_age opt) in
  let h := observe_all h EvDiscoveryExpired forgotten in
  let next := instant_add (st_next_sweep s) (op_sweep opt) in
  let next := if next <=? now then instant_add now (op_sweep opt) else next in
  (r <| rr_storage := s <| st_table := t |> <| st_discovery := d |> <| st_next_sweep := next |> |>, h).
(** [Router::cancel_discovery] (bacnet-router-core/src/router.rs) *)
Definition cancel_discovery r : Router G := r <| rr_storage ::= fun s => s <| st_discovery ::= search_cancel |> |>.
(** [Router::take_counters] (bacnet-router-core/src/router.rs) *)
Definition router_take_counters r : Router G * Counters :=
  (r <| rr_storage ::= fun s => s <| st_counters := COUNTERS_ZERO |> |>, st_counters (rr_storage r)).
End Router.
