(* ===== verification/RouterLogic.v ===== *)
(** * Reasoning about the router engine

    Weakest preconditions for the engine's monad, and what its calls may do to the routing table: only the
    table's own operations, on the router's own ports, never one that replaces a direct route. *)

From stdpp Require Import relations.
From S2P Require Import Prelude Time Npdu Arrays RouteTable RouteTheorems RouteSafety Discovery RouterMessage.
From S2P Require Import RouterGroups RouterData RouterOutput RouterEngine.
Open Scope Z_scope.

(** ** Weakest preconditions *)

Section Wp.
Context {S H : Type}.
Definition wp {A} (m : M S H A) (Q : S -> H -> A -> Prop) (s : S) (h : H) : Prop := Q (m s h).1.1 (m s h).1.2 (m s h).2.
Lemma wp_ret {A} (a : A) Q s h : wp (ret a) Q s h <-> Q s h a.
Proof. done. Qed.
Lemma wp_bind {A B} (m : M S H A) (k : A -> M S H B) Q s h :
  wp (bind m k) Q s h <-> wp m (fun s h a => wp (k a) Q s h) s h.
Proof. unfold wp, bind. by destruct (m s h) as [[s' h'] a]. Qed.
Lemma wp_get {A} (f : S -> A) Q s h : wp (get f) Q s h <-> Q s h (f s).
Proof. done. Qed.
Lemma wp_upd (f : S -> S) Q s h : wp (upd f) Q s h <-> Q (f s) h tt.
Proof. done. Qed.
Lemma wp_act {A} (f : S -> S * A) Q s h : wp (act f) Q s h <-> Q (f s).1 h (f s).2.
Proof. unfold wp, act. by destruct (f s). Qed.
Lemma wp_observe `{Host H} e (Q : S -> H -> unit -> Prop) s h : (forall h, Q s h tt) -> wp (observe e) Q s h.
Proof. intros HQ. apply HQ. Qed.
Lemma wp_ask `{Host H} c (Q : S -> H -> bool -> Prop) s h : (forall h b, Q s h b) -> wp (ask c) Q s h.
Proof. intros HQ. unfold wp, ask. destruct (host_authorize h c). apply HQ. Qed.
Lemma wp_mono {A} (m : M S H A) (Q Q' : S -> H -> A -> Prop) s h :
  wp m Q s h -> (forall s h a, Q s h a -> Q' s h a) -> wp m Q' s h.
Proof. unfold wp. auto. Qed.
(** A loop keeps what its body keeps, whatever the state and element. *)
Lemma wp_for_each {A} (l : list A) (body : A -> M S H unit) (I : S -> H -> Prop) (Q : S -> H -> unit -> Prop) s h :
  I s h -> (forall x s h, x ∈ l -> I s h -> wp (body x) (fun s h _ => I s h) s h) ->
  (forall s h, I s h -> Q s h tt) -> wp (for_each l body) Q s h.
Proof.
  revert s h. induction l as [|x l IH]; intros s h Hi Hb HQ; [by apply HQ|]. cbn [for_each]. apply wp_bind.
  eapply wp_mono; [apply Hb; [by left|done]|]. cbn. intros s' h' _ Hi'. apply IH; [done| |done].
  intros y s'' h'' Hy. apply Hb. by right.
Qed.
End Wp.

(** One step of the proof of a specification: a read, a change, a hook, a test. *)
Ltac wp_step :=
  first
    [ progress (lazymatch goal with
      | |- wp (bind _ _) _ _ _ => apply wp_bind
      | |- wp (ret _) _ _ _ => apply wp_ret
      | |- wp (get _) _ _ _ => apply wp_get; cbv beta
      | |- wp (upd _) _ _ _ => apply wp_upd; cbv beta
      | |- wp (act _) _ _ _ => apply wp_act; cbv beta
      | |- wp (observe _) _ _ _ => apply wp_observe; intros
      | |- wp (ask _) _ _ _ => apply wp_ask; intros
      end) ].

(** ** What may happen to the table *)

(** The network of a row learned by the operation, and the port it goes through. *)
Definition learned_row (op : TableOp) : option (Z * PortId) :=
  match op with OpAddLearned n p _ _ | OpLearn n p _ _ | OpClaim n p _ _ _ => Some (n, p) | _ => None end.
Definition learned_op (ports : nat) (op : TableOp) : Prop :=
  match op with
  | OpAddDirect _ _ | OpRemove _ | OpClear | OpConvergence _ => False
  | OpAddLearned n p _ _ | OpLearn n p _ _ | OpClaim n p _ _ _ => 0 <= p < Z.of_nat ports /\ is_u16 n
  | _ => True
  end.
Inductive table_moves (ports : nat) : Table -> Table -> Prop :=
| mv_op t op : learned_op ports op -> table_moves ports t (table_step t op).1
| mv_count t f : table_moves ports t (t <| tl_counters ::= f |>).
Definition evolves (ports : nat) : Table -> Table -> Prop := rtc (table_moves ports).

(** Where a row of the table after an operation comes from. *)
Definition row_from (m : gmap Z RouteSlot) (op : TableOp) (k : Z) (s' : RouteSlot) : Prop :=
  (exists s, m !! k = Some s /\ rt_port (sl_route s') = rt_port (sl_route s) /\ rt_direct (sl_route s') = rt_direct (sl_route s)) \/
  (rt_direct (sl_route s') = false /\ learned_row op = Some (k, rt_port (sl_route s'))).
Lemma put_from R m n r op k s' : rt_direct r = false -> learned_row op = Some (n, rt_port r) ->
  (map_put R m n r).1 !! k = Some s' -> row_from m op k s'.
Proof.
  intros Hd Hp. unfold map_put. destruct (has_room R m n); cbn; [|left; by exists s'].
  intros [[-> <-]|[_ E]]%lookup_insert_Some; [by right|left; by exists s'].
Qed.
Lemma learn_from R m n p hop now op k s' : learned_row op = Some (n, p) ->
  (map_learn R m n p hop now).1 !! k = Some s' -> row_from m op k s'.
Proof.
  intros Hp. unfold map_learn, map_add_learned. destruct (is_reserved n); [left; by exists s'|].
  destruct (is_direct m n); [left; by exists s'|]. cbn [orb].
  pose proof (put_from R m n ((route_learned p hop now) <| rt_last_used := kept_use m n p |>) op k s' eq_refl Hp) as H.
  destruct (map_put _ _ _ _) as [m' ok]. destruct (m !! n) as [s|] eqn:E; [destruct (_ =? _)|]; cbn; try done.
  intros [[-> <-]|[_ E']]%lookup_insert_Some; [by right|left; by exists s'].
Qed.
Lemma alter_from f m n op k s' : marks_only f -> alter (on_route f) n m !! k = Some s' -> row_from m op k s'.
Proof.
  intros Hf E. apply lookup_alter_Some in E as [(-> & s & E & ->)|[_ E]]; left; [|by exists s'].
  exists s. destruct (Hf (sl_route s)) as (_ & ? & ? & _). done.
Qed.
Lemma fmap_from g m op k s' :
  (forall s, rt_port (sl_route (g s)) = rt_port (sl_route s) /\ rt_direct (sl_route (g s)) = rt_direct (sl_route s)) ->
  (g <$> m) !! k = Some s' -> row_from m op k s'.
Proof. intros Hg E. apply lookup_fmap_Some in E as (s & <- & E). left. exists s. by destruct (Hg s). Qed.
Lemma claim_from R c m n p hop now timing op k s' : learned_row op = Some (n, p) ->
  (map_claim R c m n p hop now timing).1 !! k = Some s' -> row_from m op k s'.
Proof.
  intros Hp. unfold map_claim. destruct (m !! n) as [s|] eqn:E; [|by apply learn_from].
  assert (Hin : forall q k s', <[n := s <| sl_pending := q |>]> m !! k = Some s' -> exists s0, m !! k = Some s0 /\
    rt_port (sl_route s') = rt_port (sl_route s0) /\ rt_direct (sl_route s') = rt_direct (sl_route s0)).
  { intros q k0 s0 [[-> <-]|[_ E']]%lookup_insert_Some; [by exists s|by exists s0]. }
  destruct (_ || _); [|intros E'; left; by eapply Hin].
  intros Hl. destruct (learn_from _ _ _ _ _ _ op _ _ Hp Hl) as [(s0 & E0 & Hpt & Hd)|H]; [|by right].
  left. destruct (Hin _ _ _ E0) as (s1 & E1 & ? & ?). exists s1. split; [done|]. by rewrite Hpt, Hd.
Qed.
Lemma map_step_from R c held m op ports k s' : learned_op ports op ->
  (map_step R c held m op).1 !! k = Some s' -> row_from m op k s'.
Proof.
  intros Hop. destruct op; cbn [map_step learned_op] in *; try done.
  - unfold map_add_learned. destruct (_ || _); [left; by exists s'|].
    pose proof (put_from R m n ((route_learned p hop now) <| rt_last_used := kept_use m n p |>) (OpAddLearned n p hop now) k s' eq_refl eq_refl).
    by destruct (map_put _ _ _ _).
  - pose proof (learn_from R m n p hop now (OpLearn n p hop now) k s' eq_refl). by destruct (map_learn _ _ _ _ _ _).
  - pose proof (claim_from R c m n p hop now timing (OpClaim n p hop now timing) k s' eq_refl).
    by destruct (map_claim _ _ _ _ _ _ _ _).
  - unfold map_reject. destruct (m !! n) as [s|] eqn:E; [|left; by exists s'].
    destruct (negb (rt_direct (sl_route s)) && _); [left; by exists s'|].
    destruct (reject_changes (sl_route s) reason now); [|left; by exists s']. destruct (held_at _ _ _ _ _); [left; by exists s'|].
    cbn. intros [[-> <-]|[_ E']]%lookup_insert_Some; left; [exists s|by exists s'].
    destruct (rejected_marks reason now timing (sl_route s)) as (_ & ? & ? & _). done.
  - destruct (is_direct m n); cbn; [left; by exists s'|]. intros [_ E]%lookup_delete_Some. left. by exists s'.
  - apply alter_from, busy_marks.
  - apply alter_from, available_marks.
  - apply alter_from, unreachable_marks.
  - apply fmap_from. intros s. case_match; [|done]. destruct (busy_marks deadline (sl_route s)) as (_ & ? & ? & _). done.
  - apply fmap_from. intros s. case_match; [|done]. destruct (available_marks (sl_route s)) as (_ & ? & ? & _). done.
  - apply fmap_from. intros s. by case_match.
  - apply alter_from, touch_marks.
  - intros [E _]%map_lookup_filter_Some. left. by exists s'.
  - apply fmap_from. intros s. by case_match.
Qed.

(** The table of a router with that many ports: well-formed, with every route to a network
    number and through a port it has. *)
Definition table_ok (ports : nat) (t : Table) : Prop :=
  wf_table t /\ forall n r, table_lookup t n = Some r -> is_u16 n /\ 0 <= rt_port r < Z.of_nat ports.
(** Direct routes are the same before and after. *)
Definition same_direct (t t' : Table) : Prop :=
  forall n r, rt_direct r = true -> table_lookup t n = Some r <-> table_lookup t' n = Some r.
Lemma counted_rows t f : rows (t <| tl_counters ::= f |>) = rows t.
Proof. done. Qed.
Lemma counted_wf t f : wf_table t -> wf_table (t <| tl_counters ::= f |>).
Proof. done. Qed.
Lemma moves_ok ports t t' : table_moves ports t t' -> table_ok ports t -> table_ok ports t' /\ same_direct t t' /\
  table_capacity t' = table_capacity t.
Proof.
  intros Hm [Hw Hp]. destruct Hm as [t op Hop|t f]; [|split; [done|]; split; [by intros n r|done]].
  pose proof Hw as (Hs & Hr & _). pose proof (wf_step t op Hw) as Hw'. pose proof (step_rows t op Hs) as Hrow.
  destruct (table_step t op) as [t' a]. cbn [fst] in *. destruct Hrow as [[Hs' Hcap] Hrow].
  assert (Hfrom : forall k s', rows t' !! k = Some s' -> row_from (rows t) op k s').
  { intros k s' E. eapply map_step_from; [exact Hop|]. by rewrite <-Hrow. }
  assert (Hlook : forall k r, table_lookup t' k = Some r -> exists s', rows t' !! k = Some s' /\ sl_route s' = r).
  { intros k r E. rewrite lookup_rows in E by done. destruct (rows t' !! k) as [s'|]; [|done]. injection E as <-. by exists s'. }
  split_and!; [split; [done|]| |done].
  - intros k r E. destruct (Hlook k r E) as (s' & Es & <-). destruct (Hfrom k s' Es) as [(s & E0 & -> & _)|[_ Hl]].
    + apply (Hp k). by rewrite lookup_rows, E0.
    + destruct op; cbn in Hl, Hop; try done; injection Hl as <- <-; tauto.
  - assert (Hrep : forall k, replaces op k = false) by (intros k; by destruct op).
    intros k r Hd. split; intros E.
    + rewrite lookup_rows in E |- * by done. destruct (rows t !! k) as [s|] eqn:Es; [|done]. injection E as <-.
      pose proof (map_step_direct (table_capacity t) (tl_convergence t) (holds_since (tl_holds t)) (rows t) op k s Hr Es Hd (Hrep k)) as H.
      rewrite <-Hrow in H. cbn [fst] in H. by rewrite H.
    + destruct (Hlook k r E) as (s' & Es & <-). destruct (Hfrom k s' Es) as [(s & E0 & Hpt & Hd')|[Hf _]]; [|congruence].
      rewrite Hd in Hd'.
      pose proof (map_step_direct (table_capacity t) (tl_convergence t) (holds_since (tl_holds t)) (rows t) op k s Hr E0 (eq_sym Hd') (Hrep k)) as H.
      rewrite <-Hrow in H. cbn [fst] in H. replace s' with s by congruence. by rewrite lookup_rows, E0.
Qed.
Lemma evolves_ok ports t t' : evolves ports t t' -> table_ok ports t -> table_ok ports t' /\ same_direct t t' /\
  table_capacity t' = table_capacity t.
Proof.
  induction 1 as [t|t t1 t' Hm _ IH]; intros Hok; [split; [done|]; split; [by intros n r|done]|].
  destruct (moves_ok _ _ _ Hm Hok) as (Hok1 & Hd1 & Hc1). destruct (IH Hok1) as (Hok2 & Hd2 & Hc2).
  split_and!; [done| |congruence]. intros n r Hr. etrans; [by apply Hd1|by apply Hd2].
Qed.
