(* ===== verification/RouterEmits.v ===== *)
(** * What a received frame makes a router do

    An abstract account of a call's outputs: the tasks it queues and the NPDU it writes. Every handler of the engine
    is shown to do one of the things [allowed] lists, to change the table only by its operations, and to fire no
    debug assertion. *)

From stdpp Require Import relations.
From S2P Require Import Prelude Time Npdu Arrays RouteTable RouteTheorems RouteSafety Discovery RouterMessage.
From S2P Require Import RouterGroups RouterData RouterOutput RouterEngine RouterLogic.
Open Scope Z_scope.

Section Emits.
Context {G : Type} `{GroupClassifier G} {Hst : Type} `{Host Hst}.
Implicit Types (s : Storage G) (arr : Arrival) (n : Npdu) (opt : Options) (h : Hst).

(** The tasks that wait. *)
Definition waiting s : list Task := take (ou_len (st_out s)) (ou_tasks (st_out s)).
Definition queue_ok s : Prop := length (ou_tasks (st_out s)) = QUEUE /\ (ou_len (st_out s) <= QUEUE)%nat.
(** No output waits, so a frame's own output comes first. *)
Definition ready s : Prop := outputs_pending (st_out s) (st_port_count s) = 0%nat /\ length (ou_tasks (st_out s)) = QUEUE.
Lemma ready_len s : ready s -> ou_len (st_out s) = 0%nat.
Proof. intros [Hr _]. unfold outputs_pending in Hr. lia. Qed.
Lemma ready_queue s : ready s -> queue_ok s.
Proof. intros Hr. split; [apply Hr|]. rewrite (ready_len s Hr). unfold QUEUE. lia. Qed.

(** A written NPDU: its kind, its target and the return path kept with it. *)
Definition Written : Type := Npdu * Kind * Target * RejectOrigin.
Definition current_for (w : Written) : Current :=
  let '(n, kind, target, origin) := w in
  (current_new (encoded_len n) kind CauseIngress (priority n) target) <| cu_reject_origin := origin |>.
(** What a call changed: tasks queued behind the others, an NPDU written, the table and the searches by their own
    operations; nothing else but counters. *)
Record emits s s' (ts : list Task) (w : option Written) : Prop := {
  em_ports : st_ports s' = st_ports s; em_count : st_port_count s' = st_port_count s; em_flows : st_flows s' = st_flows s;
  em_sweep : st_next_sweep s' = st_next_sweep s; em_latest : st_latest s' = st_latest s;
  em_table : evolves (st_port_count s) (st_table s) (st_table s');
  em_search : search_shape (st_discovery s) -> search_shape (st_discovery s');
  em_recent : length (re_seen (st_recent s')) = length (re_seen (st_recent s));
  em_asserts : st_asserts s' = st_asserts s;
  em_len : ou_len (st_out s') = (ou_len (st_out s) + length ts)%nat;
  em_array : length (ou_tasks (st_out s')) = length (ou_tasks (st_out s));
  em_waiting : waiting s' = waiting s ++ ts;
  em_current : match w with
    | None => ou_current (st_out s') = ou_current (st_out s) /\ st_scratch s' = st_scratch s
    | Some (n, kind, target, origin) =>
        npdu_encode_into n (st_scratch s) = (st_scratch s', Ok (encoded_len n)) /\
        ou_current (st_out s') = current_for (n, kind, target, origin)
    end
}.
Lemma emits_same_ports s s' ts w : emits s s' ts w -> ports_of s' = ports_of s /\ forall p, port_at s' p = port_at s p.
Proof. intros He. unfold port_at, ports_of. by rewrite (em_ports _ _ _ _ He), (em_count _ _ _ _ He). Qed.
(** A change of fields [emits] does not speak of. *)
Local Ltac emits_same := split; try done; try apply rtc_refl; cbn; try lia; unfold waiting; cbn; by rewrite ?app_nil_r.
Lemma emits_refl s : emits s s [] None.
Proof. emits_same. Qed.
Lemma emits_trans s s1 s2 ts1 ts2 w : emits s s1 ts1 None -> emits s1 s2 ts2 w -> emits s s2 (ts1 ++ ts2) w.
Proof.
  intros [] []. split; try congruence; try (etrans; eassumption); [|auto| | |].
  - etrans; [eassumption|]. congruence.
  - rewrite length_app. lia.
  - rewrite app_assoc. congruence.
  - destruct em_current0 as [Hc Hs]. destruct w as [[[[n kind] target] origin]|]; [|by rewrite <-Hc, <-Hs].
    by rewrite <-Hs.
Qed.
Lemma emits_ready s s' : emits s s' [] None -> ready s -> ready s'.
Proof.
  intros He [Hp Ha]. split; [|by rewrite (em_array _ _ _ _ He)].
  destruct (em_current _ _ _ _ He) as [Hc _]. pose proof (em_len _ _ _ _ He) as Hl. cbn in Hl. revert Hp. unfold outputs_pending.
  by rewrite Hc, (em_count _ _ _ _ He), Hl, Nat.add_0_r.
Qed.
Lemma emits_queue s s' ts w : emits s s' ts w -> (ou_len (st_out s) + length ts <= QUEUE)%nat -> queue_ok s -> queue_ok s'.
Proof. intros He Hl [Ha _]. split; [by rewrite (em_array _ _ _ _ He)|by rewrite (em_len _ _ _ _ He)]. Qed.

Lemma emits_count s f : emits s (s <| st_counters ::= f |>) [] None.
Proof. emits_same. Qed.
Lemma emits_table s t : evolves (st_port_count s) (st_table s) t -> emits s (s <| st_table := t |>) [] None.
Proof. intros Ht. emits_same. Qed.
Lemma emits_op s op : learned_op (st_port_count s) op -> emits s (s <| st_table := (table_step (st_table s) op).1 |>) [] None.
Proof. intros Hop. apply emits_table. by apply rtc_once, mv_op. Qed.
Lemma emits_recent s r : length (re_seen r) = length (re_seen (st_recent s)) -> emits s (s <| st_recent := r |>) [] None.
Proof. intros Hr. emits_same. Qed.
Lemma emits_search s d : (search_shape (st_discovery s) -> search_shape d) -> emits s (s <| st_discovery := d |>) [] None.
Proof. intros Hd. emits_same. Qed.
Lemma emits_check s b : b = true -> emits s (check b s) [] None.
Proof. intros ->. emits_same. Qed.
Lemma emits_push s t : queue_ok s -> (ou_len (st_out s) < QUEUE)%nat -> emits s (push s t) [t] None.
Proof.
  intros [Ha _] Hl. unfold push. rewrite bool_decide_eq_true_2 by done.
  assert (Ep : outputs_push (st_out s) t = (st_out s) <| ou_tasks ::= <[ou_len (st_out s) := t]> |> <| ou_len ::= S |>).
  { unfold outputs_push. by rewrite bool_decide_eq_true_2 by (rewrite Ha; done). }
  split; try done; cbn -[outputs_push]; rewrite ?Ep; cbn; try done; try apply rtc_refl; [lia|by rewrite length_insert|].
  unfold waiting. cbn -[outputs_push]. rewrite Ep. cbn. rewrite (take_S_r _ _ t) by (apply list_lookup_insert_eq; lia).
  by rewrite take_insert_ge by lia.
Qed.
Lemma written_len n scratch len out : npdu_encode_into n scratch = (out, Ok len) -> len = encoded_len n /\
  length out = length scratch.
Proof.
  intros Hw. destruct (encode_checks n) eqn:Hc; [unfold npdu_encode_into in Hw; by rewrite Hc in Hw|].
  destruct (decide (length scratch < encoded_len n)%nat); [unfold npdu_encode_into in Hw; rewrite Hc, decide_True in Hw; done|].
  rewrite npdu_encode_into_octets in Hw by (done || lia).
  pose proof (length_npdu_octets n) as Hl. set (o := npdu_octets n) in *. clearbody o. injection Hw as <- <-.
  split; [done|]. rewrite length_app, length_drop. lia.
Qed.
Lemma encode_err n scratch out e : npdu_encode_into n scratch = (out, Err e) -> out = scratch.
Proof. intros Hw. pose proof (npdu_encode_refusal n scratch) as Hr. rewrite Hw in Hr. by destruct e, Hr. Qed.
(** A frame's own output: written, or counted as unwritable. *)
Lemma write_now_spec s n kind target : ready s ->
  let '(s', ok) := write_now s n kind target in
  if ok then emits s s' [] (Some (n, kind, target, ORIGIN_NONE)) else emits s s' [] None.
Proof.
  intros Hr. unfold write_now. rewrite bool_decide_eq_true_2 by apply Hr.
  destruct (npdu_encode_into n (st_scratch (check true s))) as [scratch [len|e]] eqn:E.
  - destruct (written_len _ _ _ _ E) as [-> _].
    split; try done; try apply rtc_refl; cbn; try lia; [unfold waiting; cbn; by rewrite app_nil_r|]. split; [exact E|]. by destruct target.
  - apply encode_err in E as ->. emits_same.
Qed.

(** ** What a frame may draw *)

(** The reject that answers a frame, if anyone is there to hear it. *)
Definition rejects s arr (org : option Address) (network reason : Z) : list Task :=
  match reject_origin s arr org network with Some o => [reject_origin_task o reason] | None => [] end.
(** The message as forwarded: a broadcast for a group address of its port, else as it came. *)
Definition regrouped n n1 : Prop :=
  n1 = n \/ n1 = n <| destination := Some {| addr_network := dnet_of n; addr_mac := [] |} |>.
(** Which of the two a route makes of it: a group address of the route's port turns an unconfirmed request into a broadcast; a message for one it
    refuses isn't forwarded. *)
Definition regroups s (route : Route) n n1 : Prop :=
  match group_of s route n with
  | GroupNo => n1 = n
  | GroupBroadcast => message_type n = None /\ is_unconfirmed (payload n) = true /\
      n1 = n <| destination := Some {| addr_network := dnet_of n; addr_mac := [] |} |>
  | GroupRefuse => False
  end.
Lemma regroups_regrouped s route n n1 : regroups s route n n1 -> regrouped n n1.
Proof. unfold regroups, regrouped. destruct (group_of s route n); [by left|intros (_ & _ & ->); by right|done]. Qed.
(** [n'] sent to [to] is [n] forwarded by [route]: the source is the one it came with, or its sender; toward another router it keeps its destination,
    with one hop less, and goes to the next hop; on a network of the router's own it has no destination left and goes to the address it named. The
    rest is as it came. *)
Record forwards arr n (route : Route) (n' : Npdu) (to : bytes) : Prop := {
  fw_source : source n' = Some (default {| addr_network := at_network arr; addr_mac := at_source arr |} (source n));
  fw_onward : rt_direct route = false -> destination n' = destination n /\ hop_count n' = hop_count n - 1 /\ to = mac_as_slice (rt_next_hop route);
  fw_arrived : rt_direct route = true -> destination n' = None /\ hop_count n' = 0 /\ (forall d, destination n = Some d -> to = addr_mac d);
  fw_payload : payload n' = payload n /\ payload_offset n' = payload_offset n; fw_type : message_type n' = message_type n /\ vendor_id n' = vendor_id n;
  fw_control : expecting_reply n' = expecting_reply n /\ priority n' = priority n
}.
Lemma rewrite_forwards arr n route : forwards arr n route (rewrite arr n route).1 (rewrite arr n route).2.
Proof.
  unfold rewrite, source_of. destruct (rt_direct route) eqn:E; split; cbn; try done; try (by destruct (source n)); try congruence.
  intros _. split_and!; [done..|]. by intros d ->.
Qed.
Lemma forwards_rewrite arr n route n' to : is_some (destination n) = true -> forwards arr n route n' to -> rewrite arr n route = (n', to).
Proof.
  intros Hd [Hs Ho Ha [Hp Hoff] [Ht Hv] [He Hr]]. unfold rewrite, source_of. destruct n as [e p d s h t v pl o], n' as [e' p' d' s' h' t' v' pl' o']. cbn in *. subst.
  destruct d as [d|]; [|done]. destruct (rt_direct route).
  - destruct (Ha eq_refl) as (-> & -> & Hto). rewrite (Hto d eq_refl). by destruct s.
  - destruct (Ho eq_refl) as (-> & -> & ->). by destruct s.
Qed.
Lemma regrouped_rewrite arr n n1 route n' to : is_some (destination n) = true -> regrouped n n1 -> forwards arr n1 route n' to ->
  n' = (rewrite arr n1 route).1.
Proof. intros Hd Hre Hf. rewrite (forwards_rewrite arr n1 route n' to); [done| |done]. by destruct Hre as [->| ->]. Qed.
(** The route a frame goes by: the one the router's own table holds for the network it names, usable now; for a reject, which also follows a route
    that isn't usable, as the table stands after the reject itself was applied to it, unless the router didn't take it. *)
Definition routed_by s arr n (route : Route) : Prop :=
  if bool_decide (message_type n = Some REJECT_MESSAGE_TO_NETWORK) then
    table_lookup (st_table s) (dnet_of n) = Some route \/
    exists r timing, reject_decode (payload n) = Ok r /\ table_lookup
      (apply_reject (st_table s) (reject_network r) (at_port arr) (reject_reason r) (at_now arr) timing).1 (dnet_of n) = Some route
  else table_lookup (st_table s) (dnet_of n) = Some route /\ effective_reachability (st_table s) (dnet_of n) (at_now arr) = Some Reachable.
(** Why a frame is rejected, with the search made first: its network has no route, or one that is busy or unreachable, or it is too long for the
    port it would leave by. *)
Inductive refusal s arr n : list Task -> Z -> Prop :=
| why_unknown search : table_lookup (st_table s) (dnet_of n) = None -> search = [] \/ search = [task_solicit (at_port arr) (dnet_of n)] ->
    refusal s arr n search NOT_DIRECTLY_CONNECTED
| why_busy : effective_reachability (st_table s) (dnet_of n) (at_now arr) = Some Busy -> refusal s arr n [] ROUTER_BUSY
| why_unreachable : effective_reachability (st_table s) (dnet_of n) (at_now arr) = Some Unreachable -> refusal s arr n [] NOT_DIRECTLY_CONNECTED
| why_too_long route n1 n' to egress : routed_by s arr n route -> regroups s route n n1 -> forwards arr n1 route n' to ->
    port_at s (rt_port route) = Some egress -> limits_get (pc_max_npdu egress) (bool_decide (to = [])) < Z.of_nat (encoded_len n') ->
    refusal s arr n [] MESSAGE_TOO_LONG.
(** The outputs a frame may draw at a router in state [s]: at most a search and a reject, or one answer, or one NPDU
    written. *)
Inductive allowed s arr n : list Task -> option Written -> Prop :=
| al_nothing : allowed s arr n [] None
| al_refused search reason : refusal s arr n search reason ->
    is_some (destination n) = true -> dnet_of n <> GLOBAL_NETWORK -> message_type n <> Some REJECT_MESSAGE_TO_NETWORK ->
    allowed s arr n (search ++ rejects s arr (source n) (dnet_of n) reason) None
| al_unknown : is_some (message_type n) = true -> message_type n <> Some REJECT_MESSAGE_TO_NETWORK ->
    allowed s arr n (rejects s arr (source n) 0 UNKNOWN_MESSAGE_TYPE) None
| al_all : message_type n = Some WHO_IS_ROUTER_TO_NETWORK -> who_is_router_parse (payload n) = Ok WhoIsAll ->
    allowed s arr n [task_i_am_answer (at_port arr) None] None
| al_known network route : message_type n = Some WHO_IS_ROUTER_TO_NETWORK ->
    who_is_router_parse (payload n) = Ok (WhoIsNetwork network) ->
    table_lookup (st_table s) network = Some route -> rt_port route <> at_port arr ->
    allowed s arr n [task_i_am_answer (at_port arr) (Some network)] None
| al_table_ack : message_type n = Some INITIALIZE_ROUTING_TABLE ->
    allowed s arr n [task_table_ack (at_port arr) (at_source_mac arr)] None
| al_update_ack : message_type n = Some INITIALIZE_ROUTING_TABLE ->
    allowed s arr n [task_update_ack (at_port arr) (at_source_mac arr)] None
| al_number_is : message_type n = Some WHAT_IS_NETWORK_NUMBER -> source n = None -> destination n = None ->
    allowed s arr n [task_number_is (at_port arr)] None
| al_forward route n1 n' to egress : routed_by s arr n route ->
    is_some (destination n) = true -> dnet_of n <> GLOBAL_NETWORK -> regroups s route n n1 -> forwards arr n1 route n' to ->
    hop_count n <> 0 -> (rt_direct route = false -> hop_count n <> 1) -> port_at s (rt_port route) = Some egress ->
    Z.of_nat (encoded_len n') <= limits_get (pc_max_npdu egress) (bool_decide (to = [])) ->
    allowed s arr n [] (Some (n', KForward, Toward (rt_port route) to,
      if bool_decide (message_type n = Some REJECT_MESSAGE_TO_NETWORK) then ORIGIN_NONE
      else default ORIGIN_NONE (reject_origin s arr (source n) (dnet_of n))))
| al_global : is_some (destination n) = true -> dnet_of n = GLOBAL_NETWORK -> message_type n = None -> 1 < hop_count n ->
    (forall a, source n = Some a -> is_own s a = false) ->
    allowed s arr n [] (Some (n <| source := source_of arr n |> <| hop_count := hop_count n - 1 |>, KGlobal,
      AllBut (at_port arr), ORIGIN_NONE))
| al_search network : message_type n = Some WHO_IS_ROUTER_TO_NETWORK ->
    who_is_router_parse (payload n) = Ok (WhoIsNetwork network) -> table_lookup (st_table s) network = None ->
    (forall a, source n = Some a -> is_own s a = false) ->
    allowed s arr n [] (Some (n <| destination := None |> <| source := Some (origin arr n) |> <| vendor_id := None |>,
      KRelay WHO_IS_ROUTER_TO_NETWORK, AllBut (at_port arr), ORIGIN_NONE))
| al_relay kind : message_type n = Some kind ->
    kind = I_AM_ROUTER_TO_NETWORK \/ kind = ROUTER_BUSY_TO_NETWORK \/ kind = ROUTER_AVAILABLE_TO_NETWORK ->
    allowed s arr n [] (Some (npdu_message kind (payload n), KRelay kind, AllBut (at_port arr), ORIGIN_NONE)).
End Emits.
