(* ===== verification/RouterHandlers.v ===== *)
(** * Every handler of the engine does what is allowed

    Step by step through the handlers: the quiet steps change only counters, the table and the records of what was
    seen; each path ends with one of the outputs of [allowed]. *)

From stdpp Require Import relations.
From S2P Require Import Prelude Time Npdu Arrays RouteTable RouteTheorems RouteSafety Discovery RouterMessage.
From S2P Require Import RouterGroups RouterData RouterOutput RouterEngine RouterLogic RouterEmits.
Open Scope Z_scope.

Section Handlers.
Context {G : Type} `{GroupClassifier G} {Hst : Type} `{Host Hst}.
Implicit Types (s : Storage G) (arr : Arrival) (n : Npdu) (opt : Options) (h : Hst).
Abbreviation Eng A := (M (Storage G) Hst A).

(** What the checks on arrival leave of a frame. *)
Record welcome s arr n : Prop := {
  wl_port : 0 <= at_port arr < Z.of_nat (st_port_count s); wl_peer : (length (at_source arr) <= MAX_MAC_LEN)%nat;
  wl_source : encodable_source (source n); wl_destination : encodable_destination (destination n); wl_wf : wf_npdu n
}.
(** Network numbers read from a payload. *)
Lemma networks_u16 octets l : wf_bytes octets -> networks_parse octets = Ok l -> Forall is_u16 (networks_iter l).
Proof.
  unfold networks_parse. case_bool_decide; [|done]. intros Hw [= <-]. unfold networks_iter. cbn. clear - Hw.
  remember (length octets) as k eqn:Hk. revert octets Hk Hw. induction (lt_wf k) as [k _ IH]. intros octets -> Hw.
  destruct octets as [|a [|b l]]; [constructor|constructor|]. apply Forall_cons in Hw as [Ha [Hb Hl]%Forall_cons]. cbn.
  constructor; [by apply from_be16_u16|]. by eapply IH; [|reflexivity|]; [cbn; lia|].
Qed.
Lemma entries_u16 octets l : wf_bytes octets -> routing_entries_parse octets = Ok l -> Forall is_u16 (map ry_network (routing_entries_iter l)).
Proof.
  intros Hw E. pose proof (routing_entries_exact octets Hw) as Hx. rewrite E in Hx. destruct Hx as [[Hl _] _].
  apply Forall_map. eapply Forall_impl; [exact Hl|]. by intros e [? _].
Qed.
Lemma could_be_u16 octets offer : wf_bytes octets -> i_could_be_router_parse octets = Ok offer -> is_u16 (icb_network offer).
Proof.
  intros Hw. unfold i_could_be_router_parse, network_and_octet. destruct octets as [|a [|b [|c []]]]; try done. cbn.
  intros [= <-]. apply Forall_cons in Hw as [Ha [Hb _]%Forall_cons]. by apply from_be16_u16.
Qed.
Lemma payload_wf s arr n : welcome s arr n -> wf_bytes (payload n).
Proof. intros Hw. apply (wl_wf _ _ _ Hw). Qed.

(** ** Quiet steps *)

(** No output: the steps of a handler before it answers. *)
Definition silent {A} (ports : nat) (m : Eng A) : Prop :=
  forall s h, st_port_count s = ports -> wp m (fun s' _ _ => emits s s' [] None) s h.
Section Silent.
Context (ports : nat).
Lemma silent_ret {A} (a : A) : silent ports (ret a).
Proof. intros s h _. apply emits_refl. Qed.
Lemma silent_bind {A B} (m : Eng A) (k : A -> Eng B) : silent ports m -> (forall a, silent ports (k a)) -> silent ports (bind m k).
Proof.
  intros Hm Hk s h Hp. apply wp_bind. eapply wp_mono; [by apply Hm|]. cbn. intros s1 h1 a He.
  eapply wp_mono; [apply Hk; by rewrite (em_count _ _ _ _ He)|]. cbn. intros s2 h2 b He2. by apply (emits_trans s s1 s2 [] []).
Qed.
Lemma silent_get {A} (f : Storage G -> A) : silent ports (get f).
Proof. intros s h _. apply emits_refl. Qed.
Lemma silent_get_bind {A B} (f : Storage G -> A) (k : A -> Eng B) : (forall s, st_port_count s = ports -> silent ports (k (f s))) ->
  silent ports (bind (get f) k).
Proof. intros Hk s h Hp. apply wp_bind, wp_get. by apply Hk. Qed.
Lemma silent_upd f : (forall s, st_port_count s = ports -> emits s (f s) [] None) -> silent ports (upd f).
Proof. intros Hf s h Hp. by apply Hf. Qed.
Lemma silent_act {A} (f : Storage G -> Storage G * A) : (forall s, st_port_count s = ports -> emits s (f s).1 [] None) ->
  silent ports (act f).
Proof. intros Hf s h Hp. apply wp_act. by apply Hf. Qed.
Lemma silent_observe e : silent ports (observe e).
Proof. intros s h _. apply wp_observe. intros. apply emits_refl. Qed.
Lemma silent_ask c : silent ports (ask c).
Proof. intros s h _. apply wp_ask. intros. apply emits_refl. Qed.
Lemma silent_bumped f : silent ports (bumped f).
Proof. apply silent_upd. intros s _. apply emits_count. Qed.
Lemma silent_for_each {A} (l : list A) (body : A -> Eng unit) : (forall x, silent ports (body x)) -> silent ports (for_each l body).
Proof. intros Hb. induction l as [|x l IH]; [apply silent_ret|]. apply silent_bind; auto. Qed.
(** An operation of the table, with its answer. *)
Lemma silent_table {A} op (f : Table -> Table * A) : learned_op ports op -> (forall t, (f t).1 = (table_step t op).1) ->
  silent ports (act (fun s => let '(t, a) := f (st_table s) in (s <| st_table := t |>, a))).
Proof.
  intros Hop Hf. apply silent_act. intros s <-. pose proof (Hf (st_table s)) as E. destruct (f (st_table s)) as [t a].
  cbn in *. subst t. by apply emits_op.
Qed.
Lemma silent_table_upd op f : learned_op ports op -> (forall t, f t = (table_step t op).1) ->
  silent ports (upd (fun s => s <| st_table ::= f |>)).
Proof.
  intros Hop Hf. apply silent_upd. intros s <-. change (emits s (s <| st_table := f (st_table s) |>) [] None). rewrite Hf. by apply emits_op.
Qed.
Lemma silent_table_count f g : (forall t, f t = t <| tl_counters ::= g |>) -> silent ports (upd (fun s => s <| st_table ::= f |>)).
Proof.
  intros Hf. apply silent_upd. intros s _. change (emits s (s <| st_table := f (st_table s) |>) [] None). rewrite Hf.
  apply emits_table, rtc_once, mv_count.
Qed.
(** The ring keeps its size. *)
Lemma silent_recent (f : Recent -> Recent * bool) : (forall r, length (re_seen (f r).1) = length (re_seen r)) ->
  silent ports (act (fun s => let '(r, b) := f (st_recent s) in (s <| st_recent := r |>, b))).
Proof.
  intros Hf. apply silent_act. intros s _. pose proof (Hf (st_recent s)) as E. destruct (f (st_recent s)) as [r b].
  by apply emits_recent.
Qed.
End Silent.
Lemma record_length r e : length (re_seen (recent_record r e)) = length (re_seen r).
Proof. unfold recent_record. case_bool_decide; [|done]. cbn. apply length_insert. Qed.
Lemma tagged_length r net src tag data now ttl : length (re_seen (repeat_tagged r net src tag data now ttl).1) = length (re_seen r).
Proof. unfold repeat_tagged. destruct (existsb _ _); [done|]. apply record_length. Qed.
Lemma flow_length r net src tag opp data now ttl : length (re_seen (repeat_flow r net src tag opp data now ttl).1) = length (re_seen r).
Proof.
  unfold repeat_flow. destruct (existsb _ _); [done|]. destruct (max_of _) as [count|]; [destruct (count <? RESET_LIMIT)|];
    cbn [fst]; rewrite record_length; cbn [re_seen]; by rewrite ?length_map.
Qed.
Lemma repeat_length r net src data now ttl : length (re_seen (recent_repeat r net src data now ttl).1) = length (re_seen r).
Proof. apply tagged_length. Qed.

(** A quiet step by its shape: the branches of its tests, and the operations it ends in. *)
Local Ltac quiet :=
  repeat first
    [ apply silent_ret | apply silent_get | apply silent_observe | apply silent_ask | apply silent_bumped
    | apply silent_bind; [|intros ?] | assumption
    | match goal with
      | |- silent _ (if ?b then _ else _) => destruct b
      | |- silent _ (match ?x with _ => _ end) => destruct x
      | |- silent _ (let '(_, _) := ?x in _) => destruct x
      end ].
Lemma authorize_silent P arr n class targets : silent P (authorize arr n class targets).
Proof. unfold authorize. quiet. Qed.
Lemma own_silent P n : silent P (dropped_as_own n).
Proof. unfold dropped_as_own. quiet. Qed.
Lemma repeated_silent P arr n kind opt : silent P (repeated_relay arr n kind opt).
Proof.
  unfold repeated_relay. destruct (op_duplicates opt) as [d|]; [|quiet]. cbv zeta.
  match goal with |- silent _ (let '(_, _) := ?x in _) => destruct x as [network src] end. quiet.
  match goal with |- context [match ?o with Some _ => repeat_flow _ _ _ _ _ _ _ _ | None => _ end] => destruct o as [opposite|] end.
  - apply (silent_recent P (fun r => repeat_flow r network src kind opposite (payload n) (at_now arr) (dp_ttl d))).
    intros r. apply flow_length.
  - apply (silent_recent P (fun r => repeat_tagged r network src kind (payload n) (at_now arr) (dp_ttl d))).
    intros r. apply tagged_length.
Qed.
Lemma cap_silent P : silent P (upd (fun s : Storage G => s <| st_table ::= record_learning_cap |>)).
Proof. by eapply silent_table_count. Qed.
Lemma claim_silent P arr network claimed class opt : 0 <= at_port arr < Z.of_nat P -> is_u16 network ->
  silent P (claim arr network claimed class opt).
Proof.
  intros Hp Hn. unfold claim. quiet; try apply cap_silent.
  - apply (silent_table P (OpClaim network (at_port arr) (at_source_mac arr) (at_now arr) (op_timing opt))
             (fun t => apply_claim t network (at_port arr) (at_source_mac arr) (at_now arr) (op_timing opt))); [done|].
    intros t. cbn. by destruct (apply_claim _ _ _ _ _ _).
  - by eapply silent_table_count.
Qed.
Lemma claims_silent P arr networks class opt : 0 <= at_port arr < Z.of_nat P -> Forall is_u16 networks ->
  forall claimed, silent P (claims arr networks claimed class opt).
Proof.
  intros Hp Hn. induction Hn as [|network networks Hn _ IH]; intros claimed; cbn [claims]; [quiet|].
  apply silent_bind; [by apply claim_silent|]. intros [c more]. destruct more; [apply IH|quiet].
Qed.
Lemma mark_silent P arr busy opt network : silent P (mark arr busy opt network).
Proof.
  unfold mark. quiet. destruct busy.
  - by apply (silent_table_upd P (OpBusy network (instant_add (at_now arr) (busy_for (op_timing opt))))).
  - by apply (silent_table_upd P (OpAvailable network)).
Qed.
Lemma mark_served_silent P fuel arr busy opt : forall from, silent P (mark_served fuel arr busy opt from).
Proof. induction fuel as [|fuel IH]; intros from; cbn [mark_served]; quiet; [apply mark_silent|apply IH]. Qed.
Lemma mark_listed_silent P arr busy opt network : silent P (mark_listed arr busy opt network).
Proof. unfold mark_listed. quiet. apply mark_silent. Qed.
Lemma from_wire_range id P port : from_wire_id id P = Some port -> 0 <= port < Z.of_nat P.
Proof. unfold from_wire_id, chk_sub. destruct (Z.leb_spec 1 id); [|done]. case_bool_decide; intros [= <-]; lia. Qed.
Lemma update_entry_silent P arr entry opt : is_u16 (ry_network entry) -> silent P (update_entry arr entry opt).
Proof.
  intros Hn. unfold update_entry. destruct (_ || _); [quiet|]. destruct (ry_port_id entry =? 0).
  - quiet. apply (silent_table P (OpManagementRemoval (ry_network entry)) (fun t => apply_management_removal t (ry_network entry))); [done|]. intros t. cbn.
    by destruct (apply_management_removal _ _).
  - apply silent_get_bind. intros s Hs. destruct (from_wire_id (ry_port_id entry) (st_port_count s)) as [port|] eqn:Hp; [|quiet].
    quiet; [apply cap_silent|].
    apply (silent_table P (OpAddLearned (ry_network entry) port (at_source_mac arr) (at_now arr))
             (fun t => apply_management_update t (ry_network entry) port (at_source_mac arr) (at_now arr))).
    + cbn. rewrite <-Hs. split; [by eapply from_wire_range|done].
    + intros t. unfold apply_management_update. cbn. by destruct (add_learned _ _ _ _ _).
Qed.
Lemma update_entries_silent P arr entries opt : Forall is_u16 (map ry_network entries) -> silent P (update_entries arr entries opt).
Proof.
  induction entries as [|e l IH]; cbn [update_entries map]; intros Hn; [quiet|]. apply Forall_cons in Hn as [He Hl].
  specialize (IH Hl). apply silent_bind; [by apply update_entry_silent|]. intros more. by destruct more; [|quiet].
Qed.

(** ** Local deliveries *)

Lemma mac_slice octets : (length octets <= MAX_MAC_LEN)%nat -> exists m, mac_from_slice octets = Ok m /\ mac_as_slice m = octets.
Proof.
  intros Hl. pose proof (mac_from_slice_as_slice octets) as Hm. destruct (mac_from_slice octets) as [m|e]; [|lia].
  exists m. by destruct Hm.
Qed.
Lemma own_option a : encodable_source a -> exists own, reply_own_option a = Ok own.
Proof.
  destruct a as [a|]; [|by eexists]. intros (_ & _ & Hl). destruct (mac_slice (addr_mac a)) as (m & Hm & _); [lia|].
  unfold reply_own_option, reply_own. rewrite Hm. cbn. by eexists.
Qed.
(** The [expect] of a local delivery holds: its addresses were read from a frame. *)
Lemma reply_plan_ok port peer src dst : (length peer <= MAX_MAC_LEN)%nat -> encodable_source src -> encodable_source dst ->
  exists plan, reply_plan_new port peer src dst = Ok plan.
Proof.
  intros Hp Hs Hd. unfold reply_plan_new.
  assert (Hno : (match dst with Some a => addr_network a =? 65535 | None => false end
    || match dst with Some a => bool_decide (addr_mac a = []) | None => false end) = false).
  { destruct dst as [a|]; [|done]. destruct Hd as (_ & Hg & Hl). unfold GLOBAL_NETWORK in Hg.
    rewrite bool_decide_eq_false_2 by (intros E; rewrite E in Hl; cbn in Hl; lia). lia. }
  rewrite Hno. set (n := (npdu_apdu []) <| source := src |> <| destination := dst |>).
  assert (Hc : encode_checks n = None).
  { apply encode_checks_none. split; [|done]. cbn. destruct dst as [a|]; [|done]. destruct Hd as (? & ? & ?). cbn. lia. }
  assert (Hl : (encoded_len n <= 2 + 2 * (3 + MAX_MAC_LEN) + 1)%nat).
  { destruct (encodable_length n Hc) as [Hld Hls]. cbn in Hld, Hls. unfold encoded_len. cbn.
    destruct src as [a|], dst as [b|]; cbn; try specialize (Hld _ eq_refl); try specialize (Hls _ eq_refl); unfold MAX_MAC_LEN in *; lia. }
  rewrite npdu_encode_into_octets by (done || by rewrite length_replicate). cbn [snd map_err rbind].
  destruct (mac_slice peer Hp) as (m & Hm & _). destruct (own_option src Hs) as [os Hos]. destruct (own_option dst Hd) as [od Hod].
  rewrite Hm, Hos, Hod. cbn. by eexists.
Qed.
Lemma check_true s : check true s = s.
Proof. by destruct s. Qed.
Lemma local_wp arr n group global (Q : Storage G -> Hst -> LocalDelivery -> Prop) s h : (length (at_source arr) <= MAX_MAC_LEN)%nat ->
  encodable_source (source n) -> (group = false -> encodable_source (destination n)) -> (forall l, Q s h l) ->
  wp (local arr n group global) Q s h.
Proof.
  intros Hp Hs Hd HQ. unfold local. cbv zeta. destruct (reply_plan_ok (at_port arr) (at_source arr)
    (if group then None else destination n) (source n)) as [plan ->]; [done|by destruct group; auto|done|].
  apply wp_bind, wp_upd, wp_ret. rewrite check_true. apply HQ.
Qed.

(** ** Steps that answer

    From here on the router took the frame in state [s], with nothing waiting; a handler runs from a state its quiet
    steps reached. *)
Section Answers.
Context (s : Storage G) (arr : Arrival) (n : Npdu) (Hready : ready s) (Hwel : welcome s arr n).
Definition does (m : Eng Received) (s1 : Storage G) (h : Hst) : Prop :=
  wp m (fun s' _ r => exists ts w, emits s s' ts w /\ allowed s arr n ts w /\
                                   (forall d, r = RDiscarded d -> ts = [] /\ w = None)) s1 h.
Lemma does_nothing r s1 h : emits s s1 [] None -> does (ret r) s1 h.
Proof. intros He. exists [], None. split_and!; [done|constructor|done]. Qed.
Lemma does_bind {A} (m : Eng A) (k : A -> Eng Received) s1 h : emits s s1 [] None -> silent (st_port_count s) m ->
  (forall a s2 h2, emits s s2 [] None -> does (k a) s2 h2) -> does (bind m k) s1 h.
Proof.
  intros He Hm Hk. apply wp_bind. eapply wp_mono; [apply Hm; apply (em_count _ _ _ _ He)|]. cbn.
  intros s2 h2 a He2. apply Hk. by apply (emits_trans s s1 s2 [] []).
Qed.
Lemma does_silent (m : Eng Received) s1 h : emits s s1 [] None -> silent (st_port_count s) m -> does m s1 h.
Proof.
  intros He Hm. eapply wp_mono; [apply Hm; apply (em_count _ _ _ _ He)|]. cbn. intros s2 h2 r He2.
  exists [], None. split_and!; [by apply (emits_trans s s1 s2 [] [])|constructor|done].
Qed.
Lemma quiet_ready s1 : emits s s1 [] None -> ready s1.
Proof. intros He. by apply (emits_ready s). Qed.
(** Queueing behind at most one task of the same call. *)
Lemma push_after s1 ts t : emits s s1 ts None -> (length ts <= 1)%nat -> emits s (push s1 t) (ts ++ [t]) None.
Proof.
  intros He Hl. eapply emits_trans; [exact He|].
  assert (Hlen : (ou_len (st_out s1) < QUEUE)%nat).
  { rewrite (em_len _ _ _ _ He), (ready_len s Hready). unfold QUEUE. lia. }
  apply emits_push; [|done]. eapply emits_queue; [exact He| |by apply ready_queue]. rewrite (ready_len s Hready). unfold QUEUE. lia.
Qed.
Lemma does_answer t s1 h : emits s s1 [] None -> allowed s arr n [t] None ->
  does (do! upd (fun s => push s t) in ret RHandled) s1 h.
Proof. intros He Ha. apply wp_bind, wp_upd, wp_ret. exists [t], None. split_and!; [apply (push_after s1 []); [done|cbn; lia]|done|done]. Qed.
Lemma count_after s1 ts f : emits s s1 ts None -> emits s (s1 <| st_counters ::= f |>) ts None.
Proof. intros He. rewrite <-(app_nil_r ts). eapply emits_trans; [exact He|apply emits_count]. Qed.
Lemma same_reject_origin s1 ts w org network : emits s s1 ts w -> reject_origin s1 arr org network = reject_origin s arr org network.
Proof. intros He. unfold reject_origin, is_own. by rewrite (proj1 (emits_same_ports _ _ _ _ He)). Qed.
Lemma reject_wp s1 h ts org network reason (Q : Storage G -> Hst -> unit -> Prop) : emits s s1 ts None -> (length ts <= 1)%nat ->
  (forall s2 h2, emits s s2 (ts ++ rejects s arr org network reason) None -> Q s2 h2 tt) ->
  wp (reject arr org network reason) Q s1 h.
Proof.
  intros He Hl HQ. apply wp_bind, wp_get. rewrite (same_reject_origin s1 ts None) by done. revert HQ. unfold rejects.
  destruct (reject_origin s arr org network) as [o|]; intros HQ.
  - apply wp_upd, HQ. unfold queue_reject. apply push_after; [|done]. by apply count_after.
  - apply wp_observe. intros. apply HQ. by rewrite app_nil_r.
Qed.
(** A reject in answer to a frame that names a network. *)
Lemma refused_wp {A} s1 h search reason (r : A) (Q : Storage G -> Hst -> A -> Prop) :
  emits s s1 search None -> (length search <= 1)%nat ->
  (forall s2 h2, emits s s2 (search ++ rejects s arr (source n) (dnet_of n) reason) None -> Q s2 h2 r) ->
  wp (do! reject arr (source n) (dnet_of n) reason in ret r) Q s1 h.
Proof. intros He Hl HQ. apply wp_bind. eapply reject_wp; [done|done|]. intros s2 h2 He2. by apply HQ. Qed.
Lemma solicit_wp s1 h dnet opt (Q : Storage G -> Hst -> unit -> Prop) : emits s s1 [] None ->
  (forall s2 h2 search, search = [] \/ search = [task_solicit (at_port arr) dnet] -> emits s s2 search None -> Q s2 h2 tt) ->
  wp (solicit dnet (at_port arr) (at_now arr) opt) Q s1 h.
Proof.
  intros He HQ. unfold solicit. apply wp_bind, wp_act.
  pose proof (search_step_shape (st_discovery s1) (SSolicit dnet (at_now arr) (op_discovery_cooldown opt))) as Hs. cbn in Hs.
  destruct (should_solicit _ _ _ _) as [d due]. cbn [fst snd] in *.
  assert (He2 : emits s (s1 <| st_discovery := d |>) [] None).
  { apply (emits_trans s s1 _ [] []); [done|]. apply emits_search. intros H1. by apply Hs. }
  destruct due.
  - apply wp_bind, wp_upd, wp_upd. eapply HQ; [by right|]. apply (push_after _ []); [by apply count_after|cbn; lia].
  - eapply HQ; [by left|done].
Qed.
Lemma find_route_wp s1 h opt (Q : Storage G -> Hst -> option Route -> Prop) : emits s s1 [] None ->
  st_table s1 = st_table s ->
  (forall s2 h2 route, emits s s2 [] None -> table_lookup (st_table s) (dnet_of n) = Some route ->
     effective_reachability (st_table s) (dnet_of n) (at_now arr) = Some Reachable -> Q s2 h2 (Some route)) ->
  (forall s2 h2 search reason, refusal s arr n search reason ->
     emits s s2 (search ++ rejects s arr (source n) (dnet_of n) reason) None -> Q s2 h2 None) ->
  wp (find_route arr n (dnet_of n) opt) Q s1 h.
Proof.
  intros He Ht Hroute Hnone. unfold find_route. do 2 (apply wp_bind, wp_get). cbv beta. rewrite Ht.
  assert (Htouch : forall dnet, emits s (s1 <| st_table ::= fun t => table_touch t dnet (at_now arr) |>) [] None).
  { intros dnet. apply (emits_trans s s1 _ [] []); [done|]. by apply (emits_op s1 (OpTouch dnet (at_now arr))). }
  destruct (table_lookup (st_table s) (dnet_of n)) as [route|] eqn:Hl.
  - apply wp_bind, wp_upd. cbv beta. destruct (effective_reachability _ _ _) as [[]|] eqn:Hr.
    + apply wp_ret, Hroute; [apply Htouch|done|done].
    + eapply (refused_wp _ _ []); [apply Htouch|cbn; lia|]. intros s2 h2. apply (Hnone s2 h2 []). by apply why_busy.
    + apply wp_bind, wp_observe. intros. eapply (refused_wp _ _ []); [apply Htouch|cbn; lia|]. intros s2 h2.
      apply (Hnone s2 h2 []). by apply why_unreachable.
    + unfold effective_reachability in Hr. by rewrite Hl in Hr.
  - apply wp_bind, wp_observe. intros h1. apply wp_bind. eapply solicit_wp; [done|]. intros s2 h2 search Hs He2.
    eapply refused_wp; [done|destruct Hs as [->| ->]; cbn; lia|]. intros s3 h3. apply Hnone. by apply why_unknown.
Qed.
Lemma write_now_wp s1 h n' kind target (Q : Storage G -> Hst -> bool -> Prop) : emits s s1 [] None ->
  (forall s2, emits s s2 [] (Some (n', kind, target, ORIGIN_NONE)) -> Q s2 h true) ->
  (forall s2, emits s s2 [] None -> Q s2 h false) -> wp (act (fun s => write_now s n' kind target)) Q s1 h.
Proof.
  intros He Ht Hf. apply wp_act. pose proof (write_now_spec s1 n' kind target (quiet_ready s1 He)) as Hw.
  destruct (write_now s1 n' kind target) as [s2 []]; [apply Ht|apply Hf]; by apply (emits_trans s s1 s2 [] []).
Qed.
Lemma fan_out_wp s1 h n' kind except (Q : Storage G -> Hst -> bool -> Prop) : emits s s1 [] None ->
  (forall s2 h2, emits s s2 [] (Some (n', kind, AllBut except, ORIGIN_NONE)) -> Q s2 h2 true) ->
  (forall s2 h2, emits s s2 [] None -> Q s2 h2 false) -> wp (write_fan_out n' kind except) Q s1 h.
Proof.
  intros He Ht Hf. unfold write_fan_out. apply wp_bind. eapply write_now_wp; [done| |]; intros s2 He2; cbn [negb]; [|by apply Hf].
  do 2 (apply wp_bind, wp_get). apply wp_bind. eapply (wp_for_each _ _ (fun s3 _ => s3 = s2)); [done| |].
  - intros [port config] s3 h3 _ ->. destruct (_ && _); [by apply wp_observe|by apply wp_ret].
  - intros s3 h3 ->. by apply wp_ret, Ht.
Qed.
(** The return path kept with a written NPDU. *)
Lemma emits_origin s1 ts n' kind target o : emits s s1 ts (Some (n', kind, target, ORIGIN_NONE)) ->
  emits s (on_current (fun c => c <| cu_reject_origin := o |>) s1) ts (Some (n', kind, target, o)).
Proof. intros He. destruct (em_current _ _ _ _ He) as [Hw Hc]. destruct He. split; try done. split; [done|]. cbn. by rewrite Hc. Qed.
Lemma rewrite_source n1 route : source (rewrite arr n1 route).1 = source_of arr n1.
Proof. unfold rewrite. by destruct (rt_direct route). Qed.
Lemma does_forward n1 route s1 h : emits s s1 [] None -> routed_by s arr n route -> regroups s route n n1 ->
  is_some (destination n) = true -> dnet_of n <> GLOBAL_NETWORK -> does (forward arr n1 route) s1 h.
Proof.
  intros He Hby Hgr Hdst Hglob. pose proof (regroups_regrouped _ _ _ _ Hgr) as Hre.
  assert (Hsame : hop_count n1 = hop_count n /\ source n1 = source n /\ message_type n1 = message_type n /\ dnet_of n1 = dnet_of n).
  { unfold dnet_of in *. by destruct Hre as [->| ->]. }
  destruct Hsame as (Hh & Hs & Hm & Hd). unfold forward. rewrite Hh, Hs, Hm, Hd.
  destruct (_ || _) eqn:Hspent.
  { apply does_silent; [done|]. unfold hop_count_spent. quiet. }
  apply orb_false_iff in Hspent as [Hh0%Z.eqb_neq Hlast]. apply wp_bind, wp_get.
  rewrite (proj2 (emits_same_ports _ _ _ _ He)).
  destruct (port_at s (rt_port route)) as [egress|] eqn:Hport; [|apply does_silent; [done|quiet]].
  pose proof (rewrite_forwards arr n1 route) as Hfw. destruct (rewrite arr n1 route) as [n' to]. cbn [fst snd] in Hfw.
  destruct (Z.ltb_spec (limits_get (pc_max_npdu egress) (bool_decide (to = []))) (Z.of_nat (encoded_len n'))) as [Hlong|Hfit].
  - apply wp_bind, wp_upd, wp_bind, wp_observe. intros h1.
    destruct (decide (message_type n = Some REJECT_MESSAGE_TO_NETWORK)) as [Hrej|Hrej];
      [rewrite (bool_decide_eq_true_2 _ Hrej)|rewrite (bool_decide_eq_false_2 _ Hrej)]; cbn [negb].
    + apply wp_bind, wp_ret, (does_nothing RHandled _ h1). by apply count_after.
    + eapply (refused_wp _ _ []); [by apply count_after|cbn; lia|]. intros s2 h2 He2. eexists _, _. split_and!; [exact He2| |done].
      apply (al_refused s arr n []); auto. by eapply why_too_long.
  - apply wp_bind. eapply write_now_wp; [done| |]; intros s2 He2; [|by apply (does_nothing _ s2 h)].
    assert (Hn1 : rt_direct route = false -> hop_count n <> 1) by (intros E; rewrite E in Hlast; cbn in Hlast; lia).
    pose proof (al_forward s arr n route n1 n' to egress Hby Hdst Hglob Hgr Hfw Hh0 Hn1 Hport Hfit) as Hallow. revert Hallow.
    destruct (decide (message_type n = Some REJECT_MESSAGE_TO_NETWORK)) as [Hrej|Hrej];
      [rewrite (bool_decide_eq_true_2 _ Hrej)|rewrite (bool_decide_eq_false_2 _ Hrej)]; cbn [negb]; intros Hallow.
    + apply wp_bind, wp_ret, wp_ret. eexists _, _. split_and!; [exact He2|exact Hallow|done].
    + apply wp_bind, wp_upd, wp_ret. eexists _, _. split_and!; [|exact Hallow|done].
      erewrite same_reject_origin by exact He2. by apply emits_origin.
Qed.
Lemma own_wp s1 h (Q : Storage G -> Hst -> bool -> Prop) : emits s s1 [] None ->
  (forall s2, emits s s2 [] None -> Q s2 h true) ->
  ((forall a, source n = Some a -> is_own s a = false) -> Q s1 h false) -> wp (dropped_as_own n) Q s1 h.
Proof.
  intros He Ht Hf. apply wp_bind, wp_get. cbv beta.
  assert (Hown : forall a, is_own s1 a = is_own s a) by (intros a; unfold is_own; by rewrite (proj1 (emits_same_ports _ _ _ _ He))).
  destruct (source n) as [a|] eqn:Hs; [|apply wp_bind, wp_ret, wp_ret, Hf; by intros a].
  rewrite Hown. destruct (is_own s a) eqn:Ho.
  - apply wp_bind, wp_upd, wp_ret, Ht. by apply count_after.
  - apply wp_bind, wp_ret, wp_ret, Hf. by intros a' [= <-].
Qed.
Lemma deliver_does group global s1 h ts w : (group = false -> encodable_source (destination n)) ->
  emits s s1 ts w -> allowed s arr n ts w -> does (deliver arr n group global) s1 h.
Proof.
  intros Hd He Ha. apply wp_bind, local_wp; [apply Hwel|apply Hwel|done|]. intros l. exists ts, w. by split_and!.
Qed.
Lemma does_global opt s1 h : emits s s1 [] None -> message_type n = None -> is_some (destination n) = true ->
  dnet_of n = GLOBAL_NETWORK -> does (route_global arr n opt) s1 h.
Proof.
  intros He Hm Hd Hg. unfold route_global. apply wp_bind. eapply own_wp; [done|intros s2 He2; by apply (does_nothing _ s2 h)|].
  intros Hown.
  assert (Hdel : forall s2 h2, emits s s2 [] None -> does (do! forward_global arr n in deliver arr n true true) s2 h2).
  { intros s2 h2 He2. unfold forward_global. destruct (Z.leb_spec (hop_count n) 1).
    { apply does_bind; [done|unfold hop_count_spent; quiet|]. intros _ s3 h3 He3. by apply (deliver_does _ _ _ _ [] None); [|done|constructor]. }
    apply wp_bind, wp_bind. eapply fan_out_wp; [done| |]; intros s3 h3 He3; apply wp_ret.
    - eapply deliver_does; [done|exact He3|]. by apply al_global.
    - by apply (deliver_does _ _ _ _ [] None); [|done|constructor]. }
  refine (does_bind _ _ s1 h He _ _).
  - destruct (op_duplicates opt) as [dup|]; [|apply silent_ret]. destruct (match source n with Some _ => _ | None => _ end) as [net src].
    apply (silent_recent _ (fun r => recent_repeat r net src (payload n) (at_now arr) (dp_ttl dup))). intros r. apply repeat_length.
  - intros repeated s2 h2 He2. destruct repeated; [|by apply Hdel]. apply does_silent; [done|quiet].
Qed.
Lemma does_then (m : Eng Received) (f : Received -> Received) s1 h : (forall r d, f r = RDiscarded d -> r = RDiscarded d) ->
  does m s1 h -> does (let! r := m in ret (f r)) s1 h.
Proof.
  intros Hf Hm. unfold does in Hm. apply wp_bind. eapply wp_mono; [exact Hm|]. cbn. intros s2 h2 r (ts & w & He & Ha & Hr).
  exists ts, w. split_and!; [done|done|]. intros d Hd. eapply Hr, Hf, Hd.
Qed.
(** Whether a frame is for this router: the delivery, made without any change to the router. *)
Lemma local_if_wp {A} (b : bool) n' (k : option LocalDelivery -> Eng A) (o : option LocalDelivery) Q s1 h : source n' = source n ->
  (forall o, wp (k o) Q s1 h) -> wp (let! o := if b then let! l := local arr n' true false in ret (Some l) else ret o in k o) Q s1 h.
Proof.
  intros Hn Hk. apply wp_bind. destruct b; [|apply wp_ret, Hk]. apply wp_bind, local_wp; [apply Hwel|rewrite Hn; apply Hwel|done|].
  intros l. apply wp_ret, Hk.
Qed.
Lemma does_not_found s1 h search reason : refusal s arr n search reason -> is_some (destination n) = true -> dnet_of n <> GLOBAL_NETWORK ->
  message_type n <> Some REJECT_MESSAGE_TO_NETWORK ->
  emits s s1 (search ++ rejects s arr (source n) (dnet_of n) reason) None -> does (ret RHandled) s1 h.
Proof. intros Hr Hd Hg Hm He. eexists _, _. split_and!; [exact He| |done]. by apply al_refused. Qed.
Lemma same_group s1 ts w route : emits s s1 ts w -> group_of s1 route n = group_of s route n.
Proof. intros He. unfold group_of. by rewrite (proj2 (emits_same_ports _ _ _ _ He)). Qed.
(** A message that is no reject, by a usable route. *)
Lemma routed_usable route : message_type n <> Some REJECT_MESSAGE_TO_NETWORK -> table_lookup (st_table s) (dnet_of n) = Some route ->
  effective_reachability (st_table s) (dnet_of n) (at_now arr) = Some Reachable -> routed_by s arr n route.
Proof. intros Hm Hl Hr. unfold routed_by. by rewrite bool_decide_eq_false_2. Qed.
Lemma does_apdu opt h : message_type n = None -> does (route_apdu arr n opt) s h.
Proof.
  intros Hm. pose proof (emits_refl s) as He. pose proof (wl_destination _ _ _ Hwel) as Hdst. unfold route_apdu.
  destruct (destination n) as [d|] eqn:Hd.
  2: { apply (deliver_does _ _ _ _ [] None); [by rewrite Hd|done|constructor]. }
  assert (Hnet : addr_network d = dnet_of n) by (unfold dnet_of; by rewrite Hd).
  assert (Hsome : is_some (destination n) = true) by by rewrite Hd.
  rewrite Hnet. destruct (Z.eqb_spec (dnet_of n) GLOBAL_NETWORK) as [Hg|Hg]; [by apply does_global|].
  assert (Hhere : addr_mac d <> [] -> forall s1 h1, emits s s1 [] None -> does (deliver arr n false false) s1 h1).
  { intros Hmac s1 h1 He1. apply (deliver_does _ _ _ _ [] None); [|done|constructor]. intros _. rewrite Hd. destruct Hdst as [? ?].
    cbn. rewrite Hnet in *. split_and!; try done. destruct (addr_mac d); [done|cbn; lia]. }
  apply wp_bind, wp_get. cbv beta. destruct (negb _ && _) eqn:Hown.
  { apply andb_prop in Hown as [Hne%negb_true_iff _]. apply bool_decide_eq_false in Hne. by apply Hhere. }
  apply wp_bind. eapply find_route_wp; [done|done| |].
  2: { intros s2 h2 search reason Hr He2. eapply does_not_found; try done. by rewrite Hm. }
  intros s2 h2 route He2 Hlook Hreach. cbv zeta. pose proof (routed_usable route ltac:(by rewrite Hm) Hlook Hreach) as Hby. apply wp_bind, wp_get. cbv beta.
  assert (Hpass : forall n1 o, regroups s route n n1 ->
    does (let! forwarded := forward arr n1 route in ret (match o with Some l => RLocal l | None => forwarded end)) s2 h2).
  { intros n1 o Hn1. apply (does_then _ (fun r => match o with Some l => RLocal l | None => r end)); [by destruct o|].
    by apply does_forward. }
  assert (Hdrop : does group_drop s2 h2) by (apply does_silent; [done|unfold group_drop; quiet]).
  destruct (_ && _ && _) eqn:Hat.
  { apply andb_prop in Hat as [[_ Hne%negb_true_iff]%andb_prop _]. apply bool_decide_eq_false in Hne. by apply Hhere. }
  apply local_if_wp; [done|]. intros o. apply wp_bind, wp_get. cbv beta. rewrite (same_group s2 [] None) by done. unfold regroups in Hpass.
  destruct (group_of s route n).
  - by apply Hpass.
  - destruct (is_unconfirmed (payload n)) eqn:Hu; [|done]. apply local_if_wp; [done|]. intros o'. by apply Hpass.
  - done.
Qed.

(** ** Network messages *)

Lemma bad_does s1 h : emits s s1 [] None -> does bad_message s1 h.
Proof. intros He. apply does_silent; [done|unfold bad_message; quiet]. Qed.
Lemma does_relay n' kind s1 h : emits s s1 [] None -> allowed s arr n [] (Some (n', kind, AllBut (at_port arr), ORIGIN_NONE)) ->
  does (let! written := write_fan_out n' kind (at_port arr) in ret (relayed written)) s1 h.
Proof.
  intros He Ha. apply wp_bind. eapply fan_out_wp; [done| |]; intros s2 h2 He2; [|by apply (does_nothing _ s2 h2)].
  apply wp_ret. eexists _, _. by split_and!.
Qed.
Lemma does_asked network opt h : message_type n = Some WHO_IS_ROUTER_TO_NETWORK ->
  who_is_router_parse (payload n) = Ok (WhoIsNetwork network) -> (forall a, source n = Some a -> is_own s a = false) ->
  does (let! route := get (fun s => table_lookup (st_table s) network) in
      match route with
      | Some route =>
          if negb (rt_port route =? at_port arr)
          then do! upd (fun s => push s (task_i_am_answer (at_port arr) (Some network))) in ret RHandled
          else ret RHandled
      | None =>
          let! repeated := repeated_relay arr n WHO_IS_ROUTER_TO_NETWORK opt in
          if repeated then ret (RDiscarded DDuplicate) else
          let relay := n <| destination := None |> <| source := Some (origin arr n) |> <| vendor_id := None |> in
          let! written := write_fan_out relay (KRelay WHO_IS_ROUTER_TO_NETWORK) (at_port arr) in
          ret (relayed written)
      end) s h.
Proof.
  intros Hm Hp Hown. pose proof (emits_refl s) as He. apply wp_bind, wp_get. cbv beta.
  destruct (table_lookup (st_table s) network) as [route|] eqn:Hl.
  - destruct (Z.eqb_spec (rt_port route) (at_port arr)); cbn [negb]; [by apply (does_nothing _ s h)|].
    apply does_answer; [done|by eapply al_known].
  - refine (does_bind _ _ s h He (repeated_silent _ _ _ _ _) _). intros repeated s2 h2 He2.
    destruct repeated; [by apply does_nothing|]. apply does_relay; [done|by eapply al_search].
Qed.
Lemma does_who_is opt h : message_type n = Some WHO_IS_ROUTER_TO_NETWORK -> does (who_is_router arr n opt) s h.
Proof.
  intros Hm. pose proof (emits_refl s) as He. unfold who_is_router. apply wp_bind.
  eapply own_wp; [done|intros s2 He2; by apply (does_nothing _ s2 h)|]. intros Hown.
  destruct (who_is_router_parse (payload n)) as [[|network]|e] eqn:Hp; [|destruct (decide (network = 0)) as [->|Hn]|].
  - apply does_answer; [done|by apply al_all].
  - by apply bad_does.
  - pose proof (does_asked network opt h Hm Hp Hown). by destruct network.
  - by apply bad_does.
Qed.
Lemma does_i_am opt h : message_type n = Some I_AM_ROUTER_TO_NETWORK -> does (i_am_router arr n opt) s h.
Proof.
  intros Hm. pose proof (emits_refl s) as He. unfold i_am_router. destruct (networks_parse (payload n)) as [l|e] eqn:Hp; [|by apply bad_does].
  pose proof (networks_u16 _ _ (payload_wf _ _ _ Hwel) Hp) as Hnets. destruct (networks_is_empty l); [by apply bad_does|]. apply does_bind; [done|apply authorize_silent|]. intros ok s1 h1 He1.
  destruct (negb ok); [by apply does_nothing|]. apply does_bind; [done|apply repeated_silent|]. intros rep s2 h2 He2.
  destruct rep; [by apply does_nothing|]. apply does_bind; [done|apply silent_get|]. intros cap s3 h3 He3.
  apply does_bind; [done|by apply claims_silent; [apply Hwel|]|]. intros _ s4 h4 He4. apply does_relay; [done|]. apply al_relay; auto.
Qed.
Lemma does_flow (busy : bool) opt h : message_type n = Some (if busy then ROUTER_BUSY_TO_NETWORK else ROUTER_AVAILABLE_TO_NETWORK) ->
  does (flow_control arr n busy opt) s h.
Proof.
  intros Hm. pose proof (emits_refl s) as He. unfold flow_control. destruct (networks_parse (payload n)) as [l|e]; [|by apply bad_does].
  apply does_bind; [done|apply authorize_silent|]. intros ok s1 h1 He1.
  destruct (negb ok); [by apply does_nothing|]. apply does_bind; [done|apply repeated_silent|]. intros rep s2 h2 He2.
  destruct rep; [by apply does_nothing|]. apply does_bind; [done|apply silent_get|]. intros routes s3 h3 He3.
  apply does_bind; [done| |].
  - destruct (networks_is_empty l); [apply mark_served_silent|]. apply silent_for_each. intros x. apply mark_listed_silent.
  - intros _ s4 h4 He4. apply does_relay; [done|]. apply al_relay; [done|]. destruct busy; auto.
Qed.
Lemma does_init opt h : message_type n = Some INITIALIZE_ROUTING_TABLE -> does (initialize_routing_table arr n opt) s h.
Proof.
  intros Hm. pose proof (emits_refl s) as He. unfold initialize_routing_table.
  destruct (routing_entries_parse (payload n)) as [l|e] eqn:Hp; [|by apply bad_does].
  pose proof (entries_u16 _ _ (payload_wf _ _ _ Hwel) Hp) as Hnets. destruct (re_count l =? 0); [apply does_answer; [done|by apply al_table_ack]|].
  apply does_bind; [done|apply authorize_silent|]. intros ok s1 h1 He1. destruct (negb ok); [by apply does_nothing|].
  apply does_bind; [done|by apply update_entries_silent|]. intros _ s2 h2 He2. apply does_answer; [done|by apply al_update_ack].
Qed.
Lemma does_i_could_be opt h : does (i_could_be_router arr n opt) s h.
Proof.
  apply does_silent; [apply emits_refl|]. unfold i_could_be_router, bad_message.
  destruct (i_could_be_router_parse (payload n)) as [offer|e] eqn:Hp; [|quiet]. quiet; [apply cap_silent|].
  apply (silent_table _ (OpAddLearned (icb_network offer) (at_port arr) (at_source_mac arr) (at_now arr))
    (fun t => add_learned t (icb_network offer) (at_port arr) (at_source_mac arr) (at_now arr))); [split; [apply (wl_port _ _ _ Hwel)|]|].
  { by eapply could_be_u16; [apply (payload_wf _ _ _ Hwel)|]. }
  intros t. cbn. by destruct (add_learned _ _ _ _ _).
Qed.
Lemma does_table_ack opt h : does (routing_table_ack arr n opt) s h.
Proof.
  apply does_silent; [apply emits_refl|]. unfold routing_table_ack, bad_message.
  assert (Hgo : forall l, routing_entries_parse (payload n) = Ok l -> Forall is_u16 (List.filter
    (fun network => negb ((network =? 0) || (network =? GLOBAL_NETWORK))) (map ry_network (routing_entries_iter l)))).
  { intros l Hp. apply Forall_forall. intros x [Hx%list_elem_of_In _]%list_elem_of_In%filter_In.
    pose proof (entries_u16 _ _ (payload_wf _ _ _ Hwel) Hp) as Hnets. by eapply (proj1 (Forall_forall _ _) Hnets). }
  destruct (payload n) as [|b l]; [quiet|]. destruct (routing_entries_parse (b :: l)); [|quiet].
  quiet. apply claims_silent; [apply Hwel|by apply Hgo].
Qed.
Lemma does_number_is h : does (network_number_is arr n) s h.
Proof. apply does_silent; [apply emits_refl|]. unfold network_number_is, bad_message. quiet. Qed.
(** Asking the host leaves the table alone. *)
Lemma authorize_table class targets s1 h : wp (authorize arr n class targets) (fun s2 _ _ => emits s1 s2 [] None /\ st_table s2 = st_table s1) s1 h.
Proof.
  unfold authorize. apply wp_bind, wp_ask. intros h1 [].
  - apply wp_bind, wp_ret, wp_ret. split; [apply emits_refl|done].
  - apply wp_bind, wp_upd, wp_ret. split; [apply emits_count|done].
Qed.
Lemma does_pass_on s1 h : message_type n = Some REJECT_MESSAGE_TO_NETWORK -> emits s s1 [] None ->
  (forall route, table_lookup (st_table s1) (dnet_of n) = Some route -> routed_by s arr n route) -> does (pass_on_reject arr n) s1 h.
Proof.
  intros Hm He Hby. unfold pass_on_reject. apply wp_bind, wp_get. destruct (destination n) as [d|] eqn:Hd; [|by apply does_nothing].
  destruct (is_own s1 d); [by apply (does_nothing _ s1 h)|]. apply wp_bind, wp_get. cbv beta.
  assert (Hnet : dnet_of n = addr_network d) by (unfold dnet_of; by rewrite Hd). rewrite <-Hnet.
  destruct (Z.eqb_spec (dnet_of n) GLOBAL_NETWORK) as [|Hg]; [apply does_silent; [done|quiet]|].
  destruct (dnet_of n =? at_network arr); [apply does_silent; [done|quiet]|].
  destruct (table_lookup (st_table s1) (dnet_of n)) as [route|] eqn:Hl; [|apply does_silent; [done|quiet]].
  apply wp_bind, wp_get. cbv beta. rewrite (same_group s1 [] None) by done.
  case_bool_decide as Hgr; cbn [negb]; [|apply does_silent; [done|unfold group_drop; quiet]].
  apply does_forward; [done|by apply Hby|unfold regroups; by rewrite Hgr|by rewrite Hd|done].
Qed.
Lemma does_reject opt h : message_type n = Some REJECT_MESSAGE_TO_NETWORK -> does (received_reject arr n opt) s h.
Proof.
  intros Hm. unfold received_reject. destruct (reject_decode (payload n)) as [r|e] eqn:Hdec; [|apply bad_does, emits_refl].
  apply wp_bind. eapply wp_mono; [apply authorize_table|]. cbn. intros s1 h1 ok [He1 Ht1].
  destruct (negb ok); [by apply (does_nothing _ s1 h1)|]. apply wp_bind, wp_get. cbv beta.
  match goal with |- context [if ?b then _ else _] => destruct b end.
  - apply wp_bind, wp_bind, wp_upd, wp_ret. apply wp_bind, wp_observe. intros h2. apply does_pass_on; [done|by apply count_after|].
    intros route Hl. unfold routed_by. rewrite bool_decide_eq_true_2 by done. left. rewrite <-Hl. cbn. by rewrite Ht1.
  - apply wp_bind, wp_act. rewrite Ht1. destruct (apply_reject _ _ _ _ _ _) as [t eff] eqn:Ha. cbn [fst snd].
    apply wp_bind, wp_observe. intros h2. apply does_pass_on; [done| |].
    + apply (emits_trans s s1 _ [] []); [done|]. pose proof (emits_op s1 (OpReject (reject_network r) (at_port arr) (reject_reason r) (at_now arr) (op_timing opt)) I) as Hop.
      cbn in Hop. by rewrite Ht1, Ha in Hop.
    + intros route Hl. unfold routed_by. rewrite bool_decide_eq_true_2 by done. right. exists r, (op_timing opt). split; [done|]. by rewrite Ha.
Qed.
Lemma does_handle kind opt h : message_type n = Some kind -> does (handle_message arr n kind opt) s h.
Proof.
  intros Hm. pose proof (emits_refl s) as He. unfold handle_message.
  destruct (Z.eqb_spec kind WHO_IS_ROUTER_TO_NETWORK) as [->|]; [by apply does_who_is|].
  destruct (Z.eqb_spec kind I_AM_ROUTER_TO_NETWORK) as [->|]; [by apply does_i_am|].
  destruct (_ =? _); [apply does_i_could_be|].
  destruct (Z.eqb_spec kind REJECT_MESSAGE_TO_NETWORK) as [->|Hrej]; [by apply does_reject|].
  destruct (Z.eqb_spec kind ROUTER_BUSY_TO_NETWORK) as [->|]; [by apply does_flow|].
  destruct (Z.eqb_spec kind ROUTER_AVAILABLE_TO_NETWORK) as [->|]; [by apply does_flow|].
  destruct (Z.eqb_spec kind INITIALIZE_ROUTING_TABLE) as [->|]; [by apply does_init|].
  destruct (_ =? _); [apply does_table_ack|].
  destruct (_ =? _); [apply does_silent; [done|unfold bad_message; quiet]|].
  destruct (_ =? _).
  { apply does_silent; [done|]. unfold bad_message. quiet. by eapply silent_table_count. }
  destruct (Z.eqb_spec kind WHAT_IS_NETWORK_NUMBER) as [->|].
  { destruct (_ || _) eqn:E; [by apply bad_does|]. apply orb_false_iff in E as [[Hs Hd]%orb_false_iff _].
    apply does_answer; [done|]. apply al_number_is; [done|by destruct (source n)|by destruct (destination n)]. }
  destruct (_ =? _); [apply does_number_is|]. destruct (message_is_removed_security kind); [apply does_silent; [done|quiet]|].
  apply wp_bind, wp_observe. intros h1. apply wp_bind. eapply (reject_wp s h1 []); [done|cbn; lia|]. intros s2 h2 He2.
  apply wp_ret. eexists _, _. split_and!; [exact He2| |done]. apply al_unknown; rewrite Hm; [done|]. by intros [= ->].
Qed.
Lemma does_message kind opt h : message_type n = Some kind -> does (network_message arr n kind opt) s h.
Proof.
  intros Hm. pose proof (emits_refl s) as He. unfold network_message. destruct (_ && _) eqn:E; [|by apply does_handle].
  apply andb_prop in E as [Helse Hnot]. destruct (destination n) as [d|] eqn:Hd; [|done].
  assert (Hnet : dnet_of n = addr_network d) by (unfold dnet_of; by rewrite Hd).
  apply andb_prop in Helse as [Hg _]. assert (Hglob : dnet_of n <> GLOBAL_NETWORK) by (rewrite Hnet; lia).
  assert (Hrej : message_type n <> Some REJECT_MESSAGE_TO_NETWORK).
  { rewrite Hm. intros [= ->]. by rewrite orb_true_r in Hnot. }
  apply wp_bind. eapply find_route_wp; [done|done| |].
  - intros s2 h2 route He2 Hl Hr. apply wp_bind, wp_get. cbv beta. rewrite (same_group s2 [] None) by done.
    case_bool_decide as Hgr; cbn [negb]; [|apply does_silent; [done|unfold group_drop; quiet]].
    apply does_forward; [done|by apply routed_usable|unfold regroups; by rewrite Hgr|by rewrite Hd|done].
  - intros s2 h2 search reason Hr He2. eapply does_not_found; try done. by rewrite Hd.
Qed.
Lemma does_dispatch opt h : does (dispatch arr n opt) s h.
Proof. unfold dispatch. destruct (message_type n) as [kind|] eqn:Hm; [by apply does_message|by apply does_apdu]. Qed.
End Answers.

(** ** A whole reception *)

(** No frame is taken before what waited was dropped. *)
Lemma drop_ready s : length (ou_tasks (st_out s)) = QUEUE -> ready (drop_undrained s).
Proof.
  intros Hq. unfold drop_undrained. cbv zeta. case_bool_decide as Hp; [by split|]. split; [|done].
  cbn in Hp |- *. lia.
Qed.
Definition arrives s (frame : Frame) (now : Instant) : option Arrival :=
  match port_at s (fm_port frame), admit_source (fm_source frame) with
  | Some config, Ok mac =>
      Some {| at_port := fm_port frame; at_network := pc_network config; at_source := fm_source frame; at_source_mac := mac;
              at_link_group := fm_link_group frame; at_now := now |}
  | _, _ => None
  end.
(** The outputs of a reception in state [s], nothing waiting. *)
Definition drawn s (frame : Frame) (now : Instant) (ts : list Task) (w : option Written) : Prop :=
  match arrives s frame now with
  | None => ts = [] /\ w = None
  | Some arr =>
      match admit_npdu (fm_npdu frame) with
      | Ok n => allowed s arr n ts w
      | Err refused => w = None /\
          (ts = [] \/ exists dnet src, rf_reject_to refused = Some (Some dnet, src) /\ dnet <> GLOBAL_NETWORK /\
                                       ts = rejects s arr src dnet ADDRESSING_ERROR)
      end
  end.
Lemma admitted octets n : wf_bytes octets -> admit_npdu octets = Ok n ->
  npdu_decode octets = Ok n /\ wf_npdu n /\ encodable_destination (destination n) /\ encodable_source (source n).
Proof.
  intros Hw Ha. assert (Hdec : npdu_decode octets = Ok n).
  { revert Ha. unfold admit_npdu. destruct (npdu_decode octets) as [n'|[]]; [|done|done].
    destruct (destination n') as [d|]; [|by intros [= ->]]. destruct (_ && _); [done|]. destruct (_ && _); [done|]. by intros [= ->]. }
  pose proof (npdu_decode_inv octets n Hw Hdec) as (Hwf & Hc & _). apply encode_checks_none in Hc as [? ?]. done.
Qed.
Lemma receive_wp frame now opt s h : length (ou_tasks (st_out s)) = QUEUE -> 0 <= fm_port frame -> wf_bytes (fm_npdu frame) ->
  wp (store_receive frame now opt) (fun s' _ r => exists ts w, emits (drop_undrained s) s' ts w /\
    drawn (drop_undrained s) frame now ts w) s h.
Proof.
  intros Hq Hf Hw. unfold store_receive, drawn, arrives. apply wp_bind, wp_upd. pose proof (drop_ready s Hq) as Hr.
  set (s0 := drop_undrained s) in *. clearbody s0. clear s Hq. apply wp_bind, wp_get.
  assert (Hcount : forall ts f, ts = [] -> emits s0 (s0 <| st_counters ::= f |>) ts None) by (intros ts f ->; apply emits_count).
  destruct (port_at s0 (fm_port frame)) as [config|] eqn:Hport; [|exists [], None; split; [by apply Hcount|done]].
  destruct (admit_source (fm_source frame)) as [mac|refused] eqn:Hsrc; [|exists [], None; split; [by apply Hcount|done]].
  set (arr := {| at_port := fm_port frame |}). destruct (admit_npdu (fm_npdu frame)) as [n|refused] eqn:Hn.
  - destruct (admitted _ _ Hw Hn) as (_ & Hwf & Hd & Hs).
    assert (Hwel : welcome s0 arr n).
    { split; [|revert Hsrc|done|done|done].
      - cbn. split; [done|]. apply lookup_lt_Some in Hport. revert Hport. unfold ports_of. rewrite length_take. lia.
      - unfold admit_source. cbn. pose proof (mac_from_slice_as_slice (fm_source frame)) as Hm.
        destruct (mac_from_slice (fm_source frame)); [by destruct Hm|done]. }
    pose proof (does_dispatch s0 arr n Hr Hwel opt h) as Hdoes. unfold does in Hdoes. eapply wp_mono; [exact Hdoes|]. cbn.
    intros s' _ r (ts & w & He & Ha & _). eauto.
  - assert (Hend : forall ts, (ts = [] \/ exists dnet src, rf_reject_to refused = Some (Some dnet, src) /\ dnet <> GLOBAL_NETWORK /\
        ts = rejects s0 arr src dnet ADDRESSING_ERROR) -> forall s1 h1, emits s0 s1 ts None ->
      wp (do! bumped (fun c => bump_slot c (rf_count refused)) in ret (RDiscarded (rf_discard refused)))
        (fun s' _ _ => exists ts w, emits s0 s' ts w /\ w = None /\ (ts = [] \/ exists dnet src, rf_reject_to refused = Some (Some dnet, src) /\
          dnet <> GLOBAL_NETWORK /\ ts = rejects s0 arr src dnet ADDRESSING_ERROR)) s1 h1).
    { intros ts Hts s1 h1 He. apply wp_bind, wp_upd, wp_ret. exists ts, None. split; [|done]. rewrite <-(app_nil_r ts).
      eapply emits_trans; [exact He|apply emits_count]. }
    apply wp_bind. destruct (rf_reject_to refused) as [[[dnet|] src]|] eqn:Hto; try (apply (Hend []); [by left|apply emits_refl]).
    destruct (Z.eqb_spec dnet GLOBAL_NETWORK) as [Hg|Hg]; cbn [negb]; [apply (Hend []); [by left|apply emits_refl]|].
    eapply (reject_wp s0 arr Hr s0 h []); [apply emits_refl|cbn; lia|]. intros s1 h1 He. eapply Hend; [|exact He]. right. by eexists _, _.
Qed.
End Handlers.
