(* ===== verification/RouterPoll.v ===== *)
(** * What a router's polls yield

    Every NPDU polled is one the router wrote whole, decodable and within the limit of the port it leaves on; each
    output leaves on the ports it is for and no others, and polling comes to an end. *)

From S2P Require Import Prelude Time Npdu Arrays RouteTable RouteTheorems RouteSafety RouterMessage RouterGroups.
From S2P Require Import RouterData RouterOutput RouterEngine RouterLogic RouterEmits RouterHandlers.
Open Scope Z_scope.

Section Poll.
Context {G : Type} `{GroupClassifier G} {Hst : Type} `{Host Hst}.
Implicit Types (s : Storage G) (n : Npdu).

(** ** The next port of an output *)

Abbreviation current s := (ou_current (st_out s)).
(** The octets of the output in the scratch. *)
Definition content s : bytes := drop (cu_start (current s)) (take (cu_len (current s)) (st_scratch s)).
(** The state of a fan-out that is at port [k]. *)
Definition at_port_k s (k : nat) (c : Counters) : Storage G :=
  (on_current (fun x => x <| cu_next := k |>) s) <| st_counters := c |>.
Lemma at_port_k_twice s k c k' c' : at_port_k (at_port_k s k c) k' c' = at_port_k s k' c'.
Proof. by destruct s as [?????? [[] ????] ?????]. Qed.
Lemma fits_from_same s s' octets port b : st_ports s' = st_ports s -> st_port_count s' = st_port_count s ->
  fits_from s' octets port b = fits_from s octets port b.
Proof. intros Hp Hc. unfold fits_from, port_at, ports_of. by rewrite Hp, Hc. Qed.
(** A fan-out takes the first port, from where it is, that is not the one it spares and whose link carries the NPDU. *)
Definition takes s (except : PortId) (octets : nat) (k : nat) : bool :=
  negb (Z.of_nat k =? except) && fits_from s octets (Z.of_nat k) true.
Lemma fan_out_next_spec rest : forall s, exists k c,
  (fan_out_next rest s).1 = at_port_k s k c /\
  match (fan_out_next rest s).2 with
  | Some port => exists j, port = Z.of_nat j /\ k = S j /\ (cu_next (current s) <= j < cu_next (current s) + rest)%nat /\
      takes s (cu_port (current s)) (cu_len (current s)) j = true /\
      forall i, (cu_next (current s) <= i < j)%nat -> takes s (cu_port (current s)) (cu_len (current s)) i = false
  | None => k = (cu_next (current s) + rest)%nat /\
      forall i, (cu_next (current s) <= i < k)%nat -> takes s (cu_port (current s)) (cu_len (current s)) i = false
  end.
Proof.
  induction rest as [|rest IH]; intros s.
  { exists (cu_next (current s)), (st_counters s). cbn. split; [by destruct s as [?????? [[] ????] ?????]|]. split; [lia|]. intros i Hi. lia. }
  cbn [fan_out_next]. set (i0 := cu_next (current s)). set (s1 := on_current (over cu_next S) s).
  assert (Hs1 : s1 = at_port_k s (S i0) (st_counters s)) by by destruct s as [?????? [[] ????] ?????].
  assert (Hskip : forall c, takes s (cu_port (current s)) (cu_len (current s)) i0 = false ->
    let r := fan_out_next rest (at_port_k s (S i0) c) in exists k c,
    r.1 = at_port_k s k c /\
    match r.2 with
    | Some port => exists j, port = Z.of_nat j /\ k = S j /\ (i0 <= j < i0 + S rest)%nat /\
        takes s (cu_port (current s)) (cu_len (current s)) j = true /\
        forall i, (i0 <= i < j)%nat -> takes s (cu_port (current s)) (cu_len (current s)) i = false
    | None => k = (i0 + S rest)%nat /\
        forall i, (i0 <= i < k)%nat -> takes s (cu_port (current s)) (cu_len (current s)) i = false
    end).
  { intros c Hno. cbv zeta. destruct (IH (at_port_k s (S i0) c)) as (k & c' & E & Hr). exists k, c'.
    rewrite E, at_port_k_twice. split; [done|].
    assert (Hsame : forall p l i, takes (at_port_k s (S i0) c) p l i = takes s p l i) by (intros; unfold takes; by rewrite (fits_from_same s)).
    assert (Hc : current (at_port_k s (S i0) c) = (current s) <| cu_next := S i0 |>) by done.
    rewrite Hc in Hr. cbn [cu_port cu_len cu_next] in Hr. destruct (fan_out_next rest (at_port_k s (S i0) c)).2 as [port|].
    - destruct Hr as (j & -> & -> & Hj & Ht & Hi). exists j. rewrite Hsame in Ht. cbn in Hj. split_and!; try done; try lia.
      intros i Hi'. destruct (decide (i = i0)) as [->|]; [done|]. rewrite <-(Hsame _ _ i). apply Hi. cbn. lia.
    - destruct Hr as (-> & Hi). cbn. split; [lia|]. intros i Hi'. destruct (decide (i = i0)) as [->|]; [done|].
      rewrite <-(Hsame _ _ i). apply Hi. cbn. lia. }
  rewrite Hs1. destruct (Z.eqb_spec (Z.of_nat i0) (cu_port (current s))) as [He|He].
  { apply Hskip. unfold takes. by rewrite (proj2 (Z.eqb_eq _ _) He). }
  rewrite (fits_from_same s) by done. destruct (fits_from s (cu_len (current s)) (Z.of_nat i0) true) eqn:Hf.
  - exists (S i0), (st_counters s). split; [done|]. exists i0. split_and!; try done; try lia.
    unfold takes. by rewrite (proj2 (Z.eqb_neq _ _) He), Hf.
  - assert (Ht : too_long (at_port_k s (S i0) (st_counters s)) = at_port_k s (S i0) (over rc_egress_too_long bump (st_counters s))).
    { by destruct s as [?????? [[] ????] ?????]. }
    rewrite Ht. apply Hskip. unfold takes. by rewrite Hf, andb_false_r.
Qed.

(** The sends that pass on what came from elsewhere. *)
Definition is_relay (k : Kind) : bool := match k with KForward | KGlobal => true | _ => false end.
(** What an NPDU must be for the encoder to write it and the decoder to read it back. *)
Definition good n : Prop := wf_npdu n /\ encode_checks n = None.
(** A global broadcast with the address it is sent from, which one port's copy goes without. *)
Record two_headers (c : Current) n : Prop := {
  th_start : cu_start c = 0%nat;
  th_destination : destination n = Some {| addr_network := GLOBAL_NETWORK; addr_mac := [] |};
  th_hops : hop_count n = 255; th_message : message_type n = None;
  th_source : exists a, source n = Some a /\ cu_tail c = (3 + length (addr_mac a))%nat;
  th_control : cu_tail_control c = encode_control (n <| source := None |>)
}.
(** The current output is the NPDU [n]. *)
Record carries s n : Prop := {
  ca_good : good n; ca_content : content s = npdu_octets n; ca_fit : (cu_len (current s) <= length (st_scratch s))%nat;
  ca_start : (cu_start (current s) <= cu_len (current s))%nat;
  ca_tail : cu_tail (current s) = 0%nat \/ two_headers (current s) n
}.
(** What finding the next port leaves alone. *)
Record kept s s' : Prop := {
  kp_ports : st_ports s' = st_ports s; kp_count : st_port_count s' = st_port_count s; kp_flows : st_flows s' = st_flows s;
  kp_table : st_table s' = st_table s; kp_search : st_discovery s' = st_discovery s; kp_recent : st_recent s' = st_recent s;
  kp_sweep : st_next_sweep s' = st_next_sweep s; kp_latest : st_latest s' = st_latest s; kp_asserts : st_asserts s' = st_asserts s;
  kp_tasks : ou_tasks (st_out s') = ou_tasks (st_out s); kp_len : ou_len (st_out s') = ou_len (st_out s);
  kp_scratch : length (st_scratch s') = length (st_scratch s);
  kp_kind : current_kind (current s') = current_kind (current s);
  kp_origin : cu_reject_origin (current s') = cu_reject_origin (current s);
  kp_fan : cu_fan_out (current s') = cu_fan_out (current s)
}.
(** The sends an output has left, at most. *)
Definition sends_left (ports : nat) (c : Current) : nat :=
  if cu_active c then
    if cu_fan_out c then (ports - cu_next c) + (if bool_decide (cu_tail c = 0%nat) then 0 else 1) else 1
  else 0.
Lemma fits_limit s octets port b : fits_from s octets port b = true ->
  exists config, port_at s port = Some config /\ Z.of_nat octets <= limits_get (pc_max_npdu config) b.
Proof. unfold fits_from. destruct (port_at s port) as [config|]; [|done]. intros Hf. exists config. split; [done|lia]. Qed.
(** The copy without a source, written over the octets before it. *)
Lemma second_header s n a : carries s n -> two_headers (current s) n -> source n = Some a ->
  let header := [VERSION; cu_tail_control (current s); 255; 255; 0] in
  let tail := cu_tail (current s) in
  (tail + length header < cu_len (current s))%nat /\
  drop tail (take (cu_len (current s)) (splice (st_scratch s) tail header)) = npdu_octets (n <| source := None |>).
Proof.
  intros [Hg Hc Hf _ _] [Hs Hd Hh Hm (a' & Ha' & Ht) Hctl] Ha. replace a' with a in * by congruence. clear a' Ha'.
  cbv zeta. rewrite Ht, Hctl. unfold content in Hc. rewrite Hs, drop_0 in Hc.
  set (tail := (3 + length (addr_mac a))%nat).
  pose proof (length_npdu_octets n) as HL. pose proof (f_equal length Hc) as Hlen. rewrite HL, length_take, Nat.min_l in Hlen by done.
  assert (Hshape : npdu_octets n = ([VERSION; encode_control n] ++ [255; 255; 0] ++ address_octets (Some a)) ++ 255 :: payload n).
  { unfold npdu_octets, message_octets. rewrite Hd, Ha, Hh, Hm. cbn. by rewrite <-?app_assoc. }
  assert (Hnew : npdu_octets (n <| source := None |>) = [VERSION; encode_control (n <| source := None |>); 255; 255; 0] ++ 255 :: payload n).
  { unfold npdu_octets, message_octets. cbn. by rewrite Hd, Hh, Hm. }
  assert (Hpre : length ([VERSION; encode_control n] ++ [255; 255; 0] ++ address_octets (Some a)) = (tail + 5)%nat).
  { rewrite !length_app, length_address_octets. cbn. unfold tail. lia. }
  assert (Hlen' : cu_len (current s) = (tail + 5 + S (length (payload n)))%nat).
  { rewrite Hlen, <-HL, Hshape, length_app, Hpre. done. }
  split; [cbn; lia|]. rewrite Hnew. set (header := [VERSION; _; 255; 255; 0]). unfold splice.
  rewrite take_app_ge, length_take, Nat.min_l by (rewrite ?length_take; lia).
  rewrite drop_app_length' by (rewrite length_take; lia). rewrite take_app_ge by (cbn; lia).
  assert (Hrest : take (cu_len (current s) - tail - length header) (drop (tail + length header) (st_scratch s)) = 255 :: payload n).
  { change (length header) with 5%nat. rewrite take_drop_commute.
    replace (tail + 5 + (cu_len (current s) - tail - 5))%nat with (cu_len (current s)) by lia.
    rewrite Hc, Hshape. by apply drop_app_length'. }
  by rewrite Hrest.
Qed.
Lemma without_source n : good n -> good (n <| source := None |>).
Proof.
  intros [(Hd & Hs & Hh & Hk & Hv & Hp) Hc]. split; [by split_and!|]. apply encode_checks_none in Hc as [Hcd _].
  by apply encode_checks_none.
Qed.
(** What a target is found for: the NPDU, or its copy without a source. *)
Record targeted s n s' (port : PortId) (b : bool) : Prop := {
  tg_kept : kept s s';
  tg_carries : exists n', carries s' n' /\ (n' = n \/ cu_tail (current s) <> 0%nat /\ n' = n <| source := None |>);
  tg_fits : exists config, port_at s port = Some config /\ Z.of_nat (length (content s')) <= limits_get (pc_max_npdu config) b;
  tg_fewer : (sends_left (st_port_count s) (current s') < sends_left (st_port_count s) (current s))%nat;
  tg_more : has_more (current s) (st_port_count s) = true;
  tg_tail : cu_tail (current s) = 0%nat -> cu_tail (current s') = 0%nat;
  tg_done : cu_active (current s') && negb (cu_fan_out (current s')) = false
}.
Record finished s s' : Prop := { fi_kept : kept s s'; fi_inactive : cu_active (current s') = false }.
Lemma kept_at s k c : kept s (at_port_k s k c).
Proof. by split. Qed.
Lemma kept_trans s1 s2 s3 : kept s1 s2 -> kept s2 s3 -> kept s1 s3.
Proof. intros [] []. split; congruence. Qed.
Lemma length_content s n : carries s n -> length (content s) = (cu_len (current s) - cu_start (current s))%nat.
Proof. intros [_ _ Hf _ _]. unfold content. rewrite length_drop, length_take. lia. Qed.
Lemma next_target_spec s n : cu_active (current s) = true -> carries s n ->
  match next_target s with
  | (s', Some (port, b)) => targeted s n s' port b
  | (s', None) => finished s s'
  end.
Proof.
  intros Ha Hn. unfold next_target. rewrite Ha. cbn [negb].
  destruct (cu_fan_out (current s)) eqn:Hfan; cbn [negb].
  2: { rewrite (fits_from_same s) by done. destruct (fits_from s (cu_len (current s)) _ _) eqn:Hf; [|by split].
       destruct (fits_limit _ _ _ _ Hf) as (config & Hc & Hl).
       assert (Hn' : carries (on_current (fun c => c <| cu_active := false |>) s) n) by (destruct Hn as [? ? ? ? [?|[]]]; by split; [| | | |left + (right; split)]).
       split; [by split|exists n; auto| | |unfold has_more; by rewrite Ha, Hfan|done|done].
       - exists config. split; [done|]. rewrite (length_content _ n) by done. cbn -[limits_get]. lia.
       - unfold sends_left. cbn. rewrite Ha, Hfan. lia. }
  destruct (fan_out_next_spec (st_port_count s - cu_next (current s)) s) as (k & c & Hs1 & Hres).
  destruct (fan_out_next _ s) as [s1 [port|]]; cbn [fst snd] in *; subst s1.
  - destruct Hres as (j & -> & -> & Hj & Htake & _). apply andb_prop in Htake as [Hother Hf].
    destruct (fits_limit _ _ _ _ Hf) as (config & Hc & Hl).
    assert (Hn' : carries (at_port_k s (S j) c) n) by (destruct Hn as [? ? ? ? [?|[]]]; by split; [| | | |left + (right; split)]).
    split; [apply kept_at|exists n; auto| | | |done|cbn; by rewrite Hfan, andb_false_r].
    + exists config. split; [done|]. rewrite (length_content _ n) by done. cbn -[limits_get]. lia.
    + unfold sends_left. cbn. rewrite Ha, Hfan. lia.
    + unfold has_more. rewrite Ha. cbn [andb]. apply orb_true_iff. right. apply existsb_exists. exists j. split; [|exact Hother].
      apply in_seq. lia.
  - destruct Hres as (-> & _). set (s1 := at_port_k s _ c). cbv zeta. case_bool_decide as Ht; [by split|].
    assert (Htwo : two_headers (current s) n) by (by destruct (ca_tail _ _ Hn)).
    destruct (th_source _ _ Htwo) as (a & Hsrc & _).
    destruct (second_header s n a Hn Htwo Hsrc) as [Hlt Hnew]. cbv zeta in Hlt, Hnew.
    rewrite (bool_decide_eq_true_2 _ Hlt), check_true.
    pose proof (ca_fit _ _ Hn) as Hfit.
    rewrite bool_decide_eq_true_2 by (cbn in Hlt |- *; lia).
    set (s2 := on_current _ (_ <| st_scratch ::= _ |>)).
    assert (Hlen : length (st_scratch s2) = length (st_scratch s)) by (cbn; apply length_splice; cbn in Hlt |- *; lia).
    assert (Hkept : kept s s2) by (split; try done).
    assert (Hn2 : carries s2 (n <| source := None |>)).
    { split; [apply without_source, Hn|exact Hnew|cbn; cbn in Hlen; lia|cbn; cbn in Hlt; lia|by left]. }
    rewrite (fits_from_same s) by done. destruct (fits_from s _ _ _) eqn:Hf; [|by split; [eapply kept_trans; [exact Hkept|by split]|]].
    destruct (fits_limit _ _ _ _ Hf) as (config & Hc & Hl). split; [done|eexists; split; [exact Hn2|auto]| | |unfold has_more; by rewrite Ha, (bool_decide_eq_false_2 _ Ht), orb_true_r|done|cbn; by rewrite Hfan, andb_false_r].
    + exists config. split; [done|]. rewrite (length_content _ _ Hn2). cbn -[limits_get]. lia.
    + unfold sends_left. cbn. rewrite Ha, Hfan. rewrite (bool_decide_eq_false_2 _ Ht), (bool_decide_eq_true_2 (0%nat = 0%nat)) by done. lia.
Qed.
End Poll.
