(* ===== verification/RouterTasks.v ===== *)
(** * What a router's tasks write

    Each task writes one well-formed network message to the scratch, or nothing, and the queue moves on: one task is done
    or its cursor advances. *)

From S2P Require Import Prelude Time Npdu Arrays RouteTable RouteTheorems RouteSafety RouterMessage RouterGroups.
From S2P Require Import RouterData RouterOutput RouterEngine RouterLogic RouterEmits RouterHandlers RouterPoll.
Open Scope Z_scope.

(** ** Writers *)

(** A writer of the scratch: it keeps its length, and what it reports written is an NPDU. *)
Definition wrote (scratch : bytes) (r : bytes * option nat) (n : Npdu) : Prop :=
  length r.1 = length scratch /\
  forall len, r.2 = Some len -> good n /\ (len <= length r.1)%nat /\ take len r.1 = npdu_octets n.
Lemma encode_wrote scratch n : wf_npdu n -> wrote scratch (written (npdu_encode_into n scratch)) n.
Proof.
  intros Hw. pose proof (npdu_encode_refusal n scratch) as Hr. destruct (npdu_encode_into n scratch) as [out [len|e]] eqn:E.
  - pose proof (written_len _ _ _ _ E) as [-> Hl]. destruct Hr as [Hc Hfit]. apply encode_checks_none in Hc.
    rewrite npdu_encode_into_octets in E by done.
    assert (out = npdu_octets n ++ drop (encoded_len n) scratch) as -> by congruence. unfold written, wrote. cbn [fst snd].
    split; [done|]. intros len [= <-]. split; [done|]. rewrite Hl. split; [done|]. rewrite take_app_length'; [done|by rewrite length_npdu_octets].
  - destruct Hr as [-> _]. by split.
Qed.
(** A writer of a message's data. *)
Definition data_writes (data : bytes -> bytes * option nat) (p : bytes) : Prop :=
  forall rest, data rest = (p ++ drop (length p) rest, Some (length p)) /\ (length p <= length rest)%nat \/ data rest = (rest, None).
Lemma length_be16s l : length (concat (map to_be16 l)) = (length l * 2)%nat.
Proof. induction l as [|x l IH]; [done|]. cbn [map concat]. rewrite length_app, IH. cbn. lia. Qed.
Lemma networks_data l : data_writes (fun data => written (networks_write l data)) (concat (map to_be16 l)).
Proof.
  intros rest. unfold networks_write, written. case_bool_decide as Hn; [left|by right]. split; [|by rewrite length_be16s].
  rewrite write_chunks_spec, take_0, Nat.add_0_l, length_be16s by (rewrite length_be16s; lia). done.
Qed.
Lemma length_table_entries l : length (routing_payload (map bare_entry l)) = (1 + length l * 4)%nat.
Proof.
  unfold routing_payload. cbn. f_equal. rewrite map_map. induction l as [|e l IH]; [done|]. cbn [map concat].
  rewrite length_app, IH. cbn. lia.
Qed.
Lemma payload_wf_entries l : Forall (fun e => is_u16 e.1 /\ is_u8 e.2) l -> (length l <= 255)%nat -> wf_bytes (routing_payload (map bare_entry l)).
Proof.
  intros Hl Hn. unfold routing_payload. rewrite length_map. constructor; [width|]. clear Hn. rewrite map_map.
  induction Hl as [|e l [Hn Hp] _ IH]; [constructor|]. cbn [map concat]. apply Forall_app. split; [|done].
  apply Forall_app. split; [by apply to_be16_wf|]. cbn.
  apply Forall_cons. split; [done|]. apply Forall_cons. split; [by vm_compute|]. by apply Forall_nil.
Qed.
Lemma entries_data l : Forall (fun e => is_u16 e.1 /\ is_u8 e.2) l ->
  data_writes (fun data => written (routing_entries_write l data)) (routing_payload (map bare_entry l)).
Proof.
  intros Hl rest. pose proof (routing_entries_write_spec l rest Hl) as Hs. cbv zeta in Hs. unfold written.
  pose proof (length_table_entries l) as Hlen.
  destruct (routing_entries_write l rest) as [out [k|[]]]; try done.
  - left. destruct Hs as (-> & Hn & _ & -> & _). rewrite Hlen. done.
  - right. by destruct Hs as [-> _].
  - right. by destruct Hs as [-> _].
Qed.
Lemma message_good kind p : is_u8 kind -> message_is_proprietary kind = false -> wf_bytes p -> good (npdu_message kind p).
Proof. intros Hk Hp Hw. split; [|done]. split_and!; cbn; try done. by intros k [= <-]. Qed.
Lemma write_message_wrote scratch kind data p : is_u8 kind -> message_is_proprietary kind = false -> wf_bytes p -> data_writes data p ->
  wrote scratch (write_message scratch kind data) (npdu_message kind p).
Proof.
  intros Hk Hp Hw Hd. unfold write_message. assert (Hlen : encoded_len (npdu_message kind []) = 3%nat) by (unfold encoded_len; cbn; by rewrite Hp).
  rewrite Hlen. case_bool_decide as Hfit; [|by split]. assert (H3 : length (take 3 scratch) = 3%nat) by (rewrite length_take; lia).
  destruct (Hd (drop 3 scratch)) as [[-> Hl]| ->].
  2: { split; [|done]. cbn [fst]. by rewrite take_drop. }
  rewrite npdu_encode_into_octets by (done || by rewrite Hlen, H3). rewrite Hlen, drop_ge, app_nil_r by lia.
  rewrite length_drop in Hl.
  assert (Hoct : npdu_octets (npdu_message kind p) = npdu_octets (npdu_message kind []) ++ p).
  { unfold npdu_octets, message_octets. cbn. by rewrite Hp. }
  assert (H3' : length (npdu_octets (npdu_message kind [])) = 3%nat) by by rewrite length_npdu_octets.
  assert (Htot : length (npdu_octets (npdu_message kind []) ++ p ++ drop (length p) (drop 3 scratch)) = length scratch).
  { rewrite !length_app, H3', !length_drop. lia. }
  split; [exact Htot|]. intros len [= <-]. split; [by apply message_good|]. cbn [fst]. rewrite Htot. split; [lia|].
  rewrite Hoct, app_assoc. apply take_app_length'. rewrite length_app, H3'. done.
Qed.

(** ** The queue *)

Section Tasks.
Context {G : Type} `{GroupClassifier G} {Hst : Type} `{Host Hst}.
Implicit Types (s : Storage G) (o : Outputs) (t : Task).

Definition queued o : list Task := take (ou_len o) (ou_tasks o).
Definition wf_outputs o : Prop := length (ou_tasks o) = QUEUE /\ (ou_len o <= QUEUE)%nat.
Lemma queued_length o : wf_outputs o -> length (queued o) = ou_len o.
Proof. intros [Hl Ho]. unfold queued. rewrite length_take. lia. Qed.
Lemma front_queued o t : outputs_front o = Some t -> exists rest, queued o = t :: rest.
Proof. unfold outputs_front. fold (queued o). destruct (queued o) as [|t' rest]; [done|]. intros [= ->]. by exists rest. Qed.
Lemma front_none o : wf_outputs o -> outputs_front o = None -> ou_len o = 0%nat.
Proof. intros Ho. unfold outputs_front. fold (queued o). rewrite <-(queued_length o Ho). by destruct (queued o). Qed.
Lemma pop_queued o t rest : wf_outputs o -> queued o = t :: rest ->
  queued (outputs_pop o) = rest /\ wf_outputs (outputs_pop o) /\ ou_current (outputs_pop o) = ou_current o.
Proof.
  intros Ho Hq. pose proof (queued_length o Ho) as Hl. destruct Ho as [Ha Hb]. rewrite Hq in Hl. cbn in Hl.
  unfold outputs_pop. rewrite bool_decide_eq_true_2 by lia. cbv zeta.
  assert (El : ou_tasks o = t :: rest ++ drop (ou_len o) (ou_tasks o)).
  { rewrite <-(take_drop (ou_len o) (ou_tasks o)) at 1. fold (queued o). by rewrite Hq. }
  pose proof (sift_up_spec rest [] t (drop (ou_len o) (ou_tasks o))) as Hs. cbn [app length Nat.add] in Hs. rewrite <-El in Hs.
  replace (ou_len o - 1)%nat with (length rest) by lia. rewrite Hs.
  unfold queued, wf_outputs. cbn. rewrite <-Hl. cbn [Nat.pred]. split_and!; [|rewrite length_insert|lia|done].
  - rewrite take_insert_ge by lia. by apply take_app_length'.
  - pose proof (f_equal length El) as Hlen. revert Hlen. rewrite Hl. cbn. rewrite !length_app. cbn. lia.
Qed.
Lemma advance_queued o t rest cursor : wf_outputs o -> queued o = t :: rest ->
  queued (outputs_advance o cursor) = t <| tk_cursor := cursor |> :: rest /\ wf_outputs (outputs_advance o cursor) /\
  ou_current (outputs_advance o cursor) = ou_current o.
Proof.
  intros Ho Hq. pose proof (queued_length o Ho) as Hl. rewrite Hq in Hl. cbn in Hl. destruct Ho as [Ha Hb].
  unfold outputs_advance. rewrite bool_decide_eq_true_2 by lia. unfold queued, wf_outputs in *. cbn. rewrite length_alter.
  destruct (ou_tasks o) as [|t' ts]; [by rewrite take_nil in Hq|]. rewrite <-Hl in Hq |- *. cbn in *. injection Hq as -> Hq. rewrite Hq.
  split_and!; try done; lia.
Qed.

(** ** Tasks *)

Definition wf_mac (m : Mac) : Prop := (length (mac_as_slice m) <= MAX_MAC_LEN)%nat /\ wf_bytes (mac_as_slice m).
Record wf_task t : Prop := {
  wt_network : is_u16 (tk_network t); wt_reason : is_u8 (tk_reason t); wt_origin_network : is_u16 (tk_origin_network t);
  wt_origin : wf_mac (tk_origin t); wt_cursor : 0 <= tk_cursor t
}.
(** A return path a reject can be sent by. *)
Record wf_origin (o : RejectOrigin) : Prop := {
  wo_network : is_u16 (ro_network o); wo_destination_network : is_u16 (ro_destination_network o); wo_destination : wf_mac (ro_destination o)
}.
Lemma empty_mac_wf : wf_mac MAC_EMPTY.
Proof. by vm_compute; repeat constructor. Qed.
Lemma no_origin_wf : wf_origin ORIGIN_NONE.
Proof. split; [by vm_compute|by vm_compute|apply empty_mac_wf]. Qed.
Lemma mac_or_empty_wf octets : wf_bytes octets -> wf_mac (mac_or_empty octets).
Proof.
  intros Hw. unfold mac_or_empty. pose proof (mac_from_slice_as_slice octets) as Hm.
  destruct (mac_from_slice octets) as [m|]; [|apply empty_mac_wf]. destruct Hm as [Hm Hl]. split; by rewrite Hm.
Qed.
Lemma origin_task_wf (o : RejectOrigin) reason : wf_origin o -> is_u8 reason -> wf_task (reject_origin_task o reason).
Proof.
  intros [Hn Hd [_ Hm]] Hr. assert (Hz : is_u16 0) by by vm_compute. unfold reject_origin_task.
  destruct (_ =? 0); split; cbn; try done; [apply empty_mac_wf|by apply mac_or_empty_wf].
Qed.
Definition wf_port (p : PortConfig G) : Prop := is_u16 (pc_network p) /\ wf_mac (pc_mac p).
(** What the tasks write from: ports and routes with network numbers. *)
Record wf_source s : Prop := {
  ws_ports : Forall wf_port (st_ports s); ws_count : (st_port_count s <= 255)%nat; ws_table : table_ok (st_port_count s) (st_table s)
}.
Lemma be16s_wf l : Forall is_u16 l -> wf_bytes (concat (map to_be16 l)).
Proof. induction 1 as [|x l Hx _ IH]; [constructor|]. cbn [map concat]. apply Forall_app. split; [by apply to_be16_wf|done]. Qed.
Lemma routes_lookup (t : Table) nr : wf_table t -> nr ∈ table_routes t -> table_lookup t nr.1 = Some nr.2.
Proof.
  intros (Hs & _) Hin. unfold table_routes in Hin. apply list_elem_of_fmap in Hin as (s & -> & Hin).
  rewrite lookup_rows by done. cbn. unfold rows. destruct Hs as [_ Hs].
  by rewrite (proj2 (as_map_lookup _ _ _ s Hs) (conj Hin eq_refl)).
Qed.
Lemma filtered_u16 (t : Table) P q : table_ok P t -> Forall is_u16 (map fst (List.filter q (table_routes t))).
Proof.
  intros [Hw Ht]. apply Forall_map, Forall_forall. intros nr [Hin%list_elem_of_In _]%list_elem_of_In%filter_In.
  apply (Ht _ nr.2). by apply routes_lookup.
Qed.
Lemma numbered_elem {A} (l : list A) (x : PortId * A) : x ∈ numbered l -> x.2 ∈ l.
Proof. unfold numbered. intros (i & y & -> & Hy)%elem_of_lookup_imap_1. by eapply list_elem_of_lookup_2. Qed.
Lemma other_u16 s port : wf_source s -> Forall is_u16 (other_networks (ports_of s) port).
Proof.
  intros Hs. unfold other_networks. apply Forall_map, Forall_forall. intros x [Hx%list_elem_of_In%numbered_elem _]%list_elem_of_In%filter_In.
  pose proof (Forall_take _ (st_port_count s) _ (ws_ports s Hs)) as Hp. by destruct (proj1 (Forall_forall _ _) Hp _ Hx).
Qed.
Lemma wire_entries_wf s from : wf_source s -> Forall (fun e => is_u16 e.1 /\ is_u8 e.2) (wire_entries (st_table s) from).
Proof.
  intros Hs. apply Forall_forall. intros e (nr & Hin & He)%list_elem_of_omap. apply list_elem_of_In, filter_In in Hin as [Hin _].
  destruct (ws_table s Hs) as [Hw Ht]. destruct (Ht nr.1 nr.2) as [Hn Hp]; [by apply routes_lookup; [|apply list_elem_of_In]|].
  unfold wire_id, chk_add in He. destruct (Z.leb_spec (rt_port nr.2 + 1) U8_MAX); [|done]. injection He as <-. cbn. split; [done|]. width.
Qed.

(** The message a task writes, by its kind; an announcement's is that of the cursor it is at. *)
Definition reject_message t : Npdu :=
  let n := npdu_message REJECT_MESSAGE_TO_NETWORK (reject_to_bytes {| reject_reason := tk_reason t; reject_network := tk_network t |}) in
  if tk_origin_network t =? 0 then n
  else n <| destination := Some {| addr_network := tk_origin_network t; addr_mac := mac_as_slice (tk_origin t) |} |>.
Definition ack_message s (from : Z) : Npdu :=
  npdu_message INITIALIZE_ROUTING_TABLE_ACK (routing_payload (map bare_entry (take ACK_ENTRIES (wire_entries (st_table s) from)))).
Definition i_am_message (networks : list Z) : Npdu := npdu_message I_AM_ROUTER_TO_NETWORK (concat (map to_be16 networks)).
Definition number_message s (port : PortId) : Npdu :=
  npdu_message NETWORK_NUMBER_IS (to_be16 (match st_ports s !! Z.to_nat port with Some p => pc_network p | None => 0 end) ++ [CONFIGURED]).
Definition task_message s t : Npdu :=
  match tk_kind t with
  | TkEmpty | TkUpdateAck => npdu_message INITIALIZE_ROUTING_TABLE_ACK []
  | TkSolicit => npdu_message WHO_IS_ROUTER_TO_NETWORK (to_be16 (tk_network t))
  | TkReject => reject_message t
  | TkIAmAnswer => i_am_message (if tk_network t =? 0 then answer_networks (st_table s) (tk_port t) else [tk_network t])
  | TkTableAck => ack_message s (tk_cursor t)
  | TkNumberIs => number_message s (tk_port t)
  | TkAnnounce | TkAnnouncePort =>
      if Z.land (tk_cursor t) 1 =? 0 then number_message s (Z.shiftr (tk_cursor t) 1)
      else i_am_message (other_networks (ports_of s) (Z.shiftr (tk_cursor t) 1))
  end.
Lemma number_wrote s port : wf_source s -> wrote (st_scratch s) (write_number_is s port) (number_message s port).
Proof.
  intros Hs. unfold write_number_is, number_message. destruct (st_ports s !! Z.to_nat port) as [p|] eqn:Hp; [|by split].
  pose proof (proj1 (Forall_forall _ _) (ws_ports s Hs) p (list_elem_of_lookup_2 _ _ _ Hp)) as [Hn _].
  apply encode_wrote. apply message_good; [by vm_compute|done|]. apply Forall_app. split; [by apply to_be16_wf|repeat constructor; by vm_compute].
Qed.
Lemma i_am_wrote s l : Forall is_u16 l ->
  wrote (st_scratch s) (write_message (st_scratch s) I_AM_ROUTER_TO_NETWORK (fun data => written (networks_write l data))) (i_am_message l).
Proof. intros Hl. apply write_message_wrote; [by vm_compute|done|by apply be16s_wf|apply networks_data]. Qed.
Lemma next_announcement_wrote s rest : wf_source s -> forall cursor, 0 <= cursor ->
  match next_announcement rest s cursor with
  | (scratch, None) => scratch = st_scratch s
  | (scratch, Some (at_, len)) => cursor <= at_ < cursor + Z.of_nat rest /\
      wrote (st_scratch s) (scratch, len) (task_message s (task_announce <| tk_cursor := at_ |>)) /\
      ((Z.land at_ 1 =? 0) = false -> (1 < st_port_count s)%nat)
  end.
Proof.
  intros Hs. induction rest as [|rest IH]; intros cursor Hc; [done|]. cbn [next_announcement].
  destruct (Z.land cursor 1 =? 0) eqn:Heven.
  - pose proof (number_wrote s (Z.shiftr cursor 1) Hs) as Hw. destruct (write_number_is s _) as [scratch len].
    split; [lia|]. unfold task_message. cbn. rewrite Heven. done.
  - case_bool_decide as Hp.
    + pose proof (i_am_wrote s (other_networks (ports_of s) (Z.shiftr cursor 1)) (other_u16 s _ Hs)) as Hw.
      destruct (write_message _ _ _) as [scratch len]. split; [lia|]. unfold task_message. cbn. rewrite Heven. done.
    + specialize (IH (cursor + 1) ltac:(lia)). destruct (next_announcement rest s (cursor + 1)) as [scratch [[at_ len]|]]; [|done].
      destruct IH as (? & ? & ?). split_and!; try done; lia.
Qed.
Lemma reject_message_good t : wf_task t -> wf_npdu (reject_message t).
Proof.
  intros [Hn Hr Ho [Hl Hm] _]. unfold reject_message.
  assert (Hb : wf_bytes (reject_to_bytes {| reject_reason := tk_reason t; reject_network := tk_network t |})).
  { unfold reject_to_bytes. cbn. constructor; [done|]. by apply to_be16_wf. }
  destruct (_ =? 0); split_and!; cbn; try done; try (by intros ? [= <-]); by vm_compute.
Qed.

(** ** What is left to write *)

(** The routes at or after a cursor. *)
Definition routes_from (t : Table) (cursor : Z) : nat := length (List.filter (fun nr => cursor <=? nr.1) (table_routes t)).
Lemma routes_from_le (t : Table) cursor : wf_table t -> (routes_from t cursor <= tl_len t)%nat.
Proof.
  intros (Hs & _). unfold routes_from. rewrite <-(stored_length t Hs), <-(length_map (fun x => (sl_network x, sl_route x)) (table_stored t)).
  apply filter_length_le.
Qed.
Lemma routes_from_after (t : Table) cursor nr : nr ∈ table_routes t -> cursor <= nr.1 -> (routes_from t (nr.1 + 1) < routes_from t cursor)%nat.
Proof.
  unfold routes_from. intros Hin Hc. induction (table_routes t) as [|x l IH]; [by apply elem_of_nil in Hin|].
  assert (Hle : (length (List.filter (fun y : Z * Route => (nr.1 + 1 <=? y.1)%Z) l) <= length (List.filter (fun y : Z * Route => (cursor <=? y.1)%Z) l))%nat).
  { clear -Hc. induction l as [|y l IH]; [done|]. cbn. destruct (Z.leb_spec (nr.1 + 1) y.1), (Z.leb_spec cursor y.1); cbn; lia. }
  cbn. apply elem_of_cons in Hin as [<-|Hin].
  - rewrite (proj2 (Z.leb_gt _ _)), (proj2 (Z.leb_le _ _)) by lia. cbn. lia.
  - specialize (IH Hin). destruct (Z.leb_spec (nr.1 + 1) x.1), (Z.leb_spec cursor x.1); cbn; lia.
Qed.
Definition task_left s t : nat :=
  S (match tk_kind t with
     | TkTableAck => routes_from (st_table s) (tk_cursor t)
     | TkAnnounce | TkAnnouncePort => Z.to_nat (announce_end s - tk_cursor t)
     | _ => 0
     end).
Lemma last_wire_entry (t : Table) cursor entries network : entries = take ACK_ENTRIES (wire_entries t cursor) -> fst <$> last entries = Some network ->
  exists nr, nr ∈ table_routes t /\ network = nr.1 /\ cursor <= nr.1.
Proof.
  intros -> Hl. destruct (last (take ACK_ENTRIES (wire_entries t cursor))) as [e|] eqn:He; [|done]. injection Hl as <-.
  apply last_Some_elem_of, elem_of_take in He as (i & Hi & _). apply list_elem_of_lookup_2, list_elem_of_omap in Hi as (nr & Hin & Hw).
  apply list_elem_of_In, filter_In in Hin as [Hin Hc]. exists nr. rewrite list_elem_of_In.
  destruct (wire_id (rt_port nr.2)); [|done]. injection Hw as <-. cbn. split_and!; [done|done|lia].
Qed.
Lemma wrote_out s r n : wrote (st_scratch s) r n -> length r.1 = length (st_scratch s) /\ exists n, wrote (st_scratch s) r n.
Proof. intros Hw. split; [apply Hw|by exists n]. Qed.
Lemma announce_spec s t (end_ : Z) : wf_source s -> wf_task t -> tk_kind t = TkAnnounce \/ tk_kind t = TkAnnouncePort ->
  match next_announcement (Z.to_nat (announce_end s - tk_cursor t)) s (tk_cursor t) with
  | (scratch, None) => length scratch = length (st_scratch s)
  | (scratch, Some (cursor, len)) => length scratch = length (st_scratch s) /\
      (exists n, wrote (st_scratch s) (scratch, len) n) /\
      0 <= cursor + 1 /\ (task_left s (t <| tk_cursor := (cursor + 1)%Z |>) < task_left s t)%nat
  end.
Proof.
  intros Hs Ht Hk. pose proof (next_announcement_wrote s (Z.to_nat (announce_end s - tk_cursor t)) Hs (tk_cursor t) (wt_cursor t Ht)) as Hn.
  destruct (next_announcement _ _ _) as [scratch [[at_ len]|]]; [|by subst]. destruct Hn as (Hat & Hw & _).
  destruct (wrote_out _ _ _ Hw) as [Hl He]. pose proof (wt_cursor t Ht). split_and!; [done|done|lia|].
  unfold task_left. cbn. destruct Hk as [->| ->]; lia.
Qed.
Lemma task_output_spec s t : wf_source s -> wf_task t ->
  let '(scratch, (next, output)) := task_output s t in
  length scratch = length (st_scratch s) /\
  match next with Some c => 0 <= c /\ (task_left s (t <| tk_cursor := c |>) < task_left s t)%nat | None => True end /\
  match output with Some (len, kind, cause, target) => exists n, wrote (st_scratch s) (scratch, len) n | None => True end.
Proof.
  intros Hs Ht. unfold task_output.
  destruct (tk_kind t) eqn:Hk; cbv zeta.
  - done.
  - pose proof (encode_wrote (st_scratch s) (npdu_message WHO_IS_ROUTER_TO_NETWORK (to_be16 (tk_network t)))) as Hw.
    destruct (written _) as [scratch len]. assert (Hn : wf_npdu (npdu_message WHO_IS_ROUTER_TO_NETWORK (to_be16 (tk_network t)))).
    { apply message_good; [by vm_compute|done|apply to_be16_wf, Ht]. }
    specialize (Hw Hn). split_and!; [apply Hw|done|by eexists].
  - pose proof (encode_wrote (st_scratch s) (reject_message t) (reject_message_good t Ht)) as Hw. unfold reject_message in Hw.
    destruct (written _) as [scratch len]. split_and!; [apply Hw|done|by eexists].
  - assert (Hans : forall l, Forall is_u16 l -> let '(scratch, (next, output)) :=
      (let '(scratch, len) := write_message (st_scratch s) I_AM_ROUTER_TO_NETWORK (fun data => written (networks_write l data)) in
       (scratch, (@None Z, Some (len, KAnswer I_AM_ROUTER_TO_NETWORK, CauseIngress, TargetBroadcast (tk_port t))))) in
      length scratch = length (st_scratch s) /\
      match next with Some c => 0 <= c /\ (task_left s (t <| tk_cursor := c |>) < task_left s t)%nat | None => True end /\
      match output with Some (len, kind, cause, target) => exists n, wrote (st_scratch s) (scratch, len) n | None => True end).
    { intros l Hl. pose proof (i_am_wrote s l Hl) as Hw. destruct (write_message _ _ _) as [scratch len].
      apply wrote_out in Hw as [Hlen He]. done. }
    destruct (negb _); [apply Hans; constructor; [apply Ht|constructor]|].
    pose proof (filtered_u16 (st_table s) (st_port_count s) (fun nr => negb (rt_port nr.2 =? tk_port t)
      && negb (bool_decide (rt_reachability nr.2 = Unreachable))) (ws_table s Hs)) as Hu.
    fold (answer_networks (st_table s) (tk_port t)) in Hu. destruct (answer_networks (st_table s) (tk_port t)); [done|by apply Hans].
  - pose proof (encode_wrote (st_scratch s) (npdu_message INITIALIZE_ROUTING_TABLE_ACK [])) as Hw.
    destruct (written _) as [scratch len]. destruct (wrote_out _ _ _ (Hw ltac:(apply message_good; [by vm_compute|done|constructor]))) as [Hl He]. done.
  - pose proof (Forall_take _ ACK_ENTRIES _ (wire_entries_wf s (tk_cursor t) Hs)) as Hwf.
    pose proof (fun network => last_wire_entry (st_table s) (tk_cursor t) _ network eq_refl) as Hlast.
    set (entries := take ACK_ENTRIES (wire_entries (st_table s) (tk_cursor t))) in *.
    assert (Hcount : (length entries <= 255)%nat) by (unfold entries; rewrite length_take; change ACK_ENTRIES with 124%nat; lia).
    destruct (_ && _); [done|].
    pose proof (write_message_wrote (st_scratch s) INITIALIZE_ROUTING_TABLE_ACK _ _ ltac:(by vm_compute) eq_refl (payload_wf_entries entries Hwf Hcount) (entries_data entries Hwf)) as Hw.
    destruct (write_message _ _ _) as [scratch len]. destruct (wrote_out _ _ _ Hw) as [Hl He]. split_and!; [done| |done].
    destruct (fst <$> last entries) as [network|] eqn:Hn; [|done]. destruct (is_some len); [|done].
    destruct (Hlast network eq_refl) as (nr & Hin & -> & Hc). pose proof (wt_cursor t Ht). split; [lia|].
    unfold task_left. cbn. rewrite Hk. pose proof (routes_from_after _ _ _ Hin Hc). lia.
  - pose proof (number_wrote s (tk_port t) Hs) as Hw. destruct (write_number_is _ _) as [scratch len].
    destruct (wrote_out _ _ _ Hw) as [Hl He]. done.
  - pose proof (announce_spec s t 0 Hs Ht (or_introl Hk)) as Ha. destruct (next_announcement _ _ _) as [scratch [[cursor len]|]]; [|done].
    destruct Ha as (? & ? & ? & ?). split_and!; [done|by destruct (_ <? _)|done].
  - pose proof (announce_spec s t 0 Hs Ht (or_intror Hk)) as Ha. destruct (next_announcement _ _ _) as [scratch [[cursor len]|]]; [|done].
    destruct Ha as (? & ? & ? & ?). split_and!; [done|by destruct (_ <? _)|done].
Qed.
End Tasks.
