(* ===== verification/RouterInv.v ===== *)
(** * The state a router stays in, and how polling ends

    The invariant of the storage between calls, its preservation by polling, and the bound on what is left to poll. *)

From S2P Require Import Prelude Time Npdu Arrays RouteTable RouteTheorems RouteSafety Discovery RouterMessage.
From S2P Require Import RouterGroups RouterData RouterOutput RouterEngine RouterLogic RouterEmits RouterHandlers.
From S2P Require Import RouterPoll RouterTasks.
Open Scope Z_scope.

Section Inv.
Context {G : Type} `{GroupClassifier G} {Hst : Type} `{Host Hst}.
Implicit Types (s : Storage G) (n : Npdu) (f : Flow).
Abbreviation current s := (ou_current (st_out s)).

(** ** The invariant *)

Record wf_store s : Prop := {
  wi_source : wf_source s; wi_ports : (0 < st_port_count s <= length (st_ports s))%nat;
  wi_flows : length (st_flows s) = length (st_ports s);
  wi_limits : forall p config, port_at s p = Some config -> limits_fit (pc_max_npdu config) (length (st_scratch s)) = true;
  wi_direct : forall i config, ports_of s !! i = Some config ->
    table_lookup (st_table s) (pc_network config) = Some (route_direct (Z.of_nat i));
  wi_search : search_shape (st_discovery s); wi_outputs : wf_outputs (st_out s); wi_tasks : Forall wf_task (queued (st_out s));
  wi_current : cu_active (current s) = true -> exists n, carries s n;
  wi_origin : wf_origin (cu_reject_origin (current s)) /\
    (cu_fan_out (current s) = true -> cu_reject_origin (current s) = ORIGIN_NONE); wi_asserts : st_asserts s = true
}.
(** A fresh output carries what was written. *)
Lemma new_carries s r n len kind cause prio target b o : wrote r (st_scratch s, Some len) n ->
  current s = (current_new len kind cause prio target) <| cu_table_ack := b |> <| cu_reject_origin := o |> -> carries s n.
Proof.
  intros [_ Hw] Hc. destruct (Hw len eq_refl) as (Hg & Hl & Ht). cbn in Hl, Ht.
  assert (Hf : cu_len (current s) = len /\ cu_start (current s) = 0%nat /\ cu_tail (current s) = 0%nat) by (rewrite Hc; by destruct target).
  destruct Hf as (El & Es & Et). split; [done| |by rewrite El|by rewrite Es; lia|by left].
  unfold content. by rewrite El, Es, drop_0.
Qed.

(** ** What is left to poll *)

Definition flow_left s f : nat := if flow_waits f then S (routes_from (st_table s) (fl_cursor f)) else 0.
(** The outputs left to write. *)
Definition work_left s : nat := sum_list (task_left s <$> queued (st_out s)) + sum_list (flow_left s <$> flows_of s).
Lemma sum_alter_lt {A} (g : A -> nat) (f : A -> A) (l : list A) i x : l !! i = Some x -> (g (f x) < g x)%nat ->
  (sum_list (g <$> alter f i l) < sum_list (g <$> l))%nat.
Proof.
  revert i. induction l as [|y l IH]; intros [|i] Hi Hlt; try done; cbn in *.
  - injection Hi as ->. lia.
  - specialize (IH i Hi Hlt). lia.
Qed.
Lemma take_alter_lt {A} (f : A -> A) (l : list A) : forall k i, (i < k)%nat -> take k (alter f i l) = alter f i (take k l).
Proof. induction l as [|y l IH]; intros [|k] [|i] Hi; try done; try lia. cbn. f_equal. apply IH. lia. Qed.
Lemma flows_alter s index g : (index < st_port_count s)%nat -> flows_of (set_flow s index g) = alter g index (flows_of s).
Proof. intros Hi. unfold flows_of, set_flow. cbn. by apply take_alter_lt. Qed.
(** What the invariant depends on apart from the outputs. *)
Record same_base s s' : Prop := {
  sb_ports : st_ports s' = st_ports s; sb_count : st_port_count s' = st_port_count s; sb_table : st_table s' = st_table s;
  sb_search : st_discovery s' = st_discovery s; sb_flows : length (st_flows s') = length (st_flows s);
  sb_scratch : length (st_scratch s') = length (st_scratch s); sb_asserts : st_asserts s' = st_asserts s
}.
Lemma same_base_refl s : same_base s s.
Proof. by split. Qed.
Lemma same_base_trans s1 s2 s3 : same_base s1 s2 -> same_base s2 s3 -> same_base s1 s3.
Proof. intros [] []. split; congruence. Qed.
Lemma kept_base s s' : kept s s' -> same_base s s'.
Proof. intros []. split; congruence. Qed.
Lemma wf_store_base s s' : wf_store s -> same_base s s' -> wf_outputs (st_out s') -> Forall wf_task (queued (st_out s')) ->
  (cu_active (current s') = true -> exists n, carries s' n) ->
  (wf_origin (cu_reject_origin (current s')) /\
   (cu_fan_out (current s') = true -> cu_reject_origin (current s') = ORIGIN_NONE)) -> wf_store s'.
Proof.
  intros [[] ? ? ? ? ? ? ? ? ? ?] [Hp Hc Ht Hd Hf Hs Ha] Ho Hk Hcur Hfan. unfold port_at, ports_of in *.
  split; try done; unfold port_at, ports_of in *; rewrite ?Hp, ?Hc, ?Ht, ?Hd, ?Hf, ?Hs, ?Ha; try done.
  split; by rewrite ?Hp, ?Hc, ?Ht.
Qed.
Lemma carries_same s s' n : current s' = current s -> st_scratch s' = st_scratch s -> carries s n -> carries s' n.
Proof. intros Ho Hs []. unfold content in *. split; unfold content; by rewrite ?Ho, ?Hs. Qed.
Lemma base_tasks s s' : same_base s s' -> forall t, task_left s' t = task_left s t.
Proof. intros Hb t. unfold task_left, announce_end. by rewrite (sb_table _ _ Hb), (sb_count _ _ Hb). Qed.

(** ** The next task *)

(** What writing does: an output less is left to write, and what is written has no return path. *)
Record wrote_next s s' : Prop := {
  wn_wf : wf_store s'; wn_base : same_base s s'; wn_less : (work_left s' < work_left s)%nat;
  wn_len : (ou_len (st_out s') <= ou_len (st_out s))%nat;
  wn_origin : current s' = current s \/ cu_reject_origin (current s') = ORIGIN_NONE /\ is_relay (current_kind (current s')) = false
}.
Lemma less_flow s s' index g f : same_base s s' -> queued (st_out s') = queued (st_out s) ->
  flows_of s' = alter g index (flows_of s) -> flows_of s !! index = Some f -> (flow_left s (g f) < flow_left s f)%nat ->
  (work_left s' < work_left s)%nat.
Proof.
  intros Hb Hq Hf Hi Hlt. unfold work_left. rewrite Hq, Hf.
  rewrite (list_fmap_ext (task_left s') (task_left s)) by (intros; apply base_tasks, Hb).
  rewrite (list_fmap_ext (flow_left s') (flow_left s)) by (intros; unfold flow_left; by rewrite (sb_table _ _ Hb)).
  pose proof (sum_alter_lt (flow_left s) g (flows_of s) index f Hi Hlt). lia.
Qed.
Lemma flow_index s index f : flows_of s !! index = Some f -> (index < st_port_count s)%nat.
Proof. intros Hf. apply lookup_lt_Some in Hf. unfold flows_of in Hf. rewrite length_take in Hf. lia. Qed.
Lemma stopped_waits f : flow_waits (f <| fl_pending := PendNone |>) = false.
Proof. done. Qed.
Lemma stop_flow s index f scratch c : wf_store s -> cu_active (current s) = false -> flows_of s !! index = Some f ->
  flow_waits f = true -> length scratch = length (st_scratch s) ->
  wrote_next s (set_flow (s <| st_scratch := scratch |> <| st_counters := c |>) index (fun f => f <| fl_pending := PendNone |>)).
Proof.
  intros Hw Ha Hf Hwait Hl. set (s' := set_flow _ _ _).
  assert (Hb : same_base s s') by (split; try done; cbn; by rewrite length_alter).
  split; [|done| |done|by left].
  - eapply wf_store_base; [exact Hw|done|apply Hw|apply Hw| |apply Hw]. cbn. by rewrite Ha.
  - eapply less_flow; [done|done|unfold s'; by rewrite flows_alter by (by eapply flow_index)|exact Hf|].
    unfold flow_left. rewrite Hwait, stopped_waits. lia.
Qed.
Lemma announced_last s index f limit network : last (announced_networks s index f limit) = Some network ->
  exists nr, nr ∈ table_routes (st_table s) /\ network = nr.1 /\ fl_cursor f <= nr.1.
Proof.
  intros Hl. unfold announced_networks in Hl. apply last_Some_elem_of, elem_of_take in Hl as (i & Hi & _).
  apply list_elem_of_lookup_2, list_elem_of_fmap in Hi as (nr & -> & Hin). apply list_elem_of_In, filter_In in Hin as [Hin Hc].
  exists nr. rewrite list_elem_of_In. split_and!; [done|done|]. apply andb_prop in Hc as [[Hc _]%andb_prop _]. lia.
Qed.
Lemma announced_u16 s index f limit : wf_store s -> Forall is_u16 (announced_networks s index f limit).
Proof. intros Hw. unfold announced_networks. apply Forall_take. eapply filtered_u16, Hw. Qed.
Lemma announcement_spec s : wf_store s -> cu_active (current s) = false -> ou_len (st_out s) = 0%nat ->
  match write_announcement s with
  | (s', true) => wrote_next s s'
  | (s', false) => s' = s /\ forallb (fun f => negb (flow_waits f)) (flows_of s) = true
  end.
Proof.
  intros Hw Ha Hlen0. unfold write_announcement.
  destruct (list_find _ (flows_of s)) as [[index f]|] eqn:Hfind.
  2: { split; [done|]. apply list_find_None in Hfind. apply forallb_forall. intros f Hf%list_elem_of_In.
       rewrite Forall_forall in Hfind. specialize (Hfind f Hf). by destruct (flow_waits f). }
  apply list_find_Some in Hfind as (Hf & Hwait & _). set (kind := match fl_pending f with PendAvailable => _ | _ => _ end).
  assert (Hstop : wrote_next s (set_flow s index (fun f => f <| fl_pending := PendNone |>))).
  { pose proof (stop_flow s index f (st_scratch s) (st_counters s) Hw Ha Hf Hwait eq_refl) as Hs. by destruct s. }
  cbv zeta. destruct (min_of _) as [limit|]; [|done].
  destruct (last (announced_networks s index f limit)) as [network|] eqn:Hlast; [|done].
  assert (Hk : is_u8 kind /\ message_is_proprietary kind = false) by (unfold kind; by destruct (fl_pending f)).
  pose proof (write_message_wrote (st_scratch s) kind _ _ (proj1 Hk) (proj2 Hk) (be16s_wf _ (announced_u16 s index f limit Hw))
    (networks_data (announced_networks s index f limit))) as Hwr.
  destruct (write_message _ _ _) as [scratch [len|]]; [|by apply (stop_flow s index f); [| | | |apply Hwr]].
  set (s' := set_flow _ _ _).
  assert (Hb : same_base s s') by (split; try done; cbn; [by rewrite length_alter|apply Hwr]).
  assert (Hc : carries s' (npdu_message kind (concat (map to_be16 (announced_networks s index f limit))))).
  { by apply (new_carries s' (st_scratch s) _ len (KCongestion kind) CauseLocal Normal (AllBut (Z.of_nat index)) false ORIGIN_NONE). }
  split; [|done| |done|by right].
  - eapply wf_store_base; [exact Hw|done|apply Hw|apply Hw| |split; [apply no_origin_wf|done]]. by eexists.
  - eapply less_flow; [done|done|unfold s'; by rewrite flows_alter by (by eapply flow_index)|exact Hf|].
    destruct (announced_last _ _ _ _ _ Hlast) as (nr & Hin & -> & Hcur). unfold flow_left.
    change (flow_waits (f <| fl_cursor := nr.1 + 1 |>)) with (flow_waits f). rewrite Hwait. cbn.
    pose proof (routes_from_after _ _ _ Hin Hcur). lia.
Qed.
Lemma task_output_kind s t : match (task_output s t).2.2 with Some (_, kind, _, _) => is_relay kind = false | None => True end.
Proof.
  unfold task_output. cbv zeta. destruct (tk_kind t); try done.
  - destruct (negb _); [by destruct (write_message _ _ _)|]. destruct (answer_networks _ _); [done|]. by destruct (write_message _ _ _).
  - destruct (_ && _); [done|]. by destruct (write_message _ _ _).
  - by destruct (write_number_is _ _).
  - destruct (next_announcement _ _ _) as [scratch [[cursor len]|]]; [|done]. cbn. by destruct (_ =? 0).
  - destruct (next_announcement _ _ _) as [scratch [[cursor len]|]]; [|done]. cbn. by destruct (_ =? 0).
Qed.
(** Moving the queue on past its front task. *)
Lemma less_task s s' t rest next : same_base s s' -> flows_of s' = flows_of s -> queued (st_out s) = t :: rest ->
  queued (st_out s') = match next with Some c => t <| tk_cursor := c |> :: rest | None => rest end ->
  match next with Some c => (task_left s (t <| tk_cursor := c |>) < task_left s t)%nat | None => True end ->
  (work_left s' < work_left s)%nat.
Proof.
  intros Hb Hf Hq Hq' Hn. unfold work_left. rewrite Hq, Hq', Hf.
  rewrite (list_fmap_ext (flow_left s') (flow_left s)) by (intros; unfold flow_left; by rewrite (sb_table _ _ Hb)).
  rewrite (list_fmap_ext (task_left s') (task_left s)) by (intros; apply base_tasks, Hb).
  destruct next; cbn -[task_left]; [lia|]. assert (0 < task_left s t)%nat by (unfold task_left; lia). lia.
Qed.
Lemma moved_queue o t rest (next : option Z) : wf_outputs o -> queued o = t :: rest -> Forall wf_task (queued o) ->
  match next with Some c => 0 <= c | None => True end ->
  let o' := match next with Some c => outputs_advance o c | None => outputs_pop o end in
  queued o' = match next with Some c => t <| tk_cursor := c |> :: rest | None => rest end /\ wf_outputs o' /\
  ou_current o' = ou_current o /\ Forall wf_task (queued o') /\ (ou_len o' <= ou_len o)%nat.
Proof.
  intros Ho Hq Hf Hn. cbv zeta. pose proof (queued_length o Ho) as Hl. rewrite Hq in Hf, Hl. apply Forall_cons in Hf as [[] Hr].
  destruct next as [c|].
  - destruct (advance_queued o t rest c Ho Hq) as (Hq' & Ho' & Hc). rewrite <-(queued_length _ Ho'), Hq'.
    split_and!; try done; [by constructor; [split|]|cbn in *; lia].
  - destruct (pop_queued o t rest Ho Hq) as (Hq' & Ho' & Hc). rewrite <-(queued_length _ Ho'), Hq'. split_and!; try done. cbn in Hl. lia.
Qed.
Lemma write_task_spec s : wf_store s -> cu_active (current s) = false ->
  match write_task s with
  | (s', true) => wrote_next s s'
  | (s', false) => s' = s /\ ou_len (st_out s) = 0%nat /\ forallb (fun f => negb (flow_waits f)) (flows_of s) = true
  end.
Proof.
  intros Hw Ha. unfold write_task. destruct (outputs_front (st_out s)) as [t|] eqn:Hfront.
  2: { pose proof (front_none _ (wi_outputs s Hw) Hfront) as H1. pose proof (announcement_spec s Hw Ha H1) as Hs.
       destruct (write_announcement s) as [s' []]; [done|]. by destruct Hs. }
  destruct (front_queued _ _ Hfront) as [rest Hq].
  assert (Ht : wf_task t) by (pose proof (wi_tasks s Hw) as Hall; rewrite Hq in Hall; by apply Forall_cons in Hall as [? _]).
  pose proof (task_output_spec s t (wi_source s Hw) Ht) as Hs. pose proof (task_output_kind s t) as Hkind. destruct (task_output s t) as [scratch [next output]].
  destruct Hs as (Hl & Hnext & Hout).
  assert (Hc : match next with Some c => 0 <= c | None => True end) by (destruct next; [apply Hnext|done]).
  assert (Hless : match next with Some c => (task_left s (t <| tk_cursor := c |>) < task_left s t)%nat | None => True end) by (destruct next; [apply Hnext|done]).
  set (s1 := match output with Some _ => _ | None => _ end).
  assert (Hs1 : same_base s s1 /\ flows_of s1 = flows_of s /\ queued (st_out s1) = queued (st_out s) /\ wf_outputs (st_out s1) /\
    ou_len (st_out s1) = ou_len (st_out s) /\
    (cu_active (current s1) = true -> exists n, carries s1 n) /\
    (current s1 = current s \/ cu_reject_origin (current s1) = ORIGIN_NONE /\ is_relay (current_kind (current s1)) = false)).
  { pose proof (wi_outputs s Hw) as Ho. destruct output as [[[[[len|] kind] cause] target]|].
    - destruct Hout as [n Hn]. split_and!; try done; [|right; split; [by destruct target|destruct target; by destruct kind]]. intros _. exists n.
      by apply (new_carries s1 (st_scratch s) n len kind cause Normal target (bool_decide (tk_kind t = TkTableAck)) ORIGIN_NONE); [|destruct target].
    - split_and!; try done; [|by left]. cbn. by rewrite Ha.
    - split_and!; try done; [|by left]. cbn. by rewrite Ha. }
  destruct Hs1 as (Hb & Hflow & Hq1 & Ho1 & Hlen1 & Hc1 & Horg). clearbody s1.
  assert (Hq2 : queued (st_out s1) = t :: rest) by by rewrite Hq1.
  destruct (moved_queue (st_out s1) t rest next Ho1 Hq2) as (Hq' & Ho' & Hcur & Ht' & Hlen); [by rewrite Hq1; apply Hw|done|].
  set (s2 := s1 <| st_out ::= _ |>). assert (Hb2 : same_base s s2) by (eapply same_base_trans; [exact Hb|by split]).
  assert (Hcur2 : current s2 = current s1) by exact Hcur.
  split.
  - eapply wf_store_base; [exact Hw|done|exact Ho'|exact Ht'| |].
    2: { rewrite Hcur2. destruct Horg as [->|[E _]]; [apply Hw|]. rewrite E. split; [apply no_origin_wf|done]. }
    rewrite Hcur2. intros Hact. destruct (Hc1 Hact) as [n Hn].
    exists n. destruct Hn. split; unfold content in *; by rewrite ?Hcur2.
  - done.
  - by eapply less_task.
  - cbn in Hlen |- *. lia.
  - by rewrite Hcur2.
Qed.

(** ** Polling *)

(** The sends left to poll, at most: a bound that falls with each. *)
Definition polls_left s : nat := (work_left s * (st_port_count s + 2) + sends_left (st_port_count s) (current s))%nat.
Lemma sends_left_le P (c : Current) : (sends_left P c <= P + 1)%nat.
Proof. unfold sends_left. destruct (cu_active c), (cu_fan_out c); try case_bool_decide; lia. Qed.
Record polled s s' (sd : Send) : Prop := {
  po_wf : wf_store s'; po_base : same_base s s'; po_fewer : (polls_left s' < polls_left s)%nat;
  po_len : (ou_len (st_out s') <= ou_len (st_out s))%nat;
  po_origin : cu_reject_origin (current s') = ORIGIN_NONE \/
              cu_active (current s) = true /\ cu_reject_origin (current s') = cu_reject_origin (current s);
  po_done : cu_active (current s') && negb (cu_fan_out (current s')) = false;
  po_kind : sd_kind sd = current_kind (current s');
  po_relay : is_relay (sd_kind sd) = true -> has_more (current s) (st_port_count s) = true /\ current_kind (current s) = sd_kind sd /\
    forall n, carries s n -> cu_tail (current s) = 0%nat ->
      sd_npdu sd = npdu_octets n /\ carries s' n /\ cu_tail (current s') = 0%nat;
  po_npdu : exists n, good n /\ sd_npdu sd = npdu_octets n;
  po_fits : exists config, port_at s (sd_port sd) = Some config /\
    Z.of_nat (length (sd_npdu sd)) <= limits_get (pc_max_npdu config) (match sd_to sd with ToBroadcast => true | _ => false end)
}.
Record drained s s' : Prop := {
  dr_wf : wf_store s'; dr_base : same_base s s'; dr_inactive : cu_active (current s') = false;
  dr_len : ou_len (st_out s') = 0%nat; dr_flows : forallb (fun f => negb (flow_waits f)) (flows_of s') = true
}.
Lemma kept_wf s s' : wf_store s -> kept s s' -> (cu_active (current s') = true -> exists n, carries s' n) -> wf_store s'.
Proof.
  intros Hw Hk Hc. pose proof (wi_outputs s Hw) as Ho. pose proof (wi_tasks s Hw) as Ht.
  eapply wf_store_base; [exact Hw|by apply kept_base| | |done|]; unfold wf_outputs, queued in *;
    try (by rewrite (kp_tasks _ _ Hk), (kp_len _ _ Hk)). rewrite (kp_fan _ _ Hk), (kp_origin _ _ Hk). apply Hw.
Qed.
Lemma kept_work s s' : kept s s' -> work_left s' = work_left s.
Proof.
  intros Hk. unfold work_left, queued, flows_of. rewrite (kp_tasks _ _ Hk), (kp_len _ _ Hk), (kp_flows _ _ Hk), (kp_count _ _ Hk).
  rewrite (list_fmap_ext (task_left s') (task_left s)) by (intros; apply base_tasks, kept_base, Hk).
  by rewrite (list_fmap_ext (flow_left s') (flow_left s)) by (intros; unfold flow_left; by rewrite (kp_table _ _ Hk)).
Qed.
(** The marks a poll leaves of the send it yields. *)
Definition marked s (port : PortId) : Storage G :=
  s <| st_out ::= fun o => o <| ou_last_table_ack := cu_table_ack (ou_current o) |> <| ou_last_port := port |> |>.
Lemma kept_refl s : kept s s.
Proof. by split. Qed.
Lemma kept_marked s s' port : kept s s' -> kept s (marked s' port).
Proof. intros []. by split. Qed.
Lemma next_target_wf s : wf_store s ->
  match next_target s with
  | (s', Some (port, b)) => polled s (marked s' port) (current_send (marked s' port) port b)
  | (s', None) => wf_store s' /\ kept s s' /\ cu_active (current s') = false
  end.
Proof.
  intros Hw. destruct (cu_active (current s)) eqn:Ha.
  2: { unfold next_target. rewrite Ha. cbn. split_and!; [done|apply kept_refl|done]. }
  destruct (wi_current s Hw Ha) as [n Hn]. pose proof (next_target_spec s n Ha Hn) as Ht.
  destruct (next_target s) as [s' [[port b]|]] eqn:Hnt.
  2: { destruct Ht as [Hk Hi]. split_and!; [|done|done]. apply (kept_wf s); [done|done|by rewrite Hi]. }
  destruct Ht as [Hk (n' & Hn' & _) (config & Hc & Hl) Hf Hmore _ Hdone]. pose proof (kept_marked s s' port Hk) as Hk'.
  pose proof (carries_same s' (marked s' port) n' eq_refl eq_refl Hn') as Hm. split.
  - apply (kept_wf s); [done|done|by exists n'].
  - by apply kept_base.
  - unfold polls_left. rewrite (kept_work s) by done. rewrite (kp_count _ _ Hk'). change (current (marked s' port)) with (current s'). lia.
  - by rewrite (kp_len _ _ Hk').
  - right. by rewrite (kp_origin _ _ Hk').
  - done.
  - done.
  - intros _. split; [done|]. split; [by rewrite <-(kp_kind _ _ Hk')|]. intros n0 Hn0 Htl. pose proof (next_target_spec s n0 Ha Hn0) as Ht. rewrite Hnt in Ht.
    destruct Ht as [_ (n1 & Hn1 & [->|[? _]]) _ _ _ Htail _]; [|done]. split_and!; [exact (ca_content _ _ Hn1)|by apply (carries_same s')|by apply Htail].
  - exists n'. split; [apply Hm|exact (ca_content _ _ Hm)].
  - exists config. split; [done|]. cbn [sd_npdu sd_to current_send]. destruct b; exact Hl.
Qed.
Lemma poll_loop_spec fuel : forall s, wf_store s -> (work_left s <= fuel)%nat ->
  match poll_loop fuel s with (s', ActSend sd) => polled s s' sd | (s', ActIdle) => drained s s' end.
Proof.
  induction fuel as [|fuel IH]; intros s Hw Hf; cbn [poll_loop]; pose proof (next_target_wf s Hw) as Ht;
    destruct (next_target s) as [s1 [[port b]|]]; try exact Ht; destruct Ht as (Hw1 & Hk & Hi);
    pose proof (write_task_spec s1 Hw1 Hi) as Hs; destruct (write_task s1) as [s2 []];
    try (destruct Hs as (-> & Hlen & Hfl); by split; [|apply kept_base| | |]).
  { pose proof (wn_less _ _ Hs) as Hless. rewrite (kept_work s s1 Hk) in Hless. lia. }
  specialize (IH s2 (wn_wf _ _ Hs)). pose proof (wn_less _ _ Hs) as Hless. rewrite (kept_work s s1 Hk) in Hless.
  specialize (IH ltac:(lia)). assert (Hb : same_base s s2) by (eapply same_base_trans; [by apply kept_base|apply Hs]).
  destruct (poll_loop fuel s2) as [s' [sd|]].
  - destruct IH as [Hw' Hb' Hfew Hl Ho Hdone Hkd Hrel Hn Hfit]. split; [done|by eapply same_base_trans| | | |done|done| |done|].
    + pose proof (sends_left_le (st_port_count s2) (current s2)) as Hle. unfold polls_left in Hfew |- *.
      rewrite (sb_count _ _ Hb'), (sb_count _ _ Hb) in *. nia.
    + pose proof (wn_len _ _ Hs). rewrite (kp_len _ _ Hk) in *. lia.
    + destruct Ho as [Ho|[Ha Ho]]; [by left|]. destruct (wn_origin _ _ Hs) as [E|[E _]]; [congruence|left; congruence].
    + intros Hr. destruct (Hrel Hr) as (Ha2 & Hk2 & _). destruct (wn_origin _ _ Hs) as [E|[_ E]]; [|congruence].
      unfold has_more in Ha2. by rewrite E, Hi in Ha2.
    + destruct Hfit as (config & Hc & Hl'). exists config. split; [|done].
      unfold port_at, ports_of in *. by rewrite <-(sb_ports _ _ Hb), <-(sb_count _ _ Hb).
  - destruct IH as [Hw' Hb' Hi' Hl Hfl]. split; try done. by eapply same_base_trans.
Qed.
Lemma sum_list_bound {A} (g : A -> nat) (l : list A) b : Forall (fun x => (g x <= b)%nat) l -> (sum_list (g <$> l) <= length l * b)%nat.
Proof. induction 1 as [|x l Hx _ IH]; [done|]. cbn. lia. Qed.
Lemma work_fuel s : wf_store s -> (work_left s <= poll_fuel s)%nat.
Proof.
  intros Hw. pose proof (ws_table s (wi_source s Hw)) as [Ht _].
  assert (Htask : (sum_list (task_left s <$> queued (st_out s)) <= length (queued (st_out s)) * (tl_len (st_table s) + 2 * st_port_count s + 2))%nat).
  { apply sum_list_bound. eapply Forall_impl; [apply (wi_tasks s Hw)|]. intros t [_ _ _ _ Hc]. unfold task_left, announce_end.
    pose proof (routes_from_le (st_table s) (tk_cursor t) Ht). destruct (tk_kind t); lia. }
  assert (Hflow : (sum_list (flow_left s <$> flows_of s) <= length (flows_of s) * (tl_len (st_table s) + 1))%nat).
  { apply sum_list_bound, Forall_forall. intros f _. unfold flow_left. pose proof (routes_from_le (st_table s) (fl_cursor f) Ht).
    destruct (flow_waits f); lia. }
  assert (Hp : (length (flows_of s) <= st_port_count s)%nat) by (unfold flows_of; rewrite length_take; lia).
  rewrite (queued_length _ (wi_outputs s Hw)) in Htask. unfold work_left, poll_fuel. nia.
Qed.
Lemma poll_spec s : wf_store s -> match poll s with (s', ActSend sd) => polled s s' sd | (s', ActIdle) => drained s s' end.
Proof. intros Hw. apply poll_loop_spec; [done|by apply work_fuel]. Qed.
(** More rounds would change nothing. *)
Lemma poll_loop_more extra fuel : forall s, wf_store s -> (work_left s <= fuel)%nat -> poll_loop (fuel + extra) s = poll_loop fuel s.
Proof.
  induction fuel as [|fuel IH]; intros s Hw Hf.
  - cbn [Nat.add]. destruct extra as [|extra]; [done|]. cbn [poll_loop]. pose proof (next_target_wf s Hw) as Ht.
    destruct (next_target s) as [s1 [[port b]|]]; [done|]. destruct Ht as (Hw1 & Hk & Hi).
    pose proof (write_task_spec s1 Hw1 Hi) as Hs. destruct (write_task s1) as [s2 []]; [|done].
    pose proof (wn_less _ _ Hs) as Hless. rewrite (kept_work s s1 Hk) in Hless. lia.
  - cbn [Nat.add poll_loop]. pose proof (next_target_wf s Hw) as Ht.
    destruct (next_target s) as [s1 [[port b]|]]; [done|]. destruct Ht as (Hw1 & Hk & Hi).
    pose proof (write_task_spec s1 Hw1 Hi) as Hs. destruct (write_task s1) as [s2 []]; [|done].
    pose proof (wn_less _ _ Hs) as Hless. rewrite (kept_work s s1 Hk) in Hless. apply IH; [apply Hs|lia].
Qed.
End Inv.
