(* ===== verification/RouterRun.v ===== *)
(** * The calls into a router keep its state well-formed

    Each call of the router's interface from a well-formed state ends in one, with no debug assertion fired. *)

From stdpp Require Import relations.
From S2P Require Import Prelude Time Npdu Arrays RouteTable RouteTheorems RouteSafety Discovery RouterMessage.
From S2P Require Import RouterGroups RouterData RouterOutput RouterEngine RouterLogic RouterEmits RouterHandlers.
From S2P Require Import RouterPoll RouterTasks RouterInv.
Open Scope Z_scope.

(** ** Addresses read from a frame *)

Definition wf_option_address (a : option Address) : Prop := forall x, a = Some x -> wf_address x.
Lemma wf_none : wf_option_address None.
Proof. by intros x. Qed.
Lemma octets_wf frame pos len x : wf_bytes frame -> octets frame pos len = Ok x -> wf_bytes x.
Proof. unfold octets. intros Hw. destruct (slice_get _ _ _) eqn:E; [|done]. intros [= <-]. by eapply slice_get_wf. Qed.
Lemma source_behind_wf frame pos : wf_bytes frame -> wf_option_address (source_behind frame pos).
Proof.
  intros Hw a. unfold source_behind. destruct (network_and_length frame pos) as [[nw len]|] eqn:E; [|done].
  apply network_and_length_inv in E as (_ & Hn & _); [|done]. destruct (_ || _); [done|]. destruct (_ <? _); [done|].
  destruct (octets frame (pos + 3) len) as [m|] eqn:Em; [|done]. intros [= <-]. split; [done|]. by eapply octets_wf.
Qed.
(** The addresses reported with an address that is too long. *)
Lemma too_long_wf frame field len dnet src : wf_bytes frame -> npdu_decode frame = Err (AddressTooLong field len dnet src) ->
  (forall d, dnet = Some d -> is_u16 d) /\ wf_option_address src.
Proof.
  intros Hw. unfold npdu_decode. destruct frame as [|v [|c t]] eqn:Hf; try done. rewrite <-Hf in *. destruct (negb _); [done|].
  destruct (decode_destination frame c 2) as [[d p1]|e] eqn:E1; cbn [rbind].
  - apply decode_destination_inv in E1 as (_ & _ & _ & Hd & _); [|done].
    destruct (decode_source frame c d p1) as [[s p2]|e] eqn:E2; cbn [rbind].
    + destruct (decode_hop_count frame d p2) as [[h p3]|e] eqn:E3; cbn [rbind].
      * destruct (decode_message frame c p3) as [[[k vd] p4]|e] eqn:E4; cbn [rbind]; [done|]. intros [= ->]. revert E4.
        unfold decode_message. destruct (_ =? 0); [done|]. destruct (frame !! p3); [|done]. cbn. destruct (message_is_proprietary _); [|done].
        destruct (octets frame (S p3) 2) as [[|? [|? []]]|]; done.
      * intros [= ->]. revert E3. unfold decode_hop_count. destruct d; [|done]. by destruct (frame !! p2).
    + intros [= ->]. revert E2. unfold decode_source. destruct (_ =? 0); [done|].
      destruct (network_and_length frame p1) as [[nw l]|]; [|done]. cbn. destruct (_ || _); [done|]. destruct (l =? 0); [done|].
      destruct (_ <? l); [intros [= <- <- <- <-]|by destruct (octets frame (p1 + 3) l)]. split; [|by intros x].
      destruct d as [a|]; [|done]. intros x [= <-]. by apply Hd.
  - intros [= ->]. revert E1. unfold decode_destination. destruct (_ =? 0); [done|].
    destruct (network_and_length frame 2) as [[nw l]|] eqn:En; [|done]. cbn. apply network_and_length_inv in En as (_ & Hn & _); [|done].
    destruct (nw =? 0); [done|]. destruct (_ <? l); [|by destruct (octets frame _ l)]. intros [= <- <- <- <-].
    split; [by intros x [= <-]|]. destruct (negb _); [by apply source_behind_wf|by intros x].
Qed.

Section Run.
Context {G : Type} `{GroupClassifier G} {Hst : Type} `{Host Hst}.
Implicit Types (s : Storage G) (n : Npdu) (arr : Arrival) (t : Task).
Abbreviation current s := (ou_current (st_out s)).

(** ** What a frame draws is well-formed *)

Lemma plain_task_wf kind port network cursor m : is_u16 network -> 0 <= cursor ->
  wf_task ((task_of kind port) <| tk_network := network |> <| tk_cursor := cursor |> <| tk_to := m |>).
Proof. intros Hn Hc. split; cbn; try done; by vm_compute; repeat constructor. Qed.
Lemma reject_origin_wf s arr org network o : reject_origin s arr org network = Some o -> wf_option_address org ->
  is_u16 network -> wf_origin o.
Proof.
  intros Hr Ho Hn. assert (Hz : is_u16 0) by by vm_compute.
  assert (Hplain : forall port mac, wf_origin (reject_origin_new port mac None network)) by (intros; split; cbn; try done; apply empty_mac_wf).
  unfold reject_origin in Hr. destruct org as [a|]; [|injection Hr as <-; apply Hplain].
  destruct (is_own s a); [done|]. destruct (list_find _ _) as [[i p]|]; [injection Hr as <-; apply Hplain|]. injection Hr as <-.
  destruct (Ho a eq_refl) as [Ha Hm]. split; cbn; try done. by apply mac_or_empty_wf.
Qed.
Lemma rejects_wf s arr org network reason : wf_option_address org -> is_u16 network -> is_u8 reason ->
  Forall wf_task (rejects s arr org network reason) /\ (length (rejects s arr org network reason) <= 1)%nat.
Proof.
  intros Ho Hn Hr. unfold rejects. destruct (reject_origin s arr org network) as [o|] eqn:E; [|by repeat constructor].
  split; [|done]. constructor; [|constructor]. apply origin_task_wf; [|done]. by eapply reject_origin_wf.
Qed.
(** The sender's own address, as a source. *)
Record wf_arrival arr : Prop := { wa_network : is_u16 (at_network arr); wa_source : wf_bytes (at_source arr) }.
Lemma dnet_u16 n : wf_npdu n -> is_u16 (dnet_of n).
Proof. intros (Hd & _). unfold dnet_of. destruct (destination n) as [d|]; [|by vm_compute]. by apply (Hd d). Qed.
Lemma source_wf n : wf_npdu n -> wf_option_address (source n).
Proof. intros (_ & Hs & _). exact Hs. Qed.
Lemma source_of_wf arr n : wf_arrival arr -> wf_npdu n -> wf_option_address (source_of arr n).
Proof.
  intros Ha Hn. unfold source_of. pose proof (source_wf n Hn) as Hs. destruct (source n) as [a|]; intros x [= <-]; [by apply Hs|].
  split; apply Ha.
Qed.
Lemma who_is_u16 octets network : wf_bytes octets -> who_is_router_parse octets = Ok (WhoIsNetwork network) -> is_u16 network.
Proof.
  intros Hw. destruct octets as [|a [|b []]]; try done. intros [= <-]. apply Forall_cons in Hw as [Ha [Hb _]%Forall_cons].
  by apply from_be16_u16.
Qed.
Lemma rewrite_wf arr n n1 route : wf_npdu n -> wf_arrival arr -> regrouped n n1 -> hop_count n <> 0 -> wf_npdu (rewrite arr n1 route).1.
Proof.
  intros Hn Ha Hre Hh. assert (Hn1 : wf_npdu n1 /\ hop_count n1 = hop_count n).
  { pose proof (dnet_u16 n Hn) as Hdn. destruct Hre as [->| ->]; [done|]. destruct Hn as (? & ? & ? & ? & ? & ?). split; [|done].
    split_and!; cbn; try done. intros d [= <-]. split; [done|constructor]. }
  destruct Hn1 as [Hn1 Eh]. pose proof (source_of_wf arr n1 Ha Hn1) as Hs. destruct Hn1 as (Hd & _ & Hc & Hk & Hv & Hp). rewrite <-Eh in Hh.
  unfold rewrite. destruct (rt_direct route); split_and!; cbn; try done; width.
Qed.
Definition wf_written (w : option Written) : Prop :=
  match w with Some (n, _, target, o) => wf_npdu n /\ wf_origin o /\ (forall p, target = AllBut p -> o = ORIGIN_NONE) | None => True end.
Lemma allowed_wf s arr n ts w : allowed s arr n ts w -> wf_npdu n -> wf_arrival arr ->
  Forall wf_task ts /\ (length ts <= 2)%nat /\ wf_written w /\ (w <> None -> ts = []).
Proof.
  intros Ha Hn Hw. pose proof Hn as (Hd & Hs & Hh & Hk & Hv & Hp). pose proof (dnet_u16 n Hn) as Hdn.
  assert (Hone : forall t, wf_task t -> Forall wf_task [t] /\ (length [t] <= 2)%nat /\ wf_written None /\ (@None Written <> None -> [t] = [])).
  { intros t Ht. split_and!; [by constructor|cbn; lia|done|done]. }
  assert (Hz : is_u16 0) by by vm_compute.
  destruct Ha as [|search reason Hwhy _ _ _| | |network route _ Hpar _ _| | | |route n1 n' to egress _ Hdst _ Hre Hfw Hh0 Hh1 _ _|_ _ _ Hh1 _|network|kind Hkind _].
  - split_and!; [constructor|cbn; lia|done|done].
  - destruct (rejects_wf s arr (source n) (dnet_of n) reason (source_wf n Hn) Hdn) as [Hf Hl].
    { destruct Hwhy; by vm_compute. }
    rewrite length_app. assert (Hsw : Forall wf_task search /\ (length search <= 1)%nat).
    { destruct Hwhy as [search _ [->| ->]| | |]; try by repeat constructor. split; [|done]. constructor; [|constructor].
      by apply (plain_task_wf TkSolicit (at_port arr) (dnet_of n) 0 MAC_EMPTY). }
    destruct Hsw. split_and!; [by apply Forall_app|lia|done|done].
  - destruct (rejects_wf s arr (source n) 0 UNKNOWN_MESSAGE_TYPE (source_wf n Hn)) as [Hf Hl]; [done|by vm_compute|].
    split_and!; [done|lia|done|done].
  - apply Hone, (plain_task_wf TkIAmAnswer (at_port arr) 0 0 MAC_EMPTY); done.
  - apply Hone, (plain_task_wf TkIAmAnswer (at_port arr) network 0 MAC_EMPTY); [|done]. by eapply who_is_u16.
  - apply Hone, (plain_task_wf TkTableAck (at_port arr) 0 0 (at_source_mac arr)); done.
  - apply Hone, (plain_task_wf TkUpdateAck (at_port arr) 0 0 (at_source_mac arr)); done.
  - apply Hone, (plain_task_wf TkNumberIs (at_port arr) 0 0 MAC_EMPTY); done.
  - split_and!; [constructor|cbn; lia| |done]. cbn. apply regroups_regrouped in Hre. split_and!; [| |done].
    { rewrite (regrouped_rewrite arr n n1 route n' to) by done. by apply (rewrite_wf arr n). }
    destruct (bool_decide _); [apply no_origin_wf|]. destruct (reject_origin s arr (source n) (dnet_of n)) as [o|] eqn:Eo; [|apply no_origin_wf].
    by eapply reject_origin_wf; [exact Eo|apply source_wf|].
  - split_and!; [constructor|cbn; lia| |done]. split; [|split; [apply no_origin_wf|done]]. split_and!; cbn; try done; [by apply source_of_wf|width].
  - split_and!; [constructor|cbn; lia| |done]. split; [|split; [apply no_origin_wf|done]]. split_and!; cbn; try done. replace (Some (origin arr n)) with (source_of arr n).
    + by apply source_of_wf.
    + unfold source_of, origin. by destruct (source n).
  - split_and!; [constructor|cbn; lia| |done]. split; [|split; [apply no_origin_wf|done]]. split_and!; cbn; try done. intros k [= <-]. by apply Hk.
Qed.

(** ** A reception *)

Lemma written_carries s s' n kind target o : wf_npdu n -> npdu_encode_into n (st_scratch s) = (st_scratch s', Ok (encoded_len n)) ->
  current s' = current_for (n, kind, target, o) -> carries s' n.
Proof.
  intros Hn He Hc. pose proof (encode_wrote (st_scratch s) n Hn) as Hw. rewrite He in Hw.
  apply (new_carries s' (st_scratch s) n (encoded_len n) kind CauseIngress (priority n) target false o); [exact Hw|]. rewrite Hc.
  unfold current_for. by destruct target.
Qed.
Lemma emits_wf s s' ts w : wf_store s -> emits s s' ts w -> Forall wf_task ts -> (ou_len (st_out s) + length ts <= QUEUE)%nat ->
  wf_written w -> wf_store s'.
Proof.
  intros Hw He Hts Hlen Hwr. pose proof (wi_source s Hw) as [Hports Hcount Htable].
  destruct (evolves_ok _ _ _ (em_table _ _ _ _ He) Htable) as (Ht' & Hd & _).
  assert (Hscr : length (st_scratch s') = length (st_scratch s)).
  { pose proof (em_current _ _ _ _ He) as Hc. destruct w as [[[[n k] tg] o]|]; [|by destruct Hc as [_ ->]].
    destruct Hc as [Henc _]. by destruct (written_len _ _ _ _ Henc). }
  assert (Hq : queued (st_out s') = queued (st_out s) ++ ts) by exact (em_waiting _ _ _ _ He).
  pose proof (proj1 (emits_same_ports _ _ _ _ He)) as Hpo.
  split.
  - split; by rewrite ?(em_ports _ _ _ _ He), ?(em_count _ _ _ _ He).
  - rewrite (em_ports _ _ _ _ He), (em_count _ _ _ _ He). apply Hw.
  - rewrite (em_ports _ _ _ _ He), (em_flows _ _ _ _ He). apply Hw.
  - intros p config. rewrite (proj2 (emits_same_ports _ _ _ _ He)), Hscr. apply Hw.
  - intros i config. rewrite Hpo. intros Hi. apply Hd; [done|]. by apply Hw.
  - apply (em_search _ _ _ _ He), Hw.
  - pose proof (wi_outputs s Hw) as [Ha _]. split; [by rewrite (em_array _ _ _ _ He)|]. by rewrite (em_len _ _ _ _ He).
  - rewrite Hq. apply Forall_app. split; [apply Hw|done].
  - intros Hact. pose proof (em_current _ _ _ _ He) as Hc. destruct w as [[[[n k] tg] o]|].
    + destruct Hc as [Henc Hc]. exists n. destruct Hwr. by eapply written_carries.
    + destruct Hc as [Hc Hs]. rewrite Hc in Hact. destruct (wi_current s Hw Hact) as [n Hn]. exists n. by eapply carries_same.
  - pose proof (em_current _ _ _ _ He) as Hc. destruct w as [[[[n k] tg] o]|]; destruct Hc as [Hx Hc].
    + rewrite Hc. destruct Hwr as (_ & Ho & Hall). split; [by destruct tg|]. intros Hfan. destruct tg as [| | |p]; try done. by apply (Hall p).
    + rewrite Hx. apply Hw.
  - rewrite (em_asserts _ _ _ _ He). apply Hw.
Qed.
Lemma drop_base s : same_base s (drop_undrained s).
Proof.
  unfold drop_undrained. cbv zeta. assert (Hl : length (((fun f => (flow_take_pending f).1) <$> take (st_port_count s) (st_flows s))
    ++ drop (st_port_count s) (st_flows s)) = length (st_flows s)).
  { rewrite length_app, length_fmap, length_take, length_drop. lia. }
  case_bool_decide; by split.
Qed.
Lemma drop_wf s : wf_store s -> wf_store (drop_undrained s) /\ ready (drop_undrained s).
Proof.
  intros Hw. pose proof (wi_outputs s Hw) as Ho. split; [|by apply drop_ready, Hw].
  eapply wf_store_base; [exact Hw|apply drop_base| | | |]; unfold drop_undrained; cbv zeta; case_bool_decide.
  - by split; vm_compute; repeat constructor.
  - done.
  - constructor.
  - apply Hw.
  - done.
  - intros Ha. destruct (wi_current s Hw Ha) as [n Hn]. exists n. by apply (carries_same s).
  - split; [apply no_origin_wf|done].
  - apply Hw.
Qed.
Lemma clock_wf s now : wf_store s -> wf_store (clock s now).
Proof.
  intros Hw. eapply wf_store_base; [exact Hw|by split|apply Hw|apply Hw| |apply Hw]. intros Ha.
  destruct (wi_current s Hw Ha) as [n Hn]. exists n. by apply (carries_same s).
Qed.
(** The parts of a frame are of their types' widths. *)
Definition wf_frame (f : Frame) : Prop := 0 <= fm_port f /\ wf_bytes (fm_source f) /\ wf_bytes (fm_npdu f).
Lemma drawn_wf s frame now ts w : wf_store s -> wf_frame frame -> drawn s frame now ts w ->
  Forall wf_task ts /\ (length ts <= 2)%nat /\ wf_written w /\ (w <> None -> ts = []).
Proof.
  intros Hw (Hp & Hsrc & Hn) Hd. unfold drawn, arrives in Hd. destruct (port_at s (fm_port frame)) as [config|] eqn:Hport.
  2: { destruct Hd as [-> ->]. split_and!; [constructor|cbn; lia|done|done]. }
  assert (Hnet : is_u16 (pc_network config)).
  { pose proof (Forall_take _ (st_port_count s) _ (ws_ports s (wi_source s Hw))) as Hf.
    by apply (proj1 (Forall_forall _ _) Hf config (list_elem_of_lookup_2 _ _ _ Hport)). }
  destruct (admit_source (fm_source frame)) as [mac|]; [|destruct Hd as [-> ->]; split_and!; [constructor|cbn; lia|done|done]].
  destruct (admit_npdu (fm_npdu frame)) as [n|refused] eqn:Ha.
  - destruct (admitted _ _ Hn Ha) as (_ & Hwf & _). by eapply allowed_wf; [exact Hd|done|split].
  - destruct Hd as [-> Hts]. destruct Hts as [->|(dnet & src & Hto & _ & ->)]; [split_and!; [constructor|cbn; lia|done|done]|].
    assert (Hwf : is_u16 dnet /\ wf_option_address src).
    { revert Ha. unfold admit_npdu. destruct (npdu_decode (fm_npdu frame)) as [n|[f l d sr|f]] eqn:E.
      - destruct (destination n); [|done]. destruct (_ && _); [by intros [= <-]|]. destruct (_ && _); [by intros [= <-]|done].
      - intros [= <-]. cbn in Hto. injection Hto as -> ->. apply too_long_wf in E as [Hdn Hs]; [|done]. split; [by apply Hdn|done].
      - by intros [= <-]. }
    destruct (rejects_wf s {| at_port := fm_port frame; at_network := pc_network config; at_source := fm_source frame; at_source_mac := mac;
      at_link_group := fm_link_group frame; at_now := now |} src dnet ADDRESSING_ERROR) as [Hf Hl]; [apply Hwf|apply Hwf|by vm_compute|].
    split_and!; [done|lia|done|done].
Qed.
(** A reception: what it draws, and the state it ends in. *)
Record received s frame now s' (ts : list Task) (w : option Written) : Prop := {
  rv_wf : wf_store s'; rv_emits : emits (drop_undrained s) s' ts w; rv_drawn : drawn (drop_undrained s) frame now ts w;
  rv_few : (length ts <= 2)%nat; rv_own : w <> None -> ts = []
}.
Lemma frame_received frame now opt s (h : Hst) : wf_store s -> wf_frame frame ->
  exists ts w, received s frame now (store_receive frame now opt s h).1.1 ts w.
Proof.
  intros Hw Hf. destruct (drop_wf s Hw) as [Hw0 Hr0]. pose proof Hf as (Hp & _ & Hn).
  pose proof (receive_wp frame now opt s h (proj1 (wi_outputs s Hw)) Hp Hn) as (ts & w & He & Hd).
  destruct (drawn_wf _ _ _ _ _ Hw0 Hf Hd) as (Hts & Hl & Hwr & Hown). exists ts, w. split; try done. eapply emits_wf; try done.
  rewrite (ready_len _ Hr0). unfold QUEUE. lia.
Qed.

(** ** A request of the router's own *)

Definition wf_request (req : Request) : Prop := wf_address (rq_destination req) /\ wf_bytes (rq_apdu req).
(** What a request changes: at most a search queued, or an output with no return path. *)
Record requested s s' : Prop := {
  rs_wf : wf_store s'; rs_len : (ou_len (st_out s') <= 1)%nat;
  rs_current : current s' = current s \/ cu_reject_origin (current s') = ORIGIN_NONE
}.
Lemma requested_same s : wf_store s -> ready s -> requested s s.
Proof. intros Hw Hr. split; [done|rewrite (ready_len s Hr); lia|by left]. Qed.
(** Counters and the scratch's length do not matter. *)
Lemma requested_count s scratch c : wf_store s -> ready s -> (cu_active (current s) = true -> scratch = st_scratch s) ->
  length scratch = length (st_scratch s) -> requested s (s <| st_scratch := scratch |> <| st_counters := c |>).
Proof.
  intros Hw Hr Hs Hl. split; [|cbn; rewrite (ready_len s Hr); lia|by left].
  eapply wf_store_base; [exact Hw|by split|apply Hw|apply Hw| |apply Hw]. intros Ha. destruct (wi_current s Hw Ha) as [n Hn]. exists n.
  apply (carries_same s); [done|by apply Hs|done].
Qed.
Lemma port_source_wf s port config : wf_store s -> port_at s port = Some config ->
  wf_address {| addr_network := pc_network config; addr_mac := mac_as_slice (pc_mac config) |}.
Proof.
  intros Hw Hp. pose proof (Forall_take _ (st_port_count s) _ (ws_ports s (wi_source s Hw))) as Hf.
  destruct (proj1 (Forall_forall _ _) Hf config (list_elem_of_lookup_2 _ _ _ Hp)) as [Hn [_ Hm]]. by split.
Qed.
(** An output written for a request. *)
Lemma requested_write s n len scratch cur c : wf_store s -> ready s -> wf_npdu n ->
  npdu_encode_into n (st_scratch s) = (scratch, Ok len) ->
  cu_len cur = len -> cu_start cur = 0%nat -> (cu_tail cur = 0%nat \/ two_headers cur n) -> cu_reject_origin cur = ORIGIN_NONE ->
  requested s ((on_current (fun _ => cur) (s <| st_scratch := scratch |>)) <| st_counters := c |>).
Proof.
  intros Hw Hr Hn He Hl Hs Ht Ho. set (s' := _ <| st_counters := c |>).
  pose proof (encode_wrote (st_scratch s) n Hn) as [Hlen Hwr]. rewrite He in Hlen, Hwr. destruct (Hwr len eq_refl) as (Hg & Hfit & Hoct).
  cbn in Hlen, Hfit, Hoct.
  assert (Hc : carries s' n).
  { split; [done| |cbn; by rewrite Hl|cbn; rewrite Hs; lia|done]. unfold content. cbn. by rewrite Hl, Hs, drop_0. }
  split; [|cbn; rewrite (ready_len s Hr); lia|by right].
  eapply wf_store_base; [exact Hw|by split|apply Hw|apply Hw|by exists n|]. cbn. rewrite Ho. split; [apply no_origin_wf|done].
Qed.
Definition request_npdu (req : Request) (dst src : option Address) : Npdu :=
  (npdu_apdu (rq_apdu req)) <| expecting_reply := rq_expecting_reply req |> <| priority := rq_priority req |>
    <| destination := dst |> <| source := src |>.
Lemma request_wf req dst src : wf_request req -> wf_option_address dst -> wf_option_address src -> wf_npdu (request_npdu req dst src).
Proof. intros [_ Ha] Hd Hs. split_and!; cbn; try done. Qed.
Definition GLOBAL : Address := {| addr_network := GLOBAL_NETWORK; addr_mac := [] |}.
Lemma global_wf : wf_option_address (Some GLOBAL).
Proof. intros a [= <-]. split; [by vm_compute|constructor]. Qed.
(** The address a global broadcast names, if any. *)
Definition global_source s (from : option PortId) : option Address :=
  (if bool_decide (1 < length (ports_of s))%nat then from else None) ≫= fun port =>
    (fun config => {| addr_network := pc_network config; addr_mac := mac_as_slice (pc_mac config) |}) <$> port_at s port.
Lemma global_source_wf s from : wf_store s -> wf_option_address (global_source s from).
Proof.
  intros Hw a. unfold global_source. destruct (if bool_decide _ then from else None) as [port|]; [|done]. cbn.
  destruct (port_at s port) as [config|] eqn:Hp; [|done]. intros [= <-]. by eapply port_source_wf.
Qed.
(** The second header of a global broadcast: its octets, and where they go. *)
Lemma global_header req : npdu_encode_into ((request_npdu req (Some GLOBAL) None) <| payload := [] |>) (replicate 6 0)
  = (npdu_octets ((request_npdu req (Some GLOBAL) None) <| payload := [] |>), Ok 6%nat).
Proof. done. Qed.
Lemma originate_global_requested s req from : wf_store s -> ready s -> wf_request req ->
  (forall p, from = Some p -> is_Some (port_at s p)) -> requested s (originate_global s req from).1.
Proof.
  intros Hw Hr Hq Hfrom. unfold originate_global. cbv zeta.
  set (named := if bool_decide _ then from else None).
  set (n := _ <| source := named ≫= _ |>).
  assert (En : n = request_npdu req (Some GLOBAL) (global_source s from)) by done.
  assert (Hn : wf_npdu n) by (rewrite En; apply request_wf; [done|apply global_wf|by apply global_source_wf]).
  destruct (List.find _ _) as [[port config]|].
  { destruct s. by apply requested_count. }
  destruct (npdu_encode_into n (st_scratch s)) as [scratch [len|e]] eqn:He.
  2: { apply encode_err in He as ->. by apply requested_count. }
  destruct named as [port|] eqn:Hnamed.
  2: { apply (requested_write s n len scratch); try done. by left. }
  assert (Hsrc : exists a, source n = Some a).
  { assert (from = Some port) as Hp by (unfold named in Hnamed; by destruct (bool_decide _)). destruct (Hfrom port Hp) as [config Hc].
    rewrite En. cbn. unfold global_source. fold named. rewrite Hnamed. cbn. rewrite Hc. by eexists. }
  destruct Hsrc as [a Ha]. pose proof (written_len _ _ _ _ He) as [Hlen _].
  change (n <| source := None |> <| payload := [] |>) with ((request_npdu req (Some GLOBAL) None) <| payload := [] |>).
  cbn [is_some]. rewrite global_header, bool_decide_eq_true_2 by done. rewrite check_true.
  apply (requested_write s n len scratch); try done. right. split; try done.
  exists a. split; [done|]. rewrite En in Ha |- *. cbn in Ha. rewrite Ha. cbn. lia.
Qed.
(** A request sent toward its network, by [route] through [egress]. *)
Definition routed_send s (req : Request) (from : option PortId) (route : Route) (egress : PortConfig G) (d : Address)
  : Storage G * Result unit OriginateError :=
  let named := match from with
               | Some port => if negb (port =? rt_port route) then port_at s port else None
               | None => None end in
  let n := request_npdu req (Some d) ((fun config => {| addr_network := pc_network config;
                                                        addr_mac := mac_as_slice (pc_mac config) |}) <$> named) in
  let '(n, to) := if rt_direct route then (n <| destination := None |>, addr_mac d) else (n, mac_as_slice (rt_next_hop route)) in
  let limit := limits_get (pc_max_npdu egress) (bool_decide (to = [])) in
  let octets := encoded_len n in
  if limit <? Z.of_nat octets then (too_long s, Err (OrTooLong octets limit)) else
  match npdu_encode_into n (st_scratch s) with
  | (scratch, Ok len) =>
      let s := s <| st_scratch := scratch |> in
      ((on_current (fun _ => current_new len KOriginate CauseLocal (rq_priority req) (Toward (rt_port route) to)) s)
         <| st_counters ::= over rc_originated bump |>, Ok tt)
  | (scratch, Err _) => (s <| st_scratch := scratch |> <| st_counters ::= over rc_write_failures bump |>, Err OrUnwritable)
  end.
Lemma routed_send_requested s req from route egress d : wf_store s -> ready s -> wf_request req -> wf_address d ->
  requested s (routed_send s req from route egress d).1.
Proof.
  intros Hw Hr Hq Hd. unfold routed_send. set (named := match from with Some _ => _ | None => _ end). cbv zeta.
  set (src := _ <$> named).
  assert (Hsrc : wf_option_address src).
  { unfold src, named. destruct from as [port|]; [|by intros a]. destruct (negb _); [|by intros a].
    destruct (port_at s port) as [config|] eqn:Hp; [|by intros a]. intros a [= <-]. by eapply port_source_wf. }
  assert (Hn : forall dst, wf_option_address dst -> wf_npdu (request_npdu req dst src)) by (intros; by apply request_wf).
  assert (Hwrite : forall n to, wf_npdu n -> requested s (let limit := limits_get (pc_max_npdu egress) (bool_decide (to = [])) in
    let octets := encoded_len n in
    if limit <? Z.of_nat octets then (too_long s, @Err unit _ (OrTooLong octets limit)) else
    match npdu_encode_into n (st_scratch s) with
    | (scratch, Ok len) =>
        let s := s <| st_scratch := scratch |> in
        ((on_current (fun _ => current_new len KOriginate CauseLocal (rq_priority req) (Toward (rt_port route) to)) s)
           <| st_counters ::= over rc_originated bump |>, Ok tt)
    | (scratch, Err _) => (s <| st_scratch := scratch |> <| st_counters ::= over rc_write_failures bump |>, Err OrUnwritable)
    end).1).
  { intros n to Hwn. cbv zeta. destruct (_ <? _); [destruct s; by apply requested_count|].
    destruct (npdu_encode_into n (st_scratch s)) as [scratch [len|e]] eqn:He.
    - apply (requested_write s n len scratch); try done. by left.
    - apply encode_err in He as ->. by apply requested_count. }
  destruct (rt_direct route); apply Hwrite.
  - apply (Hn None). by intros a.
  - apply Hn. by intros a [= <-].
Qed.
(** The table, or the searches, changed by an operation of their own. *)
Lemma emits_requested s s' ts : wf_store s -> ready s -> emits s s' ts None -> Forall wf_task ts -> (length ts <= 1)%nat -> requested s s'.
Proof.
  intros Hw Hr He Ht Hl. split; [|rewrite (em_len _ _ _ _ He), (ready_len s Hr); lia|].
  { eapply emits_wf; try done. rewrite (ready_len s Hr). unfold QUEUE. lia. }
  left. by destruct (em_current _ _ _ _ He).
Qed.
Lemma requested_trans s1 s2 s3 : requested s1 s2 -> requested s2 s3 -> requested s1 s3.
Proof. intros [Hw1 Hl1 Hc1] [Hw2 Hl2 Hc2]. split; [done|done|]. destruct Hc2 as [->|?]; [done|by right]. Qed.
Lemma originate_requested s req now opt : wf_store s -> wf_request req ->
  requested (drop_undrained s) (store_originate s req now opt).1.
Proof.
  intros Hw Hq. destruct (drop_wf s Hw) as [Hw0 Hr]. unfold store_originate. cbv zeta.
  set (s0 := drop_undrained s) in *. clearbody s0. clear s Hw. rename s0 into s, Hw0 into Hw.
  pose proof (requested_same s Hw Hr) as Hsame.
  destruct (_ =? 0); [done|]. destruct (_ && _); [done|]. destruct (_ && _); [done|]. destruct (_ && _); [done|].
  assert (Hfrom : forall from, match rq_source req with EgressPort => Ok None
      | SourcePort port => if is_some (port_at s port) then Ok (Some port) else Err OrUnknownPort end = Ok from ->
      forall p, from = Some p -> is_Some (port_at s p)).
  { intros from. destruct (rq_source req) as [|port]; [by intros [= <-]|]. destruct (port_at s port) as [config|] eqn:E; [|done].
    intros [= <-] p [= <-]. by rewrite E. }
  destruct (match rq_source req with EgressPort => _ | SourcePort _ => _ end) as [from|e]; [|done]. specialize (Hfrom from eq_refl).
  destruct (_ =? GLOBAL_NETWORK); [by apply originate_global_requested|].
  set (dnet := addr_network (rq_destination req)).
  assert (Hdnet : is_u16 dnet) by apply Hq.
  destruct (table_lookup (st_table s) dnet) as [route|] eqn:Hlook.
  2: { pose proof (search_step_shape (st_discovery s) (SSolicit dnet now (op_discovery_cooldown opt))) as Hs. cbn in Hs.
       destruct (should_solicit _ _ _ _) as [d due]. cbn [fst] in Hs.
       assert (He : emits s (s <| st_discovery := d |>) [] None) by (apply emits_search; intros Hx; by apply Hs).
       destruct due; [|eapply emits_requested; try done; cbn; lia].
       apply (emits_requested s _ [task_solicit NO_PORT dnet]); try done.
       - apply (push_after s Hr _ []); [by apply count_after|cbn; lia].
       - constructor; [|constructor]. by apply (plain_task_wf TkSolicit NO_PORT dnet 0 MAC_EMPTY). }
  set (s1 := s <| st_table ::= _ |>). assert (He1 : emits s s1 [] None) by (by apply (emits_op s (OpTouch dnet now))).
  assert (Hreq1 : requested s s1) by (eapply emits_requested; try done; cbn; lia).
  assert (Hr1 : ready s1) by (by eapply emits_ready). pose proof (rs_wf _ _ Hreq1) as Hw1. clearbody s1. clear He1.
  assert (Hgo : forall s', requested s1 s' -> requested s s') by (intros s'; by apply requested_trans).
  assert (Hsend : forall d, wf_address d -> forall egress, requested s1 (routed_send s1 req from route egress d).1)
    by (intros; by apply routed_send_requested).
  assert (Hd : wf_address (rq_destination req)) by apply Hq.
  assert (Hb : wf_address {| addr_network := dnet; addr_mac := [] |}) by (split; [done|constructor]).
  destruct (effective_reachability _ _ _) as [[]|]; try done; destruct (port_at s1 (rt_port route)) as [egress|]; try done; apply Hgo;
    destruct (group_of s1 route _); try (by apply requested_same); try apply (Hsend _ Hd);
    destruct (is_unconfirmed (rq_apdu req)); try (by apply requested_same); apply (Hsend _ Hb).
Qed.
End Run.
