(* ===== verification/RouterCalls.v ===== *)
(** * A router and its driver

    The router from its construction through any sequence of calls a driver may make: polls whenever it likes, at most
    one refusal per send polled, at most one late refusal between idle polls. *)

From stdpp Require Import relations.
From S2P Require Import Prelude Time Npdu Arrays RouteTable RouteTheorems RouteSafety Discovery RouterMessage.
From S2P Require Import RouterGroups RouterData RouterOutput RouterEngine RouterLogic RouterEmits RouterHandlers.
From S2P Require Import RouterPoll RouterTasks RouterInv RouterRun.
Open Scope Z_scope.

Section Calls.
Context {G : Type} `{GroupClassifier G} {Hst : Type} `{Host Hst}.
Implicit Types (s : Storage G) (r : Router G).
Abbreviation current s := (ou_current (st_out s)).

(** ** Construction *)

Lemma check_ports_ok N (rest : list (PortConfig G)) : forall before, check_ports N before rest = None ->
  Forall (fun p => is_reserved (pc_network p) = false /\ limits_fit (pc_max_npdu p) N = true) rest /\
  NoDup (pc_network <$> rest) /\ Forall (fun p => pc_network p ∉ (pc_network <$> before)) rest.
Proof.
  induction rest as [|p rest IH]; intros before; [intros _; split_and!; constructor|]. cbn [check_ports].
  destruct (_ || _) eqn:Hres; [done|]. destruct (existsb _ before) eqn:Hdup; [done|]. destruct (limits_fit _ _) eqn:Hfit; [|done].
  cbn [negb]. intros Hc. destruct (IH _ Hc) as (Hok & Hnd & Hout).
  assert (Hp : pc_network p ∉ (pc_network <$> before)).
  { intros (q & Hq & Hin)%list_elem_of_fmap. apply Bool.not_true_iff_false in Hdup. apply Hdup, existsb_exists. exists q.
    split; [by apply list_elem_of_In|]. lia. }
  assert (Hout' : Forall (fun q => (pc_network q ∉ (pc_network <$> before)) /\ pc_network q <> pc_network p) rest).
  { eapply Forall_impl; [exact Hout|]. cbn. intros q Hq. rewrite fmap_app, elem_of_app in Hq. split; [tauto|]. intros E. apply Hq. right. cbn. rewrite E.
    by left. }
  split_and!.
  - constructor; [|done]. split; [exact Hres|done].
  - cbn. constructor; [|done]. intros (q & Hq & Hin)%list_elem_of_fmap. by destruct (proj1 (Forall_forall _ _) Hout' q Hin) as [_ []].
  - constructor; [done|]. eapply Forall_impl; [exact Hout'|]. cbn. by intros q [? _].
Qed.
Lemma add_ports_spec (l : list (PortId * PortConfig G)) : forall (t t' : Table), wf_table t -> add_ports t l = Some t' -> NoDup ((fun x => pc_network x.2) <$> l) ->
  wf_table t' /\ table_capacity t' = table_capacity t /\
  forall k route, table_lookup t' k = Some route <->
    (exists x, x ∈ l /\ k = pc_network x.2 /\ route = route_direct x.1) \/
    (k ∉ ((fun x => pc_network (x.2 : PortConfig G)) <$> l)) /\ table_lookup t k = Some route.
Proof.
  induction l as [|[i p] l IH]; intros t t' Hw; cbn [add_ports].
  { intros [= <-] _. split_and!; [done|done|]. intros k route. split; [intros E; right; split; [by apply not_elem_of_nil|done]|].
    intros [(x & Hx%elem_of_nil & _)|[_ E]]; done. }
  pose proof (wf_step t (OpAddDirect (pc_network p) i) Hw) as Hw1. pose proof (add_direct_refines t (pc_network p) i (proj1 Hw)) as Hr.
  cbn in Hw1. destruct (add_direct t (pc_network p) i) as [t1 ok]. cbn [fst] in Hw1. destruct ok; [|done].
  intros Hadd Hnd. apply NoDup_cons in Hnd as [Hnot Hnd]. destruct (IH t1 t' Hw1 Hadd Hnd) as (Hw' & Hcap & Hl).
  destruct Hr as [[Hs1 Hc1] Hrow]. split_and!; [done|congruence|]. intros k route. rewrite Hl.
  assert (Hlook : table_lookup t1 k = if decide (k = pc_network p) then Some (route_direct i) else table_lookup t k).
  { rewrite !lookup_rows by (done || apply Hw). unfold map_add_direct, map_put in Hrow. destruct (is_reserved _); [done|].
    destruct (has_room _ _ _); [|done]. injection Hrow as ->. case_decide as E; [subst k; by rewrite lookup_insert_eq|by rewrite lookup_insert_ne]. }
  rewrite Hlook. setoid_rewrite elem_of_cons. cbn. rewrite ?elem_of_cons. split.
  - intros [(x & Hx & -> & ->)|[Hk E]]; [left; exists x; auto|]. case_decide as Ek.
    + injection E as <-. left. exists (i, p). auto.
    + right. split; [by intros [?|?]|done].
  - intros [(x & [->|Hx] & -> & ->)|[Hk E]].
    + right. cbn. split; [done|]. by rewrite decide_True.
    + left. by exists x.
    + right. split; [tauto|]. rewrite decide_False; [done|]. intros ->. tauto.
Qed.
Lemma numbered_lookup {A} (l : list A) x : x ∈ numbered l -> 0 <= x.1 /\ l !! Z.to_nat x.1 = Some x.2.
Proof.
  unfold numbered. intros (i & y & -> & Hy)%elem_of_lookup_imap_1. cbn. rewrite Nat2Z.id. split; [lia|done].
Qed.
Lemma numbered_snd {A} (l : list A) : snd <$> numbered l = l.
Proof. apply list_eq. intros i. unfold numbered. rewrite list_lookup_fmap, list_lookup_imap. by destruct (l !! i). Qed.
Lemma lookup_numbered {A} (l : list A) i x : l !! i = Some x -> (Z.of_nat i, x) ∈ numbered l.
Proof. intros Hi. apply elem_of_lookup_imap. by exists i, x. Qed.
(** A router as built has a direct route to each of its networks, no other, and nothing waits. *)
Lemma new_wf P R H' D N B ports opt now r : router_new (storage_new P R H' D N B) ports opt now = Ok r -> Forall wf_port ports ->
  wf_store (rr_storage r) /\ ou_len (st_out (rr_storage r)) = 0%nat /\ current (rr_storage r) = CURRENT_NONE.
Proof.
  unfold router_new. cbn [st_ports storage_new st_table st_scratch st_recent]. cbv zeta. rewrite !length_replicate.
  case_bool_decide as Hne; [done|]. case_bool_decide as Hmany; [done|].
  destruct (check_ports N [] ports) eqn:Hc; [done|]. destruct (match op_route_cap opt with Some _ => _ | None => _ end); [done|].
  destruct (op_sweep opt =? 0); [done|]. destruct (_ && _); [done|]. destruct (match op_congestion opt with Some _ => _ | None => _ end); [done|].
  destruct (check_ports_ok _ _ _ Hc) as (Hok & Hnd & _).
  set (t0 := set_convergence (table_clear (table_new R H')) (op_convergence opt)).
  assert (Hw0 : wf_table t0).
  { apply (wf_step (table_clear (table_new R H')) (OpConvergence (op_convergence opt))), (wf_step (table_new R H') OpClear), wf_new. }
  destruct (add_ports t0 (numbered ports)) as [t|] eqn:Hadd; [|done]. intros [= <-] Hports. cbn.
  assert (Hnd' : NoDup ((fun x => pc_network x.2) <$> numbered ports)).
  { rewrite <-(numbered_snd ports), <-list_fmap_compose in Hnd. exact Hnd. }
  destruct (add_ports_spec _ _ _ Hw0 Hadd Hnd') as (Hw & _ & Hlook).
  assert (Hempty : forall k, table_lookup t0 k = None) by (intros k; rewrite lookup_rows by apply Hw0; done).
  assert (Hlook' : forall k route, table_lookup t k = Some route -> exists x, x ∈ numbered ports /\ k = pc_network x.2 /\ route = route_direct x.1).
  { intros k route E. apply Hlook in E as [E|[_ E]]; [done|]. by rewrite Hempty in E. }
  assert (Hlen : (0 < length ports <= 255)%nat) by (destruct ports; [done|cbn in *; lia]).
  split; [|done]. split.
  - split; cbn; [|lia|].
    + apply Forall_app. split; [done|]. apply Forall_replicate. split; [by vm_compute|apply empty_mac_wf].
    + split; [done|]. intros k route E. destruct (Hlook' k route E) as (x & Hx & -> & ->). apply numbered_lookup in Hx as [H1 Hx].
      assert (Hz : forall z : Z, 0 <= z -> (Z.to_nat z < length ports)%nat -> 0 <= z < Z.of_nat (length ports)) by lia.
      split; [|apply Hz; [done|by apply lookup_lt_Some in Hx]]. by apply (proj1 (Forall_forall _ _) Hports), (list_elem_of_lookup_2 _ _ _ Hx).
  - cbn. rewrite length_app, length_replicate. lia.
  - cbn. rewrite length_app, !length_replicate. lia.
  - intros p config. unfold port_at, ports_of. cbn. rewrite take_app_length, length_replicate. intros Hp%list_elem_of_lookup_2.
    by apply (proj1 (Forall_forall _ _) Hok).
  - intros i config. unfold ports_of. cbn. rewrite take_app_length. intros Hi. apply Hlook. left. exists (Z.of_nat i, config).
    split; [by apply lookup_numbered|done].
  - cbn. apply search_cleared, discovery_new_shape.
  - by split; vm_compute; repeat constructor.
  - constructor.
  - done.
  - split; [apply no_origin_wf|done].
  - done.
Qed.

(** ** The driver *)

(** An edit of the table through [Router::table_mut], one of the table's own operations.
    [Router::table_mut] (bacnet-router-core/src/router.rs) *)
Definition table_edit r (op : TableOp) : Router G := r <| rr_storage ::= fun s => s <| st_table := (table_step (st_table s) op).1 |> |>.
(** The router, its host, whether the last poll yielded a send not yet refused, and whether a late refusal was reported since
    the last idle poll. *)
Record Driver := { dv_router : Router G; dv_host : Hst; dv_fresh : bool; dv_later : bool }.
Inductive RouterOp :=
| RoReceive (frame : Frame) (now : Instant) | RoOriginate (req : Request) (now : Instant) | RoPoll | RoRefused (why : SendRefusal)
| RoRefusedLater (why : SendRefusal) (origin : option RejectOrigin) | RoBacklog (port : PortId) (b : Backlog) (now : Instant)
| RoLimits (port : PortId) (limits : NpduLimits) | RoDeadline (now : Instant) | RoCancelDiscovery | RoTakeCounters
| RoStart | RoAnnouncePort (port : PortId) | RoTable (op : TableOp).
Definition drive (d : Driver) (op : RouterOp) : Driver :=
  let r := dv_router d in
  let h := dv_host d in
  let keep r := {| dv_router := r; dv_host := h; dv_fresh := dv_fresh d; dv_later := dv_later d |} in
  let anew r h := {| dv_router := r; dv_host := h; dv_fresh := false; dv_later := false |} in
  match op with
  | RoReceive frame now => let '(r, h, _) := router_receive r frame now h in anew r h
  | RoOriginate req now => anew (router_originate r req now).1 h
  | RoPoll =>
      match router_poll_action r with
      | (r, ActSend _) => {| dv_router := r; dv_host := h; dv_fresh := true; dv_later := dv_later d |}
      | (r, ActIdle) => anew r h
      end
  | RoRefused why => {| dv_router := router_refused r why; dv_host := h; dv_fresh := false; dv_later := dv_later d |}
  | RoRefusedLater why o => {| dv_router := refused_later r why o; dv_host := h; dv_fresh := dv_fresh d; dv_later := true |}
  | RoBacklog port b now => keep (router_egress_backlog r port b now)
  | RoLimits port limits => keep (set_port_max_npdu r port limits).1
  | RoDeadline now => let '(r, h) := router_on_deadline r now h in
      {| dv_router := r; dv_host := h; dv_fresh := dv_fresh d; dv_later := dv_later d |}
  | RoCancelDiscovery => keep (cancel_discovery r)
  | RoTakeCounters => keep (router_take_counters r).1
  | RoStart => anew (router_start r) h
  | RoAnnouncePort port => let '(r', ok) := announce_port r port in if ok then anew r' h else keep r'
  | RoTable op => keep (table_edit r op)
  end.
(** An edit that names network numbers and ports the router has, and neither replaces nor removes the route to a network of the router's own. The
    interface lets a caller make others; a route it writes to a port the router doesn't have carries nothing ([missing_port_drops]). *)
Definition edit_ok s (op : TableOp) : Prop :=
  match op with
  | OpAddDirect n p | OpAddLearned n p _ _ | OpLearn n p _ _ | OpClaim n p _ _ _ => 0 <= p < Z.of_nat (st_port_count s) /\ is_u16 n
  | _ => True
  end /\
  forall i config, ports_of s !! i = Some config -> replaces op (pc_network config) = false.
(** What is asked of the caller, by the interface but for the edits of the table: values of their types' widths, one refusal per send, polls between late ones. *)
Definition permitted (d : Driver) (op : RouterOp) : Prop :=
  match op with
  | RoReceive frame _ => wf_frame frame
  | RoOriginate req _ => wf_request req
  | RoRefused _ => dv_fresh d = true
  | RoRefusedLater _ o => dv_later d = false /\ forall x, o = Some x -> wf_origin x
  | RoAnnouncePort port => 0 <= port
  | RoTable op => edit_ok (rr_storage (dv_router d)) op
  | _ => True
  end.
(** Whether a refusal of the send in hand, or of the one about to be polled, may queue a reject. *)
Definition refusable (d : Driver) : bool :=
  let c := current (rr_storage (dv_router d)) in
  is_some (origin_as_option (cu_reject_origin c)) && (dv_fresh d || (cu_active c && negb (cu_fan_out c))).
Record wf_driver (d : Driver) : Prop := {
  wd_store : wf_store (rr_storage (dv_router d));
  wd_budget : (ou_len (st_out (rr_storage (dv_router d))) + (if refusable d then 1 else 0) <= 2 + (if dv_later d then 1 else 0))%nat;
  wd_fresh : dv_fresh d = true ->
    cu_active (current (rr_storage (dv_router d))) && negb (cu_fan_out (current (rr_storage (dv_router d)))) = false
}.
(** A call that starts afresh: its outputs are few, and a return path only comes alone. *)
Lemma wf_anew r h : wf_store (rr_storage r) ->
  (ou_len (st_out (rr_storage r)) <= 2)%nat ->
  (cu_active (current (rr_storage r)) && negb (cu_fan_out (current (rr_storage r))) = true ->
    cu_reject_origin (current (rr_storage r)) = ORIGIN_NONE \/ (ou_len (st_out (rr_storage r)) <= 1)%nat) ->
  wf_driver {| dv_router := r; dv_host := h; dv_fresh := false; dv_later := false |}.
Proof.
  intros Hw Hl Ho. split; [done| |done]. unfold refusable. cbn [dv_router dv_fresh dv_later orb].
  destruct (cu_active _ && _); [|rewrite andb_false_r; lia]. destruct (Ho eq_refl) as [->|?]; [cbn; lia|]. destruct (is_some _); cbn; lia.
Qed.
Lemma ready_single s : ready s -> cu_active (current s) && negb (cu_fan_out (current s)) = false.
Proof.
  intros [Hp _]. unfold outputs_pending, has_more in Hp. destruct (cu_active (current s)), (cu_fan_out (current s)); done.
Qed.
Lemma receive_drive d frame now : wf_driver d -> wf_frame frame -> wf_driver (drive d (RoReceive frame now)).
Proof.
  intros [Hw _ _] Hf. unfold drive, router_receive. set (s := clock (rr_storage (dv_router d)) now).
  destruct (frame_received frame (st_latest s) (rr_options (dv_router d)) s (dv_host d) (clock_wf _ now Hw) Hf) as (ts & w & [Hw' He _ Hl Hown]).
  destruct (store_receive _ _ _ s _) as [[s' h'] res]. cbn [fst] in *. destruct (drop_wf s (clock_wf _ now Hw)) as [_ Hr].
  pose proof (em_len _ _ _ _ He) as Hlen. rewrite (ready_len _ Hr) in Hlen. cbn in Hlen. apply wf_anew; cbn; [done|lia|].
  intros Ha. right. destruct w as [w|]; [rewrite Hlen, Hown by done; cbn; lia|].
  destruct (em_current _ _ _ _ He) as [Hc _]. rewrite Hc, (ready_single _ Hr) in Ha. done.
Qed.
Lemma originate_drive d req now : wf_driver d -> wf_request req -> wf_driver (drive d (RoOriginate req now)).
Proof.
  intros [Hw _ _] Hf. unfold drive, router_originate. set (s := clock (rr_storage (dv_router d)) now).
  destruct (originate_requested s req (st_latest s) (rr_options (dv_router d)) (clock_wf _ now Hw) Hf) as [Hw' Hl Hc].
  destruct (store_originate s _ _ _) as [s' res]. cbn [fst] in *. apply wf_anew; cbn; [done|lia|]. intros _. by right.
Qed.
Lemma poll_drive d : wf_driver d -> wf_driver (drive d RoPoll).
Proof.
  intros [Hw Hb Hfr]. unfold drive, router_poll_action. pose proof (poll_spec _ Hw) as Hp. revert Hb. unfold refusable.
  set (s := rr_storage (dv_router d)) in *. destruct (poll s) as [s' [sd|]]; intros Hb.
  - destruct Hp as [Hw' _ _ Hl Ho Hd _ _]. split; cbn; [done| |done]. unfold refusable. cbn. rewrite andb_true_r. cbn in Hb.
    destruct Ho as [->|[Ha ->]]; [cbn; destruct (dv_later d), (is_some _ && _); lia|]. revert Hb. rewrite Ha.
    destruct (cu_fan_out (current s)) eqn:Hfan.
    + rewrite (proj2 (wi_origin s Hw) Hfan). cbn. destruct (dv_later d); lia.
    + cbn. rewrite orb_true_r, andb_true_r. destruct (dv_later d), (is_some _); lia.
  - destruct Hp as [Hw' _ Hi Hl _]. apply wf_anew; cbn; [done|lia|]. by rewrite Hi.
Qed.
Lemma push_wf s t : wf_store s -> (ou_len (st_out s) < QUEUE)%nat -> wf_task t ->
  wf_store (push s t) /\ ou_len (st_out (push s t)) = S (ou_len (st_out s)) /\ current (push s t) = current s.
Proof.
  intros Hw Hl Ht. pose proof (emits_push s t (wi_outputs s Hw) Hl) as He.
  split_and!; [eapply emits_wf; [done|exact He|by constructor|cbn; lia|done]|rewrite (em_len _ _ _ _ He); cbn; lia|by destruct (em_current _ _ _ _ He)].
Qed.
Lemma counters_wf s c : wf_store s -> wf_store (s <| st_counters := c |>).
Proof.
  intros Hw. eapply wf_store_base; [exact Hw|by split|apply Hw|apply Hw| |apply Hw]. intros Ha.
  destruct (wi_current s Hw Ha) as [n Hn]. exists n. by apply (carries_same s).
Qed.
(** Changes of the router that leave its outputs alone keep the driver's account. *)
Lemma keep_drive d r' h' : wf_driver d -> wf_store (rr_storage r') -> st_out (rr_storage r') = st_out (rr_storage (dv_router d)) ->
  wf_driver {| dv_router := r'; dv_host := h'; dv_fresh := dv_fresh d; dv_later := dv_later d |}.
Proof.
  intros [Hw Hb Hf] Hw' Ho. split; cbn; [done| |by rewrite Ho]. unfold refusable in *. cbn. by rewrite Ho.
Qed.
Lemma reject_wf s o reason : wf_store s -> (ou_len (st_out s) < QUEUE)%nat -> wf_origin o -> is_u8 reason ->
  wf_store (queue_reject s o reason) /\ ou_len (st_out (queue_reject s o reason)) = S (ou_len (st_out s)) /\
  current (queue_reject s o reason) = current s.
Proof.
  intros Hw Hl Ho Hr. unfold queue_reject. set (s1 := s <| st_counters ::= _ |>).
  destruct (push_wf s1 (reject_origin_task o reason)) as (H1 & H2 & H3); [by apply counters_wf|done|by apply origin_task_wf|]. done.
Qed.
Lemma later_drive d why o : wf_driver d -> permitted d (RoRefusedLater why o) -> wf_driver (drive d (RoRefusedLater why o)).
Proof.
  intros [Hw Hb Hf] [Hlater Ho]. unfold drive, refused_later, refusable in *. rewrite Hlater in Hb.
  set (s := rr_storage (dv_router d)) in *. destruct (bool_decide (why = SrTooLong)).
  2: { split; cbn; [by apply counters_wf|unfold refusable; cbn; fold s; lia|done]. }
  destruct o as [o|]; [|split; cbn; [by apply counters_wf, counters_wf|unfold refusable; cbn; fold s; lia|done]].
  destruct (reject_wf (too_long s) o MESSAGE_TOO_LONG) as (Hw' & Hl' & Hc'); [by apply counters_wf|cbn; unfold QUEUE; lia|by apply Ho|by vm_compute|].
  split; cbn -[queue_reject]; fold s; [by apply counters_wf|unfold refusable; cbn -[queue_reject]; fold s; rewrite Hl', Hc'; cbn; lia|].
  intros Hfr. rewrite Hc'. by apply Hf.
Qed.
(** The front of a table answer that its peer refused is dropped. *)
Lemma refused_answer_wf s : wf_store s -> wf_store (end_refused_answer s) /\ (ou_len (st_out (end_refused_answer s)) <= ou_len (st_out s))%nat /\
  current (end_refused_answer s) = current s.
Proof.
  intros Hw. unfold end_refused_answer. cbv zeta. set (s1 := s <| st_out ::= _ |>).
  assert (Hw1 : wf_store s1).
  { eapply wf_store_base; [exact Hw|by split|apply Hw|apply Hw| |apply Hw]. intros Ha. destruct (wi_current s Hw Ha) as [n Hn].
    exists n. by apply (carries_same s). }
  destruct (_ && _) eqn:E; [|done]. apply andb_prop in E as [_ E]. destruct (outputs_front (st_out s1)) as [t|] eqn:Hfr; [|done].
  destruct (front_queued _ _ Hfr) as [rest Hq].
  destruct (moved_queue (st_out s1) t rest None (wi_outputs s1 Hw1) Hq (wi_tasks s1 Hw1) I) as (_ & Ho & Hc & Ht & Hl).
  split_and!; [|exact Hl|exact Hc].
  eapply wf_store_base; [exact Hw1|by split|exact Ho|exact Ht| |].
  - intros Ha. change (cu_active (ou_current (outputs_pop (st_out s1))) = true) in Ha. rewrite Hc in Ha.
    destruct (wi_current s1 Hw1 Ha) as [n Hn]. exists n. by apply (carries_same s1).
  - change (ou_current (st_out (s1 <| st_out ::= outputs_pop |>))) with (ou_current (outputs_pop (st_out s1))). rewrite Hc. apply Hw1.
Qed.
Lemma clogged_wf s : wf_store s -> (ou_len (st_out s) < QUEUE)%nat -> wf_store (refused_while_clogged s) /\
  (ou_len (st_out (refused_while_clogged s)) <= ou_len (st_out s) + (if is_some (origin_as_option (cu_reject_origin (current s))) then 1 else 0))%nat /\
  current (refused_while_clogged s) = current s.
Proof.
  intros Hw Hl. unfold refused_while_clogged. cbv zeta.
  destruct (origin_as_option (cu_reject_origin (current s))) as [o|] eqn:Ho; [|split_and!; [done|cbn; lia|done]].
  destruct (match flows_of s !! _ with Some _ => _ | None => _ end); [|split_and!; [done|cbn; lia|done]].
  assert (o = cu_reject_origin (current s)) as -> by (unfold origin_as_option in Ho; destruct (_ =? 0); congruence).
  destruct (reject_wf s (cu_reject_origin (current s)) ROUTER_BUSY Hw Hl) as (Hw' & Hl' & Hc'); [apply Hw|by vm_compute|].
  split_and!; [done|rewrite Hl'; cbn; lia|done].
Qed.
Lemma refused_drive d why : wf_driver d -> dv_fresh d = true -> wf_driver (drive d (RoRefused why)).
Proof.
  intros [Hw Hb Hf] Hfr. unfold refusable in Hb. rewrite Hfr in Hb. cbn [orb] in Hb. rewrite andb_true_r in Hb. specialize (Hf Hfr).
  assert (Hone : exists c, rr_storage (refused_later (dv_router d) why None) = (rr_storage (dv_router d)) <| st_counters := c |>).
  { unfold refused_later. cbn. destruct (bool_decide _); by eexists. }
  destruct Hone as [c Hone]. set (s := rr_storage (dv_router d)) in *.
  destruct (refused_answer_wf (s <| st_counters := c |>) (counters_wf s c Hw)) as (Hw2 & Hl2 & Hc2).
  set (s2 := end_refused_answer (s <| st_counters := c |>)) in *. change (current (s <| st_counters := c |>)) with (current s) in Hc2. cbn in Hl2.
  assert (Hq : (ou_len (st_out s2) < QUEUE)%nat) by (unfold QUEUE; destruct (dv_later d), (is_some _); lia).
  destruct (clogged_wf s2 Hw2 Hq) as (Hw3 & Hl3 & Hc3). rewrite Hc2 in Hl3, Hc3.
  assert (Hres : rr_storage (router_refused (dv_router d) why) = s2 \/ rr_storage (router_refused (dv_router d) why) = refused_while_clogged s2).
  { unfold router_refused. cbv zeta. set (r1 := refused_later (dv_router d) why None) in *. unfold s2. rewrite <-Hone.
    cbn -[end_refused_answer refused_while_clogged]. destruct (is_some _ && _); [by right|by left]. }
  unfold drive. cbv zeta. split; cbn [dv_router dv_later dv_fresh].
  - by destruct Hres as [->| ->].
  - unfold refusable. cbn [dv_router dv_fresh orb]. destruct Hres as [->| ->]; rewrite ?Hc2, ?Hc3, Hf, andb_false_r;
      destruct (dv_later d), (is_some _); lia.
  - done.
Qed.
Lemma backlog_drive d port b now : wf_driver d -> wf_driver (drive d (RoBacklog port b now)).
Proof.
  intros Hd. unfold drive, router_egress_backlog. cbv zeta. pose proof (clock_wf _ now (wd_store d Hd)) as Hw.
  apply keep_drive; [done| |]; cbn; destruct (op_congestion (rr_options (dv_router d))) as [policy|]; try done.
  - unfold store_egress_backlog. destruct (flows_of _ !! _); [|done]. destruct (flow_report _ _ _ _) as [flow p].
    assert (Hw' : wf_store ((clock (rr_storage (dv_router d)) now) <| st_flows ::= <[Z.to_nat port := flow]> |>)).
    { eapply wf_store_base; [exact Hw|split; try done; cbn; by rewrite length_insert|apply Hw|apply Hw| |apply Hw]. intros Ha.
      destruct (wi_current _ Hw Ha) as [n Hn]. exists n. by apply (carries_same (clock (rr_storage (dv_router d)) now)). }
    destruct p as [[]|]; try done; by apply counters_wf.
  - unfold store_egress_backlog. destruct (flows_of _ !! _); [|done]. destruct (flow_report _ _ _ _) as [flow p]. by destruct p as [[]|].
Qed.
Lemma limits_wf s port limits : wf_store s -> limits_fit limits (length (st_scratch s)) = true ->
  wf_store (s <| st_ports ::= alter (fun p => p <| pc_max_npdu := limits |>) (Z.to_nat port) |>).
Proof.
  intros Hw Hfit. set (g := fun p : PortConfig G => p <| pc_max_npdu := limits |>). set (s' := s <| st_ports ::= _ |>).
  assert (Hports : forall i, ports_of s' !! i = (if decide (i = Z.to_nat port) then g else id) <$> ports_of s !! i).
  { intros i. unfold ports_of, s'. cbn. destruct (decide (i < st_port_count s)%nat) as [Hi|Hi].
    - rewrite !lookup_take_lt by done. case_decide as E; [subst i; by rewrite list_lookup_alter_eq|].
      rewrite list_lookup_alter_ne by done. by destruct (st_ports s !! i).
    - rewrite !lookup_take_ge by lia. done. }
  pose proof Hw as [[] ? ? Hlim Hdir ? ? ? Hcur ? ?]. split; try done.
  - split; try done. cbn. apply Forall_lookup_2. intros i x Hx. assert (Hall : forall i x, st_ports s !! i = Some x -> wf_port x) by (by apply Forall_lookup).
    destruct (decide (i = Z.to_nat port)) as [->|Hne].
    + rewrite list_lookup_alter_eq in Hx. destruct (st_ports s !! Z.to_nat port) as [y|] eqn:Hy; [|done]. injection Hx as <-.
      exact (Hall (Z.to_nat port) y Hy).
    + rewrite list_lookup_alter_ne in Hx by done. by apply (Hall i).
  - cbn. by rewrite length_alter.
  - cbn. by rewrite length_alter.
  - intros p config. unfold port_at. rewrite Hports. destruct (ports_of s !! Z.to_nat p) as [c|] eqn:Hc; [|done]. cbn.
    intros [= <-]. case_decide; [exact Hfit|]. by apply (Hlim p).
  - intros i config. rewrite Hports. destruct (ports_of s !! i) as [c|] eqn:Hc; [|done]. cbn. intros [= <-].
    assert (pc_network ((if decide (i = Z.to_nat port) then g else id) c) = pc_network c) as -> by (by case_decide). by apply Hdir.
  - intros Ha. destruct (Hcur Ha) as [n Hn]. exists n. by apply (carries_same s).
Qed.
Lemma limits_drive d port limits : wf_driver d -> wf_driver (drive d (RoLimits port limits)).
Proof.
  intros Hd. unfold drive, set_port_max_npdu. cbv zeta. apply keep_drive; [done| |].
  - destruct (negb _); [apply Hd|]. destruct (limits_fit _ _) eqn:E; cbn [negb fst]; [|apply Hd]. by apply limits_wf; [apply Hd|].
  - destruct (negb _); [done|]. by destruct (limits_fit _ _).
Qed.
Lemma no_more_room s : wf_store s -> (ou_len (st_out s) + length (@nil Task) <= QUEUE)%nat.
Proof. intros Hw. pose proof (wi_outputs s Hw) as [_ Hl]. cbn. lia. Qed.
Lemma deadline_drive d now : wf_driver d -> wf_driver (drive d (RoDeadline now)).
Proof.
  intros Hd. unfold drive, router_on_deadline. cbv zeta. set (s := clock (rr_storage (dv_router d)) now).
  pose proof (clock_wf _ now (wd_store d Hd)) as Hw. fold s in Hw. destruct (_ <? _); [by apply keep_drive|].
  pose proof (mv_op (st_port_count s) (st_table s) (OpPurge (st_latest s) (op_learned_age (rr_options (dv_router d)))) I) as H1.
  cbn [table_step] in H1. destruct (purge_stale _ _ _) as [[t1 purged] k1]. cbn [fst] in H1.
  pose proof (mv_op (st_port_count s) t1 (OpClearBusy (st_latest s)) I) as H2. cbn [table_step] in H2.
  destruct (clear_expired_busy t1 (st_latest s)) as [t2 k2]. cbn [fst] in H2.
  pose proof (mv_op (st_port_count s) t2 (OpExpirePending (st_latest s) (op_timing (rr_options (dv_router d)))) I) as H3. cbn [table_step] in H3.
  cbn [fst]. destruct (expire_pending t2 _ _) as [[t3 expired] k3]. cbn [fst] in H3.
  pose proof (search_step_shape (st_discovery s) (SExpire (st_latest s) (op_discovery_age (rr_options (dv_router d))))) as Hs. cbn in Hs.
  destruct (search_expire _ _ _) as [[disc forgotten] k4]. cbn [fst] in Hs.
  assert (Hev : evolves (st_port_count s) (st_table s) t3) by (eapply rtc_l; [exact H1|]; eapply rtc_l; [exact H2|]; by apply rtc_once).
  pose proof (emits_wf s _ [] None Hw (emits_table s t3 Hev) ltac:(constructor) (no_more_room s Hw) I) as Hw1.
  assert (Hsd : search_shape (st_discovery (s <| st_table := t3 |>)) -> search_shape disc) by (intros Hx; by apply Hs).
  pose proof (emits_wf _ _ [] None Hw1 (emits_search (s <| st_table := t3 |>) disc Hsd) ltac:(constructor)
    (no_more_room _ Hw1) I) as Hw2.
  apply keep_drive; [done| |done]. cbn. set (s2 := s <| st_table := t3 |> <| st_discovery := disc |>) in Hw2.
  eapply wf_store_base; [exact Hw2|by split|apply Hw2|apply Hw2| |apply Hw2]. intros Ha. destruct (wi_current _ Hw2 Ha) as [n Hn].
  exists n. by apply (carries_same s2).
Qed.
Lemma cancel_drive d : wf_driver d -> wf_driver (drive d RoCancelDiscovery).
Proof.
  intros Hd. unfold drive, cancel_discovery. cbv zeta. pose proof (wd_store d Hd) as Hw. apply keep_drive; [done| |done]. cbn.
  set (s := rr_storage (dv_router d)) in *. apply (emits_wf s _ [] None Hw); [|constructor|by apply no_more_room|done].
  apply emits_search. intros Hs. by apply search_cleared.
Qed.
Lemma start_wf r t h : wf_store (rr_storage r) -> wf_task t ->
  wf_driver {| dv_router := r <| rr_storage ::= fun s => push (drop_undrained s) t |>; dv_host := h; dv_fresh := false; dv_later := false |}.
Proof.
  intros Hw Ht. destruct (drop_wf _ Hw) as [Hw0 Hr]. pose proof (ready_len _ Hr) as Hl.
  destruct (push_wf _ t Hw0) as (Hw' & Hl' & Hc'); [rewrite Hl; unfold QUEUE; lia|done|].
  apply wf_anew; cbn -[push drop_undrained]; [done|lia|]. rewrite Hc', (ready_single _ Hr). done.
Qed.
(** An edit keeps the table's invariant, and the direct routes it doesn't replace. *)
Lemma edit_table_ok ports t op : table_ok ports t -> op <> OpClear ->
  match op with OpAddDirect n p | OpAddLearned n p _ _ | OpLearn n p _ _ | OpClaim n p _ _ _ => 0 <= p < Z.of_nat ports /\ is_u16 n | _ => True end ->
  table_ok ports (table_step t op).1.
Proof.
  intros Hok Hc Hop. assert (learned_op ports op \/ ~ learned_op ports op) as [Hl|Hl] by (destruct op; cbn in *; tauto); [by eapply moves_ok; [apply mv_op|]|].
  destruct Hok as [Hw Hp]. pose proof (wf_step t op Hw) as Hw'. split; [done|]. pose proof (step_rows t op (proj1 Hw)) as Hrow.
  destruct (table_step t op) as [t' a]. cbn [fst] in *. destruct Hrow as [[Hs' _] Hrow]. intros k r. rewrite lookup_rows by done.
  assert (Hold : rows t' !! k = rows t !! k -> sl_route <$> rows t' !! k = Some r -> is_u16 k /\ 0 <= rt_port r < Z.of_nat ports).
  { intros -> E. apply (Hp k). by rewrite lookup_rows by apply Hw. }
  destruct op; cbn [learned_op map_step] in *; try done.
  - revert Hrow. unfold map_add_direct, map_put. destruct (is_reserved n); [intros [= E _]; apply Hold; by rewrite E|].
    destruct (has_room _ _ _); intros [= E _]; [|apply Hold; by rewrite E]. destruct (decide (k = n)) as [->|Hne].
    + rewrite E, lookup_insert_eq. intros [= <-]. cbn. tauto.
    + apply Hold. by rewrite E, lookup_insert_ne.
  - injection Hrow as E _. destruct (decide (k = n)) as [->|Hne]; [by rewrite E, lookup_delete_eq|]. apply Hold. by rewrite E, lookup_delete_ne.
  - injection Hrow as E _. apply Hold. by rewrite E.
Qed.
Lemma edit_direct t op k (r : Route) : wf_table t -> table_lookup t k = Some r -> rt_direct r = true -> replaces op k = false ->
  table_lookup (table_step t op).1 k = Some r.
Proof.
  intros Hw Hl Hd Hr. pose proof Hw as (Hs & Hrs & _). pose proof (step_rows t op Hs) as Hrow. rewrite lookup_rows in Hl by done.
  destruct (rows t !! k) as [s|] eqn:Es; [|done]. injection Hl as <-. destruct (table_step t op) as [t' a]. destruct Hrow as [[Hs' _] Hrow]. cbn [fst].
  pose proof (map_step_direct (table_capacity t) (tl_convergence t) (holds_since (tl_holds t)) (rows t) op k s Hrs Es Hd Hr) as H1.
  rewrite <-Hrow in H1. cbn [fst] in H1. by rewrite lookup_rows, H1.
Qed.
Lemma table_drive d op : wf_driver d -> permitted d (RoTable op) -> wf_driver (drive d (RoTable op)).
Proof.
  intros Hd [Hop Hrep]. pose proof (wd_store d Hd) as Hw. unfold drive, table_edit. cbv zeta. apply keep_drive; [done| |done]. cbn.
  set (s := rr_storage (dv_router d)) in *. pose proof Hw as [[? ? Htab] Hcount ? ? Hdir ? ? ? Hcur ? ?].
  assert (Hclear : op <> OpClear).
  { intros ->. destruct (ports_of s !! 0%nat) as [config|] eqn:E; [by specialize (Hrep _ _ E)|]. apply lookup_ge_None in E. unfold ports_of in E.
    rewrite length_take in E. lia. }
  split; try done.
  - split; try done. by apply edit_table_ok.
  - intros i config Hi. cbn. apply edit_direct; [apply Htab|by apply Hdir|done|by eapply Hrep].
  - intros Ha. destruct (Hcur Ha) as [n Hn]. exists n. by apply (carries_same s).
Qed.
(** A message for a network whose route names a port the router doesn't have is dropped, as one for an unknown port: nothing is sent. *)
Lemma missing_port_drops arr n route s (h : Hst) : port_at s (rt_port route) = None -> hop_count n <> 0 -> (rt_direct route = false -> hop_count n <> 1) ->
  wp (forward arr n route) (fun s' _ res => res = RDiscarded DUnknownPort /\ emits s s' [] None /\
    rc_unknown_port (st_counters s') = bump (rc_unknown_port (st_counters s))) s h.
Proof.
  intros Hp Hh Hl. unfold forward. rewrite (proj2 (Z.eqb_neq _ _) Hh). cbn [orb].
  replace (negb (rt_direct route) && (hop_count n =? 1)) with false by (destruct (rt_direct route); [done|]; specialize (Hl eq_refl); cbn; lia).
  apply wp_bind, wp_get. rewrite Hp. apply wp_bind, wp_upd, wp_bind, wp_observe. intros h1. apply wp_ret. split_and!; [done|apply emits_count|done].
Qed.
(** Every permitted call keeps the driver's router well-formed. *)
Lemma drive_wf d op : wf_driver d -> permitted d op -> wf_driver (drive d op).
Proof.
  intros Hd Hp. destruct op.
  - by apply receive_drive.
  - by apply originate_drive.
  - by apply poll_drive.
  - by apply refused_drive.
  - by apply later_drive.
  - by apply backlog_drive.
  - by apply limits_drive.
  - by apply deadline_drive.
  - by apply cancel_drive.
  - apply keep_drive; [done|apply counters_wf, Hd|done].
  - apply start_wf; [apply Hd|]. by apply (plain_task_wf TkAnnounce 0 0 0 MAC_EMPTY).
  - unfold drive, announce_port. cbv zeta. case_bool_decide; [by apply keep_drive; [|apply Hd|]|]. apply start_wf; [apply Hd|].
    apply (plain_task_wf TkAnnouncePort port 0 (port * 2) MAC_EMPTY); [by vm_compute|cbn in Hp; lia].
  - by apply table_drive.
Qed.
(** The drivers a router is reached with: built on a fresh storage, then any permitted calls. *)
Inductive reached : Driver -> Prop :=
| rd_new P R H' D N B ports opt now r h : router_new (storage_new P R H' D N B) ports opt now = Ok r -> Forall wf_port ports ->
    reached {| dv_router := r; dv_host := h; dv_fresh := false; dv_later := false |}
| rd_call d op : reached d -> permitted d op -> reached (drive d op).
Lemma reached_wf d : reached d -> wf_driver d.
Proof.
  induction 1 as [P R H' D N B ports opt now r h Hn Hp|d op _ IH Hp]; [|by apply drive_wf].
  destruct (new_wf _ _ _ _ _ _ _ _ _ _ Hn Hp) as (Hw & Hl & Hc). apply wf_anew; [done|lia|]. by rewrite Hc.
Qed.
End Calls.
