(* ===== verification/RouterExample.v ===== *)
(** * A small router

    A router of three ports, on networks 1, 2 and 3, and frames for it: the concrete input on which the theorems of the engine are
    applied. *)

From S2P Require Import Prelude Time Npdu Arrays RouteTable RouteTheorems RouteSafety Discovery RouterMessage.
From S2P Require Import RouterGroups RouterData RouterOutput RouterEngine RouterLogic RouterEmits RouterHandlers.
From S2P Require Import RouterPoll RouterTasks RouterInv RouterRun RouterCalls.
Open Scope Z_scope.

Definition example_port (network mac : Z) : PortConfig PortGroups :=
  {| pc_network := network; pc_mac := mac_or_empty [mac]; pc_max_npdu := limits_both 501; pc_groups := GroupsNone |}.
Definition example_ports : list (PortConfig PortGroups) := [example_port 1 11; example_port 2 12; example_port 3 13].
Definition example_built : Result (Router PortGroups) ConfigError := router_new (storage_new 3 8 4 4 1497 4) example_ports STANDARD 0.
Definition example_router : Router PortGroups :=
  match example_built with Ok r => r | Err _ => {| rr_storage := storage_new 3 8 4 4 1497 4; rr_options := STANDARD |} end.
Definition example : Driver := {| dv_router := example_router; dv_host := ThePermissive; dv_fresh := false; dv_later := false |}.
Lemma example_port_wf network mac : is_u16 network -> is_u8 mac -> wf_port (example_port network mac).
Proof. intros Hn Hm. split; [done|]. split; [by vm_compute; lia|]. by apply Forall_singleton. Qed.
Lemma example_reached : reached example.
Proof.
  apply (rd_new 3 8 4 4 1497 4 example_ports STANDARD 0); [by vm_compute|].
  repeat (apply Forall_cons_2; [by apply example_port_wf|]). apply Forall_nil_2.
Qed.
(** A frame from node 5 of network 1. *)
Definition example_frame (octets : bytes) : Frame := {| fm_port := 0; fm_source := [5]; fm_link_group := false; fm_npdu := octets |}.
(** To node 7 of network 2, as a unicast; to every node, as a global broadcast; and a query for the routing table. *)
Definition to_node : bytes := [1; 36; 0; 2; 1; 7; 255; 170; 187].
Definition to_all : bytes := [1; 32; 255; 255; 0; 255; 16; 8].
Definition query : bytes := [1; 128; 6; 0].
Definition example_now : Instant := NANOS_PER_SEC.
Lemma example_frame_wf octets : wf_bytes octets -> wf_frame (example_frame octets).
Proof. intros Ho. split_and!; [by vm_compute|by apply Forall_singleton|done]. Qed.
(** The frames as they arrive, and the NPDUs they hold. *)
Definition example_arrival : Arrival :=
  {| at_port := 0; at_network := 1; at_source := [5]; at_source_mac := mac_or_empty [5]; at_link_group := false; at_now := example_now |}.
Definition node_npdu : Npdu :=
  {| expecting_reply := true; priority := Normal; destination := Some {| addr_network := 2; addr_mac := [7] |}; source := None; hop_count := 255;
     message_type := None; vendor_id := None; payload := [170; 187]; payload_offset := 7 |}.
Definition all_npdu : Npdu :=
  {| expecting_reply := false; priority := Normal; destination := Some {| addr_network := 65535; addr_mac := [] |}; source := None; hop_count := 255;
     message_type := None; vendor_id := None; payload := [16; 8]; payload_offset := 6 |}.
Definition query_npdu : Npdu :=
  {| expecting_reply := false; priority := Normal; destination := None; source := None; hop_count := 255;
     message_type := Some INITIALIZE_ROUTING_TABLE; vendor_id := None; payload := [0]; payload_offset := 3 |}.
Lemma example_bytes : wf_bytes to_node /\ wf_bytes to_all /\ wf_bytes query.
Proof. split_and!; by repeat constructor. Qed.
