(* ===== verification/RouterTheorems.v ===== *)
(** * What a router does, from its construction on

    The theorems about the router engine as a whole: what holds of it after any calls, what a received frame draws, what a poll
    yields and when polling ends, and how far a message can be passed on. *)

From stdpp Require Import relations.
From S2P Require Import Prelude Time Npdu Arrays RouteTable RouteTheorems RouteSafety Discovery RouterMessage.
From S2P Require Import RouterGroups RouterData RouterOutput RouterEngine RouterLogic RouterEmits RouterHandlers.
From S2P Require Import RouterPoll RouterTasks RouterInv RouterRun RouterCalls RouterExample.
Open Scope Z_scope.

Section Theorems.
Context {G : Type} `{GroupClassifier G} {Hst : Type} `{Host Hst}.
Implicit Types (s : Storage G) (r : Router G) (d : Driver (G := G) (Hst := Hst)).
Abbreviation current s := (ou_current (st_out s)).
Abbreviation storage d := (rr_storage (dv_router d)).

(** ** Reached routers *)


(** ** Polling *)

(** The sends of up to [k] polls, until one is idle. *)
Fixpoint poll_sends (k : nat) r : Router G * list Send :=
  match k with
  | O => (r, [])
  | S k =>
      match router_poll_action r with
      | (r, ActSend sd) => let '(r, sends) := poll_sends k r in (r, sd :: sends)
      | (r, ActIdle) => (r, [])
      end
  end.
Lemma drained_idle s s' : drained s s' -> poll s' = (s', ActIdle).
Proof.
  intros [Hw _ Hi Hl Hf]. unfold poll, poll_fuel. cbn [poll_loop].
  unfold next_target. rewrite Hi. cbn [negb]. unfold write_task, outputs_front. rewrite Hl, take_0. cbn [lookup list_lookup].
  unfold write_announcement. rewrite (proj2 (list_find_None _ _)); [done|]. apply Forall_forall. intros f Hin Hwait.
  rewrite forallb_forall in Hf. specialize (Hf f (proj1 (list_elem_of_In _ _) Hin)). by rewrite Hwait in Hf.
Qed.
Lemma poll_action_spec r : wf_store (rr_storage r) ->
  match router_poll_action r with
  | (r', ActSend sd) => polled (rr_storage r) (rr_storage r') sd
  | (r', ActIdle) => drained (rr_storage r) (rr_storage r')
  end.
Proof.
  intros Hw. unfold router_poll_action. pose proof (poll_spec _ Hw) as Hp. destruct (poll (rr_storage r)) as [s' [sd|]]; exact Hp.
Qed.
Lemma poll_sends_spec k : forall r, wf_store (rr_storage r) -> (polls_left (rr_storage r) <= k)%nat ->
  let '(r', sends) := poll_sends (S k) r in
  (length sends <= polls_left (rr_storage r))%nat /\ exists r0, drained (rr_storage r0) (rr_storage r') /\ rr_options r' = rr_options r.
Proof.
  induction k as [|k IH]; intros r Hw Hk; cbn [poll_sends]; pose proof (poll_action_spec r Hw) as Hp;
    assert (Hopt : rr_options (router_poll_action r).1 = rr_options r) by (unfold router_poll_action; by destruct (poll _));
    destruct (router_poll_action r) as [r1 [sd|]]; cbn [fst] in Hopt; try (split; [cbn; lia|by exists r]).
  { pose proof (po_fewer _ _ _ Hp). lia. }
  pose proof (po_fewer _ _ _ Hp) as Hfew. specialize (IH r1 (po_wf _ _ _ Hp) ltac:(lia)). cbn [poll_sends] in IH.
  destruct (router_poll_action r1) as [r2 [sd2|]].
  - destruct (poll_sends k r2) as [r3 sends]. destruct IH as (Hl & r0 & Hd & Ho). split; [cbn in *; lia|]. exists r0. split; [done|congruence].
  - destruct IH as (Hl & r0 & Hd & Ho). split; [cbn in *; lia|]. exists r0. split; [done|congruence].
Qed.
Definition polls_bound s : nat := (poll_fuel s * (st_port_count s + 2) + st_port_count s + 1)%nat.
Lemma polls_left_bound s : wf_store s -> (polls_left s <= polls_bound s)%nat.
Proof.
  intros Hw. pose proof (work_fuel s Hw). pose proof (sends_left_le (st_port_count s) (current s)). unfold polls_left, polls_bound. nia.
Qed.
(** Polling ends. However many tasks and announcements wait, a driver that polls until idle has polled at most [polls_bound]
    sends; then nothing waits, and further polls stay idle and change nothing. The rounds the model gives one poll are enough:
    more change nothing. *)
Theorem polling_ends d : reached d ->
  (forall extra, poll_loop (poll_fuel (storage d) + extra) (storage d) = poll (storage d)) /\
  let '(r', sends) := poll_sends (S (polls_bound (storage d))) (dv_router d) in
  (length sends <= polls_bound (storage d))%nat /\ router_poll_action r' = (r', ActIdle) /\
  outputs_pending (st_out (rr_storage r')) (st_port_count (rr_storage r')) = 0%nat /\
  forallb (fun f => negb (flow_waits f)) (flows_of (rr_storage r')) = true.
Proof.
  intros Hd. pose proof (wd_store d (reached_wf d Hd)) as Hw. pose proof (polls_left_bound _ Hw) as Hb.
  split; [intros extra; by apply poll_loop_more; [|apply work_fuel]|].
  pose proof (poll_sends_spec _ (dv_router d) Hw Hb) as Hs. destruct (poll_sends _ _) as [r' sends].
  destruct Hs as (Hl & r0 & Hdr & _). split_and!; [lia| | |apply Hdr].
  - unfold router_poll_action. rewrite (drained_idle _ _ Hdr). by destruct r'.
  - unfold outputs_pending, has_more. by rewrite (dr_inactive _ _ Hdr), (dr_len _ _ Hdr).
Qed.
(** Every send polled is to a port the router has, is no longer than that port's limit for the way it is sent, and its octets are
    those of one NPDU, which a receiver decodes. *)
Theorem polled_send_sound d r' sd : reached d -> router_poll_action (dv_router d) = (r', ActSend sd) ->
  (exists config, port_at (storage d) (sd_port sd) = Some config /\
     Z.of_nat (length (sd_npdu sd)) <= limits_get (pc_max_npdu config) (match sd_to sd with ToBroadcast => true | _ => false end)) /\
  exists n, wf_npdu n /\ npdu_decode (sd_npdu sd) = Ok (canonical n).
Proof.
  intros Hd Hp. pose proof (poll_action_spec (dv_router d) (wd_store d (reached_wf d Hd))) as Hs. rewrite Hp in Hs.
  split; [apply Hs|]. destruct (po_npdu _ _ _ Hs) as (n & [Hn Hc] & ->). exists n. split; [done|]. by apply npdu_decode_octets.
Qed.

(** ** What a frame draws *)


(** ** Passing on *)

(** The NPDU a relay send of this state would carry. *)
Definition relaying s (n : Npdu) : Prop :=
  has_more (current s) (st_port_count s) = true -> is_relay (current_kind (current s)) = true -> carries s n /\ cu_tail (current s) = 0%nat.
Lemma relays_same k n : forall r, wf_store (rr_storage r) -> relaying (rr_storage r) n ->
  Forall (fun sd => is_relay (sd_kind sd) = true -> sd_npdu sd = npdu_octets n /\ good n /\
    has_more (current (rr_storage r)) (st_port_count (rr_storage r)) = true /\ is_relay (current_kind (current (rr_storage r))) = true)
    (poll_sends k r).2.
Proof.
  induction k as [|k IH]; intros r Hw Hr; cbn [poll_sends]; [constructor|]. pose proof (poll_action_spec r Hw) as Hp.
  destruct (router_poll_action r) as [r1 [sd|]]; [|constructor].
  assert (Hsd : is_relay (sd_kind sd) = true -> sd_npdu sd = npdu_octets n /\ (carries (rr_storage r1) n /\ cu_tail (current (rr_storage r1)) = 0%nat) /\
    has_more (current (rr_storage r)) (st_port_count (rr_storage r)) = true /\ is_relay (current_kind (current (rr_storage r))) = true).
  { intros Hk. destruct (po_relay _ _ _ Hp Hk) as (Hm & Hkind & Hn). rewrite <-Hkind in Hk. destruct (Hr Hm Hk) as [Hc Ht].
    by destruct (Hn n Hc Ht) as (? & ? & ?). }
  specialize (IH r1 (po_wf _ _ _ Hp)). destruct (poll_sends k r1) as [r2 sends]. constructor.
  - intros Hk. destruct (Hsd Hk) as (? & [Hc _] & ? & ?). split_and!; try done. apply Hc.
  - eapply Forall_impl; [apply IH|].
    + intros _ Hk. rewrite <-(po_kind _ _ _ Hp) in Hk. by destruct (Hsd Hk) as (_ & ? & _).
    + intros sd2 Hsd2 Hk2. destruct (Hsd2 Hk2) as (? & ? & _ & Hk1). rewrite <-(po_kind _ _ _ Hp) in Hk1.
      destruct (Hsd Hk1) as (_ & _ & ? & ?). done.
Qed.
(** What one relay does to an NPDU: it needs a destination and hops; the copy has none of the one, or fewer of the other. *)
Definition passed_on (n n' : Npdu) : Prop :=
  is_some (destination n) = true /\ 1 <= hop_count n /\ (destination n' = None \/ hop_count n' < hop_count n).
Lemma allowed_relay s arr n ts n' kind target o : allowed s arr n ts (Some (n', kind, target, o)) -> wf_npdu n -> is_relay kind = true -> passed_on n n'.
Proof.
  intros Ha (_ & _ & Hh & _) Hk. inversion Ha as [| | | | | | | |route n1 n'' to egress _ Hd _ Hre Hfw Hh0 Hh1 _ _|Hd _ _ Hh1 _| |]; subst; try done.
  - apply regroups_regrouped in Hre. assert (Hh1' : hop_count n1 = hop_count n) by (by destruct Hre as [->| ->]). split_and!; [done|width|].
    destruct (rt_direct route) eqn:E; [left; by destruct (fw_arrived _ _ _ _ _ Hfw E)|right]. destruct (fw_onward _ _ _ _ _ Hfw E) as (_ & -> & _). width.
  - split_and!; [done|width|]. right. cbn. lia.
Qed.
(** A relay send after a reception carries the frame's own NPDU, passed on. *)
Lemma relay_of_frame d frame now k sd : reached d -> wf_frame frame -> sd ∈ (poll_sends k (dv_router (drive d (RoReceive frame now)))).2 ->
  is_relay (sd_kind sd) = true ->
  exists n n', npdu_decode (fm_npdu frame) = Ok n /\ wf_npdu n /\ good n' /\ sd_npdu sd = npdu_octets n' /\ passed_on n n'.
Proof.
  intros Hd Hf Hin Hk. pose proof (clock_wf _ now (wd_store d (reached_wf d Hd))) as Hw.
  pose proof (wd_store _ (reached_wf _ (rd_call d _ Hd (Hf : permitted d (RoReceive frame now))))) as Hw'.
  destruct (frame_received frame (st_latest (clock (storage d) now)) (rr_options (dv_router d)) _ (dv_host d) Hw Hf) as (ts & w & [_ He Hdr _ _]).
  assert (Hsto : storage (drive d (RoReceive frame now)) = (store_receive frame (st_latest (clock (storage d) now)) (rr_options (dv_router d))
    (clock (storage d) now) (dv_host d)).1.1).
  { unfold drive, router_receive. by destruct (store_receive _ _ _ _ _) as [[s' h'] res]. }
  rewrite <-Hsto in He. set (r1 := dv_router (drive d (RoReceive frame now))) in *.
  destruct (drop_wf _ Hw) as [Hw0 Hr0]. pose proof (em_current _ _ _ _ He) as Hc.
  destruct (drawn_wf _ _ _ _ _ Hw0 Hf Hdr) as (_ & _ & Hwr & _). destruct w as [[[[n' kind] target] o]|].
  - destruct Hc as [Henc Hc]. destruct Hwr as (Hn' & _). assert (Hkind : current_kind (current (rr_storage r1)) = kind) by (rewrite Hc; by destruct target, kind).
    assert (Hrel : relaying (rr_storage r1) n').
    { intros _ _. split; [by eapply written_carries|]. rewrite Hc. by destruct target. }
    pose proof (proj1 (Forall_forall _ _) (relays_same k n' r1 Hw' Hrel) sd Hin Hk) as (Hoct & Hg & _ & Hkd). rewrite Hkind in Hkd.
    unfold drawn in Hdr. destruct (arrives _ _ _) as [arr|]; [|by destruct Hdr]. destruct (admit_npdu (fm_npdu frame)) as [n|] eqn:Ha; [|by destruct Hdr].
    destruct (admitted _ _ (proj2 (proj2 Hf)) Ha) as (Hdec & Hwf & _). exists n, n'. split_and!; try done. all: by eapply allowed_relay.
  - destruct Hc as [Hc _].
    assert (Hmore : has_more (current (rr_storage r1)) (st_port_count (rr_storage r1)) = false).
    { rewrite Hc, (em_count _ _ _ _ He). destruct Hr0 as [Hp _]. unfold outputs_pending in Hp. destruct (has_more _ _); [lia|done]. }
    assert (Hrel : relaying (rr_storage r1) (npdu_apdu [])) by (intros Hm; congruence).
    pose proof (proj1 (Forall_forall _ _) (relays_same k _ r1 Hw' Hrel) sd Hin Hk) as (_ & _ & Hm & _). congruence.
Qed.
(** A message relayed that many times, by reached routers: each one's relay send is the next one's frame. *)
Inductive relay_path : bytes -> nat -> Prop :=
| rp_end octets : relay_path octets 0
| rp_hop d frame now k sd m : reached d -> wf_frame frame -> sd ∈ (poll_sends k (dv_router (drive d (RoReceive frame now)))).2 ->
    is_relay (sd_kind sd) = true -> relay_path (sd_npdu sd) m -> relay_path (fm_npdu frame) (S m).
Lemma relay_path_hops octets m : relay_path octets m -> forall n, npdu_decode octets = Ok n -> wf_npdu n ->
  match destination n with None => m = 0%nat | Some _ => Z.of_nat m <= hop_count n end.
Proof.
  induction 1 as [octets|d frame now k sd m Hd Hf Hin Hk _ IH]; intros n0 Hdec Hw0.
  { destruct Hw0 as (_ & _ & Hh & _). destruct (destination n0); [width|done]. }
  destruct (relay_of_frame d frame now k sd Hd Hf Hin Hk) as (n & n' & Hn & Hwf & [Hwn Hc] & Hoct & (Hdst & Hh & Hless)).
  replace n0 with n in * by congruence. destruct (destination n); [|done].
  specialize (IH (canonical n')). rewrite Hoct, npdu_decode_octets in IH by done. specialize (IH eq_refl).
  assert (Hcw : wf_npdu (canonical n')).
  { destruct Hwn as (H1 & H2 & H3 & H4 & H5 & H6). split_and!; cbn; try done; [destruct (destination n'); [done|by vm_compute]|].
    intros v. destruct (message_type n') as [kind|]; [|done]. destruct (message_is_proprietary kind); [|done]. intros [= <-].
    destruct (vendor_id n') as [v|]; [by apply H5|by vm_compute]. }
  specialize (IH Hcw). cbn in IH. destruct (destination n') as [d'|]; cbn in IH; [destruct Hless as [|]; [done|lia]|]. subst m. lia.
Qed.
(** C33: no message with a hop count is passed on for ever: a chain of routers, each forwarding the message the one before it forwarded, or passing on
    its global broadcast, is never longer than 255, whatever the routers' tables say, loops included. Relayed network messages (a search, an
    I-Am-Router, a busy or available notice) carry no hop count and are not counted. *)
Theorem relay_path_ends octets m : relay_path octets m -> (m <= 255)%nat.
Proof.
  intros Hp. destruct Hp as [octets|d frame now k sd m Hd Hf Hin Hk Hp]; [lia|].
  destruct (relay_of_frame d frame now k sd Hd Hf Hin Hk) as (n & n' & Hn & Hwf & _ & _ & (Hdst & _)).
  pose proof (relay_path_hops _ _ (rp_hop d frame now k sd m Hd Hf Hin Hk Hp) n Hn Hwf) as Hm. destruct (destination n); [|done].
  destruct Hwf as (_ & _ & Hh & _). unfold is_u8, U8_MAX in Hh. lia.
Qed.
Lemma one_relay d frame now : reached d -> wf_frame frame ->
  match (poll_sends 1 (dv_router (drive d (RoReceive frame now)))).2 !! 0%nat with Some sd => is_relay (sd_kind sd) | None => false end = true ->
  relay_path (fm_npdu frame) 1.
Proof.
  intros Hd Hf Hs. destruct (_ !! 0%nat) as [sd|] eqn:E; [|done].
  apply (rp_hop d frame now 1 sd 0 Hd Hf); [by apply (list_elem_of_lookup_2 _ 0)|done|apply rp_end].
Qed.
End Theorems.

(** ** The theorems at work *)

Definition example_relay : Driver := drive example (RoReceive (example_frame to_node) example_now).
Lemma example_relay_reached : reached example_relay.
Proof. apply rd_call; [apply example_reached|]. by apply example_frame_wf, example_bytes. Qed.
Lemma polling_ends_witness :
  poll_loop (poll_fuel (rr_storage (dv_router example_relay)) + 3) (rr_storage (dv_router example_relay)) = poll (rr_storage (dv_router example_relay)).
Proof.
  pose proof example_relay_reached as Hr. revert Hr. generalize example_relay. intros d Hr.
  destruct (polling_ends d Hr) as [Hmore _]. exact (Hmore 3%nat).
Defined.
Lemma polled_send_sound_witness : exists sd n, (router_poll_action (dv_router example_relay)).2 = ActSend sd /\ npdu_decode (sd_npdu sd) = Ok (canonical n).
Proof.
  assert (Hsend : match (router_poll_action (dv_router example_relay)).2 with ActSend _ => true | ActIdle => false end = true) by (vm_compute; reflexivity).
  revert Hsend. pose proof example_relay_reached as Hr. revert Hr. generalize example_relay. intros d Hr.
  destruct (router_poll_action (dv_router d)) as [r' [sd|]] eqn:E; [intros _|intros Hsend; discriminate Hsend].
  destruct (polled_send_sound d r' sd Hr E) as [_ (n & _ & Hn)]. by exists sd, n.
Defined.
Lemma relay_path_ends_witness : (1 <= 255)%nat.
Proof.
  apply (relay_path_ends (G := PortGroups) (Hst := Permissive) to_node).
  apply (one_relay example (example_frame to_node) example_now example_reached); [by apply example_frame_wf, example_bytes|].
  vm_compute. reflexivity.
Defined.
