(* ===== verification/RouterRelay.v ===== *)
(** * What is relayed, exactly

    A unicast for a network with a usable route leaves once, rewritten, on that route's port and nowhere else; a global broadcast
    leaves once on every other port that carries it. *)

From stdpp Require Import relations.
From S2P Require Import Prelude Time Npdu Arrays RouteTable RouteTheorems RouteSafety Discovery RouterMessage.
From S2P Require Import RouterGroups RouterData RouterOutput RouterEngine RouterLogic RouterEmits RouterHandlers.
From S2P Require Import RouterPoll RouterTasks RouterInv RouterRun RouterCalls RouterExample RouterTheorems.
Open Scope Z_scope.

Section Relay.
Context {G : Type} `{GroupClassifier G} {Hst : Type} `{Host Hst}.
Implicit Types (s : Storage G) (r : Router G) (n : Npdu) (arr : Arrival).
Abbreviation current s := (ou_current (st_out s)).

(** ** Forwarding *)

(** A unicast or remote broadcast the router has a usable route for, through another port whose link carries it. *)
Record routable s arr n (dst : Address) (route : Route) (egress : PortConfig G) : Prop := {
  ra_apdu : message_type n = None; ra_destination : destination n = Some dst; ra_remote : addr_network dst <> GLOBAL_NETWORK;
  ra_foreign : is_own s dst = false; ra_route : table_lookup (st_table s) (addr_network dst) = Some route;
  ra_reachable : effective_reachability (st_table s) (addr_network dst) (at_now arr) = Some Reachable;
  ra_away : rt_port route <> at_port arr; ra_node : group_of s route n = GroupNo;
  ra_hops : hop_count n <> 0 /\ (rt_direct route = false -> hop_count n <> 1);
  ra_egress : port_at s (rt_port route) = Some egress;
  ra_fits : forall n' to, forwards arr n route n' to -> Z.of_nat (encoded_len n') <= limits_get (pc_max_npdu egress) (bool_decide (to = []))
}.
Lemma forwarded_wp s arr n dst route egress opt (h : Hst) : ready s -> routable s arr n dst route egress ->
  encode_checks (rewrite arr n route).1 = None -> (encoded_len (rewrite arr n route).1 <= length (st_scratch s))%nat ->
  wp (dispatch arr n opt) (fun s' _ res => res = RHandled /\
    emits s s' [] (Some ((rewrite arr n route).1, KForward, Toward (rt_port route) (rewrite arr n route).2,
      default ORIGIN_NONE (reject_origin s arr (source n) (addr_network dst))))) s h.
Proof.
  intros Hr [Hm Hd Hg Hown Hroute Hreach Haway Hgroup [Hh0 Hh1] Hegress Hfits] Henc Hlen.
  unfold dispatch. rewrite Hm. unfold route_apdu. rewrite Hd, (proj2 (Z.eqb_neq _ _) Hg).
  apply wp_bind, wp_get. rewrite Hown, andb_false_r. apply wp_bind. unfold find_route. do 2 (apply wp_bind, wp_get). cbv beta.
  rewrite Hroute, Hreach. apply wp_bind, wp_upd, wp_ret. set (s1 := s <| st_table ::= _ |>).
  assert (He : emits s s1 [] None) by (by apply (emits_op s (OpTouch (addr_network dst) (at_now arr)))).
  assert (Hport : forall p, port_at s1 p = port_at s p) by apply (proj2 (emits_same_ports _ _ _ _ He)).
  rewrite (proj2 (Z.eqb_neq _ _) Haway). cbn [andb]. apply wp_bind, wp_get. apply wp_bind, wp_ret. apply wp_bind, wp_get.
  replace (group_of s1 route n) with GroupNo by (rewrite <-Hgroup; unfold group_of; by rewrite Hport).
  apply wp_bind. unfold forward. rewrite (proj2 (Z.eqb_neq _ _) Hh0). cbn [orb].
  replace (negb (rt_direct route) && (hop_count n =? 1)) with false by (destruct (rt_direct route); [done|]; cbn; specialize (Hh1 eq_refl); lia).
  specialize (Hfits _ _ (rewrite_forwards arr n route)).
  apply wp_bind, wp_get. rewrite Hport, Hegress. destruct (rewrite arr n route) as [n' to] eqn:Hrw. cbn [fst snd] in *.
  rewrite (proj2 (Z.ltb_ge _ _) Hfits). rewrite (bool_decide_eq_false_2 (message_type n = _)) by (by rewrite Hm). cbn [negb].
  apply wp_bind, wp_act. pose proof (write_now_spec s1 n' KForward (Toward (rt_port route) to) (emits_ready _ _ He Hr)) as Hw.
  destruct (write_now s1 n' KForward (Toward (rt_port route) to)) as [s2 ok] eqn:Hwn.
  assert (ok = true) as ->.
  { revert Hwn. unfold write_now. cbv zeta. rewrite npdu_encode_into_octets by (done || exact Hlen). by intros [= _ <-]. }
  cbn [fst snd]. apply wp_bind, wp_upd, wp_ret, wp_ret. split; [done|].
  pose proof (emits_trans _ _ _ [] [] _ He Hw) as He2. erewrite same_reject_origin by exact He2.
  replace (dnet_of n) with (addr_network dst) by (unfold dnet_of; by rewrite Hd).
  by apply emits_origin.
Qed.
(** Polling an output for one port. *)
Lemma poll_single s : cu_active (current s) = true -> cu_fan_out (current s) = false ->
  fits_from s (cu_len (current s)) (cu_port (current s)) (cu_broadcast (current s)) = true ->
  let s' := marked (on_current (fun c => c <| cu_active := false |>) s) (cu_port (current s)) in
  poll s = (s', ActSend (current_send s' (cu_port (current s)) (cu_broadcast (current s)))).
Proof.
  intros Ha Hf Hfit. cbv zeta. unfold poll, poll_fuel. cbn [poll_loop]. unfold next_target. rewrite Ha, Hf. cbn [negb].
  rewrite (fits_from_same s) by done. by rewrite Hfit.
Qed.
Definition quiet_flows s : bool := forallb (fun f => negb (flow_waits f)) (flows_of s).
Lemma nothing_to_write s : ou_len (st_out s) = 0%nat -> quiet_flows s = true -> write_task s = (s, false).
Proof.
  intros Hl Hf. unfold write_task, outputs_front. rewrite Hl, take_0. cbn [lookup list_lookup].
  unfold write_announcement. rewrite (proj2 (list_find_None _ _)); [done|]. apply Forall_forall. intros f Hin Hwait.
  unfold quiet_flows in Hf. rewrite forallb_forall in Hf. specialize (Hf f (proj1 (list_elem_of_In _ _) Hin)). by rewrite Hwait in Hf.
Qed.
Lemma poll_idle s : cu_active (current s) = false -> ou_len (st_out s) = 0%nat -> quiet_flows s = true -> poll s = (s, ActIdle).
Proof.
  intros Hi Hl Hf. unfold poll, poll_fuel. cbn [poll_loop]. unfold next_target. rewrite Hi. cbn [negb]. by rewrite nothing_to_write.
Qed.
Lemma drop_quiet s : quiet_flows (drop_undrained s) = true.
Proof.
  assert (Hq : forall l P, forallb (fun f => negb (flow_waits f)) (take P (((fun f => (flow_take_pending f).1) <$> take P l) ++ drop P l)) = true).
  { intros l P. apply forallb_forall. intros f Hf%list_elem_of_In. destruct (decide (P <= length l)%nat) as [Hl|Hl].
    - rewrite take_app_length' in Hf by (rewrite length_fmap, length_take; lia). by apply list_elem_of_fmap in Hf as (f0 & -> & _).
    - rewrite (drop_ge l) in Hf by lia. rewrite app_nil_r in Hf. apply elem_of_take in Hf as (i & Hi & _).
      apply list_elem_of_lookup_2, list_elem_of_fmap in Hi as (f0 & -> & _). done. }
  unfold quiet_flows, drop_undrained. cbv zeta. case_bool_decide; apply (Hq (st_flows s) (st_port_count s)).
Qed.
Lemma poll_action_eq r s' a : poll (rr_storage r) = (s', a) -> router_poll_action r = (r <| rr_storage := s' |>, a).
Proof. intros Hp. unfold router_poll_action. by rewrite Hp. Qed.
Lemma poll_action_same r a : poll (rr_storage r) = (rr_storage r, a) -> router_poll_action r = (r, a).
Proof. intros Hp. unfold router_poll_action. rewrite Hp. by destruct r. Qed.
(** A port's network is one the table holds a direct route to, so never a reserved number. *)
Lemma port_unreserved s p config : wf_store s -> port_at s p = Some config -> pc_network config <> 0 /\ pc_network config <> GLOBAL_NETWORK.
Proof.
  intros Hw Hp. pose proof (wi_direct s Hw _ _ Hp) as Hl. destruct (ws_table s (wi_source s Hw)) as [(Hs & Hr & _) _].
  rewrite lookup_rows in Hl by done. destruct (rows (st_table s) !! pc_network config) as [slot|] eqn:E; [|done].
  pose proof (wr_unreserved _ _ (Hr _ _ E)) as Hu. unfold is_reserved, GLOBAL_NETWORK in *. lia.
Qed.
Lemma rewritten_encodable s arr n config route : wf_store s -> port_at s (at_port arr) = Some config -> at_network arr = pc_network config ->
  (0 < length (at_source arr) <= MAX_MAC_LEN)%nat -> encodable_destination (destination n) -> encodable_source (source n) ->
  encode_checks (rewrite arr n route).1 = None.
Proof.
  intros Hw Hp Hnet Hl Hd Hs. apply encode_checks_none. unfold rewrite.
  assert (Hsrc : encodable_source (source_of arr n)).
  { unfold source_of. destruct (source n) as [a|]; [done|]. cbn. rewrite Hnet. by destruct (port_unreserved s _ _ Hw Hp). }
  by destruct (rt_direct route).
Qed.
Lemma arrives_inv s frame now arr : arrives s frame now = Some arr ->
  exists config, port_at s (at_port arr) = Some config /\ at_network arr = pc_network config /\ at_source arr = fm_source frame /\
    (length (fm_source frame) <= MAX_MAC_LEN)%nat /\ at_port arr = fm_port frame /\
    forall opt h, admit_source (fm_source frame) = Ok (at_source_mac arr) /\
      forall n, admit_npdu (fm_npdu frame) = Ok n -> forall s1, drop_undrained s1 = s ->
      store_receive frame now opt s1 h = dispatch (Hst := Hst) arr n opt s h.
Proof.
  unfold arrives. destruct (port_at s (fm_port frame)) as [config|] eqn:Hp; [|done].
  destruct (admit_source (fm_source frame)) as [mac|] eqn:Hm; [|done]. intros [= <-]. exists config. cbn.
  assert (Hl : (length (fm_source frame) <= MAX_MAC_LEN)%nat).
  { revert Hm. unfold admit_source. pose proof (mac_from_slice_as_slice (fm_source frame)) as Hx. destruct (mac_from_slice _); [by destruct Hx|done]. }
  split_and!; try done. intros opt h. split; [done|]. intros n Hn s1 Hs1. unfold store_receive, bind, upd, get. rewrite Hs1, Hp, Hm, Hn. done.
Qed.
(** The same, with the NPDU as the engine rewrites it. *)
Lemma relay_rewritten (d : Driver (G := G) (Hst := Hst)) frame now n dst route egress arr :
  reached d -> wf_frame frame -> fm_source frame <> [] ->
  arrives (drop_undrained (clock (rr_storage (dv_router d)) now)) frame (st_latest (clock (rr_storage (dv_router d)) now)) = Some arr ->
  admit_npdu (fm_npdu frame) = Ok n -> routable (drop_undrained (clock (rr_storage (dv_router d)) now)) arr n dst route egress ->
  (length (rewrite arr n route).2 <= MAX_MAC_LEN)%nat ->
  let '(r1, _, res) := router_receive (dv_router d) frame now (dv_host d) in
  res = RHandled /\ exists r2 sd, router_poll_action r1 = (r2, ActSend sd) /\ router_poll_action r2 = (r2, ActIdle) /\
    sd_port sd = rt_port route /\ sd_kind sd = KForward /\ sd_cause sd = CauseIngress /\ sd_priority sd = priority n /\
    sd_to sd = (if bool_decide ((rewrite arr n route).2 = []) then ToBroadcast else ToUnicast (rewrite arr n route).2) /\
    npdu_decode (sd_npdu sd) = Ok (canonical (rewrite arr n route).1).
Proof.
  intros Hd Hf Hne Harr Hn Hra Hto. unfold router_receive. pose proof (clock_wf _ now (wd_store d (reached_wf d Hd))) as Hw.
  set (s := clock (rr_storage (dv_router d)) now) in *. destruct (drop_wf s Hw) as [Hw0 Hr]. pose proof (drop_quiet s) as Hquiet.
  destruct (arrives_inv _ _ _ _ Harr) as (config & Hp & Hnet & Hsrc & Hl & Hport & Hrecv).
  destruct (Hrecv (rr_options (dv_router d)) (dv_host d)) as [_ Hdisp]. rewrite (Hdisp n Hn s eq_refl). clear Hrecv Hdisp.
  set (s0 := drop_undrained s) in *. destruct (admitted _ _ (proj2 (proj2 Hf)) Hn) as (_ & Hwf & Hed & Hes).
  assert (Henc : encode_checks (rewrite arr n route).1 = None).
  { eapply rewritten_encodable; try done. rewrite Hsrc. destruct (fm_source frame); [done|cbn in *; lia]. }
  assert (Hwn : wf_npdu (rewrite arr n route).1).
  { apply (rewrite_wf arr n); [done| |by left|apply Hra]. split; [rewrite Hnet; by apply (port_source_wf s0 _ _ Hw0 Hp)|rewrite Hsrc; apply Hf]. }
  assert (Hscr : (encoded_len (rewrite arr n route).1 <= length (st_scratch s0))%nat).
  { pose proof (wi_limits s0 Hw0 _ _ (ra_egress _ _ _ _ _ _ Hra)) as Hlim. pose proof (ra_fits _ _ _ _ _ _ Hra _ _ (rewrite_forwards arr n route)) as Hfit.
    unfold limits_fit in Hlim. cbn in Hlim. unfold limits_get in Hfit. destruct (bool_decide _); lia. }
  pose proof (forwarded_wp s0 arr n dst route egress (rr_options (dv_router d)) (dv_host d) Hr Hra Henc Hscr) as Hwp.
  unfold wp in Hwp. destruct (dispatch arr n (rr_options (dv_router d)) s0 (dv_host d)) as [[s1 h1] res]. cbn [fst snd] in Hwp.
  destruct Hwp as [-> He]. split; [done|]. destruct (em_current _ _ _ _ He) as [Hw1 Hc1].
  set (to := (rewrite arr n route).2) in *. set (n' := (rewrite arr n route).1) in *.
  assert (Hfit1 : fits_from s1 (cu_len (current s1)) (cu_port (current s1)) (cu_broadcast (current s1)) = true).
  { rewrite Hc1. unfold fits_from. cbn. rewrite (proj2 (emits_same_ports _ _ _ _ He)), (ra_egress _ _ _ _ _ _ Hra).
    apply Z.leb_le, (ra_fits _ _ _ _ _ _ Hra), rewrite_forwards. }
  pose proof (poll_single s1 ltac:(by rewrite Hc1) ltac:(by rewrite Hc1) Hfit1) as Hpoll. cbv zeta in Hpoll.
  set (s2 := marked _ _) in Hpoll. set (r1 := (dv_router d) <| rr_storage := s1 |>).
  exists (r1 <| rr_storage := s2 |>). eexists. split; [exact (poll_action_eq r1 s2 _ Hpoll)|]. split.
  { apply poll_action_same. change (rr_storage (r1 <| rr_storage := s2 |>)) with s2. apply poll_idle; [done| |].
    - change (ou_len (st_out s1) = 0%nat). by rewrite (em_len _ _ _ _ He), (ready_len _ Hr).
    - change (quiet_flows s1 = true). unfold quiet_flows, flows_of in *. by rewrite (em_flows _ _ _ _ He), (em_count _ _ _ _ He). }
  destruct (mac_slice to Hto) as (m & Hm & Hms).
  assert (Hcur : current s2 = (current_for (n', KForward, Toward (rt_port route) to,
    default ORIGIN_NONE (reject_origin s0 arr (source n) (addr_network dst)))) <| cu_active := false |>).
  { exact (f_equal (fun c => c <| cu_active := false |>) Hc1). }
  assert (Hscr2 : st_scratch s2 = st_scratch s1) by done. clearbody s2. unfold current_send. rewrite Hcur, Hc1, Hscr2.
  clear Hpoll Hcur Hfit1. cbn -[encoded_len rewrite n']. split_and!; try done.
  - unfold n', rewrite. by destruct (rt_direct route).
  - unfold mac_or_empty. rewrite Hm, Hms. done.
  - rewrite drop_0. rewrite npdu_encode_into_octets in Hw1 by done.
    assert (st_scratch s1 = npdu_octets n' ++ drop (encoded_len n') (st_scratch s0)) as -> by congruence.
    rewrite take_app_length' by (by rewrite length_npdu_octets). by apply npdu_decode_octets.
Qed.

(** ** Fanning out *)

(** The ports a fan-out still goes to. *)
Definition fan_ports s : list nat :=
  List.filter (takes s (cu_port (current s)) (cu_len (current s))) (seq (cu_next (current s)) (st_port_count s - cu_next (current s))).
Lemma filter_nothing (q : nat -> bool) m : forall a, (forall i, (a <= i < a + m)%nat -> q i = false) -> List.filter q (seq a m) = [].
Proof.
  induction m as [|m IH]; intros a Hno; [done|]. cbn [seq List.filter]. rewrite Hno by lia. apply IH. intros i Hi. apply Hno. lia.
Qed.
Lemma filter_first (q : nat -> bool) a m j : (a <= j < a + m)%nat -> q j = true -> (forall i, (a <= i < j)%nat -> q i = false) ->
  List.filter q (seq a m) = j :: List.filter q (seq (S j) (a + m - S j)).
Proof.
  intros Hj Hq Hno. replace m with ((j - a) + S (a + m - S j))%nat at 1 by lia. rewrite seq_app, List.filter_app.
  rewrite filter_nothing by (intros i Hi; apply Hno; lia). replace (a + (j - a))%nat with j by lia. cbn [seq List.filter app]. by rewrite Hq.
Qed.
(** The sends of a fan-out: one per port, in the ports' order, all of the same octets, all broadcasts. *)
Definition fan_send (n : Npdu) (kind : Kind) (j : nat) (sd : Send) : Prop :=
  sd_port sd = Z.of_nat j /\ sd_to sd = ToBroadcast /\ sd_npdu sd = npdu_octets n /\ sd_kind sd = kind.
Record fanning s n : Prop := {
  fg_active : cu_active (current s) = true; fg_fan : cu_fan_out (current s) = true; fg_tail : cu_tail (current s) = 0%nat;
  fg_start : cu_start (current s) = 0%nat; fg_content : content s = npdu_octets n;
  fg_alone : ou_len (st_out s) = 0%nat; fg_quiet : quiet_flows s = true
}.
Lemma fan_poll s n : fanning s n ->
  match fan_ports s with
  | [] => exists s', poll s = (s', ActIdle)
  | j :: rest => exists s' sd, poll s = (s', ActSend sd) /\ fan_send n (current_kind (current s)) j sd /\ fanning s' n /\ fan_ports s' = rest /\
      current_kind (current s') = current_kind (current s) /\ (length rest < st_port_count s - cu_next (current s))%nat
  end.
Proof.
  intros [Ha Hf Ht Hs Hc Hl Hq]. unfold poll, poll_fuel. cbn [poll_loop]. unfold next_target. rewrite Ha, Hf. cbn [negb].
  set (m := (st_port_count s - cu_next (current s))%nat).
  destruct (fan_out_next_spec m s) as (k & c & Hs1 & Hres). unfold fan_ports. fold m.
  destruct (fan_out_next m s) as [s1 [port|]]; cbn [fst snd] in *; subst s1.
  - destruct Hres as (j & -> & -> & Hj & Htake & Hno). rewrite (filter_first _ _ _ j Hj Htake Hno).
    set (s' := marked (at_port_k s (S j) c) (Z.of_nat j)). exists s', (current_send s' (Z.of_nat j) true).
    assert (Hports : fan_ports s' = List.filter (takes s (cu_port (current s)) (cu_len (current s))) (seq (S j) (cu_next (current s) + m - S j))).
    { unfold fan_ports. change (current s') with ((current s) <| cu_next := S j |>). cbn [cu_next cu_port cu_len].
      change (st_port_count s') with (st_port_count s). f_equal. cbn. f_equal. unfold m. lia. }
    split_and!; [done|by split|by split|done|done|].
    pose proof (List.filter_length_le (takes s (cu_port (current s)) (cu_len (current s))) (seq (S j) (cu_next (current s) + m - S j))) as Hle.
    rewrite length_seq in Hle. lia.
  - destruct Hres as (-> & Hno). rewrite filter_nothing by done. cbv zeta. rewrite Ht, bool_decide_eq_true_2 by done.
    rewrite nothing_to_write by done. by eexists.
Qed.
Lemma fan_sends m : forall r n kind, fanning (rr_storage r) n -> current_kind (current (rr_storage r)) = kind ->
  (length (fan_ports (rr_storage r)) <= m)%nat -> Forall2 (fan_send n kind) (fan_ports (rr_storage r)) (poll_sends (S m) r).2.
Proof.
  induction m as [|m IH]; intros r n kind Hf Hk Hm; pose proof (fan_poll _ _ Hf) as Hp; destruct (fan_ports (rr_storage r)) as [|j rest];
    try (cbn in Hm; lia); cbn [poll_sends].
  - destruct Hp as [s' Hp]. rewrite (poll_action_eq r s' _ Hp). constructor.
  - destruct Hp as [s' Hp]. rewrite (poll_action_eq r s' _ Hp). constructor.
  - destruct Hp as (s' & sd & Hp & Hsd & Hf' & Hrest & Hk' & _). rewrite (poll_action_eq r s' _ Hp).
    specialize (IH (r <| rr_storage := s' |>) n kind Hf' ltac:(cbn; congruence)). cbn [rr_storage] in IH.
    change (rr_storage (r <| rr_storage := s' |>)) with s' in IH. rewrite Hrest in IH. specialize (IH ltac:(cbn in Hm; lia)).
    cbn [poll_sends] in IH. destruct (router_poll_action (r <| rr_storage := s' |>)) as [r2 [sd2|]].
    + destruct (poll_sends m r2) as [r3 sends]. constructor; [by rewrite <-Hk|exact IH].
    + constructor; [by rewrite <-Hk|exact IH].
Qed.

(** The copy of a global broadcast for the other ports. *)
Definition spread arr n : Npdu := n <| source := source_of arr n |> <| hop_count := hop_count n - 1 |>.
(** A global broadcast from elsewhere, with hops left, that the router takes in. *)
Record spreadable s arr n opt : Prop := {
  sp_apdu : message_type n = None; sp_global : destination n = Some {| addr_network := GLOBAL_NETWORK; addr_mac := [] |};
  sp_hops : 1 < hop_count n; sp_foreign : forall a, source n = Some a -> is_own s a = false; sp_always : op_duplicates opt = None;
  sp_fits : (encoded_len (spread arr n) <= length (st_scratch s))%nat
}.
Lemma spread_wp s arr n opt (h : Hst) : ready s -> welcome s arr n -> spreadable s arr n opt -> encode_checks (spread arr n) = None ->
  wp (dispatch arr n opt) (fun s' _ res => (exists l, res = RLocal l /\ ld_apdu l = payload n /\ ld_global l = true) /\
    emits s s' [] (Some (spread arr n, KGlobal, AllBut (at_port arr), ORIGIN_NONE))) s h.
Proof.
  intros Hr Hwel [Hm Hg Hh Hown Hdup Hfit] Henc. unfold dispatch. rewrite Hm. unfold route_apdu. rewrite Hg. cbn [addr_network].
  rewrite Z.eqb_refl. unfold route_global. apply wp_bind. unfold dropped_as_own. apply wp_bind, wp_get.
  replace (match source n with Some a => is_own s a | None => false end) with false by (destruct (source n); [symmetry; by apply Hown|done]).
  apply wp_bind, wp_ret, wp_ret. rewrite Hdup. apply wp_bind, wp_ret. apply wp_bind. unfold forward_global.
  rewrite (proj2 (Z.leb_gt _ _) Hh). fold (spread arr n). apply wp_bind.
  pose proof (write_now_spec s (spread arr n) KGlobal (AllBut (at_port arr)) Hr) as Hw. unfold write_fan_out. apply wp_bind, wp_act.
  destruct (write_now s (spread arr n) KGlobal (AllBut (at_port arr))) as [s2 ok] eqn:Hwn.
  assert (ok = true) as ->.
  { revert Hwn. unfold write_now. cbv zeta. rewrite npdu_encode_into_octets by (done || exact Hfit). by intros [= _ <-]. }
  cbn [fst snd negb]. do 2 (apply wp_bind, wp_get). apply wp_bind. eapply (wp_for_each _ _ (fun s3 _ => s3 = s2)); [done| |].
  { intros [port config] s3 h3 _ ->. destruct (_ && _); [by apply wp_observe|by apply wp_ret]. }
  intros s3 h3 ->. do 2 apply wp_ret. unfold deliver, local. apply wp_bind, wp_bind. cbv zeta.
  destruct (reply_plan_ok (at_port arr) (at_source arr) None (source n)) as [plan ->]; [apply Hwel|done|apply Hwel|].
  apply wp_upd, wp_ret, wp_ret. rewrite check_true. split; [by eexists|done].
Qed.
Lemma spread_encodable s arr n config : wf_store s -> port_at s (at_port arr) = Some config -> at_network arr = pc_network config ->
  (0 < length (at_source arr) <= MAX_MAC_LEN)%nat -> encodable_destination (destination n) -> encodable_source (source n) ->
  encode_checks (spread arr n) = None.
Proof.
  intros Hw Hp Hnet Hl Hd Hs. apply encode_checks_none. split; [done|]. cbn.
  unfold source_of. destruct (source n) as [a|]; [done|]. cbn. rewrite Hnet. by destruct (port_unreserved s _ _ Hw Hp).
Qed.
End Relay.

(** ** The theorems at work *)

Abbreviation example_store := (drop_undrained (clock (rr_storage (dv_router example)) example_now)).
Lemma example_routable : routable example_store example_arrival node_npdu {| addr_network := 2; addr_mac := [7] |} (route_direct 1) (example_port 2 12).
Proof.
  split; try (vm_compute; reflexivity); [by vm_compute..|split; [done|by vm_compute]|]. intros n' to Hfw%forwards_rewrite; [|done].
  assert (n' = (rewrite example_arrival node_npdu (route_direct 1)).1) as -> by (by rewrite Hfw).
  assert (to = (rewrite example_arrival node_npdu (route_direct 1)).2) as -> by (by rewrite Hfw). by vm_compute.
Qed.
Lemma example_spreadable : spreadable example_store example_arrival all_npdu (rr_options (dv_router example)).
Proof. split; try (vm_compute; reflexivity); [done|by vm_compute; lia]. Qed.
