(* ===== verification/RouterAnswer.v ===== *)
(** * A routing table read over the network

    A query for the whole table is answered with Acks, one per poll, each resuming after the last network of the one before it:
    together they list every route that has a wire Port ID, once, in order. *)

From S2P Require Import Prelude Time Npdu Arrays RouteTable RouteTheorems RouteSafety Discovery RouterMessage.
From S2P Require Import RouterGroups RouterData RouterOutput RouterEngine RouterLogic RouterEmits RouterHandlers.
From S2P Require Import RouterPoll RouterTasks RouterInv RouterRun RouterCalls RouterExample RouterTheorems.
From S2P Require Import RouterRelay.
Open Scope Z_scope.

(** ** The entries from a cursor on *)

Section Entries.
Implicit Types (t : Table) (l : list (Z * Z)).
Definition at_least (c : Z) (e : Z * Z) : bool := c <=? e.1.
Lemma at_least_all l c : Forall (fun e => c <= e.1) l -> List.filter (at_least c) l = l.
Proof.
  induction 1 as [|e l He _ IH]; [done|]. cbn. unfold at_least at 1. rewrite (proj2 (Z.leb_le _ _) He). by rewrite IH.
Qed.
Lemma at_least_none l c : Forall (fun e => e.1 < c) l -> List.filter (at_least c) l = [].
Proof.
  induction 1 as [|e l He _ IH]; [done|]. cbn. unfold at_least at 1. by rewrite (proj2 (Z.leb_gt _ _) He).
Qed.
Lemma at_least_twice l c c' : c <= c' -> List.filter (at_least c') (List.filter (at_least c) l) = List.filter (at_least c') l.
Proof.
  intros Hc. induction l as [|e l IH]; [done|]. cbn. destruct (at_least c e) eqn:E; cbn; [by rewrite IH|].
  replace (at_least c' e) with false; [done|]. unfold at_least in *. lia.
Qed.
(** Resuming after the last of the first [k] skips exactly those. *)
Lemma resume_after l k x : sorted fst l -> last (take k l) = Some x -> List.filter (at_least (x.1 + 1)) l = drop k l.
Proof.
  intros Hs Hx. rewrite <-(take_drop k l) in Hs. rewrite <-(take_drop k l) at 1. rewrite List.filter_app.
  apply last_Some in Hx as [pre Hpre]. rewrite Hpre in Hs |- *. apply sorted_app in Hs as (Hpre' & _ & Hcross).
  apply sorted_app in Hpre' as (_ & _ & Hc). rewrite at_least_none, at_least_all; [done| |].
  - apply Forall_forall. intros e He. pose proof (Hcross x e ltac:(set_solver) He). lia.
  - apply Forall_app. split; [|constructor; [lia|constructor]].
    apply Forall_forall. intros e He. specialize (Hc e x He ltac:(set_solver)). lia.
Qed.
Definition wire_all t : list (Z * Z) :=
  omap (fun nr => match wire_id (rt_port nr.2) with Some id => Some (nr.1, id) | None => None end) (table_routes t).
Lemma wire_entries_filter t c : wire_entries t c = List.filter (at_least c) (wire_all t).
Proof.
  unfold wire_entries, wire_all. induction (table_routes t) as [|nr l IH]; [done|]. cbn.
  destruct (Z.leb_spec c nr.1) as [Hc|Hc]; cbn; destruct (wire_id (rt_port nr.2)) as [id|]; cbn; rewrite ?IH; try done; unfold at_least; cbn.
  - by rewrite (proj2 (Z.leb_le _ _) Hc).
  - by rewrite (proj2 (Z.leb_gt _ _) Hc).
Qed.
Lemma wire_sorted t : shape t -> sorted fst (wire_all t).
Proof.
  intros [_ Hs]. unfold wire_all, table_routes. induction (table_stored t) as [|x l IH]; [constructor|].
  apply (sorted_app sl_network [x]) in Hs as (_ & Hl & Hx). specialize (IH Hl). cbn. destruct (wire_id (rt_port (sl_route x))) as [id|]; [|done].
  apply (sorted_app fst [(sl_network x, id)]). split_and!; [by repeat constructor|done|]. intros a e ->%list_elem_of_singleton He.
  apply list_elem_of_omap in He as (nr & Hin & Hw). change (map ?f l) with (f <$> l) in Hin. apply list_elem_of_fmap in Hin as (y & -> & Hy).
  destruct (wire_id _); [|done]. injection Hw as <-. apply Hx; [by apply list_elem_of_singleton|done].
Qed.
(** A cursor past the last entry of an Ack leaves exactly what the Ack did not list. *)
Lemma wire_resume t c x : shape t -> last (take ACK_ENTRIES (wire_entries t c)) = Some x ->
  wire_entries t (x.1 + 1) = drop ACK_ENTRIES (wire_entries t c) /\ c <= x.1.
Proof.
  intros Ht Hx. pose proof (last_Some_elem_of _ _ Hx) as Hin. apply elem_of_take in Hin as (i & Hi & _). apply list_elem_of_lookup_2 in Hi.
  rewrite wire_entries_filter in Hi. apply list_elem_of_In, filter_In in Hi as [_ Hc]. unfold at_least in Hc.
  split; [|lia]. rewrite !wire_entries_filter in *. rewrite <-(at_least_twice _ c) by lia. apply resume_after; [|done].
  exact (proj1 (sorted_filter fst _ _ (wire_sorted t Ht))).
Qed.
End Entries.

(** ** Polling the Acks *)

Section Answer.
Context {G : Type} `{GroupClassifier G} {Hst : Type} `{Host Hst}.
Implicit Types (s : Storage G) (r : Router G) (n : Npdu) (arr : Arrival).
Abbreviation current s := (ou_current (st_out s)).

Lemma ack_written s c : wf_source s -> (500 <= length (st_scratch s))%nat ->
  let entries := take ACK_ENTRIES (wire_entries (st_table s) c) in
  exists scratch len, write_message (st_scratch s) INITIALIZE_ROUTING_TABLE_ACK (fun data => written (routing_entries_write entries data)) = (scratch, Some len) /\
    length scratch = length (st_scratch s) /\ take len scratch = npdu_octets (ack_message s c) /\ good (ack_message s c) /\ (len <= 500)%nat.
Proof.
  intros Hs Hl entries. pose proof (Forall_take _ ACK_ENTRIES _ (wire_entries_wf s c Hs)) as Hwf. fold entries in Hwf.
  assert (Hcount : (length entries <= 124)%nat) by (unfold entries; rewrite length_take; change ACK_ENTRIES with 124%nat; lia).
  pose proof (write_message_wrote (st_scratch s) INITIALIZE_ROUTING_TABLE_ACK _ _ ltac:(by vm_compute) eq_refl
    (payload_wf_entries entries Hwf ltac:(lia)) (entries_data entries Hwf)) as Hw.
  assert (Hsome : exists scratch len, write_message (st_scratch s) INITIALIZE_ROUTING_TABLE_ACK (fun data => written (routing_entries_write entries data)) = (scratch, Some len)).
  { unfold write_message. change (encoded_len (npdu_message INITIALIZE_ROUTING_TABLE_ACK [])) with 3%nat. rewrite bool_decide_eq_true_2 by lia.
    pose proof (routing_entries_write_spec entries (drop 3 (st_scratch s)) Hwf) as Hx. cbv zeta in Hx. rewrite length_drop in Hx. unfold written.
    destruct (routing_entries_write entries (drop 3 (st_scratch s))) as [out [k|[]]]; cbn [fst snd]; try (exfalso; lia).
    rewrite npdu_encode_into_octets by (done || (change (encoded_len _) with 3%nat; rewrite length_take; lia)). by eexists _, _. }
  destruct Hsome as (scratch & len & E). rewrite E in Hw. exists scratch, len. destruct Hw as [Hlen Hw].
  destruct (Hw len eq_refl) as (Hg & Hle & Ht). cbn [fst] in *. split_and!; try done.
  pose proof (f_equal length Ht) as Hlen2. rewrite length_npdu_octets, length_take in Hlen2.
  assert (encoded_len (npdu_message INITIALIZE_ROUTING_TABLE_ACK (routing_payload (map bare_entry entries))) = (3 + (1 + length entries * 4))%nat).
  { unfold encoded_len. cbn [payload npdu_message]. rewrite length_table_entries. done. }
  lia.
Qed.
(** A router with nothing else to do than a table answer to [to] on [port], its next Ack from network [c] on. *)
Record answering s (port : PortId) (to : bytes) (c : Z) : Prop := {
  aw_idle : cu_active (current s) = false; aw_quiet : quiet_flows s = true; aw_cursor : 0 <= c;
  aw_task : exists t, queued (st_out s) = [t] /\ tk_kind t = TkTableAck /\ tk_port t = port /\ mac_as_slice (tk_to t) = to /\ tk_cursor t = c
}.
(** An Ack: a unicast to the asker, that lists these entries. *)
Definition ack_send (port : PortId) (to : bytes) (entries : list (Z * Z)) (sd : Send) : Prop :=
  sd_port sd = port /\ sd_to sd = ToUnicast to /\ sd_kind sd = KAnswer INITIALIZE_ROUTING_TABLE_ACK /\
  exists n, npdu_decode (sd_npdu sd) = Ok n /\ message_type n = Some INITIALIZE_ROUTING_TABLE_ACK /\
    exists l, routing_entries_parse (payload n) = Ok l /\ routing_entries_iter l = map bare_entry entries.
Lemma entries_read entries : Forall (fun e => is_u16 e.1 /\ is_u8 e.2) entries -> (length entries <= 255)%nat ->
  exists l, routing_entries_parse (routing_payload (map bare_entry entries)) = Ok l /\ routing_entries_iter l = map bare_entry entries.
Proof.
  intros Hwf Hc. pose proof (routing_entries_write_spec entries (replicate (1 + length entries * 4) 0) Hwf) as Hx. cbv zeta in Hx.
  rewrite length_replicate in Hx. destruct (routing_entries_write _ _) as [out [k|[]]]; try (exfalso; lia).
  destruct Hx as (-> & _ & _ & -> & l & Hr). exists l. rewrite take_app_length' in Hr by (by rewrite length_table_entries). done.
Qed.
Lemma poll_loop_single fuel s : cu_active (current s) = true -> cu_fan_out (current s) = false ->
  fits_from s (cu_len (current s)) (cu_port (current s)) (cu_broadcast (current s)) = true ->
  let s' := marked (on_current (fun c => c <| cu_active := false |>) s) (cu_port (current s)) in
  poll_loop fuel s = (s', ActSend (current_send s' (cu_port (current s)) (cu_broadcast (current s)))).
Proof.
  intros Ha Hf Hfit. cbv zeta. destruct fuel; cbn [poll_loop]; unfold next_target; rewrite Ha, Hf; cbn [negb];
    rewrite (fits_from_same s) by done; by rewrite Hfit.
Qed.
Lemma answer_output s t : wf_store s -> (500 <= length (st_scratch s))%nat -> tk_kind t = TkTableAck ->
  let entries := wire_entries (st_table s) (tk_cursor t) in
  let chunk := take ACK_ENTRIES entries in
  if negb (tk_cursor t =? 0) && bool_decide (entries = []) then task_output s t = (st_scratch s, (None, None))
  else exists scratch len, task_output s t = (scratch, ((fun x => x.1 + 1) <$> last chunk,
      Some (Some len, KAnswer INITIALIZE_ROUTING_TABLE_ACK, CauseIngress, TargetUnicast (tk_port t) (mac_as_slice (tk_to t))))) /\
    (len <= 500)%nat /\ take len scratch = npdu_octets (ack_message s (tk_cursor t)) /\ good (ack_message s (tk_cursor t)).
Proof.
  intros Hw Hl Hk entries chunk. unfold task_output. rewrite Hk. cbv zeta.
  destruct (ack_written s (tk_cursor t) (wi_source s Hw) Hl) as (scratch & len & E & _ & Ht & Hg & Hle). cbv zeta in E.
  fold entries in E |- *. fold chunk in E |- *. rewrite E.
  assert (Hlast : is_some (fst <$> last chunk) = negb (bool_decide (entries = []))).
  { unfold chunk. change ACK_ENTRIES with 124%nat. destruct entries as [|e l]; [done|]. cbn [take]. by destruct (last (e :: take 123 l)) eqn:E2; [|apply last_None in E2]. }
  rewrite Hlast, negb_involutive. destruct (negb _ && _); [done|]. exists scratch, len. split_and!; [|done..].
  by destruct (last chunk).
Qed.
Lemma front_first s t rest : queued (st_out s) = t :: rest -> outputs_front (st_out s) = Some t.
Proof. intros Hq. unfold outputs_front. fold (queued (st_out s)). by rewrite Hq. Qed.
Lemma no_tasks o : wf_outputs o -> queued o = [] -> ou_len o = 0%nat.
Proof. intros Ho Hq. rewrite <-(queued_length o Ho), Hq. done. Qed.
Lemma two_rounds s t : wf_store s -> queued (st_out s) = [t] -> exists f, poll_fuel s = S (S f).
Proof.
  intros Hw Hqu. pose proof (queued_length _ (wi_outputs s Hw)) as Hl. rewrite Hqu in Hl. cbn in Hl. unfold poll_fuel. rewrite <-Hl.
  exists (tl_len (st_table s) + 2 * st_port_count s + 1 + st_port_count s * (tl_len (st_table s) + 1))%nat. cbv zeta. lia.
Qed.
(** A lone task with nothing to send is done, and the poll is idle. *)
Lemma task_ends s t : wf_store s -> cu_active (current s) = false -> quiet_flows s = true -> queued (st_out s) = [t] ->
  task_output s t = (st_scratch s, (None, None)) -> exists s', poll s = (s', ActIdle).
Proof.
  intros Hw Hi Hq Hqu Ho. destruct (two_rounds s t Hw Hqu) as [f Hf]. unfold poll. rewrite Hf. cbn [poll_loop]. unfold next_target.
  rewrite Hi. cbn [negb]. unfold write_task at 1. rewrite (front_first s t [] Hqu), Ho.
  destruct (pop_queued _ t [] (wi_outputs s Hw) Hqu) as (Hq1 & Hw1 & Hc1). set (s1 := _ <| st_out ::= _ |>).
  assert (Hcur : current s1 = current s) by exact Hc1. rewrite Hcur, Hi. cbn [negb]. rewrite nothing_to_write; [by eexists|by apply no_tasks|exact Hq].
Qed.
(** A lone task's unicast is sent, and the task waits with its next cursor or is gone. *)
Lemma task_sends s t scratch next len kind port to config : wf_store s -> cu_active (current s) = false -> queued (st_out s) = [t] ->
  task_output s t = (scratch, (next, Some (Some len, kind, CauseIngress, TargetUnicast port to))) -> (length to <= MAX_MAC_LEN)%nat ->
  port_at s port = Some config -> Z.of_nat len <= limit_unicast (pc_max_npdu config) ->
  exists s' sd, poll s = (s', ActSend sd) /\
    sd_port sd = port /\ sd_to sd = ToUnicast to /\ sd_kind sd = kind /\ sd_npdu sd = take len scratch /\
    st_table s' = st_table s /\ st_ports s' = st_ports s /\ st_port_count s' = st_port_count s /\ quiet_flows s' = quiet_flows s /\
    cu_active (current s') = false /\ queued (st_out s') = match next with Some c => [t <| tk_cursor := c |>] | None => [] end.
Proof.
  intros Hw Hi Hqu Ho Hto Hport Hlim. destruct (two_rounds s t Hw Hqu) as [f Hf]. unfold poll. rewrite Hf. cbn [poll_loop]. unfold next_target at 1.
  rewrite Hi. cbn [negb]. unfold write_task at 1. rewrite (front_first s t [] Hqu), Ho.
  set (s0 := on_current _ (s <| st_scratch := scratch |>)). set (step := fun o => match next with Some c => outputs_advance o c | None => outputs_pop o end).
  set (s1 := s0 <| st_out ::= step |>).
  assert (Hstep : queued (step (st_out s0)) = match next with Some c => [t <| tk_cursor := c |>] | None => [] end /\ ou_current (step (st_out s0)) = current s0).
  { unfold step. destruct next as [c|].
    - destruct (advance_queued (st_out s0) t [] c (wi_outputs s Hw) Hqu) as (? & _ & ?). done.
    - destruct (pop_queued (st_out s0) t [] (wi_outputs s Hw) Hqu) as (? & _ & ?). done. }
  destruct Hstep as [Hq1 Hc1].
  assert (Hcur : current s1 = (current_new len kind CauseIngress Normal (TargetUnicast port to)) <| cu_table_ack := bool_decide (tk_kind t = TkTableAck) |>) by exact Hc1.
  assert (Hfit : fits_from s1 (cu_len (current s1)) (cu_port (current s1)) (cu_broadcast (current s1)) = true).
  { rewrite Hcur. unfold fits_from. change (port_at s1 ?p) with (port_at s p). cbn. rewrite Hport. by apply Z.leb_le. }
  pose proof (poll_loop_single (S f) s1 ltac:(by rewrite Hcur) ltac:(by rewrite Hcur) Hfit) as Hpoll. cbv zeta in Hpoll.
  eexists _, _. split; [exact Hpoll|]. destruct (mac_slice to Hto) as (m & Hm & Hms).
  unfold current_send. set (s2 := marked _ _).
  assert (Hcur2 : current s2 = (current s1) <| cu_active := false |>) by done. rewrite Hcur2, Hcur. cbn -[quiet_flows queued s2].
  split_and!; try done.
  - unfold mac_or_empty. by rewrite Hm, Hms.
  - by destruct kind.
Qed.
(** One poll of an answer. *)
Lemma answer_poll s port to c : wf_store s -> answering s port to c -> (length to <= MAX_MAC_LEN)%nat ->
  (exists config, port_at s port = Some config /\ 500 <= limit_unicast (pc_max_npdu config)) ->
  let entries := wire_entries (st_table s) c in
  if negb (c =? 0) && bool_decide (entries = []) then exists s', poll s = (s', ActIdle)
  else exists s' sd, poll s = (s', ActSend sd) /\ ack_send port to (take ACK_ENTRIES entries) sd /\
    st_table s' = st_table s /\ st_ports s' = st_ports s /\ st_port_count s' = st_port_count s /\
    match last (take ACK_ENTRIES entries) with
    | Some x => answering s' port to (x.1 + 1)
    | None => cu_active (current s') = false /\ queued (st_out s') = [] /\ quiet_flows s' = true
    end.
Proof.
  intros Hw [Hi Hq Hc (t & Hqu & Hk & Hp & Hto & Hcur)] Hmac (config & Hport & Hlim) entries.
  assert (Hscr : (500 <= length (st_scratch s))%nat).
  { pose proof (wi_limits s Hw _ _ Hport) as Hf. unfold limits_fit in Hf. cbn in Hf. lia. }
  pose proof (answer_output s t Hw Hscr Hk) as Hout. cbv zeta in Hout. rewrite Hcur, Hp, Hto in Hout. fold entries in Hout.
  destruct (negb (c =? 0) && bool_decide (entries = [])); [by eapply task_ends|].
  destruct Hout as (scratch & len & Ho & Hle & Ht & Hg1 & Hg2).
  destruct (task_sends s t _ _ _ _ _ _ config Hw Hi Hqu Ho Hmac Hport ltac:(lia))
    as (s' & sd & Hpoll & Hsp & Hsto & Hsk & Hsn & Htab & Hpo & Hct & Hqf & Hca & Hqn).
  exists s', sd. split_and!; try done.
  - split_and!; try done. exists (canonical (ack_message s c)). rewrite Hsn, Ht. split_and!; [by apply npdu_decode_octets|done|].
    apply entries_read; [apply Forall_take, wire_entries_wf, Hw|]. rewrite length_take. change ACK_ENTRIES with 124%nat. lia.
  - pose proof (fun x => wire_resume (st_table s) c x (proj1 (proj1 (ws_table s (wi_source s Hw))))) as Hres.
    fold entries in Hres. destruct (last (take ACK_ENTRIES entries)) as [x|]; cbn in Hqn; [|by rewrite Hqf].
    destruct (Hres x eq_refl) as [_ Hx]. split; [done|by rewrite Hqf|lia|]. eexists. split; [exact Hqn|done].
Qed.
Lemma answer_sends k : forall r port to c, wf_store (rr_storage r) -> answering (rr_storage r) port to c -> (length to <= MAX_MAC_LEN)%nat ->
  (exists config, port_at (rr_storage r) port = Some config /\ 500 <= limit_unicast (pc_max_npdu config)) ->
  (2 + length (wire_entries (st_table (rr_storage r)) c) <= k)%nat ->
  exists chunks, concat chunks = wire_entries (st_table (rr_storage r)) c /\ Forall2 (ack_send port to) chunks (poll_sends k r).2.
Proof.
  induction k as [|k IH]; intros r port to c Hw Ha Hmac Hport Hk; [lia|]. pose proof (answer_poll _ _ _ _ Hw Ha Hmac Hport) as Hp. cbv zeta in Hp.
  pose proof (poll_action_spec r Hw) as Hspec. pose proof (fun x => wire_resume (st_table (rr_storage r)) c x (proj1 (proj1 (ws_table _ (wi_source _ Hw))))) as Hres.
  set (entries := wire_entries (st_table (rr_storage r)) c) in *. cbn [poll_sends].
  destruct (negb (c =? 0) && bool_decide (entries = [])) eqn:Hend.
  { destruct Hp as [s' Hp]. rewrite (poll_action_eq r s' _ Hp). exists []. split; [|constructor].
    apply andb_prop in Hend as [_ Hend%bool_decide_eq_true]. done. }
  destruct Hp as (s' & sd & Hp & Hsd & Htab & Hpo & Hct & Hnext). rewrite (poll_action_eq r s' _ Hp) in Hspec |- *. cbn [fst] in Hspec.
  pose proof (po_wf _ _ _ Hspec) as Hw'. set (r' := r <| rr_storage := s' |>) in *. change (rr_storage r') with s' in *.
  destruct (last (take ACK_ENTRIES entries)) as [x|] eqn:Hlast.
  - destruct (Hres x eq_refl) as [Hrest Hx].
    assert (Hne : entries <> []) by (intros E; by rewrite E in Hlast).
    destruct (IH r' port to (x.1 + 1) Hw' Hnext Hmac) as (chunks & Hc & Hf).
    + change (rr_storage r') with s'. unfold port_at, ports_of. rewrite Hpo, Hct. exact Hport.
    + change (rr_storage r') with s'. rewrite Htab, Hrest, length_drop. change ACK_ENTRIES with 124%nat. destruct entries; [done|]. cbn in *. lia.
    + change (rr_storage r') with s' in Hc. rewrite Htab, Hrest in Hc. exists (take ACK_ENTRIES entries :: chunks).
      split; [cbn [concat]; by rewrite Hc, take_drop|]. destruct (poll_sends k r') as [r2 sends]. by constructor.
  - destruct Hnext as (Hi & Hq & Hfl). exists [[]].
    assert (entries = []) as He by (apply last_None in Hlast; change ACK_ENTRIES with 124%nat in Hlast; by destruct entries). split; [by rewrite He|].
    destruct k as [|k]; [lia|]. cbn [poll_sends]. rewrite (poll_action_same r' ActIdle).
    + constructor; [|constructor]. by rewrite He in Hsd.
    + change (rr_storage r') with s'. apply poll_idle; [done| |done]. by apply no_tasks; [apply wi_outputs|].
Qed.
(** A fan-out with no port left is dropped by the next poll, which then goes on as from there. *)
Lemma poll_settled s : wf_store s -> has_more (current s) (st_port_count s) = false ->
  exists s', poll s = poll s' /\ wf_store s' /\ kept s s' /\ cu_active (current s') = false.
Proof.
  intros Hw Hm. pose proof (next_target_wf s Hw) as Ht.
  assert (Hnone : exists s', next_target s = (s', None)).
  { destruct (cu_active (current s)) eqn:Ha; [|unfold next_target; rewrite Ha; by exists s]. destruct (wi_current s Hw Ha) as [n Hn].
    pose proof (next_target_spec s n Ha Hn) as Hs. destruct (next_target s) as [s' [[port b]|]]; [|by exists s'].
    pose proof (tg_more _ _ _ _ _ Hs). congruence. }
  destruct Hnone as [s' E]. rewrite E in Ht. destruct Ht as (Hw' & Hk & Hi). exists s'. split_and!; try done.
  assert (Hf : poll_fuel s' = poll_fuel s) by (unfold poll_fuel; by rewrite (kp_table _ _ Hk), (kp_count _ _ Hk), (kp_len _ _ Hk)).
  assert (E' : next_target s' = (s', None)) by (unfold next_target; by rewrite Hi). unfold poll. rewrite Hf.
  destruct (poll_fuel s); cbn [poll_loop]; by rewrite E, E'.
Qed.
Lemma query_dispatch arr n opt s (h : Hst) : destination n = None -> message_type n = Some INITIALIZE_ROUTING_TABLE -> payload n = [0] ->
  dispatch arr n opt s h = (push s (task_table_ack (at_port arr) (at_source_mac arr)), h, RHandled).
Proof.
  intros Hd Hm Hp. unfold dispatch, network_message. rewrite Hm, Hd. cbn [andb].
  unfold handle_message. cbn. unfold initialize_routing_table. by rewrite Hp.
Qed.
(** A query for the whole routing table is answered completely: on a port whose link carries the largest Ack, polling yields
    Acks to the asker, and nothing else, whose entries together are every route that has a wire Port ID, each once, in ascending order. *)
Theorem table_answer_exact (d : Driver (G := G) (Hst := Hst)) frame now n arr config k :
  reached d -> wf_frame frame ->
  arrives (drop_undrained (clock (rr_storage (dv_router d)) now)) frame (st_latest (clock (rr_storage (dv_router d)) now)) = Some arr ->
  admit_npdu (fm_npdu frame) = Ok n -> destination n = None -> message_type n = Some INITIALIZE_ROUTING_TABLE -> payload n = [0] ->
  port_at (rr_storage (dv_router d)) (fm_port frame) = Some config -> 500 <= limit_unicast (pc_max_npdu config) ->
  (2 + length (wire_entries (st_table (rr_storage (dv_router d))) 0) <= k)%nat ->
  let '(r1, _, res) := router_receive (dv_router d) frame now (dv_host d) in
  res = RHandled /\ exists chunks, concat chunks = wire_entries (st_table (rr_storage (dv_router d))) 0 /\
    Forall2 (ack_send (fm_port frame) (fm_source frame)) chunks (poll_sends k r1).2.
Proof.
  intros Hd Hf Harr Hn Hdst Hm Hpay Hport Hlim Hk. unfold router_receive. pose proof (clock_wf _ now (wd_store d (reached_wf d Hd))) as Hw.
  set (s := clock (rr_storage (dv_router d)) now) in *. destruct (drop_wf s Hw) as [Hw0 Hr]. pose proof (drop_quiet s) as Hquiet.
  pose proof (drop_base s) as Hbase.
  destruct (frame_received frame (st_latest s) (rr_options (dv_router d)) s (dv_host d) Hw Hf) as (ts & w & [Hw1 _ _ _ _]).
  destruct (arrives_inv _ _ _ _ Harr) as (config' & _ & _ & Hsrc & Hl & Hp & Hrecv).
  destruct (Hrecv (rr_options (dv_router d)) (dv_host d)) as [Hmac Hdisp]. rewrite (Hdisp n Hn s eq_refl), query_dispatch in Hw1 |- * by done.
  clear Hrecv Hdisp. cbn [fst] in Hw1. split; [done|]. set (s0 := drop_undrained s) in *. set (t := task_table_ack _ _) in *.
  assert (Hpush : emits s0 (push s0 t) [t] None).
  { apply emits_push; [split; apply Hw0|]. rewrite (ready_len _ Hr). unfold QUEUE. lia. }
  assert (Htab : st_table (push s0 t) = st_table (rr_storage (dv_router d))).
  { transitivity (st_table s0); [done|]. unfold s0, drop_undrained. cbv zeta. by case_bool_decide. }
  assert (Hidle : has_more (current (push s0 t)) (st_port_count (push s0 t)) = false).
  { rewrite (em_count _ _ _ _ Hpush). pose proof (em_current _ _ _ _ Hpush) as [-> _]. destruct Hr as [Hr _]. unfold outputs_pending in Hr.
    destruct (has_more _ _); [lia|done]. }
  destruct (poll_settled _ Hw1 Hidle) as (s1 & Hpoll & Hw2 & Hkept & Hi).
  assert (Hsame : poll_sends k ((dv_router d) <| rr_storage := push s0 t |>) = poll_sends k ((dv_router d) <| rr_storage := s1 |>)).
  { destruct k as [|k']; [lia|]. cbn [poll_sends]. unfold router_poll_action. cbn [rr_storage]. change (rr_storage (_ <| rr_storage := ?x |>)) with x.
    rewrite Hpoll. by destruct (poll s1) as [s2 a]. }
  rewrite Hsame, <-Htab, <-(kp_table _ _ Hkept) in *.
  pose proof (answer_sends k ((dv_router d) <| rr_storage := s1 |>) (fm_port frame) (fm_source frame) 0) as Hans.
  change (rr_storage ((dv_router d) <| rr_storage := s1 |>)) with s1 in Hans. apply Hans; [exact Hw2| |done| |exact Hk].
  - split; [exact Hi| |lia|exists t].
    + change (quiet_flows s1 = true). unfold quiet_flows, flows_of in *.
      by rewrite (kp_flows _ _ Hkept), (kp_count _ _ Hkept), (em_flows _ _ _ _ Hpush), (em_count _ _ _ _ Hpush).
    + split; [|unfold t; cbn; split_and!; try done].
      * change (queued (st_out s1) = [t]). unfold queued. rewrite (kp_tasks _ _ Hkept), (kp_len _ _ Hkept).
        pose proof (em_waiting _ _ _ _ Hpush) as Hwait. unfold waiting in Hwait. by rewrite Hwait, (ready_len _ Hr), take_0.
      * revert Hmac. unfold admit_source. pose proof (mac_from_slice_as_slice (fm_source frame)) as Hx.
        destruct (mac_from_slice (fm_source frame)); [|done]. intros [= <-]. by destruct Hx.
  - change (exists config0, port_at s1 (fm_port frame) = Some config0 /\ 500 <= limit_unicast (pc_max_npdu config0)).
    exists config. split; [|done]. unfold port_at, ports_of in *.
    by rewrite (kp_ports _ _ Hkept), (kp_count _ _ Hkept), (em_ports _ _ _ _ Hpush), (em_count _ _ _ _ Hpush), (sb_ports _ _ Hbase), (sb_count _ _ Hbase).
Qed.
End Answer.

(** ** The theorem at work *)

Lemma table_answer_exact_witness : exists (r : Router PortGroups) chunks, concat chunks = [(1, 1); (2, 2); (3, 3)] /\
  Forall2 (ack_send 0 [5]) chunks (poll_sends 5 r).2.
Proof.
  pose proof example_reached as Hr.
  assert (Harr : arrives example_store (example_frame query) (st_latest (clock (rr_storage (dv_router example)) example_now)) = Some example_arrival)
    by (vm_compute; reflexivity).
  assert (Hport : port_at (rr_storage (dv_router example)) 0 = Some (example_port 1 11)) by (vm_compute; reflexivity).
  assert (Hwire : wire_entries (st_table (rr_storage (dv_router example))) 0 = [(1, 1); (2, 2); (3, 3)]) by (vm_compute; reflexivity).
  revert Hr Harr Hport Hwire. generalize example. intros d Hr Harr Hport Hwire.
  pose proof (table_answer_exact d (example_frame query) example_now query_npdu example_arrival (example_port 1 11) 5 Hr
    (example_frame_wf _ (proj2 (proj2 example_bytes))) Harr ltac:(vm_compute; reflexivity) eq_refl eq_refl eq_refl Hport
    ltac:(vm_compute; discriminate) ltac:(rewrite Hwire; cbn; lia)) as Hx.
  destruct (router_receive _ _ _ _) as [[r1 h1] res]. destruct Hx as (_ & chunks & Hc & Hf). rewrite Hwire in Hc. by exists r1, chunks.
Defined.

(** ** Links shorter than an Ack *)

(** A router whose ports carry NPDUs of 64 octets, the least it accepts, once it has learned twenty networks. *)
Definition short_ports : list (PortConfig PortGroups) :=
  map (fun x => (example_port x.1 x.2) <| pc_max_npdu := limits_both 64 |>) [(1, 11); (2, 12)].
Definition i_am_twenty : bytes := [1; 128; 1] ++ concat (map (fun k => to_be16 (Z.of_nat k)) (seq 10 20)).
Definition short_router : option (Router PortGroups) :=
  match router_new (storage_new 2 32 4 4 1497 4) short_ports STANDARD 0 with
  | Ok r => Some (router_receive r {| fm_port := 1; fm_source := [9]; fm_link_group := false; fm_npdu := i_am_twenty |} example_now ThePermissive).1.1
  | Err _ => None
  end.
(** The number of Acks a query draws, and of outputs dropped as too long, at such a router. *)
Definition short_answer : option (nat * nat * Z) :=
  (fun r => let '(r1, _, _) := router_receive r (example_frame query) example_now ThePermissive in
            let '(r2, sends) := poll_sends 4 r1 in
            (length (wire_entries (st_table (rr_storage r)) 0), length sends, rc_egress_too_long (st_counters (rr_storage r2)))) <$> short_router.
(** On a link shorter than 500 octets a query for a table that needs more is not answered at all: the one Ack is dropped as too long. *)
Lemma short_link_unanswered : short_answer = Some (22%nat, 0%nat, 1).
Proof. vm_compute. reflexivity. Qed.
