(* ===== verification/RouterFlow.v ===== *)
(** * Congestion and repeated broadcasts

    When a port is announced busy or available again, and for how long a broadcast is remembered. *)

From S2P Require Import Prelude Time Npdu Arrays RouteTable RouterMessage RouterGroups RouterData RouterOutput.
Open Scope Z_scope.

(** ** Congestion *)

Section Flow.
Context (policy : Congestion).
Implicit Types (f : Flow) (b : Backlog) (now : Instant).

(** A port's reports, the latest last, each with what it announced. *)
Record Report := { rp_backlog : Backlog; rp_at : Instant; rp_said : option FlowPending }.
Definition rp_under (x : Report) : bool := backlog_under (rp_backlog x) (cg_drain_below_percent policy).
Definition report (st : Flow * list Report) (b : Backlog) (now : Instant) : Flow * list Report :=
  let '(f, said) := flow_report st.1 b now policy in (f, st.2 ++ [{| rp_backlog := b; rp_at := now; rp_said := said |}]).
(** The flows a port's reports lead to, in the order of time. Other calls only take the announcement that waits. *)
Inductive flows : Flow -> list Report -> Prop :=
| fl_new : flows FLOW_CLEAR []
| fl_report f l b now : flows f l -> Forall (fun x => rp_at x <= now) l -> flows (report (f, l) b now).1 (report (f, l) b now).2
| fl_take f l p c : flows f l -> flows (f <| fl_pending := p |> <| fl_cursor := c |>) l.
(** A full report at [t] with no drained one since. *)
Definition full_since (l : list Report) (t : Instant) : Prop :=
  exists i x, l !! i = Some x /\ rp_at x = t /\ backlog_full (rp_backlog x) = true /\
    forall j y, (i <= j)%nat -> l !! j = Some y -> rp_under y = false.
(** A busy announcement at [t], with no drained report since. *)
Definition said_busy (l : list Report) (t : Instant) : Prop :=
  exists i x, l !! i = Some x /\ rp_at x = t /\ rp_said x = Some PendBusy /\
    forall j y, (i <= j)%nat -> l !! j = Some y -> rp_under y = false.
Definition flow_inv f (l : list Report) : Prop :=
  match fl_state f with
  | FlowClear => True
  | FlowFilling => full_since l (fl_since f)
  | FlowClogged => said_busy l (fl_since f) /\ exists t, full_since l t /\ instant_add t (cg_clog_after policy) <= fl_since f
  end.
Lemma later_full l t x : full_since l t -> rp_under x = false -> full_since (l ++ [x]) t.
Proof.
  intros (i & y & Hi & Ht & Hf & Hno) Hx. exists i, y. split_and!; try done; [by apply lookup_app_l_Some|].
  intros j z Hj Hz. apply lookup_app_Some in Hz as [Hz|[Hl Hz]]; [by eapply Hno|]. by apply list_lookup_singleton_Some in Hz as [_ <-].
Qed.
Lemma later_said l t x : said_busy l t -> rp_under x = false -> said_busy (l ++ [x]) t.
Proof.
  intros (i & y & Hi & Ht & Hf & Hno) Hx. exists i, y. split_and!; try done; [by apply lookup_app_l_Some|].
  intros j z Hj Hz. apply lookup_app_Some in Hz as [Hz|[Hl Hz]]; [by eapply Hno|]. by apply list_lookup_singleton_Some in Hz as [_ <-].
Qed.
Lemma only_last (l : list Report) x j y : (length l <= j)%nat -> (l ++ [x]) !! j = Some y -> y = x.
Proof.
  intros Hj Hy. apply lookup_app_Some in Hy as [Hy|[_ Hy]]; [apply lookup_lt_Some in Hy; lia|]. by apply list_lookup_singleton_Some in Hy as [_ <-].
Qed.
Lemma now_full (l : list Report) x : backlog_full (rp_backlog x) = true -> rp_under x = false -> full_since (l ++ [x]) (rp_at x).
Proof.
  intros Hf Hu. exists (length l), x. split_and!; try done; [by rewrite lookup_app_r, Nat.sub_diag by lia|].
  intros j y Hj Hy. by apply only_last in Hy as ->.
Qed.
Lemma now_said (l : list Report) x : rp_said x = Some PendBusy -> rp_under x = false -> said_busy (l ++ [x]) (rp_at x).
Proof.
  intros Hf Hu. exists (length l), x. split_and!; try done; [by rewrite lookup_app_r, Nat.sub_diag by lia|].
  intros j y Hj Hy. by apply only_last in Hy as ->.
Qed.
Lemma flows_inv f l : flows f l -> flow_inv f l.
Proof.
  induction 1 as [|f l b now _ IH Hlate|f l p c _ IH]; [done| |exact IH]. unfold report, flow_report. cbn [fst snd].
  set (under := backlog_under b (cg_drain_below_percent policy)). destruct under eqn:Hu.
  { case_bool_decide; cbn; by unfold flow_inv. }
  assert (Hx : forall said, rp_under {| rp_backlog := b; rp_at := now; rp_said := said |} = false) by done.
  destruct (backlog_full b) eqn:Hf; cbn [negb].
  2: { cbn. unfold flow_inv in *. destruct (fl_state f); [done|by apply later_full|].
       destruct IH as [Hs (t & Ht & Hle)]. split; [by apply later_said|]. exists t. split; [by apply later_full|done]. }
  unfold flow_inv in IH. destruct (fl_state f) eqn:Hst.
  - cbn. unfold flow_inv. cbn. by apply (now_full l {| rp_backlog := b; rp_at := now; rp_said := None |}).
  - destruct (Z.leb_spec (instant_add (fl_since f) (cg_clog_after policy)) now) as [Hle|Hle]; cbn; unfold flow_inv; cbn.
    + split; [by apply (now_said l {| rp_backlog := b; rp_at := now; rp_said := Some PendBusy |})|].
      exists (fl_since f). split; [by apply later_full|done].
    + rewrite Hst. by apply later_full.
  - destruct IH as [Hs (t & Ht & Hle)]. destruct (Z.leb_spec (instant_add (fl_since f) (cg_repeat policy)) now) as [Hr|Hr]; cbn; unfold flow_inv; cbn.
    + rewrite Hst. split; [by apply (now_said l {| rp_backlog := b; rp_at := now; rp_said := Some PendBusy |})|].
      exists t. split; [by apply later_full|]. destruct Hs as (i & y & Hi & Hy & _).
      pose proof (proj1 (Forall_forall _ _) Hlate y (list_elem_of_lookup_2 _ _ _ Hi)). cbn in *. lia.
    + rewrite Hst. split; [by apply later_said|]. exists t. split; [by apply later_full|done].
Qed.
(** Conversely the state covers the reports: a busy one means clogged since then, a full one no longer clear. *)
Record flow_covers f (l : list Report) : Prop := {
  fc_clear : forall t, full_since l t -> fl_state f <> FlowClear;
  fc_filling : forall t, full_since l t -> fl_state f = FlowFilling -> fl_since f <= t;
  fc_clogged : forall t, said_busy l t -> fl_state f = FlowClogged /\ t <= fl_since f
}.
Lemma full_since_snoc l x t : full_since (l ++ [x]) t ->
  rp_under x = false /\ (full_since l t \/ t = rp_at x /\ backlog_full (rp_backlog x) = true).
Proof.
  intros (i & y & Hi & Ht & Hf & Hno). pose proof (lookup_lt_Some _ _ _ Hi) as Hlt. rewrite length_app in Hlt. cbn in Hlt. split.
  - apply (Hno (length l)); [lia|]. by rewrite lookup_app_r, Nat.sub_diag by lia.
  - apply lookup_app_Some in Hi as [Hi|[Hl Hi]].
    + left. exists i, y. split_and!; try done. intros j z Hj Hz. eapply Hno; [done|]. by apply lookup_app_l_Some.
    + apply list_lookup_singleton_Some in Hi as [_ <-]. by right.
Qed.
Lemma said_busy_snoc l x t : said_busy (l ++ [x]) t ->
  rp_under x = false /\ (said_busy l t \/ t = rp_at x /\ rp_said x = Some PendBusy).
Proof.
  intros (i & y & Hi & Ht & Hf & Hno). pose proof (lookup_lt_Some _ _ _ Hi) as Hlt. rewrite length_app in Hlt. cbn in Hlt. split.
  - apply (Hno (length l)); [lia|]. by rewrite lookup_app_r, Nat.sub_diag by lia.
  - apply lookup_app_Some in Hi as [Hi|[Hl Hi]].
    + left. exists i, y. split_and!; try done. intros j z Hj Hz. eapply Hno; [done|]. by apply lookup_app_l_Some.
    + apply list_lookup_singleton_Some in Hi as [_ <-]. by right.
Qed.
Lemma flows_cover f l : flows f l -> flow_covers f l.
Proof.
  induction 1 as [|f l b now Hfl [IH1 IH2 IH3] Hlate|f l p c _ IH]; [| |by destruct IH; split].
  { split; intros t (i & x & Hi & _); done. }
  assert (Hbefore : forall t, said_busy l t -> t <= now).
  { intros t (i & y & Hi & <- & _). exact (proj1 (Forall_forall _ _) Hlate y (list_elem_of_lookup_2 _ _ _ Hi)). }
  assert (Hfill : fl_state f = FlowFilling -> fl_since f <= now).
  { pose proof (flows_inv f l Hfl) as Hi. unfold flow_inv in Hi. intros Hst. rewrite Hst in Hi. destruct Hi as (i & y & Hi & <- & _).
    exact (proj1 (Forall_forall _ _) Hlate y (list_elem_of_lookup_2 _ _ _ Hi)). }
  unfold report, flow_report. cbn [fst snd]. set (under := backlog_under b (cg_drain_below_percent policy)).
  destruct under eqn:Hu; [|destruct (backlog_full b) eqn:Hf; [destruct (fl_state f) eqn:Hst; [|destruct (_ <=? _)..]|]]; cbn [negb];
    try case_bool_decide; (split; intros t Ht; [apply full_since_snoc in Ht as [Hx Ht]..|apply said_busy_snoc in Ht as [Hx Ht]]);
    change (under = false) in Hx; try congruence; cbn in *; rewrite ?Hst in *; destruct Ht as [Ht|[-> Ht]]; try done.
  all: try (destruct (IH3 _ Ht); try done; specialize (Hbefore _ Ht); split; done).
  all: try congruence; try exact Hfill; try exact (IH1 _ Ht); try exact (IH2 _ Ht); by destruct (IH1 _ Ht).
Qed.
(** A port is announced busy exactly when it reports full at least [clog_after] after an earlier full report, with no report
    under the low-water mark since, and at least [repeat] after every busy announcement made meanwhile; and announced available
    exactly when it reports under the mark for the first time since it was announced busy. *)
Theorem announcements_exact f l b now : flows f l -> Forall (fun x => rp_at x <= now) l ->
  let said := (flow_report f b now policy).2 in
  let under := backlog_under b (cg_drain_below_percent policy) in
  (said = Some PendBusy <->
     under = false /\ backlog_full b = true /\
     (exists t, full_since l t /\ instant_add t (cg_clog_after policy) <= now) /\
     forall t, said_busy l t -> instant_add t (cg_repeat policy) <= now) /\
  (said = Some PendAvailable <-> under = true /\ exists t, said_busy l t).
Proof.
  intros Hfl Hlate. pose proof (flows_inv f l Hfl) as Hi. unfold flow_inv in Hi. destruct (flows_cover f l Hfl) as [H1 H2 H3]. cbv zeta. unfold flow_report.
  assert (Hmono : forall x y (z : Duration), x <= y -> instant_add x z <= instant_add y z).
  { intros x y z ?. unfold instant_add, instant_saturating_add, sat_add. lia. }
  destruct (backlog_under _ _); [case_bool_decide as Hc|destruct (backlog_full b) eqn:Hb; [destruct (fl_state f) eqn:Hs|]];
    cbn [negb snd flow_announce]; try (split; (split; [done|]); by naive_solver).
  - rewrite Hc in Hi. destruct Hi as [Hi _]. split; [naive_solver|]. split; [intros _; split; [done|by exists (fl_since f)]|done].
  - destruct (Z.leb_spec (instant_add (fl_since f) (cg_clog_after policy)) now) as [Hle|Hle]; cbn [snd].
    + split; [|naive_solver]. split; [|done]. intros _. split_and!; [done|done|by exists (fl_since f)|]. intros t Ht. by destruct (H3 _ Ht).
    + split; [|naive_solver]. split; [done|]. intros (_ & _ & (t & Ht & Hn) & _). specialize (Hmono _ _ (cg_clog_after policy) (H2 t Ht eq_refl)). lia.
  - destruct Hi as [Hsaid (t & Ht & Hn)]. assert (Hnow : fl_since f <= now).
    { destruct Hsaid as (i & y & Hi & <- & _). exact (proj1 (Forall_forall _ _) Hlate y (list_elem_of_lookup_2 _ _ _ Hi)). }
    destruct (Z.leb_spec (instant_add (fl_since f) (cg_repeat policy)) now) as [Hle|Hle]; cbn [snd].
    + split; [|naive_solver]. split; [|done]. intros _. split_and!; [done|done|exists t; split; [done|lia]|].
      intros t' Ht'. specialize (Hmono _ _ (cg_repeat policy) (proj2 (H3 _ Ht'))). lia.
    + split; [|naive_solver]. split; [done|]. intros (_ & _ & _ & Hall). specialize (Hall _ Hsaid). lia.
Qed.
End Flow.

(** ** Repeated broadcasts *)

Section Ring.
Context (B : nat) (tag : Z).
Implicit Types (r : Recent) (l : list Seen).

(** A ring of [B] broadcasts, and every broadcast it was given as new, the oldest first. Only flow messages erase entries, those of
    their opposite's kind; [tag] is a kind none is the opposite of. *)
Inductive ring : Recent -> list Seen -> Prop :=
| rg_new : ring (recent_new B) []
| rg_tagged r l network src kind data now ttl : ring r l ->
    ring (repeat_tagged r network src kind data now ttl).1
      (if (repeat_tagged r network src kind data now ttl).2 then l else
       l ++ [{| sn_at := now; sn_payload := fnv1a data; sn_source := fnv1a src; sn_network := network; sn_tag := kind; sn_resets := 0 |}])
| rg_flow r l network src kind opposite data now ttl : ring r l -> opposite <> tag -> kind <> tag ->
    ring (repeat_flow r network src kind opposite data now ttl).1
      (if (repeat_flow r network src kind opposite data now ttl).2 then l else
       l ++ [{| sn_at := now; sn_payload := fnv1a data; sn_source := fnv1a src; sn_network := network; sn_tag := kind; sn_resets := 0 |}]).
(** Each of the last [B] of the kind is in its slot; each slot of the kind that is taken holds one of the last [B]. *)
Record ring_inv r l : Prop := {
  ri_size : length (re_seen r) = B;
  ri_next : (0 < B)%nat -> re_next r = (length l mod B)%nat;
  ri_kept : forall k x, l !! k = Some x -> (length l <= k + B)%nat -> sn_tag x = tag -> re_seen r !! (k mod B)%nat = Some x;
  ri_real : forall i x, re_seen r !! i = Some x -> sn_tag x = tag ->
    x = SEEN_EMPTY \/ exists k, l !! k = Some x /\ (k mod B)%nat = i /\ (length l <= k + B)%nat
}.
Lemma mod_slot a b : (0 < B)%nat -> (b < a <= b + B)%nat -> (a mod B)%nat = (b mod B)%nat -> a = (b + B)%nat.
Proof.
  intros HB Hab Hm. pose proof (Nat.div_mod_eq a B). pose proof (Nat.div_mod_eq b B). rewrite Hm in *.
  assert (a / B = S (b / B))%nat by nia. nia.
Qed.
Lemma record_inv r l e e' : ring_inv r l -> (sn_tag e = tag -> e' = e) -> sn_tag e' = sn_tag e -> ring_inv (recent_record r e) (l ++ [e']).
Proof.
  intros [Hs Hn Hk Hr] He Ht. unfold recent_record. destruct (decide (B = 0%nat)) as [HB|HB].
  { rewrite bool_decide_eq_false_2 by lia. split; [done|lia| |].
    - intros k x Hx Hl. apply lookup_lt_Some in Hx. lia.
    - intros i x Hx. apply lookup_lt_Some in Hx. lia. }
  specialize (Hn ltac:(lia)). pose proof (Nat.mod_upper_bound (length l) B HB) as Hlt.
  rewrite bool_decide_eq_true_2 by lia. split; cbn [re_seen re_next].
  - by rewrite length_insert.
  - intros _. rewrite length_app, Hs, Hn. cbn [length]. rewrite Nat.add_1_r.
    pose proof (Nat.div_mod_eq (length l) B). case_bool_decide as Hc.
    + apply (Nat.mod_unique _ _ (S (length l / B))); [lia|nia].
    + apply (Nat.mod_unique _ _ (length l / B)); [lia|nia].
  - intros k x Hx Hle Hxt. rewrite length_app in Hle. cbn in Hle. rewrite Hn. apply lookup_app_Some in Hx as [Hx|[Hge Hx]].
    + pose proof (lookup_lt_Some _ _ _ Hx). rewrite list_lookup_insert_ne; [apply Hk; [done|lia|done]|].
      intros Heq. apply mod_slot in Heq; lia.
    + apply list_lookup_singleton_Some in Hx as [? <-]. replace k with (length l) by lia.
      rewrite He by congruence. rewrite list_lookup_insert_eq by lia. done.
  - intros i x Hx Hxt. rewrite length_app. cbn. rewrite Hn in Hx. destruct (decide (i = (length l mod B)%nat)) as [->|Hi].
    + rewrite list_lookup_insert_eq in Hx by lia. injection Hx as <-. right. exists (length l). rewrite He by done.
      rewrite lookup_app_r, Nat.sub_diag by lia. split_and!; [done|done|lia].
    + rewrite list_lookup_insert_ne in Hx by done. destruct (Hr i x Hx Hxt) as [?|(k & Hk1 & Hk2 & Hk3)]; [by left|right].
      exists k. pose proof (lookup_lt_Some _ _ _ Hk1). split_and!; [by apply lookup_app_l_Some|done|].
      destruct (decide (length l = (k + B)%nat)) as [Heq|]; [|lia]. exfalso. apply Hi. rewrite <-Hk2, Heq.
      replace (k + B)%nat with (k + 1 * B)%nat by lia. by rewrite Nat.Div0.mod_add.
Qed.
Lemma erase_inv r l (gone : Seen -> bool) : ring_inv r l -> (forall x, gone x = true -> sn_tag x <> tag) ->
  ring_inv {| re_seen := map (fun x => if gone x then SEEN_EMPTY else x) (re_seen r); re_next := re_next r |} l.
Proof.
  intros [Hs Hn Hk Hr] Hg. split; cbn [re_seen re_next]; [by rewrite length_map|done| |].
  - intros k x Hx Hl Ht. change (map ?f ?l) with (f <$> l). rewrite list_lookup_fmap, (Hk k x Hx Hl Ht). cbn.
    destruct (gone x) eqn:Hgx; [|done]. by destruct (Hg x Hgx).
  - intros i x Hx Ht. change (map ?f ?l) with (f <$> l) in Hx. rewrite list_lookup_fmap in Hx. destruct (re_seen r !! i) as [y|] eqn:Hy; [|done].
    cbn in Hx. injection Hx as <-. destruct (gone y); [by left|]. by apply Hr.
Qed.
Lemma ring_ok r l : ring r l -> ring_inv r l.
Proof.
  induction 1 as [|r l network src kind data now ttl _ IH|r l network src kind opposite data now ttl _ IH Hop Hkind].
  - split; cbn; [by rewrite length_replicate|intros; by rewrite Nat.Div0.mod_0_l|done|]. intros i x Hx%lookup_replicate_1. left. apply Hx.
  - unfold repeat_tagged. cbv zeta. destruct (existsb _ _); cbn [fst snd]; [done|]. by apply record_inv.
  - unfold repeat_flow. cbv zeta. destruct (existsb _ _); cbn [fst snd]; [done|].
    assert (Hgone : forall x, seen_live network (fnv1a src) now ttl x && (sn_tag x =? opposite) = true -> sn_tag x <> tag) by (intros x Hx; lia).
    assert (Hr : r = {| re_seen := re_seen r; re_next := re_next r |}) by (by destruct r).
    destruct (max_of _) as [count|]; [destruct (_ <? _)|]; cbn [fst snd]; (apply record_inv; [|done|done]).
    + apply erase_inv; auto.
    + by rewrite <-Hr.
    + by rewrite <-Hr.
Qed.
(** A broadcast of a kind the ring never erases is taken as a repeat exactly when one of the last [B] taken as new is of its kind,
    from the same network, with the same hashes of its source and its data, and younger than [ttl]. *)
Theorem repeat_exact r l network src data now ttl : ring r l -> network <> 0 ->
  (repeat_tagged r network src tag data now ttl).2 = true <->
  exists k x, l !! k = Some x /\ (length l <= k + B)%nat /\ now < instant_add (sn_at x) ttl /\
    sn_network x = network /\ sn_tag x = tag /\ sn_source x = fnv1a src /\ sn_payload x = fnv1a data.
Proof.
  intros Hring Hnet. destruct (ring_ok r l Hring) as [Hs Hn Hk Hr]. unfold repeat_tagged. cbv zeta. cbn [sn_source sn_payload].
  assert (Hiff : existsb (seen_fresh now ttl) (List.filter (seen_matches network tag (fnv1a src) (fnv1a data)) (re_seen r)) = true <->
    exists i x, re_seen r !! i = Some x /\ now < instant_add (sn_at x) ttl /\
      sn_network x = network /\ sn_tag x = tag /\ sn_source x = fnv1a src /\ sn_payload x = fnv1a data).
  { rewrite existsb_exists. unfold seen_fresh, seen_matches. split.
    - intros (x & Hx & Hfresh). apply filter_In in Hx as [Hx Hm]. apply list_elem_of_In, list_elem_of_lookup in Hx as [i Hi].
      exists i, x. split_and!; [done|lia..].
    - intros (i & x & Hi & Hfresh & ? & ? & ? & ?). exists x. split; [|lia]. apply filter_In. split; [|lia].
      apply list_elem_of_In. by eapply list_elem_of_lookup_2. }
  destruct (existsb _ _); cbn [fst snd].
  - split; [intros _|done]. destruct (proj1 Hiff eq_refl) as (i & x & Hi & Hx). destruct (Hr i x Hi ltac:(apply Hx)) as [->|(k & ? & _ & ?)].
    + cbn in Hx. lia.
    + by exists k, x.
  - split; [done|]. intros (k & x & Hx & Hl & Hrest). apply Hiff. exists (k mod B)%nat, x. split; [|done]. by apply Hk; [| |apply Hrest].
Qed.
End Ring.

(** ** The theorems at work *)

Definition example_policy : Congestion := {| cg_clog_after := 5; cg_drain_below_percent := 50; cg_repeat := 10 |}.
Definition full_backlog : Backlog := {| bl_queued := 4; bl_capacity := 4 |}.
(** Full at 1 and still full at 6: busy is announced. *)
Lemma announcements_exact_witness : (flow_report (report example_policy (FLOW_CLEAR, []) full_backlog 1).1 full_backlog 6 example_policy).2 = Some PendBusy.
Proof.
  set (l := (report example_policy (FLOW_CLEAR, []) full_backlog 1).2).
  assert (Hf : flows example_policy (report example_policy (FLOW_CLEAR, []) full_backlog 1).1 l) by (apply fl_report; constructor).
  apply (announcements_exact example_policy _ l full_backlog 6 Hf).
  - apply Forall_cons_2; [done|apply Forall_nil_2].
  - split_and!; [done|done| |].
    + exists 1. split; [|by vm_compute]. eexists 0%nat, _. split_and!; [done|done|done|]. intros [|j] y _ Hy; [by injection Hy as <-|done].
    + intros t (i & x & Hi & _ & Hx & _). destruct i as [|i]; [by injection Hi as <-|done].
Defined.
(** A broadcast taken as new at 1 is a repeat at 2. *)
Lemma repeat_exact_witness : (repeat_tagged (repeat_tagged (recent_new 4) 7 [5] TAG_APDU [16; 8] 1 10).1 7 [5] TAG_APDU [16; 8] 2 10).2 = true.
Proof.
  pose proof (rg_tagged 4 TAG_APDU (recent_new 4) [] 7 [5] TAG_APDU [16; 8] 1 10 (rg_new 4 TAG_APDU)) as Hr.
  replace (repeat_tagged (recent_new 4) 7 [5] TAG_APDU [16; 8] 1 10).2 with false in Hr by (vm_compute; reflexivity).
  apply (repeat_exact 4 TAG_APDU _ _ 7 [5] [16; 8] 2 10 Hr); [discriminate|]. eexists 0%nat, _. split_and!; [reflexivity|cbn; lia|by vm_compute|done..].
Defined.
