(* ===== verification/WireError.v ===== *)
(** * Errors of the application-layer codec (bacnet-types error.rs, error/decode.rs, error/encode.rs)

    What a decoder or an encoder refuses with: a fault's kind, offset, static label and numbers, and the Reject reason it draws. The
    variants of [Error] that only the client and the transports return are left out. *)

From Stdlib Require Import String.
From S2P Require Import Prelude.
Open Scope Z_scope.

(** [DecodingKind] (bacnet-types/src/error/decode.rs) *)
Inductive DecodingKind := InvalidEncoding | OutOfRange | Overflow | InvalidTag | Missing | Trailing | Unsupported.
#[global] Instance DecodingKind_eq_dec : EqDecision DecodingKind.
Proof. solve_decision. Defined.

(** [DecodeError] (bacnet-types/src/error/decode.rs) *)
Record DecodeError := {
  de_offset : nat; de_kind : DecodingKind; de_context : string; de_label : string; de_values : Z * Z; de_index : option Z
}.
#[export] Instance eta_DecodeError : Settable DecodeError := fun e =>
  {| de_offset := de_offset e; de_kind := de_kind e; de_context := de_context e; de_label := de_label e;
     de_values := de_values e; de_index := de_index e |}.
(** [DecodeError::new] (bacnet-types/src/error/decode.rs) *)
Definition decode_error (kind : DecodingKind) (offset : nat) (label : string) : DecodeError :=
  {| de_offset := offset; de_kind := kind; de_context := ""; de_label := label; de_values := (0, 0); de_index := None |}.
(** [DecodeError::within] (bacnet-types/src/error/decode.rs) *)
Definition within (e : DecodeError) (context : string) : DecodeError := e <| de_context := context |>.
(** [DecodeError::at_item] (bacnet-types/src/error/decode.rs) *)
Definition at_item (e : DecodeError) (index : Z) : DecodeError := e <| de_index := Some index |>.
(** [DecodeError::with_value] (bacnet-types/src/error/decode.rs) *)
Definition with_value (e : DecodeError) (value : Z) : DecodeError := e <| de_values := (value, 0) |>.
(** [DecodeError::with_values] (bacnet-types/src/error/decode.rs) *)
Definition with_values (e : DecodeError) (first second : Z) : DecodeError := e <| de_values := (first, second) |>.

(** [RangeError] (bacnet-types/src/error/decode.rs) *)
Record RangeError := { ra_label : string; ra_values : Z * Z }.

(** [EncodeError] (bacnet-types/src/error/encode.rs) *)
Record EncodeError := { ee_context : string; ee_label : string; ee_values : Z * Z; ee_decode_offset : option Z }.
(** [EncodeError::new] (bacnet-types/src/error/encode.rs) *)
Definition encode_error (label : string) : EncodeError :=
  {| ee_context := ""; ee_label := label; ee_values := (0, 0); ee_decode_offset := None |}.
(** [saturate] (bacnet-types/src/error/encode.rs) *)
Definition saturate (value : Z) : Z := if value <=? U32_MAX then value else U32_MAX.
(** [EncodeError::restating] (bacnet-types/src/error/encode.rs) *)
Definition restating (e : DecodeError) : EncodeError :=
  {| ee_context := de_context e; ee_label := de_label e; ee_values := (saturate (de_values e).1, saturate (de_values e).2);
     ee_decode_offset := None |}.
(** [EncodeError::from_decode] (bacnet-types/src/error/encode.rs) *)
Definition from_decode (e : DecodeError) : EncodeError :=
  {| ee_context := de_context e; ee_label := de_label e; ee_values := (saturate (de_values e).1, saturate (de_values e).2);
     ee_decode_offset := Some (saturate (Z.of_nat (de_offset e))) |}.

(** The five a codec reports.
    [SegmentationError] (bacnet-types/src/error/encode.rs:166-195) *)
Inductive SegmentationError :=
| ZeroSegmentSize | TooManySegments (segments : nat) | SegmentTooLarge (size max : nat) | TotalTooLarge (total : nat)
| MissingSegment (index total : nat).

(** The variants the codecs report; [ErrReject] is a [Remote] that carries a reject reason.
    [Error] (bacnet-types/src/error.rs:137-183) *)
Inductive Error :=
| ErrReject (reason : Z) | ErrDecoding (e : DecodeError) | ErrBufferTooShort (need have : nat) | ErrRange (e : RangeError)
| ErrEncode (e : EncodeError) | ErrSegmentation (e : SegmentationError).

(** [Error::decoding_kind] (bacnet-types/src/error.rs) *)
Definition decoding_kind (kind : DecodingKind) (offset : nat) (label : string) : Error := ErrDecoding (decode_error kind offset label).
(** [Error::decoding] (bacnet-types/src/error.rs) *)
Definition decoding : nat -> string -> Error := decoding_kind InvalidEncoding.
(** [Error::invalid_tag] (bacnet-types/src/error.rs) *)
Definition invalid_tag : nat -> string -> Error := decoding_kind InvalidTag.
(** [Error::missing] (bacnet-types/src/error.rs) *)
Definition missing : nat -> string -> Error := decoding_kind Missing.
(** [Error::trailing] (bacnet-types/src/error.rs) *)
Definition trailing : nat -> string -> Error := decoding_kind Trailing.
(** [Error::out_of_range] (bacnet-types/src/error.rs) *)
Definition out_of_range : nat -> string -> Error := decoding_kind OutOfRange.
(** [Error::overflow] (bacnet-types/src/error.rs) *)
Definition overflow : nat -> string -> Error := decoding_kind Overflow.
(** [Error::buffer_too_short] (bacnet-types/src/error.rs) *)
Definition buffer_too_short (need have : nat) : Error := ErrBufferTooShort need have.
(** [Error::encode] (bacnet-types/src/error.rs) *)
Definition err_encode (label : string) : Error := ErrEncode (encode_error label).

(** [Error::to_decode_error] (bacnet-types/src/error.rs) *)
Definition to_decode_error (e : Error) (offset : nat) : DecodeError :=
  let refused :=
    match e with
    | ErrDecoding refused => refused
    | ErrRange refused => (decode_error OutOfRange offset (ra_label refused)) <| de_values := ra_values refused |>
    | ErrBufferTooShort need have =>
        with_values (decode_error Missing offset "buffer too short: need {} bytes, have {}") (Z.of_nat need) (Z.of_nat have)
    | _ => decode_error InvalidEncoding offset "malformed"
    end in
  refused <| de_offset := offset |>.
(** [Error::decode_fault] (bacnet-types/src/error.rs) *)
Definition decode_fault (e : Error) : option (nat * DecodingKind) :=
  match e with ErrDecoding e => Some (de_offset e, de_kind e) | _ => None end.
(** [Error::into_encode_refusal] (bacnet-types/src/error.rs) *)
Definition into_encode_refusal (e : Error) : Error :=
  match e with
  | ErrEncode _ => e
  | ErrDecoding refused => ErrEncode (from_decode refused)
  | other => ErrEncode (restating (to_decode_error other 0))
  end.

(** ** Reject reasons *)

(** [RejectReason] (bacnet-types/src/enums/protocol.rs:273-273) *)
Definition REJECT_OTHER : Z := 0.
(** [RejectReason] (bacnet-types/src/enums/protocol.rs:274-274) *)
Definition REJECT_BUFFER_OVERFLOW : Z := 1.
(** [RejectReason] (bacnet-types/src/enums/protocol.rs:277-277) *)
Definition REJECT_INVALID_TAG : Z := 4.
(** [RejectReason] (bacnet-types/src/enums/protocol.rs:278-278) *)
Definition REJECT_MISSING_REQUIRED_PARAMETER : Z := 5.
(** [RejectReason] (bacnet-types/src/enums/protocol.rs:279-279) *)
Definition REJECT_PARAMETER_OUT_OF_RANGE : Z := 6.
(** [RejectReason] (bacnet-types/src/enums/protocol.rs:280-280) *)
Definition REJECT_TOO_MANY_ARGUMENTS : Z := 7.
(** [RejectReason] (bacnet-types/src/enums/protocol.rs:283-283) *)
Definition REJECT_INVALID_DATA_ENCODING : Z := 10.
(** [DecodingKind::reject_reason] (bacnet-types/src/error/decode.rs) *)
Definition kind_reject_reason (kind : DecodingKind) : Z :=
  match kind with
  | InvalidEncoding => REJECT_INVALID_DATA_ENCODING
  | OutOfRange => REJECT_PARAMETER_OUT_OF_RANGE
  | Overflow => REJECT_BUFFER_OVERFLOW
  | InvalidTag => REJECT_INVALID_TAG
  | Missing => REJECT_MISSING_REQUIRED_PARAMETER
  | Trailing => REJECT_TOO_MANY_ARGUMENTS
  | Unsupported => REJECT_OTHER
  end.
(** [Error::reject_reason] (bacnet-types/src/error.rs) *)
Definition reject_reason (e : Error) : option Z :=
  match e with
  | ErrReject reason => Some reason
  | ErrBufferTooShort _ _ => Some REJECT_MISSING_REQUIRED_PARAMETER
  | _ => match decode_fault e with Some (_, kind) => Some (kind_reject_reason kind) | None => None end
  end.
(** [Error::into_request_reject] (bacnet-types/src/error.rs) *)
Definition into_request_reject (e : Error) : Error :=
  match reject_reason e with Some reason => ErrReject reason | None => e end.

(** ** Machine words *)

(** [usize] of a 64-bit target, and the longest slice there is. *)
Definition USIZE_MAX : Z := U64_MAX.
Definition ISIZE_MAX : Z := 9223372036854775807.
(** [usize::checked_add]. *)
Definition checked_add (a b : nat) : option nat :=
  if Z.of_nat a + Z.of_nat b <=? USIZE_MAX then Some (a + b)%nat else None.
(** [u32::to_be_bytes]. *)
Definition to_be32 (x : Z) : bytes := [x / 16777216; x / 65536 mod 256; x / 256 mod 256; x mod 256].
(** [u32::from_be_bytes]. *)
Definition from_be32 (a b c d : Z) : Z := 16777216 * a + 65536 * b + 256 * c + d.
(** [u64::to_be_bytes]. *)
Definition to_be64 (x : Z) : bytes := to_be32 (x / 4294967296) ++ to_be32 (x mod 4294967296).
Lemma from_to_be32 x : is_u32 x -> from_be32 (x / 16777216) (x / 65536 mod 256) (x / 256 mod 256) (x mod 256) = x.
Proof. intros Hx. unfold is_u32, U32_MAX, from_be32 in *. Z.div_mod_to_equations. lia. Qed.
Lemma to_be32_wf x : is_u32 x -> wf_bytes (to_be32 x).
Proof.
  intros Hx. unfold is_u32, U32_MAX in Hx. unfold to_be32. repeat apply Forall_cons_2; try apply Forall_nil_2; unfold is_u8, U8_MAX; Z.div_mod_to_equations; lia.
Qed.
Lemma from_be32_u32 a b c d : is_u8 a -> is_u8 b -> is_u8 c -> is_u8 d -> is_u32 (from_be32 a b c d).
Proof. unfold is_u8, is_u32, U8_MAX, U32_MAX, from_be32. lia. Qed.
Lemma to_from_be32 a b c d : is_u8 a -> is_u8 b -> is_u8 c -> is_u8 d -> to_be32 (from_be32 a b c d) = [a; b; c; d].
Proof. unfold is_u8, U8_MAX, to_be32, from_be32. intros. repeat f_equal; Z.div_mod_to_equations; lia. Qed.
