(* ===== verification/Tags.v ===== *)
(** * Tags (crate bacnet-encoding: sink.rs, tags.rs, tags/encode.rs)

    The header before every application-layer value: its number, its class and the length of its contents, or the marks that open
    and close a constructed value. Headers are written to a sink whole or not at all, and read back from one encoding only; a
    constructed value is found by walking the values inside it. *)

From Stdlib Require Import String.
From S2P Require Import Prelude Sink WireError.
Open Scope Z_scope.
Open Scope nat_scope.

(** ** Sinks *)

(** [EncodeSink] has the two methods of [FrameSink], with the same contract, and one that appends several slices as one value.
    [EncodeSink] (bacnet-encoding/src/sink.rs) *)
Class EncodeSink (S : Type) `{FrameSink S} := { write_parts : S -> list bytes -> S * Result unit SinkFull }.
(** [EncodeSink::write_parts] (bacnet-encoding/src/sink.rs) *)
Definition default_write_parts {S} `{FrameSink S} (s : S) (parts : list bytes) : S * Result unit SinkFull :=
  let available := remaining_capacity s in
  let sum := fold_left (fun acc part => match acc with Some n => checked_add n (length part) | None => None end) parts (Some 0) in
  match sum with
  | None => (s, Err {| full_needed := Z.to_nat USIZE_MAX; full_available := default (Z.to_nat USIZE_MAX) available |})
  | Some needed =>
      match available with
      | Some available =>
          if decide (available < needed) then (s, Err {| full_needed := needed; full_available := available |}) else write_all s parts
      | None => write_all s parts
      end
  end.
(** [EncodeSink for &mut [u8]] (bacnet-encoding/src/sink.rs:166-186) *)
#[export] Instance SliceSink_EncodeSink : EncodeSink SliceSink := {| write_parts := default_write_parts |}.
(** [EncodeSink for alloc::vec::Vec<u8>] (bacnet-encoding/src/sink.rs:202-224) *)
#[export] Instance Vec_EncodeSink : EncodeSink bytes := {| write_parts := default_write_parts |}.

(** ** Tags *)

(** [TagClass] (bacnet-encoding/src/tags.rs) *)
Inductive TagClass := ApplicationTag | ContextTag.
#[global] Instance TagClass_eq_dec : EqDecision TagClass.
Proof. solve_decision. Defined.
(** [app_tag] (bacnet-encoding/src/tags.rs:29-29) *)
Definition TAG_NULL : Z := 0.
(** [app_tag] (bacnet-encoding/src/tags.rs:31-31) *)
Definition TAG_BOOLEAN : Z := 1.
(** [app_tag] (bacnet-encoding/src/tags.rs:33-33) *)
Definition TAG_UNSIGNED : Z := 2.
(** [app_tag] (bacnet-encoding/src/tags.rs:35-35) *)
Definition TAG_SIGNED : Z := 3.
(** [app_tag] (bacnet-encoding/src/tags.rs:37-37) *)
Definition TAG_REAL : Z := 4.
(** [app_tag] (bacnet-encoding/src/tags.rs:39-39) *)
Definition TAG_DOUBLE : Z := 5.
(** [app_tag] (bacnet-encoding/src/tags.rs:41-41) *)
Definition TAG_OCTET_STRING : Z := 6.
(** [app_tag] (bacnet-encoding/src/tags.rs:43-43) *)
Definition TAG_CHARACTER_STRING : Z := 7.
(** [app_tag] (bacnet-encoding/src/tags.rs:45-45) *)
Definition TAG_BIT_STRING : Z := 8.
(** [app_tag] (bacnet-encoding/src/tags.rs:47-47) *)
Definition TAG_ENUMERATED : Z := 9.
(** [app_tag] (bacnet-encoding/src/tags.rs:49-49) *)
Definition TAG_DATE : Z := 10.
(** [app_tag] (bacnet-encoding/src/tags.rs:51-51) *)
Definition TAG_TIME : Z := 11.
(** [app_tag] (bacnet-encoding/src/tags.rs:53-53) *)
Definition TAG_OBJECT_IDENTIFIER : Z := 12.

(** [Tag] (bacnet-encoding/src/tags.rs) *)
Record Tag := { tag_number : Z; tag_class : TagClass; tag_length : Z; is_opening : bool; is_closing : bool }.
#[global] Instance Tag_eq_dec : EqDecision Tag.
Proof. solve_decision. Defined.
(** [Tag::is_boolean_true] (bacnet-encoding/src/tags.rs) *)
Definition is_boolean_true (t : Tag) : bool :=
  bool_decide (tag_class t = ApplicationTag) && (tag_number t =? TAG_BOOLEAN)%Z && negb (tag_length t =? 0)%Z.
(** [Tag::is_context] (bacnet-encoding/src/tags.rs) *)
Definition is_context (t : Tag) (number : Z) : bool :=
  bool_decide (tag_class t = ContextTag) && (tag_number t =? number)%Z && negb (is_opening t) && negb (is_closing t).
(** [Tag::is_opening_tag] (bacnet-encoding/src/tags.rs) *)
Definition is_opening_tag (t : Tag) (number : Z) : bool :=
  bool_decide (tag_class t = ContextTag) && (tag_number t =? number)%Z && is_opening t.
(** [Tag::is_closing_tag] (bacnet-encoding/src/tags.rs) *)
Definition is_closing_tag (t : Tag) (number : Z) : bool :=
  bool_decide (tag_class t = ContextTag) && (tag_number t =? number)%Z && is_closing t.

(** ** Decoding *)

(** [MAX_TAG_LENGTH] (bacnet-encoding/src/tags.rs) *)
Definition MAX_TAG_LENGTH : Z := 1048576.
(** [MAX_CONTEXT_NESTING_DEPTH] (bacnet-encoding/src/tags.rs) *)
Definition MAX_CONTEXT_NESTING_DEPTH : nat := 32.
(** [header_fault] (bacnet-encoding/src/tags.rs) *)
Definition header_fault (offset : nat) (label : string) (value : Z) : Error :=
  ErrDecoding (with_value (decode_error InvalidTag offset label) value).
(** [unclosed] (bacnet-encoding/src/tags.rs) *)
Definition unclosed (offset : nat) (number : Z) : Error :=
  ErrDecoding (with_value (decode_error Missing offset "missing closing tag {}") number).
(** The tag number, from the next octet when the first has no room for it.
    [decode_tag] (bacnet-encoding/src/tags.rs:144-157) *)
Definition decode_number (data : bytes) (nibble : Z) (pos : nat) : Result (Z * nat) Error :=
  if (nibble =? 15)%Z then
    match data !! pos with
    | None => Err (missing pos "truncated extended tag number")
    | Some number =>
        if ((15 <=? number) && (number <=? 254))%Z then Ok (number, S pos)
        else Err (header_fault pos "invalid extended tag number {}" number)
    end
  else Ok (nibble, pos).
(** The length of the contents, which has one encoding only.
    [decode_tag] (bacnet-encoding/src/tags.rs:186-234) *)
Definition decode_length (data : bytes) (lvt : Z) (pos : nat) : Result (Z * nat) Error :=
  if (lvt <? 5)%Z then Ok (lvt, pos) else
  match data !! pos with
  | None => Err (missing pos "truncated extended length")
  | Some ext =>
      let pos := S pos in
      if (ext <=? 4)%Z then Err (header_fault (pos - 1) "non-canonical extended tag length {}" ext) else
      if (ext <=? 253)%Z then Ok (ext, pos) else
      if (ext =? 254)%Z then
        match data !! pos, data !! (pos + 1) with
        | Some a, Some b =>
            let len := from_be16 a b in
            if (len <? 254)%Z then Err (header_fault pos "non-canonical 2-byte extended tag length {}" len) else Ok (len, pos + 2)
        | _, _ => Err (missing pos "truncated 2-byte extended length")
        end
      else
        match data !! pos, data !! (pos + 1), data !! (pos + 2), data !! (pos + 3) with
        | Some a, Some b, Some c, Some d =>
            let len := from_be32 a b c d in
            if (len <? 65536)%Z then Err (header_fault pos "non-canonical 4-byte extended tag length {}" len) else Ok (len, pos + 4)
        | _, _, _, _ => Err (missing pos "truncated 4-byte extended length")
        end
  end.
(** [decode_tag] (bacnet-encoding/src/tags.rs) *)
Definition decode_tag (data : bytes) (offset : nat) : Result (Tag * nat) Error :=
  match data !! offset with
  | None => Err (missing offset "tag decode: offset beyond buffer length")
  | Some initial =>
      let nibble := Z.land (Z.shiftr initial 4) 15 in
      let class := if (Z.land (Z.shiftr initial 3) 1 =? 1)%Z then ContextTag else ApplicationTag in
      let lvt := Z.land initial 7 in
      if bool_decide (class = ApplicationTag) && (5 <? lvt)%Z then Err (invalid_tag offset "reserved application tag L/V/T") else
      let? (number, pos) := decode_number data nibble (S offset) in
      if bool_decide (class = ContextTag) && (lvt =? 6)%Z then
        Ok ({| tag_number := number; tag_class := class; tag_length := 0; is_opening := true; is_closing := false |}, pos)
      else if bool_decide (class = ContextTag) && (lvt =? 7)%Z then
        Ok ({| tag_number := number; tag_class := class; tag_length := 0; is_opening := false; is_closing := true |}, pos)
      else
      let? (length, pos) := decode_length data lvt pos in
      if (MAX_TAG_LENGTH <? length)%Z then
        Err (ErrDecoding (with_values (decode_error Overflow offset "tag length ({}) exceeds sanity limit ({})") length MAX_TAG_LENGTH))
      else Ok ({| tag_number := number; tag_class := class; tag_length := length; is_opening := false; is_closing := false |}, pos)
  end.

(** The walk of [extract_context_value]: the tags open, innermost first, from position [pos] on.
    [extract_context_value] (bacnet-encoding/src/tags.rs:297-350) *)
Fixpoint walk_context (fuel : nat) (data : bytes) (start : nat) (number : Z) (open_tags : list Z) (pos : nat)
  : Result (bytes * nat) Error :=
  match fuel with
  | O => Err (unclosed start number)
  | S fuel =>
      if decide (length data <= pos) then Err (unclosed start number) else
      let? (tag, new_pos) := decode_tag data pos in
      if is_opening tag then
        if decide (length open_tags = MAX_CONTEXT_NESTING_DEPTH) then
          Err (ErrDecoding (with_value (decode_error InvalidTag pos "context tag nesting depth exceeds maximum ({})")
                 (Z.of_nat MAX_CONTEXT_NESTING_DEPTH)))
        else walk_context fuel data start number (tag_number tag :: open_tags) new_pos
      else if is_closing tag then
        match open_tags with
        | [] => Err (unclosed start number)
        | expected :: rest =>
            if negb (tag_number tag =? expected)%Z then
              Err (ErrDecoding (with_values (decode_error InvalidTag pos "closing tag {} does not match opening tag {}")
                     (tag_number tag) expected))
            else match rest with
                 | [] => Ok (take (pos - start) (drop start data), new_pos)
                 | _ => walk_context fuel data start number rest new_pos
                 end
        end
      else if bool_decide (tag_class tag = ApplicationTag) && (tag_number tag =? TAG_BOOLEAN)%Z then
        walk_context fuel data start number open_tags new_pos
      else
        match checked_add new_pos (Z.to_nat (tag_length tag)) with
        | None => Err (decoding new_pos "tag length overflow")
        | Some content_end =>
            if decide (length data < content_end) then Err (buffer_too_short content_end (length data))
            else walk_context fuel data start number open_tags content_end
        end
  end.
(** [extract_context_value] (bacnet-encoding/src/tags.rs) *)
Definition extract_context_value (data : bytes) (offset : nat) (number : Z) : Result (bytes * nat) Error :=
  walk_context (S (length data)) data offset number [number] offset.

(** The scan of [extract_raw_context].
    [extract_raw_context] (bacnet-encoding/src/tags.rs:385-403) *)
Fixpoint scan_raw (fuel : nat) (data : bytes) (start : nat) (number : Z) (depth pos : nat) : Result (bytes * nat) Error :=
  let wide := (14 <? number)%Z in
  let open_first := if wide then 254%Z else Z.lor (Z.shiftl number 4) 14 in
  let close_first := if wide then 255%Z else Z.lor (Z.shiftl number 4) 15 in
  let width := if wide then 2 else 1 in
  match fuel with
  | O => Err (unclosed start number)
  | S fuel =>
      match data !! pos with
      | None => Err (unclosed start number)
      | Some b =>
          let named := negb wide || bool_decide (data !! (pos + 1) = Some number) in
          if (b =? open_first)%Z && named then scan_raw fuel data start number (S depth) (pos + width)
          else if (b =? close_first)%Z && named then
            match depth with
            | O | 1 => Ok (take (pos - start) (drop start data), pos + width)
            | S depth => scan_raw fuel data start number depth (pos + width)
            end
          else scan_raw fuel data start number depth (S pos)
      end
  end.
(** [extract_raw_context] (bacnet-encoding/src/tags.rs) *)
Definition extract_raw_context (data : bytes) (offset : nat) (number : Z) : Result (bytes * nat) Error :=
  scan_raw (S (length data)) data offset number 1 offset.

(** ** Encoding *)

(** [write_header] (bacnet-encoding/src/tags/encode.rs) *)
Definition write_header {S} `{FrameSink S} (s : S) (header : bytes) : S * Result nat SinkFull :=
  match remaining_capacity s with
  | Some available =>
      if decide (available < length header) then (s, Err {| full_needed := length header; full_available := available |}) else
      match sink_write s header with (s, Ok _) => (s, Ok (length header)) | (s, Err e) => (s, Err e) end
  | None => match sink_write s header with (s, Ok _) => (s, Ok (length header)) | (s, Err e) => (s, Err e) end
  end.
(** [class as u8] *)
Definition class_bit (c : TagClass) : Z := match c with ApplicationTag => 0 | ContextTag => 1 end.
(** The octets of a header.
    [encode_tag_to_sink] (bacnet-encoding/src/tags/encode.rs:60-89) *)
Definition tag_header (number : Z) (class : TagClass) (length : Z) : bytes :=
  let nibble := (if number <=? 14 then Z.shiftl number 4 else 240)%Z in
  let lvt := (if length <=? 4 then length else 5)%Z in
  [Z.lor (Z.lor nibble (Z.shiftl (class_bit class) 3)) lvt] ++
  (if (14 <? number)%Z then [number] else []) ++
  (if (4 <? length)%Z then
     if (length <=? 253)%Z then [length]
     else if (length <=? 65535)%Z then 254%Z :: to_be16 length
     else 255%Z :: to_be32 length
   else []).
(** [encode_tag_to_sink] (bacnet-encoding/src/tags/encode.rs) *)
Definition encode_tag_to_sink {S} `{FrameSink S} (s : S) (number : Z) (class : TagClass) (length : Z) : S * Result nat SinkFull :=
  write_header s (tag_header number class length).
(** [encode_marker] (bacnet-encoding/src/tags/encode.rs) *)
Definition marker_octets (number marker : Z) : bytes :=
  if (number <=? 14)%Z then [Z.lor (Z.shiftl number 4) marker] else [Z.lor 240 marker; number].
(** [encode_opening_tag_to_sink] (bacnet-encoding/src/tags/encode.rs) *)
Definition encode_opening_tag_to_sink {S} `{FrameSink S} (s : S) (number : Z) : S * Result nat SinkFull :=
  write_header s (marker_octets number 14).
(** [encode_closing_tag_to_sink] (bacnet-encoding/src/tags/encode.rs) *)
Definition encode_closing_tag_to_sink {S} `{FrameSink S} (s : S) (number : Z) : S * Result nat SinkFull :=
  write_header s (marker_octets number 15).

(** ** Headers *)

(** The octets of a tag's header. *)
Definition header_of (t : Tag) : bytes :=
  if is_opening t then marker_octets (tag_number t) 14 else if is_closing t then marker_octets (tag_number t) 15
  else tag_header (tag_number t) (tag_class t) (tag_length t).
(** The tags a header can carry. *)
Definition wf_tag (t : Tag) : Prop :=
  (0 <= tag_number t <= 254)%Z /\ (0 <= tag_length t <= MAX_TAG_LENGTH)%Z /\
  (is_opening t || is_closing t = true -> tag_class t = ContextTag /\ tag_length t = 0%Z /\ is_opening t && is_closing t = false).

(** The first octet as its three fields. *)
Definition first_octet (nibble bit lvt : Z) : Z := Z.lor (Z.lor (Z.shiftl nibble 4) (Z.shiftl bit 3)) lvt.
Lemma first_octet_fields nibble bit lvt : (0 <= nibble <= 15)%Z -> (0 <= bit <= 1)%Z -> (0 <= lvt <= 7)%Z ->
  is_u8 (first_octet nibble bit lvt) /\ Z.land (Z.shiftr (first_octet nibble bit lvt) 4) 15 = nibble /\
  Z.land (Z.shiftr (first_octet nibble bit lvt) 3) 1 = bit /\ Z.land (first_octet nibble bit lvt) 7 = lvt.
Proof.
  intros Hn Hb Hl.
  assert (Hall : forallb (fun n => forallb (fun b => forallb (fun l => let x := first_octet n b l in
    (0 <=? x) && (x <=? 255) && (Z.land (Z.shiftr x 4) 15 =? n) && (Z.land (Z.shiftr x 3) 1 =? b) && (Z.land x 7 =? l))%Z
    (map Z.of_nat (seq 0 8))) (map Z.of_nat (seq 0 2))) (map Z.of_nat (seq 0 16)) = true) by (vm_compute; reflexivity).
  assert (Hin : forall m k, (0 <= m < Z.of_nat k)%Z -> In m (map Z.of_nat (seq 0 k))).
  { intros m k Hm. apply in_map_iff. exists (Z.to_nat m). rewrite in_seq. lia. }
  rewrite forallb_forall in Hall. specialize (Hall nibble (Hin nibble 16 ltac:(lia))). rewrite forallb_forall in Hall.
  specialize (Hall bit (Hin bit 2 ltac:(lia))). rewrite forallb_forall in Hall. specialize (Hall lvt (Hin lvt 8 ltac:(lia))).
  cbv zeta in Hall. unfold is_u8, U8_MAX. lia.
Qed.
Lemma octet_fields b : is_u8 b -> b = first_octet (Z.land (Z.shiftr b 4) 15) (Z.land (Z.shiftr b 3) 1) (Z.land b 7) /\
  (0 <= Z.land (Z.shiftr b 4) 15 <= 15)%Z /\ (0 <= Z.land (Z.shiftr b 3) 1 <= 1)%Z /\ (0 <= Z.land b 7 <= 7)%Z.
Proof.
  intros Hb. assert (Hall : forallb (fun b => (b =? first_octet (Z.land (Z.shiftr b 4) 15) (Z.land (Z.shiftr b 3) 1) (Z.land b 7))
    && (0 <=? Z.land (Z.shiftr b 4) 15) && (Z.land (Z.shiftr b 4) 15 <=? 15) && (0 <=? Z.land (Z.shiftr b 3) 1)
    && (Z.land (Z.shiftr b 3) 1 <=? 1) && (0 <=? Z.land b 7) && (Z.land b 7 <=? 7))%Z (map Z.of_nat (seq 0 256)) = true) by (vm_compute; reflexivity).
  rewrite forallb_forall in Hall. unfold is_u8, U8_MAX in Hb. specialize (Hall b). rewrite in_map_iff in Hall.
  specialize (Hall ltac:(exists (Z.to_nat b); rewrite in_seq; lia)). lia.
Qed.

(** Octets found at a position of the data. *)
Definition starts (data : bytes) (pos : nat) (l : bytes) : Prop := l `prefix_of` drop pos data.
Lemma starts_nil data pos : starts data pos [].
Proof. apply prefix_nil. Qed.
Lemma drop_at (data : bytes) pos x : data !! pos = Some x -> drop pos data = x :: drop (S pos) data.
Proof. intros Hx. by rewrite (drop_S data x pos). Qed.
Lemma starts_cons data pos x l : starts data pos (x :: l) <-> data !! pos = Some x /\ starts data (S pos) l.
Proof.
  unfold starts. split.
  - intros [k Hk]. assert (Hx : data !! pos = Some x) by (rewrite <-(Nat.add_0_r pos), <-lookup_drop, Hk; done).
    split; [done|]. exists k. rewrite (drop_at _ _ _ Hx) in Hk. by injection Hk.
  - intros [Hx [k Hk]]. exists k. rewrite (drop_at _ _ _ Hx), Hk. done.
Qed.
Lemma starts_app data pos l1 l2 : starts data pos (l1 ++ l2) <-> starts data pos l1 /\ starts data (pos + length l1) l2.
Proof.
  revert pos. induction l1 as [|x l1 IH]; intros pos; cbn [app length].
  - rewrite Nat.add_0_r. split; [split; [apply starts_nil|done]|by intros []].
  - rewrite !starts_cons, IH. replace (S pos + length l1) with (pos + S (length l1)) by lia. tauto.
Qed.
Lemma starts_here pre l rest : starts (pre ++ l ++ rest) (length pre) l.
Proof. unfold starts. rewrite drop_app_length. by apply prefix_app_r. Qed.
Lemma starts_bound data pos l : starts data pos l -> l <> [] -> pos + length l <= length data.
Proof. intros [k Hk] Hl. apply (f_equal length) in Hk. rewrite length_drop, length_app in Hk. destruct l; [done|]. cbn in *. lia. Qed.

Definition nibble_of (number : Z) : Z := if (number <=? 14)%Z then number else 15.
Definition number_ext (number : Z) : bytes := if (14 <? number)%Z then [number] else [].
Definition lvt_of (length : Z) : Z := if (length <=? 4)%Z then length else 5.
Definition length_ext (length : Z) : bytes :=
  if (4 <? length)%Z then
    if (length <=? 253)%Z then [length] else if (length <=? 65535)%Z then 254%Z :: to_be16 length else 255%Z :: to_be32 length
  else [].
Lemma tag_header_fields number class length : tag_header number class length =
  first_octet (nibble_of number) (class_bit class) (lvt_of length) :: number_ext number ++ length_ext length.
Proof. unfold tag_header, first_octet, nibble_of, number_ext, lvt_of, length_ext. by destruct (number <=? 14)%Z. Qed.
Lemma marker_fields number marker : (0 <= number <= 254)%Z -> marker = 14%Z \/ marker = 15%Z ->
  marker_octets number marker = first_octet (nibble_of number) 1 (marker - 8) :: number_ext number.
Proof.
  intros Hn Hm. unfold marker_octets, nibble_of, number_ext. destruct (Z.leb_spec number 14).
  - replace (14 <? number)%Z with false by lia. unfold first_octet.
    destruct Hm as [-> | ->]; rewrite <-Z.lor_assoc; done.
  - replace (14 <? number)%Z with true by lia. destruct Hm as [-> | ->]; done.
Qed.
Lemma lookup_u8 (data : bytes) pos x : wf_bytes data -> data !! pos = Some x -> is_u8 x.
Proof. intros Hw Hx. by eapply Forall_lookup_1. Qed.
Lemma decode_number_exact data nibble pos number pos' : wf_bytes data -> (0 <= nibble <= 15)%Z ->
  decode_number data nibble pos = Ok (number, pos') <->
  (0 <= number <= 254)%Z /\ nibble = nibble_of number /\ starts data pos (number_ext number) /\ pos' = pos + length (number_ext number).
Proof.
  intros Hw Hn. unfold decode_number, nibble_of, number_ext. destruct (Z.eqb_spec nibble 15) as [->|Hne].
  - destruct (data !! pos) as [x|] eqn:Hx.
    + pose proof (lookup_u8 _ _ _ Hw Hx) as Hu. destruct ((15 <=? x) && (x <=? 254))%Z eqn:E.
      * split; [intros [= <- <-]|].
        -- replace (x <=? 14)%Z with false by lia. replace (14 <? x)%Z with true by lia. split_and!; [lia|lia|done| |cbn; lia].
           apply starts_cons. split; [done|apply starts_nil].
        -- intros (Hr & H15 & Hs & ->). destruct (Z.leb_spec number 14); [lia|]. replace (14 <? number)%Z with true in * by lia.
           apply starts_cons in Hs as [Hs _]. cbn. rewrite Nat.add_1_r. congruence.
      * split; [done|]. intros (Hr & H15 & Hs & ->). destruct (Z.leb_spec number 14); [lia|]. replace (14 <? number)%Z with true in * by lia.
        apply starts_cons in Hs as [Hs _]. assert (x = number) by congruence. subst. lia.
    + split; [done|]. intros (Hr & H15 & Hs & ->). destruct (Z.leb_spec number 14); [lia|]. replace (14 <? number)%Z with true in * by lia.
      apply starts_cons in Hs as [Hs _]. congruence.
  - split; [intros [= <- <-]|].
    + replace (nibble <=? 14)%Z with true by lia. replace (14 <? nibble)%Z with false by lia. split_and!; [lia|lia|done|apply starts_nil|cbn; lia].
    + intros (Hr & H15 & Hs & ->). destruct (Z.leb_spec number 14); [|lia]. replace (14 <? number)%Z with false by lia. cbn. rewrite Nat.add_0_r. congruence.
Qed.
Lemma decode_length_inv data lvt pos length pos' : wf_bytes data -> (0 <= lvt <= 5)%Z -> decode_length data lvt pos = Ok (length, pos') ->
  is_u32 length /\ lvt = lvt_of length /\ starts data pos (length_ext length) /\ pos' = pos + List.length (length_ext length).
Proof.
  intros Hw Hl. unfold decode_length, lvt_of, length_ext. destruct (Z.ltb_spec lvt 5).
  { intros [= <- <-]. replace (lvt <=? 4)%Z with true by lia. replace (4 <? lvt)%Z with false by lia. cbn. unfold is_u32, U32_MAX.
    split_and!; [lia|lia|done|apply starts_nil|lia]. }
  destruct (data !! pos) as [ext|] eqn:Hx; [|done]. pose proof (lookup_u8 _ _ _ Hw Hx) as Hu. unfold is_u8, U8_MAX in Hu.
  destruct (Z.leb_spec ext 4); [done|]. destruct (Z.leb_spec ext 253).
  { intros [= <- <-]. replace (ext <=? 4)%Z with false by lia. replace (4 <? ext)%Z with true by lia. replace (ext <=? 253)%Z with true by lia. unfold is_u32, U32_MAX.
    split_and!; [lia|lia|lia|apply starts_cons; split; [done|apply starts_nil]|cbn; lia]. }
  destruct (Z.eqb_spec ext 254) as [->|].
  - destruct (data !! S pos) as [a|] eqn:Ha; [|done]. destruct (data !! (S pos + 1)) as [b|] eqn:Hb; [|done].
    destruct (Z.ltb_spec (from_be16 a b) 254); [done|]. intros [= <- <-].
    pose proof (lookup_u8 _ _ _ Hw Ha) as Ua. pose proof (lookup_u8 _ _ _ Hw Hb) as Ub. pose proof (from_be16_u16 a b Ua Ub) as U16.
    pose proof (to_from_be16 a b Ua Ub) as Hrt. unfold is_u16, U16_MAX in U16.
    replace (from_be16 a b <=? 4)%Z with false by lia. replace (4 <? from_be16 a b)%Z with true by lia. replace (from_be16 a b <=? 253)%Z with false by lia.
    replace (from_be16 a b <=? 65535)%Z with true by lia. rewrite Hrt. unfold is_u32, U32_MAX. split_and!; [lia|lia|lia| |cbn; lia].
    repeat (apply starts_cons; split; [|apply starts_nil || idtac]); [done|done|]. by rewrite <-Nat.add_1_r.
  - destruct (data !! S pos) as [a|] eqn:Ha; [|done]. destruct (data !! (S pos + 1)) as [b|] eqn:Hb; [|done].
    destruct (data !! (S pos + 2)) as [c|] eqn:Hc; [|done]. destruct (data !! (S pos + 3)) as [d|] eqn:Hd; [|done].
    destruct (Z.ltb_spec (from_be32 a b c d) 65536); [done|]. intros [= <- <-].
    pose proof (lookup_u8 _ _ _ Hw Ha) as Ua. pose proof (lookup_u8 _ _ _ Hw Hb) as Ub. pose proof (lookup_u8 _ _ _ Hw Hc) as Uc.
    pose proof (lookup_u8 _ _ _ Hw Hd) as Ud. pose proof (from_be32_u32 a b c d Ua Ub Uc Ud) as U32. pose proof (to_from_be32 a b c d Ua Ub Uc Ud) as Hrt.
    unfold is_u32, U32_MAX in *. replace (from_be32 a b c d <=? 4)%Z with false by lia. replace (4 <? from_be32 a b c d)%Z with true by lia.
    replace (from_be32 a b c d <=? 253)%Z with false by lia. replace (from_be32 a b c d <=? 65535)%Z with false by lia. rewrite Hrt.
    assert (ext = 255%Z) as -> by lia. replace (S pos + 1) with (S (S pos)) in * by lia.
    replace (S pos + 2) with (S (S (S pos))) in * by lia. replace (S pos + 3) with (S (S (S (S pos)))) in * by lia.
    split_and!; [lia|lia|lia| |cbn; lia]. repeat (apply starts_cons; split; [done|]). apply starts_nil.
Qed.
Lemma decode_length_ext data lvt pos length : is_u32 length -> lvt = lvt_of length -> starts data pos (length_ext length) ->
  decode_length data lvt pos = Ok (length, pos + List.length (length_ext length)).
Proof.
  intros Hu -> Hs. unfold decode_length, lvt_of, length_ext in *. pose proof (from_to_be32 length Hu) as H32. unfold is_u32, U32_MAX in Hu.
  destruct (Z.leb_spec length 4).
  { replace (length <? 5)%Z with true by lia. replace (4 <? length)%Z with false by lia. cbn. by rewrite Nat.add_0_r. }
  replace (4 <? length)%Z with true in * by lia. cbn [Z.ltb Z.compare Pos.compare Pos.compare_cont].
  destruct (Z.leb_spec length 253).
  { apply starts_cons in Hs as [-> _]. replace (length <=? 4)%Z with false by lia. replace (length <=? 253)%Z with true by lia. cbn. by rewrite Nat.add_1_r. }
  destruct (Z.leb_spec length 65535).
  - apply starts_cons in Hs as [-> Hs]. unfold to_be16 in Hs. apply starts_cons in Hs as [Ha Hs]. apply starts_cons in Hs as [Hb _].
    rewrite Nat.add_1_r, Ha, Hb. cbn [Z.leb Z.eqb Z.compare Pos.compare Pos.compare_cont Pos.eqb]. rewrite from_to_be16 by (unfold is_u16, U16_MAX; lia).
    replace (length <? 254)%Z with false by lia. cbn. repeat f_equal. lia.
  - apply starts_cons in Hs as [-> Hs]. unfold to_be32 in Hs. apply starts_cons in Hs as [Ha Hs]. apply starts_cons in Hs as [Hb Hs].
    apply starts_cons in Hs as [Hc Hs]. apply starts_cons in Hs as [Hd _].
    replace (S pos + 1) with (S (S pos)) by lia. replace (S pos + 2) with (S (S (S pos))) by lia. replace (S pos + 3) with (S (S (S (S pos)))) by lia.
    rewrite Ha, Hb, Hc, Hd. cbn [Z.leb Z.eqb Z.compare Pos.compare Pos.compare_cont Pos.eqb]. rewrite H32.
    replace (length <? 65536)%Z with false by lia. cbn. repeat f_equal. lia.
Qed.
Lemma decode_tag_inv data offset t pos : wf_bytes data -> decode_tag data offset = Ok (t, pos) ->
  wf_tag t /\ starts data offset (header_of t) /\ pos = offset + length (header_of t).
Proof.
  intros Hw. unfold decode_tag. destruct (data !! offset) as [b|] eqn:Hb; [|done].
  destruct (octet_fields b (lookup_u8 _ _ _ Hw Hb)) as (Eb & Hn & Hc & Hl). cbv zeta.
  set (nibble := Z.land (Z.shiftr b 4) 15) in *. set (bit := Z.land (Z.shiftr b 3) 1) in *. set (lvt := Z.land b 7) in *.
  set (class := if (bit =? 1)%Z then ContextTag else ApplicationTag).
  assert (Hbit : class_bit class = bit) by (unfold class; destruct (Z.eqb_spec bit 1); cbn; lia).
  destruct (bool_decide (class = ApplicationTag) && (5 <? lvt)%Z) eqn:Hres; [done|]. cbn [rbind].
  destruct (decode_number data nibble (S offset)) as [[number p]|] eqn:Hnum; [|done]. cbn [rbind].
  apply decode_number_exact in Hnum as (Hr & Enib & Hsn & ->); [|done|lia].
  assert (Hfirst : forall rest, starts data (S offset + length (number_ext number)) rest ->
    starts data offset (first_octet nibble bit lvt :: number_ext number ++ rest)).
  { intros rest Hrest. apply starts_cons. rewrite <-Eb. split; [done|]. by apply starts_app. }
  assert (Hmark : class = ContextTag -> bit = 1%Z) by (unfold class; destruct (Z.eqb_spec bit 1); done).
  destruct (bool_decide (class = ContextTag) && (lvt =? 6)%Z) eqn:H6.
  { intros [= <- <-]. apply andb_prop in H6 as [Hcls%bool_decide_eq_true H6]. unfold header_of. cbn [is_opening tag_number].
    rewrite marker_fields by (lia || auto). split_and!; [split_and!; cbn; try done; lia| |cbn; lia].
    rewrite <-Enib, <-(app_nil_r (number_ext number)). replace lvt with 6%Z in Hfirst by lia. rewrite (Hmark Hcls) in Hfirst. apply Hfirst, starts_nil. }
  destruct (bool_decide (class = ContextTag) && (lvt =? 7)%Z) eqn:H7.
  { intros [= <- <-]. apply andb_prop in H7 as [Hcls%bool_decide_eq_true H7]. unfold header_of. cbn [is_opening is_closing tag_number].
    rewrite marker_fields by (lia || auto). split_and!; [split_and!; cbn; try done; lia| |cbn; lia].
    rewrite <-Enib, <-(app_nil_r (number_ext number)). replace lvt with 7%Z in Hfirst by lia. rewrite (Hmark Hcls) in Hfirst. apply Hfirst, starts_nil. }
  destruct (decode_length data lvt _) as [[len p]|] eqn:Hlen; [|done]. cbn [rbind].
  assert (Hlvt : (0 <= lvt <= 5)%Z).
  { clear -Hl Hres H6 H7. clearbody class lvt. destruct class.
    - rewrite bool_decide_eq_true_2 in Hres by done. cbn [andb] in Hres. lia.
    - rewrite bool_decide_eq_true_2 in H6, H7 by done. cbn [andb] in H6, H7. lia. }
  apply decode_length_inv in Hlen as (Hu & Elvt & Hsl & ->); [|done|done]. destruct (Z.ltb_spec MAX_TAG_LENGTH len); [done|].
  intros [= <- <-]. unfold header_of. cbn [is_opening is_closing tag_number tag_class tag_length]. rewrite tag_header_fields, <-Enib, <-Elvt, Hbit.
  unfold is_u32 in Hu. split_and!; [split_and!; cbn; try done; lia|by apply Hfirst|cbn; rewrite length_app; lia].
Qed.
Lemma decode_tag_header data offset t : wf_tag t -> starts data offset (header_of t) -> decode_tag data offset = Ok (t, offset + length (header_of t)).
Proof.
  intros (Hn & Hl & Hmark) Hs. unfold decode_tag.
  assert (Hnum : forall rest p, nibble_of (tag_number t) = p -> starts data (S offset) (number_ext (tag_number t) ++ rest) -> wf_bytes (number_ext (tag_number t)) ->
    decode_number data p (S offset) = Ok (tag_number t, S offset + length (number_ext (tag_number t))) /\ starts data (S offset + length (number_ext (tag_number t))) rest).
  { intros rest p <- Hst _. apply starts_app in Hst as [Hst Hrest]. split; [|done]. unfold decode_number, nibble_of, number_ext in *.
    destruct (Z.leb_spec (tag_number t) 14).
    - replace (14 <? tag_number t)%Z with false by lia. replace (tag_number t =? 15)%Z with false by lia. cbn. by rewrite Nat.add_0_r.
    - replace (14 <? tag_number t)%Z with true in * by lia. apply starts_cons in Hst as [-> _]. cbn [Z.eqb Pos.eqb].
      replace ((15 <=? tag_number t) && (tag_number t <=? 254))%Z with true by lia. cbn. by rewrite Nat.add_1_r. }
  assert (Hwf : wf_bytes (number_ext (tag_number t))).
  { unfold number_ext. destruct (_ <? _)%Z; [|constructor]. apply Forall_singleton. unfold is_u8, U8_MAX. lia. }
  assert (Hnib : (0 <= nibble_of (tag_number t) <= 15)%Z) by (unfold nibble_of; destruct (Z.leb_spec (tag_number t) 14); lia).
  destruct t as [number class len [] []]; cbn [is_opening is_closing tag_number tag_class tag_length orb andb] in *.
  - by destruct (Hmark eq_refl) as (_ & _ & ?).
  - destruct (Hmark eq_refl) as (-> & -> & _). unfold header_of in *. cbn [is_opening tag_number] in *. rewrite marker_fields in * by (lia || auto).
    apply starts_cons in Hs as [-> Hs]. destruct (first_octet_fields (nibble_of number) 1 6 Hnib ltac:(lia) ltac:(lia)) as (_ & En & Ec & El).
    change (14 - 8)%Z with 6%Z. cbv zeta. rewrite En, Ec, El. cbn [Z.eqb Pos.eqb bool_decide_eq_true]. rewrite bool_decide_eq_false_2, bool_decide_eq_true_2 by done.
    cbn [andb rbind]. rewrite <-(app_nil_r (number_ext number)) in Hs. destruct (Hnum [] _ eq_refl Hs Hwf) as [-> _]. cbn. repeat f_equal. lia.
  - destruct (Hmark eq_refl) as (-> & -> & _). unfold header_of in *. cbn [is_opening is_closing tag_number] in *. rewrite marker_fields in * by (lia || auto).
    apply starts_cons in Hs as [-> Hs]. destruct (first_octet_fields (nibble_of number) 1 7 Hnib ltac:(lia) ltac:(lia)) as (_ & En & Ec & El).
    change (15 - 8)%Z with 7%Z. cbv zeta. rewrite En, Ec, El. cbn [Z.eqb Pos.eqb]. rewrite bool_decide_eq_false_2, bool_decide_eq_true_2 by done.
    cbn [andb rbind]. rewrite <-(app_nil_r (number_ext number)) in Hs. destruct (Hnum [] _ eq_refl Hs Hwf) as [-> _]. cbn. repeat f_equal. lia.
  - unfold header_of in *. cbn [is_opening is_closing tag_number tag_class tag_length] in *. rewrite tag_header_fields in *.
    assert (Hlvt : (0 <= lvt_of len <= 5)%Z) by (unfold lvt_of; destruct (Z.leb_spec len 4); lia).
    apply starts_cons in Hs as [-> Hs]. destruct (first_octet_fields (nibble_of number) (class_bit class) (lvt_of len) Hnib ltac:(by destruct class) ltac:(lia)) as (_ & En & Ec & El).
    cbv zeta. rewrite En, Ec, El. replace (if (class_bit class =? 1)%Z then ContextTag else ApplicationTag) with class by (by destruct class).
    replace (5 <? lvt_of len)%Z with false by lia. rewrite andb_false_r. cbn [rbind]. destruct (Hnum _ _ eq_refl Hs Hwf) as [-> Hs2]. cbn [rbind].
    replace (lvt_of len =? 6)%Z with false by lia. replace (lvt_of len =? 7)%Z with false by lia. rewrite !andb_false_r.
    rewrite (decode_length_ext data _ _ len) by (unfold is_u32, U32_MAX, MAX_TAG_LENGTH in *; lia || done). cbn [rbind].
    replace (MAX_TAG_LENGTH <? len)%Z with false by lia. cbn. rewrite length_app. repeat f_equal. lia.
Qed.
(** C28: a tag is read at a position exactly when its one header is there: every tag has one encoding, nothing else is read as a tag,
    and reading ends right after the header. *)
Theorem decode_tag_exact data offset t pos : wf_bytes data ->
  decode_tag data offset = Ok (t, pos) <-> wf_tag t /\ starts data offset (header_of t) /\ pos = offset + length (header_of t).
Proof. intros Hw. split; [by apply decode_tag_inv|]. intros (Ht & Hs & ->). by apply decode_tag_header. Qed.
Lemma decode_tag_exact_witness : decode_tag [37; 254; 3; 232; 7]%Z 0 =
  Ok ({| tag_number := 2; tag_class := ApplicationTag; tag_length := 1000; is_opening := false; is_closing := false |}, 4).
Proof.
  apply decode_tag_exact; [by repeat constructor|]. split; [unfold wf_tag, MAX_TAG_LENGTH; cbn; split_and!; try done; lia|].
  split; [exists [7%Z]; reflexivity|done].
Defined.

(** ** Constructed values *)

Definition opens (number : Z) : Tag := {| tag_number := number; tag_class := ContextTag; tag_length := 0; is_opening := true; is_closing := false |}.
Definition closes (number : Z) : Tag := {| tag_number := number; tag_class := ContextTag; tag_length := 0; is_opening := false; is_closing := true |}.
Definition is_flag (t : Tag) : bool := bool_decide (tag_class t = ApplicationTag) && (tag_number t =? TAG_BOOLEAN)%Z.
(** The values a constructed value may hold, nested at most [depth] deep: a header with its contents, a Boolean, which has none, or
    values between an opening tag and the closing tag of the same number. *)
Inductive element : nat -> bytes -> Prop :=
| el_contents depth t contents : wf_tag t -> is_opening t || is_closing t = false -> is_flag t = false ->
    Z.of_nat (length contents) = tag_length t -> element depth (header_of t ++ contents)
| el_flag depth t : wf_tag t -> is_opening t || is_closing t = false -> is_flag t = true -> element depth (header_of t)
| el_nested depth number body : (0 <= number <= 254)%Z -> elements depth body ->
    element (S depth) (header_of (opens number) ++ body ++ header_of (closes number))
with elements : nat -> bytes -> Prop :=
| els_nil depth : elements depth []
| els_cons depth l rest : element depth l -> elements depth rest -> elements depth (l ++ rest).
Scheme element_mind := Minimality for element Sort Prop with elements_mind := Minimality for elements Sort Prop.
Combined Scheme element_elements_mind from element_mind, elements_mind.

Lemma opens_wf number : (0 <= number <= 254)%Z -> wf_tag (opens number).
Proof. intros Hn. unfold wf_tag, MAX_TAG_LENGTH. cbn. split_and!; [lia|lia|lia|lia|done]. Qed.
Lemma closes_wf number : (0 <= number <= 254)%Z -> wf_tag (closes number).
Proof. intros Hn. unfold wf_tag, MAX_TAG_LENGTH. cbn. split_and!; [lia|lia|lia|lia|done]. Qed.
Lemma header_nonempty t : 0 < length (header_of t).
Proof. unfold header_of, marker_octets, tag_header. destruct (is_opening t), (is_closing t); repeat case_match; cbn; lia. Qed.
Lemma at_header data pos t l : starts data pos (header_of t ++ l) -> pos < length data.
Proof.
  intros Hs. pose proof (header_nonempty t) as Hn. apply starts_app in Hs as [Hs _].
  assert (Hne : header_of t <> []) by (intros E; rewrite E in Hn; cbn in Hn; lia). pose proof (starts_bound _ _ _ Hs Hne). lia.
Qed.
Section Walk.
Context (data : bytes) (start : nat) (number : Z).
Abbreviation walk fuel := (walk_context fuel data start number).
(** One round of the walk at a header. *)
Lemma walk_header fuel open_tags pos t l : wf_tag t -> starts data pos (header_of t ++ l) ->
  walk (S fuel) open_tags pos =
  let new_pos := pos + length (header_of t) in
  if is_opening t then
    if decide (length open_tags = MAX_CONTEXT_NESTING_DEPTH) then
      Err (ErrDecoding (with_value (decode_error InvalidTag pos "context tag nesting depth exceeds maximum ({})") (Z.of_nat MAX_CONTEXT_NESTING_DEPTH)))
    else walk fuel (tag_number t :: open_tags) new_pos
  else if is_closing t then
    match open_tags with
    | [] => Err (unclosed start number)
    | expected :: rest =>
        if negb (tag_number t =? expected)%Z then
          Err (ErrDecoding (with_values (decode_error InvalidTag pos "closing tag {} does not match opening tag {}") (tag_number t) expected))
        else match rest with [] => Ok (take (pos - start) (drop start data), new_pos) | _ => walk fuel rest new_pos end
    end
  else if is_flag t then walk fuel open_tags new_pos
  else match checked_add new_pos (Z.to_nat (tag_length t)) with
       | None => Err (decoding new_pos "tag length overflow")
       | Some content_end => if decide (length data < content_end) then Err (buffer_too_short content_end (length data)) else walk fuel open_tags content_end
       end.
Proof.
  intros Ht Hs. pose proof (at_header _ _ _ _ Hs). cbn [walk_context]. rewrite decide_False by lia.
  rewrite (decode_tag_header data pos t Ht) by (by apply starts_app in Hs as [? _]). done.
Qed.
(** A walk passes over well-formed values. *)
Lemma walk_passes (Hfit : (Z.of_nat (length data) <= ISIZE_MAX)%Z) :
  (forall depth l, element depth l -> forall open_tags pos, open_tags <> [] -> starts data pos l -> length open_tags + depth <= MAX_CONTEXT_NESTING_DEPTH ->
     exists k, k <= length l /\ forall fuel, walk (k + fuel) open_tags pos = walk fuel open_tags (pos + length l)) /\
  (forall depth l, elements depth l -> forall open_tags pos, open_tags <> [] -> starts data pos l -> length open_tags + depth <= MAX_CONTEXT_NESTING_DEPTH ->
     exists k, k <= length l /\ forall fuel, walk (k + fuel) open_tags pos = walk fuel open_tags (pos + length l)).
Proof.
  apply element_elements_mind.
  - intros depth t contents Ht Hm Hb Hlen open_tags pos Ho Hs Hd. exists 1. pose proof (header_nonempty t). rewrite length_app. split; [lia|].
    intros fuel. apply orb_false_iff in Hm as [Hm1 Hm2]. cbn [Nat.add]. rewrite (walk_header _ _ _ t contents) by done. cbv zeta. rewrite Hm1, Hm2, Hb.
    assert (Hbound : pos + length (header_of t ++ contents) <= length data).
    { apply starts_bound; [done|]. intros E. apply (f_equal length) in E. rewrite length_app in E. cbn in E. lia. }
    rewrite length_app in Hbound. unfold checked_add. rewrite <-Hlen, Nat2Z.id.
    replace (_ <=? USIZE_MAX)%Z with true by (unfold ISIZE_MAX, USIZE_MAX, U64_MAX in *; lia). rewrite decide_False by lia. f_equal. lia.
  - intros depth t Ht Hm Hb open_tags pos Ho Hs Hd. exists 1. pose proof (header_nonempty t). split; [lia|]. intros fuel.
    apply orb_false_iff in Hm as [Hm1 Hm2]. cbn [Nat.add]. rewrite (walk_header _ _ _ t []) by (done || by rewrite app_nil_r). cbv zeta. by rewrite Hm1, Hm2, Hb.
  - intros depth m body Hm Hbody IH open_tags pos Ho Hs Hd. pose proof (header_nonempty (opens m)). pose proof (header_nonempty (closes m)).
    pose proof Hs as Hs2. apply starts_app in Hs2 as [_ Hs2]. apply starts_app in Hs2 as [Hs2 Hs3].
    destruct (IH (m :: open_tags) (pos + length (header_of (opens m))) ltac:(done) Hs2 ltac:(cbn; lia)) as (k & Hk & Hwalk).
    exists (S (k + 1)). rewrite !length_app. split; [lia|]. intros fuel. cbn [Nat.add]. rewrite (walk_header _ _ _ (opens m) _ (opens_wf m Hm) Hs). cbv zeta.
    cbn [is_opening opens tag_number]. fold (opens m). rewrite decide_False by lia. rewrite <-Nat.add_assoc, Hwalk. cbn [Nat.add].
    rewrite (walk_header _ _ _ (closes m) [] (closes_wf m Hm)) by (by rewrite app_nil_r). cbv zeta. cbn [is_opening is_closing closes tag_number]. fold (closes m).
    rewrite Z.eqb_refl. cbn [negb]. destruct open_tags; [done|]. f_equal. lia.
  - intros depth open_tags pos Ho Hs Hd. exists 0. split; [cbn; lia|]. intros fuel. cbn. by rewrite Nat.add_0_r.
  - intros depth l rest Hl IH1 Hrest IH2 open_tags pos Ho Hs Hd. apply starts_app in Hs as [Hs1 Hs2].
    destruct (IH1 open_tags pos Ho Hs1 Hd) as (k1 & Hk1 & Hw1). destruct (IH2 open_tags _ Ho Hs2 Hd) as (k2 & Hk2 & Hw2).
    exists (k1 + k2). rewrite length_app. split; [lia|]. intros fuel. rewrite <-Nat.add_assoc, Hw1, Hw2. f_equal. lia.
Qed.
(** What is left of the open values, up to the closing tag of the outermost. *)
Inductive closing : list Z -> bytes -> Prop :=
| cl_last m l : elements (MAX_CONTEXT_NESTING_DEPTH - 1) l -> closing [m] l
| cl_more m k rest body l : elements (MAX_CONTEXT_NESTING_DEPTH - length (m :: k :: rest)) body -> closing (k :: rest) l ->
    closing (m :: k :: rest) (body ++ header_of (closes m) ++ l).
Lemma closing_cons open_tags e l : closing open_tags l -> element (MAX_CONTEXT_NESTING_DEPTH - length open_tags) e -> closing open_tags (e ++ l).
Proof.
  intros Hc He. inversion Hc as [m l' Hl|m k rest body l' Hb Hl]; subst.
  - apply cl_last. by apply els_cons.
  - rewrite app_assoc. apply cl_more; [|done]. by apply els_cons.
Qed.
Lemma header_closes t : is_closing t = true -> wf_tag t -> header_of t = header_of (closes (tag_number t)).
Proof. intros Hc (_ & _ & Hm). destruct t as [n c len [] []]; cbn in *; try done. by destruct (Hm eq_refl) as (_ & _ & ?). Qed.
Lemma header_opens t : is_opening t = true -> header_of t = header_of (opens (tag_number t)).
Proof. intros Ho. unfold header_of. by rewrite Ho. Qed.
Lemma walk_closing (Hw : wf_bytes data) fuel : forall open_tags pos content pos', length open_tags <= MAX_CONTEXT_NESTING_DEPTH -> last open_tags = Some number ->
  walk fuel open_tags pos = Ok (content, pos') ->
  exists l, closing open_tags l /\ starts data pos (l ++ header_of (closes number)) /\ (0 <= number <= 254)%Z /\
    content = take (pos + length l - start) (drop start data) /\ pos' = pos + length l + length (header_of (closes number)).
Proof.
  induction fuel as [|fuel IH]; intros open_tags pos content pos' Hdep Hlast; [done|]. cbn [walk_context].
  case_decide as Hend; [done|]. destruct (decode_tag data pos) as [[t new_pos]|] eqn:Hd; [|done]. cbn [rbind].
  apply decode_tag_inv in Hd as (Ht & Hs & ->); [|done].
  assert (Hgo : forall e l, element (MAX_CONTEXT_NESTING_DEPTH - length open_tags) e -> starts data pos e -> closing open_tags l ->
    starts data (pos + length e) (l ++ header_of (closes number)) -> (0 <= number <= 254)%Z ->
    content = take (pos + length e + length l - start) (drop start data) -> pos' = pos + length e + length l + length (header_of (closes number)) ->
    exists l, closing open_tags l /\ starts data pos (l ++ header_of (closes number)) /\ (0 <= number <= 254)%Z /\
      content = take (pos + length l - start) (drop start data) /\ pos' = pos + length l + length (header_of (closes number))).
  { intros e l He Hse Hcl Hsl Hn -> ->. exists (e ++ l). rewrite length_app, Nat.add_assoc. split_and!; try done; try lia.
    - by apply closing_cons.
    - rewrite <-app_assoc. apply starts_app. done. }
  destruct (is_opening t) eqn:Hop.
  - case_decide as Hdeep; [done|]. intros Hwalk. apply IH in Hwalk as (l & Hcl & Hsl & Hn & Hc & Hp); [|cbn; lia|by destruct open_tags].
    inversion Hcl as [m l' Hl|m k rest body l' Hb Hl]; subst; [done|]. rewrite (header_opens t Hop) in *.
    rewrite <-!app_assoc in Hsl. apply starts_app in Hsl as [Hs1 Hsl]. apply starts_app in Hsl as [Hs2 Hsl].
    apply (Hgo (header_of (opens (tag_number t)) ++ body ++ header_of (closes (tag_number t))) l'); try done.
    + replace (MAX_CONTEXT_NESTING_DEPTH - length (k :: rest)) with (S (MAX_CONTEXT_NESTING_DEPTH - length (tag_number t :: k :: rest)))
        by (cbn [length] in *; lia).
      apply el_nested; [apply Ht|done].
    + apply starts_app. split; [done|]. by apply starts_app.
    + rewrite !length_app, !Nat.add_assoc. done.
    + rewrite !length_app, !Nat.add_assoc. done.
    + rewrite !length_app, !Nat.add_assoc. done.
  - destruct (is_closing t) eqn:Hcl.
    + destruct open_tags as [|expected rest]; [done|]. destruct (Z.eqb_spec (tag_number t) expected) as [E|]; [|done]. cbn [negb]. rewrite (header_closes t Hcl Ht) in *.
      subst expected. destruct rest as [|k rest].
      * intros [= <- <-]. injection Hlast as Hlast. subst number. exists []. cbn [app length]. rewrite !Nat.add_0_r.
        split_and!; [apply cl_last, els_nil|done|apply Ht|apply Ht|done|done].
      * intros Hwalk. apply IH in Hwalk as (l & Hcl' & Hsl & Hn & -> & ->); [|cbn in *; lia|by cbn in Hlast |- *].
        exists ([] ++ header_of (closes (tag_number t)) ++ l). cbn [app]. rewrite length_app, !Nat.add_assoc.
        split_and!; [by apply (cl_more _ _ _ []); [apply els_nil|]| |lia|lia|done|done]. rewrite <-app_assoc. apply starts_app. done.
    + fold (is_flag t). destruct (is_flag t) eqn:Hflag.
      * intros Hwalk. apply IH in Hwalk as (l & Hcl' & Hsl & Hn & Hc & Hp); [|done|done]. apply (Hgo (header_of t) l); try done.
        apply el_flag; [done|by rewrite Hop, Hcl|done].
      * destruct (checked_add _ _) as [content_end|] eqn:Hadd; [|done]. unfold checked_add in Hadd. destruct (_ <=? _)%Z; [|done]. injection Hadd as <-.
        case_decide as Hlen; [done|]. intros Hwalk. apply IH in Hwalk as (l & Hcl' & Hsl & Hn & Hc & Hp); [|done|done].
        set (contents := take (Z.to_nat (tag_length t)) (drop (pos + length (header_of t)) data)).
        assert (Hlc : length contents = Z.to_nat (tag_length t)) by (unfold contents; rewrite length_take, length_drop; lia).
        apply (Hgo (header_of t ++ contents) l); try done; rewrite ?length_app, ?Hlc, ?Nat.add_assoc; try done.
        -- apply el_contents; [done|by rewrite Hop, Hcl|done|]. rewrite Hlc. destruct Ht as (_ & ? & _). lia.
        -- apply starts_app. split; [done|]. unfold starts, contents. exists (drop (Z.to_nat (tag_length t)) (drop (pos + length (header_of t)) data)). by rewrite take_drop.
Qed.
(** More rounds change nothing. *)
Lemma walk_more (Hw : wf_bytes data) extra fuel : forall open_tags pos, S (length data) <= fuel + pos ->
  walk (fuel + extra) open_tags pos = walk fuel open_tags pos.
Proof.
  induction fuel as [|fuel IH]; intros open_tags pos Hf; cbn [Nat.add walk_context].
  { destruct extra; cbn [walk_context]; [done|]. by rewrite decide_True by lia. }
  case_decide; [done|]. destruct (decode_tag data pos) as [[t new_pos]|] eqn:Hd; [|done]. cbn [rbind].
  apply decode_tag_inv in Hd as (_ & _ & ->); [|done]. pose proof (header_nonempty t).
  destruct (is_opening t); [case_decide; [done|apply IH; lia]|]. destruct (is_closing t).
  - destruct open_tags as [|expected rest]; [done|]. destruct (negb _); [done|]. destruct rest; [done|apply IH; lia].
  - destruct (_ && _); [apply IH; lia|]. unfold checked_add. destruct (_ <=? _)%Z; [|done]. case_decide; [done|]. apply IH. lia.
Qed.
End Walk.
Lemma extract_iff data offset number content pos : wf_bytes data -> (Z.of_nat (length data) <= ISIZE_MAX)%Z ->
  extract_context_value data offset number = Ok (content, pos) <->
    (0 <= number <= 254)%Z /\ elements 31 content /\ starts data offset (content ++ header_of (closes number)) /\
    pos = offset + length content + length (header_of (closes number)).
Proof.
  intros Hw Hfit. unfold extract_context_value. split.
  - intros Hwalk. apply walk_closing in Hwalk as (l & Hcl & Hs & Hn & -> & ->); [|done|cbn; unfold MAX_CONTEXT_NESTING_DEPTH; lia|done].
    inversion Hcl as [m l' Hl|]; subst. pose proof Hs as Hs'. apply starts_app in Hs' as [[k Hk] _].
    replace (take (offset + length l - offset) (drop offset data)) with l; [done|]. rewrite Hk. replace (offset + length l - offset) with (length l) by lia. by rewrite take_app_length.
  - intros (Hn & Hel & Hs & ->). pose proof Hs as Hs'. apply starts_app in Hs' as [Hs1 Hs2].
    destruct (proj2 (walk_passes data offset number Hfit) 31 content Hel [number] offset ltac:(done) Hs1 ltac:(cbn; unfold MAX_CONTEXT_NESTING_DEPTH; lia)) as (k & Hk & Hwalk).
    pose proof (header_nonempty (closes number)) as Hne.
    assert (Hbound : offset + length (content ++ header_of (closes number)) <= length data).
    { apply starts_bound; [done|]. intros E. apply (f_equal length) in E. rewrite length_app in E. change (length (@nil Z)) with 0 in E. lia. }
    rewrite length_app in Hbound. replace (S (length data)) with (k + S (length data - k)) by lia. rewrite Hwalk.
    rewrite (walk_header data offset number _ _ _ (closes number) [] (closes_wf number Hn)) by (by rewrite app_nil_r). cbv zeta.
    cbn [is_opening is_closing closes tag_number]. fold (closes number). rewrite Z.eqb_refl. cbn [negb]. repeat f_equal.
    destruct Hs1 as [rest Hrest]. rewrite Hrest. replace (offset + length content - offset) with (length content) by lia. by rewrite take_app_length.
Qed.
(** What follows an opening tag is taken as its contents exactly when it is a sequence of well-formed values, nested no deeper than the
    decoder walks, up to the closing tag of the same number; the walk needs no more rounds than the data has octets. *)
Theorem extract_exact data offset number : wf_bytes data -> (Z.of_nat (length data) <= ISIZE_MAX)%Z ->
  (forall extra, walk_context (S (length data) + extra) data offset number [number] offset = extract_context_value data offset number) /\
  forall content pos, extract_context_value data offset number = Ok (content, pos) <->
    (0 <= number <= 254)%Z /\ elements 31 content /\ starts data offset (content ++ header_of (closes number)) /\
    pos = offset + length content + length (header_of (closes number)).
Proof.
  intros Hw Hfit. split; [intros extra; apply walk_more; [done|lia]|]. intros content pos. by apply extract_iff.
Qed.
Lemma extract_exact_witness : extract_context_value [14; 33; 42; 17; 30; 31; 15]%Z 1 0 = Ok ([33; 42; 17; 30; 31]%Z, 7).
Proof.
  apply (extract_exact [14; 33; 42; 17; 30; 31; 15]%Z 1 0); [by repeat constructor|by vm_compute|].
  split; [lia|]. split; [|split; [exists []; reflexivity|reflexivity]].
  apply (els_cons 31 [33; 42]%Z [17; 30; 31]%Z); [|apply (els_cons 31 [17]%Z [30; 31]%Z); [|apply (els_cons 31 [30; 31]%Z []); [|apply els_nil]]].
  - apply (el_contents 31 {| tag_number := 2; tag_class := ApplicationTag; tag_length := 1; is_opening := false; is_closing := false |} [42%Z]); done.
  - apply (el_flag 31 {| tag_number := 1; tag_class := ApplicationTag; tag_length := 1; is_opening := false; is_closing := false |}); done.
  - apply (el_nested 30 1 []); [lia|apply els_nil].
Defined.

(** ** Writing to a sink *)

(** A header is appended whole, and its length returned, or the sink is left as it was. *)
Lemma write_header_spec {S} `{FrameSinkLaws S} (s : S) header :
  match write_header s header with
  | (s', Ok n) => n = length header /\ contents s' = contents s ++ header /\
      remaining_capacity s' = (fun c => c - length header) <$> remaining_capacity s
  | (s', Err e) => contents s' = contents s /\ remaining_capacity s' = remaining_capacity s
  end.
Proof.
  unfold write_header. destruct (remaining_capacity s) as [c|] eqn:Hc; [case_decide; [done|]|];
    destruct (sink_write s header) as [s' [[]|e]] eqn:E.
  - apply write_ok in E as [-> ->]. by rewrite Hc.
  - apply write_err in E as [-> ->]. done.
  - apply write_ok in E as [-> ->]. by rewrite Hc.
  - apply write_err in E as [-> ->]. done.
Qed.
Lemma write_header_fits {S} `{FrameSinkLaws S} (s : S) header c : remaining_capacity s = Some c -> length header <= c ->
  exists s', write_header s header = (s', Ok (length header)) /\ contents s' = contents s ++ header /\ remaining_capacity s' = Some (c - length header).
Proof.
  intros Hc Hfit. unfold write_header. rewrite Hc, decide_False by lia. destruct (write_fits s header c Hc Hfit) as [s' E]. rewrite E.
  exists s'. apply write_ok in E as [-> ->]. by rewrite Hc.
Qed.
