(* ===== verification/Utf8.v ===== *)
(** * UTF-8 text

    The parts of the standard library the codec uses on text: [core::str::from_utf8], which finds the first octet that is not UTF-8;
    [char::from_u32], which accepts the Unicode scalar values; and the encoding of a [char]. A [str] is its octets. The validator
    accepts exactly the encodings of scalar values. *)

From S2P Require Import Prelude.
Open Scope Z_scope.

(** [char::from_u32]: a code point that is no surrogate. *)
Definition is_scalar (c : Z) : bool := (0 <=? c) && (c <=? 1114111) && negb ((55296 <=? c) && (c <=? 57343)).
(** [char::encode_utf8]. *)
Definition encode_char (c : Z) : bytes :=
  if c <? 128 then [c] else
  if c <? 2048 then [192 + c / 64; 128 + c mod 64] else
  if c <? 65536 then [224 + c / 4096; 128 + c / 64 mod 64; 128 + c mod 64] else
  [240 + c / 262144; 128 + c / 4096 mod 64; 128 + c / 64 mod 64; 128 + c mod 64].
(** A [String] collected from characters. *)
Definition encode_chars (cs : list Z) : bytes := concat (map encode_char cs).

Definition is_continuation (b : Z) : bool := (128 <=? b) && (b <=? 191).
Definition between (a b x : Z) : bool := (a <=? x) && (x <=? b).
(** The width of the character the octets start with, if they start with one. *)
Definition char_width (l : bytes) : option nat :=
  match l with
  | [] => None
  | first :: rest =>
      if first <? 128 then Some 1%nat else
      if between 194 223 first then
        match rest with b :: _ => if is_continuation b then Some 2%nat else None | _ => None end
      else if between 224 239 first then
        match rest with
        | b :: c :: _ =>
            if ((first =? 224) && between 160 191 b || between 225 236 first && between 128 191 b
                || (first =? 237) && between 128 159 b || between 238 239 first && between 128 191 b) && is_continuation c
            then Some 3%nat else None
        | _ => None
        end
      else if between 240 244 first then
        match rest with
        | b :: c :: d :: _ =>
            if ((first =? 240) && between 144 191 b || between 241 243 first && between 128 191 b
                || (first =? 244) && between 128 143 b) && is_continuation c && is_continuation d
            then Some 4%nat else None
        | _ => None
        end
      else None
  end.
(** How many octets are valid. *)
Fixpoint valid_up_to (fuel : nat) (l : bytes) : nat :=
  match fuel with
  | O => 0
  | S fuel => match char_width l with Some w => w + valid_up_to fuel (drop w l) | None => 0 end
  end.
(** [core::str::from_utf8]; an error is [Utf8Error::valid_up_to]. *)
Definition from_utf8 (l : bytes) : Result bytes nat :=
  let valid := valid_up_to (length l) l in if decide (valid = length l) then Ok l else Err valid.

(** ** What is valid *)

Lemma encode_char_wf c : is_scalar c = true -> wf_bytes (encode_char c).
Proof.
  unfold is_scalar, encode_char. intros Hc. destruct (Z.ltb_spec c 128); [|destruct (Z.ltb_spec c 2048); [|destruct (Z.ltb_spec c 65536)]];
    repeat apply Forall_cons_2; try apply Forall_nil_2; unfold is_u8, U8_MAX; Z.div_mod_to_equations; lia.
Qed.
Lemma encode_char_length c : (1 <= length (encode_char c) <= 4)%nat.
Proof. unfold encode_char. repeat case_match; cbn; lia. Qed.
Lemma char_width_encode c rest : is_scalar c = true -> char_width (encode_char c ++ rest) = Some (length (encode_char c)).
Proof.
  unfold is_scalar, encode_char. intros Hc.
  destruct (Z.ltb_spec c 128); [|destruct (Z.ltb_spec c 2048); [|destruct (Z.ltb_spec c 65536)]]; cbn [app char_width length]; unfold between, is_continuation.
  - by rewrite (proj2 (Z.ltb_lt _ _)).
  - replace (192 + c / 64 <? 128) with false by (Z.div_mod_to_equations; lia).
    replace ((194 <=? 192 + c / 64) && (192 + c / 64 <=? 223)) with true by (Z.div_mod_to_equations; lia).
    by replace ((128 <=? 128 + c mod 64) && (128 + c mod 64 <=? 191)) with true by (Z.div_mod_to_equations; lia).
  - replace (224 + c / 4096 <? 128) with false by (Z.div_mod_to_equations; lia).
    replace ((194 <=? 224 + c / 4096) && (224 + c / 4096 <=? 223)) with false by (Z.div_mod_to_equations; lia).
    replace ((224 <=? 224 + c / 4096) && (224 + c / 4096 <=? 239)) with true by (Z.div_mod_to_equations; lia).
    match goal with |- (if ?b then _ else _) = _ => assert (b = true) as -> end; [|done].
    assert (0 <= c / 4096 <= 15) by (Z.div_mod_to_equations; lia). assert (c = 4096 * (c / 4096) + 64 * (c / 64 mod 64) + c mod 64) by (Z.div_mod_to_equations; lia).
    assert (0 <= c / 64 mod 64 < 64) by (Z.div_mod_to_equations; lia). assert (0 <= c mod 64 < 64) by (Z.div_mod_to_equations; lia).
    generalize dependent (c / 4096). generalize dependent (c / 64 mod 64). generalize dependent (c mod 64). intros. lia.
  - replace (240 + c / 262144 <? 128) with false by (Z.div_mod_to_equations; lia).
    replace ((194 <=? 240 + c / 262144) && (240 + c / 262144 <=? 223)) with false by (Z.div_mod_to_equations; lia).
    replace ((224 <=? 240 + c / 262144) && (240 + c / 262144 <=? 239)) with false by (Z.div_mod_to_equations; lia).
    replace ((240 <=? 240 + c / 262144) && (240 + c / 262144 <=? 244)) with true by (Z.div_mod_to_equations; lia).
    match goal with |- (if ?b then _ else _) = _ => assert (b = true) as -> end; [|done].
    assert (c = 262144 * (c / 262144) + 4096 * (c / 4096 mod 64) + 64 * (c / 64 mod 64) + c mod 64) by (Z.div_mod_to_equations; lia).
    assert (0 <= c / 4096 mod 64 < 64) by (Z.div_mod_to_equations; lia). assert (0 <= c / 64 mod 64 < 64) by (Z.div_mod_to_equations; lia).
    assert (0 <= c mod 64 < 64) by (Z.div_mod_to_equations; lia). assert (0 <= c / 262144 <= 4) by (Z.div_mod_to_equations; lia).
    generalize dependent (c / 262144). generalize dependent (c / 4096 mod 64). generalize dependent (c / 64 mod 64). generalize dependent (c mod 64). intros. lia.
Qed.
Lemma div_mod_at d c q r : 0 < d -> 0 <= r < d -> c = d * q + r -> c / d = q /\ c mod d = r.
Proof. intros Hd Hr Hc. split; symmetry; [apply (Z.div_unique_pos _ _ _ r)|apply (Z.mod_unique_pos _ _ q)]; lia. Qed.
Lemma char_width_inv l w : wf_bytes l -> char_width l = Some w ->
  exists c, is_scalar c = true /\ l = encode_char c ++ drop w l /\ w = length (encode_char c).
Proof.
  intros Hw. destruct l as [|a rest]; [done|]. cbn [char_width]. apply Forall_cons in Hw as [Ha Hw]. unfold is_u8, U8_MAX in Ha.
  unfold between, is_continuation, is_scalar, encode_char. destruct (Z.ltb_spec a 128).
  { intros [= <-]. exists a. replace (a <? 128) with true by lia. split_and!; [lia|done|done]. }
  destruct ((194 <=? a) && (a <=? 223)) eqn:E2.
  { destruct rest as [|b rest]; [done|]. match goal with |- (if ?t then _ else _) = _ -> _ => destruct t eqn:Eb end; [|done]. intros [= <-]. exists (64 * (a - 192) + (b - 128)).
    destruct (div_mod_at 64 (64 * (a - 192) + (b - 128)) (a - 192) (b - 128)) as [-> ->]; [lia..|].
    replace (_ <? 128) with false by lia. replace (_ <? 2048) with true by lia. split_and!; [lia| |done]. cbn. repeat f_equal; lia. }
  destruct ((224 <=? a) && (a <=? 239)) eqn:E3.
  { destruct rest as [|b [|c rest]]; [done..|]. match goal with |- (if ?t then _ else _) = _ -> _ => destruct t eqn:Eb end; [|done]. intros [= <-].
    assert (exists x, x = 4096 * (a - 224) + 64 * (b - 128) + (c - 128)) as [x Hx] by eauto. exists x.
    destruct (div_mod_at 4096 x (a - 224) (64 * (b - 128) + (c - 128))) as [-> _]; [lia..|].
    destruct (div_mod_at 64 x (64 * (a - 224) + (b - 128)) (c - 128)) as [-> ->]; [lia..|].
    destruct (div_mod_at 64 (64 * (a - 224) + (b - 128)) (a - 224) (b - 128)) as [_ ->]; [lia..|].
    replace (x <? 128) with false by lia. replace (x <? 2048) with false by lia. replace (x <? 65536) with true by lia.
    split_and!; [lia| |done]. cbn. repeat f_equal; lia. }
  destruct ((240 <=? a) && (a <=? 244)) eqn:E4; [|done].
  destruct rest as [|b [|c [|d rest]]]; [done..|]. match goal with |- (if ?t then _ else _) = _ -> _ => destruct t eqn:Eb end; [|done]. intros [= <-].
  assert (exists x, x = 262144 * (a - 240) + 4096 * (b - 128) + 64 * (c - 128) + (d - 128)) as [x Hx] by eauto. exists x.
  destruct (div_mod_at 262144 x (a - 240) (4096 * (b - 128) + 64 * (c - 128) + (d - 128))) as [-> _]; [lia..|].
  destruct (div_mod_at 4096 x (64 * (a - 240) + (b - 128)) (64 * (c - 128) + (d - 128))) as [-> _]; [lia..|].
  destruct (div_mod_at 64 x (4096 * (a - 240) + 64 * (b - 128) + (c - 128)) (d - 128)) as [-> ->]; [lia..|].
  destruct (div_mod_at 64 (64 * (a - 240) + (b - 128)) (a - 240) (b - 128)) as [_ ->]; [lia..|].
  destruct (div_mod_at 64 (4096 * (a - 240) + 64 * (b - 128) + (c - 128)) (64 * (a - 240) + (b - 128)) (c - 128)) as [_ ->]; [lia..|].
  replace (x <? 128) with false by lia. replace (x <? 2048) with false by lia. replace (x <? 65536) with false by lia.
  split_and!; [lia| |done]. cbn. repeat f_equal; lia.
Qed.
Lemma char_width_pos l w : char_width l = Some w -> (0 < w)%nat.
Proof. unfold char_width. repeat case_match; intros [= <-]; lia. Qed.
Lemma valid_up_to_chars cs : Forall (fun c => is_scalar c = true) cs -> forall fuel, (length (encode_chars cs) <= fuel)%nat ->
  valid_up_to fuel (encode_chars cs) = length (encode_chars cs).
Proof.
  induction 1 as [|c cs Hc _ IH]; intros fuel Hf; [by destruct fuel|].
  change (encode_chars (c :: cs)) with (encode_char c ++ encode_chars cs) in *. rewrite length_app in *. pose proof (encode_char_length c).
  destruct fuel as [|fuel]; [lia|]. cbn [valid_up_to]. rewrite char_width_encode by done. rewrite drop_app_length. by rewrite IH by lia.
Qed.
Lemma valid_up_to_end fuel : forall l, (length l <= fuel)%nat -> char_width (drop (valid_up_to fuel l) l) = None.
Proof.
  induction fuel as [|fuel IH]; intros l Hl; cbn [valid_up_to]; [by destruct l; [|cbn in Hl; lia]|].
  destruct (char_width l) as [w|] eqn:Hw; [|done]. pose proof (char_width_pos l w Hw). rewrite <-drop_drop. apply IH.
  rewrite length_drop. destruct l; [done|]. cbn in *. lia.
Qed.
Lemma valid_up_to_split fuel : forall l, wf_bytes l -> exists cs, Forall (fun c => is_scalar c = true) cs /\
  take (valid_up_to fuel l) l = encode_chars cs /\ length (encode_chars cs) = valid_up_to fuel l.
Proof.
  induction fuel as [|fuel IH]; intros l Hl; cbn [valid_up_to]; [by exists []|].
  destruct (char_width l) as [w|] eqn:Hw; [|by exists []]. destruct (char_width_inv l w Hl Hw) as (c & Hc & El & Ew).
  destruct (IH (drop w l)) as (cs & Hcs & Ht & Hn).
  { by apply Forall_drop. }
  exists (c :: cs). change (encode_chars (c :: cs)) with (encode_char c ++ encode_chars cs). split; [by constructor|]. split.
  - rewrite El at 2. rewrite Ew, take_app_add, <-Ew. by rewrite Ht.
  - rewrite length_app, Hn, <-Ew. done.
Qed.
Lemma from_utf8_ok l t : wf_bytes l -> from_utf8 l = Ok t -> t = l /\ exists cs, Forall (fun c => is_scalar c = true) cs /\ l = encode_chars cs.
Proof.
  intros Hl. destruct (valid_up_to_split (length l) l Hl) as (cs & Hcs & Ht & Hn). unfold from_utf8. cbv zeta. case_decide as Hd; [|done].
  intros [= <-]. split; [done|]. exists cs. split; [done|]. by rewrite <-Ht, Hd, take_ge.
Qed.
Lemma encode_chars_wf cs : Forall (fun c => is_scalar c = true) cs -> wf_bytes (encode_chars cs).
Proof. induction 1 as [|c cs Hc _ IH]; [constructor|]. apply Forall_app_2; [by apply encode_char_wf|done]. Qed.
(** Text is accepted as UTF-8 exactly when it is the encodings of Unicode scalar values, one after the other; of other octets, those
    reported valid are, and no character starts after them. *)
Theorem from_utf8_exact l : wf_bytes l ->
  (from_utf8 l = Ok l <-> exists cs, Forall (fun c => is_scalar c = true) cs /\ l = encode_chars cs) /\
  forall n, from_utf8 l = Err n -> (n < length l)%nat /\ (exists cs, Forall (fun c => is_scalar c = true) cs /\ take n l = encode_chars cs) /\
    char_width (drop n l) = None.
Proof.
  intros Hl. destruct (valid_up_to_split (length l) l Hl) as (cs & Hcs & Ht & Hn). pose proof (valid_up_to_end (length l) l ltac:(done)) as He.
  assert (valid_up_to (length l) l <= length l)%nat by (rewrite <-Hn, <-Ht, length_take; lia).
  unfold from_utf8. cbv zeta. split; [split|].
  - case_decide as Hd; [|done]. intros _. exists cs. split; [done|]. by rewrite <-Ht, Hd, take_ge.
  - intros (cs' & Hcs' & El). rewrite decide_True; [done|]. rewrite El. by apply valid_up_to_chars.
  - intros n. case_decide; [done|]. intros [= <-]. split_and!; [lia|eauto|done].
Qed.
Lemma from_utf8_chars cs : Forall (fun c => is_scalar c = true) cs -> from_utf8 (encode_chars cs) = Ok (encode_chars cs).
Proof. intros Hcs. unfold from_utf8. cbv zeta. by rewrite valid_up_to_chars, decide_True. Qed.
Lemma from_utf8_exact_witness : from_utf8 [65; 226; 130; 172] = Ok [65; 226; 130; 172] /\ from_utf8 [65; 237; 160; 128] = Err 1%nat.
Proof.
  split; [|reflexivity]. apply (from_utf8_exact [65; 226; 130; 172]); [by repeat constructor|]. exists [65; 8364]. split; [by repeat constructor|reflexivity].
Defined.
