(* ===== verification/Values.v ===== *)
(** * Values and their encoders (bacnet-types primitives.rs; bacnet-encoding primitives/scalar.rs, primitives/strings.rs)

    The application-layer values, and the encoders that append one to a sink, tag header and contents together. A float is its IEEE-754
    bits, which is all the codec looks at; a string is its UTF-8 octets. [None] is a panic: a scalar is staged in an eleven-octet buffer
    whose bounds the code asserts. *)

From Stdlib Require Import String.
From S2P Require Import Prelude Sink WireError Tags.
Open Scope Z_scope.

(** ** Object identifiers, dates and times *)

(** [ObjectIdentifier] (bacnet-types/src/primitives.rs) *)
Record ObjectIdentifier := { object_type : Z; instance_number : Z }.
(** [ObjectIdentifier::MAX_INSTANCE] (bacnet-types/src/primitives.rs) *)
Definition MAX_INSTANCE : Z := 4194303.
(** [ObjectIdentifier::WILDCARD_INSTANCE] (bacnet-types/src/primitives.rs) *)
Definition WILDCARD_INSTANCE : Z := MAX_INSTANCE.
(** [ObjectIdentifier::new] (bacnet-types/src/primitives.rs) *)
Definition oid_new (type instance : Z) : Result ObjectIdentifier Error :=
  if MAX_INSTANCE <? instance then Err (ErrRange {| ra_label := "instance number {} exceeds max 4194303"; ra_values := (instance, 0) |}) else
  if 1023 <? type then Err (ErrRange {| ra_label := "object type {} exceeds max 1023"; ra_values := (type, 0) |}) else
  Ok {| object_type := type; instance_number := instance |}.
(** [ObjectIdentifier::new_addressable] (bacnet-types/src/primitives.rs) *)
Definition oid_new_addressable (type instance : Z) : Result ObjectIdentifier Error :=
  let? identifier := oid_new type instance in
  if instance =? WILDCARD_INSTANCE then
    Err (ErrRange {| ra_label := "instance number 4194303 is reserved as the wildcard value; maximum addressable instance is 4194302";
                     ra_values := (0, 0) |})
  else Ok identifier.
(** [ObjectIdentifier::encode] (bacnet-types/src/primitives.rs) *)
Definition oid_encode (o : ObjectIdentifier) : bytes :=
  to_be32 (Z.lor (Z.shiftl (object_type o) 22 mod 4294967296) (instance_number o)).
(** [wrong_length] (bacnet-types/src/primitives.rs) *)
Definition wrong_length (label : string) (data : bytes) : Error :=
  ErrDecoding (with_value (decode_error InvalidEncoding 0 label) (Z.of_nat (List.length data))).
(** [ObjectIdentifier::decode] (bacnet-types/src/primitives.rs) *)
Definition oid_decode (data : bytes) : Result ObjectIdentifier Error :=
  match data with
  | [a; b; c; d] =>
      let value := from_be32 a b c d in
      Ok {| object_type := Z.land (Z.shiftr value 22) 1023; instance_number := Z.land value MAX_INSTANCE |}
  | _ => Err (wrong_length "ObjectIdentifier expects exactly 4 bytes, got {}" data)
  end.

(** [Date] (bacnet-types/src/primitives.rs) *)
Record Date := { year : Z; month : Z; day : Z; day_of_week : Z }.
(** [Date::encode] (bacnet-types/src/primitives.rs) *)
Definition date_encode (d : Date) : bytes := [year d; month d; day d; day_of_week d].
(** [Date::decode] (bacnet-types/src/primitives.rs) *)
Definition date_decode (data : bytes) : Result Date Error :=
  match data with
  | [a; b; c; d] => Ok {| year := a; month := b; day := c; day_of_week := d |}
  | _ => Err (wrong_length "Date expects exactly 4 bytes, got {}" data)
  end.
(** [Date::actual_year] (bacnet-types/src/primitives.rs) *)
Definition actual_year (d : Date) : option Z := if year d =? 255 then None else Some (1900 + year d).
(** [Time] (bacnet-types/src/primitives.rs) *)
Record Time := { hour : Z; minute : Z; second : Z; hundredths : Z }.
(** [Time::encode] (bacnet-types/src/primitives.rs) *)
Definition time_encode (t : Time) : bytes := [hour t; minute t; second t; hundredths t].
(** [Time::decode] (bacnet-types/src/primitives.rs) *)
Definition time_decode (data : bytes) : Result Time Error :=
  match data with
  | [a; b; c; d] => Ok {| hour := a; minute := b; second := c; hundredths := d |}
  | _ => Err (wrong_length "Time expects exactly 4 bytes, got {}" data)
  end.

(** [BACnetTimeStamp] (bacnet-types/src/primitives.rs) *)
Inductive BACnetTimeStamp := TsTime (time : Time) | TsSequenceNumber (number : Z) | TsDateTime (date : Date) (time : Time).
(** [PropertyValue] (bacnet-types/src/primitives.rs) *)
Inductive PropertyValue :=
| Null | Boolean (v : bool) | Unsigned (v : Z) | Signed (v : Z) | Real (bits : Z) | Double (bits : Z)
| OctetString (v : bytes) | CharacterString (v : bytes) | BitString (unused_bits : Z) (data : bytes) | Enumerated (v : Z)
| DateValue (v : Date) | TimeValue (v : Time) | ObjectIdentifierValue (v : ObjectIdentifier)
| ListValue (values : list PropertyValue) | ApplicationData (v : bytes).
(** [PropertyValue::is_primitive] (bacnet-types/src/primitives.rs) *)
Definition is_primitive (v : PropertyValue) : bool := match v with ListValue _ | ApplicationData _ => false | _ => true end.

(** ** Scalars *)

(** [unsigned_len] (bacnet-encoding/src/primitives/scalar.rs) *)
Definition unsigned_len (value : Z) : Z :=
  if value <=? 255 then 1 else if value <=? 65535 then 2 else if value <=? 16777215 then 3 else if value <=? 4294967295 then 4 else
  if value <=? 1099511627775 then 5 else if value <=? 281474976710655 then 6 else if value <=? 72057594037927935 then 7 else 8.
(** [signed_len] (bacnet-encoding/src/primitives/scalar.rs) *)
Definition signed_len (value : Z) : Z :=
  if (-128 <=? value) && (value <=? 127) then 1 else if (-32768 <=? value) && (value <=? 32767) then 2 else
  if (-8388608 <=? value) && (value <=? 8388607) then 3 else 4.
(** [i32::to_be_bytes]. *)
Definition i32_to_be (value : Z) : bytes := to_be32 (value mod 4294967296).
(** [&value.to_be_bytes()[8 - unsigned_len(value)..]] *)
Definition unsigned_octets (value : Z) : bytes := drop (8 - Z.to_nat (unsigned_len value)) (to_be64 value).
(** [&value.to_be_bytes()[4 - unsigned_len(value)..]] of a [u32]. *)
Definition enumerated_octets (value : Z) : bytes := drop (4 - Z.to_nat (unsigned_len value)) (to_be32 value).
(** [&value.to_be_bytes()[4 - signed_len(value)..]] *)
Definition signed_octets (value : Z) : bytes := drop (4 - Z.to_nat (signed_len value)) (i32_to_be value).

(** The encoded octets, or the panic.
    [write_tagged] (bacnet-encoding/src/primitives/scalar.rs:521-525) *)
Definition stage_tagged (tag : Z) (class : TagClass) (length : Z) (contents : bytes) : option bytes :=
  match encode_tag_to_sink {| slice_buf := replicate 11 0; slice_pos := 0 |} tag class length with
  | (staging, Ok header) =>
      let used := (header + List.length contents)%nat in
      if decide (used <= 11)%nat then Some (take used (splice (slice_buf staging) header contents)) else None
  | (_, Err _) => None
  end.
(** The [BytesMut] encoders: [.expect("the BytesMut sink cannot return SinkFull")]. *)
Definition expect_buf (r : option (bytes * Result nat SinkFull)) : option bytes :=
  match r with Some (buf, Ok _) => Some buf | _ => None end.

Section scalars.
Context {S : Type} `{FrameSink S}.
Implicit Types (sink : S).

(** [write_scalar] (bacnet-encoding/src/primitives/scalar.rs) *)
Definition write_scalar sink (encoded : bytes) : S * Result nat SinkFull :=
  let write := match sink_write sink encoded with (s, Ok _) => (s, Ok (length encoded)) | (s, Err e) => (s, Err e) end in
  match remaining_capacity sink with
  | Some available =>
      if decide (available < length encoded)%nat then (sink, Err {| full_needed := length encoded; full_available := available |}) else write
  | None => write
  end.
(** [write_tagged] (bacnet-encoding/src/primitives/scalar.rs) *)
Definition write_tagged sink (tag : Z) (class : TagClass) (length : Z) (contents : bytes) : option (S * Result nat SinkFull) :=
  write_scalar sink <$> stage_tagged tag class length contents.
(** [encode_unsigned_to_sink] (bacnet-encoding/src/primitives/scalar.rs) *)
Definition encode_unsigned_to_sink sink value : option (S * Result nat SinkFull) := Some (write_scalar sink (unsigned_octets value)).
(** [encode_signed_to_sink] (bacnet-encoding/src/primitives/scalar.rs) *)
Definition encode_signed_to_sink sink value : option (S * Result nat SinkFull) := Some (write_scalar sink (signed_octets value)).
(** [encode_real_to_sink] (bacnet-encoding/src/primitives/scalar.rs) *)
Definition encode_real_to_sink sink bits : option (S * Result nat SinkFull) := Some (write_scalar sink (to_be32 bits)).
(** [encode_double_to_sink] (bacnet-encoding/src/primitives/scalar.rs) *)
Definition encode_double_to_sink sink bits : option (S * Result nat SinkFull) := Some (write_scalar sink (to_be64 bits)).
(** [encode_app_null_to_sink] (bacnet-encoding/src/primitives/scalar.rs) *)
Definition encode_app_null_to_sink sink := write_tagged sink TAG_NULL ApplicationTag 0 [].
(** [encode_app_boolean_to_sink] (bacnet-encoding/src/primitives/scalar.rs) *)
Definition encode_app_boolean_to_sink sink (value : bool) := write_tagged sink TAG_BOOLEAN ApplicationTag (Z.b2z value) [].
(** [encode_app_unsigned_to_sink] (bacnet-encoding/src/primitives/scalar.rs) *)
Definition encode_app_unsigned_to_sink sink value :=
  write_tagged sink TAG_UNSIGNED ApplicationTag (unsigned_len value) (unsigned_octets value).
(** [encode_app_signed_to_sink] (bacnet-encoding/src/primitives/scalar.rs) *)
Definition encode_app_signed_to_sink sink value := write_tagged sink TAG_SIGNED ApplicationTag (signed_len value) (signed_octets value).
(** [encode_app_real_to_sink] (bacnet-encoding/src/primitives/scalar.rs) *)
Definition encode_app_real_to_sink sink bits := write_tagged sink TAG_REAL ApplicationTag 4 (to_be32 bits).
(** [encode_app_double_to_sink] (bacnet-encoding/src/primitives/scalar.rs) *)
Definition encode_app_double_to_sink sink bits := write_tagged sink TAG_DOUBLE ApplicationTag 8 (to_be64 bits).
(** [encode_app_enumerated_to_sink] (bacnet-encoding/src/primitives/scalar.rs) *)
Definition encode_app_enumerated_to_sink sink value :=
  write_tagged sink TAG_ENUMERATED ApplicationTag (unsigned_len value) (enumerated_octets value).
(** [encode_app_date_to_sink] (bacnet-encoding/src/primitives/scalar.rs) *)
Definition encode_app_date_to_sink sink date := write_tagged sink TAG_DATE ApplicationTag 4 (date_encode date).
(** [encode_app_time_to_sink] (bacnet-encoding/src/primitives/scalar.rs) *)
Definition encode_app_time_to_sink sink time := write_tagged sink TAG_TIME ApplicationTag 4 (time_encode time).
(** [encode_app_object_id_to_sink] (bacnet-encoding/src/primitives/scalar.rs) *)
Definition encode_app_object_id_to_sink sink oid := write_tagged sink TAG_OBJECT_IDENTIFIER ApplicationTag 4 (oid_encode oid).
(** [encode_ctx_unsigned_to_sink] (bacnet-encoding/src/primitives/scalar.rs) *)
Definition encode_ctx_unsigned_to_sink sink tag value := write_tagged sink tag ContextTag (unsigned_len value) (unsigned_octets value).
(** [encode_ctx_signed_to_sink] (bacnet-encoding/src/primitives/scalar.rs) *)
Definition encode_ctx_signed_to_sink sink tag value := write_tagged sink tag ContextTag (signed_len value) (signed_octets value).
(** [encode_ctx_real_to_sink] (bacnet-encoding/src/primitives/scalar.rs) *)
Definition encode_ctx_real_to_sink sink tag bits := write_tagged sink tag ContextTag 4 (to_be32 bits).
(** [encode_ctx_double_to_sink] (bacnet-encoding/src/primitives/scalar.rs) *)
Definition encode_ctx_double_to_sink sink tag bits := write_tagged sink tag ContextTag 8 (to_be64 bits).
(** [encode_ctx_enumerated_to_sink] (bacnet-encoding/src/primitives/scalar.rs) *)
Definition encode_ctx_enumerated_to_sink sink tag value := write_tagged sink tag ContextTag (unsigned_len value) (enumerated_octets value).
(** [encode_ctx_boolean_to_sink] (bacnet-encoding/src/primitives/scalar.rs) *)
Definition encode_ctx_boolean_to_sink sink tag (value : bool) := write_tagged sink tag ContextTag 1 [Z.b2z value].
(** [encode_ctx_object_id_to_sink] (bacnet-encoding/src/primitives/scalar.rs) *)
Definition encode_ctx_object_id_to_sink sink tag oid := write_tagged sink tag ContextTag 4 (oid_encode oid).
(** [encode_ctx_date_to_sink] (bacnet-encoding/src/primitives/scalar.rs) *)
Definition encode_ctx_date_to_sink sink tag date := write_tagged sink tag ContextTag 4 (date_encode date).
End scalars.

(** ** The same, to a growable buffer *)

(** [encode_unsigned] (bacnet-encoding/src/primitives/scalar.rs) *)
Definition encode_unsigned (buf : bytes) value : option bytes := expect_buf (encode_unsigned_to_sink buf value).
(** [encode_signed] (bacnet-encoding/src/primitives/scalar.rs) *)
Definition encode_signed (buf : bytes) value : option bytes := expect_buf (encode_signed_to_sink buf value).
(** [encode_real] (bacnet-encoding/src/primitives/scalar.rs) *)
Definition encode_real (buf : bytes) bits : option bytes := expect_buf (encode_real_to_sink buf bits).
(** [encode_double] (bacnet-encoding/src/primitives/scalar.rs) *)
Definition encode_double (buf : bytes) bits : option bytes := expect_buf (encode_double_to_sink buf bits).
(** [encode_app_null] (bacnet-encoding/src/primitives/scalar.rs) *)
Definition encode_app_null (buf : bytes) : option bytes := expect_buf (encode_app_null_to_sink buf).
(** [encode_app_boolean] (bacnet-encoding/src/primitives/scalar.rs) *)
Definition encode_app_boolean (buf : bytes) value : option bytes := expect_buf (encode_app_boolean_to_sink buf value).
(** [encode_app_unsigned] (bacnet-encoding/src/primitives/scalar.rs) *)
Definition encode_app_unsigned (buf : bytes) value : option bytes := expect_buf (encode_app_unsigned_to_sink buf value).
(** [encode_app_signed] (bacnet-encoding/src/primitives/scalar.rs) *)
Definition encode_app_signed (buf : bytes) value : option bytes := expect_buf (encode_app_signed_to_sink buf value).
(** [encode_app_real] (bacnet-encoding/src/primitives/scalar.rs) *)
Definition encode_app_real (buf : bytes) bits : option bytes := expect_buf (encode_app_real_to_sink buf bits).
(** [encode_app_double] (bacnet-encoding/src/primitives/scalar.rs) *)
Definition encode_app_double (buf : bytes) bits : option bytes := expect_buf (encode_app_double_to_sink buf bits).
(** [encode_app_enumerated] (bacnet-encoding/src/primitives/scalar.rs) *)
Definition encode_app_enumerated (buf : bytes) value : option bytes := expect_buf (encode_app_enumerated_to_sink buf value).
(** [encode_app_date] (bacnet-encoding/src/primitives/scalar.rs) *)
Definition encode_app_date (buf : bytes) date : option bytes := expect_buf (encode_app_date_to_sink buf date).
(** [encode_app_time] (bacnet-encoding/src/primitives/scalar.rs) *)
Definition encode_app_time (buf : bytes) time : option bytes := expect_buf (encode_app_time_to_sink buf time).
(** [encode_app_object_id] (bacnet-encoding/src/primitives/scalar.rs) *)
Definition encode_app_object_id (buf : bytes) oid : option bytes := expect_buf (encode_app_object_id_to_sink buf oid).
(** [encode_ctx_unsigned] (bacnet-encoding/src/primitives/scalar.rs) *)
Definition encode_ctx_unsigned (buf : bytes) tag value : option bytes := expect_buf (encode_ctx_unsigned_to_sink buf tag value).
(** [encode_ctx_signed] (bacnet-encoding/src/primitives/scalar.rs) *)
Definition encode_ctx_signed (buf : bytes) tag value : option bytes := expect_buf (encode_ctx_signed_to_sink buf tag value).
(** [encode_ctx_real] (bacnet-encoding/src/primitives/scalar.rs) *)
Definition encode_ctx_real (buf : bytes) tag bits : option bytes := expect_buf (encode_ctx_real_to_sink buf tag bits).
(** [encode_ctx_double] (bacnet-encoding/src/primitives/scalar.rs) *)
Definition encode_ctx_double (buf : bytes) tag bits : option bytes := expect_buf (encode_ctx_double_to_sink buf tag bits).
(** [encode_ctx_enumerated] (bacnet-encoding/src/primitives/scalar.rs) *)
Definition encode_ctx_enumerated (buf : bytes) tag value : option bytes := expect_buf (encode_ctx_enumerated_to_sink buf tag value).
(** [encode_ctx_boolean] (bacnet-encoding/src/primitives/scalar.rs) *)
Definition encode_ctx_boolean (buf : bytes) tag value : option bytes := expect_buf (encode_ctx_boolean_to_sink buf tag value).
(** [encode_ctx_object_id] (bacnet-encoding/src/primitives/scalar.rs) *)
Definition encode_ctx_object_id (buf : bytes) tag oid : option bytes := expect_buf (encode_ctx_object_id_to_sink buf tag oid).
(** [encode_ctx_date] (bacnet-encoding/src/primitives/scalar.rs) *)
Definition encode_ctx_date (buf : bytes) tag date : option bytes := expect_buf (encode_ctx_date_to_sink buf tag date).

(** ** Strings *)

(** [charset] (bacnet-encoding/src/primitives/mod.rs:213-213) *)
Definition CHARSET_UTF8 : Z := 0.
(** [charset] (bacnet-encoding/src/primitives/mod.rs:215-215) *)
Definition CHARSET_DBCS : Z := 1.
(** [charset] (bacnet-encoding/src/primitives/mod.rs:217-217) *)
Definition CHARSET_JIS : Z := 2.
(** [charset] (bacnet-encoding/src/primitives/mod.rs:219-219) *)
Definition CHARSET_UCS4 : Z := 3.
(** [charset] (bacnet-encoding/src/primitives/mod.rs:221-221) *)
Definition CHARSET_UCS2 : Z := 4.
(** [charset] (bacnet-encoding/src/primitives/mod.rs:223-223) *)
Definition CHARSET_LATIN1 : Z := 5.
(** [MAX_HEADER] (bacnet-encoding/src/primitives/strings.rs) *)
Definition MAX_HEADER : nat := 7.
(** [usize::saturating_add]. *)
Definition usize_sat_add (a b : nat) : nat := Z.to_nat (sat_add USIZE_MAX (Z.of_nat a) (Z.of_nat b)).

Section strings.
Context {S : Type} `{EncodeSink S}.
Implicit Types (sink : S).

(** [header_length] (bacnet-encoding/src/primitives/strings.rs) *)
Definition header_length sink (contents : nat) : Result Z SinkFull :=
  if Z.of_nat contents <=? U32_MAX then Ok (Z.of_nat contents)
  else Err {| full_needed := usize_sat_add contents MAX_HEADER; full_available := default (Z.to_nat U32_MAX) (remaining_capacity sink) |}.
(** [write_tagged] (bacnet-encoding/src/primitives/strings.rs) *)
Definition write_tagged_parts sink (tag : Z) (class : TagClass) (lead payload : bytes) : option (S * Result nat SinkFull) :=
  let contents := usize_sat_add (length lead) (length payload) in
  match header_length sink contents with
  | Err e => Some (sink, Err e)
  | Ok length =>
      match encode_tag_to_sink {| slice_buf := replicate MAX_HEADER 0; slice_pos := 0 |} tag class length with
      | (tail, Ok header_len) =>
          Some (match write_parts sink [take header_len (slice_buf tail); lead; payload] with
                | (sink, Ok _) => (sink, Ok (header_len + contents)%nat)
                | (sink, Err e) => (sink, Err e)
                end)
      | (_, Err _) => None
      end
  end.
(** [write_contents] (bacnet-encoding/src/primitives/strings.rs) *)
Definition write_contents sink (lead : Z) (payload : bytes) : S * Result nat SinkFull :=
  match write_parts sink [[lead]; payload] with (sink, Ok _) => (sink, Ok (1 + length payload)%nat) | (sink, Err e) => (sink, Err e) end.
(** [encode_character_string_to_sink] (bacnet-encoding/src/primitives/strings.rs) *)
Definition encode_character_string_to_sink sink value : S * Result nat SinkFull := write_contents sink CHARSET_UTF8 value.
(** [encode_app_character_string_to_sink] (bacnet-encoding/src/primitives/strings.rs) *)
Definition encode_app_character_string_to_sink sink value :=
  write_tagged_parts sink TAG_CHARACTER_STRING ApplicationTag [CHARSET_UTF8] value.
(** [encode_ctx_character_string_to_sink] (bacnet-encoding/src/primitives/strings.rs) *)
Definition encode_ctx_character_string_to_sink sink tag value := write_tagged_parts sink tag ContextTag [CHARSET_UTF8] value.
(** [encode_app_octet_string_to_sink] (bacnet-encoding/src/primitives/strings.rs) *)
Definition encode_app_octet_string_to_sink sink data := write_tagged_parts sink TAG_OCTET_STRING ApplicationTag [] data.
(** [encode_ctx_octet_string_to_sink] (bacnet-encoding/src/primitives/strings.rs) *)
Definition encode_ctx_octet_string_to_sink sink tag data := write_tagged_parts sink tag ContextTag [] data.
(** [encode_bit_string_to_sink] (bacnet-encoding/src/primitives/strings.rs) *)
Definition encode_bit_string_to_sink sink unused_bits data : S * Result nat SinkFull := write_contents sink unused_bits data.
(** [encode_app_bit_string_to_sink] (bacnet-encoding/src/primitives/strings.rs) *)
Definition encode_app_bit_string_to_sink sink unused_bits data := write_tagged_parts sink TAG_BIT_STRING ApplicationTag [unused_bits] data.
(** [encode_ctx_bit_string_to_sink] (bacnet-encoding/src/primitives/strings.rs) *)
Definition encode_ctx_bit_string_to_sink sink tag unused_bits data := write_tagged_parts sink tag ContextTag [unused_bits] data.
End strings.

(** [encode_tag] (bacnet-encoding/src/tags/encode.rs) *)
Definition encode_tag (buf : bytes) (number : Z) (class : TagClass) (length : Z) : option bytes :=
  expect_buf (Some (encode_tag_to_sink buf number class length)).
(** [encode_character_string] (bacnet-encoding/src/primitives/mod.rs) *)
Definition encode_character_string (buf value : bytes) : option bytes := expect_buf (Some (encode_character_string_to_sink buf value)).
(** [character_string_len] (bacnet-encoding/src/primitives/mod.rs) *)
Definition character_string_len (value : bytes) : Result Z Error :=
  if Z.of_nat (length value) + 1 <=? U32_MAX then Ok (Z.of_nat (length value) + 1)
  else Err (err_encode "CharacterString too long for BACnet encoding").
(** [encode_bit_string] (bacnet-encoding/src/primitives/mod.rs) *)
Definition encode_bit_string (buf : bytes) (unused_bits : Z) (data : bytes) : option bytes :=
  expect_buf (Some (encode_bit_string_to_sink buf unused_bits data)).
(** [u32::try_from(data.len()).unwrap_or(u32::MAX)] *)
Definition saturated_len (data : bytes) : Z := Z.min (Z.of_nat (length data)) U32_MAX.
(** [encode_app_octet_string] (bacnet-encoding/src/primitives/mod.rs) *)
Definition encode_app_octet_string (buf data : bytes) : option bytes :=
  (fun buf => buf ++ data) <$> encode_tag buf TAG_OCTET_STRING ApplicationTag (saturated_len data).
(** [encode_ctx_octet_string] (bacnet-encoding/src/primitives/mod.rs) *)
Definition encode_ctx_octet_string (buf : bytes) (tag : Z) (data : bytes) : option bytes :=
  (fun buf => buf ++ data) <$> encode_tag buf tag ContextTag (saturated_len data).
(** A refusal is the length, as a growable buffer takes every write. *)
Definition or_too_long (r : option (bytes * Result nat SinkFull)) : option (bytes * Result unit Error) :=
  match r with
  | Some (buf, Ok _) => Some (buf, Ok tt)
  | Some (buf, Err _) => Some (buf, Err (err_encode "CharacterString too long for BACnet encoding"))
  | None => None
  end.
(** [encode_app_character_string] (bacnet-encoding/src/primitives/mod.rs) *)
Definition encode_app_character_string (buf value : bytes) : option (bytes * Result unit Error) :=
  or_too_long (encode_app_character_string_to_sink buf value).
(** [encode_ctx_character_string] (bacnet-encoding/src/primitives/mod.rs) *)
Definition encode_ctx_character_string (buf : bytes) (tag : Z) (value : bytes) : option (bytes * Result unit Error) :=
  or_too_long (encode_ctx_character_string_to_sink buf tag value).
(** [encode_app_bit_string] (bacnet-encoding/src/primitives/mod.rs) *)
Definition encode_app_bit_string (buf : bytes) (unused_bits : Z) (data : bytes) : option bytes :=
  buf ← encode_tag buf TAG_BIT_STRING ApplicationTag (sat_add U32_MAX (saturated_len data) 1);
  encode_bit_string buf unused_bits data.
(** [encode_ctx_bit_string] (bacnet-encoding/src/primitives/mod.rs) *)
Definition encode_ctx_bit_string (buf : bytes) (tag unused_bits : Z) (data : bytes) : option bytes :=
  buf ← encode_tag buf tag ContextTag (sat_add U32_MAX (saturated_len data) 1);
  encode_bit_string buf unused_bits data.

(** ** Property values *)

Definition infallible (r : option bytes) : option (bytes * Result unit Error) := (fun buf => (buf, Ok tt)) <$> r.
(** [encode_property_value] (bacnet-encoding/src/primitives/mod.rs) *)
Fixpoint encode_property_value (buf : bytes) (value : PropertyValue) {struct value} : option (bytes * Result unit Error) :=
  match value with
  | Null => infallible (encode_app_null buf)
  | Boolean v => infallible (encode_app_boolean buf v)
  | Unsigned v => infallible (encode_app_unsigned buf v)
  | Signed v => infallible (encode_app_signed buf v)
  | Real v => infallible (encode_app_real buf v)
  | Double v => infallible (encode_app_double buf v)
  | OctetString v => infallible (encode_app_octet_string buf v)
  | CharacterString v => encode_app_character_string buf v
  | BitString unused_bits data => infallible (encode_app_bit_string buf unused_bits data)
  | Enumerated v => infallible (encode_app_enumerated buf v)
  | DateValue v => infallible (encode_app_date buf v)
  | TimeValue v => infallible (encode_app_time buf v)
  | ObjectIdentifierValue v => infallible (encode_app_object_id buf v)
  | ListValue values =>
      (fix encode_all (buf : bytes) (values : list PropertyValue) {struct values} :=
         match values with
         | [] => Some (buf, Ok tt)
         | v :: rest =>
             match encode_property_value buf v with
             | Some (buf, Ok _) => encode_all buf rest
             | other => other
             end
         end) buf values
  | ApplicationData v => Some (buf ++ v, Ok tt)
  end.
