(* ===== verification/ValuesTheorems.v ===== *)
(** * What the value encoders write

    The octets of every value, as the standard lays them out, and that the encoders append exactly them: the staging buffers are wide
    enough (no panic), a sink is given a value whole or not at all. *)

From S2P Require Import Prelude Sink WireError Tags Values.
Open Scope Z_scope.

(** ** Staging *)

Lemma number_ext_length number : (length (number_ext number) <= 1)%nat.
Proof. unfold number_ext. destruct (_ <? _); cbn; lia. Qed.
Lemma length_ext_length len : (length (length_ext len) <= 5)%nat.
Proof. unfold length_ext. repeat case_match; cbn; lia. Qed.
Lemma length_ext_short len : len <= 253 -> (length (length_ext len) <= 1)%nat.
Proof. intros Hl. unfold length_ext. destruct (_ <? _); [|cbn; lia]. replace (len <=? 253) with true by lia. cbn. lia. Qed.
Lemma tag_header_length number class len : (length (tag_header number class len) <= 7)%nat.
Proof. rewrite tag_header_fields. cbn. rewrite length_app. pose proof (number_ext_length number). pose proof (length_ext_length len). lia. Qed.
Lemma tag_header_short number class len : len <= 253 -> (length (tag_header number class len) <= 3)%nat.
Proof. intros Hl. rewrite tag_header_fields. cbn. rewrite length_app. pose proof (number_ext_length number). pose proof (length_ext_short len Hl). lia. Qed.

Definition fresh (n : nat) : SliceSink := {| slice_buf := replicate n 0; slice_pos := 0 |}.
(** A header in a fresh staging buffer wide enough for it. *)
Lemma header_staged n number class len : (length (tag_header number class len) <= n)%nat ->
  encode_tag_to_sink (fresh n) number class len =
  ({| slice_buf := tag_header number class len ++ replicate (n - length (tag_header number class len)) 0;
      slice_pos := length (tag_header number class len) |}, Ok (length (tag_header number class len))).
Proof.
  intros Hn. unfold encode_tag_to_sink, write_header. cbn [remaining_capacity SliceSink_FrameSink sink_write]. unfold slice_room, fresh. cbn [slice_buf slice_pos].
  rewrite length_replicate, decide_False by lia. unfold slice_write, slice_room. cbn [slice_buf slice_pos]. rewrite length_replicate, decide_False by lia.
  unfold splice. cbn [take app]. rewrite Nat.add_0_l, drop_replicate. done.
Qed.
Lemma stage_tagged_eq tag class len contents : len <= 253 -> (length contents <= 8)%nat ->
  stage_tagged tag class len contents = Some (tag_header tag class len ++ contents).
Proof.
  intros Hl Hc. pose proof (tag_header_short tag class len Hl). unfold stage_tagged. fold (fresh 11). rewrite header_staged by lia. cbv zeta. cbn [slice_buf].
  rewrite decide_True by lia. f_equal. unfold splice. rewrite take_app_length, app_assoc, <-length_app. by rewrite take_app_length.
Qed.
Lemma to_be64_length x : length (to_be64 x) = 8%nat.
Proof. done. Qed.
Lemma unsigned_len_range v : 1 <= unsigned_len v <= 8.
Proof. unfold unsigned_len. repeat case_match; lia. Qed.
Lemma unsigned_len_u32 v : is_u32 v -> 1 <= unsigned_len v <= 4.
Proof. unfold is_u32, U32_MAX, unsigned_len. intros Hv. replace (v <=? 4294967295) with true by lia. repeat case_match; lia. Qed.
Lemma signed_len_range v : 1 <= signed_len v <= 4.
Proof. unfold signed_len. repeat case_match; lia. Qed.
Lemma unsigned_octets_length v : length (unsigned_octets v) = Z.to_nat (unsigned_len v).
Proof. unfold unsigned_octets. rewrite length_drop, to_be64_length. pose proof (unsigned_len_range v). lia. Qed.
Lemma enumerated_octets_length v : is_u32 v -> length (enumerated_octets v) = Z.to_nat (unsigned_len v).
Proof. intros Hv. unfold enumerated_octets. rewrite length_drop. cbn [length to_be32]. pose proof (unsigned_len_u32 v Hv). lia. Qed.
Lemma signed_octets_length v : length (signed_octets v) = Z.to_nat (signed_len v).
Proof. unfold signed_octets. rewrite length_drop. cbn [length to_be32 i32_to_be]. pose proof (signed_len_range v). lia. Qed.

(** ** The sink laws *)

(** What [write_parts] promises: the parts are appended as one value, or nothing is. *)
Class EncodeSinkLaws (S : Type) `{FrameSinkLaws S} `{!EncodeSink S} := {
  parts_ok : forall (s : S) (parts : list bytes) s', write_parts s parts = (s', Ok tt) ->
    contents s' = contents s ++ concat parts /\ remaining_capacity s' = (fun c => c - length (concat parts))%nat <$> remaining_capacity s;
  parts_err : forall (s : S) (parts : list bytes) s' e, write_parts s parts = (s', Err e) ->
    contents s' = contents s /\ remaining_capacity s' = remaining_capacity s
}.
Lemma write_all_ok {S} `{FrameSinkLaws S} (parts : list bytes) : forall (s s' : S), write_all s parts = (s', Ok tt) ->
  contents s' = contents s ++ concat parts /\ remaining_capacity s' = (fun c => c - length (concat parts))%nat <$> remaining_capacity s.
Proof.
  induction parts as [|b parts IH]; intros s s'; cbn [write_all concat].
  - intros [= <-]. rewrite app_nil_r. split; [done|]. destruct (remaining_capacity s); cbn; [f_equal; lia|done].
  - destruct (sink_write s b) as [t [[]|e]] eqn:E; [|done]. apply write_ok in E as [Ec Er]. intros Hw. apply IH in Hw as [-> ->]. rewrite Ec, Er, app_assoc.
    split; [done|]. destruct (remaining_capacity s); cbn; [|done]. f_equal. rewrite length_app. lia.
Qed.
Lemma write_all_fits {S} `{FrameSinkLaws S} (parts : list bytes) : forall (s : S) c, remaining_capacity s = Some c -> (length (concat parts) <= c)%nat ->
  exists s', write_all s parts = (s', Ok tt).
Proof.
  induction parts as [|b parts IH]; intros s c Hc Hfit; cbn [write_all concat] in *; [by eexists|]. rewrite length_app in Hfit.
  destruct (write_fits s b c Hc ltac:(lia)) as [s' E]. rewrite E. apply write_ok in E as [_ Er]. rewrite Hc in Er. apply (IH s' (c - length b)%nat); [done|lia].
Qed.
Lemma sum_parts (parts : list bytes) : forall acc n, fold_left (fun acc part => match acc with Some n => checked_add n (length part) | None => None end) parts acc = Some n ->
  exists a, acc = Some a /\ n = (a + length (concat parts))%nat.
Proof.
  induction parts as [|b parts IH]; intros acc n; cbn [fold_left concat].
  - intros ->. exists n. cbn. split; [done|lia].
  - intros Hf. apply IH in Hf as (a & Ha & ->). destruct acc as [x|]; [|done]. unfold checked_add in Ha. case_match; [|done].
    injection Ha as <-. exists x. rewrite length_app. split; [done|lia].
Qed.
(** The provided method keeps the promise for a sink that takes what fits the room it reports, or refuses nothing. *)
Lemma default_parts_spec {S} `{FrameSinkLaws S} (Hnone : forall s b, remaining_capacity s = None -> exists s', sink_write s b = (s', Ok tt))
  (s : S) (parts : list bytes) :
  match default_write_parts s parts with
  | (s', Ok _) => contents s' = contents s ++ concat parts /\ remaining_capacity s' = (fun c => c - length (concat parts))%nat <$> remaining_capacity s
  | (s', Err _) => contents s' = contents s /\ remaining_capacity s' = remaining_capacity s
  end.
Proof.
  unfold default_write_parts. cbv zeta. destruct (fold_left _ _ _) as [n|] eqn:E; [|done]. apply sum_parts in E as (a & [= <-] & ->).
  destruct (remaining_capacity s) as [c|] eqn:Hc.
  - case_decide; [by rewrite Hc|]. destruct (write_all_fits parts s c Hc ltac:(lia)) as [s' E]. rewrite E. apply write_all_ok in E. by rewrite Hc in E.
  - assert (exists s', write_all s parts = (s', Ok tt)) as [s' E].
    { revert s Hc. induction parts as [|b parts IH]; intros s Hc; cbn; [by eexists|]. destruct (Hnone s b Hc) as [s' E]. rewrite E.
      apply IH. apply write_ok in E as [_ ->]. by rewrite Hc. }
    rewrite E. apply write_all_ok in E. by rewrite Hc in E.
Qed.
#[export] Instance SliceSink_EncodeSinkLaws : EncodeSinkLaws SliceSink.
Proof.
  assert (Hnone : forall (s : SliceSink) b, remaining_capacity s = None -> exists s', sink_write s b = (s', Ok tt)) by (intros ? ? Hc; discriminate Hc).
  split; intros s parts s'; [|intros e]; intros E; pose proof (default_parts_spec (S := SliceSink) Hnone s parts) as Hs;
    cbn [write_parts SliceSink_EncodeSink] in E; by rewrite E in Hs.
Qed.
#[export] Instance Vec_EncodeSinkLaws : EncodeSinkLaws bytes.
Proof.
  assert (Hnone : forall (s : bytes) b, remaining_capacity s = None -> exists s', sink_write s b = (s', Ok tt)) by (by eexists).
  split; intros s parts s'; [|intros e]; intros E; pose proof (default_parts_spec (S := bytes) Hnone s parts) as Hs;
    cbn [write_parts Vec_EncodeSink] in E; by rewrite E in Hs.
Qed.

(** ** The octets of a value *)

(** An application-tagged value. *)
Definition tagged (tag : Z) (contents : bytes) : bytes := tag_header tag ApplicationTag (Z.of_nat (length contents)) ++ contents.
(** Clause 20.2: every value's encoding. *)
Fixpoint value_octets (v : PropertyValue) : bytes :=
  match v with
  | Null => tag_header TAG_NULL ApplicationTag 0
  | Boolean b => tag_header TAG_BOOLEAN ApplicationTag (Z.b2z b)
  | Unsigned n => tagged TAG_UNSIGNED (unsigned_octets n)
  | Signed n => tagged TAG_SIGNED (signed_octets n)
  | Real bits => tagged TAG_REAL (to_be32 bits)
  | Double bits => tagged TAG_DOUBLE (to_be64 bits)
  | OctetString l => tagged TAG_OCTET_STRING l
  | CharacterString l => tagged TAG_CHARACTER_STRING (CHARSET_UTF8 :: l)
  | BitString unused l => tagged TAG_BIT_STRING (unused :: l)
  | Enumerated n => tagged TAG_ENUMERATED (enumerated_octets n)
  | DateValue d => tagged TAG_DATE (date_encode d)
  | TimeValue t => tagged TAG_TIME (time_encode t)
  | ObjectIdentifierValue o => tagged TAG_OBJECT_IDENTIFIER (oid_encode o)
  | ListValue vs => concat (map value_octets vs)
  | ApplicationData l => l
  end.
(** A length a tag header can say. *)
Definition header_can_say (l : bytes) : Prop := Z.of_nat (length l) <= U32_MAX.
(** The values a header can carry: an enumeration's width, and the length of a string. *)
Fixpoint encodable (v : PropertyValue) : Prop :=
  match v with
  | Enumerated n => is_u32 n
  | OctetString l => header_can_say l
  | CharacterString l => header_can_say (CHARSET_UTF8 :: l)
  | BitString unused l => header_can_say (unused :: l)
  | ListValue vs => fold_right (fun v acc => encodable v /\ acc) True vs
  | _ => True
  end.

Lemma write_scalar_buf (buf l : bytes) : write_scalar buf l = (buf ++ l, Ok (length l)).
Proof. done. Qed.
Lemma write_tagged_buf (buf : bytes) tag class len l : len <= 253 -> (length l <= 8)%nat ->
  expect_buf (write_tagged buf tag class len l) = Some (buf ++ tag_header tag class len ++ l).
Proof. intros Hn Hl. unfold write_tagged. rewrite stage_tagged_eq by done. done. Qed.
Lemma usize_sat_add_small a b : Z.of_nat a + Z.of_nat b <= USIZE_MAX -> usize_sat_add a b = (a + b)%nat.
Proof. intros Hs. unfold usize_sat_add, sat_add. lia. Qed.
Lemma checked_add_small a b : Z.of_nat a + Z.of_nat b <= USIZE_MAX -> checked_add a b = Some (a + b)%nat.
Proof. intros Hs. unfold checked_add. by replace (_ <=? _) with true by lia. Qed.
Lemma write_parts_buf (buf : bytes) (l1 l2 l3 : bytes) : Z.of_nat (length l1 + length l2 + length l3) <= USIZE_MAX ->
  write_parts buf [l1; l2; l3] = (buf ++ l1 ++ l2 ++ l3, Ok tt).
Proof.
  intros Hfit. cbn [write_parts Vec_EncodeSink]. unfold default_write_parts. cbn [fold_left remaining_capacity Vec_FrameSink]. cbv zeta.
  rewrite !checked_add_small by (rewrite ?checked_add_small; lia). cbn. unfold vec_write. by rewrite <-!app_assoc.
Qed.
Lemma write_tagged_parts_buf (buf : bytes) tag class lead payload : Z.of_nat (length lead + length payload) <= U32_MAX ->
  write_tagged_parts buf tag class lead payload =
  Some (buf ++ tag_header tag class (Z.of_nat (length lead + length payload)) ++ lead ++ payload,
        Ok (length (tag_header tag class (Z.of_nat (length lead + length payload))) + (length lead + length payload))%nat).
Proof.
  intros Hfit. unfold write_tagged_parts. rewrite usize_sat_add_small by (unfold USIZE_MAX, U64_MAX, U32_MAX in *; lia). cbv zeta. unfold header_length.
  replace (_ <=? U32_MAX) with true by lia. pose proof (tag_header_length tag class (Z.of_nat (length lead + length payload))) as Hl. unfold MAX_HEADER.
  fold (fresh 7). rewrite header_staged by done. cbn [slice_buf]. rewrite take_app_length.
  rewrite write_parts_buf by (unfold USIZE_MAX, U64_MAX, U32_MAX in *; lia). done.
Qed.
Lemma encode_list_step buf v vs : encode_property_value buf (ListValue (v :: vs)) =
  match encode_property_value buf v with Some (buf, Ok _) => encode_property_value buf (ListValue vs) | other => other end.
Proof. done. Qed.
(** Induction over a value and the values of its lists. *)
Lemma PropertyValue_nested (P : PropertyValue -> Prop) : (forall v, (forall vs, v <> ListValue vs) -> P v) ->
  (forall vs, Forall P vs -> P (ListValue vs)) -> forall v, P v.
Proof.
  intros Hprim Hlist. fix go 1. intros v. destruct v; try (apply Hprim; discriminate). apply Hlist.
  induction values as [|v values IH]; constructor; [apply go|apply IH].
Qed.
Lemma tagged_fixed tag l n : length l = n -> tagged tag l = tag_header tag ApplicationTag (Z.of_nat n) ++ l.
Proof. by intros <-. Qed.
Lemma encode_primitive buf v : encodable v -> (forall vs, v <> ListValue vs) -> encode_property_value buf v = Some (buf ++ value_octets v, Ok tt).
Proof.
  intros Hv Hnl. destruct v; cbn [encode_property_value value_octets encodable] in *; try (by destruct (Hnl values)).
  - unfold encode_app_null, encode_app_null_to_sink. rewrite write_tagged_buf by (cbn; lia). by rewrite app_nil_r.
  - unfold encode_app_boolean, encode_app_boolean_to_sink. rewrite write_tagged_buf by (destruct v; cbn; lia). by rewrite app_nil_r.
  - unfold encode_app_unsigned, encode_app_unsigned_to_sink. pose proof (unsigned_len_range v). rewrite write_tagged_buf; [|lia|rewrite unsigned_octets_length; lia].
    rewrite (tagged_fixed _ _ _ (unsigned_octets_length v)), Z2Nat.id by lia. done.
  - unfold encode_app_signed, encode_app_signed_to_sink. pose proof (signed_len_range v). rewrite write_tagged_buf; [|lia|rewrite signed_octets_length; lia].
    rewrite (tagged_fixed _ _ _ (signed_octets_length v)), Z2Nat.id by lia. done.
  - unfold encode_app_real, encode_app_real_to_sink. by rewrite write_tagged_buf by (cbn; lia).
  - unfold encode_app_double, encode_app_double_to_sink. rewrite write_tagged_buf; [done|lia|rewrite to_be64_length; lia].
  - unfold encode_app_octet_string, encode_tag, saturated_len, header_can_say in *. rewrite Z.min_l by done.
    unfold encode_tag_to_sink, write_header. cbn. unfold vec_write. by rewrite <-app_assoc.
  - unfold encode_app_character_string, encode_app_character_string_to_sink. rewrite write_tagged_parts_buf by done. done.
  - unfold encode_app_bit_string, encode_tag, saturated_len, header_can_say, sat_add in *. cbn [length] in Hv.
    replace (Z.min U32_MAX _) with (Z.of_nat (S (length data))) by (unfold U32_MAX in *; lia).
    unfold encode_tag_to_sink, write_header. cbn [remaining_capacity Vec_FrameSink sink_write vec_write expect_buf mbind option_bind].
    unfold encode_bit_string, encode_bit_string_to_sink, write_contents. cbn [write_parts Vec_EncodeSink]. unfold default_write_parts.
    cbn [fold_left remaining_capacity Vec_FrameSink length]. cbv zeta.
    rewrite !checked_add_small by (unfold USIZE_MAX, U64_MAX, U32_MAX in *; lia). cbn. unfold vec_write, tagged. by rewrite <-!app_assoc.
  - unfold encode_app_enumerated, encode_app_enumerated_to_sink. pose proof (unsigned_len_u32 v Hv). rewrite write_tagged_buf; [|lia|rewrite enumerated_octets_length by done; lia].
    rewrite (tagged_fixed _ _ _ (enumerated_octets_length v Hv)), Z2Nat.id by lia. done.
  - unfold encode_app_date, encode_app_date_to_sink. by rewrite write_tagged_buf by (cbn; lia).
  - unfold encode_app_time, encode_app_time_to_sink. by rewrite write_tagged_buf by (cbn; lia).
  - unfold encode_app_object_id, encode_app_object_id_to_sink. by rewrite write_tagged_buf by (cbn; lia).
  - done.
Qed.
(** The encoder never panics and appends the encoding of every value a tag header can carry, lists element by element. *)
Lemma encode_value_octets v : forall buf, encodable v -> encode_property_value buf v = Some (buf ++ value_octets v, Ok tt).
Proof.
  induction v as [v Hv|vs IH] using PropertyValue_nested; intros buf He; [by apply encode_primitive|].
  revert buf. induction IH as [|v vs Hv _ IHvs]; intros buf; [by rewrite app_nil_r|]. cbn [encodable fold_right] in He. destruct He as [He Hes].
  rewrite encode_list_step, Hv by done. rewrite IHvs by done. cbn. by rewrite <-app_assoc.
Qed.
