(* ===== verification/Primitives.v ===== *)
(** * Decoding values (bacnet-encoding primitives/mod.rs, primitives/view.rs, and the fault kinds of constructed/tagged.rs)

    The contents of each primitive datatype, and the value an application tag announces: once borrowed from the octets it was read from,
    once owned. The borrowed and the owned decoder share [decode_application_primitive], and differ in what they do with text. *)

From Stdlib Require Import String.
From S2P Require Import Prelude Sink WireError Tags Values Utf8.
Open Scope Z_scope.

(** ** What a misplaced tag is *)

(** The walk of [closes_open_frame], the frames open innermost first; it moves at least one octet a step, so [at] steps are enough.
    [closes_open_frame] (bacnet-encoding/src/constructed/tagged.rs:187-211) *)
Fixpoint walk_frames (fuel : nat) (data : bytes) (at_ : nat) (number : Z) (open : list Z) (pos : nat) : bool :=
  if decide (at_ <= pos)%nat then bool_decide (pos = at_) && match open with innermost :: _ => innermost =? number | [] => false end else
  match fuel with
  | O => false
  | S fuel =>
      match decode_tag data pos with
      | Err _ => false
      | Ok (tag, next) =>
          if is_opening tag then
            if decide (length open < MAX_CONTEXT_NESTING_DEPTH)%nat then walk_frames fuel data at_ number (tag_number tag :: open) next else false
          else if is_closing tag then
            match open with
            | [] => false
            | innermost :: rest => if innermost =? tag_number tag then walk_frames fuel data at_ number rest next else false
            end
          else if bool_decide (tag_class tag = ApplicationTag) && (tag_number tag =? TAG_BOOLEAN) then walk_frames fuel data at_ number open next
          else walk_frames fuel data at_ number open (usize_sat_add next (Z.to_nat (tag_length tag)))
      end
  end.
(** [closes_open_frame] (bacnet-encoding/src/constructed/tagged.rs) *)
Definition closes_open_frame (data : bytes) (at_ : nat) (number : Z) : bool := walk_frames at_ data at_ number [] 0.
(** [misplaced_kind] (bacnet-encoding/src/constructed/tagged.rs) *)
Definition misplaced_kind (data : bytes) (at_ : nat) (found : Tag) (expected : option Z) : DecodingKind :=
  let later := match expected with
               | Some number => bool_decide (tag_class found = ContextTag) && negb (is_closing found) && (number <? tag_number found)
               | None => false
               end in
  if later || is_closing found && closes_open_frame data at_ (tag_number found) then Missing else InvalidTag.
(** [misplaced] (bacnet-encoding/src/constructed/tagged.rs) *)
Definition misplaced (data : bytes) (found : Tag) (expected : option Z) (offset : nat) (label : string) : DecodeError :=
  decode_error (misplaced_kind data offset found expected) offset label.
(** [misplaced_tag] (bacnet-encoding/src/constructed/tagged.rs) *)
Definition misplaced_tag (data : bytes) (found : Tag) (expected : option Z) (offset : nat) (label : string) : Error :=
  ErrDecoding (misplaced data found expected offset label).
(** [unclosed_kind] (bacnet-encoding/src/constructed/tagged.rs) *)
Definition unclosed_kind (found : Tag) : DecodingKind := if is_closing found then InvalidTag else Trailing.

(** ** Contents *)

(** [contents_fault] (bacnet-encoding/src/primitives/mod.rs) *)
Definition contents_fault (kind : DecodingKind) (label : string) (value : Z) : Error := ErrDecoding (with_value (decode_error kind 0 label) value).
(** [decode_unsigned] (bacnet-encoding/src/primitives/mod.rs) *)
Definition decode_unsigned (data : bytes) : Result Z Error :=
  if bool_decide (data = []) || (8 <? Z.of_nat (length data)) then
    Err (contents_fault InvalidEncoding "unsigned requires 1-8 bytes, got {}" (Z.of_nat (length data)))
  else Ok (fold_left (fun value b => Z.lor (Z.shiftl value 8 mod 18446744073709551616) b) data 0).
(** [decode_unsigned_u8] (bacnet-encoding/src/primitives/mod.rs) *)
Definition decode_unsigned_u8 (data : bytes) : Result Z Error :=
  let? value := decode_unsigned data in
  if value <=? U8_MAX then Ok value else Err (contents_fault OutOfRange "unsigned value {} exceeds u8" value).
(** [decode_unsigned_u16] (bacnet-encoding/src/primitives/mod.rs) *)
Definition decode_unsigned_u16 (data : bytes) : Result Z Error :=
  let? value := decode_unsigned data in
  if value <=? U16_MAX then Ok value else Err (contents_fault OutOfRange "unsigned value {} exceeds u16" value).
(** [decode_unsigned_u32] (bacnet-encoding/src/primitives/mod.rs) *)
Definition decode_unsigned_u32 (data : bytes) : Result Z Error :=
  let? value := decode_unsigned data in
  if value <=? U32_MAX then Ok value else Err (contents_fault OutOfRange "unsigned value {} exceeds u32" value).
(** [i32::from_be_bytes] of four octets. *)
Definition i32_from_be (l : bytes) : Z :=
  match l with
  | [a; b; c; d] => let x := from_be32 a b c d in if x <=? 2147483647 then x else x - 4294967296
  | _ => 0
  end.
(** [decode_signed] (bacnet-encoding/src/primitives/mod.rs) *)
Definition decode_signed (data : bytes) : Result Z Error :=
  match data with
  | first :: _ =>
      if 4 <? Z.of_nat (length data) then Err (contents_fault InvalidEncoding "signed requires 1-4 bytes, got {}" (Z.of_nat (length data))) else
      let sign_extend := if negb (Z.land first 128 =? 0) then 255 else 0 in
      Ok (i32_from_be (splice (replicate 4 sign_extend) (4 - length data) data))
  | [] => Err (contents_fault InvalidEncoding "signed requires 1-4 bytes, got {}" 0)
  end.
(** [decode_signed_canonical] (bacnet-encoding/src/primitives/mod.rs) *)
Definition decode_signed_canonical (data : bytes) : Result Z Error :=
  match data with
  | first :: next :: _ =>
      if (first =? 0) && (Z.land next 128 =? 0) || (first =? 255) && negb (Z.land next 128 =? 0)
      then Err (decoding 0 "signed contains a redundant sign octet") else decode_signed data
  | _ => decode_signed data
  end.
(** [f32::from_be_bytes] keeps the bits.
    [decode_real] (bacnet-encoding/src/primitives/mod.rs) *)
Definition decode_real (data : bytes) : Result Z Error :=
  match data with
  | [a; b; c; d] => Ok (from_be32 a b c d)
  | _ => Err (contents_fault InvalidEncoding "Real expects exactly 4 bytes, got {}" (Z.of_nat (length data)))
  end.
(** [decode_double] (bacnet-encoding/src/primitives/mod.rs) *)
Definition decode_double (data : bytes) : Result Z Error :=
  match data with
  | [a; b; c; d; e; f; g; h] => Ok (4294967296 * from_be32 a b c d + from_be32 e f g h)
  | _ => Err (contents_fault InvalidEncoding "Double expects exactly 8 bytes, got {}" (Z.of_nat (length data)))
  end.
(** [decode_bit_string_ref] (bacnet-encoding/src/primitives/mod.rs) *)
Definition decode_bit_string_ref (data : bytes) : Result (Z * bytes) Error :=
  match data with
  | [] => Err (decoding 0 "BitString requires at least 1 byte for unused-bits count")
  | unused :: bits =>
      if 7 <? unused then Err (contents_fault InvalidEncoding "BitString unused_bits must be 0-7, got {}" unused) else Ok (unused, bits)
  end.
(** [decode_bit_string] (bacnet-encoding/src/primitives/mod.rs) *)
Definition decode_bit_string (data : bytes) : Result (Z * bytes) Error := decode_bit_string_ref data.

(** ** Text *)

(** [invalid_utf8] (bacnet-encoding/src/primitives/mod.rs) *)
Definition invalid_utf8 (valid_up_to : nat) : Error :=
  ErrDecoding (with_value (decode_error InvalidEncoding 1 "invalid UTF-8 after {} valid octets") (Z.of_nat valid_up_to)).
(** [unknown_charset] (bacnet-encoding/src/primitives/mod.rs) *)
Definition unknown_charset (charset : Z) : Error := contents_fault InvalidEncoding "unknown charset: {}" charset.
(** [as_chunks::<2>]: the characters, big-endian, and what is left over. *)
Fixpoint chunks2 (l : bytes) : list Z * bytes :=
  match l with a :: b :: rest => let '(cs, over) := chunks2 rest in (from_be16 a b :: cs, over) | over => ([], over) end.
(** [as_chunks::<4>]. *)
Fixpoint chunks4 (l : bytes) : list Z * bytes :=
  match l with
  | a :: b :: c :: d :: rest => let '(cs, over) := chunks4 rest in (from_be32 a b c d :: cs, over)
  | over => ([], over)
  end.
(** [iter().position(not_scalar)] *)
Fixpoint first_not_scalar (cs : list Z) : option nat :=
  match cs with [] => None | c :: cs => if is_scalar c then S <$> first_not_scalar cs else Some O end.
(** [check_character_string] (bacnet-encoding/src/primitives/view.rs) *)
Definition check_character_string (contents : bytes) : Result unit Error :=
  match contents with
  | [] => Err (decoding 0 "CharacterString requires at least 1 byte for charset")
  | charset_id :: payload =>
      if charset_id =? CHARSET_UTF8 then let? _ := map_err invalid_utf8 (from_utf8 payload) in Ok tt else
      if (charset_id =? CHARSET_DBCS) && (Z.of_nat (length payload) <? 2) then
        Err (decoding 1 "DBCS CharacterString requires a two-octet code page") else
      if charset_id =? CHARSET_UCS2 then
        let '(characters, over) := chunks2 payload in
        if negb (bool_decide (over = [])) then Err (decoding 1 "UCS-2 data must have even length") else
        match first_not_scalar characters with
        | Some index => Err (decoding (1 + index * 2) "invalid UCS-2 code point")
        | None => Ok tt
        end
      else if charset_id =? CHARSET_UCS4 then
        let '(characters, over) := chunks4 payload in
        if negb (bool_decide (over = [])) then Err (decoding 1 "UCS-4 CharacterString length must be a multiple of four") else
        match first_not_scalar characters with
        | Some index => Err (decoding (1 + index * 4) "invalid UCS-4 code point")
        | None => Ok tt
        end
      else if (charset_id =? CHARSET_DBCS) || (charset_id =? CHARSET_JIS) || (charset_id =? CHARSET_LATIN1) then Ok tt
      else Err (unknown_charset charset_id)
  end.
(** [decode_character_string] (bacnet-encoding/src/primitives/mod.rs) *)
Definition decode_character_string (data : bytes) : Result bytes Error :=
  match data with
  | unsupported :: _ =>
      if (unsupported =? CHARSET_DBCS) || (unsupported =? CHARSET_JIS) || (unsupported =? CHARSET_UCS4)
      then Err (contents_fault Unsupported "unsupported charset: {}" unsupported) else
      let? _ := check_character_string data in
      let payload := drop 1 data in
      Ok (if unsupported =? CHARSET_UCS2 then encode_chars (List.filter is_scalar (chunks2 payload).1)
          else if unsupported =? CHARSET_LATIN1 then encode_chars payload
          else match from_utf8 payload with Ok text => text | Err _ => [] end)
  | [] => let? _ := check_character_string data in Ok []
  end.
(** [CharacterStringRef] is its contents.
    [CharacterStringRef::decode] (bacnet-encoding/src/primitives/view.rs) *)
Definition text_decode (contents : bytes) : Result bytes Error := let? _ := check_character_string contents in Ok contents.
(** [CharacterStringRef::charset] (bacnet-encoding/src/primitives/view.rs) *)
Definition text_charset (contents : bytes) : Z := match contents with c :: _ => c | [] => CHARSET_UTF8 end.
(** [CharacterStringRef::bytes] (bacnet-encoding/src/primitives/view.rs) *)
Definition text_bytes (contents : bytes) : bytes := drop 1 contents.
(** [CharacterStringRef::as_str] (bacnet-encoding/src/primitives/view.rs) *)
Definition text_as_str (contents : bytes) : option bytes :=
  if negb (text_charset contents =? CHARSET_UTF8) then None else match from_utf8 (text_bytes contents) with Ok s => Some s | Err _ => None end.

(** ** Application-tagged values *)

(** [ApplicationValueRef] (bacnet-encoding/src/primitives/view.rs) *)
Inductive ApplicationValueRef :=
| RefNull | RefBoolean (v : bool) | RefUnsigned (v : Z) | RefSigned (v : Z) | RefReal (bits : Z) | RefDouble (bits : Z)
| RefOctetString (v : bytes) | RefCharacterString (contents : bytes) | RefBitString (unused_bits : Z) (data : bytes)
| RefEnumerated (v : Z) | RefDate (v : Date) | RefTime (v : Time) | RefObjectIdentifier (v : ObjectIdentifier).
(** [fixed_length_label] (bacnet-encoding/src/primitives/mod.rs) *)
Definition fixed_length_label (number : Z) : option (string * Z) :=
  if number =? TAG_REAL then Some ("application REAL has {} contents octets, expected 4"%string, 4) else
  if number =? TAG_DOUBLE then Some ("application Double has {} contents octets, expected 8"%string, 8) else
  if number =? TAG_DATE then Some ("application Date has {} contents octets, expected 4"%string, 4) else
  if number =? TAG_TIME then Some ("application Time has {} contents octets, expected 4"%string, 4) else
  if number =? TAG_OBJECT_IDENTIFIER then Some ("application BACnetObjectIdentifier has {} contents octets, expected 4"%string, 4) else None.
(** [rebased] (bacnet-encoding/src/primitives/view.rs) *)
Definition rebased (base : nat) (e : Error) : Error :=
  match e with ErrDecoding refused => ErrDecoding (refused <| de_offset := usize_sat_add (de_offset refused) base |>) | other => other end.
(** The contents by datatype.
    [decode_application_primitive] (bacnet-encoding/src/primitives/view.rs:292-325) *)
Definition primitive_contents (offset : nat) (tag : Tag) (content_start : nat) (content : bytes) (at_ : Error -> Error)
  : Result ApplicationValueRef Error :=
  let number := tag_number tag in
  if number =? TAG_NULL then Ok RefNull else
  if number =? TAG_UNSIGNED then let? v := map_err at_ (decode_unsigned content) in Ok (RefUnsigned v) else
  if number =? TAG_SIGNED then let? v := map_err at_ (decode_signed content) in Ok (RefSigned v) else
  if number =? TAG_REAL then let? v := map_err at_ (decode_real content) in Ok (RefReal v) else
  if number =? TAG_DOUBLE then let? v := map_err at_ (decode_double content) in Ok (RefDouble v) else
  if number =? TAG_OCTET_STRING then Ok (RefOctetString content) else
  if number =? TAG_CHARACTER_STRING then Ok (RefCharacterString content) else
  if number =? TAG_BIT_STRING then let? (unused_bits, data) := map_err at_ (decode_bit_string_ref content) in Ok (RefBitString unused_bits data) else
  if number =? TAG_ENUMERATED then
    let? v := map_err at_ (decode_unsigned content) in
    if v <=? U32_MAX then Ok (RefEnumerated v) else Err (out_of_range content_start "ENUMERATED exceeds u32") else
  if number =? TAG_DATE then let? v := map_err at_ (date_decode content) in Ok (RefDate v) else
  if number =? TAG_TIME then let? v := map_err at_ (time_decode content) in Ok (RefTime v) else
  if number =? TAG_OBJECT_IDENTIFIER then let? v := map_err at_ (oid_decode content) in Ok (RefObjectIdentifier v) else
  Err (ErrDecoding (with_value (decode_error InvalidTag offset "unknown application tag number {}") number)).
(** [decode_application_primitive] (bacnet-encoding/src/primitives/view.rs) *)
Definition decode_application_primitive (in_data : bool) (data : bytes) (offset : nat) (tag : Tag) (content_start : nat)
  : Result (ApplicationValueRef * nat) Error :=
  if is_opening tag || is_closing tag then Err (invalid_tag offset "unexpected opening/closing tag") else
  if (tag_number tag =? TAG_NULL) && negb (tag_length tag =? 0) then Err (decoding offset "application NULL must have no contents") else
  if (tag_number tag =? TAG_BOOLEAN) && (1 <? tag_length tag) then Err (decoding offset "application BOOLEAN L/V/T must be 0 or 1") else
  let? content_end := ok_or (checked_add content_start (Z.to_nat (tag_length tag))) (decoding content_start "length overflow") in
  if tag_number tag =? TAG_BOOLEAN then Ok (RefBoolean (negb (tag_length tag =? 0)), content_start) else
  let read :=
    if decide (length data < content_end)%nat then Err (buffer_too_short content_end (length data)) else
    let content := take (content_end - content_start) (drop content_start data) in
    let? value := primitive_contents offset tag content_start content (fun e => if in_data then rebased content_start e else e) in
    Ok (value, content_end) in
  match fixed_length_label (tag_number tag) with
  | Some (label, octets) =>
      if negb (tag_length tag =? octets) then Err (ErrDecoding (with_value (decode_error InvalidEncoding offset label) (tag_length tag))) else read
  | None => read
  end.
(** [decode_application_value_ref] (bacnet-encoding/src/primitives/view.rs) *)
Definition decode_application_value_ref (data : bytes) (offset : nat) : Result (ApplicationValueRef * nat) Error :=
  let? (tag, content_start) := decode_tag data offset in
  if decide (tag_class tag = ContextTag) then Err (invalid_tag offset "expected an application-tagged value, found a context tag") else
  let? (value, end_) := decode_application_primitive true data offset tag content_start in
  match value with
  | RefCharacterString text =>
      let? checked := map_err (rebased content_start) (text_decode text) in Ok (RefCharacterString checked, end_)
  | value => Ok (value, end_)
  end.
(** The owned value.
    [decode_application_value] (bacnet-encoding/src/primitives/mod.rs:493-512) *)
Definition to_owned (value : ApplicationValueRef) : Result PropertyValue Error :=
  match value with
  | RefNull => Ok Null
  | RefBoolean v => Ok (Boolean v)
  | RefUnsigned v => Ok (Unsigned v)
  | RefSigned v => Ok (Signed v)
  | RefReal v => Ok (Real v)
  | RefDouble v => Ok (Double v)
  | RefOctetString v => Ok (OctetString v)
  | RefCharacterString text => let? s := decode_character_string text in Ok (CharacterString s)
  | RefBitString unused data => Ok (BitString unused data)
  | RefEnumerated v => Ok (Enumerated v)
  | RefDate v => Ok (DateValue v)
  | RefTime v => Ok (TimeValue v)
  | RefObjectIdentifier v => Ok (ObjectIdentifierValue v)
  end.
(** [decode_application_value] (bacnet-encoding/src/primitives/mod.rs) *)
Definition decode_application_value (data : bytes) (offset : nat) : Result (PropertyValue * nat) Error :=
  let? (tag, new_offset) := decode_tag data offset in
  if decide (tag_class tag = ContextTag) then
    if is_opening tag then
      let? (_, after) := extract_context_value data new_offset (tag_number tag) in
      Ok (ApplicationData (take (after - offset) (drop offset data)), after)
    else if is_closing tag then Err (invalid_tag offset "unexpected closing tag") else
    let? content_end := ok_or (checked_add new_offset (Z.to_nat (tag_length tag))) (decoding new_offset "length overflow") in
    if decide (length data < content_end)%nat then Err (buffer_too_short content_end (length data)) else
    Ok (ApplicationData (take (content_end - offset) (drop offset data)), content_end)
  else
    let? (value, end_) := decode_application_primitive false data offset tag new_offset in
    let? value := to_owned value in
    Ok (value, end_).
(** [validate_application_value] (bacnet-encoding/src/primitives/mod.rs) *)
Definition validate_application_value (data : bytes) (offset : nat) : Result nat Error :=
  let? (tag, content_start) := decode_tag data offset in
  if negb (bool_decide (tag_class tag = ApplicationTag)) || is_opening tag || is_closing tag then
    Err (misplaced_tag data tag None offset "expected an application-tagged value")
  else if negb (tag_number tag =? TAG_CHARACTER_STRING) && negb (tag_number tag =? TAG_SIGNED) then
    let? (_, end_) := decode_application_value data offset in Ok end_
  else
    let? content_end := ok_or (checked_add content_start (Z.to_nat (tag_length tag))) (decoding content_start "length overflow") in
    if decide (length data < content_end)%nat then Err (buffer_too_short content_end (length data)) else
    let content := take (content_end - content_start) (drop content_start data) in
    if tag_number tag =? TAG_SIGNED then let? _ := decode_signed_canonical content in Ok content_end
    else let? _ := map_err (rebased content_start) (check_character_string content) in Ok content_end.
