(* ===== verification/PrimitivesTheorems.v ===== *)
(** * What the value decoders read

    The contents of every datatype decode to the value they encode; an encoded value is read back whole, with nothing of what follows it;
    and the borrowed decoder reads what the owned one does. *)

From Stdlib Require Import String.
From S2P Require Import Prelude Sink WireError Tags Values ValuesTheorems Utf8 Primitives.
Open Scope Z_scope.

(** ** Integers *)

(** The octets left once a width is known. *)
Ltac drop_width := match goal with |- context [drop ?n _] => let m := eval vm_compute in n in change n with m end; cbn [drop length].

Lemma lor_disjoint a b k : 0 <= k -> 0 <= b < 2 ^ k -> Z.lor (a * 2 ^ k) b = a * 2 ^ k + b.
Proof.
  intros Hk Hb. assert (Hl : Z.land (a * 2 ^ k) b = 0).
  { apply Z.bits_inj'. intros n Hn. rewrite Z.land_spec, Z.bits_0. destruct (Z.ltb_spec n k).
    - rewrite Z.mul_pow2_bits_low by lia. done.
    - rewrite andb_comm. replace (Z.testbit b n) with false; [done|]. symmetry. destruct (Z.eq_dec b 0) as [->|]; [apply Z.bits_0|].
      apply Z.bits_above_log2; [lia|]. apply Z.log2_lt_pow2; [lia|]. pose proof (Z.pow_le_mono_r 2 k n). lia. }
  rewrite <-Z.lxor_lor, Z.add_nocarry_lxor; done.
Qed.
(** The value of big-endian octets. *)
Definition be_value (l : bytes) : Z := fold_left (fun value b => 256 * value + b) l 0.
Lemma fold_be l : forall acc k, wf_bytes l -> 0 <= acc < 2 ^ (8 * Z.of_nat k) -> (k + length l <= 8)%nat ->
  fold_left (fun value b => Z.lor (Z.shiftl value 8 mod 18446744073709551616) b) l acc = fold_left (fun value b => 256 * value + b) l acc.
Proof.
  induction l as [|b l IH]; intros acc k Hw Ha Hk; [done|]. apply Forall_cons in Hw as [Hb Hw]. cbn [fold_left length] in *.
  assert (2 ^ (8 * Z.of_nat (S k)) = 256 * 2 ^ (8 * Z.of_nat k)) as Hp by (rewrite Nat2Z.inj_succ, Z.mul_succ_r, Z.pow_add_r by lia; lia).
  assert (2 ^ (8 * Z.of_nat (S k)) <= 2 ^ 64) by (apply Z.pow_le_mono_r; lia). unfold is_u8, U8_MAX in Hb.
  rewrite Z.shiftl_mul_pow2, Z.mod_small by lia. rewrite lor_disjoint by lia. replace (acc * 2 ^ 8 + b) with (256 * acc + b) by lia.
  apply (IH _ (S k)); [done| |lia]. lia.
Qed.
Lemma decode_unsigned_value l : wf_bytes l -> (1 <= length l <= 8)%nat -> decode_unsigned l = Ok (be_value l).
Proof.
  intros Hw Hl. unfold decode_unsigned. replace (_ || _) with false by (destruct l; [cbn in *; lia|]; rewrite bool_decide_eq_false_2 by done; cbn [orb]; lia).
  f_equal. apply (fold_be l 0 0); [done|cbn; lia|lia].
Qed.
Lemma be_value_bounds l : wf_bytes l -> 0 <= be_value l < 2 ^ (8 * Z.of_nat (length l)).
Proof.
  intros Hw. unfold be_value. assert (Hg : forall acc k, 0 <= acc < 2 ^ (8 * Z.of_nat k) ->
    0 <= fold_left (fun value b => 256 * value + b) l acc < 2 ^ (8 * Z.of_nat (k + length l))).
  { induction Hw as [|b l Hb _ IH]; intros acc k Ha; cbn [fold_left length]; [by rewrite Nat.add_0_r|]. rewrite Nat.add_succ_r, <-Nat.add_succ_l.
    apply IH. rewrite Nat2Z.inj_succ, Z.mul_succ_r, Z.pow_add_r by lia. unfold is_u8, U8_MAX in Hb. lia. }
  apply (Hg 0 O). cbn. lia.
Qed.
Lemma decode_unsigned_inv l v : wf_bytes l -> decode_unsigned l = Ok v -> (1 <= length l <= 8)%nat /\ v = be_value l /\ is_u64 v.
Proof.
  intros Hw Hd. assert (1 <= length l <= 8)%nat as Hl.
  { unfold decode_unsigned in Hd. destruct l; [done|]. rewrite bool_decide_eq_false_2 in Hd by done. cbn [orb] in Hd. case_match eqn:E; [done|]. cbn [length] in *. lia. }
  rewrite decode_unsigned_value in Hd by done. injection Hd as <-. split; [done|]. split; [done|]. pose proof (be_value_bounds l Hw).
  pose proof (Z.pow_le_mono_r 2 (8 * Z.of_nat (length l)) 64). unfold is_u64, U64_MAX. lia.
Qed.
Lemma unsigned_octets_wf v : is_u64 v -> wf_bytes (unsigned_octets v).
Proof.
  intros Hv. apply Forall_drop. unfold to_be64. unfold is_u64, U64_MAX in Hv. apply Forall_app_2; apply to_be32_wf; unfold is_u32, U32_MAX; Z.div_mod_to_equations; lia.
Qed.
Lemma unsigned_octets_value v : is_u64 v -> be_value (unsigned_octets v) = v.
Proof.
  unfold is_u64, U64_MAX. intros Hv. unfold unsigned_octets, unsigned_len, to_be64, to_be32. cbn [app].
  repeat case_match; drop_width; unfold be_value; cbn [fold_left]; Z.div_mod_to_equations; lia.
Qed.
Lemma decode_unsigned_octets v : is_u64 v -> decode_unsigned (unsigned_octets v) = Ok v.
Proof.
  intros Hv. rewrite decode_unsigned_value; [by rewrite unsigned_octets_value|by apply unsigned_octets_wf|].
  rewrite unsigned_octets_length. pose proof (unsigned_len_range v). lia.
Qed.
Lemma enumerated_octets_same v : is_u32 v -> enumerated_octets v = unsigned_octets v.
Proof.
  intros Hv. unfold enumerated_octets, unsigned_octets, to_be64. pose proof (unsigned_len_u32 v Hv). unfold is_u32, U32_MAX in Hv.
  rewrite drop_app_ge by (cbn [length to_be32]; lia). cbn [length to_be32]. rewrite Z.mod_small by lia.
  replace (8 - Z.to_nat (unsigned_len v) - 4)%nat with (4 - Z.to_nat (unsigned_len v))%nat by lia. done.
Qed.
Lemma u32_u64 v : is_u32 v -> is_u64 v.
Proof. unfold is_u32, is_u64, U32_MAX, U64_MAX. lia. Qed.

Definition is_i32 (v : Z) : Prop := -2147483648 <= v <= 2147483647.
Lemma top_bit b : is_u8 b -> (Z.land b 128 =? 0) = (b <? 128).
Proof. intros Hb. apply eqb_prop. revert b Hb. by_octets. Qed.
Lemma signed_octets_decode v : is_i32 v -> decode_signed (signed_octets v) = Ok v.
Proof.
  unfold is_i32. intros Hv. unfold signed_octets, signed_len, i32_to_be, to_be32.
  assert (0 <= v mod 4294967296 < 4294967296) as Hm by (apply Z.mod_pos_bound; lia).
  assert (v mod 4294967296 = v \/ v mod 4294967296 = v + 4294967296 /\ v < 0) as Hc by (Z.div_mod_to_equations; lia).
  generalize dependent (v mod 4294967296). intros x Hm Hc.
  repeat case_match; drop_width; unfold decode_signed; cbn [length]; cbn [Z.of_nat Pos.of_succ_nat Pos.succ Z.ltb Z.compare Pos.compare Pos.compare_cont];
    rewrite top_bit by (unfold is_u8, U8_MAX; Z.div_mod_to_equations; lia);
    match goal with |- context [?b <? 128] => destruct (Z.ltb_spec b 128) end; cbn [negb splice replicate take drop app Nat.sub length Nat.add i32_from_be]; unfold splice;
    cbn [replicate take drop app Nat.sub length Nat.add i32_from_be]; unfold from_be32;
    match goal with |- context [?b <=? 2147483647] => destruct (Z.leb_spec b 2147483647) end; f_equal; Z.div_mod_to_equations; lia.
Qed.
Lemma decode_real_octets v : is_u32 v -> decode_real (to_be32 v) = Ok v.
Proof. intros Hv. unfold to_be32. cbn [decode_real]. by rewrite from_to_be32. Qed.
Lemma decode_double_octets v : is_u64 v -> decode_double (to_be64 v) = Ok v.
Proof.
  intros Hv. unfold to_be64, to_be32. cbn [decode_double app]. unfold is_u64, U64_MAX in Hv.
  rewrite !from_to_be32 by (unfold is_u32, U32_MAX; Z.div_mod_to_equations; lia). f_equal. Z.div_mod_to_equations; lia.
Qed.

(** ** Object identifiers *)

(** The invariant its constructors keep: a 10-bit type and a 22-bit instance. *)
Definition wf_oid (o : ObjectIdentifier) : Prop := 0 <= object_type o <= 1023 /\ 0 <= instance_number o <= MAX_INSTANCE.
Lemma oid_encode_value o : wf_oid o -> oid_encode o = to_be32 (object_type o * 4194304 + instance_number o).
Proof.
  unfold wf_oid, MAX_INSTANCE. intros [Ht Hi]. unfold oid_encode. rewrite Z.shiftl_mul_pow2, Z.mod_small by lia. by rewrite lor_disjoint by lia.
Qed.
Lemma oid_fields x : is_u32 x -> Z.land (Z.shiftr x 22) 1023 = x / 4194304 /\ Z.land x MAX_INSTANCE = x mod 4194304.
Proof.
  unfold is_u32, U32_MAX, MAX_INSTANCE. intros Hx. change 1023 with (Z.ones 10). change 4194303 with (Z.ones 22). rewrite !Z.land_ones by lia.
  rewrite Z.shiftr_div_pow2 by lia. split; [|done]. apply Z.mod_small. change (2 ^ 22) with 4194304. Z.div_mod_to_equations; lia.
Qed.
Lemma oid_decode_encode o : wf_oid o -> oid_decode (oid_encode o) = Ok o.
Proof.
  intros Ho. rewrite oid_encode_value by done. unfold wf_oid, MAX_INSTANCE in Ho. unfold to_be32. cbn [oid_decode].
  assert (is_u32 (object_type o * 4194304 + instance_number o)) by (unfold is_u32, U32_MAX; lia).
  rewrite from_to_be32 by done. cbv zeta. destruct (oid_fields (object_type o * 4194304 + instance_number o)) as [-> ->]; [done|].
  destruct o as [t i]. cbn [object_type instance_number] in *. repeat f_equal; Z.div_mod_to_equations; lia.
Qed.
Lemma oid_decode_wf l o : wf_bytes l -> oid_decode l = Ok o -> wf_oid o /\ oid_encode o = l.
Proof.
  intros Hw. destruct l as [|a [|b [|c [|d [|? ?]]]]]; try done. cbn [oid_decode]. cbv zeta. intros [= <-].
  repeat (apply Forall_cons in Hw as [? Hw]). pose proof (from_be32_u32 a b c d ltac:(done) ltac:(done) ltac:(done) ltac:(done)) as Hu.
  destruct (oid_fields _ Hu) as [Et Ei]. rewrite Et, Ei. unfold is_u32, U32_MAX in Hu.
  assert (Ho : wf_oid {| object_type := from_be32 a b c d / 4194304; instance_number := from_be32 a b c d mod 4194304 |}).
  { unfold wf_oid, MAX_INSTANCE. cbn. Z.div_mod_to_equations; lia. }
  split; [done|]. rewrite oid_encode_value by done. cbn [object_type instance_number]. rewrite <-(to_from_be32 a b c d) by done. f_equal. Z.div_mod_to_equations; lia.
Qed.
(** A constructor's identifier keeps the invariant, and it refuses exactly the identifiers out of range. *)
Lemma oid_new_spec t i : 0 <= t -> 0 <= i -> 
  (wf_oid {| object_type := t; instance_number := i |} <-> oid_new t i = Ok {| object_type := t; instance_number := i |}).
Proof. intros Ht Hi. unfold wf_oid, oid_new, MAX_INSTANCE. cbn. split; [intros []|]; repeat case_match; (lia || done). Qed.

(** ** Text *)

Definition is_text (l : bytes) : Prop := wf_bytes l /\ exists cs, Forall (fun c => is_scalar c = true) cs /\ l = encode_chars cs.
Lemma decode_utf8_text l : is_text l -> decode_character_string (CHARSET_UTF8 :: l) = Ok l.
Proof. intros (Hw & cs & Hcs & ->). cbn. by rewrite drop_0, from_utf8_chars. Qed.

(** ** Values *)

Definition wf_date (d : Date) : Prop := wf_bytes (date_encode d).
Definition wf_time (t : Time) : Prop := wf_bytes (time_encode t).
(** What a value's Rust type says of it; the decoder yields no list. *)
Definition typed (v : PropertyValue) : Prop :=
  match v with
  | Null | Boolean _ => True
  | Unsigned n | Double n => is_u64 n
  | Signed n => is_i32 n
  | Real n | Enumerated n => is_u32 n
  | OctetString l | ApplicationData l => wf_bytes l
  | CharacterString l => is_text l
  | BitString unused l => 0 <= unused <= 7 /\ wf_bytes l
  | DateValue d => wf_date d
  | TimeValue t => wf_time t
  | ObjectIdentifierValue o => wf_oid o
  | ListValue _ => False
  end.
(** The decoder takes contents of at most [MAX_TAG_LENGTH] octets. *)
Definition carried (v : PropertyValue) : Prop :=
  match v with
  | OctetString l => Z.of_nat (length l) <= MAX_TAG_LENGTH
  | CharacterString l | BitString _ l => Z.of_nat (length l) + 1 <= MAX_TAG_LENGTH
  | _ => True
  end.
Fixpoint wf_value (v : PropertyValue) : Prop :=
  match v with ListValue vs => fold_right (fun v acc => wf_value v /\ acc) True vs | v => typed v /\ carried v end.
Lemma wf_value_encodable v : wf_value v -> encodable v.
Proof.
  induction v as [v Hv|vs IH] using PropertyValue_nested.
  - destruct v; cbn [wf_value typed carried encodable]; unfold header_can_say, MAX_TAG_LENGTH, U32_MAX; cbn [length]; try done; try tauto; try lia. by destruct (Hv values).
  - induction IH as [|v vs Hv _ IHvs]; [done|]. cbn [wf_value encodable fold_right] in *. intros [? ?]. split; [by apply Hv|by apply IHvs].
Qed.

Definition app_tag (number len : Z) : Tag :=
  {| tag_number := number; tag_class := ApplicationTag; tag_length := len; is_opening := false; is_closing := false |}.
Lemma app_tag_header number len : header_of (app_tag number len) = tag_header number ApplicationTag len.
Proof. done. Qed.
Lemma decode_app_tag data offset number len rest : 0 <= number <= 254 -> 0 <= len <= MAX_TAG_LENGTH ->
  starts data offset (tag_header number ApplicationTag len ++ rest) ->
  decode_tag data offset = Ok (app_tag number len, (offset + length (tag_header number ApplicationTag len))%nat) /\
  starts data (offset + length (tag_header number ApplicationTag len)) rest.
Proof.
  intros Hn Hl Hs. apply starts_app in Hs as [Hh Hr]. split; [|done]. rewrite <-app_tag_header. apply decode_tag_header; [|done].
  unfold wf_tag. cbn. split_and!; try done; lia.
Qed.
Section reading.
Context (data : bytes) (Hfit : Z.of_nat (length data) <= ISIZE_MAX).

Lemma starts_take pos l : starts data pos l -> take (length l) (drop pos data) = l.
Proof. intros [k ->]. by rewrite take_app_length. Qed.
(** A tagged value other than a flag or Null: its contents decode by datatype. *)
Lemma decode_tagged in_data offset number l : 2 <= number <= 254 -> Z.of_nat (length l) <= MAX_TAG_LENGTH -> starts data offset (tagged number l) ->
  (forall label octets, fixed_length_label number = Some (label, octets) -> Z.of_nat (length l) = octets) ->
  let start := (offset + length (tag_header number ApplicationTag (Z.of_nat (length l))))%nat in
  decode_tag data offset = Ok (app_tag number (Z.of_nat (length l)), start) /\
  decode_application_primitive in_data data offset (app_tag number (Z.of_nat (length l))) start =
  let? v := primitive_contents offset (app_tag number (Z.of_nat (length l))) start l (fun e => if in_data then rebased start e else e) in
  Ok (v, (offset + length (tagged number l))%nat).
Proof.
  intros Hn Hl Hs Hfix start. unfold tagged in Hs. destruct (decode_app_tag data offset number (Z.of_nat (length l)) l ltac:(lia) ltac:(lia) Hs) as [Ht Hc].
  split; [done|]. fold start in Hc. unfold decode_application_primitive. cbn [is_opening is_closing app_tag orb tag_number tag_length].
  unfold TAG_NULL, TAG_BOOLEAN. replace (number =? 0) with false by lia. replace (number =? 1) with false by lia. cbn [andb].
  assert (Hend : (start + length l <= length data)%nat).
  { destruct l as [|x l]; [|by apply starts_bound]. cbn. rewrite Nat.add_0_r. unfold start.
    pose proof (starts_bound _ _ _ Hs). rewrite app_nil_r in *. apply H. rewrite tag_header_fields. done. }
  rewrite Nat2Z.id, checked_add_small by (unfold USIZE_MAX, U64_MAX, ISIZE_MAX in *; lia). cbn [ok_or rbind].
  replace (start + length l - start)%nat with (length l) by lia. rewrite decide_False by lia. rewrite (starts_take _ _ Hc).
  assert (start + length l = offset + length (tagged number l))%nat as -> by (unfold start, tagged; rewrite length_app; lia).
  destruct (fixed_length_label number) as [[label octets]|] eqn:Hlab; [|done]. rewrite (Hfix _ _ eq_refl), Z.eqb_refl. done.
Qed.
End reading.

(** The borrowed value an owned one is made from, and the text its octets hold. *)
Definition as_ref (v : PropertyValue) : option ApplicationValueRef :=
  match v with
  | Null => Some RefNull
  | Boolean b => Some (RefBoolean b)
  | Unsigned n => Some (RefUnsigned n)
  | Signed n => Some (RefSigned n)
  | Real n => Some (RefReal n)
  | Double n => Some (RefDouble n)
  | OctetString l => Some (RefOctetString l)
  | CharacterString l => Some (RefCharacterString (CHARSET_UTF8 :: l))
  | BitString unused l => Some (RefBitString unused l)
  | Enumerated n => Some (RefEnumerated n)
  | DateValue d => Some (RefDate d)
  | TimeValue t => Some (RefTime t)
  | ObjectIdentifierValue o => Some (RefObjectIdentifier o)
  | ListValue _ | ApplicationData _ => None
  end.
Lemma decode_flag data offset number b in_data : Z.of_nat (length data) <= ISIZE_MAX -> number = TAG_NULL /\ b = false \/ number = TAG_BOOLEAN ->
  starts data offset (tag_header number ApplicationTag (Z.b2z b)) ->
  decode_tag data offset = Ok (app_tag number (Z.b2z b), S offset) /\
  decode_application_primitive in_data data offset (app_tag number (Z.b2z b)) (S offset) =
  Ok (if number =? TAG_NULL then RefNull else RefBoolean b, S offset).
Proof.
  intros Hfit Hn Hs. rewrite <-(app_nil_r (tag_header _ _ _)) in Hs.
  assert (0 <= number <= 1) by (unfold TAG_NULL, TAG_BOOLEAN in Hn; lia).
  destruct (decode_app_tag data offset number (Z.b2z b) [] ltac:(lia) ltac:(unfold MAX_TAG_LENGTH; destruct b; cbn; lia) Hs) as [Ht _].
  assert (length (tag_header number ApplicationTag (Z.b2z b)) = 1%nat) as Hl.
  { rewrite tag_header_fields. unfold number_ext, length_ext. replace (14 <? number) with false by lia. by destruct b. }
  rewrite Hl, Nat.add_1_r in Ht. split; [done|]. rewrite app_nil_r in Hs. pose proof (starts_bound data offset _ Hs) as Hb. rewrite Hl in Hb.
  assert (offset + 1 <= length data)%nat by (apply Hb; rewrite tag_header_fields; done).
  unfold decode_application_primitive. cbn [is_opening is_closing app_tag orb tag_number tag_length].
  destruct Hn as [[-> ->]| ->].
  - cbn [Z.b2z TAG_NULL TAG_BOOLEAN Z.eqb negb andb Z.to_nat]. rewrite checked_add_small by (unfold USIZE_MAX, U64_MAX, ISIZE_MAX in *; lia).
    cbn [ok_or rbind fixed_length_label]. rewrite Nat.add_0_r, decide_False by lia. done.
  - replace (TAG_BOOLEAN =? TAG_NULL) with false by done. replace (1 <? Z.b2z b) with false by (by destruct b). cbn [andb Z.eqb TAG_BOOLEAN Pos.eqb].
    rewrite checked_add_small by (unfold USIZE_MAX, U64_MAX, ISIZE_MAX in *; destruct b; cbn; lia). cbn [ok_or rbind]. by destruct b.
Qed.
Lemma tagged_longer l : Z.of_nat (length l) <= MAX_TAG_LENGTH -> forall number, (length l < length (tagged number l))%nat.
Proof. intros _ number. unfold tagged. rewrite length_app, tag_header_fields. cbn. lia. Qed.
(** Every primitive value is read back from its octets, wherever they stand. *)
Lemma decode_primitive_octets in_data data offset v r : Z.of_nat (length data) <= ISIZE_MAX -> wf_value v -> as_ref v = Some r ->
  starts data offset (value_octets v) ->
  exists tag start, decode_tag data offset = Ok (tag, start) /\ tag_class tag = ApplicationTag /\
    decode_application_primitive in_data data offset tag start = Ok (r, (offset + length (value_octets v))%nat).
Proof.
  intros Hfit Hw Hr Hs.
  assert (Hone : forall number l r, r = r -> value_octets v = tagged number l -> 2 <= number <= 254 -> Z.of_nat (length l) <= MAX_TAG_LENGTH ->
    (forall label octets, fixed_length_label number = Some (label, octets) -> Z.of_nat (length l) = octets) ->
    (forall start at_, primitive_contents offset (app_tag number (Z.of_nat (length l))) start l at_ = Ok r) ->
    exists tag start, decode_tag data offset = Ok (tag, start) /\ tag_class tag = ApplicationTag /\
    decode_application_primitive in_data data offset tag start = Ok (r, (offset + length (value_octets v))%nat)).
  { intros number l r' _ Ev Hn Hl Hfix Hc. rewrite Ev in *. destruct (decode_tagged data Hfit in_data offset number l Hn Hl Hs Hfix) as [Ht Hd].
    eexists _, _. split; [done|]. split; [done|]. rewrite Hd, Hc. done. }
  assert (Hsmall : forall l : bytes, (length l <= 8)%nat -> Z.of_nat (length l) <= MAX_TAG_LENGTH) by (intros; unfold MAX_TAG_LENGTH; lia).
  destruct v; cbn [as_ref wf_value typed carried] in *; try done; injection Hr as <-; destruct Hw as [Hw Hcar].
  - destruct (decode_flag data offset TAG_NULL false in_data Hfit ltac:(auto) Hs) as [? Hd]. eexists _, _. split; [done|]. split; [done|]. rewrite Hd. cbn. by rewrite Nat.add_1_r.
  - destruct (decode_flag data offset TAG_BOOLEAN v in_data Hfit ltac:(auto) Hs) as [? Hd]. eexists _, _. split; [done|]. split; [done|]. rewrite Hd.
    destruct v; cbn; by rewrite Nat.add_1_r.
  - apply (Hone TAG_UNSIGNED (unsigned_octets v)); try done; [apply Hsmall; rewrite unsigned_octets_length; pose proof (unsigned_len_range v); lia|].
    intros. cbn. by rewrite decode_unsigned_octets.
  - apply (Hone TAG_SIGNED (signed_octets v)); try done; [apply Hsmall; rewrite signed_octets_length; pose proof (signed_len_range v); lia|].
    intros. cbn. by rewrite signed_octets_decode.
  - apply (Hone TAG_REAL (to_be32 bits)); try done; [by intros ? ? [= <- <-]|]. intros. unfold primitive_contents. cbn [tag_number app_tag]. cbn -[decode_real to_be32]. by rewrite decode_real_octets.
  - apply (Hone TAG_DOUBLE (to_be64 bits)); try done; [by intros ? ? [= <- <-]|]. intros. cbn -[decode_double to_be64]. by rewrite decode_double_octets.
  - apply (Hone TAG_OCTET_STRING v); try done.
  - apply (Hone TAG_CHARACTER_STRING (CHARSET_UTF8 :: v)); try done. cbn [length]. lia.
  - apply (Hone TAG_BIT_STRING (unused_bits :: data0)); try done; [cbn [length]; lia|]. intros. cbn. replace (7 <? unused_bits) with false by lia. done.
  - apply (Hone TAG_ENUMERATED (enumerated_octets v)); try done.
    + apply Hsmall. rewrite enumerated_octets_length by done. pose proof (unsigned_len_range v). lia.
    + intros. rewrite enumerated_octets_same by done. cbn -[U32_MAX]. rewrite decode_unsigned_octets by (by apply u32_u64). cbn [map_err rbind].
      unfold is_u32 in Hw. by replace (v <=? U32_MAX) with true by lia.
  - apply (Hone TAG_DATE (date_encode v)); try done; [by intros ? ? [= <- <-]|]. intros. by destruct v.
  - apply (Hone TAG_TIME (time_encode v)); try done; [by intros ? ? [= <- <-]|]. intros. by destruct v.
  - apply (Hone TAG_OBJECT_IDENTIFIER (oid_encode v)); try done; [by intros ? ? [= <- <-]|]. intros. cbn -[oid_decode oid_encode]. by rewrite oid_decode_encode.
Qed.
Lemma as_ref_owned v r : wf_value v -> as_ref v = Some r -> to_owned r = Ok v.
Proof.
  destruct v; cbn [as_ref wf_value typed carried]; try done; intros Hw; intros [= <-]; cbn [to_owned]; try done. rewrite decode_utf8_text by tauto. done.
Qed.
Lemma as_ref_primitive v : is_primitive v = true -> exists r, as_ref v = Some r.
Proof. destruct v; try done; by eexists. Qed.
Lemma decode_value_octets data offset v : Z.of_nat (length data) <= ISIZE_MAX -> wf_value v -> is_primitive v = true -> starts data offset (value_octets v) ->
  decode_application_value data offset = Ok (v, (offset + length (value_octets v))%nat).
Proof.
  intros Hfit Hw Hp Hs. destruct (as_ref_primitive v Hp) as [r Hr]. destruct (decode_primitive_octets false data offset v r Hfit Hw Hr Hs) as (tag & start & Ht & Hc & Hd).
  unfold decode_application_value. rewrite Ht. cbn [rbind]. rewrite Hc, decide_False by done. rewrite Hd. cbn [rbind]. by rewrite (as_ref_owned v r).
Qed.
Lemma decode_ref_octets data offset v r : Z.of_nat (length data) <= ISIZE_MAX -> wf_value v -> as_ref v = Some r -> starts data offset (value_octets v) ->
  decode_application_value_ref data offset = Ok (r, (offset + length (value_octets v))%nat).
Proof.
  intros Hfit Hw Hr Hs. destruct (decode_primitive_octets true data offset v r Hfit Hw Hr Hs) as (tag & start & Ht & Hc & Hd).
  unfold decode_application_value_ref. rewrite Ht. cbn [rbind]. rewrite Hc, decide_False by done. rewrite Hd. cbn [rbind].
  destruct v; cbn [as_ref] in *; try done; injection Hr as <-; try done. cbn [wf_value typed carried] in Hw. destruct Hw as [(Hwb & cs & Hcs & ->) _].
  unfold text_decode. cbn. by rewrite from_utf8_chars.
Qed.
(** ** What is decoded *)

Lemma decode_tag_bounds data offset t pos : wf_bytes data -> decode_tag data offset = Ok (t, pos) -> (offset < pos <= length data)%nat.
Proof.
  intros Hw Ht. apply decode_tag_inv in Ht as (_ & Hs & ->); [|done]. pose proof (header_nonempty t). pose proof (starts_bound _ _ _ Hs) as Hb.
  destruct (header_of t); [cbn in *; lia|]. specialize (Hb ltac:(done)). lia.
Qed.
Lemma slice_wf (data : bytes) a b : wf_bytes data -> wf_bytes (take a (drop b data)).
Proof. intros Hw. by apply Forall_take, Forall_drop. Qed.
Lemma i32_from_be_range l : wf_bytes l -> is_i32 (i32_from_be l).
Proof.
  intros Hw. destruct l as [|a [|b [|c [|d [|? ?]]]]]; try (unfold is_i32; cbn; lia). repeat (apply Forall_cons in Hw as [? Hw]).
  cbn [i32_from_be]. cbv zeta. pose proof (from_be32_u32 a b c d ltac:(done) ltac:(done) ltac:(done) ltac:(done)) as Hu. unfold is_u32, U32_MAX, is_i32 in *.
  destruct (Z.leb_spec (from_be32 a b c d) 2147483647); lia.
Qed.
Lemma decode_signed_i32 l v : wf_bytes l -> decode_signed l = Ok v -> is_i32 v.
Proof.
  intros Hw. destruct l as [|first l]; [done|]. unfold decode_signed. case_match; [done|]. intros [= <-]. apply i32_from_be_range.
  unfold splice. repeat apply Forall_app_2; [|done|]; [apply Forall_take|apply Forall_drop]; repeat (apply Forall_cons_2; [by case_match|]); apply Forall_nil_2.
Qed.
Lemma decode_real_u32 l v : wf_bytes l -> decode_real l = Ok v -> is_u32 v.
Proof.
  intros Hw. destruct l as [|a [|b [|c [|d [|? ?]]]]]; try done. repeat (apply Forall_cons in Hw as [? Hw]). intros [= <-]. by apply from_be32_u32.
Qed.
Lemma decode_double_u64 l v : wf_bytes l -> decode_double l = Ok v -> is_u64 v.
Proof.
  intros Hw. destruct l as [|a [|b [|c [|d [|e [|f [|g [|h [|? ?]]]]]]]]]; try done. repeat (apply Forall_cons in Hw as [? Hw]). intros [= <-].
  pose proof (from_be32_u32 a b c d ltac:(done) ltac:(done) ltac:(done) ltac:(done)). pose proof (from_be32_u32 e f g h ltac:(done) ltac:(done) ltac:(done) ltac:(done)).
  unfold is_u32, is_u64, U32_MAX, U64_MAX in *. lia.
Qed.
Lemma date_decode_wf l d : wf_bytes l -> date_decode l = Ok d -> wf_date d /\ date_encode d = l.
Proof. intros Hw. destruct l as [|? [|? [|? [|? [|? ?]]]]]; try done. by intros [= <-]. Qed.
Lemma time_decode_wf l t : wf_bytes l -> time_decode l = Ok t -> wf_time t /\ time_encode t = l.
Proof. intros Hw. destruct l as [|? [|? [|? [|? [|? ?]]]]]; try done. by intros [= <-]. Qed.
Lemma bit_string_wf l unused bits : wf_bytes l -> decode_bit_string_ref l = Ok (unused, bits) -> 0 <= unused <= 7 /\ wf_bytes bits /\ l = unused :: bits.
Proof.
  intros Hw. destruct l as [|u l]; [done|]. apply Forall_cons in Hw as [Hu Hw]. cbn. destruct (Z.ltb_spec 7 u); [done|]. intros [= <- <-].
  unfold is_u8 in Hu. split_and!; (lia || done).
Qed.
Lemma latin1_scalar l : wf_bytes l -> Forall (fun c => is_scalar c = true) l.
Proof. intros Hw. eapply Forall_impl; [exact Hw|]. intros c Hc. unfold is_u8, U8_MAX in Hc. unfold is_scalar. lia. Qed.
Lemma decode_text_typed l t : wf_bytes l -> decode_character_string l = Ok t -> is_text t.
Proof.
  intros Hw. destruct l as [|charset payload]; [done|]. apply Forall_cons in Hw as [_ Hw]. unfold decode_character_string. case_match; [done|].
  destruct (check_character_string (charset :: payload)); [|done]. cbn [rbind drop]. rewrite drop_0. intros [= <-]. case_match.
  - assert (Forall (fun c => is_scalar c = true) (List.filter is_scalar (chunks2 payload).1)) as Hf by (apply Forall_forall; intros c Hc%list_elem_of_In; by apply filter_In in Hc as [_ ?]).
    split; [by apply encode_chars_wf|eauto].
  - case_match; [pose proof (latin1_scalar payload Hw); split; [by apply encode_chars_wf|eauto]|].
    destruct (from_utf8 payload) as [s|] eqn:Hs; [|split; [constructor|by exists []]]. apply from_utf8_ok in Hs as [-> ?]; [|done]. by split.
Qed.
(** The bounds of a value an application tag announces, and its type once owned. *)
Lemma primitive_contents_typed offset tag start content at_ r v : wf_bytes content -> primitive_contents offset tag start content at_ = Ok r -> to_owned r = Ok v ->
  typed v /\ is_primitive v = true.
Proof.
  intros Hw Hp Ho. unfold primitive_contents in Hp. repeat case_match; try discriminate Hp;
    try (destruct (decode_unsigned content) eqn:Hc; [apply decode_unsigned_inv in Hc as (_ & _ & ?); [|done]|discriminate Hp]);
    try (destruct (decode_signed content) eqn:Hc; [apply decode_signed_i32 in Hc; [|done]|discriminate Hp]);
    try (destruct (decode_real content) eqn:Hc; [apply decode_real_u32 in Hc; [|done]|discriminate Hp]);
    try (destruct (decode_double content) eqn:Hc; [apply decode_double_u64 in Hc; [|done]|discriminate Hp]);
    try (destruct (date_decode content) eqn:Hc; [apply date_decode_wf in Hc as [? _]; [|done]|discriminate Hp]);
    try (destruct (time_decode content) eqn:Hc; [apply time_decode_wf in Hc as [? _]; [|done]|discriminate Hp]);
    try (destruct (oid_decode content) eqn:Hc; [apply oid_decode_wf in Hc as [? _]; [|done]|discriminate Hp]);
    try (destruct (decode_bit_string_ref content) as [[]|] eqn:Hc; [apply bit_string_wf in Hc as (? & ? & _); [|done]|discriminate Hp]);
    cbn [map_err rbind] in Hp.
  all: try (case_match eqn:Hlim; [|discriminate Hp]).
  all: injection Hp as <-; cbn [to_owned] in Ho.
  all: try (destruct (decode_character_string content) eqn:Hc; [apply decode_text_typed in Hc; [|done]|discriminate Ho]; cbn [rbind] in Ho).
  all: injection Ho as <-; cbn [typed is_primitive]; split; try done.
  unfold is_u64, is_u32 in *. lia.
Qed.
Lemma application_primitive_typed in_data data offset tag start r v end_ : wf_bytes data -> (start <= length data)%nat ->
  decode_application_primitive in_data data offset tag start = Ok (r, end_) -> to_owned r = Ok v ->
  typed v /\ is_primitive v = true /\ (start <= end_ <= length data)%nat.
Proof.
  intros Hw Hst. unfold decode_application_primitive. repeat (case_match; [done|]). destruct (checked_add _ _) as [e|] eqn:Ha; [|done]. cbn [ok_or rbind].
  unfold checked_add in Ha. destruct (_ <=? USIZE_MAX) in Ha; [|done]. injection Ha as <-. case_match.
  { intros [= <- <-]. intros [= <-]. done. }
  assert (Hread : forall l, (if decide (length data < start + Z.to_nat (tag_length tag))%nat then Err (buffer_too_short (start + Z.to_nat (tag_length tag)) (length data))
    else let? value := primitive_contents offset tag start (take l (drop start data)) (fun e => if in_data then rebased start e else e) in
    Ok (value, (start + Z.to_nat (tag_length tag))%nat)) = Ok (r, end_) -> to_owned r = Ok v -> typed v /\ is_primitive v = true /\ (start <= end_ <= length data)%nat).
  { intros l. case_decide; [done|]. destruct (primitive_contents _ _ _ _ _) eqn:Hp; [|done]. cbn [rbind]. intros [= <- <-] Ho.
    destruct (primitive_contents_typed _ _ _ _ _ _ _ (slice_wf data l start Hw) Hp Ho). split_and!; (done || lia). }
  destruct (fixed_length_label _) as [[]|]; [match goal with |- (if ?b then _ else _) = _ -> _ => destruct b end; [done|]|]; apply Hread.
Qed.
(** ** Context-tagged elements *)

(** What the owned decoder keeps as it is: contents under a context tag, or values framed in one. *)
Inductive context_element : bytes -> Prop :=
| ce_contents t contents : wf_tag t -> tag_class t = ContextTag -> is_opening t || is_closing t = false ->
    Z.of_nat (length contents) = tag_length t -> context_element (header_of t ++ contents)
| ce_nested number body : 0 <= number <= 254 -> elements 31 body ->
    context_element (header_of (opens number) ++ body ++ header_of (closes number)).
Lemma context_element_element e : context_element e -> element 32 e.
Proof.
  intros [t contents Ht Hc Hm Hl|number body Hn Hb]; [apply el_contents; try done|by apply el_nested]. unfold is_flag. by rewrite Hc.
Qed.
Lemma starts_slice data pos l : starts data pos l -> forall n, n = length l -> take n (drop pos data) = l.
Proof. intros [k ->] n ->. by rewrite take_app_length. Qed.
Lemma app_nonempty (t : Tag) (l : bytes) : header_of t ++ l <> [].
Proof. pose proof (header_nonempty t). destruct (header_of t); [cbn in *; lia|done]. Qed.
Lemma context_element_nonempty e : context_element e -> e <> [].
Proof. intros []; apply app_nonempty. Qed.
Lemma context_inv data offset v end_ t start : wf_bytes data -> Z.of_nat (length data) <= ISIZE_MAX -> decode_tag data offset = Ok (t, start) -> tag_class t = ContextTag ->
  decode_application_value data offset = Ok (v, end_) ->
  exists e, v = ApplicationData e /\ context_element e /\ starts data offset e /\ end_ = (offset + length e)%nat.
Proof.
  intros Hw Hfit Ht Hc. unfold decode_application_value. rewrite Ht. cbn [rbind]. rewrite Hc, decide_True by done.
  pose proof (decode_tag_inv _ _ _ _ Hw Ht) as (Hwt & Hs & ->). destruct (is_opening t) eqn:Ho.
  - destruct (extract_context_value _ _ _) as [[content after]|] eqn:He; [|done]. cbn [rbind]. intros [= <- <-].
    apply extract_iff in He as (Hn & Hel & Hs2 & ->); [|done..]. rewrite header_opens in Hs, Hs2 |- * by done.
    assert (Hall : starts data offset (header_of (opens (tag_number t)) ++ content ++ header_of (closes (tag_number t)))) by (by apply starts_app).
    eexists. split; [|split; [by apply (ce_nested (tag_number t) content)|split; [done|]]]; [f_equal; apply (starts_slice _ _ _ Hall)|]; rewrite !length_app; lia.
  - destruct (is_closing t) eqn:Hcl; [done|]. destruct (checked_add _ _) as [e|] eqn:Ha; [|done]. cbn [ok_or rbind]. case_decide; [done|]. intros [= <- <-].
    unfold checked_add in Ha. case_match; [|done]. injection Ha as <-. set (l := take (Z.to_nat (tag_length t)) (drop (offset + length (header_of t)) data)).
    assert (Hl : length l = Z.to_nat (tag_length t)) by (unfold l; rewrite length_take, length_drop; lia).
    assert (Hall : starts data offset (header_of t ++ l)).
    { apply starts_app. split; [done|]. exists (drop (Z.to_nat (tag_length t)) (drop (offset + length (header_of t)) data)). unfold l. by rewrite take_drop. }
    exists (header_of t ++ l). split; [|split; [apply ce_contents; [done|done|by rewrite Ho, Hcl|destruct Hwt as (_ & ? & _); lia]|split; [done|rewrite length_app; lia]]].
    f_equal. apply (starts_slice _ _ _ Hall). rewrite length_app. lia.
Qed.
Lemma decode_context_octets data offset e : wf_bytes data -> Z.of_nat (length data) <= ISIZE_MAX -> context_element e -> starts data offset e ->
  decode_application_value data offset = Ok (ApplicationData e, (offset + length e)%nat).
Proof.
  intros Hw Hfit He Hs. pose proof (starts_slice data offset e Hs) as Hsl. pose proof (starts_bound data offset e Hs) as Hb. unfold decode_application_value.
  destruct He as [t contents Ht Hc Hm Hl|number body Hn Hel]; specialize (Hb (app_nonempty _ _)); rewrite length_app in Hb, Hsl |- *; apply starts_app in Hs as [Hh Hs].
  - rewrite (decode_tag_header data offset t Ht Hh). cbn [rbind]. rewrite Hc, decide_True by done. apply orb_false_elim in Hm as [-> ->].
    rewrite checked_add_small by (unfold USIZE_MAX, U64_MAX, ISIZE_MAX in *; lia). cbn [ok_or rbind]. rewrite decide_False by lia.
    rewrite Hsl by lia. do 2 f_equal; lia.
  - rewrite (decode_tag_header data offset (opens number) (opens_wf number Hn) Hh). cbn [rbind opens tag_class is_opening tag_number]. rewrite decide_True by done.
    fold (opens number). assert (extract_context_value data (offset + length (header_of (opens number))) number =
      Ok (body, (offset + length (header_of (opens number)) + length body + length (header_of (closes number)))%nat)) as -> by (by apply extract_iff).
    cbn [rbind]. rewrite length_app in Hsl |- *. rewrite Hsl by lia. do 2 f_equal; lia.
Qed.
(** What the first octet of an element says: its class in bit 3, and a tag number below 15 in its high nibble. *)
Lemma first_octet data offset t pos : decode_tag data offset = Ok (t, pos) -> exists b, data !! offset = Some b /\
  (tag_class t = if Z.testbit b 3 then ContextTag else ApplicationTag) /\ (tag_number t < 15 -> Z.land (Z.shiftr b 4) 15 = tag_number t).
Proof.
  unfold decode_tag. destruct (data !! offset) as [b|]; [|done]. cbv zeta. assert (Hbit : (Z.land (Z.shiftr b 3) 1 =? 1) = Z.testbit b 3).
  { change 1 with (Z.ones 1) at 1. rewrite Z.land_ones by lia. change (2 ^ 1) with 2. rewrite <-Z.bit0_mod, Z.shiftr_spec by lia. change (0 + 3) with 3. by destruct (Z.testbit b 3). }
  rewrite Hbit. set (class := if Z.testbit b 3 then ContextTag else ApplicationTag). set (nibble := Z.land (Z.shiftr b 4) 15).
  destruct (_ && _); [done|]. destruct (decode_number data nibble (S offset)) as [[number p]|] eqn:En; [|done]. cbn [rbind].
  assert (Hnum : number < 15 -> nibble = number).
  { revert En. unfold decode_number. repeat case_match; intros; simplify_eq; try done; lia. }
  intros Ht. exists b. split; [done|]. revert Ht. destruct (_ && _); [by intros [= <- _]|]. destruct (_ && _); [by intros [= <- _]|].
  destruct (decode_length _ _ _) as [[l p']|]; [|done]. cbn [rbind]. destruct (_ <? _); [done|]. by intros [= <- _].
Qed.
(** The application tag number of a primitive's datatype. *)
Definition datatype (v : PropertyValue) : option Z :=
  match v with
  | Null => Some 0 | Boolean _ => Some 1 | Unsigned _ => Some 2 | Signed _ => Some 3 | Real _ => Some 4 | Double _ => Some 5 | OctetString _ => Some 6
  | CharacterString _ => Some 7 | BitString _ _ => Some 8 | Enumerated _ => Some 9 | DateValue _ => Some 10 | TimeValue _ => Some 11
  | ObjectIdentifierValue _ => Some 12 | ListValue _ | ApplicationData _ => None
  end.
Lemma primitive_contents_datatype offset t start content at_ r v : primitive_contents offset t start content at_ = Ok r -> to_owned r = Ok v -> datatype v = Some (tag_number t).
Proof.
  unfold primitive_contents.
  repeat (match goal with |- (if tag_number t =? ?k then _ else _) = _ -> _ => destruct (Z.eqb_spec (tag_number t) k) as [->|_];
    [repeat (match goal with |- context [rbind ?m _] => let E := fresh in destruct m eqn:E; [|done]; cbn [rbind] end); try case_match; try done; intros [= <-]; cbn [to_owned];
     try (intros [= <-]; done)|] end); [|done].
  destruct (decode_character_string _); [|done]. cbn [rbind]. by intros [= <-].
Qed.
Lemma application_primitive_datatype in_data data offset t start r v end_ :
  decode_application_primitive in_data data offset t start = Ok (r, end_) -> to_owned r = Ok v -> datatype v = Some (tag_number t).
Proof.
  unfold decode_application_primitive. repeat (case_match; [done|]). destruct (checked_add _ _) as [e|]; [|done]. cbn [ok_or rbind].
  destruct (Z.eqb_spec (tag_number t) TAG_BOOLEAN) as [->|]; [intros [= <- <-]; by intros [= <-]|].
  intros Hd Ho. assert (Hc : exists content at_, primitive_contents offset t start content at_ = Ok r).
  { clear H H0 H1. revert Hd. destruct (fixed_length_label _) as [[]|]; [destruct (negb _); [done|]|]; (case_decide; [done|]);
      match goal with |- context [primitive_contents ?a ?b ?c ?d ?e] => destruct (primitive_contents a b c d e) as [r'|] eqn:E end; try done;
      cbn [rbind]; intros [= <- <-]; eauto. }
  destruct Hc as (content & at_ & Hc). by eapply primitive_contents_datatype.
Qed.
(** C25: whatever octets it is given, the owned decoder yields only values their types allow, and stops after at least one octet and
    within the data. Bit 3 of the first octet, the tag's class, settles which: a context-tagged element is kept whole, exactly as it
    stood; an application-tagged one is read as the primitive datatype its tag number names. *)
Theorem decode_value_sound data offset v end_ : wf_bytes data -> Z.of_nat (length data) <= ISIZE_MAX ->
  decode_application_value data offset = Ok (v, end_) ->
  typed v /\ (offset < end_ <= length data)%nat /\
  exists initial, data !! offset = Some initial /\
    if Z.testbit initial 3 then exists e, v = ApplicationData e /\ context_element e /\ starts data offset e /\ end_ = (offset + length e)%nat
    else datatype v = Some (Z.land (Z.shiftr initial 4) 15).
Proof.
  intros Hw Hfit Hd. pose proof Hd as Hd'. unfold decode_application_value in Hd. destruct (decode_tag data offset) as [[t start]|] eqn:Ht; [|done]. cbn [rbind] in Hd.
  pose proof (decode_tag_bounds _ _ _ _ Hw Ht). destruct (first_octet _ _ _ _ Ht) as (b & Hb & Hclass & Hnum). case_decide as Hc.
  - destruct (context_inv _ _ _ _ _ _ Hw Hfit Ht Hc Hd') as (e & -> & He & Hs & ->). split.
    { cbn. pose proof Hs as [k Hk]. apply (Forall_drop _ offset) in Hw. change (Forall is_u8 (drop offset data)) in Hw. rewrite Hk in Hw. by apply Forall_app in Hw as [? _]. }
    split; [pose proof (context_element_nonempty e He) as Hne; pose proof (starts_bound _ _ _ Hs Hne); destruct e; [done|]; cbn [length] in *; lia|].
    exists b. split; [done|]. rewrite Hc in Hclass. destruct (Z.testbit b 3); [|done]. by exists e.
  - destruct (decode_application_primitive _ _ _ _ _) as [[r end']|] eqn:Hp; [|done]. cbn [rbind] in Hd. destruct (to_owned r) as [v'|] eqn:Ho; [|done]. injection Hd as <- <-.
    destruct (application_primitive_typed false data offset t start r v' end' Hw ltac:(lia) Hp Ho) as (? & ? & ?). split; [done|]. split; [lia|].
    exists b. split; [done|]. destruct (Z.testbit b 3); [done|]. pose proof (application_primitive_datatype _ _ _ _ _ _ _ _ Hp Ho) as Hdt. rewrite Hdt. f_equal.
    symmetry. apply Hnum. destruct v'; cbn in Hdt; try done; injection Hdt as <-; lia.
Qed.
Lemma decode_value_sound_witness : typed (ApplicationData [62; 33; 7; 63]).
Proof.
  apply (decode_value_sound [62; 33; 7; 63; 0] 0 _ 4); [by repeat constructor|done|vm_compute; reflexivity].
Defined.

(** ** Round trip *)

(** C24: a primitive value of any datatype that its type allows (a bit string's unused bits 0 to 7, text of Unicode characters, numbers of their width, the
    fields of a date, time or object identifier in their octets) and whose contents fit the decoder's limit of 1,048,576 octets is appended to a
    buffer as its encoding, without a panic; and from the buffer, whatever stands before and after it, the owned decoder reads back
    the same value, the borrowed decoder the same value in place, each leaving off right after it. The buffer is no larger than an allocation can be. *)
Theorem value_encode_decode v buf rest : wf_value v -> is_primitive v = true ->
  Z.of_nat (length (buf ++ value_octets v ++ rest)) <= ISIZE_MAX ->
  let data := buf ++ value_octets v ++ rest in
  let end_ := (length buf + length (value_octets v))%nat in
  encode_property_value buf v = Some (buf ++ value_octets v, Ok tt) /\
  decode_application_value data (length buf) = Ok (v, end_) /\
  exists r, as_ref v = Some r /\ decode_application_value_ref data (length buf) = Ok (r, end_).
Proof.
  intros Hw Hp Hfit data end_. pose proof (starts_here buf (value_octets v) rest) as Hs. split; [by apply encode_value_octets, wf_value_encodable|].
  split; [by apply decode_value_octets|]. destruct (as_ref_primitive v Hp) as [r Hr]. exists r. split; [done|]. by apply decode_ref_octets.
Qed.
Lemma value_encode_decode_witness :
  encode_property_value [0] (CharacterString [206; 169]) = Some ([0; 115; 0; 206; 169], Ok tt) /\
  decode_application_value [0; 115; 0; 206; 169; 17] 1 = Ok (CharacterString [206; 169], 5%nat).
Proof.
  destruct (value_encode_decode (CharacterString [206; 169]) [0] [17]) as (He & Hd & _).
  - cbn [wf_value typed carried]. split; [|done]. split; [by repeat constructor|]. exists [937]. split; [by repeat constructor|reflexivity].
  - reflexivity.
  - done.
  - split; [exact He|exact Hd].
Defined.
