(* ===== verification/Tagged.v ===== *)
(** * Reading tagged members (bacnet-encoding constructed/tagged.rs, primitives/timestamp.rs, primitives/priority_value.rs)

    What the decoders of the constructed productions are made of: peeks at the next tag, frames, and one reader per datatype, under a
    context or an application tag. A reader is given the data and an offset and returns the value and the offset past it. *)

From Stdlib Require Import String.
From S2P Require Import Prelude Sink WireError Tags Values Utf8 Primitives.
Open Scope Z_scope.
Local Notation "a +:+ b" := (String.append a b) (at level 60, right associativity).

(** ** Peeking *)

(** [next_tag_is] (bacnet-encoding/src/constructed/tagged.rs) *)
Definition next_tag_is (data : bytes) (offset : nat) (test : Tag -> bool) : Result bool Error :=
  if decide (length data <= offset)%nat then Ok false else let? (tag, _) := decode_tag data offset in Ok (test tag).
(** [next_is_context] (bacnet-encoding/src/constructed/tagged.rs) *)
Definition next_is_context (data : bytes) (offset : nat) (tag : Z) : Result bool Error := next_tag_is data offset (fun t => is_context t tag).
(** [next_is_opening] (bacnet-encoding/src/constructed/tagged.rs) *)
Definition next_is_opening (data : bytes) (offset : nat) (tag : Z) : Result bool Error := next_tag_is data offset (fun t => is_opening_tag t tag).
(** [next_is_application] (bacnet-encoding/src/constructed/tagged.rs) *)
Definition next_is_application (data : bytes) (offset : nat) (number : Z) : Result bool Error :=
  next_tag_is data offset (fun t => bool_decide (tag_class t = ApplicationTag) && (tag_number t =? number)).
(** [next_is_closing] (bacnet-encoding/src/constructed/tagged.rs) *)
Definition next_is_closing (data : bytes) (offset : nat) (tag : Z) : Result bool Error :=
  let? (t, _) := decode_tag data offset in Ok (is_closing_tag t tag).

(** ** Frames *)

(** [misplaced_member] (bacnet-encoding/src/constructed/tagged.rs) *)
Definition misplaced_member (data : bytes) (found : Tag) (expected : option Z) (offset : nat) (what label : string) (named : Z) : Error :=
  ErrDecoding (with_value (within (misplaced data found expected offset label) what) named).
(** [expect_opening] (bacnet-encoding/src/constructed/tagged.rs) *)
Definition expect_opening (data : bytes) (offset : nat) (tag : Z) (what : string) : Result nat Error :=
  let? (t, pos) := decode_tag data offset in
  if negb (is_opening_tag t tag) then Err (misplaced_member data t (Some tag) offset what "expected opening tag [{}]" tag) else Ok pos.
(** [expect_closing] (bacnet-encoding/src/constructed/tagged.rs) *)
Definition expect_closing (data : bytes) (offset : nat) (tag : Z) (what : string) : Result nat Error :=
  let? (t, pos) := decode_tag data offset in
  if negb (is_closing_tag t tag) then
    Err (ErrDecoding (with_value (within (decode_error (unclosed_kind t) offset "expected closing tag [{}]") what) tag))
  else Ok pos.
(** [decode_ctx_constructed] (bacnet-encoding/src/constructed/tagged.rs) *)
Definition decode_ctx_constructed (data : bytes) (offset : nat) (tag : Z) (what : string) : Result (bytes * nat) Error :=
  let? content := expect_opening data offset tag what in extract_context_value data content tag.
(** [MAX_FRAMED_ITEMS] (bacnet-encoding/src/constructed/mod.rs) *)
Definition MAX_FRAMED_ITEMS : Z := 10000.
(** The values of a frame's body; every value takes an octet, so the body's length is rounds enough.
    [decode_framed_value] (bacnet-encoding/src/constructed/tagged.rs:346-361) *)
Fixpoint framed_values (fuel : nat) (body : bytes) (what : string) (values : list PropertyValue) (offset : nat) : Result (list PropertyValue) Error :=
  if decide (length body <= offset)%nat then Ok values else
  match fuel with
  | O => Ok values
  | S fuel =>
      if MAX_FRAMED_ITEMS <=? Z.of_nat (length values) then
        Err (ErrDecoding (within (decode_error Overflow offset "value exceeds item limit") what))
      else
        let? (value, next) := decode_application_value body offset in
        framed_values fuel body what (values ++ [value]) next
  end.
(** [decode_framed_value] (bacnet-encoding/src/constructed/tagged.rs) *)
Definition decode_framed_value (data : bytes) (content : nat) (tag : Z) (what : string) : Result (PropertyValue * nat) Error :=
  let? (inner, end_) := extract_context_value data content tag in
  let body := take (content + length inner) data in
  let? values := framed_values (length body) body what [] content in
  Ok (match values with [value] => value | values => ListValue values end, end_).
(** [expect_end] (bacnet-encoding/src/constructed/tagged.rs) *)
Definition expect_end (data : bytes) (end_ at_ : nat) (what : string) : Result unit Error :=
  if decide (end_ = length data) then Ok tt else
  let kind := match decode_tag data end_ with Ok (tag, _) => if negb (is_closing tag) then Trailing else InvalidTag | Err _ => InvalidTag end in
  Err (ErrDecoding (with_value (within (decode_error kind at_ "{} trailing byte(s)") what) (Z.of_nat (length data - end_)))).

(** ** Primitive members *)

(** [contents] (bacnet-encoding/src/constructed/tagged.rs) *)
Definition member_contents (data : bytes) (start : nat) (length : Z) : Result (bytes * nat) Error :=
  let end_ := usize_sat_add start (Z.to_nat length) in
  if decide (List.length data < end_)%nat then Err (buffer_too_short end_ (List.length data)) else
  Ok (take (end_ - start) (drop start data), end_).
(** [ctx_header] (bacnet-encoding/src/constructed/tagged.rs) *)
Definition ctx_header (data : bytes) (offset : nat) (tag : Z) (misplaced what : string) : Result (Tag * nat) Error :=
  let? (t, start) := decode_tag data offset in
  if negb (is_context t tag) then Err (misplaced_member data t (Some tag) offset what misplaced tag) else Ok (t, start).
(** [decode_ctx_primitive] (bacnet-encoding/src/constructed/tagged.rs) *)
Definition decode_ctx_primitive (data : bytes) (offset : nat) (tag : Z) (what : string) : Result (bytes * nat) Error :=
  let? (t, start) := ctx_header data offset tag "expected context tag [{}]" what in
  member_contents data start (tag_length t).
(** [Fixed] (bacnet-encoding/src/constructed/tagged.rs) *)
Record Fixed := { fixed_octets : Z; fixed_misplaced : string; fixed_wrong_length : string }.
(** [fixed] (bacnet-encoding/src/constructed/tagged.rs:484-497) *)
Definition fixed (name : string) (octets : Z) (digit : string) : Fixed :=
  {| fixed_octets := octets; fixed_misplaced := "expected context tag [{}] " +:+ name;
     fixed_wrong_length := "[{}] " +:+ name +:+ " has {} contents octets, expected " +:+ digit |}.
(** [Fixed::REAL] (bacnet-encoding/src/constructed/tagged.rs) *)
Definition FIXED_REAL : Fixed := fixed "REAL" 4 "4".
(** [Fixed::DOUBLE] (bacnet-encoding/src/constructed/tagged.rs) *)
Definition FIXED_DOUBLE : Fixed := fixed "Double" 8 "8".
(** [Fixed::BOOLEAN] (bacnet-encoding/src/constructed/tagged.rs) *)
Definition FIXED_BOOLEAN : Fixed := fixed "BOOLEAN" 1 "1".
(** [Fixed::DATE] (bacnet-encoding/src/constructed/tagged.rs) *)
Definition FIXED_DATE : Fixed := fixed "Date" 4 "4".
(** [Fixed::TIME] (bacnet-encoding/src/constructed/tagged.rs) *)
Definition FIXED_TIME : Fixed := fixed "Time" 4 "4".
(** [Fixed::OBJECT_IDENTIFIER] (bacnet-encoding/src/constructed/tagged.rs) *)
Definition FIXED_OBJECT_IDENTIFIER : Fixed := fixed "object identifier" 4 "4".
(** [ctx_length_error] (bacnet-encoding/src/constructed/tagged.rs) *)
Definition ctx_length_error (offset : nat) (tag : Z) (f : Fixed) (what : string) (length : Z) : Error :=
  ErrDecoding (with_values (within (decode_error InvalidEncoding offset (fixed_wrong_length f)) what) tag length).
(** [decode_ctx_fixed] (bacnet-encoding/src/constructed/tagged.rs) *)
Definition decode_ctx_fixed (data : bytes) (offset : nat) (tag : Z) (f : Fixed) (what : string) : Result (bytes * nat) Error :=
  let? (t, start) := ctx_header data offset tag (fixed_misplaced f) what in
  if negb (tag_length t =? fixed_octets f) then Err (ctx_length_error offset tag f what (tag_length t)) else
  member_contents data start (fixed_octets f).
(** [decode_ctx_real] (bacnet-encoding/src/constructed/tagged.rs) *)
Definition decode_ctx_real (data : bytes) (offset : nat) (tag : Z) (what : string) : Result (Z * nat) Error :=
  let? (octets, end_) := decode_ctx_fixed data offset tag FIXED_REAL what in
  let? v := decode_real octets in Ok (v, end_).
(** [decode_ctx_boolean] (bacnet-encoding/src/constructed/tagged.rs) *)
Definition decode_ctx_boolean (data : bytes) (offset : nat) (tag : Z) (what : string) : Result (bool * nat) Error :=
  let? (octets, end_) := decode_ctx_fixed data offset tag FIXED_BOOLEAN what in
  match octets with
  | 0 :: _ => Ok (false, end_)
  | 1 :: _ => Ok (true, end_)
  | _ => Err (ErrDecoding (with_value (within (decode_error InvalidEncoding (end_ - 1) "[{}] BOOLEAN contents must be 0 or 1") what) tag))
  end.
(** [decode_ctx_object_id] (bacnet-encoding/src/constructed/tagged.rs) *)
Definition decode_ctx_object_id (data : bytes) (offset : nat) (tag : Z) (what : string) : Result (ObjectIdentifier * nat) Error :=
  let? (octets, end_) := decode_ctx_fixed data offset tag FIXED_OBJECT_IDENTIFIER what in
  let? v := oid_decode octets in Ok (v, end_).
(** [decode_ctx_bit_string_ref] (bacnet-encoding/src/constructed/tagged.rs) *)
Definition decode_ctx_bit_string_ref (data : bytes) (offset : nat) (tag : Z) (what : string) : Result ((Z * bytes) * nat) Error :=
  let? (t, start) := ctx_header data offset tag "expected context tag [{}] BIT STRING" what in
  let? (octets, end_) := member_contents data start (tag_length t) in
  let? v := decode_bit_string_ref octets in Ok (v, end_).
(** [decode_ctx_bit_string] (bacnet-encoding/src/constructed/tagged.rs) *)
Definition decode_ctx_bit_string (data : bytes) (offset : nat) (tag : Z) (what : string) : Result ((Z * bytes) * nat) Error :=
  decode_ctx_bit_string_ref data offset tag what.
(** [decode_ctx_octet_string_ref] (bacnet-encoding/src/constructed/tagged.rs) *)
Definition decode_ctx_octet_string_ref (data : bytes) (offset : nat) (tag : Z) (what : string) : Result (bytes * nat) Error :=
  let? (t, start) := ctx_header data offset tag "expected context tag [{}] OCTET STRING" what in
  member_contents data start (tag_length t).
(** [decode_ctx_octet_string] (bacnet-encoding/src/constructed/tagged.rs) *)
Definition decode_ctx_octet_string (data : bytes) (offset : nat) (tag : Z) (what : string) : Result (bytes * nat) Error :=
  decode_ctx_octet_string_ref data offset tag what.
(** [decode_ctx_character_string] (bacnet-encoding/src/constructed/tagged.rs) *)
Definition decode_ctx_character_string (data : bytes) (offset : nat) (tag : Z) (what : string) : Result (bytes * nat) Error :=
  let? (octets, end_) := decode_ctx_primitive data offset tag what in
  let? v := decode_character_string octets in Ok (v, end_).
(** [decode_ctx_character_string_ref] (bacnet-encoding/src/constructed/tagged.rs) *)
Definition decode_ctx_character_string_ref (data : bytes) (offset : nat) (tag : Z) (what : string) : Result (bytes * nat) Error :=
  let? (octets, end_) := decode_ctx_primitive data offset tag what in
  let? v := text_decode octets in Ok (v, end_).
(** [decode_optional_ctx] (bacnet-encoding/src/constructed/tagged.rs) *)
Definition decode_optional_ctx {T} (data : bytes) (offset : nat) (tag : Z) (what : string)
  (decode : bytes -> nat -> Z -> string -> Result (T * nat) Error) : Result (option T * nat) Error :=
  let? next := next_is_context data offset tag in
  if negb next then Ok (None, offset) else
  let? (value, end_) := decode data offset tag what in Ok (Some value, end_).

(** ** Unsigned and ENUMERATED *)

(** [UnsignedWidth] (bacnet-encoding/src/constructed/tagged.rs) *)
Record UnsignedWidth := { width_name : string; width_max : Z }.
Definition width_u8 : UnsignedWidth := {| width_name := "u8"; width_max := U8_MAX |}.
Definition width_u16 : UnsignedWidth := {| width_name := "u16"; width_max := U16_MAX |}.
Definition width_u32 : UnsignedWidth := {| width_name := "u32"; width_max := U32_MAX |}.
Definition width_u64 : UnsignedWidth := {| width_name := "u64"; width_max := U64_MAX |}.
(** [narrow] (bacnet-encoding/src/constructed/tagged.rs) *)
Definition narrow (w : UnsignedWidth) (value : Z) (offset : nat) (tag : Z) (what : string) : Result Z Error :=
  if value <=? width_max w then Ok value
  else Err (ErrDecoding (with_values (within (decode_error OutOfRange offset ("[{}] value {} exceeds " +:+ width_name w)) what) tag value)).
(** [decode_ctx_unsigned] (bacnet-encoding/src/constructed/tagged.rs) *)
Definition decode_ctx_unsigned (w : UnsignedWidth) (data : bytes) (offset : nat) (tag : Z) (what : string) : Result (Z * nat) Error :=
  let? (octets, end_) := decode_ctx_primitive data offset tag what in
  let? value := decode_unsigned octets in
  let? value := narrow w value offset tag what in Ok (value, end_).
(** [decode_canonical_unsigned] (bacnet-encoding/src/constructed/tagged.rs) *)
Definition decode_canonical_unsigned (octets : bytes) (offset : nat) (what : string) : Result Z Error :=
  if bool_decide (octets = []) || (8 <? Z.of_nat (length octets)) then
    Err (ErrDecoding (with_value (within (decode_error InvalidEncoding offset "has {} contents octets, expected one to eight") what)
           (Z.of_nat (length octets))))
  else match octets with
  | 0 :: _ :: _ => Err (ErrDecoding (within (decode_error InvalidEncoding offset "must use the shortest Unsigned/Enumerated encoding") what))
  | _ => decode_unsigned octets
  end.
(** [decode_ctx_canonical_unsigned] (bacnet-encoding/src/constructed/tagged.rs) *)
Definition decode_ctx_canonical_unsigned (w : UnsignedWidth) (data : bytes) (offset : nat) (tag : Z) (what : string) : Result (Z * nat) Error :=
  let? (octets, end_) := decode_ctx_primitive data offset tag what in
  let? value := decode_canonical_unsigned octets offset what in
  let? value := narrow w value offset tag what in Ok (value, end_).

(** ** Application-tagged members *)

(** [app_header] (bacnet-encoding/src/constructed/tagged.rs) *)
Definition app_header (data : bytes) (offset : nat) (number : Z) (what : string) : Result (Tag * nat) Error :=
  if number =? TAG_BOOLEAN then
    Err (ErrDecoding (within (decode_error InvalidEncoding offset "an application-tagged BOOLEAN has no contents to read") what))
  else
    let? (t, start) := decode_tag data offset in
    if negb (bool_decide (tag_class t = ApplicationTag)) || negb (tag_number t =? number)
    then Err (misplaced_member data t None offset what "expected application-tagged {t}" number) else Ok (t, start).
(** [decode_app_primitive] (bacnet-encoding/src/constructed/tagged.rs) *)
Definition decode_app_primitive (data : bytes) (offset : nat) (number : Z) (what : string) : Result (bytes * nat) Error :=
  let? (t, start) := app_header data offset number what in member_contents data start (tag_length t).
(** [decode_app_fixed] (bacnet-encoding/src/constructed/tagged.rs) *)
Definition decode_app_fixed (data : bytes) (offset : nat) (number octets : Z) (what : string) : Result (bytes * nat) Error :=
  let? (t, start) := app_header data offset number what in
  if negb (tag_length t =? octets) then
    let refused :=
      match fixed_length_label number with
      | Some (label, _) => with_value (decode_error InvalidEncoding offset label) (tag_length t)
      | None => with_values (decode_error InvalidEncoding offset "application value has {} contents octets, expected {}") (tag_length t) octets
      end in
    Err (ErrDecoding (within refused what))
  else member_contents data start octets.
(** [decode_app_object_id] (bacnet-encoding/src/constructed/tagged.rs) *)
Definition decode_app_object_id (data : bytes) (offset : nat) (what : string) : Result (ObjectIdentifier * nat) Error :=
  let? (octets, end_) := decode_app_fixed data offset TAG_OBJECT_IDENTIFIER 4 what in
  let? v := oid_decode octets in Ok (v, end_).
(** [narrow_app] (bacnet-encoding/src/constructed/tagged.rs) *)
Definition narrow_app (w : UnsignedWidth) (value : Z) (contents : nat) (label what : string) : Result Z Error :=
  if value <=? width_max w then Ok value else Err (ErrDecoding (within (decode_error OutOfRange contents label) what)).
(** [decode_app_unsigned] (bacnet-encoding/src/constructed/tagged.rs) *)
Definition decode_app_unsigned (w : UnsignedWidth) (data : bytes) (offset : nat) (what : string) : Result (Z * nat) Error :=
  let? (octets, end_) := decode_app_primitive data offset TAG_UNSIGNED what in
  let? value := decode_unsigned octets in
  let? value := narrow_app w value (end_ - length octets) ("Unsigned exceeds " +:+ width_name w) what in Ok (value, end_).
(** [decode_app_bit_string] (bacnet-encoding/src/constructed/tagged.rs) *)
Definition decode_app_bit_string (data : bytes) (offset : nat) (what : string) : Result ((Z * bytes) * nat) Error :=
  let? (octets, end_) := decode_app_primitive data offset TAG_BIT_STRING what in
  let? v := decode_bit_string octets in Ok (v, end_).
(** [decode_app_enumerated] (bacnet-encoding/src/constructed/tagged.rs) *)
Definition decode_app_enumerated (w : UnsignedWidth) (data : bytes) (offset : nat) (what : string) : Result (Z * nat) Error :=
  let? (octets, end_) := decode_app_primitive data offset TAG_ENUMERATED what in
  let? value := decode_unsigned octets in
  let? value := narrow_app w value (end_ - length octets) ("ENUMERATED exceeds " +:+ width_name w) what in Ok (value, end_).
(** [decode_app_canonical_enumerated] (bacnet-encoding/src/constructed/tagged.rs) *)
Definition decode_app_canonical_enumerated (w : UnsignedWidth) (data : bytes) (offset : nat) (what : string) : Result (Z * nat) Error :=
  let? (octets, end_) := decode_app_primitive data offset TAG_ENUMERATED what in
  let? value := decode_canonical_unsigned octets offset what in
  let? value := narrow_app w value (end_ - length octets) ("ENUMERATED exceeds " +:+ width_name w) what in Ok (value, end_).
(** [decode_app_character_string] (bacnet-encoding/src/constructed/tagged.rs) *)
Definition decode_app_character_string (data : bytes) (offset : nat) (what : string) : Result (bytes * nat) Error :=
  let? (octets, end_) := decode_app_primitive data offset TAG_CHARACTER_STRING what in
  let? v := decode_character_string octets in Ok (v, end_).
(** [decode_app_character_string_ref] (bacnet-encoding/src/constructed/tagged.rs) *)
Definition decode_app_character_string_ref (data : bytes) (offset : nat) (what : string) : Result (bytes * nat) Error :=
  let? (octets, end_) := decode_app_primitive data offset TAG_CHARACTER_STRING what in
  let? v := text_decode octets in Ok (v, end_).
