(* ===== verification/TaggedTheorems.v ===== *)
(** * What the member readers read

    A reader reads a member from exactly the octets its encoder writes, wherever they stand, and the laws compose: the members of a
    production one after the other, a frame around them, an optional member that is there or not. *)

From Stdlib Require Import String.
From S2P Require Import Prelude Sink WireError Tags Values ValuesTheorems Utf8 Primitives PrimitivesTheorems Tagged.
Open Scope Z_scope.

(** ** Reading *)

(** Data a decoder is given: octets, no longer than a slice can be. *)
Definition input (data : bytes) : Prop := wf_bytes data /\ Z.of_nat (length data) <= ISIZE_MAX.
(** The decoder reads [a] from the octets [l], wherever they stand in the data, and leaves off right after them. *)
Definition reads {A} (decode : bytes -> nat -> Result (A * nat) Error) (l : bytes) (a : A) : Prop :=
  forall data offset, input data -> starts data offset l -> decode data offset = Ok (a, (offset + length l)%nat).

(** A context tag's header. *)
Definition ctx_tag (number len : Z) : Tag :=
  {| tag_number := number; tag_class := ContextTag; tag_length := len; is_opening := false; is_closing := false |}.
(** Contents under a context tag, and members framed in one. *)
Definition ctx (number : Z) (contents : bytes) : bytes := tag_header number ContextTag (Z.of_nat (length contents)) ++ contents.
Definition frame (number : Z) (body : bytes) : bytes := marker_octets number 14 ++ body ++ marker_octets number 15.
Definition tag_ok (number : Z) : Prop := 0 <= number <= 254.
Definition short (l : bytes) : Prop := Z.of_nat (length l) <= MAX_TAG_LENGTH.

Lemma is_context_ctx number len : is_context (ctx_tag number len) number = true.
Proof. unfold is_context. cbn. by rewrite Z.eqb_refl. Qed.
Lemma is_context_other number len other : number <> other -> is_context (ctx_tag number len) other = false.
Proof. intros Hne. unfold is_context. cbn. by replace (number =? other) with false by lia. Qed.
Section At.
Context (data : bytes) (Hin : input data).

Lemma fits_add (a b : nat) : (a + b <= length data)%nat -> usize_sat_add a b = (a + b)%nat.
Proof. destruct Hin. intros Hb. apply usize_sat_add_small. unfold USIZE_MAX, U64_MAX, ISIZE_MAX in *. lia. Qed.
Lemma starts_end pos l rest : starts data pos (l ++ rest) -> l <> [] -> (pos + length l <= length data)%nat.
Proof. intros [Hs _]%starts_app Hl. by apply starts_bound. Qed.
Lemma header_tag offset number class len rest : tag_ok number -> 0 <= len <= MAX_TAG_LENGTH -> starts data offset (tag_header number class len ++ rest) ->
  let t := {| tag_number := number; tag_class := class; tag_length := len; is_opening := false; is_closing := false |} in
  decode_tag data offset = Ok (t, (offset + length (tag_header number class len))%nat) /\ starts data (offset + length (tag_header number class len)) rest /\
  (offset + length (tag_header number class len) <= length data)%nat.
Proof.
  intros Hn Hl Hs t. pose proof (starts_end _ _ _ Hs) as Hb. apply starts_app in Hs as [Hh Hr]. split; [|split; [done|]].
  - apply (decode_tag_header data offset t); [|done]. unfold wf_tag. cbn. split_and!; try done; unfold tag_ok in Hn; lia.
  - apply Hb. rewrite tag_header_fields. done.
Qed.
Lemma opening_tag offset number rest : tag_ok number -> starts data offset (marker_octets number 14 ++ rest) ->
  decode_tag data offset = Ok (opens number, (offset + length (marker_octets number 14))%nat) /\ starts data (offset + length (marker_octets number 14)) rest.
Proof. intros Hn [Hh Hr]%starts_app. split; [|done]. by apply (decode_tag_header data offset (opens number) (opens_wf number Hn)). Qed.
Lemma closing_tag offset number rest : tag_ok number -> starts data offset (marker_octets number 15 ++ rest) ->
  decode_tag data offset = Ok (closes number, (offset + length (marker_octets number 15))%nat) /\ starts data (offset + length (marker_octets number 15)) rest.
Proof. intros Hn [Hh Hr]%starts_app. split; [|done]. by apply (decode_tag_header data offset (closes number) (closes_wf number Hn)). Qed.
Lemma expect_opening_reads offset number what rest : tag_ok number -> starts data offset (marker_octets number 14 ++ rest) ->
  expect_opening data offset number what = Ok (offset + length (marker_octets number 14))%nat /\ starts data (offset + length (marker_octets number 14)) rest.
Proof.
  intros Hn Hs. destruct (opening_tag _ _ _ Hn Hs) as [Ht Hr]. split; [|done]. unfold expect_opening. rewrite Ht. cbn [rbind]. unfold is_opening_tag. cbn. by rewrite Z.eqb_refl.
Qed.
Lemma expect_closing_reads offset number what rest : tag_ok number -> starts data offset (marker_octets number 15 ++ rest) ->
  expect_closing data offset number what = Ok (offset + length (marker_octets number 15))%nat.
Proof.
  intros Hn Hs. destruct (closing_tag _ _ _ Hn Hs) as [Ht _]. unfold expect_closing. rewrite Ht. cbn [rbind]. unfold is_closing_tag. cbn. by rewrite Z.eqb_refl.
Qed.
Lemma member_contents_reads start l : starts data start l -> (start <= length data)%nat -> member_contents data start (Z.of_nat (length l)) = Ok (l, (start + length l)%nat).
Proof.
  intros Hs Hb. assert (start + length l <= length data)%nat by (destruct l; [cbn; lia|by apply starts_bound]).
  unfold member_contents. rewrite Nat2Z.id, fits_add by done. cbv zeta. rewrite decide_False by lia. by rewrite (starts_slice data start l Hs) by lia.
Qed.
Lemma ctx_header_reads offset number l misplaced what : tag_ok number -> short l -> starts data offset (ctx number l) ->
  ctx_header data offset number misplaced what = Ok (ctx_tag number (Z.of_nat (length l)), (offset + length (ctx number l) - length l)%nat) /\
  member_contents data (offset + length (ctx number l) - length l) (Z.of_nat (length l)) = Ok (l, (offset + length (ctx number l))%nat).
Proof.
  unfold short. intros Hn Hl Hs. destruct (header_tag offset number ContextTag (Z.of_nat (length l)) l Hn ltac:(lia) Hs) as (Ht & Hr & Hb).
  assert (offset + length (ctx number l) - length l = offset + length (tag_header number ContextTag (Z.of_nat (length l))))%nat as -> by (unfold ctx; rewrite length_app; lia).
  split.
  - unfold ctx_header. rewrite Ht. cbn [rbind]. fold (ctx_tag number (Z.of_nat (length l))). by rewrite is_context_ctx.
  - rewrite member_contents_reads by done. unfold ctx. rewrite length_app. do 2 f_equal. lia.
Qed.
Lemma app_header_reads offset number l what : tag_ok number -> number <> TAG_BOOLEAN -> short l -> starts data offset (tagged number l) ->
  app_header data offset number what = Ok (app_tag number (Z.of_nat (length l)), (offset + length (tagged number l) - length l)%nat) /\
  member_contents data (offset + length (tagged number l) - length l) (Z.of_nat (length l)) = Ok (l, (offset + length (tagged number l))%nat).
Proof.
  unfold short. intros Hn Hnb Hl Hs. destruct (header_tag offset number ApplicationTag (Z.of_nat (length l)) l Hn ltac:(lia) Hs) as (Ht & Hr & Hb).
  assert (offset + length (tagged number l) - length l = offset + length (tag_header number ApplicationTag (Z.of_nat (length l))))%nat as -> by (unfold tagged; rewrite length_app; lia).
  split.
  - unfold app_header. replace (number =? TAG_BOOLEAN) with false by lia. rewrite Ht. cbn [rbind tag_class tag_number]. rewrite bool_decide_eq_true_2, Z.eqb_refl by done. done.
  - rewrite member_contents_reads by done. unfold tagged. rewrite length_app. do 2 f_equal. lia.
Qed.
End At.

(** ** Members *)

Section members.
Context (number : Z) (what : string) (Hn : tag_ok number).

Lemma ctx_primitive_reads l : short l -> reads (fun data offset => decode_ctx_primitive data offset number what) (ctx number l) l.
Proof.
  intros Hl data offset Hin Hs. destruct (ctx_header_reads data Hin offset number l "expected context tag [{}]" what Hn Hl Hs) as [Hh Hm].
  unfold decode_ctx_primitive. rewrite Hh. cbn [rbind]. done.
Qed.
Lemma ctx_fixed_reads f l : Z.of_nat (length l) = fixed_octets f -> short l ->
  reads (fun data offset => decode_ctx_fixed data offset number f what) (ctx number l) l.
Proof.
  intros Hf Hl data offset Hin Hs. destruct (ctx_header_reads data Hin offset number l (fixed_misplaced f) what Hn Hl Hs) as [Hh Hm].
  unfold decode_ctx_fixed. rewrite Hh. cbn [rbind tag_length ctx_tag]. by rewrite <-Hf, Z.eqb_refl.
Qed.
Lemma short_small l : (length l <= 8)%nat -> short l.
Proof. unfold short, MAX_TAG_LENGTH. lia. Qed.
Lemma ctx_real_reads v : is_u32 v -> reads (fun data offset => decode_ctx_real data offset number what) (ctx number (to_be32 v)) v.
Proof.
  intros Hv data offset Hin Hs. unfold decode_ctx_real. rewrite (ctx_fixed_reads FIXED_REAL (to_be32 v) eq_refl) by (done || (apply short_small; cbn; lia)).
  cbn [rbind]. by rewrite decode_real_octets.
Qed.
Lemma ctx_boolean_reads (v : bool) : reads (fun data offset => decode_ctx_boolean data offset number what) (ctx number [Z.b2z v]) v.
Proof.
  intros data offset Hin Hs. unfold decode_ctx_boolean. rewrite (ctx_fixed_reads FIXED_BOOLEAN [Z.b2z v] eq_refl) by (done || (apply short_small; cbn; lia)).
  by destruct v.
Qed.
Lemma ctx_object_id_reads o : wf_oid o -> reads (fun data offset => decode_ctx_object_id data offset number what) (ctx number (oid_encode o)) o.
Proof.
  intros Ho data offset Hin Hs. unfold decode_ctx_object_id. rewrite (ctx_fixed_reads FIXED_OBJECT_IDENTIFIER (oid_encode o) eq_refl) by (done || (apply short_small; cbn; lia)).
  cbn [rbind]. by rewrite oid_decode_encode.
Qed.
Lemma short_unsigned v : short (unsigned_octets v).
Proof. apply short_small. rewrite unsigned_octets_length. pose proof (unsigned_len_range v). lia. Qed.
Lemma ctx_unsigned_reads w v : is_u64 v -> v <= width_max w -> reads (fun data offset => decode_ctx_unsigned w data offset number what) (ctx number (unsigned_octets v)) v.
Proof.
  intros Hv Hw data offset Hin Hs. unfold decode_ctx_unsigned. rewrite (ctx_primitive_reads (unsigned_octets v)) by (done || apply short_unsigned).
  cbn [rbind]. rewrite decode_unsigned_octets by done. cbn [rbind]. unfold narrow. by replace (v <=? width_max w) with true by lia.
Qed.
Lemma ctx_octet_string_reads l : short l -> reads (fun data offset => decode_ctx_octet_string data offset number what) (ctx number l) l.
Proof.
  intros Hl data offset Hin Hs. destruct (ctx_header_reads data Hin offset number l "expected context tag [{}] OCTET STRING" what Hn Hl Hs) as [Hh Hm].
  unfold decode_ctx_octet_string, decode_ctx_octet_string_ref. rewrite Hh. done.
Qed.
Lemma ctx_bit_string_reads unused l : 0 <= unused <= 7 -> short (unused :: l) ->
  reads (fun data offset => decode_ctx_bit_string data offset number what) (ctx number (unused :: l)) (unused, l).
Proof.
  intros Hu Hl data offset Hin Hs. destruct (ctx_header_reads data Hin offset number _ "expected context tag [{}] BIT STRING" what Hn Hl Hs) as [Hh Hm].
  unfold decode_ctx_bit_string, decode_ctx_bit_string_ref. rewrite Hh. cbn [rbind tag_length ctx_tag]. rewrite Hm. cbn [rbind decode_bit_string_ref].
  by replace (7 <? unused) with false by lia.
Qed.
Lemma ctx_character_string_reads l : is_text l -> short (CHARSET_UTF8 :: l) ->
  reads (fun data offset => decode_ctx_character_string data offset number what) (ctx number (CHARSET_UTF8 :: l)) l.
Proof.
  intros Ht Hl data offset Hin Hs. unfold decode_ctx_character_string. rewrite (ctx_primitive_reads (CHARSET_UTF8 :: l)) by done. cbn [rbind]. by rewrite decode_utf8_text.
Qed.
Lemma app_primitive_reads l : number <> TAG_BOOLEAN -> short l -> reads (fun data offset => decode_app_primitive data offset number what) (tagged number l) l.
Proof.
  intros Hb Hl data offset Hin Hs. destruct (app_header_reads data Hin offset number l what Hn Hb Hl Hs) as [Hh Hm].
  unfold decode_app_primitive. rewrite Hh. done.
Qed.
Lemma app_fixed_reads octets l : number <> TAG_BOOLEAN -> Z.of_nat (length l) = octets -> short l ->
  reads (fun data offset => decode_app_fixed data offset number octets what) (tagged number l) l.
Proof.
  intros Hb <- Hl data offset Hin Hs. destruct (app_header_reads data Hin offset number l what Hn Hb Hl Hs) as [Hh Hm].
  unfold decode_app_fixed. rewrite Hh. cbn [rbind tag_length app_tag]. by rewrite Z.eqb_refl.
Qed.
End members.
Lemma app_unsigned_reads w what v : is_u64 v -> v <= width_max w -> reads (fun data offset => decode_app_unsigned w data offset what) (tagged TAG_UNSIGNED (unsigned_octets v)) v.
Proof.
  intros Hv Hw data offset Hin Hs. unfold decode_app_unsigned. rewrite (app_primitive_reads TAG_UNSIGNED what ltac:(done) (unsigned_octets v)) by (done || apply short_unsigned).
  cbn [rbind]. rewrite decode_unsigned_octets by done. cbn [rbind]. unfold narrow_app. by replace (v <=? width_max w) with true by lia.
Qed.
Lemma app_enumerated_reads w what v : is_u64 v -> v <= width_max w -> reads (fun data offset => decode_app_enumerated w data offset what) (tagged TAG_ENUMERATED (unsigned_octets v)) v.
Proof.
  intros Hv Hw data offset Hin Hs. unfold decode_app_enumerated. rewrite (app_primitive_reads TAG_ENUMERATED what ltac:(done) (unsigned_octets v)) by (done || apply short_unsigned).
  cbn [rbind]. rewrite decode_unsigned_octets by done. cbn [rbind]. unfold narrow_app. by replace (v <=? width_max w) with true by lia.
Qed.
Lemma app_object_id_reads what o : wf_oid o -> reads (fun data offset => decode_app_object_id data offset what) (tagged TAG_OBJECT_IDENTIFIER (oid_encode o)) o.
Proof.
  intros Ho data offset Hin Hs. unfold decode_app_object_id.
  rewrite (app_fixed_reads TAG_OBJECT_IDENTIFIER what ltac:(done) 4 (oid_encode o)) by (done || (apply short_small; cbn; lia)). cbn [rbind]. by rewrite oid_decode_encode.
Qed.

(** ** Optional members *)

(** No member under context tag [number] starts here: the data ends, or another tag comes. *)
Definition absent (data : bytes) (offset : nat) (number : Z) : Prop :=
  offset = length data \/ exists t, wf_tag t /\ starts data offset (header_of t) /\ is_context t number = false.
Definition absent_frame (data : bytes) (offset : nat) (number : Z) : Prop :=
  offset = length data \/ exists t, wf_tag t /\ starts data offset (header_of t) /\ is_opening_tag t number = false.
Lemma absent_context data offset number : absent data offset number -> next_is_context data offset number = Ok false.
Proof.
  unfold next_is_context, next_tag_is. intros [->|(t & Ht & Hs & Hc)]; [by rewrite decide_True|].
  assert (offset < length data)%nat by (apply (at_header data offset t []); by rewrite app_nil_r).
  rewrite decide_False by lia. rewrite (decode_tag_header _ _ _ Ht Hs). cbn [rbind]. by rewrite Hc.
Qed.
Lemma absent_opening data offset number : absent_frame data offset number -> next_is_opening data offset number = Ok false.
Proof.
  unfold next_is_opening, next_tag_is. intros [->|(t & Ht & Hs & Hc)]; [by rewrite decide_True|].
  assert (offset < length data)%nat by (apply (at_header data offset t []); by rewrite app_nil_r).
  rewrite decide_False by lia. rewrite (decode_tag_header _ _ _ Ht Hs). cbn [rbind]. by rewrite Hc.
Qed.
Lemma ctx_next data offset number l rest : input data -> tag_ok number -> short l -> starts data offset (ctx number l ++ rest) -> next_is_context data offset number = Ok true.
Proof.
  unfold short. intros Hin Hn Hl Hs. unfold ctx in Hs. rewrite <-app_assoc in Hs.
  destruct (header_tag data offset number ContextTag (Z.of_nat (length l)) (l ++ rest) Hn ltac:(lia) Hs) as (Ht & _ & Hb).
  unfold next_is_context, next_tag_is. rewrite tag_header_fields in Hb. cbn [length] in Hb. rewrite decide_False by lia. rewrite Ht. cbn [rbind].
  fold (ctx_tag number (Z.of_nat (length l))). by rewrite is_context_ctx.
Qed.
Lemma frame_next data offset number rest : input data -> tag_ok number -> starts data offset (marker_octets number 14 ++ rest) -> next_is_opening data offset number = Ok true.
Proof.
  intros Hin Hn Hs. destruct (opening_tag data offset number rest Hn Hs) as [Ht _]. pose proof (starts_end data _ _ _ Hs) as Hb.
  pose proof (header_nonempty (opens number)) as Hne. change (header_of (opens number)) with (marker_octets number 14) in Hne.
  assert (offset < length data)%nat by (destruct (marker_octets number 14); [cbn in *; lia|]; specialize (Hb ltac:(done)); cbn in *; lia).
  unfold next_is_opening, next_tag_is. rewrite decide_False by lia. rewrite Ht. cbn [rbind]. unfold is_opening_tag. cbn. by rewrite Z.eqb_refl.
Qed.
(** An optional member's octets: none when it is left out. *)
Definition opt_octets {A} (f : A -> bytes) (o : option A) : bytes := match o with Some a => f a | None => [] end.
(** An optional member that is left out, or is there with the octets of [ctx]. *)
Lemma optional_reads {A} (decode : bytes -> nat -> Z -> string -> Result (A * nat) Error) number what (f : A -> bytes) (o : option A) data offset : input data -> tag_ok number ->
  (forall a, o = Some a -> short (f a) /\ reads (fun data offset => decode data offset number what) (ctx number (f a)) a) ->
  starts data offset (opt_octets (fun a => ctx number (f a)) o) -> (o = None -> absent data offset number) ->
  decode_optional_ctx data offset number what decode = Ok (o, (offset + length (opt_octets (fun a => ctx number (f a)) o))%nat).
Proof.
  intros Hin Hn Hr Hs Ha. unfold decode_optional_ctx. destruct o as [a|]; cbn [opt_octets] in *.
  - destruct (Hr a eq_refl) as [Hl Hread]. rewrite (ctx_next data offset number (f a) []) by (done || by rewrite app_nil_r). cbn [rbind negb]. by rewrite (Hread data offset Hin Hs).
  - rewrite absent_context by auto. cbn. by rewrite Nat.add_0_r.
Qed.

(** ** Framed values *)

(** The values a property's value in a message is made of: primitives and context-tagged elements. *)
Definition item (v : PropertyValue) : Prop :=
  wf_value v /\ (is_primitive v = true \/ exists e, v = ApplicationData e /\ context_element e /\ element 31 e).
Lemma item_reads v : item v -> reads decode_application_value (value_octets v) v.
Proof. intros [Hw [Hp|(e & -> & He & _)]] data offset [Hwf Hfit] Hs; [by apply decode_value_octets|by apply decode_context_octets]. Qed.
Lemma tagged_element depth number l : tag_ok number -> number <> TAG_BOOLEAN -> short l -> element depth (tagged number l).
Proof.
  intros Hn Hb Hl. apply (el_contents depth (app_tag number (Z.of_nat (length l))) l); try done.
  - unfold wf_tag. cbn. unfold tag_ok, short in *. split_and!; try done; lia.
  - unfold is_flag. cbn. by replace (number =? TAG_BOOLEAN) with false by lia.
Qed.
Lemma flag_element depth (b : bool) : element depth (tag_header TAG_BOOLEAN ApplicationTag (Z.b2z b)).
Proof.
  apply (el_flag depth (app_tag TAG_BOOLEAN (Z.b2z b))); try done. unfold wf_tag, MAX_TAG_LENGTH. cbn. destruct b; split_and!; try done; cbn; lia.
Qed.
Lemma item_element v : item v -> element 31 (value_octets v).
Proof.
  intros [Hw [Hp|(e & -> & _ & He)]]; [|done]. destruct v; try done; cbn [value_octets wf_value typed carried] in *; try apply flag_element;
    try (apply tagged_element; try done; try (by apply short_unsigned); try (apply short_small; cbn; lia); unfold short; cbn [length]; lia).
  - apply (tagged_element 31 TAG_NULL []); done.
  - apply tagged_element; try done. apply short_small. rewrite signed_octets_length. pose proof (signed_len_range v). lia.
  - apply tagged_element; try done. apply short_small. rewrite enumerated_octets_length by tauto. pose proof (unsigned_len_range v). lia.
Qed.
Lemma items_elements vs : Forall item vs -> elements 31 (concat (map value_octets vs)).
Proof. induction 1 as [|v vs Hv _ IH]; [apply els_nil|]. apply els_cons; [by apply item_element|done]. Qed.
Lemma item_nonempty v : item v -> value_octets v <> [].
Proof.
  intros Hv. pose proof (item_element v Hv) as He. inversion He; subst; try apply app_nonempty. pose proof (header_nonempty t). destruct (header_of t); [cbn in *; lia|done].
Qed.
Lemma framed_values_reads body what (Hin : input body) vs : Forall item vs -> forall fuel acc offset, Z.of_nat (length acc + length vs) <= MAX_FRAMED_ITEMS ->
  drop offset body = concat (map value_octets vs) -> (offset <= length body)%nat -> (length vs <= fuel)%nat ->
  framed_values fuel body what acc offset = Ok (acc ++ vs).
Proof.
  induction 1 as [|v vs Hv Hvs IH]; intros fuel acc offset Hmax Hdrop Hoff Hfuel; cbn [map concat length] in *.
  - apply (f_equal length) in Hdrop. rewrite length_drop in Hdrop. cbn in Hdrop. destruct fuel; cbn [framed_values]; rewrite decide_True by lia; by rewrite app_nil_r.
  - pose proof (item_nonempty v Hv) as Hne. assert (Hs : starts body offset (value_octets v)) by (exists (concat (map value_octets vs)); done).
    pose proof (starts_bound _ _ _ Hs Hne) as Hb. destruct fuel as [|fuel]; [lia|]. cbn [framed_values].
    assert (0 < length (value_octets v))%nat by (by destruct (value_octets v); [|cbn; lia]). rewrite decide_False by lia.
    replace (MAX_FRAMED_ITEMS <=? Z.of_nat (length acc)) with false by lia. rewrite (item_reads v Hv body offset Hin Hs). cbn [rbind].
    rewrite IH; [by rewrite <-app_assoc|rewrite length_app; cbn [length]; lia| |lia|lia]. rewrite <-drop_drop, Hdrop. by rewrite drop_app_length.
Qed.
Definition framed (vs : list PropertyValue) : PropertyValue := match vs with [v] => v | vs => ListValue vs end.
Lemma concat_items_length vs : Forall item vs -> (length vs <= length (concat (map value_octets vs)))%nat.
Proof.
  induction 1 as [|v vs Hv _ IH]; [done|]. cbn. rewrite length_app. pose proof (item_nonempty v Hv). destruct (value_octets v); [done|]. cbn. lia.
Qed.
Lemma input_take data n : input data -> input (take n data).
Proof. intros [Hw Hf]. split; [by apply Forall_take|]. rewrite length_take. lia. Qed.
(** A property's value in its frame: one item as itself, any other number as a list. *)
Lemma framed_reads data content number what vs rest : input data -> tag_ok number -> Forall item vs -> Z.of_nat (length vs) <= MAX_FRAMED_ITEMS ->
  starts data content (concat (map value_octets vs) ++ marker_octets number 15 ++ rest) ->
  decode_framed_value data content number what = Ok (framed vs, (content + length (concat (map value_octets vs)) + length (marker_octets number 15))%nat).
Proof.
  intros Hin Hn Hvs Hmax Hs. unfold decode_framed_value. assert (Hx : extract_context_value data content number =
    Ok (concat (map value_octets vs), (content + length (concat (map value_octets vs)) + length (marker_octets number 15))%nat)).
  { apply extract_iff; try (apply Hin). split; [done|]. split; [by apply items_elements|]. split; [|done]. rewrite app_assoc in Hs. by apply starts_app in Hs as [? _]. }
  rewrite Hx. cbn [rbind]. set (body := take (content + length (concat (map value_octets vs))) data).
  assert (Hlen : (content + length (concat (map value_octets vs)) <= length data)%nat).
  { rewrite app_assoc in Hs. pose proof (starts_end data content (concat (map value_octets vs) ++ marker_octets number 15) rest) as Hb.
    pose proof (header_nonempty (closes number)) as Hne. change (header_of (closes number)) with (marker_octets number 15) in Hne.
    rewrite length_app in Hb. assert (concat (map value_octets vs) ++ marker_octets number 15 <> []); [|specialize (Hb Hs); intuition lia].
    intros E. apply (f_equal length) in E. rewrite length_app in E. cbn in E. lia. }
  assert (Hb : length body = (content + length (concat (map value_octets vs)))%nat) by (unfold body; rewrite length_take; lia).
  rewrite (framed_values_reads body what (input_take _ _ Hin) vs Hvs); cbn [length rbind app Nat.add]; try done; try lia.
  - unfold body. apply starts_app in Hs as [[k Hk] _]. rewrite skipn_firstn_comm. replace (_ + _ - _)%nat with (length (concat (map value_octets vs))) by lia.
    rewrite Hk. by rewrite take_app_length.
  - rewrite Hb. pose proof (concat_items_length vs Hvs). lia.
Qed.
