(* ===== verification/Staging.v ===== *)
(** * Staging a value before it is written

    The encoders of the larger values write their members one after the other into a buffer on the stack and then hand it to the sink
    at once. [None] is the panic of the [expect] on a staging write that does not fit. *)

From S2P Require Import Prelude Sink WireError Tags Values ValuesTheorems TaggedTheorems.
Open Scope Z_scope.

(** [write(..)?] and what follows it. *)
Definition and_then {S A B} (r : option (S * Result A SinkFull)) (k : S -> option (S * Result B SinkFull)) : option (S * Result B SinkFull) :=
  match r with Some (s, Ok _) => k s | Some (s, Err e) => Some (s, Err e) | None => None end.
(** A write that fits advances the staging slice past the octets. *)
Definition staged (s : SliceSink) (l : bytes) : SliceSink := {| slice_buf := splice (slice_buf s) (slice_pos s) l; slice_pos := slice_pos s + length l |}.
Lemma slice_write_fits s l : (length l <= slice_room s)%nat -> slice_write s l = (staged s l, Ok tt).
Proof. intros Hf. unfold slice_write. by rewrite decide_False by lia. Qed.
Lemma slice_header_fits s l : (length l <= slice_room s)%nat -> write_header s l = (staged s l, Ok (length l)).
Proof.
  intros Hf. unfold write_header. cbn [remaining_capacity SliceSink_FrameSink sink_write]. rewrite decide_False by lia. by rewrite slice_write_fits.
Qed.
Lemma slice_scalar_fits s l : (length l <= slice_room s)%nat -> write_scalar s l = (staged s l, Ok (length l)).
Proof. exact (slice_header_fits s l). Qed.
Lemma slice_tagged_fits s tag class len l : len <= 253 -> (length l <= 8)%nat -> (length (tag_header tag class len ++ l) <= slice_room s)%nat ->
  write_tagged s tag class len l = Some (staged s (tag_header tag class len ++ l), Ok (length (tag_header tag class len ++ l))).
Proof. intros Hl Hc Hf. unfold write_tagged. rewrite stage_tagged_eq by done. change (Some (write_scalar s (tag_header tag class len ++ l)) = Some (staged s (tag_header tag class len ++ l), Ok (length (tag_header tag class len ++ l)))). by rewrite slice_scalar_fits. Qed.
(** What has been staged so far. *)
Definition holds (s : SliceSink) (n : nat) (l : bytes) : Prop := length (slice_buf s) = n /\ slice_pos s = length l /\ take (length l) (slice_buf s) = l.
Lemma holds_room s n l : holds s n l -> slice_room s = (n - length l)%nat.
Proof. intros (H1 & H2 & _). unfold slice_room. lia. Qed.
Lemma holds_fresh n : holds {| slice_buf := replicate n 0; slice_pos := 0 |} n [].
Proof. split; [apply length_replicate|done]. Qed.
Lemma holds_staged s n l l' : holds s n l -> (length l + length l' <= n)%nat -> holds (staged s l') n (l ++ l').
Proof.
  intros (H1 & H2 & H3) Hf. unfold holds, staged. cbn [slice_buf slice_pos]. rewrite H2, length_app, length_splice by lia. split_and!; [done|done|].
  unfold splice. rewrite H3, app_assoc. rewrite <-length_app. by rewrite take_app_length.
Qed.

(** A staged encoder: whatever is staged before it, its octets are staged next, if there is room. *)
Definition stages {A} (f : SliceSink -> option (SliceSink * Result A SinkFull)) (l : bytes) : Prop :=
  forall s n l0, holds s n l0 -> (length l0 + length l <= n)%nat -> exists s' a, f s = Some (s', Ok a) /\ holds s' n (l0 ++ l).
Lemma stages_then {A B} (f : SliceSink -> option (SliceSink * Result A SinkFull)) (g : SliceSink -> option (SliceSink * Result B SinkFull)) l1 l2 :
  stages f l1 -> stages g l2 -> stages (fun s => and_then (f s) g) (l1 ++ l2).
Proof.
  intros Hf Hg s n l0 Hs Hn. rewrite length_app in Hn. destruct (Hf s n l0 Hs ltac:(lia)) as (s1 & a & -> & H1). cbn [and_then].
  destruct (Hg s1 n _ H1) as (s2 & b & -> & H2); [rewrite length_app; lia|]. exists s2, b. rewrite <-app_assoc in H2. done.
Qed.
Lemma stages_done {A} (a : A) : stages (fun s => Some (s, Ok a)) [].
Proof. intros s n l0 Hs _. exists s, a. by rewrite app_nil_r. Qed.
(** [if let Some(member) = optional { encode(member)?; }] *)
Definition stage_opt {A} (f : SliceSink -> A -> option (SliceSink * Result nat SinkFull)) (o : option A) (s : SliceSink) : option (SliceSink * Result unit SinkFull) :=
  match o with Some a => and_then (f s a) (fun s => Some (s, Ok tt)) | None => Some (s, Ok tt) end.
Lemma stages_opt {A} (f : SliceSink -> A -> option (SliceSink * Result nat SinkFull)) (g : A -> bytes) o :
  (forall a, o = Some a -> stages (fun s => f s a) (g a)) -> stages (stage_opt f o) (opt_octets g o).
Proof.
  intros Hf. destruct o as [a|]; cbn [stage_opt opt_octets]; [|apply stages_done]. rewrite <-(app_nil_r (g a)). apply stages_then; [by apply Hf|apply stages_done].
Qed.
Lemma stages_tagged tag class len l : len <= 253 -> (length l <= 8)%nat -> stages (fun s => write_tagged s tag class len l) (tag_header tag class len ++ l).
Proof.
  intros Hl Hc s n l0 Hs Hn. eexists _, _. split; [apply slice_tagged_fits; [done|done|]; rewrite (holds_room _ _ _ Hs); lia|]. by apply holds_staged.
Qed.
Lemma ctx_unsigned_octets tag v : tag_header tag ContextTag (unsigned_len v) ++ unsigned_octets v = ctx tag (unsigned_octets v).
Proof. unfold ctx. rewrite unsigned_octets_length, Z2Nat.id; [done|]. pose proof (unsigned_len_range v). lia. Qed.
Lemma stages_ctx_unsigned tag v : stages (fun s => encode_ctx_unsigned_to_sink s tag v) (ctx tag (unsigned_octets v)).
Proof. rewrite <-ctx_unsigned_octets. pose proof (unsigned_len_range v). apply stages_tagged; [lia|rewrite unsigned_octets_length; lia]. Qed.
Lemma stages_ctx_object_id tag o : stages (fun s => encode_ctx_object_id_to_sink s tag o) (ctx tag (oid_encode o)).
Proof. apply (stages_tagged tag ContextTag 4 (oid_encode o)); [lia|cbn; lia]. Qed.
Lemma stages_marker number m : stages (fun s => Some (write_header s (marker_octets number m))) (marker_octets number m).
Proof.
  intros s n l0 Hs Hn. eexists _, _. split; [f_equal; apply slice_header_fits; rewrite (holds_room _ _ _ Hs); lia|]. by apply holds_staged.
Qed.
(** A staged value's octets, once in their buffer. *)
Definition stage_value {A} (n : nat) (stage : SliceSink -> option (SliceSink * Result A SinkFull)) : option bytes :=
  match stage {| slice_buf := replicate n 0; slice_pos := 0 |} with
  | Some (tail, Ok _) => Some (take (n - slice_room tail) (slice_buf tail))
  | _ => None
  end.
Lemma stage_value_octets {A} n (stage : SliceSink -> option (SliceSink * Result A SinkFull)) l : stages stage l -> (length l <= n)%nat -> stage_value n stage = Some l.
Proof.
  intros Hs Hn. unfold stage_value. destruct (Hs _ n [] (holds_fresh n)) as (s' & a & -> & H1); [done|]. cbn [app] in H1. rewrite (holds_room _ _ _ H1).
  destruct H1 as (H2 & H3 & H4). replace (n - (n - length l))%nat with (length l) by lia. by rewrite H4.
Qed.
