(* ===== verification/Timestamp.v ===== *)
(** * Timestamps (bacnet-encoding primitives/timestamp.rs, primitives/priority_value.rs, the timestamp decoders of primitives/mod.rs)

    A timestamp is staged whole, in a buffer of twelve octets or, with its frame, sixteen, and then written at once; the decoders take
    back exactly what the encoders write. *)

From Stdlib Require Import String.
From S2P Require Import Prelude Sink WireError Tags Values ValuesTheorems Utf8 Primitives PrimitivesTheorems Tagged TaggedTheorems Staging.
Open Scope Z_scope.

(** ** Encoding *)

(** [stage_choice] (bacnet-encoding/src/primitives/timestamp.rs) *)
Definition stage_choice (tail : SliceSink) (timestamp : BACnetTimeStamp) : option (SliceSink * Result nat SinkFull) :=
  let before := slice_room tail in
  let finish := fun tail => Some (tail, Ok (before - slice_room tail)%nat) in
  match timestamp with
  | TsTime time =>
      and_then (Some (encode_tag_to_sink tail 0 ContextTag 4)) (fun tail => and_then (Some (sink_write tail (time_encode time))) finish)
  | TsSequenceNumber number => and_then (encode_ctx_unsigned_to_sink tail 1 number) finish
  | TsDateTime date time =>
      and_then (Some (encode_opening_tag_to_sink tail 2)) (fun tail =>
      and_then (encode_app_date_to_sink tail date) (fun tail =>
      and_then (encode_app_time_to_sink tail time) (fun tail =>
      and_then (Some (encode_closing_tag_to_sink tail 2)) finish)))
  end.
(** [write_timestamp] has the steps of [write_scalar].
    [write_timestamp] (bacnet-encoding/src/primitives/timestamp.rs) *)
Definition write_timestamp {S} `{FrameSink S} (sink : S) (encoded : bytes) : S * Result nat SinkFull := write_scalar sink encoded.
(** [encode_timestamp_choice_to_sink] (bacnet-encoding/src/primitives/timestamp.rs) *)
Definition encode_timestamp_choice_to_sink {S} `{FrameSink S} (sink : S) (timestamp : BACnetTimeStamp) : option (S * Result nat SinkFull) :=
  match stage_choice {| slice_buf := replicate 12 0; slice_pos := 0 |} timestamp with
  | Some (encoded, Ok used) => Some (write_timestamp sink (take used (slice_buf encoded)))
  | _ => None
  end.
(** [encode_timestamp_to_sink] (bacnet-encoding/src/primitives/timestamp.rs) *)
Definition encode_timestamp_to_sink {S} `{FrameSink S} (sink : S) (tag_number : Z) (timestamp : BACnetTimeStamp) : option (S * Result nat SinkFull) :=
  match encode_opening_tag_to_sink {| slice_buf := replicate 16 0; slice_pos := 0 |} tag_number with
  | (tail, Ok opening) =>
      match stage_choice tail timestamp with
      | Some (tail, Ok inner) =>
          match encode_closing_tag_to_sink tail tag_number with
          | (tail, Ok closing) => Some (write_timestamp sink (take (opening + inner + closing) (slice_buf tail)))
          | (_, Err _) => None
          end
      | _ => None
      end
  | (_, Err _) => None
  end.
(** [encode_timestamp_choice] (bacnet-encoding/src/primitives/mod.rs) *)
Definition encode_timestamp_choice (buf : bytes) (ts : BACnetTimeStamp) : option bytes := expect_buf (encode_timestamp_choice_to_sink buf ts).
(** [encode_timestamp] (bacnet-encoding/src/primitives/mod.rs) *)
Definition encode_timestamp (buf : bytes) (tag_number : Z) (ts : BACnetTimeStamp) : option bytes := expect_buf (encode_timestamp_to_sink buf tag_number ts).
(** [encode_opening_tag] (bacnet-encoding/src/tags/encode.rs) *)
Definition encode_opening_tag (buf : bytes) (number : Z) : option bytes := expect_buf (Some (encode_opening_tag_to_sink buf number)).
(** [encode_closing_tag] (bacnet-encoding/src/tags/encode.rs) *)
Definition encode_closing_tag (buf : bytes) (number : Z) : option bytes := expect_buf (Some (encode_closing_tag_to_sink buf number)).
(** [PRIORITY_DATE_TIME_TAG] (bacnet-encoding/src/primitives/priority_value.rs) *)
Definition PRIORITY_DATE_TIME_TAG : Z := 1.
(** [encode_priority_date_time] (bacnet-encoding/src/primitives/priority_value.rs) *)
Definition encode_priority_date_time (buf : bytes) (date : Date) (time : Time) : option bytes :=
  buf ← encode_opening_tag buf PRIORITY_DATE_TIME_TAG;
  buf ← encode_app_date buf date;
  buf ← encode_app_time buf time;
  encode_closing_tag buf PRIORITY_DATE_TIME_TAG.

(** ** Decoding *)

(** [MAX_TIMESTAMP_SEQUENCE_NUMBER] (bacnet-encoding/src/primitives/mod.rs) *)
Definition MAX_TIMESTAMP_SEQUENCE_NUMBER : Z := 65535.
(** [decode_timestamp_choice] (bacnet-encoding/src/primitives/mod.rs) *)
Definition decode_timestamp_choice (data : bytes) (offset : nat) : Result (BACnetTimeStamp * nat) Error :=
  let what := "BACnetTimeStamp"%string in
  let? (inner_tag, inner_pos) := decode_tag data offset in
  if is_context inner_tag 0 then
    let? (octets, end_) := decode_ctx_fixed data offset 0 FIXED_TIME what in
    let? time := time_decode octets in Ok (TsTime time, end_)
  else if is_context inner_tag 1 then
    let? (octets, end_) := decode_ctx_primitive data offset 1 what in
    let? n := decode_unsigned octets in
    if MAX_TIMESTAMP_SEQUENCE_NUMBER <? n then
      Err (ErrDecoding (with_value (decode_error OutOfRange inner_pos "BACnetTimeStamp sequence-number {} exceeds 65535") n))
    else Ok (TsSequenceNumber n, end_)
  else if is_opening_tag inner_tag 2 then
    let date_time := "BACnetTimeStamp DateTime"%string in
    let? (date, date_end) := decode_app_fixed data inner_pos TAG_DATE 4 date_time in
    let? (time, time_end) := decode_app_fixed data date_end TAG_TIME 4 date_time in
    let? end_ := expect_closing data time_end 2 date_time in
    let? date := date_decode date in
    let? time := time_decode time in
    Ok (TsDateTime date time, end_)
  else Err (ErrDecoding (decode_error (misplaced_kind data offset inner_tag None) offset "BACnetTimeStamp: unexpected inner choice tag")).
(** [decode_timestamp] (bacnet-encoding/src/primitives/mod.rs) *)
Definition decode_timestamp (data : bytes) (offset : nat) (tag_number : Z) : Result (BACnetTimeStamp * nat) Error :=
  let? (tag, pos) := decode_tag data offset in
  if negb (is_opening_tag tag tag_number) then
    Err (ErrDecoding (with_value (decode_error (misplaced_kind data offset tag (Some tag_number)) offset "expected opening tag {} for BACnetTimeStamp") tag_number))
  else
    let? (ts, after_inner) := decode_timestamp_choice data pos in
    let? (close, final_pos) := decode_tag data after_inner in
    if negb (is_closing_tag close tag_number) then
      Err (ErrDecoding (with_value (decode_error (unclosed_kind close) after_inner "expected closing tag {} for BACnetTimeStamp") tag_number))
    else Ok (ts, final_pos).
(** [decode_framed_date_time] (bacnet-encoding/src/primitives/priority_value.rs) *)
Definition decode_framed_date_time (data : bytes) (offset : nat) (tag_number : Z) (what : string) : Result ((Date * Time) * nat) Error :=
  let? (tag, after) := decode_tag data offset in
  if negb (is_opening_tag tag tag_number) then
    Err (ErrDecoding (within (decode_error (misplaced_kind data offset tag (Some tag_number)) offset "expected an opening tag for a datetime") what))
  else
    let? (date, date_end) := decode_app_fixed data after TAG_DATE 4 what in
    let? (time, time_end) := decode_app_fixed data date_end TAG_TIME 4 what in
    let? end_ := expect_closing data time_end tag_number what in
    let? date := date_decode date in
    let? time := time_decode time in
    Ok ((date, time), end_).
(** [decode_priority_date_time] (bacnet-encoding/src/primitives/priority_value.rs) *)
Definition decode_priority_date_time (data : bytes) (offset : nat) : Result ((Date * Time) * nat) Error :=
  decode_framed_date_time data offset PRIORITY_DATE_TIME_TAG "BACnetPriorityValue datetime".

(** ** What is written *)

(** The octets of a timestamp. *)
Definition timestamp_octets (ts : BACnetTimeStamp) : bytes :=
  match ts with
  | TsTime time => ctx 0 (time_encode time)
  | TsSequenceNumber n => ctx 1 (unsigned_octets n)
  | TsDateTime date time => frame 2 (tagged TAG_DATE (date_encode date) ++ tagged TAG_TIME (time_encode time))
  end.
Definition wf_timestamp (ts : BACnetTimeStamp) : Prop :=
  match ts with TsTime t => wf_time t | TsSequenceNumber n => is_u16 n | TsDateTime d t => wf_date d /\ wf_time t end.
Lemma sequence_length n : is_u16 n -> (length (ctx 1 (unsigned_octets n)) <= 3)%nat.
Proof.
  unfold is_u16, U16_MAX. intros Hn. rewrite <-ctx_unsigned_octets, length_app, unsigned_octets_length.
  unfold unsigned_len. destruct (n <=? 255); [cbn; lia|]. replace (n <=? 65535) with true by lia. cbn. lia.
Qed.
Lemma timestamp_length ts : wf_timestamp ts -> (length (timestamp_octets ts) <= 12)%nat.
Proof. destruct ts; cbn [wf_timestamp timestamp_octets]; intros Hw; [by apply Nat.leb_le|pose proof (sequence_length number Hw); lia|by apply Nat.leb_le]. Qed.
Lemma stage_choice_holds s n l ts : holds s n l -> wf_timestamp ts -> (length l + length (timestamp_octets ts) <= n)%nat ->
  exists s', stage_choice s ts = Some (s', Ok (length (timestamp_octets ts))) /\ holds s' n (l ++ timestamp_octets ts).
Proof.
  intros Hs Hw Hf. pose proof (holds_room _ _ _ Hs) as Hr. unfold stage_choice. destruct ts as [t|m|d t]; cbn [timestamp_octets] in *; cbv zeta.
  - change (length (ctx 0 (time_encode t))) with 5%nat in *. unfold encode_tag_to_sink. rewrite slice_header_fits by (cbn; lia). cbn [and_then].
    pose proof (holds_staged s n l (tag_header 0 ContextTag 4) Hs ltac:(cbn; lia)) as H1. pose proof (holds_room _ _ _ H1) as R1.
    cbn [sink_write SliceSink_FrameSink]. rewrite slice_write_fits by (rewrite R1, length_app; cbn; lia). cbn [and_then].
    pose proof (holds_staged _ n _ (time_encode t) H1 ltac:(rewrite length_app; cbn; lia)) as H2. pose proof (holds_room _ _ _ H2) as R2. rewrite <-app_assoc in *.
    eexists. split; [|exact H2]. rewrite Hr, R2, length_app. cbn [length]. do 3 f_equal. cbn. lia.
  - unfold encode_ctx_unsigned_to_sink. pose proof (unsigned_len_range m). rewrite slice_tagged_fits; [|lia|rewrite unsigned_octets_length; lia|rewrite ctx_unsigned_octets; lia].
    rewrite ctx_unsigned_octets. cbn [and_then]. pose proof (holds_staged s n l _ Hs Hf) as H1. pose proof (holds_room _ _ _ H1) as R1.
    eexists. split; [|exact H1]. rewrite Hr, R1, length_app. do 3 f_equal. lia.
  - change (length (frame 2 (tagged TAG_DATE (date_encode d) ++ tagged TAG_TIME (time_encode t)))) with 12%nat in *.
    unfold encode_opening_tag_to_sink. rewrite slice_header_fits by (cbn; lia). cbn [and_then].
    pose proof (holds_staged s n l (marker_octets 2 14) Hs ltac:(cbn; lia)) as H1. unfold encode_app_date_to_sink.
    rewrite slice_tagged_fits; [|lia|cbn; lia|rewrite (holds_room _ _ _ H1), !length_app; cbn; lia]. cbn [and_then].
    pose proof (holds_staged _ n _ (tag_header TAG_DATE ApplicationTag 4 ++ date_encode d) H1 ltac:(rewrite length_app; cbn; lia)) as H2. unfold encode_app_time_to_sink.
    rewrite slice_tagged_fits; [|lia|cbn; lia|rewrite (holds_room _ _ _ H2), !length_app; cbn; lia]. cbn [and_then].
    pose proof (holds_staged _ n _ (tag_header TAG_TIME ApplicationTag 4 ++ time_encode t) H2 ltac:(rewrite !length_app; cbn; lia)) as H3. unfold encode_closing_tag_to_sink.
    rewrite slice_header_fits by (rewrite (holds_room _ _ _ H3), !length_app; cbn; lia). cbn [and_then].
    pose proof (holds_staged _ n _ (marker_octets 2 15) H3 ltac:(rewrite !length_app; cbn; lia)) as H4. eexists. split; [|rewrite <-!app_assoc in H4; exact H4].
    rewrite Hr, (holds_room _ _ _ H4), !length_app. do 3 f_equal. cbn. lia.
Qed.
(** The encoders append exactly the octets, without a panic. *)
Lemma encode_timestamp_choice_octets buf ts : wf_timestamp ts -> encode_timestamp_choice buf ts = Some (buf ++ timestamp_octets ts).
Proof.
  intros Hw. unfold encode_timestamp_choice, encode_timestamp_choice_to_sink. pose proof (timestamp_length ts Hw).
  destruct (stage_choice_holds _ 12 [] ts (holds_fresh 12) Hw) as (s' & -> & _ & _ & Ht); [cbn; lia|]. cbn [app] in Ht. rewrite Ht. done.
Qed.
Lemma encode_timestamp_octets buf tag ts : wf_timestamp ts -> encode_timestamp buf tag ts = Some (buf ++ frame tag (timestamp_octets ts)).
Proof.
  intros Hw. unfold encode_timestamp, encode_timestamp_to_sink. pose proof (timestamp_length ts Hw) as Hlen.
  assert (Hm : forall m, (length (marker_octets tag m) <= 2)%nat) by (intros m; unfold marker_octets; case_match; cbn; lia).
  pose proof (Hm 14) as M14. pose proof (Hm 15) as M15. unfold encode_opening_tag_to_sink. rewrite slice_header_fits by (unfold slice_room; cbn [slice_buf slice_pos]; rewrite length_replicate; lia).
  pose proof (holds_staged _ 16 [] (marker_octets tag 14) (holds_fresh 16) ltac:(cbn; lia)) as H1. cbn [app] in H1.
  destruct (stage_choice_holds _ 16 _ ts H1 Hw) as (s' & -> & H2); [lia|]. unfold encode_closing_tag_to_sink.
  rewrite slice_header_fits by (rewrite (holds_room _ _ _ H2), !length_app; lia).
  pose proof (holds_staged _ 16 _ (marker_octets tag 15) H2 ltac:(rewrite length_app; lia)) as (_ & _ & H3). rewrite <-app_assoc, !length_app in H3.
  rewrite <-Nat.add_assoc. unfold staged in *. cbn [slice_buf] in *. rewrite H3. done.
Qed.
Lemma decode_timestamp_choice_reads ts : wf_timestamp ts -> reads decode_timestamp_choice (timestamp_octets ts) ts.
Proof.
  intros Hw data offset Hin Hs. unfold decode_timestamp_choice. cbv zeta. destruct ts as [t|m|d t]; cbn [wf_timestamp timestamp_octets] in *.
  - destruct (header_tag data offset 0 ContextTag 4 (time_encode t) ltac:(done) ltac:(done) Hs) as (Ht & _). rewrite Ht. cbn [rbind].
    fold (ctx_tag 0 4). rewrite is_context_ctx. rewrite (ctx_fixed_reads 0 _ ltac:(done) FIXED_TIME (time_encode t)) by done. by destruct t.
  - destruct (header_tag data offset 1 ContextTag (Z.of_nat (length (unsigned_octets m))) (unsigned_octets m) ltac:(done) ltac:(pose proof (short_unsigned m); unfold short in *; lia) Hs) as (Ht & _). rewrite Ht. cbn [rbind].
    fold (ctx_tag 1 (Z.of_nat (length (unsigned_octets m)))). rewrite is_context_other by done. rewrite is_context_ctx.
    rewrite (ctx_primitive_reads 1 _ ltac:(done) (unsigned_octets m)) by (done || apply short_unsigned). cbn [rbind].
    unfold is_u16, U16_MAX in Hw. rewrite decode_unsigned_octets by (unfold is_u64, U64_MAX; lia). cbn [rbind]. unfold MAX_TIMESTAMP_SEQUENCE_NUMBER.
    by replace (65535 <? m) with false by lia.
  - unfold frame in Hs. rewrite <-app_assoc in Hs. destruct (opening_tag data offset 2 _ ltac:(done) Hs) as [Ht Hr]. rewrite Ht. cbn [rbind].
    change (is_context (opens 2) 0) with false. change (is_context (opens 2) 1) with false. change (is_opening_tag (opens 2) 2) with true. cbv match.
    apply starts_app in Hr as [Hd Hr]. rewrite (app_fixed_reads TAG_DATE _ ltac:(done) 4 (date_encode d)) by done. cbn [rbind].
    apply starts_app in Hr as [Htm Hr]. rewrite (app_fixed_reads TAG_TIME _ ltac:(done) 4 (time_encode t)) by done. cbn [rbind].
    rewrite (expect_closing_reads data _ 2 _ [] ltac:(done)) by (by rewrite app_nil_r). cbn [rbind]. destruct d, t. cbn [date_encode time_encode date_decode time_decode rbind].
    do 2 f_equal. unfold frame. rewrite !length_app. lia.
Qed.
(** A timestamp of any kind is staged and written whole in its frame, without a panic, and read back from the frame, wherever it
    stands, with the reader leaving off right after it. *)
Theorem timestamp_encode_decode ts tag buf rest : wf_timestamp ts -> tag_ok tag -> input (buf ++ frame tag (timestamp_octets ts) ++ rest) ->
  encode_timestamp buf tag ts = Some (buf ++ frame tag (timestamp_octets ts)) /\
  decode_timestamp (buf ++ frame tag (timestamp_octets ts) ++ rest) (length buf) tag = Ok (ts, (length buf + length (frame tag (timestamp_octets ts)))%nat).
Proof.
  intros Hw Hn Hin. split; [by apply encode_timestamp_octets|]. pose proof (starts_here buf (frame tag (timestamp_octets ts)) rest) as Hs.
  unfold frame in Hs at 2. set (data := buf ++ frame tag (timestamp_octets ts) ++ rest) in *. clearbody data. unfold decode_timestamp.
  destruct (opening_tag data _ tag _ Hn Hs) as [-> Hr]. cbn [rbind]. replace (is_opening_tag (opens tag) tag) with true by (unfold is_opening_tag; cbn; by rewrite Z.eqb_refl).
  cbn [negb]. apply starts_app in Hr as [Hc Hr]. rewrite (decode_timestamp_choice_reads ts Hw data _ Hin Hc). cbn [rbind].
  rewrite <-(app_nil_r (marker_octets tag 15)) in Hr. destruct (closing_tag data _ tag _ Hn Hr) as [-> _]. cbn [rbind].
  replace (is_closing_tag (closes tag) tag) with true by (unfold is_closing_tag; cbn; by rewrite Z.eqb_refl). cbn [negb]. unfold frame. rewrite !length_app. do 2 f_equal. lia.
Qed.
Lemma timestamp_encode_decode_witness : encode_timestamp [1] 15 (TsSequenceNumber 256) = Some [1; 254; 15; 26; 1; 0; 255; 15] /\
  decode_timestamp [1; 254; 15; 26; 1; 0; 255; 15; 9] 1 15 = Ok (TsSequenceNumber 256, 8%nat).
Proof. apply (timestamp_encode_decode (TsSequenceNumber 256) 15 [1] [9]); [done|done|]. split; [by repeat constructor|done]. Defined.
Lemma framed_date_time_reads tag what d t : tag_ok tag -> wf_date d -> wf_time t ->
  reads (fun data offset => decode_framed_date_time data offset tag what) (frame tag (tagged TAG_DATE (date_encode d) ++ tagged TAG_TIME (time_encode t))) (d, t).
Proof.
  intros Hn Hd Ht data offset Hin Hs. unfold decode_framed_date_time, frame in *. rewrite <-app_assoc in Hs. destruct (opening_tag data offset tag _ Hn Hs) as [-> Hr]. cbn [rbind].
  replace (is_opening_tag (opens tag) tag) with true by (unfold is_opening_tag; cbn; by rewrite Z.eqb_refl). cbn [negb].
  apply starts_app in Hr as [Hsd Hr]. rewrite (app_fixed_reads TAG_DATE _ ltac:(done) 4 (date_encode d)) by done. cbn [rbind].
  apply starts_app in Hr as [Htm Hr]. rewrite (app_fixed_reads TAG_TIME _ ltac:(done) 4 (time_encode t)) by done. cbn [rbind].
  rewrite (expect_closing_reads data _ tag _ [] Hn) by (by rewrite app_nil_r). cbn [rbind]. destruct d, t. cbn [date_encode time_encode date_decode time_decode rbind].
  do 2 f_equal. rewrite !length_app. lia.
Qed.
