(* ===== verification/References.v ===== *)
(** * References to objects and properties (bacnet-encoding constructed/reference_sinks.rs, object_property_reference.rs, read_access.rs,
    staging.rs and the reference codecs of constructed/mod.rs)

    The productions that name a property of an object, with or without an array index and a device, and the list of them a
    ReadPropertyMultiple request is made of. *)

From Stdlib Require Import String.
From S2P Require Import Prelude Sink WireError Tags Values ValuesTheorems Utf8 Primitives PrimitivesTheorems Tagged TaggedTheorems Staging Timestamp.
Open Scope Z_scope.

(** [PropertyReference] (bacnet-types/src/constructed/read_access.rs) *)
Record PropertyReference := { pr_property : Z; pr_index : option Z }.
(** [BACnetObjectPropertyReference] (bacnet-types/src/constructed/mod.rs) *)
Record BACnetObjectPropertyReference := { opr_object : ObjectIdentifier; opr_property : Z; opr_index : option Z }.
(** [BACnetDeviceObjectPropertyReference] (bacnet-types/src/constructed/mod.rs) *)
Record BACnetDeviceObjectPropertyReference := {
  dopr_object : ObjectIdentifier; dopr_property : Z; dopr_index : option Z; dopr_device : option ObjectIdentifier
}.
(** [BACnetDeviceObjectReference] (bacnet-types/src/constructed/mod.rs) *)
Record BACnetDeviceObjectReference := { dor_device : option ObjectIdentifier; dor_object : ObjectIdentifier }.
(** [ReadAccessSpecification] (bacnet-types/src/constructed/read_access.rs) *)
Record ReadAccessSpecification := { ras_object : ObjectIdentifier; ras_references : list PropertyReference }.

(** ** Encoding *)

(** [stage_and_write] (bacnet-encoding/src/constructed/reference_sinks.rs) *)
Definition stage_and_write {S} `{FrameSink S} (n : nat) (sink : S) (stage : SliceSink -> option (SliceSink * Result unit SinkFull))
  : option (S * Result nat SinkFull) := write_scalar sink <$> stage_value n stage.
(** [stage_object_property] (bacnet-encoding/src/constructed/reference_sinks.rs) *)
Definition stage_object_property (object : ObjectIdentifier) (property : Z) (index : option Z) (tail : SliceSink) : option (SliceSink * Result unit SinkFull) :=
  and_then (encode_ctx_object_id_to_sink tail 0 object) (fun tail =>
  and_then (encode_ctx_unsigned_to_sink tail 1 property) (stage_opt (fun tail index => encode_ctx_unsigned_to_sink tail 2 index) index)).
Section sinks.
Context {S : Type} `{FrameSink S}.

(** [encode_property_reference_to_sink] (bacnet-encoding/src/constructed/reference_sinks.rs) *)
Definition encode_property_reference_to_sink (sink : S) (r : PropertyReference) : option (S * Result nat SinkFull) :=
  stage_and_write 10 sink (fun tail =>
    and_then (encode_ctx_unsigned_to_sink tail 0 (pr_property r)) (stage_opt (fun tail index => encode_ctx_unsigned_to_sink tail 1 index) (pr_index r))).
(** [encode_object_property_reference_to_sink] (bacnet-encoding/src/constructed/reference_sinks.rs) *)
Definition encode_object_property_reference_to_sink (sink : S) (r : BACnetObjectPropertyReference) : option (S * Result nat SinkFull) :=
  stage_and_write 15 sink (stage_object_property (opr_object r) (opr_property r) (opr_index r)).
(** [encode_setpoint_reference_to_sink] (bacnet-encoding/src/constructed/reference_sinks.rs) *)
Definition encode_setpoint_reference_to_sink (sink : S) (r : BACnetObjectPropertyReference) : option (S * Result nat SinkFull) :=
  stage_and_write 17 sink (fun tail =>
    and_then (Some (encode_opening_tag_to_sink tail 0)) (fun tail =>
    and_then (stage_object_property (opr_object r) (opr_property r) (opr_index r) tail) (fun tail =>
    and_then (Some (encode_closing_tag_to_sink tail 0)) (fun tail => Some (tail, Ok tt))))).
(** [encode_device_object_property_reference_to_sink] (bacnet-encoding/src/constructed/reference_sinks.rs) *)
Definition encode_device_object_property_reference_to_sink (sink : S) (r : BACnetDeviceObjectPropertyReference) : option (S * Result nat SinkFull) :=
  stage_and_write 20 sink (fun tail =>
    and_then (stage_object_property (dopr_object r) (dopr_property r) (dopr_index r) tail)
      (stage_opt (fun tail device => encode_ctx_object_id_to_sink tail 3 device) (dopr_device r))).
(** [encode_device_object_reference_to_sink] (bacnet-encoding/src/constructed/reference_sinks.rs) *)
Definition encode_device_object_reference_to_sink (sink : S) (r : BACnetDeviceObjectReference) : option (S * Result nat SinkFull) :=
  stage_and_write 10 sink (fun tail =>
    and_then (stage_opt (fun tail device => encode_ctx_object_id_to_sink tail 0 device) (dor_device r) tail) (fun tail =>
    and_then (encode_ctx_object_id_to_sink tail 1 (dor_object r)) (fun tail => Some (tail, Ok tt)))).
End sinks.
(** [encode_property_reference] (bacnet-encoding/src/constructed/read_access.rs) *)
Definition encode_property_reference (buf : bytes) (r : PropertyReference) : option bytes := expect_buf (encode_property_reference_to_sink buf r).
(** [encode_object_property_reference] (bacnet-encoding/src/constructed/object_property_reference.rs) *)
Definition encode_object_property_reference (buf : bytes) (r : BACnetObjectPropertyReference) : option bytes := expect_buf (encode_object_property_reference_to_sink buf r).
(** [encode_setpoint_reference] (bacnet-encoding/src/constructed/object_property_reference.rs) *)
Definition encode_setpoint_reference (buf : bytes) (r : BACnetObjectPropertyReference) : option bytes := expect_buf (encode_setpoint_reference_to_sink buf r).
(** [encode_dopr_body] (bacnet-encoding/src/constructed/mod.rs) *)
Definition encode_dopr_body (buf : bytes) (r : BACnetDeviceObjectPropertyReference) : option bytes := expect_buf (encode_device_object_property_reference_to_sink buf r).
(** [encode_device_object_property_reference] (bacnet-encoding/src/constructed/mod.rs) *)
Definition encode_device_object_property_reference (buf : bytes) (r : BACnetDeviceObjectPropertyReference) : option bytes := encode_dopr_body buf r.
(** [encode_device_object_reference] (bacnet-encoding/src/constructed/staging.rs) *)
Definition encode_device_object_reference (buf : bytes) (r : BACnetDeviceObjectReference) : option bytes := expect_buf (encode_device_object_reference_to_sink buf r).
(** [for item in items { encode(buf, item); }] *)
Fixpoint encode_each {A} (encode : bytes -> A -> option bytes) (buf : bytes) (items : list A) : option bytes :=
  match items with [] => Some buf | a :: rest => buf ← encode buf a; encode_each encode buf rest end.
(** [encode_read_access_specification] (bacnet-encoding/src/constructed/read_access.rs) *)
Definition encode_read_access_specification (buf : bytes) (spec : ReadAccessSpecification) : option bytes :=
  buf ← encode_ctx_object_id buf 0 (ras_object spec);
  buf ← encode_opening_tag buf 1;
  buf ← encode_each encode_property_reference buf (ras_references spec);
  encode_closing_tag buf 1.

(** ** Decoding *)

(** [decode_property_reference] (bacnet-encoding/src/constructed/read_access.rs) *)
Definition decode_property_reference (data : bytes) (offset : nat) : Result (PropertyReference * nat) Error :=
  let? (property, next) := decode_ctx_unsigned width_u32 data offset 0 "PropertyReference property-id" in
  let? (index, offset) := decode_optional_ctx data next 1 "PropertyReference array-index" (decode_ctx_unsigned width_u32) in
  Ok ({| pr_property := property; pr_index := index |}, offset).
(** [decode_object_property_reference_at] (bacnet-encoding/src/constructed/object_property_reference.rs) *)
Definition decode_object_property_reference_at (data : bytes) (offset : nat) : Result (BACnetObjectPropertyReference * nat) Error :=
  let what := "BACnetObjectPropertyReference"%string in
  let? (object, offset) := decode_ctx_object_id data offset 0 what in
  let? (property, offset) := decode_ctx_unsigned width_u32 data offset 1 what in
  let? (index, offset) := decode_optional_ctx data offset 2 what (decode_ctx_unsigned width_u32) in
  let? device := next_is_context data offset 3 in
  if device : bool then Err (ErrDecoding (within (decode_error InvalidEncoding offset "[3] device-identifier is not part of this production") what))
  else Ok ({| opr_object := object; opr_property := property; opr_index := index |}, offset).
(** [decode_object_property_reference] (bacnet-encoding/src/constructed/object_property_reference.rs) *)
Definition decode_object_property_reference (data : bytes) : Result BACnetObjectPropertyReference Error :=
  let? (reference, end_) := decode_object_property_reference_at data 0 in
  let? _ := expect_end data end_ end_ "BACnetObjectPropertyReference" in Ok reference.
(** [decode_setpoint_reference_at] (bacnet-encoding/src/constructed/object_property_reference.rs) *)
Definition decode_setpoint_reference_at (data : bytes) (offset : nat) : Result (BACnetObjectPropertyReference * nat) Error :=
  let? (inner, after) := decode_ctx_constructed data offset 0 "BACnetSetpointReference" in
  let? (reference, end_) := decode_object_property_reference_at inner 0 in
  let? _ := expect_end inner end_ offset "BACnetSetpointReference" in Ok (reference, after).
(** [decode_setpoint_reference] (bacnet-encoding/src/constructed/object_property_reference.rs) *)
Definition decode_setpoint_reference (data : bytes) : Result (option BACnetObjectPropertyReference) Error :=
  if decide (data = []) then Ok None else
  let? (reference, after) := decode_setpoint_reference_at data 0 in
  let? _ := expect_end data after after "BACnetSetpointReference" in Ok (Some reference).
(** [decode_dopr_body] (bacnet-encoding/src/constructed/mod.rs) *)
Definition decode_dopr_body (data : bytes) (offset : nat) (what : string) : Result (BACnetDeviceObjectPropertyReference * nat) Error :=
  let? (object, offset) := decode_ctx_object_id data offset 0 what in
  let? (property, offset) := decode_ctx_unsigned width_u32 data offset 1 what in
  let? (index, offset) := decode_optional_ctx data offset 2 what (decode_ctx_unsigned width_u32) in
  let? (device, offset) := decode_optional_ctx data offset 3 what decode_ctx_object_id in
  Ok ({| dopr_object := object; dopr_property := property; dopr_index := index; dopr_device := device |}, offset).
(** [decode_device_object_property_reference] (bacnet-encoding/src/constructed/mod.rs) *)
Definition decode_device_object_property_reference (data : bytes) (offset : nat) : Result (BACnetDeviceObjectPropertyReference * nat) Error :=
  decode_dopr_body data offset "BACnetDeviceObjectPropertyReference".
(** The references of a specification, up to the closing tag; each takes an octet, so the data's length is rounds enough.
    [decode_read_access_specification] (bacnet-encoding/src/constructed/read_access.rs:80-107) *)
Fixpoint access_references (fuel : nat) (data : bytes) (found : list PropertyReference) (offset : nat) : Result (list PropertyReference * nat) Error :=
  let what := "ReadAccessSpecification"%string in
  let unclosed := Err (ErrDecoding (within (decode_error Missing offset "missing closing tag 1") what)) in
  match fuel with
  | O => unclosed
  | S fuel =>
      if decide (length data <= offset)%nat then unclosed else
      if MAX_FRAMED_ITEMS <=? Z.of_nat (length found) then
        Err (ErrDecoding (within (decode_error Overflow offset "property references exceed the item limit") what))
      else
        let? (tag, tag_end) := decode_tag data offset in
        if is_closing_tag tag 1 then Ok (found, tag_end) else
        let? (reference, next) := decode_property_reference data offset in
        access_references fuel data (found ++ [reference]) next
  end.
(** [decode_read_access_specification] (bacnet-encoding/src/constructed/read_access.rs) *)
Definition decode_read_access_specification (data : bytes) (offset : nat) : Result (ReadAccessSpecification * nat) Error :=
  let what := "ReadAccessSpecification"%string in
  let? (object, end_) := decode_ctx_object_id data offset 0 what in
  let? offset := expect_opening data end_ 1 what in
  let? (references, offset) := access_references (S (length data)) data [] offset in
  Ok ({| ras_object := object; ras_references := references |}, offset).
(** [decode_device_object_reference] (bacnet-encoding/src/constructed/staging.rs) *)
Definition decode_device_object_reference (data : bytes) (offset : nat) : Result (BACnetDeviceObjectReference * nat) Error :=
  let what := "BACnetDeviceObjectReference"%string in
  let? (device, offset) := decode_optional_ctx data offset 0 what decode_ctx_object_id in
  let? (object, end_) := decode_ctx_object_id data offset 1 what in
  Ok ({| dor_device := device; dor_object := object |}, end_).

(** ** What is written and read back *)

Definition wf_index (o : option Z) : Prop := match o with Some i => is_u32 i | None => True end.
Definition wf_oid_opt (o : option ObjectIdentifier) : Prop := match o with Some i => wf_oid i | None => True end.
Definition wf_reference (r : PropertyReference) : Prop := is_u32 (pr_property r) /\ wf_index (pr_index r).
Definition wf_opr (r : BACnetObjectPropertyReference) : Prop := wf_oid (opr_object r) /\ is_u32 (opr_property r) /\ wf_index (opr_index r).
Definition wf_dopr (r : BACnetDeviceObjectPropertyReference) : Prop :=
  wf_oid (dopr_object r) /\ is_u32 (dopr_property r) /\ wf_index (dopr_index r) /\ wf_oid_opt (dopr_device r).
Definition wf_dor (r : BACnetDeviceObjectReference) : Prop := wf_oid_opt (dor_device r) /\ wf_oid (dor_object r).
Definition unsigned_member (tag v : Z) : bytes := ctx tag (unsigned_octets v).
Definition oid_member (tag : Z) (o : ObjectIdentifier) : bytes := ctx tag (oid_encode o).
Definition reference_octets (r : PropertyReference) : bytes := unsigned_member 0 (pr_property r) ++ opt_octets (unsigned_member 1) (pr_index r).
Definition object_property_octets (o : ObjectIdentifier) (p : Z) (i : option Z) : bytes :=
  oid_member 0 o ++ unsigned_member 1 p ++ opt_octets (unsigned_member 2) i.
Definition opr_octets (r : BACnetObjectPropertyReference) : bytes := object_property_octets (opr_object r) (opr_property r) (opr_index r).
Definition dopr_octets (r : BACnetDeviceObjectPropertyReference) : bytes :=
  object_property_octets (dopr_object r) (dopr_property r) (dopr_index r) ++ opt_octets (oid_member 3) (dopr_device r).
Definition dor_octets (r : BACnetDeviceObjectReference) : bytes := opt_octets (oid_member 0) (dor_device r) ++ oid_member 1 (dor_object r).
Definition specification_octets (s : ReadAccessSpecification) : bytes := oid_member 0 (ras_object s) ++ frame 1 (concat (map reference_octets (ras_references s))).

Lemma unsigned_member_length tag v : 0 <= tag <= 14 -> is_u32 v -> (2 <= length (unsigned_member tag v) <= 5)%nat.
Proof.
  intros Ht Hv. unfold unsigned_member. rewrite <-ctx_unsigned_octets, length_app, unsigned_octets_length, tag_header_fields. pose proof (unsigned_len_u32 v Hv).
  unfold number_ext, length_ext. replace (14 <? tag) with false by lia. replace (4 <? unsigned_len v) with false by lia. cbn. lia.
Qed.
Lemma oid_member_length tag o : 0 <= tag <= 14 -> length (oid_member tag o) = 5%nat.
Proof. intros Ht. unfold oid_member, ctx. rewrite length_app, tag_header_fields. unfold number_ext, length_ext. replace (14 <? tag) with false by lia. done. Qed.
Lemma opt_unsigned_length tag o : 0 <= tag <= 14 -> wf_index o -> (length (opt_octets (unsigned_member tag) o) <= 5)%nat.
Proof. destruct o; cbn [opt_octets wf_index]; [|cbn; lia]. intros Ht Hv. pose proof (unsigned_member_length tag z Ht Hv). lia. Qed.
Lemma opt_oid_length tag o : 0 <= tag <= 14 -> (length (opt_octets (oid_member tag) o) <= 5)%nat.
Proof. destruct o; cbn [opt_octets]; [|cbn; lia]. intros Ht. rewrite oid_member_length by done. lia. Qed.
Lemma stage_and_write_buf n stage (buf l : bytes) : stages stage l -> (length l <= n)%nat -> expect_buf (stage_and_write n buf stage) = Some (buf ++ l).
Proof. intros Hs Hn. unfold stage_and_write. by rewrite (stage_value_octets n stage l Hs Hn). Qed.
Lemma stages_object_property o p i : stages (stage_object_property o p i) (object_property_octets o p i).
Proof.
  apply stages_then; [apply stages_ctx_object_id|]. apply stages_then; [apply stages_ctx_unsigned|]. apply stages_opt. intros. apply stages_ctx_unsigned.
Qed.
Lemma encode_property_reference_octets buf r : wf_reference r -> encode_property_reference buf r = Some (buf ++ reference_octets r).
Proof.
  intros [Hp Hi]. apply stage_and_write_buf.
  - apply stages_then; [apply stages_ctx_unsigned|]. apply stages_opt. intros. apply stages_ctx_unsigned.
  - unfold reference_octets. rewrite length_app. pose proof (unsigned_member_length 0 (pr_property r) ltac:(lia) Hp). pose proof (opt_unsigned_length 1 (pr_index r) ltac:(lia) Hi). lia.
Qed.
Lemma object_property_length o p i : is_u32 p -> wf_index i -> (length (object_property_octets o p i) <= 15)%nat.
Proof.
  intros Hp Hi. unfold object_property_octets. rewrite !length_app, oid_member_length by lia.
  pose proof (unsigned_member_length 1 p ltac:(lia) Hp). pose proof (opt_unsigned_length 2 i ltac:(lia) Hi). lia.
Qed.
Lemma encode_opr_octets buf r : wf_opr r -> encode_object_property_reference buf r = Some (buf ++ opr_octets r).
Proof. intros (_ & Hp & Hi). unfold encode_object_property_reference, encode_object_property_reference_to_sink, opr_octets. apply stage_and_write_buf; [apply stages_object_property|exact (object_property_length _ _ _ Hp Hi)]. Qed.
Lemma encode_setpoint_octets buf r : wf_opr r -> encode_setpoint_reference buf r = Some (buf ++ frame 0 (opr_octets r)).
Proof.
  intros (_ & Hp & Hi). apply stage_and_write_buf.
  - apply stages_then; [apply (stages_marker 0 14)|]. apply stages_then; [apply stages_object_property|]. rewrite <-(app_nil_r (marker_octets 0 15)).
    apply stages_then; [apply (stages_marker 0 15)|apply stages_done].
  - unfold frame. rewrite !length_app. pose proof (object_property_length (opr_object r) _ _ Hp Hi). unfold opr_octets. cbn [length marker_octets Z.leb Z.compare]. lia.
Qed.
Lemma encode_dopr_octets buf r : wf_dopr r -> encode_dopr_body buf r = Some (buf ++ dopr_octets r).
Proof.
  intros (_ & Hp & Hi & Hd). apply stage_and_write_buf.
  - apply stages_then; [apply stages_object_property|]. apply stages_opt. intros. apply stages_ctx_object_id.
  - unfold dopr_octets. rewrite length_app. pose proof (object_property_length (dopr_object r) _ _ Hp Hi). pose proof (opt_oid_length 3 (dopr_device r) ltac:(lia)). lia.
Qed.
Lemma encode_dor_octets buf r : encode_device_object_reference buf r = Some (buf ++ dor_octets r).
Proof.
  apply stage_and_write_buf.
  - apply stages_then; [apply stages_opt; intros; apply stages_ctx_object_id|]. rewrite <-(app_nil_r (oid_member _ _)). apply stages_then; [apply stages_ctx_object_id|apply stages_done].
  - unfold dor_octets. rewrite length_app, oid_member_length by lia. pose proof (opt_oid_length 0 (dor_device r) ltac:(lia)). lia.
Qed.
Lemma encode_each_octets {A} (encode : bytes -> A -> option bytes) (f : A -> bytes) items : Forall (fun a => forall buf, encode buf a = Some (buf ++ f a)) items ->
  forall buf, encode_each encode buf items = Some (buf ++ concat (map f items)).
Proof.
  induction 1 as [|a items Ha _ IH]; intros buf; cbn [encode_each map concat]; [by rewrite app_nil_r|]. rewrite Ha. cbn. rewrite IH. by rewrite <-app_assoc.
Qed.
Lemma encode_oid_member buf tag o : encode_ctx_object_id buf tag o = Some (buf ++ oid_member tag o).
Proof. unfold encode_ctx_object_id, encode_ctx_object_id_to_sink. by rewrite write_tagged_buf by (cbn; lia). Qed.
Lemma encode_unsigned_member buf tag v : encode_ctx_unsigned buf tag v = Some (buf ++ unsigned_member tag v).
Proof.
  unfold encode_ctx_unsigned, encode_ctx_unsigned_to_sink. pose proof (unsigned_len_range v). rewrite write_tagged_buf; [|lia|rewrite unsigned_octets_length; lia]. by rewrite ctx_unsigned_octets.
Qed.
Lemma encode_opening_octets buf number : encode_opening_tag buf number = Some (buf ++ marker_octets number 14).
Proof. done. Qed.
Lemma encode_closing_octets buf number : encode_closing_tag buf number = Some (buf ++ marker_octets number 15).
Proof. done. Qed.
Lemma encode_specification_octets buf s : Forall wf_reference (ras_references s) ->
  encode_read_access_specification buf s = Some (buf ++ specification_octets s).
Proof.
  intros Hr. unfold encode_read_access_specification. rewrite encode_oid_member. cbn [mbind option_bind]. rewrite encode_opening_octets. cbn [mbind option_bind].
  rewrite (encode_each_octets encode_property_reference reference_octets) by (eapply Forall_impl; [exact Hr|]; intros; by apply encode_property_reference_octets).
  cbn [mbind option_bind]. rewrite encode_closing_octets. unfold specification_octets, frame. by rewrite <-!app_assoc.
Qed.
(** Reading, when what follows does not go on with an optional member left out. *)
Lemma reads_at {A} (decode : bytes -> nat -> Result (A * nat) Error) l a data offset rest : reads decode l a -> input data -> starts data offset (l ++ rest) ->
  decode data offset = Ok (a, (offset + length l)%nat) /\ starts data (offset + length l) rest.
Proof. intros Hr Hin [Hs Hrest]%starts_app. split; [by apply Hr|done]. Qed.
Lemma unsigned_member_reads what tag v : tag_ok tag -> is_u32 v -> reads (fun data offset => decode_ctx_unsigned width_u32 data offset tag what) (unsigned_member tag v) v.
Proof. intros Ht Hv. apply ctx_unsigned_reads; [done|by apply u32_u64|unfold is_u32 in Hv; cbn; lia]. Qed.
Lemma opt_index_reads what tag o data offset : input data -> tag_ok tag -> wf_index o -> starts data offset (opt_octets (unsigned_member tag) o) -> (o = None -> absent data offset tag) ->
  decode_optional_ctx data offset tag what (decode_ctx_unsigned width_u32) = Ok (o, (offset + length (opt_octets (unsigned_member tag) o))%nat).
Proof.
  intros Hin Ht Ho Hs Ha. apply (optional_reads (decode_ctx_unsigned width_u32) tag what unsigned_octets o data offset Hin Ht); try done.
  intros a ->. split; [apply short_unsigned|by apply unsigned_member_reads].
Qed.
Lemma opt_oid_reads what tag o data offset : input data -> tag_ok tag -> wf_oid_opt o -> starts data offset (opt_octets (oid_member tag) o) -> (o = None -> absent data offset tag) ->
  decode_optional_ctx data offset tag what decode_ctx_object_id = Ok (o, (offset + length (opt_octets (oid_member tag) o))%nat).
Proof.
  intros Hin Ht Ho Hs Ha. apply (optional_reads decode_ctx_object_id tag what oid_encode o data offset Hin Ht); try done.
  intros a ->. split; [apply short_small; cbn; lia|by apply ctx_object_id_reads].
Qed.
Lemma property_reference_reads r data offset rest : input data -> wf_reference r -> starts data offset (reference_octets r ++ rest) ->
  (pr_index r = None -> absent data (offset + length (reference_octets r)) 1) ->
  decode_property_reference data offset = Ok (r, (offset + length (reference_octets r))%nat).
Proof.
  intros Hin [Hp Hi] Hs Ha. unfold reference_octets in *. rewrite <-app_assoc in Hs. unfold decode_property_reference.
  destruct (reads_at _ _ _ _ _ _ (unsigned_member_reads "PropertyReference property-id" 0 _ ltac:(done) Hp) Hin Hs) as [-> Hs2]. cbn [rbind].
  apply starts_app in Hs2 as [Hs2 _]. rewrite (opt_index_reads _ 1 (pr_index r)); try done.
  - cbn [rbind]. destruct r. rewrite length_app. cbn. do 2 f_equal. lia.
  - intros E. specialize (Ha E). rewrite E in Ha. cbn [opt_octets] in Ha. by rewrite app_nil_r in Ha.
Qed.
Lemma object_property_reads what o p i data offset rest : input data -> wf_oid o -> is_u32 p -> wf_index i -> starts data offset (object_property_octets o p i ++ rest) ->
  (i = None -> absent data (offset + length (object_property_octets o p i)) 2) ->
  exists at1 at2 : nat,
    decode_ctx_object_id data offset 0 what = Ok (o, at1) /\ decode_ctx_unsigned width_u32 data at1 1 what = Ok (p, at2) /\
    decode_optional_ctx data at2 2 what (decode_ctx_unsigned width_u32) = Ok (i, (offset + length (object_property_octets o p i))%nat).
Proof.
  intros Hin Ho Hp Hi Hs Ha. unfold object_property_octets in *. rewrite <-!app_assoc in Hs.
  destruct (reads_at _ _ _ _ _ _ (ctx_object_id_reads 0 what ltac:(done) o Ho) Hin Hs) as [H1 Hs1].
  destruct (reads_at _ _ _ _ _ _ (unsigned_member_reads what 1 p ltac:(done) Hp) Hin Hs1) as [H2 Hs2]. apply starts_app in Hs2 as [Hs2 _].
  eexists _, _. split; [exact H1|]. split; [exact H2|]. rewrite (opt_index_reads what 2 i); try done.
  - fold (oid_member 0 o). rewrite !length_app. do 2 f_equal. lia.
  - intros ->. specialize (Ha eq_refl). cbn [opt_octets] in Ha. fold (oid_member 0 o). rewrite app_nil_r, length_app in Ha. by rewrite Nat.add_assoc in Ha.
Qed.
Lemma opr_reads r data offset rest : input data -> wf_opr r -> starts data offset (opr_octets r ++ rest) ->
  (opr_index r = None -> absent data (offset + length (opr_octets r)) 2) -> absent data (offset + length (opr_octets r)) 3 ->
  decode_object_property_reference_at data offset = Ok (r, (offset + length (opr_octets r))%nat).
Proof.
  intros Hin (Ho & Hp & Hi) Hs H2 H3. unfold opr_octets in *.
  destruct (object_property_reads "BACnetObjectPropertyReference" _ _ _ data offset rest Hin Ho Hp Hi Hs H2) as (a & b & E1 & E2 & E3).
  unfold decode_object_property_reference_at. cbv zeta. rewrite E1. cbn [rbind]. rewrite E2. cbn [rbind]. rewrite E3. cbn [rbind]. rewrite absent_context by done. by destruct r.
Qed.
Lemma dopr_reads what r data offset rest : input data -> wf_dopr r -> starts data offset (dopr_octets r ++ rest) ->
  (dopr_device r = None -> absent data (offset + length (dopr_octets r)) 3) ->
  (dopr_index r = None -> dopr_device r = None -> absent data (offset + length (dopr_octets r)) 2) ->
  decode_dopr_body data offset what = Ok (r, (offset + length (dopr_octets r))%nat).
Proof.
  intros Hin (Ho & Hp & Hi & Hd) Hs H3 H2. unfold dopr_octets in *. rewrite <-app_assoc in Hs. pose proof Hs as [_ Hs2]%starts_app. rewrite length_app in *.
  destruct (object_property_reads what _ _ _ data offset _ Hin Ho Hp Hi Hs) as (a & b & E1 & E2 & E3).
  { intros E. destruct (dopr_device r) as [device|]; cbn [opt_octets] in *.
    - right. exists (ctx_tag 3 4). split; [|split; [|done]]; [unfold wf_tag, MAX_TAG_LENGTH; cbn; split_and!; try done; lia|].
      unfold oid_member, ctx in Hs2. rewrite <-app_assoc in Hs2. by apply starts_app in Hs2 as [? _].
    - specialize (H2 E eq_refl). cbn [length] in H2. by rewrite Nat.add_0_r in H2. }
  unfold decode_dopr_body. rewrite E1. cbn [rbind]. rewrite E2. cbn [rbind]. rewrite E3. cbn [rbind]. apply starts_app in Hs2 as [Hs2 _].
  rewrite (opt_oid_reads what 3 (dopr_device r)); try done.
  - cbn [rbind]. destruct r. do 2 f_equal. cbn. lia.
  - intros E. specialize (H3 E). rewrite E in H3. cbn [opt_octets length] in H3. by rewrite Nat.add_0_r in H3.
Qed.
Lemma dor_reads r : wf_dor r -> reads decode_device_object_reference (dor_octets r) r.
Proof.
  intros [Hd Ho] data offset Hin Hs. unfold dor_octets in *. apply starts_app in Hs as [H1 H2]. unfold decode_device_object_reference. cbv zeta.
  rewrite (opt_oid_reads _ 0 (dor_device r)); try done.
  - cbn [rbind]. rewrite (ctx_object_id_reads 1 _ ltac:(done) (dor_object r)) by done. cbn [rbind]. destruct r. rewrite length_app. fold (oid_member 1 dor_object0). do 2 f_equal. cbn. lia.
  - intros E. rewrite E in H2. cbn [opt_octets length] in H2. rewrite Nat.add_0_r in H2. right. exists (ctx_tag 1 4). split; [|split; [|done]].
    + unfold wf_tag, MAX_TAG_LENGTH. cbn. split_and!; try done; lia.
    + unfold oid_member, ctx in H2. by apply starts_app in H2 as [? _].
Qed.
(** What stands after a reference in a specification: the next one, or the closing tag. *)
Lemma references_follow data offset rs rest : Forall wf_reference rs -> starts data offset (concat (map reference_octets rs) ++ marker_octets 1 15 ++ rest) -> absent data offset 1.
Proof.
  intros Hr Hs. right. destruct rs as [|r rs]; cbn [map concat app] in Hs.
  - exists (closes 1). split; [by apply closes_wf|]. split; [|done]. by apply starts_app in Hs as [? _].
  - apply Forall_cons in Hr as [[Hp _] _]. exists (ctx_tag 0 (unsigned_len (pr_property r))). split; [|split; [|done]].
    + unfold wf_tag, MAX_TAG_LENGTH. pose proof (unsigned_len_range (pr_property r)). cbn. split_and!; try done; lia.
    + unfold reference_octets, unsigned_member in Hs. rewrite <-ctx_unsigned_octets, <-!app_assoc in Hs. by apply starts_app in Hs as [? _].
Qed.
Lemma access_references_reads data (Hin : input data) rs rest : Forall wf_reference rs -> forall fuel found offset, Z.of_nat (length found + length rs) < MAX_FRAMED_ITEMS ->
  starts data offset (concat (map reference_octets rs) ++ marker_octets 1 15 ++ rest) -> (length rs < fuel)%nat ->
  access_references fuel data found offset = Ok (found ++ rs, (offset + length (concat (map reference_octets rs)) + 1)%nat).
Proof.
  induction 1 as [|r rs Hr Hrs IH]; intros fuel found offset Hmax Hs Hfuel; (destruct fuel as [|fuel]; [lia|]); cbn [access_references map concat] in *; cbv zeta.
  - destruct (closing_tag data offset 1 rest ltac:(done) Hs) as [Ht _]. pose proof (at_header data offset (closes 1) rest Hs). rewrite decide_False by lia.
    replace (MAX_FRAMED_ITEMS <=? Z.of_nat (length found)) with false by (cbn [length] in *; lia). rewrite Ht. cbn. by rewrite app_nil_r, Nat.add_0_r.
  - rewrite <-app_assoc in Hs. pose proof Hs as Hs'. unfold reference_octets, unsigned_member, ctx in Hs'. rewrite <-!app_assoc in Hs'. pose proof Hr as [Hp _].
    destruct (header_tag data offset 0 ContextTag (Z.of_nat (length (unsigned_octets (pr_property r)))) _ ltac:(done) ltac:(pose proof (short_unsigned (pr_property r)); unfold short in *; lia) Hs') as (Ht & _ & Hb).
    rewrite tag_header_fields in Hb. cbn [length] in Hb. rewrite decide_False by lia. cbn [length] in Hmax.
    replace (MAX_FRAMED_ITEMS <=? Z.of_nat (length found)) with false by lia. rewrite Ht. cbn [rbind]. change (is_closing_tag _ 1) with false. cbv match.
    pose proof Hs as [_ Hs2]%starts_app. rewrite (property_reference_reads r data offset _ Hin Hr Hs) by (intros _; by apply (references_follow data _ rs rest)).
    cbn [rbind]. rewrite IH; [rewrite <-app_assoc, length_app; do 2 f_equal; lia|rewrite length_app; cbn [length]; lia|done|cbn [length] in Hfuel; lia].
Qed.
(** A ReadPropertyMultiple request's specification, its references with and without an array index, is written without a panic and
    read back, wherever it stands. *)
Theorem specification_encode_decode s buf rest : wf_oid (ras_object s) -> Forall wf_reference (ras_references s) ->
  Z.of_nat (length (ras_references s)) < MAX_FRAMED_ITEMS -> input (buf ++ specification_octets s ++ rest) ->
  encode_read_access_specification buf s = Some (buf ++ specification_octets s) /\
  decode_read_access_specification (buf ++ specification_octets s ++ rest) (length buf) = Ok (s, (length buf + length (specification_octets s))%nat).
Proof.
  intros Ho Hr Hmax Hin. split; [by apply encode_specification_octets|]. pose proof (starts_here buf (specification_octets s) rest) as Hs.
  set (data := buf ++ specification_octets s ++ rest) in *. clearbody data. unfold specification_octets in *. unfold decode_read_access_specification. cbv zeta.
  destruct (reads_at _ _ _ _ _ _ (ctx_object_id_reads 0 "ReadAccessSpecification" ltac:(done) (ras_object s) Ho) Hin Hs) as [-> Hs2]. cbn [rbind].
  unfold frame in Hs2. destruct (expect_opening_reads data _ 1 "ReadAccessSpecification" _ ltac:(done) Hs2) as [-> Hs3]. cbn [rbind].
  rewrite <-(app_nil_r (marker_octets 1 15)) in Hs3.
  assert (Hlen : (length (ras_references s) <= length data)%nat).
  { pose proof (starts_end data _ _ _ Hs3) as Hb. assert (length (ras_references s) <= length (concat (map reference_octets (ras_references s))))%nat as Hc.
    { clear -Hr. induction Hr as [|r rs [Hp _] _ IH]; [done|]. cbn [map concat length]. rewrite length_app. unfold reference_octets at 1. rewrite length_app.
      pose proof (unsigned_member_length 0 (pr_property r) ltac:(lia) Hp). lia. }
    destruct (decide (concat (map reference_octets (ras_references s)) = [])) as [E|E]; [rewrite E in Hc; cbn in Hc; lia|]. specialize (Hb E). lia. }
  rewrite (access_references_reads data Hin (ras_references s) []); [|done|cbn [length]; lia|done|lia]. cbn [rbind app].
  destruct s as [o rs]. cbn [ras_object ras_references]. do 2 f_equal. unfold frame. rewrite !length_app. change (length (marker_octets 1 14)) with 1%nat. change (length (marker_octets 1 15)) with 1%nat. unfold oid_member. lia.
Qed.
Lemma specification_encode_decode_witness :
  let s := {| ras_object := {| object_type := 0; instance_number := 5 |}; ras_references := [{| pr_property := 85; pr_index := None |}; {| pr_property := 87; pr_index := Some 3 |}] |} in
  decode_read_access_specification [12; 0; 0; 0; 5; 30; 9; 85; 9; 87; 25; 3; 31; 7] 0 = Ok (s, 13%nat).
Proof.
  cbv zeta. apply (specification_encode_decode {| ras_object := {| object_type := 0; instance_number := 5 |}; ras_references := [{| pr_property := 85; pr_index := None |}; {| pr_property := 87; pr_index := Some 3 |}] |} [] [7]).
  - unfold wf_oid, MAX_INSTANCE. cbn. lia.
  - repeat constructor; cbn; try done; unfold is_u32, U32_MAX; lia.
  - done.
  - split; [by repeat constructor|done].
Defined.
