(* ===== verification/Apdu.v ===== *)
(** * Application-layer PDUs (bacnet-encoding apdu/mod.rs, apdu/header.rs, apdu/formal_error.rs)

    The eight PDU types, their codec, the borrowed header of the ones that carry service parameters, and the structured error bodies some
    services define. Code sets (services, reasons, error classes and codes) are kept as their raw numbers. *)

From Stdlib Require Import String.
From S2P Require Import Prelude Sink WireError Tags Values Utf8 Primitives Tagged References.
Open Scope Z_scope.

(** [byte & mask != 0] *)
Definition has_bit (b mask : Z) : bool := negb (Z.land b mask =? 0).
(** [PduType] (bacnet-types/src/enums/protocol.rs:9-9) *)
Definition PDU_CONFIRMED_REQUEST : Z := 0.
(** [PduType] (bacnet-types/src/enums/protocol.rs:10-10) *)
Definition PDU_UNCONFIRMED_REQUEST : Z := 1.
(** [PduType] (bacnet-types/src/enums/protocol.rs:11-11) *)
Definition PDU_SIMPLE_ACK : Z := 2.
(** [PduType] (bacnet-types/src/enums/protocol.rs:12-12) *)
Definition PDU_COMPLEX_ACK : Z := 3.
(** [PduType] (bacnet-types/src/enums/protocol.rs:13-13) *)
Definition PDU_SEGMENT_ACK : Z := 4.
(** [PduType] (bacnet-types/src/enums/protocol.rs:14-14) *)
Definition PDU_ERROR : Z := 5.
(** [PduType] (bacnet-types/src/enums/protocol.rs:15-15) *)
Definition PDU_REJECT : Z := 6.
(** [PduType] (bacnet-types/src/enums/protocol.rs:16-16) *)
Definition PDU_ABORT : Z := 7.

(** ** The two header fields that name a size *)

(** [MaxSegments::from_capacity] (bacnet-encoding/src/apdu/header.rs) *)
Definition max_segments_from_capacity (capacity : option Z) : option Z :=
  match capacity with
  | None => Some 0
  | Some n =>
      if n <=? 1 then None else if n <=? 3 then Some 1 else if n <=? 7 then Some 2 else if n <=? 15 then Some 3 else
      if n <=? 31 then Some 4 else if n <=? 63 then Some 5 else if n =? 64 then Some 6 else Some 7
  end.
(** [MaxSegments::from_bits] (bacnet-encoding/src/apdu/header.rs:80-82) *)
Definition max_segments_from_bits (bits : Z) : Z := Z.land bits 7.
(** [MaxSegments::count] (bacnet-encoding/src/apdu/header.rs) *)
Definition max_segments_count (field : Z) : option Z :=
  if field =? 0 then None else if field =? 7 then Some 255 else Some (Z.shiftl 1 field).
(** [MAX_APDU_OCTETS] (bacnet-encoding/src/apdu/header.rs) *)
Definition MAX_APDU_OCTETS : list Z := [50; 128; 206; 480; 1024; 1476].
(** [MaxApdu::from_octets] (bacnet-encoding/src/apdu/header.rs) *)
Definition max_apdu_from_octets (octets : Z) : option Z :=
  Z.of_nat <$> (fst <$> list_find (fun o => o = octets) MAX_APDU_OCTETS).
(** [MaxApdu::at_or_below] (bacnet-encoding/src/apdu/header.rs) *)
Definition max_apdu_at_or_below (capacity : Z) : option Z :=
  (fun found => 5 - Z.of_nat (fst found)) <$> list_find (fun o => o <= capacity) (reverse MAX_APDU_OCTETS).
(** [MaxApdu::from_bits] (bacnet-encoding/src/apdu/header.rs:151-158) *)
Definition max_apdu_from_bits (bits : Z) : option Z := let code := Z.land bits 15 in if code <? 6 then Some code else None.
(** [MaxApdu::octets] (bacnet-encoding/src/apdu/header.rs:166-168) *)
Definition max_apdu_octets (field : Z) : Z := default 0 (MAX_APDU_OCTETS !! Z.to_nat field).
(** [encode_max_segments] (bacnet-encoding/src/apdu/mod.rs) *)
Definition encode_max_segments (value : option Z) : Result Z Error :=
  match max_segments_from_capacity value with
  | Some field => Ok field
  | None => Err (ErrRange {| ra_label := "invalid max-segments-accepted {}; expected 2..=255 or unspecified"; ra_values := (default 0 value, 0) |})
  end.
(** [validate_max_segments] (bacnet-encoding/src/apdu/mod.rs) *)
Definition validate_max_segments (value : option Z) : Result unit Error := let? _ := encode_max_segments value in Ok tt.
(** [decode_max_segments] (bacnet-encoding/src/apdu/mod.rs) *)
Definition decode_max_segments (value : Z) : option Z := max_segments_count (max_segments_from_bits value).
(** [advertised_max_segments] (bacnet-encoding/src/apdu/mod.rs) *)
Definition advertised_max_segments (configured : option Z) : option Z :=
  field ← max_segments_from_capacity configured;
  match max_segments_count field with Some 255 => None | decoded => decoded end.
(** [MINIMUM_MESSAGE_SIZE] (bacnet-encoding/src/apdu/mod.rs) *)
Definition MINIMUM_MESSAGE_SIZE : Z := 50.
(** [max_apdu_header_at_or_below] (bacnet-encoding/src/apdu/mod.rs) *)
Definition max_apdu_header_at_or_below (capacity : Z) : Result Z Error :=
  ok_or (max_apdu_octets <$> max_apdu_at_or_below capacity) (ErrRange {| ra_label := "local APDU capacity {} is below 50"; ra_values := (capacity, 0) |}).
(** [is_valid_max_apdu_length] (bacnet-encoding/src/apdu/mod.rs) *)
Definition is_valid_max_apdu_length (value : Z) : bool := is_some (max_apdu_from_octets value).
(** [encode_max_apdu] (bacnet-encoding/src/apdu/mod.rs) *)
Definition encode_max_apdu (value : Z) : Result Z Error :=
  ok_or (max_apdu_from_octets value)
    (ErrRange {| ra_label := "invalid max-APDU-length {}; expected one of 50, 128, 206, 480, 1024, 1476"; ra_values := (value, 0) |}).
(** [validate_max_apdu_length] (bacnet-encoding/src/apdu/mod.rs) *)
Definition validate_max_apdu_length (value : Z) : Result unit Error := let? _ := encode_max_apdu value in Ok tt.
(** [decode_max_apdu] (bacnet-encoding/src/apdu/mod.rs) *)
Definition decode_max_apdu (value : Z) : Result Z Error :=
  ok_or (max_apdu_octets <$> max_apdu_from_bits value)
    (ErrDecoding (with_value (decode_error InvalidEncoding 1 "reserved max-APDU-length field value {}") (Z.land value 15))).

(** ** The PDUs *)

(** [ConfirmedRequest] (bacnet-encoding/src/apdu/mod.rs) *)
Record ConfirmedRequest := {
  cr_segmented : bool; cr_more_follows : bool; cr_segmented_response_accepted : bool; cr_max_segments : option Z; cr_max_apdu_length : Z;
  cr_invoke_id : Z; cr_sequence_number : option Z; cr_proposed_window_size : option Z; cr_service_choice : Z; cr_service_request : bytes
}.
(** [UnconfirmedRequest] (bacnet-encoding/src/apdu/mod.rs) *)
Record UnconfirmedRequest := { ur_service_choice : Z; ur_service_request : bytes }.
(** [SimpleAck] (bacnet-encoding/src/apdu/mod.rs) *)
Record SimpleAck := { sa_invoke_id : Z; sa_service_choice : Z }.
(** [ComplexAck] (bacnet-encoding/src/apdu/mod.rs) *)
Record ComplexAck := {
  ca_segmented : bool; ca_more_follows : bool; ca_invoke_id : Z; ca_sequence_number : option Z; ca_proposed_window_size : option Z;
  ca_service_choice : Z; ca_service_ack : bytes
}.
(** [SegmentAck] (bacnet-encoding/src/apdu/mod.rs) *)
Record SegmentAck := { sg_negative_ack : bool; sg_sent_by_server : bool; sg_invoke_id : Z; sg_sequence_number : Z; sg_actual_window_size : Z }.
(** [ErrorPdu] (bacnet-encoding/src/apdu/mod.rs) *)
Record ErrorPdu := { er_invoke_id : Z; er_service_choice : Z; er_error_class : Z; er_error_code : Z; er_error_data : bytes }.
(** [RejectPdu] (bacnet-encoding/src/apdu/mod.rs) *)
Record RejectPdu := { rj_invoke_id : Z; rj_reject_reason : Z }.
(** [AbortPdu] (bacnet-encoding/src/apdu/mod.rs) *)
Record AbortPdu := { ab_sent_by_server : bool; ab_invoke_id : Z; ab_abort_reason : Z }.
(** [Apdu] (bacnet-encoding/src/apdu/mod.rs) *)
Inductive Apdu :=
| ApduConfirmedRequest (pdu : ConfirmedRequest) | ApduUnconfirmedRequest (pdu : UnconfirmedRequest) | ApduSimpleAck (pdu : SimpleAck)
| ApduComplexAck (pdu : ComplexAck) | ApduSegmentAck (pdu : SegmentAck) | ApduError (pdu : ErrorPdu) | ApduReject (pdu : RejectPdu)
| ApduAbort (pdu : AbortPdu).
(** [RemoteError] (bacnet-types/src/error/remote.rs) *)
Inductive RemoteError := RemoteErr (class code : Z) | RemoteReject (reason : Z) | RemoteAbort (reason : Z).
(** [Apdu::remote_error] (bacnet-encoding/src/apdu/remote_error.rs:48-68) *)
Definition remote_error (a : Apdu) : option RemoteError :=
  match a with
  | ApduError p => Some (RemoteErr (er_error_class p) (er_error_code p))
  | ApduReject p => Some (RemoteReject (rj_reject_reason p))
  | ApduAbort p => Some (RemoteAbort (ab_abort_reason p))
  | _ => None
  end.

(** ** Structured error bodies *)

(** [error_type] (bacnet-encoding/src/apdu/formal_error.rs) *)
Definition error_type (data : bytes) (offset : nat) (number : Z) (what : string) : Result ((Z * Z) * nat) Error :=
  let? (error_body, end_) := decode_ctx_constructed data offset number what in
  let? (class, next) := decode_app_enumerated width_u16 error_body 0 what in
  let? (code, body_end) := decode_app_enumerated width_u16 error_body next what in
  let? _ := expect_end error_body body_end offset what in
  Ok ((class, code), end_).
(** [opens_with] (bacnet-encoding/src/apdu/formal_error.rs) *)
Definition opens_with (data : bytes) (number : Z) : bool := match decode_tag data 0 with Ok (tag, _) => is_opening_tag tag number | Err _ => false end.
(** [subscribe_cov_property_multiple] (bacnet-encoding/src/apdu/formal_error.rs) *)
Definition subscribe_cov_property_multiple (data : bytes) : Result (option (Z * Z)) Error :=
  let what := "SubscribeCOVPropertyMultiple-Error"%string in
  if opens_with data 0 then
    let? (codes, end_) := error_type data 0 0 what in
    let? _ := expect_end data end_ end_ what in Ok (Some codes)
  else if negb (opens_with data 1) then Ok None else
  let? (subscription, end_) := decode_ctx_constructed data 0 1 what in
  let? _ := expect_end data end_ end_ what in
  let? (_, offset) := decode_ctx_object_id subscription 0 0 what in
  let? (reference, after_reference) := decode_ctx_constructed subscription offset 1 what in
  let? (_, reference_end) := decode_property_reference reference 0 in
  let? _ := expect_end reference reference_end offset what in
  let? (codes, end_) := error_type subscription after_reference 2 what in
  let? _ := expect_end subscription end_ 0 what in
  Ok (Some codes).
(** [first_failed_write_attempt] (bacnet-encoding/src/apdu/formal_error.rs) *)
Definition first_failed_write_attempt (data : bytes) (offset : nat) (what : string) : Result nat Error :=
  let? (reference, end_) := decode_ctx_constructed data offset 1 what in
  let? _ := decode_object_property_reference reference in Ok end_.
(** [first_failed_element_number] (bacnet-encoding/src/apdu/formal_error.rs) *)
Definition first_failed_element_number (data : bytes) (offset : nat) (what : string) : Result nat Error :=
  let? (_, end_) := decode_ctx_unsigned width_u32 data offset 1 what in Ok end_.
(** [private_transfer_members] (bacnet-encoding/src/apdu/formal_error.rs) *)
Definition private_transfer_members (data : bytes) (offset : nat) (what : string) : Result nat Error :=
  let? (_, offset) := decode_ctx_unsigned width_u32 data offset 1 what in
  let? (_, offset) := decode_ctx_unsigned width_u32 data offset 2 what in
  if decide (offset = length data) then Ok offset else
  let? (_, end_) := decode_ctx_constructed data offset 3 what in Ok end_.
(** The identifiers in the frame; each takes an octet.
    [vt_session_identifiers] (bacnet-encoding/src/apdu/formal_error.rs:148-162) *)
Fixpoint session_identifiers (fuel : nat) (sessions : bytes) (position : nat) (what : string) : Result unit Error :=
  if decide (length sessions <= position)%nat then Ok tt else
  match fuel with
  | O => Ok tt
  | S fuel =>
      let? (session, next) := decode_app_unsigned width_u64 sessions position what in
      if U8_MAX <? session then Err (ErrDecoding (with_value (within (decode_error OutOfRange position "session identifier {} exceeds u8") what) session))
      else session_identifiers fuel sessions next what
  end.
(** [vt_session_identifiers] (bacnet-encoding/src/apdu/formal_error.rs) *)
Definition vt_session_identifiers (data : bytes) (offset : nat) (what : string) : Result nat Error :=
  if decide (offset = length data) then Ok offset else
  let? (sessions, end_) := decode_ctx_constructed data offset 1 what in
  let? _ := session_identifiers (length sessions) sessions 0 what in Ok end_.
(** The productions that open with the error in [0].
    [decode_formal_body] (bacnet-encoding/src/apdu/formal_error.rs:45-65) *)
Definition formal_members (service : Z) : option (string * (bytes -> nat -> string -> Result nat Error)) :=
  if service =? 16 then Some ("formal WPM Error"%string, first_failed_write_attempt) else
  if (service =? 8) || (service =? 9) then Some ("ChangeList-Error"%string, first_failed_element_number) else
  if service =? 10 then Some ("CreateObject-Error"%string, first_failed_element_number) else
  if service =? 18 then Some ("ConfirmedPrivateTransfer-Error"%string, private_transfer_members) else
  if service =? 22 then Some ("VTClose-Error"%string, vt_session_identifiers) else None.
(** [decode_formal_body] (bacnet-encoding/src/apdu/formal_error.rs) *)
Definition decode_formal_body (service : Z) (data : bytes) : Result (option (Z * Z)) Error :=
  match formal_members service with
  | Some (what, members) =>
      if negb (opens_with data 0) then Ok None else
      let? (codes, offset) := error_type data 0 0 what in
      let? end_ := members data offset what in
      let? _ := expect_end data end_ end_ what in
      Ok (Some codes)
  | None => if service =? 30 then subscribe_cov_property_multiple data else Ok None
  end.

(** ** Encoding *)

(** [valid_window_size] (bacnet-encoding/src/apdu/mod.rs) *)
Definition valid_window_size (label : string) (value : Z) : Result Z Error :=
  if (1 <=? value) && (value <=? 127) then Ok value else Err (ErrRange {| ra_label := label; ra_values := (value, 0) |}).
(** [pdu.segmented.then(..).transpose()?]: the sequence number and window a segment has. *)
Definition segment_fields (segmented : bool) (label : string) (sequence window : option Z) : Result bytes Error :=
  if segmented then let? window := valid_window_size label (default 1 window) in Ok [default 0 sequence; window] else Ok [].
(** [if flag { byte0 |= mask; }] *)
Definition flag (b : bool) (mask byte0 : Z) : Z := if b then Z.lor byte0 mask else byte0.
(** An encoder's buffer is unchanged when it refuses. *)
Definition appended (buf : bytes) (r : Result bytes Error) : bytes * Result unit Error :=
  match r with Ok octets => (buf ++ octets, Ok tt) | Err e => (buf, Err e) end.
(** [encode_confirmed_request] (bacnet-encoding/src/apdu/mod.rs) *)
Definition encode_confirmed_request (pdu : ConfirmedRequest) : Result bytes Error :=
  let? max_segments := encode_max_segments (cr_max_segments pdu) in
  let? max_apdu := encode_max_apdu (cr_max_apdu_length pdu) in
  let? segment := segment_fields (cr_segmented pdu) "ConfirmedRequest proposed-window-size {} outside BACnet range 1..=127"
                    (cr_sequence_number pdu) (cr_proposed_window_size pdu) in
  let byte0 := flag (cr_segmented_response_accepted pdu) 2 (flag (cr_more_follows pdu) 4 (flag (cr_segmented pdu) 8 (Z.shiftl PDU_CONFIRMED_REQUEST 4))) in
  Ok ([byte0; Z.lor (Z.shiftl max_segments 4) max_apdu; cr_invoke_id pdu] ++ segment ++ [cr_service_choice pdu] ++ cr_service_request pdu).
(** [encode_unconfirmed_request] (bacnet-encoding/src/apdu/mod.rs) *)
Definition encode_unconfirmed_request (pdu : UnconfirmedRequest) : bytes :=
  [Z.shiftl PDU_UNCONFIRMED_REQUEST 4; ur_service_choice pdu] ++ ur_service_request pdu.
(** [encode_simple_ack] (bacnet-encoding/src/apdu/mod.rs) *)
Definition encode_simple_ack (pdu : SimpleAck) : bytes := [Z.shiftl PDU_SIMPLE_ACK 4; sa_invoke_id pdu; sa_service_choice pdu].
(** [encode_complex_ack] (bacnet-encoding/src/apdu/mod.rs) *)
Definition encode_complex_ack (pdu : ComplexAck) : Result bytes Error :=
  let? segment := segment_fields (ca_segmented pdu) "ComplexAck proposed-window-size {} outside BACnet range 1..=127"
                    (ca_sequence_number pdu) (ca_proposed_window_size pdu) in
  let byte0 := flag (ca_more_follows pdu) 4 (flag (ca_segmented pdu) 8 (Z.shiftl PDU_COMPLEX_ACK 4)) in
  Ok ([byte0; ca_invoke_id pdu] ++ segment ++ [ca_service_choice pdu] ++ ca_service_ack pdu).
(** [encode_segment_ack] (bacnet-encoding/src/apdu/mod.rs) *)
Definition encode_segment_ack (pdu : SegmentAck) : Result bytes Error :=
  let? window := valid_window_size "SegmentACK actual-window-size {} outside BACnet range 1..=127" (sg_actual_window_size pdu) in
  let byte0 := flag (sg_sent_by_server pdu) 1 (flag (sg_negative_ack pdu) 2 (Z.shiftl PDU_SEGMENT_ACK 4)) in
  Ok [byte0; sg_invoke_id pdu; sg_sequence_number pdu; window].
(** [None] is a panic of an enumeration's encoder.
    [encode_error] (bacnet-encoding/src/apdu/mod.rs) *)
Definition encode_error (buf : bytes) (pdu : ErrorPdu) : option (bytes * Result unit Error) :=
  let formal := match decode_formal_body (er_service_choice pdu) (er_error_data pdu) with Ok formal => formal | Err _ => None end in
  let written := buf ++ [Z.shiftl PDU_ERROR 4; er_invoke_id pdu; er_service_choice pdu] in
  match formal with
  | Some (class, code) =>
      if negb (class =? er_error_class pdu) || negb (code =? er_error_code pdu)
      then Some (buf, Err (err_encode "formal Error body disagrees with ErrorPdu class/code"))
      else Some (written ++ er_error_data pdu, Ok tt)
  | None =>
      written ← encode_app_enumerated written (er_error_class pdu);
      written ← encode_app_enumerated written (er_error_code pdu);
      Some (written ++ er_error_data pdu, Ok tt)
  end.
(** [encode_reject] (bacnet-encoding/src/apdu/mod.rs) *)
Definition encode_reject (pdu : RejectPdu) : bytes := [Z.shiftl PDU_REJECT 4; rj_invoke_id pdu; rj_reject_reason pdu].
(** [encode_abort] (bacnet-encoding/src/apdu/mod.rs) *)
Definition encode_abort (pdu : AbortPdu) : bytes := [flag (ab_sent_by_server pdu) 1 (Z.shiftl PDU_ABORT 4); ab_invoke_id pdu; ab_abort_reason pdu].
(** [encode_apdu] (bacnet-encoding/src/apdu/mod.rs) *)
Definition encode_apdu (buf : bytes) (apdu : Apdu) : option (bytes * Result unit Error) :=
  match apdu with
  | ApduConfirmedRequest pdu => Some (appended buf (encode_confirmed_request pdu))
  | ApduUnconfirmedRequest pdu => Some (buf ++ encode_unconfirmed_request pdu, Ok tt)
  | ApduSimpleAck pdu => Some (buf ++ encode_simple_ack pdu, Ok tt)
  | ApduComplexAck pdu => Some (appended buf (encode_complex_ack pdu))
  | ApduSegmentAck pdu => Some (appended buf (encode_segment_ack pdu))
  | ApduError pdu => encode_error buf pdu
  | ApduReject pdu => Some (buf ++ encode_reject pdu, Ok tt)
  | ApduAbort pdu => Some (buf ++ encode_abort pdu, Ok tt)
  end.

(** ** Decoding *)

(** The sequence number and window of a segment at [offset], and the offset after them. *)
Definition decode_segment_fields (data : bytes) (segmented : bool) (offset least : nat) (label : string) : Result ((option Z * option Z) * nat) Error :=
  if segmented then
    if decide (length data < least)%nat then Err (decoding offset label) else Ok ((data !! offset, data !! S offset), (offset + 2)%nat)
  else Ok ((None, None), offset).
(** [decode_confirmed_request] (bacnet-encoding/src/apdu/mod.rs) *)
Definition decode_confirmed_request (data : bytes) : Result ConfirmedRequest Error :=
  match data with
  | byte0 :: byte1 :: invoke_id :: _ :: _ =>
      let segmented := has_bit byte0 8 in
      let max_segments := decode_max_segments (Z.land (Z.shiftr byte1 4) 7) in
      let? max_apdu_length := decode_max_apdu (Z.land byte1 15) in
      let? ((sequence_number, proposed_window_size), offset) :=
        decode_segment_fields data segmented 3 6 "segmented ConfirmedRequest too short for sequence/window fields" in
      let? service_choice := ok_or (data !! offset) (decoding offset "ConfirmedRequest missing service choice") in
      Ok {| cr_segmented := segmented; cr_more_follows := has_bit byte0 4; cr_segmented_response_accepted := has_bit byte0 2;
            cr_max_segments := max_segments; cr_max_apdu_length := max_apdu_length; cr_invoke_id := invoke_id;
            cr_sequence_number := sequence_number; cr_proposed_window_size := proposed_window_size;
            cr_service_choice := service_choice; cr_service_request := drop (S offset) data |}
  | _ => Err (buffer_too_short 4 (length data))
  end.
(** [decode_unconfirmed_request] (bacnet-encoding/src/apdu/mod.rs) *)
Definition decode_unconfirmed_request (data : bytes) : Result UnconfirmedRequest Error :=
  match data with
  | _ :: service :: request => Ok {| ur_service_choice := service; ur_service_request := request |}
  | _ => Err (buffer_too_short 2 (length data))
  end.
(** [decode_simple_ack] (bacnet-encoding/src/apdu/mod.rs) *)
Definition decode_simple_ack (data : bytes) : Result SimpleAck Error :=
  match data with
  | _ :: invoke_id :: service :: _ => Ok {| sa_invoke_id := invoke_id; sa_service_choice := service |}
  | _ => Err (buffer_too_short 3 (length data))
  end.
(** [decode_complex_ack] (bacnet-encoding/src/apdu/mod.rs) *)
Definition decode_complex_ack (data : bytes) : Result ComplexAck Error :=
  match data with
  | byte0 :: invoke_id :: _ :: _ =>
      let segmented := has_bit byte0 8 in
      let? ((sequence_number, proposed_window_size), offset) :=
        decode_segment_fields data segmented 2 5 "segmented ComplexAck too short for sequence/window fields" in
      let? service_choice := ok_or (data !! offset) (decoding offset "ComplexAck missing service choice") in
      Ok {| ca_segmented := segmented; ca_more_follows := has_bit byte0 4; ca_invoke_id := invoke_id; ca_sequence_number := sequence_number;
            ca_proposed_window_size := proposed_window_size; ca_service_choice := service_choice; ca_service_ack := drop (S offset) data |}
  | _ => Err (buffer_too_short 3 (length data))
  end.
(** [decode_segment_ack] (bacnet-encoding/src/apdu/mod.rs) *)
Definition decode_segment_ack (data : bytes) : Result SegmentAck Error :=
  match data with
  | byte0 :: invoke_id :: sequence :: window :: _ =>
      if (window =? 0) || (127 <? window) then
        Err (ErrDecoding (with_value (decode_error InvalidEncoding 3 "SegmentACK actual-window-size {} outside range 1..=127") window))
      else Ok {| sg_negative_ack := has_bit byte0 2; sg_sent_by_server := has_bit byte0 1; sg_invoke_id := invoke_id;
                 sg_sequence_number := sequence; sg_actual_window_size := window |}
  | _ => Err (buffer_too_short 4 (length data))
  end.
(** One of the plain pair's two enumerations, at [offset].
    [decode_error] (bacnet-encoding/src/apdu/mod.rs:754-776) *)
Definition error_enumerated (data : bytes) (offset : nat) (expected too_long too_wide : string) : Result (Z * nat) Error :=
  let? (tag, tag_end) := decode_tag data offset in
  if negb (bool_decide (tag_class tag = ApplicationTag)) || negb (tag_number tag =? TAG_ENUMERATED) then Err (decoding offset expected) else
  let? end_ := ok_or (checked_add tag_end (Z.to_nat (tag_length tag))) (decoding tag_end too_long) in
  if decide (length data < end_)%nat then Err (buffer_too_short end_ (length data)) else
  let? raw := decode_unsigned (take (end_ - tag_end) (drop tag_end data)) in
  if raw <=? U16_MAX then Ok (raw, end_) else Err (ErrDecoding (with_value (decode_error OutOfRange tag_end too_wide) raw)).
(** [decode_error] (bacnet-encoding/src/apdu/mod.rs) *)
Definition decode_error_pdu (data : bytes) : Result ErrorPdu Error :=
  match data with
  | _ :: invoke_id :: service_choice :: _ :: _ :: _ =>
      let? formal := decode_formal_body service_choice (drop 3 data) in
      match formal with
      | Some (class, code) =>
          Ok {| er_invoke_id := invoke_id; er_service_choice := service_choice; er_error_class := class; er_error_code := code;
                er_error_data := drop 3 data |}
      | None =>
          let? (class, offset) := error_enumerated data 3 "ErrorPDU error class: expected application-tagged enumerated"
                                    "ErrorPDU error class length overflow" "ErrorPDU error class {} exceeds u16" in
          let? (code, offset) := error_enumerated data offset "ErrorPDU error code: expected application-tagged enumerated"
                                    "ErrorPDU error code length overflow" "ErrorPDU error code {} exceeds u16" in
          Ok {| er_invoke_id := invoke_id; er_service_choice := service_choice; er_error_class := class; er_error_code := code;
                er_error_data := drop offset data |}
      end
  | _ => Err (buffer_too_short 5 (length data))
  end.
(** [decode_reject] (bacnet-encoding/src/apdu/mod.rs) *)
Definition decode_reject (data : bytes) : Result RejectPdu Error :=
  match data with
  | _ :: invoke_id :: reason :: _ => Ok {| rj_invoke_id := invoke_id; rj_reject_reason := reason |}
  | _ => Err (buffer_too_short 3 (length data))
  end.
(** [decode_abort] (bacnet-encoding/src/apdu/mod.rs) *)
Definition decode_abort (data : bytes) : Result AbortPdu Error :=
  match data with
  | byte0 :: invoke_id :: reason :: _ => Ok {| ab_sent_by_server := has_bit byte0 1; ab_invoke_id := invoke_id; ab_abort_reason := reason |}
  | _ => Err (buffer_too_short 3 (length data))
  end.
Definition map_ok {A B} (f : A -> B) (r : Result A Error) : Result B Error := let? a := r in Ok (f a).
(** [decode_apdu] (bacnet-encoding/src/apdu/mod.rs) *)
Definition decode_apdu (data : bytes) : Result Apdu Error :=
  match data with
  | [] => Err (decoding 0 "APDU data is empty")
  | first :: _ =>
      let pdu_type := Z.land (Z.shiftr first 4) 15 in
      if pdu_type =? PDU_CONFIRMED_REQUEST then map_ok ApduConfirmedRequest (decode_confirmed_request data) else
      if pdu_type =? PDU_UNCONFIRMED_REQUEST then map_ok ApduUnconfirmedRequest (decode_unconfirmed_request data) else
      if pdu_type =? PDU_SIMPLE_ACK then map_ok ApduSimpleAck (decode_simple_ack data) else
      if pdu_type =? PDU_COMPLEX_ACK then map_ok ApduComplexAck (decode_complex_ack data) else
      if pdu_type =? PDU_SEGMENT_ACK then map_ok ApduSegmentAck (decode_segment_ack data) else
      if pdu_type =? PDU_ERROR then map_ok ApduError (decode_error_pdu data) else
      if pdu_type =? PDU_REJECT then map_ok ApduReject (decode_reject data) else
      if pdu_type =? PDU_ABORT then map_ok ApduAbort (decode_abort data) else
      Err (ErrDecoding (with_value (decode_error InvalidEncoding 0 "unknown PDU type nibble: {:#x}") pdu_type))
  end.

(** ** The borrowed header *)

(** [ConfirmedRequestHeader] (bacnet-encoding/src/apdu/header.rs) *)
Record ConfirmedRequestHeader := {
  ch_segmented_response_accepted : bool; ch_max_segments : Z; ch_max_apdu : Z; ch_invoke_id : Z; ch_service_choice : Z
}.
(** [ApduHeader] (bacnet-encoding/src/apdu/header.rs) *)
Inductive ApduHeader :=
| HdrConfirmedRequest (header : ConfirmedRequestHeader) | HdrUnconfirmedRequest (service : Z) | HdrComplexAck (invoke_id service_choice : Z)
| HdrError (invoke_id service_choice : Z) | HdrReject (invoke_id reason : Z) | HdrAbort (server : bool) (invoke_id reason : Z).
(** [segmented_refusal] (bacnet-encoding/src/apdu/header.rs) *)
Definition segmented_refusal (label : string) : Error := ErrDecoding (within (decode_error Unsupported 0 label) "APDU header").
(** [ApduHeader::decode] (bacnet-encoding/src/apdu/header.rs) *)
Definition header_decode (apdu : bytes) : Result (ApduHeader * bytes) Error :=
  match apdu with
  | [] => Err (decoding 0 "APDU data is empty")
  | first :: _ =>
      let pdu_type := Z.shiftr first 4 in
      let segmented := has_bit first 8 in
      if pdu_type =? PDU_CONFIRMED_REQUEST then
        match apdu with
        | _ :: fields :: invoke_id :: service :: parameters =>
            match max_apdu_from_bits fields with
            | None => Err (ErrDecoding (with_value (decode_error InvalidEncoding 1 "reserved max-APDU-length field value {}") (Z.land fields 15)))
            | Some max_apdu =>
                if segmented then Err (segmented_refusal "segmented ConfirmedRequest") else
                Ok (HdrConfirmedRequest
                      {| ch_segmented_response_accepted := has_bit first 2; ch_max_segments := max_segments_from_bits (Z.shiftr fields 4);
                         ch_max_apdu := max_apdu; ch_invoke_id := invoke_id; ch_service_choice := service |}, parameters)
            end
        | _ => Err (buffer_too_short 4 (length apdu))
        end
      else if pdu_type =? PDU_UNCONFIRMED_REQUEST then
        match apdu with
        | _ :: service :: parameters => Ok (HdrUnconfirmedRequest service, parameters)
        | _ => Err (buffer_too_short 2 (length apdu))
        end
      else if pdu_type =? PDU_COMPLEX_ACK then
        match apdu with
        | _ :: invoke_id :: service :: parameters =>
            if segmented then Err (segmented_refusal "segmented ComplexAck") else Ok (HdrComplexAck invoke_id service, parameters)
        | _ => Err (buffer_too_short 3 (length apdu))
        end
      else if (pdu_type =? PDU_ERROR) || (pdu_type =? PDU_REJECT) || (pdu_type =? PDU_ABORT) then
        match apdu with
        | _ :: invoke_id :: third :: parameters =>
            Ok (if pdu_type =? PDU_ERROR then HdrError invoke_id third
                else if pdu_type =? PDU_REJECT then HdrReject invoke_id third else HdrAbort (has_bit first 1) invoke_id third, parameters)
        | _ => Err (buffer_too_short 3 (length apdu))
        end
      else if pdu_type <=? 7 then
        Err (ErrDecoding (with_value (decode_error Unsupported 0 "PDU type {} carries no service parameters this header reads") pdu_type))
      else Err (ErrDecoding (with_value (decode_error InvalidEncoding 0 "unknown PDU type nibble: {:#x}") pdu_type))
  end.
(** [ApduHeader::encoded_len] (bacnet-encoding/src/apdu/header.rs) *)
Definition header_encoded_len (h : ApduHeader) : nat :=
  match h with HdrConfirmedRequest _ => 4 | HdrUnconfirmedRequest _ => 2 | _ => 3 end.
(** [ApduHeader::octets] (bacnet-encoding/src/apdu/header.rs:358-405) *)
Definition header_octets (h : ApduHeader) : bytes :=
  match h with
  | HdrConfirmedRequest c =>
      [Z.lor (Z.shiftl PDU_CONFIRMED_REQUEST 4) (Z.shiftl (Z.b2z (ch_segmented_response_accepted c)) 1);
       Z.lor (Z.shiftl (ch_max_segments c) 4) (ch_max_apdu c); ch_invoke_id c; ch_service_choice c]
  | HdrUnconfirmedRequest service => [Z.shiftl PDU_UNCONFIRMED_REQUEST 4; service; 0; 0]
  | HdrComplexAck invoke_id service => [Z.shiftl PDU_COMPLEX_ACK 4; invoke_id; service; 0]
  | HdrError invoke_id service => [Z.shiftl PDU_ERROR 4; invoke_id; service; 0]
  | HdrReject invoke_id reason => [Z.shiftl PDU_REJECT 4; invoke_id; reason; 0]
  | HdrAbort server invoke_id reason => [Z.lor (Z.shiftl PDU_ABORT 4) (Z.b2z server); invoke_id; reason; 0]
  end.
(** [ApduHeader::encode_with_parameters_to_sink] (bacnet-encoding/src/apdu/header.rs) *)
Definition encode_with_parameters_to_sink {S} `{EncodeSink S} (h : ApduHeader) (sink : S) (parameters : bytes) : S * Result nat SinkFull :=
  let header := take (header_encoded_len h) (header_octets h) in
  match write_parts sink [header; parameters] with
  | (sink, Ok _) => (sink, Ok (length header + length parameters)%nat)
  | (sink, Err e) => (sink, Err e)
  end.
(** [ApduHeader::encode_to_sink] (bacnet-encoding/src/apdu/header.rs) *)
Definition header_encode_to_sink {S} `{EncodeSink S} (h : ApduHeader) (sink : S) : S * Result nat SinkFull := encode_with_parameters_to_sink h sink [].
