(* ===== verification/ApduTheorems.v ===== *)
(** * What the PDU codec writes and reads

    Every PDU is read back from its octets, up to what the wire rounds; the borrowed header and the owned PDU are the same reading of the
    same octets. *)

From Stdlib Require Import String.
From S2P Require Import Prelude Sink WireError Tags Values ValuesTheorems Utf8 Primitives PrimitivesTheorems Tagged TaggedTheorems References Apdu.
Open Scope Z_scope.

(** ** Sizes *)

(** The sizes a capacity promises never exceed it. *)
Lemma max_segments_rounds n : 2 <= n <= 255 -> exists field, max_segments_from_capacity (Some n) = Some field /\ 1 <= field <= 7 /\
  forall count, field < 7 -> max_segments_count field = Some count -> count <= n < 2 * count.
Proof.
  intros Hn. cbn [max_segments_from_capacity]. replace (n <=? 1) with false by lia.
  repeat (match goal with |- context [if ?b then _ else _] => destruct b eqn:?; [eexists; split; [reflexivity|]; split; [lia|]; intros count _ Hc; vm_compute in Hc; injection Hc as <-; lia|] end).
  eexists. split; [reflexivity|]. split; lia.
Qed.
Lemma max_apdu_cases value field : max_apdu_from_octets value = Some field ->
  (value = 50 /\ field = 0) \/ (value = 128 /\ field = 1) \/ (value = 206 /\ field = 2) \/ (value = 480 /\ field = 3) \/ (value = 1024 /\ field = 4) \/ (value = 1476 /\ field = 5).
Proof.
  unfold max_apdu_from_octets, MAX_APDU_OCTETS. cbn [list_find]. repeat (case_decide; [cbn; intros [= <-]; subst; tauto|]). done.
Qed.

(** ** The round trip *)

(** What a PDU is once read back: the segment limit rounded down to a power of two, or above 64 read as 255, "more than 64"; a segment's sequence number
    and window, 0 and 1 where it has none. *)
Definition canonical_segments (v : option Z) : option Z := match v with Some n => Some (if 64 <? n then 255 else 2 ^ Z.log2 n) | None => None end.
Lemma canonical_segments_field v field : (forall n, v = Some n -> 2 <= n <= 255) -> max_segments_from_capacity v = Some field -> max_segments_count field = canonical_segments v.
Proof.
  intros Hv. destruct v as [n|]; [|by intros [= <-]]. specialize (Hv n eq_refl). cbn [max_segments_from_capacity canonical_segments]. replace (n <=? 1) with false by lia.
  assert (Hp : forall k, 0 <= k -> 2 ^ k <= n < 2 ^ Z.succ k -> Some (2 ^ Z.log2 n) = Some (2 ^ k)) by (intros k Hk Hn; by rewrite (Z.log2_unique n k)).
  repeat (match goal with |- context [if ?b then Some ?f else _] => destruct b eqn:?; [intros [= <-]; replace (64 <? n) with false by lia; rewrite (Hp f) by (cbn; lia); reflexivity|] end).
  intros [= <-]. by replace (64 <? n) with true by lia.
Qed.
Definition canonical_segment (segmented : bool) (d : Z) (o : option Z) : option Z := if segmented then Some (default d o) else None.
Definition canonical (a : Apdu) : Apdu :=
  match a with
  | ApduConfirmedRequest p =>
      ApduConfirmedRequest
        {| cr_segmented := cr_segmented p; cr_more_follows := cr_more_follows p; cr_segmented_response_accepted := cr_segmented_response_accepted p;
           cr_max_segments := canonical_segments (cr_max_segments p); cr_max_apdu_length := cr_max_apdu_length p; cr_invoke_id := cr_invoke_id p;
           cr_sequence_number := canonical_segment (cr_segmented p) 0 (cr_sequence_number p);
           cr_proposed_window_size := canonical_segment (cr_segmented p) 1 (cr_proposed_window_size p);
           cr_service_choice := cr_service_choice p; cr_service_request := cr_service_request p |}
  | ApduComplexAck p =>
      ApduComplexAck
        {| ca_segmented := ca_segmented p; ca_more_follows := ca_more_follows p; ca_invoke_id := ca_invoke_id p;
           ca_sequence_number := canonical_segment (ca_segmented p) 0 (ca_sequence_number p);
           ca_proposed_window_size := canonical_segment (ca_segmented p) 1 (ca_proposed_window_size p);
           ca_service_choice := ca_service_choice p; ca_service_ack := ca_service_ack p |}
  | other => other
  end.
(** An error's class and code, and a body that is well formed as its service's says the same. *)
Definition wf_error (p : ErrorPdu) : Prop :=
  is_u16 (er_error_class p) /\ is_u16 (er_error_code p) /\ wf_bytes (er_error_data p) /\
  Z.of_nat (length (er_error_data p)) + 16 <= ISIZE_MAX /\ is_u8 (er_invoke_id p) /\ is_u8 (er_service_choice p) /\
  forall codes, decode_formal_body (er_service_choice p) (er_error_data p) = Ok (Some codes) -> codes = (er_error_class p, er_error_code p).
Definition window_ok (segmented : bool) (o : option Z) : Prop := segmented = true -> 1 <= default 1 o <= 127.
Definition wf_apdu (a : Apdu) : Prop :=
  match a with
  | ApduConfirmedRequest p =>
      (forall n, cr_max_segments p = Some n -> 2 <= n <= 255) /\ is_valid_max_apdu_length (cr_max_apdu_length p) = true /\
      window_ok (cr_segmented p) (cr_proposed_window_size p)
  | ApduComplexAck p => window_ok (ca_segmented p) (ca_proposed_window_size p)
  | ApduSegmentAck p => 1 <= sg_actual_window_size p <= 127
  | ApduError p => wf_error p
  | _ => True
  end.
Lemma segment_fields_ok segmented label sequence window : window_ok segmented window ->
  segment_fields segmented label sequence window = Ok (if segmented then [default 0 sequence; default 1 window] else []).
Proof.
  unfold segment_fields, window_ok, valid_window_size. destruct segmented; [|done]. intros Hw. specialize (Hw eq_refl).
  by replace ((1 <=? default 1 window) && (default 1 window <=? 127)) with true by lia.
Qed.
Lemma encode_max_segments_field v : (forall n, v = Some n -> 2 <= n <= 255) -> exists field, encode_max_segments v = Ok field /\ max_segments_from_capacity v = Some field /\ 0 <= field <= 7.
Proof.
  intros Hv. unfold encode_max_segments. destruct v as [n|]; [|by exists 0]. destruct (max_segments_rounds n (Hv n eq_refl)) as (field & -> & Hf & _). exists field. split_and!; (done || lia).
Qed.
(** The second octet of a request carries both fields. *)
Lemma fields_octet seg value field : 0 <= seg <= 7 -> max_apdu_from_octets value = Some field ->
  decode_max_segments (Z.land (Z.shiftr (Z.lor (Z.shiftl seg 4) field) 4) 7) = max_segments_count seg /\
  decode_max_apdu (Z.land (Z.lor (Z.shiftl seg 4) field) 15) = Ok value.
Proof.
  intros Hs Hf. assert (seg = 0 \/ seg = 1 \/ seg = 2 \/ seg = 3 \/ seg = 4 \/ seg = 5 \/ seg = 6 \/ seg = 7) as Hc by lia.
  apply max_apdu_cases in Hf. clear Hs. intuition subst; split; reflexivity.
Qed.
Lemma confirmed_roundtrip p : wf_apdu (ApduConfirmedRequest p) ->
  exists enc, encode_confirmed_request p = Ok enc /\ decode_apdu enc = Ok (canonical (ApduConfirmedRequest p)).
Proof.
  intros (Hseg & Hmax & Hwin). unfold encode_confirmed_request. destruct (encode_max_segments_field _ Hseg) as (field & -> & Hcap & Hf). cbn [rbind].
  unfold is_valid_max_apdu_length in Hmax. destruct (max_apdu_from_octets (cr_max_apdu_length p)) as [code|] eqn:Hcode; [|done].
  unfold encode_max_apdu. rewrite Hcode. cbn [ok_or rbind]. rewrite segment_fields_ok by done. cbn [rbind]. eexists. split; [done|].
  destruct (fields_octet field _ code Hf Hcode) as [Es Em]. cbn [canonical]. rewrite <-(canonical_segments_field _ field Hseg Hcap).
  destruct p as [seg more acc ms len inv sq win svc req]. cbn [cr_segmented cr_more_follows cr_segmented_response_accepted cr_max_segments cr_max_apdu_length cr_invoke_id cr_sequence_number
    cr_proposed_window_size cr_service_choice cr_service_request] in *.
  destruct seg; cbn [canonical_segment app]; unfold decode_apdu, decode_confirmed_request; (replace (Z.land (Z.shiftr (flag acc 2 _) 4) 15 =? PDU_CONFIRMED_REQUEST) with true by (by destruct acc, more));
    cbv zeta; rewrite Es, Em; cbn [rbind]; unfold decode_segment_fields; [replace (has_bit _ 8) with true by (by destruct acc, more)|replace (has_bit _ 8) with false by (by destruct acc, more)];
    cbn; destruct acc, more; reflexivity.
Qed.
Lemma complex_roundtrip p : wf_apdu (ApduComplexAck p) -> exists enc, encode_complex_ack p = Ok enc /\ decode_apdu enc = Ok (canonical (ApduComplexAck p)).
Proof.
  intros Hwin. unfold encode_complex_ack. rewrite segment_fields_ok by done. cbn [rbind]. eexists. split; [done|].
  destruct p as [[] [] inv sq win svc ack]; reflexivity.
Qed.
Lemma segment_ack_roundtrip p : wf_apdu (ApduSegmentAck p) -> exists enc, encode_segment_ack p = Ok enc /\ decode_apdu enc = Ok (ApduSegmentAck p).
Proof.
  intros Hwin. unfold encode_segment_ack, valid_window_size. cbn [wf_apdu] in Hwin. replace (_ && _) with true by lia. cbn [rbind]. eexists. split; [done|].
  destruct p as [[] [] inv sq win]; cbn [sg_actual_window_size] in Hwin; cbn; replace (win =? 0) with false by lia; replace (127 <? win) with false by lia; reflexivity.
Qed.

(** ** Errors *)

Lemma constructed_length data number what body end_ : wf_bytes data -> Z.of_nat (length data) <= ISIZE_MAX ->
  decode_ctx_constructed data 0 number what = Ok (body, end_) -> (2 <= length data)%nat.
Proof.
  intros Hw Hfit. unfold decode_ctx_constructed, expect_opening. destruct (decode_tag data 0) as [[t pos]|] eqn:Ht; [|done]. cbn [rbind].
  destruct (negb _); [done|]. cbn [rbind]. intros He. apply extract_iff in He as (_ & _ & Hs & _); [|done..].
  pose proof (decode_tag_bounds _ _ _ _ Hw Ht) as Hpos. pose proof (header_nonempty (closes number)) as Hne.
  assert (Hl : (0 < length (body ++ header_of (closes number)))%nat) by (rewrite length_app; lia).
  assert (Hb : body ++ header_of (closes number) <> []) by (intros E; rewrite E in Hl; cbn in Hl; lia).
  pose proof (starts_bound _ _ _ Hs Hb). lia.
Qed.
Lemma formal_length service data codes : wf_bytes data -> Z.of_nat (length data) <= ISIZE_MAX -> decode_formal_body service data = Ok (Some codes) -> (2 <= length data)%nat.
Proof.
  intros Hw Hfit. assert (Herr : forall what r, error_type data 0 0 what = Ok r -> (2 <= length data)%nat).
  { intros what r. unfold error_type. destruct (decode_ctx_constructed data 0 0 what) as [[body end_]|] eqn:E; [|done]. intros _. by eapply constructed_length. }
  unfold decode_formal_body. destruct (formal_members service) as [[what members]|].
  - destruct (negb _); [done|]. destruct (error_type data 0 0 what) as [[r offset]|] eqn:E; [|done]. intros _. by eapply Herr.
  - destruct (service =? 30); [|done]. unfold subscribe_cov_property_multiple. cbv zeta. destruct (opens_with data 0).
    + destruct (error_type data 0 0 _) as [[r offset]|] eqn:E; [|done]. intros _. by eapply Herr.
    + destruct (negb _); [done|]. destruct (decode_ctx_constructed data 0 1 _) as [[body end_]|] eqn:E; [|done]. intros _. by eapply constructed_length.
Qed.
(** Octets that start with an application tag are no structured body. *)
Lemma plain_not_formal service data t : wf_tag t -> starts data 0 (header_of t) -> tag_class t = ApplicationTag -> decode_formal_body service data = Ok None.
Proof.
  intros Ht Hs Hc. assert (Hno : forall n, opens_with data n = false).
  { intros n. unfold opens_with. rewrite (decode_tag_header data 0 t Ht Hs). unfold is_opening_tag. rewrite Hc. done. }
  unfold decode_formal_body. destruct (formal_members service) as [[what members]|]; [by rewrite Hno|].
  destruct (service =? 30); [|done]. unfold subscribe_cov_property_multiple. cbv zeta. by rewrite !Hno.
Qed.
Lemma u16_u64 v : is_u16 v -> is_u64 v.
Proof. unfold is_u16, is_u64, U16_MAX, U64_MAX. lia. Qed.
Lemma error_enumerated_reads data offset v rest e1 e2 e3 : input data -> is_u16 v -> starts data offset (tagged TAG_ENUMERATED (unsigned_octets v) ++ rest) ->
  error_enumerated data offset e1 e2 e3 = Ok (v, (offset + length (tagged TAG_ENUMERATED (unsigned_octets v)))%nat) /\
  starts data (offset + length (tagged TAG_ENUMERATED (unsigned_octets v))) rest.
Proof.
  intros Hin Hv Hs. pose proof Hs as [_ Hrest]%starts_app. split; [|done]. unfold tagged in Hs. rewrite <-app_assoc in Hs. pose proof (short_unsigned v) as Hl. unfold short in Hl.
  destruct (header_tag data offset TAG_ENUMERATED ApplicationTag (Z.of_nat (length (unsigned_octets v))) _ ltac:(done) ltac:(lia) Hs) as (Ht & Hr & Hb).
  unfold error_enumerated. rewrite Ht. cbn [rbind tag_class tag_number tag_length]. rewrite bool_decide_eq_true_2, Z.eqb_refl by done. cbn [negb orb]. rewrite Nat2Z.id.
  apply starts_app in Hr as [Hr _]. assert (Hne : unsigned_octets v <> []) by (intros E; pose proof (unsigned_octets_length v) as El; rewrite E in El; pose proof (unsigned_len_range v); cbn in El; lia).
  pose proof (starts_bound _ _ _ Hr Hne) as Hbound. destruct Hin as [Hw Hf]. rewrite checked_add_small by (unfold USIZE_MAX, U64_MAX, ISIZE_MAX in *; lia). cbn [ok_or rbind].
  rewrite decide_False by lia. rewrite (starts_slice _ _ _ Hr) by lia. rewrite decode_unsigned_octets by (by apply u16_u64). cbn [rbind].
  unfold is_u16 in Hv. replace (v <=? U16_MAX) with true by lia. do 2 f_equal. unfold tagged. rewrite length_app. lia.
Qed.
Lemma encode_enumerated_buf buf v : is_u16 v -> encode_app_enumerated buf v = Some (buf ++ tagged TAG_ENUMERATED (unsigned_octets v)).
Proof.
  intros Hv. assert (is_u32 v) as H32 by (unfold is_u16, is_u32, U16_MAX, U32_MAX in *; lia). unfold encode_app_enumerated, encode_app_enumerated_to_sink.
  pose proof (unsigned_len_u32 v H32). rewrite write_tagged_buf; [|lia|rewrite enumerated_octets_length by done; lia].
  rewrite enumerated_octets_same by done. unfold tagged. rewrite unsigned_octets_length, Z2Nat.id by lia. done.
Qed.
Lemma tagged_enum_length v : is_u16 v -> (2 <= length (tagged TAG_ENUMERATED (unsigned_octets v)) <= 4)%nat /\ wf_bytes (tagged TAG_ENUMERATED (unsigned_octets v)).
Proof.
  intros Hv. unfold is_u16, U16_MAX in Hv. assert (1 <= unsigned_len v <= 2) as Hl by (unfold unsigned_len; destruct (v <=? 255); [lia|]; replace (v <=? 65535) with true by lia; lia).
  pose proof (unsigned_octets_length v) as Ho. unfold tagged. rewrite Ho, Z2Nat.id by lia. split.
  - rewrite length_app, Ho, tag_header_fields. unfold length_ext. replace (4 <? unsigned_len v) with false by lia. change (number_ext TAG_ENUMERATED) with (@nil Z). cbn [length app]. lia.
  - apply Forall_app_2; [|apply unsigned_octets_wf; unfold is_u64, U64_MAX; lia].
    assert (unsigned_len v = 1 \/ unsigned_len v = 2) as [-> | ->] by lia; by repeat constructor.
Qed.
(** The octets of an error that carries the plain pair. *)
Definition plain_pair (class code : Z) (body : bytes) : bytes := tagged TAG_ENUMERATED (unsigned_octets class) ++ tagged TAG_ENUMERATED (unsigned_octets code) ++ body.
Lemma plain_pair_input header class code body : wf_bytes header -> (length header <= 3)%nat -> is_u16 class -> is_u16 code -> wf_bytes body -> Z.of_nat (length body) + 16 <= ISIZE_MAX ->
  input (header ++ plain_pair class code body).
Proof.
  intros Hh Hl Hc Hd Hw Hf. destruct (tagged_enum_length class Hc) as [Lc Wc]. destruct (tagged_enum_length code Hd) as [Ld Wd]. unfold plain_pair. split.
  - apply Forall_app_2; [done|]. apply Forall_app_2; [done|]. by apply Forall_app_2.
  - rewrite !length_app. lia.
Qed.
Lemma plain_pair_not_formal service class code body : decode_formal_body service (plain_pair class code body) = Ok None.
Proof.
  apply (plain_not_formal service _ (app_tag TAG_ENUMERATED (Z.of_nat (length (unsigned_octets class))))); [| |done].
  - pose proof (short_unsigned class). unfold wf_tag, short in *. cbn. split_and!; try done; lia.
  - exists (unsigned_octets class ++ tagged TAG_ENUMERATED (unsigned_octets code) ++ body). unfold plain_pair, tagged. by rewrite <-app_assoc.
Qed.
Lemma plain_error_decodes inv svc class code body : is_u8 inv -> is_u8 svc -> is_u16 class -> is_u16 code -> wf_bytes body -> Z.of_nat (length body) + 16 <= ISIZE_MAX ->
  decode_error_pdu ([Z.shiftl PDU_ERROR 4; inv; svc] ++ plain_pair class code body) =
    Ok {| er_invoke_id := inv; er_service_choice := svc; er_error_class := class; er_error_code := code; er_error_data := body |}.
Proof.
  intros Hi Hs Hc Hd Hw Hfit. set (header := [Z.shiftl PDU_ERROR 4; inv; svc]).
  assert (Hin : input (header ++ plain_pair class code body)) by (apply plain_pair_input; try done; repeat (apply Forall_cons; split); (done || apply Forall_nil)).
  assert (Hst : starts (header ++ plain_pair class code body) 3 (plain_pair class code body)) by (exists []; by rewrite app_nil_r).
  assert (Hp : exists x y rest, plain_pair class code body = x :: y :: rest).
  { destruct (tagged_enum_length class Hc) as [Lc _]. unfold plain_pair. destruct (tagged TAG_ENUMERATED (unsigned_octets class)) as [|x [|y l]]; [cbn in Lc; lia..|]. by eexists _, _, _. }
  destruct (error_enumerated_reads _ 3 class _ "ErrorPDU error class: expected application-tagged enumerated" "ErrorPDU error class length overflow" "ErrorPDU error class {} exceeds u16" Hin Hc Hst) as [E1 H1].
  destruct (error_enumerated_reads _ _ code _ "ErrorPDU error code: expected application-tagged enumerated" "ErrorPDU error code length overflow" "ErrorPDU error code {} exceeds u16" Hin Hd H1) as [E2 H2].
  pose proof (plain_pair_not_formal svc class code body) as Hnf. destruct Hp as (x & y & rest & Hp).
  transitivity (let? (c, offset) := error_enumerated (header ++ plain_pair class code body) 3 "ErrorPDU error class: expected application-tagged enumerated"
                                    "ErrorPDU error class length overflow" "ErrorPDU error class {} exceeds u16" in
          let? (d, offset) := error_enumerated (header ++ plain_pair class code body) offset "ErrorPDU error code: expected application-tagged enumerated"
                                    "ErrorPDU error code length overflow" "ErrorPDU error code {} exceeds u16" in
          Ok {| er_invoke_id := inv; er_service_choice := svc; er_error_class := c; er_error_code := d;
                er_error_data := drop offset (header ++ plain_pair class code body) |}).
  { rewrite Hp in Hnf |- *. unfold decode_error_pdu, header. cbn [app drop]. rewrite Hnf. reflexivity. }
  rewrite E1. cbn [rbind]. rewrite E2. cbn [rbind]. do 2 f_equal. unfold plain_pair. rewrite !app_assoc. apply drop_app_length'. rewrite !length_app. cbn [length header]. lia.
Qed.
Lemma error_type_nibble inv svc rest : decode_apdu (Z.shiftl PDU_ERROR 4 :: inv :: svc :: rest) = map_ok ApduError (decode_error_pdu (Z.shiftl PDU_ERROR 4 :: inv :: svc :: rest)).
Proof. done. Qed.
Lemma error_roundtrip p buf : wf_error p -> exists enc, encode_error buf p = Some (buf ++ enc, Ok tt) /\ decode_apdu enc = Ok (ApduError p).
Proof.
  intros (Hc & Hd & Hw & Hfit & Hi & Hs & Hf). unfold encode_error. cbv zeta. destruct p as [inv svc class code body]. cbn [er_invoke_id er_service_choice er_error_class er_error_code er_error_data] in *.
  assert (Hplain : exists enc, (written ← encode_app_enumerated (buf ++ [Z.shiftl PDU_ERROR 4; inv; svc]) class; written ← encode_app_enumerated written code;
    Some (written ++ body, @Ok unit Error tt)) = Some (buf ++ enc, Ok tt) /\ decode_apdu enc = Ok (ApduError {| er_invoke_id := inv; er_service_choice := svc; er_error_class := class; er_error_code := code; er_error_data := body |})).
  { rewrite encode_enumerated_buf by done. cbn [mbind option_bind]. rewrite encode_enumerated_buf by done. cbn [mbind option_bind]. rewrite <-!app_assoc. eexists. split; [done|].
    fold (plain_pair class code body). cbn [app]. rewrite error_type_nibble. pose proof (plain_error_decodes inv svc class code body) as Hp. cbn [app] in Hp. by rewrite Hp. }
  destruct (decode_formal_body svc body) as [[[fc fd]|]|] eqn:Hformal; [|exact Hplain..].
  specialize (Hf _ eq_refl) as [= -> ->]. rewrite !Z.eqb_refl. cbn [negb orb]. rewrite <-app_assoc. eexists. split; [done|].
  pose proof (formal_length svc body _ Hw ltac:(lia) Hformal) as Hl. destruct body as [|x [|y rest]]; [cbn in Hl; lia..|].
  cbn [app]. rewrite error_type_nibble. unfold decode_error_pdu. cbn [drop]. by rewrite Hformal.
Qed.

(** C23: every well-formed PDU (a segment limit of 2 to 255 or none, one of the six APDU lengths, windows of 1 to 127, an error's class and code in 16
    bits, and the same in a structured body) is written whole, without a panic or a refusal, and read back as it was, all eight types, structured
    error bodies included, but for three fields: the segment limit is rounded down to a power of two, and one above 64 reads as 255; a
    segmented PDU without a sequence number or a window reads as having 0 and 1; an unsegmented PDU loses the segment fields nothing writes. *)
Theorem apdu_encode_decode a buf : wf_apdu a ->
  exists enc, encode_apdu buf a = Some (buf ++ enc, Ok tt) /\ decode_apdu enc = Ok (canonical a).
Proof.
  intros Hwf. destruct a as [p|p|p|p|p|p|p|p]; cbn [encode_apdu].
  - destruct (confirmed_roundtrip p Hwf) as (enc & -> & Hd). by exists enc.
  - exists (encode_unconfirmed_request p). by destruct p.
  - exists (encode_simple_ack p). by destruct p.
  - destruct (complex_roundtrip p Hwf) as (enc & -> & Hd). by exists enc.
  - destruct (segment_ack_roundtrip p Hwf) as (enc & -> & Hd). by exists enc.
  - by apply error_roundtrip.
  - exists (encode_reject p). by destruct p.
  - exists (encode_abort p). by destruct p as [[] ? ?].
Qed.
Definition sample_apdus : list Apdu :=
  [ApduConfirmedRequest {| cr_segmented := true; cr_more_follows := true; cr_segmented_response_accepted := true; cr_max_segments := Some 20; cr_max_apdu_length := 1476;
     cr_invoke_id := 7; cr_sequence_number := Some 3; cr_proposed_window_size := Some 16; cr_service_choice := 12; cr_service_request := [12; 2; 0; 0; 5] |};
   ApduSegmentAck {| sg_negative_ack := true; sg_sent_by_server := false; sg_invoke_id := 9; sg_sequence_number := 200; sg_actual_window_size := 127 |};
   ApduError {| er_invoke_id := 4; er_service_choice := 15; er_error_class := 2; er_error_code := 32; er_error_data := [] |};
   ApduError {| er_invoke_id := 4; er_service_choice := 8; er_error_class := 5; er_error_code := 3; er_error_data := [14; 145; 5; 145; 3; 15; 25; 1] |}].
Lemma apdu_encode_decode_witness : Forall (fun a => exists enc, encode_apdu [] a = Some (enc, Ok tt) /\ decode_apdu enc = Ok (canonical a)) sample_apdus.
Proof.
  repeat apply Forall_cons_2; [..|apply Forall_nil_2]; apply (apdu_encode_decode _ []).
  - split_and!; [intros n [= <-]; lia|reflexivity|]. intros _. cbn. lia.
  - cbn. lia.
  - split_and!; cbn; try (unfold is_u16, is_u8, U16_MAX, U8_MAX, ISIZE_MAX; lia); [apply Forall_nil_2|]. intros codes H. vm_compute in H. congruence.
  - split_and!; cbn; try (unfold is_u16, is_u8, U16_MAX, U8_MAX, ISIZE_MAX; lia); [by repeat (apply Forall_cons_2; [unfold is_u8, U8_MAX; lia|])|]. intros codes H. vm_compute in H. congruence.
Defined.

(** ** The borrowed header *)

(** The borrowed header and its parameters are the owned PDU's. *)
Definition same_reading (h : ApduHeader) (parameters : bytes) (a : Apdu) : Prop :=
  match h, a with
  | HdrConfirmedRequest c, ApduConfirmedRequest p =>
      cr_segmented p = false /\ cr_segmented_response_accepted p = ch_segmented_response_accepted c /\
      cr_max_segments p = max_segments_count (ch_max_segments c) /\ cr_max_apdu_length p = max_apdu_octets (ch_max_apdu c) /\
      cr_invoke_id p = ch_invoke_id c /\ cr_service_choice p = ch_service_choice c /\ cr_service_request p = parameters /\
      cr_sequence_number p = None /\ cr_proposed_window_size p = None
  | HdrUnconfirmedRequest service, ApduUnconfirmedRequest p => ur_service_choice p = service /\ ur_service_request p = parameters
  | HdrComplexAck invoke service, ApduComplexAck p =>
      ca_segmented p = false /\ ca_invoke_id p = invoke /\ ca_service_choice p = service /\ ca_service_ack p = parameters
  | HdrError invoke service, ApduError p => er_invoke_id p = invoke /\ er_service_choice p = service /\ er_error_data p `suffix_of` parameters
  | HdrReject invoke reason, ApduReject p => rj_invoke_id p = invoke /\ rj_reject_reason p = reason
  | HdrAbort server invoke reason, ApduAbort p => ab_sent_by_server p = server /\ ab_invoke_id p = invoke /\ ab_abort_reason p = reason
  | _, _ => False
  end.
(** The PDUs a borrowed header stands for: those that are whole and carry service parameters or a refusal. *)
Definition headed (a : Apdu) : bool :=
  match a with
  | ApduConfirmedRequest p => negb (cr_segmented p)
  | ApduComplexAck p => negb (ca_segmented p)
  | ApduSimpleAck _ | ApduSegmentAck _ => false
  | _ => true
  end.
Lemma nibble_cases first : is_u8 first -> Z.land (Z.shiftr first 4) 15 = Z.shiftr first 4 /\ 0 <= Z.shiftr first 4 <= 15.
Proof.
  unfold is_u8, U8_MAX. intros Hf. assert (0 <= Z.shiftr first 4 <= 15) as Hn by (rewrite Z.shiftr_div_pow2 by lia; change (2 ^ 4) with 16; split; [apply Z.div_pos|apply Z.lt_succ_r, Z.div_lt_upper_bound]; lia).
  split; [|done]. change 15 with (Z.ones 4). rewrite Z.land_ones, Z.mod_small by lia. done.
Qed.
Lemma max_segments_bits fields : decode_max_segments (Z.land (Z.shiftr fields 4) 7) = max_segments_count (max_segments_from_bits (Z.shiftr fields 4)).
Proof. unfold decode_max_segments, max_segments_from_bits. by rewrite <-Z.land_assoc. Qed.
Lemma max_apdu_bits fields : max_apdu_from_bits (Z.land fields 15) = max_apdu_from_bits fields.
Proof. unfold max_apdu_from_bits. by rewrite <-Z.land_assoc. Qed.
(** What the two readings of one PDU type say of each other. *)
Definition readings_agree (owned : Result Apdu Error) (borrowed : Result (ApduHeader * bytes) Error) : Prop :=
  match owned, borrowed with
  | Ok a, Ok (h, parameters) => same_reading h parameters a
  | Ok a, Err _ => headed a = false
  | Err _, Ok (h, _) => exists invoke service, h = HdrError invoke service
  | Err _, Err _ => True
  end.
Lemma agree_confirmed first rest : Z.shiftr first 4 = PDU_CONFIRMED_REQUEST ->
  readings_agree (map_ok ApduConfirmedRequest (decode_confirmed_request (first :: rest))) (header_decode (first :: rest)).
Proof.
  intros Hn. unfold header_decode. rewrite Hn. cbn [Z.eqb PDU_CONFIRMED_REQUEST]. destruct rest as [|fields [|invoke [|service parameters]]]; try done.
  unfold decode_confirmed_request, decode_max_apdu. rewrite max_apdu_bits, max_segments_bits. destruct (max_apdu_from_bits fields) as [code|]; [|done]. cbn [fmap option_fmap option_map ok_or rbind].
  unfold decode_segment_fields. destruct (has_bit first 8); [|by cbn]. case_decide; [done|]. cbn [rbind]. destruct parameters as [|x [|y l]]; by cbn.
Qed.
Lemma agree_complex first rest : Z.shiftr first 4 = PDU_COMPLEX_ACK -> readings_agree (map_ok ApduComplexAck (decode_complex_ack (first :: rest))) (header_decode (first :: rest)).
Proof.
  intros Hn. unfold header_decode. rewrite Hn. cbn [Z.eqb Pos.eqb PDU_CONFIRMED_REQUEST PDU_UNCONFIRMED_REQUEST PDU_COMPLEX_ACK]. destruct rest as [|invoke [|service parameters]]; try done.
  unfold decode_complex_ack, decode_segment_fields. destruct (has_bit first 8); [|by cbn]. case_decide; [done|]. cbn [rbind]. destruct parameters as [|x [|y l]]; by cbn.
Qed.
Lemma error_enumerated_moves data offset e1 e2 e3 v o : wf_bytes data -> error_enumerated data offset e1 e2 e3 = Ok (v, o) -> (offset <= o)%nat.
Proof.
  intros Hw. unfold error_enumerated. destruct (decode_tag data offset) as [[t pos]|] eqn:Ht; [|done]. cbn [rbind]. destruct (_ || _); [done|].
  pose proof (decode_tag_bounds _ _ _ _ Hw Ht). unfold checked_add. destruct (_ <=? _); [|done]. cbn [ok_or rbind]. case_decide; [done|].
  destruct (decode_unsigned _) as [raw|]; [|done]. cbn [rbind]. destruct (_ <=? _); [|done]. intros [= _ <-]. lia.
Qed.
Lemma agree_error first rest : wf_bytes (first :: rest) -> Z.shiftr first 4 = PDU_ERROR -> readings_agree (map_ok ApduError (decode_error_pdu (first :: rest))) (header_decode (first :: rest)).
Proof.
  intros Hw Hn. unfold header_decode. rewrite Hn. cbn [Z.eqb Pos.eqb PDU_CONFIRMED_REQUEST PDU_UNCONFIRMED_REQUEST PDU_COMPLEX_ACK PDU_ERROR PDU_REJECT PDU_ABORT orb].
  destruct rest as [|invoke [|service [|x [|y l]]]]; try done; try by eexists _, _. unfold decode_error_pdu.
  destruct (decode_formal_body service _) as [[[c d]|]|]; [done| |by eexists _, _]. cbn [rbind map_ok]. unfold map_ok.
  destruct (error_enumerated _ 3 _ _ _) as [[c o]|] eqn:E1; [|by eexists _, _]. cbn [rbind]. destruct (error_enumerated _ o _ _ _) as [[d o']|] eqn:E2; [|by eexists _, _].
  apply error_enumerated_moves in E1, E2; [|done..]. cbn. split_and!; [done..|]. replace o' with (3 + (o' - 3))%nat by lia. rewrite <-drop_drop. cbn [drop].
  exists (take (o' - 3) (x :: y :: l)). by rewrite take_drop.
Qed.
Lemma agree_all data : wf_bytes data -> readings_agree (decode_apdu data) (header_decode data).
Proof.
  intros Hw. destruct data as [|first rest]; [done|]. apply Forall_cons in Hw as [Hf Hrest]. destruct (nibble_cases first Hf) as [Hnib Hn].
  unfold decode_apdu. cbv zeta. rewrite Hnib. set (n := Z.shiftr first 4) in *.
  assert (n = 0 \/ n = 1 \/ n = 2 \/ n = 3 \/ n = 4 \/ n = 5 \/ n = 6 \/ n = 7 \/ 8 <= n) as Hc by lia.
  destruct Hc as [E|[E|[E|[E|[E|[E|[E|[E|E]]]]]]]];
    [rewrite E; by apply agree_confirmed| | |rewrite E; by apply agree_complex| |rewrite E; by apply agree_error; [apply Forall_cons|]| | |].
  all: unfold header_decode; cbv zeta; fold n; try rewrite E; cbn [Z.eqb Pos.eqb PDU_CONFIRMED_REQUEST PDU_UNCONFIRMED_REQUEST PDU_SIMPLE_ACK PDU_COMPLEX_ACK PDU_SEGMENT_ACK PDU_ERROR PDU_REJECT PDU_ABORT orb].
  1: by destruct rest as [|service rest].
  1: by destruct rest as [|i [|s rest]].
  1: destruct rest as [|i [|s [|w rest]]]; try done; unfold decode_segment_ack; by destruct (_ || _).
  1: by destruct rest as [|i [|s rest]].
  1: by destruct rest as [|i [|s rest]].
  unfold PDU_CONFIRMED_REQUEST, PDU_UNCONFIRMED_REQUEST, PDU_SIMPLE_ACK, PDU_COMPLEX_ACK, PDU_SEGMENT_ACK, PDU_ERROR, PDU_REJECT, PDU_ABORT.
  repeat (match goal with |- context [n =? ?k] => replace (n =? k) with false by lia end). cbn [orb]. by replace (n <=? 7) with false by lia.
Qed.
Lemma header_parameters data h parameters : header_decode data = Ok (h, parameters) -> parameters = drop (header_encoded_len h) data.
Proof.
  unfold header_decode. destruct data as [|first rest]; [done|]. cbv zeta. destruct (_ =? PDU_CONFIRMED_REQUEST).
  { destruct rest as [|fields [|invoke [|service ps]]]; try done. destruct (max_apdu_from_bits fields); [|done]. destruct (has_bit first 8); [done|]. by intros [= <- <-]. }
  destruct (_ =? PDU_UNCONFIRMED_REQUEST); [destruct rest as [|service ps]; [done|]; by intros [= <- <-]|].
  destruct (_ =? PDU_COMPLEX_ACK); [destruct rest as [|i [|service ps]]; try done; destruct (has_bit first 8); [done|]; by intros [= <- <-]|].
  destruct (_ || _); [|by destruct (_ <=? 7)]. destruct rest as [|i [|third ps]]; try done. destruct (_ =? PDU_ERROR); [by intros [= <- <-]|]. destruct (_ =? PDU_REJECT); by intros [= <- <-].
Qed.
(** C27: the borrowed header and the owned decoder are one reading of the octets. When both accept, the header's fields are the PDU's, and its
    parameters, the octets after the header, are the PDU's service octets; an error's further data end them; what follows a reject or an abort, the
    owned decoder ignores. Of the PDUs
    the owned decoder accepts, the header accepts exactly the unsegmented requests and Complex-ACKs, the unconfirmed requests, errors, rejects and
    aborts; it refuses Simple-ACKs, Segment-ACKs and segments. The owned decoder accepts everything the header accepts but an error PDU whose
    body the header does not read. *)
Theorem header_agrees data h parameters a : wf_bytes data ->
  (header_decode data = Ok (h, parameters) -> decode_apdu data = Ok a -> same_reading h parameters a) /\
  (header_decode data = Ok (h, parameters) -> parameters = drop (header_encoded_len h) data) /\
  (decode_apdu data = Ok a -> (exists h parameters, header_decode data = Ok (h, parameters)) <-> headed a = true) /\
  (header_decode data = Ok (h, parameters) -> (exists invoke service, h = HdrError invoke service) \/ exists a, decode_apdu data = Ok a).
Proof.
  intros Hw. pose proof (agree_all data Hw) as Hag. unfold readings_agree in Hag. split_and!.
  - intros Hh Ha. by rewrite Hh, Ha in Hag.
  - apply header_parameters.
  - intros Ha. rewrite Ha in Hag. split; [|intros Hhead; destruct (header_decode data) as [[h' ps]|]; [by eexists _, _|congruence]].
    intros (h' & ps & Hh). rewrite Hh in Hag. destruct h', a; try done; cbn in Hag |- *; by destruct Hag as [-> _].
  - intros Hh. rewrite Hh in Hag. destruct (decode_apdu data) as [a'|]; [right; by eexists|by left].
Qed.
Lemma header_agrees_witness : exists h parameters a, header_decode [2; 117; 9; 12; 12; 0; 0; 0; 1] = Ok (h, parameters) /\
  decode_apdu [2; 117; 9; 12; 12; 0; 0; 0; 1] = Ok a /\ same_reading h parameters a.
Proof.
  eexists _, _, _. split; [vm_compute; reflexivity|]. split; [vm_compute; reflexivity|].
  refine (proj1 (header_agrees [2; 117; 9; 12; 12; 0; 0; 0; 1] _ _ _ _) _ _); [|vm_compute; reflexivity|vm_compute; reflexivity].
  by repeat (apply Forall_cons_2; [unfold is_u8, U8_MAX; lia|]).
Defined.
(** A header whose size fields are codes of their fields. *)
Definition wf_header (h : ApduHeader) : Prop :=
  match h with HdrConfirmedRequest c => 0 <= ch_max_segments c <= 7 /\ 0 <= ch_max_apdu c <= 5 | _ => True end.
Lemma header_octets_read h parameters : wf_header h -> header_decode (take (header_encoded_len h) (header_octets h) ++ parameters) = Ok (h, parameters).
Proof.
  destruct h as [[acc seg len i s]| | | | |[] i r]; [|done..]. cbn [wf_header ch_max_segments ch_max_apdu]. intros [Hs Hl].
  assert (seg = 0 \/ seg = 1 \/ seg = 2 \/ seg = 3 \/ seg = 4 \/ seg = 5 \/ seg = 6 \/ seg = 7) as Hsc by lia.
  assert (len = 0 \/ len = 1 \/ len = 2 \/ len = 3 \/ len = 4 \/ len = 5) as Hlc by lia.
  clear Hs Hl. destruct acc; intuition subst; reflexivity.
Qed.
(** A header and its parameters reach a sink as one value, of the length reported, that reads back as they were; a sink without
    the room is given nothing. *)
Theorem header_encode_decode {S} `{EncodeSinkLaws S} (sink sink' : S) h parameters : wf_header h ->
  (forall n, encode_with_parameters_to_sink h sink parameters = (sink', Ok n) ->
    exists enc, contents sink' = contents sink ++ enc /\ n = length enc /\ header_decode enc = Ok (h, parameters)) /\
  (forall e, encode_with_parameters_to_sink h sink parameters = (sink', Err e) -> contents sink' = contents sink).
Proof.
  intros Hwf. unfold encode_with_parameters_to_sink. cbv zeta. destruct (write_parts sink _) as [s' [[]|e]] eqn:Ew; split; intros ? [= <- <-].
  - apply parts_ok in Ew as [Hc _]. exists (take (header_encoded_len h) (header_octets h) ++ parameters). cbn [concat] in Hc. rewrite app_nil_r in Hc.
    split_and!; [done|by rewrite length_app|by apply header_octets_read].
  - by apply parts_err in Ew as [Hc _].
Qed.
Lemma header_encode_decode_witness : exists sink', encode_with_parameters_to_sink (HdrAbort true 7 4) (fresh 8) [1; 2] = (sink', Ok 5%nat) /\
  exists enc, contents sink' = contents (fresh 8) ++ enc /\ 5%nat = length enc /\ header_decode enc = Ok (HdrAbort true 7 4, [1; 2]).
Proof.
  eexists. split; [vm_compute; reflexivity|]. refine (proj1 (header_encode_decode (fresh 8) _ (HdrAbort true 7 4) [1; 2] I) 5%nat _). vm_compute. reflexivity.
Defined.
