(* ===== verification/Segments.v ===== *)
(** * Segmentation (bacnet-encoding segmentation.rs)

    A payload too long for one PDU is cut into segments numbered modulo 256, collected by number in any order, and put together again.
    The theorems say when a payload can be cut, that the pieces fit the PDU that carries them, what a receiver makes of the segments that
    reach it, and what the duplicate test of a window decides. *)

From Stdlib Require Import String.
From stdpp Require Import gmap.
From S2P Require Import Prelude Sink WireError Tags Values Utf8 Primitives Tagged References Apdu.
Open Scope Z_scope.

(** ** The operations *)

(** [u8::wrapping_sub] *)
Definition wrapping_sub8 (a b : Z) : Z := (a - b) mod 256.
(** [duplicate_in_window] (bacnet-encoding/src/segmentation.rs) *)
Definition duplicate_in_window (sequence_number initial_sequence_number last_sequence_number : Z) : bool :=
  let received_count := wrapping_sub8 last_sequence_number initial_sequence_number in
  negb (received_count =? 0) && (wrapping_sub8 sequence_number initial_sequence_number <=? received_count).
(** [SegmentedPduType] (bacnet-encoding/src/segmentation.rs) *)
Inductive SegmentedPduType := SegConfirmedRequest | SegComplexAck.
(** [max_segment_payload] (bacnet-encoding/src/segmentation.rs) *)
Definition max_segment_payload (max_apdu_length : Z) (pdu_type : SegmentedPduType) : nat :=
  let overhead := match pdu_type with SegConfirmedRequest => 6%nat | SegComplexAck => 5%nat end in
  (Z.to_nat max_apdu_length - overhead)%nat.
(** [slice.chunks(n)] for a positive [n]. *)
Fixpoint chunks_fuel (fuel n : nat) (l : bytes) : list bytes :=
  match fuel, l with
  | S fuel, _ :: _ => take n l :: chunks_fuel fuel n (drop n l)
  | _, _ => []
  end.
Definition chunks (n : nat) (l : bytes) : list bytes := chunks_fuel (length l) n l.
(** [split_payload] (bacnet-encoding/src/segmentation.rs) *)
Definition split_payload (payload : bytes) (max_segment_size : nat) : Result (list bytes) Error :=
  if decide (max_segment_size = 0%nat) then Err (ErrSegmentation ZeroSegmentSize) else
  if decide (payload = []) then Ok [[]] else
  let segments := chunks max_segment_size payload in
  if decide (256 < length segments)%nat then Err (ErrSegmentation (TooManySegments (length segments))) else Ok segments.

(** [SegmentReceiver] (bacnet-encoding/src/segmentation.rs:82-84) *)
Record SegmentReceiver := { sr_segments : gmap Z bytes }.
(** [SegmentReceiver::new] (bacnet-encoding/src/segmentation.rs) *)
Definition receiver_new : SegmentReceiver := {| sr_segments := ∅ |}.
(** [SegmentReceiver::MAX_SEGMENT_SIZE] (bacnet-encoding/src/segmentation.rs:101-101) *)
Definition MAX_SEGMENT_SIZE : nat := 1476.
(** [SegmentReceiver::receive] (bacnet-encoding/src/segmentation.rs) *)
Definition receive (self : SegmentReceiver) (sequence_number : Z) (data : bytes) : SegmentReceiver * Result unit Error :=
  if decide (MAX_SEGMENT_SIZE < length data)%nat
  then (self, Err (ErrSegmentation (SegmentTooLarge (length data) MAX_SEGMENT_SIZE)))
  else ({| sr_segments := <[sequence_number := data]> (sr_segments self) |}, Ok tt).
(** [SegmentReceiver::has_segment] (bacnet-encoding/src/segmentation.rs) *)
Definition has_segment (self : SegmentReceiver) (sequence_number : Z) : bool := bool_decide (is_Some (sr_segments self !! sequence_number)).
(** [SegmentReceiver::received_count] (bacnet-encoding/src/segmentation.rs) *)
Definition received_count (self : SegmentReceiver) : nat := size (sr_segments self).
(** The loop of [reassemble] over the indices that are left. *)
Fixpoint reassemble_loop (self : SegmentReceiver) (total : nat) (indices : list nat) (result : bytes) : Result bytes Error :=
  match indices with
  | [] => Ok result
  | i :: rest =>
      match sr_segments self !! (Z.of_nat i mod 256) with
      | Some data => reassemble_loop self total rest (result ++ data)
      | None => Err (ErrSegmentation (MissingSegment i total))
      end
  end.
(** [SegmentReceiver::reassemble] (bacnet-encoding/src/segmentation.rs) *)
Definition reassemble (self : SegmentReceiver) (total_segments : nat) : Result bytes Error :=
  if decide (256 < total_segments)%nat then Err (ErrSegmentation (TotalTooLarge total_segments)) else
  reassemble_loop self total_segments (seq 0 total_segments) [].

(** ** Splitting *)

Lemma chunks_fuel_spec n fuel l : (0 < n)%nat -> (length l <= fuel)%nat ->
  concat (chunks_fuel fuel n l) = l /\ Forall (fun s => 0 < length s <= n)%nat (chunks_fuel fuel n l) /\
  length (chunks_fuel fuel n l) = ((length l + (n - 1)) / n)%nat.
Proof.
  intros Hn. revert l. induction fuel as [|fuel IH]; intros [|x l] Hl; cbn [chunks_fuel concat length] in *; try lia.
  1, 2: split_and!; [done|constructor|symmetry; apply Nat.div_small; lia].
  destruct (IH (drop n (x :: l))) as (Hc & Ha & Hlen); [rewrite length_drop; cbn; lia|]. split_and!.
  - rewrite Hc. apply take_drop.
  - constructor; [|done]. rewrite length_take. cbn. lia.
  - rewrite Hlen, length_drop. cbn [length]. destruct (decide (n <= S (length l))%nat) as [Hle|Hgt].
    + replace (S (length l) + (n - 1))%nat with ((S (length l) - n + (n - 1)) + 1 * n)%nat by lia. rewrite Nat.div_add by lia. lia.
    + replace (S (length l) - n)%nat with 0%nat by lia. rewrite (Nat.div_small (0 + (n - 1))) by lia.
      apply (Nat.div_unique _ _ _ (length l)); lia.
Qed.
Lemma chunks_spec n l : (0 < n)%nat -> concat (chunks n l) = l /\ Forall (fun s => 0 < length s <= n)%nat (chunks n l) /\
  length (chunks n l) = ((length l + (n - 1)) / n)%nat.
Proof. intros Hn. by apply chunks_fuel_spec. Qed.
Lemma split_ok payload size segments : split_payload payload size = Ok segments ->
  (0 < size)%nat /\ concat segments = payload /\ Forall (fun s => length s <= size)%nat segments /\ (1 <= length segments <= 256)%nat.
Proof.
  unfold split_payload. case_decide; [done|]. case_decide as Hp; [intros [= <-]; subst; split_and!; [lia|done|by repeat constructor; cbn; lia|cbn; lia..]|].
  cbv zeta. case_decide; [done|]. intros [= <-]. destruct (chunks_spec size payload ltac:(lia)) as (Hc & Ha & Hl). split_and!; [lia|done| | |lia].
  - eapply Forall_impl; [exact Ha|]. intros s. cbn. lia.
  - destruct (chunks size payload); [cbn in Hc; congruence|cbn; lia].
Qed.

(** A payload is refused exactly when a segment has no room at all or 256 of them do not hold it; otherwise the segments are the
    payload in order, none longer than asked, as few as can hold it, and never none. *)
Theorem split_exact payload size :
  match split_payload payload size with
  | Ok segments => concat segments = payload /\ Forall (fun s => length s <= size)%nat segments /\
      length segments = Nat.max 1 ((length payload + (size - 1)) / size) /\ (length segments <= 256)%nat
  | Err e => (size = 0%nat /\ e = ErrSegmentation ZeroSegmentSize) \/
      ((0 < size)%nat /\ (256 * size < length payload)%nat /\ e = ErrSegmentation (TooManySegments ((length payload + (size - 1)) / size)))
  end.
Proof.
  destruct (split_payload payload size) as [segments|e] eqn:E.
  - destruct (split_ok _ _ _ E) as (Hs & Hc & Ha & Hl). split_and!; [done..| |lia]. unfold split_payload in E. rewrite decide_False in E by lia.
    case_decide as Hp; [injection E as <-; subst; cbn [length]; by rewrite Nat.div_small by lia|]. cbv zeta in E. case_decide; [done|]. injection E as <-.
    destruct (chunks_spec size payload Hs) as (_ & _ & <-). lia.
  - unfold split_payload in E. case_decide; [left; by injection E as <-|]. case_decide; [done|]. cbv zeta in E. case_decide as Hl; [|done]. injection E as <-. right.
    destruct (chunks_spec size payload ltac:(lia)) as (_ & _ & Hn). rewrite Hn in Hl |- *. split_and!; [lia| |done].
    destruct (decide (256 * size < length payload)%nat) as [|Hle]; [done|]. exfalso.
    assert ((length payload + (size - 1)) / size < 257)%nat; [|lia]. apply Nat.Div0.div_lt_upper_bound. lia.
Qed.

(** ** Fitting the PDU *)

(** C31: the segments cut for a peer's limit fit it: a segment put in its PDU, request or acknowledgement, is no longer than the
    limit the payload was cut for. *)
Theorem segment_fits limit payload segments segment : 
  (forall p enc, split_payload payload (max_segment_payload limit SegConfirmedRequest) = Ok segments -> segment ∈ segments ->
     cr_segmented p = true -> cr_service_request p = segment -> encode_confirmed_request p = Ok enc -> Z.of_nat (length enc) <= limit) /\
  (forall p enc, split_payload payload (max_segment_payload limit SegComplexAck) = Ok segments -> segment ∈ segments ->
     ca_segmented p = true -> ca_service_ack p = segment -> encode_complex_ack p = Ok enc -> Z.of_nat (length enc) <= limit).
Proof.
  split; intros p enc Hsplit Hin Hseg Hreq Henc; apply split_ok in Hsplit as (Hpos & _ & Ha & _); rewrite Forall_forall in Ha; specialize (Ha _ Hin); cbn in Ha;
    unfold max_segment_payload in *; [unfold encode_confirmed_request in Henc|unfold encode_complex_ack in Henc]; rewrite Hseg, Hreq in Henc; unfold segment_fields in Henc; revert Henc.
  - destruct (encode_max_segments _); [|done]. destruct (encode_max_apdu _); [|done]. cbn [rbind]. destruct (valid_window_size _ _); [|done]. cbn [rbind]. intros [= <-]. cbn [length app]. lia.
  - destruct (valid_window_size _ _); [|done]. cbn [rbind]. intros [= <-]. cbn [length app]. lia.
Qed.

Lemma segment_fits_witness : exists segments, split_payload (replicate 100 7) (max_segment_payload 50 SegConfirmedRequest) = Ok segments /\
  forall enc, encode_confirmed_request {| cr_segmented := true; cr_more_follows := true; cr_segmented_response_accepted := true; cr_max_segments := None; cr_max_apdu_length := 50;
    cr_invoke_id := 1; cr_sequence_number := Some 0; cr_proposed_window_size := Some 4; cr_service_choice := 15; cr_service_request := replicate 44 7 |} = Ok enc -> Z.of_nat (length enc) <= 50.
Proof.
  eexists. split; [vm_compute; reflexivity|]. intros enc Henc.
  refine (proj1 (segment_fits 50 (replicate 100 7) _ (replicate 44 7)) _ enc _ _ _ _ Henc); [vm_compute; reflexivity|apply list_elem_of_here|reflexivity|reflexivity].
Defined.

(** ** Reassembly *)

(** What a receiver holds after the segments that reached it, in the order they did. *)
Fixpoint receive_all (self : SegmentReceiver) (arrivals : list (Z * bytes)) : SegmentReceiver * Result unit Error :=
  match arrivals with
  | [] => (self, Ok tt)
  | (q, data) :: rest => match receive self q data with (self, Ok _) => receive_all self rest | (self, Err e) => (self, Err e) end
  end.
(** Segment [i] of [segments], under its number. *)
Definition segment_of (segments : list bytes) (arrival : Z * bytes) : Prop := exists i, arrival.1 = Z.of_nat i /\ segments !! i = Some arrival.2.
Lemma receive_all_holds segments arrivals : Forall (fun s => length s <= MAX_SEGMENT_SIZE)%nat segments -> Forall (segment_of segments) arrivals ->
  forall r, exists r', receive_all r arrivals = (r', Ok tt) /\
    forall i, sr_segments r' !! Z.of_nat i = if decide (Z.of_nat i ∈ arrivals.*1) then segments !! i else sr_segments r !! Z.of_nat i.
Proof.
  intros Hlen Harr. induction arrivals as [|[q d] arrivals IH]; intros r; [by exists r|]. apply Forall_cons in Harr as [(k & Hq & Hk) Harr]. cbn in Hq, Hk. subst q.
  cbn [receive_all]. unfold receive. assert (length d <= MAX_SEGMENT_SIZE)%nat as Hd by (rewrite Forall_forall in Hlen; apply Hlen; by eapply list_elem_of_lookup_2).
  rewrite decide_False by lia. destruct (IH Harr {| sr_segments := <[Z.of_nat k := d]> (sr_segments r) |}) as (r' & -> & Hr). exists r'. split; [done|]. intros i. rewrite Hr. cbn [sr_segments fmap list_fmap fst].
  case_decide as Hin; [by rewrite decide_True by (by apply list_elem_of_further)|]. destruct (decide (i = k)) as [->|Hne].
  - rewrite lookup_insert_eq. by rewrite decide_True by apply list_elem_of_here.
  - rewrite lookup_insert_ne by lia. rewrite decide_False; [done|]. rewrite not_elem_of_cons. split; [lia|done].
Qed.
(** The lowest number that did not arrive. *)
Definition first_missing (arrived : list Z) (total : nat) : option nat := snd <$> list_find (fun i => Z.of_nat i ∉ arrived) (seq 0 total).
Lemma loop_reads r segments (arrived : list Z) total count : forall from result, (from + count)%nat = length segments -> (length segments <= 256)%nat ->
  (forall i, sr_segments r !! Z.of_nat i = if decide (Z.of_nat i ∈ arrived) then segments !! i else None) ->
  reassemble_loop r total (seq from count) result =
    match snd <$> list_find (fun i => Z.of_nat i ∉ arrived) (seq from count) with
    | None => Ok (result ++ concat (drop from segments))
    | Some i => Err (ErrSegmentation (MissingSegment i total))
    end.
Proof.
  induction count as [|count IH]; intros from result Hc Hle Hr; cbn [seq reassemble_loop list_find].
  - rewrite drop_ge by lia. cbn. by rewrite app_nil_r.
  - rewrite Z.mod_small by lia. rewrite Hr. destruct (decide (Z.of_nat from ∈ arrived)) as [Hin|Hout].
    + destruct (lookup_lt_is_Some_2 segments from ltac:(lia)) as [d Hd]. rewrite Hd. rewrite IH by (done || lia).
      rewrite (decide_False (P := Z.of_nat from ∉ arrived)) by tauto. rewrite (drop_S segments d from Hd). cbn [concat]. rewrite app_assoc.
      by destruct (list_find _ (seq (S from) count)) as [[]|].
    + by rewrite decide_True by done.
Qed.
(** C26: a payload cut into segments of at most 1476 octets, the most the receiver takes in one, survives any arrival of them: whatever the order, however often each is repeated, no segment is
    refused, the receiver knows exactly which have come, and reassembly gives the payload back when all have arrived and otherwise names the lowest one
    that has not. *)
Theorem reassembly_any_order payload size segments arrivals : split_payload payload size = Ok segments -> (size <= MAX_SEGMENT_SIZE)%nat ->
  Forall (segment_of segments) arrivals ->
  exists r, receive_all receiver_new arrivals = (r, Ok tt) /\
    (forall i, has_segment r (Z.of_nat i) = bool_decide (Z.of_nat i ∈ arrivals.*1)) /\
    reassemble r (length segments) =
      match first_missing arrivals.*1 (length segments) with
      | None => Ok payload
      | Some i => Err (ErrSegmentation (MissingSegment i (length segments)))
      end.
Proof.
  intros Hsplit Hsize Harr. destruct (split_ok _ _ _ Hsplit) as (_ & Hc & Ha & Hl).
  destruct (receive_all_holds segments arrivals) with (r := receiver_new) as (r & Hr & Hlook); [eapply Forall_impl; [exact Ha|]; cbn; lia|done|].
  exists r. split; [done|]. cbn [sr_segments receiver_new] in Hlook. split.
  - intros i. unfold has_segment. apply bool_decide_ext. rewrite Hlook, lookup_empty. case_decide as Hin; [|by split; [intros [? ?]|]].
    split; [done|intros _]. apply list_elem_of_fmap in Hin as ([q d] & Hq & Hin). rewrite Forall_forall in Harr. destruct (Harr _ Hin) as (k & Hk & Hd). cbn in Hq, Hk, Hd.
    assert (k = i) as -> by lia. by eexists.
  - unfold reassemble. rewrite decide_False by lia. rewrite (loop_reads r segments arrivals.*1) by (lia || (intros i; by rewrite Hlook, lookup_empty)).
    unfold first_missing. rewrite drop_0, app_nil_l, Hc. done.
Qed.
Lemma reassembly_any_order_witness : exists r,
  receive_all receiver_new [(2, [5]); (0, [1; 2]); (2, [5])] = (r, Ok tt) /\ reassemble r 3 = Err (ErrSegmentation (MissingSegment 1 3)).
Proof.
  destruct (reassembly_any_order [1; 2; 3; 4; 5] 2 [[1; 2]; [3; 4]; [5]] [(2, [5]); (0, [1; 2]); (2, [5])]) as (r & Hr & _ & Hm).
  - vm_compute. reflexivity.
  - unfold MAX_SEGMENT_SIZE. lia.
  - repeat apply Forall_cons_2; [by exists 2%nat|by exists 0%nat|by exists 2%nat|apply Forall_nil_2].
  - exists r. split; [exact Hr|]. cbn [length] in Hm. rewrite Hm. vm_compute. reflexivity.
Defined.

(** ** Duplicates *)

(** With the segments up to [last] accepted in order since the window that ended at [initial], the test names exactly those
    numbers and [initial] itself, around the end of the numbering too, and names none while nothing was accepted. *)
Theorem duplicate_exact initial accepted sequence : is_u8 initial -> is_u8 sequence -> 0 <= accepted <= 255 ->
  duplicate_in_window sequence initial ((initial + accepted) mod 256) = true <->
    0 < accepted /\ exists k, 0 <= k <= accepted /\ sequence = (initial + k) mod 256.
Proof.
  unfold is_u8, U8_MAX. intros Hi Hs Ha. unfold duplicate_in_window, wrapping_sub8. cbv zeta.
  assert (Hback : forall k, 0 <= k <= 255 -> ((initial + k) mod 256 - initial) mod 256 = k).
  { intros k Hk. rewrite Zminus_mod_idemp_l. replace (initial + k - initial) with k by lia. by apply Z.mod_small; lia. }
  rewrite (Hback accepted) by lia. rewrite andb_true_iff, negb_true_iff, Z.eqb_neq, Z.leb_le. split.
  - intros [Hne Hle]. split; [lia|]. exists ((sequence - initial) mod 256). pose proof (Z.mod_pos_bound (sequence - initial) 256 ltac:(lia)). split; [lia|].
    rewrite Zplus_mod_idemp_r. replace (initial + (sequence - initial)) with sequence by lia. symmetry. apply Z.mod_small. lia.
  - intros (Hpos & k & Hk & ->). rewrite (Hback k) by lia. lia.
Qed.
Lemma duplicate_exact_witness : (duplicate_in_window 1 250 2 = true <-> 0 < 8 /\ exists k, 0 <= k <= 8 /\ 1 = (250 + k) mod 256).
Proof. apply (duplicate_exact 250 8 1); unfold is_u8, U8_MAX; lia. Defined.
