(* ===== verification/Calendar.v ===== *)
(** * The calendar (bacnet-types calendar.rs, bacnet-device-core clock/synced.rs, bacnet-objects notification_class/window.rs)

    Day numbers of the Gregorian calendar and their inverse, date patterns, date ranges and week-n-day entries, and the time window of a
    notification's destination. The theorems: the two conversions are inverse, keep the order of days and
    overflow nowhere in the years they are made for; calendar entries match the days
    their definitions name; a destination judged open without a clock is open at every time. *)

From Stdlib Require Import String.
From S2P Require Import Prelude WireError Values.
Open Scope Z_scope.

(** [i32::from(b)], [i64::from(b)] *)
Definition from_bool (b : bool) : Z := if b then 1 else 0.
(** [u8::is_multiple_of] of a nonzero divisor *)
Definition is_multiple_of (n k : Z) : bool := n mod k =? 0.

(** ** Day numbers *)

(** [is_leap_year] (bacnet-types/src/calendar.rs) *)
Definition is_leap_year (year : Z) : bool := is_multiple_of year 4 && (negb (is_multiple_of year 100) || is_multiple_of year 400).
(** [days_in_month] (bacnet-types/src/calendar.rs:36-44) *)
Definition days_in_month (year month : Z) : Z :=
  if (month =? 1) || (month =? 3) || (month =? 5) || (month =? 7) || (month =? 8) || (month =? 10) || (month =? 12) then 31 else
  if (month =? 4) || (month =? 6) || (month =? 9) || (month =? 11) then 30 else
  if month =? 2 then (if is_leap_year year then 29 else 28) else 0.
(** [SpecificDate] (bacnet-types/src/calendar.rs) *)
Record SpecificDate := { sd_year : Z; sd_month : Z; sd_day : Z }.
(** [SpecificDate::new] (bacnet-types/src/calendar.rs) *)
Definition specific_new (year month day : Z) : option SpecificDate :=
  if (1900 <=? year) && (year <=? 2154) && (1 <=? day) && (day <=? days_in_month year month)
  then Some {| sd_year := year; sd_month := month; sd_day := day |} else None.
(** [SpecificDate::from_date] (bacnet-types/src/calendar.rs) *)
Definition specific_from_date (d : Date) : option SpecificDate :=
  if year d =? 255 then None else specific_new (1900 + year d) (month d) (day d).
(** [SpecificDate::days_in_month] (bacnet-types/src/calendar.rs:93-95) *)
Definition sd_days_in_month (s : SpecificDate) : Z := days_in_month (sd_year s) (sd_month s).
(** [SpecificDate::days_since_1970] (bacnet-types/src/calendar.rs) *)
Definition days_since_1970 (s : SpecificDate) : Z :=
  let year := sd_year s - from_bool (sd_month s <=? 2) in
  let era := year / 400 in
  let year_of_era := year - era * 400 in
  let month_prime := sd_month s + (if 2 <? sd_month s then -3 else 9) in
  let day_of_year := (153 * month_prime + 2) / 5 + sd_day s - 1 in
  let day_of_era := year_of_era * 365 + year_of_era / 4 - year_of_era / 100 + day_of_year in
  era * 146097 + day_of_era - 719468.
(** [SpecificDate::weekday] (bacnet-types/src/calendar.rs) *)
Definition sd_weekday (s : SpecificDate) : Z := (days_since_1970 s + 3) mod 7 + 1.
(** [SpecificDate::to_date] (bacnet-types/src/calendar.rs) *)
Definition to_date (s : SpecificDate) : Date := {| year := sd_year s - 1900; month := sd_month s; day := sd_day s; day_of_week := sd_weekday s |}.

(** What a 32-bit operation makes of its exact result: one that doesn't fit panics in a build with overflow checks, and wraps in any other. *)
Definition I32_MIN : Z := -2147483648.
Definition I32_MAX : Z := 2147483647.
Definition is_i32 (z : Z) : Prop := I32_MIN <= z <= I32_MAX.
Definition i32_checked (z : Z) : option Z := if (I32_MIN <=? z) && (z <=? I32_MAX) then Some z else None.
Definition i32_wrap (z : Z) : Z := (z - I32_MIN) mod 4294967296 + I32_MIN.
Definition i32_wrapping (z : Z) : option Z := Some (i32_wrap z).
(** [weekday] (bacnet-device-core/src/clock/synced.rs) *)
Definition weekday (day : Z) : Z := i32_wrap (day + 3) mod 7 + 1.
(** The conversion with every operation of its 32 bits handed to [op]; the quotients are of numbers that are never negative, but for the era's, a
    [div_euclid].
    [days_from_civil] (bacnet-device-core/src/clock/synced.rs) *)
Definition days_from_civil_with (op : Z -> option Z) (year month day : Z) : option Z :=
  year ← op (year - from_bool (month <=? 2));
  let era := year / 400 in
  era_years ← op (era * 400);
  year_of_era ← op (year - era_years);
  shifted_month ← (if 2 <? month then op (month - 3) else op (month + 9));
  scaled ← op (153 * shifted_month);
  scaled ← op (scaled + 2);
  day_of_year ← op (scaled / 5 + day);
  day_of_year ← op (day_of_year - 1);
  day_of_era ← op (year_of_era * 365);
  day_of_era ← op (day_of_era + year_of_era / 4);
  day_of_era ← op (day_of_era - year_of_era / 100);
  day_of_era ← op (day_of_era + day_of_year);
  days ← op (era * 146097);
  days ← op (days + day_of_era);
  op (days - 719468).
(** [civil] (bacnet-device-core/src/clock/synced.rs) *)
Definition civil_with (op : Z -> option Z) (day : Z) : option (Z * Z * Z) :=
  shifted ← op (day + 719468);
  let era := shifted / 146097 in
  era_days ← op (era * 146097);
  day_of_era ← op (shifted - era_days);
  days ← op (day_of_era - day_of_era / 1460);
  days ← op (days + day_of_era / 36524);
  days ← op (days - day_of_era / 146096);
  let year_of_era := days / 365 in
  year_days ← op (365 * year_of_era);
  year_days ← op (year_days + year_of_era / 4);
  year_days ← op (year_days - year_of_era / 100);
  day_of_year ← op (day_of_era - year_days);
  scaled ← op (5 * day_of_year);
  scaled ← op (scaled + 2);
  let shifted_month := scaled / 153 in
  month_days ← op (153 * shifted_month);
  month_days ← op (month_days + 2);
  day ← op (day_of_year - month_days / 5);
  day ← op (day + 1);
  month ← (if shifted_month <? 10 then op (shifted_month + 3) else op (shifted_month - 9));
  era_years ← op (era * 400);
  year ← op (year_of_era + era_years);
  year ← op (year + from_bool (month <=? 2));
  Some (year, month, day).
(** The conversions of a build that wraps; one with overflow checks runs [days_from_civil_with i32_checked] and [civil_with i32_checked], and
    panics where they give nothing.
    [days_from_civil] (bacnet-device-core/src/clock/synced.rs) *)
Definition days_from_civil (year month day : Z) : Z := default 0 (days_from_civil_with i32_wrapping year month day).
(** [civil] (bacnet-device-core/src/clock/synced.rs) *)
Definition civil (day : Z) : Z * Z * Z := default (0, 0, 0) (civil_with i32_wrapping day).

(** ** Patterns *)

(** [month_matches] (bacnet-types/src/calendar.rs) *)
Definition month_matches (octet month : Z) : bool :=
  if octet =? 255 then true else if octet =? 13 then negb (is_multiple_of month 2) else if octet =? 14 then is_multiple_of month 2 else octet =? month.
(** [weekday_matches] (bacnet-types/src/calendar.rs) *)
Definition weekday_matches (octet : Z) (day : SpecificDate) : bool := (octet =? 255) || (octet =? sd_weekday day).
(** [valid_weekday] (bacnet-types/src/calendar.rs) *)
Definition valid_weekday (octet : Z) : bool := (octet =? 255) || ((1 <=? octet) && (octet <=? 7)).
(** [valid_month] (bacnet-types/src/calendar.rs) *)
Definition valid_month (octet : Z) : bool := (octet =? 255) || ((1 <=? octet) && (octet <=? 14)).
(** [Date::is_unspecified] (bacnet-types/src/calendar.rs) *)
Definition date_is_unspecified (d : Date) : bool := bool_decide (date_encode d = [255; 255; 255; 255]).
(** [Date::is_valid_pattern] (bacnet-types/src/calendar.rs) *)
Definition is_valid_pattern (d : Date) : bool :=
  valid_month (month d) && ((day d =? 255) || ((1 <=? day d) && (day d <=? 34))) && valid_weekday (day_of_week d).
(** [Date::matches] (bacnet-types/src/calendar.rs:171-183) *)
Definition date_matches (d : Date) (s : SpecificDate) : bool :=
  let year_ok := (year d =? 255) || (1900 + year d =? sd_year s) in
  let day_ok :=
    if day d =? 255 then true else if day d =? 32 then sd_day s =? sd_days_in_month s else
    if day d =? 33 then negb (is_multiple_of (sd_day s) 2) else if day d =? 34 then is_multiple_of (sd_day s) 2 else day d =? sd_day s in
  year_ok && month_matches (month d) (sd_month s) && day_ok && weekday_matches (day_of_week d) s.
(** [BACnetDateRange] (bacnet-types/src/constructed/mod.rs) *)
Record BACnetDateRange := { start_date : Date; end_date : Date }.
(** [BACnetWeekNDay] (bacnet-types/src/constructed/mod.rs:95-102) *)
Record BACnetWeekNDay := { wn_month : Z; wn_week_of_month : Z; wn_day_of_week : Z }.
(** [BACnetCalendarEntry] (bacnet-types/src/constructed/mod.rs:141-148) *)
Inductive BACnetCalendarEntry := EntryDate (d : Date) | EntryDateRange (r : BACnetDateRange) | EntryWeekNDay (w : BACnetWeekNDay).
(** [Endpoint] (bacnet-types/src/calendar.rs:187-191) *)
Inductive Endpoint := Open | At (day : SpecificDate) | Invalid.
(** [Endpoint::of] (bacnet-types/src/calendar.rs) *)
Definition endpoint_of (d : Date) : Endpoint :=
  if date_is_unspecified d then Open else
  match specific_from_date d with Some s => if valid_weekday (day_of_week d) then At s else Invalid | None => Invalid end.
(** The derived order of [SpecificDate].
    [SpecificDate] (bacnet-types/src/calendar.rs:50-55) *)
Definition sd_le (a b : SpecificDate) : bool :=
  (sd_year a <? sd_year b) || ((sd_year a =? sd_year b) &&
    ((sd_month a <? sd_month b) || ((sd_month a =? sd_month b) && (sd_day a <=? sd_day b)))).
(** [BACnetDateRange::is_valid] (bacnet-types/src/calendar.rs:210-213) *)
Definition range_is_valid (r : BACnetDateRange) : bool :=
  match endpoint_of (start_date r), endpoint_of (end_date r) with Invalid, _ | _, Invalid => false | _, _ => true end.
(** [BACnetDateRange::contains] (bacnet-types/src/calendar.rs) *)
Definition range_contains (r : BACnetDateRange) (s : SpecificDate) : bool :=
  match endpoint_of (start_date r) with
  | Invalid => false
  | start =>
      let after_start := match start with At d => sd_le d s | _ => true end in
      match endpoint_of (end_date r) with
      | Invalid => false
      | end_ => let before_end := match end_ with At d => sd_le s d | _ => true end in after_start && before_end
      end
  end.
(** [BACnetWeekNDay::is_valid] (bacnet-types/src/calendar.rs:237-241) *)
Definition week_n_day_is_valid (w : BACnetWeekNDay) : bool :=
  valid_month (wn_month w) && ((wn_week_of_month w =? 255) || ((1 <=? wn_week_of_month w) && (wn_week_of_month w <=? 9))) && valid_weekday (wn_day_of_week w).
(** [BACnetWeekNDay::matches] (bacnet-types/src/calendar.rs:244-259) *)
Definition week_n_day_matches (w : BACnetWeekNDay) (s : SpecificDate) : bool :=
  let date := sd_day s in
  let last := sd_days_in_month s in
  let week := wn_week_of_month w in
  let week_ok :=
    if week =? 255 then true else
    if (1 <=? week) && (week <=? 5) then (date - 1) / 7 + 1 =? week else
    if (6 <=? week) && (week <=? 9) then let end_ := last - (week - 6) * 7 in (end_ - 6 <=? date) && (date <=? end_) else false in
  month_matches (wn_month w) (sd_month s) && week_ok && weekday_matches (wn_day_of_week w) s.
(** [BACnetCalendarEntry::is_valid] (bacnet-types/src/calendar.rs:267-273) *)
Definition entry_is_valid (e : BACnetCalendarEntry) : bool :=
  match e with EntryDate d => is_valid_pattern d | EntryDateRange r => range_is_valid r | EntryWeekNDay w => week_n_day_is_valid w end.
(** [BACnetCalendarEntry::matches] (bacnet-types/src/calendar.rs:276-282) *)
Definition entry_matches (e : BACnetCalendarEntry) (s : SpecificDate) : bool :=
  match e with EntryDate d => date_matches d s | EntryDateRange r => range_contains r s | EntryWeekNDay w => week_n_day_matches w s end.
(** [Time::is_specific] (bacnet-types/src/calendar.rs) *)
Definition time_is_specific (t : Time) : bool := (hour t <=? 23) && (minute t <=? 59) && (second t <=? 59) && (hundredths t <=? 99).

(** ** The two conversions are inverse *)

(** The same arithmetic on integers of any size: the day number of a day of the calendar. *)
Definition day_number (year month day : Z) : Z :=
  let year := year - from_bool (month <=? 2) in
  let era := year / 400 in
  let year_of_era := year - era * 400 in
  let shifted_month := if 2 <? month then month - 3 else month + 9 in
  let day_of_year := (153 * shifted_month + 2) / 5 + day - 1 in
  let day_of_era := year_of_era * 365 + year_of_era / 4 - year_of_era / 100 + day_of_year in
  era * 146097 + day_of_era - 719468.
(** The day of a day number, on integers of any size. *)
Definition civil_of (day : Z) : Z * Z * Z :=
  let shifted := day + 719468 in
  let era := shifted / 146097 in
  let day_of_era := shifted - era * 146097 in
  let year_of_era := (day_of_era - day_of_era / 1460 + day_of_era / 36524 - day_of_era / 146096) / 365 in
  let day_of_year := day_of_era - (365 * year_of_era + year_of_era / 4 - year_of_era / 100) in
  let shifted_month := (5 * day_of_year + 2) / 153 in
  let day := day_of_year - (153 * shifted_month + 2) / 5 + 1 in
  let month := if shifted_month <? 10 then shifted_month + 3 else shifted_month - 9 in
  let year := year_of_era + era * 400 + from_bool (month <=? 2) in
  (year, month, day).
(** Days of the months from March, before each. *)
Lemma month_of_year shifted_month day : 0 <= shifted_month <= 11 -> 1 <= day <= (153 * (shifted_month + 1) + 2) / 5 - (153 * shifted_month + 2) / 5 ->
  (5 * ((153 * shifted_month + 2) / 5 + day - 1) + 2) / 153 = shifted_month.
Proof.
  intros Hm Hd. assert (shifted_month = 0 \/ shifted_month = 1 \/ shifted_month = 2 \/ shifted_month = 3 \/ shifted_month = 4 \/ shifted_month = 5 \/ shifted_month = 6 \/
    shifted_month = 7 \/ shifted_month = 8 \/ shifted_month = 9 \/ shifted_month = 10 \/ shifted_month = 11) as Hc by lia.
  clear Hm. intuition subst; Z.to_euclidean_division_equations; lia.
Qed.
(** A year of an era and a day of it, the last one only of a year before a leap day's, come back from the day of the era. *)
Lemma year_from_day y d : 0 <= y <= 399 -> 0 <= d <= 365 -> (d = 365 -> y mod 4 = 3 /\ (y mod 100 <> 99 \/ y = 399)) ->
  let e := y * 365 + y / 4 - y / 100 + d in (e - e / 1460 + e / 36524 - e / 146096) / 365 = y /\ 0 <= e <= 146096.
Proof.
  intros Hy Hd Hleap e. pose proof (Z.div_mod y 100 ltac:(lia)) as E1. pose proof (Z.mod_pos_bound y 100 ltac:(lia)) as B1. set (c := y / 100) in *. set (m := y mod 100) in *.
  pose proof (Z.div_mod m 4 ltac:(lia)) as E2. pose proof (Z.mod_pos_bound m 4 ltac:(lia)) as B2. set (q := m / 4) in *. set (r := m mod 4) in *.
  assert (E3 : y / 4 = 25 * c + q) by (symmetry; apply (Z.div_unique _ _ _ r); lia). assert (E4 : y mod 4 = r) by (symmetry; apply (Z.mod_unique _ _ (25 * c + q)); lia).
  rewrite E4 in Hleap. assert (Ee : e = 36524 * c + 1461 * q + 365 * r + d) by (unfold e; rewrite E3; lia). clearbody e. clear E3 E4.
  assert (Hc : 0 <= c <= 3) by lia. assert (Hq : 0 <= q <= 24) by lia. clearbody c m q r.
  assert (Hs : r < 3 /\ d <= 364 \/ r = 3 /\ d <= 364 \/ r = 3 /\ d = 365 /\ (q < 24 \/ c = 3)) by lia.
  assert (F1 : e / 36524 - e / 146096 = c).
  { destruct (decide (e = 146096)) as [->|]; [change (146096 / 36524) with 4; change (146096 / 146096) with 1; lia|]. rewrite (Z.div_small e 146096) by lia. rewrite Z.sub_0_r. symmetry. apply (Z.div_unique _ _ _ (e - 36524 * c)); lia. }
  assert (F2 : e / 1460 = 25 * c + q + (24 * c + q + 365 * r + d) / 1460) by (rewrite Ee; replace (36524 * c + 1461 * q + 365 * r + d) with ((24 * c + q + 365 * r + d) + (25 * c + q) * 1460) by lia; rewrite Z.div_add by lia; lia).
  assert (F3 : (24 * c + q + 365 * r + d) / 1460 = if decide (24 * c + q + 365 * r + d < 1460) then 0 else 1) by (case_decide; [apply Z.div_small; lia|symmetry; apply (Z.div_unique _ _ _ (24 * c + q + 365 * r + d - 1460)); lia]).
  split; [|lia]. replace (e - e / 1460 + e / 36524 - e / 146096) with (e - e / 1460 + (e / 36524 - e / 146096)) by lia. rewrite F1, F2, F3. symmetry.
  case_decide; [apply (Z.div_unique _ _ _ d)|apply (Z.div_unique _ _ _ (d - 1))]; lia.
Qed.
(** A day of the calendar. *)
Definition real_day (year month day : Z) : Prop := 1 <= day <= days_in_month year month.
Lemma real_month year month day : real_day year month day -> 1 <= month <= 12.
Proof.
  unfold real_day, days_in_month. destruct (_ || _) eqn:E1; [lia|]. destruct (_ || (month =? 11)) eqn:E2; [lia|]. destruct (month =? 2) eqn:E3; lia.
Qed.
Lemma leap_mod year : is_leap_year year = true <-> year mod 4 = 0 /\ (year mod 100 <> 0 \/ year mod 400 = 0).
Proof. unfold is_leap_year, is_multiple_of. rewrite andb_true_iff, orb_true_iff, negb_true_iff, !Z.eqb_eq, Z.eqb_neq. tauto. Qed.
Definition shifted (month : Z) : Z := if 2 <? month then month - 3 else month + 9.
Definition unshifted (shifted_month : Z) : Z := if shifted_month <? 10 then shifted_month + 3 else shifted_month - 9.
(** Evaluate the terms of a goal that a month settles. *)
Ltac eval_closed :=
  cbv zeta;
  repeat match goal with
  | |- context [shifted ?k] => let v := eval vm_compute in (shifted k) in change (shifted k) with v
  | |- context [unshifted ?k] => let v := eval vm_compute in (unshifted k) in change (unshifted k) with v
  | |- context [(153 * ?k + 2) / 5] => let v := eval vm_compute in ((153 * k + 2) / 5) in change ((153 * k + 2) / 5) with v
  end.
(** The day of a year that starts in March. *)
Lemma day_of_march_year year month day : real_day year month day ->
  let m := shifted month in let d := (153 * m + 2) / 5 + day - 1 in
  0 <= m <= 11 /\ 1 <= day <= (153 * (m + 1) + 2) / 5 - (153 * m + 2) / 5 /\ 0 <= d <= 365 /\ unshifted m = month /\
  (d = 365 -> month = 2 /\ is_leap_year year = true).
Proof.
  intros Hr. pose proof (real_month _ _ _ Hr) as Hm. unfold real_day, days_in_month in Hr.
  assert (month = 1 \/ month = 2 \/ month = 3 \/ month = 4 \/ month = 5 \/ month = 6 \/ month = 7 \/ month = 8 \/ month = 9 \/ month = 10 \/ month = 11 \/ month = 12) as Hc by lia.
  clear Hm. destruct Hc as [->|[->|[->|[->|[->|[->|[->|[->|[->|[->|[->| ->]]]]]]]]]]];
    cbn [Z.eqb Pos.eqb orb] in Hr; eval_closed; try (split_and!; (done || lia)).
  destruct (is_leap_year year); split_and!; try (done || lia).
Qed.
Lemma civil_of_days year month day : real_day year month day -> civil_of (day_number year month day) = (year, month, day).
Proof.
  intros Hr. destruct (day_of_march_year _ _ _ Hr) as (Hm & Hd & Hdoy & Hun & Hleap). unfold day_number. fold (shifted month).
  set (m := shifted month) in *. set (doy := (153 * m + 2) / 5 + day - 1) in *. set (y := year - from_bool (month <=? 2)). cbv zeta.
  set (era := y / 400). pose proof (Z.div_mod y 400 ltac:(lia)) as Ey. fold era in Ey. set (yoe := y - era * 400). pose proof (Z.mod_pos_bound y 400 ltac:(lia)) as By.
  assert (Hyoe : 0 <= yoe <= 399) by lia.
  destruct (year_from_day yoe doy Hyoe Hdoy) as [Hyear He].
  { intros E. destruct (Hleap E) as [-> Hl]. apply leap_mod in Hl. unfold y in *. cbn [from_bool Z.leb Z.compare Pos.compare Pos.compare_cont] in *.
    clear - Hl Hyoe Ey. Z.to_euclidean_division_equations. lia. }
  cbv zeta in Hyear, He. set (e := yoe * 365 + yoe / 4 - yoe / 100 + doy) in *. unfold civil_of. cbv zeta.
  replace (era * 146097 + e - 719468 + 719468) with (e + era * 146097) by lia. rewrite Z.div_add, (Z.div_small e) by lia. rewrite Z.add_0_l.
  replace (e + era * 146097 - era * 146097) with e by lia. rewrite Hyear.
  replace (e - (365 * yoe + yoe / 4 - yoe / 100)) with doy by (unfold e; lia). assert (Hsm : (5 * doy + 2) / 153 = m) by (by apply month_of_year). rewrite Hsm.
  fold (unshifted m). rewrite Hun. repeat f_equal; [|unfold doy; lia]. unfold yoe, y. lia.
Qed.
(** Every day of an era is a day of one of its years. *)
Lemma year_of_day e : 0 <= e <= 146096 -> exists y d, 0 <= y <= 399 /\ 0 <= d <= 365 /\ e = y * 365 + y / 4 - y / 100 + d /\
  (d = 365 -> y mod 4 = 3 /\ (y mod 100 <> 99 \/ y = 399)).
Proof.
  intros He. assert (exists c e1, 0 <= c <= 3 /\ e = 36524 * c + e1 /\ 0 <= e1 <= 36524 /\ (e1 = 36524 -> c = 3)) as (c & e1 & Hc & -> & H1 & Hc3).
  { destruct (decide (e = 146096)) as [->|]; [exists 3, 36524; lia|]. exists (e / 36524), (e mod 36524). Z.to_euclidean_division_equations. lia. }
  assert (exists q e2, 0 <= q <= 24 /\ e1 = 1461 * q + e2 /\ 0 <= e2 <= 1460 /\ (e2 = 1460 -> q < 24 \/ c = 3)) as (q & e2 & Hq & -> & H2 & Hq3).
  { exists (e1 / 1461), (e1 mod 1461). Z.to_euclidean_division_equations. lia. }
  assert (exists r d, 0 <= r <= 3 /\ e2 = 365 * r + d /\ 0 <= d <= 365 /\ (d = 365 -> r = 3 /\ e2 = 1460)) as (r & d & Hr & -> & H3 & Hr3).
  { destruct (decide (e2 = 1460)) as [->|]; [exists 3, 365; lia|]. exists (e2 / 365), (e2 mod 365). Z.to_euclidean_division_equations. lia. }
  assert (E1 : (100 * c + 4 * q + r) / 100 = c) by (symmetry; apply (Z.div_unique _ _ _ (4 * q + r)); lia).
  assert (E2 : (100 * c + 4 * q + r) / 4 = 25 * c + q) by (symmetry; apply (Z.div_unique _ _ _ r); lia).
  assert (E3 : (100 * c + 4 * q + r) mod 4 = r) by (symmetry; apply (Z.mod_unique _ _ (25 * c + q)); lia).
  assert (E4 : (100 * c + 4 * q + r) mod 100 = 4 * q + r) by (symmetry; apply (Z.mod_unique _ _ c); lia).
  exists (100 * c + 4 * q + r), d. rewrite E1, E2, E3, E4. split_and!; lia.
Qed.
Lemma month_of_day year d : 0 <= d <= 365 -> exists m day, 0 <= m <= 11 /\ d = (153 * m + 2) / 5 + day - 1 /\ shifted (unshifted m) = m /\
  (d = 365 -> m = 11) /\ ((d = 365 -> is_leap_year year = true) -> 1 <= day <= days_in_month year (unshifted m)).
Proof.
  intros Hd. assert (exists m, 0 <= m <= 11 /\ (153 * m + 2) / 5 <= d < (153 * (m + 1) + 2) / 5) as (m & Hm & Hb).
  { exists ((5 * d + 2) / 153). Z.to_euclidean_division_equations. lia. }
  exists m, (d - (153 * m + 2) / 5 + 1).
  assert (m = 0 \/ m = 1 \/ m = 2 \/ m = 3 \/ m = 4 \/ m = 5 \/ m = 6 \/ m = 7 \/ m = 8 \/ m = 9 \/ m = 10 \/ m = 11) as Hc by lia. clear Hm.
  destruct Hc as [->|[->|[->|[->|[->|[->|[->|[->|[->|[->|[->| ->]]]]]]]]]]]; revert Hb; eval_closed; intros Hb; unfold days_in_month; cbn [Z.eqb Pos.eqb orb];
    split_and!; (done || lia).
Qed.
Lemma days_of_civil n : exists year month day, real_day year month day /\ day_number year month day = n.
Proof.
  pose proof (Z.div_mod (n + 719468) 146097 ltac:(lia)) as En. pose proof (Z.mod_pos_bound (n + 719468) 146097 ltac:(lia)) as Bn.
  set (era := (n + 719468) / 146097) in *. set (e := (n + 719468) mod 146097) in *.
  destruct (year_of_day e ltac:(lia)) as (y & d & Hy & Hd & He & Hleap).
  destruct (month_of_day (y + era * 400 + 1) d Hd) as (m & day & Hm & Hdoy & Hsh & Hm11 & Hreal).
  exists (y + era * 400 + from_bool (unshifted m <=? 2)), (unshifted m), day.
  assert (Hl : d = 365 -> is_leap_year (y + era * 400 + 1) = true).
  { intros E. destruct (Hleap E) as [H4 H100]. apply leap_mod. clear - H4 H100 Hy. Z.to_euclidean_division_equations. lia. }
  split.
  - specialize (Hreal Hl). unfold real_day. destruct (unshifted m <=? 2) eqn:E; [exact Hreal|]. cbn [from_bool]. rewrite Z.add_0_r.
    unfold days_in_month in *. replace (unshifted m =? 2) with false in * by lia. exact Hreal.
  - unfold day_number. fold (shifted (unshifted m)). rewrite Hsh. cbv zeta.
    replace (y + era * 400 + from_bool (unshifted m <=? 2) - from_bool (unshifted m <=? 2)) with (y + era * 400) by lia.
    rewrite Z.div_add, (Z.div_small y) by lia. rewrite Z.add_0_l. replace (y + era * 400 - era * 400) with y by lia. lia.
Qed.
(** ** The order of days *)

(** The day a March-based year starts on. *)
Definition year_start (y : Z) : Z := 365 * y + y / 4 - y / 100 + y / 400 - 719468.
Lemma days_from_start year month day : day_number year month day =
  year_start (year - from_bool (month <=? 2)) + ((153 * shifted month + 2) / 5 + day - 1).
Proof.
  unfold day_number. fold (shifted month). cbv zeta. set (y := year - from_bool (month <=? 2)). unfold year_start.
  set (d := (153 * shifted month + 2) / 5 + day - 1). clearbody d. Z.to_euclidean_division_equations. lia.
Qed.
Lemma year_start_lt a b : a < b -> year_start a + 365 + from_bool (is_leap_year (a + 1)) <= year_start b.
Proof.
  intros Hab. assert (Hnext : year_start a + 365 + from_bool (is_leap_year (a + 1)) <= year_start (a + 1)).
  { unfold year_start. destruct (is_leap_year (a + 1)) eqn:E; cbn [from_bool].
    - apply leap_mod in E. Z.to_euclidean_division_equations. lia.
    - Z.to_euclidean_division_equations. lia. }
  assert (Hmono : year_start (a + 1) <= year_start b); [|lia]. unfold year_start. assert (H4 := Z.div_le_mono (a + 1) b 4 ltac:(lia) ltac:(lia)).
  assert (H100 : b / 100 - (a + 1) / 100 <= b - (a + 1)) by (clear - Hab; Z.to_euclidean_division_equations; lia).
  assert (H400 := Z.div_le_mono (a + 1) b 400 ltac:(lia) ltac:(lia)). lia.
Qed.
Lemma month_start_lt a b : 0 <= a -> a < b -> (153 * (a + 1) + 2) / 5 <= (153 * b + 2) / 5.
Proof. intros Ha Hab. apply Z.div_le_mono; lia. Qed.
Lemma days_lt year month day year' month' day' : real_day year month day -> real_day year' month' day' ->
  year < year' \/ year = year' /\ (month < month' \/ month = month' /\ day < day') ->
  day_number year month day < day_number year' month' day'.
Proof.
  intros Hr Hr' Hlex. pose proof (real_month _ _ _ Hr) as Hm. pose proof (real_month _ _ _ Hr') as Hm'.
  destruct (day_of_march_year _ _ _ Hr) as (Hs & Hd & Hdoy & _ & Hleap). destruct (day_of_march_year _ _ _ Hr') as (Hs' & Hd' & Hdoy' & _ & _). cbv zeta in *.
  rewrite !days_from_start. set (y := year - from_bool (month <=? 2)). set (y' := year' - from_bool (month' <=? 2)).
  assert (y < y' \/ y = y' /\ (shifted month < shifted month' \/ shifted month = shifted month' /\ day < day')) as [Hy|[<- [Hsm|[-> Hday]]]].
  { unfold y, y', shifted, from_bool. repeat case_match; lia. }
  - pose proof (year_start_lt y y' Hy). assert ((153 * shifted month + 2) / 5 + day - 1 < 365 + from_bool (is_leap_year (y + 1))); [|lia].
    destruct (decide ((153 * shifted month + 2) / 5 + day - 1 = 365)) as [E|]; [|unfold from_bool; case_match; lia]. destruct (Hleap E) as [-> Hl]. unfold y.
    cbn [from_bool Z.leb Z.compare Pos.compare Pos.compare_cont]. replace (year - 1 + 1) with year by lia. rewrite Hl. cbn [from_bool]. lia.
  - pose proof (month_start_lt (shifted month) (shifted month') ltac:(lia) Hsm). lia.
  - lia.
Qed.
(** ** Within 32 bits *)

(** The day numbers whose conversions stay within 32 bits. *)
Definition MAX_DAY : Z := I32_MAX - 719468.
(** An operation that keeps the results that fit. *)
Definition keeps_i32 (op : Z -> option Z) : Prop := forall z, is_i32 z -> op z = Some z.
Lemma checked_keeps : keeps_i32 i32_checked.
Proof. intros z Hz. unfold i32_checked, is_i32 in *. replace (_ && _) with true by lia. done. Qed.
Lemma wrap_fits z : is_i32 z -> i32_wrap z = z.
Proof. unfold is_i32, i32_wrap, I32_MIN, I32_MAX. intros. rewrite Z.mod_small by lia. lia. Qed.
Lemma wrapping_keeps : keeps_i32 i32_wrapping.
Proof. intros z Hz. unfold i32_wrapping. by rewrite wrap_fits. Qed.
(** Take the steps of a conversion whose results fit. *)
Ltac fit_step Hop :=
  match goal with
  | |- mbind _ (_ ?z) = _ => rewrite (Hop z) by (unfold is_i32, I32_MIN, I32_MAX in *; lia)
  | |- _ ?z = Some _ => rewrite (Hop z) by (unfold is_i32, I32_MIN, I32_MAX in *; lia)
  end; cbn [mbind option_bind].
Ltac fit_steps Hop := repeat fit_step Hop.
Lemma days_with_fits op year month day : keeps_i32 op -> real_day year month day -> I32_MIN <= day_number year month day <= MAX_DAY ->
  days_from_civil_with op year month day = Some (day_number year month day).
Proof.
  intros Hop Hr. destruct (day_of_march_year _ _ _ Hr) as (Hm & Hd & Hdoy & _). unfold day_number, days_from_civil_with. fold (shifted month). cbv zeta in *.
  set (m := shifted month) in *. set (y := year - from_bool (month <=? 2)). set (era := y / 400).
  pose proof (Z.div_mod y 400 ltac:(lia)) as Ey. pose proof (Z.mod_pos_bound y 400 ltac:(lia)) as By. fold era in Ey.
  set (yoe := y - era * 400). assert (Hyoe : 0 <= yoe <= 399) by lia.
  assert (H4 : 0 <= yoe / 4 <= 99) by (clear - Hyoe; Z.to_euclidean_division_equations; lia).
  assert (H100 : 0 <= yoe / 100 <= 3) by (clear - Hyoe; Z.to_euclidean_division_equations; lia).
  set (doy := (153 * m + 2) / 5 + day - 1) in *. intros Hn. unfold MAX_DAY, I32_MIN, I32_MAX in Hn.
  assert (Hera : -20000 <= era <= 20000) by lia.
  fold y. fit_step Hop. fold era. fit_steps Hop. fold yoe.
  replace (if 2 <? month then op (month - 3) else op (month + 9)) with (op m) by (unfold m, shifted; by destruct (2 <? month)).
  fit_steps Hop. done.
Qed.
Lemma civil_with_fits op n : keeps_i32 op -> I32_MIN <= n <= MAX_DAY -> civil_with op n = Some (civil_of n).
Proof.
  intros Hop Hn. destruct (days_of_civil n) as (year & month & day & Hr & En). pose proof (civil_of_days _ _ _ Hr) as Hc. rewrite En in Hc.
  unfold civil_with, civil_of in *. cbv zeta in *. unfold MAX_DAY, I32_MIN, I32_MAX in Hn. fit_steps Hop. set (sh := n + 719468) in *.
  pose proof (Z.div_mod sh 146097 ltac:(lia)) as Es. pose proof (Z.mod_pos_bound sh 146097 ltac:(lia)) as Bs. set (era := sh / 146097) in *.
  fit_steps Hop. set (e := sh - era * 146097) in *. assert (He : 0 <= e <= 146096) by lia.
  destruct (year_of_day e He) as (y & d & Hy & Hd & Ee & Hl). destruct (year_from_day y d Hy Hd Hl) as [Ey _]. cbv zeta in Ey. rewrite <-Ee in Ey.
  assert (H1 : 0 <= e / 1460 <= 100) by (clear - He; Z.to_euclidean_division_equations; lia).
  assert (H2 : 0 <= e / 36524 <= 4) by (clear - He; Z.to_euclidean_division_equations; lia).
  assert (H3 : 0 <= e / 146096 <= 1) by (clear - He; Z.to_euclidean_division_equations; lia).
  fit_steps Hop. rewrite Ey in *.
  assert (H4 : 0 <= y / 4 <= 99) by (clear - Hy; Z.to_euclidean_division_equations; lia).
  assert (H100 : 0 <= y / 100 <= 3) by (clear - Hy; Z.to_euclidean_division_equations; lia).
  fit_steps Hop. replace (e - (365 * y + y / 4 - y / 100)) with d in * by lia.
  assert (Hsm : 0 <= (5 * d + 2) / 153 <= 11) by (clear - Hd; Z.to_euclidean_division_equations; lia). set (m := (5 * d + 2) / 153) in *.
  assert (Hmd : 0 <= (153 * m + 2) / 5 <= 400) by (clear - Hsm; Z.to_euclidean_division_equations; lia).
  fit_steps Hop.
  replace (if m <? 10 then op (m + 3) else op (m - 9)) with (op (unshifted m)) by (unfold unshifted; by destruct (m <? 10)). fold (unshifted m) in Hc |- *.
  assert (Hu : 1 <= unshifted m <= 12) by (unfold unshifted; destruct (m <? 10) eqn:E; lia).
  assert (Hb : 0 <= from_bool (unshifted m <=? 2) <= 1) by (unfold from_bool; case_match; lia).
  fit_steps Hop. done.
Qed.
(** The years the comment of [days_from_civil] names. *)
Lemma days_of_years year month day : real_day year month day -> 1 <= year <= 5000000 -> I32_MIN <= day_number year month day <= MAX_DAY.
Proof.
  intros Hr Hy. destruct (day_of_march_year _ _ _ Hr) as (_ & _ & Hdoy & _). cbv zeta in Hdoy. rewrite days_from_start. unfold year_start.
  set (d := (153 * shifted month + 2) / 5 + day - 1) in *. assert (Hb : 0 <= from_bool (month <=? 2) <= 1) by (unfold from_bool; case_match; lia).
  set (y := year - from_bool (month <=? 2)). assert (0 <= y <= 5000000) as By by lia. clearbody d y. unfold MAX_DAY, I32_MIN, I32_MAX.
  Z.to_euclidean_division_equations. lia.
Qed.
Lemma civil_exact n : I32_MIN <= n <= MAX_DAY -> civil n = civil_of n.
Proof. intros Hn. unfold civil. by rewrite civil_with_fits by auto using wrapping_keeps. Qed.
Lemma days_exact year month day : real_day year month day -> 1 <= year <= 5000000 -> days_from_civil year month day = day_number year month day.
Proof. intros Hr Hy. unfold days_from_civil. by rewrite days_with_fits by auto using wrapping_keeps, days_of_years. Qed.
(** C32: for every day of the years 1 to 5,000,000, the years their comment names, the clock's 32-bit conversions overflow nowhere and give the
    same result in a build that checks and in one that wraps: the day has a number, the one the 64-bit date type counts, and the number
    gives the day back. Every 32-bit number up to 2,146,764,179 is the number of one real day, without an overflow either way; above
    it the conversion of a number to a day overflows. The numbers keep the order of days, and the first of January 1970 is day 0. *)
Theorem calendar_inverse :
  (forall year month day, real_day year month day -> 1 <= year <= 5000000 -> exists n,
     days_from_civil_with i32_checked year month day = Some n /\ days_from_civil year month day = n /\
     civil_with i32_checked n = Some (year, month, day) /\ civil n = (year, month, day) /\
     days_since_1970 {| sd_year := year; sd_month := month; sd_day := day |} = n) /\
  (forall n, I32_MIN <= n <= 2146764179 -> exists year month day, real_day year month day /\
     civil_with i32_checked n = Some (year, month, day) /\ civil n = (year, month, day) /\
     days_from_civil_with i32_checked year month day = Some n /\ days_from_civil year month day = n) /\
  (forall n, 2146764179 < n <= I32_MAX -> civil_with i32_checked n = None) /\
  (forall year month day year' month' day', real_day year month day -> real_day year' month' day' -> 1 <= year <= 5000000 -> 1 <= year' <= 5000000 ->
     year < year' \/ year = year' /\ (month < month' \/ month = month' /\ day < day') -> days_from_civil year month day < days_from_civil year' month' day') /\
  days_from_civil 1970 1 1 = 0.
Proof.
  change 2146764179 with MAX_DAY. split_and!.
  - intros year month day Hr Hy. pose proof (days_of_years _ _ _ Hr Hy) as Hn. exists (day_number year month day). unfold days_from_civil, civil.
    rewrite !days_with_fits, !civil_with_fits by auto using checked_keeps, wrapping_keeps. cbn [default]. rewrite civil_of_days by done. split_and!; try done.
    unfold days_since_1970, day_number. cbn [sd_year sd_month sd_day]. destruct (2 <? month); [|done]. by replace (month + -3) with (month - 3) by lia.
  - intros n Hn. destruct (days_of_civil n) as (year & month & day & Hr & <-). exists year, month, day. unfold days_from_civil, civil.
    rewrite !days_with_fits, !civil_with_fits by auto using checked_keeps, wrapping_keeps. cbn [default]. by rewrite civil_of_days.
  - intros n Hn. unfold civil_with. assert (E : i32_checked (n + 719468) = None); [|by rewrite E].
    unfold i32_checked, MAX_DAY, I32_MAX in *. destruct (_ && _) eqn:E; [lia|done].
  - intros year month day year' month' day' Hr Hr' Hy Hy' Hlex. rewrite !days_exact by done. by apply days_lt.
  - vm_compute. reflexivity.
Qed.
Lemma calendar_inverse_witness : exists n, days_from_civil 2024 2 29 = n /\ civil n = (2024, 2, 29) /\ n = 19782.
Proof.
  destruct (proj1 calendar_inverse 2024 2 29) as (n & _ & Hn & _ & Hc & _); [unfold real_day; vm_compute; split; discriminate|lia|].
  exists n. split; [exact Hn|]. split; [exact Hc|]. rewrite <-Hn. vm_compute. reflexivity.
Defined.

(** ** Ranges of days *)

Definition real (s : SpecificDate) : Prop := real_day (sd_year s) (sd_month s) (sd_day s).
Definition number (s : SpecificDate) : Z := day_number (sd_year s) (sd_month s) (sd_day s).
Lemma sd_le_number a b : real a -> real b -> sd_le a b = true <-> number a <= number b.
Proof.
  intros Ha Hb. destruct a as [y m d], b as [y' m' d']. unfold real, number, sd_le in *. cbn [sd_year sd_month sd_day] in *.
  destruct (decide (y < y' \/ y = y' /\ (m < m' \/ m = m' /\ d < d'))) as [Hlt|Hge].
  - pose proof (days_lt _ _ _ _ _ _ Ha Hb Hlt). split; [lia|]. intros _. lia.
  - destruct (decide (y = y' /\ m = m' /\ d = d')) as [(<- & <- & <-)|Hne]; [split; lia|].
    pose proof (days_lt _ _ _ _ _ _ Hb Ha ltac:(lia)). split; [lia|]. intros. lia.
Qed.
Lemma specific_real d s : specific_from_date d = Some s -> real s /\ s = {| sd_year := 1900 + year d; sd_month := month d; sd_day := day d |}.
Proof.
  unfold specific_from_date, specific_new. destruct (year d =? 255); [done|]. destruct (_ && _) eqn:E; [|done]. intros [= <-]. split; [|done].
  unfold real, real_day. cbn [sd_year sd_month sd_day]. lia.
Qed.
(** What an endpoint of a range asks of a day number. *)
Definition after (e : Endpoint) (n : Z) : Prop := match e with Open => True | At d => number d <= n | Invalid => False end.
Definition before (e : Endpoint) (n : Z) : Prop := match e with Open => True | At d => n <= number d | Invalid => False end.
Lemma endpoint_real d s : endpoint_of d = At s -> real s.
Proof.
  unfold endpoint_of. destruct (date_is_unspecified d); [done|]. destruct (specific_from_date d) as [s'|] eqn:E; [|done]. destruct (valid_weekday _); [|done].
  intros [= <-]. by apply specific_real in E as [? _].
Qed.
(** A date range holds exactly the days whose numbers lie between its ends, both included, an unspecified end leaving its side open;
    a range with an end that is neither a real day nor unspecified holds none. *)
Theorem range_contains_exact r s : real s -> range_contains r s = true <-> after (endpoint_of (start_date r)) (number s) /\ before (endpoint_of (end_date r)) (number s).
Proof.
  intros Hs. unfold range_contains.
  destruct (endpoint_of (start_date r)) as [|a|] eqn:Ea; cbn [after]; [| |by split; [|intros [[] _]]];
    (destruct (endpoint_of (end_date r)) as [|b|] eqn:Eb; cbn [before]; [| |by split; [|intros [_ []]]]);
    repeat match goal with H : endpoint_of _ = At _ |- _ => apply endpoint_real in H end; rewrite ?andb_true_iff, ?sd_le_number by done; tauto.
Qed.
Lemma range_contains_exact_witness : range_contains
  {| start_date := {| year := 124; month := 2; day := 28; day_of_week := 255 |}; end_date := {| year := 124; month := 3; day := 1; day_of_week := 255 |} |}
  {| sd_year := 2024; sd_month := 2; sd_day := 29 |} = true.
Proof. apply range_contains_exact; [unfold real, real_day; vm_compute; split; discriminate|]. vm_compute. split; discriminate. Defined.
