(* ===== verification/DeviceClock.v ===== *)
(** * The device's clock (bacnet-device-core clock/synced.rs, clock/mod.rs; bacnet-objects clock.rs, notification_class/window.rs)

    A device without a clock of its own keeps one on the host's monotonic timeline: an instant, the UTC day and hundredth it stood for, and the
    device's zone. A synchronization sets it; the Device's date and time, timestamps and the windows of notification destinations read it. *)

From Stdlib Require Import String.
From S2P Require Import Prelude Time WireError Values Calendar.
Open Scope Z_scope.

(** ** The clock *)

(** [DAY] (bacnet-device-core/src/clock/synced.rs) *)
Definition DAY : Z := 8640000.
(** [MINUTE] (bacnet-device-core/src/clock/synced.rs) *)
Definition MINUTE : Z := 6000.
(** [HOUR] (bacnet-device-core/src/clock/synced.rs) *)
Definition HOUR : Z := 360000.
(** [RESTART_DAY] (bacnet-device-core/src/clock/synced.rs) *)
Definition RESTART_DAY : Z := 7305.
(** [i32::saturating_add] *)
Definition i32_saturating_add (a b : Z) : Z := Z.max I32_MIN (Z.min I32_MAX (a + b)).
(** [Error::range] (bacnet-types/src/error.rs) *)
Definition range_error (label : string) : Error := ErrRange {| ra_label := label; ra_values := (0, 0) |}.
(** [Zone] (bacnet-device-core/src/clock/synced.rs) *)
Record Zone := { zone_utc_offset : Z; zone_daylight_savings : bool }.
(** [Zone::new] (bacnet-device-core/src/clock/synced.rs) *)
Definition zone_new (utc_offset : Z) (daylight_savings : bool) : Result Zone Error :=
  if negb ((-1440 <=? utc_offset) && (utc_offset <=? 1440)) || negb (Z.rem utc_offset 15 =? 0)
  then Err (range_error "UTC offset must be a multiple of 15 minutes within -1440 to 1440")
  else Ok {| zone_utc_offset := utc_offset; zone_daylight_savings := daylight_savings |}.
(** [Zone::to_local] (bacnet-device-core/src/clock/synced.rs) *)
Definition to_local (z : Zone) : Z :=
  let summer := if zone_daylight_savings z then HOUR else 0 in
  summer - zone_utc_offset z * MINUTE.
(** [Basis] (bacnet-device-core/src/clock/synced.rs) *)
Inductive Basis := BasisLocal | BasisUtc.
(** [SyncedClock] (bacnet-device-core/src/clock/synced.rs) *)
Record SyncedClock := { ck_zone : Zone; ck_at : Instant; ck_day : Z; ck_hundredths : Z; ck_synced : bool }.
(** [ClockFrame] (bacnet-objects/src/clock.rs) *)
Record ClockFrame := { local_date : Date; local_time : Time; frame_utc_offset : Z; daylight_savings_status : bool }.
(** [SyncedClock::anchored] (bacnet-device-core/src/clock/synced.rs) *)
Definition anchored (zone : Zone) (at_ : Instant) (day utc : Z) (synced : bool) : SyncedClock :=
  {| ck_zone := zone; ck_at := at_; ck_day := day + utc / DAY; ck_hundredths := Z.abs (utc mod DAY); ck_synced := synced |}.
(** [SyncedClock::new] (bacnet-device-core/src/clock/synced.rs) *)
Definition clock_new (zone : Zone) (now : Instant) : SyncedClock := anchored zone now RESTART_DAY (- to_local zone) false.
(** [specific] (bacnet-device-core/src/clock/synced.rs) *)
Definition specific (date : Date) (time : Time) : Result (Z * Z) Error :=
  let? y := ok_or (actual_year date) (range_error "the date's year is unspecified") in
  if (day date =? 0) || (days_in_month y (month date) <? day date) then Err (range_error "the date names no day") else
  let d := days_from_civil y (month date) (day date) in
  if negb (day_of_week date =? weekday d) then Err (range_error "the date's day of the week is wrong") else
  if (23 <? hour time) || (59 <? minute time) || (59 <? second time) || (99 <? hundredths time)
  then Err (range_error "the time isn't a specific time of day") else
  Ok (d, hour time * HOUR + minute time * MINUTE + second time * 100 + hundredths time).
(** [SyncedClock::utc_at] (bacnet-device-core/src/clock/synced.rs) *)
Definition utc_at (c : SyncedClock) (now : Instant) : Z * Z :=
  let elapsed := instant_saturating_duration_since now (ck_at c) in
  let seconds := duration_as_secs elapsed in
  let nanos := duration_saturating_sub elapsed (duration_from_secs seconds) in
  let seconds := if seconds <=? U32_MAX then seconds else U32_MAX in
  let days := seconds / 86400 in
  let hundredths := seconds mod 86400 * 100 + nanos / 10000000 in
  let total := ck_hundredths c + hundredths in
  (i32_saturating_add (ck_day c) days + total / DAY, total mod DAY).
(** [SyncedClock::frame] (bacnet-device-core/src/clock/synced.rs) *)
Definition frame (c : SyncedClock) (now : Instant) : option ClockFrame :=
  let '(day, utc) := utc_at c now in
  let local := utc + to_local (ck_zone c) in
  let day := day + local / DAY in
  let within := local mod DAY in
  let '(year, month, day_of_month) := civil day in
  let year := year - 1900 in
  if (0 <=? year) && (year <=? 255) && negb (year =? 255) then
    let sec := within / 100 in
    Some {| local_date := {| year := year; month := month; day := day_of_month; day_of_week := weekday day |};
            local_time := {| hour := sec / 3600; minute := sec / 60 mod 60; second := sec mod 60; hundredths := within mod 100 |};
            frame_utc_offset := zone_utc_offset (ck_zone c); daylight_savings_status := zone_daylight_savings (ck_zone c) |}
  else None.
(** [SyncedClock::set] (bacnet-device-core/src/clock/synced.rs) *)
Definition clock_set (c : SyncedClock) (basis : Basis) (date : Date) (time : Time) (now : Instant) : SyncedClock * Result unit Error :=
  match specific date time with
  | Err e => (c, Err e)
  | Ok (day, hundredths) =>
      let utc := match basis with BasisLocal => hundredths - to_local (ck_zone c) | BasisUtc => hundredths end in
      let set := anchored (ck_zone c) now day utc true in
      match frame set now with
      | None => (c, Err (range_error "the local date falls outside 1900 to 2154"))
      | Some _ => (set, Ok tt)
      end
  end.
(** A single flag: bit [day - 1].
    [ClockFrame::day_of_week] (bacnet-objects/src/clock.rs) *)
Definition frame_day_of_week (f : ClockFrame) : option Z :=
  let d := day_of_week (local_date f) in if (1 <=? d) && (d <=? 7) then Some (Z.land (Z.shiftl 1 (d - 1)) 127) else None.
(** [ClockFrame::is_valid_actual_datetime] (bacnet-objects/src/clock.rs) *)
Definition is_valid_actual_datetime (f : ClockFrame) : bool :=
  match specific_from_date (local_date f) with Some d => sd_weekday d =? day_of_week (local_date f) | None => false end && time_is_specific (local_time f).
(** [SyncedClock::window] (bacnet-device-core/src/clock/synced.rs) *)
Definition window (c : SyncedClock) (now : Instant) : option (Z * Time) :=
  if negb (ck_synced c) then None else
  f ← frame c now; d ← frame_day_of_week f; Some (d, local_time f).

(** ** Destinations *)

(** [LAST_HUNDREDTH] (bacnet-objects/src/notification_class/window.rs) *)
Definition LAST_HUNDREDTH : Z := 24 * 360000 - 1.
(** [time_to_centiseconds] (bacnet-objects/src/notification_class/window.rs) *)
Definition time_to_centiseconds (t : Time) : Z :=
  let field value := if value =? 255 then 0 else value in
  field (hour t) * 360000 + field (minute t) * 6000 + field (second t) * 100 + field (hundredths t).
(** [time_in_window] (bacnet-objects/src/notification_class/window.rs) *)
Definition time_in_window (current from to : Time) : bool :=
  if (hour from =? 255) || (hour to =? 255) then true else
  let cur := time_to_centiseconds current in
  let from_cs := time_to_centiseconds from in
  let to_cs := time_to_centiseconds to in
  if to_cs <? from_cs then (from_cs <=? cur) || (cur <=? to_cs) else (from_cs <=? cur) && (cur <=? to_cs).
(** The fields a window is judged by.
    [BACnetDestination] (bacnet-types/src/constructed/mod.rs:424-430) *)
Record Destination := { dst_valid_days : Z; dst_from_time : Time; dst_to_time : Time }.
(** [in_window] (bacnet-objects/src/notification_class/window.rs) *)
Definition in_window (d : Destination) (today : Z) (now : Time) : bool :=
  negb (Z.land (dst_valid_days d) today =? 0) && time_in_window now (dst_from_time d) (dst_to_time d).
(** [always_in_window] (bacnet-objects/src/notification_class/window.rs) *)
Definition always_in_window (d : Destination) : bool :=
  if negb (Z.land (dst_valid_days d) 127 =? 127) then false else
  if (hour (dst_from_time d) =? 255) || (hour (dst_to_time d) =? 255) then true else
  let from := time_to_centiseconds (dst_from_time d) in
  let to := time_to_centiseconds (dst_to_time d) in
  if to <? from then from <=? to + 1 else (from =? 0) && (LAST_HUNDREDTH <=? to).
(** [destination_open] (bacnet-device-core/src/clock/mod.rs) *)
Definition destination_open (d : Destination) (window : option (Z * Time)) : bool :=
  match window with Some (today, now) => in_window d today now | None => always_in_window d end.

(** ** Hundredths since 1970 *)

(** The local hundredth a clock stands at, counted from 1970. *)
Definition zone_ok (z : Zone) : Prop := -1440 <= zone_utc_offset z <= 1440.
Definition clock_ok (c : SyncedClock) : Prop := zone_ok (ck_zone c) /\ is_u64 (ck_at c) /\ 0 <= ck_hundredths c < DAY /\ -30000 <= ck_day c <= 70000.
Definition anchor (c : SyncedClock) : Z := ck_day c * DAY + ck_hundredths c + to_local (ck_zone c).
(** The date and time of a local hundredth. *)
Definition frame_of (z : Zone) (stamp : Z) : option ClockFrame :=
  let '(y, m, d) := civil_of (stamp / DAY) in
  let within := stamp mod DAY in
  let y := y - 1900 in
  if (0 <=? y) && (y <=? 255) && negb (y =? 255) then
    Some {| local_date := {| year := y; month := m; day := d; day_of_week := weekday (stamp / DAY) |};
            local_time := {| hour := within / 100 / 3600; minute := within / 100 / 60 mod 60; second := within / 100 mod 60; hundredths := within mod 100 |};
            frame_utc_offset := zone_utc_offset z; daylight_savings_status := zone_daylight_savings z |}
  else None.
Lemma frame_local c now : let stamp := (utc_at c now).1 * DAY + (utc_at c now).2 + to_local (ck_zone c) in
  0 <= (utc_at c now).2 < DAY -> I32_MIN <= stamp / DAY <= MAX_DAY -> frame c now = frame_of (ck_zone c) stamp.
Proof.
  cbv zeta. unfold frame, frame_of. destruct (utc_at c now) as [d u]. cbn [fst snd]. intros Hu Hs. rewrite <-civil_exact by done. clear Hs. cbv zeta.
  replace (d * DAY + u + to_local (ck_zone c)) with (u + to_local (ck_zone c) + d * DAY) by lia. unfold DAY in *. rewrite Z.div_add, Z.mod_add by lia.
  replace ((u + to_local (ck_zone c)) / 8640000 + d) with (d + (u + to_local (ck_zone c)) / 8640000) by lia. done.
Qed.
(** Seconds, days and hundredths of the elapsed time, put together again. *)
Lemma utc_counts c now : clock_ok c -> is_u64 now -> now - ck_at c < 4294967296 * NANOS_PER_SEC ->
  0 <= (utc_at c now).2 < DAY /\ (utc_at c now).1 * DAY + (utc_at c now).2 = ck_day c * DAY + ck_hundredths c + Z.max 0 (now - ck_at c) / 10000000.
Proof.
  intros (_ & Hat & Hh & Hd) Hnow Hlt. unfold utc_at, instant_saturating_duration_since, duration_as_secs, duration_saturating_sub, duration_from_secs, sat_sub, sat_mul. cbv zeta.
  set (e := Z.max 0 (now - ck_at c)). assert (He : 0 <= e < 4294967296 * NANOS_PER_SEC /\ is_u64 e) by (unfold is_u64, U64_MAX, NANOS_PER_SEC in *; lia).
  destruct He as [He Hu64]. rewrite div_rem_native by (try done; unfold is_u64, U64_MAX, NANOS_PER_SEC; lia). cbn [fst]. clearbody e. unfold NANOS_PER_SEC in *.
  pose proof (Z.div_mod e 1000000000 ltac:(lia)) as Ee. pose proof (Z.mod_pos_bound e 1000000000 ltac:(lia)) as Be. set (s := e / 1000000000) in *. set (n := e mod 1000000000) in *.
  replace (Z.min U64_MAX (s * 1000000000)) with (s * 1000000000) by (unfold is_u64, U64_MAX in *; lia). replace (Z.max 0 (e - s * 1000000000)) with n by lia.
  replace (s <=? U32_MAX) with true by (unfold U32_MAX; lia).
  assert (Hn : 0 <= n / 10000000 <= 99) by (clear - Be; Z.to_euclidean_division_equations; lia).
  assert (Hsum : e / 10000000 = s * 100 + n / 10000000) by (rewrite Ee; replace (1000000000 * s + n) with (n + (s * 100) * 10000000) by lia; rewrite Z.div_add by lia; lia).
  rewrite Hsum. pose proof (Z.div_mod s 86400 ltac:(lia)) as Es. pose proof (Z.mod_pos_bound s 86400 ltac:(lia)) as Bs.
  set (days := s / 86400) in *. set (rest := s mod 86400) in *. set (total := ck_hundredths c + (rest * 100 + n / 10000000)).
  pose proof (Z.div_mod total DAY ltac:(done)) as Et. pose proof (Z.mod_pos_bound total DAY ltac:(done)) as Bt.
  unfold i32_saturating_add, I32_MIN, I32_MAX. replace (Z.max _ _) with (ck_day c + days) by lia. cbn [fst snd]. split; [done|]. unfold DAY in *. lia.
Qed.
Lemma to_local_bound zone : zone_ok zone -> -DAY <= to_local zone <= DAY + HOUR.
Proof. unfold zone_ok, to_local, DAY, HOUR, MINUTE. destruct (zone_daylight_savings zone); lia. Qed.
Lemma frame_counts c now : clock_ok c -> is_u64 now -> now - ck_at c < 4294967296 * NANOS_PER_SEC ->
  frame c now = frame_of (ck_zone c) (anchor c + Z.max 0 (now - ck_at c) / 10000000).
Proof.
  intros Hc Hn Hlt. destruct (utc_counts c now Hc Hn Hlt) as [Hb Hs]. pose proof Hc as (Hz & Hat & Hh & Hd). pose proof (to_local_bound _ Hz) as Hl.
  assert (He : 0 <= Z.max 0 (now - ck_at c) / 10000000 <= 429496729600) by (unfold NANOS_PER_SEC in Hlt; Z.to_euclidean_division_equations; lia).
  rewrite frame_local; [rewrite Hs; unfold anchor; f_equal; lia|done|]. rewrite Hs. unfold I32_MIN, MAX_DAY, I32_MAX, DAY, HOUR in *.
  split; [apply Z.div_le_lower_bound; lia|apply Z.lt_succ_r, Z.div_lt_upper_bound; lia].
Qed.
Lemma civil_year n y m d : civil_of n = (y, m, d) -> real_day y m d /\ day_number y m d = n.
Proof. intros E. destruct (days_of_civil n) as (y' & m' & d' & Hr & Hn). rewrite <-Hn, civil_of_days in E by done. injection E as <- <- <-. done. Qed.
Definition FIRST_DAY : Z := -25567.
Definition LAST_DAY : Z := 67569.
(** The days a BACnet date can carry. *)
Lemma civil_range n y m d : civil_of n = (y, m, d) -> 1900 <= y <= 2154 <-> FIRST_DAY <= n <= LAST_DAY.
Proof.
  intros [Hr <-]%civil_year. assert (Hf : real_day 1900 1 1) by (split; [lia|vm_compute; discriminate]). assert (Hl : real_day 2155 1 1) by (split; [lia|vm_compute; discriminate]).
  change FIRST_DAY with (day_number 1900 1 1). change LAST_DAY with (day_number 2155 1 1 - 1). pose proof (real_month _ _ _ Hr) as Hm.
  assert (Ha : 1900 <= y -> day_number 1900 1 1 <= day_number y m d).
  { intros H. destruct (decide (y = 1900 /\ m = 1 /\ d = 1)) as [(-> & -> & ->)|]; [lia|]. apply Z.lt_le_incl, days_lt; [done..|]. unfold real_day in Hr. lia. }
  assert (Hb : y < 1900 -> day_number y m d < day_number 1900 1 1) by (intros H; apply days_lt; [done..|lia]).
  assert (Hc : y <= 2154 -> day_number y m d < day_number 2155 1 1) by (intros H; apply days_lt; [done..|lia]).
  assert (Hd : 2155 <= y -> day_number 2155 1 1 <= day_number y m d).
  { intros H. destruct (decide (y = 2155 /\ m = 1 /\ d = 1)) as [(-> & -> & ->)|]; [lia|]. apply Z.lt_le_incl, days_lt; [done..|]. unfold real_day in Hr. lia. }
  lia.
Qed.
(** The fields of a time of day are the digits of its hundredth. *)
Lemma digits h m s c : 0 <= h <= 23 -> 0 <= m <= 59 -> 0 <= s <= 59 -> 0 <= c <= 99 ->
  let w := h * HOUR + m * MINUTE + s * 100 + c in
  0 <= w < DAY /\ w / 100 / 3600 = h /\ w / 100 / 60 mod 60 = m /\ w / 100 mod 60 = s /\ w mod 100 = c.
Proof.
  intros Hh Hm Hs Hc w. unfold HOUR, MINUTE in w. unfold DAY. assert (E : w / 100 = h * 3600 + m * 60 + s) by (symmetry; apply (Z.div_unique _ _ _ c); lia).
  assert (E2 : (h * 3600 + m * 60 + s) / 60 = h * 60 + m) by (symmetry; apply (Z.div_unique _ _ _ s); lia).
  split; [lia|]. rewrite E, E2. split_and!; symmetry; [apply (Z.div_unique _ _ _ (m * 60 + s))|apply (Z.mod_unique _ _ h)|apply (Z.mod_unique _ _ (h * 60 + m))|apply (Z.mod_unique _ _ (h * 3600 + m * 60 + s))]; lia.
Qed.
Lemma digits_of w : 0 <= w < DAY ->
  0 <= w / 100 / 3600 <= 23 /\ 0 <= w / 100 / 60 mod 60 <= 59 /\ 0 <= w / 100 mod 60 <= 59 /\ 0 <= w mod 100 <= 99 /\
  w / 100 / 3600 * HOUR + w / 100 / 60 mod 60 * MINUTE + w / 100 mod 60 * 100 + w mod 100 = w.
Proof.
  unfold DAY, HOUR, MINUTE. intros Hw. pose proof (Z.div_mod w 100 ltac:(lia)). pose proof (Z.mod_pos_bound w 100 ltac:(lia)). set (s := w / 100) in *. set (c := w mod 100) in *.
  pose proof (Z.div_mod s 60 ltac:(lia)). pose proof (Z.mod_pos_bound s 60 ltac:(lia)). replace (s / 3600) with (s / 60 / 60) by (rewrite Z.div_div by lia; done).
  set (m := s / 60) in *. set (s' := s mod 60) in *. pose proof (Z.div_mod m 60 ltac:(lia)). pose proof (Z.mod_pos_bound m 60 ltac:(lia)). split_and!; lia.
Qed.
Lemma frame_of_some z stamp f : frame_of z stamp = Some f ->
  exists d h, specific (local_date f) (local_time f) = Ok (d, h) /\ d * DAY + h = stamp /\ 0 <= h < DAY /\
    frame_utc_offset f = zone_utc_offset z /\ daylight_savings_status f = zone_daylight_savings z.
Proof.
  unfold frame_of. destruct (civil_of (stamp / DAY)) as [[y m] d] eqn:E. apply civil_year in E as [Hr Hn]. destruct (_ && _) eqn:Hy; [|done]. intros [= <-].
  pose proof (Z.mod_pos_bound stamp DAY ltac:(done)) as Hw. pose proof (Z.div_mod stamp DAY ltac:(done)) as Hs. destruct (digits_of _ Hw) as (H1 & H2 & H3 & H4 & H5).
  set (w := stamp mod DAY) in *. exists (stamp / DAY), w. split; [|split_and!; (done || lia)].
  unfold specific, actual_year. cbn [local_date local_time year month day day_of_week hour minute second hundredths]. replace (y - 1900 =? 255) with false by lia. cbn [ok_or rbind].
  replace (1900 + (y - 1900)) with y by lia. unfold real_day in Hr. replace ((d =? 0) || (days_in_month y m <? d)) with false by lia. cbv zeta. rewrite days_exact by (unfold real_day; lia). rewrite Hn, Z.eqb_refl. cbn [negb].
  set (a := w / 100 / 3600) in *. set (b := w / 100 / 60 mod 60) in *. set (c := w / 100 mod 60) in *. set (g := w mod 100) in *.
  replace ((23 <? a) || (59 <? b) || (59 <? c) || (99 <? g)) with false by lia. by rewrite H5.
Qed.
Definition wf_date (d : Date) : Prop := is_u8 (year d) /\ is_u8 (month d) /\ is_u8 (day d) /\ is_u8 (day_of_week d).
Definition wf_time (t : Time) : Prop := is_u8 (hour t) /\ is_u8 (minute t) /\ is_u8 (second t) /\ is_u8 (hundredths t).
Lemma frame_of_specific z date time d h : wf_date date -> wf_time time -> specific date time = Ok (d, h) ->
  0 <= h < DAY /\ FIRST_DAY <= d <= LAST_DAY /\
  frame_of z (d * DAY + h) = Some {| local_date := date; local_time := time; frame_utc_offset := zone_utc_offset z; daylight_savings_status := zone_daylight_savings z |}.
Proof.
  unfold is_u8, U8_MAX, wf_date, wf_time. intros (W1 & W2 & W3 & W4) (W5 & W6 & W7 & W8). destruct date as [y m dd w], time as [hh mm ss cc].
  unfold specific, actual_year, is_u8, U8_MAX in *. cbn [year month day day_of_week hour minute second hundredths] in *. destruct (y =? 255) eqn:Ey; [done|]. cbn [ok_or rbind].
  destruct (_ || (days_in_month _ _ <? dd)) eqn:Ed; [done|]. cbv zeta. rewrite days_exact by (unfold real_day; lia). destruct (negb (w =? _)) eqn:Ew; [done|]. destruct (_ || (99 <? cc)) eqn:Et; [done|]. intros [= <- <-].
  destruct (digits hh mm ss cc) as (Hw & D1 & D2 & D3 & D4); [lia..|]. set (s := hh * HOUR + mm * MINUTE + ss * 100 + cc) in *.
  assert (Hr : real_day (1900 + y) m dd) by (unfold real_day; lia). pose proof (civil_of_days _ _ _ Hr) as Hcv. set (n := day_number (1900 + y) m dd) in *.
  pose proof (proj1 (civil_range _ _ _ _ Hcv) ltac:(lia)) as Hrange. split; [done|]. split; [done|].
  unfold frame_of. rewrite Z.add_comm, Z.div_add, Z.mod_add, Z.div_small, Z.mod_small, Z.add_0_l by (done || lia). rewrite Hcv.
  replace (1900 + y - 1900) with y by lia. replace ((0 <=? y) && (y <=? 255) && negb (y =? 255)) with true by lia. rewrite D1, D2, D3, D4. do 3 f_equal. lia.
Qed.

(** ** What the clock reads *)

Lemma anchored_ok zone now d utc synced : zone_ok zone -> is_u64 now -> FIRST_DAY <= d <= LAST_DAY -> -2 * DAY <= utc <= 3 * DAY ->
  clock_ok (anchored zone now d utc synced) /\ anchor (anchored zone now d utc synced) = d * DAY + utc + to_local zone.
Proof.
  intros Hz Hn Hd Hu. pose proof (Z.mod_pos_bound utc DAY ltac:(done)). pose proof (Z.div_mod utc DAY ltac:(done)).
  unfold clock_ok, anchor, anchored, FIRST_DAY, LAST_DAY, DAY in *. cbn [ck_zone ck_at ck_day ck_hundredths]. rewrite Z.abs_eq by lia. split_and!; (done || lia).
Qed.
Lemma frame_now c now : clock_ok c -> ck_at c = now -> frame c now = frame_of (ck_zone c) (anchor c).
Proof.
  intros Hc <-. pose proof Hc as (_ & Hat & _). rewrite frame_counts by (try done; unfold NANOS_PER_SEC; lia). replace (Z.max 0 (ck_at c - ck_at c) / 10000000) with 0 by (by replace (ck_at c - ck_at c) with 0 by lia).
  by rewrite Z.add_0_r.
Qed.
(** The clock counts: a date and time read off it, any time up to 136 years after it was set, is a real day with its weekday and a real
    time, and it is the one the clock was set to, moved on by the hundredths that have passed; it reads nothing only when that day
    is outside the years a date can carry. *)
Theorem clock_counts c now : clock_ok c -> is_u64 now -> now - ck_at c < 4294967296 * NANOS_PER_SEC ->
  let stamp := anchor c + Z.max 0 (now - ck_at c) / 10000000 in
  match frame c now with
  | Some f => exists d h, specific (local_date f) (local_time f) = Ok (d, h) /\ d * DAY + h = stamp /\ 0 <= h < DAY
  | None => ~ FIRST_DAY <= stamp / DAY <= LAST_DAY
  end.
Proof.
  intros Hc Hn Hlt stamp. rewrite frame_counts by done. fold stamp. destruct (frame_of (ck_zone c) stamp) as [f|] eqn:E.
  - destruct (frame_of_some _ _ _ E) as (d & h & Hs & Hd & Hh & _). by exists d, h.
  - unfold frame_of in E. destruct (civil_of (stamp / DAY)) as [[y m] d] eqn:Ec. rewrite <-(civil_range _ _ _ _ Ec). destruct (_ && _) eqn:Hy; [done|]. lia.
Qed.
(** A synchronization that is taken sets the clock: a local date and time are read back exactly as given, a UTC one as it is in the
    device's zone; the clock is then synchronized and well-formed. One that is refused leaves the clock as it was, and a local one is refused
    only when it names no real date and time. *)
Theorem clock_set_exact c basis date time now : clock_ok c -> is_u64 now -> wf_date date -> wf_time time ->
  match clock_set c basis date time now with
  | (c', Ok _) => clock_ok c' /\ ck_synced c' = true /\ exists d h, specific date time = Ok (d, h) /\
      frame c' now = frame_of (ck_zone c) (d * DAY + h + match basis with BasisLocal => 0 | BasisUtc => to_local (ck_zone c) end) /\
      (basis = BasisLocal -> frame c' now =
        Some {| local_date := date; local_time := time; frame_utc_offset := zone_utc_offset (ck_zone c); daylight_savings_status := zone_daylight_savings (ck_zone c) |})
  | (c', Err _) => c' = c /\ (basis = BasisLocal -> forall dh, specific date time <> Ok dh)
  end.
Proof.
  intros Hc Hn Hd Ht. pose proof Hc as (Hz & _). unfold clock_set. destruct (specific date time) as [[d h]|e] eqn:Es; [|done].
  destruct (frame_of_specific (ck_zone c) _ _ _ _ Hd Ht Es) as (Hh & Hday & Hf). pose proof (to_local_bound _ Hz) as Hl.
  set (utc := match basis with BasisLocal => h - to_local (ck_zone c) | BasisUtc => h end).
  destruct (anchored_ok (ck_zone c) now d utc true Hz Hn Hday) as [Hok Han]; [unfold utc, DAY, HOUR in *; destruct basis; lia|].
  assert (Hfr : frame (anchored (ck_zone c) now d utc true) now = frame_of (ck_zone c) (d * DAY + h + match basis with BasisLocal => 0 | BasisUtc => to_local (ck_zone c) end)).
  { rewrite frame_now by done. rewrite Han. cbn [ck_zone anchored]. f_equal. unfold utc. destruct basis; lia. }
  assert (Hloc : basis = BasisLocal -> frame (anchored (ck_zone c) now d utc true) now =
    Some {| local_date := date; local_time := time; frame_utc_offset := zone_utc_offset (ck_zone c); daylight_savings_status := zone_daylight_savings (ck_zone c) |})
    by (intros ->; by rewrite Hfr, Z.add_0_r).
  destruct (frame (anchored (ck_zone c) now d utc true) now) as [f|] eqn:Ef.
  - split; [done|]. split; [done|]. exists d, h. by rewrite Ef.
  - split; [done|]. intros Hb. by specialize (Hloc Hb).
Qed.
Definition sample_clock : SyncedClock := clock_new {| zone_utc_offset := 300; zone_daylight_savings := true |} 5.
Definition sample_date : Date := {| year := 124; month := 2; day := 29; day_of_week := 4 |}.
Definition sample_time : Time := {| hour := 23; minute := 59; second := 30; hundredths := 7 |}.
Lemma sample_clock_ok : clock_ok sample_clock.
Proof. unfold clock_ok, zone_ok, is_u64, U64_MAX. vm_compute. repeat split; discriminate. Qed.
Lemma clock_counts_witness : match frame sample_clock (5 + 90000 * NANOS_PER_SEC) with
  | Some f => exists d h, specific (local_date f) (local_time f) = Ok (d, h) /\ d * DAY + h = anchor sample_clock + Z.max 0 (5 + 90000 * NANOS_PER_SEC - ck_at sample_clock) / 10000000 /\ 0 <= h < DAY
  | None => False end.
Proof.
  pose proof (clock_counts sample_clock (5 + 90000 * NANOS_PER_SEC) sample_clock_ok) as H. cbv zeta in H.
  destruct (frame sample_clock (5 + 90000 * NANOS_PER_SEC)) as [f|] eqn:E; [|vm_compute in E; discriminate E].
  apply H; [vm_compute; split; discriminate|vm_compute; reflexivity].
Defined.
Lemma clock_set_exact_witness : match clock_set sample_clock BasisLocal sample_date sample_time 77 with
  | (c', Ok _) => frame c' 77 = Some {| local_date := sample_date; local_time := sample_time; frame_utc_offset := 300; daylight_savings_status := true |}
  | (_, Err _) => False end.
Proof.
  pose proof (clock_set_exact sample_clock BasisLocal sample_date sample_time 77 sample_clock_ok) as H.
  destruct (clock_set sample_clock BasisLocal sample_date sample_time 77) as [c' [[]|e]] eqn:E; [|vm_compute in E; discriminate E].
  destruct H as (_ & _ & d & h & _ & _ & Hf); [vm_compute; split; discriminate|unfold wf_date; vm_compute; repeat split; discriminate|unfold wf_time; vm_compute; repeat split; discriminate|].
  exact (Hf eq_refl).
Defined.
(** A clock never set starts at local midnight on the first of January 1990, a Monday. *)
Lemma clock_restart zone now : zone_ok zone -> is_u64 now -> frame (clock_new zone now) now =
  Some {| local_date := {| year := 90; month := 1; day := 1; day_of_week := 1 |}; local_time := {| hour := 0; minute := 0; second := 0; hundredths := 0 |};
          frame_utc_offset := zone_utc_offset zone; daylight_savings_status := zone_daylight_savings zone |}.
Proof.
  intros Hz Hn. pose proof (to_local_bound _ Hz) as Hl. unfold clock_new. destruct (anchored_ok zone now RESTART_DAY (- to_local zone) false Hz Hn) as [Hok Han];
    [vm_compute; split; discriminate|unfold DAY, HOUR in *; lia|]. rewrite frame_now by done. rewrite Han. cbn [ck_zone anchored].
  by replace (RESTART_DAY * DAY + - to_local zone + to_local zone) with (RESTART_DAY * DAY) by lia.
Qed.

(** ** Windows *)

(** A bound of a window: an unspecified hour, or a time whose fields are real or unspecified. *)
Definition bound_ok (t : Time) : Prop :=
  (0 <= hour t <= 23 \/ hour t = 255) /\ (0 <= minute t <= 59 \/ minute t = 255) /\ (0 <= second t <= 59 \/ second t = 255) /\ (0 <= hundredths t <= 99 \/ hundredths t = 255).
Definition real_time (t : Time) : Prop := 0 <= hour t <= 23 /\ 0 <= minute t <= 59 /\ 0 <= second t <= 59 /\ 0 <= hundredths t <= 99.
(** The flag of a day, Monday the first. *)
Definition day_flag (k : Z) : Z := Z.shiftl 1 k.
Lemma centiseconds_bound t : bound_ok t -> 0 <= time_to_centiseconds t <= LAST_HUNDREDTH.
Proof. unfold bound_ok, time_to_centiseconds, LAST_HUNDREDTH. intros (H1 & H2 & H3 & H4). repeat case_match; lia. Qed.
Lemma real_time_bound t : real_time t -> bound_ok t.
Proof. unfold real_time, bound_ok. tauto. Qed.
Lemma time_of w : 0 <= w <= LAST_HUNDREDTH -> exists t, real_time t /\ time_to_centiseconds t = w.
Proof.
  intros Hw. destruct (digits_of w) as (H1 & H2 & H3 & H4 & H5); [unfold LAST_HUNDREDTH, DAY in *; lia|].
  exists {| hour := w / 100 / 3600; minute := w / 100 / 60 mod 60; second := w / 100 mod 60; hundredths := w mod 100 |}. split; [done|].
  unfold time_to_centiseconds. cbn [hour minute second hundredths]. unfold HOUR, MINUTE in H5.
  set (a := w / 100 / 3600) in *. set (b := w / 100 / 60 mod 60) in *. set (c := w / 100 mod 60) in *. set (g := w mod 100) in *. repeat case_match; lia.
Qed.
Lemma all_days v : Z.land v 127 = 127 <-> forall k, 0 <= k <= 6 -> Z.land v (day_flag k) <> 0.
Proof.
  assert (Hbit : forall k, 0 <= k -> Z.land v (day_flag k) = if Z.testbit v k then day_flag k else 0).
  { intros k Hk. apply Z.bits_inj'. intros n Hn. unfold day_flag. rewrite Z.land_spec, Z.shiftl_1_l, Z.pow2_bits_eqb by lia. destruct (Z.eqb_spec k n) as [->|].
    - destruct (Z.testbit v n); [by rewrite Z.pow2_bits_true by lia|by rewrite Z.bits_0].
    - rewrite andb_false_r. destruct (Z.testbit v k); [by rewrite Z.pow2_bits_false by lia|by rewrite Z.bits_0]. }
  split.
  - intros H k Hk. rewrite Hbit by lia. apply (f_equal (fun x => Z.testbit x k)) in H. change 127 with (Z.ones 7) in H. rewrite Z.land_spec, Z.ones_spec_low, andb_true_r in H by lia.
    rewrite H. unfold day_flag. rewrite Z.shiftl_1_l. pose proof (Z.pow_pos_nonneg 2 k ltac:(lia) ltac:(lia)). lia.
  - intros H. change 127 with (Z.ones 7). apply Z.bits_inj'. intros n Hn. rewrite Z.land_spec. destruct (decide (n < 7)) as [Hlt|Hge].
    + rewrite Z.ones_spec_low, andb_true_r by lia. specialize (H n ltac:(lia)). rewrite Hbit in H by lia. by destruct (Z.testbit v n).
    + by rewrite Z.ones_spec_high, andb_false_r by lia.
Qed.
(** Without a clock a destination counts as open exactly when it is open at every time of every day, and so the device sends nothing
    a device with a clock would hold back at some time; the destinations it does hold back are those some time would hold back. *)
Theorem always_open_exact d : bound_ok (dst_from_time d) -> bound_ok (dst_to_time d) ->
  destination_open d None = true <-> forall k t, 0 <= k <= 6 -> real_time t -> destination_open d (Some (day_flag k, t)) = true.
Proof.
  intros Hf Ht. cbn [destination_open]. unfold always_in_window, in_window, time_in_window.
  pose proof (centiseconds_bound _ Hf) as Bf. pose proof (centiseconds_bound _ Ht) as Bt. cbv zeta.
  set (from := time_to_centiseconds (dst_from_time d)) in *. set (to := time_to_centiseconds (dst_to_time d)) in *. split.
  - destruct (Z.land (dst_valid_days d) 127 =? 127) eqn:Ed; [|done]. cbn [negb]. apply Z.eqb_eq in Ed. intros Ha k t Hk Hr. apply andb_true_iff. split.
    + apply negb_true_iff, Z.eqb_neq. by apply (proj1 (all_days _) Ed).
    + pose proof (centiseconds_bound _ (real_time_bound _ Hr)) as Bc. destruct ((_ =? 255) || (_ =? 255)); [done|]. destruct (to <? from) eqn:E; lia.
  - intros Hall. assert (Hd : Z.land (dst_valid_days d) 127 = 127).
    { apply all_days. intros k Hk. destruct (time_of 0) as (t & Hr & _); [unfold LAST_HUNDREDTH; lia|]. specialize (Hall k t Hk Hr). apply andb_true_iff in Hall as [H _]. lia. }
    rewrite Hd, Z.eqb_refl. cbn [negb]. destruct ((_ =? 255) || (_ =? 255)); [done|].
    assert (Hat : forall w, 0 <= w <= LAST_HUNDREDTH -> (if to <? from then (from <=? w) || (w <=? to) else (from <=? w) && (w <=? to)) = true).
    { intros w Hw. destruct (time_of w Hw) as (t & Hr & Hw'). specialize (Hall 0 t ltac:(lia) Hr). apply andb_true_iff in Hall as [_ H]. by rewrite Hw' in H. }
    destruct (to <? from) eqn:E.
    + destruct (from <=? to + 1) eqn:E1; [done|]. specialize (Hat (to + 1) ltac:(lia)). lia.
    + pose proof (Hat 0 ltac:(unfold LAST_HUNDREDTH; lia)). pose proof (Hat LAST_HUNDREDTH ltac:(unfold LAST_HUNDREDTH; lia)). lia.
Qed.
Lemma always_open_exact_witness :
  let t h m s c := {| hour := h; minute := m; second := s; hundredths := c |} in
  destination_open {| dst_valid_days := 127; dst_from_time := t 8 0 0 0; dst_to_time := t 7 59 59 99 |} (Some (day_flag 6, t 12 30 0 0)) = true.
Proof.
  cbv zeta. eapply always_open_exact; [| |vm_compute; reflexivity| |]; unfold bound_ok, real_time; cbn; lia.
Defined.
(** After 2^32 seconds the count stops, within the years a date can carry when the clock was set before 2018: 140 years after a restart the
    clock reads the seventh of February 2126, as it did four years before. *)
Lemma clock_stops : frame (clock_new {| zone_utc_offset := 0; zone_daylight_savings := false |} 0) (140 * 31556952 * NANOS_PER_SEC) =
  Some {| local_date := {| year := 226; month := 2; day := 7; day_of_week := 4 |}; local_time := {| hour := 6; minute := 28; second := 15; hundredths := 0 |};
          frame_utc_offset := 0; daylight_savings_status := false |}.
Proof. vm_compute. reflexivity. Qed.
