(* ===== verification/Outbox.v ===== *)
(** * The outbox of notifications (bacnet-device-core report/outbox.rs)

    Notifications decided but not yet handed out: their parameters share one buffer of a fixed size, their entries a queue of a fixed length,
    dead ones are skipped, and when the buffer's end is too short the live parameters move to its start. What the file shows is that this is
    the queue it stands for: a list of notifications with their own parameters, bounded in entries and octets. *)

From S2P Require Import Prelude Time.
Open Scope nat_scope.

Section Outbox.
(** The report's token, the subscription's key, and where it goes: moved as they are, keys compared. *)
Context {Token Key Dest : Type} `{EqDecision Key}.

(** ** The operations *)

(** [OutboxLimits] (bacnet-device-core/src/report/outbox.rs) *)
Record OutboxLimits := { lim_entries : nat; lim_octets : nat }.
(** [Entry] (bacnet-device-core/src/report/outbox.rs) *)
Record Entry := {
  en_token : Token; en_key : Key; en_to : Dest; en_confirmed : bool; en_begun : Instant; en_start : nat; en_len : nat; en_live : bool
}.
(** [Room] (bacnet-device-core/src/report/outbox.rs) *)
Record Room := { room_entries : nat; room_octets : nat }.
(** [Room::take] (bacnet-device-core/src/report/outbox.rs:81-100) *)
Definition room_take (r : Room) (octets : nat) (replaced : option nat) : Room * bool :=
  match replaced with
  | Some old =>
      let more := octets - old in
      if decide (room_octets r < more) then (r, false)
      else ({| room_entries := room_entries r; room_octets := room_octets r - more + (old - octets) |}, true)
  | None =>
      if decide (room_entries r = 0) then (r, false) else if decide (room_octets r < octets) then (r, false)
      else ({| room_entries := room_entries r - 1; room_octets := room_octets r - octets |}, true)
  end.
(** [Outbox] (bacnet-device-core/src/report/outbox.rs) *)
Record Outbox := { ob_limits : OutboxLimits; ob_buf : bytes; ob_entries : list Entry; ob_live : nat; ob_live_octets : nat }.
(** [Outbox::new] (bacnet-device-core/src/report/outbox.rs) *)
Definition outbox_new (limits : OutboxLimits) : Outbox := {| ob_limits := limits; ob_buf := []; ob_entries := []; ob_live := 0; ob_live_octets := 0 |}.
(** [Outbox::room] (bacnet-device-core/src/report/outbox.rs) *)
Definition room (ob : Outbox) : Room :=
  {| room_entries := lim_entries (ob_limits ob) - ob_live ob; room_octets := lim_octets (ob_limits ob) - ob_live_octets ob |}.
(** An unconfirmed notification still queued for [key]. *)
Definition queued_for (key : Key) (e : Entry) : Prop := en_live e = true /\ en_confirmed e = false /\ en_key e = key.
#[local] Instance queued_for_dec key e : Decision (queued_for key e).
Proof. unfold queued_for. apply _. Defined.
(** [Outbox::queued] (bacnet-device-core/src/report/outbox.rs:143-148) *)
Definition queued (ob : Outbox) (key : Key) : option nat := en_len ∘ snd <$> list_find (queued_for key) (ob_entries ob).
(** [entry.start = 0], [entry.start = next], [entry.live = false] *)
Definition at_start (e : Entry) (start : nat) : Entry :=
  {| en_token := en_token e; en_key := en_key e; en_to := en_to e; en_confirmed := en_confirmed e; en_begun := en_begun e;
     en_start := start; en_len := en_len e; en_live := en_live e |}.
Definition killed (e : Entry) : Entry :=
  {| en_token := en_token e; en_key := en_key e; en_to := en_to e; en_confirmed := en_confirmed e; en_begun := en_begun e;
     en_start := en_start e; en_len := en_len e; en_live := false |}.
(** An entry [compact] has still to move: live, not empty, at or past [next]. *)
Definition movable (next : nat) (e : Entry) : bool := en_live e && bool_decide (0 < en_len e) && bool_decide (next <= en_start e).
(** [filter(..).min_by_key(|entry| entry.start)], the first of the lowest, with its place. *)
Fixpoint lowest (next place : nat) (entries : list Entry) : option (nat * Entry) :=
  match entries with
  | [] => None
  | e :: rest =>
      match lowest next (S place) rest with
      | Some (at_, e') => if movable next e && bool_decide (en_start e <= en_start e') then Some (place, e) else Some (at_, e')
      | None => if movable next e then Some (place, e) else None
      end
  end.
(** [buf.copy_within(start..start + len, next)] *)
Definition copy_within (buf : bytes) (start len next : nat) : bytes := splice buf next (take len (drop start buf)).
(** The loop of [compact]: each round moves one entry, so as many rounds as entries are enough. *)
Fixpoint compact_rounds (fuel next : nat) (buf : bytes) (entries : list Entry) : bytes * list Entry :=
  match lowest next 0 entries with
  | None => (take next buf, entries)
  | Some (at_, e) =>
      match fuel with
      | 0 => (take next buf, entries)
      | S fuel => compact_rounds fuel (next + en_len e) (copy_within buf (en_start e) (en_len e) next) (<[at_ := at_start e next]> entries)
      end
  end.
(** [Outbox::compact] (bacnet-device-core/src/report/outbox.rs) *)
Definition compact (buf : bytes) (entries : list Entry) : bytes * list Entry :=
  let entries := (fun e => if decide (en_len e = 0) then at_start e 0 else e) <$> entries in
  compact_rounds (length entries) 0 buf entries.
(** [Pushed] (bacnet-device-core/src/report/outbox.rs) *)
Record Pushed := { pushed_queued : bool; pushed_replaced : option Token }.
(** [Outbox::push] (bacnet-device-core/src/report/outbox.rs) *)
Definition push (ob : Outbox) (token : Token) (key : Key) (to : Dest) (confirmed : bool) (begun : Instant) (params : bytes) : Outbox * Pushed :=
  let found := if confirmed then None else list_find (queued_for key) (ob_entries ob) in
  let '(entries, live, live_octets) :=
    match found with
    | Some (at_, old) => (<[at_ := killed old]> (ob_entries ob), ob_live ob - 1, ob_live_octets ob - en_len old)
    | None => (ob_entries ob, ob_live ob, ob_live_octets ob)
    end in
  let replaced := en_token ∘ snd <$> found in
  let limits := ob_limits ob in
  if negb (bool_decide (live < lim_entries limits) && bool_decide (live_octets + length params <= lim_octets limits)) then
    ({| ob_limits := limits; ob_buf := ob_buf ob; ob_entries := entries; ob_live := live; ob_live_octets := live_octets |},
     {| pushed_queued := false; pushed_replaced := replaced |})
  else
    let entries :=
      match found with
      | None => if decide (length entries = lim_entries limits) then filter (fun e => en_live e = true) entries else entries
      | Some _ => entries
      end in
    let '(buf, entries) :=
      if decide (lim_octets limits < length (ob_buf ob) + length params) then compact (ob_buf ob) entries else (ob_buf ob, entries) in
    let entry := {| en_token := token; en_key := key; en_to := to; en_confirmed := confirmed; en_begun := begun;
                    en_start := length buf; en_len := length params; en_live := true |} in
    let entries := match found with Some (at_, _) => <[at_ := entry]> entries | None => entries ++ [entry] end in
    ({| ob_limits := limits; ob_buf := buf ++ params; ob_entries := entries; ob_live := live + 1; ob_live_octets := live_octets + length params |},
     {| pushed_queued := true; pushed_replaced := replaced |}).
(** The loop of [pop]: the oldest live entry, and the entries after it. *)
Fixpoint pop_front (entries : list Entry) : option (Entry * list Entry) :=
  match entries with [] => None | e :: rest => if en_live e then Some (e, rest) else pop_front rest end.
(** What [take] is given: the entry and its parameters.
    [Outbox::pop] (bacnet-device-core/src/report/outbox.rs) *)
Definition pop (ob : Outbox) : Outbox * option (Entry * bytes) :=
  match pop_front (ob_entries ob) with
  | None => ({| ob_limits := ob_limits ob; ob_buf := ob_buf ob; ob_entries := []; ob_live := ob_live ob; ob_live_octets := ob_live_octets ob |}, None)
  | Some (e, rest) =>
      let live := ob_live ob - 1 in
      let live_octets := ob_live_octets ob - en_len e in
      let taken := (e, take (en_len e) (drop (en_start e) (ob_buf ob))) in
      if decide (live = 0)
      then ({| ob_limits := ob_limits ob; ob_buf := []; ob_entries := []; ob_live := live; ob_live_octets := live_octets |}, Some taken)
      else ({| ob_limits := ob_limits ob; ob_buf := ob_buf ob; ob_entries := rest; ob_live := live; ob_live_octets := live_octets |}, Some taken)
  end.
(** The loop of [kill]. *)
Fixpoint kill_loop (dead : Entry -> bool) (entries : list Entry) (live octets : nat) : list Entry * nat * nat :=
  match entries with
  | [] => ([], live, octets)
  | e :: rest =>
      let hit := en_live e && dead e in
      let '(rest, live, octets) := kill_loop dead rest (if hit then live - 1 else live) (if hit then octets - en_len e else octets) in
      ((if hit then killed e else e) :: rest, live, octets)
  end.
(** [Outbox::kill] (bacnet-device-core/src/report/outbox.rs) *)
Definition kill (ob : Outbox) (dead : Entry -> bool) : Outbox :=
  let '(entries, live, octets) := kill_loop dead (ob_entries ob) (ob_live ob) (ob_live_octets ob) in
  {| ob_limits := ob_limits ob; ob_buf := ob_buf ob; ob_entries := entries; ob_live := live; ob_live_octets := octets |}.

(** ** What an outbox stands for *)

Fixpoint total (l : list nat) : nat := match l with [] => 0 | x :: l => x + total l end.

Record Notice := { no_token : Token; no_key : Key; no_to : Dest; no_confirmed : bool; no_begun : Instant; no_params : bytes }.
Definition notice (buf : bytes) (e : Entry) : Notice :=
  {| no_token := en_token e; no_key := en_key e; no_to := en_to e; no_confirmed := en_confirmed e; no_begun := en_begun e;
     no_params := take (en_len e) (drop (en_start e) buf) |}.
Definition live (e : Entry) : Prop := en_live e = true.
Definition queue_of (buf : bytes) (entries : list Entry) : list Notice := notice buf <$> filter live entries.
Definition contents_of (ob : Outbox) : list Notice := queue_of (ob_buf ob) (ob_entries ob).
Definition octets_of (entries : list Entry) : nat := total (en_len <$> filter live entries).
(** No two live entries share an octet, and each lies within the buffer. *)
Definition within (buf : bytes) (entries : list Entry) : Prop := forall i e, entries !! i = Some e -> live e -> en_start e + en_len e <= length buf.
Definition separate (entries : list Entry) : Prop :=
  forall i j e f, i <> j -> entries !! i = Some e -> entries !! j = Some f -> live e -> live f -> 0 < en_len e -> 0 < en_len f ->
    en_start e + en_len e <= en_start f \/ en_start f + en_len f <= en_start e.
Record inv (ob : Outbox) : Prop := {
  inv_live : ob_live ob = length (filter live (ob_entries ob));
  inv_octets : ob_live_octets ob = octets_of (ob_entries ob);
  inv_entries : length (ob_entries ob) <= lim_entries (ob_limits ob);
  inv_buf : length (ob_buf ob) <= lim_octets (ob_limits ob);
  inv_fits : ob_live_octets ob <= lim_octets (ob_limits ob);
  inv_within : within (ob_buf ob) (ob_entries ob);
  inv_separate : separate (ob_entries ob)
}.

(** ** Compaction *)

Definition weight (w : Entry -> nat) (next : nat) (entries : list Entry) : nat := total ((fun e => if movable next e then w e else 0) <$> entries).
Lemma total_insert (l : list nat) i x y : l !! i = Some y -> total (<[i := x]> l) + y = total l + x.
Proof.
  revert i. induction l as [|a l IH]; intros [|i] Hl; [done..| |]; [injection Hl as ->; cbn; lia|]. specialize (IH i Hl).
  change (<[S i := x]> (a :: l)) with (a :: <[i := x]> l). cbn [total]. lia.
Qed.
Lemma movable_spec next e : movable next e = true <-> live e /\ 0 < en_len e /\ next <= en_start e.
Proof. unfold movable, live. rewrite !andb_true_iff, !bool_decide_eq_true. tauto. Qed.
Lemma lowest_some next entries : forall place at_ e, lowest next place entries = Some (at_, e) ->
  exists i, at_ = place + i /\ entries !! i = Some e /\ movable next e = true /\ forall j f, entries !! j = Some f -> movable next f = true -> en_start e <= en_start f.
Proof.
  induction entries as [|x rest IH]; intros place at_ e; cbn [lowest]; [done|]. destruct (lowest next (S place) rest) as [[at' e']|] eqn:El.
  - destruct (IH _ _ _ El) as (i & -> & Hi & Hm & Hmin). destruct (movable next x) eqn:Hx; cbn [andb].
    + case_bool_decide as Hle; intros [= <- <-].
      * exists 0. split_and!; [lia|done|done|]. intros [|j] f Hf Hmf; cbn in Hf; [by injection Hf as ->|]. specialize (Hmin j f Hf Hmf). lia.
      * exists (S i). split_and!; [lia|done|done|]. intros [|j] f Hf Hmf; cbn in Hf; [injection Hf as ->; lia|]. by apply (Hmin j).
    + intros [= <- <-]. exists (S i). split_and!; [lia|done|done|]. intros [|j] f Hf Hmf; cbn in Hf; [injection Hf as ->; congruence|]. by apply (Hmin j).
  - assert (Hnone : forall j f, rest !! j = Some f -> movable next f = false).
    { clear - El. revert place El. induction rest as [|y rest IH]; intros place; cbn [lowest]; [done|]. destruct (lowest next _ rest) as [[]|] eqn:E; [by destruct (_ && _)|].
      destruct (movable next y) eqn:Hy; [done|]. intros _ [|j] f Hf; cbn in Hf; [by injection Hf as <-|]. by eapply IH. }
    destruct (movable next x) eqn:Hx; [|done]. intros [= <- <-]. exists 0. split_and!; [lia|done|done|].
    intros [|j] f Hf Hmf; cbn in Hf; [by injection Hf as ->|]. rewrite (Hnone j f Hf) in Hmf. done.
Qed.
Lemma lowest_none next entries : forall place, lowest next place entries = None -> Forall (fun e => movable next e = false) entries.
Proof.
  induction entries as [|x rest IH]; intros place; cbn [lowest]; [constructor|]. destruct (lowest next _ rest) as [[]|] eqn:E; [by destruct (_ && _)|].
  destruct (movable next x) eqn:Hx; [done|]. intros _. constructor; [done|]. by eapply IH.
Qed.
Lemma weight_none w next entries : Forall (fun e => movable next e = false) entries -> weight w next entries = 0.
Proof. induction 1 as [|e l He _ IH]; [done|]. unfold weight in *. cbn. rewrite He. cbn. lia. Qed.
(** What compaction keeps of an entry: everything but where it lies. *)
Definition kept (buf buf' : bytes) (e e' : Entry) : Prop :=
  en_live e' = en_live e /\ en_len e' = en_len e /\ (live e -> notice buf' e' = notice buf e).
Lemma kept_queue buf buf' entries entries' : Forall2 (kept buf buf') entries entries' ->
  queue_of buf' entries' = queue_of buf entries /\ octets_of entries' = octets_of entries /\ length (filter live entries') = length (filter live entries).
Proof.
  unfold queue_of, octets_of. induction 1 as [|e e' l l' (Hl & Hn & Hs) _ (IH1 & IH2 & IH3)]; [done|]. rewrite !filter_cons.
  destruct (decide (live e)) as [Hd|Hd]; [rewrite !(decide_True (P := live e')) by (unfold live in *; congruence)|rewrite !(decide_False (P := live e')) by (unfold live in *; congruence); done].
  cbn. rewrite (Hs Hd), IH1, Hn, IH2, IH3. done.
Qed.
Lemma kept_entries_trans buf1 buf2 buf3 a b c : Forall2 (kept buf1 buf2) a b -> Forall2 (kept buf2 buf3) b c -> Forall2 (kept buf1 buf3) a c.
Proof.
  intros Hab. revert c. induction Hab as [|x y a b (H1 & H2 & H3) _ IH]; intros c Hbc; inversion Hbc as [|? z ? c' (K1 & K2 & K3) Hr]; subst; constructor; [|by apply IH].
  split_and!; [congruence|congruence|]. intros Hl. rewrite K3; [by apply H3|]. unfold live in *. congruence.
Qed.
Lemma lookup_splice (l src : bytes) pos i : pos + length src <= length l ->
  splice l pos src !! i = if decide (i < pos) then l !! i else if decide (i < pos + length src) then src !! (i - pos) else l !! i.
Proof.
  intros Hl. unfold splice. case_decide as H1; [by rewrite lookup_app_l, lookup_take by (rewrite ?length_take; lia); rewrite decide_True by done|].
  rewrite lookup_app_r by (rewrite length_take; lia). rewrite length_take. replace (i - pos `min` length l) with (i - pos) by lia.
  case_decide as H2; [by rewrite lookup_app_l by lia|]. rewrite lookup_app_r by lia. rewrite lookup_drop. f_equal. lia.
Qed.
Lemma slice_lookup (l : bytes) start len i : take len (drop start l) !! i = if decide (i < len) then l !! (start + i) else None.
Proof. rewrite lookup_take. case_decide; [|done]. by rewrite lookup_drop. Qed.
(** Moving a slice down: it is the same slice at its new place, and slices clear of that place are untouched. *)
Lemma copied buf start len next : start + len <= length buf -> next <= start ->
  length (copy_within buf start len next) = length buf /\
  take len (drop next (copy_within buf start len next)) = take len (drop start buf) /\
  forall s n, s + n <= next \/ next + len <= s -> take n (drop s (copy_within buf start len next)) = take n (drop s buf).
Proof.
  intros Hin Hle. unfold copy_within. assert (Hl : length (take len (drop start buf)) = len) by (rewrite length_take, length_drop; lia).
  split_and!; [apply length_splice; lia| |].
  - apply list_eq. intros i. rewrite !slice_lookup. case_decide; [|done]. rewrite lookup_splice by lia. rewrite Hl, decide_False, decide_True by lia.
    rewrite slice_lookup, decide_True by lia. f_equal. lia.
  - intros s n Hs. apply list_eq. intros i. rewrite !slice_lookup. case_decide; [|done]. rewrite lookup_splice by lia. rewrite Hl.
    destruct Hs; [by rewrite decide_True by lia|]. by rewrite !decide_False by lia.
Qed.
(** Live parameters lie within the buffer, and those already moved below [next]. *)
Definition moved (next : nat) (buf : bytes) (entries : list Entry) : Prop :=
  forall i e, entries !! i = Some e -> live e -> 0 < en_len e -> en_start e + en_len e <= length buf /\ (en_start e < next -> en_start e + en_len e <= next).
Lemma kept_take next buf entries : moved next buf entries -> Forall (fun e => movable next e = false) entries -> Forall2 (kept buf (take next buf)) entries entries.
Proof.
  intros Hm Hn. apply Forall2_same_length_lookup_2; [done|]. intros i e e' H1 H2. rewrite H1 in H2. injection H2 as <-. split_and!; [done..|]. intros Hl. unfold notice. f_equal.
  destruct (decide (en_len e = 0)) as [->|Hne]; [done|]. destruct (Hm i e H1 Hl ltac:(lia)) as [_ Hend]. rewrite Forall_lookup in Hn. specialize (Hn i e H1).
  assert (en_start e < next) as Hs. { destruct (decide (en_start e < next)); [done|]. rewrite (proj2 (movable_spec next e)) in Hn; [done|]. split_and!; [done|lia|lia]. }
  specialize (Hend Hs). apply list_eq. intros k. rewrite !slice_lookup. case_decide; [|done]. rewrite lookup_take, decide_True by lia. done.
Qed.
Section Step.
Context (next : nat) (buf : bytes) (entries : list Entry) (i : nat) (e : Entry).
Hypothesis (Hi : entries !! i = Some e) (Hmv : movable next e = true).
Hypothesis (Hmin : forall j f, entries !! j = Some f -> movable next f = true -> en_start e <= en_start f).
Hypothesis (Hmoved : moved next buf entries) (Hsep : separate entries).
#[local] Abbreviation next1 := (next + en_len e).
#[local] Abbreviation buf1 := (copy_within buf (en_start e) (en_len e) next).
#[local] Abbreviation entries1 := (<[i := at_start e next]> entries).

Lemma step_facts : live e /\ 0 < en_len e /\ next <= en_start e /\ en_start e + en_len e <= length buf /\ i < length entries.
Proof.
  apply movable_spec in Hmv as (Hl & Hlen & Hn). destruct (Hmoved i e Hi Hl Hlen) as [Hb _]. apply lookup_lt_Some in Hi. split_and!; done.
Qed.
(** Another entry is either below where the moved one goes or above where it was. *)
Lemma step_other j f : j <> i -> entries !! j = Some f -> live f -> 0 < en_len f -> en_start f + en_len f <= next \/ en_start e + en_len e <= en_start f.
Proof.
  intros Hji Hj Hl Hlen. destruct step_facts as (Hle & Hlene & Hn & Hb & _). destruct (decide (en_start f < next)) as [Hlt|Hge].
  - left. by apply (proj2 (Hmoved j f Hj Hl Hlen)).
  - right. assert (en_start e <= en_start f) as Hord by (apply (Hmin j f Hj); apply movable_spec; split_and!; [done|done|lia]).
    destruct (Hsep i j e f ltac:(lia) Hi Hj Hle Hl Hlene Hlen); lia.
Qed.
Lemma step_lookup j f : entries1 !! j = Some f -> j = i /\ f = at_start e next \/ j <> i /\ entries !! j = Some f.
Proof. intros Hj. destruct (decide (j = i)) as [->|Hne]; [left|right; by rewrite list_lookup_insert_ne in Hj by done]. rewrite list_lookup_insert_eq in Hj by (by eapply lookup_lt_Some). by injection Hj as <-. Qed.
Lemma step_moved : moved next1 buf1 entries1.
Proof.
  destruct step_facts as (Hle & Hlene & Hn & Hb & _). destruct (copied buf _ _ _ Hb Hn) as (Hlen & _). intros j f Hj Hl Hf. rewrite Hlen.
  apply step_lookup in Hj as [[-> ->]|[Hne Hj]]; [cbn; lia|]. pose proof (Hmoved j f Hj Hl Hf). pose proof (step_other j f Hne Hj Hl Hf). lia.
Qed.
Lemma step_separate : separate entries1.
Proof.
  destruct step_facts as (Hle & Hlene & Hn & _). intros j k f g Hjk Hj Hk Hlf Hlg Hf Hg.
  apply step_lookup in Hj as [[-> ->]|[Hnj Hj]]; apply step_lookup in Hk as [[-> ->]|[Hnk Hk]].
  - done.
  - destruct (step_other k g Hnk Hk Hlg Hg); cbn; lia.
  - destruct (step_other j f Hnj Hj Hlf Hf); cbn; lia.
  - by apply (Hsep j k).
Qed.
Lemma step_kept : Forall2 (kept buf buf1) entries entries1.
Proof.
  destruct step_facts as (Hle & Hlene & Hn & Hb & Hlt). destruct (copied buf _ _ _ Hb Hn) as (_ & Hsame & Hclear).
  apply Forall2_same_length_lookup_2; [by rewrite length_insert|]. intros j f f' Hj Hj'. apply step_lookup in Hj' as [[-> ->]|[Hne Hj']].
  - rewrite Hi in Hj. injection Hj as <-. split_and!; [done..|]. intros _. unfold notice. cbn. by rewrite Hsame.
  - rewrite Hj in Hj'. injection Hj' as <-. split_and!; [done..|]. intros Hl. unfold notice. f_equal. destruct (decide (en_len f = 0)) as [->|Hnz]; [done|].
    apply Hclear. pose proof (step_other j f Hne Hj Hl ltac:(lia)). lia.
Qed.
Lemma step_weight w : weight w next1 entries1 + w e = weight w next entries.
Proof.
  destruct step_facts as (Hle & Hlene & Hn & Hb & Hlt). unfold weight.
  assert (E : ((fun f => if movable next1 f then w f else 0) <$> entries1) = <[i := 0]> ((fun f => if movable next f then w f else 0) <$> entries)).
  { apply list_eq. intros j. rewrite list_lookup_fmap. destruct (decide (j = i)) as [->|Hne].
    - rewrite !list_lookup_insert_eq by (rewrite ?length_fmap; done). cbn. replace (movable _ _) with false; [done|]. symmetry. apply not_true_iff_false. rewrite movable_spec. cbn. lia.
    - rewrite !list_lookup_insert_ne, list_lookup_fmap by done. destruct (entries !! j) as [f|] eqn:Hj; [|done]. cbn. f_equal.
      replace (movable next1 f) with (movable next f); [done|]. apply eq_bool_prop_intro. rewrite !Is_true_true, !movable_spec. split; [|intros (? & ? & ?); split_and!; (done || lia)].
      intros (Hl & Hf & Hge). split_and!; [done|done|]. destruct (step_other j f Hne Hj Hl Hf); lia. }
  rewrite E. pose proof (total_insert ((fun f => if movable next f then w f else 0) <$> entries) i 0 (w e)) as Ht. rewrite list_lookup_fmap, Hi in Ht. cbn in Ht. rewrite Hmv in Ht.
  specialize (Ht eq_refl). lia.
Qed.
End Step.
(** With nothing left to move, what lies below [next] is all there is. *)
Lemma settled next buf entries : moved next buf entries -> separate entries -> next <= length buf -> Forall (fun e => movable next e = false) entries ->
  Forall2 (kept buf (take next buf)) entries entries /\ separate entries /\ length (take next buf) = next + weight en_len next entries /\
  (forall i e, entries !! i = Some e -> live e -> 0 < en_len e -> en_start e + en_len e <= length (take next buf)) /\
  (forall i e, entries !! i = Some e -> en_len e = 0 -> entries !! i = Some e).
Proof.
  intros Hm Hs Hn El. split_and!; [by apply kept_take|done|rewrite (weight_none _ _ _ El), length_take; lia| |done]. intros i e Hi Hl Hlen. rewrite length_take.
  destruct (Hm i e Hi Hl Hlen) as [_ Hend]. rewrite Forall_lookup in El. specialize (El i e Hi).
  assert (en_start e < next); [|lia]. destruct (decide (en_start e < next)); [done|]. rewrite (proj2 (movable_spec next e)) in El; [done|]. split_and!; [done|lia|lia].
Qed.
Lemma compact_rounds_spec fuel : forall next buf entries, moved next buf entries -> separate entries -> next <= length buf -> weight (fun _ => 1) next entries <= fuel ->
  let '(buf', entries') := compact_rounds fuel next buf entries in
  Forall2 (kept buf buf') entries entries' /\ separate entries' /\ length buf' = next + weight en_len next entries /\
  (forall i e, entries' !! i = Some e -> live e -> 0 < en_len e -> en_start e + en_len e <= length buf') /\
  (forall i e, entries !! i = Some e -> en_len e = 0 -> entries' !! i = Some e).
Proof.
  induction fuel as [|fuel IH]; intros next buf entries Hm Hs Hn Hw; cbn [compact_rounds]; destruct (lowest next 0 entries) as [[at_ e]|] eqn:El.
  all: try (apply lowest_some in El as (i & -> & Hi & Hmv & Hmin)). all: try (apply lowest_none in El).
  - pose proof (step_weight next buf entries i e Hi Hmv Hmin Hm Hs (fun _ => 1)) as H1. cbn beta in H1. lia.
  - by apply settled.
  - cbn [Nat.add]. pose proof (step_facts next buf entries i e Hi Hmv Hm) as (Hle & Hlene & Hne & Hb & _). destruct (copied buf _ _ _ Hb Hne) as (Hlen & _).
    pose proof (step_weight next buf entries i e Hi Hmv Hmin Hm Hs (fun _ => 1)) as H1. cbn beta in H1. pose proof (step_weight next buf entries i e Hi Hmv Hmin Hm Hs en_len) as Hwl.
    specialize (IH (next + en_len e) (copy_within buf (en_start e) (en_len e) next) (<[i := at_start e next]> entries)). destruct (compact_rounds _ _ _ _) as [buf' entries'].
    destruct IH as (Hk & Hse & Hl & Hend & Hz); [by apply step_moved|by eapply step_separate|lia|lia|]. split_and!; [|done|lia|done|].
    + eapply kept_entries_trans; [|exact Hk]. by eapply step_kept.
    + intros j f Hj Hf. apply Hz; [|done]. rewrite list_lookup_insert_ne; [done|]. intros <-. rewrite Hi in Hj. injection Hj as <-. lia.
  - by apply settled.
Qed.
Lemma weight_octets entries : weight en_len 0 entries = octets_of entries.
Proof.
  unfold weight, octets_of. induction entries as [|e l IH]; [done|]. rewrite filter_cons. cbn [fmap list_fmap total]. rewrite IH. unfold movable. rewrite (bool_decide_eq_true_2 (0 <= _)) by lia.
  case_decide as Hd; unfold live in Hd; [rewrite Hd|apply not_true_is_false in Hd; rewrite Hd]; cbn; [|done]. case_bool_decide; cbn; lia.
Qed.
Lemma weight_count next entries : weight (fun _ => 1) next entries <= length entries.
Proof. unfold weight. induction entries as [|e l IH]; cbn; [lia|]. case_match; lia. Qed.
(** Compaction keeps every live notification and takes no more of the buffer than they do. *)
Lemma outbox_compact_spec buf entries : within buf entries -> separate entries ->
  let '(buf', entries') := compact buf entries in
  Forall2 (kept buf buf') entries entries' /\ separate entries' /\ within buf' entries' /\ length buf' = octets_of entries.
Proof.
  intros Hw Hs. unfold compact. set (f := fun e => if decide (en_len e = 0) then at_start e 0 else e). set (zeroed := f <$> entries).
  assert (Hf : forall e, en_live (f e) = en_live e /\ en_len (f e) = en_len e /\ (0 < en_len e -> f e = e) /\ (en_len e = 0 -> en_start (f e) = 0))
    by (intros e; unfold f; case_decide; cbn; split_and!; (done || lia)).
  assert (Hz : forall i e, zeroed !! i = Some e -> exists e0, entries !! i = Some e0 /\ e = f e0)
    by (intros i e; unfold zeroed; rewrite list_lookup_fmap; destruct (entries !! i) as [e0|]; [|done]; intros [= <-]; by exists e0).
  assert (Hk0 : Forall2 (kept buf buf) entries zeroed).
  { unfold zeroed. apply Forall2_fmap_r, Forall_Forall2_diag, Forall_forall. intros e _. destruct (Hf e) as (H1 & H2 & H3 & H4). split_and!; [done..|]. intros _.
    destruct (decide (en_len e = 0)) as [E|]; [|by rewrite H3 by lia]. unfold f, notice. rewrite decide_True by done. cbn. by rewrite E. }
  assert (Hs0 : separate zeroed).
  { intros i j e g Hij Hi Hj Hle Hlg He Hg. apply Hz in Hi as (e0 & Hi & ->), Hj as (g0 & Hj & ->). destruct (Hf e0) as (E1 & E2 & E3 & _), (Hf g0) as (G1 & G2 & G3 & _).
    rewrite E2 in He. rewrite G2 in Hg. rewrite E3, G3 in * by done. by apply (Hs i j). }
  pose proof (compact_rounds_spec (length zeroed) 0 buf zeroed) as Hc. destruct (compact_rounds _ _ _ _) as [buf' entries'].
  destruct Hc as (Hk & Hse & Hl & Hend & Hzero); [|done|lia|apply weight_count|].
  { intros i e Hi Hl Hlen. apply Hz in Hi as (e0 & Hi & ->). destruct (Hf e0) as (E1 & E2 & E3 & _). rewrite E2 in Hlen. rewrite E3 in * by done. split; [by apply (Hw i)|lia]. }
  pose proof (kept_entries_trans _ _ _ _ _ _ Hk0 Hk) as Hkept. split_and!; [done|done| |].
  - intros i e Hi Hle. destruct (decide (en_len e = 0)) as [E|]; [|apply (Hend i e Hi Hle); lia].
    destruct (Forall2_lookup_r _ _ _ _ _ Hk Hi) as (e1 & Hi1 & _ & H2 & _). assert (en_len e1 = 0) as E1 by congruence. pose proof (Hzero _ _ Hi1 E1) as Hi'. rewrite Hi in Hi'. injection Hi' as ->.
    apply Hz in Hi1 as (e0 & _ & ->). destruct (Hf e0) as (_ & F2 & _ & F4). rewrite F2 in E1. rewrite (F4 E1), F2. lia.
  - rewrite Hl, weight_octets. cbn. apply (kept_queue _ _ _ _ Hk0).
Qed.

(** ** Separation, list by list *)

Definition apart (e f : Entry) : Prop := live e -> live f -> 0 < en_len e -> 0 < en_len f -> en_start e + en_len e <= en_start f \/ en_start f + en_len f <= en_start e.
Lemma separate_cons e l : separate (e :: l) <-> (forall f, f ∈ l -> apart e f) /\ separate l.
Proof.
  split.
  - intros Hs. split.
    + intros f [j Hj]%list_elem_of_lookup ? ? ? ?. by apply (Hs 0 (S j)).
    + intros i j f g Hij Hi Hj ? ? ? ?. by apply (Hs (S i) (S j) f g ltac:(lia)).
  - intros [He Hl] [|i] [|j] f g Hij Hi Hj Hlf Hlg Hf Hg; cbn in Hi, Hj; [done| | |].
    + injection Hi as <-. by apply He; [eapply list_elem_of_lookup_2| | | |].
    + injection Hj as ->. assert (apart g f) as Ha by (apply He; by eapply list_elem_of_lookup_2). destruct (Ha Hlg Hlf Hg Hf); lia.
    + by apply (Hl i j f g ltac:(lia)).
Qed.
Lemma separate_app l1 l2 : separate (l1 ++ l2) <-> separate l1 /\ separate l2 /\ forall e f, e ∈ l1 -> f ∈ l2 -> apart e f.
Proof.
  induction l1 as [|e l1 IH]; cbn [app].
  - split; [intros H; split_and!; [by intros ? ? ? ? ? ?|done|by intros ? ? ?%elem_of_nil]|by intros (_ & H & _)].
  - rewrite !separate_cons, IH. setoid_rewrite elem_of_app. setoid_rewrite elem_of_cons. clear. naive_solver.
Qed.
Lemma separate_filter (P : Entry -> Prop) `{!forall e, Decision (P e)} l : separate l -> separate (filter P l).
Proof.
  induction l as [|e l IH]; [done|]. intros [He Hl]%separate_cons. rewrite filter_cons. case_decide; [|by apply IH]. apply separate_cons. split; [|by apply IH].
  intros f [_ Hf]%list_elem_of_filter. by apply He.
Qed.
Definition fits_in (buf : bytes) (e : Entry) : Prop := live e -> en_start e + en_len e <= length buf.
Lemma within_Forall buf entries : within buf entries <-> Forall (fits_in buf) entries.
Proof. rewrite Forall_lookup. done. Qed.
Lemma queue_app buf l1 l2 : queue_of buf (l1 ++ l2) = queue_of buf l1 ++ queue_of buf l2.
Proof. unfold queue_of. by rewrite filter_app, fmap_app. Qed.
Lemma total_app l1 l2 : total (l1 ++ l2) = total l1 + total l2.
Proof. induction l1 as [|x l1 IH]; cbn; [done|]. rewrite IH. lia. Qed.
Lemma octets_app l1 l2 : octets_of (l1 ++ l2) = octets_of l1 + octets_of l2.
Proof. unfold octets_of. by rewrite filter_app, fmap_app, total_app. Qed.
Lemma queue_dead buf l : Forall (fun e => ~ live e) l -> queue_of buf l = [] /\ octets_of l = 0 /\ filter live l = [].
Proof.
  intros H. unfold queue_of, octets_of. assert (filter live l = []) as -> by (induction H; [done|]; by rewrite filter_cons_False by done). done.
Qed.
(** The parameters of entries within a buffer do not change when it grows. *)
Lemma queue_grow buf more l : Forall (fits_in buf) l -> queue_of (buf ++ more) l = queue_of buf l.
Proof.
  intros Hf. unfold queue_of. apply list_fmap_ext. intros i e [Hl Hin]%list_elem_of_lookup_2%list_elem_of_filter. rewrite Forall_forall in Hf. specialize (Hf e Hin Hl).
  unfold notice. f_equal. rewrite drop_app_le by lia. rewrite take_app_le by (rewrite length_drop; lia). done.
Qed.
(** A new entry at the end of the buffer, in the place of dead ones. *)
Lemma place_new buf l1 dead l2 e params : Forall (fits_in buf) (l1 ++ dead ++ l2) -> separate (l1 ++ dead ++ l2) -> live e -> en_start e = length buf -> en_len e = length params ->
  within (buf ++ params) (l1 ++ e :: l2) /\ separate (l1 ++ e :: l2) /\ octets_of (l1 ++ e :: l2) = octets_of (l1 ++ l2) + length params /\
  queue_of (buf ++ params) (l1 ++ e :: l2) = queue_of buf l1 ++ notice (buf ++ params) e :: queue_of buf l2 /\ no_params (notice (buf ++ params) e) = params.
Proof.
  intros Hf Hs He Hstart Hlen. apply Forall_app in Hf as [H1 [_ H2]%Forall_app]. apply separate_app in Hs as (S1 & (_ & S2 & _)%separate_app & S12).
  assert (Hgrow : forall l, Forall (fits_in buf) l -> Forall (fits_in (buf ++ params)) l) by (intros l Hl; eapply Forall_impl; [exact Hl|]; intros f Hf ?; rewrite length_app; specialize (Hf H); lia).
  assert (Hap : forall f, fits_in buf f -> apart f e) by (intros f Hf Hlf _ _ _; specialize (Hf Hlf); lia).
  rewrite Forall_forall in H1, H2. split_and!.
  - apply within_Forall, Forall_app_2; [by apply Hgrow, Forall_forall|]. constructor; [intros _; rewrite length_app; lia|by apply Hgrow, Forall_forall].
  - apply separate_app. split_and!; [done| |].
    + apply separate_cons. split; [|done]. intros f Hin. pose proof (Hap f (H2 f Hin)) as Ha. intros A B C D. destruct (Ha B A D C); lia.
    + intros f g Hin [->|Hg]%elem_of_cons; [by apply Hap, H1|]. apply S12; [done|]. apply elem_of_app. by right.
  - rewrite !octets_app. unfold octets_of at 2. rewrite filter_cons_True by done. cbn. unfold octets_of. lia.
  - rewrite queue_app. rewrite queue_grow by (by apply Forall_forall). f_equal. unfold queue_of at 1. rewrite filter_cons_True by done. cbn. f_equal.
    fold (queue_of (buf ++ params) l2). apply queue_grow. by apply Forall_forall.
  - unfold notice. cbn. rewrite Hstart, Hlen, drop_app_length. by rewrite firstn_all.
Qed.

(** ** The abstract queue *)

Definition replaceable (key : Key) (n : Notice) : Prop := no_confirmed n = false /\ no_key n = key.
#[local] Instance replaceable_dec key n : Decision (replaceable key n).
Proof. unfold replaceable. apply _. Defined.
Definition params_total (q : list Notice) : nat := total (length ∘ no_params <$> q).
(** A notification joins the queue, or takes the place of the unconfirmed one queued for its subscription; it is left out when the rest leaves
    no room, and the one it was to replace goes even so. *)
Definition spec_push (limits : OutboxLimits) (q : list Notice) (n : Notice) : list Notice * Pushed :=
  let found := if no_confirmed n then None else list_find (replaceable (no_key n)) q in
  let rest := match found with Some (at_, _) => delete at_ q | None => q end in
  let replaced := no_token ∘ snd <$> found in
  if bool_decide (length rest < lim_entries limits) && bool_decide (params_total rest + length (no_params n) <= lim_octets limits)
  then (match found with Some (at_, _) => <[at_ := n]> q | None => q ++ [n] end, {| pushed_queued := true; pushed_replaced := replaced |})
  else (rest, {| pushed_queued := false; pushed_replaced := replaced |}).

Lemma list_find_split {A} (P : A -> Prop) `{!forall x, Decision (P x)} l i x : list_find P l = Some (i, x) -> exists l1 l2, l = l1 ++ x :: l2 /\ i = length l1 /\ Forall (fun y => ~ P y) l1 /\ P x.
Proof.
  intros (Hi & Hx & Hb)%list_find_Some. exists (take i l), (drop (S i) l). split_and!; [by rewrite take_drop_middle|rewrite length_take; apply lookup_lt_Some in Hi; lia| |done].
  apply Forall_lookup. intros j y Hj. apply lookup_take_Some in Hj as [Hj Hlt]. by apply (Hb j).
Qed.
Lemma list_find_app_here {A} (P : A -> Prop) `{!forall x, Decision (P x)} l1 x l2 : Forall (fun y => ~ P y) l1 -> P x -> list_find P (l1 ++ x :: l2) = Some (length l1, x).
Proof.
  intros Hn Hx. apply list_find_Some. split_and!; [by rewrite list_lookup_middle|done|]. intros j y Hj Hlt. rewrite lookup_app_l in Hj by done. rewrite Forall_lookup in Hn. by apply (Hn j).
Qed.
(** Looking for the notification to replace, among the entries or in the queue. *)
Lemma found_same buf entries key :
  match list_find (queued_for key) entries with
  | Some (i, old) => exists l1 l2, entries = l1 ++ old :: l2 /\ i = length l1 /\ live old /\ en_confirmed old = false /\
      list_find (replaceable key) (queue_of buf entries) = Some (length (queue_of buf l1), notice buf old)
  | None => list_find (replaceable key) (queue_of buf entries) = None
  end.
Proof.
  assert (Hnone : forall l, Forall (fun e => ~ queued_for key e) l -> Forall (fun n => ~ replaceable key n) (queue_of buf l)).
  { intros l Hl. unfold queue_of. apply Forall_fmap, Forall_forall. intros e [Hlive Hin]%list_elem_of_filter. rewrite Forall_forall in Hl. intros [Hc Hk]. by apply (Hl e Hin). }
  destruct (list_find (queued_for key) entries) as [[i old]|] eqn:E.
  - apply list_find_split in E as (l1 & l2 & -> & -> & Hn & (Hl & Hc & Hk)). exists l1, l2. split_and!; [done..|]. rewrite queue_app. unfold queue_of at 2. rewrite filter_cons_True by done. cbn [fmap list_fmap].
    apply list_find_app_here; [by apply Hnone|done].
  - apply (proj2 (list_find_None _ _)), Hnone. by apply (proj1 (list_find_None _ _)).
Qed.
Lemma queue_length buf entries : length (queue_of buf entries) = length (filter live entries).
Proof. unfold queue_of. by rewrite length_fmap. Qed.
Lemma params_octets buf entries : Forall (fits_in buf) entries -> params_total (queue_of buf entries) = octets_of entries.
Proof.
  unfold params_total, queue_of, octets_of. induction 1 as [|e l He Hl IH]; [done|]. rewrite filter_cons. case_decide as Hd; [|done]. cbn. rewrite IH. f_equal. specialize (He Hd).
  rewrite length_take, length_drop. lia.
Qed.
(** Making room in the buffer, with dead entries [dead] to be overwritten. *)
Lemma make_room limit need buf l1 dead l2 : Forall (fits_in buf) (l1 ++ dead ++ l2) -> separate (l1 ++ dead ++ l2) -> Forall (fun e => ~ live e) dead ->
  octets_of (l1 ++ l2) + need <= limit ->
  let '(buf', entries') := if decide (limit < length buf + need) then compact buf (l1 ++ dead ++ l2) else (buf, l1 ++ dead ++ l2) in
  exists l1' dead' l2', entries' = l1' ++ dead' ++ l2' /\ length l1' = length l1 /\ length dead' = length dead /\ length l2' = length l2 /\
    Forall (fits_in buf') entries' /\ separate entries' /\ length buf' + need <= limit /\
    queue_of buf' l1' = queue_of buf l1 /\ queue_of buf' l2' = queue_of buf l2 /\ octets_of (l1' ++ l2') = octets_of (l1 ++ l2) /\
    length (filter live (l1' ++ l2')) = length (filter live (l1 ++ l2)).
Proof.
  intros Hf Hs Hd Hfit. case_decide as Hfull; [|exists l1, dead, l2; split_and!; (done || lia)].
  pose proof (outbox_compact_spec buf (l1 ++ dead ++ l2) (proj2 (within_Forall _ _) Hf) Hs) as Hc. destruct (compact buf _) as [buf' entries'].
  destruct Hc as (Hk & Hse & Hwi & Hlen). apply Forall2_app_inv_l in Hk as (l1' & r & K1 & (dead' & l2' & K0 & K2 & ->)%Forall2_app_inv_l & ->).
  destruct (kept_queue _ _ _ _ K1) as (Q1 & O1 & L1), (kept_queue _ _ _ _ K2) as (Q2 & O2 & L2). destruct (queue_dead buf dead Hd) as (_ & O0 & _).
  exists l1', dead', l2'. rewrite !octets_app in *. rewrite !filter_app, !length_app.
  split_and!; [done|by apply Forall2_length in K1|by apply Forall2_length in K0|by apply Forall2_length in K2|by apply within_Forall|done|lia|done|done|lia|lia].
Qed.
(** Placing the new entry once there is room for it. *)
Lemma push_placed limits buf l1 dead l2 (place : list Entry -> Entry -> list Entry) token key to confirmed begun params :
  Forall (fits_in buf) (l1 ++ dead ++ l2) -> separate (l1 ++ dead ++ l2) -> Forall (fun e => ~ live e) dead ->
  length (filter live (l1 ++ l2)) < lim_entries limits -> length l1 + length l2 < lim_entries limits -> octets_of (l1 ++ l2) + length params <= lim_octets limits ->
  (forall l1' dead' l2' e, length l1' = length l1 -> length dead' = length dead -> length l2' = length l2 -> place (l1' ++ dead' ++ l2') e = l1' ++ e :: l2') ->
  let '(buf', entries') := if decide (lim_octets limits < length buf + length params) then compact buf (l1 ++ dead ++ l2) else (buf, l1 ++ dead ++ l2) in
  let entry := {| en_token := token; en_key := key; en_to := to; en_confirmed := confirmed; en_begun := begun; en_start := length buf'; en_len := length params; en_live := true |} in
  inv {| ob_limits := limits; ob_buf := buf' ++ params; ob_entries := place entries' entry; ob_live := length (filter live (l1 ++ l2)) + 1; ob_live_octets := octets_of (l1 ++ l2) + length params |} /\
  queue_of (buf' ++ params) (place entries' entry) = queue_of buf l1 ++
    {| no_token := token; no_key := key; no_to := to; no_confirmed := confirmed; no_begun := begun; no_params := params |} :: queue_of buf l2.
Proof.
  intros Hf Hs Hd Hn Hlen Ho Hplace. pose proof (make_room (lim_octets limits) (length params) buf l1 dead l2 Hf Hs Hd Ho) as Hroom.
  destruct (if decide _ then _ else _) as [buf' entries']. destruct Hroom as (l1' & dead' & l2' & -> & E1 & E0 & E2 & Hf' & Hs' & Hb & Q1 & Q2 & O & L). intros entry.
  destruct (place_new buf' l1' dead' l2' entry params Hf' Hs' eq_refl eq_refl eq_refl) as (Wi & Se & Oc & Qu & Pa). rewrite (Hplace l1' dead' l2' entry E1 E0 E2). split.
  - constructor; cbn [ob_limits ob_buf ob_entries ob_live ob_live_octets]; [| |rewrite length_app; cbn; lia|rewrite length_app; lia|lia|done|done].
    + rewrite <-L. rewrite !filter_app, (filter_cons_True live entry l2') by done. rewrite !length_app. cbn. lia.
    + rewrite Oc, O. done.
  - rewrite Qu, Q1, Q2. do 2 f_equal. unfold notice, entry in *. cbn in *. by rewrite Pa.
Qed.
Lemma fits_killed buf l1 old l2 : Forall (fits_in buf) (l1 ++ old :: l2) -> separate (l1 ++ old :: l2) -> Forall (fits_in buf) (l1 ++ [killed old] ++ l2) /\ separate (l1 ++ [killed old] ++ l2).
Proof.
  intros [H1 [_ H2]%Forall_cons]%Forall_app (S1 & [S0 S2]%separate_cons & S12)%separate_app. split; [apply Forall_app_2; [done|]; by constructor|].
  apply separate_app. split_and!; [done|by apply separate_cons; split; [intros ? ? ?|]|]. intros e f He [->|Hf]%elem_of_cons; [by intros ? ?|]. apply S12; [done|]. by apply elem_of_cons; right.
Qed.
Lemma inv_shrunk limits buf l1 old l2 live_ octets : Forall (fits_in buf) (l1 ++ old :: l2) -> separate (l1 ++ old :: l2) -> length (l1 ++ old :: l2) <= lim_entries limits ->
  length buf <= lim_octets limits -> octets <= lim_octets limits -> live_ = length (filter live (l1 ++ l2)) -> octets = octets_of (l1 ++ l2) ->
  inv {| ob_limits := limits; ob_buf := buf; ob_entries := l1 ++ killed old :: l2; ob_live := live_; ob_live_octets := octets |}.
Proof.
  intros Hf Hs Hl Hb Ho -> ->. destruct (fits_killed buf l1 old l2 Hf Hs) as [Hf' Hs'].
  constructor; cbn [ob_limits ob_buf ob_entries ob_live ob_live_octets]; [| |rewrite length_app in *; cbn in *; lia|done|done|by apply within_Forall|done].
  - by rewrite !filter_app, (filter_cons_False live (killed old)) by done.
  - rewrite !octets_app. unfold octets_of at 4. by rewrite (filter_cons_False live (killed old)) by done.
Qed.
Lemma insert_middle {A} (l1 : list A) x y l2 : <[length l1 := y]> (l1 ++ x :: l2) = l1 ++ y :: l2.
Proof. induction l1 as [|z l1 IH]; [done|]. cbn. by f_equal. Qed.
Lemma queue_split buf l1 e l2 : live e -> queue_of buf (l1 ++ e :: l2) = queue_of buf l1 ++ notice buf e :: queue_of buf l2.
Proof. intros He. rewrite queue_app. f_equal. unfold queue_of. by rewrite filter_cons_True by done. Qed.
Lemma live_split l1 e l2 : live e -> length (filter live (l1 ++ e :: l2)) = S (length (filter live (l1 ++ l2))) /\ octets_of (l1 ++ e :: l2) = en_len e + octets_of (l1 ++ l2).
Proof. intros He. rewrite !filter_app, !octets_app, (filter_cons_True live e l2) by done. unfold octets_of at 2. rewrite (filter_cons_True live e l2) by done. rewrite !length_app. cbn. unfold octets_of. lia. Qed.
Lemma push_replaces ob l1 old l2 token key to begun params : inv ob -> ob_entries ob = l1 ++ old :: l2 -> list_find (queued_for key) (ob_entries ob) = Some (length l1, old) -> live old ->
  let n := {| no_token := token; no_key := key; no_to := to; no_confirmed := false; no_begun := begun; no_params := params |} in
  let '(ob', pushed) := push ob token key to false begun params in
  inv ob' /\ ob_limits ob' = ob_limits ob /\ pushed_replaced pushed = Some (en_token old) /\
  if bool_decide (length (queue_of (ob_buf ob) (l1 ++ l2)) < lim_entries (ob_limits ob)) && bool_decide (params_total (queue_of (ob_buf ob) (l1 ++ l2)) + length params <= lim_octets (ob_limits ob))
  then pushed_queued pushed = true /\ contents_of ob' = queue_of (ob_buf ob) l1 ++ n :: queue_of (ob_buf ob) l2
  else pushed_queued pushed = false /\ contents_of ob' = queue_of (ob_buf ob) (l1 ++ l2).
Proof.
  intros [Il Io Ie Ib If Iw Is] E Hfind Hl n. apply within_Forall in Iw. rewrite E in *. destruct (live_split l1 old l2 Hl) as [HL HO]. rewrite HL in Il. rewrite HO in Io.
  assert (Hf12 : Forall (fits_in (ob_buf ob)) (l1 ++ l2)) by (apply Forall_app in Iw as [? [_ ?]%Forall_cons]; by apply Forall_app_2).
  rewrite queue_length, params_octets by done. unfold push. rewrite E, Hfind. cbn [fmap option_fmap option_map compose snd]. rewrite insert_middle.
  replace (ob_live ob - 1) with (length (filter live (l1 ++ l2))) by lia. replace (ob_live_octets ob - en_len old) with (octets_of (l1 ++ l2)) by lia.
  destruct (_ && _) eqn:Efit; cbn [negb].
  - apply andb_true_iff in Efit as [F1%bool_decide_eq_true F2%bool_decide_eq_true]. destruct (fits_killed _ _ _ _ Iw Is) as [Hf Hs].
    pose proof (push_placed (ob_limits ob) (ob_buf ob) l1 [killed old] l2 (fun es e => <[length l1 := e]> es) token key to false begun params Hf Hs) as Hp.
    change (l1 ++ killed old :: l2) with (l1 ++ [killed old] ++ l2). destruct (if decide _ then _ else _) as [buf' es']. cbn [pushed_replaced pushed_queued ob_limits]. unfold contents_of. cbn [ob_buf ob_entries].
    rewrite length_app in Ie. cbn [length] in Ie.
    destruct Hp as [Hinv Hq]; [by constructor; [|constructor]|done|lia|done| |by split_and!].
    intros l1' dead' l2' x H1 H0 H2. destruct dead' as [|d [|]]; try done. rewrite <-H1. apply insert_middle.
  - split_and!; [apply inv_shrunk; (done || lia)|done|done|done|]. unfold contents_of. cbn [ob_buf ob_entries]. by rewrite !queue_app.
Qed.
Lemma filter_live_twice (l : list Entry) : filter live (filter live l) = filter live l.
Proof. induction l as [|e l IH]; [done|]. rewrite filter_cons. case_decide; [|done]. rewrite filter_cons_True by done. by f_equal. Qed.
Lemma push_joins ob token key to confirmed begun params : inv ob -> (confirmed = false -> list_find (queued_for key) (ob_entries ob) = None) ->
  let n := {| no_token := token; no_key := key; no_to := to; no_confirmed := confirmed; no_begun := begun; no_params := params |} in
  let '(ob', pushed) := push ob token key to confirmed begun params in
  inv ob' /\ ob_limits ob' = ob_limits ob /\ pushed_replaced pushed = None /\
  if bool_decide (length (contents_of ob) < lim_entries (ob_limits ob)) && bool_decide (params_total (contents_of ob) + length params <= lim_octets (ob_limits ob))
  then pushed_queued pushed = true /\ contents_of ob' = contents_of ob ++ [n]
  else pushed_queued pushed = false /\ contents_of ob' = contents_of ob.
Proof.
  intros Hinv Hfind n. pose proof Hinv as [Il Io Ie Ib If Iw Is]. apply within_Forall in Iw. 
  replace (length (contents_of ob)) with (ob_live ob) by (unfold contents_of; by rewrite queue_length).
  replace (params_total (contents_of ob)) with (ob_live_octets ob) by (unfold contents_of; by rewrite params_octets).
  unfold push. replace (if confirmed then None else _) with (@None (nat * Entry)) by (destruct confirmed; [done|by rewrite Hfind]). cbn [fmap option_fmap option_map].
  destruct (_ && _) eqn:Efit; cbn [negb]; [|by split_and!; [destruct ob|..]].
  apply andb_true_iff in Efit as [F1%bool_decide_eq_true F2%bool_decide_eq_true].
  set (es := if decide (length (ob_entries ob) = lim_entries (ob_limits ob)) then filter (fun e => en_live e = true) (ob_entries ob) else ob_entries ob).
  assert (Hes : Forall (fits_in (ob_buf ob)) es /\ separate es /\ length es < lim_entries (ob_limits ob) /\ filter live es = filter live (ob_entries ob)).
  { unfold es. case_decide; [|split_and!; (done || lia)]. split_and!; [rewrite !Forall_forall in *; intros e [_ He]%list_elem_of_filter; by apply Iw|by apply separate_filter|change (length (filter live (ob_entries ob)) < lim_entries (ob_limits ob)); lia|apply filter_live_twice]. }
  destruct Hes as (Hf & Hs & Hlen & Hfl). clearbody es.
  pose proof (push_placed (ob_limits ob) (ob_buf ob) es [] [] (fun es e => es ++ [e]) token key to confirmed begun params) as Hp. cbn [app] in Hp. rewrite app_nil_r in Hp.
  assert (Ho : octets_of es = ob_live_octets ob) by (unfold octets_of; by rewrite Hfl). rewrite Ho, Hfl, <-Il in Hp.
  destruct (if decide (_ < length (ob_buf ob) + _) then _ else _) as [buf' es']. destruct Hp as [Hi Hq]; [done|done|constructor|done|cbn; lia|done| |].
  { intros l1' dead' l2' x _ H0 H2. destruct dead', l2'; try done. cbn. by rewrite app_nil_r. }
  split_and!; [done|done|done|done|]. unfold contents_of. cbn [ob_buf ob_entries]. rewrite Hq. unfold queue_of at 1 3. by rewrite Hfl.
Qed.
Lemma push_refines ob token key to confirmed begun params : inv ob ->
  let n := {| no_token := token; no_key := key; no_to := to; no_confirmed := confirmed; no_begun := begun; no_params := params |} in
  let '(ob', pushed) := push ob token key to confirmed begun params in
  inv ob' /\ ob_limits ob' = ob_limits ob /\ spec_push (ob_limits ob) (contents_of ob) n = (contents_of ob', pushed).
Proof.
  intros Hinv n. pose proof (found_same (ob_buf ob) (ob_entries ob) key) as Hfound. unfold spec_push. subst n. cbn [no_confirmed no_key no_params].
  destruct confirmed; [|destruct (list_find (queued_for key) (ob_entries ob)) as [[i old]|] eqn:Ef].
  - pose proof (push_joins ob token key to true begun params Hinv ltac:(done)) as Hp. destruct (push _ _ _ _ _ _ _) as [ob' [qd rp]]. destruct Hp as (? & ? & Hr & Hc).
    split_and!; [done..|]. cbn in Hr, Hc. cbn [fmap option_fmap option_map]. subst rp. destruct (_ && _); destruct Hc as [-> ->]; done.
  - destruct Hfound as (l1 & l2 & E & -> & Hl & _ & Hff). fold (contents_of ob) in Hff. pose proof (push_replaces ob l1 old l2 token key to begun params Hinv E Ef Hl) as Hp.
    destruct (push _ _ _ _ _ _ _) as [ob' [qd rp]]. destruct Hp as (? & ? & Hr & Hc). split_and!; [done..|]. cbn in Hr, Hc. rewrite Hff. cbn [fmap option_fmap option_map compose snd no_token notice].
    assert (Hc0 : contents_of ob = queue_of (ob_buf ob) l1 ++ notice (ob_buf ob) old :: queue_of (ob_buf ob) l2) by (unfold contents_of; by rewrite E, queue_split).
    rewrite Hc0, delete_middle, <-queue_app, insert_middle. subst rp. destruct (_ && _); by destruct Hc as [-> ->].
  - pose proof (push_joins ob token key to false begun params Hinv (fun _ => Ef)) as Hp. destruct (push _ _ _ _ _ _ _) as [ob' [qd rp]]. destruct Hp as (? & ? & Hr & Hc).
    split_and!; [done..|]. cbn in Hr, Hc. fold (contents_of ob) in Hfound. rewrite Hfound. cbn [fmap option_fmap option_map]. subst rp. destruct (_ && _); destruct Hc as [-> ->]; done.
Qed.
Lemma pop_front_split entries : match pop_front entries with
  | Some (e, rest) => exists dead, entries = dead ++ e :: rest /\ Forall (fun e => ~ live e) dead /\ live e
  | None => Forall (fun e => ~ live e) entries end.
Proof.
  induction entries as [|e entries IH]; cbn [pop_front]; [constructor|]. destruct (en_live e) eqn:El; [by exists []|].
  assert (~ live e) as Hn by (unfold live; congruence). destruct (pop_front entries) as [[f rest]|]; [|by constructor].
  destruct IH as (dead & -> & Hd & Hl). exists (e :: dead). split_and!; [done|by constructor|done].
Qed.
Lemma pop_refines ob : inv ob -> let '(ob', r) := pop ob in inv ob' /\ ob_limits ob' = ob_limits ob /\
  match contents_of ob with
  | [] => contents_of ob' = [] /\ r = None
  | n :: q => contents_of ob' = q /\ exists e, r = Some (e, no_params n) /\ notice (ob_buf ob) e = n /\ en_start e + en_len e <= length (ob_buf ob)
  end.
Proof.
  intros [Il Io Ie Ib If Iw Is]. unfold pop, contents_of. pose proof (pop_front_split (ob_entries ob)) as Hp. destruct (pop_front (ob_entries ob)) as [[e rest]|].
  - destruct Hp as (dead & E & Hd & Hl). rewrite E in *. destruct (live_split dead e rest Hl) as [HL HO]. destruct (queue_dead (ob_buf ob) dead Hd) as (Qd & Od & Fd).
    apply within_Forall in Iw. apply Forall_app in Iw as [_ [He Hr]%Forall_cons]. apply separate_app in Is as (_ & [_ Sr]%separate_cons & _).
    rewrite HL in Il. rewrite HO in Io. rewrite (octets_app dead rest), Od in Io. rewrite (filter_app live dead rest), Fd in Il. cbn [app] in Il. clear HL HO. rewrite queue_split, Qd by done. cbn [app]. rewrite length_app in Ie. cbn [length] in Ie. case_decide as Hz.
    + assert (filter live rest = []) as Hnil by (apply length_zero_iff_nil; lia). unfold contents_of, queue_of. cbn [ob_buf ob_entries ob_limits]. rewrite Hnil. split_and!; [|done|done|].
      * constructor; cbn; [lia| |lia|lia|lia|by intros ? ?|by intros ? ? ? ? ?]. unfold octets_of in *. rewrite Hnil in Io. cbn in *. lia.
      * exists e. split_and!; [done|done|]. by apply He.
    + unfold contents_of. cbn [ob_buf ob_entries ob_limits]. split_and!; [|done|done|exists e; split_and!; [done|done|by apply He]].
      constructor; cbn [ob_limits ob_buf ob_entries ob_live ob_live_octets]; [lia|lia|lia|done|lia|by apply within_Forall|done].
  - destruct (queue_dead (ob_buf ob) _ Hp) as (Qd & Od & Fd). rewrite Qd. unfold contents_of. cbn [ob_buf ob_entries ob_limits]. split_and!; [|done|done|done].
    constructor; cbn [ob_limits ob_buf ob_entries ob_live ob_live_octets]; [by rewrite Il, Fd|by rewrite Io, Od|cbn; lia|done|done|by intros ? ?|by intros ? ? ? ? ?].
Qed.
Lemma kill_loop_spec dead : forall entries n o, length (filter live entries) <= n -> octets_of entries <= o ->
  let '(entries', n', o') := kill_loop dead entries n o in
  entries' = (fun e => if en_live e && dead e then killed e else e) <$> entries /\
  n' + length (filter live entries) = n + length (filter live entries') /\ o' + octets_of entries = o + octets_of entries'.
Proof.
  induction entries as [|e entries IH]; intros n o Hn Ho; [by cbn|]. cbn [kill_loop]. unfold octets_of in *. rewrite filter_cons in Hn, Ho.
  destruct (decide (live e)) as [Hl|Hl]; [assert (El : en_live e = true) by done|assert (El : en_live e = false) by (by apply not_true_is_false)]; rewrite El; cbn [andb]; cbn [length fmap list_fmap total] in Hn, Ho.
  - destruct (dead e) eqn:Ed.
    + specialize (IH (n - 1) (o - en_len e) ltac:(lia) ltac:(lia)). destruct (kill_loop dead entries _ _) as [[es n'] o']. destruct IH as (-> & H1 & H2). cbn [fmap list_fmap]. rewrite El, Ed. cbn [andb].
      rewrite !filter_cons, (decide_True (P := live e)), (decide_False (P := live (killed e))) by done. cbn [length fmap list_fmap total]. split_and!; [done|lia|lia].
    + specialize (IH n o ltac:(lia) ltac:(lia)). destruct (kill_loop dead entries _ _) as [[es n'] o']. destruct IH as (-> & H1 & H2). cbn [fmap list_fmap]. rewrite El, Ed. cbn [andb].
      rewrite !filter_cons, !(decide_True (P := live e)) by done. cbn [length fmap list_fmap total]. split_and!; [done|lia|lia].
  - specialize (IH n o ltac:(lia) ltac:(lia)). destruct (kill_loop dead entries _ _) as [[es n'] o']. destruct IH as (-> & H1 & H2). cbn [fmap list_fmap]. rewrite El. cbn [andb].
    rewrite !filter_cons, !(decide_False (P := live e)) by done. split_and!; [done|lia|lia].
Qed.
(** Which notifications a caller names: by the entry's own fields. *)
Definition dead_entry (p : Token -> Key -> Dest -> bool -> bool) (e : Entry) : bool := p (en_token e) (en_key e) (en_to e) (en_confirmed e).
Definition dead_notice (p : Token -> Key -> Dest -> bool -> bool) (n : Notice) : bool := p (no_token n) (no_key n) (no_to n) (no_confirmed n).
Lemma kill_queue buf p entries :
  queue_of buf ((fun e => if en_live e && dead_entry p e then killed e else e) <$> entries) = filter (fun n => dead_notice p n = false) (queue_of buf entries).
Proof.
  unfold queue_of. induction entries as [|e entries IH]; [done|]. cbn [fmap list_fmap]. rewrite (filter_cons live e). destruct (decide (live e)) as [Hl|Hl].
  - rewrite (Hl : en_live e = true). cbn [andb fmap list_fmap]. change (dead_entry p e) with (dead_notice p (notice buf e)). destruct (dead_notice p (notice buf e)) eqn:Ed.
    + rewrite filter_cons_False by done. rewrite filter_cons_False by (by rewrite Ed). exact IH.
    + rewrite filter_cons_True by done. rewrite filter_cons_True by done. cbn [fmap list_fmap]. by f_equal.
  - rewrite (not_true_is_false _ Hl). cbn [andb]. by rewrite filter_cons_False by done.
Qed.
Lemma kill_refines ob p : inv ob -> inv (kill ob (dead_entry p)) /\ ob_limits (kill ob (dead_entry p)) = ob_limits ob /\
  contents_of (kill ob (dead_entry p)) = filter (fun n => dead_notice p n = false) (contents_of ob).
Proof.
  intros [Il Io Ie Ib If Iw Is]. unfold kill, contents_of. pose proof (kill_loop_spec (dead_entry p) (ob_entries ob) (ob_live ob) (ob_live_octets ob) ltac:(lia) ltac:(lia)) as Hk.
  destruct (kill_loop _ _ _ _) as [[es n] o]. destruct Hk as (-> & H1 & H2). cbn [ob_limits ob_buf ob_entries]. split_and!; [|done|apply kill_queue].
  set (f := fun e => if en_live e && dead_entry p e then killed e else e) in *.
  assert (Hf : forall e, live (f e) -> f e = e) by (intros e; unfold f; destruct (_ && _); done).
  assert (Ho : octets_of (f <$> ob_entries ob) <= octets_of (ob_entries ob)).
  { clear - Hf. unfold octets_of. induction (ob_entries ob) as [|e l IH]; [cbn; lia|]. cbn [fmap list_fmap]. rewrite !filter_cons. case_decide as H1.
    { assert (live e) as Hle by (rewrite <-(Hf e H1); exact H1). rewrite (decide_True (P := live e)) by exact Hle. cbn [fmap list_fmap total]. rewrite (Hf e H1). lia. }
    case_decide; cbn; lia. }
  constructor; cbn [ob_limits ob_buf ob_entries ob_live ob_live_octets]; [lia|lia|by rewrite length_fmap|done|lia| |].
  - intros i e Hi Hl. rewrite list_lookup_fmap in Hi. destruct (ob_entries ob !! i) as [e0|] eqn:E; [|done]. injection Hi as <-. pose proof (Hf e0 Hl) as E0. rewrite E0 in Hl |- *. by apply (Iw i).
  - intros i j e g Hij Hi Hj Hle Hlg. rewrite list_lookup_fmap in Hi, Hj. destruct (ob_entries ob !! i) as [e0|] eqn:E; [|done]. destruct (ob_entries ob !! j) as [g0|] eqn:G; [|done].
    injection Hi as <-. injection Hj as <-. pose proof (Hf e0 Hle) as E0. pose proof (Hf g0 Hlg) as G0. rewrite E0 in Hle |- *. rewrite G0 in Hlg |- *. by apply (Is i j).
Qed.

(** ** Every sequence of calls *)

Inductive Call :=
| CallPush (token : Token) (key : Key) (to : Dest) (confirmed : bool) (begun : Instant) (params : bytes)
| CallPop
| CallKill (p : Token -> Key -> Dest -> bool -> bool).
Inductive Answer := AnsPushed (r : Pushed) | AnsPopped (r : option Notice) | AnsKilled.
(** What [take] is handed by a pop. *)
Definition handed (taken : Entry * bytes) : Notice :=
  let '(e, params) := taken in
  {| no_token := en_token e; no_key := en_key e; no_to := en_to e; no_confirmed := en_confirmed e; no_begun := en_begun e; no_params := params |}.
Definition call (ob : Outbox) (c : Call) : Outbox * Answer :=
  match c with
  | CallPush token key to confirmed begun params => let '(ob, r) := push ob token key to confirmed begun params in (ob, AnsPushed r)
  | CallPop => let '(ob, r) := pop ob in (ob, AnsPopped (handed <$> r))
  | CallKill p => (kill ob (dead_entry p), AnsKilled)
  end.
Definition spec_call (limits : OutboxLimits) (q : list Notice) (c : Call) : list Notice * Answer :=
  match c with
  | CallPush token key to confirmed begun params =>
      let '(q, r) := spec_push limits q {| no_token := token; no_key := key; no_to := to; no_confirmed := confirmed; no_begun := begun; no_params := params |} in
      (q, AnsPushed r)
  | CallPop => match q with [] => ([], AnsPopped None) | n :: q => (q, AnsPopped (Some n)) end
  | CallKill p => (filter (fun n => dead_notice p n = false) q, AnsKilled)
  end.
Fixpoint run {S} (f : S -> Call -> S * Answer) (s : S) (calls : list Call) : S * list Answer :=
  match calls with [] => (s, []) | c :: calls => let '(s, a) := f s c in let '(s, l) := run f s calls in (s, a :: l) end.
Lemma call_refines ob c : inv ob -> let '(ob', a) := call ob c in inv ob' /\ ob_limits ob' = ob_limits ob /\ spec_call (ob_limits ob) (contents_of ob) c = (contents_of ob', a).
Proof.
  intros Hi. destruct c as [token key to confirmed begun params| |p]; cbn [call spec_call].
  - pose proof (push_refines ob token key to confirmed begun params Hi) as Hp. destruct (push _ _ _ _ _ _ _) as [ob' r]. destruct Hp as (? & ? & Hs). cbv zeta in Hs. rewrite Hs. done.
  - pose proof (pop_refines ob Hi) as Hp. destruct (pop ob) as [ob' r]. destruct Hp as (? & ? & Hs). split_and!; [done..|]. destruct (contents_of ob) as [|n q].
    + by destruct Hs as [-> ->].
    + destruct Hs as (-> & e & -> & <- & _). done.
  - destruct (kill_refines ob p Hi) as (? & ? & ->). done.
Qed.
Lemma outbox_new_inv limits : inv (outbox_new limits).
Proof. constructor; cbn; [done|done|lia|lia|lia|by intros ? ?|by intros ? ? ? ? ?]. Qed.
Lemma inv_bounds ob : inv ob -> length (contents_of ob) <= lim_entries (ob_limits ob) /\ params_total (contents_of ob) <= lim_octets (ob_limits ob).
Proof.
  intros [Il Io Ie Ib If Iw Is]. unfold contents_of. rewrite queue_length, params_octets by (by apply within_Forall). split; [|lia].
  etransitivity; [|exact Ie]. apply length_filter.
Qed.
Lemma run_refines calls : forall ob, inv ob -> let '(ob', l) := run call ob calls in
  inv ob' /\ ob_limits ob' = ob_limits ob /\ run (spec_call (ob_limits ob)) (contents_of ob) calls = (contents_of ob', l).
Proof.
  induction calls as [|c calls IH]; intros ob Hi; cbn [run]; [done|]. pose proof (call_refines ob c Hi) as Hc. destruct (call ob c) as [ob1 a]. destruct Hc as (Hi1 & Hl1 & ->).
  specialize (IH ob1 Hi1). destruct (run call ob1 calls) as [ob2 l]. destruct IH as (? & Hl2 & Hr). rewrite <-Hl1, Hr. split_and!; [done|congruence|done].
Qed.
(** C22: over every sequence of calls on a new outbox, whatever is queued, killed, replaced and compacted, each call answers as a plain
    queue of notifications with their own parameters would; the entries and the octets stay within the limits they were allocated for,
    and every live notification's parameters are its own. *)
Theorem outbox_refines limits calls :
  let '(ob, answers) := run call (outbox_new limits) calls in
  run (spec_call limits) [] calls = (contents_of ob, answers) /\
  length (ob_entries ob) <= lim_entries limits /\ length (ob_buf ob) <= lim_octets limits /\
  length (contents_of ob) <= lim_entries limits /\ params_total (contents_of ob) <= lim_octets limits.
Proof.
  pose proof (run_refines calls (outbox_new limits) (outbox_new_inv limits)) as Hr. destruct (run call _ calls) as [ob answers]. destruct Hr as (Hi & Hl & Hs). cbn [ob_limits outbox_new] in Hl, Hs.
  destruct (inv_bounds ob Hi). destruct Hi as [Il Io Ie Ib If Iw Is]. rewrite Hl in *. by split_and!.
Qed.
(** The room an evaluation reserves is the room there is: a notification is queued exactly when reserving for it succeeds. *)
Theorem room_exact ob token key to confirmed begun params : inv ob ->
  pushed_queued (push ob token key to confirmed begun params).2 = (room_take (room ob) (length params) (if confirmed then None else queued ob key)).2.
Proof.
  intros [Il Io Ie Ib If Iw Is]. unfold push, queued. set (found := if confirmed then None else list_find (queued_for key) (ob_entries ob)).
  replace (if confirmed then None else en_len ∘ snd <$> list_find (queued_for key) (ob_entries ob)) with (en_len ∘ snd <$> found) by (unfold found; by destruct confirmed).
  assert (Hf : match found with Some (i, old) => exists l1 l2, ob_entries ob = l1 ++ old :: l2 /\ live old | None => True end).
  { unfold found. destruct confirmed; [done|]. destruct (list_find _ _) as [[i old]|] eqn:E; [|done]. apply list_find_split in E as (l1 & l2 & -> & _ & _ & (Hl & _)). by exists l1, l2. }
  clearbody found. destruct found as [[i old]|]; cbn [fmap option_fmap option_map compose snd].
  - destruct Hf as (l1 & l2 & E & Hl). rewrite E in *. destruct (live_split l1 old l2 Hl) as [HL HO]. assert (ob_live ob <= lim_entries (ob_limits ob)) as Hle by (rewrite Il; etransitivity; [apply length_filter|done]).
    unfold room_take, room. cbn [room_octets]. rewrite bool_decide_eq_true_2 by lia. cbn [andb].
    destruct (bool_decide (_ <= _)) eqn:Eb; cbn [negb]; [apply bool_decide_eq_true in Eb|apply bool_decide_eq_false in Eb; by rewrite decide_True by lia].
    match goal with |- context [if ?d then compact ?a ?b else ?c] => destruct (if d then compact a b else c) end. by rewrite decide_False by lia.
  - unfold room_take, room. cbn [room_entries room_octets]. destruct (bool_decide (ob_live ob < _)) eqn:E1; cbn [andb]; [apply bool_decide_eq_true in E1|apply bool_decide_eq_false in E1].
    + rewrite (decide_False (P := lim_entries (ob_limits ob) - ob_live ob = 0)) by lia. destruct (bool_decide (_ <= _)) eqn:Eb; cbn [negb]; [apply bool_decide_eq_true in Eb|apply bool_decide_eq_false in Eb; by rewrite decide_True by lia].
      match goal with |- context [if ?d then compact ?a ?b else ?c] => destruct (if d then compact a b else c) end. by rewrite decide_False by lia.
    + cbn [negb]. by rewrite (decide_True (P := lim_entries (ob_limits ob) - ob_live ob = 0)) by lia.
Qed.
End Outbox.

Lemma room_exact_witness :
  let ob := (push (outbox_new (Token := nat) (Key := nat) (Dest := nat) {| lim_entries := 2; lim_octets := 4 |}) 1 7 0 false 0%Z [1; 2; 3]%Z).1 in
  pushed_queued (push ob 2 7 0 false 0%Z [4; 5; 6; 7]%Z).2 = (room_take (room ob) 4 (queued ob 7)).2 /\ pushed_queued (push ob 3 8 0 true 0%Z [4; 5]%Z).2 = false.
Proof.
  intros ob. split; [|reflexivity]. refine (room_exact ob 2 7 0 false 0%Z [4; 5; 6; 7]%Z _).
  pose proof (push_refines (outbox_new (Token := nat) (Key := nat) (Dest := nat) {| lim_entries := 2; lim_octets := 4 |}) 1 7 0 false 0%Z [1; 2; 3]%Z (outbox_new_inv _)) as Hp.
  unfold ob. destruct (push _ _ _ _ _ _ _) as [ob1 r]. exact (proj1 Hp).
Defined.
