(* ===== verification/Address.v ===== *)
(** * Addresses on a network (bacnet-encoding npdu.rs)

    A network number and a MAC on that network, as a routed message names its source or its destination. *)

From S2P Require Import Prelude.

(** [NpduAddress] (bacnet-encoding/src/npdu.rs) *)
Record NpduAddress := { na_network : Z; na_mac : bytes }.
#[export] Instance NpduAddress_eq : EqDecision NpduAddress.
Proof. solve_decision. Defined.
