(* ===== verification/SortedVec.v ===== *)
(** * Vectors kept sorted by a key (bacnet-device-core cov/vec_map.rs, cov/table.rs)

    The COV table keeps its entries and its small maps each in one vector sorted by key, read by the standard library's binary search. The order
    of keys is the class [Ordered]: the derived order of the key types is put together from its instances. On a sorted vector the
    operations are those of a finite map. *)

From Stdlib Require Import Sorting.Sorted.
From S2P Require Import Prelude.
Open Scope nat_scope.

(** ** Total orders *)

(** [Ord]: a comparison that is [Equal] only on equal values, and the laws of a total order. *)
Class Ordered (K : Type) := {
  compare : K -> K -> comparison;
  compare_eq : forall a b, compare a b = Eq <-> a = b;
  compare_flip : forall a b, compare b a = CompOpp (compare a b);
  compare_lt_trans : forall a b c, compare a b = Lt -> compare b c = Lt -> compare a c = Lt
}.
(** [Ordering::then_with] *)
Definition then_with (c d : comparison) : comparison := match c with Eq => d | c => c end.

#[export] Instance Ordered_Z : Ordered Z.
Proof.
  refine {| compare := Z.compare |}. apply Z.compare_eq_iff. intros a b. apply Z.compare_antisym. intros a b c. rewrite !Z.compare_lt_iff. lia. Defined.
Definition compare_bool (a b : bool) : comparison := match a, b with false, true => Lt | true, false => Gt | _, _ => Eq end.
#[export] Instance Ordered_bool : Ordered bool.
Proof.
  refine {| compare := compare_bool |}. by intros [] []. by intros [] []. by intros [] [] []. Defined.
Definition compare_option {A} `{Ordered A} (a b : option A) : comparison :=
  match a, b with None, None => Eq | None, Some _ => Lt | Some _, None => Gt | Some a, Some b => compare a b end.
#[export] Instance Ordered_option {A} `{Ordered A} : Ordered (option A).
Proof.
  refine {| compare := compare_option |}.
  - intros [a|] [b|]; cbn; try done. rewrite compare_eq. naive_solver.
  - intros [a|] [b|]; cbn; try done. apply compare_flip.
  - intros [a|] [b|] [c|]; cbn; try done. apply compare_lt_trans.
Defined.
Definition compare_prod {A B} `{Ordered A} `{Ordered B} (a b : A * B) : comparison := then_with (compare a.1 b.1) (compare a.2 b.2).
#[export] Instance Ordered_prod {A B} `{Ordered A} `{Ordered B} : Ordered (A * B).
Proof.
  refine {| compare := compare_prod |}.
  - intros [a1 a2] [b1 b2]. unfold compare_prod. cbn. destruct (compare a1 b1) eqn:E; cbn; [apply compare_eq in E as ->; rewrite compare_eq; naive_solver| |];
      (split; [done|]; intros [= -> ->]; rewrite (proj2 (compare_eq b1 b1) eq_refl) in E; done).
  - intros [a1 a2] [b1 b2]. unfold compare_prod. cbn. rewrite (compare_flip a1 b1). destruct (compare a1 b1); cbn; [apply compare_flip|done..].
  - intros [a1 a2] [b1 b2] [c1 c2]. unfold compare_prod. cbn. destruct (compare a1 b1) eqn:E1; [|destruct (compare b1 c1) eqn:E2|]; cbn; try done.
    + apply compare_eq in E1 as ->. destruct (compare b1 c1); cbn; [apply compare_lt_trans|done..].
    + apply compare_eq in E2 as ->. by rewrite E1.
    + by rewrite (compare_lt_trans _ _ _ E1 E2).
Defined.
(** [slice::cmp]: the first octet that differs, then the length. *)
Fixpoint compare_list {A} `{Ordered A} (a b : list A) : comparison :=
  match a, b with
  | [], [] => Eq
  | [], _ :: _ => Lt
  | _ :: _, [] => Gt
  | x :: a, y :: b => then_with (compare x y) (compare_list a b)
  end.
#[export] Instance Ordered_list {A} `{Ordered A} : Ordered (list A).
Proof.
  refine {| compare := compare_list |}.
  - induction a as [|x a IH]; intros [|y b]; cbn; try done. destruct (compare x y) eqn:E; cbn; [apply compare_eq in E as ->; rewrite IH; naive_solver| |];
      (split; [done|]; intros [= -> ->]; rewrite (proj2 (compare_eq y y) eq_refl) in E; done).
  - induction a as [|x a IH]; intros [|y b]; cbn; try done. rewrite (compare_flip x y). destruct (compare x y); cbn; [apply IH|done..].
  - induction a as [|x a IH]; intros [|y b] [|z c]; cbn; try done. destruct (compare x y) eqn:E1; [|destruct (compare y z) eqn:E2|]; cbn; try done.
    + apply compare_eq in E1 as ->. destruct (compare y z); cbn; [apply IH|done..].
    + apply compare_eq in E2 as ->. by rewrite E1.
    + by rewrite (compare_lt_trans _ _ _ E1 E2).
Defined.
(** An order read off an injective view. *)
Definition ordered_by {A B} `{Ordered B} (f : A -> B) (Hf : forall a b, f a = f b -> a = b) : Ordered A.
Proof.
  refine {| compare a b := compare (f a) (f b) |}.
  - intros a b. rewrite compare_eq. split; [apply Hf|by intros ->].
  - intros a b. apply compare_flip.
  - intros a b c. apply compare_lt_trans.
Defined.

Section Order.
Context {K : Type} `{Ordered K}.
Lemma compare_refl a : compare a a = Eq.
Proof. by apply compare_eq. Qed.
Lemma compare_gt a b : compare a b = Gt <-> compare b a = Lt.
Proof. rewrite (compare_flip a b). destruct (compare a b); naive_solver. Qed.
End Order.

(** ** The vector *)

Section Vec.
Context {T K : Type} `{Ordered K} (key : T -> K).
Implicit Types (l : list T).

(** The loop of [slice::binary_search_by]: [size] rows from [base] are left. *)
Fixpoint search_by (fuel : nat) l (k : K) (base size : nat) : nat :=
  match fuel with
  | O => base
  | S fuel =>
      if bool_decide (1 < size) then
        let half := size / 2 in
        let mid := base + half in
        let base := match l !! mid with Some x => match compare (key x) k with Gt => base | _ => mid end | None => base end in
        search_by fuel l k base (size - half)
      else base
  end.
(** [VecMap::find] (bacnet-device-core/src/cov/vec_map.rs) *)
Definition vec_find l (k : K) : Result nat nat :=
  match l with
  | [] => Err 0
  | _ =>
      let base := search_by (length l) l k 0 (length l) in
      match l !! base with
      | Some x => match compare (key x) k with Eq => Ok base | Lt => Err (S base) | Gt => Err base end
      | None => Err base
      end
  end.
(** [VecMap::get] (bacnet-device-core/src/cov/vec_map.rs) *)
Definition vec_get l (k : K) : option T := match vec_find l k with Ok i => l !! i | Err _ => None end.
(** [VecMap::get_mut] (bacnet-device-core/src/cov/vec_map.rs) *)
Definition vec_modify l (k : K) (f : T -> T) : list T := match vec_find l k with Ok i => alter f i l | Err _ => l end.
(** [Vec::insert] *)
Definition insert_at (i : nat) (x : T) l : list T := take i l ++ x :: drop i l.
(** [Entries::insert] (bacnet-device-core/src/cov/table.rs:83-94) *)
Definition vec_insert l (x : T) : list T * option T :=
  match vec_find l (key x) with Ok i => (<[i := x]> l, l !! i) | Err i => (insert_at i x l, None) end.
(** [VecMap::or_default] (bacnet-device-core/src/cov/vec_map.rs) *)
Definition vec_or_default l (k : K) (d : T) (f : T -> T) : list T :=
  match vec_find l k with Ok i => alter f i l | Err i => alter f i (insert_at i d l) end.
(** [VecMap::remove] (bacnet-device-core/src/cov/vec_map.rs) *)
Definition vec_remove l (k : K) : list T * option T :=
  match vec_find l k with Ok i => (delete i l, l !! i) | Err _ => (l, None) end.

(** ** On sorted vectors *)

Definition below (x y : T) : Prop := compare (key x) (key y) = Lt.
Definition vec_sorted l : Prop := StronglySorted below l.
Lemma vec_sorted_app l1 l2 : vec_sorted (l1 ++ l2) <-> vec_sorted l1 /\ vec_sorted l2 /\ (forall x y, x ∈ l1 -> y ∈ l2 -> below x y).
Proof.
  unfold vec_sorted. induction l1 as [|a l1 IH]; cbn [app].
  { split; [intros Hs; split_and!; [constructor|done|by intros x y ?%not_elem_of_nil]|by intros (_ & ? & _)]. }
  split.
  - intros [Hs Ha]%StronglySorted_inv. apply IH in Hs as (H1 & H2 & H12). apply Forall_app in Ha as [Ha1 Ha2]. rewrite Forall_forall in Ha2.
    split_and!; [by constructor|done|]. intros x y [->|Hx]%elem_of_cons Hy; [by apply Ha2|by apply H12].
  - intros ([H1 Ha]%StronglySorted_inv & H2 & H12). constructor.
    + apply IH. split_and!; [done..|]. intros x y Hx. apply H12. by apply elem_of_cons; right.
    + apply Forall_app. split; [done|]. apply Forall_forall. intros y. apply H12. apply elem_of_cons. by left.
Qed.
Lemma vec_sorted_lookup l i j x y : vec_sorted l -> l !! i = Some x -> l !! j = Some y -> i < j -> below x y.
Proof.
  intros Hs Hx Hy Hij. rewrite <-(take_drop j l) in Hs. apply vec_sorted_app in Hs as (_ & _ & Hb). apply Hb.
  - apply elem_of_take. by exists i.
  - apply (list_elem_of_lookup_2 _ 0). by rewrite lookup_drop, Nat.add_0_r.
Qed.
Lemma search_by_spec l k : vec_sorted l -> forall fuel base size, size <= S fuel -> 0 < size -> base + size <= length l ->
  (forall j x, l !! j = Some x -> base + size <= j -> compare (key x) k = Gt) -> (forall j x, l !! j = Some x -> j < base -> compare (key x) k = Lt) ->
  let b := search_by fuel l k base size in
  b < length l /\ (forall j x, l !! j = Some x -> b < j -> compare (key x) k = Gt) /\ (forall j x, l !! j = Some x -> j < b -> compare (key x) k = Lt).
Proof.
  intros Hs. induction fuel as [|fuel IH]; intros base size Hf Hpos Hlen Hhi Hlo; cbn [search_by].
  { split_and!; [lia| |done]. intros j x Hj Hb. apply (Hhi j); [done|lia]. }
  case_bool_decide as H1; [|split_and!; [lia| |done]; intros j x Hj Hb; apply (Hhi j); [done|lia]].
  assert (Hh : 0 < size / 2 < size) by (split; [apply Nat.div_str_pos; lia|apply Nat.div_lt; lia]).
  assert (Hh2 : size / 2 <= size - size / 2) by (pose proof (Nat.div_mod_eq size 2); lia).
  destruct (lookup_lt_is_Some_2 l (base + size / 2)) as [x Hx]; [lia|]. rewrite Hx.
  destruct (compare (key x) k) eqn:Hk; apply IH; try lia; try done.
  - intros j y Hj Hle. apply (Hhi j); [done|lia].
  - intros j y Hj Hlt. pose proof (vec_sorted_lookup _ _ _ _ _ Hs Hj Hx Hlt) as Hb. apply compare_eq in Hk. unfold below in Hb. by rewrite Hk in Hb.
  - intros j y Hj Hle. apply (Hhi j); [done|lia].
  - intros j y Hj Hlt. pose proof (vec_sorted_lookup _ _ _ _ _ Hs Hj Hx Hlt) as Hb. by eapply compare_lt_trans.
  - intros j y Hj Hle. destruct (decide (j = base + size / 2)) as [->|Hne]; [congruence|].
    pose proof (vec_sorted_lookup _ _ _ _ _ Hs Hx Hj ltac:(lia)) as Hb. apply compare_gt. apply compare_gt in Hk. by eapply compare_lt_trans.
Qed.
(** The search finds the row with the key, or splits the rows around its place. *)
Lemma vec_find_spec l k : vec_sorted l ->
  match vec_find l k with
  | Ok i => exists x, l = take i l ++ x :: drop (S i) l /\ l !! i = Some x /\ key x = k
  | Err i => i <= length l /\ (forall x, x ∈ take i l -> compare (key x) k = Lt) /\ (forall x, x ∈ drop i l -> compare (key x) k = Gt)
  end.
Proof.
  intros Hs. unfold vec_find. destruct l as [|a l'].
  { cbn. split_and!; [lia|..]; intros x; by rewrite ?take_nil, ?drop_nil; intros ?%not_elem_of_nil. }
  set (l := a :: l') in *.
  destruct (search_by_spec l k Hs (length l) 0 (length l)) as (Hb & Hhi & Hlo); [lia|cbn; lia|done|..].
  { intros j x Hj%lookup_lt_Some. lia. }
  { lia. }
  set (b := search_by _ _ _ _ _) in *. destruct (lookup_lt_is_Some_2 l b Hb) as [x Hx]. rewrite Hx.
  assert (Hsplit : forall i, (i = b /\ compare (key x) k = Gt \/ i = S b /\ compare (key x) k = Lt) ->
    i <= length l /\ (forall x, x ∈ take i l -> compare (key x) k = Lt) /\ (forall x, x ∈ drop i l -> compare (key x) k = Gt)).
  { intros i Hi. split_and!; [lia|..].
    - intros y (j & Hj & Hlt)%elem_of_take. destruct (decide (j = b)) as [->|]; [|apply (Hlo j); [done|lia]]. replace y with x by congruence. naive_solver lia.
    - intros y (j & Hj)%list_elem_of_lookup. rewrite lookup_drop in Hj. destruct (decide (i + j = b)) as [E|]; [|apply (Hhi (i + j)); [done|lia]].
      rewrite E in Hj. replace y with x by congruence. naive_solver lia. }
  destruct (compare (key x) k) eqn:E; [|apply Hsplit; by right|apply Hsplit; by left]. exists x. apply compare_eq in E. split_and!; [by rewrite take_drop_middle|done|done].
Qed.
Lemma vec_sorted_unique l x y : vec_sorted l -> x ∈ l -> y ∈ l -> key x = key y -> x = y.
Proof.
  intros Hs [i Hi]%list_elem_of_lookup [j Hj]%list_elem_of_lookup E. destruct (Nat.lt_total i j) as [Hlt|[->|Hlt]]; [|congruence|];
    [pose proof (vec_sorted_lookup _ _ _ _ _ Hs Hi Hj Hlt) as Hb|pose proof (vec_sorted_lookup _ _ _ _ _ Hs Hj Hi Hlt) as Hb]; unfold below in Hb; by rewrite E, compare_refl in Hb.
Qed.
Lemma vec_get_iff l k x : vec_sorted l -> vec_get l k = Some x <-> x ∈ l /\ key x = k.
Proof.
  intros Hs. unfold vec_get. pose proof (vec_find_spec l k Hs) as Hf. destruct (vec_find l k) as [i|i].
  - destruct Hf as (y & _ & Hi & Hk). rewrite Hi. split.
    + intros [= ->]. split; [by eapply list_elem_of_lookup_2|done].
    + intros [Hx Hkx]. f_equal. apply (vec_sorted_unique l); [done|by eapply list_elem_of_lookup_2|done|congruence].
  - destruct Hf as (_ & Hlo & Hhi). split; [done|]. intros [Hx <-]. rewrite <-(take_drop i l) in Hx. apply elem_of_app in Hx as [Hx|Hx];
      [pose proof (Hlo _ Hx) as Hc|pose proof (Hhi _ Hx) as Hc]; by rewrite compare_refl in Hc.
Qed.
Lemma vec_get_none l k : vec_sorted l -> vec_get l k = None <-> forall x, x ∈ l -> key x <> k.
Proof.
  intros Hs. split.
  - intros Hn x Hx Hk. assert (vec_get l k = Some x) by (by apply vec_get_iff). congruence.
  - intros Hn. destruct (vec_get l k) as [x|] eqn:E; [|done]. apply vec_get_iff in E as [Hx Hk]; [|done]. by destruct (Hn x Hx).
Qed.
(** Replacing a row by one with its key. *)
Lemma sorted_replace l1 x y l2 : vec_sorted (l1 ++ x :: l2) -> key y = key x -> vec_sorted (l1 ++ y :: l2).
Proof.
  intros (S1 & [S2 Hx]%StronglySorted_inv & S12)%vec_sorted_app E. apply vec_sorted_app. unfold below in *. rewrite Forall_forall in Hx. split_and!; [done| |].
  - constructor; [done|]. apply Forall_forall. intros z Hz. unfold below. rewrite E. by apply Hx.
  - intros a b Ha [->|Hb]%elem_of_cons; [rewrite E; apply S12; [done|apply elem_of_cons; by left]|apply S12; [done|apply elem_of_cons; by right]].
Qed.
Lemma insert_at_middle (l1 : list T) x y l2 : <[length l1 := y]> (l1 ++ x :: l2) = l1 ++ y :: l2.
Proof. induction l1 as [|z l1 IH]; [done|]. cbn. by f_equal. Qed.
Lemma alter_at_middle (l1 : list T) x l2 f : alter f (length l1) (l1 ++ x :: l2) = l1 ++ f x :: l2.
Proof. induction l1 as [|z l1 IH]; [done|]. cbn. by f_equal. Qed.
(** Where a key is, or where it goes, as a split of the vector. *)
Lemma vec_split l k : vec_sorted l ->
  match vec_find l k with
  | Ok i => exists l1 x l2, l = l1 ++ x :: l2 /\ i = length l1 /\ key x = k /\ vec_get l k = Some x
  | Err i => exists l1 l2, l = l1 ++ l2 /\ i = length l1 /\ (forall x, x ∈ l1 -> compare (key x) k = Lt) /\ (forall x, x ∈ l2 -> compare (key x) k = Gt) /\ vec_get l k = None
  end.
Proof.
  intros Hs. unfold vec_get. pose proof (vec_find_spec l k Hs) as Hf. destruct (vec_find l k) as [i|i].
  - destruct Hf as (x & E & Hi & Hk). exists (take i l), x, (drop (S i) l). split_and!; [done|rewrite length_take; apply lookup_lt_Some in Hi; lia|done|done].
  - destruct Hf as (Hi & Hlo & Hhi). exists (take i l), (drop i l). split_and!; [by rewrite take_drop|rewrite length_take; lia|done|done|done].
Qed.
Lemma sorted_insert l1 x l2 : vec_sorted (l1 ++ l2) -> (forall y, y ∈ l1 -> compare (key y) (key x) = Lt) -> (forall y, y ∈ l2 -> compare (key y) (key x) = Gt) -> vec_sorted (l1 ++ x :: l2).
Proof.
  intros (S1 & S2 & S12)%vec_sorted_app Hlo Hhi. apply vec_sorted_app. unfold below in *. split_and!; [done| |].
  - constructor; [done|]. apply Forall_forall. intros y Hy. unfold below. apply compare_gt. by apply Hhi.
  - intros a b Ha [->|Hb]%elem_of_cons; [by apply Hlo|by apply S12].
Qed.
Lemma vec_insert_spec l x : vec_sorted l ->
  let '(l', old) := vec_insert l x in
  vec_sorted l' /\ old = vec_get l (key x) /\
  match old with Some y => key y = key x /\ exists r, l ≡ₚ y :: r /\ l' ≡ₚ x :: r | None => l' ≡ₚ x :: l end.
Proof.
  intros Hs. unfold vec_insert. pose proof (vec_split l (key x) Hs) as Hf. destruct (vec_find l (key x)) as [i|i].
  - destruct Hf as (l1 & y & l2 & -> & -> & Hk & Hg). rewrite list_lookup_middle by done. rewrite insert_at_middle. split_and!; [by eapply sorted_replace|by rewrite Hg|done|].
    exists (l1 ++ l2). split; symmetry; apply Permutation_middle.
  - destruct Hf as (l1 & l2 & -> & -> & Hlo & Hhi & Hg). unfold insert_at. rewrite take_app_length, drop_app_length. split_and!; [by apply sorted_insert|by rewrite Hg|]. symmetry. apply Permutation_middle.
Qed.
Lemma vec_remove_spec l k : vec_sorted l ->
  let '(l', old) := vec_remove l k in
  vec_sorted l' /\ old = vec_get l k /\ match old with Some y => key y = k /\ l ≡ₚ y :: l' | None => l' = l end.
Proof.
  intros Hs. unfold vec_remove. pose proof (vec_split l k Hs) as Hf. destruct (vec_find l k) as [i|i].
  - destruct Hf as (l1 & y & l2 & -> & -> & Hk & Hg). rewrite list_lookup_middle by done. rewrite delete_middle. split_and!; [|by rewrite Hg|done|symmetry; apply Permutation_middle].
    apply vec_sorted_app in Hs as (S1 & [S2 _]%StronglySorted_inv & S12). apply vec_sorted_app. split_and!; [done|done|]. intros a b Ha Hb. apply S12; [done|]. apply elem_of_cons. by right.
  - destruct Hf as (l1 & l2 & -> & -> & Hlo & Hhi & Hg). by rewrite Hg.
Qed.
Lemma vec_modify_spec l k f : vec_sorted l -> (forall x, key x = k -> key (f x) = k) ->
  vec_sorted (vec_modify l k f) /\ match vec_get l k with Some x => exists r, l ≡ₚ x :: r /\ vec_modify l k f ≡ₚ f x :: r | None => vec_modify l k f = l end.
Proof.
  intros Hs Hk. unfold vec_modify. pose proof (vec_split l k Hs) as Hf. destruct (vec_find l k) as [i|i].
  - destruct Hf as (l1 & y & l2 & -> & -> & Hy & ->). rewrite alter_at_middle. split; [eapply sorted_replace; [done|]; rewrite Hk by done; done|].
    exists (l1 ++ l2). split; symmetry; apply Permutation_middle.
  - by destruct Hf as (l1 & l2 & -> & -> & Hlo & Hhi & ->).
Qed.
Lemma vec_or_default_spec l k d f : vec_sorted l -> key d = k -> (forall x, key x = k -> key (f x) = k) ->
  vec_sorted (vec_or_default l k d f) /\
  match vec_get l k with Some x => exists r, l ≡ₚ x :: r /\ vec_or_default l k d f ≡ₚ f x :: r | None => vec_or_default l k d f ≡ₚ f d :: l end.
Proof.
  intros Hs Hd Hk. unfold vec_or_default. pose proof (vec_split l k Hs) as Hf. destruct (vec_find l k) as [i|i].
  - destruct Hf as (l1 & y & l2 & -> & -> & Hy & ->). rewrite alter_at_middle. split; [eapply sorted_replace; [done|]; rewrite Hk by done; done|].
    exists (l1 ++ l2). split; symmetry; apply Permutation_middle.
  - destruct Hf as (l1 & l2 & -> & -> & Hlo & Hhi & ->). unfold insert_at. rewrite take_app_length, drop_app_length, alter_at_middle. split; [|symmetry; apply Permutation_middle].
    apply sorted_insert; [done|rewrite Hk by done; done|rewrite Hk by done; done].
Qed.
(** Reading after each operation: the laws of a map. *)
Lemma vec_sorted_nodup l : vec_sorted l -> NoDup l.
Proof.
  induction l as [|a l IH]; [constructor|]. intros [Hs Ha]%StronglySorted_inv. constructor; [|by apply IH]. rewrite Forall_forall in Ha. intros Hin.
  specialize (Ha a Hin). unfold below in Ha. by rewrite compare_refl in Ha.
Qed.
(** A row taken out of a sorted vector leaves no other with its key. *)
Lemma rest_other l x r y : vec_sorted l -> l ≡ₚ x :: r -> y ∈ r -> key y <> key x.
Proof.
  intros Hs Hp Hy E. assert (y = x) as ->. { apply (vec_sorted_unique l); [done|rewrite Hp; apply elem_of_cons; by right|rewrite Hp; apply elem_of_cons; by left|done]. }
  pose proof (vec_sorted_nodup l Hs) as Hnd. rewrite Hp in Hnd. by apply NoDup_cons in Hnd as [Hnd _].
Qed.
Context `{EqDecision K}.
Lemma get_swapped l l' x y r k : vec_sorted l -> vec_sorted l' -> l ≡ₚ x :: r -> l' ≡ₚ y :: r -> key y = key x ->
  vec_get l' k = if decide (k = key x) then Some y else vec_get l k.
Proof.
  intros Hs Hs' Hp Hp' Hk. apply option_eq. intros z. rewrite vec_get_iff by done. case_decide as E.
  - subst k. rewrite Hp', elem_of_cons. split; [intros [[->|Hz] Hkz]; [done|by destruct (rest_other _ _ _ _ Hs Hp Hz)]|intros [= ->]; split; [by left|done]].
  - rewrite vec_get_iff, Hp, Hp', !elem_of_cons by done. naive_solver congruence.
Qed.
Lemma get_added l l' y k : vec_sorted l -> vec_sorted l' -> l' ≡ₚ y :: l -> vec_get l' k = if decide (k = key y) then Some y else vec_get l k.
Proof.
  intros Hs Hs' Hp. apply option_eq. intros z. rewrite vec_get_iff by done. case_decide as E.
  - subst k. rewrite Hp, elem_of_cons. split; [intros [[->|Hz] Hkz]; [done|by destruct (rest_other _ _ _ _ Hs' Hp Hz)]|intros [= ->]; split; [by left|done]].
  - rewrite vec_get_iff, Hp, elem_of_cons by done. naive_solver congruence.
Qed.
Lemma get_removed l l' x k : vec_sorted l -> vec_sorted l' -> l ≡ₚ x :: l' -> vec_get l' k = if decide (k = key x) then None else vec_get l k.
Proof.
  intros Hs Hs' Hp. apply option_eq. intros z. rewrite vec_get_iff by done. case_decide as E.
  - split; [|done]. intros [Hz Hkz]. subst k. by destruct (rest_other _ _ _ _ Hs Hp Hz).
  - rewrite vec_get_iff, Hp, elem_of_cons by done. naive_solver congruence.
Qed.
Lemma vec_get_insert l x k : vec_sorted l -> vec_get (vec_insert l x).1 k = if decide (k = key x) then Some x else vec_get l k.
Proof.
  intros Hs. pose proof (vec_insert_spec l x Hs) as Hi. destruct (vec_insert l x) as [l' old]. destruct Hi as (Hs' & Hold & Hp). cbn [fst]. destruct old as [z|].
  - destruct Hp as (Hz & r & P1 & P2). rewrite <-Hz. by eapply get_swapped.
  - by apply get_added.
Qed.
Lemma vec_get_remove l k k' : vec_sorted l -> vec_get (vec_remove l k).1 k' = if decide (k' = k) then None else vec_get l k'.
Proof.
  intros Hs. pose proof (vec_remove_spec l k Hs) as Hi. destruct (vec_remove l k) as [l' old]. destruct Hi as (Hs' & Hold & Hp). cbn [fst]. destruct old as [z|].
  - destruct Hp as [<- P]. by apply get_removed.
  - subst l'. case_decide; [subst; done|done].
Qed.
Lemma vec_get_modify l k k' f : vec_sorted l -> (forall x, key x = k -> key (f x) = k) -> vec_get (vec_modify l k f) k' = if decide (k' = k) then f <$> vec_get l k else vec_get l k'.
Proof.
  intros Hs Hk. destruct (vec_modify_spec l k f Hs Hk) as [Hs' Hp]. destruct (vec_get l k) as [x|] eqn:E.
  - destruct Hp as (r & P1 & P2). apply vec_get_iff in E as [_ E]; [|done]. rewrite (get_swapped l _ x (f x) r k' Hs Hs' P1 P2) by (rewrite E; by apply Hk). rewrite E. done.
  - rewrite Hp. case_decide; [by subst|done].
Qed.
Lemma vec_get_or_default l k k' d f : vec_sorted l -> key d = k -> (forall x, key x = k -> key (f x) = k) ->
  vec_get (vec_or_default l k d f) k' = if decide (k' = k) then Some (f (default d (vec_get l k))) else vec_get l k'.
Proof.
  intros Hs Hd Hk. destruct (vec_or_default_spec l k d f Hs Hd Hk) as [Hs' Hp]. destruct (vec_get l k) as [x|] eqn:E.
  - destruct Hp as (r & P1 & P2). apply vec_get_iff in E as [_ E]; [|done]. rewrite (get_swapped l _ x (f x) r k' Hs Hs' P1 P2) by (rewrite E; by apply Hk). rewrite E. done.
  - rewrite (get_added l _ (f d) k' Hs Hs' Hp). by rewrite (Hk d Hd).
Qed.
End Vec.
