(* ===== verification/CovTable.v ===== *)
(** * The table of COV subscriptions (bacnet-device-core cov/table.rs, admission.rs, flight.rs, observation_order.rs, lifetime.rs, policy.rs, identity.rs, subscription.rs)

    Change-of-value subscriptions: who subscribed to what, under which key, until when; the caps a new one meets; the confirmed reports that are
    outstanding and what they complete. The table takes no lock and reads no clock: every call that can expire something is passed the
    time. Observations are carried and stored whole, so their type is a parameter. Debug assertions are left out. *)

From Stdlib Require Import String.
From S2P Require Import Prelude Time WireError Values Address SortedVec.
Open Scope Z_scope.

(** ** Identity *)

(** [SubscriberEndpoint] (bacnet-device-core/src/cov/identity.rs) *)
Record SubscriberEndpoint := { se_mac : bytes; se_network : option NpduAddress }.
(** [CovRecipient] (bacnet-device-core/src/cov/identity.rs) *)
Inductive CovRecipient := Direct (mac : bytes) | Routed (source : NpduAddress).
(** [CovRecipient::from_endpoint] (bacnet-device-core/src/cov/identity.rs) *)
Definition recipient_from_endpoint (mac : bytes) (network : option NpduAddress) : CovRecipient :=
  match network with Some source => Routed source | None => Direct mac end.
(** The errors of the table: a malformed proposal, with the number its message carries, or a protocol error.
    [Error] (bacnet-types/src/error.rs:132-135) *)
Inductive CovError := CovEncoding (message : string) (number : nat) | CovProtocol (class code : Z).
(** [CovRecipient::validate] (bacnet-device-core/src/cov/identity.rs) *)
Definition recipient_validate (r : CovRecipient) : Result unit CovError :=
  match r with
  | Routed {| na_mac := [] |} => Err (CovEncoding "COV routed recipient requires a nonempty source MAC" 0)
  | _ =>
      let mac := match r with Direct mac => mac | Routed source => na_mac source end in
      if decide (18 < length mac)%nat then Err (CovEncoding "COV recipient MAC of {} octets exceeds the 18-octet BACnetAddress limit" (length mac)) else Ok tt
  end.
(** [MultipleContextKey] (bacnet-device-core/src/cov/identity.rs) *)
Record MultipleContextKey := { mc_recipient : CovRecipient; mc_process_id : Z; mc_confirmed : bool }.
(** [CovSubscriptionKey] (bacnet-device-core/src/cov/identity.rs) *)
Inductive CovSubscriptionKey :=
| KeyObject (recipient : CovRecipient) (process_id : Z) (object : ObjectIdentifier)
| KeyProperty (recipient : CovRecipient) (process_id : Z) (object : ObjectIdentifier) (property : Z) (index : option Z)
| KeyMultiple (context : MultipleContextKey) (object : ObjectIdentifier) (property : Z) (index : option Z).
(** [CovSubscriptionKey::object] (bacnet-device-core/src/cov/identity.rs) *)
Definition key_object (k : CovSubscriptionKey) : ObjectIdentifier :=
  match k with KeyObject _ _ object | KeyProperty _ _ object _ _ | KeyMultiple _ object _ _ => object end.
(** [CovSubscriptionKey::multiple_context] (bacnet-device-core/src/cov/identity.rs) *)
Definition multiple_context (k : CovSubscriptionKey) : option MultipleContextKey := match k with KeyMultiple context _ _ _ => Some context | _ => None end.
#[export] Instance SubscriberEndpoint_eq : EqDecision SubscriberEndpoint.
Proof. solve_decision. Defined.
#[export] Instance CovRecipient_eq : EqDecision CovRecipient.
Proof. solve_decision. Defined.
#[export] Instance MultipleContextKey_eq : EqDecision MultipleContextKey.
Proof. solve_decision. Defined.
#[export] Instance ObjectIdentifier_eq : EqDecision ObjectIdentifier.
Proof. solve_decision. Defined.
#[export] Instance CovSubscriptionKey_eq : EqDecision CovSubscriptionKey.
Proof. solve_decision. Defined.

(** The derived orders: fields in turn, variants by their place.
    [NpduAddress] (bacnet-encoding/src/npdu.rs:39-39) *)
Definition address_rank (a : NpduAddress) : Z * bytes := (na_network a, na_mac a).
(** [CovRecipient] (bacnet-device-core/src/cov/identity.rs:40-41) *)
Definition recipient_rank (r : CovRecipient) : bool * (Z * bytes) := match r with Direct mac => (false, (0, mac)) | Routed source => (true, address_rank source) end.
Definition object_rank (o : ObjectIdentifier) : Z * Z := (object_type o, instance_number o).
(** [CovSubscriptionKey::rank] (bacnet-device-core/src/cov/identity.rs) *)
Definition key_rank (k : CovSubscriptionKey) : bool * (option Z * (option Z * ((bool * (Z * bytes)) * (Z * bool)))) :=
  match k with
  | KeyObject recipient process_id _ => (false, (None, (None, (recipient_rank recipient, (process_id, false)))))
  | KeyProperty recipient process_id _ property index => (false, (Some property, (index, (recipient_rank recipient, (process_id, false)))))
  | KeyMultiple context _ property index =>
      (true, (Some property, (index, (recipient_rank (mc_recipient context), (mc_process_id context, mc_confirmed context)))))
  end.
(** [CovSubscriptionKey::cmp] (bacnet-device-core/src/cov/identity.rs:232-236) *)
Definition key_view (k : CovSubscriptionKey) := (object_rank (key_object k), key_rank k).
Lemma recipient_rank_inj a b : recipient_rank a = recipient_rank b -> a = b.
Proof. destruct a as [m|[n m]], b as [m'|[n' m']]; cbn; intros [= ]; subst; done. Qed.
Lemma key_view_inj a b : key_view a = key_view b -> a = b.
Proof.
  destruct a as [r p [t i]|r p [t i] pr ix|[r p c] [t i] pr ix], b as [r' p' [t' i']|r' p' [t' i'] pr' ix'|[r' p' c'] [t' i'] pr' ix'];
    unfold key_view, object_rank; cbn; intros [= Ht Hi Hrest]; try done.
  all: repeat match goal with H : recipient_rank _ = recipient_rank _ |- _ => apply recipient_rank_inj in H end; subst; done.
Qed.
#[export] Instance Ordered_CovRecipient : Ordered CovRecipient := ordered_by recipient_rank recipient_rank_inj.
#[export] Instance Ordered_CovSubscriptionKey : Ordered CovSubscriptionKey := ordered_by key_view key_view_inj.

(** ** Policy *)

(** [CovPolicy] (bacnet-device-core/src/cov/policy.rs) *)
Record CovPolicy := {
  max_subscriptions_global : nat; max_subscriptions_per_peer : nat; reserved_capacity : nat; reserved_peers : list bytes;
  reserved_recipients : list CovRecipient; allow_indefinite_subscriptions : bool; max_indefinite_per_peer : nat; max_notifications_per_event : nat;
  max_notification_bytes_per_event : nat; max_confirmed_in_flight_per_peer : nat
}.
#[export] Instance eta_CovPolicy : Settable CovPolicy := fun r =>
  {| max_subscriptions_global := max_subscriptions_global r; max_subscriptions_per_peer := max_subscriptions_per_peer r; reserved_capacity := reserved_capacity r; reserved_peers := reserved_peers r; reserved_recipients := reserved_recipients r; allow_indefinite_subscriptions := allow_indefinite_subscriptions r; max_indefinite_per_peer := max_indefinite_per_peer r; max_notifications_per_event := max_notifications_per_event r; max_notification_bytes_per_event := max_notification_bytes_per_event r; max_confirmed_in_flight_per_peer := max_confirmed_in_flight_per_peer r |}.
(** [CovPolicy::sanitized] (bacnet-device-core/src/cov/policy.rs) *)
Definition sanitized (p : CovPolicy) : CovPolicy :=
  p <| reserved_capacity ::= (fun c => Nat.min c (max_subscriptions_global p)) |>
    <| max_indefinite_per_peer ::= (fun c => Nat.min c (max_subscriptions_per_peer p)) |>.
(** [CovPolicy::is_peer_reserved] (bacnet-device-core/src/cov/policy.rs) *)
Definition is_peer_reserved (p : CovPolicy) (peer : CovRecipient) : bool :=
  bool_decide (peer ∈ reserved_recipients p) || match peer with Direct mac => bool_decide (mac ∈ reserved_peers p) | Routed _ => false end.
(** [CovPolicy::effective_unreserved_capacity] (bacnet-device-core/src/cov/policy.rs) *)
Definition effective_unreserved_capacity (p : CovPolicy) : nat :=
  if (bool_decide (reserved_peers p = []) && bool_decide (reserved_recipients p = [])) || bool_decide (reserved_capacity p = 0%nat)
  then max_subscriptions_global p else (max_subscriptions_global p - reserved_capacity p)%nat.
(** The counts the table keeps itself; the fanout's stay zero.
    [CovCounters] (bacnet-device-core/src/cov/policy.rs) *)
Record CovCounters := {
  subscriptions_created : nat; subscriptions_rejected_quota : nat; subscriptions_rejected_capacity : nat; subscriptions_rejected_indefinite : nat;
  subscriptions_cancelled : nat; subscriptions_purged : nat
}.
#[export] Instance eta_CovCounters : Settable CovCounters := fun r =>
  {| subscriptions_created := subscriptions_created r; subscriptions_rejected_quota := subscriptions_rejected_quota r; subscriptions_rejected_capacity := subscriptions_rejected_capacity r; subscriptions_rejected_indefinite := subscriptions_rejected_indefinite r; subscriptions_cancelled := subscriptions_cancelled r; subscriptions_purged := subscriptions_purged r |}.

(** [FlightTiming] (bacnet-device-core/src/cov/flight.rs) *)
Record FlightTiming := { ft_timeout : Duration; ft_retries : Z }.
(** [FlightTiming::hold_off] (bacnet-device-core/src/cov/flight.rs) *)
Definition hold_off (t : FlightTiming) : Duration := duration_saturating_mul (ft_timeout t) (ft_retries t + 1).
(** [FlightTiming::deadline] (bacnet-device-core/src/cov/flight.rs) *)
Definition deadline (t : FlightTiming) : Duration := duration_saturating_mul (ft_timeout t) (ft_retries t + 2).
(** [FlightTiming::cutoff] (bacnet-device-core/src/cov/flight.rs) *)
Definition cutoff (t : FlightTiming) : Duration := duration_saturating_add (hold_off t) (Z.shiftr (ft_timeout t) 1).
(** [Token] (bacnet-device-core/src/cov/flight.rs) *)
Record Token := { tk_flight : Z; tk_ticket : Z }.
#[export] Instance Token_eq : EqDecision Token.
Proof. solve_decision. Defined.
(** [Delivery] (bacnet-device-core/src/cov/flight.rs) *)
Inductive Delivery := Sent | Acknowledged | Failed | NotSent.
(** [BeginRefusal] (bacnet-device-core/src/cov/flight.rs) *)
Inductive BeginRefusal := NotCurrent | Busy.
(** [CovNotificationKind] (bacnet-device-core/src/cov/identity.rs) *)
Inductive CovNotificationKind := Single | Multiple.
(** [CovTimeRemaining] (bacnet-device-core/src/cov/lifetime.rs) *)
Inductive CovTimeRemaining := Indefinite | Finite (seconds : Z) | Expired.
(** [CovTimeRemaining::at] (bacnet-device-core/src/cov/lifetime.rs) *)
Definition time_remaining (expires_at : option Instant) (now : Instant) : CovTimeRemaining :=
  match expires_at with
  | None => Indefinite
  | Some expires_at =>
      match instant_checked_duration_since expires_at now with
      | None => Expired
      | Some remaining =>
          if remaining =? 0 then Expired else
          let seconds := duration_as_secs (duration_saturating_add remaining (duration_from_nanos 999999999)) in
          Finite (if seconds <=? U32_MAX then seconds else U32_MAX)
      end
  end.
(** [CovTimeRemaining::wire_seconds] (bacnet-device-core/src/cov/lifetime.rs) *)
Definition wire_seconds (r : CovTimeRemaining) : option Z := match r with Indefinite => Some 0 | Finite seconds => Some seconds | Expired => None end.
(** [PreparedCovCompletion] (bacnet-device-core/src/cov/observation_order.rs) *)
Inductive PreparedCovCompletion := PreparedConfirmed (ticket : Z) | PreparedUnconfirmed (ticket : Z).

Section Table.
Context {Obs : Type}.

(** ** Subscriptions *)

(** [CovSubscription] (bacnet-device-core/src/cov/subscription.rs) *)
Record CovSubscription := {
  subscriber_mac : bytes; subscriber_network : option NpduAddress; subscriber_process_identifier : Z; monitored_object_identifier : ObjectIdentifier;
  issue_confirmed_notifications : bool; expires_at : option Instant; last_notified_observation : option Obs; monitored_property : option Z;
  monitored_property_array_index : option Z; cov_increment : option Z; notification_kind : CovNotificationKind; timestamped : bool
}.
(** [CovSubscription::recipient] (bacnet-device-core/src/cov/subscription.rs) *)
Definition recipient (s : CovSubscription) : CovRecipient := recipient_from_endpoint (subscriber_mac s) (subscriber_network s).
(** [CovSubscription::endpoint] (bacnet-device-core/src/cov/subscription.rs) *)
Definition endpoint (s : CovSubscription) : SubscriberEndpoint := {| se_mac := subscriber_mac s; se_network := subscriber_network s |}.
(** [CovSubscription::key] (bacnet-device-core/src/cov/subscription.rs:61-75) *)
Definition sub_key (s : CovSubscription) : Result CovSubscriptionKey CovError :=
  let recipient := recipient s in
  let? _ := recipient_validate recipient in
  let process_id := subscriber_process_identifier s in
  let object := monitored_object_identifier s in
  let index := monitored_property_array_index s in
  match notification_kind s, monitored_property s, index with
  | Single, None, None => Ok (KeyObject recipient process_id object)
  | Single, Some property, _ => Ok (KeyProperty recipient process_id object property index)
  | Multiple, Some property, _ =>
      Ok (KeyMultiple {| mc_recipient := recipient; mc_process_id := process_id; mc_confirmed := issue_confirmed_notifications s |} object property index)
  | _, _, _ => Err (CovEncoding "COV reference requires a property; whole-object subscriptions cannot carry an index" 0)
  end.
(** [CovSubscriptionSnapshot] (bacnet-device-core/src/cov/subscription.rs) *)
Record Snapshot := {
  sn_key : CovSubscriptionKey; sn_generation : Z; sn_table : Z; sn_last_successful_ticket : Z; sn_flight : Z; sn_subscription : CovSubscription;
  sn_max_notification_delay : option Z; sn_subscriber_max_apdu : option Z
}.
(** [Completion] (bacnet-device-core/src/cov/observation_order.rs) *)
Record Completion := { cp_key : CovSubscriptionKey; cp_generation : Z; cp_observation : Obs }.
(** [Completion::new] (bacnet-device-core/src/cov/observation_order.rs) *)
Definition completion_new (s : Snapshot) (observation : Obs) : Completion :=
  {| cp_key := sn_key s; cp_generation := sn_generation s; cp_observation := observation |}.
(** [Pending] (bacnet-device-core/src/cov/observation_order.rs) *)
Record Pending := { pn_token : Token; pn_completion : Completion }.
(** [FlightState] (bacnet-device-core/src/cov/flight.rs) *)
Record FlightState := {
  fs_ticket : Z; fs_deadline : option Instant; fs_hold_until : option Instant; fs_carried : list CovSubscriptionKey; fs_completes : list Completion
}.
(** [FlightState::default] (bacnet-device-core/src/cov/flight.rs:175-176) *)
Definition flight_default : FlightState := {| fs_ticket := 0; fs_deadline := None; fs_hold_until := None; fs_carried := []; fs_completes := [] |}.
(** [FlightState::outstanding] (bacnet-device-core/src/cov/flight.rs) *)
Definition outstanding (s : FlightState) (now : Instant) : bool :=
  negb (fs_ticket s =? 0) && match fs_deadline s with None => true | Some deadline => now <? deadline end.
(** [FlightState::outstanding_deadline] (bacnet-device-core/src/cov/flight.rs) *)
Definition outstanding_deadline (s : FlightState) : option Instant := if fs_ticket s =? 0 then None else fs_deadline s.
(** [FlightState::idle] (bacnet-device-core/src/cov/flight.rs) *)
Definition idle (s : FlightState) (now : Instant) : bool :=
  negb (outstanding s now) && match fs_hold_until s with None => true | Some until => until <=? now end.
(** [FlightState::holding_until] (bacnet-device-core/src/cov/flight.rs) *)
Definition holding_until (s : FlightState) (now : Instant) : option Instant :=
  match fs_hold_until s with Some until => if negb (outstanding s now) && (now <? until) then Some until else None | None => None end.
(** [FlightState::owed_carried] (bacnet-device-core/src/cov/flight.rs) *)
Definition owed_carried (s : FlightState) (now : Instant) : option (list CovSubscriptionKey) :=
  if outstanding s now || is_some (fs_hold_until s) then Some (fs_carried s) else None.
(** [FlightState::is_idle_default] (bacnet-device-core/src/cov/flight.rs) *)
Definition is_idle_default (s : FlightState) : bool := (fs_ticket s =? 0) && negb (is_some (fs_hold_until s)) && bool_decide (fs_carried s = []).
(** [Fenced] (bacnet-device-core/src/cov/table.rs) *)
Record Fenced := {
  fenced_tokens : list Token; fenced_removed : list CovSubscriptionKey; fenced_revisit : list CovSubscriptionKey; fenced_contexts : list MultipleContextKey
}.
(** [CovTable] (bacnet-device-core/src/cov/table.rs) *)
Record CovTable := {
  ct_id : Z; ct_subs : list Snapshot; ct_generation : Z; ct_issued : Z; ct_flights : list (Z * FlightState); ct_pending : list Pending; ct_next_flight : Z;
  ct_peer_counts : list (CovRecipient * nat); ct_peer_indefinite_counts : list (CovRecipient * nat); ct_policy : CovPolicy; ct_timing : FlightTiming;
  ct_counts : CovCounters; ct_fenced : Fenced; ct_next_due : option Instant
}.
#[local] Instance eta_CovSubscription : Settable CovSubscription := fun r =>
  {| subscriber_mac := subscriber_mac r; subscriber_network := subscriber_network r; subscriber_process_identifier := subscriber_process_identifier r; monitored_object_identifier := monitored_object_identifier r; issue_confirmed_notifications := issue_confirmed_notifications r; expires_at := expires_at r; last_notified_observation := last_notified_observation r; monitored_property := monitored_property r; monitored_property_array_index := monitored_property_array_index r; cov_increment := cov_increment r; notification_kind := notification_kind r; timestamped := timestamped r |}.
#[local] Instance eta_Snapshot : Settable Snapshot := fun r =>
  {| sn_key := sn_key r; sn_generation := sn_generation r; sn_table := sn_table r; sn_last_successful_ticket := sn_last_successful_ticket r; sn_flight := sn_flight r; sn_subscription := sn_subscription r; sn_max_notification_delay := sn_max_notification_delay r; sn_subscriber_max_apdu := sn_subscriber_max_apdu r |}.
#[local] Instance eta_FlightState : Settable FlightState := fun r =>
  {| fs_ticket := fs_ticket r; fs_deadline := fs_deadline r; fs_hold_until := fs_hold_until r; fs_carried := fs_carried r; fs_completes := fs_completes r |}.
#[local] Instance eta_Fenced : Settable Fenced := fun r =>
  {| fenced_tokens := fenced_tokens r; fenced_removed := fenced_removed r; fenced_revisit := fenced_revisit r; fenced_contexts := fenced_contexts r |}.
#[local] Instance eta_CovTable : Settable CovTable := fun r =>
  {| ct_id := ct_id r; ct_subs := ct_subs r; ct_generation := ct_generation r; ct_issued := ct_issued r; ct_flights := ct_flights r; ct_pending := ct_pending r; ct_next_flight := ct_next_flight r; ct_peer_counts := ct_peer_counts r; ct_peer_indefinite_counts := ct_peer_indefinite_counts r; ct_policy := ct_policy r; ct_timing := ct_timing r; ct_counts := ct_counts r; ct_fenced := ct_fenced r; ct_next_due := ct_next_due r |}.
(** [CovTable::new] (bacnet-device-core/src/cov/table.rs) *)
Definition table_new (id : Z) (policy : CovPolicy) (timing : FlightTiming) : CovTable :=
  {| ct_id := id; ct_subs := []; ct_generation := 0; ct_issued := 0; ct_flights := []; ct_pending := []; ct_next_flight := 0; ct_peer_counts := [];
     ct_peer_indefinite_counts := []; ct_policy := sanitized policy; ct_timing := timing;
     ct_counts := {| subscriptions_created := 0; subscriptions_rejected_quota := 0; subscriptions_rejected_capacity := 0; subscriptions_rejected_indefinite := 0;
                     subscriptions_cancelled := 0; subscriptions_purged := 0 |};
     ct_fenced := {| fenced_tokens := []; fenced_removed := []; fenced_revisit := []; fenced_contexts := [] |}; ct_next_due := None |}.

(** ** Reading *)

Abbreviation expires s := (expires_at (sn_subscription s)).
(** [Entries::get] (bacnet-device-core/src/cov/table.rs:67-69) *)
Definition subs_get (t : CovTable) (key : CovSubscriptionKey) : option Snapshot := vec_get sn_key (ct_subs t) key.
(** [partition_point] of a sorted vector, then [take_while].
    [Entries::of_object] (bacnet-device-core/src/cov/table.rs) *)
Fixpoint take_while {A} (p : A -> bool) (l : list A) : list A := match l with x :: l => if p x then x :: take_while p l else [] | [] => [] end.
Definition of_object (subs : list Snapshot) (oid : ObjectIdentifier) : list Snapshot :=
  let start := length (take_while (fun s => match compare (object_rank (key_object (sn_key s))) (object_rank oid) with Lt => true | _ => false end) subs) in
  take_while (fun s => bool_decide (key_object (sn_key s) = oid)) (drop start subs).
(** [CovTable::multiple_context_references] (bacnet-device-core/src/cov/table.rs) *)
Definition context_references (t : CovTable) (context : MultipleContextKey) : list Snapshot :=
  filter (fun s => multiple_context (sn_key s) = Some context) (ct_subs t).
(** [CovTable::peer_subscription_count] (bacnet-device-core/src/cov/table.rs) *)
Definition peer_subscription_count (t : CovTable) (peer : CovRecipient) : nat := default 0%nat (snd <$> vec_get fst (ct_peer_counts t) peer).
(** [CovTable::peer_indefinite_count] (bacnet-device-core/src/cov/table.rs) *)
Definition peer_indefinite_count (t : CovTable) (peer : CovRecipient) : nat := default 0%nat (snd <$> vec_get fst (ct_peer_indefinite_counts t) peer).
(** [CovTable::live_entry] (bacnet-device-core/src/cov/flight.rs) *)
Definition live_entry (t : CovTable) (s : Snapshot) : option Snapshot :=
  if negb (ct_id t =? sn_table s) then None else
  match subs_get t (sn_key s) with
  | Some entry => if (sn_generation entry =? sn_generation s) && (sn_flight entry =? sn_flight s) then Some entry else None
  | None => None
  end.
(** [CovTable::remaining_lifetime] (bacnet-device-core/src/cov/lifetime.rs) *)
Definition remaining_lifetime (t : CovTable) (s : Snapshot) (now : Instant) : option CovTimeRemaining := (fun entry => time_remaining (expires entry) now) <$> live_entry t s.
(** [CovTable::is_current] (bacnet-device-core/src/cov/table.rs) *)
Definition is_current (t : CovTable) (s : Snapshot) (now : Instant) : bool := is_some (remaining_lifetime t s now ≫= wire_seconds).
(** [CovTable::flight_idle] (bacnet-device-core/src/cov/flight.rs) *)
Definition flight_idle (t : CovTable) (flight : Z) (now : Instant) : bool :=
  match vec_get fst (ct_flights t) flight with None => true | Some (_, state) => idle state now end.
(** [CovTable::flight_holds] (bacnet-device-core/src/cov/flight.rs) *)
Definition flight_holds (t : CovTable) (flight ticket : Z) (now : Instant) : bool :=
  match vec_get fst (ct_flights t) flight with None => false | Some (_, state) => (fs_ticket state =? ticket) && outstanding state now end.
(** [CovTable::confirmed_idle] (bacnet-device-core/src/cov/flight.rs) *)
Definition confirmed_idle (t : CovTable) (s : Snapshot) (now : Instant) : bool :=
  if negb (issue_confirmed_notifications (sn_subscription s)) then true else
  match live_entry t s with
  | None => true
  | Some entry => flight_idle t (sn_flight entry) now && (sn_last_successful_ticket entry =? sn_last_successful_ticket s)
  end.
(** [CovTable::context_idle] (bacnet-device-core/src/cov/flight.rs) *)
Definition context_idle (t : CovTable) (context : MultipleContextKey) (snapshots : list Snapshot) (now : Instant) : bool :=
  if negb (mc_confirmed context) then true else
  match context_references t context with [] => true | entry :: _ => flight_idle t (sn_flight entry) now end &&
  forallb (fun s => confirmed_idle t s now) snapshots.
(** [CovTable::context_hold_until] (bacnet-device-core/src/cov/flight.rs) *)
Definition context_hold_until (t : CovTable) (context : MultipleContextKey) (now : Instant) : option Instant :=
  if negb (mc_confirmed context) then None else
  entry ← head (context_references t context);
  '(_, state) ← vec_get fst (ct_flights t) (sn_flight entry);
  holding_until state now.

(** ** Counting peers *)

(** [if let Some(count) = counts.get_mut(&peer) { *count = count.saturating_sub(by); if *count == 0 { counts.remove(&peer); } }]; [subscribe_multiple] has a plain
    [*count -= by] in its place, which is the same as long as no more is taken off than is counted, as the table's invariant has it ([count_down_ok], [refresh_inv]). *)
Definition count_down (counts : list (CovRecipient * nat)) (peer : CovRecipient) (by_ : nat) : list (CovRecipient * nat) :=
  match vec_get fst counts peer with
  | None => counts
  | Some (_, count) =>
      let counts := vec_modify fst counts peer (fun c => (c.1, c.2 - by_)%nat) in
      if decide (count - by_ = 0)%nat then (vec_remove fst counts peer).1 else counts
  end.
(** [*counts.or_default(peer) += 1] *)
Definition count_up (counts : list (CovRecipient * nat)) (peer : CovRecipient) : list (CovRecipient * nat) :=
  vec_or_default fst counts peer (peer, 0%nat) (fun c => (c.1, S c.2)).

(** ** Removing and expiring *)

(** [CovTable::due_by] (bacnet-device-core/src/cov/table.rs) *)
Definition due_by (t : CovTable) (at_ : option Instant) : CovTable := t <| ct_next_due := earliest [ct_next_due t; at_] |>.
(** [CovTable::remove_internal] (bacnet-device-core/src/cov/table.rs) *)
Definition remove_internal (t : CovTable) (key : CovSubscriptionKey) (was_cancelled : bool) : CovTable * bool :=
  match vec_remove sn_key (ct_subs t) key with
  | (_, None) => (t, false)
  | (subs, Some sub) =>
      let t := t <| ct_subs := subs |> in
      let t := t <| ct_fenced ::= (fun f => f <| fenced_removed ::= (fun l => l ++ [key]) |>) |> in
      let t :=
        match multiple_context key with
        | Some context => if decide (context_references t context = []) then t <| ct_flights := (vec_remove fst (ct_flights t) (sn_flight sub)).1 |> else t
        | None => t <| ct_flights := (vec_remove fst (ct_flights t) (sn_flight sub)).1 |>
        end in
      let peer := recipient (sn_subscription sub) in
      let t := t <| ct_peer_counts ::= (fun c => count_down c peer 1) |> in
      let t := if is_some (expires sub) then t else t <| ct_peer_indefinite_counts ::= (fun c => count_down c peer 1) |> in
      let t := if was_cancelled then t <| ct_counts ::= (fun c => c <| subscriptions_cancelled ::= S |>) |> else t in
      (t, true)
  end.
(** [for key in keys { self.remove_internal(&key, was_cancelled); }], and how many it removed. *)
Fixpoint remove_keys (t : CovTable) (keys : list CovSubscriptionKey) (was_cancelled : bool) : CovTable * nat :=
  match keys with
  | [] => (t, 0%nat)
  | key :: keys =>
      let '(t, removed) := remove_internal t key was_cancelled in
      let '(t, n) := remove_keys t keys was_cancelled in (t, ((if removed then 1 else 0) + n)%nat)
  end.
(** [CovTable::unsubscribe] (bacnet-device-core/src/cov/table.rs) *)
Definition unsubscribe (t : CovTable) (key : CovSubscriptionKey) : CovTable * bool := remove_internal t key true.
(** [CovTable::unsubscribe_cov_multiple_context] (bacnet-device-core/src/cov/table.rs) *)
Definition unsubscribe_context (t : CovTable) (context : MultipleContextKey) : CovTable := (remove_keys t (sn_key <$> context_references t context) true).1.
(** [CovTable::remove_for_object] (bacnet-device-core/src/cov/table.rs) *)
Definition remove_for_object (t : CovTable) (oid : ObjectIdentifier) : CovTable := (remove_keys t (sn_key <$> of_object (ct_subs t) oid) false).1.
(** [CovTable::remove_peer_subscriptions] (bacnet-device-core/src/cov/table.rs) *)
Definition remove_peer_subscriptions (t : CovTable) (mac : bytes) (network : option NpduAddress) : CovTable * nat :=
  let target := {| se_mac := mac; se_network := network |} in
  let keys := sn_key <$> filter (fun s => endpoint (sn_subscription s) = target) (ct_subs t) in
  ((remove_keys t keys true).1, length keys).
(** [CovTable::tidy_flight] (bacnet-device-core/src/cov/flight.rs) *)
Definition tidy_flight (t : CovTable) (flight : Z) : CovTable :=
  match vec_get fst (ct_flights t) flight with
  | Some (_, state) => if is_idle_default state then t <| ct_flights := (vec_remove fst (ct_flights t) flight).1 |> else t
  | None => t
  end.
(** [CovTable::fence_flight] (bacnet-device-core/src/cov/flight.rs) *)
Definition fence_flight (t : CovTable) (flight : Z) : CovTable :=
  match vec_remove fst (ct_flights t) flight with
  | (flights, Some (_, state)) =>
      let t := t <| ct_flights := flights |> in
      if fs_ticket state =? 0 then t
      else t <| ct_fenced ::= (fun f => f <| fenced_tokens ::= (fun l => l ++ [{| tk_flight := flight; tk_ticket := fs_ticket state |}]) |>) |>
  | (_, None) => t
  end.
(** One round of [end_abandoned]'s loop. *)
Definition end_one (t : CovTable) (token : Token) : CovTable :=
  let t := t <| ct_flights := vec_modify fst (ct_flights t) (tk_flight token)
                  (fun e => (e.1, e.2 <| fs_ticket := 0 |> <| fs_deadline := None |> <| fs_carried := [] |> <| fs_completes := [] |>)) |> in
  let t := tidy_flight t (tk_flight token) in
  let keys := sn_key <$> filter (fun s => sn_flight s = tk_flight token) (ct_subs t) in
  t <| ct_fenced ::= (fun f => f <| fenced_revisit ::= (fun l => l ++ keys) |> <| fenced_tokens ::= (fun l => l ++ [token]) |>) |>.
(** [CovTable::end_abandoned] (bacnet-device-core/src/cov/flight.rs) *)
Definition end_abandoned (t : CovTable) (now : Instant) : CovTable :=
  let abandoned := filter (fun e => negb (fs_ticket e.2 =? 0) && negb (outstanding e.2 now) = true) (ct_flights t) in
  fold_left end_one ((fun e => {| tk_flight := e.1; tk_ticket := fs_ticket e.2 |}) <$> abandoned) t.
Definition expired (now : Instant) (s : Snapshot) : bool := match expires s with Some e => e <=? now | None => false end.
(** [CovTable::expire] (bacnet-device-core/src/cov/table.rs) *)
Definition expire (t : CovTable) (now : Instant) : CovTable * nat :=
  if match ct_next_due t with None => true | Some due => now <? due end then (t, 0%nat) else
  let t := end_abandoned t now in
  let next_due := fold_left (fun due s => if expired now s then due else earliest [due; expires s]) (ct_subs t) None in
  let to_remove := sn_key <$> filter (fun s => expired now s = true) (ct_subs t) in
  let '(t, purged) := remove_keys t to_remove false in
  let t := t <| ct_counts ::= (fun c => c <| subscriptions_purged ::= (fun n => n + purged)%nat |>) |> in
  let next_due := fold_left (fun due e => earliest [due; outstanding_deadline e.2]) (ct_flights t) next_due in
  (t <| ct_next_due := next_due |>, purged).
(** [CovTable::expire_all] (bacnet-device-core/src/cov/table.rs) *)
Definition expire_all (t : CovTable) (now : Instant) : CovTable :=
  let t := t <| ct_subs := (fun s => s <| sn_subscription ::= (fun u => u <| expires_at := Some now |>) |>) <$> ct_subs t |> in
  if decide (0 < length (ct_subs t))%nat then due_by t (Some now) else t.
(** [CovTable::subscriptions_for] (bacnet-device-core/src/cov/table.rs) *)
Definition subscriptions_for (t : CovTable) (oid : ObjectIdentifier) (now : Instant) : CovTable * list Snapshot :=
  let '(t, _) := expire t now in (t, of_object (ct_subs t) oid).

(** ** Admission *)

(** [Cap] (bacnet-device-core/src/cov/admission.rs) *)
Inductive Cap := CapPeer | CapTable.
(** [Error::protocol(ErrorClass::RESOURCES, ErrorCode::NO_SPACE_TO_ADD_LIST_ELEMENT)] *)
Definition no_space : CovError := CovProtocol 3 19.
(** [CovTable::room] (bacnet-device-core/src/cov/admission.rs) *)
Definition room (t : CovTable) (peer : CovRecipient) : nat * nat :=
  let peer_room := (max_subscriptions_per_peer (ct_policy t) - peer_subscription_count t peer)%nat in
  let capacity := max_subscriptions_global (ct_policy t) in
  let capacity := if is_peer_reserved (ct_policy t) peer then capacity else Nat.min capacity (effective_unreserved_capacity (ct_policy t)) in
  (peer_room, (capacity - length (ct_subs t))%nat).
(** [CovTable::cap_passed] (bacnet-device-core/src/cov/admission.rs) *)
Definition cap_passed (t : CovTable) (peer : CovRecipient) (new_count : nat) : option Cap :=
  let '(peer_room, table_room) := room t peer in
  if decide (peer_room < new_count)%nat then Some CapPeer else if decide (table_room < new_count)%nat then Some CapTable else None.
(** [CovTable::refuse_new] (bacnet-device-core/src/cov/admission.rs) *)
Definition refuse_new (t : CovTable) (cap : Cap) : CovTable * CovError :=
  (t <| ct_counts ::= (fun c => match cap with
                                | CapPeer => c <| subscriptions_rejected_quota ::= S |>
                                | CapTable => c <| subscriptions_rejected_capacity ::= S |> end) |>, no_space).
(** [CovTable::check_caps] (bacnet-device-core/src/cov/admission.rs) *)
Definition check_caps (t : CovTable) (peer : CovRecipient) (new_count new_indefinite : nat) (now : Instant) : CovTable * Result unit CovError :=
  let '(t, _) := expire t now in
  if bool_decide (0 < new_indefinite)%nat && bool_decide (max_indefinite_per_peer (ct_policy t) < peer_indefinite_count t peer + new_indefinite)%nat
  then (t <| ct_counts ::= (fun c => c <| subscriptions_rejected_indefinite ::= S |>) |>, Err no_space)
  else match cap_passed t peer new_count with
       | Some cap => let '(t, e) := refuse_new t cap in (t, Err e)
       | None => (t, Ok tt)
       end.
(** [CovTable::check_admission] (bacnet-device-core/src/cov/admission.rs) *)
Definition check_admission (t : CovTable) (peer : CovRecipient) (is_indefinite : bool) (existing : option CovSubscription) (now : Instant) : CovTable * Result unit CovError :=
  let '(t, _) := expire t now in
  if is_indefinite && negb (allow_indefinite_subscriptions (ct_policy t))
  then (t <| ct_counts ::= (fun c => c <| subscriptions_rejected_indefinite ::= S |>) |>, Err (CovProtocol 5 37))
  else
    let '(new_count, new_indefinite) :=
      match existing with
      | Some sub => (0%nat, if is_indefinite && is_some (expires_at sub) then 1%nat else 0%nat)
      | None => (1%nat, if is_indefinite then 1%nat else 0%nat)
      end in
    check_caps t peer new_count new_indefinite now.
(** [CovTable::reserve_generations] (bacnet-device-core/src/cov/admission.rs) *)
Definition reserve_generations (t : CovTable) (count : nat) : CovTable * Result Z CovError :=
  if decide (count = 0%nat) then (t, Ok (ct_generation t)) else
  let last := ct_generation t + Z.of_nat count in
  if U64_MAX <? last then (t <| ct_counts ::= (fun c => c <| subscriptions_rejected_capacity ::= S |>) |>, Err no_space)
  else (t <| ct_generation := last |>, Ok (ct_generation t + 1)).
(** [CovTable::new_flight] (bacnet-device-core/src/cov/flight.rs) *)
Definition new_flight (t : CovTable) : CovTable * Z := (t <| ct_next_flight := ct_next_flight t + 1 |>, ct_next_flight t + 1).
(** [CovTable::publish] (bacnet-device-core/src/cov/admission.rs) *)
Definition publish (t : CovTable) (key : CovSubscriptionKey) (sub : CovSubscription) (generation : Z) (max_notification_delay subscriber_max_apdu context_flight : option Z)
  : CovTable * Snapshot :=
  let '(t, flight) := match context_flight with Some flight => (t, flight) | None => new_flight t end in
  let snapshot := {| sn_key := key; sn_generation := generation; sn_table := ct_id t; sn_last_successful_ticket := 0; sn_flight := flight; sn_subscription := sub;
                     sn_max_notification_delay := max_notification_delay; sn_subscriber_max_apdu := subscriber_max_apdu |} in
  let peer := recipient sub in
  let new_indefinite := negb (is_some (expires_at sub)) in
  let t := due_by t (expires_at sub) in
  let '(subs, replaced) := vec_insert sn_key (ct_subs t) snapshot in
  let t := t <| ct_subs := subs |> in
  match replaced with
  | Some old =>
      let t := if sn_flight old =? flight then t else fence_flight t (sn_flight old) in
      let old_indefinite := negb (is_some (expires old)) in
      let t :=
        if Bool.eqb old_indefinite new_indefinite then t else
        if new_indefinite then t <| ct_peer_indefinite_counts ::= (fun c => count_up c peer) |>
        else t <| ct_peer_indefinite_counts ::= (fun c => count_down c peer 1) |> in
      (t, snapshot)
  | None =>
      let t := t <| ct_peer_counts ::= (fun c => count_up c peer) |> in
      let t := if new_indefinite then t <| ct_peer_indefinite_counts ::= (fun c => count_up c peer) |> else t in
      (t <| ct_counts ::= (fun c => c <| subscriptions_created ::= S |>) |>, snapshot)
  end.
(** [CovTable::subscribe] (bacnet-device-core/src/cov/admission.rs) *)
Definition subscribe (t : CovTable) (sub : CovSubscription) (now : Instant) : CovTable * Result Snapshot CovError :=
  match sub_key sub with
  | Err e => (t, Err e)
  | Ok key =>
      if is_some (multiple_context key) then (t, Err (CovEncoding "Multiple references must be admitted through subscribe_multiple" 0)) else
      let '(t, _) := expire t now in
      let existing := subs_get t key in
      match check_admission t (recipient sub) (negb (is_some (expires_at sub))) (sn_subscription <$> existing) now with
      | (t, Err e) => (t, Err e)
      | (t, Ok _) =>
          match reserve_generations t 1 with
          | (t, Err e) => (t, Err e)
          | (t, Ok generation) => let '(t, snapshot) := publish t key sub generation None None None in (t, Ok snapshot)
          end
      end
  end.
(** [CovTable::context_flight] (bacnet-device-core/src/cov/flight.rs) *)
Definition context_flight (t : CovTable) (context : MultipleContextKey) (route : SubscriberEndpoint) (lists_references : bool) (now : Instant) : CovTable * (Z * option Z) :=
  match head (context_references t context) with
  | Some entry =>
      let flight := sn_flight entry in
      if bool_decide (endpoint (sn_subscription entry) = route) && (negb lists_references || flight_idle t flight now) then (t, (flight, None))
      else let '(t, fresh) := new_flight t in (t, (fresh, Some flight))
  | None => let '(t, fresh) := new_flight t in (t, (fresh, None))
  end.
(** [CovTable::fence_context_flight] (bacnet-device-core/src/cov/flight.rs) *)
Definition fence_context_flight (t : CovTable) (context : MultipleContextKey) (replaced : Z) (listed : list CovSubscriptionKey) (now : Instant) : CovTable :=
  let carried := '(_, state) ← vec_get fst (ct_flights t) replaced; owed_carried state now in
  let t :=
    match carried with
    | Some carried =>
        let forget s :=
          if bool_decide (multiple_context (sn_key s) = Some context) && negb (timestamped (sn_subscription s)) && bool_decide (sn_key s ∈ carried) && negb (bool_decide (sn_key s ∈ listed))
          then s <| sn_subscription ::= (fun u => u <| last_notified_observation := None |>) |> else s in
        let t := t <| ct_subs := forget <$> ct_subs t |> in
        let keys := sn_key <$> context_references t context in
        t <| ct_fenced ::= (fun f => f <| fenced_revisit ::= (fun l => l ++ keys) |>) |>
    | None => t
    end in
  fence_flight t replaced.
(** [sub.key().expect("validated identity")]: every proposal's key was read before. *)
Definition keys_of (subs : list CovSubscription) : list CovSubscriptionKey := omap (fun s => match sub_key s with Ok k => Some k | Err _ => None end) subs.
(** The loop of [first_overflow] from [position] on. *)
Fixpoint overflow_loop (t : CovTable) (peer : CovRecipient) (room : nat) (position : nat) (added : list CovSubscriptionKey) (keys : list CovSubscriptionKey) : option (nat * Cap) :=
  match keys with
  | [] => None
  | key :: keys =>
      if is_some (subs_get t key) || bool_decide (key ∈ added) then overflow_loop t peer room (S position) added keys else
      if decide (length added = room) then (fun cap => (position, cap)) <$> cap_passed t peer (room + 1)
      else overflow_loop t peer room (S position) (key :: added) keys
  end.
(** [CovTable::first_overflow] (bacnet-device-core/src/cov/admission.rs) *)
Definition first_overflow (t : CovTable) (peer : CovRecipient) (proposals : list CovSubscription) : option (nat * Cap) :=
  let '(peer_room, table_room) := room t peer in overflow_loop t peer (Nat.min peer_room table_room) 0 [] (keys_of proposals).
(** [subscriptions.retain(|sub| keys.insert(sub.key()))]: the first of each key, and the keys. *)
Fixpoint retain_new (keys : list CovSubscriptionKey) (subs : list CovSubscription) : list CovSubscription * list CovSubscriptionKey :=
  match subs with
  | [] => ([], keys)
  | s :: subs =>
      match sub_key s with
      | Ok k =>
          if bool_decide (k ∈ keys) then retain_new keys subs
          else let '(l, keys) := retain_new (k :: keys) subs in (s :: l, keys)
      | Err _ => retain_new keys subs
      end
  end.
(** The publications of [subscribe_multiple], in request order. *)
Fixpoint publish_all (t : CovTable) (subs : list CovSubscription) (generation : Z) (delay apdu flight : option Z) : CovTable * list Snapshot :=
  match subs with
  | [] => (t, [])
  | s :: subs =>
      match sub_key s with
      | Ok key =>
          let '(t, snapshot) := publish t key s generation delay apdu flight in
          let '(t, l) := publish_all t subs (generation + 1) delay apdu flight in (t, snapshot :: l)
      | Err _ => publish_all t subs (generation + 1) delay apdu flight
      end
  end.
(** [MultipleRefusal] (bacnet-device-core/src/cov/admission.rs) *)
Record MultipleRefusal := { mr_error : CovError; mr_refused : option nat; mr_committed : list Snapshot }.
Definition refusal (e : CovError) : MultipleRefusal := {| mr_error := e; mr_refused := None; mr_committed := [] |}.
(** The checks of each proposal before anything changes. *)
Definition check_proposal (context : MultipleContextKey) (route : SubscriberEndpoint) (until : Instant) (s : CovSubscription) : Result unit CovError :=
  let? key := sub_key s in
  if negb (bool_decide (multiple_context key = Some context)) || negb (bool_decide (expires_at s = Some until)) || negb (bool_decide (endpoint s = route))
  then Err (CovEncoding "Multiple subscription does not match its context/route/expiry" 0) else Ok tt.
Fixpoint check_proposals (context : MultipleContextKey) (route : SubscriberEndpoint) (until : Instant) (subs : list CovSubscription) : Result unit CovError :=
  match subs with [] => Ok tt | s :: subs => let? _ := check_proposal context route until s in check_proposals context route until subs end.
(** A context's reference refreshed by an admission. *)
Definition refreshed (context : MultipleContextKey) (route : SubscriberEndpoint) (until : Instant) (delay : Z) (apdu : option Z) (flight : Z) (s : Snapshot) : Snapshot :=
  if bool_decide (multiple_context (sn_key s) = Some context) then
    s <| sn_subscription ::= (fun u => u <| expires_at := Some until |> <| subscriber_mac := se_mac route |> <| subscriber_network := se_network route |>) |>
      <| sn_max_notification_delay := Some delay |> <| sn_subscriber_max_apdu := apdu |> <| sn_flight := flight |>
  else s.
(** What follows the checks of [subscribe_multiple]: [proposals] fit, and [first] is their first generation.
    [CovTable::subscribe_multiple] (bacnet-device-core/src/cov/admission.rs:155-204) *)
Definition admit_multiple (t : CovTable) (context : MultipleContextKey) (route : SubscriberEndpoint) (until : Instant) (delay : Z) (apdu : option Z)
  (proposals : list CovSubscription) (keys : list CovSubscriptionKey) (first : Z) (now : Instant) : CovTable * list Snapshot :=
  let '(t, (flight, replaced)) := context_flight t context route (bool_decide (proposals <> [])) now in
  let apdu := match apdu with Some a => Some a | None => head (context_references t context) ≫= sn_subscriber_max_apdu end in
  let t := due_by t (Some until) in
  let previously_indefinite := length (filter (fun s => expires s = None) (context_references t context)) in
  let t := t <| ct_subs := refreshed context route until delay apdu flight <$> ct_subs t |> in
  let t := t <| ct_peer_indefinite_counts ::= (fun c => count_down c (mc_recipient context) previously_indefinite) |> in
  let '(t, accepted) := publish_all t proposals first (Some delay) apdu (Some flight) in
  let t := t <| ct_fenced ::= (fun f => f <| fenced_contexts ::= (fun l => l ++ [context]) |>) |> in
  (match replaced with Some replaced => fence_context_flight t context replaced keys now | None => t end, accepted).
(** [CovTable::subscribe_multiple] (bacnet-device-core/src/cov/admission.rs) *)
Definition subscribe_multiple (t : CovTable) (context : MultipleContextKey) (route : SubscriberEndpoint) (until : Instant) (delay : Z) (apdu : option Z)
  (proposals : list CovSubscription) (now : Instant) : CovTable * Result (list Snapshot) MultipleRefusal :=
  let peer := recipient_from_endpoint (se_mac route) (se_network route) in
  match (let? _ := recipient_validate (mc_recipient context) in
         let? _ := recipient_validate peer in
         if negb (bool_decide (peer = mc_recipient context)) then Err (CovEncoding "Multiple route does not match its recipient" 0)
         else check_proposals context route until proposals) with
  | Err e => (t, Err (refusal e))
  | Ok _ =>
      let '(t, _) := expire t now in
      let '(t, overflow) := match first_overflow t peer proposals with Some (position, cap) => let '(t, e) := refuse_new t cap in (t, Some (position, e)) | None => (t, None) end in
      match overflow with
      | Some (0%nat, e) => (t, Err {| mr_error := e; mr_refused := Some 0%nat; mr_committed := [] |})
      | _ =>
          let proposals := match overflow with Some (position, _) => take position proposals | None => proposals end in
          let '(kept, keys) := retain_new [] (reverse proposals) in
          let proposals := reverse kept in
          match reserve_generations t (length proposals) with
          | (t, Err e) => (t, Err (refusal e))
          | (t, Ok first) =>
              let '(t, accepted) := admit_multiple t context route until delay apdu proposals keys first now in
              (t, match overflow with None => Ok accepted | Some (position, e) => Err {| mr_error := e; mr_refused := Some position; mr_committed := accepted |} end)
          end
      end
  end.

(** ** Reports *)

(** [CovTable::take_owed_context] (bacnet-device-core/src/cov/flight.rs) *)
Definition take_owed_context (t : CovTable) (context : MultipleContextKey) (now : Instant) : CovTable * bool :=
  if negb (mc_confirmed context) then (t, false) else
  match head (context_references t context) with
  | None => (t, false)
  | Some entry =>
      let flight := sn_flight entry in
      match vec_get fst (ct_flights t) flight with
      | None => (t, false)
      | Some (_, state) =>
          let owed := negb (outstanding state now) && match fs_hold_until state with Some until => until <=? now | None => false end in
          if owed
          then (tidy_flight (t <| ct_flights := vec_modify fst (ct_flights t) flight (fun e => (e.1, e.2 <| fs_hold_until := None |> <| fs_carried := [] |>)) |>) flight, true)
          else (t, false)
      end
  end.
(** [CovTable::prepare_completion] (bacnet-device-core/src/cov/observation_order.rs) *)
Definition prepare_completion (t : CovTable) (s : Snapshot) : CovTable * option PreparedCovCompletion :=
  let ticket := ct_issued t + 1 in
  if U64_MAX <? ticket then (t, None) else
  (t <| ct_issued := ticket |>, Some (if issue_confirmed_notifications (sn_subscription s) then PreparedConfirmed ticket else PreparedUnconfirmed ticket)).
(** [CovTable::may_complete] (bacnet-device-core/src/cov/observation_order.rs) *)
Definition may_complete (t : CovTable) (token : Token) (c : Completion) (now : Instant) : bool :=
  match subs_get t (cp_key c) with
  | Some entry =>
      (sn_generation entry =? cp_generation c) && (sn_flight entry =? tk_flight token) && (sn_last_successful_ticket entry <? tk_ticket token) &&
      is_some (wire_seconds (time_remaining (expires entry) now))
  | None => false
  end.
(** [CovTable::complete] (bacnet-device-core/src/cov/observation_order.rs) *)
Definition complete (t : CovTable) (token : Token) (confirmed : bool) (c : Completion) (now : Instant) : CovTable * bool :=
  if negb (may_complete t token c now) then (t, false) else
  if confirmed && negb (flight_holds t (tk_flight token) (tk_ticket token) now) then (t, false) else
  (t <| ct_subs := vec_modify sn_key (ct_subs t) (cp_key c)
        (fun s => s <| sn_last_successful_ticket := tk_ticket token |>
                    <| sn_subscription ::= (fun u => u <| last_notified_observation := Some (cp_observation c) |>) |>) |>, true).
(** [CovTable::complete_observation] (bacnet-device-core/src/cov/observation_order.rs) *)
Definition complete_observation (t : CovTable) (s : Snapshot) (completion : PreparedCovCompletion) (value : Obs) (now : Instant) : CovTable * bool :=
  if negb (ct_id t =? sn_table s) then (t, false) else
  let '(confirmed, ticket) := match completion with PreparedConfirmed ticket => (true, ticket) | PreparedUnconfirmed ticket => (false, ticket) end in
  if negb (Bool.eqb confirmed (issue_confirmed_notifications (sn_subscription s))) then (t, false) else
  complete t {| tk_flight := sn_flight s; tk_ticket := ticket |} confirmed (completion_new s value) now.
(** [CovTable::prune_pending] (bacnet-device-core/src/cov/observation_order.rs) *)
Definition prune_pending (t : CovTable) (now : Instant) : CovTable :=
  t <| ct_pending := filter (fun p => may_complete t (pn_token p) (pn_completion p) now = true) (ct_pending t) |>.
(** [CovTable::begin_unconfirmed] (bacnet-device-core/src/cov/observation_order.rs) *)
Definition begin_unconfirmed (t : CovTable) (ticket : Z) (s : Snapshot) (observation : Obs) : CovTable * Token :=
  let token := {| tk_flight := sn_flight s; tk_ticket := ticket |} in
  (t <| ct_pending := ct_pending t ++ [{| pn_token := token; pn_completion := completion_new s observation |}] |>, token).
(** [Vec::swap_remove]: the last takes the removed one's place. *)
Definition swap_remove {A} (i : nat) (l : list A) : list A :=
  match last l with Some x => take (length l - 1) (<[i := x]> l) | None => l end.
(** [CovTable::deliver_unconfirmed] (bacnet-device-core/src/cov/observation_order.rs) *)
Definition deliver_unconfirmed (t : CovTable) (token : Token) (outcome : Delivery) (now : Instant) : CovTable * bool :=
  match list_find (fun p => pn_token p = token) (ct_pending t) with
  | None => (t, false)
  | Some (at_, report) =>
      let t := t <| ct_pending := swap_remove at_ (ct_pending t) |> in
      (match outcome with Sent => (complete t token false (pn_completion report) now).1 | _ => t end, true)
  end.
(** The references of a report, each current and idle: their flight, keys and completions, or why not. *)
Fixpoint begin_loop (t : CovTable) (references : list (Snapshot * Obs)) (now : Instant) (flight : option Z) (carried : list CovSubscriptionKey) (completes : list Completion)
  : Result (option Z * list CovSubscriptionKey * list Completion) BeginRefusal :=
  match references with
  | [] => Ok (flight, carried, completes)
  | (s, observation) :: references =>
      if negb (is_current t s now) then Err NotCurrent else
      if negb (confirmed_idle t s now) then Err Busy else
      let flight := match flight with Some known => Some known | None => sn_flight <$> subs_get t (sn_key s) end in
      let carried := if bool_decide (sn_key s ∈ carried) then carried else carried ++ [sn_key s] in
      begin_loop t references now flight carried (completes ++ [completion_new s observation])
  end.
(** [CovTable::begin_confirmed] (bacnet-device-core/src/cov/flight.rs) *)
Definition begin_confirmed (t : CovTable) (completion : PreparedCovCompletion) (references : list (Snapshot * Obs)) (now : Instant) : CovTable * Result Token BeginRefusal :=
  match completion with
  | PreparedUnconfirmed _ => (t, Err Busy)
  | PreparedConfirmed ticket =>
      match begin_loop t references now None [] [] with
      | Err e => (t, Err e)
      | Ok (None, _, _) => (t, Err NotCurrent)
      | Ok (Some flight, carried, completes) =>
          let due := instant_saturating_add now (deadline (ct_timing t)) in
          let held := default flight_default (snd <$> vec_get fst (ct_flights t) flight) in
          let t := t <| ct_flights := vec_or_default fst (ct_flights t) flight (flight, flight_default)
                          (fun e => (e.1, e.2 <| fs_ticket := ticket |> <| fs_deadline := Some due |> <| fs_carried := carried |> <| fs_completes := completes |>)) |> in
          let t := if fs_ticket held =? 0 then t
                   else t <| ct_fenced ::= (fun f => f <| fenced_tokens ::= (fun l => l ++ [{| tk_flight := flight; tk_ticket := fs_ticket held |}]) |>) |> in
          (due_by t (Some due), Ok {| tk_flight := flight; tk_ticket := ticket |})
      end
  end.
(** The commits of an acknowledged report, and the keys it completed. *)
Fixpoint complete_all (t : CovTable) (token : Token) (completes : list Completion) (now : Instant) : CovTable * list CovSubscriptionKey :=
  match completes with
  | [] => (t, [])
  | c :: completes =>
      let '(t, done) := complete t token true c now in
      let '(t, owed) := complete_all t token completes now in (t, if done then cp_key c :: owed else owed)
  end.
(** [CovTable::delivered] (bacnet-device-core/src/cov/flight.rs) *)
Definition delivered (t : CovTable) (token : Token) (outcome : Delivery) (now : Instant) : CovTable * list CovSubscriptionKey :=
  let '(t, known) := deliver_unconfirmed t token outcome now in
  if known then (t, []) else
  match vec_get fst (ct_flights t) (tk_flight token) with
  | None => (t, [])
  | Some (_, state) =>
      if negb (fs_ticket state =? tk_ticket token) || negb (outstanding state now) || match outcome with Sent => true | _ => false end then (t, []) else
      let completes := fs_completes state in
      let t := t <| ct_flights := vec_modify fst (ct_flights t) (tk_flight token) (fun e => (e.1, e.2 <| fs_completes := [] |>)) |> in
      let '(t, owed) :=
        match outcome with
        | Acknowledged =>
            let context := head completes ≫= (fun c => multiple_context (cp_key c)) in
            let '(t, owed) := complete_all t token completes now in
            (t, match context with Some context => sn_key <$> context_references t context | None => owed end)
        | _ => (t, [])
        end in
      let t := t <| ct_flights := vec_modify fst (ct_flights t) (tk_flight token)
                      (fun e => (e.1, match outcome with
                                      | Failed => e.2 <| fs_ticket := 0 |> <| fs_deadline := None |> <| fs_hold_until := Some (instant_saturating_add now (hold_off (ct_timing t))) |>
                                      | _ => e.2 <| fs_ticket := 0 |> <| fs_deadline := None |> <| fs_hold_until := None |> <| fs_carried := [] |>
                                      end)) |> in
      (tidy_flight t (tk_flight token), owed)
  end.
(** [CovTable::take_fenced] (bacnet-device-core/src/cov/table.rs) *)
Definition take_fenced (t : CovTable) : CovTable * Fenced :=
  (t <| ct_fenced := {| fenced_tokens := []; fenced_removed := []; fenced_revisit := []; fenced_contexts := [] |} |>, ct_fenced t).
End Table.
