(* ===== verification/CovTheorems.v ===== *)
(** * What the COV table keeps true

    Over every sequence of calls: the entries stay sorted under their own subscriptions' keys, the per-peer counts are the numbers of entries
    they stand for, the caps hold, and nothing expires before the instant the table names. *)

From Stdlib Require Import Sorting.Sorted.
From S2P Require Import Prelude Time WireError Values Address SortedVec CovTable.
Open Scope Z_scope.

(** ** Counts *)

(** Counts kept as a map without zeros. *)
Definition counts_ok (counts : list (CovRecipient * nat)) (f : CovRecipient -> nat) : Prop :=
  vec_sorted fst counts /\ forall p, vec_get fst counts p = if decide (f p = 0%nat) then None else Some (p, f p).
Lemma counts_value counts f p : counts_ok counts f -> default 0%nat (snd <$> vec_get fst counts p) = f p.
Proof. intros [_ Hg]. rewrite Hg. case_decide; [by rewrite H|done]. Qed.
Lemma count_up_ok counts f p : counts_ok counts f -> counts_ok (count_up counts p) (fun q => if decide (q = p) then S (f q) else f q).
Proof.
  intros [Hs Hg]. unfold count_up. split; [by apply vec_or_default_spec|]. intros q. rewrite (vec_get_or_default (K := CovRecipient) fst) by done. case_decide as E; [|by rewrite Hg].
  subst q. rewrite Hg. rewrite (decide_False (P := S (f p) = 0%nat)) by lia. case_decide as Ez; cbn; [by rewrite Ez|done].
Qed.
Lemma count_down_ok counts f p by_ : counts_ok counts f -> (by_ <= f p)%nat -> counts_ok (count_down counts p by_) (fun q => if decide (q = p) then (f q - by_)%nat else f q).
Proof.
  intros [Hs Hg] Hb. unfold count_down. rewrite Hg. case_decide as Ez.
  - split; [done|]. intros q. rewrite Hg. destruct (decide (q = p)) as [->|]; [|done]. rewrite Ez. by rewrite decide_True by lia.
  - destruct (vec_modify_spec fst counts p (fun c => (c.1, (c.2 - by_)%nat)) Hs ltac:(done)) as [Hs' _]. case_decide as Ed.
    + split; [pose proof (vec_remove_spec fst (vec_modify fst counts p (fun c => (c.1, (c.2 - by_)%nat))) p Hs') as Hr; destruct (vec_remove _ _ _); by destruct Hr|].
      intros q. rewrite (vec_get_remove (K := CovRecipient) fst) by done. case_decide as E; [subst; by rewrite decide_True by lia|]. rewrite (vec_get_modify (K := CovRecipient) fst) by done. by rewrite decide_False by done.
    + split; [done|]. intros q. rewrite (vec_get_modify (K := CovRecipient) fst) by done. case_decide as E; [|by rewrite Hg]. subst q. rewrite Hg. rewrite (decide_False (P := f p = 0%nat)) by done. cbn.
      by rewrite decide_False by lia.
Qed.
Lemma counts_ext counts f g : (forall p, f p = g p) -> counts_ok counts f -> counts_ok counts g.
Proof. intros Hfg [Hs Hg]. split; [done|]. intros p. rewrite Hg. by rewrite Hfg. Qed.

Section Invariant.
Context {Obs : Type}.
Implicit Types (t : CovTable (Obs := Obs)) (s : Snapshot (Obs := Obs)).

#[local] Abbreviation expires s := (expires_at (sn_subscription s)).
(** The entries of a peer, and those that never expire. *)
Definition of_peer (p : CovRecipient) s : Prop := recipient (sn_subscription s) = p.
Definition endless (p : CovRecipient) s : Prop := recipient (sn_subscription s) = p /\ expires s = None.
#[global] Instance of_peer_dec p s : Decision (of_peer p s).
Proof. unfold of_peer. apply _. Defined.
#[global] Instance endless_dec p s : Decision (endless p s).
Proof. unfold endless. destruct (expires s); [right; naive_solver|]. destruct (decide (recipient (sn_subscription s) = p)); [left|right]; naive_solver. Defined.
Definition peer_entries (l : list (Snapshot (Obs := Obs))) (p : CovRecipient) : nat := length (filter (of_peer p) l).
Definition endless_entries (l : list (Snapshot (Obs := Obs))) (p : CovRecipient) : nat := length (filter (endless p) l).
(** A deadline is never missed: it is not before the instant the table names. *)
Definition due_before (next_due : option Instant) (at_ : option Instant) : Prop := match at_ with None => True | Some e => exists d, next_due = Some d /\ d <= e end.
Record table_inv t : Prop := {
  ti_sorted : vec_sorted sn_key (ct_subs t);
  ti_keys : forall s, s ∈ ct_subs t -> sub_key (sn_subscription s) = Ok (sn_key s);
  ti_flights : vec_sorted fst (ct_flights t);
  ti_counts : counts_ok (ct_peer_counts t) (peer_entries (ct_subs t));
  ti_endless : counts_ok (ct_peer_indefinite_counts t) (endless_entries (ct_subs t));
  ti_due : forall s, s ∈ ct_subs t -> due_before (ct_next_due t) (expires s);
  ti_flight_due : forall e, e ∈ ct_flights t -> due_before (ct_next_due t) (outstanding_deadline e.2);
  ti_capacity : (length (ct_subs t) <= max_subscriptions_global (ct_policy t))%nat;
  ti_peer_cap : forall p, (peer_entries (ct_subs t) p <= max_subscriptions_per_peer (ct_policy t))%nat;
  ti_endless_cap : forall p, (endless_entries (ct_subs t) p <= max_indefinite_per_peer (ct_policy t))%nat
}.
Lemma peer_entries_cons s l p : peer_entries (s :: l) p = (if decide (p = recipient (sn_subscription s)) then S (peer_entries l p) else peer_entries l p).
Proof. unfold peer_entries. rewrite filter_cons. unfold of_peer at 1. destruct (decide (p = _)) as [->|Hne]; [by rewrite decide_True by done|]. by rewrite decide_False by (intros E; by apply Hne). Qed.
Lemma endless_entries_cons s l p : endless_entries (s :: l) p = (if decide (p = recipient (sn_subscription s) /\ expires s = None) then S (endless_entries l p) else endless_entries l p).
Proof. unfold endless_entries. rewrite filter_cons. case_decide as H1; case_decide as H2; unfold endless in *; naive_solver. Qed.
Lemma peer_entries_perm l l' p : l ≡ₚ l' -> peer_entries l p = peer_entries l' p.
Proof. intros Hp. unfold peer_entries. by rewrite Hp. Qed.
Lemma endless_entries_perm l l' p : l ≡ₚ l' -> endless_entries l p = endless_entries l' p.
Proof. intros Hp. unfold endless_entries. by rewrite Hp. Qed.

(** ** Deadlines *)

Lemma earliest_two (a b : option Instant) : earliest [a; b] = merge_deadline a b.
Proof. unfold earliest. cbn. by destruct a. Qed.
Lemma due_merge_l a b x : due_before a x -> due_before (merge_deadline a b) x.
Proof. destruct x as [e|]; [|done]. cbn. intros (d & -> & Hd). destruct b as [b|]; cbn; [|by exists d]. destruct (b <? d) eqn:E; eexists; split; [done|lia|done|lia]. Qed.
Lemma due_merge_r a b x : due_before b x -> due_before (merge_deadline a b) x.
Proof. destruct x as [e|]; [|done]. cbn. intros (d & -> & Hd). destruct a as [a|]; cbn; [|by exists d]. destruct (d <? a) eqn:E; eexists; split; [done|lia|done|lia]. Qed.
Lemma due_self a : due_before a a.
Proof. destruct a as [e|]; [|done]. exists e. split; [done|lia]. Qed.
(** Nothing is due yet. *)
Definition fresh (due : option Instant) (now : Instant) : Prop := match due with None => True | Some d => now < d end.
Lemma fresh_merge a b now : fresh a now -> fresh b now -> fresh (merge_deadline a b) now.
Proof. destruct a, b; cbn; try done. case_match; lia. Qed.
Lemma fold_due {A} (g : A -> option Instant) l : forall d0,
  (forall x, due_before d0 x -> due_before (fold_left (fun due a => earliest [due; g a]) l d0) x) /\
  (forall a, a ∈ l -> due_before (fold_left (fun due a => earliest [due; g a]) l d0) (g a)) /\
  (forall now, fresh d0 now -> (forall a, a ∈ l -> fresh (g a) now) -> fresh (fold_left (fun due a => earliest [due; g a]) l d0) now).
Proof.
  induction l as [|b l IH]; intros d0; cbn [fold_left]; [split_and!; [done|by intros a ?%not_elem_of_nil|done]|]. destruct (IH (earliest [d0; g b])) as (H1 & H2 & H3). rewrite earliest_two in *. split_and!.
  - intros x Hx. apply H1. by apply due_merge_l.
  - intros a [->|Ha]%elem_of_cons; [|by apply H2]. apply H1, due_merge_r, due_self.
  - intros now H0 Hl. apply H3; [apply fresh_merge; [done|apply Hl, elem_of_cons; by left]|]. intros a Ha. apply Hl, elem_of_cons. by right.
Qed.

(** ** What does not touch the invariant *)

Definition core t := (ct_subs t, ct_flights t, ct_peer_counts t, ct_peer_indefinite_counts t, ct_policy t, ct_next_due t).
Lemma inv_core t t' : core t' = core t -> table_inv t -> table_inv t'.
Proof. unfold core. intros [= E1 E2 E3 E4 E5 E6] [H1 H2 H3 H4 H5 H6 H7 H8 H9 H10]. constructor; rewrite ?E1, ?E2, ?E3, ?E4, ?E5, ?E6; done. Qed.
(** Flights may be dropped or marked ended. *)
Definition flights_shrunk t t' : Prop :=
  vec_sorted fst (ct_flights t') /\ forall e, e ∈ ct_flights t' -> e ∈ ct_flights t \/ fs_ticket e.2 = 0.
Lemma inv_flights t t' : (ct_subs t', ct_peer_counts t', ct_peer_indefinite_counts t', ct_policy t', ct_next_due t') = (ct_subs t, ct_peer_counts t, ct_peer_indefinite_counts t, ct_policy t, ct_next_due t) ->
  flights_shrunk t t' -> table_inv t -> table_inv t'.
Proof.
  intros [= E1 E3 E4 E5 E6] [Hs Hf] [H1 H2 H3 H4 H5 H6 H7 H8 H9 H10]. constructor; rewrite ?E1, ?E3, ?E4, ?E5, ?E6; try done.
  intros e He. destruct (Hf e He) as [Ho|Hz]; [by apply H7|]. unfold outstanding_deadline. by rewrite Hz.
Qed.
Lemma remove_flight_shrunk t flight : vec_sorted fst (ct_flights t) ->
  vec_sorted fst (vec_remove fst (ct_flights t) flight).1 /\ (forall e, e ∈ (vec_remove fst (ct_flights t) flight).1 -> e ∈ ct_flights t).
Proof.
  intros Hs. pose proof (vec_remove_spec fst (ct_flights t) flight Hs) as Hr. destruct (vec_remove fst (ct_flights t) flight) as [l' old]. destruct Hr as (Hs' & _ & Hp). split; [done|].
  intros e He. cbn in He. destruct old as [y|]; [|by subst]. destruct Hp as [_ Hp]. rewrite Hp. apply elem_of_cons. by right.
Qed.
Lemma tidy_shrunk t flight : vec_sorted fst (ct_flights t) -> flights_shrunk t (tidy_flight t flight) /\
  (ct_subs (tidy_flight t flight), ct_peer_counts (tidy_flight t flight), ct_peer_indefinite_counts (tidy_flight t flight), ct_policy (tidy_flight t flight), ct_next_due (tidy_flight t flight)) =
  (ct_subs t, ct_peer_counts t, ct_peer_indefinite_counts t, ct_policy t, ct_next_due t) /\ (forall e, e ∈ ct_flights (tidy_flight t flight) -> e ∈ ct_flights t).
Proof.
  intros Hs. unfold tidy_flight. destruct (vec_get fst (ct_flights t) flight) as [[f state]|]; [|split_and!; [split; [done|by left]|done|done]].
  destruct (is_idle_default state); [|split_and!; [split; [done|by left]|done|done]]. destruct (remove_flight_shrunk t flight Hs) as [Hs' Hi]. split_and!; [split; [done|]|done|done]. intros e He. left. by apply Hi.
Qed.

(** ** Abandoned reports *)

Definition rest_of t := (ct_subs t, ct_peer_counts t, ct_peer_indefinite_counts t, ct_policy t, ct_next_due t).
Lemma end_one_spec t token : vec_sorted fst (ct_flights t) ->
  vec_sorted fst (ct_flights (end_one t token)) /\ rest_of (end_one t token) = rest_of t /\
  (forall e, e ∈ ct_flights (end_one t token) -> fs_ticket e.2 = 0 \/ e ∈ ct_flights t /\ e.1 <> tk_flight token).
Proof.
  intros Hs. unfold end_one. set (f := fun e : Z * FlightState => (e.1, _)). set (t1 := over ct_flights _ t).
  assert (Hk : forall x : Z * FlightState (Obs := Obs), x.1 = tk_flight token -> (f x).1 = tk_flight token) by done.
  destruct (vec_modify_spec fst (ct_flights t) (tk_flight token) f Hs Hk) as [Hs1 Hp].
  destruct (tidy_shrunk t1 (tk_flight token) Hs1) as ((Hs2 & _) & Hrest & Hin). split_and!; [done|exact Hrest|].
  intros e He. change (e ∈ ct_flights (tidy_flight t1 (tk_flight token))) in He. apply Hin in He. change (e ∈ vec_modify fst (ct_flights t) (tk_flight token) f) in He.
  destruct (vec_get fst (ct_flights t) (tk_flight token)) as [x|] eqn:Eg.
  - destruct Hp as (r & P1 & P2). rewrite P2, elem_of_cons in He. destruct He as [->|He]; [by left|]. right. apply vec_get_iff in Eg as [_ Eg]; [|done].
    split; [rewrite P1; apply elem_of_cons; by right|]. rewrite <-Eg. by apply (rest_other fst _ _ _ _ Hs P1).
  - rewrite Hp in He. right. split; [done|]. rewrite vec_get_none in Eg by done. by apply Eg.
Qed.
Lemma end_all_spec tokens : forall t, vec_sorted fst (ct_flights t) -> let t' := fold_left end_one tokens t in
  vec_sorted fst (ct_flights t') /\ rest_of t' = rest_of t /\ (forall e, e ∈ ct_flights t' -> fs_ticket e.2 = 0 \/ e ∈ ct_flights t /\ e.1 ∉ tk_flight <$> tokens).
Proof.
  induction tokens as [|token tokens IH]; intros t Hs; cbn [fold_left]; [split_and!; [done|done|]; intros e He; right; split; [done|apply not_elem_of_nil]|].
  destruct (end_one_spec t token Hs) as (Hs1 & Hr1 & He1). destruct (IH _ Hs1) as (Hs2 & Hr2 & He2). split_and!; [done|congruence|]. intros e He. destruct (He2 e He) as [Hz|[Hin Hn]]; [by left|].
  destruct (He1 e Hin) as [Hz|[Hin' Hne]]; [by left|]. right. split; [done|]. cbn. apply not_elem_of_cons. done.
Qed.
Lemma end_abandoned_spec t now : vec_sorted fst (ct_flights t) ->
  vec_sorted fst (ct_flights (end_abandoned t now)) /\ rest_of (end_abandoned t now) = rest_of t /\
  (forall e, e ∈ ct_flights (end_abandoned t now) -> fs_ticket e.2 = 0 \/ e ∈ ct_flights t) /\
  (forall e, e ∈ ct_flights (end_abandoned t now) -> fresh (outstanding_deadline e.2) now).
Proof.
  intros Hs. unfold end_abandoned. set (tokens := _ <$> filter _ _). destruct (end_all_spec tokens t Hs) as (Hs' & Hr & He). split_and!; [done|done|intros e Hin; destruct (He e Hin) as [?|[? _]]; [by left|by right]|].
  intros e Hin. unfold outstanding_deadline. destruct (fs_ticket e.2 =? 0) eqn:Ez; [done|]. destruct (fs_deadline e.2) as [d|] eqn:Ed; [|done]. cbn.
  destruct (He e Hin) as [Hz|[Ho Hn]]; [lia|]. destruct (decide (now < d)) as [|Hge]; [done|]. destruct Hn. unfold tokens. rewrite <-list_fmap_compose. apply list_elem_of_fmap. exists e. split; [done|].
  apply list_elem_of_filter. split; [|done]. unfold outstanding. rewrite Ed, Ez. cbn. by replace (now <? d) with false by lia.
Qed.

(** ** Removal *)

Lemma vec_remove_filter {T K} `{Ordered K} `{EqDecision K} (key : T -> K) (l : list T) k : vec_sorted key l ->
  (vec_remove key l k).1 = filter (fun x => key x <> k) l /\ ((vec_remove key l k).2 = None <-> k ∉ key <$> l).
Proof.
  intros Hs. unfold vec_remove. pose proof (vec_split key l k Hs) as Hf. destruct (vec_find key l k) as [i|i].
  - destruct Hf as (l1 & y & l2 & E & -> & Hk & Hg). pose proof Hs as Hs0. rewrite E in *. rewrite delete_middle, list_lookup_middle by done. cbn [fst snd].
    assert (Hne : forall x, x ∈ l1 ++ l2 -> key x <> k) by (intros x Hx; rewrite <-Hk; apply (rest_other key _ _ _ _ Hs0 (symmetry (Permutation_middle l1 l2 y)) Hx)).
    split.
    + rewrite filter_app, filter_cons_False by (intros Hc; by apply Hc). rewrite <-filter_app. clear - Hne. induction (l1 ++ l2) as [|x l IH]; [done|].
      rewrite filter_cons_True by (apply Hne, elem_of_cons; by left). f_equal. apply IH. intros z Hz. apply Hne, elem_of_cons. by right.
    + split; [done|]. intros Hn. destruct Hn. rewrite <-Hk. apply list_elem_of_fmap_2, elem_of_app. right. apply elem_of_cons. by left.
  - destruct Hf as (l1 & l2 & -> & _ & Hlo & Hhi & Hg). cbn [fst snd]. rewrite vec_get_none in Hg by done. split.
    + clear - Hg. induction (l1 ++ l2) as [|x l IH]; [done|]. rewrite filter_cons_True by (apply Hg, elem_of_cons; by left). f_equal. apply IH. intros z Hz. apply Hg, elem_of_cons. by right.
    + split; [|done]. intros _ (x & E & Hx)%list_elem_of_fmap. by destruct (Hg x Hx).
Qed.
(** What a removal leaves: the other entries, and flights that were there. *)
Record removed t t' (gone : Snapshot -> Prop) `{!forall s, Decision (gone s)} : Prop := {
  rm_inv : table_inv t';
  rm_subs : ct_subs t' = filter (fun s => ~ gone s) (ct_subs t);
  rm_flights : forall e, e ∈ ct_flights t' -> e ∈ ct_flights t;
  rm_policy : ct_policy t' = ct_policy t;
  rm_due : ct_next_due t' = ct_next_due t
}.
Lemma inv_removed_one t t' sub : table_inv t -> ct_subs t ≡ₚ sub :: ct_subs t' -> vec_sorted sn_key (ct_subs t') ->
  vec_sorted fst (ct_flights t') -> (forall e, e ∈ ct_flights t' -> e ∈ ct_flights t) ->
  ct_peer_counts t' = count_down (ct_peer_counts t) (recipient (sn_subscription sub)) 1 ->
  ct_peer_indefinite_counts t' = (if is_some (expires sub) then ct_peer_indefinite_counts t else count_down (ct_peer_indefinite_counts t) (recipient (sn_subscription sub)) 1) ->
  ct_policy t' = ct_policy t -> ct_next_due t' = ct_next_due t -> table_inv t'.
Proof.
  intros [H1 H2 H3 H4 H5 H6 H7 H8 H9 H10] Hp Hs Hfs Hf Hc Hi Hpol Hdue. pose proof (fun p => peer_entries_perm _ _ p Hp) as P1. pose proof (fun p => endless_entries_perm _ _ p Hp) as P2.
  setoid_rewrite peer_entries_cons in P1. setoid_rewrite endless_entries_cons in P2.
  assert (Hsub : forall s, s ∈ ct_subs t' -> s ∈ ct_subs t) by (intros s Hin; rewrite Hp; apply elem_of_cons; by right).
  constructor; rewrite ?Hpol, ?Hdue; try done.
  - intros s Hin. by apply H2, Hsub.
  - rewrite Hc. eapply counts_ext; [|apply count_down_ok; [exact H4|]]; [|rewrite P1, decide_True by done; lia]. intros p. cbn beta. rewrite P1. case_decide; [lia|done].
  - rewrite Hi. destruct (expires sub) as [e|] eqn:Ee; cbn [is_some].
    + eapply counts_ext; [|exact H5]. intros p. rewrite P2. rewrite decide_False by naive_solver. done.
    + eapply counts_ext; [|apply count_down_ok; [exact H5|]]; [|rewrite P2, decide_True by done; lia]. intros p. cbn beta. rewrite P2. destruct (decide (p = _)) as [->|Hne]; [rewrite decide_True by done; lia|].
      by rewrite decide_False by naive_solver.
  - intros s Hin. by apply H6, Hsub.
  - intros e He. by apply H7, Hf.
  - apply Permutation_length in Hp. cbn in Hp. lia.
  - intros p. specialize (H9 p). rewrite P1 in H9. case_decide; lia.
  - intros p. specialize (H10 p). rewrite P2 in H10. case_decide; lia.
Qed.
Lemma remove_internal_spec t key cancelled : table_inv t ->
  removed t (remove_internal t key cancelled).1 (fun s => sn_key s = key) /\ (remove_internal t key cancelled).2 = bool_decide (key ∈ sn_key <$> ct_subs t).
Proof.
  intros Hinv. pose proof Hinv as [H1 _ H3 _ _ _ _ _ _ _]. pose proof (vec_remove_filter sn_key (ct_subs t) key H1) as [Hf Hn]. pose proof (vec_remove_spec sn_key (ct_subs t) key H1) as Hr.
  unfold remove_internal. destruct (vec_remove sn_key (ct_subs t) key) as [subs [sub|]]; cbn [fst snd] in *.
  - destruct Hr as (Hs & _ & _ & Hp). destruct (remove_flight_shrunk t (sn_flight sub) H3) as [Hfs Hfi].
    set (t' := match multiple_context key with Some _ => _ | None => _ end).
    assert (Ht' : (ct_subs t', ct_peer_counts t', ct_peer_indefinite_counts t', ct_policy t', ct_next_due t') = (subs, ct_peer_counts t, ct_peer_indefinite_counts t, ct_policy t, ct_next_due t) /\
      vec_sorted fst (ct_flights t') /\ (forall e, e ∈ ct_flights t' -> e ∈ ct_flights t)) by (unfold t'; destruct (multiple_context key); [case_decide|]; by split_and!).
    destruct Ht' as ([= E1 E2 E3 E4 E5] & Hfs' & Hfi'). clearbody t'.
    split; [|symmetry; apply bool_decide_eq_true; destruct (decide (key ∈ sn_key <$> ct_subs t)) as [|Hno]; [done|]; by apply Hn in Hno].
    cbn [fst]. match goal with |- removed t ?x _ => set (t2 := x) end.
    assert (Ht2 : core t2 =
      (subs, ct_flights t', count_down (ct_peer_counts t) (recipient (sn_subscription sub)) 1,
       if is_some (expires sub) then ct_peer_indefinite_counts t else count_down (ct_peer_indefinite_counts t) (recipient (sn_subscription sub)) 1, ct_policy t, ct_next_due t)).
    { unfold core, t2. destruct cancelled, (is_some (expires sub)); cbn; by rewrite ?E1, ?E2, ?E3, ?E4, ?E5. }
    clearbody t2. unfold core in Ht2. injection Ht2 as C1 C2 C3 C4 C5 C6. constructor; [|by rewrite C1|intros e He; apply Hfi'; by rewrite <-C2|done|done].
    eapply (inv_removed_one t _ sub); [done|by rewrite C1|by rewrite C1|by rewrite C2|intros e He; apply Hfi'; by rewrite <-C2|done|done|done|done].
  - destruct Hr as (_ & _ & ->). split; [by constructor|]. symmetry. apply bool_decide_eq_false. by apply Hn.
Qed.
Lemma removed_trans t t' t'' (P Q : Snapshot -> Prop) `{!forall s, Decision (P s)} `{!forall s, Decision (Q s)} `{!forall s, Decision (P s \/ Q s)} :
  removed t t' P -> removed t' t'' Q -> removed t t'' (fun s => P s \/ Q s).
Proof.
  intros [I1 S1 F1 P1 D1] [I2 S2 F2 P2 D2]. constructor; [done| |by intros e He; apply F1, F2|congruence|congruence]. rewrite S2, S1. clear. induction (ct_subs t) as [|s l IH]; [done|].
  destruct (decide (P s)) as [HP|HP]; [rewrite (filter_cons_False (fun s => ~ P s)), (filter_cons_False (fun s => ~ (P s \/ Q s))) by tauto; done|].
  rewrite (filter_cons_True (fun s => ~ P s)) by done. destruct (decide (Q s)) as [HQ|HQ]; [rewrite (filter_cons_False (fun s => ~ Q s)), (filter_cons_False (fun s => ~ (P s \/ Q s))) by tauto; done|].
  rewrite (filter_cons_True (fun s => ~ Q s)), (filter_cons_True (fun s => ~ (P s \/ Q s))) by tauto. by f_equal.
Qed.
Lemma removed_ext t t' (P Q : Snapshot -> Prop) `{!forall s, Decision (P s)} `{!forall s, Decision (Q s)} :
  (forall s, s ∈ ct_subs t -> P s <-> Q s) -> removed t t' P -> removed t t' Q.
Proof.
  intros Heq [I1 S1 F1 P1 D1]. constructor; try done. rewrite S1. clear - Heq. induction (ct_subs t) as [|s l IH]; [done|]. rewrite !filter_cons.
  assert (P s <-> Q s) as Hs by (apply Heq, elem_of_cons; by left). rewrite IH by (intros x Hx; apply Heq, elem_of_cons; by right). repeat case_decide; naive_solver.
Qed.
Lemma remove_keys_spec keys cancelled : forall t, table_inv t -> removed t (remove_keys t keys cancelled).1 (fun s => sn_key s ∈ keys).
Proof.
  induction keys as [|key keys IH]; intros t Hinv; cbn [remove_keys].
  - constructor; [done| |done|done|done]. cbn [fst]. induction (ct_subs t) as [|s l IHl]; [done|]. rewrite filter_cons_True by apply not_elem_of_nil. by f_equal.
  - destruct (remove_internal_spec t key cancelled Hinv) as [Hr _]. destruct (remove_internal t key cancelled) as [t1 b]. cbn [fst] in Hr. pose proof (IH t1 (rm_inv _ _ _ Hr)) as Hr2.
    destruct (remove_keys t1 keys cancelled) as [t2 n]. cbn [fst] in *. pose proof (removed_trans t t1 t2 _ _ Hr Hr2) as Ht. refine (removed_ext t t2 _ _ _ Ht).
    intros s _. cbn beta. by rewrite elem_of_cons.
Qed.
Lemma remove_keys_count keys cancelled : forall t, table_inv t -> NoDup keys -> (forall k, k ∈ keys -> k ∈ sn_key <$> ct_subs t) -> (remove_keys t keys cancelled).2 = length keys.
Proof.
  induction keys as [|key keys IH]; intros t Hinv Hnd Hin; cbn [remove_keys]; [done|]. apply NoDup_cons in Hnd as [Hno Hnd].
  destruct (remove_internal_spec t key cancelled Hinv) as [Hr Hb]. rewrite bool_decide_eq_true_2 in Hb by (apply Hin, elem_of_cons; by left).
  destruct (remove_internal t key cancelled) as [t1 b]. cbn [fst snd] in *. subst b. specialize (IH t1 (rm_inv _ _ _ Hr) Hnd). destruct (remove_keys t1 keys cancelled) as [t2 n]. cbn [snd length] in *.
  rewrite IH; [done|]. intros k Hk. assert (k ∈ sn_key <$> ct_subs t) as (s & Hs & Hks)%list_elem_of_fmap by (apply Hin, elem_of_cons; by right). rewrite (rm_subs _ _ _ Hr). rewrite Hs. apply list_elem_of_fmap_2.
  apply list_elem_of_filter. split; [|done]. intros E. apply Hno. rewrite <-E, <-Hs. done.
Qed.
Lemma fold_unexpired now l : forall d, fold_left (fun due s => if expired now s then due else earliest [due; expires s]) l d =
  fold_left (fun due s => earliest [due; if expired now s then None else expires s]) l d.
Proof.
  induction l as [|s l IH]; intros d; cbn [fold_left]; [done|]. rewrite IH. f_equal. destruct (expired now s); [|done]. rewrite earliest_two. by destruct d.
Qed.
Definition lasting (now : Instant) s : Prop := expired now s = false.
#[global] Instance lasting_dec now s : Decision (lasting now s).
Proof. unfold lasting. apply _. Defined.
Lemma keys_nodup (l : list (Snapshot (Obs := Obs))) : vec_sorted sn_key l -> NoDup (sn_key <$> l : list CovSubscriptionKey).
Proof.
  intros Hs. induction l as [|s l IH]; [constructor|]. pose proof Hs as [Hs' Ha]%StronglySorted_inv. cbn. constructor; [|by apply IH].
  intros (x & E & Hx)%list_elem_of_fmap. rewrite Forall_forall in Ha. specialize (Ha x Hx). unfold below in Ha. by rewrite E, compare_refl in Ha.
Qed.
Lemma nothing_due t now : table_inv t -> fresh (ct_next_due t) now -> Forall (lasting now) (ct_subs t).
Proof.
  intros Hinv Hf. apply Forall_forall. intros s Hs. unfold lasting, expired. destruct (expires s) as [e|] eqn:E; [|done]. pose proof (ti_due _ Hinv s Hs) as Hd. rewrite E in Hd. destruct Hd as (d & Hd & Hle).
  rewrite Hd in Hf. cbn in Hf. lia.
Qed.
Lemma filter_all {A} (P : A -> Prop) `{!forall x, Decision (P x)} l : Forall P l -> filter P l = l.
Proof. induction 1; [done|]. rewrite filter_cons_True by done. by f_equal. Qed.
Lemma expire_spec t now : table_inv t -> let t' := (expire t now).1 in
  table_inv t' /\ ct_subs t' = filter (lasting now) (ct_subs t) /\ (expire t now).2 = length (filter (fun s => expired now s = true) (ct_subs t)) /\
  fresh (ct_next_due t') now /\ ct_policy t' = ct_policy t /\ (forall e, e ∈ ct_flights t' -> e ∈ ct_flights t \/ fs_ticket e.2 = 0).
Proof.
  intros Hinv. unfold expire. destruct (match ct_next_due t with None => true | Some due => now <? due end) eqn:Edue.
  - assert (Hf : fresh (ct_next_due t) now) by (destruct (ct_next_due t); cbn; [lia|done]). pose proof (nothing_due t now Hinv Hf) as Hall. cbn [fst snd]. split_and!; [done|by rewrite filter_all|..|done|done|by left].
    clear - Hall. induction Hall as [|s l Hs _ IH]; [done|]. rewrite filter_cons_False; [done|]. unfold lasting in Hs. congruence.
  - destruct (end_abandoned_spec t now (ti_flights _ Hinv)) as (Hfs & Hrest & Hfl & Hfresh). set (t1 := end_abandoned t now) in *.
    assert (Hinv1 : table_inv t1). { eapply inv_flights; [exact Hrest| |exact Hinv]. split; [done|]. intros e He. destruct (Hfl e He); [by right|by left]. }
    unfold rest_of in Hrest. injection Hrest as E1 E2 E3 E4 E5. rewrite fold_unexpired. set (due1 := fold_left _ (ct_subs t1) None).
    set (keys := sn_key <$> filter _ (ct_subs t1)). pose proof (remove_keys_spec keys false t1 Hinv1) as Hr.
    assert (Hkeys : forall s, s ∈ ct_subs t1 -> sn_key s ∈ keys <-> expired now s = true).
    { intros s Hs. unfold keys. split; [|intros He; apply list_elem_of_fmap_2, list_elem_of_filter; done]. intros (x & E & [Hx Hin]%list_elem_of_filter)%list_elem_of_fmap.
      by rewrite (vec_sorted_unique sn_key (ct_subs t1) s x (ti_sorted _ Hinv1) Hs Hin E). }
    assert (Hcount : (remove_keys t1 keys false).2 = length (filter (fun s => expired now s = true) (ct_subs t))).
    { rewrite remove_keys_count; [unfold keys; by rewrite length_fmap, E1|done| |intros k (x & -> & [_ Hx]%list_elem_of_filter)%list_elem_of_fmap; by apply list_elem_of_fmap_2].
      unfold keys. pose proof (keys_nodup _ (ti_sorted _ Hinv1)) as Hnd. clear - Hnd. induction (ct_subs t1) as [|s l IH]; [constructor|]. cbn in Hnd. apply NoDup_cons in Hnd as [Hno Hnd]. rewrite filter_cons.
      case_decide; [|by apply IH]. cbn. constructor; [|by apply IH]. intros (x & E & [_ Hx]%list_elem_of_filter)%list_elem_of_fmap. apply Hno. rewrite E. by apply list_elem_of_fmap_2. }
    destruct (remove_keys t1 keys false) as [t2 n]. cbn [fst snd] in Hr, Hcount. destruct Hr as [I2 S2 F2 P2 D2].
    assert (Hsubs : ct_subs t2 = filter (lasting now) (ct_subs t)).
    { rewrite S2, E1. rewrite E1 in Hkeys. clear - Hkeys. induction (ct_subs t) as [|s l IH]; [done|]. rewrite !filter_cons. rewrite IH by (intros x Hx; apply Hkeys, elem_of_cons; by right).
      specialize (Hkeys s ltac:(apply elem_of_cons; by left)). unfold lasting. repeat case_decide; try done; destruct (expired now s); naive_solver. }
    cbn [fst snd]. set (due := fold_left _ (ct_flights _) due1). cbn in due.
    destruct (fold_due (fun s => if expired now s then None else expires s) (ct_subs t1) None) as (_ & G2 & G3). fold due1 in G2, G3.
    destruct (fold_due (fun e : Z * FlightState => outstanding_deadline e.2) (ct_flights t2) due1) as (K1 & K2 & K3).
    split_and!; [|exact Hsubs|exact Hcount| |cbn; congruence|intros e He; cbn in He; apply F2 in He; destruct (Hfl e He); [by right|by left]].
    + destruct I2 as [J1 J2 J3 J4 J5 J6 J7 J8 J9 J10]. constructor; try done.
      intros s Hs. cbn in Hs |- *. apply K1. assert (s ∈ ct_subs t1) as Hs1 by (rewrite S2 in Hs; by apply list_elem_of_filter in Hs as [_ ?]). specialize (G2 s Hs1).
        rewrite Hsubs in Hs. apply list_elem_of_filter in Hs as [Hl _]. by rewrite (Hl : expired now s = false) in G2.
    + cbn. apply K3; [apply G3; [done|]|intros e He; apply Hfresh, F2, He]. intros s Hs. unfold expired. destruct (expires s) as [e|]; [|done]. destruct (e <=? now) eqn:E; [done|]. cbn. lia.
Qed.

(** ** Entries that look alike *)

(** What the invariant sees of an entry. *)
Definition view s := (sn_key s, sub_key (sn_subscription s), recipient (sn_subscription s), expires s).
Lemma sorted_keys (l : list (Snapshot (Obs := Obs))) : vec_sorted sn_key l <-> StronglySorted (fun a b => compare a b = Lt) (sn_key <$> l).
Proof.
  unfold vec_sorted. induction l as [|s l IH]; [split; constructor|]. cbn. split; intros [Hs Ha]%StronglySorted_inv; constructor; try (by apply IH); [by apply Forall_fmap|by apply Forall_fmap in Ha].
Qed.
Lemma views_alike l : forall l', view <$> l' = view <$> l ->
  (forall s', s' ∈ l' -> exists s, s ∈ l /\ view s' = view s) /\ sn_key <$> l' = sn_key <$> l /\ (forall p, peer_entries l' p = peer_entries l p) /\ (forall p, endless_entries l' p = endless_entries l p) /\ length l' = length l.
Proof.
  induction l as [|s l IH]; intros [|s' l'] E; try done. { split_and!; [by intros ? ?%not_elem_of_nil|done..]. }
  cbn in E. injection E as E1 E2 E3 E4 E. destruct (IH l' E) as (H1 & H2 & H3 & H4 & H5). split_and!.
  - intros x [->|Hx]%elem_of_cons; [exists s; split; [apply elem_of_cons; by left|unfold view; congruence]|]. destruct (H1 x Hx) as (y & Hy & Ey). exists y. split; [apply elem_of_cons; by right|done].
  - cbn. congruence.
  - intros p. rewrite !peer_entries_cons, H3, E3. done.
  - intros p. rewrite !endless_entries_cons, H4, E3, E4. done.
  - cbn. by rewrite H5.
Qed.
(** Entries that look alike, flights in order whose deadlines are known, and no later wake. *)
Lemma inv_change t t' : view <$> ct_subs t' = view <$> ct_subs t -> vec_sorted fst (ct_flights t') -> (forall e, e ∈ ct_flights t' -> due_before (ct_next_due t') (outstanding_deadline e.2)) ->
  (forall x, due_before (ct_next_due t) x -> due_before (ct_next_due t') x) -> ct_peer_counts t' = ct_peer_counts t -> ct_peer_indefinite_counts t' = ct_peer_indefinite_counts t -> ct_policy t' = ct_policy t ->
  table_inv t -> table_inv t'.
Proof.
  intros Hv Hs Hf Hd Hc Hi Hp [H1 H2 H3 H4 H5 H6 H7 H8 H9 H10]. destruct (views_alike _ _ Hv) as (V1 & V2 & V3 & V4 & V5). constructor; rewrite ?Hc, ?Hi, ?Hp, ?V5; try done.
  - apply sorted_keys. rewrite V2. by apply sorted_keys.
  - intros s' (s & Hin & [= E1 E2 E3 E4])%V1. rewrite E1, E2. by apply H2.
  - eapply counts_ext; [|exact H4]. done.
  - eapply counts_ext; [|exact H5]. done.
  - intros s' (s & Hin & [= E1 E2 E3 E4])%V1. rewrite E4. by apply Hd, H6.
  - intros p. by rewrite V3.
  - intros p. by rewrite V4.
Qed.
Lemma sub_key_recipient (u : CovSubscription (Obs := Obs)) key : sub_key u = Ok key ->
  recipient u = match key with KeyObject r _ _ | KeyProperty r _ _ _ _ => r | KeyMultiple c _ _ _ => mc_recipient c end.
Proof.
  unfold sub_key. destruct (recipient_validate (recipient u)); [|done]. cbn [rbind]. destruct (notification_kind u), (monitored_property u), (monitored_property_array_index u); by intros [= <-].
Qed.
Lemma expire_fresh t now : fresh (ct_next_due t) now -> expire t now = (t, 0%nat).
Proof. intros Hf. unfold expire. destruct (ct_next_due t); [|done]. cbn in Hf. by replace (now <? i) with true by lia. Qed.
End Invariant.
