(* ===== verification/CovAdmission.v ===== *)
(** * Admission to the COV table

    A subscription admitted under the caps keeps the table's invariant; what [subscribe] and [subscribe_multiple] leave in the table on every branch. *)

From Stdlib Require Import Sorting.Sorted.
From S2P Require Import Prelude Time WireError Values Address SortedVec CovTable CovTheorems.
Open Scope Z_scope.

Section Admission.
Context {Obs : Type}.
Implicit Types (t : CovTable (Obs := Obs)) (s : Snapshot (Obs := Obs)).
#[local] Abbreviation expires s := (expires_at (sn_subscription s)).

(** Room for one entry: a new key within the peer's and the table's caps, a new endless entry within its own. *)
Definition room_for t (key : CovSubscriptionKey) (sub : CovSubscription (Obs := Obs)) : Prop :=
  (subs_get t key = None -> (length (ct_subs t) < max_subscriptions_global (ct_policy t))%nat /\ (peer_entries (ct_subs t) (recipient sub) < max_subscriptions_per_peer (ct_policy t))%nat) /\
  (expires_at sub = None -> match subs_get t key with Some old => expires old <> None | None => True end ->
    (endless_entries (ct_subs t) (recipient sub) < max_indefinite_per_peer (ct_policy t))%nat).
Lemma entry_key t key s : table_inv t -> subs_get t key = Some s -> s ∈ ct_subs t /\ sn_key s = key /\ sub_key (sn_subscription s) = Ok key.
Proof. intros Hinv Hg. unfold subs_get in Hg. apply vec_get_iff in Hg as [Hin Hk]; [|apply Hinv]. split_and!; [done|done|]. rewrite <-Hk. by apply Hinv. Qed.
Lemma inv_added t t' s : table_inv t -> ct_subs t' ≡ₚ s :: ct_subs t -> vec_sorted sn_key (ct_subs t') -> sub_key (sn_subscription s) = Ok (sn_key s) ->
  vec_sorted fst (ct_flights t') -> (forall e, e ∈ ct_flights t' -> e ∈ ct_flights t) -> ct_peer_counts t' = count_up (ct_peer_counts t) (recipient (sn_subscription s)) ->
  ct_peer_indefinite_counts t' = (if negb (is_some (expires s)) then count_up (ct_peer_indefinite_counts t) (recipient (sn_subscription s)) else ct_peer_indefinite_counts t) ->
  ct_policy t' = ct_policy t -> ct_next_due t' = earliest [ct_next_due t; expires s] -> subs_get t (sn_key s) = None -> room_for t (sn_key s) (sn_subscription s) -> table_inv t'.
Proof.
  intros [H1 H2 H3 H4 H5 H6 H7 H8 H9 H10] Hp Hs Hk Hfs Hf Hc Hi Hpol Hdue Hnew [[R1 R2] R3]; [done|]. rewrite Hnew in R3. rewrite earliest_two in Hdue.
  pose proof (fun p => peer_entries_perm _ _ p Hp) as P1. pose proof (fun p => endless_entries_perm _ _ p Hp) as P2. setoid_rewrite peer_entries_cons in P1. setoid_rewrite endless_entries_cons in P2.
  constructor; rewrite ?Hpol, ?Hdue; try done.
  - intros x. rewrite Hp. intros [->|Hx]%elem_of_cons; [done|by apply H2].
  - rewrite Hc. eapply counts_ext; [|apply count_up_ok; exact H4]. intros p. cbn beta. by rewrite P1.
  - rewrite Hi. destruct (expires s) as [e|] eqn:Ee; cbn [is_some negb].
    + eapply counts_ext; [|exact H5]. intros p. rewrite P2. by rewrite decide_False by naive_solver.
    + eapply counts_ext; [|apply count_up_ok; exact H5]. intros p. cbn beta. rewrite P2. destruct (decide (p = _)) as [->|Hne]; [by rewrite decide_True by done|]. by rewrite decide_False by naive_solver.
  - intros x. rewrite Hp. intros [->|Hx]%elem_of_cons; [apply due_merge_r, due_self|by apply due_merge_l, H6].
  - intros e He. by apply due_merge_l, H7, Hf.
  - apply Permutation_length in Hp. cbn in Hp. lia.
  - intros p. rewrite P1. specialize (H9 p). case_decide as E; [rewrite E in *; lia|done].
  - intros p. rewrite P2. specialize (H10 p). case_decide as E; [|done]. destruct E as [-> E]. specialize (R3 E I). lia.
Qed.
Lemma inv_replaced t t' old s r : table_inv t -> ct_subs t ≡ₚ old :: r -> ct_subs t' ≡ₚ s :: r -> vec_sorted sn_key (ct_subs t') -> sub_key (sn_subscription s) = Ok (sn_key s) ->
  recipient (sn_subscription old) = recipient (sn_subscription s) -> vec_sorted fst (ct_flights t') -> (forall e, e ∈ ct_flights t' -> e ∈ ct_flights t) -> ct_peer_counts t' = ct_peer_counts t ->
  ct_peer_indefinite_counts t' = (if Bool.eqb (negb (is_some (expires old))) (negb (is_some (expires s))) then ct_peer_indefinite_counts t
    else if negb (is_some (expires s)) then count_up (ct_peer_indefinite_counts t) (recipient (sn_subscription s)) else count_down (ct_peer_indefinite_counts t) (recipient (sn_subscription s)) 1) ->
  ct_policy t' = ct_policy t -> ct_next_due t' = earliest [ct_next_due t; expires s] -> subs_get t (sn_key s) = Some old -> room_for t (sn_key s) (sn_subscription s) -> table_inv t'.
Proof.
  intros [H1 H2 H3 H4 H5 H6 H7 H8 H9 H10] Hp Hp' Hs Hk Hrec Hfs Hf Hc Hi Hpol Hdue Hold [_ R3]. rewrite Hold in R3. rewrite earliest_two in Hdue.
  pose proof (fun p => peer_entries_perm _ _ p Hp) as P1. pose proof (fun p => endless_entries_perm _ _ p Hp) as P2. setoid_rewrite peer_entries_cons in P1. setoid_rewrite endless_entries_cons in P2.
  pose proof (fun p => peer_entries_perm _ _ p Hp') as Q1. pose proof (fun p => endless_entries_perm _ _ p Hp') as Q2. setoid_rewrite peer_entries_cons in Q1. setoid_rewrite endless_entries_cons in Q2.
  rewrite Hrec in *. assert (Hsub : forall x, x ∈ r -> x ∈ ct_subs t) by (intros x Hx; rewrite Hp; apply elem_of_cons; by right).
  constructor; rewrite ?Hpol, ?Hdue; try done.
  - intros x. rewrite Hp'. intros [->|Hx]%elem_of_cons; [done|by apply H2, Hsub].
  - rewrite Hc. eapply counts_ext; [|exact H4]. intros p. by rewrite P1, Q1.
  - rewrite Hi. destruct (expires old) as [eo|] eqn:Eo, (expires s) as [e|] eqn:Ee; cbn [is_some negb Bool.eqb].
    + eapply counts_ext; [|exact H5]. intros p. rewrite P2, Q2. by rewrite !decide_False by naive_solver.
    + eapply counts_ext; [|apply count_up_ok; exact H5]. intros p. cbn beta. rewrite P2, Q2. rewrite (decide_False (P := _ /\ Some _ = None)) by naive_solver. destruct (decide (p = _)) as [->|Hne]; [by rewrite decide_True by done|by rewrite decide_False by naive_solver].
    + eapply counts_ext; [|apply count_down_ok; [exact H5|]]; [|rewrite P2, decide_True by done; lia]. intros p. cbn beta. rewrite P2, Q2. rewrite (decide_False (P := _ /\ Some _ = None)) by naive_solver. destruct (decide (p = _)) as [->|Hne]; [rewrite decide_True by done; lia|by rewrite decide_False by naive_solver].
    + eapply counts_ext; [|exact H5]. intros p. by rewrite P2, Q2.
  - intros x. rewrite Hp'. intros [->|Hx]%elem_of_cons; [apply due_merge_r, due_self|by apply due_merge_l, H6, Hsub].
  - intros e He. by apply due_merge_l, H7, Hf.
  - apply Permutation_length in Hp, Hp'. cbn in *. lia.
  - intros p. rewrite Q1, <-P1. apply H9.
  - intros p. rewrite Q2. specialize (H10 p). rewrite P2 in H10. destruct (decide (p = _ /\ expires s = None)) as [E|_]; [|destruct (decide _) in H10; lia]. destruct E as [-> E]. destruct (expires old) as [eo|] eqn:Eo.
    + specialize (R3 E ltac:(done)). rewrite P2 in R3. rewrite (decide_False (P := _ /\ Some _ = None)) in R3 by naive_solver. lia.
    + by rewrite decide_True in H10.
Qed.
Lemma fence_kept t flight : vec_sorted fst (ct_flights t) ->
  rest_of (fence_flight t flight) = rest_of t /\ vec_sorted fst (ct_flights (fence_flight t flight)) /\ (forall e, e ∈ ct_flights (fence_flight t flight) -> e ∈ ct_flights t).
Proof.
  intros Hs. unfold fence_flight. destruct (remove_flight_shrunk t flight Hs) as [Hs' Hi]. destruct (vec_remove fst (ct_flights t) flight) as [l' [[f state]|]]; [|by split_and!].
  cbn [fst] in *. destruct (fs_ticket state =? 0); by split_and!.
Qed.
Lemma publish_spec t key sub generation delay apdu cf : table_inv t -> sub_key sub = Ok key ->
  let '(t', s) := publish t key sub generation delay apdu cf in
  (sn_key s = key /\ sn_subscription s = sub /\ sn_generation s = generation /\ sn_last_successful_ticket s = 0) /\
  ct_subs t' = (vec_insert sn_key (ct_subs t) s).1 /\ ct_policy t' = ct_policy t /\ ct_next_due t' = earliest [ct_next_due t; expires_at sub] /\
  (forall e, e ∈ ct_flights t' -> e ∈ ct_flights t) /\ (room_for t key sub -> table_inv t').
Proof.
  intros Hinv Hk. unfold publish. set (fl := match cf with Some f => (t, f) | None => new_flight t end).
  assert (Hfl : core fl.1 = core t /\ ct_id fl.1 = ct_id t) by (unfold fl; by destruct cf). destruct fl as [t0 flight]. cbn [fst] in Hfl. destruct Hfl as [[= C1 C2 C3 C4 C5 C6] Hid].
  set (s := {| sn_key := key |}). set (t1 := due_by t0 (expires_at sub)).
  change (ct_subs t1) with (ct_subs t0). rewrite C1. pose proof (vec_insert_spec sn_key (ct_subs t) s (ti_sorted _ Hinv)) as Hins.
  destruct (vec_insert sn_key (ct_subs t) s) as [subs replaced] eqn:Ei. destruct Hins as (Hs & Hold & Hp). destruct replaced as [old|].
  - destruct Hp as (Hko & r & P1 & P2). symmetry in Hold. destruct (entry_key t key old Hinv Hold) as (_ & _ & Hko').
    set (t2 := over ct_subs _ t1). set (t3 := if sn_flight old =? flight then t2 else fence_flight t2 (sn_flight old)).
    assert (Hfs2 : vec_sorted fst (ct_flights t2)) by (change (ct_flights t2) with (ct_flights t0); rewrite C2; apply Hinv).
    assert (Ht3 : rest_of t3 = (subs, ct_peer_counts t, ct_peer_indefinite_counts t, ct_policy t, earliest [ct_next_due t; expires_at sub]) /\ vec_sorted fst (ct_flights t3) /\ (forall e, e ∈ ct_flights t3 -> e ∈ ct_flights t)).
    { rewrite <-C2, <-C3, <-C4, <-C5, <-C6. unfold t3. destruct (sn_flight old =? flight); [by split_and!|]. by apply (fence_kept t2). }
    clearbody t3. destruct Ht3 as ([= D1 D2 D3 D4 D5] & Hfs & Hfi). cbn [fst].
    match goal with |- _ /\ ct_subs ?x = _ /\ _ => set (t4 := x) end.
    assert (Ht4 : core t4 = (subs, ct_flights t3, ct_peer_counts t, if Bool.eqb (negb (is_some (expires old))) (negb (is_some (expires s))) then ct_peer_indefinite_counts t
      else if negb (is_some (expires s)) then count_up (ct_peer_indefinite_counts t) (recipient sub) else count_down (ct_peer_indefinite_counts t) (recipient sub) 1, ct_policy t, earliest [ct_next_due t; expires_at sub])).
    { unfold core, t4. cbn [sn_subscription s]. destruct (Bool.eqb _ _); [by rewrite D1, D2, D3, D4, D5|]. destruct (negb _); cbn; by rewrite D1, D2, D3, D4, D5. }
    clearbody t4. injection Ht4 as F1 F2 F3 F4 F5 F6. rewrite Ei. cbn [fst]. split_and!; [done..|by rewrite F2|]. intros Hroom.
    eapply (inv_replaced t t4 old s r); rewrite ?F1, ?F2; try done. rewrite (sub_key_recipient _ _ Hko'), (sub_key_recipient (sn_subscription s) key Hk). done.
  - cbn [fst]. match goal with |- _ /\ ct_subs ?x = _ /\ _ => set (t4 := x) end.
    assert (Ht4 : core t4 = (subs, ct_flights t, count_up (ct_peer_counts t) (recipient sub), if negb (is_some (expires s)) then count_up (ct_peer_indefinite_counts t) (recipient sub) else ct_peer_indefinite_counts t,
      ct_policy t, earliest [ct_next_due t; expires_at sub])).
    { rewrite <-C2, <-C3, <-C4, <-C5, <-C6. unfold core, t4. cbn [sn_subscription s]. by destruct (negb _). }
    clearbody t4. injection Ht4 as F1 F2 F3 F4 F5 F6. rewrite Ei. cbn [fst]. split_and!; [done..|by rewrite F2|]. intros Hroom.
    eapply (inv_added t t4 s); rewrite ?F1, ?F2; try done. apply Hinv.
Qed.

(** ** What expiry and the checks leave alone *)

Definition fixed_of t := (ct_id t, ct_generation t, ct_issued t, ct_next_flight t, ct_timing t, ct_pending t).
Lemma remove_internal_fixed t key cancelled : fixed_of (remove_internal t key cancelled).1 = fixed_of t.
Proof. unfold remove_internal. destruct (vec_remove _ _ _) as [l [s|]]; [|done]. destruct (multiple_context key); [case_decide|]; by destruct (is_some _), cancelled. Qed.
Lemma remove_keys_fixed keys cancelled : forall t, fixed_of (remove_keys t keys cancelled).1 = fixed_of t.
Proof.
  induction keys as [|key keys IH]; intros t; cbn [remove_keys]; [done|]. pose proof (remove_internal_fixed t key cancelled) as Hf. destruct (remove_internal t key cancelled) as [t1 b].
  specialize (IH t1). destruct (remove_keys t1 keys cancelled) as [t2 n]. cbn [fst] in *. congruence.
Qed.
Lemma end_one_fixed t token : fixed_of (end_one t token) = fixed_of t.
Proof. unfold end_one, tidy_flight. destruct (vec_get _ _ _) as [[f state]|]; [|done]. by destruct (is_idle_default state). Qed.
Lemma end_all_fixed tokens : forall t, fixed_of (fold_left end_one tokens t) = fixed_of t.
Proof. induction tokens as [|token l IH]; intros t; cbn; [done|]. rewrite IH. apply end_one_fixed. Qed.
Lemma expire_fixed t now : fixed_of (expire t now).1 = fixed_of t.
Proof.
  unfold expire. destruct (match ct_next_due t with None => true | Some due => now <? due end); [done|].
  pose proof (end_all_fixed _ t : fixed_of (end_abandoned t now) = fixed_of t) as H1.
  pose proof (remove_keys_fixed (sn_key <$> filter (fun s => expired now s = true) (ct_subs (end_abandoned t now))) false (end_abandoned t now)) as H2. destruct (remove_keys _ _ _) as [t2 n]. cbn [fst] in *. by rewrite <-H1, <-H2.
Qed.

(** ** Subscribe *)

(** The entries that have not expired. *)
Definition live (now : Instant) t : list Snapshot := filter (lasting now) (ct_subs t).
(** What the table holds at most for a peer. *)
Definition capacity_for (p : CovPolicy) (peer : CovRecipient) : nat :=
  if is_peer_reserved p peer then max_subscriptions_global p else Nat.min (max_subscriptions_global p) (effective_unreserved_capacity p).
(** A subscription the table takes: a key of its own kind, and among the entries still alive, room for what is new about it. *)
Record admissible t (now : Instant) (sub : CovSubscription (Obs := Obs)) (key : CovSubscriptionKey) : Prop := {
  ad_key : sub_key sub = Ok key;
  ad_single : multiple_context key = None;
  ad_allowed : expires_at sub = None -> allow_indefinite_subscriptions (ct_policy t) = true;
  ad_endless : expires_at sub = None -> (forall s, s ∈ live now t -> sn_key s = key -> expires s <> None) -> (endless_entries (live now t) (recipient sub) < max_indefinite_per_peer (ct_policy t))%nat;
  ad_new : key ∉ sn_key <$> live now t -> (peer_entries (live now t) (recipient sub) < max_subscriptions_per_peer (ct_policy t) /\ length (live now t) < capacity_for (ct_policy t) (recipient sub))%nat;
  ad_generation : ct_generation t < U64_MAX
}.
Lemma caps_exact t now peer new_count new_endless : table_inv t -> fresh (ct_next_due t) now -> let '(t', r) := check_caps t peer new_count new_endless now in
  core t' = core t /\ fixed_of t' = fixed_of t /\
  (r = Ok tt <-> (new_endless = 0 \/ endless_entries (ct_subs t) peer + new_endless <= max_indefinite_per_peer (ct_policy t))%nat /\
    (new_count <= max_subscriptions_per_peer (ct_policy t) - peer_entries (ct_subs t) peer /\ new_count <= capacity_for (ct_policy t) peer - length (ct_subs t))%nat).
Proof.
  intros Hinv Hf. unfold check_caps. rewrite (expire_fresh t now Hf). unfold peer_indefinite_count. rewrite (counts_value _ _ peer (ti_endless _ Hinv)).
  destruct (bool_decide (0 < new_endless)%nat && bool_decide _) eqn:E.
  { apply andb_true_iff in E as [E1%bool_decide_eq_true E2%bool_decide_eq_true]. split_and!; [done|done|]. split; [done|lia]. }
  assert (He : (new_endless = 0 \/ endless_entries (ct_subs t) peer + new_endless <= max_indefinite_per_peer (ct_policy t))%nat).
  { apply andb_false_iff in E as [E%bool_decide_eq_false|E%bool_decide_eq_false]; lia. }
  unfold cap_passed, room, peer_subscription_count. rewrite (counts_value _ _ peer (ti_counts _ Hinv)). fold (capacity_for (ct_policy t) peer).
  repeat case_decide; (split_and!; [done|done|]); (split; [done || lia|try done; lia]).
Qed.
Lemma get_live t now key s : table_inv t -> (subs_get (expire t now).1 key = Some s <-> s ∈ live now t /\ sn_key s = key).
Proof. intros Hinv. destruct (expire_spec t now Hinv) as (Hinv1 & Hsubs & _). unfold subs_get. rewrite vec_get_iff by apply Hinv1. by rewrite Hsubs. Qed.
Lemma get_live_none t now key : table_inv t -> (subs_get (expire t now).1 key = None <-> key ∉ sn_key <$> live now t).
Proof.
  intros Hinv. split.
  - intros Hn (s & -> & Hs)%list_elem_of_fmap. assert (subs_get (expire t now).1 (sn_key s) = Some s) by (by apply get_live). congruence.
  - intros Hn. destruct (subs_get (expire t now).1 key) as [s|] eqn:E; [|done]. apply get_live in E as [Hs <-]; [|done]. destruct Hn. by apply list_elem_of_fmap_2.
Qed.
(** The checks of one subscription, over the entries still alive. *)
Lemma admission_exact t now sub key : table_inv t -> sub_key sub = Ok key -> multiple_context key = None ->
  let t1 := (expire t now).1 in
  let '(t2, r) := check_admission t1 (recipient sub) (negb (is_some (expires_at sub))) (sn_subscription <$> subs_get t1 key) now in
  core t2 = core t1 /\ fixed_of t2 = fixed_of t1 /\ (r = Ok tt /\ ct_generation t < U64_MAX <-> admissible t now sub key).
Proof.
  intros Hinv Hk Hm t1. destruct (expire_spec t now Hinv) as (Hinv1 & Hsubs & _ & Hfresh & Hpol & _). pose proof (get_live_none t now key Hinv) as Hnone. pose proof (fun s => get_live t now key s Hinv) as Hsome. fold t1 in Hinv1, Hsubs, Hfresh, Hpol, Hnone, Hsome.
  change (filter (lasting now) (ct_subs t)) with (live now t) in Hsubs. unfold check_admission. rewrite (expire_fresh t1 now Hfresh). rewrite Hpol.
  destruct (negb (is_some (expires_at sub)) && negb (allow_indefinite_subscriptions (ct_policy t))) eqn:Eallow.
  { split_and!; [done|done|]. split; [by intros [? _]|]. intros Ha. apply andb_true_iff in Eallow as [E1 E2]. destruct (expires_at sub) as [e|] eqn:Ee; [done|]. by rewrite (ad_allowed _ _ _ _ Ha Ee) in E2. }
  assert (Hallow : expires_at sub = None -> allow_indefinite_subscriptions (ct_policy t) = true).
  { intros Ee. rewrite Ee in Eallow. by destruct (allow_indefinite_subscriptions _). }
  destruct (subs_get t1 key) as [old|] eqn:Eg; cbn [fmap option_fmap option_map].
  - match goal with |- context [check_caps t1 _ 0 ?n now] => pose proof (caps_exact t1 now (recipient sub) 0 n Hinv1 Hfresh) as Hcaps; set (ni := n) in * end. destruct (check_caps _ _ _ _ _) as [t2 r]. destruct Hcaps as (Hc & Hfx & Hr). split_and!; [done|done|].
    assert (Hold : old ∈ live now t /\ sn_key old = key) by (by apply Hsome). rewrite Hr, Hsubs, Hpol. split.
    + intros [[He _] Hgen]. constructor; [done..| | |done].
      * intros Ee Hall. destruct Hold as [Hin Hko]. specialize (Hall old Hin Hko). unfold ni in He. rewrite Ee in He. cbn in He. destruct (expires old); [|done]. cbn in He. lia.
      * intros Hno. destruct Hno. destruct Hold as [Hin <-]. by apply list_elem_of_fmap_2.
    + intros Ha. split; [|apply Ha]. split; [|lia]. unfold ni. destruct (expires_at sub) as [e|] eqn:Ee; cbn; [by left|]. destruct (expires old) as [eo|] eqn:Eo; cbn; [|by left]. right.
      assert (endless_entries (live now t) (recipient sub) < max_indefinite_per_peer (ct_policy t))%nat; [|lia]. apply (ad_endless _ _ _ _ Ha Ee). intros s Hs Hks.
      replace s with old; [by rewrite Eo|]. assert (Some old = Some s) as [= E] by (by apply Hsome). done.
  - match goal with |- context [check_caps t1 _ 1 ?n now] => pose proof (caps_exact t1 now (recipient sub) 1 n Hinv1 Hfresh) as Hcaps; set (ni := n) in * end. destruct (check_caps _ _ _ _ _) as [t2 r]. destruct Hcaps as (Hc & Hfx & Hr). split_and!; [done|done|].
    assert (Hno : key ∉ sn_key <$> live now t) by (by apply Hnone). rewrite Hr, Hsubs, Hpol. split.
    + intros [(He & Hp1 & Hp2) Hgen]. constructor; [done..| |intros _; lia|done]. intros Ee _. unfold ni in He. rewrite Ee in He. cbn in He. lia.
    + intros Ha. split; [|apply Ha]. destruct (ad_new _ _ _ _ Ha Hno) as [N1 N2]. split; [|lia]. unfold ni. destruct (expires_at sub) as [e|] eqn:Ee; cbn; [by left|]. right.
      assert (endless_entries (live now t) (recipient sub) < max_indefinite_per_peer (ct_policy t))%nat; [|lia]. apply (ad_endless _ _ _ _ Ha Ee). intros s Hs Hks. destruct Hno. rewrite <-Hks. by apply list_elem_of_fmap_2.
Qed.
Lemma room_admissible t now sub key t2 : table_inv t -> admissible t now sub key -> core t2 = core (expire t now).1 -> room_for t2 key sub.
Proof.
  intros Hinv Ha [= C1 C2 C3 C4 C5 C6]. destruct (expire_spec t now Hinv) as (Hinv1 & Hsubs & _ & _ & Hpol & _). unfold room_for, subs_get. rewrite C1, C5, Hpol. change (vec_get sn_key (ct_subs (expire t now).1) key) with (subs_get (expire t now).1 key).
  rewrite Hsubs. fold (live now t). split.
  - intros Hn%(get_live_none t now key Hinv). destruct (ad_new _ _ _ _ Ha Hn) as [N1 N2]. unfold capacity_for in N2. case_match; lia.
  - intros Ee Hold. apply (ad_endless _ _ _ _ Ha Ee). intros s Hs Hk. assert (Hg : subs_get (expire t now).1 key = Some s) by (by apply get_live). by rewrite Hg in Hold.
Qed.
Lemma live_expired t now : table_inv t -> live now (expire t now).1 = live now t.
Proof. intros Hinv. destruct (expire_spec t now Hinv) as (_ & Hs & _). unfold live. rewrite Hs, list_filter_filter. apply list_filter_iff. naive_solver. Qed.
Lemma live_core t t' now : core t' = core t -> live now t' = live now t.
Proof. intros [= E _ _ _ _ _]. unfold live. by rewrite E. Qed.
Lemma subscribe_spec t sub now : table_inv t -> let '(t', r) := subscribe t sub now in
  table_inv t' /\ ct_policy t' = ct_policy t /\
  match r with
  | Ok s => exists key, admissible t now sub key /\ sn_key s = key /\ sn_subscription s = sub /\ sn_generation s = ct_generation t + 1 /\ ct_subs t' = (vec_insert sn_key (live now t) s).1
  | Err _ => (forall key, ~ admissible t now sub key) /\ live now t' = live now t
  end.
Proof.
  intros Hinv. unfold subscribe. destruct (sub_key sub) as [key|e] eqn:Ek; [|split_and!; [done|done|intros key []; congruence|done]].
  destruct (multiple_context key) as [c|] eqn:Em; cbn [is_some]. { split_and!; [done|done|intros k []; congruence|done]. }
  destruct (expire_spec t now Hinv) as (Hinv1 & Hsubs & _ & _ & Hpol & _). pose proof (admission_exact t now sub key Hinv Ek Em) as Hadm. pose proof (fun t2 Ha => room_admissible t now sub key t2 Hinv Ha) as Hroom.
  pose proof (expire_fixed t now) as Hfx1. pose proof (live_expired t now Hinv) as Hl. destruct (expire t now) as [t1 n]. cbn [fst] in *. destruct (check_admission _ _ _ _ _) as [t2 [u|e]]; destruct Hadm as (Hc & Hfx & Hr).
  - destruct u. assert (Hinv2 : table_inv t2) by (by eapply inv_core). rewrite Hfx1 in Hfx. assert (ct_policy t2 = ct_policy t) as Hpol2 by (injection Hc; congruence). assert (ct_generation t2 = ct_generation t) as Hgen by (by injection Hfx).
    unfold reserve_generations. rewrite decide_False by done. destruct (U64_MAX <? _) eqn:Eg.
    { split_and!; [by eapply inv_core|done| |by rewrite <-Hl; apply (live_core t1)]. intros k Ha. assert (k = key) as -> by (destruct Ha; congruence). apply Hr in Ha. lia. }
    assert (Ha : admissible t now sub key) by (apply Hr; split; [done|lia]). specialize (Hroom t2 Ha Hc).
    match goal with |- context [publish ?x _ _ _ _ _ _] => set (t3 := x) end. assert (Hc3 : core t3 = core t2) by done. clearbody t3. assert (Hinv3 : table_inv t3) by (by eapply inv_core).
    pose proof (publish_spec t3 key sub (ct_generation t2 + 1) None None None Hinv3 Ek) as Hp. destruct (publish _ _ _ _ _ _ _) as [t4 s]. destruct Hp as ((K1 & K2 & K3 & _) & Hs & Hpol4 & _ & _ & Hkeep).
    injection Hc3 as X1 X2 X3 X4 X5 X6. injection Hc as Y1 _ _ _ _ _. split_and!; [apply Hkeep; unfold room_for, subs_get; by rewrite X1, X5|congruence|]. exists key. split_and!; [done..|congruence|]. rewrite Hs, X1, Y1, Hsubs. done.
  - split_and!; [by eapply inv_core|injection Hc; congruence| |by rewrite <-Hl; apply (live_core t1)]. intros k Ha. assert (k = key) as -> by (destruct Ha; congruence). apply Hr in Ha. by destruct Ha.
Qed.
End Admission.
