(* ===== verification/CovMultiple.v ===== *)
(** * SubscribeCOVPropertyMultiple

    Many references admitted at once under one context: how many fit before the first that overflows, and what the admission leaves in the table. *)

From Stdlib Require Import Sorting.Sorted.
From S2P Require Import Prelude Time WireError Values Address SortedVec CovTable CovTheorems CovAdmission.
Open Scope Z_scope.

Section Multiple.
Context {Obs : Type}.
Implicit Types (t : CovTable (Obs := Obs)) (s : Snapshot (Obs := Obs)).
#[local] Abbreviation expires s := (expires_at (sn_subscription s)).

(** ** How many fit *)

Lemma overflow_fits t peer room : (room = Nat.min (CovTable.room t peer).1 (CovTable.room t peer).2) -> forall keys position added, (length added <= room)%nat ->
  let fitting := match overflow_loop t peer room position added keys with None => keys | Some (p, _) => take (p - position) keys end in
  (forall p cap, overflow_loop t peer room position added keys = Some (p, cap) -> (position <= p)%nat) /\
  forall ks, NoDup ks -> (forall k, k ∈ ks -> k ∈ fitting /\ subs_get t k = None /\ k ∉ added) -> (length ks + length added <= room)%nat.
Proof.
  intros Hroom. assert (Hcap : is_Some (cap_passed t peer (room + 1))).
  { unfold cap_passed. destruct (CovTable.room t peer) as [pr tr]. cbn in Hroom. case_decide; [eauto|]. case_decide; [eauto|]. lia. }
  induction keys as [|key keys IH]; intros position added Hlen; cbn [overflow_loop].
  { split; [done|]. intros [|k ks] _ Hks; [done|]. destruct (Hks k) as [Hk _]; [apply elem_of_cons; by left|]. by apply not_elem_of_nil in Hk. }
  destruct (is_some (subs_get t key) || bool_decide (key ∈ added)) eqn:Eold.
  - destruct (IH (S position) added Hlen) as [IH1 IH2]. assert (Hold : subs_get t key = None -> key ∈ added).
    { intros Hn. rewrite Hn in Eold. by apply bool_decide_eq_true in Eold. }
    destruct (overflow_loop t peer room (S position) added keys) as [[p cap]|] eqn:Eo.
    + pose proof (IH1 p cap eq_refl) as Hp. split; [intros ? ? [= -> ->]; lia|]. intros ks Hnd Hks. apply IH2; [done|]. intros k Hk. destruct (Hks k Hk) as (Hin & Hn & Ha). split_and!; [|done|done].
      replace (p - position)%nat with (S (p - S position)) in Hin by lia. cbn in Hin. apply elem_of_cons in Hin as [->|Hin]; [by destruct Ha; apply Hold|done].
    + split; [done|]. intros ks Hnd Hks. apply IH2; [done|]. intros k Hk. destruct (Hks k Hk) as (Hin & Hn & Ha). split_and!; [|done|done]. apply elem_of_cons in Hin as [->|Hin]; [by destruct Ha; apply Hold|done].
  - destruct (decide (length added = room)) as [Efull|Efull].
    + destruct Hcap as [cap ->]. cbn. split; [intros ? ? [= -> ->]; lia|]. rewrite Nat.sub_diag. intros [|k ks] _ Hks; [cbn; lia|]. destruct (Hks k) as [Hk _]; [apply elem_of_cons; by left|]. by apply not_elem_of_nil in Hk.
    + destruct (IH (S position) (key :: added)) as [IH1 IH2]; [cbn; lia|]. set (rest := overflow_loop t peer room (S position) (key :: added) keys) in *.
      assert (Hcount : forall ks, NoDup ks -> (forall k, k ∈ ks -> (k = key \/ k ∈ match rest with None => keys | Some (p, _) => take (p - S position) keys end) /\ subs_get t k = None /\ k ∉ added) -> (length ks + length added <= room)%nat).
      { intros ks Hnd Hks. assert (length (filter (fun k => k <> key) ks) + length (key :: added) <= room)%nat as Hf.
        { apply IH2; [by apply NoDup_filter|]. intros k [Hne Hk]%list_elem_of_filter. destruct (Hks k Hk) as ([->|Hin] & Hn & Ha); [done|]. split_and!; [done|done|]. by apply not_elem_of_cons. }
        cbn [length] in Hf. assert (length ks <= S (length (filter (fun k => k <> key) ks)))%nat; [|lia]. clear - Hnd. induction Hnd as [|k ks Hno Hnd IH]; [cbn; lia|]. rewrite filter_cons. case_decide as E; [cbn; lia|].
        assert (k = key) as -> by (destruct (decide (k = key)); [done|by destruct E]). cbn. enough (filter (fun k => k <> key) ks = ks) as -> by lia. apply filter_all, Forall_forall. intros x Hx ->. done. }
      clearbody rest. destruct rest as [[p cap]|].
      * pose proof (IH1 p cap eq_refl) as Hp. split; [intros ? ? [= -> ->]; lia|]. intros ks Hnd Hks. apply Hcount; [done|]. intros k Hk. destruct (Hks k Hk) as (Hin & Hn & Ha). split_and!; [|done|done].
        replace (p - position)%nat with (S (p - S position)) in Hin by lia. cbn in Hin. by apply elem_of_cons in Hin.
      * split; [done|]. intros ks Hnd Hks. apply Hcount; [done|]. intros k Hk. destruct (Hks k Hk) as (Hin & Hn & Ha). split_and!; [|done|done]. by apply elem_of_cons in Hin.
Qed.

(** ** Refreshing a context *)

Section Refresh.
Variables (context : MultipleContextKey) (route : SubscriberEndpoint) (until : Instant) (delay : Z) (apdu : option Z) (flight : Z).
Hypothesis route_ok : recipient_from_endpoint (se_mac route) (se_network route) = mc_recipient context.
#[local] Abbreviation refresh := (refreshed context route until delay apdu flight).
Definition in_context s : Prop := multiple_context (sn_key s) = Some context.
#[local] Instance in_context_dec s : Decision (in_context s).
Proof. unfold in_context. apply _. Defined.
Lemma context_recipient s : sub_key (sn_subscription s) = Ok (sn_key s) -> in_context s -> recipient (sn_subscription s) = mc_recipient context.
Proof. intros Hk Hc. rewrite (sub_key_recipient _ _ Hk). unfold in_context in Hc. destruct (sn_key s); try done. by injection Hc as ->. Qed.
Lemma refreshed_view s : sub_key (sn_subscription s) = Ok (sn_key s) ->
  sn_key (refresh s) = sn_key s /\ sub_key (sn_subscription (refresh s)) = Ok (sn_key s) /\ recipient (sn_subscription (refresh s)) = recipient (sn_subscription s) /\
  expires (refresh s) = if decide (in_context s) then Some until else expires s.
Proof.
  intros Hk. unfold refreshed. case_bool_decide as Hc; [|by rewrite decide_False]. rewrite decide_True by done. pose proof (context_recipient s Hk Hc) as Hr.
  match goal with |- context [over sn_subscription ?f s] => set (u := f (sn_subscription s)) end.
  assert (Hu : recipient u = recipient (sn_subscription s)) by (rewrite Hr, <-route_ok; done). split_and!; [done| |done|done].
  rewrite <-Hk. change (sub_key u = sub_key (sn_subscription s)). unfold sub_key. rewrite Hu. done.
Qed.
Definition endless_in_context (l : list (Snapshot (Obs := Obs))) : nat := length (filter (fun s => expires s = None) (filter in_context l)).
Lemma refreshed_counts (l : list (Snapshot (Obs := Obs))) : (forall s, s ∈ l -> sub_key (sn_subscription s) = Ok (sn_key s)) -> forall p, peer_entries (refresh <$> l) p = peer_entries l p /\
  endless_entries l p = (endless_entries (refresh <$> l) p + if decide (p = mc_recipient context) then endless_in_context l else 0)%nat.
Proof.
  intros Hk p. induction l as [|s l IH]; [by case_decide|]. destruct IH as [IH1 IH2]; [intros x Hx; apply Hk, elem_of_cons; by right|]. specialize (Hk s ltac:(apply elem_of_cons; by left)).
  destruct (refreshed_view s Hk) as (V1 & V2 & V3 & V4). cbn [fmap list_fmap]. rewrite !peer_entries_cons, !endless_entries_cons, V3, V4. split; [by rewrite IH1|]. unfold endless_in_context. rewrite filter_cons.
  destruct (decide (in_context s)) as [Hc|Hc].
  - rewrite (context_recipient s Hk Hc). rewrite (decide_False (P := _ /\ Some until = None)) by naive_solver. rewrite filter_cons. fold (endless_in_context l). destruct (decide (p = mc_recipient context)) as [->|Hp].
    + destruct (decide (expires s = None)) as [Ee|Ee]; [rewrite decide_True by done; cbn [length]; fold (endless_in_context l); lia|rewrite decide_False by naive_solver; fold (endless_in_context l); lia].
    + rewrite decide_False by naive_solver. lia.
  - fold (endless_in_context l). destruct (decide (p = recipient _ /\ _)); lia.
Qed.
Lemma refresh_inv t t' : table_inv t -> ct_subs t' = refresh <$> ct_subs t -> ct_flights t' = ct_flights t -> ct_peer_counts t' = ct_peer_counts t ->
  ct_peer_indefinite_counts t' = count_down (ct_peer_indefinite_counts t) (mc_recipient context) (endless_in_context (ct_subs t)) -> ct_policy t' = ct_policy t ->
  ct_next_due t' = earliest [ct_next_due t; Some until] -> table_inv t'.
Proof.
  intros [H1 H2 H3 H4 H5 H6 H7 H8 H9 H10] Hs Hf Hc Hi Hp Hd. rewrite earliest_two in Hd. pose proof (refreshed_counts _ H2) as Hcounts.
  assert (Hkeys : sn_key <$> ct_subs t' = sn_key <$> ct_subs t). { rewrite Hs, <-list_fmap_compose. apply list_fmap_ext. intros i s Hx%list_elem_of_lookup_2. apply refreshed_view. by apply H2. }
  assert (Hin : forall s', s' ∈ ct_subs t' -> exists s, s ∈ ct_subs t /\ s' = refresh s) by (rewrite Hs; intros s' (s & -> & Hx)%list_elem_of_fmap; by exists s).
  constructor; rewrite ?Hf, ?Hc, ?Hp, ?Hd; try done.
  - apply sorted_keys. rewrite Hkeys. by apply sorted_keys.
  - intros s' (s & Hx & ->)%Hin. destruct (refreshed_view s (H2 s Hx)) as (V1 & V2 & _). by rewrite V1.
  - eapply counts_ext; [|exact H4]. intros p. rewrite Hs. symmetry. apply Hcounts.
  - rewrite Hi. eapply counts_ext; [|apply count_down_ok; [exact H5|]]; [|destruct (Hcounts (mc_recipient context)) as [_ ->]; rewrite decide_True by done; lia].
    intros p. cbn beta. rewrite Hs. destruct (Hcounts p) as [_ E]. rewrite E. case_decide; lia.
  - intros s' (s & Hx & ->)%Hin. destruct (refreshed_view s (H2 s Hx)) as (_ & _ & _ & V4). rewrite V4. case_decide; [apply due_merge_r, due_self|by apply due_merge_l, H6].
  - intros e He. by apply due_merge_l, H7.
  - by rewrite Hs, length_fmap.
  - intros p. rewrite Hs. destruct (Hcounts p) as [-> _]. apply H9.
  - intros p. rewrite Hs. destruct (Hcounts p) as [_ E]. specialize (H10 p). lia.
Qed.
End Refresh.

(** ** Publishing the references *)

Definition missing t (keys : list CovSubscriptionKey) : list CovSubscriptionKey := filter (fun k => is_some (subs_get t k) = false) keys.
Definition insert_all (l accepted : list (Snapshot (Obs := Obs))) : list (Snapshot (Obs := Obs)) := fold_left (fun l s => (vec_insert sn_key l s).1) accepted l.
(** References of one peer, each with a key and an end. *)
Definition proposals_ok (peer : CovRecipient) (subs : list (CovSubscription (Obs := Obs))) : Prop :=
  forall u, u ∈ subs -> (exists key, sub_key u = Ok key) /\ recipient u = peer /\ expires_at u <> None.
Lemma keys_of_cons (u : CovSubscription (Obs := Obs)) subs key : sub_key u = Ok key -> keys_of (u :: subs) = key :: keys_of subs.
Proof. intros Hk. unfold keys_of. cbn. by rewrite Hk. Qed.
Lemma missing_cons t key keys : length (missing t (key :: keys)) = (if is_some (subs_get t key) then length (missing t keys) else S (length (missing t keys))).
Proof. unfold missing. rewrite filter_cons. destruct (is_some (subs_get t key)); [by rewrite decide_False|by rewrite decide_True]. Qed.
Lemma publish_all_spec peer delay apdu cf subs : forall t generation, table_inv t -> proposals_ok peer subs -> NoDup (keys_of subs) ->
  (length (missing t (keys_of subs)) + length (ct_subs t) <= max_subscriptions_global (ct_policy t))%nat ->
  (length (missing t (keys_of subs)) + peer_entries (ct_subs t) peer <= max_subscriptions_per_peer (ct_policy t))%nat ->
  let '(t', accepted) := publish_all t subs generation delay apdu cf in
  table_inv t' /\ ct_policy t' = ct_policy t /\ ct_subs t' = insert_all (ct_subs t) accepted /\ sn_subscription <$> accepted = subs /\ sn_key <$> accepted = keys_of subs /\
  sn_generation <$> accepted = (fun i => generation + Z.of_nat i) <$> seq 0 (length subs).
Proof.
  induction subs as [|u subs IH]; intros t generation Hinv Hok Hnd Hg Hp; cbn [publish_all]; [done|].
  destruct (Hok u) as ((key & Hk) & Hrec & He); [apply elem_of_cons; by left|]. rewrite (keys_of_cons u subs key Hk) in *. rewrite Hk. apply NoDup_cons in Hnd as [Hno Hnd].
  pose proof (publish_spec t key u generation delay apdu cf Hinv Hk) as Hpub. destruct (publish t key u generation delay apdu cf) as [t1 s]. destruct Hpub as ((K1 & K2 & K3 & _) & Hs & Hpol & _ & _ & Hkeep).
  rewrite missing_cons in Hg, Hp.
  assert (Hinv1 : table_inv t1). { apply Hkeep. split; [|done]. intros Hn. rewrite Hn in Hg, Hp. cbn in Hg, Hp. rewrite Hrec. lia. }
  assert (Hget : forall k, k <> key -> subs_get t1 k = subs_get t k). { intros k Hne. unfold subs_get. rewrite Hs, (vec_get_insert (K := CovSubscriptionKey) sn_key) by apply Hinv. by rewrite K1, decide_False. }
  assert (Hmiss : missing t1 (keys_of subs) = missing t (keys_of subs)).
  { unfold missing. clear - Hno Hget. induction (keys_of subs) as [|k l IH]; [done|]. apply not_elem_of_cons in Hno as [Hne Hno]. rewrite !filter_cons, (Hget k) by done. by rewrite IH. }
  pose proof (vec_insert_spec sn_key (ct_subs t) s (ti_sorted _ Hinv)) as Hins. unfold insert_all. cbn [fold_left].
  assert (Hcount : (length (missing t (keys_of subs)) + length (ct_subs t1) <= max_subscriptions_global (ct_policy t))%nat /\ (length (missing t (keys_of subs)) + peer_entries (ct_subs t1) peer <= max_subscriptions_per_peer (ct_policy t))%nat).
  { rewrite Hs. destruct (vec_insert sn_key (ct_subs t) s) as [l old]. cbn [fst]. destruct Hins as (_ & Hold & Hperm). rewrite K1 in Hold. change (old = subs_get t key) in Hold. rewrite <-Hold in Hg, Hp. destruct old as [old|]; cbn [is_some] in Hg, Hp.
    - destruct Hperm as (_ & r & P1 & P2). symmetry in Hold. destruct (entry_key t key old Hinv Hold) as (_ & _ & Hko).
      rewrite (Permutation_length P1) in Hg. rewrite (Permutation_length P2). rewrite (peer_entries_perm _ _ peer P1), peer_entries_cons in Hp. rewrite (peer_entries_perm _ _ peer P2), peer_entries_cons.
      rewrite (sub_key_recipient _ _ Hko), <-(sub_key_recipient _ _ Hk) in Hp. rewrite K2. done.
    - rewrite (Permutation_length Hperm), (peer_entries_perm _ _ peer Hperm), peer_entries_cons, K2, Hrec, decide_True by done. cbn [length]. lia. }
  specialize (IH t1 (generation + 1) Hinv1 ltac:(intros x Hx; apply Hok, elem_of_cons; by right) Hnd). rewrite Hmiss, Hpol in IH. specialize (IH (proj1 Hcount) (proj2 Hcount)).
  destruct (publish_all t1 subs (generation + 1) delay apdu cf) as [t2 accepted]. destruct IH as (I1 & I2 & I3 & I4 & I5 & I6). cbn [fold_left fmap list_fmap]. split_and!; [done|done|by rewrite I3, Hs|by rewrite I4, K2|by rewrite I5, K1|].
  cbn [length seq fmap list_fmap]. rewrite K3, I6, <-fmap_S_seq, <-list_fmap_compose. f_equal; [lia|]. apply list_fmap_ext. intros i x _. cbn. lia.
Qed.

(** ** Listing each key once *)

Lemma retain_new_spec (subs : list (CovSubscription (Obs := Obs))) : forall keys, let '(kept, keys') := retain_new keys subs in
  (forall u, u ∈ kept -> u ∈ subs) /\ NoDup (keys_of kept) /\ (forall k, k ∈ keys_of kept -> k ∈ keys_of subs /\ k ∉ keys) /\ (forall k, k ∈ keys' <-> k ∈ keys_of subs \/ k ∈ keys) /\ (forall k, k ∈ keys_of subs -> k ∉ keys -> k ∈ keys_of kept).
Proof.
  induction subs as [|u subs IH]; intros keys; cbn [retain_new].
  { split_and!; [done|constructor|by intros k ?%not_elem_of_nil|intros k; split; [by right|by intros [?%not_elem_of_nil|?]]|by intros k ?%not_elem_of_nil]. }
  destruct (sub_key u) as [key|e] eqn:Ek.
  - rewrite (keys_of_cons u subs key Ek). case_bool_decide as Hin.
    + specialize (IH keys). destruct (retain_new keys subs) as [kept keys']. destruct IH as (I1 & I2 & I3 & I4 & I5). split_and!; [intros x Hx; apply elem_of_cons; right; by apply I1|done|..].
      * intros k Hk. destruct (I3 k Hk). split; [apply elem_of_cons; by right|done].
      * intros k. rewrite I4, elem_of_cons. naive_solver.
      * intros k [->|Hk]%elem_of_cons Hn; [done|by apply I5].
    + specialize (IH (key :: keys)). destruct (retain_new (key :: keys) subs) as [kept keys']. destruct IH as (I1 & I2 & I3 & I4 & I5). rewrite (keys_of_cons u kept key Ek). split_and!.
      * intros x [->|Hx]%elem_of_cons; apply elem_of_cons; [by left|right; by apply I1].
      * constructor; [|done]. intros Hk. apply I3 in Hk as [_ Hk]. apply Hk, elem_of_cons. by left.
      * intros k [->|Hk]%elem_of_cons; [split; [apply elem_of_cons; by left|done]|]. apply I3 in Hk as [Hk Hn]. apply not_elem_of_cons in Hn as [_ Hn]. split; [apply elem_of_cons; by right|done].
      * intros k. rewrite I4, !elem_of_cons. naive_solver.
      * intros k [->|Hk]%elem_of_cons Hn; apply elem_of_cons; [by left|]. destruct (decide (k = key)) as [->|Hne]; [by left|]. right. apply I5; [done|by apply not_elem_of_cons].
  - specialize (IH keys). destruct (retain_new keys subs) as [kept keys']. unfold keys_of. cbn. rewrite Ek. destruct IH as (I1 & I2 & I3 & I4 & I5). split_and!; try done. intros x Hx. apply elem_of_cons. right. by apply I1.
Qed.
Lemma keys_of_in (subs : list (CovSubscription (Obs := Obs))) k : k ∈ keys_of subs <-> exists u, u ∈ subs /\ sub_key u = Ok k.
Proof. unfold keys_of. rewrite list_elem_of_omap. split; intros (u & Hu & Hk); exists u; (split; [done|]); destruct (sub_key u); naive_solver. Qed.
Lemma keys_of_fmap (subs : list (CovSubscription (Obs := Obs))) : (forall u, u ∈ subs -> exists k, sub_key u = Ok k) -> Ok <$> keys_of subs = (sub_key <$> subs : list (Result CovSubscriptionKey CovError)).
Proof.
  induction subs as [|u subs IH]; intros Hk; [done|]. destruct (Hk u) as [k Hu]; [apply elem_of_cons; by left|]. rewrite (keys_of_cons u subs k Hu). cbn. rewrite Hu. f_equal. apply IH. intros x Hx. apply Hk, elem_of_cons. by right.
Qed.
Lemma keys_of_take n (subs : list (CovSubscription (Obs := Obs))) : (forall u, u ∈ subs -> exists k, sub_key u = Ok k) -> keys_of (take n subs) = take n (keys_of subs).
Proof.
  revert n. induction subs as [|u subs IH]; intros [|n] Hk; [done..|]. destruct (Hk u) as [k Hu]; [apply elem_of_cons; by left|]. cbn [take]. rewrite !(keys_of_cons u _ k Hu). cbn [take]. f_equal. apply IH. intros x Hx. apply Hk, elem_of_cons. by right.
Qed.
Lemma keys_of_reverse (subs : list (CovSubscription (Obs := Obs))) : keys_of (reverse subs) ≡ₚ keys_of subs.
Proof. unfold keys_of. by rewrite (reverse_Permutation subs). Qed.
(** The listed references, each key once. *)
Lemma listed_once (subs : list (CovSubscription (Obs := Obs))) : let '(kept, keys) := retain_new [] (reverse subs) in
  (forall u, u ∈ reverse kept -> u ∈ subs) /\ NoDup (keys_of (reverse kept)) /\ (forall k, k ∈ keys_of (reverse kept) <-> k ∈ keys_of subs).
Proof.
  pose proof (retain_new_spec (reverse subs) []) as Hr. destruct (retain_new [] (reverse subs)) as [kept keys]. destruct Hr as (R1 & R2 & R3 & R4 & R5). split_and!.
  - intros u Hu. rewrite elem_of_reverse in Hu. specialize (R1 u Hu). by rewrite elem_of_reverse in R1.
  - by rewrite keys_of_reverse.
  - intros k. rewrite keys_of_reverse. rewrite <-(keys_of_reverse subs). split; [apply R3|]. intros Hk. apply R5; [done|apply not_elem_of_nil].
Qed.

(** ** What an admission leaves *)

Lemma insert_all_in accepted : forall l : list (Snapshot (Obs := Obs)), vec_sorted sn_key l -> NoDup (sn_key <$> accepted) -> forall s, s ∈ insert_all l accepted <-> s ∈ accepted \/ s ∈ l /\ sn_key s ∉ sn_key <$> accepted.
Proof.
  induction accepted as [|a accepted IH]; intros l Hs Hnd s; cbn [insert_all fold_left]; [unfold insert_all; cbn; rewrite !elem_of_nil; naive_solver|]. cbn in Hnd. apply NoDup_cons in Hnd as [Hno Hnd].
  pose proof (vec_insert_spec sn_key l a Hs) as Hi. unfold insert_all. cbn [fold_left]. destruct (vec_insert sn_key l a) as [l' old]. destruct Hi as (Hs' & _ & Hp). cbn [fst]. change (s ∈ insert_all l' accepted <-> s ∈ a :: accepted \/ s ∈ l /\ sn_key s ∉ sn_key <$> (a :: accepted)). rewrite (IH l' Hs' Hnd). cbn. rewrite elem_of_cons, not_elem_of_cons.
  assert (Hl' : s ∈ l' <-> s = a \/ s ∈ l /\ sn_key s <> sn_key a).
  { destruct old as [old|].
    - destruct Hp as (Hk & r & P1 & P2). rewrite P1, P2, !elem_of_cons. split; [intros [->|Hr]; [by left|]; right; split; [by right|]; rewrite <-Hk; by apply (rest_other sn_key l old r s)|]. intros [->|[[->|Hr] Hne]]; [by left|done|by right].
    - rewrite Hp, elem_of_cons. split; [intros [->|Hr]; [by left|]; right; split; [done|]|naive_solver]. apply (rest_other sn_key l' a l s Hs' Hp Hr). }
  rewrite Hl'. split; [naive_solver|]. intros [[->|Ha]|(Hl & Hne & Hn)]; [right; split; [by left|done]|by left|right; split; [by right|done]].
Qed.
Lemma get_is_some t k : table_inv t -> is_some (subs_get t k) = bool_decide (k ∈ sn_key <$> ct_subs t).
Proof.
  intros Hinv. unfold subs_get. destruct (vec_get sn_key (ct_subs t) k) as [s|] eqn:E; symmetry; cbn.
  - apply bool_decide_eq_true. apply vec_get_iff in E as [Hs <-]; [|apply Hinv]. by apply list_elem_of_fmap_2.
  - apply bool_decide_eq_false. intros (s & -> & Hs)%list_elem_of_fmap. rewrite vec_get_none in E by apply Hinv. by destruct (E s Hs).
Qed.
Lemma missing_same t t' keys : table_inv t -> table_inv t' -> sn_key <$> ct_subs t' = sn_key <$> ct_subs t -> missing t' keys = missing t keys.
Proof. intros H1 H2 E. unfold missing. apply list_filter_iff. intros k. by rewrite !get_is_some, E. Qed.
Lemma fence_context_spec t context replaced keys now : table_inv t -> table_inv (fence_context_flight t context replaced keys now) /\
  view <$> ct_subs (fence_context_flight t context replaced keys now) = view <$> ct_subs t /\ ct_policy (fence_context_flight t context replaced keys now) = ct_policy t.
Proof.
  intros Hinv. unfold fence_context_flight. match goal with |- context [fence_flight ?x replaced] => set (t1 := x) end.
  assert (H1 : view <$> ct_subs t1 = view <$> ct_subs t /\ ct_flights t1 = ct_flights t /\ ct_peer_counts t1 = ct_peer_counts t /\ ct_peer_indefinite_counts t1 = ct_peer_indefinite_counts t /\ ct_policy t1 = ct_policy t /\ ct_next_due t1 = ct_next_due t).
  { unfold t1. destruct (_ ≫= _) as [carried|]; [|done]. split_and!; try done. cbn -[view]. rewrite <-list_fmap_compose. apply list_fmap_ext. intros i s _. cbn -[view]. by destruct (_ && _). }
  clearbody t1. destruct H1 as (V & C2 & C3 & C4 & C5 & C6). assert (Hs : vec_sorted fst (ct_flights t1)) by (rewrite C2; apply Hinv). destruct (fence_kept t1 replaced Hs) as ([= E1 E2 E3 E4 E5] & Hfs & Hfi).
  assert (Hv : view <$> ct_subs (fence_flight t1 replaced) = view <$> ct_subs t) by (by rewrite E1). split_and!; [|done|congruence]. eapply (inv_change t); [exact Hv|done| | |congruence..|done].
  - intros e He. rewrite E5, C6. apply Hinv. rewrite <-C2. by apply Hfi.
  - intros x. by rewrite E5, C6.
Qed.
(** A key in the table, and when it ends. *)
Definition scheduled (l : list (Snapshot (Obs := Obs))) (k : CovSubscriptionKey) (e : option Instant) : Prop := exists s, s ∈ l /\ sn_key s = k /\ expires s = e.
Lemma scheduled_view l l' k e : view <$> l' = view <$> l -> scheduled l' k e -> scheduled l k e.
Proof. intros Hv (s' & Hin & Hk & He). destruct (views_alike _ _ Hv) as (V1 & _). destruct (V1 s' Hin) as (s & Hs & [= E1 _ _ E4]). exists s. split_and!; congruence. Qed.
Definition context_proposals (context : MultipleContextKey) (until : Instant) (subs : list (CovSubscription (Obs := Obs))) : Prop :=
  forall u, u ∈ subs -> exists k, sub_key u = Ok k /\ multiple_context k = Some context /\ expires_at u = Some until.
Lemma context_proposals_ok context until subs : context_proposals context until subs -> proposals_ok (mc_recipient context) subs.
Proof.
  intros Hc u Hu. destruct (Hc u Hu) as (k & Hk & Hm & He). split_and!; [by exists k| |by rewrite He]. rewrite (sub_key_recipient _ _ Hk). destruct k; try done. by injection Hm as ->.
Qed.
Lemma context_flight_core t context route lists now : core (context_flight t context route lists now).1 = core t.
Proof. unfold context_flight. destruct (head _); [|done]. by destruct (_ && _). Qed.
Lemma admission_schedule context route until delay apdu flight (l accepted : list (Snapshot (Obs := Obs))) subs :
  recipient_from_endpoint (se_mac route) (se_network route) = mc_recipient context -> (forall s, s ∈ l -> sub_key (sn_subscription s) = Ok (sn_key s)) ->
  vec_sorted sn_key (refreshed context route until delay apdu flight <$> l) -> context_proposals context until subs -> sn_subscription <$> accepted = subs -> sn_key <$> accepted = keys_of subs -> NoDup (keys_of subs) ->
  forall k e, scheduled (insert_all (refreshed context route until delay apdu flight <$> l) accepted) k e <->
    multiple_context k = Some context /\ e = Some until /\ (k ∈ sn_key <$> l \/ k ∈ keys_of subs) \/ multiple_context k <> Some context /\ scheduled l k e.
Proof.
  intros Hroute Hl Hs Hc Esubs Ekeys Hnd k e.
  assert (Hacc : forall a, a ∈ accepted -> multiple_context (sn_key a) = Some context /\ expires a = Some until).
  { intros a Ha. split; [|destruct (Hc (sn_subscription a)) as (x & _ & _ & E); [rewrite <-Esubs; by apply list_elem_of_fmap_2|done]].
    assert (sn_key a ∈ keys_of subs) as (u & Hu & Hk)%keys_of_in by (rewrite <-Ekeys; by apply list_elem_of_fmap_2). destruct (Hc u Hu) as (x & Hx & Hm & _). congruence. }
  pose proof (fun s Hin => refreshed_view context route until delay apdu flight Hroute s (Hl s Hin)) as Hview. unfold scheduled. setoid_rewrite insert_all_in; [|done|by rewrite Ekeys]. rewrite Ekeys. split.
  - intros (s & [Ha|[(s0 & -> & Hin)%list_elem_of_fmap Hno]] & Hk & He).
    + left. destruct (Hacc s Ha) as [H1 H2]. split_and!; [congruence|congruence|]. right. rewrite <-Ekeys, <-Hk. by apply list_elem_of_fmap_2.
    + destruct (Hview s0 Hin) as (V1 & _ & _ & V4). rewrite V1 in Hk. rewrite V4 in He. case_decide as Hctx; unfold in_context in Hctx; rewrite Hk in Hctx; [left|right].
      * split_and!; [done|done|]. left. rewrite <-Hk. by apply list_elem_of_fmap_2.
      * split; [done|]. by exists s0.
  - intros [(Hm & -> & Hin)|(Hm & s & Hin & Hk & He)].
    + destruct (decide (k ∈ keys_of subs)) as [Hkeys|Hkeys].
      * pose proof Hkeys as Ha. rewrite <-Ekeys in Ha. apply list_elem_of_fmap in Ha as (a & -> & Ha). exists a. split_and!; [by left|done|by apply Hacc].
      * destruct Hin as [(s & -> & Hin)%list_elem_of_fmap|Hin]; [|done]. destruct (Hview s Hin) as (V1 & _ & _ & V4). exists (refreshed context route until delay apdu flight s).
        split_and!; [right; split; [by apply list_elem_of_fmap_2|by rewrite V1]|done|]. rewrite V4. by rewrite decide_True.
    + destruct (Hview s Hin) as (V1 & _ & _ & V4). exists (refreshed context route until delay apdu flight s). split_and!; [right; split; [by apply list_elem_of_fmap_2|]|congruence|].
      * rewrite V1, Hk. intros (u & Hu & Hku)%keys_of_in. destruct (Hc u Hu) as (x & Hx & Hmx & _). congruence.
      * rewrite V4, decide_False; [done|]. unfold in_context. congruence.
Qed.
Lemma admit_spec t context route until delay apdu proposals keys first now :
  table_inv t -> recipient_from_endpoint (se_mac route) (se_network route) = mc_recipient context -> context_proposals context until proposals -> NoDup (keys_of proposals) ->
  (length (missing t (keys_of proposals)) + length (ct_subs t) <= max_subscriptions_global (ct_policy t))%nat ->
  (length (missing t (keys_of proposals)) + peer_entries (ct_subs t) (mc_recipient context) <= max_subscriptions_per_peer (ct_policy t))%nat ->
  let '(t', accepted) := admit_multiple t context route until delay apdu proposals keys first now in
  table_inv t' /\ ct_policy t' = ct_policy t /\ sn_subscription <$> accepted = proposals /\ sn_key <$> accepted = keys_of proposals /\
  forall k e, scheduled (ct_subs t') k e <->
    multiple_context k = Some context /\ e = Some until /\ (k ∈ sn_key <$> ct_subs t \/ k ∈ keys_of proposals) \/ multiple_context k <> Some context /\ scheduled (ct_subs t) k e.
Proof.
  intros Hinv Hroute Hc Hnd Hg Hp. unfold admit_multiple. pose proof (context_flight_core t context route (bool_decide (proposals <> [])) now) as Hcore.
  destruct (context_flight t context route _ now) as [t1 [flight replaced]]. cbn [fst] in Hcore. injection Hcore as C1 C2 C3 C4 C5 C6.
  set (apdu' := match apdu with Some a => Some a | None => _ end). match goal with |- context [publish_all ?x _ _ _ _ _] => set (t2 := x) end.
  assert (Hinv2 : table_inv t2). { eapply (refresh_inv context route until delay apdu' flight Hroute t); rewrite <-?C1, <-?C2, <-?C3, <-?C4, <-?C5, <-?C6; done. }
  assert (H2 : ct_subs t2 = refreshed context route until delay apdu' flight <$> ct_subs t /\ ct_policy t2 = ct_policy t) by (rewrite <-C1, <-C5; done). clearbody t2. destruct H2 as [E2 P2].
  assert (Hkeys : sn_key <$> ct_subs t2 = sn_key <$> ct_subs t). { rewrite E2, <-list_fmap_compose. apply list_fmap_ext. intros i s Hx%list_elem_of_lookup_2. apply (refreshed_view _ _ _ _ _ _ Hroute). by apply Hinv. }
  assert (Hpe : peer_entries (ct_subs t2) (mc_recipient context) = peer_entries (ct_subs t) (mc_recipient context)) by (rewrite E2; apply (refreshed_counts _ _ _ _ _ _ Hroute); apply Hinv).
  assert (Hlen : length (ct_subs t2) = length (ct_subs t)) by (by rewrite E2, length_fmap).
  pose proof (publish_all_spec (mc_recipient context) (Some delay) apdu' (Some flight) proposals t2 first Hinv2 (context_proposals_ok _ _ _ Hc) Hnd) as Hpub. rewrite (missing_same t t2 _ Hinv Hinv2 Hkeys), Hpe, Hlen, P2 in Hpub. specialize (Hpub Hg Hp).
  destruct (publish_all t2 _ _ _ _ _) as [t3 accepted]. destruct Hpub as (I3 & P3 & S3 & A1 & A2 & _).
  match goal with |- context [fence_context_flight ?x _ _ _ _] => set (t4 := x) end. assert (Hc4 : core t4 = core t3) by done. clearbody t4. assert (I4 : table_inv t4) by (by eapply inv_core). injection Hc4 as D1 _ _ _ D5 _.
  set (t5 := match replaced with Some r => _ | None => t4 end).
  assert (H5 : table_inv t5 /\ view <$> ct_subs t5 = view <$> ct_subs t3 /\ ct_policy t5 = ct_policy t). { unfold t5. destruct replaced as [r|]; [|by rewrite D1, D5, P3]. destruct (fence_context_spec t4 context r keys now I4) as (F1 & F2 & F3). rewrite F2, F3, D1, D5, P3. done. }
  clearbody t5. destruct H5 as (I5 & V5 & P5). split_and!; [done..|]. intros k e.
  rewrite <-(admission_schedule context route until delay apdu' flight (ct_subs t) accepted proposals Hroute (ti_keys _ Hinv)) by (try done; rewrite <-E2; apply Hinv2).
  rewrite <-E2, <-S3. split; [by apply scheduled_view|apply scheduled_view; by rewrite V5].
Qed.

(** ** The whole request *)

(** The references [subs] admitted under a context: each key once, and all of the context now ends at [until]; the rest of what was alive is as it was. *)
Record admitted t t' (context : MultipleContextKey) (until now : Instant) (subs : list (CovSubscription (Obs := Obs))) (accepted : list (Snapshot (Obs := Obs))) : Prop := {
  am_subs : forall s, s ∈ accepted -> sn_subscription s ∈ subs /\ sub_key (sn_subscription s) = Ok (sn_key s);
  am_once : NoDup (sn_key <$> accepted);
  am_keys : forall k, k ∈ sn_key <$> accepted <-> k ∈ keys_of subs;
  am_table : forall k e, scheduled (ct_subs t') k e <->
    multiple_context k = Some context /\ e = Some until /\ (k ∈ sn_key <$> live now t \/ k ∈ keys_of subs) \/ multiple_context k <> Some context /\ scheduled (live now t) k e
}.
Lemma check_proposals_ok context route until (subs : list (CovSubscription (Obs := Obs))) : check_proposals context route until subs = Ok tt -> context_proposals context until subs.
Proof.
  induction subs as [|u subs IH]; cbn [check_proposals]; [by intros _ u ?%not_elem_of_nil|]. unfold check_proposal. destruct (sub_key u) as [key|] eqn:Ek; [|done]. cbn [rbind]. repeat (case_bool_decide; cbn [negb orb]; try done). cbn [rbind]. intros Hc x [->|Hx]%elem_of_cons; [by exists key|by apply IH].
Qed.
(** The prefix that fits: fewer new keys than there is room for. *)
Lemma prefix_fits t peer (subs fitting kept : list (CovSubscription (Obs := Obs))) : table_inv t -> (forall u, u ∈ subs -> exists k, sub_key u = Ok k) ->
  fitting = match first_overflow t peer subs with None => subs | Some (p, _) => take p subs end -> NoDup (keys_of kept) -> (forall k, k ∈ keys_of kept -> k ∈ keys_of fitting) ->
  (length (missing t (keys_of kept)) <= max_subscriptions_per_peer (ct_policy t) - peer_entries (ct_subs t) peer /\ length (missing t (keys_of kept)) <= max_subscriptions_global (ct_policy t) - length (ct_subs t))%nat.
Proof.
  intros Hinv Hk Hfit Hnd Hin. unfold first_overflow in Hfit. destruct (CovTable.room t peer) as [pr tr] eqn:Er. pose proof (overflow_fits t peer (Nat.min pr tr)) as Ho. rewrite Er in Ho.
  destruct (Ho eq_refl (keys_of subs) 0%nat [] ltac:(cbn; lia)) as [_ Hcount]. assert (length (missing t (keys_of kept)) + 0 <= Nat.min pr tr)%nat as Hm.
  { apply Hcount; [by apply NoDup_filter|]. intros k [Hn Hkk]%list_elem_of_filter. apply Hin in Hkk. split_and!; [|by destruct (subs_get t k)|apply not_elem_of_nil]. rewrite Hfit in Hkk.
    destruct (overflow_loop _ _ _ _ _ _) as [[p cap]|]; [|done]. rewrite Nat.sub_0_r. by rewrite keys_of_take in Hkk. }
  unfold CovTable.room, peer_subscription_count in Er. rewrite (counts_value _ _ peer (ti_counts _ Hinv)) in Er. injection Er as E1 E2. destruct (is_peer_reserved _ _); lia.
Qed.
Lemma admit_fitting t context route until delay apdu now subs fitting : table_inv t -> recipient_from_endpoint (se_mac route) (se_network route) = mc_recipient context -> context_proposals context until subs ->
  fitting = match first_overflow (expire t now).1 (mc_recipient context) subs with None => subs | Some (p, _) => take p subs end ->
  forall t1, core t1 = core (expire t now).1 -> let '(kept, keys) := retain_new [] (reverse fitting) in
  match reserve_generations t1 (length (reverse kept)) with
  | (t2, Ok first) => let '(t', accepted) := admit_multiple t2 context route until delay apdu (reverse kept) keys first now in table_inv t' /\ ct_policy t' = ct_policy t /\ admitted t t' context until now fitting accepted
  | (t2, Err _) => core t2 = core t1
  end.
Proof.
  intros Hinv Hroute Hc Hfit t1 Hcore. destruct (expire_spec t now Hinv) as (Hinv1 & Hsubs & _ & _ & Hpol & _). pose proof (listed_once fitting) as Hl. destruct (retain_new [] (reverse fitting)) as [kept keys]. destruct Hl as (L1 & L2 & L3).
  destruct (reserve_generations t1 (length (reverse kept))) as [t2 r] eqn:Eres. assert (Hc2 : core t2 = core t1).
  { unfold reserve_generations in Eres. case_decide; [by injection Eres as <- _|]. destruct (_ <? _); by injection Eres as <- _. }
  destruct r as [first|]; [|done]. assert (I2 : table_inv t2) by (eapply inv_core; [rewrite Hc2; exact Hcore|done]). rewrite Hcore in Hc2. injection Hc2 as D1 _ _ _ D5 _.
  assert (Hfsub : forall u, u ∈ fitting -> u ∈ subs). { intros u Hu. rewrite Hfit in Hu. destruct (first_overflow _ _ _) as [[p cap]|]; [|done]. by apply (subseteq_take p). }
  pose proof (prefix_fits (expire t now).1 (mc_recipient context) subs fitting (reverse kept) Hinv1 ltac:(intros u Hu; destruct (Hc u Hu) as (k & Hk & _); by exists k) Hfit L2 ltac:(intros k Hk; by apply L3)) as [F1 F2].
  rewrite <-(missing_same (expire t now).1 t2 _ Hinv1 I2) in F1, F2 by (by rewrite D1). rewrite <-D1, <-D5 in F1, F2. pose proof (ti_capacity _ I2) as Hcap. pose proof (ti_peer_cap _ I2 (mc_recipient context)) as Hpc.
  pose proof (admit_spec t2 context route until delay apdu (reverse kept) keys first now I2 Hroute ltac:(intros u Hu; by apply Hc, Hfsub, L1) L2 ltac:(lia) ltac:(lia)) as Had.
  destruct (admit_multiple _ _ _ _ _ _ _ _ _ _) as [t' accepted]. destruct Had as (A1 & A2 & A3 & A4 & A5). split_and!; [done|congruence|].
  rewrite D1, Hsubs in A5. fold (live now t) in A5. assert (Hok : Ok <$> (sn_key <$> accepted) = (sub_key <$> (sn_subscription <$> accepted) : list (Result CovSubscriptionKey CovError))).
  { rewrite A3, A4. apply keys_of_fmap. intros u Hu. destruct (Hc u) as (k & Hk & _); [by apply Hfsub, L1|by exists k]. }
  constructor; [|by rewrite A4|intros k; by rewrite A4|intros k e; rewrite A5; by rewrite L3].
  intros s Hs. split; [apply L1; rewrite <-A3; by apply list_elem_of_fmap_2|]. apply list_elem_of_lookup in Hs as [i Hi]. assert (Hi2 := f_equal (.!! i) Hok). rewrite !list_lookup_fmap, Hi in Hi2. cbn in Hi2. congruence.
Qed.
(** ** Where a request is cut *)

(** The keys of a request that add a subscription to a table with those keys, each once. *)
Definition adds (held : list CovSubscriptionKey) (keys : list CovSubscriptionKey) : list CovSubscriptionKey := filter (fun k => k ∉ held) (remove_dups keys).
Lemma adds_in held keys k : k ∈ adds held keys <-> k ∈ keys /\ k ∉ held.
Proof. unfold adds. rewrite list_elem_of_filter, elem_of_remove_dups. tauto. Qed.
Lemma adds_nodup held keys : NoDup (adds held keys).
Proof. apply NoDup_filter, NoDup_remove_dups. Qed.
Lemma adds_old held key keys : key ∈ held -> length (adds held (key :: keys)) = length (adds held keys).
Proof.
  intros Hk. apply Permutation_length, NoDup_Permutation; [apply adds_nodup..|]. intros k. rewrite !adds_in, elem_of_cons. split; [|tauto]. intros [[->|?] ?]; [done|tauto].
Qed.
Lemma adds_new held key keys : key ∉ held -> length (adds held (key :: keys)) = S (length (adds (key :: held) keys)).
Proof.
  intros Hk. change (length (adds held (key :: keys)) = length (key :: adds (key :: held) keys)). apply Permutation_length, NoDup_Permutation; [apply adds_nodup| |].
  - constructor; [|apply adds_nodup]. rewrite adds_in, elem_of_cons. tauto.
  - intros k. rewrite elem_of_cons, !adds_in, !elem_of_cons. destruct (decide (k = key)) as [->|]; tauto.
Qed.
Lemma adds_ext held held' keys : (forall k, k ∈ held <-> k ∈ held') -> length (adds held keys) = length (adds held' keys).
Proof. intros He. apply Permutation_length, NoDup_Permutation; [apply adds_nodup..|]. intros k. by rewrite !adds_in, He. Qed.
Lemma overflow_exact t peer room held : room = Nat.min (CovTable.room t peer).1 (CovTable.room t peer).2 -> (forall k, is_some (subs_get t k) = true <-> k ∈ held) ->
  forall keys position added, (length added <= room)%nat ->
  match overflow_loop t peer room position added keys with
  | None => (length added + length (adds (added ++ held) keys) <= room)%nat
  | Some (p, _) => (position <= p < position + length keys /\ length added + length (adds (added ++ held) (take (p - position) keys)) <= room < length added + length (adds (added ++ held) (take (S (p - position)) keys)))%nat
  end.
Proof.
  intros Hroom Hheld. assert (Hcap : is_Some (cap_passed t peer (room + 1))).
  { unfold cap_passed. destruct (CovTable.room t peer) as [pr tr]. cbn in Hroom. case_decide; [eauto|]. case_decide; [eauto|]. lia. }
  induction keys as [|key keys IH]; intros position added Hlen; cbn [overflow_loop]; [cbn; lia|].
  assert (Hstep : forall p, (S position <= p)%nat -> (p - position = S (p - S position))%nat) by lia.
  destruct (is_some (subs_get t key) || bool_decide (key ∈ added)) eqn:Eold.
  - assert (Hin : key ∈ added ++ held). { rewrite elem_of_app. apply orb_true_iff in Eold as [E|E]; [right; by apply Hheld|left; by apply bool_decide_eq_true in E]. }
    specialize (IH (S position) added Hlen). destruct (overflow_loop t peer room (S position) added keys) as [[p cap]|]; [|by rewrite adds_old].
    destruct IH as (Hp & Hle & Hlt). rewrite (Hstep p) by lia. cbn [take length]. rewrite !adds_old by done. lia.
  - assert (Hout : key ∉ added ++ held). { apply orb_false_iff in Eold as [E1 E2]. rewrite elem_of_app. intros [?|Hh%Hheld]; [by apply bool_decide_eq_false in E2|congruence]. }
    destruct (decide (length added = room)) as [Efull|Efull].
    + destruct Hcap as [cap ->]. cbn [fmap option_fmap option_map]. rewrite Nat.sub_diag. cbn [take]. rewrite adds_new by done. cbn. lia.
    + specialize (IH (S position) (key :: added) ltac:(cbn; lia)). cbn [length app] in IH. destruct (overflow_loop t peer room (S position) (key :: added) keys) as [[p cap]|].
      * destruct IH as (Hp & Hle & Hlt). rewrite (Hstep p) by lia. cbn [take length]. rewrite !adds_new by done. lia.
      * rewrite adds_new by done. lia.
Qed.
(** Room for the keys a request adds to the entries still alive: within the peer's cap, and the table's capacity for that peer. *)
Definition fits t (now : Instant) (peer : CovRecipient) (subs : list (CovSubscription (Obs := Obs))) : Prop :=
  (length (adds (sn_key <$> live now t) (keys_of subs)) <= max_subscriptions_per_peer (ct_policy t) - peer_entries (live now t) peer /\
   length (adds (sn_key <$> live now t) (keys_of subs)) <= capacity_for (ct_policy t) peer - length (live now t))%nat.
(** A request is cut after the [p] references that fit: the next one, if any, doesn't. *)
Definition cut t now peer (subs : list (CovSubscription (Obs := Obs))) (p : nat) : Prop :=
  (p <= length subs)%nat /\ fits t now peer (take p subs) /\ ((p < length subs)%nat -> ~ fits t now peer (take (S p) subs)).
Lemma keys_of_length (subs : list (CovSubscription (Obs := Obs))) : (forall u, u ∈ subs -> exists k, sub_key u = Ok k) -> length (keys_of subs) = length subs.
Proof.
  induction subs as [|u subs IH]; intros Hk; [done|]. destruct (Hk u) as [k Hu]; [apply elem_of_cons; by left|]. rewrite (keys_of_cons u subs k Hu). cbn. f_equal. apply IH. intros x Hx. apply Hk, elem_of_cons. by right.
Qed.
Lemma first_overflow_exact t now peer (subs : list (CovSubscription (Obs := Obs))) : table_inv t -> (forall u, u ∈ subs -> exists k, sub_key u = Ok k) ->
  match first_overflow (expire t now).1 peer subs with
  | None => cut t now peer subs (length subs)
  | Some (p, _) => (p < length subs)%nat /\ cut t now peer subs p
  end.
Proof.
  intros Hinv Hk. destruct (expire_spec t now Hinv) as (Hinv1 & Hsubs & _ & _ & Hpol & _). fold (live now t) in Hsubs. set (t1 := (expire t now).1) in *.
  unfold first_overflow. destruct (CovTable.room t1 peer) as [pr tr] eqn:Er. pose proof (overflow_exact t1 peer (Nat.min pr tr) (sn_key <$> live now t)) as Ho. rewrite Er in Ho.
  specialize (Ho eq_refl). assert (Hroom : pr = (max_subscriptions_per_peer (ct_policy t) - peer_entries (live now t) peer)%nat /\ tr = (capacity_for (ct_policy t) peer - length (live now t))%nat).
  { unfold CovTable.room, peer_subscription_count in Er. rewrite (counts_value _ _ peer (ti_counts _ Hinv1)), Hsubs, Hpol in Er. injection Er as <- <-. unfold capacity_for. by destruct (is_peer_reserved _ _). }
  assert (Hheld : forall k, is_some (subs_get t1 k) = true <-> k ∈ sn_key <$> live now t).
  { intros k. rewrite <-Hsubs. unfold subs_get. destruct (vec_get sn_key (ct_subs t1) k) as [x|] eqn:E; cbn.
    - apply vec_get_iff in E as [Hx <-]; [|apply Hinv1]. split; [intros _; by apply list_elem_of_fmap_2|done].
    - rewrite vec_get_none in E by apply Hinv1. split; [done|]. intros (x & -> & Hx)%list_elem_of_fmap. by destruct (E x Hx). }
  specialize (Ho Hheld (keys_of subs) 0%nat [] ltac:(cbn; lia)). destruct Hroom as [-> ->]. unfold cut, fits. cbn [length app plus] in Ho.
  destruct (overflow_loop _ _ _ _ _ _) as [[p cap]|].
  - destruct Ho as (Hp & Hle & Hlt). rewrite keys_of_length in Hp by done. rewrite Nat.sub_0_r in *. rewrite !keys_of_take by done. split; [lia|]. split; [lia|]. split; [lia|]. intros _ Hf. lia.
  - rewrite firstn_all. split; [lia|]. split; [lia|]. lia.
Qed.
(** A request that matches its context: a valid recipient, which the route leads to, and references each with a key of that context, the request's end and the
    request's route. *)
Definition well_formed (context : MultipleContextKey) (route : SubscriberEndpoint) (until : Instant) (subs : list (CovSubscription (Obs := Obs))) : Prop :=
  recipient_validate (mc_recipient context) = Ok tt /\ recipient_from_endpoint (se_mac route) (se_network route) = mc_recipient context /\
  forall u, u ∈ subs -> exists key, sub_key u = Ok key /\ multiple_context key = Some context /\ expires_at u = Some until /\ endpoint u = route.
Lemma check_proposals_exact context route until (subs : list (CovSubscription (Obs := Obs))) : check_proposals context route until subs = Ok tt <->
  forall u, u ∈ subs -> exists key, sub_key u = Ok key /\ multiple_context key = Some context /\ expires_at u = Some until /\ endpoint u = route.
Proof.
  induction subs as [|u subs IH]; cbn [check_proposals]; [split; [by intros _ u ?%not_elem_of_nil|done]|]. unfold check_proposal. setoid_rewrite elem_of_cons. split.
  - destruct (sub_key u) as [key|] eqn:Ek; [|done]. cbn [rbind]. repeat (case_bool_decide; cbn [negb orb]; try done). cbn [rbind]. rewrite IH. intros Hall x [->|Hx]; [by exists key|by apply Hall].
  - intros Hall. destruct (Hall u ltac:(by left)) as (key & -> & Hm & He & Hr). cbn [rbind]. rewrite !bool_decide_eq_true_2 by done. cbn [negb orb rbind]. apply IH. intros x Hx. apply Hall. by right.
Qed.
(** What a request may be refused whole for: it doesn't match its context, or too few generations are left for the keys it would take. *)
Definition refused_whole t context route until (subs : list (CovSubscription (Obs := Obs))) now : Prop :=
  ~ well_formed context route until subs \/
  exists p, (p = 0%nat -> subs = []) /\ cut t now (mc_recipient context) subs p /\ U64_MAX < ct_generation t + Z.of_nat (length (remove_dups (keys_of (take p subs)))).
(** What a request makes of a table. *)
Definition multiple_outcome t t' context route until (subs : list (CovSubscription (Obs := Obs))) now (r : Result (list (Snapshot (Obs := Obs))) (MultipleRefusal (Obs := Obs))) : Prop :=
  match r with
  | Ok accepted => well_formed context route until subs /\ fits t now (mc_recipient context) subs /\ admitted t t' context until now subs accepted
  | Err refused =>
      match mr_refused refused with
      | Some p => well_formed context route until subs /\ (p < length subs)%nat /\ cut t now (mc_recipient context) subs p /\
          (if decide (p = 0%nat) then mr_committed refused = [] /\ live now t' = live now t else admitted t t' context until now (take p subs) (mr_committed refused))
      | None => mr_committed refused = [] /\ live now t' = live now t /\ refused_whole t context route until subs now
      end
  end.
Lemma kept_length (subs : list (CovSubscription (Obs := Obs))) : (forall u, u ∈ subs -> exists k, sub_key u = Ok k) ->
  length (reverse (retain_new [] (reverse subs)).1) = length (remove_dups (keys_of subs)).
Proof.
  intros Hk. pose proof (listed_once subs) as Hl. destruct (retain_new [] (reverse subs)) as [kept keys]. destruct Hl as (L1 & L2 & L3). cbn [fst].
  rewrite <-(keys_of_length (reverse kept)) by (intros u Hu; by apply Hk, L1). apply Permutation_length, NoDup_Permutation; [done|apply NoDup_remove_dups|]. intros k. by rewrite L3, elem_of_remove_dups.
Qed.
Lemma reserve_refused t count t' e : reserve_generations t count = (t', Err e) -> U64_MAX < ct_generation t + Z.of_nat count.
Proof. unfold reserve_generations. case_decide; [done|]. destruct (Z.ltb_spec U64_MAX (ct_generation t + Z.of_nat count)); [done|done]. Qed.
Lemma subscribe_multiple_spec t context route until delay apdu subs now : table_inv t -> let '(t', r) := subscribe_multiple t context route until delay apdu subs now in
  table_inv t' /\ ct_policy t' = ct_policy t /\ multiple_outcome t t' context route until subs now r.
Proof.
  intros Hinv. unfold subscribe_multiple, multiple_outcome, refused_whole. match goal with |- context [match ?m with Ok _ => _ | Err _ => _ end] => set (checks := m) end.
  assert (Hchecks : checks = Ok tt <-> well_formed context route until subs).
  { unfold checks, well_formed. rewrite <-check_proposals_exact. destruct (recipient_validate (mc_recipient context)) as [[]|] eqn:E1; cbn [rbind]; [|naive_solver].
    destruct (decide (recipient_from_endpoint (se_mac route) (se_network route) = mc_recipient context)) as [E|E].
    - rewrite E, E1, bool_decide_eq_true_2 by done. cbn [rbind negb]. naive_solver.
    - destruct (recipient_validate (recipient_from_endpoint _ _)) as [[]|]; cbn [rbind]; [|naive_solver]. rewrite bool_decide_eq_false_2 by done. cbn [negb]. naive_solver. }
  destruct checks as [[]|e]; [|cbn; split_and!; [done..|]; left; intros Hw; by apply Hchecks in Hw].
  pose proof (proj1 Hchecks eq_refl) as Hwell. clear Hchecks. pose proof Hwell as (_ & Hroute & Hprops%check_proposals_exact%check_proposals_ok).
  assert (Hk : forall u, u ∈ subs -> exists k, sub_key u = Ok k) by (intros u Hu; destruct (Hprops u Hu) as (k & Hk & _); by exists k).
  pose proof (first_overflow_exact t now (mc_recipient context) subs Hinv Hk) as Hcut. assert (Hgen : ct_generation (expire t now).1 = ct_generation t) by (pose proof (expire_fixed t now) as Hx; unfold fixed_of in Hx; congruence).
  pose proof (expire_spec t now Hinv) as (Hinv1 & _ & _ & _ & Hpol & _). pose proof (live_expired t now Hinv) as Hlive.
  pose proof (fun fitting Hfit => admit_fitting t context route until delay apdu now subs fitting Hinv Hroute Hprops Hfit) as Hadmit. destruct (expire t now) as [t1 n]. cbn [fst] in *. rewrite Hroute.
  destruct (first_overflow t1 (mc_recipient context) subs) as [[p cap]|] eqn:Eo.
  - unfold refuse_new. set (t2 := over ct_counts _ t1). assert (Hc2 : core t2 = core t1) by done. assert (Hg2 : ct_generation t2 = ct_generation t) by done. clearbody t2. destruct Hcut as [Hp Hcut].
    assert (Hstay : table_inv t2 /\ ct_policy t2 = ct_policy t /\ live now t2 = live now t) by (split_and!; [by eapply inv_core|injection Hc2; congruence|by rewrite <-Hlive; apply live_core]).
    destruct p as [|p]; [by destruct Hstay as (? & ? & ?)|]. specialize (Hadmit (take (S p) subs) eq_refl t2 Hc2).
    pose proof (kept_length (take (S p) subs) ltac:(intros u Hu; apply Hk; by apply (subseteq_take (S p)))) as Hlen.
    destruct (retain_new [] (reverse (take (S p) subs))) as [kept keys]. cbn [fst] in Hlen.
    destruct (reserve_generations t2 (length (reverse kept))) as [t3 [first|e]] eqn:Eres.
    + destruct (admit_multiple _ _ _ _ _ _ _ _ _ _) as [t4 accepted]. by destruct Hadmit as (A1 & A2 & A3).
    + apply reserve_refused in Eres. rewrite Hlen, Hg2 in Eres. cbn. split_and!; [eapply inv_core; [exact Hadmit|apply Hstay]|injection Hadmit; destruct Hstay as (_ & <- & _); congruence|done| |].
      * destruct Hstay as (_ & _ & <-). by apply live_core.
      * right. by exists (S p).
  - specialize (Hadmit subs eq_refl t1 eq_refl). pose proof (kept_length subs Hk) as Hlen. destruct (retain_new [] (reverse subs)) as [kept keys]. cbn [fst] in Hlen.
    destruct (reserve_generations t1 (length (reverse kept))) as [t3 [first|e]] eqn:Eres.
    + destruct (admit_multiple _ _ _ _ _ _ _ _ _ _) as [t4 accepted]. destruct Hadmit as (A1 & A2 & A3). destruct Hcut as (_ & Hf & _). rewrite firstn_all in Hf. done.
    + apply reserve_refused in Eres. rewrite Hlen, Hgen in Eres. cbn. split_and!; [by eapply inv_core|injection Hadmit; congruence|done|rewrite <-Hlive; by apply live_core|].
      right. exists (length subs). rewrite firstn_all. split; [by intros ?%length_zero_iff_nil|done].
Qed.
End Multiple.
