(* ===== verification/CovRuns.v ===== *)
(** * The COV table over every run

    Reports keep the table's invariant too, so it holds after every sequence of calls from an empty table; what [expire], [subscribe] and
    [subscribe_multiple] do there, when a confirmed report may start and what its end may change. [expire_all] is left out of the runs: it does
    not keep the endless counts, as [expire_all_leaks] shows. *)

From Stdlib Require Import Sorting.Sorted.
From S2P Require Import Prelude Time WireError Values Address SortedVec CovTable CovTheorems CovAdmission CovMultiple.
Open Scope Z_scope.

Section Runs.
Context {Obs : Type}.
Implicit Types (t : CovTable (Obs := Obs)) (s : Snapshot (Obs := Obs)).
#[local] Abbreviation expires s := (expires_at (sn_subscription s)).

(** ** Reports *)

Definition flights_ok (due : option Instant) (l : list (Z * FlightState (Obs := Obs))) : Prop := vec_sorted fst l /\ forall e, e ∈ l -> due_before due (outstanding_deadline e.2).
Lemma inv_flights_ok t : table_inv t -> flights_ok (ct_next_due t) (ct_flights t).
Proof. intros Hinv. split; apply Hinv. Qed.
Lemma flights_modify due l k f : flights_ok due l -> (forall e, (f e).1 = e.1) -> (forall e, due_before due (outstanding_deadline e.2) -> due_before due (outstanding_deadline (f e).2)) -> flights_ok due (vec_modify fst l k f).
Proof.
  intros [Hs Hd] Hk Hf. destruct (vec_modify_spec fst l k f Hs ltac:(intros x <-; apply Hk)) as [Hs' Hp]. split; [done|]. intros e He. destruct (vec_get fst l k) as [x|]; [|rewrite Hp in He; by apply Hd].
  destruct Hp as (r & P1 & P2). rewrite P2, elem_of_cons in He. destruct He as [->|He]; [apply Hf, Hd; rewrite P1; apply elem_of_cons; by left|apply Hd; rewrite P1; apply elem_of_cons; by right].
Qed.
Lemma flights_or_default due l k d f : flights_ok due l -> d.1 = k -> (forall e, (f e).1 = e.1) -> (forall e, due_before due (outstanding_deadline (f e).2)) -> flights_ok due (vec_or_default fst l k d f).
Proof.
  intros [Hs Hd] Hdk Hk Hf. destruct (vec_or_default_spec fst l k d f Hs Hdk ltac:(intros x <-; apply Hk)) as [Hs' Hp]. split; [done|]. intros e He. destruct (vec_get fst l k) as [x|].
  - destruct Hp as (r & P1 & P2). rewrite P2, elem_of_cons in He. destruct He as [->|He]; [done|]. apply Hd. rewrite P1. apply elem_of_cons. by right.
  - rewrite Hp, elem_of_cons in He. destruct He as [->|He]; [done|by apply Hd].
Qed.
Lemma flights_tidy t flight : flights_ok (ct_next_due t) (ct_flights t) -> flights_ok (ct_next_due t) (ct_flights (tidy_flight t flight)) /\ rest_of (tidy_flight t flight) = rest_of t.
Proof.
  intros [Hs Hd]. unfold tidy_flight. destruct (vec_get fst (ct_flights t) flight) as [[f state]|]; [|done]. destruct (is_idle_default state); [|done]. destruct (remove_flight_shrunk t flight Hs) as [Hs' Hi]. split; [|done]. split; [done|].
  intros e He. by apply Hd, Hi.
Qed.
Lemma modify_view (l : list (Snapshot (Obs := Obs))) key f : (forall s, view (f s) = view s) -> view <$> vec_modify sn_key l key f = view <$> l.
Proof.
  intros Hf. unfold vec_modify. destruct (vec_find sn_key l key) as [i|]; [|done]. revert i. induction l as [|s l IH]; intros [|i]; [done|done| |]; cbn -[view]; [by rewrite Hf|by rewrite IH].
Qed.
(** Calls that keep what the invariant sees: the entries' views, the counts, the policy and the wake; the flights may change. *)
Definition seen t := (view <$> ct_subs t, ct_peer_counts t, ct_peer_indefinite_counts t, ct_policy t, ct_next_due t).
Lemma inv_seen t t' : seen t' = seen t -> flights_ok (ct_next_due t') (ct_flights t') -> table_inv t -> table_inv t'.
Proof. intros [= E1 E2 E3 E4 E5] [Hs Hd] Hinv. apply (inv_change t); try done. intros x. by rewrite E5. Qed.
Lemma complete_seen t token confirmed c now : seen (complete t token confirmed c now).1 = seen t /\ ct_flights (complete t token confirmed c now).1 = ct_flights t.
Proof.
  unfold complete. destruct (negb (may_complete _ _ _ _)); [done|]. destruct (confirmed && _); [done|]. split; [|done]. unfold seen. cbn [fst].
  match goal with |- context [over ct_subs ?f t] => change (ct_subs (over ct_subs f t)) with (f (ct_subs t)) end. cbn -[view vec_modify]. by rewrite modify_view.
Qed.
Lemma complete_all_seen token completes now : forall t, seen (complete_all t token completes now).1 = seen t /\ ct_flights (complete_all t token completes now).1 = ct_flights t.
Proof.
  induction completes as [|c completes IH]; intros t; cbn [complete_all]; [done|]. pose proof (complete_seen t token true c now) as Hc. destruct (complete t token true c now) as [t1 b]. cbn [fst] in Hc.
  specialize (IH t1). destruct (complete_all t1 token completes now) as [t2 l]. cbn [fst] in *. destruct Hc, IH. split; congruence.
Qed.
Lemma seen_inv t t' : seen t' = seen t -> ct_flights t' = ct_flights t -> table_inv t -> table_inv t'.
Proof. intros Hs Hf Hinv. eapply inv_seen; [done| |done]. injection Hs as _ _ _ _ Hd. rewrite Hf, Hd. by apply inv_flights_ok. Qed.
Lemma deliver_unconfirmed_seen t token outcome now : seen (deliver_unconfirmed t token outcome now).1 = seen t /\ ct_flights (deliver_unconfirmed t token outcome now).1 = ct_flights t.
Proof.
  unfold deliver_unconfirmed. destruct (list_find _ _) as [[i p]|]; [|done]. cbn [fst]. match goal with |- context [over ct_pending ?f t] => set (t1 := over ct_pending f t) end.
  destruct outcome; try done. destruct (complete_seen t1 token false (pn_completion p) now) as [-> ->]. done.
Qed.
Lemma delivered_inv t token outcome now : table_inv t -> table_inv (delivered t token outcome now).1.
Proof.
  intros Hinv. unfold delivered. destruct (deliver_unconfirmed_seen t token outcome now) as [Hs Hf]. destruct (deliver_unconfirmed t token outcome now) as [t1 known]. cbn [fst] in Hs, Hf.
  assert (I1 : table_inv t1) by (by eapply seen_inv). clear Hs Hf. destruct known; [done|]. destruct (vec_get fst (ct_flights t1) (tk_flight token)) as [[f state]|]; [|done]. destruct (_ || _ || _); [done|].
  set (t2 := over ct_flights _ t1). assert (F2 : flights_ok (ct_next_due t1) (ct_flights t2)) by (apply (flights_modify (ct_next_due t1) (ct_flights t1)); [by apply inv_flights_ok|done|done]).
  assert (I2 : table_inv t2) by (by eapply inv_seen; [|exact F2|exact I1]). clearbody t2.
  match goal with |- context [let '(t, owed) := ?m in _] => set (m1 := m) end.
  assert (Hm : seen m1.1 = seen t2 /\ ct_flights m1.1 = ct_flights t2). { unfold m1. destruct outcome; try done. pose proof (complete_all_seen token (fs_completes state) now t2) as Hc. destruct (complete_all _ _ _ _) as [t3 l]. done. }
  destruct m1 as [t3 owed]. cbn [fst] in Hm. destruct Hm as [Hs3 Hf3]. assert (I3 : table_inv t3) by (by eapply seen_inv). clear Hs3 Hf3.
  set (t4 := over ct_flights _ t3). assert (F4 : flights_ok (ct_next_due t3) (ct_flights t4)) by (apply (flights_modify (ct_next_due t3) (ct_flights t3)); [by apply inv_flights_ok|done|intros e _; by destruct outcome]).
  assert (I4 : table_inv t4) by (by eapply inv_seen; [|exact F4|exact I3]). clearbody t4. destruct (flights_tidy t4 (tk_flight token) (inv_flights_ok _ I4)) as [F5 [= E1 E2 E3 E4 E5]]. cbn [fst].
  eapply inv_seen; [|by rewrite E5|exact I4]. unfold seen. congruence.
Qed.
Lemma begin_confirmed_inv t completion references now : table_inv t -> table_inv (begin_confirmed t completion references now).1.
Proof.
  intros Hinv. unfold begin_confirmed. destruct completion as [ticket|]; [|done]. destruct (begin_loop _ _ _ _ _ _) as [[[[flight|] carried] completes]|]; [|done..]. cbn [fst].
  set (due := instant_saturating_add now (deadline (ct_timing t))). set (t1 := over ct_flights _ t). set (t2 := if _ =? 0 then t1 else _).
  assert (H2 : seen t2 = seen t /\ ct_flights t2 = ct_flights t1) by (unfold t2; destruct (_ =? 0); done). clearbody t2. destruct H2 as [[= E1 E2 E3 E4 E5] Hf].
  assert (Hdue : ct_next_due (due_by t2 (Some due)) = merge_deadline (ct_next_due t) (Some due)) by (rewrite <-earliest_two, <-E5; done).
  assert (F : flights_ok (ct_next_due (due_by t2 (Some due))) (ct_flights t2)).
  { rewrite Hf, Hdue. apply (flights_or_default _ (ct_flights t)); [|done|done|].
    - destruct (inv_flights_ok t Hinv) as [Hs Hd]. split; [done|]. intros e He. by apply due_merge_l, Hd.
    - intros e. unfold outstanding_deadline. cbn. destruct (ticket =? 0); [done|]. apply due_merge_r. exists due. split; [done|lia]. }
  destruct F as [Fs Fd]. apply (inv_change t); try done. intros x Hx. rewrite Hdue. by apply due_merge_l.
Qed.
Lemma take_owed_inv t context now : table_inv t -> table_inv (take_owed_context t context now).1.
Proof.
  intros Hinv. unfold take_owed_context. destruct (negb _); [done|]. destruct (head _) as [entry|]; [|done]. destruct (vec_get _ _ _) as [[f state]|]; [|done]. destruct (_ && _); [|done]. cbn [fst].
  set (t1 := over ct_flights _ t). assert (F1 : flights_ok (ct_next_due t) (ct_flights t1)) by (apply (flights_modify (ct_next_due t) (ct_flights t)); [by apply inv_flights_ok|done|done]).
  assert (I1 : table_inv t1) by (by eapply inv_seen; [|exact F1|exact Hinv]). clearbody t1. destruct (flights_tidy t1 (sn_flight entry) (inv_flights_ok _ I1)) as [F2 [= E1 E2 E3 E4 E5]]. eapply inv_seen; [|by rewrite E5|exact I1]. unfold seen. congruence.
Qed.

(** ** Every run *)

(** The calls that change a table, [expire_all] apart. *)
Inductive Call :=
| Expire (now : Instant)
| Subscribe (sub : CovSubscription (Obs := Obs)) (now : Instant)
| SubscribeMultiple (context : MultipleContextKey) (route : SubscriberEndpoint) (until : Instant) (delay : Z) (apdu : option Z) (subs : list (CovSubscription (Obs := Obs))) (now : Instant)
| Unsubscribe (key : CovSubscriptionKey)
| UnsubscribeContext (context : MultipleContextKey)
| RemoveObject (oid : ObjectIdentifier)
| RemovePeer (mac : bytes) (network : option NpduAddress)
| TakeOwed (context : MultipleContextKey) (now : Instant)
| Prepare (s : Snapshot (Obs := Obs))
| CompleteObservation (s : Snapshot (Obs := Obs)) (completion : PreparedCovCompletion) (value : Obs) (now : Instant)
| Prune (now : Instant)
| BeginUnconfirmed (ticket : Z) (s : Snapshot (Obs := Obs)) (observation : Obs)
| BeginConfirmed (completion : PreparedCovCompletion) (references : list (Snapshot (Obs := Obs) * Obs)) (now : Instant)
| Delivered (token : Token) (outcome : Delivery) (now : Instant)
| TakeFenced.
Definition step t (c : Call) : CovTable :=
  match c with
  | Expire now => (expire t now).1
  | Subscribe sub now => (subscribe t sub now).1
  | SubscribeMultiple context route until delay apdu subs now => (subscribe_multiple t context route until delay apdu subs now).1
  | Unsubscribe key => (unsubscribe t key).1
  | UnsubscribeContext context => unsubscribe_context t context
  | RemoveObject oid => remove_for_object t oid
  | RemovePeer mac network => (remove_peer_subscriptions t mac network).1
  | TakeOwed context now => (take_owed_context t context now).1
  | Prepare s => (prepare_completion t s).1
  | CompleteObservation s completion value now => (complete_observation t s completion value now).1
  | Prune now => prune_pending t now
  | BeginUnconfirmed ticket s observation => (begin_unconfirmed t ticket s observation).1
  | BeginConfirmed completion references now => (begin_confirmed t completion references now).1
  | Delivered token outcome now => (delivered t token outcome now).1
  | TakeFenced => (take_fenced t).1
  end.
Definition run (id : Z) (policy : CovPolicy) (timing : FlightTiming) (calls : list Call) : CovTable := fold_left step calls (table_new id policy timing).
Lemma cov_new_inv id policy timing : table_inv (table_new (Obs := Obs) id policy timing).
Proof.
  constructor; cbn; try (by intros ? ?%not_elem_of_nil); try (by intros; lia); try constructor; try constructor; try done; lia.
Qed.
Lemma step_inv t c : table_inv t -> table_inv (step t c).
Proof.
  intros Hinv. destruct c; cbn [step].
  - by apply expire_spec.
  - pose proof (subscribe_spec t sub now Hinv) as H. destruct (subscribe t sub now). apply H.
  - pose proof (subscribe_multiple_spec t context route until delay apdu subs now Hinv) as H. destruct (subscribe_multiple _ _ _ _ _ _ _ _). apply H.
  - destruct (remove_internal_spec t key true Hinv) as [H _]. apply H.
  - eapply rm_inv, remove_keys_spec, Hinv.
  - eapply rm_inv, remove_keys_spec, Hinv.
  - eapply rm_inv, remove_keys_spec, Hinv.
  - by apply take_owed_inv.
  - unfold prepare_completion. destruct (_ <? _); [done|by apply (inv_core t)].
  - unfold complete_observation. destruct (negb _); [done|]. destruct completion; (destruct (negb _); [done|]); (eapply seen_inv; [apply complete_seen|apply complete_seen|done]).
  - by apply (inv_core t).
  - by apply (inv_core t).
  - by apply begin_confirmed_inv.
  - by apply delivered_inv.
  - by apply (inv_core t).
Qed.
Lemma cov_run_inv id policy timing calls : table_inv (run id policy timing calls).
Proof.
  unfold run. generalize (cov_new_inv id policy timing). generalize (table_new (Obs := Obs) id policy timing). induction calls as [|c calls IH]; intros t Hinv; [done|]. cbn [fold_left]. apply IH. by apply step_inv.
Qed.
Lemma tidy_policy t flight : ct_policy (tidy_flight t flight) = ct_policy t.
Proof. unfold tidy_flight. destruct (vec_get _ _ _) as [[f state]|]; [|done]. by destruct (is_idle_default state). Qed.
Lemma seen_policy t t' : seen t' = seen t -> ct_policy t' = ct_policy t.
Proof. by intros [= _ _ _ E _]. Qed.
Lemma delivered_policy t token outcome now : ct_policy (delivered t token outcome now).1 = ct_policy t.
Proof.
  unfold delivered. destruct (deliver_unconfirmed_seen t token outcome now) as [Hs%seen_policy _]. destruct (deliver_unconfirmed t token outcome now) as [t1 known]. cbn [fst] in Hs. destruct known; [done|].
  destruct (vec_get fst (ct_flights t1) (tk_flight token)) as [[f state]|]; [|done]. destruct (_ || _ || _); [done|]. set (t2 := over ct_flights _ t1). assert (ct_policy t2 = ct_policy t) as H2 by done. clearbody t2.
  match goal with |- context [let '(t, owed) := ?m in _] => set (m1 := m) end. assert (Hm : ct_policy m1.1 = ct_policy t2).
  { unfold m1. destruct outcome; try done. pose proof (complete_all_seen token (fs_completes state) now t2) as [Hc%seen_policy _]. by destruct (complete_all _ _ _ _). }
  destruct m1 as [t3 owed]. cbn [fst] in *. rewrite tidy_policy. cbn. congruence.
Qed.
Lemma step_policy t c : table_inv t -> ct_policy (step t c) = ct_policy t.
Proof.
  intros Hinv. destruct c; cbn [step]; try done.
  - by apply expire_spec.
  - pose proof (subscribe_spec t sub now Hinv) as H. destruct (subscribe t sub now). apply H.
  - pose proof (subscribe_multiple_spec t context route until delay apdu subs now Hinv) as H. destruct (subscribe_multiple _ _ _ _ _ _ _ _). apply H.
  - destruct (remove_internal_spec t key true Hinv) as [H _]. apply H.
  - eapply rm_policy, remove_keys_spec, Hinv.
  - eapply rm_policy, remove_keys_spec, Hinv.
  - eapply rm_policy, remove_keys_spec, Hinv.
  - unfold take_owed_context. destruct (negb _); [done|]. destruct (head _); [|done]. destruct (vec_get _ _ _) as [[f state]|]; [|done]. destruct (_ && _); [|done]. cbn [fst]. by rewrite tidy_policy.
  - unfold prepare_completion. by destruct (_ <? _).
  - unfold complete_observation. destruct (negb _); [done|]. destruct completion; (destruct (negb _); [done|]); apply seen_policy, complete_seen.
  - unfold begin_confirmed. destruct completion as [ticket|]; [|done]. destruct (begin_loop _ _ _ _ _ _) as [[[[flight|] carried] completes]|]; [|done..]. cbn. by destruct (_ =? 0).
  - apply delivered_policy.
Qed.
Lemma run_policy id policy timing calls : ct_policy (run id policy timing calls) = sanitized policy.
Proof.
  unfold run. change (sanitized policy) with (ct_policy (table_new (Obs := Obs) id policy timing)). generalize (cov_new_inv id policy timing). generalize (table_new (Obs := Obs) id policy timing).
  induction calls as [|c calls IH]; intros t Hinv; [done|]. cbn [fold_left]. rewrite IH by (by apply step_inv). by apply step_policy.
Qed.

(** ** What holds there *)

(** C17: After every sequence of calls from an empty table (expiring, subscribing one or many, unsubscribing, removing an object's or a peer's entries, starting, completing and abandoning reports): no two entries share a key and each is filed under its own subscription's key; the counts the table keeps for a peer are the numbers of its entries and of its endless entries; the global, per-peer and per-peer endless caps hold; and no entry expires, and no outstanding report is abandoned, before the instant the table names as its next wake. *)
Theorem cov_table_sound id policy timing calls : let t := run id policy timing calls in
  NoDup (sn_key <$> ct_subs t) /\ (forall s, s ∈ ct_subs t -> sub_key (sn_subscription s) = Ok (sn_key s)) /\
  (forall p, peer_subscription_count t p = peer_entries (ct_subs t) p /\ peer_indefinite_count t p = endless_entries (ct_subs t) p) /\
  (length (ct_subs t) <= max_subscriptions_global policy)%nat /\
  (forall p, peer_entries (ct_subs t) p <= max_subscriptions_per_peer policy /\ endless_entries (ct_subs t) p <= Nat.min (max_indefinite_per_peer policy) (max_subscriptions_per_peer policy))%nat /\
  (forall s, s ∈ ct_subs t -> due_before (ct_next_due t) (expires s)) /\ (forall e, e ∈ ct_flights t -> due_before (ct_next_due t) (outstanding_deadline e.2)).
Proof.
  intros t. pose proof (cov_run_inv id policy timing calls) as [H1 H2 H3 H4 H5 H6 H7 H8 H9 H10]. rewrite run_policy in *. fold t in H1, H2, H3, H4, H5, H6, H7, H8, H9, H10.
  split_and!; [by apply keys_nodup|done|intros p; split; by apply counts_value|done|intros p; split; [apply H9|apply H10]|done|done].
Qed.

(** C21: After every such sequence, [expire] removes exactly the entries whose time has come and says how many; the others stay in their order, no report stays outstanding past its deadline, and the next wake is later than now. *)
Theorem expire_exact id policy timing calls now : let t := run id policy timing calls in let '(t', n) := expire t now in
  ct_subs t' = filter (lasting now) (ct_subs t) /\ n = length (filter (fun s => expired now s = true) (ct_subs t)) /\ fresh (ct_next_due t') now /\
  (forall e, e ∈ ct_flights t' -> fresh (outstanding_deadline e.2) now).
Proof.
  intros t. pose proof (expire_spec t now (cov_run_inv id policy timing calls)) as (Hinv & Hs & Hn & Hf & _ & _). destruct (expire t now) as [t' n]. cbn [fst snd] in *. split_and!; [done|done|done|].
  intros e He. pose proof (ti_flight_due _ Hinv e He) as Hd. destruct (outstanding_deadline e.2) as [x|]; [|done]. destruct Hd as (d & Ed & Hle). rewrite Ed in Hf. cbn in *. lia.
Qed.

(** C18: After every such sequence, [subscribe] takes a subscription exactly when it is admissible: its key is well formed and not of a Multiple context, an endless one is allowed and fits its own cap unless it replaces an endless one, a new key fits the peer's cap and the table's capacity for that peer, and a generation is left. Taken, it is filed under its key among the entries still alive, with the next generation; refused, the entries still alive are as they were. *)
Theorem subscribe_exact id policy timing calls sub now : let t := run id policy timing calls in let '(t', r) := subscribe t sub now in
  match r with
  | Ok s => exists key, admissible t now sub key /\ sn_key s = key /\ sn_subscription s = sub /\ sn_generation s = ct_generation t + 1 /\ ct_subs t' = (vec_insert sn_key (live now t) s).1
  | Err _ => (forall key, ~ admissible t now sub key) /\ live now t' = live now t
  end.
Proof. intros t. pose proof (subscribe_spec t sub now (cov_run_inv id policy timing calls)) as H. destruct (subscribe t sub now) as [t' r]. by destruct H as (_ & _ & H). Qed.

(** C19: After every such sequence, [subscribe_multiple] takes all the references of a well-formed request whose new keys fit the peer's cap and the table's capacity for that peer, among the entries still alive; otherwise it names the first reference whose key doesn't fit and takes exactly those before it, as if they had been the whole request, or nothing if there are none. Taken, each key is filed once, every reference of the context then ends at the request's end, and every other entry still alive keeps its key and its end. A request is refused whole, and the entries still alive are then as they were, only when it doesn't match its context or too few generations are left for the keys it would take. *)
Theorem subscribe_multiple_exact id policy timing calls context route until delay apdu subs now : let t := run id policy timing calls in
  let '(t', r) := subscribe_multiple t context route until delay apdu subs now in
  match r with
  | Ok accepted => well_formed context route until subs /\ fits t now (mc_recipient context) subs /\ admitted t t' context until now subs accepted
  | Err refused =>
      match mr_refused refused with
      | Some p => well_formed context route until subs /\ (p < length subs)%nat /\
          fits t now (mc_recipient context) (take p subs) /\ ~ fits t now (mc_recipient context) (take (S p) subs) /\
          (if decide (p = 0%nat) then mr_committed refused = [] /\ live now t' = live now t else admitted t t' context until now (take p subs) (mr_committed refused))
      | None => mr_committed refused = [] /\ live now t' = live now t /\ refused_whole t context route until subs now
      end
  end.
Proof.
  intros t. pose proof (subscribe_multiple_spec t context route until delay apdu subs now (cov_run_inv id policy timing calls)) as H. destruct (subscribe_multiple _ _ _ _ _ _ _ _) as [t' r].
  destruct H as (_ & _ & H). destruct r as [accepted|refused]; [done|]. unfold multiple_outcome in H. destruct (mr_refused refused) as [p|]; [|done].
  destruct H as (H1 & H2 & (_ & H3 & H4) & H5). split_and!; try done. by apply H4.
Qed.

(** A result for a report that is neither waiting unconfirmed nor the one its flight holds, at any time, changes nothing: a late acknowledgement, or one for a report that was replaced, is ignored. *)
Theorem stale_delivery_ignored t token outcome now :
  flight_holds t (tk_flight token) (tk_ticket token) now = false -> (forall p, p ∈ ct_pending t -> pn_token p <> token) -> delivered t token outcome now = (t, []).
Proof.
  intros Hh Hp. unfold delivered, deliver_unconfirmed. rewrite (proj2 (list_find_None (fun p => pn_token p = token) (ct_pending t))) by (apply Forall_forall; exact Hp).
  unfold flight_holds in Hh. destruct (vec_get fst (ct_flights t) (tk_flight token)) as [[f state]|]; [|done]. destruct (fs_ticket state =? tk_ticket token), (outstanding state now); cbn in *; done.
Qed.
Lemma begin_loop_checked t references now : forall flight carried completes f c cs, begin_loop t references now flight carried completes = Ok (Some f, c, cs) ->
  Forall (fun r => is_current t r.1 now = true /\ confirmed_idle t r.1 now = true) references /\
  (flight = Some f \/ exists r entry, r ∈ references /\ subs_get t (sn_key r.1) = Some entry /\ sn_flight entry = f).
Proof.
  induction references as [|[s o] references IH]; intros flight carried completes f c cs; cbn [begin_loop]; [intros [= -> _ _]; by split; [constructor|left]|].
  destruct (is_current t s now) eqn:Ec; cbn [negb]; [|done]. destruct (confirmed_idle t s now) eqn:Ei; cbn [negb]; [|done]. intros Hb. apply IH in Hb as [Hall Hf]. split; [by constructor|].
  destruct flight as [known|]; [destruct Hf as [Hf|(r & e & Hr & Hg)]; [by left|right]|right; destruct Hf as [Hf|(r & e & Hr & Hg)]].
  - exists r, e. split; [apply elem_of_cons; by right|done].
  - destruct (subs_get t (sn_key s)) as [e|] eqn:Eg; [|done]. injection Hf as Hf. exists (s, o), e. split_and!; [apply elem_of_cons; by left|done|done].
  - exists r, e. split; [apply elem_of_cons; by right|done].
Qed.
Lemma current_live t s now : is_current t s now = true -> exists entry, live_entry t s = Some entry /\ subs_get t (sn_key s) = Some entry.
Proof.
  unfold is_current, remaining_lifetime. destruct (live_entry t s) as [e|] eqn:E; [|done]. intros _. exists e. split; [done|]. unfold live_entry in E. destruct (negb _); [done|]. destruct (subs_get t (sn_key s)) as [e'|]; [|done]. by destruct (_ && _); [injection E as ->|].
Qed.
(** C20: After every such sequence, a confirmed report of confirmed subscriptions starts only while each of them is current and its flight is idle: nothing outstanding, and no wait after a failure. Started, the flight holds that report, and takes no other, at every time before the deadline: at most one confirmed report of a flight is outstanding. *)
Theorem confirmed_one_at_a_time id policy timing calls ticket references now t' token : let t := run id policy timing calls in
  ticket <> 0 -> (forall r, r ∈ references -> issue_confirmed_notifications (sn_subscription r.1) = true) -> begin_confirmed t (PreparedConfirmed ticket) references now = (t', Ok token) ->
  tk_ticket token = ticket /\ (forall r, r ∈ references -> is_current t r.1 now = true) /\ flight_idle t (tk_flight token) now = true /\
  (forall later, later < instant_saturating_add now (deadline (ct_timing t)) -> flight_holds t' (tk_flight token) ticket later = true /\ flight_idle t' (tk_flight token) later = false).
Proof.
  intros t Hticket Hconf. pose proof (cov_run_inv id policy timing calls) as Hinv. fold t in Hinv. unfold begin_confirmed. destruct (begin_loop t references now None [] []) as [[[[flight|] carried] completes]|] eqn:Eb; [|done..].
  apply begin_loop_checked in Eb as [Hall Hf]. destruct Hf as [Hf|(r & entry & Hr & Hg & Hfl)]; [done|]. rewrite Forall_forall in Hall.
  set (due := instant_saturating_add now (deadline (ct_timing t))). set (f := fun e : Z * FlightState => (e.1, _)). intros E. injection E as Et <-. cbn [tk_ticket tk_flight].
  assert (Hfl' : ct_flights t' = vec_or_default fst (ct_flights t) flight (flight, flight_default) f) by (rewrite <-Et; by destruct (_ =? 0)). split_and!; [done|intros x Hx; by apply Hall| |].
  - destruct (Hall r Hr) as [Hc Hi]. destruct (current_live t r.1 now Hc) as (e & He & Hg'). unfold confirmed_idle in Hi. rewrite (Hconf r Hr), He in Hi. cbn in Hi. apply andb_true_iff in Hi as [Hi _]. by replace flight with (sn_flight e) by congruence.
  - intros later Hlater. unfold flight_holds, flight_idle. rewrite Hfl', (vec_get_or_default (K := Z) fst) by (done || apply Hinv). rewrite decide_True by done. cbn. unfold idle, outstanding. cbn. rewrite Z.eqb_refl.
    replace (ticket =? 0) with false by lia. by replace (later <? due) with true by lia.
Qed.
End Runs.

(** ** A table at work *)

Module Sample.
Definition policy : CovPolicy :=
  {| max_subscriptions_global := 4; max_subscriptions_per_peer := 2; reserved_capacity := 0; reserved_peers := []; reserved_recipients := []; allow_indefinite_subscriptions := true;
     max_indefinite_per_peer := 1; max_notifications_per_event := 8; max_notification_bytes_per_event := 1000; max_confirmed_in_flight_per_peer := 1 |}.
Definition timing : FlightTiming := {| ft_timeout := 1000; ft_retries := 3 |}.
Definition endless_sub : CovSubscription (Obs := unit) :=
  {| subscriber_mac := [1]; subscriber_network := None; subscriber_process_identifier := 7; monitored_object_identifier := {| object_type := 0; instance_number := 1 |};
     issue_confirmed_notifications := true; expires_at := None; last_notified_observation := None; monitored_property := None; monitored_property_array_index := None;
     cov_increment := None; notification_kind := Single; timestamped := false |}.
Definition subscribed : list (Call (Obs := unit)) := [Subscribe endless_sub 100].
Definition entries : list (Snapshot * unit) := (fun s => (s, tt)) <$> ct_subs (run 1 policy timing subscribed).
Definition started := begin_confirmed (run 1 policy timing subscribed) (PreparedConfirmed 5) entries 200.
End Sample.
(** A report begun, and what it excludes. *)
Lemma confirmed_one_at_a_time_witness : exists t' token, Sample.started = (t', Ok token) /\ tk_ticket token = 5 /\ flight_idle t' (tk_flight token) 300 = false.
Proof.
  unfold Sample.started at 1. destruct (begin_confirmed (run 1 Sample.policy Sample.timing Sample.subscribed) (PreparedConfirmed 5) Sample.entries 200) as [t' r] eqn:E. assert (Hr : r = Ok {| tk_flight := 1; tk_ticket := 5 |}) by (apply (f_equal snd) in E; vm_compute in E; symmetry; exact E). subst r.
  exists t', {| tk_flight := 1; tk_ticket := 5 |}. split_and!; [done|done|].
  apply (confirmed_one_at_a_time 1 Sample.policy Sample.timing Sample.subscribed 5 Sample.entries 200 t' {| tk_flight := 1; tk_ticket := 5 |}).
  - done.
  - intros r Hr. assert (Hall : forallb (fun r => issue_confirmed_notifications (sn_subscription r.1)) Sample.entries = true) by (vm_compute; reflexivity). rewrite forallb_forall in Hall. apply Hall. by apply list_elem_of_In.
  - exact E.
  - vm_compute. reflexivity.
Defined.
Lemma stale_delivery_ignored_witness : delivered (Sample.started).1 {| tk_flight := 1; tk_ticket := 4 |} Acknowledged 300 = ((Sample.started).1, []).
Proof.
  apply (stale_delivery_ignored (Sample.started).1 {| tk_flight := 1; tk_ticket := 4 |} Acknowledged 300); [vm_compute; reflexivity|].
  intros p Hp. assert (E : ct_pending (Sample.started).1 = []) by (vm_compute; reflexivity). rewrite E in Hp. by apply not_elem_of_nil in Hp.
Defined.
(** [expire_all] ends an endless entry without taking it off its peer's endless count, and [expire] then removes it as one that was never counted: the table is empty, the count stays at one, and the peer's next endless subscription is refused for want of space. *)
Lemma expire_all_leaks : let t := (expire (expire_all (run 1 Sample.policy Sample.timing Sample.subscribed) 150) 150).1 in
  ct_subs t = [] /\ peer_indefinite_count t (Direct [1]) = 1%nat /\ (subscribe t Sample.endless_sub 200).2 = Err no_space.
Proof. vm_compute. done. Qed.
