(* ===== verification/Coordinator.v ===== *)
(** * Invoke IDs and the endpoint's ingress (bacnet-endpoint-core coordinator.rs, endpoint_destination.rs, endpoint_egress.rs, endpoint_ingress.rs)

    A device has 256 invoke IDs for the confirmed requests it sends. The coordinator leases them, matches each answer to the lease it belongs
    to, and lets one terminal answer through for each. Its state is behind a mutex that a panic poisons: an operation is a function to an
    option, [None] where the code would panic. The ingress sorts what arrives into bounded queues. *)

From Stdlib Require Import String.
From S2P Require Import Prelude Sink WireError Tags Values Utf8 Primitives Tagged References Apdu Address.
Open Scope Z_scope.

(** ** Peers *)

(** [CanonicalPeer] (bacnet-endpoint-core/src/coordinator.rs) *)
Inductive CanonicalPeer := PeerDirect (mac : bytes) | PeerRouted (network : Z) (address : bytes).
#[export] Instance CanonicalPeer_eq : EqDecision CanonicalPeer.
Proof. solve_decision. Defined.
(** [CanonicalPeer::from_source] (bacnet-endpoint-core/src/coordinator.rs) *)
Definition from_source (immediate_mac : bytes) (routed_source : option NpduAddress) (local_network : option Z) : CanonicalPeer :=
  match routed_source with
  | Some source =>
      if bool_decide (na_mac source = []) then PeerDirect immediate_mac
      else if bool_decide (Some (na_network source) = local_network) then PeerDirect (na_mac source)
      else PeerRouted (na_network source) (na_mac source)
  | None => PeerDirect immediate_mac
  end.
(** [CanonicalPeer::routed_alias] (bacnet-endpoint-core/src/coordinator.rs) *)
Definition routed_alias (routed_source : option NpduAddress) (local_network : option Z) : option CanonicalPeer :=
  match routed_source with
  | Some source => if bool_decide (na_mac source <> []) && bool_decide (Some (na_network source) = local_network) then Some (PeerRouted (na_network source) (na_mac source)) else None
  | None => None
  end.
(** [CanonicalPeer::direct_alias] (bacnet-endpoint-core/src/coordinator.rs) *)
Definition direct_alias (immediate_mac : bytes) (routed_source : option NpduAddress) (local_network : option Z) : option CanonicalPeer :=
  match routed_source, local_network with
  | None, Some network => if bool_decide (immediate_mac <> []) then Some (PeerRouted network immediate_mac) else None
  | _, _ => None
  end.

(** ** Leases *)

(** [LeaseOwner] (bacnet-endpoint-core/src/coordinator.rs) *)
Inductive LeaseOwner := Requester | Notification.
#[export] Instance LeaseOwner_eq : EqDecision LeaseOwner.
Proof. solve_decision. Defined.
(** [TerminalPolicy] (bacnet-endpoint-core/src/coordinator.rs) *)
Inductive TerminalPolicy := TakeSimpleAck | TakeComplexAck | TakeEitherAck.
(** [TerminalPolicy::accepts_simple_ack] (bacnet-endpoint-core/src/coordinator.rs) *)
Definition accepts_simple_ack (p : TerminalPolicy) : bool := match p with TakeSimpleAck | TakeEitherAck => true | _ => false end.
(** [TerminalPolicy::accepts_complex_ack] (bacnet-endpoint-core/src/coordinator.rs) *)
Definition accepts_complex_ack (p : TerminalPolicy) : bool := match p with TakeComplexAck | TakeEitherAck => true | _ => false end.
(** [LeaseMetadata] (bacnet-endpoint-core/src/coordinator.rs) *)
Record LeaseMetadata := { lm_owner : LeaseOwner; lm_peer : CanonicalPeer; lm_service_choice : Z; lm_terminal_policy : TerminalPolicy; lm_segmented_request : bool }.
(** [LeaseMetadata::requester] (bacnet-endpoint-core/src/coordinator.rs) *)
Definition requester (peer : CanonicalPeer) (service : Z) (policy : TerminalPolicy) : LeaseMetadata :=
  {| lm_owner := Requester; lm_peer := peer; lm_service_choice := service; lm_terminal_policy := policy; lm_segmented_request := false |}.
(** [LeaseMetadata::segmented_requester] (bacnet-endpoint-core/src/coordinator.rs) *)
Definition segmented_requester (peer : CanonicalPeer) (service : Z) (policy : TerminalPolicy) : LeaseMetadata :=
  {| lm_owner := Requester; lm_peer := peer; lm_service_choice := service; lm_terminal_policy := policy; lm_segmented_request := true |}.
(** [LeaseMetadata::notification] (bacnet-endpoint-core/src/coordinator.rs) *)
Definition notification (peer : CanonicalPeer) (service : Z) : LeaseMetadata :=
  {| lm_owner := Notification; lm_peer := peer; lm_service_choice := service; lm_terminal_policy := TakeSimpleAck; lm_segmented_request := false |}.
(** [LeaseMetadata::server_read] (bacnet-endpoint-core/src/coordinator.rs) *)
Definition server_read (peer : CanonicalPeer) (service : Z) : LeaseMetadata :=
  {| lm_owner := Notification; lm_peer := peer; lm_service_choice := service; lm_terminal_policy := TakeComplexAck; lm_segmented_request := false |}.
(** [LeaseToken] (bacnet-endpoint-core/src/coordinator.rs) *)
Record LeaseToken := { lt_invoke_id : nat; lt_generation : Z }.
#[export] Instance LeaseToken_eq : EqDecision LeaseToken.
Proof. solve_decision. Defined.
(** [ReserveError] (bacnet-endpoint-core/src/coordinator.rs) *)
Inductive ReserveError := Exhausted | GenerationExhausted | ReserveStatePoisoned.
(** [CoordinatorError] (bacnet-endpoint-core/src/coordinator.rs) *)
Inductive CoordinatorError := StatePoisoned.
(** [ReleaseOutcome] (bacnet-endpoint-core/src/coordinator.rs) *)
Inductive ReleaseOutcome := Released | AlreadyReleased | StaleToken.
(** [AdmissionKind] (bacnet-endpoint-core/src/coordinator.rs) *)
Inductive AdmissionKind := Terminal | NonTerminal.
(** [Admission] (bacnet-endpoint-core/src/coordinator.rs) *)
Record Admission := { ad_token : LeaseToken; ad_metadata : LeaseMetadata; ad_kind : AdmissionKind }.
(** [Matched] is the source's [Admitted].
    [AdmissionOutcome] (bacnet-endpoint-core/src/coordinator.rs) *)
Inductive AdmissionOutcome :=
| Matched (a : Admission) | NotOutbound | UnknownInvokeId | PeerMismatch | OwnerMismatch | ServiceMismatch (expected observed : Z) | PolicyMismatch
| DirectionMismatch | DuplicateTerminal.
(** [ActiveLease] (bacnet-endpoint-core/src/coordinator.rs) *)
Record ActiveLease := { al_generation : Z; al_metadata : LeaseMetadata; al_terminal_claimed : bool }.

(** ** Matching an answer *)

(** [response_invoke_id] (bacnet-endpoint-core/src/coordinator.rs) *)
Definition response_invoke_id (apdu : Apdu) : option Z :=
  match apdu with
  | ApduSimpleAck pdu => Some (sa_invoke_id pdu)
  | ApduComplexAck pdu => Some (ca_invoke_id pdu)
  | ApduSegmentAck pdu => Some (sg_invoke_id pdu)
  | ApduError pdu => Some (er_invoke_id pdu)
  | ApduReject pdu => Some (rj_invoke_id pdu)
  | ApduAbort pdu => Some (ab_invoke_id pdu)
  | ApduConfirmedRequest _ | ApduUnconfirmedRequest _ => None
  end.
(** [validate_service] (bacnet-endpoint-core/src/coordinator.rs) *)
Definition validate_service (m : LeaseMetadata) (observed : Z) : Result unit AdmissionOutcome :=
  if lm_service_choice m =? observed then Ok tt else Err (ServiceMismatch (lm_service_choice m) observed).
(** [validate_apdu] (bacnet-endpoint-core/src/coordinator.rs) *)
Definition validate_apdu (m : LeaseMetadata) (apdu : Apdu) : Result AdmissionKind AdmissionOutcome :=
  match apdu with
  | ApduSimpleAck pdu =>
      let? _ := validate_service m (sa_service_choice pdu) in
      if negb (accepts_simple_ack (lm_terminal_policy m)) then Err PolicyMismatch else Ok Terminal
  | ApduComplexAck pdu =>
      let? _ := if negb (ca_segmented pdu) then validate_service m (ca_service_choice pdu) else Ok tt in
      let server_read := negb (ca_segmented pdu) && accepts_complex_ack (lm_terminal_policy m) in
      if bool_decide (lm_owner m <> Requester) && negb server_read then Err OwnerMismatch else
      if negb (accepts_complex_ack (lm_terminal_policy m)) then Err PolicyMismatch else
      if ca_segmented pdu then Ok NonTerminal else Ok Terminal
  | ApduError pdu => let? _ := validate_service m (er_service_choice pdu) in Ok Terminal
  | ApduReject _ => Ok Terminal
  | ApduAbort pdu => if negb (ab_sent_by_server pdu) then Err DirectionMismatch else Ok Terminal
  | ApduSegmentAck pdu =>
      if negb (sg_sent_by_server pdu) then Err DirectionMismatch else
      if bool_decide (lm_owner m <> Requester) || negb (lm_segmented_request m) then Err OwnerMismatch else Ok NonTerminal
  | ApduConfirmedRequest _ | ApduUnconfirmedRequest _ => Err NotOutbound
  end.

(** ** The coordinator *)

(** [INVOKE_ID_COUNT] (bacnet-endpoint-core/src/coordinator.rs) *)
Definition INVOKE_ID_COUNT : nat := 256.
(** [CoordinatorState] (bacnet-endpoint-core/src/coordinator.rs) *)
Record CoordinatorState := {
  cs_slots : list (option ActiveLease); cs_last_released : list (option Z); cs_next_invoke_id : nat; cs_last_generation : Z; cs_active_count : nat
}.
(** [CoordinatorState::new] (bacnet-endpoint-core/src/coordinator.rs:400-408) *)
Definition state_new : CoordinatorState :=
  {| cs_slots := repeat None INVOKE_ID_COUNT; cs_last_released := repeat None INVOKE_ID_COUNT; cs_next_invoke_id := 0; cs_last_generation := 0; cs_active_count := 0 |}.
(** The first free slot of the indices, [None] when an index is out of bounds. *)
Fixpoint find_free (slots : list (option ActiveLease)) (indices : list nat) : option (option nat) :=
  match indices with
  | [] => Some None
  | i :: indices => match slots !! i with None => None | Some None => Some (Some i) | Some (Some _) => find_free slots indices end
  end.
(** [CoordinatorState::available_slot] (bacnet-endpoint-core/src/coordinator.rs) *)
Definition available_slot (s : CoordinatorState) : option (option nat) :=
  find_free (cs_slots s) ((fun offset => (cs_next_invoke_id s + offset) mod INVOKE_ID_COUNT)%nat <$> seq 0 INVOKE_ID_COUNT).
(** [CoordinatorState::release_exact] (bacnet-endpoint-core/src/coordinator.rs) *)
Definition release_exact (s : CoordinatorState) (token : LeaseToken) : option (CoordinatorState * ReleaseOutcome) :=
  let index := lt_invoke_id token in
  slot ← cs_slots s !! index;
  match slot with
  | Some active =>
      if al_generation active =? lt_generation token then
        _ ← cs_last_released s !! index;
        if decide (cs_active_count s = 0%nat) then None else
        Some ({| cs_slots := <[index := None]> (cs_slots s); cs_last_released := <[index := Some (lt_generation token)]> (cs_last_released s);
                 cs_next_invoke_id := cs_next_invoke_id s; cs_last_generation := cs_last_generation s; cs_active_count := cs_active_count s - 1 |}, Released)
      else Some (s, StaleToken)
  | None =>
      last ← cs_last_released s !! index;
      Some (s, if decide (last = Some (lt_generation token)) then AlreadyReleased else StaleToken)
  end.
(** What [reserve] does under the lock: the code of [OutboundTransactionCoordinator::reserve] from the search for a slot on.
    [OutboundTransactionCoordinator::reserve] (bacnet-endpoint-core/src/coordinator.rs:462-480) *)
Definition reserve_locked (s : CoordinatorState) (metadata : LeaseMetadata) : option (CoordinatorState * Result LeaseToken ReserveError) :=
  slot ← available_slot s;
  match slot with
  | None => Some (s, Err Exhausted)
  | Some index =>
      let generation := cs_last_generation s + 1 in
      if U64_MAX <? generation then Some (s, Err GenerationExhausted) else
      _ ← cs_slots s !! index;
      Some ({| cs_slots := <[index := Some {| al_generation := generation; al_metadata := metadata; al_terminal_claimed := false |}]> (cs_slots s);
               cs_last_released := cs_last_released s; cs_next_invoke_id := ((index + 1) mod INVOKE_ID_COUNT)%nat; cs_last_generation := generation;
               cs_active_count := S (cs_active_count s) |}, Ok {| lt_invoke_id := index; lt_generation := generation |})
  end.
(** What [admit] does under the lock.
    [OutboundTransactionCoordinator::admit] (bacnet-endpoint-core/src/coordinator.rs:499-524) *)
Definition admit_locked (s : CoordinatorState) (peer : CanonicalPeer) (apdu : Apdu) (invoke_id : nat) : option (CoordinatorState * AdmissionOutcome) :=
  slot ← cs_slots s !! invoke_id;
  match slot with
  | None => Some (s, UnknownInvokeId)
  | Some active =>
      if negb (bool_decide (lm_peer (al_metadata active) = peer)) then Some (s, PeerMismatch) else
      match validate_apdu (al_metadata active) apdu with
      | Err outcome => Some (s, outcome)
      | Ok kind =>
          let admission := {| ad_token := {| lt_invoke_id := invoke_id; lt_generation := al_generation active |}; ad_metadata := al_metadata active; ad_kind := kind |} in
          match kind with
          | Terminal =>
              if al_terminal_claimed active then Some (s, DuplicateTerminal) else
              Some ({| cs_slots := <[invoke_id := Some {| al_generation := al_generation active; al_metadata := al_metadata active; al_terminal_claimed := true |}]> (cs_slots s);
                       cs_last_released := cs_last_released s; cs_next_invoke_id := cs_next_invoke_id s; cs_last_generation := cs_last_generation s;
                       cs_active_count := cs_active_count s |}, Matched admission)
          | NonTerminal => Some (s, Matched admission)
          end
      end
  end.
(** The mutex, whether a panic under it has poisoned it, and how often waiters were woken.
    [OutboundTransactionCoordinator] (bacnet-endpoint-core/src/coordinator.rs:439-442) *)
Record Coordinator := { co_state : CoordinatorState; co_poisoned : bool; co_wakes : nat }.
(** [OutboundTransactionCoordinator::new] (bacnet-endpoint-core/src/coordinator.rs:452-457) *)
Definition coordinator_new : Coordinator := {| co_state := state_new; co_poisoned := false; co_wakes := 0 |}.
(** [self.state.lock()]: what a holder does; a panic poisons the mutex and reaches the caller as [None]. *)
Definition with_lock {A E} (c : Coordinator) (poisoned : E) (f : CoordinatorState -> option (CoordinatorState * A)) : Coordinator * option (Result A E) :=
  if co_poisoned c then (c, Some (Err poisoned)) else
  match f (co_state c) with
  | Some (s, a) => ({| co_state := s; co_poisoned := false; co_wakes := co_wakes c |}, Some (Ok a))
  | None => ({| co_state := co_state c; co_poisoned := true; co_wakes := co_wakes c |}, None)
  end.
(** [OutboundTransactionCoordinator::reserve] (bacnet-endpoint-core/src/coordinator.rs) *)
Definition reserve (c : Coordinator) (metadata : LeaseMetadata) : Coordinator * option (Result LeaseToken ReserveError) :=
  let '(c, r) := with_lock c ReserveStatePoisoned (fun s => reserve_locked s metadata) in
  (c, match r with Some (Ok r) => Some r | Some (Err e) => Some (Err e) | None => None end).
(** [OutboundTransactionCoordinator::admit] (bacnet-endpoint-core/src/coordinator.rs) *)
Definition admit_apdu (c : Coordinator) (peer : CanonicalPeer) (apdu : Apdu) : Coordinator * option (Result AdmissionOutcome CoordinatorError) :=
  match response_invoke_id apdu with
  | None => (c, Some (Ok NotOutbound))
  | Some invoke_id => with_lock c StatePoisoned (fun s => admit_locked s peer apdu (Z.to_nat invoke_id))
  end.
(** [OutboundTransactionCoordinator::admit_from_source] (bacnet-endpoint-core/src/coordinator.rs) *)
Definition admit_from_source (c : Coordinator) (immediate_mac : bytes) (routed_source : option NpduAddress) (local_network : option Z) (apdu : Apdu)
  : Coordinator * option (Result AdmissionOutcome CoordinatorError) :=
  match admit_apdu c (from_source immediate_mac routed_source local_network) apdu with
  | (c, Some (Ok PeerMismatch)) =>
      match (match routed_alias routed_source local_network with Some alias => Some alias | None => direct_alias immediate_mac routed_source local_network end) with
      | Some alias => admit_apdu c alias apdu
      | None => (c, Some (Ok PeerMismatch))
      end
  | outcome => outcome
  end.
(** [OutboundTransactionCoordinator::release_token] (bacnet-endpoint-core/src/coordinator.rs) *)
Definition release_token (c : Coordinator) (token : LeaseToken) : Coordinator * option (Result ReleaseOutcome CoordinatorError) :=
  match with_lock c StatePoisoned (fun s => release_exact s token) with
  | (c, Some (Ok Released)) => ({| co_state := co_state c; co_poisoned := co_poisoned c; co_wakes := S (co_wakes c) |}, Some (Ok Released))
  | outcome => outcome
  end.
(** [OutboundTransactionCoordinator::complete] (bacnet-endpoint-core/src/coordinator.rs) *)
Definition complete := release_token.
(** [OutboundTransactionCoordinator::cancel] (bacnet-endpoint-core/src/coordinator.rs) *)
Definition cancel := release_token.
(** [OutboundTransactionCoordinator::release] (bacnet-endpoint-core/src/coordinator.rs) *)
Definition release := release_token.
(** [OutboundTransactionCoordinator::active_count] (bacnet-endpoint-core/src/coordinator.rs) *)
Definition active_count (c : Coordinator) : Result nat CoordinatorError := if co_poisoned c then Err StatePoisoned else Ok (cs_active_count (co_state c)).

(** ** Destinations *)

(** [EndpointApduDestination] (bacnet-endpoint-core/src/endpoint_destination.rs) *)
Inductive Destination :=
| ToDirect (destination_mac : bytes)
| ToRouted (destination_network : Z) (destination_mac router_mac : bytes)
| ToRoutedViaLocalBroadcast (destination_network : Z) (destination_mac : bytes)
| ToLocalBroadcast
| ToRemoteBroadcast (destination_network : Z)
| ToGlobalBroadcast.
(** [EndpointApduDestination::localized] (bacnet-endpoint-core/src/endpoint_egress.rs) *)
Definition localized (d : Destination) (local_network : option Z) : Destination :=
  let here network := bool_decide (Some network = local_network) in
  match d with
  | ToRouted network mac _ | ToRoutedViaLocalBroadcast network mac => if here network then ToDirect mac else d
  | ToRemoteBroadcast network => if here network then ToLocalBroadcast else d
  | _ => d
  end.

(** ** Ingress *)

(** A bounded channel: what waits in it, its capacity, and whether its receiver is gone. *)
Record Channel A := { ch_items : list A; ch_capacity : nat; ch_closed : bool }.
Arguments ch_items {A}.
Arguments ch_capacity {A}.
Arguments ch_closed {A}.
Inductive TrySendError A := TryFull (a : A) | TryClosed (a : A).
Arguments TryFull {A}.
Arguments TryClosed {A}.
(** [mpsc::Sender::try_send] *)
Definition try_send {A} (ch : Channel A) (a : A) : Channel A * Result unit (TrySendError A) :=
  if ch_closed ch then (ch, Err (TryClosed a)) else
  if decide (length (ch_items ch) < ch_capacity ch)%nat
  then ({| ch_items := ch_items ch ++ [a]; ch_capacity := ch_capacity ch; ch_closed := false |}, Ok tt)
  else (ch, Err (TryFull a)).

Section Ingress.
(** The transport's rule for a MAC that reaches a group of nodes. *)
Context (is_group_destination : bytes -> bool).
(** [validate_effective_group_apdu] (bacnet-endpoint-core/src/endpoint_ingress.rs) *)
Definition validate_effective_group_apdu (apdu : bytes) (d : Destination) : Result unit string :=
  let group :=
    match d with
    | ToLocalBroadcast | ToRemoteBroadcast _ | ToGlobalBroadcast => true
    | ToDirect mac => is_group_destination mac
    | ToRouted _ _ _ | ToRoutedViaLocalBroadcast _ _ => false
    end in
  if negb group then Ok tt else
  match decode_apdu apdu with
  | Ok (ApduUnconfirmedRequest _) => Ok tt
  | _ => Err "effective group destination requires a valid unconfirmed request APDU"%string
  end.
(** [IngressRoute] (bacnet-endpoint-core/src/endpoint_ingress.rs) *)
Inductive IngressRoute := InboundRequest | TerminalOrSegment.
(** [PolicyReason] (bacnet-endpoint-core/src/endpoint_ingress.rs) *)
Inductive PolicyReason := MalformedApdu | UnsupportedPduType (pdu_type : Z) | RouteFull (route : IngressRoute) | RouteClosed (route : IngressRoute) | GroupSource.
(** What classification reads of a received APDU; the rest of its envelope, which travels with it, is a number here.
    [ReceivedApdu] (bacnet-network/src/layer.rs:142-148) *)
Record Received := { rx_apdu : bytes; rx_source_mac : bytes; rx_envelope : nat }.
(** [PolicyOutcome] (bacnet-endpoint-core/src/endpoint_ingress.rs) *)
Record PolicyOutcome := { po_reason : PolicyReason; po_received : Received }.
(** [classify] (bacnet-endpoint-core/src/endpoint_ingress.rs) *)
Definition classify (r : Received) : Result IngressRoute PolicyReason :=
  match rx_apdu r with
  | [] => Err MalformedApdu
  | first :: _ =>
      let pdu_type := Z.land (Z.shiftr first 4) 15 in
      if 7 <? pdu_type then Err (UnsupportedPduType pdu_type) else
      match decode_apdu (rx_apdu r) with
      | Ok (ApduConfirmedRequest _) => if is_group_destination (rx_source_mac r) then Err GroupSource else Ok InboundRequest
      | Ok (ApduUnconfirmedRequest _) => Ok InboundRequest
      | Ok _ => Ok TerminalOrSegment
      | Err _ => Err MalformedApdu
      end
  end.
(** [ClassifierExit] (bacnet-endpoint-core/src/endpoint_ingress.rs) *)
Inductive ClassifierExit := ExitCancelled | ExitInputClosed | PolicyRouteFull (o : PolicyOutcome) | PolicyRouteClosed (o : PolicyOutcome).
(** [IngressQueues] (bacnet-endpoint-core/src/endpoint_ingress.rs) *)
Record IngressQueues := { iq_inbound : Channel Received; iq_terminal : Channel Received; iq_policy : Channel PolicyOutcome }.
(** [send_policy] (bacnet-endpoint-core/src/endpoint_ingress.rs) *)
Definition send_policy (q : IngressQueues) (o : PolicyOutcome) : IngressQueues * option ClassifierExit :=
  let '(policy, r) := try_send (iq_policy q) o in
  ({| iq_inbound := iq_inbound q; iq_terminal := iq_terminal q; iq_policy := policy |},
   match r with Ok _ => None | Err (TryFull o) => Some (PolicyRouteFull o) | Err (TryClosed o) => Some (PolicyRouteClosed o) end).
(** [route_received] (bacnet-endpoint-core/src/endpoint_ingress.rs) *)
Definition route_received (q : IngressQueues) (r : Received) : IngressQueues * option ClassifierExit :=
  match classify r with
  | Err reason => send_policy q {| po_reason := reason; po_received := r |}
  | Ok route =>
      let '(q, sent) :=
        match route with
        | InboundRequest =>
            let '(ch, sent) := try_send (iq_inbound q) r in ({| iq_inbound := ch; iq_terminal := iq_terminal q; iq_policy := iq_policy q |}, sent)
        | TerminalOrSegment =>
            let '(ch, sent) := try_send (iq_terminal q) r in ({| iq_inbound := iq_inbound q; iq_terminal := ch; iq_policy := iq_policy q |}, sent)
        end in
      match sent with
      | Ok _ => (q, None)
      | Err (TryFull r) => send_policy q {| po_reason := RouteFull route; po_received := r |}
      | Err (TryClosed r) => send_policy q {| po_reason := RouteClosed route; po_received := r |}
      end
  end.
End Ingress.
