(* ===== verification/CoordinatorTheorems.v ===== *)
(** * What the coordinator of invoke IDs keeps true

    The history of a run is the list of what the coordinator answered, the latest first: leases given, answers admitted, leases released. Which
    events may follow a history is the abstract specification ([allowed]); the slots are a representation of the history ([represents]),
    and every call extends it lawfully. The ingress hands each received APDU to exactly one owner. *)

From S2P Require Import Prelude Sink WireError Tags Values Utf8 Primitives Tagged References Apdu Address Coordinator.
Open Scope Z_scope.

(** ** Histories *)

Inductive Event :=
| EvReserved (token : LeaseToken) (metadata : LeaseMetadata)
| EvAdmitted (token : LeaseToken) (sources : list CanonicalPeer) (apdu : Apdu) (kind : AdmissionKind)
| EvReleased (token : LeaseToken).
(** The lease an event is about. *)
Definition event_token (e : Event) : LeaseToken := match e with EvReserved token _ | EvAdmitted token _ _ _ | EvReleased token => token end.
Implicit Types (past : list Event) (token : LeaseToken).
(** A lease given and not yet released; its one terminal answer. *)
Definition live_lease past token (m : LeaseMetadata) : Prop := EvReserved token m ∈ past /\ EvReleased token ∉ past.
Definition claimed past token : Prop := exists sources apdu, EvAdmitted token sources apdu Terminal ∈ past.
Fixpoint last_release past (id : nat) : option Z :=
  match past with
  | [] => None
  | EvReleased token :: past => if decide (lt_invoke_id token = id) then Some (lt_generation token) else last_release past id
  | _ :: past => last_release past id
  end.
(** What the coordinator may answer after a history: a lease of a generation never given before, under an ID no lease holds; an answer from the
    lease's own peer that fits what it asked, a terminal one once; the release of a lease that is held. *)
Definition allowed past (e : Event) : Prop :=
  match e with
  | EvReserved token m =>
      (lt_invoke_id token < INVOKE_ID_COUNT)%nat /\ (forall token' m', EvReserved token' m' ∈ past -> lt_generation token' < lt_generation token) /\
      (forall token' m', live_lease past token' m' -> lt_invoke_id token' <> lt_invoke_id token)
  | EvAdmitted token sources apdu kind =>
      exists m, live_lease past token m /\ lm_peer m ∈ sources /\ response_invoke_id apdu = Some (Z.of_nat (lt_invoke_id token)) /\ validate_apdu m apdu = Ok kind /\
        (kind = Terminal -> ~ claimed past token)
  | EvReleased token => exists m, live_lease past token m
  end.
Fixpoint lawful past : Prop := match past with [] => True | e :: past => lawful past /\ allowed past e end.

(** ** The slots represent the history *)

Definition token_of (id : nat) (l : ActiveLease) : LeaseToken := {| lt_invoke_id := id; lt_generation := al_generation l |}.
Definition occupied (slots : list (option ActiveLease)) : nat := length (filter (fun o => is_some o = true) slots).
Record represents past (s : CoordinatorState) : Prop := {
  rp_length : length (cs_slots s) = INVOKE_ID_COUNT;
  rp_last_length : length (cs_last_released s) = INVOKE_ID_COUNT;
  rp_next : (cs_next_invoke_id s < INVOKE_ID_COUNT)%nat;
  rp_generation : 0 <= cs_last_generation s <= U64_MAX;
  rp_count : cs_active_count s = occupied (cs_slots s);
  rp_active : forall id l, cs_slots s !! id = Some (Some l) -> live_lease past (token_of id l) (al_metadata l) /\ (al_terminal_claimed l = true <-> claimed past (token_of id l));
  rp_live : forall token m, live_lease past token m -> exists l, cs_slots s !! lt_invoke_id token = Some (Some l) /\ al_generation l = lt_generation token /\ al_metadata l = m;
  rp_issued : forall e, e ∈ past -> lt_generation (event_token e) <= cs_last_generation s;
  rp_released : forall id last, cs_last_released s !! id = Some last -> last = last_release past id
}.
Lemma live_cons past token m e : live_lease (e :: past) token m <-> (e = EvReserved token m \/ EvReserved token m ∈ past) /\ e <> EvReleased token /\ EvReleased token ∉ past.
Proof. unfold live_lease. rewrite elem_of_cons, not_elem_of_cons. naive_solver. Qed.
Lemma claimed_cons past token e : claimed (e :: past) token <-> (exists sources apdu, e = EvAdmitted token sources apdu Terminal) \/ claimed past token.
Proof. unfold claimed. setoid_rewrite elem_of_cons. naive_solver. Qed.
Lemma occupied_cons o slots : occupied (o :: slots) = ((if is_some o then 1 else 0) + occupied slots)%nat.
Proof. unfold occupied. rewrite filter_cons. destruct o; [by rewrite decide_True|by rewrite decide_False]. Qed.
Lemma occupied_insert slots id old new : slots !! id = Some old -> (occupied (<[id := new]> slots) + (if is_some old then 1 else 0) = occupied slots + (if is_some new then 1 else 0))%nat.
Proof.
  revert id. induction slots as [|o slots IH]; intros [|id] H; try done.
  - injection H as ->. change (<[0%nat := new]> (old :: slots)) with (new :: slots). rewrite !occupied_cons. lia.
  - specialize (IH id H). change (<[S id := new]> (o :: slots)) with (o :: <[id := new]> slots). rewrite !occupied_cons. lia.
Qed.
Lemma occupied_some slots id (l : ActiveLease) : slots !! id = Some (Some l) -> (0 < occupied slots)%nat.
Proof. intros H. unfold occupied. assert (Hin : Some l ∈ filter (fun o : option ActiveLease => is_some o = true) slots) by (apply list_elem_of_filter; split; [done|by eapply list_elem_of_lookup_2]). destruct (filter _ slots); [by apply not_elem_of_nil in Hin|cbn; lia]. Qed.
Lemma represents_new : represents [] state_new.
Proof.
  constructor; cbn [state_new cs_slots cs_last_released cs_next_invoke_id cs_last_generation cs_active_count]; try done; try (unfold INVOKE_ID_COUNT, U64_MAX; lia).
  - intros id l H. apply list_elem_of_lookup_2, list_elem_of_In, repeat_spec in H. done.
  - intros token m [H _]. by apply not_elem_of_nil in H.
  - intros e H. by apply not_elem_of_nil in H.
  - intros id last H. by apply list_elem_of_lookup_2, list_elem_of_In, repeat_spec in H.
Qed.

(** ** Reserving *)

Lemma find_free_spec slots indices : (forall i, i ∈ indices -> (i < length slots)%nat) ->
  match find_free slots indices with
  | None => False
  | Some None => forall i, i ∈ indices -> exists l, slots !! i = Some (Some l)
  | Some (Some i) => exists before after, indices = before ++ i :: after /\ slots !! i = Some None /\ forall j, j ∈ before -> exists l, slots !! j = Some (Some l)
  end.
Proof.
  induction indices as [|i indices IH]; intros Hi; cbn [find_free]; [by intros i ?%not_elem_of_nil|]. destruct (lookup_lt_is_Some_2 slots i) as [[l|] Hl]; [apply Hi, elem_of_cons; by left|..]; rewrite Hl.
  - specialize (IH ltac:(intros j Hj; apply Hi, elem_of_cons; by right)). destruct (find_free slots indices) as [[j|]|]; [|intros j [->|Hj]%elem_of_cons; [by exists l|by apply IH]|done].
    destruct IH as (before & after & -> & Hj & Hb). exists (i :: before), after. split_and!; [done|done|]. intros k [->|Hk]%elem_of_cons; [by exists l|by apply Hb].
  - exists [], indices. split_and!; [done|done|]. by intros j ?%not_elem_of_nil.
Qed.
Definition rotation (next : nat) : list nat := (fun offset => (next + offset) mod INVOKE_ID_COUNT)%nat <$> seq 0 INVOKE_ID_COUNT.
Lemma rotation_all next id : (next < INVOKE_ID_COUNT)%nat -> id ∈ rotation next <-> (id < INVOKE_ID_COUNT)%nat.
Proof.
  intros Hn. unfold rotation. rewrite list_elem_of_fmap. setoid_rewrite elem_of_seq. split; [intros (o & -> & _); apply Nat.mod_upper_bound; done|].
  intros Hid. destruct (decide (next <= id)%nat); [exists (id - next)%nat|exists (id + INVOKE_ID_COUNT - next)%nat]; (split; [|lia]).
  - replace (next + (id - next))%nat with id by lia. by rewrite Nat.mod_small.
  - replace (next + (id + INVOKE_ID_COUNT - next))%nat with (id + 1 * INVOKE_ID_COUNT)%nat by lia. rewrite Nat.Div0.mod_add. by rewrite Nat.mod_small.
Qed.
Lemma reserve_step past s m : represents past s -> exists s' r, reserve_locked s m = Some (s', r) /\
  match r with
  | Ok token => represents (EvReserved token m :: past) s' /\ allowed past (EvReserved token m) /\ lt_generation token = cs_last_generation s + 1 /\
      exists before after, rotation (cs_next_invoke_id s) = before ++ lt_invoke_id token :: after /\ forall id, id ∈ before -> exists l, cs_slots s !! id = Some (Some l)
  | Err Exhausted => s' = s /\ forall id, (id < INVOKE_ID_COUNT)%nat -> exists l, cs_slots s !! id = Some (Some l)
  | Err GenerationExhausted => s' = s /\ cs_last_generation s = U64_MAX
  | Err ReserveStatePoisoned => False
  end.
Proof.
  intros [R1 R2 R3 R4 R5 R6 R7 R8 R9]. unfold reserve_locked, available_slot. fold (rotation (cs_next_invoke_id s)). pose proof (find_free_spec (cs_slots s) (rotation (cs_next_invoke_id s))) as Hf.
  specialize (Hf ltac:(intros i Hi; rewrite R1; by apply rotation_all in Hi)). destruct (find_free _ _) as [[id|]|]; cbn [mbind option_bind]; [|exists s, (Err Exhausted); split_and!; [done|done|intros id Hid; by apply Hf, rotation_all]|done].
  destruct Hf as (before & after & Erot & Hfree & Hbefore). destruct (U64_MAX <? cs_last_generation s + 1) eqn:Eg; [exists s, (Err GenerationExhausted); split_and!; [done|done|lia]|]. rewrite Hfree. cbn [mbind option_bind].
  eexists _, _. split; [done|]. cbn [lt_generation lt_invoke_id]. assert (Hid : (id < INVOKE_ID_COUNT)%nat) by (rewrite <-R1; by eapply lookup_lt_Some).
  set (new := {| lt_invoke_id := id; lt_generation := cs_last_generation s + 1 |}) in *. assert (Hnew : forall e, e ∈ past -> event_token e <> new) by (intros e He%R8 E; rewrite E in He; cbn in He; lia).
  assert (Hfree' : forall token m', live_lease past token m' -> lt_invoke_id token <> id) by (intros token m' (l & Hl & _)%R7 E; rewrite E in Hl; congruence).
  split_and!; [|split_and!; [done|intros token' m' H%R8; cbn in *; lia|intros token' m' H; by apply (Hfree' _ m')]|done|by exists before, after].
  constructor; cbn [cs_slots cs_last_released cs_next_invoke_id cs_last_generation cs_active_count]; try done.
  - by rewrite length_insert.
  - apply Nat.mod_upper_bound. done.
  - lia.
  - pose proof (occupied_insert (cs_slots s) id None (Some {| al_generation := cs_last_generation s + 1; al_metadata := m; al_terminal_claimed := false |}) Hfree) as Ho. cbn in Ho. lia.
  - intros id' l Hl. destruct (decide (id' = id)) as [->|Hne].
    + rewrite list_lookup_insert_eq in Hl by lia. injection Hl as <-. change (token_of id _) with new. cbn [al_metadata al_terminal_claimed]. rewrite live_cons, claimed_cons. split.
      * split_and!; [by left|done|]. intros H. by apply (Hnew _ H).
      * split; [done|]. intros [(? & ? & [=])|(? & ? & H)]. by destruct (Hnew _ H).
    + rewrite list_lookup_insert_ne in Hl by done. destruct (R6 id' l Hl) as [[L1 L2] Hc]. rewrite live_cons, claimed_cons. split; [split_and!; [by right|done|done]|]. rewrite Hc. split; [by right|]. by intros [(? & ? & [=])|?].
  - intros token m' [[[= <- <-]|H] [_ Hn]]%live_cons; [|destruct (R7 token m') as (l & Hl & E); [done|]].
    + eexists. by rewrite list_lookup_insert_eq by (cbn; lia).
    + exists l. rewrite list_lookup_insert_ne; [done|]. intros E'. by apply (Hfree' token m').
  - intros e [->|He]%elem_of_cons; [cbn; lia|]. specialize (R8 e He). lia.
Qed.

(** ** Admitting *)

(** An admission adds no lease and releases none. *)
Lemma represents_admitted past s token sources apdu kind : represents past s -> lt_generation token <= cs_last_generation s -> (kind = Terminal -> claimed past token) ->
  represents (EvAdmitted token sources apdu kind :: past) s.
Proof.
  intros [R1 R2 R3 R4 R5 R6 R7 R8 R9] Hg Hk. constructor; try done.
  - intros id l Hl. destruct (R6 id l Hl) as [[L1 L2] Hc]. rewrite live_cons, claimed_cons. split; [split_and!; [by right|done|done]|]. rewrite Hc. split; [by right|]. intros [(? & ? & [= <- _ _ ->])|?]; [by apply Hk|done].
  - intros token' m [[[=]|H] [_ Hn]]%live_cons. by apply R7.
  - intros e [->|He]%elem_of_cons; [done|by apply R8].
Qed.
Lemma represents_claimed past s id l sources apdu : represents past s -> cs_slots s !! id = Some (Some l) ->
  represents (EvAdmitted (token_of id l) sources apdu Terminal :: past)
    {| cs_slots := <[id := Some {| al_generation := al_generation l; al_metadata := al_metadata l; al_terminal_claimed := true |}]> (cs_slots s); cs_last_released := cs_last_released s;
       cs_next_invoke_id := cs_next_invoke_id s; cs_last_generation := cs_last_generation s; cs_active_count := cs_active_count s |}.
Proof.
  intros [R1 R2 R3 R4 R5 R6 R7 R8 R9] Hl. destruct (R6 id l Hl) as [[L1 L2] _]. assert (Hid : (id < length (cs_slots s))%nat) by (by eapply lookup_lt_Some).
  constructor; cbn [cs_slots cs_last_released cs_next_invoke_id cs_last_generation cs_active_count]; try done.
  - by rewrite length_insert.
  - pose proof (occupied_insert (cs_slots s) id (Some l) (Some {| al_generation := al_generation l; al_metadata := al_metadata l; al_terminal_claimed := true |}) Hl) as Ho. cbn in Ho. lia.
  - intros id' l' Hl'. destruct (decide (id' = id)) as [->|Hne].
    + rewrite list_lookup_insert_eq in Hl' by done. injection Hl' as <-. change (token_of id {| al_generation := _ |}) with (token_of id l). cbn [al_metadata al_terminal_claimed]. rewrite live_cons, claimed_cons. split; [split_and!; [by right|done|done]|].
      split; [|done]. intros _. left. by eexists _, _.
    + rewrite list_lookup_insert_ne in Hl' by done. destruct (R6 id' l' Hl') as [[M1 M2] Hc]. rewrite live_cons, claimed_cons. split; [split_and!; [by right|done|done]|]. rewrite Hc. split; [by right|]. intros [(? & ? & [= E _ _ _])|?]; [by destruct Hne|done].
  - intros token m [[[=]|H] [_ Hn]]%live_cons. destruct (R7 token m) as (l' & Hl' & E1 & E2); [done|]. destruct (decide (lt_invoke_id token = id)) as [Eid|Hne].
    + eexists. rewrite Eid, list_lookup_insert_eq by done. split; [done|]. cbn. rewrite Eid, Hl in Hl'. by injection Hl' as <-.
    + exists l'. by rewrite list_lookup_insert_ne.
  - intros e [->|He]%elem_of_cons; [|by apply R8]. by apply (R8 _ L1).
Qed.
Lemma admit_step past s peer sources apdu id : represents past s -> response_invoke_id apdu = Some (Z.of_nat id) -> (id < INVOKE_ID_COUNT)%nat -> peer ∈ sources ->
  exists s' o, admit_locked s peer apdu id = Some (s', o) /\
  match o with
  | Matched a => represents (EvAdmitted (ad_token a) sources apdu (ad_kind a) :: past) s' /\ allowed past (EvAdmitted (ad_token a) sources apdu (ad_kind a)) /\ live_lease past (ad_token a) (ad_metadata a) /\ lm_peer (ad_metadata a) = peer
  | _ => s' = s
  end.
Proof.
  intros R Hid Hlt Hpeer. unfold admit_locked. destruct (lookup_lt_is_Some_2 (cs_slots s) id) as [slot Hslot]; [by rewrite (rp_length _ _ R)|]. rewrite Hslot. cbn [mbind option_bind]. destruct slot as [l|]; [|by exists s, UnknownInvokeId].
  case_bool_decide as Hp; cbn [negb]; [|by exists s, PeerMismatch]. destruct (validate_apdu (al_metadata l) apdu) as [kind|o] eqn:Ev.
  2: { exists s, o. split; [done|]. destruct o; try done. exfalso. clear - Ev. unfold validate_apdu, validate_service in Ev. repeat (case_match; cbn [rbind] in Ev; try done). }
  destruct (rp_active _ _ R id l Hslot) as [Hlive Hclaim]. fold (token_of id l). destruct kind.
  - destruct (al_terminal_claimed l) eqn:Ec; [by exists s, DuplicateTerminal|]. eexists _, _. split; [done|]. cbn [ad_token ad_kind ad_metadata].
    split_and!; [by apply represents_claimed| |done|done]. exists (al_metadata l). split_and!; [done|by rewrite Hp|done|done|]. intros _ Hc. apply Hclaim in Hc. done.
  - eexists _, _. split; [done|]. cbn [ad_token ad_kind ad_metadata]. split_and!; [apply represents_admitted; [done|by apply (rp_issued _ _ R (EvReserved (token_of id l) (al_metadata l))), Hlive|done]| |done|done].
    exists (al_metadata l). split_and!; [done|by rewrite Hp|done|done|done].
Qed.

(** ** Releasing *)

Lemma release_step past s token : represents past s -> (lt_invoke_id token < INVOKE_ID_COUNT)%nat -> exists s' o, release_exact s token = Some (s', o) /\
  match o with
  | Released => represents (EvReleased token :: past) s' /\ allowed past (EvReleased token)
  | AlreadyReleased => s' = s /\ (forall token' m, live_lease past token' m -> lt_invoke_id token' <> lt_invoke_id token) /\ last_release past (lt_invoke_id token) = Some (lt_generation token)
  | StaleToken => s' = s /\ (forall m, ~ live_lease past token m) /\
      ((exists token' m, live_lease past token' m /\ lt_invoke_id token' = lt_invoke_id token) \/ last_release past (lt_invoke_id token) <> Some (lt_generation token))
  end.
Proof.
  intros R Hid. pose proof R as [R1 R2 R3 R4 R5 R6 R7 R8 R9]. unfold release_exact. destruct token as [id g]. cbn [lt_invoke_id lt_generation] in *.
  destruct (lookup_lt_is_Some_2 (cs_slots s) id) as [slot Hslot]; [by rewrite R1|]. destruct (lookup_lt_is_Some_2 (cs_last_released s) id) as [last Hlast]; [by rewrite R2|]. rewrite Hslot, Hlast. cbn [mbind option_bind]. destruct slot as [l|].
  - destruct (R6 id l Hslot) as [Hlive Hclaim]. destruct (al_generation l =? g) eqn:Eg.
    + assert (al_generation l = g) as <- by lia. rewrite decide_False by (rewrite R5; pose proof (occupied_some _ _ _ Hslot); lia). eexists _, _. split; [done|]. split; [|by eexists].
      constructor; cbn [cs_slots cs_last_released cs_next_invoke_id cs_last_generation cs_active_count]; rewrite ?length_insert; try done.
      * pose proof (occupied_insert (cs_slots s) id (Some l) None Hslot) as Ho. cbn in Ho. pose proof (occupied_some _ _ _ Hslot). lia.
      * intros id' l' Hl'. destruct (decide (id' = id)) as [->|Hne]; [rewrite list_lookup_insert_eq in Hl' by lia; done|]. rewrite list_lookup_insert_ne in Hl' by done. destruct (R6 id' l' Hl') as [[M1 M2] Hc].
        rewrite live_cons, claimed_cons. split; [split_and!; [by right|intros [= E _]; congruence|done]|]. rewrite Hc. split; [by right|]. by intros [(? & ? & [=])|?].
      * intros token m [[[=]|H] [Hne Hn]]%live_cons. destruct (R7 token m) as (l' & Hl' & E1 & E2); [done|]. exists l'. rewrite list_lookup_insert_ne; [done|]. intros ->. rewrite Hslot in Hl'. injection Hl' as <-. apply Hne. rewrite E1. by destruct token.
      * intros e [->|He]%elem_of_cons; [|by apply R8]. by apply (R8 _ (proj1 Hlive)).
      * intros id' last'. cbn [last_release lt_invoke_id lt_generation]. case_decide as E; [subst id'; rewrite list_lookup_insert_eq by lia; by intros [= <-]|]. rewrite list_lookup_insert_ne by done. apply R9.
    + eexists _, _. split; [done|]. split_and!; [done| |left; by exists (token_of id l), (al_metadata l)]. intros m (l' & Hl' & E1 & _)%R7. cbn in *. rewrite Hslot in Hl'. injection Hl' as <-. lia.
  - assert (Hfree : forall token' m, live_lease past token' m -> lt_invoke_id token' <> id) by (intros token' m (l & Hl & _)%R7 E; rewrite E in Hl; congruence). pose proof (R9 id last Hlast) as Hlr. eexists _, _. split; [done|]. case_decide as E.
    + split_and!; [done|done|]. congruence.
    + split_and!; [done| |right; congruence]. intros m H. by apply (Hfree _ _ H).
Qed.

(** ** Every run *)

Inductive CoordCall :=
| CallReserve (m : LeaseMetadata)
| CallAdmit (peer : CanonicalPeer) (apdu : Apdu)
| CallAdmitFrom (immediate_mac : bytes) (routed_source : option NpduAddress) (local_network : option Z) (apdu : Apdu)
| CallRelease (token : LeaseToken).
(** Invoke IDs are octets. *)
Definition typed_call (c : CoordCall) : Prop :=
  match c with
  | CallReserve _ => True
  | CallAdmit _ apdu | CallAdmitFrom _ _ _ apdu => match response_invoke_id apdu with Some id => is_u8 id | None => True end
  | CallRelease token => (lt_invoke_id token < INVOKE_ID_COUNT)%nat
  end.
(** The peers an answer may be matched by. *)
Definition source_peers (mac : bytes) (source : option NpduAddress) (network : option Z) : list CanonicalPeer :=
  from_source mac source network :: match routed_alias source network with Some alias => [alias] | None => option_list (direct_alias mac source network) end.
Definition admission_events (sources : list CanonicalPeer) (apdu : Apdu) (r : option (Result AdmissionOutcome CoordinatorError)) : list Event :=
  match r with Some (Ok (Matched a)) => [EvAdmitted (ad_token a) sources apdu (ad_kind a)] | _ => [] end.
Definition coord_step (c : Coordinator) (past : list Event) (call : CoordCall) : Coordinator * list Event :=
  match call with
  | CallReserve m => let '(c, r) := reserve c m in (c, match r with Some (Ok token) => EvReserved token m :: past | _ => past end)
  | CallAdmit peer apdu => let '(c, r) := admit_apdu c peer apdu in (c, admission_events [peer] apdu r ++ past)
  | CallAdmitFrom mac source network apdu => let '(c, r) := admit_from_source c mac source network apdu in (c, admission_events (source_peers mac source network) apdu r ++ past)
  | CallRelease token => let '(c, r) := release_token c token in (c, match r with Some (Ok Released) => EvReleased token :: past | _ => past end)
  end.
Definition coord_run (calls : list CoordCall) : Coordinator * list Event := fold_left (fun '(c, past) call => coord_step c past call) calls (coordinator_new, []).
(** Sound: never poisoned, a lawful history, and slots that represent it. *)
Definition sound (c : Coordinator) past : Prop := co_poisoned c = false /\ lawful past /\ represents past (co_state c).
Lemma with_lock_ok {A E} (c : Coordinator) (e : E) (f : CoordinatorState -> option (CoordinatorState * A)) s a : co_poisoned c = false -> f (co_state c) = Some (s, a) ->
  with_lock c e f = ({| co_state := s; co_poisoned := false; co_wakes := co_wakes c |}, Some (Ok a)).
Proof. intros Hp Hf. unfold with_lock. by rewrite Hp, Hf. Qed.
Lemma admit_sound c past peer sources apdu : sound c past -> typed_call (CallAdmit peer apdu) -> peer ∈ sources -> exists c' o, admit_apdu c peer apdu = (c', Some (Ok o)) /\
  sound c' (admission_events sources apdu (Some (Ok o)) ++ past) /\ co_wakes c' = co_wakes c /\ (forall a, o = Matched a -> live_lease past (ad_token a) (ad_metadata a) /\ lm_peer (ad_metadata a) = peer).
Proof.
  intros (Hp & Hl & R) Ht Hpeer. unfold admit_apdu. cbn [typed_call] in Ht. destruct (response_invoke_id apdu) as [id|] eqn:Eid; [|exists c, NotOutbound; by split_and!].
  assert (Hu : 0 <= id <= 255) by (exact Ht). destruct (admit_step past (co_state c) peer sources apdu (Z.to_nat id) R ltac:(rewrite Eid; f_equal; lia) ltac:(unfold INVOKE_ID_COUNT; lia) Hpeer) as (s' & o & E & Ho).
  rewrite (with_lock_ok c StatePoisoned _ s' o Hp E). eexists _, o. split; [done|]. destruct o; cbn [admission_events app]; try (subst s'; by split_and!). destruct Ho as (Ho & Ha & Hlive & Hpr). split_and!; [by split_and!|done|]. intros a' [= <-]. done.
Qed.
Lemma mismatch_changes_nothing c peer apdu c' : admit_apdu c peer apdu = (c', Some (Ok PeerMismatch)) -> co_poisoned c = false -> c' = c.
Proof.
  unfold admit_apdu. destruct (response_invoke_id apdu) as [id|]; [|done]. unfold with_lock. intros E Hp. rewrite Hp in E. unfold admit_locked in E. destruct (cs_slots (co_state c) !! Z.to_nat id) as [[l|]|]; cbn [mbind option_bind] in E; [|done..].
  destruct c as [st p w]. cbn in *. subst p. destruct (negb (bool_decide _)); [by injection E as <-|]. destruct (validate_apdu _ _) as [[]|o]; [|done|by injection E as <- _]. destruct (al_terminal_claimed l); by injection E.
Qed.
Lemma admit_from_sound c past mac source network apdu : sound c past -> typed_call (CallAdmitFrom mac source network apdu) -> exists c' o, admit_from_source c mac source network apdu = (c', Some (Ok o)) /\
  sound c' (admission_events (source_peers mac source network) apdu (Some (Ok o)) ++ past) /\ co_wakes c' = co_wakes c.
Proof.
  intros Hs Ht. unfold admit_from_source. set (sources := source_peers mac source network).
  destruct (admit_sound c past (from_source mac source network) sources apdu Hs Ht) as (c' & o & E & Hs' & Hw & _); [apply elem_of_cons; by left|]. rewrite E. destruct o; try (eexists _, _; by split_and!).
  assert (c' = c) as -> by (eapply mismatch_changes_nothing; [done|apply Hs]). destruct (match routed_alias source network with Some alias => Some alias | None => direct_alias mac source network end) as [alias|] eqn:Ea; [|eexists _, _; by split_and!].
  destruct (admit_sound c past alias sources apdu Hs Ht) as (c2 & o2 & E2 & Hs2 & Hw2 & _); [|eexists _, _; by split_and!].
  unfold sources, source_peers. apply elem_of_cons. right. destruct (routed_alias source network); [injection Ea as ->; by apply list_elem_of_singleton|]. rewrite Ea. by apply list_elem_of_singleton.
Qed.
Lemma step_sound c past call : sound c past -> typed_call call -> let '(c', past') := coord_step c past call in sound c' past'.
Proof.
  intros Hs Ht. pose proof Hs as (Hp & Hl & R). destruct call as [m|peer apdu|mac source network apdu|token]; cbn [coord_step].
  - destruct (reserve_step past (co_state c) m R) as (s' & r & E & Hr). unfold reserve. rewrite (with_lock_ok c ReserveStatePoisoned _ s' r Hp E). destruct r as [token|[]]; [by destruct Hr as (Hr & Ha & _)|by destruct Hr as (-> & _)..|done].
  - destruct (admit_sound c past peer [peer] apdu Hs Ht) as (c' & o & E & Hs' & _); [by apply list_elem_of_singleton|]. by rewrite E.
  - destruct (admit_from_sound c past mac source network apdu Hs Ht) as (c' & o & E & Hs' & _). by rewrite E.
  - destruct (release_step past (co_state c) token R Ht) as (s' & o & E & Ho). unfold release_token. rewrite (with_lock_ok c StatePoisoned _ s' o Hp E). destruct o; [by destruct Ho as [Ho Ha]|by destruct Ho as (-> & _)..].
Qed.
Lemma run_sound calls : Forall typed_call calls -> sound (coord_run calls).1 (coord_run calls).2.
Proof.
  intros Ht. unfold coord_run. assert (H0 : sound coordinator_new []) by (split_and!; [done|done|apply represents_new]). revert H0. generalize coordinator_new, (@nil Event). induction Ht as [|call calls Hc _ IH]; intros c past Hs; cbn [fold_left fst snd]; [done|].
  pose proof (step_sound c past call Hs Hc) as H. destruct (coord_step c past call) as [c' past']. by apply IH.
Qed.
Lemma held_count {A} slots : forall f : nat -> ActiveLease -> A, length (omap id (imap (fun id o => f id <$> o) slots)) = occupied slots.
Proof. induction slots as [|o slots IH]; intros f; [done|]. rewrite occupied_cons. destruct o; cbn -[occupied]; [f_equal|]; exact (IH (fun i => f (S i))). Qed.
Lemma live_count past s : represents past s -> forall tokens, NoDup tokens -> (forall token, token ∈ tokens <-> exists m, live_lease past token m) -> length tokens = occupied (cs_slots s).
Proof.
  intros R tokens Hnd Hin. set (held := imap (fun id o => (fun l => token_of id l) <$> o) (cs_slots s)).
  assert (Hheld : omap id held ≡ₚ tokens).
  { apply NoDup_Permutation; [|done|].
    - unfold held. clear. generalize (cs_slots s). intros slots. change (imap (fun id o => (fun l => token_of id l) <$> o) slots) with (imap (fun i o => (fun l => token_of (0 + i) l) <$> o) slots). generalize 0%nat as k.
      induction slots as [|o slots IH]; intros k; cbn; [constructor|]. replace (imap _ slots) with (imap (fun i o => (fun l => token_of (S k + i) l) <$> o) slots); [|apply imap_ext; intros i x _; cbn; by rewrite <-plus_n_Sm].
      destruct o as [l|]; cbn; [|exact (IH (S k))]. constructor; [|exact (IH (S k))]. intros (o & Ho & E)%list_elem_of_omap. cbn in E. subst o. apply elem_of_lookup_imap_1 in Ho as (i & x & E & _). destruct x; [|done]. injection E as E _. lia.
    - intros token. rewrite Hin, list_elem_of_omap. split.
      + intros (o & Ho & E). cbn in E. subst o. apply elem_of_lookup_imap_1 in Ho as (i & [l|] & E & Hi); [|done]. injection E as ->. exists (al_metadata l). by apply R.
      + intros (m & (l & Hl & E & _)%(rp_live _ _ R)). exists (Some token). split; [|done]. apply (elem_of_lookup_imap_2 (fun id o => (fun l => token_of id l) <$> o)) in Hl. unfold held. cbn in Hl. unfold token_of in Hl at 1. rewrite E in Hl. by destruct token. }
  rewrite <-Hheld. apply held_count.
Qed.

(** ** What holds on every run *)

(** C15: Over every sequence of reservations, answers and releases, from any task and with any tokens, no call panics under the lock (so the mutex is never poisoned), and what the coordinator answers is lawful: each lease has a generation never given before and an invoke ID no other lease holds; an answer is admitted only to a lease that is held, from its own peer, under its own invoke ID and in a form it asked for; and the count of active leases is the number of leases given and not released. *)
Theorem coordinator_lawful calls : Forall typed_call calls -> let '(c, past) := coord_run calls in
  co_poisoned c = false /\ lawful past /\
  forall tokens, NoDup tokens -> (forall token, token ∈ tokens <-> exists m, live_lease past token m) -> active_count c = Ok (length tokens).
Proof.
  intros Ht. pose proof (run_sound calls Ht) as (Hp & Hl & R). destruct (coord_run calls) as [c past]. cbn [fst snd] in *. split_and!; [done|done|]. intros tokens Hnd Hin. unfold active_count. rewrite Hp, (rp_count _ _ R). by rewrite (live_count past (co_state c) R tokens Hnd Hin).
Qed.

(** The leases that took their terminal answer, those released and those given, in a history. *)
Definition terminals past : list LeaseToken := omap (fun e => match e with EvAdmitted token _ _ Terminal => Some token | _ => None end) past.
Definition releases past : list LeaseToken := omap (fun e => match e with EvReleased token => Some token | _ => None end) past.
Definition grants past : list LeaseToken := omap (fun e => match e with EvReserved token _ => Some token | _ => None end) past.
Lemma terminals_in past token : token ∈ terminals past <-> claimed past token.
Proof.
  unfold terminals, claimed. rewrite list_elem_of_omap. split.
  - intros (e & He & Ee). destruct e as [| tok sources apdu []|]; try done. injection Ee as ->. by eexists _, _.
  - intros (sources & apdu & H). by eexists.
Qed.
Lemma releases_in past token : token ∈ releases past <-> EvReleased token ∈ past.
Proof. unfold releases. rewrite list_elem_of_omap. split; [intros (e & He & Ee); destruct e; try done; by injection Ee as ->|intros H; by eexists]. Qed.
Lemma grants_in past token : token ∈ grants past <-> exists m, EvReserved token m ∈ past.
Proof. unfold grants. rewrite list_elem_of_omap. split; [intros (e & He & Ee); destruct e; try done; injection Ee as ->; by eexists|intros [m H]; by eexists]. Qed.
Lemma lawful_once past : lawful past -> NoDup (grants past) /\ NoDup (terminals past) /\ NoDup (releases past).
Proof.
  induction past as [|e past IH]; [intros _; split_and!; constructor|]. cbn [lawful]. intros [Hl Ha]. destruct (IH Hl) as (H1 & H2 & H3). destruct e as [token m|token sources apdu kind|token]; cbn.
  - split_and!; [|done|done]. constructor; [|done]. intros (m' & H)%grants_in. destruct Ha as (_ & Hg & _). specialize (Hg token m' H). lia.
  - destruct kind; [|done]. split_and!; [done| |done]. constructor; [|done]. rewrite terminals_in. destruct Ha as (m & _ & _ & _ & _ & Ha). by apply Ha.
  - split_and!; [done|done|]. constructor; [|done]. rewrite releases_in. by destruct Ha as (m & _ & Ha).
Qed.
(** C16: Over every run no token is given twice, no lease takes more than one terminal answer however many arrive, and no lease is released twice. *)
Theorem terminal_once calls : Forall typed_call calls -> NoDup (grants (coord_run calls).2) /\ NoDup (terminals (coord_run calls).2) /\ NoDup (releases (coord_run calls).2).
Proof. intros Ht. apply lawful_once. apply (run_sound calls Ht). Qed.

(** After every run, [reserve] gives the first invoke ID that no lease holds, counting round from the one after the last given, with the next generation; it refuses exactly when all 256 are held, or the generations are used up. *)
Theorem reserve_exact calls m : Forall typed_call calls -> let '(c, past) := coord_run calls in
  match (reserve c m).2 with
  | Some (Ok token) => allowed past (EvReserved token m) /\ lt_generation token = cs_last_generation (co_state c) + 1 /\
      exists before after, rotation (cs_next_invoke_id (co_state c)) = before ++ lt_invoke_id token :: after /\ forall id, id ∈ before -> exists held m', live_lease past held m' /\ lt_invoke_id held = id
  | Some (Err Exhausted) => forall id, (id < INVOKE_ID_COUNT)%nat -> exists held m', live_lease past held m' /\ lt_invoke_id held = id
  | Some (Err GenerationExhausted) => cs_last_generation (co_state c) = U64_MAX
  | _ => False
  end.
Proof.
  intros Ht. pose proof (run_sound calls Ht) as (Hp & _ & R). destruct (coord_run calls) as [c past]. cbn [fst snd] in *. destruct (reserve_step past (co_state c) m R) as (s' & r & E & Hr). unfold reserve. rewrite (with_lock_ok c ReserveStatePoisoned _ s' r Hp E). cbn [snd].
  assert (Hheld : forall id, (exists l, cs_slots (co_state c) !! id = Some (Some l)) -> exists held m', live_lease past held m' /\ lt_invoke_id held = id) by (intros id (l & Hl); exists (token_of id l), (al_metadata l); split; [by apply R|done]).
  destruct r as [token|[]]; [|destruct Hr as [_ Hr]; intros id Hid; by apply Hheld, Hr|by destruct Hr|done]. destruct Hr as (_ & Ha & Hg & before & after & Erot & Hb). split_and!; [done|done|]. exists before, after. split; [done|]. intros id Hid. by apply Hheld, Hb.
Qed.

(** C29: After every run, [release_token] answers Released exactly for a lease that is held, and wakes the waiters then; AlreadyReleased exactly when the ID is free and this lease was the last released under it; and StaleToken otherwise. A token that is not a held lease's changes nothing. *)
Theorem release_outcome_exact calls token : Forall typed_call calls -> (lt_invoke_id token < INVOKE_ID_COUNT)%nat -> let '(c, past) := coord_run calls in let '(c', r) := release_token c token in
  exists o, r = Some (Ok o) /\ (o = Released <-> exists m, live_lease past token m) /\
    (o = AlreadyReleased <-> (forall held m, live_lease past held m -> lt_invoke_id held <> lt_invoke_id token) /\ last_release past (lt_invoke_id token) = Some (lt_generation token)) /\
    co_wakes c' = (co_wakes c + (match o with Released => 1 | _ => 0 end))%nat /\ (o <> Released -> co_state c' = co_state c).
Proof.
  intros Ht Hid. pose proof (run_sound calls Ht) as (Hp & _ & R). destruct (coord_run calls) as [c past]. cbn [fst snd] in *. destruct (release_step past (co_state c) token R Hid) as (s' & o & E & Ho). unfold release_token. rewrite (with_lock_ok c StatePoisoned _ s' o Hp E).
  destruct o; [exists Released|exists AlreadyReleased|exists StaleToken]; cbn [co_wakes co_state]; (split_and!; [done|..|lia|try done; by intros _; destruct Ho as [-> _]]).
  - destruct Ho as [_ (m & Hm)]. split; [intros _; by exists m|done].
  - destruct Ho as [_ (m & Hm)]. split; [done|]. intros [Hn _]. by destruct (Hn token m Hm).
  - destruct Ho as (_ & Hn & _). split; [done|]. intros (m & Hm). by destruct (Hn token m Hm).
  - destruct Ho as (_ & Hn & Hl). done.
  - destruct Ho as (_ & Hn & _). split; [done|]. intros (m & Hm). by destruct (Hn m).
  - destruct Ho as (_ & _ & Hc). split; [done|]. intros [Hn Hl]. destruct Hc as [(held & m & Hm & Eid)|Hne]; [by destruct (Hn held m Hm)|done].
Qed.

(** ** The ingress *)

Definition waiting (q : IngressQueues) : list Received := ch_items (iq_inbound q) ++ ch_items (iq_terminal q) ++ (po_received <$> ch_items (iq_policy q)).
Definition handed (exit : option ClassifierExit) : list Received := match exit with Some (PolicyRouteFull o) | Some (PolicyRouteClosed o) => [po_received o] | _ => [] end.
Lemma try_send_keeps {A} (ch : Channel A) a : let '(ch', r) := try_send ch a in
  match r with Ok _ => ch_items ch' = ch_items ch ++ [a] /\ (length (ch_items ch') <= ch_capacity ch)%nat | Err (TryFull b) => ch' = ch /\ b = a | Err (TryClosed b) => ch' = ch /\ b = a end.
Proof. unfold try_send. destruct (ch_closed ch); [done|]. case_decide; [|done]. cbn. rewrite length_app. cbn. split; [done|lia]. Qed.
Lemma send_policy_keeps q o : let '(q', exit) := send_policy q o in waiting q' ++ handed exit ≡ₚ po_received o :: waiting q.
Proof.
  unfold send_policy. pose proof (try_send_keeps (iq_policy q) o) as H. destruct (try_send (iq_policy q) o) as [ch [[]|[b|b]]]; unfold waiting, handed; cbn [iq_inbound iq_terminal iq_policy].
  - destruct H as [-> _]. rewrite fmap_app, app_nil_r, !app_assoc. cbn. symmetry. apply Permutation_cons_append.
  - destruct H as [-> ->]. symmetry. apply Permutation_cons_append.
  - destruct H as [-> ->]. symmetry. apply Permutation_cons_append.
Qed.
(** Whatever is received, and however full or closed the queues are, the APDU ends in exactly one place, whole: a role's queue, the policy queue, or the hands of the session that ends; nothing that already waits is lost or moved to another queue. *)
Theorem received_once is_group q r : let '(q', exit) := route_received is_group q r in waiting q' ++ handed exit ≡ₚ r :: waiting q.
Proof.
  unfold route_received. destruct (classify is_group r) as [route|reason]; [|apply (send_policy_keeps q {| po_reason := reason; po_received := r |})]. destruct route.
  - pose proof (try_send_keeps (iq_inbound q) r) as H. destruct (try_send (iq_inbound q) r) as [ch [[]|[b|b]]].
    + destruct H as [H _]. unfold waiting, handed. cbn [iq_inbound iq_terminal iq_policy]. rewrite H, app_nil_r, <-app_assoc. cbn. symmetry. apply Permutation_middle.
    + destruct H as [-> ->]. destruct q. apply send_policy_keeps.
    + destruct H as [-> ->]. destruct q. apply send_policy_keeps.
  - pose proof (try_send_keeps (iq_terminal q) r) as H. destruct (try_send (iq_terminal q) r) as [ch [[]|[b|b]]].
    + destruct H as [H _]. unfold waiting, handed. cbn [iq_inbound iq_terminal iq_policy]. rewrite H, app_nil_r, <-app_assoc, app_assoc. cbn. rewrite <-Permutation_middle. by rewrite <-app_assoc.
    + destruct H as [-> ->]. destruct q. apply send_policy_keeps.
    + destruct H as [-> ->]. destruct q. apply send_policy_keeps.
Qed.

(** ** A request and its answer *)

Module SampleCalls.
Definition peer : CanonicalPeer := PeerDirect [10].
Definition ack : Apdu := ApduSimpleAck {| sa_invoke_id := 0; sa_service_choice := 15 |}.
(** A write is asked, answered twice, and its lease released. *)
Definition calls : list CoordCall :=
  [CallReserve (requester peer 15 TakeSimpleAck); CallAdmit peer ack; CallAdmit peer ack; CallRelease {| lt_invoke_id := 0; lt_generation := 1 |}].
Lemma typed : Forall typed_call calls.
Proof. repeat constructor; cbn; unfold is_u8, U8_MAX, INVOKE_ID_COUNT; lia. Qed.
End SampleCalls.
Lemma coordinator_lawful_witness : terminals (coord_run SampleCalls.calls).2 = [{| lt_invoke_id := 0; lt_generation := 1 |}] /\ co_poisoned (coord_run SampleCalls.calls).1 = false /\ lawful (coord_run SampleCalls.calls).2.
Proof.
  split; [vm_compute; reflexivity|]. pose proof (coordinator_lawful SampleCalls.calls SampleCalls.typed) as H. destruct (coord_run SampleCalls.calls) as [c past]. destruct H as (H1 & H2 & _). split; [exact H1|exact H2].
Defined.
Lemma terminal_once_witness : NoDup (terminals (coord_run SampleCalls.calls).2).
Proof. destruct (terminal_once SampleCalls.calls SampleCalls.typed) as (_ & H & _). exact H. Defined.
Lemma reserve_exact_witness : exists token, (reserve (coord_run SampleCalls.calls).1 (notification SampleCalls.peer 1)).2 = Some (Ok token) /\ allowed (coord_run SampleCalls.calls).2 (EvReserved token (notification SampleCalls.peer 1)).
Proof.
  pose proof (reserve_exact SampleCalls.calls (notification SampleCalls.peer 1) SampleCalls.typed) as H.
  assert (E : (reserve (coord_run SampleCalls.calls).1 (notification SampleCalls.peer 1)).2 = Some (Ok {| lt_invoke_id := 1; lt_generation := 2 |})) by (vm_compute; reflexivity).
  exists {| lt_invoke_id := 1; lt_generation := 2 |}. split; [exact E|]. destruct (coord_run SampleCalls.calls) as [c past]. cbn [fst snd] in *. rewrite E in H. apply H.
Defined.
Lemma release_outcome_exact_witness : exists o, (release_token (coord_run SampleCalls.calls).1 {| lt_invoke_id := 0; lt_generation := 1 |}).2 = Some (Ok o) /\ o <> Released.
Proof.
  pose proof (release_outcome_exact SampleCalls.calls {| lt_invoke_id := 0; lt_generation := 1 |} SampleCalls.typed ltac:(cbn; unfold INVOKE_ID_COUNT; lia)) as H.
  assert (E : (release_token (coord_run SampleCalls.calls).1 {| lt_invoke_id := 0; lt_generation := 1 |}).2 = Some (Ok AlreadyReleased)) by (vm_compute; reflexivity).
  destruct (coord_run SampleCalls.calls) as [c past]. cbn [fst] in *. destruct (release_token c {| lt_invoke_id := 0; lt_generation := 1 |}) as [c' r]. cbn [snd] in *. destruct H as (o & Eo & _). exists o. split; [exact Eo|]. intros ->. congruence.
Defined.
