(* ===== verification/Services.v ===== *)
(** * Finding devices and reading properties (bacnet-services who_is.rs, read_property.rs; bacnet-device-core discovery.rs)

    The Who-Is and I-Am services, the device's answer to a Who-Is, and the ReadProperty request. Each is written member by member into a
    buffer on the stack and handed to the sink at once; [None] is the panic of the [expect] there. *)

From Stdlib Require Import String.
From S2P Require Import Prelude Sink WireError Tags Values ValuesTheorems Utf8 Primitives PrimitivesTheorems Tagged TaggedTheorems Staging Timestamp References.
Open Scope Z_scope.

(** ** Staged writes *)

(** [encode(a)? + encode(b)?] *)
Definition plus_then {S} (r : option (S * Result nat SinkFull)) (k : S -> option (S * Result nat SinkFull)) : option (S * Result nat SinkFull) :=
  match r with
  | Some (s, Ok a) => match k s with Some (s, Ok b) => Some (s, Ok (a + b)%nat) | other => other end
  | other => other
  end.
(** [staged] (bacnet-services/src/who_is.rs) *)
Definition staged_write {S} `{FrameSink S} (n : nat) (sink : S) (encode : SliceSink -> option (SliceSink * Result nat SinkFull)) : option (S * Result nat SinkFull) :=
  match encode {| slice_buf := replicate n 0; slice_pos := 0 |} with
  | Some (tail, Ok written) =>
      Some (match sink_write sink (take written (slice_buf tail)) with (sink, Ok _) => (sink, Ok written) | (sink, Err e) => (sink, Err e) end)
  | _ => None
  end.

(** ** Who-Is *)

(** [DeviceInstanceRange] (bacnet-services/src/who_is.rs) *)
Record DeviceInstanceRange := { dr_low : Z; dr_high : Z }.
(** [DeviceInstanceRange::decoded] (bacnet-services/src/who_is.rs) *)
Definition range_decoded (low high : Z) : Result DeviceInstanceRange Error :=
  if high <? low then Err (ErrRange {| ra_label := "device instance range low limit {} is above its high limit {}, so it would match no device"; ra_values := (low, high) |})
  else Ok {| dr_low := low; dr_high := high |}.
(** [DeviceInstanceRange::new] (bacnet-services/src/who_is.rs) *)
Definition range_new (low high : Z) : Result DeviceInstanceRange Error :=
  let? range := range_decoded low high in
  if MAX_INSTANCE <? high then Err (ErrRange {| ra_label := "device instance range high limit {} is above the highest instance, 4194303"; ra_values := (high, 0) |})
  else Ok range.
(** [DeviceInstanceRange::single] (bacnet-services/src/who_is.rs) *)
Definition range_single (instance_ : Z) : Result DeviceInstanceRange Error := range_new instance_ instance_.
(** [DeviceInstanceRange::device] (bacnet-services/src/who_is.rs) *)
Definition range_device (device : ObjectIdentifier) : DeviceInstanceRange := {| dr_low := instance_number device; dr_high := instance_number device |}.
(** [DeviceInstanceRange::from_limits] (bacnet-services/src/who_is.rs) *)
Definition range_from_limits (low high : option Z) : Result (option DeviceInstanceRange) Error :=
  match low, high with
  | None, None => Ok None
  | Some low, Some high => let? range := range_new low high in Ok (Some range)
  | Some low, None => Err (ErrRange {| ra_label := "a device instance range needs both limits or neither: low limit {} was given without a high limit"; ra_values := (low, 0) |})
  | None, Some high => Err (ErrRange {| ra_label := "a device instance range needs both limits or neither: high limit {} was given without a low limit"; ra_values := (high, 0) |})
  end.
(** [DeviceInstanceRange::contains] (bacnet-services/src/who_is.rs) *)
Definition range_has (r : DeviceInstanceRange) (instance_ : Z) : bool := (dr_low r <=? instance_) && (instance_ <=? dr_high r).
(** [LimitLabels] (bacnet-services/src/who_is.rs) *)
Record LimitLabels := { ll_low : string; ll_high : string; ll_inverted : string; ll_low_alone : string; ll_high_alone : string }.
(** [WHO_IS] (bacnet-services/src/who_is.rs) *)
Definition WHO_IS : LimitLabels :=
  {| ll_low := "WhoIs low limit"; ll_high := "WhoIs high limit"; ll_inverted := "WhoIs low limit exceeds high limit"; ll_low_alone := "WhoIs low limit needs the high limit [1] with it";
     ll_high_alone := "WhoIs high limit needs the low limit [0] before it" |}.
(** [WireLimits] (bacnet-services/src/who_is.rs) *)
Record WireLimits := { wl_low : option Z; wl_high : option Z; wl_after_low : nat; wl_end : nat; wl_labels : LimitLabels }.
(** [WireLimits::decode] (bacnet-services/src/who_is.rs) *)
Definition limits_decode (data : bytes) (labels : LimitLabels) : Result WireLimits Error :=
  let? (low, after_low) := decode_optional_ctx data 0 0 (ll_low labels) (decode_ctx_unsigned width_u32) in
  let? (high, end_) := decode_optional_ctx data after_low 1 (ll_high labels) (decode_ctx_unsigned width_u32) in
  Ok {| wl_low := low; wl_high := high; wl_after_low := after_low; wl_end := end_; wl_labels := labels |}.
(** [WireLimits::range] (bacnet-services/src/who_is.rs) *)
Definition limits_range (l : WireLimits) : Result (option DeviceInstanceRange) Error :=
  match wl_low l, wl_high l with
  | None, None => Ok None
  | Some low, Some high => match range_decoded low high with Ok range => Ok (Some range) | Err _ => Err (ErrDecoding (decode_error OutOfRange 0 (ll_inverted (wl_labels l)))) end
  | Some _, None => Err (ErrDecoding (decode_error Missing (wl_after_low l) (ll_low_alone (wl_labels l))))
  | None, Some _ => Err (ErrDecoding (decode_error Missing 0 (ll_high_alone (wl_labels l))))
  end.
(** [WhoIsRequest] (bacnet-services/src/who_is.rs) *)
Record WhoIsRequest := { wi_range : option DeviceInstanceRange }.
(** [IAmRequest] (bacnet-services/src/who_is.rs) *)
Record IAmRequest := { ia_object_identifier : ObjectIdentifier; ia_max_apdu_length : Z; ia_segmentation_supported : Z; ia_vendor_id : Z }.
(** [ReadPropertyRequest] (bacnet-services/src/read_property.rs) *)
Record ReadPropertyRequest := { rp_object : ObjectIdentifier; rp_property : Z; rp_index : option Z }.
Section sinks.
Context {S : Type} `{FrameSink S}.
(** [DeviceInstanceRange::encode_to_sink] (bacnet-services/src/who_is.rs) *)
Definition range_encode_to_sink (r : DeviceInstanceRange) (sink : S) : option (S * Result nat SinkFull) :=
  staged_write 10 sink (fun tail => plus_then (encode_ctx_unsigned_to_sink tail 0 (dr_low r)) (fun tail => encode_ctx_unsigned_to_sink tail 1 (dr_high r))).
(** [WhoIsRequest::encode_to_sink] (bacnet-services/src/who_is.rs) *)
Definition who_is_encode_to_sink (r : WhoIsRequest) (sink : S) : option (S * Result nat SinkFull) :=
  match wi_range r with Some range => range_encode_to_sink range sink | None => Some (sink, Ok 0%nat) end.
(** [IAmRequest::encode_to_sink] (bacnet-services/src/who_is.rs) *)
Definition i_am_encode_to_sink (r : IAmRequest) (sink : S) : option (S * Result nat SinkFull) :=
  staged_write 15 sink (fun tail =>
    plus_then (plus_then (plus_then (encode_app_object_id_to_sink tail (ia_object_identifier r)) (fun tail => encode_app_unsigned_to_sink tail (ia_max_apdu_length r)))
                (fun tail => encode_app_enumerated_to_sink tail (ia_segmentation_supported r)))
      (fun tail => encode_app_unsigned_to_sink tail (ia_vendor_id r))).
End sinks.
(** [encode_reference] (bacnet-services/src/read_property.rs) *)
Definition encode_reference (tail : SliceSink) (object : ObjectIdentifier) (property : Z) (index : option Z) (opening : bool) : option (SliceSink * Result nat SinkFull) :=
  plus_then (plus_then (plus_then (encode_ctx_object_id_to_sink tail 0 object) (fun tail => encode_ctx_unsigned_to_sink tail 1 property))
              (fun tail => match index with Some index => encode_ctx_unsigned_to_sink tail 2 index | None => Some (tail, Ok 0%nat) end))
    (fun tail => if opening then Some (encode_opening_tag_to_sink tail 3) else Some (tail, Ok 0%nat)).
(** [ReadPropertyRequest::encode_to_sink] (bacnet-services/src/read_property.rs) *)
Definition read_property_encode_to_sink {S} `{FrameSink S} (r : ReadPropertyRequest) (sink : S) : option (S * Result nat SinkFull) :=
  staged_write 15 sink (fun tail => encode_reference tail (rp_object r) (rp_property r) (rp_index r) false).
(** [WhoIsRequest::encode] (bacnet-services/src/who_is.rs) *)
Definition who_is_encode (r : WhoIsRequest) (buf : bytes) : option bytes := expect_buf (who_is_encode_to_sink r buf).
(** [IAmRequest::encode] (bacnet-services/src/who_is.rs) *)
Definition i_am_encode (r : IAmRequest) (buf : bytes) : option bytes := expect_buf (i_am_encode_to_sink r buf).
(** [ReadPropertyRequest::encode] (bacnet-services/src/read_property.rs) *)
Definition read_property_encode (r : ReadPropertyRequest) (buf : bytes) : option bytes := expect_buf (read_property_encode_to_sink r buf).
(** [WhoIsRequest::decode] (bacnet-services/src/who_is.rs) *)
Definition who_is_decode (data : bytes) : Result WhoIsRequest Error :=
  let? limits := limits_decode data WHO_IS in
  let? _ := expect_end data (wl_end limits) (wl_end limits) "WhoIs" in
  let? range := limits_range limits in
  Ok {| wi_range := range |}.
(** [IAmRequest::decode] (bacnet-services/src/who_is.rs) *)
Definition i_am_decode (data : bytes) : Result IAmRequest Error :=
  let? (object_identifier, offset) := decode_app_object_id data 0 "IAm object identifier" in
  let? (max_apdu_length, offset) := decode_app_unsigned width_u32 data offset "IAm max APDU length" in
  let? (segmentation, offset) := decode_app_enumerated width_u8 data offset "IAm segmentation" in
  let? (vendor_id, end_) := decode_app_unsigned width_u16 data offset "IAm vendor ID" in
  let? _ := expect_end data end_ end_ "IAm" in
  Ok {| ia_object_identifier := object_identifier; ia_max_apdu_length := max_apdu_length; ia_segmentation_supported := segmentation; ia_vendor_id := vendor_id |}.
(** [ReadPropertyRequest::decode] (bacnet-services/src/read_property.rs) *)
Definition read_property_decode (data : bytes) : Result ReadPropertyRequest Error :=
  let? (object, offset) := decode_ctx_object_id data 0 0 "ReadProperty request object-id" in
  let? (property, offset) := decode_ctx_unsigned width_u32 data offset 1 "ReadProperty request property-id" in
  let? index :=
    if decide (offset = length data) then Ok None else
    let? (index, end_) := decode_optional_ctx data offset 2 "ReadProperty request array-index" (decode_ctx_unsigned width_u32) in
    let? _ := expect_end data end_ end_ "ReadProperty request" in
    Ok index in
  Ok {| rp_object := object; rp_property := property; rp_index := index |}.

(** ** The device's answer *)

(** What a device announces of itself.
    [DeviceIdentity] (bacnet-objects/src/device_identity/mod.rs:35-39) *)
Record DeviceIdentity := { di_instance : Z; di_vendor_id : Z; di_max_apdu_length : Z; di_segmentation : Z }.
(** [DeviceIdentity::device_oid] (bacnet-objects/src/device_identity/mod.rs) *)
Definition device_oid (i : DeviceIdentity) : ObjectIdentifier := {| object_type := 8; instance_number := di_instance i |}.
(** [i_am] (bacnet-device-core/src/discovery.rs) *)
Definition i_am (i : DeviceIdentity) : IAmRequest :=
  {| ia_object_identifier := device_oid i; ia_max_apdu_length := di_max_apdu_length i; ia_segmentation_supported := di_segmentation i; ia_vendor_id := di_vendor_id i |}.
Section Answer.
(** The object database, by what [get] finds under an identifier: the object's own identifier. *)
Context (db : ObjectIdentifier -> option ObjectIdentifier).
(** [announcement_device] (bacnet-device-core/src/discovery.rs) *)
Definition announcement_device (i : DeviceIdentity) : option ObjectIdentifier :=
  let oid := device_oid i in
  match db oid with
  | Some own => if (object_type own =? object_type oid) && (instance_number own =? instance_number oid) then Some oid else None
  | None => None
  end.
(** [who_is] (bacnet-device-core/src/discovery.rs) *)
Definition who_is (i : DeviceIdentity) (request : bytes) : Result (option IAmRequest) Error :=
  let? request := who_is_decode request in
  match announcement_device i with
  | None => Ok None
  | Some device =>
      let in_range := match wi_range request with None => true | Some range => range_has range (instance_number device) end in
      Ok (if in_range : bool then Some (i_am i) else None)
  end.
End Answer.

(** ** What is written *)

(** [stages] with the count the encoder returns. *)
Definition stages_count (f : SliceSink -> option (SliceSink * Result nat SinkFull)) (l : bytes) : Prop :=
  forall s n l0, holds s n l0 -> (length l0 + length l <= n)%nat -> exists s', f s = Some (s', Ok (length l)) /\ holds s' n (l0 ++ l).
Lemma stages_plus f g l1 l2 : stages_count f l1 -> stages_count g l2 -> stages_count (fun s => plus_then (f s) g) (l1 ++ l2).
Proof.
  intros Hf Hg s n l0 Hs Hn. rewrite length_app in Hn. destruct (Hf s n l0 Hs ltac:(lia)) as (s1 & -> & H1). cbn [plus_then].
  destruct (Hg s1 n _ H1) as (s2 & -> & H2); [rewrite length_app; lia|]. exists s2. rewrite <-app_assoc in H2. by rewrite length_app.
Qed.
Lemma stages_none : stages_count (fun s => Some (s, Ok 0%nat)) [].
Proof. intros s n l0 Hs _. exists s. by rewrite app_nil_r. Qed.
Lemma stages_count_tagged tag class len l : len <= 253 -> (length l <= 8)%nat -> stages_count (fun s => write_tagged s tag class len l) (tag_header tag class len ++ l).
Proof.
  intros Hl Hc s n l0 Hs Hn. eexists. split; [apply slice_tagged_fits; [done|done|]; rewrite (holds_room _ _ _ Hs); lia|]. by apply holds_staged.
Qed.
Lemma count_ctx_unsigned tag v : stages_count (fun s => encode_ctx_unsigned_to_sink s tag v) (unsigned_member tag v).
Proof. unfold unsigned_member. rewrite <-ctx_unsigned_octets. pose proof (unsigned_len_range v). apply stages_count_tagged; [lia|rewrite unsigned_octets_length; lia]. Qed.
Lemma count_ctx_object_id tag o : stages_count (fun s => encode_ctx_object_id_to_sink s tag o) (oid_member tag o).
Proof. apply (stages_count_tagged tag ContextTag 4 (oid_encode o)); [lia|cbn; lia]. Qed.
(** An application-tagged unsigned, enumerated and object identifier. *)
Definition app_unsigned (v : Z) : bytes := tagged TAG_UNSIGNED (unsigned_octets v).
Definition app_enumerated (v : Z) : bytes := tagged TAG_ENUMERATED (unsigned_octets v).
Definition app_object_id (o : ObjectIdentifier) : bytes := tagged TAG_OBJECT_IDENTIFIER (oid_encode o).
Lemma tagged_octets_len number v : tag_header number ApplicationTag (unsigned_len v) ++ unsigned_octets v = tagged number (unsigned_octets v).
Proof. unfold tagged. rewrite unsigned_octets_length, Z2Nat.id; [done|]. pose proof (unsigned_len_range v). lia. Qed.
Lemma count_app_unsigned v : stages_count (fun s => encode_app_unsigned_to_sink s v) (app_unsigned v).
Proof. unfold app_unsigned. rewrite <-tagged_octets_len. pose proof (unsigned_len_range v). apply stages_count_tagged; [lia|rewrite unsigned_octets_length; lia]. Qed.
Lemma count_app_enumerated v : is_u32 v -> stages_count (fun s => encode_app_enumerated_to_sink s v) (app_enumerated v).
Proof.
  intros Hv. unfold app_enumerated. rewrite <-tagged_octets_len. pose proof (unsigned_len_range v). unfold encode_app_enumerated_to_sink. rewrite enumerated_octets_same by done.
  apply stages_count_tagged; [lia|rewrite unsigned_octets_length; lia].
Qed.
Lemma count_app_object_id o : stages_count (fun s => encode_app_object_id_to_sink s o) (app_object_id o).
Proof. apply (stages_count_tagged TAG_OBJECT_IDENTIFIER ApplicationTag 4 (oid_encode o)); [lia|cbn; lia]. Qed.
Lemma staged_write_buf n f (buf l : bytes) : stages_count f l -> (length l <= n)%nat -> expect_buf (staged_write n buf f) = Some (buf ++ l).
Proof.
  intros Hf Hn. unfold staged_write. destruct (Hf _ n [] (holds_fresh n)) as (s' & -> & _ & _ & H3); [done|]. cbn [app] in H3. rewrite H3. done.
Qed.
Lemma app_unsigned_length v : is_u32 v -> length (app_unsigned v) = S (Z.to_nat (unsigned_len v)) /\ length (app_enumerated v) = S (Z.to_nat (unsigned_len v)).
Proof.
  intros Hv. unfold app_unsigned, app_enumerated. rewrite <-!tagged_octets_len, !length_app, unsigned_octets_length, !tag_header_fields. pose proof (unsigned_len_u32 v Hv).
  unfold number_ext, length_ext. replace (4 <? unsigned_len v) with false by lia. done.
Qed.
Lemma unsigned_len_short v : (is_u8 v -> unsigned_len v = 1) /\ (is_u16 v -> unsigned_len v <= 2).
Proof. unfold is_u8, is_u16, U8_MAX, U16_MAX, unsigned_len. repeat case_match; lia. Qed.

(** ** What is read back *)

Definition wf_range (r : DeviceInstanceRange) : Prop := 0 <= dr_low r /\ dr_low r <= dr_high r /\ dr_high r <= U32_MAX.
Definition who_is_octets (r : WhoIsRequest) : bytes := match wi_range r with Some range => unsigned_member 0 (dr_low range) ++ unsigned_member 1 (dr_high range) | None => [] end.
Definition wf_i_am (r : IAmRequest) : Prop := wf_oid (ia_object_identifier r) /\ is_u32 (ia_max_apdu_length r) /\ is_u8 (ia_segmentation_supported r) /\ is_u16 (ia_vendor_id r).
Definition i_am_octets (r : IAmRequest) : bytes :=
  ((app_object_id (ia_object_identifier r) ++ app_unsigned (ia_max_apdu_length r)) ++ app_enumerated (ia_segmentation_supported r)) ++ app_unsigned (ia_vendor_id r).
Lemma who_is_written r buf : (forall range, wi_range r = Some range -> wf_range range) -> who_is_encode r buf = Some (buf ++ who_is_octets r).
Proof.
  intros Hr. unfold who_is_encode, who_is_encode_to_sink, who_is_octets. destruct (wi_range r) as [range|]; [|by rewrite app_nil_r]. destruct (Hr range eq_refl) as (H1 & H2 & H3).
  apply staged_write_buf; [apply stages_plus; apply count_ctx_unsigned|]. rewrite length_app.
  pose proof (unsigned_member_length 0 (dr_low range) ltac:(lia) ltac:(unfold is_u32; lia)). pose proof (unsigned_member_length 1 (dr_high range) ltac:(lia) ltac:(unfold is_u32; lia)). lia.
Qed.
Lemma narrow_u32 v : is_u8 v \/ is_u16 v -> is_u32 v.
Proof. unfold is_u8, is_u16, is_u32, U8_MAX, U16_MAX, U32_MAX. lia. Qed.
Lemma header_wf number class len : 0 <= number <= 14 -> 0 <= len <= 8 -> wf_bytes (tag_header number class len).
Proof.
  intros Hn Hl. assert (Hall : forallb (fun n => forallb (fun l => forallb (fun c => bool_decide (wf_bytes (tag_header n c l))) [ApplicationTag; ContextTag]) (seqZ 0 9)) (seqZ 0 15) = true) by (vm_compute; reflexivity).
  rewrite forallb_forall in Hall. specialize (Hall number ltac:(apply list_elem_of_In, elem_of_seqZ; lia)). rewrite forallb_forall in Hall. specialize (Hall len ltac:(apply list_elem_of_In, elem_of_seqZ; lia)).
  rewrite forallb_forall in Hall. specialize (Hall class ltac:(destruct class; cbn; tauto)). by apply bool_decide_eq_true in Hall.
Qed.
Lemma unsigned_octets_len v : 0 <= Z.of_nat (length (unsigned_octets v)) <= 8.
Proof. rewrite unsigned_octets_length. pose proof (unsigned_len_range v). lia. Qed.
Lemma unsigned_member_wf tag v : 0 <= tag <= 14 -> is_u32 v -> wf_bytes (unsigned_member tag v).
Proof. intros Ht Hv. apply Forall_app_2; [apply header_wf; [done|apply unsigned_octets_len]|by apply unsigned_octets_wf, u32_u64]. Qed.
Lemma oid_octets_wf o : wf_oid o -> wf_bytes (oid_encode o).
Proof. intros Ho. rewrite oid_encode_value by done. apply to_be32_wf. unfold wf_oid, MAX_INSTANCE in Ho. unfold is_u32, U32_MAX. lia. Qed.
Lemma oid_member_wf tag o : 0 <= tag <= 14 -> wf_oid o -> wf_bytes (oid_member tag o).
Proof. intros Ht Ho. apply Forall_app_2; [apply header_wf; [done|cbn; lia]|by apply oid_octets_wf]. Qed.
Lemma app_values_wf v : is_u32 v -> wf_bytes (app_unsigned v) /\ wf_bytes (app_enumerated v).
Proof. intros Hv. split; (apply Forall_app_2; [apply header_wf; [unfold TAG_UNSIGNED, TAG_ENUMERATED; lia|apply unsigned_octets_len]|by apply unsigned_octets_wf, u32_u64]). Qed.
Lemma app_object_id_wf o : wf_oid o -> wf_bytes (app_object_id o) /\ length (app_object_id o) = 5%nat.
Proof. intros Ho. split; [apply Forall_app_2; [apply header_wf; [unfold TAG_OBJECT_IDENTIFIER; lia|cbn; lia]|by apply oid_octets_wf]|]. unfold app_object_id, tagged. rewrite length_app, tag_header_fields. done. Qed.
Lemma starts_whole l rest : starts (l ++ rest) 0 l.
Proof. exact (starts_here [] l rest). Qed.
Lemma end_here (data : bytes) what n : n = length data -> expect_end data n n what = Ok tt.
Proof. intros ->. unfold expect_end. by rewrite decide_True. Qed.
Lemma small_input l : wf_bytes l -> (length l <= 20)%nat -> input l.
Proof. intros Hw Hl. split; [done|]. unfold ISIZE_MAX. lia. Qed.
Lemma who_is_read r : (forall range, wi_range r = Some range -> wf_range range) -> who_is_decode (who_is_octets r) = Ok r.
Proof.
  intros Hr. destruct r as [[range|]]; [|by vm_compute]. destruct (Hr range eq_refl) as (H1 & H2 & H3). unfold who_is_octets. cbn [wi_range]. destruct range as [low high]. cbn [dr_low dr_high] in *.
  assert (Hlow : is_u32 low) by (unfold is_u32; lia). assert (Hhigh : is_u32 high) by (unfold is_u32; lia).
  pose proof (unsigned_member_length 0 low ltac:(lia) Hlow). pose proof (unsigned_member_length 1 high ltac:(lia) Hhigh).
  assert (Hin : input (unsigned_member 0 low ++ unsigned_member 1 high)) by (apply small_input; [apply Forall_app_2; apply unsigned_member_wf; (done || lia)|rewrite length_app; lia]).
  set (data := unsigned_member 0 low ++ unsigned_member 1 high) in *. assert (Hs : starts data 0 (unsigned_member 0 low ++ unsigned_member 1 high)) by (rewrite <-(app_nil_r data); apply starts_whole).
  apply starts_app in Hs as [Hs1 Hs2]. unfold who_is_decode, limits_decode. rewrite (opt_index_reads _ 0 (Some low) data 0 Hin ltac:(unfold tag_ok; lia) Hlow Hs1) by done. cbn [rbind opt_octets].
  rewrite (opt_index_reads _ 1 (Some high) data _ Hin ltac:(unfold tag_ok; lia) Hhigh Hs2) by done. cbn [rbind opt_octets wl_end]. rewrite end_here by (unfold data; rewrite length_app; lia). cbn [rbind].
  unfold limits_range, range_decoded. cbn. replace (high <? low) with false by lia. done.
Qed.
Lemma i_am_written r buf : wf_i_am r -> i_am_encode r buf = Some (buf ++ i_am_octets r) /\ input (i_am_octets r).
Proof.
  intros (Ho & Hm & Hs & Hv). pose proof (narrow_u32 _ (or_introl Hs)) as Hs32. pose proof (narrow_u32 _ (or_intror Hv)) as Hv32.
  destruct (app_unsigned_length _ Hm) as [M1 _]. destruct (app_unsigned_length _ Hs32) as [_ M2]. destruct (app_unsigned_length _ Hv32) as [M3 _]. destruct (app_object_id_wf _ Ho) as [W1 L1].
  pose proof (unsigned_len_u32 _ Hm). pose proof (proj1 (unsigned_len_short _) Hs). pose proof (proj2 (unsigned_len_short _) Hv). pose proof (unsigned_len_range (ia_vendor_id r)).
  assert (Hlen : (length (i_am_octets r) <= 15)%nat) by (unfold i_am_octets; rewrite !length_app; lia). split.
  - apply staged_write_buf; [|done]. apply stages_plus; [apply stages_plus; [apply stages_plus; [apply count_app_object_id|apply count_app_unsigned]|by apply count_app_enumerated]|apply count_app_unsigned].
  - apply small_input; [|lia]. apply Forall_app_2; [apply Forall_app_2; [apply Forall_app_2; [done|]|]|]; apply app_values_wf; done.
Qed.
Lemma i_am_read r : wf_i_am r -> i_am_decode (i_am_octets r) = Ok r.
Proof.
  intros Hw. destruct (i_am_written r [] Hw) as [_ Hin]. destruct Hw as (Ho & Hm & Hsg & Hv). pose proof (narrow_u32 _ (or_introl Hsg)) as Hs32. pose proof (narrow_u32 _ (or_intror Hv)) as Hv32.
  assert (Hs : starts (i_am_octets r) 0 (app_object_id (ia_object_identifier r) ++ app_unsigned (ia_max_apdu_length r) ++ app_enumerated (ia_segmentation_supported r) ++ app_unsigned (ia_vendor_id r) ++ [])).
  { rewrite app_nil_r, !app_assoc. fold (i_am_octets r). pose proof (starts_whole (i_am_octets r) []) as H. by rewrite app_nil_r in H. }
  unfold i_am_decode. set (data := i_am_octets r) in *. unfold is_u16, U16_MAX, is_u8, U8_MAX in *.
  destruct (reads_at _ _ _ _ _ _ (app_object_id_reads "IAm object identifier" _ Ho) Hin Hs) as [E1 Hs1]. rewrite E1. cbn [rbind].
  destruct (reads_at _ _ _ _ _ _ (app_unsigned_reads width_u32 "IAm max APDU length" _ (u32_u64 _ Hm) ltac:(unfold is_u32 in Hm; cbn; lia)) Hin Hs1) as [E2 Hs2]. rewrite E2. cbn [rbind].
  destruct (reads_at _ _ _ _ _ _ (app_enumerated_reads width_u8 "IAm segmentation" _ (u32_u64 _ Hs32) ltac:(cbn; unfold U8_MAX; lia)) Hin Hs2) as [E3 Hs3]. rewrite E3. cbn [rbind].
  destruct (reads_at _ _ _ _ _ _ (app_unsigned_reads width_u16 "IAm vendor ID" _ (u32_u64 _ Hv32) ltac:(cbn; unfold U16_MAX; lia)) Hin Hs3) as [E4 Hs4]. rewrite E4. cbn [rbind].
  rewrite end_here; [by destruct r|]. unfold data, i_am_octets, app_object_id, app_unsigned, app_enumerated. rewrite !length_app. lia.
Qed.

(** ** Reading a property *)

Definition wf_read (r : ReadPropertyRequest) : Prop := wf_oid (rp_object r) /\ is_u32 (rp_property r) /\ wf_index (rp_index r).
Lemma read_property_staged o p i : stages_count (fun s => encode_reference s o p i false) (object_property_octets o p i).
Proof.
  unfold object_property_octets. rewrite app_assoc, <-(app_nil_r ((_ ++ _) ++ _)). apply stages_plus; [|apply stages_none]. apply stages_plus; [apply stages_plus; [apply count_ctx_object_id|apply count_ctx_unsigned]|].
  destruct i as [i|]; cbn [opt_octets]; [apply count_ctx_unsigned|apply stages_none].
Qed.
(** A ReadProperty request, with or without an array index, is written without a panic in at most fifteen octets and read back as it was. *)
Theorem read_property_encode_decode r buf : wf_read r ->
  exists request, read_property_encode r buf = Some (buf ++ request) /\ (length request <= 15)%nat /\ read_property_decode request = Ok r.
Proof.
  intros (Ho & Hp & Hi). exists (object_property_octets (rp_object r) (rp_property r) (rp_index r)). pose proof (object_property_length (rp_object r) _ _ Hp Hi) as Hlen. split_and!; [apply staged_write_buf; [apply read_property_staged|done]|done|].
  destruct r as [o p i]. cbn [rp_object rp_property rp_index] in *. set (data := object_property_octets o p i) in *. assert (Hin : input data).
  { apply small_input; [|lia]. unfold data, object_property_octets. apply Forall_app_2; [apply oid_member_wf; [lia|done]|]. apply Forall_app_2; [apply unsigned_member_wf; [lia|done]|]. destruct i; [apply unsigned_member_wf; [lia|done]|constructor]. }
  assert (Hs : starts data 0 (oid_member 0 o ++ unsigned_member 1 p ++ opt_octets (unsigned_member 2) i ++ [])) by (rewrite app_nil_r; fold (object_property_octets o p i); fold data; pose proof (starts_whole data []) as H; by rewrite app_nil_r in H).
  unfold read_property_decode.
  destruct (reads_at _ _ _ _ _ _ (ctx_object_id_reads 0 "ReadProperty request object-id" ltac:(unfold tag_ok; lia) _ Ho) Hin Hs) as [E1 Hs1]. rewrite E1. cbn [rbind].
  destruct (reads_at _ _ _ _ _ _ (unsigned_member_reads "ReadProperty request property-id" 1 _ ltac:(unfold tag_ok; lia) Hp) Hin Hs1) as [E2 Hs2]. rewrite E2. cbn [rbind].
  assert (Hall : length data = (0 + length (ctx 0 (oid_encode o)) + length (unsigned_member 1 p) + length (opt_octets (unsigned_member 2) i))%nat) by (unfold data, object_property_octets; rewrite !length_app; unfold oid_member; lia).
  apply starts_app in Hs2 as [Hs2 _]. destruct i as [i|]; cbn [opt_octets] in *.
  - pose proof (unsigned_member_length 2 i ltac:(lia) Hi). rewrite decide_False by lia.
    rewrite (opt_index_reads _ 2 (Some i) data _ Hin ltac:(unfold tag_ok; lia) Hi Hs2) by done. cbn [rbind opt_octets]. rewrite end_here by lia. done.
  - cbn [length] in Hall. rewrite decide_True by lia. done.
Qed.
Lemma read_property_encode_decode_witness : exists request,
  read_property_encode {| rp_object := {| object_type := 0; instance_number := 1 |}; rp_property := 85; rp_index := Some 3 |} [] = Some request /\
  read_property_decode request = Ok {| rp_object := {| object_type := 0; instance_number := 1 |}; rp_property := 85; rp_index := Some 3 |}.
Proof.
  destruct (read_property_encode_decode {| rp_object := {| object_type := 0; instance_number := 1 |}; rp_property := 85; rp_index := Some 3 |} []) as (request & H1 & _ & H2).
  - unfold wf_read, wf_oid, MAX_INSTANCE, is_u32, U32_MAX. cbn. unfold is_u32, U32_MAX. lia.
  - exists request. split; [exact H1|exact H2].
Defined.

(** ** Finding a device *)

Definition wf_identity (i : DeviceIdentity) : Prop := 0 <= di_instance i <= MAX_INSTANCE /\ is_u16 (di_vendor_id i) /\ is_u16 (di_max_apdu_length i) /\ is_u8 (di_segmentation i).
Lemma identity_i_am i : wf_identity i -> wf_i_am (i_am i).
Proof. intros (H1 & H2 & H3 & H4). split_and!; [unfold wf_oid; cbn; lia|apply narrow_u32; by right|done|done]. Qed.
(** C30: A Who-Is for a range of instances, or for every device, is written without a panic and read by a device as it was meant: the device answers exactly when its database holds the Device object it announces and the range takes in its instance, and its I-Am, as written, is read back as what the device announces of itself. *)
Theorem who_is_exchange db i range buf : wf_identity i -> (forall r, range = Some r -> wf_range r) ->
  exists request announcement, who_is_encode {| wi_range := range |} buf = Some (buf ++ request) /\ i_am_encode (i_am i) buf = Some (buf ++ announcement) /\ i_am_decode announcement = Ok (i_am i) /\
    exists answer, who_is db i request = Ok answer /\
      (answer = Some (i_am i) <-> db (device_oid i) = Some (device_oid i) /\ forall r, range = Some r -> dr_low r <= di_instance i <= dr_high r) /\ (answer <> Some (i_am i) -> answer = None).
Proof.
  intros Hi Hr. pose proof (identity_i_am i Hi) as Hw. exists (who_is_octets {| wi_range := range |}), (i_am_octets (i_am i)). split_and!; [by apply who_is_written|by apply i_am_written|by apply i_am_read|].
  unfold who_is. rewrite who_is_read by done. cbn [rbind wi_range]. unfold announcement_device.
  assert (Hdb : forall own, (object_type own =? object_type (device_oid i)) && (instance_number own =? instance_number (device_oid i)) = true <-> own = device_oid i).
  { intros [ty n]. cbn. rewrite andb_true_iff, !Z.eqb_eq. unfold device_oid. split; [intros [-> ->]; done|by intros [= -> ->]]. }
  destruct (db (device_oid i)) as [own|]; [|exists None; split_and!; [done|by split; [|intros [? _]]|done]]. specialize (Hdb own). destruct (_ && _); [|exists None; split_and!; [done| |done]; split; [done|]; intros [[= E] _]; by apply Hdb in E].
  assert (own = device_oid i) as -> by (by apply Hdb). destruct range as [r|]; cbn [device_oid instance_number].
  - unfold range_has. destruct ((dr_low r <=? di_instance i) && (di_instance i <=? dr_high r)) eqn:E; eexists; (split; [done|]); (split; [|done]).
    + split; [|done]. intros _. split; [done|]. intros r' [= <-]. lia.
    + split; [done|]. intros [_ H]. specialize (H r eq_refl). lia.
  - eexists. split; [done|]. split; [|done]. by split.
Qed.
Lemma who_is_exchange_witness : exists request, who_is_encode {| wi_range := Some {| dr_low := 1; dr_high := 9 |} |} [] = Some request /\
  who_is (fun o => Some o) {| di_instance := 5; di_vendor_id := 555; di_max_apdu_length := 1476; di_segmentation := 3 |} request =
    Ok (Some (i_am {| di_instance := 5; di_vendor_id := 555; di_max_apdu_length := 1476; di_segmentation := 3 |})).
Proof.
  destruct (who_is_exchange (fun o => Some o) {| di_instance := 5; di_vendor_id := 555; di_max_apdu_length := 1476; di_segmentation := 3 |} (Some {| dr_low := 1; dr_high := 9 |}) []) as (request & announcement & H1 & _ & _ & answer & H2 & H3 & _).
  - unfold wf_identity, MAX_INSTANCE, is_u16, is_u8, U16_MAX, U8_MAX. cbn. lia.
  - intros r [= <-]. unfold wf_range, U32_MAX. cbn. lia.
  - exists request. split; [exact H1|]. rewrite H2. f_equal. apply H3. split; [reflexivity|]. intros r [= <-]. cbn. lia.
Defined.
